(* ===== verification/_CoqProject ===== *)
-Q . S2P
Prelude.v
Words.v
ParseNumber.v
Checksum.v
CLib.v
LinkedList.v
Pending.v
Avl.v
Reactor.v
ReactorFrame.v
Flow.v
ChunkBuffer.v
PacketBuffer.v
PacketProto.v
FairQueue.v
SinglePacketBuffer.v
PacketStreamSender.v
PacketPassConnector.v
BufferWriter.v
ProtoFlow.v
Inactivity.v
Addr.v
Sockets.v
Connection.v
SocksClient.v
Contract.v
TcpClient.v
Clients.v
IpAddr6.v
Options.v
Device.v
Pbuf.v
PbufChain.v
PbufData.v
PbufRun.v
PbufDevice.v
PbufIssues.v
Ip4.v
Icmp.v
Ip4Run.v
Ip4Out.v
IcmpRun.v
IpReass.v
ReassRun.v
ReassInput.v
Ip4Issues.v
Tap.v
Signals.v
Tun2Socks.v
Stun.v
BindPublic.v
Proxy.v
Tunnel.v
