(* ===== verification/Prelude.v ===== *)
(** * A verification library for the measurement proxy of MATAdOR

    MATAdOR lends measurement nodes a network interface whose packets leave the
    Internet at another node.  The C programs under [src/measurement_proxy] do
    the forwarding; this library models them and proves what makes them
    correct.  Below, a path without a directory is under
    [src/measurement_proxy], one like [flow/PacketBuffer.c] under
    [src/measurement_proxy/tun2socks].

    ** The program

    - [proxy.c] runs on the remote node.  It opens raw and UDP sockets, learns
      its public address with a STUN request ([ministun.c]), and relays:
      datagrams of the tunnel become packets on the wire, and frames from the
      wire that are for the node become datagrams of the tunnel.
      [bind_public.c] is preloaded into programs to bind them to the public
      address.
    - [tunnel.c] runs on the local node.  It copies the proxy to the remote
      node over ssh and starts it, reads from its output where to connect, and
      passes packets between the proxy and the TUN device of tun2socks, which
      runs in the same process.
    - tun2socks ([tun2socks/tun2socks.c]) turns the TCP connections it sees on
      the TUN device into connections through a SOCKS server
      ([socksclient/BSocksClient.c]), on top of the lwIP stack and of the badvpn
      runtime: an event loop ([system/BReactor_badvpn.c]) that runs jobs
      ([base/BPending.c]), timers and file descriptors; interfaces between
      producers and consumers of packets and bytes ([flow/]); containers
      ([structure/]); helpers ([misc/]).

    ** Conventions

    tun2socks is compiled without [NDEBUG] (its Makefile), so an [ASSERT] that
    fails aborts.  A definition that can abort, leave an array or use a dead
    object returns an [option], and [None] means just that: a theorem that a run
    is [Some] is a proof of memory and assertion safety.  Return values of the
    source, errors included, are values inside.  Integers are [Z] at the width
    of their C type with wrap-around written out ([u8] to [u64] below); memory
    is a byte list or a map from addresses; pointers are offsets or addresses
    with [None] for null.  A C object is a record, a handler a function from
    record to record, and what it does to the outside is a list of actions.
    Results of system calls, of lwIP, of the allocator and of the resolver are
    arguments of the operations that ask for them; what a component expects of
    its callers is an executable predicate ([legal], [legal_event], ...) and the
    theorems hold for every sequence of events that respects it.  Bytes that C
    leaves indeterminate are universally quantified.

    ** Files

    Helpers.
    - [Prelude]: notations [ASSERT] and [LET], machine integers, byte images,
      memory access ([store], [bytes_at]), tactics, hint database.
    - [Words]: [misc/byteorder.h], [misc/read_write_int.h], [misc/bsize.h],
      [misc/balign.h], [misc/compare.h].
    - [ParseNumber]: [misc/parse_number.h].
    - [Checksum]: [lwip/src/core/inet_chksum.c], the checksums over chains of
      buffers; [checksums_rfc1071] (equal to the checksum of RFC 1071 over the
      whole data, however it is cut and aligned), [checksum_in_place] (a packet
      that carries its checksum verifies).
    - [Pbuf]: [lwip/src/core/pbuf.c], the operations on a heap of packet buffers
      with their reference counts, and what freeing does.  [PbufChain]: the
      operations that allocate, join, split and cut chains keep the invariant.
      [PbufData]: copying and searching.  [PbufRun]: all of them in any order;
      [pbuf_safe] (no abort, no use after free, no leak, up to the first call of
      three hazardous kinds), [pbuf_payload] (what they do to packets),
      [pbuf_search].  [PbufIssues]: the hazards, and other calls that do not do
      what is documented.
    - [CLib]: the functions of the C library the sources use.
    - [Addr]: [system/BAddr.h].  [IpAddr6]: [misc/ipaddr6.h].

    Runtime.
    - [LinkedList]: [structure/LinkedList1.h], [structure/SLinkedList_impl.h] on
      a store of nodes.  The predicates [linked] and [slinked] relate a store to
      the list of addresses it links; each operation is shown to act on that
      list.
    - [Pending]: [base/BPending.c] on these lists.  Theorem
      [pending_refines_stack]: the jobs are a stack, whatever is called.
    - [Avl]: [structure/CAvl_impl.h], with paths for parent pointers.  The class
      [EntryOrder] is what a comparison function owes to the tree.  Theorem
      [avl_ordered_set]: equivalence with a sorted list, balance, the tree's own
      verification.
    - [Reactor]: [system/BReactor_badvpn.c], [system/BTime.h].  It uses jobs and
      timers through what [Pending] and [Avl] prove of them (the instance
      [compare_timers_order]).  [reactor_safe]: safety and order of dispatching
      for all calls of handlers and all answers of the system;
      [timers_on_time]: when timers expire, and the timeout that is given to
      [epoll_wait].  Of the system it is assumed that a wait that ends without
      events lasted for that timeout.
    - [Flow]: the four interfaces of [flow/], with [flow_jobs_safe].
    - [ChunkBuffer]: [structure/ChunkBuffer2.h]; [chunk_buffer_queue] shows that
      the ring of blocks refines a queue of packets.
    - [PacketBuffer]: [flow/PacketBuffer.c] on [Flow] and [ChunkBuffer];
      [packet_buffer_relays].
    - [PacketProto]: [flow/PacketProtoEncoder.c], [flow/PacketProtoDecoder.c];
      [packetproto_roundtrip].
    - [FairQueue]: [flow/PacketPassFairQueue.c] on [Flow] and [Avl].
      [fair_queue_safe]: for all flows, outputs and orders of events;
      [fair_queue_fair]: two flows that want to send get the same share, also
      when the 64-bit times overflow.
    - [SinglePacketBuffer], [PacketStreamSender], [PacketPassConnector],
      [BufferWriter]: the files of these names in [flow/], each with a theorem
      that it relays packets in order whatever its neighbours do
      ([single_buffer_relays], [stream_sender_exact], [connector_relays],
      [writer_relays]).
    - [ProtoFlow]: [flow/PacketProtoFlow.c], the composition of [BufferWriter],
      the encoder and [PacketBuffer], and with the decoder at the other end of
      the stream: [proto_flow_delivers].
    - [Inactivity]: [flowextra/PacketPassInactivityMonitor.c] on [Flow] and on
      the timers of [Reactor]; [inactivity_reported].
    - [ReactorFrame]: what one object sees of the event loop, when others use
      it too: which timers, descriptors and limits a round or a call leaves as
      they were.
    - [Sockets]: the first half of [system/BConnection_unix.c]: conversion of
      addresses, listening sockets ([BListener]) and outgoing attempts
      ([BConnector]).  Everything a failed initialiser acquired is released on
      each of its error labels.
    - [Connection]: the second half, [BConnection] with its sending and
      receiving interfaces on [Flow] and [Reactor]; [connection_safe], up to the
      first operation that does not fail after a reported error (the code
      expects it to fail, and [error_without_failure] shows an assertion that
      fails otherwise); [connection_exact] (bytes written and read are those of
      the stream, in order), for runs without such an operation.

    tun2socks.
    - [SocksClient]: [socksclient/BSocksClient.c].  [socks_up_sound] and
      [socks_up_complete]: the client reports UP exactly after a complete
      successful handshake; [socks_safe]: for all events.
    - [Contract]: what [SocksClient] assumes of its connection, and the proof
      [connection_refines_contract] that [Connection] implements it.
    - [TcpClient]: [struct tcp_client] and its callbacks.  [client_streams]: both
      directions carry prefixes of what was sent; [client_safe],
      [client_drains], [client_no_stall], [client_window].
    - [Clients]: the list of clients, with each linking and unlinking recorded;
      [clients_counted].
    - [Ip4]: [lwip/src/core/ipv4/ip4_addr.c] and the routing and output of
      [ip4.c] beside it; [Icmp]: [icmp.c] and [ip_input].  [Ip4Run]: what becomes
      of packets of at least twenty bytes from the device
      ([packet_classified]).  [Ip4Out]: output, and
      input of what was put out ([ip_roundtrip]).  [IcmpRun]: echo requests
      ([ping_answered]).  [IpReass]: the reassembly half of [ip_frag.c], with the
      structure that links waiting fragments written over their headers in
      memory, as the code does.  [ReassRun]: one fragment is put into its
      datagram, and the complete datagram becomes one chain of buffers.
      [ReassInput]: fragments from the device ([reassembled]).  [Ip4Issues]:
      packets that are treated wrongly.
    - [Options]: the command line and configuration.
    - [Device]: packets between the device and lwIP, with a chain of buffers as
      the list of its payloads.  [PbufDevice]: the buffers of [Pbuf] do that
      ([packet_in], for all contents of new memory).
    - [Tap]: [tuntap/BTap.c] on [Flow] and [Reactor]; [tap_relays], with every
      error path of opening, reading and closing, and the one report of an
      error.
    - [Signals]: [system/BUnixSignal.c] (the signalfd build), [system/BSignal.c],
      [system/BNetwork.c]; [signals_dispatched].  The end closes the descriptor
      and leaves the signal mask.
    - [Tun2Socks]: start-up, event handling (packets from the device included)
      and clean-up; everything acquired is released once, on every path, the
      clients that are still linked first.

    Proxy and tunnel.
    - [Stun]: [ministun.c].  [BindPublic]: [bind_public.c].
    - [Proxy]: [proxy.c], whole program, with every access of the receive buffer
      and of the port table checked; [proxy_run_safe] goes up to the first fake
      socket whose descriptor is outside of that table, which the code does not
      check.  [Tunnel]: [tunnel.c].  [tunnel_end_to_end] composes the two: a
      packet crosses both unchanged.

    ** Kinds of theorems

    Safety and invariants ([*_safe], [clients_counted]) are proved for all
    sequences of legal events by an invariant that every operation preserves.
    Where the code itself fails for some event ([pbuf_safe], [connection_safe],
    [proxy_run_safe]), the theorem says that a run goes through at least up to
    the first such event, which a predicate describes ([hazard],
    [outlives_error], [bad_descriptor]), and an example shows the failure.
    Refinements ([pending_refines_stack], [chunk_buffer_queue]) and
    equivalences ([avl_ordered_set]) relate an implementation to an abstract
    specification by a representation predicate.  Round trips compose a printer
    and a parser or an encoder and a decoder of the source.  Liveness and
    termination theorems say that a result is reached, not only that it is
    right if reached.

    ** Bounds and fuel

    Recursion is on the data wherever the source walks data.  The loops that
    move timers ([Reactor.move_expired_loop], [move_first_loop]) take one more
    round than the tree has entries ([tree_fuel]), those that walk a chain of
    packet buffers or a list of fragments one more than there are buffers
    ([Pbuf.fuel]), those that walk the unfinished datagrams one more than there
    are, and the proofs show that this never runs out.  The other loops with a fuel argument take the length of
    the text or buffer they consume, and their theorems include that they
    return.  An event loop that waits for ever is a [Sleep] or a list of events
    that ends.

    ** Not modelled

    lwIP apart from its checksums, packet buffers, IPv4 and ICMP (third party;
    its answers are inputs; [Icmp.ip_input] has the reassembly as a parameter,
    which [ReassInput] instantiates, and the making of fragments, which is not
    reached as long as the interface has no MTU, as tun2socks leaves it, is a
    parameter), logging output, generated
    headers, the branches for other systems (kqueue, poll, self-pipe, Windows,
    FreeBSD), the older trees of [structure/] that nothing modelled uses,
    [tools.c] (hex dump), and the Python parts. *)

From Stdlib Require Export ZArith Lia Bool String Ascii.
From stdpp Require Export base tactics numbers list list_numbers option gmap.

Open Scope Z_scope.
#[export] Set Warnings "-clear-no-such-hyp".

(** ** Notations

    The C sources are compiled without [NDEBUG] (tun2socks/Makefile), so
    [ASSERT(e)] aborts the process when [e] is false.  A definition that can
    abort returns an [option]; [None] is the abort (or an access outside an
    object), and every other result, errors included, is a [Some]. *)
Declare Scope mproxy_scope.
Delimit Scope mproxy_scope with mproxy.

Notation "'ASSERT' b 'in' k" := (if b then k else None)
  (at level 10, b at level 99, k at level 200,
   format "'[v' 'ASSERT'  b  'in' '/' k ']'") : mproxy_scope.
Notation "'LET' x '<-' e 'in' k" := (match e with Some x => k | None => None end)
  (at level 10, x pattern, e at level 99, k at level 200,
   format "'[v' 'LET'  x  '<-'  e  'in' '/' k ']'") : mproxy_scope.
Open Scope mproxy_scope.

(** ** Machine integers *)

(** Unsigned wrap-around of C's fixed-width types. *)
Definition u8 (x : Z) : Z := x mod 256.
Definition u16 (x : Z) : Z := x mod 65536.
Definition u32 (x : Z) : Z := x mod 4294967296.
Definition u64 (x : Z) : Z := x mod 18446744073709551616.

Definition UINT8_MAX : Z := 255.
Definition UINT16_MAX : Z := 65535.
Definition UINT64_MAX : Z := 18446744073709551615.
(** [size_t] and [uintmax_t] are 64 bits wide, [int] is 32 bits wide. *)
Definition SIZE_MAX : Z := 18446744073709551615.
Definition INT_MAX : Z := 2147483647.

(** ** Bytes *)

Abbreviation bytes := (list Z).

Definition is_byte (b : Z) : Prop := 0 <= b < 256.
Abbreviation bytes_ok l := (Forall is_byte l).

#[export] Instance is_byte_dec b : Decision (is_byte b).
Proof. unfold is_byte. apply _. Defined.

(** Little- and big-endian images of an integer on [n] bytes. *)
Fixpoint le_enc (n : nat) (x : Z) : bytes :=
  match n with
  | O => []
  | S n => x mod 256 :: le_enc n (x / 256)
  end.

Fixpoint le_dec (l : bytes) : Z :=
  match l with
  | [] => 0
  | b :: l => b + 256 * le_dec l
  end.

Definition be_enc (n : nat) (x : Z) : bytes := rev (le_enc n x).
Definition be_dec (l : bytes) : Z := le_dec (rev l).

(** A C string literal as its bytes (without the terminating NUL). *)
Definition bs (s : string) : bytes :=
  map (fun a => Z.of_N (N_of_ascii a)) (list_ascii_of_string s).

(** The bytes before the first NUL: what [strlen], [strcmp] and [strchr] see.
    A buffer without NUL reads to its end. *)
Fixpoint cstr (l : bytes) : bytes :=
  match l with
  | [] => []
  | b :: l => if b =? 0 then [] else b :: cstr l
  end.

(** [memcpy] into [l] at offset [off]; [None] when it would leave the buffer. *)
Definition store {A} (off : nat) (d l : list A) : option (list A) :=
  if (off + length d <=? length l)%nat
  then Some (take off l ++ d ++ drop (off + length d) l)
  else None.

(** [memcmp] on the common length: the sign of the first difference. *)
Fixpoint memcmp (a b : bytes) : Z :=
  match a, b with
  | x :: a, y :: b => if x <? y then -1 else if y <? x then 1 else memcmp a b
  | _, _ => 0
  end.

(** ** Tactics *)

Create HintDb mproxy.
Create Rewrite HintDb mproxy.

(** Case analysis on a boolean test, recording it as a proposition. *)
Ltac bool_cases :=
  repeat match goal with
  | H : context [?a =? ?b] |- _ => destruct (Z.eqb_spec a b); simpl in H
  | H : context [?a <=? ?b] |- _ => destruct (Z.leb_spec a b); simpl in H
  | H : context [?a <? ?b] |- _ => destruct (Z.ltb_spec a b); simpl in H
  | |- context [?a =? ?b] => destruct (Z.eqb_spec a b); simpl
  | |- context [?a <=? ?b] => destruct (Z.leb_spec a b); simpl
  | |- context [?a <? ?b] => destruct (Z.ltb_spec a b); simpl
  end.

(** Open a successful run of fallible code: every test and every bound call of
    a hypothesis [... = Some _] is split, the failing branches are closed. *)
Ltac run_inv :=
  repeat match goal with
  | H : None = Some _ |- _ => discriminate H
  | H : Some _ = Some _ |- _ => injection H as H
  | H : (if ?b then _ else None) = Some _ |- _ => destruct b eqn:?; [|discriminate H]
  | H : (match ?e with Some _ => _ | None => None end) = Some _ |- _ =>
      destruct e eqn:?; [|discriminate H]
  | H : (let '(_, _) := ?e in _) = Some _ |- _ => destruct e eqn:?
  end.

(** Turn boolean facts in the context into propositions. *)
Ltac to_prop :=
  repeat match goal with
  | H : (_ && _)%bool = true |- _ => apply andb_true_iff in H; destruct H
  | H : (_ || _)%bool = false |- _ => apply orb_false_iff in H; destruct H
  | H : (_ || _)%bool = true |- _ => apply orb_true_iff in H
  | H : (_ && _)%bool = false |- _ => apply andb_false_iff in H
  | H : negb _ = true |- _ => apply negb_true_iff in H
  | H : negb _ = false |- _ => apply negb_false_iff in H
  | H : (_ <=? _) = true |- _ => apply Z.leb_le in H
  | H : (_ <=? _) = false |- _ => apply Z.leb_gt in H
  | H : (_ <? _) = true |- _ => apply Z.ltb_lt in H
  | H : (_ <? _) = false |- _ => apply Z.ltb_ge in H
  | H : (_ =? _) = true |- _ => apply Z.eqb_eq in H
  | H : (_ =? _) = false |- _ => apply Z.eqb_neq in H
  | H : (_ <=? _)%nat = true |- _ => apply Nat.leb_le in H
  | H : (_ <=? _)%nat = false |- _ => apply Nat.leb_gt in H
  | H : (_ <? _)%nat = true |- _ => apply Nat.ltb_lt in H
  | H : (_ <? _)%nat = false |- _ => apply Nat.ltb_ge in H
  | H : (_ =? _)%nat = true |- _ => apply Nat.eqb_eq in H
  | H : (_ =? _)%nat = false |- _ => apply Nat.eqb_neq in H
  end.

(** ** Integer lemmas *)

Lemma u8_range x : 0 <= u8 x < 256.
Proof. apply Z.mod_pos_bound. lia. Qed.
Lemma u16_range x : 0 <= u16 x < 65536.
Proof. apply Z.mod_pos_bound. lia. Qed.
Lemma u32_range x : 0 <= u32 x < 4294967296.
Proof. apply Z.mod_pos_bound. lia. Qed.
Lemma u64_range x : 0 <= u64 x < 18446744073709551616.
Proof. apply Z.mod_pos_bound. lia. Qed.

Lemma u8_small x : 0 <= x < 256 -> u8 x = x.
Proof. apply Z.mod_small. Qed.
Lemma u16_small x : 0 <= x < 65536 -> u16 x = x.
Proof. apply Z.mod_small. Qed.
Lemma u32_small x : 0 <= x < 4294967296 -> u32 x = x.
Proof. apply Z.mod_small. Qed.
Lemma u64_small x : 0 <= x < 18446744073709551616 -> u64 x = x.
Proof. apply Z.mod_small. Qed.

#[export] Hint Resolve u8_range u16_range u32_range u64_range : mproxy.

(** ** Byte-string lemmas *)

Lemma le_enc_length n x : length (le_enc n x) = n.
Proof. revert x; induction n as [|n IH]; intros x; simpl; [done|]. by rewrite IH. Qed.

Lemma be_enc_length n x : length (be_enc n x) = n.
Proof. unfold be_enc. by rewrite length_rev, le_enc_length. Qed.

Lemma le_enc_bytes n x : bytes_ok (le_enc n x).
Proof.
  revert x; induction n as [|n IH]; intros x; simpl; constructor; [|apply IH].
  apply Z.mod_pos_bound. lia.
Qed.

Lemma bytes_ok_rev l : bytes_ok l -> bytes_ok (rev l).
Proof. rewrite !Forall_forall. intros H x Hx. apply H. by apply list_elem_of_In, in_rev, list_elem_of_In. Qed.

Lemma be_enc_bytes n x : bytes_ok (be_enc n x).
Proof. apply bytes_ok_rev, le_enc_bytes. Qed.

Lemma le_dec_enc n x : 0 <= x < 256 ^ Z.of_nat n -> le_dec (le_enc n x) = x.
Proof.
  revert x; induction n as [|n IH]; intros x Hx.
  - simpl in *. lia.
  - rewrite Nat2Z.inj_succ, Z.pow_succ_r in Hx by lia. simpl.
    rewrite IH.
    + pose proof (Z.div_mod x 256). lia.
    + split; [apply Z.div_pos; lia|]. apply Z.div_lt_upper_bound; lia.
Qed.

Lemma le_enc_dec l : bytes_ok l -> le_enc (length l) (le_dec l) = l.
Proof.
  induction 1 as [|b l Hb Hl IH]; [done|]. simpl. unfold is_byte in Hb.
  f_equal.
  - rewrite (Z.mul_comm 256), Z.mod_add, Z.mod_small; lia.
  - rewrite (Z.mul_comm 256), Z.div_add, Z.div_small by lia. apply IH.
Qed.

Lemma le_dec_bound l : bytes_ok l -> 0 <= le_dec l < 256 ^ Z.of_nat (length l).
Proof.
  induction 1 as [|b l Hb Hl IH]; [simpl; lia|].
  cbn [length le_dec]. rewrite Nat2Z.inj_succ, Z.pow_succ_r by lia. unfold is_byte in Hb. lia.
Qed.

Lemma be_dec_enc n x : 0 <= x < 256 ^ Z.of_nat n -> be_dec (be_enc n x) = x.
Proof. intros. unfold be_dec, be_enc. rewrite rev_involutive. by apply le_dec_enc. Qed.

Lemma be_enc_dec l : bytes_ok l -> be_enc (length l) (be_dec l) = l.
Proof.
  intros H. unfold be_dec, be_enc. rewrite <- (length_rev l), le_enc_dec by by apply bytes_ok_rev.
  apply rev_involutive.
Qed.

Lemma be_dec_bound l : bytes_ok l -> 0 <= be_dec l < 256 ^ Z.of_nat (length l).
Proof. intros H. unfold be_dec. rewrite <- (length_rev l). apply le_dec_bound. by apply bytes_ok_rev. Qed.

#[export] Hint Resolve le_enc_bytes be_enc_bytes : mproxy.
#[export] Hint Rewrite le_enc_length be_enc_length : mproxy.

Lemma cstr_app_nul l r : Forall (fun b => b <> 0) l -> cstr (l ++ 0 :: r) = l.
Proof.
  induction 1 as [|b l Hb Hl IH]; [done|]. simpl.
  destruct (Z.eqb_spec b 0); [done|]. by rewrite IH.
Qed.

Lemma store_length {A} off (d l l' : list A) : store off d l = Some l' -> length l' = length l.
Proof.
  unfold store. intros. run_inv; subst. to_prop.
  rewrite !length_app, length_take, length_drop. lia.
Qed.

Lemma store_total {A} off (d l : list A) :
  (off + length d <= length l)%nat -> is_Some (store off d l).
Proof. intros H. unfold store. rewrite (proj2 (Nat.leb_le _ _) H). by eexists. Qed.

Lemma store_prefix {A} off (d l l' : list A) :
  store off d l = Some l' -> take (off + length d) l' = take off l ++ d.
Proof.
  unfold store. intros. run_inv; subst. to_prop. rewrite app_assoc.
  apply take_app_length'. rewrite length_app, length_take. lia.
Qed.

(** The bytes just stored are read back. *)
Lemma store_read {A} off (d l l' : list A) :
  store off d l = Some l' -> take (length d) (drop off l') = d.
Proof.
  unfold store. intros. run_inv; subst. to_prop.
  assert (length (take off l) = off) as Ho by (rewrite length_take; lia).
  rewrite drop_app_length' by done. by rewrite take_app_length.
Qed.

Lemma memcmp_refl_iff a b : length a = length b -> memcmp a b = 0 <-> a = b.
Proof.
  revert b; induction a as [|x a IH]; intros [|y b] H; simpl in *; try done.
  destruct (Z.ltb_spec x y), (Z.ltb_spec y x); try (split; [done|intros [=]; lia]).
  assert (x = y) as -> by lia. rewrite IH by lia. split; [by intros ->|by intros [=]].
Qed.

Lemma store_mid {A} off (d p q r : list A) :
  length p = off -> length q = length d -> store off d (p ++ q ++ r) = Some (p ++ d ++ r).
Proof.
  intros <- Hq. unfold store. rewrite !length_app.
  rewrite (proj2 (Nat.leb_le _ _)) by lia.
  rewrite take_app_length, <- Hq, (app_assoc p q), drop_app_length' by (rewrite length_app; lia). done.
Qed.

(** Splitting a list at an offset inside it. *)
Lemma list_split_at {A} n (l : list A) :
  (n <= length l)%nat -> exists p q, l = p ++ q /\ length p = n.
Proof. intros H. exists (take n l), (drop n l). rewrite take_drop, length_take. split; [done|lia]. Qed.

(** What a list holds after [store]. *)
Lemma store_lookup {A} off (d l l' : list A) i :
  store off d l = Some l' ->
  l' !! i = if (off <=? i)%nat && (i <? off + length d)%nat then d !! (i - off)%nat else l !! i.
Proof.
  unfold store. intros. run_inv; subst. to_prop.
  assert (length (take off l) = off) as Ho by (rewrite length_take; lia).
  destruct (Nat.leb_spec off i); [destruct (Nat.ltb_spec i (off + length d))|]; cbn [andb].
  - rewrite lookup_app_r, Ho by lia. by rewrite lookup_app_l by lia.
  - rewrite lookup_app_r, Ho, lookup_app_r, lookup_drop by lia. f_equal. lia.
  - rewrite lookup_app_l by lia. by apply lookup_take_lt.
Qed.

(** The bytes [d] are in [mem] at offset [off]. *)
Definition bytes_at (mem : bytes) (off : Z) (d : bytes) : Prop :=
  0 <= off /\ forall i x, d !! i = Some x -> mem !! (Z.to_nat off + i)%nat = Some x.

Lemma bytes_at_store mem mem' off d off' d' :
  store off d mem = Some mem' -> bytes_at mem off' d' ->
  (Z.of_nat (off + length d) <= off' \/ off' + Z.of_nat (length d') <= Z.of_nat off) -> bytes_at mem' off' d'.
Proof.
  intros E [H0 H] Hd. split; [done|]. intros i x Hi. rewrite (store_lookup _ _ _ _ _ E).
  pose proof (lookup_lt_Some _ _ _ Hi).
  destruct (Nat.leb_spec off (Z.to_nat off' + i)); [destruct (Nat.ltb_spec (Z.to_nat off' + i) (off + length d))|];
    cbn [andb]; [lia|by apply H..].
Qed.

Lemma bytes_at_stored mem mem' off d : 0 <= off -> store (Z.to_nat off) d mem = Some mem' -> bytes_at mem' off d.
Proof.
  intros H0 E. split; [done|]. intros i x Hi. rewrite (store_lookup _ _ _ _ _ E).
  pose proof (lookup_lt_Some _ _ _ Hi).
  rewrite (proj2 (Nat.leb_le _ _)), (proj2 (Nat.ltb_lt _ _)) by lia. cbn [andb]. by replace (Z.to_nat off + i - Z.to_nat off)%nat with i by lia.
Qed.

Lemma bytes_at_read mem off d : bytes_at mem off d -> take (length d) (drop (Z.to_nat off) mem) = d.
Proof.
  intros [_ H]. apply list_eq. intros i. destruct (decide (i < length d)%nat) as [Hl|Hl].
  - rewrite lookup_take_lt, lookup_drop by done. destruct (lookup_lt_is_Some_2 d i Hl) as [x Hx].
    rewrite Hx. by apply H.
  - rewrite lookup_take_ge by lia. symmetry. apply lookup_ge_None. lia.
Qed.

Lemma bytes_at_app mem off d d' :
  bytes_at mem off (d ++ d') -> bytes_at mem off d /\ bytes_at mem (off + Z.of_nat (length d)) d'.
Proof.
  intros [H0 H]. split; (split; [lia|]); intros i x Hi.
  - apply H. rewrite lookup_app_l; [done|]. by eapply lookup_lt_Some.
  - replace (Z.to_nat (off + Z.of_nat (length d)) + i)%nat with (Z.to_nat off + (length d + i))%nat by lia.
    apply H. rewrite lookup_app_r by lia. by replace (length d + i - length d)%nat with i by lia.
Qed.

Lemma bytes_at_join mem off d d' :
  bytes_at mem off d -> bytes_at mem (off + Z.of_nat (length d)) d' -> bytes_at mem off (d ++ d').
Proof.
  intros [H0 H] [_ H']. split; [done|]. intros i x. rewrite lookup_app.
  destruct (d !! i) as [y|] eqn:E; [intros [= <-]; by apply H|]. intros Hi. apply lookup_ge_None in E. apply H' in Hi.
  rewrite <- Hi. f_equal. lia.
Qed.

(** ** Machines

    Several components are driven by events that come in any order: an event
    that is not [legal] in a state cannot happen there, the others step. *)
Section machine.
Context {S E A : Type} (legal : S -> E -> bool) (step : S -> E -> option (S * list A)).

Fixpoint machine_run (s : S) (evs : list E) : option (S * list A) :=
  match evs with
  | [] => Some (s, [])
  | ev :: evs =>
      if legal s ev then LET (s, a) <- step s ev in LET (s, a') <- machine_run s evs in Some (s, a ++ a')
      else machine_run s evs
  end.

(** An invariant of the state and of what was done so far makes every run go
    through. *)
Lemma machine_invariant (I : S -> list A -> Prop) :
  (forall s h ev, I s h -> legal s ev = true -> exists s' a, step s ev = Some (s', a) /\ I s' (h ++ a)) ->
  forall evs s h, I s h -> exists s' a, machine_run s evs = Some (s', a) /\ I s' (h ++ a).
Proof.
  intros Step. induction evs as [|ev evs IH]; intros s h Hs; cbn [machine_run]; [exists s, []; by rewrite app_nil_r|].
  destruct (legal s ev) eqn:Hl; [|by apply IH]. destruct (Step s h ev Hs Hl) as (s1 & a1 & -> & H1).
  destruct (IH s1 (h ++ a1) H1) as (s2 & a2 & -> & H2). exists s2, (a1 ++ a2). by rewrite app_assoc.
Qed.

(** When only events that are not [bad] keep the invariant, a run goes through
    at least up to the first bad one. *)
Lemma machine_until (bad : S -> E -> bool) (I : S -> list A -> Prop) :
  (forall s h ev, I s h -> legal s ev = true -> bad s ev = false -> exists s' a, step s ev = Some (s', a) /\ I s' (h ++ a)) ->
  forall evs s h, I s h -> exists ran rest s' a, evs = ran ++ rest /\ machine_run s ran = Some (s', a) /\ I s' (h ++ a) /\
    match rest with [] => True | ev :: _ => legal s' ev = true /\ bad s' ev = true end.
Proof.
  intros Step. induction evs as [|ev evs IH]; intros s h Hs; [exists [], [], s, []; rewrite (app_nil_r h); by repeat split|].
  destruct (legal s ev) eqn:Hl; [|destruct (IH s h Hs) as (ran & rest & s2 & a2 & -> & E2 & H); exists (ev :: ran), rest, s2, a2; cbn; by rewrite Hl].
  destruct (bad s ev) eqn:Hb; [exists [], (ev :: evs), s, []; rewrite (app_nil_r h); by repeat split|].
  destruct (Step s h ev Hs Hl Hb) as (s1 & a1 & E1 & H1). destruct (IH s1 (h ++ a1) H1) as (ran & rest & s2 & a2 & -> & E2 & H).
  exists (ev :: ran), rest, s2, (a1 ++ a2). cbn [app machine_run]. by rewrite Hl, E1, E2, app_assoc.
Qed.

(** No event of a run is bad. *)
Fixpoint machine_clean (bad : S -> E -> bool) (s : S) (evs : list E) : bool :=
  match evs with
  | [] => true
  | ev :: evs =>
      if legal s ev then negb (bad s ev) && match step s ev with Some (s, _) => machine_clean bad s evs | None => true end
      else machine_clean bad s evs
  end.

Lemma machine_clean_rest bad ran : forall s rest s' a, machine_clean bad s (ran ++ rest) = true -> machine_run s ran = Some (s', a) ->
  match rest with [] => True | ev :: _ => legal s' ev = true /\ bad s' ev = true end -> rest = [].
Proof.
  induction ran as [|ev ran IH]; intros s rest s' a; cbn [app machine_run machine_clean].
  - intros Hc [= <- _]. destruct rest as [|ev rest]; [done|]. intros [Hl Hb]. cbn in Hc. by rewrite Hl, Hb in Hc.
  - destruct (legal s ev); [|apply IH]. destruct (step s ev) as [[s1 a1]|]; [|done]. intros [_ Hc]%andb_true_iff.
    destruct (machine_run s1 ran) as [[s2 a2]|] eqn:E1; [|done]. intros [= <- _]. by apply (IH s1 rest s2 a2).
Qed.
End machine.
