(* ===== verification/Words.v ===== *)
(** * Byte order, integer images and overflow-checked sizes

    Models [misc/byteorder.h], [misc/read_write_int.h], [misc/bsize.h],
    [misc/balign.h] and [misc/compare.h] of tun2socks for the build of its
    Makefile (BADVPN_LITTLE_ENDIAN, 64-bit [size_t]).  Integers are [Z] kept in
    the range of their C type; byte pointers are byte lists. *)

From S2P Require Import Prelude.

(** ** byteorder.h *)
Module ByteOrder.

(** [badvpn_reverse16] and friends permute the bytes of the object
    representation, which is little-endian in this build. *)
Definition badvpn_reverse16 (x : Z) : Z :=
  match le_enc 2 x with
  | [x0; x1] => le_dec [x1; x0]
  | _ => 0
  end.

Definition badvpn_reverse32 (x : Z) : Z :=
  match le_enc 4 x with
  | [x0; x1; x2; x3] => le_dec [x3; x2; x1; x0]
  | _ => 0
  end.

Definition badvpn_reverse64 (x : Z) : Z :=
  match le_enc 8 x with
  | [x0; x1; x2; x3; x4; x5; x6; x7] => le_dec [x7; x6; x5; x4; x3; x2; x1; x0]
  | _ => 0
  end.

Definition hton8 (x : Z) : Z := x.
Definition hton16 (x : Z) : Z := badvpn_reverse16 x.
Definition hton32 (x : Z) : Z := badvpn_reverse32 x.
Definition hton64 (x : Z) : Z := badvpn_reverse64 x.
Definition htol16 (x : Z) : Z := x.
Definition ntoh8 (x : Z) : Z := hton8 x.
Definition ntoh16 (x : Z) : Z := hton16 x.
Definition ntoh32 (x : Z) : Z := hton32 x.
Definition ntoh64 (x : Z) : Z := hton64 x.
Definition ltoh16 (x : Z) : Z := htol16 x.

(** [ntohs]/[htons]/[htonl] of the C library on a little-endian host. *)
Definition htons (x : Z) : Z := be_dec (le_enc 2 x).
Definition htonl (x : Z) : Z := be_dec (le_enc 4 x).

Lemma reverse_be n x : be_dec (le_enc n x) = le_dec (rev (le_enc n x)).
Proof. done. Qed.

Lemma hton16_be x : hton16 x = be_dec (le_enc 2 x).
Proof. done. Qed.
Lemma hton32_be x : hton32 x = be_dec (le_enc 4 x).
Proof. done. Qed.
Lemma hton64_be x : hton64 x = be_dec (le_enc 8 x).
Proof. done. Qed.

(** Storing a value converted with [hton] leaves its big-endian image. *)
Lemma le_enc_be_dec n x : le_enc n (be_dec (le_enc n x)) = be_enc n x.
Proof.
  unfold be_dec, be_enc.
  pose proof (le_enc_dec (rev (le_enc n x)) (bytes_ok_rev _ (le_enc_bytes n x))) as H.
  by rewrite length_rev, le_enc_length in H.
Qed.

Lemma be_dec_le_enc_invol n x :
  0 <= x < 256 ^ Z.of_nat n -> be_dec (le_enc n (be_dec (le_enc n x))) = x.
Proof. intros H. rewrite le_enc_be_dec. by apply be_dec_enc. Qed.

Lemma be_dec_le_enc_range n x : 0 <= be_dec (le_enc n x) < 256 ^ Z.of_nat n.
Proof. pose proof (be_dec_bound _ (le_enc_bytes n x)) as H. by rewrite le_enc_length in H. Qed.

Lemma hton16_range x : 0 <= hton16 x < 65536.
Proof. rewrite hton16_be. apply (be_dec_le_enc_range 2). Qed.
Lemma hton32_range x : 0 <= hton32 x < 4294967296.
Proof. rewrite hton32_be. apply (be_dec_le_enc_range 4). Qed.

Lemma hton16_invol x : 0 <= x < 65536 -> hton16 (hton16 x) = x.
Proof. intros H. rewrite !hton16_be. by apply (be_dec_le_enc_invol 2). Qed.
Lemma hton32_invol x : 0 <= x < 4294967296 -> hton32 (hton32 x) = x.
Proof. intros H. rewrite !hton32_be. by apply (be_dec_le_enc_invol 4). Qed.

Lemma hton16_image x : le_enc 2 (hton16 x) = be_enc 2 x.
Proof. rewrite hton16_be. apply le_enc_be_dec. Qed.
Lemma hton32_image x : le_enc 4 (hton32 x) = be_enc 4 x.
Proof. rewrite hton32_be. apply le_enc_be_dec. Qed.

#[export] Hint Resolve hton16_range hton32_range : mproxy.

End ByteOrder.

(** ** read_write_int.h *)
Module ReadWriteInt.

(** Reads see the bytes at a pointer; a short list is an access outside the
    object and gives [None]. *)
Definition badvpn_read_le16 (p : bytes) : option Z :=
  match p with
  | p0 :: p1 :: _ => Some (Z.lor (Z.shiftl p1 8) (Z.shiftl p0 0))
  | _ => None
  end.

Definition badvpn_read_be16 (p : bytes) : option Z :=
  match p with
  | p0 :: p1 :: _ => Some (Z.lor (Z.shiftl p0 8) (Z.shiftl p1 0))
  | _ => None
  end.

Definition badvpn_read_be32 (p : bytes) : option Z :=
  match p with
  | p0 :: p1 :: p2 :: p3 :: _ =>
      Some (Z.lor (Z.lor (Z.lor (Z.shiftl p0 24) (Z.shiftl p1 16)) (Z.shiftl p2 8)) (Z.shiftl p3 0))
  | _ => None
  end.

(** Writes return the bytes left at the pointer. *)
Definition badvpn_write_be16 (x : Z) : bytes := [u8 (Z.shiftr x 8); u8 (Z.shiftr x 0)].
Definition badvpn_write_be32 (x : Z) : bytes :=
  [u8 (Z.shiftr x 24); u8 (Z.shiftr x 16); u8 (Z.shiftr x 8); u8 (Z.shiftr x 0)].

(** [lor] of a shifted value and a byte below it is a sum. *)
Lemma lor_shift_add a b n : 0 <= n -> 0 <= b < 2 ^ n -> Z.lor (Z.shiftl a n) b = a * 2 ^ n + b.
Proof.
  intros Hn Hb. rewrite <- Z.shiftl_mul_pow2 by done.
  rewrite <- Z.add_lor_land.
  enough (Z.land (Z.shiftl a n) b = 0) as -> by lia.
  apply Z.bits_inj'.
  intros i Hi. rewrite Z.land_spec, Z.bits_0.
  destruct (Z.lt_ge_cases i n).
  - rewrite Z.shiftl_spec_low by done. done.
  - rewrite <- (Z.mod_small b (2 ^ n)) by done.
    by rewrite Z.mod_pow2_bits_high, andb_false_r by lia.
Qed.

Lemma badvpn_read_be16_spec p :
  bytes_ok p -> (2 <= length p)%nat -> badvpn_read_be16 p = Some (be_dec (take 2 p)).
Proof.
  intros Hp Hl. destruct p as [|p0 [|p1 p]]; simpl in Hl; try lia.
  inversion_clear Hp as [|? ? H0 Hp']. inversion_clear Hp' as [|? ? H1 _].
  unfold is_byte in *. simpl. rewrite Z.shiftl_0_r, lor_shift_add by lia.
  f_equal. unfold be_dec. simpl. lia.
Qed.

Lemma badvpn_write_be16_spec x : badvpn_write_be16 x = be_enc 2 x.
Proof. unfold badvpn_write_be16, be_enc, u8. simpl. by rewrite Z.shiftr_0_r, Z.shiftr_div_pow2. Qed.

Lemma badvpn_write_be32_spec x : badvpn_write_be32 x = be_enc 4 x.
Proof.
  unfold badvpn_write_be32, be_enc, u8. simpl.
  rewrite Z.shiftr_0_r, !Z.shiftr_div_pow2, !Z.div_div by lia. done.
Qed.

End ReadWriteInt.

(** ** bsize.h, balign.h and compare.h *)
Module Bsize.

Record bsize_t := { is_overflow : bool; value : Z }.

Definition bsize_fromsize (v : Z) : bsize_t := {| is_overflow := false; value := v |}.

(** The [int] argument is converted to [size_t] in the second comparison and
    in the stored value. *)
Definition bsize_fromint (v : Z) : bsize_t :=
  {| is_overflow := (v <? 0) || (SIZE_MAX <? u64 v); value := u64 v |}.

Definition bsize_overflow : bsize_t := {| is_overflow := true; value := 0 |}.

Definition bsize_tosize (s : bsize_t) : option Z :=
  if is_overflow s then None else Some (value s).

Definition bsize_toint (s : bsize_t) : option Z :=
  if is_overflow s || (INT_MAX <? value s) then None else Some (value s).

Definition bsize_add (s1 s2 : bsize_t) : bsize_t :=
  {| is_overflow := is_overflow s1 || is_overflow s2 || (SIZE_MAX - value s1 <? value s2);
     value := u64 (value s1 + value s2) |}.

Definition bsize_max (s1 s2 : bsize_t) : bsize_t :=
  {| is_overflow := is_overflow s1 || is_overflow s2;
     value := Z.b2z (value s2 <? value s1) * value s1 + Z.b2z (value s1 <=? value s2) * value s2 |}.

Definition bsize_mul (s1 s2 : bsize_t) : bsize_t :=
  {| is_overflow := is_overflow s1 || is_overflow s2
       || (negb (value s1 =? 0) && (SIZE_MAX / value s1 <? value s2));
     value := u64 (value s1 * value s2) |}.

Definition balign_up_overflows (x n : Z) : bool :=
  let r := x mod n in negb (r =? 0) && (SIZE_MAX - (n - r) <? x).
Definition balign_up (x n : Z) : Z :=
  let r := x mod n in if r =? 0 then x else u64 (x + (n - r)).
Definition balign_down (x n : Z) : Z := x - x mod n.
Definition bdivide_up (a b : Z) : Z :=
  let r := a mod b in if 0 <? r then a / b + 1 else a / b.

Definition B_COMPARE (a b : Z) : Z := Z.b2z (b <? a) - Z.b2z (a <? b).

(** Size computations as the sources write them. *)
Inductive size_expr :=
  | Size (v : Z)
  | SAdd (a b : size_expr)
  | SMul (a b : size_expr)
  | SMax (a b : size_expr).

Fixpoint compute (e : size_expr) : bsize_t :=
  match e with
  | Size v => bsize_fromsize v
  | SAdd a b => bsize_add (compute a) (compute b)
  | SMul a b => bsize_mul (compute a) (compute b)
  | SMax a b => bsize_max (compute a) (compute b)
  end.

(** The exact value, over the mathematical integers. *)
Fixpoint exact (e : size_expr) : Z :=
  match e with
  | Size v => v
  | SAdd a b => exact a + exact b
  | SMul a b => exact a * exact b
  | SMax a b => Z.max (exact a) (exact b)
  end.

Fixpoint leaves_ok (e : size_expr) : Prop :=
  match e with
  | Size v => 0 <= v <= SIZE_MAX
  | SAdd a b | SMul a b | SMax a b => leaves_ok a /\ leaves_ok b
  end.

(** Every subexpression fits. *)
Fixpoint all_fit (e : size_expr) : Prop :=
  exact e <= SIZE_MAX /\
  match e with
  | Size _ => True
  | SAdd a b | SMul a b | SMax a b => all_fit a /\ all_fit b
  end.

Lemma u64_fit x : 0 <= x <= SIZE_MAX -> u64 x = x.
Proof. unfold SIZE_MAX. intros. apply u64_small. lia. Qed.

Lemma exact_nonneg e : leaves_ok e -> 0 <= exact e.
Proof.
  induction e as [v|a IHa b IHb|a IHa b IHb|a IHa b IHb]; simpl; [lia| | |];
    intros [La Lb]; specialize (IHa La); specialize (IHb Lb); nia.
Qed.

Lemma mul_fits a b : 0 < a -> 0 <= b -> SIZE_MAX / a < b <-> SIZE_MAX < a * b.
Proof.
  intros Ha Hb. split; intros H.
  - apply Z.nle_gt. intros Hle. apply (Z.div_le_lower_bound SIZE_MAX a b) in Hle; lia.
  - apply Z.nle_gt. intros Hle. pose proof (Z.mul_div_le SIZE_MAX a Ha).
    assert (a * b <= a * (SIZE_MAX / a)) by nia. lia.
Qed.

Lemma max_b2z a b : Z.b2z (b <? a) * a + Z.b2z (a <=? b) * b = Z.max a b.
Proof. destruct (Z.ltb_spec b a), (Z.leb_spec a b); cbn [Z.b2z]; lia. Qed.

Lemma compute_sound e :
  leaves_ok e -> is_overflow (compute e) = false ->
  value (compute e) = exact e /\ 0 <= exact e <= SIZE_MAX.
Proof.
  induction e as [v|a IHa b IHb|a IHa b IHb|a IHa b IHb]; simpl; [done| | |];
    intros [La Lb] H; apply orb_false_iff in H; destruct H as [H H'];
    try (apply orb_false_iff in H; destruct H as [Ha Hb]).
  - destruct (IHa La Ha) as [Ea Ra], (IHb Lb Hb) as [Eb Rb].
    to_prop. rewrite Ea, Eb in *. rewrite u64_fit; lia.
  - destruct (IHa La Ha) as [Ea Ra], (IHb Lb Hb) as [Eb Rb].
    rewrite Ea, Eb in *. destruct (Z.eqb_spec (exact a) 0) as [->|Hz]; simpl in H'.
    + rewrite Z.mul_0_l. split; [done|unfold SIZE_MAX; lia].
    + to_prop. assert (~ SIZE_MAX < exact a * exact b) by (rewrite <- mul_fits; lia).
      assert (0 <= exact a * exact b) by nia. rewrite u64_fit; lia.
  - destruct (IHa La H) as [Ea Ra], (IHb Lb H') as [Eb Rb].
    rewrite Ea, Eb, max_b2z. lia.
Qed.

Lemma compute_complete e :
  leaves_ok e -> all_fit e -> is_overflow (compute e) = false.
Proof.
  induction e as [v|a IHa b IHb|a IHa b IHb|a IHa b IHb]; simpl; [done| | |];
    intros [La Lb] [Hfit [Fa Fb]];
    pose proof (IHa La Fa) as Ha; pose proof (IHb Lb Fb) as Hb; rewrite Ha, Hb;
    destruct (compute_sound a La Ha) as [Ea Ra], (compute_sound b Lb Hb) as [Eb Rb];
    rewrite ?Ea, ?Eb; simpl.
  - apply Z.ltb_ge. lia.
  - destruct (Z.eqb_spec (exact a) 0); simpl; [done|].
    apply Z.ltb_ge, Z.nlt_ge. rewrite mul_fits by lia. lia.
  - done.
Qed.

Lemma bdivide_up_spec a b : 0 < b -> 0 <= a -> b * bdivide_up a b - b < a <= b * bdivide_up a b.
Proof.
  intros Hb Ha. unfold bdivide_up. pose proof (Z.div_mod a b). pose proof (Z.mod_pos_bound a b Hb).
  destruct (Z.ltb_spec 0 (a mod b)); lia.
Qed.

Lemma bdivide_up_nonneg a b : 0 < b -> 0 <= a -> 0 <= bdivide_up a b.
Proof. intros Hb Ha. pose proof (bdivide_up_spec a b Hb Ha). nia. Qed.

(** [bdivide_up] is monotone and exact on multiples. *)
Lemma bdivide_up_le a b k : 0 < b -> 0 <= a -> a <= b * k -> bdivide_up a b <= k.
Proof. intros Hb Ha H. pose proof (bdivide_up_spec a b Hb Ha). nia. Qed.

End Bsize.

(** ** Properties *)

Import ByteOrder ReadWriteInt Bsize.

(** Byte order.  For every 16-bit and 32-bit value, [hton16]/[hton32]
    followed by the matching [ntoh] is the identity, and the object written
    to memory by storing the converted value is the value's big-endian byte
    image, which [badvpn_read_be16] reads back. *)
Theorem byteorder_network_image x y :
  0 <= x < 65536 -> 0 <= y < 4294967296 ->
  ntoh16 (hton16 x) = x /\ ntoh32 (hton32 y) = y /\
  le_enc 2 (hton16 x) = badvpn_write_be16 x /\
  le_enc 4 (hton32 y) = badvpn_write_be32 y /\
  badvpn_read_be16 (le_enc 2 (hton16 x)) = Some x.
Proof.
  intros Hx Hy. unfold ntoh16, ntoh32.
  rewrite hton16_invol, hton32_invol, hton16_image, hton32_image by done.
  rewrite badvpn_write_be16_spec, badvpn_write_be32_spec.
  rewrite badvpn_read_be16_spec; [|apply be_enc_bytes|rewrite be_enc_length; lia].
  rewrite take_ge, be_dec_enc; [done|done|rewrite be_enc_length; lia].
Qed.

Lemma byteorder_network_image_witness :
  0 <= 0x1234 < 65536 /\ 0 <= 0xC0A80001 < 4294967296 /\
  badvpn_read_be16 (le_enc 2 (hton16 0x1234)) = Some 0x1234.
Proof.
  split; [lia|]. split; [lia|].
  destruct (byteorder_network_image 0x1234 0xC0A80001) as (_ & _ & _ & _ & H); [lia|lia|exact H].
Defined.

(** Overflow-checked size arithmetic.  For every expression built from
    sizes with [bsize_add], [bsize_mul] and [bsize_max]: when the flag is
    clear the value is the exact mathematical result and fits [size_t]; when
    the exact result of every subexpression fits, the flag is clear. *)
Theorem bsize_exact e :
  leaves_ok e ->
  (is_overflow (compute e) = false -> value (compute e) = exact e /\ 0 <= exact e <= SIZE_MAX) /\
  (all_fit e -> is_overflow (compute e) = false).
Proof. intros H. split; [by apply compute_sound|by apply compute_complete]. Qed.

Lemma bsize_exact_witness :
  leaves_ok (SAdd (Size 2) (SMul (Size 200) (Size 1))) /\
  value (compute (SAdd (Size 2) (SMul (Size 200) (Size 1)))) = 202 /\
  is_overflow (compute (SMul (Size SIZE_MAX) (Size 2))) = true.
Proof.
  assert (leaves_ok (SAdd (Size 2) (SMul (Size 200) (Size 1)))) as L
    by (unfold leaves_ok, SIZE_MAX; lia).
  split; [exact L|]. split; [|reflexivity].
  destruct (bsize_exact _ L) as [H _]. exact (proj1 (H eq_refl)).
Defined.
