(* ===== verification/ParseNumber.v ===== *)
(** * Numeric strings

    Models [misc/parse_number.h].  A [MemRef] is its byte list.  The parsing
    functions return [1] and write an output or return [0]: an [option] whose
    [None] is the return value [0].  [uintmax_t] arithmetic wraps at 2^64. *)

From S2P Require Import Prelude.

Module ParseNumber.

Definition chr_0 : Z := 48.
Definition chr_9 : Z := 57.

Definition parse_number__uintmax_max_str : bytes := bs "18446744073709551615".

(** The [switch] over the characters '0'..'9'; -1 otherwise. *)
Definition decode_decimal_digit (c : Z) : Z :=
  if (48 <=? c) && (c <=? 57) then c - 48 else -1.

Definition decode_hex_digit (c : Z) : Z :=
  if (48 <=? c) && (c <=? 57) then c - 48
  else if (65 <=? c) && (c <=? 70) then c - 55
  else if (97 <=? c) && (c <=? 102) then c - 87
  else -1.

(** The loop of [parse__no_overflow]; [n] is the accumulator. *)
Fixpoint parse__no_overflow_loop (str : bytes) (n : Z) : option Z :=
  match str with
  | [] => Some n
  | c :: str =>
      if (c <? chr_0) || (chr_9 <? c) then None
      else parse__no_overflow_loop str (u64 (10 * n + (c - chr_0)))
  end.
Definition parse__no_overflow (str : bytes) : option Z := parse__no_overflow_loop str 0.

(** [while (str.len > 0 && *str.ptr == '0')] *)
Fixpoint skip_zeros (str : bytes) : bytes :=
  match str with
  | c :: str' => if c =? chr_0 then skip_zeros str' else str
  | [] => []
  end.

Definition parse_unsigned_integer (str : bytes) : option Z :=
  match str with
  | [] => None
  | _ =>
      let str := skip_zeros str in
      let max := parse_number__uintmax_max_str in
      if (length max <? length str)%nat
         || ((length str =? length max)%nat && (0 <? memcmp str max))
      then None
      else parse__no_overflow str
  end.

Fixpoint parse_hex_loop (str : bytes) (n : Z) : option Z :=
  match str with
  | [] => Some n
  | c :: str =>
      let digit := decode_hex_digit c in
      if digit <? 0 then None
      else if UINT64_MAX / 16 <? n then None
      else
        let n := u64 (n * 16) in
        if UINT64_MAX - n <? digit then None
        else parse_hex_loop str (u64 (n + digit))
  end.
Definition parse_unsigned_hex_integer (str : bytes) : option Z :=
  match str with [] => None | _ => parse_hex_loop str 0 end.

(** Returns the sign and the magnitude. *)
Definition parse_signmag_integer (str : bytes) : option (Z * Z) :=
  let '(sign, str) :=
    match str with
    | c :: rest => if (c =? 43) || (c =? 45) then (1 - 2 * Z.b2z (c =? 45), rest) else (1, str)
    | [] => (1, str)
    end in
  match parse_unsigned_integer str with
  | None => None
  | Some mag => Some (sign, mag)
  end.

(** The [do ... while (x > 0)] loops run at most twenty times on a 64-bit
    value; [fuel] bounds them. *)
Fixpoint repr_size_loop (fuel : nat) (x size : Z) : option Z :=
  match fuel with
  | O => None
  | S fuel =>
      let size := size + 1 in
      let x := x / 10 in
      if 0 <? x then repr_size_loop fuel x size else Some size
  end.
Definition compute_decimal_repr_size (x : Z) : option Z := repr_size_loop 20 x 0.

(** [pos] is the index [out] points to; the loop writes at [--out]. *)
Fixpoint repr_loop (fuel : nat) (x : Z) (pos : nat) (out : bytes) : option bytes :=
  match fuel, pos with
  | S fuel, S pos =>
      LET out <- store pos [chr_0 + x mod 10] out in
      let x := x / 10 in
      if 0 <? x then repr_loop fuel x pos out else Some out
  | _, _ => None
  end.

Definition generate_decimal_repr (x : Z) (out : bytes) (repr_size : Z) : option bytes :=
  LET size <- compute_decimal_repr_size x in
  ASSERT repr_size =? size in
  repr_loop 20 x (Z.to_nat repr_size) out.

(** Returns the size and the buffer. *)
Definition generate_decimal_repr_string (x : Z) (out : bytes) : option (Z * bytes) :=
  LET repr_size <- compute_decimal_repr_size x in
  LET out <- generate_decimal_repr x out repr_size in
  LET out <- store (Z.to_nat repr_size) [0] out in
  Some (repr_size, out).

(** ** Specification: strings of digits and their values *)

Definition is_digit (c : Z) : Prop := chr_0 <= c <= chr_9.

Definition dec_value (str : bytes) : Z := fold_left (fun n c => 10 * n + (c - chr_0)) str 0.

Definition hex_value (str : bytes) : Z := fold_left (fun n c => 16 * n + decode_hex_digit c) str 0.

(** The decimal representation, most significant digit first, as the loop
    produces it. *)
Fixpoint dec_digits (fuel : nat) (x : Z) (acc : bytes) : bytes :=
  match fuel with
  | O => acc
  | S fuel =>
      let acc := (chr_0 + x mod 10) :: acc in
      if 0 <? x / 10 then dec_digits fuel (x / 10) acc else acc
  end.
Definition dec_repr (x : Z) : bytes := dec_digits 20 x [].

(** *** Values *)

Lemma dec_value_from n str :
  fold_left (fun n c => 10 * n + (c - chr_0)) str n = n * 10 ^ Z.of_nat (length str) + dec_value str.
Proof.
  unfold dec_value. revert n. induction str as [|c str IH]; intros n; [simpl; lia|].
  cbn [fold_left length]. rewrite IH, (IH (10 * 0 + (c - chr_0))), Nat2Z.inj_succ, Z.pow_succ_r by lia.
  ring.
Qed.

Lemma dec_value_cons c str :
  dec_value (c :: str) = (c - chr_0) * 10 ^ Z.of_nat (length str) + dec_value str.
Proof. unfold dec_value at 1. cbn [fold_left]. rewrite dec_value_from. ring. Qed.

Lemma dec_value_snoc str c : dec_value (str ++ [c]) = 10 * dec_value str + (c - chr_0).
Proof. unfold dec_value. by rewrite fold_left_app. Qed.

Lemma dec_value_bound str : Forall is_digit str -> 0 <= dec_value str < 10 ^ Z.of_nat (length str).
Proof.
  induction 1 as [|c str Hc Hs IH]; [done|].
  rewrite dec_value_cons. cbn [length]. rewrite Nat2Z.inj_succ, Z.pow_succ_r by lia.
  unfold is_digit, chr_0, chr_9 in *. nia.
Qed.

Lemma skip_zeros_digits str : Forall is_digit (skip_zeros str) <-> Forall is_digit str.
Proof.
  induction str as [|c str IH]; simpl; [done|].
  destruct (Z.eqb_spec c chr_0) as [->|]; [|done]. rewrite IH, Forall_cons.
  unfold is_digit, chr_0, chr_9. intuition lia.
Qed.

Lemma skip_zeros_value str : dec_value (skip_zeros str) = dec_value str.
Proof.
  induction str as [|c str IH]; simpl; [done|].
  destruct (Z.eqb_spec c chr_0) as [->|]; [|done]. rewrite IH, dec_value_cons. lia.
Qed.

Lemma skip_zeros_head str c rest : skip_zeros str = c :: rest -> c <> chr_0.
Proof.
  induction str as [|d str IH]; simpl; [done|].
  destruct (Z.eqb_spec d chr_0); [done|]. by intros [= -> _].
Qed.

(** Digit strings of equal length compare as their values. *)
Lemma memcmp_value a b :
  Forall is_digit a -> Forall is_digit b -> length a = length b ->
  (0 < memcmp a b <-> dec_value b < dec_value a).
Proof.
  intros Ha. revert b. induction Ha as [|x a Hx Ha IH]; intros b Hb Hl.
  - destruct b; [simpl; unfold dec_value; simpl; lia|done].
  - destruct Hb as [|y b Hy Hb]; [done|]. simpl in Hl.
    rewrite !dec_value_cons. cbn [memcmp].
    pose proof (dec_value_bound a Ha). pose proof (dec_value_bound b Hb).
    specialize (IH b Hb ltac:(lia)). assert (length a = length b) as E by lia. rewrite E in *.
    destruct (Z.ltb_spec x y), (Z.ltb_spec y x); try lia; [nia|nia|].
    assert (x = y) as -> by lia. rewrite IH. lia.
Qed.

(** A digit string without leading zero is at least the power of ten of its
    length. *)
Lemma dec_value_lower c str :
  Forall is_digit (c :: str) -> c <> chr_0 -> 10 ^ Z.of_nat (length str) <= dec_value (c :: str).
Proof.
  intros H Hc. rewrite dec_value_cons. inversion_clear H as [|? ? Hd Hs].
  pose proof (dec_value_bound str Hs). unfold is_digit, chr_0, chr_9 in *.
  assert (0 < 10 ^ Z.of_nat (length str)) by (apply Z.pow_pos_nonneg; lia). nia.
Qed.

(** *** parse__no_overflow *)

Lemma no_overflow_loop_digits str n m :
  parse__no_overflow_loop str n = Some m -> Forall is_digit str.
Proof.
  revert n. induction str as [|c str IH]; intros n; simpl; [constructor|].
  destruct (Z.ltb_spec c chr_0), (Z.ltb_spec chr_9 c); simpl; try done.
  intros. constructor; [unfold is_digit; lia|eauto].
Qed.

Lemma no_overflow_loop_value str n :
  Forall is_digit str -> 0 <= n -> n * 10 ^ Z.of_nat (length str) + dec_value str <= UINT64_MAX ->
  parse__no_overflow_loop str n = Some (n * 10 ^ Z.of_nat (length str) + dec_value str).
Proof.
  intros Hs. revert n. induction Hs as [|c str Hc Hs IH]; intros n Hn Hle.
  - unfold dec_value. simpl. f_equal. lia.
  - rewrite dec_value_cons in *. cbn [length parse__no_overflow_loop] in *.
    rewrite Nat2Z.inj_succ, Z.pow_succ_r in * by lia.
    unfold is_digit in Hc.
    destruct (Z.ltb_spec c chr_0), (Z.ltb_spec chr_9 c); try lia. simpl.
    pose proof (dec_value_bound str Hs).
    assert (0 < 10 ^ Z.of_nat (length str)) by (apply Z.pow_pos_nonneg; lia).
    assert (10 * n + (c - chr_0) <= UINT64_MAX) by nia.
    rewrite u64_small by (unfold UINT64_MAX, chr_0, chr_9 in *; lia).
    rewrite IH; [f_equal; ring|unfold chr_0 in *; lia|nia].
Qed.

Lemma max_str_value : dec_value parse_number__uintmax_max_str = UINT64_MAX.
Proof. reflexivity. Qed.

Lemma max_str_digits : Forall is_digit parse_number__uintmax_max_str.
Proof. repeat constructor; unfold chr_0, chr_9; simpl; lia. Qed.

(** The overflow test of [parse_unsigned_integer] is exact on digit strings. *)
Lemma overflow_test_exact str :
  Forall is_digit (skip_zeros str) ->
  let s := skip_zeros str in
  let max := parse_number__uintmax_max_str in
  ((length max <? length s)%nat || ((length s =? length max)%nat && (0 <? memcmp s max))) = true
  <-> UINT64_MAX < dec_value s.
Proof.
  intros Hd s max. fold s in Hd.
  assert (length max = 20%nat) as L by reflexivity.
  rewrite orb_true_iff, andb_true_iff, Nat.ltb_lt, Nat.eqb_eq, Z.ltb_lt, L.
  pose proof (dec_value_bound s Hd) as B. unfold UINT64_MAX.
  destruct (Nat.lt_trichotomy (length s) 20) as [H|[H|H]].
  - assert (10 ^ Z.of_nat (length s) <= 10 ^ 19) by (apply Z.pow_le_mono_r; lia). split; [lia|].
    intros; exfalso. lia.
  - rewrite memcmp_value by (done || exact max_str_digits || lia).
    replace (dec_value max) with UINT64_MAX by reflexivity. unfold UINT64_MAX. lia.
  - split; [intros _|by left].
    destruct s as [|c r] eqn:E; [simpl in H; lia|].
    pose proof (dec_value_lower c r Hd (skip_zeros_head str c r E)).
    assert (10 ^ 20 <= 10 ^ Z.of_nat (length r)) by (apply Z.pow_le_mono_r; simpl in H; lia). lia.
Qed.

(** *** Decimal representations *)

Lemma dec_digits_app fuel x acc : dec_digits fuel x acc = dec_digits fuel x [] ++ acc.
Proof.
  revert x acc. induction fuel as [|fuel IH]; intros x acc; [done|]. cbn [dec_digits].
  destruct (0 <? x / 10); [|done]. rewrite IH, (IH _ [_]). by rewrite <- app_assoc.
Qed.

(** A loop that goes on has fuel left. *)
Lemma more_fuel fuel x : 0 <= x < 10 * 10 ^ Z.of_nat fuel -> 0 < x / 10 -> (0 < fuel)%nat.
Proof. destruct fuel; [|lia]. intros Hx Hq. rewrite Z.div_small in Hq; simpl in *; lia. Qed.

Lemma dec_digits_spec fuel x :
  0 <= x < 10 ^ Z.of_nat fuel -> (0 < fuel)%nat ->
  dec_value (dec_digits fuel x []) = x /\ Forall is_digit (dec_digits fuel x [])
  /\ dec_digits fuel x [] <> [].
Proof.
  revert x. induction fuel as [|fuel IH]; intros x Hx Hf; [lia|].
  cbn [dec_digits]. pose proof (Z.mod_pos_bound x 10). pose proof (Z.div_mod x 10).
  rewrite Nat2Z.inj_succ, Z.pow_succ_r in Hx by lia.
  assert (is_digit (chr_0 + x mod 10)) by (unfold is_digit, chr_0, chr_9; lia).
  destruct (Z.ltb_spec 0 (x / 10)) as [Hq|Hq].
  - pose proof (more_fuel fuel x Hx Hq).
    destruct (IH (x / 10)) as (V & D & _); [|lia|].
    { split; [lia|]. apply Z.div_lt_upper_bound; lia. }
    rewrite (dec_digits_app _ _ [_]), dec_value_snoc, V. split; [unfold chr_0; lia|].
    split; [apply Forall_app; split; [done|by constructor]|]. by destruct (dec_digits _ _ _).
  - assert (x / 10 = 0) by (pose proof (Z.div_pos x 10); lia).
    split; [rewrite dec_value_cons; unfold dec_value, chr_0; simpl; lia|].
    split; [by constructor|done].
Qed.

Lemma repr_size_loop_spec fuel x size :
  0 <= x < 10 ^ Z.of_nat fuel -> (0 < fuel)%nat ->
  repr_size_loop fuel x size = Some (size + Z.of_nat (length (dec_digits fuel x []))).
Proof.
  revert x size. induction fuel as [|fuel IH]; intros x size Hx Hf; [lia|].
  cbn [repr_size_loop dec_digits]. rewrite Nat2Z.inj_succ, Z.pow_succ_r in Hx by lia.
  destruct (Z.ltb_spec 0 (x / 10)) as [Hq|Hq].
  - pose proof (more_fuel fuel x Hx Hq).
    rewrite IH, (dec_digits_app _ _ [_]), length_app; [f_equal; simpl; lia| |lia].
    split; [lia|]. apply Z.div_lt_upper_bound; lia.
  - simpl. f_equal; lia.
Qed.

Lemma u64_lt_pow20 x : 0 <= x <= UINT64_MAX -> 0 <= x < 10 ^ Z.of_nat 20.
Proof. unfold UINT64_MAX. simpl. lia. Qed.

Lemma compute_decimal_repr_size_spec x :
  0 <= x <= UINT64_MAX -> compute_decimal_repr_size x = Some (Z.of_nat (length (dec_repr x))).
Proof.
  intros Hx. unfold compute_decimal_repr_size, dec_repr.
  by rewrite repr_size_loop_spec by (by apply u64_lt_pow20 || lia).
Qed.

(** The loop fills the buffer from the right with the representation. *)
Lemma repr_loop_spec fuel x pre suf :
  length pre = length (dec_digits fuel x []) -> 0 <= x < 10 ^ Z.of_nat fuel -> (0 < fuel)%nat ->
  repr_loop fuel x (length pre) (pre ++ suf) = Some (dec_digits fuel x [] ++ suf).
Proof.
  revert x pre suf. induction fuel as [|fuel IH]; intros x pre suf Hl Hx Hf; [lia|].
  rewrite Nat2Z.inj_succ, Z.pow_succ_r in Hx by lia.
  destruct pre as [|p pre] using rev_ind.
  { exfalso. pose proof (dec_digits_spec (S fuel) x) as D.
    rewrite Nat2Z.inj_succ, Z.pow_succ_r in D by lia. destruct D as (_ & _ & D); [lia|lia|].
    by destruct (dec_digits (S fuel) x []). }
  clear IHpre. cbn [dec_digits] in *. set (d := chr_0 + x mod 10) in *.
  rewrite length_app in *. cbn [length] in *. rewrite Nat.add_1_r in *. cbn [repr_loop]. fold d.
  assert (store (length pre) [d] ((pre ++ [p]) ++ suf) = Some (pre ++ d :: suf)) as ->.
  { unfold store. rewrite !length_app. cbn [length].
    destruct (Nat.leb_spec (length pre + 1) (length pre + 1 + length suf)); [|lia].
    rewrite <- app_assoc, take_app_length, drop_app_ge by lia.
    by replace (length pre + 1 - length pre)%nat with 1%nat by lia. }
  destruct (Z.ltb_spec 0 (x / 10)) as [Hq|Hq].
  - pose proof (more_fuel fuel x Hx Hq).
    rewrite (dec_digits_app _ _ [_]), length_app in Hl. cbn [length] in Hl.
    rewrite (dec_digits_app _ _ [_]), <- app_assoc. apply IH; [lia| |lia].
    split; [lia|]. apply Z.div_lt_upper_bound; lia.
  - destruct pre; [done|]. simpl in Hl. lia.
Qed.

Lemma generate_decimal_repr_spec x pre suf :
  0 <= x <= UINT64_MAX -> length pre = length (dec_repr x) ->
  generate_decimal_repr x (pre ++ suf) (Z.of_nat (length pre)) = Some (dec_repr x ++ suf).
Proof.
  intros Hx Hl. unfold generate_decimal_repr.
  rewrite compute_decimal_repr_size_spec by done. rewrite Hl, Z.eqb_refl, Nat2Z.id, <- Hl.
  apply repr_loop_spec; [done|by apply u64_lt_pow20|lia].
Qed.

(** A sufficiently large buffer receives the representation, NUL-terminated. *)
Lemma generate_decimal_repr_string_spec x out :
  0 <= x <= UINT64_MAX -> (length (dec_repr x) < length out)%nat ->
  exists rest, generate_decimal_repr_string x out
    = Some (Z.of_nat (length (dec_repr x)), dec_repr x ++ 0 :: rest).
Proof.
  intros Hx Hl. set (n := length (dec_repr x)) in *.
  assert (length (take n out) = n) as Lt by (rewrite length_take; lia).
  unfold generate_decimal_repr_string. rewrite compute_decimal_repr_size_spec by done. fold n.
  pose proof (generate_decimal_repr_spec x (take n out) (drop n out) Hx Lt) as G.
  rewrite take_drop, Lt in G. rewrite G.
  assert (length (drop n out) = S (length out - n - 1)) as Ld by (rewrite length_drop; lia).
  destruct (drop n out) as [|d rest]; [done|]. exists rest.
  unfold store. rewrite Nat2Z.id, length_app. cbn [length].
  destruct (Nat.leb_spec (n + 1) (length (dec_repr x) + S (length rest))); [|unfold n in *; lia].
  unfold n. rewrite take_app_length, drop_app_ge by lia.
  by replace (length (dec_repr x) + 1 - length (dec_repr x))%nat with 1%nat by lia.
Qed.

Lemma parse_unsigned_integer_iff str n :
  parse_unsigned_integer str = Some n <->
  str <> [] /\ Forall is_digit str /\ dec_value str = n /\ n <= UINT64_MAX.
Proof.
  unfold parse_unsigned_integer. destruct str as [|c0 str0]; [intuition congruence|].
  set (str := c0 :: str0). cbv zeta. split.
  - intros H. destruct (_ || _) eqn:T; [done|].
    pose proof (no_overflow_loop_digits _ _ _ H) as D.
    assert (~ UINT64_MAX < dec_value (skip_zeros str)) as NO.
    { rewrite <- overflow_test_exact by done. by rewrite T. }
    unfold parse__no_overflow in H. rewrite no_overflow_loop_value in H by (done || lia).
    apply (inj Some) in H. rewrite skip_zeros_value in *.
    split; [done|]. split; [by apply skip_zeros_digits|]. lia.
  - intros (_ & D & V & B). apply skip_zeros_digits in D.
    destruct (_ || _) eqn:T.
    { apply overflow_test_exact in T; [|done]. rewrite skip_zeros_value in T. lia. }
    unfold parse__no_overflow. rewrite no_overflow_loop_value; rewrite ?skip_zeros_value; (done || lia || idtac).
    f_equal; lia.
Qed.

Lemma hex_digit_bound c : decode_hex_digit c < 16.
Proof. unfold decode_hex_digit. bool_cases; lia. Qed.

Lemma hex_loop_iff str n m :
  0 <= n <= UINT64_MAX ->
  parse_hex_loop str n = Some m <->
  Forall (fun c => 0 <= decode_hex_digit c) str
  /\ fold_left (fun n c => 16 * n + decode_hex_digit c) str n = m /\ m <= UINT64_MAX.
Proof.
  revert n. induction str as [|c str IH]; intros n Hn; cbn [parse_hex_loop fold_left].
  { split; [intros [= <-]; split; [constructor|lia]|intros (_ & <- & _); done]. }
  rewrite Forall_cons. pose proof (hex_digit_bound c).
  destruct (Z.ltb_spec (decode_hex_digit c) 0); [split; [done|lia]|].
  assert (forall k, Forall (fun c => 0 <= decode_hex_digit c) str -> 0 <= k ->
            k <= fold_left (fun n c => 16 * n + decode_hex_digit c) str k) as Mono.
  { clear. intros k F. revert k. induction F as [|c str Hc F IHF]; intros k Hk; simpl; [lia|].
    transitivity (16 * k + decode_hex_digit c); [lia|]. apply IHF. lia. }
  destruct (Z.ltb_spec (UINT64_MAX / 16) n) as [Hb|Hb].
  { split; [done|]. intros ((_ & F) & E & B).
    pose proof (Mono (16 * n + decode_hex_digit c) F ltac:(lia)).
    pose proof (Z.mul_succ_div_gt UINT64_MAX 16). lia. }
  assert (16 * n <= UINT64_MAX) by (pose proof (Z.mul_div_le UINT64_MAX 16); lia).
  rewrite (u64_small (n * 16)) by (unfold UINT64_MAX in *; lia).
  destruct (Z.ltb_spec (UINT64_MAX - n * 16) (decode_hex_digit c)) as [Ho|Ho].
  { split; [done|]. intros ((_ & F) & E & B).
    pose proof (Mono (16 * n + decode_hex_digit c) F ltac:(lia)). lia. }
  rewrite u64_small by (unfold UINT64_MAX in *; lia).
  rewrite IH by lia. replace (n * 16 + decode_hex_digit c) with (16 * n + decode_hex_digit c) by lia.
  split; [intros (F & E & B)|intros ((_ & F) & E & B)]; done.
Qed.

End ParseNumber.
Export ParseNumber.

(** The decimal and hexadecimal parsers are exact.  They accept exactly the
    non-empty strings of digits whose mathematical value fits [uintmax_t], and
    return that value: no overflow slips through and no value that fits is
    refused, leading zeros included. *)
Theorem parse_integer_exact str n :
  (parse_unsigned_integer str = Some n <->
     str <> [] /\ Forall is_digit str /\ dec_value str = n /\ n <= UINT64_MAX) /\
  (parse_unsigned_hex_integer str = Some n <->
     str <> [] /\ Forall (fun c => 0 <= decode_hex_digit c) str
     /\ hex_value str = n /\ n <= UINT64_MAX).
Proof.
  split; [apply parse_unsigned_integer_iff|].
  unfold parse_unsigned_hex_integer, hex_value.
  destruct str as [|c str]; [intuition congruence|].
  rewrite hex_loop_iff by (unfold UINT64_MAX; lia). intuition congruence.
Qed.

(** Printing then parsing is the identity.  For every [uintmax_t] value and
    every buffer with room for its representation and a NUL,
    [generate_decimal_repr_string] returns (it writes only inside the buffer
    and its assertions hold), the C string it leaves has the returned length
    and parses back to the value; at most twenty digits are needed. *)
Theorem decimal_roundtrip x out :
  0 <= x <= UINT64_MAX -> (21 <= length out)%nat ->
  exists size out',
    generate_decimal_repr_string x out = Some (size, out') /\
    Z.of_nat (length (cstr out')) = size /\ 1 <= size <= 20 /\
    parse_unsigned_integer (cstr out') = Some x.
Proof.
  intros Hx Ho.
  destruct (dec_digits_spec 20 x (u64_lt_pow20 x Hx) ltac:(lia)) as (V & D & N).
  assert (length (dec_repr x) <= 20)%nat as L.
  { unfold dec_repr. clear. generalize 20%nat as f. intros f. revert x.
    induction f as [|f IH]; intros x; [done|]. cbn [dec_digits]. destruct (0 <? x / 10); [|simpl; lia].
    rewrite (dec_digits_app _ _ [_]), length_app. specialize (IH (x / 10)). simpl. lia. }
  destruct (generate_decimal_repr_string_spec x out Hx ltac:(lia)) as [rest E].
  do 2 eexists. split; [exact E|]. rewrite cstr_app_nul.
  - split; [done|]. split; [assert (length (dec_repr x) <> 0%nat) by (by intros ?%nil_length_inv); lia|].
    apply parse_unsigned_integer_iff. split; [done|]. split; [done|]. split; [done|lia].
  - eapply Forall_impl; [exact D|]. intros c Hc. unfold is_digit, chr_0 in Hc. lia.
Qed.

Lemma decimal_roundtrip_witness :
  exists size out',
    generate_decimal_repr_string 65535 (replicate 21 7) = Some (size, out') /\ size = 5 /\
    parse_unsigned_integer (cstr out') = Some 65535.
Proof.
  destruct (decimal_roundtrip 65535 (replicate 21 7)) as (size & out' & E & _ & _ & P).
  - unfold UINT64_MAX. lia.
  - reflexivity || (simpl; lia).
  - exists size, out'. split; [exact E|]. split; [|exact P].
    vm_compute in E. congruence.
Defined.
