(* ===== verification/Checksum.v ===== *)
(** * Internet checksums

    Models [lwip/src/core/inet_chksum.c] as it is built: the summing algorithm
    number 2 for a little-endian machine, and the functions on top of it that IP,
    ICMP and TCP use.  A pbuf chain is the list of its payloads, each with
    whether it starts at an odd address, since the algorithm depends on it.
    Sums are kept in 32 bits with the wrap-around written out.

    The theorem: whatever the alignment and however the data is cut into
    buffers, the result is the checksum of RFC 1071 over the data, behind the
    pseudo header where there is one, and a packet with its checksum in place
    checks. *)

From S2P Require Import Prelude.
From S2P Require Import Words.
Import ByteOrder.

Module Checksum.

(** ** [inet_chksum.h] *)

(** [LWIP_PLATFORM_HTONS], whose argument has 16 bits. *)
Definition SWAP_BYTES_IN_WORD (w : Z) : Z := hton16 (u16 w).
Definition FOLD_U32T (u : Z) : Z := u32 (Z.shiftr u 16 + Z.land u 0xffff).

(** ** [inet_chksum.c] *)

(** The loop over the bulk of the data: the sum and what is left. *)
Fixpoint add_bulk (l : bytes) (sum : Z) : Z * bytes :=
  match l with
  | a :: b :: l => add_bulk l (u32 (sum + le_dec [a; b]))
  | _ => (sum, l)
  end.

(** [odd]: the data starts at an odd address.  [t0] and [t1] are the bytes of
    the variable [t]. *)
Definition lwip_standard_chksum (odd : bool) (data : bytes) : Z :=
  let '(t1, pb) := match odd, data with true, b :: l => (b, l) | _, _ => (0, data) end in
  let '(sum, ps) := add_bulk pb 0 in
  let t0 := match ps with b :: _ => b | [] => 0 end in
  let sum := u32 (sum + le_dec [t0; t1]) in
  let sum := FOLD_U32T sum in
  let sum := FOLD_U32T sum in
  let sum := if odd then SWAP_BYTES_IN_WORD sum else sum in
  u16 sum.

(** A chain of buffers. *)
Definition chain : Type := list (bool * bytes).

Definition odd_length (l : bytes) : bool := Nat.odd (length l).

(** The loop over a chain, with [acc] and [swapped]. *)
Fixpoint sum_chain (p : chain) (acc : Z) (swapped : bool) : Z * bool :=
  match p with
  | [] => (acc, swapped)
  | (odd, d) :: p =>
      let acc := FOLD_U32T (u32 (acc + lwip_standard_chksum odd d)) in
      if odd_length d then sum_chain p (SWAP_BYTES_IN_WORD acc) (negb swapped) else sum_chain p acc swapped
  end.

Definition complement (acc : Z) : Z := u16 (Z.lnot (Z.land acc 0xffff)).

Definition inet_cksum_pseudo_base (p : chain) (proto proto_len acc : Z) : Z :=
  let '(acc, swapped) := sum_chain p acc false in
  let acc := if swapped then SWAP_BYTES_IN_WORD acc else acc in
  let acc := u32 (acc + hton16 (u16 proto)) in
  let acc := u32 (acc + hton16 proto_len) in
  complement (FOLD_U32T (FOLD_U32T acc)).

(** [acc += addr & 0xffff; acc += addr >> 16 & 0xffff]. *)
Definition add_addr (acc addr : Z) : Z := u32 (u32 (acc + Z.land addr 0xffff) + Z.land (Z.shiftr addr 16) 0xffff).

Definition inet_chksum_pseudo (p : chain) (proto proto_len src dest : Z) : Z :=
  let acc := add_addr (add_addr 0 src) dest in
  inet_cksum_pseudo_base p proto proto_len (FOLD_U32T (FOLD_U32T acc)).

(** The four words of the addresses, one of each in turn. *)
Fixpoint add_ip6 (src dest : list Z) (acc : Z) : Z :=
  match src, dest with
  | s :: src, d :: dest => add_ip6 src dest (add_addr (add_addr acc s) d)
  | _, _ => acc
  end.

Definition ip6_chksum_pseudo (p : chain) (proto proto_len : Z) (src dest : list Z) : Z :=
  inet_cksum_pseudo_base p proto proto_len (FOLD_U32T (FOLD_U32T (add_ip6 src dest 0))).

(** The partial sums of UDP-Lite: [None] is the assertion in the loop. *)
Fixpoint sum_partial (p : chain) (chksum_len acc : Z) (swapped : bool) : option (Z * bool) :=
  match p with
  | [] => Some (acc, swapped)
  | (odd, d) :: p =>
      if negb (0 <? chksum_len) then Some (acc, swapped)
      else
        let chklen := if chksum_len <? Z.of_nat (length d) then chksum_len else Z.of_nat (length d) in
        let acc := u32 (acc + lwip_standard_chksum odd (take (Z.to_nat chklen) d)) in
        let chksum_len := chksum_len - chklen in
        ASSERT chksum_len <? 0x7fff in
        let acc := FOLD_U32T acc in
        if odd_length d then sum_partial p chksum_len (SWAP_BYTES_IN_WORD acc) (negb swapped) else sum_partial p chksum_len acc swapped
  end.

Definition inet_cksum_pseudo_partial_base (p : chain) (proto proto_len chksum_len acc : Z) : option Z :=
  LET (acc, swapped) <- sum_partial p chksum_len acc false in
  let acc := if swapped then SWAP_BYTES_IN_WORD acc else acc in
  let acc := u32 (acc + hton16 (u16 proto)) in
  let acc := u32 (acc + hton16 proto_len) in
  Some (complement (FOLD_U32T (FOLD_U32T acc))).

Definition inet_chksum_pseudo_partial (p : chain) (proto proto_len chksum_len src dest : Z) : option Z :=
  inet_cksum_pseudo_partial_base p proto proto_len chksum_len (FOLD_U32T (FOLD_U32T (add_addr (add_addr 0 src) dest))).

Definition ip6_chksum_pseudo_partial (p : chain) (proto proto_len chksum_len : Z) (src dest : list Z) : option Z :=
  inet_cksum_pseudo_partial_base p proto proto_len chksum_len (FOLD_U32T (FOLD_U32T (add_ip6 src dest 0))).

Definition inet_chksum (odd : bool) (data : bytes) : Z := u16 (Z.lnot (lwip_standard_chksum odd data)).

Definition inet_chksum_pbuf (p : chain) : Z :=
  let '(acc, swapped) := sum_chain p 0 false in
  complement (if swapped then SWAP_BYTES_IN_WORD acc else acc).

(** ** The checksum of RFC 1071

    The complement of the sum of the 16-bit words, big-endian, added with
    end-around carry; an odd byte is padded with a zero. *)
Definition ones_add (x y : Z) : Z := (x + y) mod 65536 + (x + y) / 65536.
Fixpoint ones_sum (l : bytes) (acc : Z) : Z :=
  match l with
  | a :: b :: l => ones_sum l (ones_add acc (256 * a + b))
  | [a] => ones_add acc (256 * a)
  | [] => acc
  end.
Definition rfc1071 (l : bytes) : Z := 65535 - ones_sum l 0.

(** The pseudo headers. *)
Definition pseudo_header (src dest proto proto_len : Z) : bytes := le_enc 4 src ++ le_enc 4 dest ++ [0; proto] ++ be_enc 2 proto_len.
Definition pseudo_header6 (src dest : list Z) (proto proto_len : Z) : bytes :=
  concat (map (le_enc 4) src) ++ concat (map (le_enc 4) dest) ++ be_enc 4 proto_len ++ [0; 0; 0; proto].

Definition payload (p : chain) : bytes := concat (map snd p).

Example rfc_sample : inet_chksum false [0x45; 0; 0; 0x73; 0; 0; 0x40; 0; 0x40; 0x11; 0; 0; 0xc0; 0xa8; 0; 1; 0xc0; 0xa8; 0; 0xc7] = hton16 0xb861.
Proof. reflexivity. Qed.
Example chain_sample : inet_chksum_pbuf [(true, [1; 2; 3]); (false, [4]); (true, [5; 6; 7; 8; 9])] = hton16 (rfc1071 [1; 2; 3; 4; 5; 6; 7; 8; 9]).
Proof. reflexivity. Qed.

(** ** Numbers modulo 65535

    A sum in ones' complement stands for a number modulo 65535, with 0 for
    nothing but 0. *)
Record stands (x N : Z) : Prop := {
  st_pos : 0 <= x /\ 0 <= N;
  st_mod : x mod 65535 = N mod 65535;
  st_zero : x = 0 <-> N = 0;
}.

Lemma stands_refl N : 0 <= N -> stands N N.
Proof. by split. Qed.

Lemma stands_add x N y M : stands x N -> stands y M -> stands (x + y) (N + M).
Proof. intros [P1 E1 Z1] [P2 E2 Z2]. split; [lia| |lia]. by rewrite Zplus_mod, E1, E2, <- Zplus_mod. Qed.

Lemma stands_cong x N M : stands x N -> 0 <= M -> N mod 65535 = M mod 65535 -> (N = 0 <-> M = 0) -> stands x M.
Proof. intros [P E Z] H1 H2 H3. split; [lia|congruence|tauto]. Qed.

Lemma stands_fold x N : stands x N -> stands (x / 65536 + x mod 65536) N.
Proof.
  intros [P E Z]. pose proof (Z.div_mod x 65536 ltac:(lia)) as D. pose proof (Z.mod_pos_bound x 65536 ltac:(lia)). pose proof (Z.div_pos x 65536 ltac:(lia) ltac:(lia)).
  split; [lia| |lia]. rewrite <- E. rewrite D at 3. replace (65536 * (x / 65536) + x mod 65536) with ((x / 65536 + x mod 65536) + (x / 65536) * 65535) by lia.
  by rewrite Z.mod_add by lia.
Qed.

(** Moving by a byte is multiplying by 256. *)
Lemma stands_swap x N : 0 <= x < 65536 -> stands x N -> stands (hton16 x) (256 * N) /\ 0 <= hton16 x < 65536.
Proof.
  intros Hx [P E Z]. assert (hton16 x = x / 256 + 256 * (x mod 256)) as ->.
  { unfold hton16, badvpn_reverse16. cbn. rewrite (Z.mod_small (x / 256)) by (split; [apply Z.div_pos; lia|apply Z.div_lt_upper_bound; lia]). lia. }
  pose proof (Z.div_mod x 256 ltac:(lia)) as D. pose proof (Z.mod_pos_bound x 256 ltac:(lia)).
  assert (0 <= x / 256 < 256) by (split; [apply Z.div_pos; lia|apply Z.div_lt_upper_bound; lia]). split; [|lia]. split; [lia| |lia].
  rewrite Z.mul_mod, <- E, <- Z.mul_mod by lia. rewrite D at 3. replace (256 * (256 * (x / 256) + x mod 256)) with (x / 256 + 256 * (x mod 256) + (x / 256) * 65535) by lia.
  by rewrite Z.mod_add by lia.
Qed.

Lemma stands_unique x N y M : stands x N -> stands y M -> x < 65536 -> y < 65536 -> N mod 65535 = M mod 65535 -> (N = 0 <-> M = 0) -> x = y.
Proof.
  intros [P1 E1 Z1] [P2 E2 Z2] H1 H2 Em Hz. rewrite <- E1, <- E2 in Em.
  assert (x = 65535 \/ x < 65535) as [-> |Hx] by lia; assert (y = 65535 \/ y < 65535) as [-> |Hy] by lia; try done; rewrite ?Z_mod_same_full in Em.
  - rewrite (Z.mod_small y) in Em by lia. lia.
  - rewrite (Z.mod_small x) in Em by lia. lia.
  - by rewrite !Z.mod_small in Em by lia.
Qed.

(** Two bytes further on, or an even number of them, nothing changes. *)
Lemma stands_shift x N k : stands x (256 ^ (2 * Z.of_nat k) * N) <-> stands x N.
Proof.
  assert (forall M, 0 <= M -> (256 ^ (2 * Z.of_nat k) * M) mod 65535 = M mod 65535) as Hm.
  { intros M _. rewrite Z.pow_mul_r by lia. change (256 ^ 2) with (1 + 1 * 65535). induction k as [|k IH]; [by rewrite Z.pow_0_r, Z.mul_1_l|].
    rewrite Nat2Z.inj_succ, Z.pow_succ_r, <- Z.mul_assoc by lia. rewrite Z.mul_mod, IH, <- Z.mul_mod by lia. rewrite Z.mul_add_distr_r, Z.mul_1_l, Z.mul_1_l, (Z.mul_comm 65535).
    by rewrite Z.mod_add by lia. }
  assert (0 < 256 ^ (2 * Z.of_nat k)) as Hp by (apply Z.pow_pos_nonneg; lia).
  assert (256 ^ (2 * Z.of_nat k) * N = 0 <-> N = 0) as Hz by nia.
  split; intros S; pose proof S as [P _ _]; eapply stands_cong; try done; try nia; [|symmetry]; apply Hm; nia.
Qed.

Lemma le_dec_app x y : le_dec (x ++ y) = le_dec x + 256 ^ Z.of_nat (length x) * le_dec y.
Proof.
  induction x as [|b x IH]; cbn [app le_dec length]; [by rewrite Z.pow_0_r, Z.mul_1_l|]. rewrite IH, Nat2Z.inj_succ, Z.pow_succ_r by lia. lia.
Qed.

#[global] Instance stands_sym : Symmetric stands.
Proof. intros x N [P E Z]. split; [lia|done|tauto]. Qed.
#[global] Instance stands_trans : Transitive stands.
Proof. intros x N M [P1 E1 Z1] [P2 E2 Z2]. split; [lia|congruence|tauto]. Qed.
#[global] Instance stands_add_proper : Proper (stands ==> stands ==> stands) Z.add.
Proof. intros x N H1 y M H2. by apply stands_add. Qed.

Lemma stands_word N : 0 <= N -> stands (65536 * N) N.
Proof. intros H. change 65536 with (256 ^ (2 * Z.of_nat 1)). symmetry. apply stands_shift. by apply stands_refl. Qed.

Lemma bytes_nonneg l : bytes_ok l -> 0 <= le_dec l.
Proof. intros H. by destruct (le_dec_bound l H). Qed.

(** Data behind an even number of bytes. *)
Lemma stands_even_app x y : bytes_ok x -> bytes_ok y -> odd_length x = false -> stands (le_dec (x ++ y)) (le_dec x + le_dec y).
Proof.
  intros Hx Hy He. rewrite le_dec_app. apply stands_add; [by apply stands_refl, bytes_nonneg|]. unfold odd_length in He.
  rewrite <- Nat.negb_even in He. apply negb_false_iff, Nat.even_spec in He as [k ->]. rewrite Nat2Z.inj_mul. symmetry. apply stands_shift. by apply stands_refl, bytes_nonneg.
Qed.

(** *** The operations on sums *)

Lemma fold_spec x : 0 <= x < 4294967296 -> FOLD_U32T x = x / 65536 + x mod 65536.
Proof.
  intros Hx. unfold FOLD_U32T. rewrite Z.shiftr_div_pow2 by lia. change 0xffff with (Z.ones 16). rewrite Z.land_ones by lia. change (2 ^ 16) with 65536. apply u32_small.
  pose proof (Z.mod_pos_bound x 65536 ltac:(lia)). assert (0 <= x / 65536 < 65536) by (split; [apply Z.div_pos; lia|apply Z.div_lt_upper_bound; lia]). lia.
Qed.

Lemma fold_once x N : stands x N -> x <= 0x1fffe -> stands (FOLD_U32T x) N /\ 0 <= FOLD_U32T x < 65536.
Proof.
  intros S Hx. pose proof S as [P _ _]. rewrite fold_spec by lia. split; [by apply stands_fold|].
  pose proof (Z.div_mod x 65536 ltac:(lia)). pose proof (Z.mod_pos_bound x 65536 ltac:(lia)). lia.
Qed.

Lemma fold_twice x N : stands x N -> x < 4294967296 -> stands (FOLD_U32T (FOLD_U32T x)) N /\ 0 <= FOLD_U32T (FOLD_U32T x) < 65536.
Proof.
  intros S Hx. pose proof S as [P _ _]. apply fold_once.
  - rewrite fold_spec by lia. by apply stands_fold.
  - rewrite fold_spec by lia. pose proof (Z.mod_pos_bound x 65536 ltac:(lia)). assert (x / 65536 < 65536) by (apply Z.div_lt_upper_bound; lia). lia.
Qed.

Lemma swap_once x N : stands x N -> x < 65536 -> stands (SWAP_BYTES_IN_WORD x) (256 * N) /\ 0 <= SWAP_BYTES_IN_WORD x < 65536.
Proof. intros S Hx. pose proof S as [P _ _]. unfold SWAP_BYTES_IN_WORD. rewrite u16_small by lia. apply stands_swap; [lia|done]. Qed.

(** *** Summing bytes *)

Lemma pair_ind (P : bytes -> Prop) : P [] -> (forall a, P [a]) -> (forall a b l, P l -> P (a :: b :: l)) -> forall l, P l.
Proof.
  intros H0 H1 H2 l. enough (P l /\ forall a, P (a :: l)) by tauto. induction l as [|b l [IH1 IH2]]; [auto|]. split; [done|]. intros a. by apply H2.
Qed.

Lemma add_bulk_ok l : bytes_ok l -> forall sum N, stands sum N -> sum + 65535 * (Z.of_nat (length l) / 2) < 4294967296 ->
  let '(s', r) := add_bulk l sum in
  stands (s' + le_dec r) (N + le_dec l) /\ 0 <= s' <= sum + 65535 * (Z.of_nat (length l) / 2) /\ (length r <= 1)%nat /\ bytes_ok r.
Proof.
  induction l as [| |a b l IH] using pair_ind; intros Hl sum N S Hb; cbn [add_bulk].
  - destruct S. cbn. rewrite !Z.add_0_r. split; [done|]. split; [lia|]. split; [lia|done].
  - pose proof S as [P _ _]. split; [|split; [change (Z.of_nat (length [a]) / 2) with 0; lia|done]]. apply stands_add; [done|]. by apply stands_refl, bytes_nonneg.
  - pose proof S as [P _ _]. apply Forall_cons in Hl as [Ha Hl]. apply Forall_cons in Hl as [Hbb Hl]. unfold is_byte in Ha, Hbb.
    assert (Z.of_nat (length (a :: b :: l)) / 2 = 1 + Z.of_nat (length l) / 2) as Hd.
    { cbn [length]. replace (Z.of_nat (Datatypes.S (Datatypes.S (length l)))) with (1 * 2 + Z.of_nat (length l)) by lia. by rewrite Z.div_add_l. }
    rewrite Hd in *. pose proof (Z.div_pos (Z.of_nat (length l)) 2 ltac:(lia) ltac:(lia)).
    assert (0 <= le_dec [a; b] <= 65535) as Hw by (cbn; lia). rewrite u32_small by lia.
    specialize (IH Hl (sum + le_dec [a; b]) (N + le_dec [a; b]) (stands_add _ _ _ _ S (stands_refl _ (proj1 Hw))) ltac:(lia)).
    destruct (add_bulk l _) as [s' r]. destruct IH as (S' & B & L & R). split; [|split; [lia|done]]. etrans; [exact S'|].
    change (a :: b :: l) with ([a; b] ++ l). rewrite le_dec_app, <- Z.add_assoc. apply stands_add; [apply stands_refl; lia|]. apply stands_add; [apply stands_refl; lia|].
    symmetry. change (256 ^ Z.of_nat (length [a; b])) with 65536. apply stands_word, bytes_nonneg. done.
Qed.

(** The sum of a buffer stands for its bytes, at any alignment. *)
Lemma standard_chksum_ok odd data : bytes_ok data -> Z.of_nat (length data) <= 0x20000 ->
  stands (lwip_standard_chksum odd data) (le_dec data) /\ 0 <= lwip_standard_chksum odd data < 65536.
Proof.
  intros Hd Hl. unfold lwip_standard_chksum.
  set (x := match odd, data with true, b :: l => (b, l) | _, _ => (0, data) end).
  assert (is_byte x.1 /\ bytes_ok x.2 /\ Z.of_nat (length x.2) <= 0x20000 /\ (if odd then stands (256 * (le_dec x.2 + 256 * x.1)) (le_dec data) else x = (0, data))) as (H1 & H2 & H3 & H4).
  { unfold x. destruct odd, data as [|b l]; cbn [fst snd]; (split; [|split; [|split]]); try done.
    - by apply Forall_cons in Hd as [Hb _].
    - by apply Forall_cons in Hd as [_ Hd].
    - cbn in Hl. lia.
    - apply Forall_cons in Hd as [Hb Hd]. unfold is_byte in Hb. cbn [le_dec]. rewrite Z.mul_add_distr_l, Z.mul_assoc, Z.add_comm. change (256 * 256) with 65536.
      apply stands_add; [apply stands_word; lia|]. apply stands_refl. pose proof (bytes_nonneg l Hd). lia. }
  destruct x as [t1 pb]. cbn [fst snd] in *. unfold is_byte in H1. assert (Z.of_nat (length pb) / 2 <= 0x10000) as Hdiv by (apply Z.div_le_upper_bound; lia).
  pose proof (add_bulk_ok pb H2 0 0 (stands_refl 0 ltac:(lia)) ltac:(lia)) as Hb. destruct (add_bulk pb 0) as [sum ps]. destruct Hb as (S & B & L & R).
  set (t0 := match ps with b :: _ => b | [] => 0 end). assert (0 <= t0 < 256 /\ le_dec ps = t0) as [Ht Ep].
  { unfold t0. destruct ps as [|b [|? ?]]; [done| |cbn in L; lia]. apply Forall_cons in R as [R _]. unfold is_byte in R. cbn. lia. }
  rewrite Ep in S. cbn [le_dec]. rewrite u32_small by lia. replace (sum + (t0 + 256 * (t1 + 256 * 0))) with (sum + t0 + 256 * t1) by lia.
  assert (stands (sum + t0 + 256 * t1) (le_dec pb + 256 * t1)) as S1 by (apply stands_add; [done|]; apply stands_refl; lia).
  destruct (fold_twice _ _ S1) as [S2 B2]; [lia|]. destruct odd.
  - destruct (swap_once _ _ S2) as [S3 B3]; [lia|]. rewrite u16_small by lia. split; [|lia]. by etrans.
  - injection H4 as -> ->. rewrite u16_small by lia. split; [|lia]. rewrite Z.mul_0_r, !Z.add_0_r in *. exact S2.
Qed.

(** *** Chains *)

Definition chain_ok (p : chain) : Prop := Forall (fun x => bytes_ok x.2 /\ Z.of_nat (length x.2) <= 65535) p.

(** Whether sums are of swapped bytes, as a factor. *)
Definition shift (swapped : bool) : Z := if swapped then 256 else 1.

Lemma odd_app x y : odd_length (x ++ y) = xorb (odd_length x) (odd_length y).
Proof. unfold odd_length. by rewrite length_app, Nat.odd_add. Qed.

Lemma shift_even n : stands (shift (Nat.odd n) * 256 ^ Z.of_nat n) 1.
Proof.
  assert (exists k, shift (Nat.odd n) * 256 ^ Z.of_nat n = 256 ^ (2 * Z.of_nat k) * 1) as [k ->]; [|symmetry; apply stands_shift; by apply stands_refl].
  destruct (Nat.odd n) eqn:Ho; cbn [shift].
  - apply Nat.odd_spec in Ho as [k ->]. exists (k + 1)%nat. rewrite Z.mul_1_r. change 256 with (256 ^ 1) at 1. rewrite <- Z.pow_add_r by lia. f_equal. lia.
  - rewrite <- Nat.negb_even in Ho. apply negb_false_iff, Nat.even_spec in Ho as [k ->]. exists k. rewrite Z.mul_1_l, Z.mul_1_r. f_equal. lia.
Qed.

Lemma stands_mul x N c : 0 <= c -> stands x N -> stands (c * x) (c * N).
Proof. intros Hc [P E Z]. split; [nia|by rewrite Z.mul_mod, E, <- Z.mul_mod|nia]. Qed.

(** One buffer behind the bytes [X]. *)
Lemma chain_step odd d acc X : bytes_ok d -> Z.of_nat (length d) <= 65535 -> bytes_ok X ->
  stands acc (shift (odd_length X) * le_dec X) -> acc < 65536 ->
  let acc' := FOLD_U32T (u32 (acc + lwip_standard_chksum odd d)) in
  stands acc' (shift (odd_length X) * le_dec (X ++ d)) /\ 0 <= acc' < 65536.
Proof.
  intros Hd Hl HX S Ha. destruct (standard_chksum_ok odd d Hd) as [Sd Bd]; [lia|]. pose proof S as [P _ _]. cbn zeta. rewrite u32_small by lia. apply fold_once; [|lia].
  rewrite le_dec_app, Z.mul_add_distr_l, Z.mul_assoc. apply stands_add; [done|]. etrans; [exact Sd|]. symmetry.
  etrans; [rewrite Z.mul_comm; apply stands_mul; [by apply bytes_nonneg|apply shift_even]|]. rewrite Z.mul_1_r. by apply stands_refl, bytes_nonneg.
Qed.

Lemma swap_step acc sw N : stands acc (shift sw * N) -> acc < 65536 -> stands (SWAP_BYTES_IN_WORD acc) (shift (negb sw) * N) /\ 0 <= SWAP_BYTES_IN_WORD acc < 65536.
Proof.
  intros S Ha. destruct (swap_once _ _ S Ha) as [S' B]. split; [|done]. etrans; [exact S'|]. pose proof S as [P _ _]. destruct sw; cbn [shift negb] in *.
  - rewrite Z.mul_assoc, Z.mul_1_l. change (256 * 256) with 65536. apply stands_word. lia.
  - rewrite !Z.mul_1_l in *. apply stands_refl. lia.
Qed.

Lemma sum_chain_ok p : chain_ok p -> forall acc X, bytes_ok X -> stands acc (shift (odd_length X) * le_dec X) -> acc < 65536 ->
  let '(acc', sw) := sum_chain p acc (odd_length X) in stands acc' (shift sw * le_dec (X ++ payload p)) /\ 0 <= acc' < 65536.
Proof.
  induction 1 as [|[odd d] p [Hd Hl] Hp IH]; intros acc X HX S Ha; cbn [sum_chain].
  - rewrite app_nil_r. destruct S. split; [done|lia].
  - cbn [snd] in *. destruct (chain_step odd d acc X) as [S1 B1]; [done..|]. set (acc1 := FOLD_U32T _) in *. unfold payload. cbn [map concat snd]. rewrite app_assoc.
    assert (bytes_ok (X ++ d)) as HXd by by apply Forall_app. pose proof (odd_app X d) as Eo. destruct (odd_length d).
    + rewrite xorb_true_r in Eo. rewrite <- Eo. destruct (swap_step _ _ _ S1) as [S2 B2]; [lia|]. apply IH; [done| |lia]. by rewrite Eo.
    + rewrite xorb_false_r in Eo. rewrite <- Eo. apply IH; [done| |lia]. by rewrite Eo.
Qed.

(** The swap at the end. *)
Lemma unswapped acc sw N : stands acc (shift sw * N) -> 0 <= acc < 65536 ->
  stands (if sw then SWAP_BYTES_IN_WORD acc else acc) N /\ 0 <= (if sw then SWAP_BYTES_IN_WORD acc else acc) < 65536.
Proof.
  intros S B. destruct sw; [|by rewrite Z.mul_1_l in S]. destruct (swap_step _ _ _ S) as [S' B']; [lia|]. cbn [negb shift] in S'. by rewrite Z.mul_1_l in S'.
Qed.

(** ** The reference *)

Lemma ones_add_ok x N y M : stands x N -> stands y M -> x < 65536 -> y < 65536 -> stands (ones_add x y) (N + M) /\ 0 <= ones_add x y < 65536.
Proof.
  intros S1 S2 H1 H2. pose proof (stands_add _ _ _ _ S1 S2) as S. unfold ones_add. rewrite (Z.add_comm ((x + y) mod 65536)). split; [by apply stands_fold|].
  destruct S1 as [P1 _ _], S2 as [P2 _ _]. pose proof (Z.div_mod (x + y) 65536 ltac:(lia)). pose proof (Z.mod_pos_bound (x + y) 65536 ltac:(lia)). lia.
Qed.

Lemma ones_sum_ok l : bytes_ok l -> forall acc N, stands acc N -> acc < 65536 ->
  stands (ones_sum l acc) (N + 256 * le_dec l) /\ 0 <= ones_sum l acc < 65536.
Proof.
  induction l as [|a|a b l IH] using pair_ind; intros Hl acc N S Ha; cbn [ones_sum].
  - pose proof S as [P _ _]. rewrite Z.mul_0_r, Z.add_0_r. split; [done|lia].
  - apply Forall_cons in Hl as [Hb _]. unfold is_byte in Hb. cbn [le_dec]. rewrite Z.mul_0_r, Z.add_0_r. apply ones_add_ok; [done|apply stands_refl; lia|done|lia].
  - apply Forall_cons in Hl as [Hb Hl]. apply Forall_cons in Hl as [Hc Hl]. unfold is_byte in Hb, Hc.
    destruct (ones_add_ok acc N (256 * a + b) (256 * a + b)) as [S1 B1]; [done|apply stands_refl; lia|done|lia|].
    destruct (IH Hl _ _ S1) as [S2 B2]; [lia|]. split; [|done]. etrans; [exact S2|]. pose proof S as [P _ _]. pose proof (bytes_nonneg l Hl). cbn [le_dec].
    rewrite <- Z.add_assoc. apply stands_add; [apply stands_refl; lia|].
    replace (256 * (a + 256 * (b + 256 * le_dec l))) with (256 * a + 65536 * b + 65536 * (256 * le_dec l)) by lia.
    apply stands_add; [|symmetry; apply stands_word; lia]. apply stands_add; [apply stands_refl; lia|symmetry; apply stands_word; lia].
Qed.

Lemma hton16_bytes x : 0 <= x < 65536 -> hton16 x = x / 256 + 256 * (x mod 256).
Proof. intros Hx. unfold hton16, badvpn_reverse16. cbn. Z.to_euclidean_division_equations; lia. Qed.

Lemma hton16_complement x : 0 <= x < 65536 -> hton16 (65535 - x) = 65535 - hton16 x.
Proof. intros Hx. rewrite !hton16_bytes by lia. Z.to_euclidean_division_equations; lia. Qed.

Lemma complement_spec x : 0 <= x < 65536 -> complement x = 65535 - x.
Proof.
  intros Hx. unfold complement. change 0xffff with (Z.ones 16). rewrite Z.land_ones by lia. change (2 ^ 16) with 65536. rewrite (Z.mod_small x) by lia.
  change (Z.ones 16) with 65535. unfold u16, Z.lnot. Z.to_euclidean_division_equations; lia.
Qed.

(** A sum that stands for the data has the checksum as its complement. *)
Lemma sum_is_rfc1071 acc D : bytes_ok D -> stands acc (le_dec D) -> 0 <= acc < 65536 -> 65535 - acc = hton16 (rfc1071 D).
Proof.
  intros HD S B. destruct (stands_swap acc _ B S) as [S1 B1]. destruct (ones_sum_ok D HD 0 0 (stands_refl 0 ltac:(lia))) as [S2 B2]; [lia|]. rewrite Z.add_0_l in S2.
  assert (ones_sum D 0 = hton16 acc) as E by (eapply stands_unique; [exact S2|exact S1|lia|lia|done|done]).
  unfold rfc1071. rewrite E, hton16_complement, hton16_invol by lia. done.
Qed.

Lemma rfc1071_unique acc D : bytes_ok D -> stands acc (le_dec D) -> 0 <= acc < 65536 -> hton16 (rfc1071 D) = 65535 - acc.
Proof. intros. symmetry. by apply sum_is_rfc1071. Qed.

(** ** Pseudo headers *)

Lemma add_addr_ok acc N a : stands acc N -> acc < 4294967296 - 131072 -> 0 <= a < 4294967296 -> stands (add_addr acc a) (N + a) /\ 0 <= add_addr acc a <= acc + 131070.
Proof.
  intros S Ha Hr. pose proof S as [P _ _]. unfold add_addr. change 0xffff with (Z.ones 16). rewrite !Z.land_ones, Z.shiftr_div_pow2 by lia. change (2 ^ 16) with 65536.
  assert (0 <= a mod 65536 < 65536) by (apply Z.mod_pos_bound; lia). assert (0 <= (a / 65536) mod 65536 < 65536) by (apply Z.mod_pos_bound; lia).
  rewrite (u32_small (acc + _)), u32_small by lia. split; [|lia]. rewrite <- Z.add_assoc. apply stands_add; [done|].
  rewrite (Z.mod_small (a / 65536)) by (split; [apply Z.div_pos; lia|apply Z.div_lt_upper_bound; lia]). rewrite Z.add_comm. apply stands_fold, stands_refl. lia.
Qed.

Lemma be2_bytes x : 0 <= x < 65536 -> le_dec (be_enc 2 x) = hton16 x.
Proof. intros H. rewrite <- hton16_image, le_dec_enc; [done|]. pose proof (hton16_range x). change (256 ^ Z.of_nat 2) with 65536. lia. Qed.

(** The end of the functions with a pseudo header: [A] is the addresses, [T] the
    rest of the header and [P] the data. *)
Lemma pseudo_finish acc A T P proto proto_len : bytes_ok A -> bytes_ok T -> bytes_ok P -> odd_length A = false -> odd_length T = false ->
  stands acc (le_dec (A ++ P)) -> acc < 65536 -> 0 <= proto < 256 -> 0 <= proto_len < 65536 -> stands (hton16 proto + hton16 proto_len) (le_dec T) ->
  complement (FOLD_U32T (FOLD_U32T (u32 (u32 (acc + hton16 (u16 proto)) + hton16 proto_len)))) = hton16 (rfc1071 (A ++ T ++ P)).
Proof.
  intros HA HT HP EA ET S Ha Hpr Hpl ST. pose proof S as [Pos _ _]. pose proof (hton16_range proto). pose proof (hton16_range proto_len).
  rewrite (u16_small proto), (u32_small (acc + _)), (u32_small (_ + hton16 proto_len)) by lia.
  assert (stands (acc + hton16 proto + hton16 proto_len) (le_dec (A ++ T ++ P))) as S3.
  { rewrite <- Z.add_assoc. etrans; [apply stands_add; [exact S|exact ST]|]. etrans; [apply stands_add; [by apply stands_even_app|by apply stands_refl, bytes_nonneg]|].
    symmetry. etrans; [apply stands_even_app; [done|by apply Forall_app|done]|]. rewrite <- Z.add_assoc. apply stands_add; [by apply stands_refl, bytes_nonneg|].
    rewrite Z.add_comm. etrans; [by apply stands_even_app|]. rewrite Z.add_comm. apply stands_refl. pose proof (bytes_nonneg _ HT). pose proof (bytes_nonneg _ HP). lia. }
  destruct (fold_twice _ _ S3) as [S4 B4]; [lia|]. rewrite complement_spec by lia. apply sum_is_rfc1071; [|done|lia]. apply Forall_app. split; [done|]. by apply Forall_app.
Qed.

Lemma pseudo_base_ok p A T acc proto proto_len : chain_ok p -> bytes_ok A -> bytes_ok T -> bytes_ok (payload p) -> odd_length A = false -> odd_length T = false ->
  stands acc (le_dec A) -> acc < 65536 -> 0 <= proto < 256 -> 0 <= proto_len < 65536 -> stands (hton16 proto + hton16 proto_len) (le_dec T) ->
  inet_cksum_pseudo_base p proto proto_len acc = hton16 (rfc1071 (A ++ T ++ payload p)).
Proof.
  intros Hp HA HT HP EA ET S Ha Hpr Hpl ST. unfold inet_cksum_pseudo_base. pose proof (sum_chain_ok p Hp acc A HA) as C. rewrite EA in C.
  destruct (sum_chain p acc false) as [acc1 sw]. destruct C as [S1 B1]; [by rewrite Z.mul_1_l|done|]. destruct (unswapped _ _ _ S1 B1) as [S2 B2].
  apply pseudo_finish; try done; lia.
Qed.

Lemma add_ip6_ok src : forall dest acc N, Forall (fun a => 0 <= a < 4294967296) src -> Forall (fun a => 0 <= a < 4294967296) dest -> length src = length dest ->
  stands acc N -> acc + 262140 * Z.of_nat (length src) < 4294967296 - 131072 ->
  stands (add_ip6 src dest acc) (N + (le_dec (concat (map (le_enc 4) src)) + le_dec (concat (map (le_enc 4) dest)))) /\
  add_ip6 src dest acc <= acc + 262140 * Z.of_nat (length src).
Proof.
  induction src as [|x src IH]; intros [|y dest] acc N Hs Hd Hl S Ha; try done; cbn [add_ip6].
  - cbn. rewrite Z.add_0_r. split; [done|lia].
  - apply Forall_cons in Hs as [Hx Hs]. apply Forall_cons in Hd as [Hy Hd]. injection Hl as Hl. cbn [length] in Ha |- *. rewrite Nat2Z.inj_succ in *.
    destruct (add_addr_ok acc N x S) as [S1 B1]; [lia|done|]. destruct (add_addr_ok _ _ y S1) as [S2 B2]; [lia|done|].
    destruct (IH dest _ _ Hs Hd Hl S2) as [S3 B3]; [lia|]. split; [|lia]. etrans; [exact S3|]. cbn [map concat].
    assert (forall z l, 0 <= z < 4294967296 -> stands (le_dec (le_enc 4 z ++ concat (map (le_enc 4) l))) (z + le_dec (concat (map (le_enc 4) l)))) as Hw.
    { intros z l Hz. rewrite <- (le_dec_enc 4 z) at 2 by (change (256 ^ Z.of_nat 4) with 4294967296; lia). apply stands_even_app; [apply le_enc_bytes| |done].
      apply Forall_concat, Forall_map, Forall_true. intros; apply le_enc_bytes. }
    rewrite <- !Z.add_assoc. apply stands_add; [apply stands_refl; destruct S as [P _ _]; lia|]. symmetry. etrans; [apply stands_add; [by apply Hw|by apply Hw]|].
    replace (x + le_dec (concat (map (le_enc 4) src)) + (y + le_dec (concat (map (le_enc 4) dest))))
      with (x + (y + (le_dec (concat (map (le_enc 4) src)) + le_dec (concat (map (le_enc 4) dest))))) by lia.
    assert (forall l, 0 <= le_dec (concat (map (le_enc 4) l))) as Hn by (intros l; apply bytes_nonneg, Forall_concat, Forall_map, Forall_true; intros; apply le_enc_bytes).
    apply stands_refl. pose proof (Hn src). pose proof (Hn dest). lia.
Qed.

Lemma words_bytes l : bytes_ok (concat (map (le_enc 4) l)) /\ odd_length (concat (map (le_enc 4) l)) = false.
Proof.
  induction l as [|x l [IH1 IH2]]; [done|]. cbn [map concat]. split; [apply Forall_app; split; [apply le_enc_bytes|done]|]. rewrite odd_app, IH2. unfold odd_length. by rewrite le_enc_length.
Qed.

(** The part of the pseudo header that follows the addresses. *)
Lemma pseudo_tail proto proto_len : 0 <= proto < 256 -> 0 <= proto_len < 65536 ->
  let T := [0; proto] ++ be_enc 2 proto_len in bytes_ok T /\ odd_length T = false /\ stands (hton16 proto + hton16 proto_len) (le_dec T).
Proof.
  intros Hp Hl T. assert (bytes_ok [0; proto]) as Hb by (repeat constructor; unfold is_byte; lia). split; [apply Forall_app; split; [done|apply be_enc_bytes]|].
  split; [unfold T; rewrite odd_app; unfold odd_length; by rewrite be_enc_length|]. symmetry. etrans; [apply stands_even_app; [done|apply be_enc_bytes|done]|].
  rewrite be2_bytes by lia. pose proof (hton16_range proto_len). cbn [le_dec]. rewrite (hton16_bytes proto), Z.div_small, Z.mod_small, Z.mul_0_r, (Z.add_0_r proto) by lia. apply stands_refl. lia.
Qed.

Lemma be4_small x : 0 <= x < 65536 -> be_enc 4 x = [0; 0] ++ be_enc 2 x.
Proof.
  intros H. unfold be_enc. cbn [le_enc rev app]. assert (x / 256 / 256 = 0) as -> by (apply Z.div_small; split; [apply Z.div_pos; lia|apply Z.div_lt_upper_bound; lia]). done.
Qed.

Lemma pseudo_tail6 proto proto_len : 0 <= proto < 256 -> 0 <= proto_len < 65536 ->
  let T := be_enc 4 proto_len ++ [0; 0; 0; proto] in bytes_ok T /\ odd_length T = false /\ stands (hton16 proto + hton16 proto_len) (le_dec T).
Proof.
  intros Hp Hl T. assert (bytes_ok [0; 0; 0; proto]) as Hb by (repeat constructor; unfold is_byte; lia). split; [apply Forall_app; split; [apply be_enc_bytes|done]|].
  split; [unfold T; rewrite odd_app; unfold odd_length; by rewrite be_enc_length|].
  symmetry. etrans; [apply stands_even_app; [apply be_enc_bytes|done|unfold odd_length; by rewrite be_enc_length]|]. rewrite Z.add_comm. pose proof (hton16_range proto_len). apply stands_add.
  - cbn [le_dec]. rewrite (hton16_bytes proto), Z.div_small, Z.mod_small by lia. replace (0 + 256 * (0 + 256 * (0 + 256 * (proto + 256 * 0)))) with (65536 * (256 * proto)) by lia.
    rewrite Z.add_0_l. apply stands_word. lia.
  - rewrite be4_small by lia. rewrite le_dec_app, be2_bytes by lia. change (256 ^ Z.of_nat (length [0; 0])) with 65536. cbn [le_dec]. rewrite Z.mul_0_r, Z.add_0_l. apply stands_word. lia.
Qed.

(** *** The functions *)

Definition word_ok (a : Z) : Prop := 0 <= a < 4294967296.

Lemma payload_bytes p : chain_ok p -> bytes_ok (payload p).
Proof. intros H. apply Forall_concat, Forall_map. eapply Forall_impl; [exact H|]. intros [odd d] [Hd _]. done. Qed.

Lemma pbuf_checksum p : chain_ok p -> inet_chksum_pbuf p = hton16 (rfc1071 (payload p)).
Proof.
  intros Hp. unfold inet_chksum_pbuf. pose proof (sum_chain_ok p Hp 0 [] ltac:(constructor)) as C. change (odd_length []) with false in C. cbn [le_dec] in C. rewrite Z.mul_0_r in C.
  destruct (sum_chain p 0 false) as [acc sw]. destruct C as [S B]; [by apply stands_refl|lia|]. destruct (unswapped _ _ _ S B) as [S1 B1]. rewrite complement_spec by done.
  apply sum_is_rfc1071; [by apply payload_bytes|done|done].
Qed.

Lemma buffer_checksum odd d : bytes_ok d -> Z.of_nat (length d) <= 65535 -> inet_chksum odd d = hton16 (rfc1071 d).
Proof.
  intros Hd Hl. unfold inet_chksum. destruct (standard_chksum_ok odd d Hd) as [S B]; [lia|]. rewrite <- (sum_is_rfc1071 _ d Hd S B).
  unfold u16, Z.lnot. Z.to_euclidean_division_equations; lia.
Qed.

Lemma addresses_sum src dest : word_ok src -> word_ok dest ->
  let acc := FOLD_U32T (FOLD_U32T (add_addr (add_addr 0 src) dest)) in stands acc (le_dec (le_enc 4 src ++ le_enc 4 dest)) /\ 0 <= acc < 65536.
Proof.
  unfold word_ok. intros Hs Hd. destruct (add_addr_ok 0 0 src (stands_refl 0 ltac:(lia))) as [S1 B1]; [lia|done|]. destruct (add_addr_ok _ _ dest S1) as [S2 B2]; [lia|done|].
  apply fold_twice; [|lia]. etrans; [exact S2|]. symmetry. etrans; [apply stands_even_app; [apply le_enc_bytes..|done]|].
  rewrite !le_dec_enc by (change (256 ^ Z.of_nat 4) with 4294967296; lia). apply stands_refl. lia.
Qed.

Lemma addresses6_sum src dest : Forall word_ok src -> Forall word_ok dest -> length src = 4%nat -> length dest = 4%nat ->
  let acc := FOLD_U32T (FOLD_U32T (add_ip6 src dest 0)) in
  stands acc (le_dec (concat (map (le_enc 4) src) ++ concat (map (le_enc 4) dest))) /\ 0 <= acc < 65536.
Proof.
  intros Hs Hd Ls Ld. destruct (add_ip6_ok src dest 0 0 Hs Hd) as [S B]; [congruence|by apply stands_refl|rewrite Ls; lia|]. rewrite Ls in B.
  apply fold_twice; [|lia]. etrans; [exact S|]. symmetry. apply stands_even_app; apply words_bytes.
Qed.

(** What the partial functions sum: the first bytes of the chain. *)
Lemma sum_partial_ok p : chain_ok p -> forall n acc X sw, bytes_ok X -> stands acc (shift sw * le_dec X) -> 0 <= acc < 65536 -> (0 < n -> sw = odd_length X) -> 0 <= n < 0x7fff ->
  exists acc' sw', sum_partial p n acc sw = Some (acc', sw') /\ stands acc' (shift sw' * le_dec (X ++ take (Z.to_nat n) (payload p))) /\ 0 <= acc' < 65536.
Proof.
  induction 1 as [|[odd d] p [Hd Hl] Hp IH]; intros n acc X sw HX S Ha Hw Hn; cbn [sum_partial].
  - exists acc, sw. change (payload []) with (@nil Z). rewrite take_nil, app_nil_r. done.
  - cbn [snd] in *. destruct (Z.ltb_spec 0 n) as [Hpos|]; cbn [negb]; [|exists acc, sw; replace (Z.to_nat n) with 0%nat by lia; by rewrite take_0, app_nil_r].
    rewrite (Hw Hpos) in *. set (k := if n <? Z.of_nat (length d) then n else Z.of_nat (length d)). assert (0 <= k <= n /\ k <= Z.of_nat (length d) /\ (k < n -> k = Z.of_nat (length d))) as (K1 & K2 & K3).
    { unfold k. destruct (Z.ltb_spec n (Z.of_nat (length d))); lia. }
    set (y := take (Z.to_nat k) d). assert (bytes_ok y) as Hy by by apply Forall_take. assert (Z.of_nat (length y) <= 65535) as Hyl by (unfold y; rewrite length_take; lia).
    destruct (chain_step odd y acc X) as [S1 B1]; [done..|lia|]. set (acc1 := FOLD_U32T _) in *. rewrite (proj2 (Z.ltb_lt (n - k) _)) by lia.
    assert (X ++ take (Z.to_nat n) (payload ((odd, d) :: p)) = (X ++ y) ++ take (Z.to_nat (n - k)) (payload p)) as ->.
    { unfold payload. cbn [map concat snd]. rewrite <- app_assoc. f_equal. unfold y. destruct (decide (k < n)) as [Hlt|Hge].
      - rewrite take_app_ge by lia. rewrite (take_ge d) by lia. f_equal. f_equal. specialize (K3 Hlt). lia.
      - replace k with n by lia. rewrite Z.sub_diag, take_app_le by lia. by rewrite take_0, app_nil_r. }
    assert (bytes_ok (X ++ y)) as HXy by by apply Forall_app. assert (0 < n - k -> odd_length (X ++ y) = xorb (odd_length X) (odd_length d)) as Ho.
    { intros Hlt. rewrite odd_app. unfold y. by rewrite take_ge by lia. }
    destruct (odd_length d).
    + destruct (swap_step _ _ _ S1) as [S2 B2]; [lia|]. apply IH; try done; [|lia]. intros Hlt. by rewrite Ho, xorb_true_r by lia.
    + apply IH; try done; [|lia]. intros Hlt. by rewrite Ho, xorb_false_r by lia.
Qed.

Lemma partial_base_ok p n A T acc proto proto_len : chain_ok p -> bytes_ok A -> bytes_ok T -> odd_length A = false -> odd_length T = false ->
  stands acc (le_dec A) -> 0 <= acc < 65536 -> 0 <= proto < 256 -> 0 <= proto_len < 65536 -> 0 <= n < 0x7fff -> stands (hton16 proto + hton16 proto_len) (le_dec T) ->
  inet_cksum_pseudo_partial_base p proto proto_len n acc = Some (hton16 (rfc1071 (A ++ T ++ take (Z.to_nat n) (payload p)))).
Proof.
  intros Hp HA HT EA ET S Ha Hpr Hpl Hn ST. unfold inet_cksum_pseudo_partial_base.
  destruct (sum_partial_ok p Hp n acc A false HA) as (acc1 & sw & -> & S1 & B1); [by rewrite Z.mul_1_l|done|done|done|]. destruct (unswapped _ _ _ S1 B1) as [S2 B2].
  f_equal. set (acc2 := if sw then _ else _) in *. pose proof (payload_bytes p Hp) as HP. set (P := take _ _) in *. assert (bytes_ok P) as HP' by by apply Forall_take.
  eapply (pseudo_finish acc2 A T P); try done; lia.
Qed.

(** C31: the checksums are those of RFC 1071.  However the data is cut into
    buffers and wherever these start, the value is the checksum of the data in
    network byte order, of the data behind the pseudo header of IPv4 or IPv6,
    or, for the partial functions, of the first bytes of the data behind it. *)
Theorem checksums_rfc1071 p proto proto_len chksum_len src dest src6 dest6 :
  chain_ok p -> 0 <= proto < 256 -> 0 <= proto_len < 65536 -> 0 <= chksum_len < 0x7fff -> word_ok src -> word_ok dest ->
  Forall word_ok src6 -> Forall word_ok dest6 -> length src6 = 4%nat -> length dest6 = 4%nat ->
  inet_chksum_pbuf p = hton16 (rfc1071 (payload p)) /\
  Forall (fun x => inet_chksum x.1 x.2 = hton16 (rfc1071 x.2)) p /\
  inet_chksum_pseudo p proto proto_len src dest = hton16 (rfc1071 (pseudo_header src dest proto proto_len ++ payload p)) /\
  ip6_chksum_pseudo p proto proto_len src6 dest6 = hton16 (rfc1071 (pseudo_header6 src6 dest6 proto proto_len ++ payload p)) /\
  inet_chksum_pseudo_partial p proto proto_len chksum_len src dest =
    Some (hton16 (rfc1071 (pseudo_header src dest proto proto_len ++ take (Z.to_nat chksum_len) (payload p)))) /\
  ip6_chksum_pseudo_partial p proto proto_len chksum_len src6 dest6 =
    Some (hton16 (rfc1071 (pseudo_header6 src6 dest6 proto proto_len ++ take (Z.to_nat chksum_len) (payload p)))).
Proof.
  intros Hp Hpr Hpl Hn Hs Hd Hs6 Hd6 L1 L2. pose proof (payload_bytes p Hp) as HP.
  destruct (addresses_sum src dest Hs Hd) as [S B]. destruct (addresses6_sum src6 dest6 Hs6 Hd6 L1 L2) as [S6 B6].
  destruct (pseudo_tail proto proto_len Hpr Hpl) as (T1 & T2 & T3). destruct (pseudo_tail6 proto proto_len Hpr Hpl) as (U1 & U2 & U3).
  assert (bytes_ok (le_enc 4 src ++ le_enc 4 dest) /\ odd_length (le_enc 4 src ++ le_enc 4 dest) = false) as [A1 A2] by (split; [apply Forall_app; split; apply le_enc_bytes|done]).
  assert (bytes_ok (concat (map (le_enc 4) src6) ++ concat (map (le_enc 4) dest6)) /\ odd_length (concat (map (le_enc 4) src6) ++ concat (map (le_enc 4) dest6)) = false) as [C1 C2].
  { destruct (words_bytes src6), (words_bytes dest6). split; [by apply Forall_app|]. rewrite odd_app. by rewrite H0, H2. }
  unfold pseudo_header, pseudo_header6, inet_chksum_pseudo, ip6_chksum_pseudo, inet_chksum_pseudo_partial, ip6_chksum_pseudo_partial.
  split; [by apply pbuf_checksum|]. split; [eapply Forall_impl; [exact Hp|]; intros x [? ?]; by apply buffer_checksum|].
  rewrite (pseudo_base_ok p _ _ _ proto proto_len Hp A1 T1 HP A2 T2 S (proj2 B) Hpr Hpl T3).
  rewrite (pseudo_base_ok p _ _ _ proto proto_len Hp C1 U1 HP C2 U2 S6 (proj2 B6) Hpr Hpl U3).
  rewrite (partial_base_ok p chksum_len _ _ _ proto proto_len Hp A1 T1 A2 T2 S B Hpr Hpl Hn T3).
  rewrite (partial_base_ok p chksum_len _ _ _ proto proto_len Hp C1 U1 C2 U2 S6 B6 Hpr Hpl Hn U3). by rewrite <- !app_assoc.
Qed.

Lemma checksums_rfc1071_witness :
  let p := [(true, [1; 2; 3]); (false, [4; 255])] in
  chain_ok p /\ inet_chksum_pseudo p 6 5 0x0100007f 0x0200000a = hton16 (rfc1071 (pseudo_header 0x0100007f 0x0200000a 6 5 ++ payload p)) /\
  pseudo_header 0x0100007f 0x0200000a 6 5 = [127; 0; 0; 1; 10; 0; 0; 2; 0; 6; 0; 5].
Proof.
  cbn zeta. assert (chain_ok [(true, [1; 2; 3]); (false, [4; 255])]) as Hp by (repeat constructor; unfold is_byte; cbn; lia).
  assert (forall a, a = 0 \/ a = 0x0100007f \/ a = 0x0200000a -> word_ok a) as Hw by (unfold word_ok; intros; lia).
  split; [exact Hp|]. split; [|reflexivity].
  refine (proj1 (proj2 (proj2 (checksums_rfc1071 _ 6 5 0 0x0100007f 0x0200000a [0; 0; 0; 0] [0; 0; 0; 0] Hp _ _ _ _ _ _ _ _ _)))); try lia; try (by apply Hw; auto); try reflexivity;
    repeat constructor; by compute.
Defined.

(** A packet with its checksum in place checks.  When the checksum was
    computed with zeros in its field, which is at an even offset, the checksum
    of the whole is 0, as the receiver tests, however it is cut. *)
Theorem checksum_in_place p q x y : chain_ok p -> chain_ok q -> odd_length x = false -> bytes_ok x -> bytes_ok y ->
  payload p = x ++ [0; 0] ++ y -> payload q = x ++ le_enc 2 (inet_chksum_pbuf p) ++ y -> inet_chksum_pbuf q = 0.
Proof.
  intros Hp Hq Ex Hx Hy Ep Eq. pose proof (payload_bytes p Hp) as HP. unfold inet_chksum_pbuf in Eq |- *.
  pose proof (sum_chain_ok p Hp 0 [] ltac:(constructor)) as C. change (odd_length []) with false in C. cbn [le_dec] in C. rewrite Z.mul_0_r in C.
  destruct (sum_chain p 0 false) as [a1 sw]. destruct C as [S B]; [by apply stands_refl|lia|]. destruct (unswapped _ _ _ S B) as [S1 B1]. set (acc := if sw then _ else _) in *.
  rewrite complement_spec in Eq by done. cbn [app] in S1.
  assert (forall w, 0 <= w < 65536 -> stands (le_dec (x ++ le_enc 2 w ++ y)) (le_dec x + le_dec y + w)) as Hw.
  { intros w Hw. etrans; [apply stands_even_app; [done|by apply Forall_app; split; [apply le_enc_bytes|]|done]|]. rewrite <- Z.add_assoc, (Z.add_comm (le_dec y)).
    apply stands_add; [by apply stands_refl, bytes_nonneg|]. rewrite <- (le_dec_enc 2 w) at 2 by (change (256 ^ Z.of_nat 2) with 65536; lia).
    apply stands_even_app; [apply le_enc_bytes|done|done]. }
  assert (stands 65535 (le_dec (payload q))) as S2.
  { symmetry. rewrite Eq. etrans; [apply Hw; lia|]. replace 65535 with (acc + (65535 - acc)) at 2 by lia. apply stands_add; [|apply stands_refl; lia].
    symmetry. etrans; [exact S1|]. rewrite Ep. change [0; 0] with (le_enc 2 0). etrans; [apply Hw; lia|]. rewrite Z.add_0_r. apply stands_refl.
    pose proof (bytes_nonneg x Hx). pose proof (bytes_nonneg y Hy). lia. }
  change (inet_chksum_pbuf q = 0). rewrite pbuf_checksum, <- (sum_is_rfc1071 65535) by (done || lia || by apply payload_bytes). done.
Qed.

Lemma checksum_in_place_witness : inet_chksum_pbuf [(true, [9]); (false, 8 :: le_enc 2 (inet_chksum_pbuf [(false, [9; 8; 0; 0; 7])]) ++ [7])] = 0.
Proof.
  apply (checksum_in_place [(false, [9; 8; 0; 0; 7])] [(true, [9]); (false, 8 :: le_enc 2 (inet_chksum_pbuf [(false, [9; 8; 0; 0; 7])]) ++ [7])] [9; 8] [7]); try reflexivity;
    vm_compute; repeat constructor; try (by intros [=]); lia.
Defined.
Lemma rfc1071_range D : bytes_ok D -> 0 <= rfc1071 D < 65536.
Proof. intros HD. destruct (ones_sum_ok D HD 0 0 (stands_refl 0 ltac:(lia)) ltac:(lia)). unfold rfc1071. lia. Qed.

Lemma hton16_zero x : 0 <= x < 65536 -> (hton16 x =? 0) = (x =? 0).
Proof. intros Hx. destruct (Z.eqb_spec x 0) as [->|Hne]; [done|]. apply Z.eqb_neq. intros E. apply Hne. rewrite <- (hton16_invol x Hx), E. done. Qed.

(** The checksum of data in one piece with the checksum of it in its field. *)
Lemma rfc1071_in_place x y : odd_length x = false -> bytes_ok x -> bytes_ok y -> Z.of_nat (length (x ++ [0; 0] ++ y)) <= 65535 -> rfc1071 (x ++ be_enc 2 (rfc1071 (x ++ [0; 0] ++ y)) ++ y) = 0.
Proof.
  intros Ex Hx Hy Hl. set (z := x ++ [0; 0] ++ y) in *. set (D := x ++ be_enc 2 (rfc1071 z) ++ y). assert (bytes_ok z) as Hz by (apply Forall_app; split; [done|]; apply Forall_app; split; [exact (le_enc_bytes 2 0)|done]).
  assert (bytes_ok D) as HD by (apply Forall_app; split; [done|]; apply Forall_app; split; [apply be_enc_bytes|done]). assert (length D = length z) as LD by (unfold D, z; rewrite !length_app, be_enc_length; done).
  assert (chain_ok [(false, z)]) as C0 by (constructor; [by split|constructor]). assert (chain_ok [(false, D)]) as C1 by (constructor; [split; [done|cbn [snd]; lia]|constructor]).
  assert (forall d : bytes, payload [(false, d)] = d) as Ep by (intros d; apply app_nil_r). pose proof (pbuf_checksum _ C0) as E0. pose proof (pbuf_checksum _ C1) as E1. rewrite Ep in E0, E1.
  rewrite (checksum_in_place [(false, z)] [(false, D)] x y C0 C1 Ex Hx Hy) in E1; rewrite ?Ep; [|done|by rewrite E0, hton16_image]. apply Z.eqb_eq. rewrite <- hton16_zero by by apply rfc1071_range. by rewrite <- E1.
Qed.

Lemma rfc1071_zero D : bytes_ok D -> rfc1071 D = 0 <-> stands 65535 (le_dec D).
Proof.
  intros HD. split.
  - intros E. destruct (ones_sum_ok D HD 0 0 (stands_refl 0 ltac:(lia)) ltac:(lia)) as [S B]. unfold rfc1071 in E. replace (ones_sum D 0) with 65535 in S by lia. rewrite Z.add_0_l in S. destruct (stands_swap 65535 _ ltac:(lia) S) as [S' _]. change (hton16 65535) with 65535 in S'.
    etrans; [exact S'|]. replace (256 * (256 * le_dec D)) with (65536 * le_dec D) by lia. apply stands_word. by apply bytes_nonneg.
  - intros S. pose proof (sum_is_rfc1071 65535 D HD S ltac:(lia)) as E. apply Z.eqb_eq. rewrite <- hton16_zero by by apply rfc1071_range. by rewrite <- E.
Qed.

End Checksum.
