(* ===== verification/CLib.v ===== *)
(** * What the sources use of the C library

    String and number conversion functions of the C standard library, on byte
    lists: a C string is the list of its bytes before the terminating NUL. *)

From S2P Require Import Prelude.
From S2P Require Import ParseNumber.

(** [isspace] in the C locale. *)
Definition isspace (c : Z) : bool := (c =? 32) || ((9 <=? c) && (c <=? 13)).

Fixpoint skip_spaces (s : bytes) : bytes :=
  match s with
  | c :: s' => if isspace c then skip_spaces s' else s
  | [] => []
  end.

(** The longest prefix of decimal digits and what follows it. *)
Fixpoint span_digits (s : bytes) : bytes * bytes :=
  match s with
  | c :: s' =>
      if 0 <=? decode_decimal_digit c
      then let '(ds, r) := span_digits s' in (c :: ds, r)
      else ([], s)
  | [] => ([], [])
  end.

Definition LONG_MAX : Z := 9223372036854775807.
Definition LONG_MIN : Z := -9223372036854775808.

(** [strtol(s, &end, 10)]: the value, clamped to [long], and the text at
    [end] (the whole of [s] when there is no number). *)
Definition strtol10 (s : bytes) : Z * bytes :=
  let t := skip_spaces s in
  let '(neg, t) :=
    match t with
    | c :: t' => if c =? 45 then (true, t') else if c =? 43 then (false, t') else (false, t)
    | [] => (false, [])
    end in
  let '(ds, rest) := span_digits t in
  match ds with
  | [] => (0, s)
  | _ =>
      let v := if neg : bool then - dec_value ds else dec_value ds in
      (Z.max LONG_MIN (Z.min LONG_MAX v), rest)
  end.

(** Conversion of a [long] to [int], as gcc does it. *)
Definition to_int (x : Z) : Z := (x + 2147483648) mod 4294967296 - 2147483648.

Definition atoi (s : bytes) : Z := to_int (fst (strtol10 s)).

(** [strchr(s, c)] cuts the string at the first [c]: the text before it and
    the text after it. *)
Fixpoint strchr (s : bytes) (c : Z) : option (bytes * bytes) :=
  match s with
  | [] => None
  | x :: s' =>
      if x =? c then Some ([], s')
      else match strchr s' c with
           | Some (before, after) => Some (x :: before, after)
           | None => None
           end
  end.

(** [s] starts with [p]: what is left of [s]. *)
Fixpoint after_prefix (p s : bytes) : option bytes :=
  match p, s with
  | [], _ => Some s
  | x :: p, y :: s => if x =? y then after_prefix p s else None
  | _ :: _, [] => None
  end.

(** [strstr(s, needle)], returning the text after the occurrence. *)
Fixpoint strstr_after (s needle : bytes) : option bytes :=
  match after_prefix needle s with
  | Some r => Some r
  | None => match s with [] => None | _ :: s' => strstr_after s' needle end
  end.

(** The text before the first character of [reject]: what [strncat] copies
    when it is given [strcspn(s, reject)]. *)
Fixpoint take_cspn (s reject : bytes) : bytes :=
  match s with
  | [] => []
  | c :: s' => if existsb (Z.eqb c) reject then [] else c :: take_cspn s' reject
  end.

(** [%x] of an unsigned value below 2^16. *)
Definition hex_char (d : Z) : Z := if d <? 10 then 48 + d else 87 + d.
Fixpoint hex_digits (fuel : nat) (x : Z) (acc : bytes) : bytes :=
  match fuel with
  | O => acc
  | S fuel =>
      let acc := hex_char (x mod 16) :: acc in
      if 0 <? x / 16 then hex_digits fuel (x / 16) acc else acc
  end.
Definition hex_repr (x : Z) : bytes := hex_digits 4 x [].

(** ** Lemmas *)

Lemma span_digits_digits ds rest :
  Forall is_digit ds -> (match rest with c :: _ => ~ is_digit c | [] => True end) ->
  span_digits (ds ++ rest) = (ds, rest).
Proof.
  intros H Hr. induction H as [|c ds Hc Hd IH]; simpl.
  - destruct rest as [|c rest]; [done|]. simpl.
    unfold decode_decimal_digit, is_digit, chr_0, chr_9 in *. bool_cases; try lia; done.
  - rewrite IH. unfold decode_decimal_digit, is_digit, chr_0, chr_9 in *. bool_cases; try lia; done.
Qed.

Lemma digit_not_space c : is_digit c -> isspace c = false.
Proof. unfold is_digit, isspace, chr_0, chr_9. intros. bool_cases; lia || done. Qed.

(** A plain digit string converts to its value. *)
Lemma strtol10_digits ds :
  Forall is_digit ds -> ds <> [] -> dec_value ds <= LONG_MAX -> strtol10 ds = (dec_value ds, []).
Proof.
  intros Hd Hn Hv. unfold strtol10.
  pose proof (dec_value_bound ds Hd).
  destruct ds as [|c ds]; [done|]. inversion_clear Hd as [|? ? Hc Hd'].
  cbn [skip_spaces]. rewrite digit_not_space by done.
  destruct (Z.eqb_spec c 45) as [->|]; [unfold is_digit, chr_0 in Hc; lia|].
  destruct (Z.eqb_spec c 43) as [->|]; [unfold is_digit, chr_0 in Hc; lia|].
  pose proof (span_digits_digits (c :: ds) [] (Forall_cons_2 _ _ _ Hc Hd') I) as E.
  rewrite app_nil_r in E. rewrite E.
  f_equal. unfold LONG_MIN in *. lia.
Qed.

Lemma strchr_app a c b : Forall (fun x => x <> c) a -> strchr (a ++ c :: b) c = Some (a, b).
Proof.
  induction 1 as [|x a Hx Ha IH]; simpl; [by rewrite Z.eqb_refl|].
  destruct (Z.eqb_spec x c); [done|]. by rewrite IH.
Qed.

Lemma strchr_Some s c a b : strchr s c = Some (a, b) -> s = a ++ c :: b /\ Forall (fun x => x <> c) a.
Proof.
  revert a. induction s as [|x s IH]; intros a; simpl; [done|].
  destruct (Z.eqb_spec x c) as [->|Hx].
  - intros [= <- <-]. split; [done|constructor].
  - destruct (strchr s c) as [[a' b']|]; [|done]. intros [= <- <-].
    destruct (IH a' eq_refl) as [-> F]. split; [done|by constructor].
Qed.

Lemma strchr_None s c : strchr s c = None <-> Forall (fun x => x <> c) s.
Proof.
  induction s as [|x s IH]; simpl; [split; [constructor|done]|]. rewrite Forall_cons.
  destruct (Z.eqb_spec x c) as [->|Hx]; [split; [done|intros []; done]|].
  destruct (strchr s c) as [[]|]; [split; [done|]; intros [_ F]; by apply IH in F|].
  split; [intros _; split; [done|by apply IH]|done].
Qed.

Lemma to_int_small x : -2147483648 <= x <= 2147483647 -> to_int x = x.
Proof. intros. unfold to_int. rewrite Z.mod_small; lia. Qed.
