(* ===== verification/LinkedList.v ===== *)
(** * Intrusive linked lists

    Models [structure/LinkedList1.h] and [structure/SLinkedList_impl.h] (with
    [SLINKEDLIST_PARAM_FEATURE_LAST] 0 and 1) on a memory of nodes: a node is
    part of the object it links, so the operations get the address of a node
    and read and write nodes in place.  [None] as a result is an access to an
    address that holds no node or a failed [ASSERT]; as a pointer it is null. *)

From S2P Require Import Prelude.

Abbreviation addr := Z.

Record node := Node { p : option addr; n : option addr }.
Abbreviation memory := (gmap addr node).

Definition set_p (a : addr) (v : option addr) (m : memory) : option memory :=
  LET x <- m !! a in Some (<[a := Node v x.(n)]> m).
Definition set_n (a : addr) (v : option addr) (m : memory) : option memory :=
  LET x <- m !! a in Some (<[a := Node x.(p) v]> m).
Definition write_node (a : addr) (vp vn : option addr) (m : memory) : option memory :=
  LET _ <- m !! a in Some (<[a := Node vp vn]> m).

Record list1 := List1 { first : option addr; last_ : option addr }.

Module LinkedList1.

Definition LinkedList1_Init : list1 := List1 None None.
Definition LinkedList1_IsEmpty (l : list1) : bool := bool_decide (l.(first) = None).
Definition LinkedList1_GetFirst (l : list1) : option addr := l.(first).
Definition LinkedList1_GetLast (l : list1) : option addr := l.(last_).

Definition LinkedList1_Prepend (m : memory) (l : list1) (a : addr) : option (memory * list1) :=
  LET m <- write_node a None l.(first) m in
  match l.(first) with
  | Some f => LET m <- set_p f (Some a) m in Some (m, List1 (Some a) l.(last_))
  | None => Some (m, List1 (Some a) (Some a))
  end.

Definition LinkedList1_Append (m : memory) (l : list1) (a : addr) : option (memory * list1) :=
  LET m <- write_node a l.(last_) None m in
  match l.(last_) with
  | Some z => LET m <- set_n z (Some a) m in Some (m, List1 l.(first) (Some a))
  | None => Some (m, List1 (Some a) (Some a))
  end.

Definition LinkedList1_InsertBefore (m : memory) (l : list1) (a target : addr) : option (memory * list1) :=
  LET t <- m !! target in
  LET m <- write_node a t.(p) (Some target) m in
  LET (m, l) <- (match t.(p) with
                 | Some q => LET m <- set_n q (Some a) m in Some (m, l)
                 | None => Some (m, List1 (Some a) l.(last_))
                 end) in
  LET m <- set_p target (Some a) m in Some (m, l).

Definition LinkedList1_InsertAfter (m : memory) (l : list1) (a target : addr) : option (memory * list1) :=
  LET t <- m !! target in
  LET m <- write_node a (Some target) t.(n) m in
  LET (m, l) <- (match t.(n) with
                 | Some q => LET m <- set_p q (Some a) m in Some (m, l)
                 | None => Some (m, List1 l.(first) (Some a))
                 end) in
  LET m <- set_n target (Some a) m in Some (m, l).

Definition LinkedList1_Remove (m : memory) (l : list1) (a : addr) : option (memory * list1) :=
  LET x <- m !! a in
  LET (m, l) <- (match x.(p) with
                 | Some q => LET m <- set_n q x.(n) m in Some (m, l)
                 | None => Some (m, List1 x.(n) l.(last_))
                 end) in
  match x.(n) with
  | Some q => LET m <- set_p q x.(p) m in Some (m, l)
  | None => Some (m, List1 l.(first) x.(p))
  end.

Definition LinkedList1_InsertListAfter (m : memory) (l ins : list1) (target : option addr) : option (memory * list1) :=
  match ins.(first) with
  | None => Some (m, l)
  | Some f =>
      LET z <- ins.(last_) in
      LET t_next <- (match target with Some t => LET x <- m !! t in Some x.(n) | None => Some l.(first) end) in
      LET m <- set_p f target m in
      LET m <- set_n z t_next m in
      LET (m, l) <- (match target with
                     | Some t => LET m <- set_n t (Some f) m in Some (m, l)
                     | None => Some (m, List1 (Some f) l.(last_))
                     end) in
      match t_next with
      | Some q => LET m <- set_p q (Some z) m in Some (m, l)
      | None => Some (m, List1 l.(first) (Some z))
      end
  end.

Definition LinkedList1Node_Next (m : memory) (a : addr) : option (option addr) := LET x <- m !! a in Some x.(n).
Definition LinkedList1Node_Prev (m : memory) (a : addr) : option (option addr) := LET x <- m !! a in Some x.(p).

End LinkedList1.

(** The list has no [last] when the feature is off; [last_] is then unused. *)
Module SLinkedList.

Section feature.
Context (FEATURE_LAST : bool).

Definition with_last (l : list1) (v : option addr) : list1 := if FEATURE_LAST then List1 l.(first) v else l.

Definition SLinkedListMarkRemoved (m : memory) (a : addr) : option memory := set_n a (Some a) m.
Definition SLinkedListIsRemoved (m : memory) (a : addr) : option bool :=
  LET x <- m !! a in Some (bool_decide (x.(n) = Some a)).

Definition SLinkedList_Init : list1 := List1 None None.
Definition SLinkedList_First (l : list1) : option addr := l.(first).
Definition SLinkedList_Last (l : list1) : option addr := match l.(first) with None => None | _ => l.(last_) end.
Definition SLinkedList_IsEmpty (l : list1) : bool := bool_decide (l.(first) = None).

Definition SLinkedList_Prepend (m : memory) (l : list1) (a : addr) : option (memory * list1) :=
  LET m <- set_n a l.(first) m in
  LET (m, l) <- (match l.(first) with
                 | Some f => LET m <- set_p f (Some a) m in Some (m, l)
                 | None => Some (m, with_last l (Some a))
                 end) in
  Some (m, List1 (Some a) l.(last_)).

(** Only with [FEATURE_LAST]. *)
Definition SLinkedList_Append (m : memory) (l : list1) (a : addr) : option (memory * list1) :=
  LET m <- set_n a None m in
  LET (m, l) <- (match l.(first) with
                 | Some _ =>
                     LET z <- l.(last_) in
                     LET m <- set_p a (Some z) m in
                     LET m <- set_n z (Some a) m in Some (m, l)
                 | None => Some (m, List1 (Some a) l.(last_))
                 end) in
  Some (m, List1 l.(first) (Some a)).

Definition SLinkedList_Remove (m : memory) (l : list1) (a : addr) : option (memory * list1) :=
  LET x <- m !! a in
  if bool_decide (l.(first) = Some a) then Some (m, List1 x.(n) l.(last_))
  else
    LET q <- x.(p) in
    LET m <- set_n q x.(n) m in
    match x.(n) with
    | Some r => LET m <- set_p r x.(p) m in Some (m, l)
    | None => Some (m, with_last l x.(p))
    end.

Definition SLinkedList_RemoveFirst (m : memory) (l : list1) : option list1 :=
  LET f <- l.(first) in LET x <- m !! f in Some (List1 x.(n) l.(last_)).

End feature.
End SLinkedList.

(** ** Segments

    [dseg m pv l nx] holds when the nodes of [l] are linked in this order in
    [m], the first one back to [pv] and the last one on to [nx]. *)
Definition head_or (nx : option addr) (l : list addr) : option addr :=
  match l with [] => nx | a :: _ => Some a end.
Fixpoint last_or (pv : option addr) (l : list addr) : option addr :=
  match l with [] => pv | a :: l => last_or (Some a) l end.

Fixpoint dseg (m : memory) (pv : option addr) (l : list addr) (nx : option addr) : Prop :=
  match l with
  | [] => True
  | a :: l => m !! a = Some (Node pv (head_or nx l)) /\ dseg m (Some a) l nx
  end.

Lemma head_or_app nx l l' : head_or nx (l ++ l') = head_or (head_or nx l') l.
Proof. by destruct l. Qed.
Lemma last_or_app pv l l' : last_or pv (l ++ l') = last_or (last_or pv l) l'.
Proof. revert pv. induction l as [|a l IH]; intros pv; [done|]. apply IH. Qed.
Lemma last_or_snoc pv l a : last_or pv (l ++ [a]) = Some a.
Proof. by rewrite last_or_app. Qed.

Lemma dseg_app m pv l l' nx :
  dseg m pv (l ++ l') nx <-> dseg m pv l (head_or nx l') /\ dseg m (last_or pv l) l' nx.
Proof.
  revert pv. induction l as [|a l IH]; intros pv; cbn [app dseg last_or]; [tauto|].
  rewrite IH, head_or_app. tauto.
Qed.

Lemma dseg_frame m a x pv l nx : a ∉ l -> dseg m pv l nx -> dseg (<[a := x]> m) pv l nx.
Proof.
  revert pv. induction l as [|b l IH]; intros pv; cbn [dseg]; [done|]. intros [Hb Hl]%not_elem_of_cons [H1 H2].
  rewrite lookup_insert_ne by done. split; [done|]. by apply IH.
Qed.

Lemma dseg_lookup m pv l1 a l2 nx : dseg m pv (l1 ++ a :: l2) nx ->
  m !! a = Some (Node (last_or pv l1) (head_or nx l2)).
Proof. intros [_ H]%dseg_app. by destruct H. Qed.

(** The two ends of a segment can be relinked. *)
Lemma dseg_set_first m a pv pv' l nx :
  a ∉ l -> dseg m pv (a :: l) nx -> dseg (<[a := Node pv' (head_or nx l)]> m) pv' (a :: l) nx.
Proof. intros Ha [_ H]. cbn [dseg]. rewrite lookup_insert_eq. split; [done|]. by apply dseg_frame. Qed.

Lemma dseg_set_last m a pv l nx nx' :
  a ∉ l -> dseg m pv (l ++ [a]) nx -> dseg (<[a := Node (last_or pv l) nx']> m) pv (l ++ [a]) nx'.
Proof.
  intros Ha [H1 _]%dseg_app. apply dseg_app. cbn [head_or dseg]. split; [by apply dseg_frame|].
  by rewrite lookup_insert_eq.
Qed.

(** Splitting a list at its end. *)
Lemma list_snoc_cases {A} (l : list A) : l = [] \/ exists l' a, l = l' ++ [a].
Proof. destruct l using rev_ind; [by left|right; eauto]. Qed.

Lemma set_n_eq m a x v : m !! a = Some x -> set_n a v m = Some (<[a := Node x.(p) v]> m).
Proof. unfold set_n. by intros ->. Qed.
Lemma set_p_eq m a x v : m !! a = Some x -> set_p a v m = Some (<[a := Node v x.(n)]> m).
Proof. unfold set_p. by intros ->. Qed.

(** Relinking the last node of a segment through the pointer to it, and the
    first node likewise; nothing else changes. *)
Definition same_outside (l : list addr) (m m' : memory) : Prop := forall b, b ∉ l -> m' !! b = m !! b.

Lemma relink_last m pv l z nx nx' :
  NoDup (l ++ [z]) -> dseg m pv (l ++ [z]) nx ->
  exists m', set_n z nx' m = Some m' /\ dseg m' pv (l ++ [z]) nx' /\ same_outside [z] m m'.
Proof.
  intros ND H. apply NoDup_app in ND as (_ & ND & _).
  rewrite (set_n_eq _ _ _ _ (dseg_lookup _ _ _ _ _ _ H)). eexists. split; [done|]. split.
  - eapply dseg_set_last; [|done]. intros Hz. by apply (ND z Hz), list_elem_of_singleton.
  - intros b Hb. rewrite lookup_insert_ne; [done|]. intros ->. apply Hb. by apply list_elem_of_singleton.
Qed.

Lemma relink_first m pv pv' f l nx :
  NoDup (f :: l) -> dseg m pv (f :: l) nx ->
  exists m', set_p f pv' m = Some m' /\ dseg m' pv' (f :: l) nx /\ same_outside [f] m m'.
Proof.
  intros [Hf _]%NoDup_cons H. rewrite (set_p_eq _ _ _ _ (proj1 H)). eexists. split; [done|]. split.
  - by eapply dseg_set_first.
  - intros b Hb. rewrite lookup_insert_ne; [done|]. intros ->. apply Hb. by apply list_elem_of_singleton.
Qed.

Lemma dseg_same m m' ch pv l nx :
  same_outside ch m m' -> (forall b, b ∈ l -> b ∉ ch) -> dseg m pv l nx -> dseg m' pv l nx.
Proof.
  intros S. revert pv. induction l as [|b l IH]; intros pv Hd; cbn [dseg]; [done|]. intros [H1 H2].
  split; [rewrite S; [done|]; apply Hd; by left|]. apply IH; [|done]. intros c Hc. apply Hd. by right.
Qed.

Lemma same_outside_insert a x m : same_outside [a] m (<[a := x]> m).
Proof. intros b Hb. apply lookup_insert_ne. intros ->. apply Hb. by apply list_elem_of_singleton. Qed.

Lemma same_outside_trans l1 l2 m1 m2 m3 :
  same_outside l1 m1 m2 -> same_outside l2 m2 m3 -> same_outside (l1 ++ l2) m1 m3.
Proof. intros S1 S2 b Hb. rewrite elem_of_app in Hb. rewrite S2, S1; tauto. Qed.

Lemma same_outside_sub l1 l2 m m' : l1 ⊆ l2 -> same_outside l1 m m' -> same_outside l2 m m'.
Proof. intros Hs S b Hb. apply S. intros H. apply Hb, Hs, H. Qed.

(** ** LinkedList1 is a list

    [linked m L l]: the structure [L] holds the nodes [l], in this order. *)
Definition linked (m : memory) (L : list1) (l : list addr) : Prop :=
  L.(first) = head_or None l /\ L.(last_) = last_or None l /\ dseg m None l None /\ NoDup l.

Ltac not_in := repeat match goal with
  | H : NoDup (_ ++ _) |- _ => apply NoDup_app in H; destruct H as (? & ? & ?)
  | H : NoDup (_ :: _) |- _ => apply NoDup_cons in H; destruct H
  end; set_solver.

Section LinkedList1_spec.
Import LinkedList1.

Lemma append_linked m L l a :
  linked m L l -> a ∉ l -> is_Some (m !! a) ->
  exists m' L', LinkedList1_Append m L a = Some (m', L') /\ linked m' L' (l ++ [a]) /\ same_outside (a :: l) m m'.
Proof.
  intros (Hf & Hl & D & ND) Ha [x Hx]. unfold LinkedList1_Append, write_node. rewrite Hx, Hl.
  assert (dseg (<[a := Node (last_or None l) None]> m) None l None) as D1 by (by apply dseg_frame).
  assert (NoDup (l ++ [a])) as ND' by (apply NoDup_app; split; [done|]; split; [set_solver|apply NoDup_singleton]).
  destruct (list_snoc_cases l) as [->|(l' & z & ->)].
  - eexists _, _. split; [done|]. split; [|apply same_outside_insert]. repeat split; [by rewrite lookup_insert_eq|done].
  - rewrite last_or_snoc in *. destruct (relink_last _ _ _ _ _ (Some a) ND D1) as (m' & -> & D2 & S).
    eexists _, _. split; [done|]. split.
    + split; [by rewrite Hf, !head_or_app|]. split; [by rewrite last_or_snoc|]. split; [|done].
      apply dseg_app. split; [done|]. rewrite last_or_snoc. cbn [dseg head_or]. split; [|done].
      rewrite S by (intros ->%list_elem_of_singleton; set_solver). by rewrite lookup_insert_eq.
    + eapply same_outside_sub; [|eapply same_outside_trans; [apply same_outside_insert|exact S]]. set_solver.
Qed.

Lemma prepend_linked m L l a :
  linked m L l -> a ∉ l -> is_Some (m !! a) ->
  exists m' L', LinkedList1_Prepend m L a = Some (m', L') /\ linked m' L' (a :: l) /\ same_outside (a :: l) m m'.
Proof.
  intros (Hf & Hl & D & ND) Ha [x Hx]. unfold LinkedList1_Prepend, write_node. rewrite Hx, Hf.
  assert (dseg (<[a := Node None (head_or None l)]> m) None l None) as D1 by (by apply dseg_frame).
  destruct l as [|f l].
  - eexists _, _. split; [done|]. split; [|apply same_outside_insert].
    repeat split; [by rewrite lookup_insert_eq|apply NoDup_singleton].
  - cbn [head_or] in *. destruct (relink_first _ _ (Some a) _ _ _ ND D1) as (m' & -> & D2 & S).
    eexists _, _. split; [done|]. split.
    + split; [done|]. split; [by rewrite Hl|]. split; [|by apply NoDup_cons]. split; [|done].
      rewrite S by (intros ->%list_elem_of_singleton; set_solver). by rewrite lookup_insert_eq.
    + eapply same_outside_sub; [|eapply same_outside_trans; [apply same_outside_insert|exact S]]. set_solver.
Qed.

(** The right end of a list is relinked to [pv']; without nodes there, the
    last pointer of the list moves. *)
Lemma right_end m (L : list1) pv pv' l2 :
  NoDup l2 -> dseg m pv l2 None -> L.(last_) = last_or pv l2 ->
  exists m' L', match head_or None l2 with
    | Some q => LET m <- set_p q pv' m in Some (m, L)
    | None => Some (m, List1 L.(first) pv') end = Some (m', L') /\
    L'.(first) = L.(first) /\ L'.(last_) = last_or pv' l2 /\ dseg m' pv' l2 None /\ same_outside l2 m m'.
Proof.
  intros N D Hl. destruct l2 as [|f l2]; cbn [head_or].
  - eexists _, _. split; [done|]. by split.
  - destruct (relink_first _ _ pv' _ _ _ N D) as (m' & -> & D' & S). eexists _, _. split; [done|].
    split; [done|]. split; [done|]. split; [done|]. eapply same_outside_sub; [|exact S]. set_solver.
Qed.

(** The left end likewise. *)
Lemma left_end m (L : list1) l1 nx nx' :
  NoDup l1 -> dseg m None l1 nx -> L.(first) = head_or nx l1 ->
  exists m' L', match last_or None l1 with
    | Some q => LET m <- set_n q nx' m in Some (m, L)
    | None => Some (m, List1 nx' L.(last_)) end = Some (m', L') /\
    L'.(last_) = L.(last_) /\ L'.(first) = head_or nx' l1 /\ dseg m' None l1 nx' /\ same_outside l1 m m'.
Proof.
  intros N D Hf. destruct (list_snoc_cases l1) as [->|(l1' & z & ->)].
  - eexists _, _. split; [done|]. by split.
  - rewrite last_or_snoc. destruct (relink_last _ _ _ _ _ nx' N D) as (m' & -> & D' & S). eexists _, _. split; [done|].
    split; [done|]. split; [by rewrite Hf, !head_or_app|]. split; [done|]. eapply same_outside_sub; [|exact S]. set_solver.
Qed.

Lemma nodup_split l1 (a : addr) l2 : NoDup (l1 ++ a :: l2) ->
  NoDup l1 /\ NoDup l2 /\ (a ∉ l1) /\ (a ∉ l2) /\ (forall b, b ∈ l1 -> b ∉ l2).
Proof. intros (? & Hd & [? ?]%NoDup_cons)%NoDup_app. set_solver. Qed.

Lemma remove_linked m L l1 a l2 :
  linked m L (l1 ++ a :: l2) ->
  exists m' L', LinkedList1_Remove m L a = Some (m', L') /\ linked m' L' (l1 ++ l2) /\ same_outside (l1 ++ l2) m m'.
Proof.
  intros (Hf & Hl & D & ND). unfold LinkedList1_Remove. rewrite (dseg_lookup _ _ _ _ _ _ D). cbn [p n].
  pose proof (nodup_split _ _ _ ND) as (N1 & N2 & Na1 & Na2 & N12).
  apply dseg_app in D as [D1 [Da D2]]. rewrite head_or_app in Hf. rewrite last_or_app in Hl. cbn [last_or head_or] in *.
  destruct (left_end m L l1 (Some a) (head_or None l2) N1 D1 Hf) as (m1 & L1 & -> & Hl1 & Hf1 & D1' & S1).
  assert (dseg m1 (Some a) l2 None) as D2' by (eapply dseg_same; [exact S1| |exact D2]; set_solver).
  rewrite Hl in Hl1. destruct (right_end m1 L1 (Some a) (last_or None l1) l2 N2 D2' Hl1) as (m2 & L2 & -> & Hf2 & Hl2 & D2'' & S2).
  eexists _, _. split; [done|]. split.
  - split; [by rewrite Hf2, Hf1, head_or_app|]. split; [by rewrite Hl2, last_or_app|]. split.
    + apply dseg_app. split; [|done]. eapply dseg_same; [exact S2| |exact D1']. set_solver.
    + apply NoDup_app. set_solver.
  - eapply same_outside_sub; [|eapply same_outside_trans; [exact S1|exact S2]]. set_solver.
Qed.

Lemma insert_after_linked m L l1 t l2 a :
  linked m L (l1 ++ t :: l2) -> a ∉ l1 ++ t :: l2 -> is_Some (m !! a) ->
  exists m' L', LinkedList1_InsertAfter m L a t = Some (m', L') /\ linked m' L' (l1 ++ t :: a :: l2) /\
    same_outside (a :: l1 ++ t :: l2) m m'.
Proof.
  intros (Hf & Hl & D & ND) Ha Hx. unfold LinkedList1_InsertAfter, write_node. rewrite (dseg_lookup _ _ _ _ _ _ D). cbn [n].
  destruct Hx as [x ->]. pose proof (nodup_split _ _ _ ND) as (N1 & N2 & Nt1 & Nt2 & N12).
  apply (dseg_frame _ a (Node (Some t) (head_or None l2))) in D; [|done].
  rewrite cons_middle, app_assoc in D. apply dseg_app in D as [D1 D2]. rewrite last_or_snoc in D2.
  rewrite last_or_app in Hl. cbn [last_or] in Hl.
  destruct (right_end _ L (Some t) (Some a) l2 N2 D2 Hl) as (m1 & L1 & -> & Hf1 & Hl1 & D2' & S1).
  assert (NoDup (l1 ++ [t])) as N1t by (apply NoDup_app; split; [done|]; split; [set_solver|apply NoDup_singleton]).
  assert (dseg m1 None (l1 ++ [t]) (head_or None l2)) as D1' by (eapply dseg_same; [exact S1| |exact D1]; set_solver).
  destruct (relink_last _ _ _ _ _ (Some a) N1t D1') as (m2 & -> & D1'' & S2). eexists _, _. split; [done|]. split.
  - split; [by rewrite Hf1, Hf, !head_or_app|]. split; [by rewrite Hl1, last_or_app|]. split; [|].
    + change (l1 ++ (t :: a :: l2)) with (l1 ++ ([t] ++ (a :: l2))). rewrite app_assoc. apply dseg_app. split; [done|].
      rewrite last_or_snoc. cbn [dseg]. split; [|eapply dseg_same; [exact S2| |exact D2']; set_solver].
      rewrite S2, S1 by set_solver. by rewrite lookup_insert_eq.
    + rewrite NoDup_app, !NoDup_cons. set_solver.
  - eapply same_outside_sub; [|eapply same_outside_trans; [apply same_outside_insert|eapply same_outside_trans; [exact S1|exact S2]]]. set_solver.
Qed.

Lemma insert_before_linked m L l1 t l2 a :
  linked m L (l1 ++ t :: l2) -> a ∉ l1 ++ t :: l2 -> is_Some (m !! a) ->
  exists m' L', LinkedList1_InsertBefore m L a t = Some (m', L') /\ linked m' L' (l1 ++ a :: t :: l2) /\
    same_outside (a :: l1 ++ t :: l2) m m'.
Proof.
  intros (Hf & Hl & D & ND) Ha Hx. unfold LinkedList1_InsertBefore, write_node. rewrite (dseg_lookup _ _ _ _ _ _ D). cbn [p].
  destruct Hx as [x ->]. pose proof (nodup_split _ _ _ ND) as (N1 & N2 & Nt1 & Nt2 & N12).
  apply (dseg_frame _ a (Node (last_or None l1) (Some t))) in D; [|done].
  apply dseg_app in D as [D1 D2]. rewrite head_or_app in Hf. cbn [head_or] in *.
  destruct (left_end _ L l1 (Some t) (Some a) N1 D1 Hf) as (m1 & L1 & -> & Hl1 & Hf1 & D1' & S1).
  assert (dseg m1 (last_or None l1) (t :: l2) None) as D2' by (eapply dseg_same; [exact S1| |exact D2]; set_solver).
  assert (NoDup (t :: l2)) as Nt by (by apply NoDup_cons).
  destruct (relink_first _ _ (Some a) _ _ _ Nt D2') as (m2 & -> & D2'' & S2). eexists _, _. split; [done|]. split.
  - split; [by rewrite Hf1, head_or_app|]. split; [by rewrite Hl1, Hl, !last_or_app|]. split; [|].
    + apply dseg_app. split; [eapply dseg_same; [exact S2| |exact D1']; set_solver|]. split; [|done].
      rewrite S2, S1 by set_solver. by rewrite lookup_insert_eq.
    + rewrite NoDup_app, !NoDup_cons. set_solver.
  - eapply same_outside_sub; [|eapply same_outside_trans; [apply same_outside_insert|eapply same_outside_trans; [exact S1|exact S2]]]. set_solver.
Qed.

(** A whole list is spliced in after [l1]; the target is the last node of [l1],
    null when the list goes to the front. *)
Lemma insert_list_linked m L I l1 li l2 :
  linked m L (l1 ++ l2) -> linked m I li -> (forall b, b ∈ li -> b ∉ l1 ++ l2) ->
  exists m' L', LinkedList1_InsertListAfter m L I (last_or None l1) = Some (m', L') /\
    linked m' L' (l1 ++ li ++ l2) /\ same_outside (l1 ++ li ++ l2) m m'.
Proof.
  intros (Hf & Hl & D & ND) (If & Il & Di & NDi) Hd. unfold LinkedList1_InsertListAfter. rewrite If.
  destruct li as [|f li]; cbn [head_or].
  { eexists _, _. split; [done|]. split; [by split|done]. }
  destruct (list_snoc_cases (f :: li)) as [|(li' & z & Eli)]; [done|]. rewrite Il, Eli, last_or_snoc.
  apply NoDup_app in ND as (N1 & N12 & N2). apply dseg_app in D as [D1 D2].
  assert ((match last_or None l1 with Some t => LET x <- m !! t in Some (n x) | None => Some L.(first) end) = Some (head_or None l2)) as ->.
  { destruct (list_snoc_cases l1) as [->|(l1' & t & ->)]; [by rewrite Hf|]. by rewrite last_or_snoc, (dseg_lookup _ _ _ _ _ _ D1). }
  destruct (relink_first _ _ (last_or None l1) _ _ _ NDi Di) as (m1 & -> & Di1 & S1). rewrite Eli in Di1, NDi.
  destruct (relink_last _ _ _ _ _ (head_or None l2) NDi Di1) as (m2 & -> & Di2 & S2). rewrite <- Eli in *.
  assert (same_outside (f :: li) m m2) as S12.
  { assert (z ∈ f :: li) by (rewrite Eli; set_solver).
    eapply same_outside_sub; [|eapply same_outside_trans; [exact S1|exact S2]]. set_solver. }
  assert (dseg m2 None l1 (head_or None l2)) as D1' by (eapply dseg_same; [exact S12| |exact D1]; set_solver).
  rewrite head_or_app in Hf. rewrite last_or_app in Hl.
  destruct (left_end m2 L l1 (head_or None l2) (Some f) N1 D1' Hf) as (m3 & L3 & -> & Hl3 & Hf3 & D1'' & S3).
  assert (dseg m3 (last_or None l1) l2 None) as D2'.
  { eapply dseg_same; [exact S3|set_solver|]. eapply dseg_same; [exact S12| |exact D2]. set_solver. }
  rewrite Hl in Hl3. destruct (right_end m3 L3 _ (Some z) l2 N2 D2' Hl3) as (m4 & L4 & -> & Hf4 & Hl4 & D2'' & S4).
  assert (last_or (last_or None l1) (f :: li) = Some z) as Ez by (by rewrite Eli, last_or_snoc).
  eexists _, _. split; [done|]. split.
  - split; [by rewrite Hf4, Hf3, head_or_app|]. split; [by rewrite Hl4, !last_or_app, Ez|]. split.
    + apply dseg_app. split; [eapply dseg_same; [exact S4| |exact D1'']; set_solver|].
      apply dseg_app. split; [|by rewrite Ez].
      eapply dseg_same; [exact S4|set_solver|]. eapply dseg_same; [exact S3|set_solver|done].
    + rewrite !NoDup_app. set_solver.
  - eapply same_outside_sub; [|eapply same_outside_trans; [exact S12|eapply same_outside_trans; [exact S3|exact S4]]]. set_solver.
Qed.

End LinkedList1_spec.

(** ** SLinkedList is a list

    The back link of its first node is arbitrary. *)
Definition slinked (fl : bool) (m : memory) (L : list1) (l : list addr) : Prop :=
  L.(first) = head_or None l /\ (exists g, dseg m g l None) /\ NoDup l /\
  (fl = true -> l <> [] -> L.(last_) = last_or None l).

Section SLinkedList_spec.
Import SLinkedList.
Context (fl : bool).

Lemma set_n_node m a v : is_Some (m !! a) -> exists q, set_n a v m = Some (<[a := Node q v]> m).
Proof. intros [x Hx]. rewrite (set_n_eq _ _ _ _ Hx). eauto. Qed.

Lemma last_or_cons g a l : last_or g (a :: l) = last_or None (a :: l).
Proof. done. Qed.

Lemma sprepend_slinked m L l a :
  slinked fl m L l -> a ∉ l -> is_Some (m !! a) ->
  exists m' L', SLinkedList_Prepend fl m L a = Some (m', L') /\ slinked fl m' L' (a :: l) /\ same_outside (a :: l) m m'.
Proof.
  intros (Hf & (g & D) & ND & Hl) Ha Hx. unfold SLinkedList_Prepend. rewrite Hf.
  destruct (set_n_node m a (head_or None l) Hx) as [q ->].
  assert (dseg (<[a := Node q (head_or None l)]> m) g l None) as D1 by (by apply dseg_frame).
  destruct l as [|f l]; cbn [head_or] in *.
  - eexists _, _. split; [done|]. split; [|apply same_outside_insert].
    split; [done|]. split; [exists q; split; [by rewrite lookup_insert_eq|done]|]. split; [apply NoDup_singleton|].
    intros E _. unfold with_last. by rewrite E.
  - destruct (relink_first _ _ (Some a) _ _ _ ND D1) as (m' & -> & D2 & S).
    eexists _, _. split; [done|]. split.
    + split; [done|]. split; [exists q; split; [|done]|split; [by apply NoDup_cons|]].
      * rewrite S by set_solver. by rewrite lookup_insert_eq.
      * intros E _. by apply Hl.
    + eapply same_outside_sub; [|eapply same_outside_trans; [apply same_outside_insert|exact S]]. set_solver.
Qed.

Lemma sremove_slinked m L l1 a l2 :
  slinked fl m L (l1 ++ a :: l2) ->
  exists m' L', SLinkedList_Remove fl m L a = Some (m', L') /\ slinked fl m' L' (l1 ++ l2) /\ same_outside (l1 ++ l2) m m'.
Proof.
  intros (Hf & (g & D) & ND & Hl). unfold SLinkedList_Remove. rewrite (dseg_lookup _ _ _ _ _ _ D). cbn [p n].
  pose proof (nodup_split _ _ _ ND) as (N1 & N2 & Na1 & Na2 & N12). rewrite Hf.
  assert (NoDup (l1 ++ l2)) as N3 by (apply NoDup_app; set_solver).
  destruct (list_snoc_cases l1) as [->|(l1' & z & ->)].
  { cbn [app head_or] in *. rewrite bool_decide_eq_true_2 by done. eexists _, _. split; [done|]. split; [|done].
    split; [done|]. split; [exists (Some a); apply D|]. split; [done|]. intros E Hne. cbn [last_]. rewrite Hl by done. by destruct l2. }
  rewrite bool_decide_eq_false_2, last_or_snoc by (destruct l1'; cbn; intros [= ->]; set_solver).
  apply dseg_app in D as [D1 [_ D2]]. cbn [head_or] in D1.
  destruct (relink_last _ _ _ _ _ (head_or None l2) N1 D1) as (m1 & -> & D1' & S1).
  assert (dseg m1 (Some a) l2 None) as D2' by (eapply dseg_same; [exact S1| |exact D2]; set_solver).
  destruct l2 as [|f l2]; cbn [head_or] in *.
  - eexists _, _. split; [done|]. rewrite app_nil_r. split; [|eapply same_outside_sub; [|exact S1]; set_solver].
    split; [unfold with_last; destruct fl; cbn [first]; rewrite Hf; by destruct l1'|].
    split; [by exists g|]. split; [done|]. intros E _. unfold with_last. by rewrite E, last_or_snoc.
  - destruct (relink_first _ _ (Some z) _ _ _ N2 D2') as (m2 & -> & D2'' & S2).
    eexists _, _. split; [done|]. split; [|eapply same_outside_sub; [|eapply same_outside_trans; [exact S1|exact S2]]; set_solver].
    split; [by rewrite Hf, !head_or_app|]. split; [|split; [done|]].
    + exists g. apply dseg_app. rewrite last_or_snoc. split; [|done]. eapply dseg_same; [exact S2| |exact D1']. set_solver.
    + intros E _. rewrite Hl by (done || by destruct l1'). by rewrite !last_or_app.
Qed.

Lemma sremove_first_slinked m L a l :
  slinked fl m L (a :: l) -> exists L', SLinkedList_RemoveFirst m L = Some L' /\ slinked fl m L' l.
Proof.
  intros (Hf & (g & D) & [Ha ND]%NoDup_cons & Hl). unfold SLinkedList_RemoveFirst. rewrite Hf. cbn [head_or].
  rewrite (proj1 D). eexists. split; [done|]. split; [done|]. split; [exists (Some a); apply D|]. split; [done|].
  intros E Hne. cbn [last_]. rewrite Hl by done. by destruct l.
Qed.

(** Appending needs the feature. *)
Lemma sappend_slinked m L l a :
  fl = true -> slinked fl m L l -> a ∉ l -> is_Some (m !! a) ->
  exists m' L', SLinkedList_Append m L a = Some (m', L') /\ slinked fl m' L' (l ++ [a]) /\ same_outside (a :: l) m m'.
Proof.
  intros E (Hf & (g & D) & ND & Hl) Ha Hx. unfold SLinkedList_Append. rewrite Hf.
  destruct (set_n_node m a None Hx) as [q ->].
  assert (NoDup (l ++ [a])) as ND' by (apply NoDup_app; split; [done|]; split; [set_solver|apply NoDup_singleton]).
  destruct (list_snoc_cases l) as [->|(l' & z & ->)].
  { eexists _, _. split; [done|]. split; [|apply same_outside_insert].
    split; [done|]. split; [exists q; split; [by rewrite lookup_insert_eq|done]|]. by split. }
  assert (exists f, head_or None (l' ++ [z]) = Some f) as [f Ef] by (destruct l'; cbn; eauto). rewrite Ef.
  rewrite Hl, last_or_snoc by (done || by destruct l').
  rewrite (set_p_eq _ a (Node q None)) by (by rewrite lookup_insert_eq). cbn [n]. rewrite insert_insert_eq.
  assert (dseg (<[a := Node (Some z) None]> m) g (l' ++ [z]) None) as D1 by (by apply dseg_frame).
  destruct (relink_last _ _ _ _ _ (Some a) ND D1) as (m' & -> & D2 & S).
  eexists _, _. split; [done|]. split.
  - split; [rewrite head_or_app; cbn [first]; rewrite Hf, head_or_app; by destruct l'|]. split; [|split; [done|by intros _ _; rewrite last_or_snoc]].
    exists g. apply dseg_app. split; [done|]. rewrite last_or_snoc. split; [|done].
    rewrite S by set_solver. by rewrite lookup_insert_eq.
  - eapply same_outside_sub; [|eapply same_outside_trans; [apply same_outside_insert|exact S]]. set_solver.
Qed.

End SLinkedList_spec.
