(* ===== verification/Pending.v ===== *)
(** * Pending jobs

    Models [base/BPending.c] and [misc/debugcounter.h]: the jobs that the
    reactor runs before anything else.  A job object carries the link of the
    list it is in; a job that is not pending has a link to itself.  The model
    keeps the objects by address, their links in a memory of nodes as in
    [LinkedList.v], and returns from [BPendingGroup_ExecuteJob] the handler that
    is called.  [None] is a failed [ASSERT] or an access to an object that is
    not alive ([DebugObject_Access]). *)

From S2P Require Import Prelude.
From S2P Require Import LinkedList.
Import SLinkedList.

Module Pending.

(** ** DebugCounter *)

Definition INT32_MAX : Z := 2147483647.
Definition DebugCounter_Free (c : Z) : bool := (c =? 0) || (c =? INT32_MAX).
Definition DebugCounter_Increment (c : Z) : option Z :=
  ASSERT 0 <=? c in Some (if c =? INT32_MAX then c else c + 1).
Definition DebugCounter_Decrement (c : Z) : option Z :=
  ASSERT 0 <? c in Some (if c =? INT32_MAX then c else c - 1).

(** ** BPending *)

Record BSmallPending := MkPending { handler : Z; pending : bool }.

Record BPendingGroup := MkGroup {
  nodes : memory;
  jobs : list1;
  objects : gmap addr BSmallPending;
  pending_ctr : Z;
}.

Definition set_list m l g := MkGroup m l g.(objects) g.(pending_ctr).
Definition set_object a o g := MkGroup g.(nodes) g.(jobs) (<[a := o]> g.(objects)) g.(pending_ctr).

Definition BPendingGroup_Init : BPendingGroup := MkGroup ∅ SLinkedList_Init ∅ 0.

Definition BPendingGroup_Free (g : BPendingGroup) : option unit :=
  ASSERT DebugCounter_Free g.(pending_ctr) in
  ASSERT SLinkedList_IsEmpty g.(jobs) in
  Some tt.

Definition BPendingGroup_HasJobs (g : BPendingGroup) : bool := negb (SLinkedList_IsEmpty g.(jobs)).

Definition BPendingGroup_PeekJob (g : BPendingGroup) : option addr := SLinkedList_First g.(jobs).

Definition BPendingGroup_ExecuteJob (g : BPendingGroup) : option (BPendingGroup * Z) :=
  ASSERT negb (SLinkedList_IsEmpty g.(jobs)) in
  LET a <- SLinkedList_First g.(jobs) in
  LET removed <- SLinkedListIsRemoved g.(nodes) a in
  ASSERT negb removed in
  LET o <- g.(objects) !! a in
  ASSERT o.(pending) in
  LET l <- SLinkedList_RemoveFirst g.(nodes) g.(jobs) in
  LET m <- SLinkedListMarkRemoved g.(nodes) a in
  Some (set_object a (MkPending o.(handler) false) (set_list m l g), o.(handler)).

(** [x] is what the memory of the new object holds. *)
Definition BSmallPending_Init (g : BPendingGroup) (a : addr) (h : Z) (x : node) : option BPendingGroup :=
  LET m <- SLinkedListMarkRemoved (<[a := x]> g.(nodes)) a in
  LET c <- DebugCounter_Increment g.(pending_ctr) in
  Some (MkGroup m g.(jobs) (<[a := MkPending h false]> g.(objects)) c).

(** [ASSERT(o->pending == !BPending__ListIsRemoved(o))]. *)
Definition assert_pending (g : BPendingGroup) (a : addr) : option (BSmallPending * bool) :=
  LET o <- g.(objects) !! a in
  LET removed <- SLinkedListIsRemoved g.(nodes) a in
  ASSERT eqb o.(pending) (negb removed) in
  Some (o, removed).

Definition BSmallPending_Free (g : BPendingGroup) (a : addr) : option BPendingGroup :=
  LET c <- DebugCounter_Decrement g.(pending_ctr) in
  LET (o, removed) <- assert_pending g a in
  LET (m, l) <- (if negb removed then SLinkedList_Remove false g.(nodes) g.(jobs) a else Some (g.(nodes), g.(jobs))) in
  Some (MkGroup (delete a m) l (delete a g.(objects)) c).

Definition BSmallPending_SetHandler (g : BPendingGroup) (a : addr) (h : Z) : option BPendingGroup :=
  LET o <- g.(objects) !! a in Some (set_object a (MkPending h o.(pending)) g).

Definition BSmallPending_Set (g : BPendingGroup) (a : addr) : option BPendingGroup :=
  LET (o, removed) <- assert_pending g a in
  LET (m, l) <- (if negb removed then SLinkedList_Remove false g.(nodes) g.(jobs) a else Some (g.(nodes), g.(jobs))) in
  LET (m, l) <- SLinkedList_Prepend false m l a in
  Some (set_object a (MkPending o.(handler) true) (set_list m l g)).

Definition BSmallPending_Unset (g : BPendingGroup) (a : addr) : option BPendingGroup :=
  LET (o, removed) <- assert_pending g a in
  if negb removed then
    LET (m, l) <- SLinkedList_Remove false g.(nodes) g.(jobs) a in
    LET m <- SLinkedListMarkRemoved m a in
    Some (set_object a (MkPending o.(handler) false) (set_list m l g))
  else Some g.

Definition BSmallPending_IsSet (g : BPendingGroup) (a : addr) : option bool :=
  LET (o, removed) <- assert_pending g a in Some (negb removed).

(** ** What a group promises

    The abstract state is the stack of pending jobs and the handler of every
    job.  Setting a job puts it on top, also when it is already pending. *)
Record stack := Stack { order : list addr; handlers : gmap addr Z }.

Definition without (a : addr) (l : list addr) : list addr := filter (fun b => b <> a) l.

Inductive call := CInit (a : addr) (h : Z) (x : node) | CFree (a : addr) | CSetHandler (a : addr) (h : Z)
  | CSet (a : addr) | CUnset (a : addr) | CIsSet (a : addr) | CExecute.
Inductive outcome := ODone | OBool (b : bool) | ORun (h : Z).

(** [None]: the caller may not make the call. *)
Definition spec_step (s : stack) (c : call) : option (stack * outcome) :=
  match c with
  | CInit a h _ => ASSERT bool_decide (s.(handlers) !! a = None) in Some (Stack s.(order) (<[a := h]> s.(handlers)), ODone)
  | CFree a => LET _ <- s.(handlers) !! a in Some (Stack (without a s.(order)) (delete a s.(handlers)), ODone)
  | CSetHandler a h => LET _ <- s.(handlers) !! a in Some (Stack s.(order) (<[a := h]> s.(handlers)), ODone)
  | CSet a => LET _ <- s.(handlers) !! a in Some (Stack (a :: without a s.(order)) s.(handlers), ODone)
  | CUnset a => LET _ <- s.(handlers) !! a in Some (Stack (without a s.(order)) s.(handlers), ODone)
  | CIsSet a => LET _ <- s.(handlers) !! a in Some (s, OBool (bool_decide (a ∈ s.(order))))
  | CExecute =>
      match s.(order) with
      | [] => None
      | a :: l => LET h <- s.(handlers) !! a in Some (Stack l s.(handlers), ORun h)
      end
  end.

Definition step (g : BPendingGroup) (c : call) : option (BPendingGroup * outcome) :=
  match c with
  | CInit a h x => LET g <- BSmallPending_Init g a h x in Some (g, ODone)
  | CFree a => LET g <- BSmallPending_Free g a in Some (g, ODone)
  | CSetHandler a h => LET g <- BSmallPending_SetHandler g a h in Some (g, ODone)
  | CSet a => LET g <- BSmallPending_Set g a in Some (g, ODone)
  | CUnset a => LET g <- BSmallPending_Unset g a in Some (g, ODone)
  | CIsSet a => LET b <- BSmallPending_IsSet g a in Some (g, OBool b)
  | CExecute => LET (g, h) <- BPendingGroup_ExecuteJob g in Some (g, ORun h)
  end.

Fixpoint runs {S} (f : S -> call -> option (S * outcome)) (s : S) (cs : list call) : option (S * list outcome) :=
  match cs with
  | [] => Some (s, [])
  | c :: cs => LET (s, o) <- f s c in LET (s, os) <- runs f s cs in Some (s, o :: os)
  end.

(** The group [g] represents the stack [s]. *)
Record rep (g : BPendingGroup) (s : stack) : Prop := {
  r_list : slinked false g.(nodes) g.(jobs) s.(order);
  r_dom : forall a, is_Some (g.(nodes) !! a) <-> is_Some (s.(handlers) !! a);
  r_obj : forall a, g.(objects) !! a = (fun h => MkPending h (bool_decide (a ∈ s.(order)))) <$> s.(handlers) !! a;
  r_removed : forall a x, g.(nodes) !! a = Some x -> a ∉ s.(order) -> x.(n) = Some a;
  r_order : forall a, a ∈ s.(order) -> is_Some (s.(handlers) !! a);
  r_ctr : g.(pending_ctr) = INT32_MAX \/ g.(pending_ctr) = Z.of_nat (size g.(objects));
}.

Lemma without_notin a l : a ∉ l -> without a l = l.
Proof.
  induction l as [|b l IH]; [done|]. intros [Hb Hl]%not_elem_of_cons. unfold without in *.
  rewrite filter_cons_True by done. by rewrite IH.
Qed.

Lemma without_split a l1 l2 : NoDup (l1 ++ a :: l2) -> without a (l1 ++ a :: l2) = l1 ++ l2.
Proof.
  intros ND. pose proof (nodup_split _ _ _ ND) as (_ & _ & N1 & N2 & _).
  apply without_notin in N1 as E1, N2 as E2. unfold without in *.
  rewrite filter_app, filter_cons_False by tauto. by rewrite E1, E2.
Qed.

Lemma elem_of_without a b l : b ∈ without a l <-> b ∈ l /\ b <> a.
Proof. unfold without. rewrite list_elem_of_filter. tauto. Qed.

Lemma slinked_alive fl m L l a : slinked fl m L l -> a ∈ l -> is_Some (m !! a).
Proof.
  intros (_ & (g & D) & _) (l1 & l2 & ->)%list_elem_of_split. by rewrite (dseg_lookup _ _ _ _ _ _ D).
Qed.

Section group.
Context (g : BPendingGroup) (s : stack) (R : rep g s).

Lemma is_removed a h : s.(handlers) !! a = Some h ->
  SLinkedListIsRemoved g.(nodes) a = Some (negb (bool_decide (a ∈ s.(order)))).
Proof using R.
  intros Hh. destruct R as [Rl Rd _ Rr _ _]. destruct (proj2 (Rd a)) as [x Hx]; [by rewrite Hh|].
  unfold SLinkedListIsRemoved. rewrite Hx. f_equal. case_bool_decide as Hin; case_bool_decide as Hn; try done; exfalso.
  - destruct Rl as (_ & (q & D) & ND & _). apply list_elem_of_split in Hn as (l1 & l2 & E). rewrite E in D, ND.
    rewrite (dseg_lookup _ _ _ _ _ _ D) in Hx. injection Hx as <-. cbn in Hin.
    pose proof (nodup_split _ _ _ ND) as (_ & _ & _ & N2 & _). destruct l2; [done|]. injection Hin as ->. set_solver.
  - by apply Hin, (Rr a x).
Qed.

Lemma assert_pending_ok a h : s.(handlers) !! a = Some h ->
  assert_pending g a = Some (MkPending h (bool_decide (a ∈ s.(order))), negb (bool_decide (a ∈ s.(order)))).
Proof using R.
  intros Hh. unfold assert_pending. rewrite (r_obj _ _ R), Hh, (is_removed a h Hh). cbn. by rewrite negb_involutive, eqb_reflx.
Qed.

(** Taking a job out of the list, when it is in it. *)
Lemma take_out a : is_Some (s.(handlers) !! a) ->
  exists m l, (if negb (negb (bool_decide (a ∈ s.(order)))) then SLinkedList_Remove false g.(nodes) g.(jobs) a
               else Some (g.(nodes), g.(jobs))) = Some (m, l) /\
    slinked false m l (without a s.(order)) /\ (forall b, is_Some (m !! b) <-> is_Some (s.(handlers) !! b)) /\
    same_outside (without a s.(order)) g.(nodes) m.
Proof using R.
  intros _. rewrite negb_involutive. destruct R as [Rl Rd _ _ _ _]. case_bool_decide as Hin.
  - apply list_elem_of_split in Hin as (l1 & l2 & E). rewrite E in *.
    destruct (sremove_slinked false _ _ _ _ _ Rl) as (m & l & -> & S' & Sm).
    destruct Rl as (Rf & Rg & ND & Rw). rewrite without_split by done. exists m, l. split; [done|]. split; [done|]. split; [|done].
    intros b. rewrite <- Rd. destruct (decide (b ∈ l1 ++ l2)) as [Hb|Hb]; [|by rewrite Sm].
    assert (is_Some (m !! b)) by (by eapply slinked_alive).
    assert (is_Some (nodes g !! b)); [|tauto]. eapply (slinked_alive false _ _ (l1 ++ a :: l2)); [by repeat split|]. set_solver.
  - rewrite without_notin by done. eexists _, _. split; [done|]. split; [done|]. done.
Qed.
End group.

(** *** Each call refines its specification *)

Lemma mark_removed m a : is_Some (m !! a) -> exists x, SLinkedListMarkRemoved m a = Some (<[a := x]> m) /\ x.(n) = Some a.
Proof. intros H. destruct (set_n_node m a (Some a) H) as [q E]. unfold SLinkedListMarkRemoved. rewrite E. eauto. Qed.

Lemma slinked_frame fl m L l a x : a ∉ l -> slinked fl m L l -> slinked fl (<[a := x]> m) L l.
Proof. intros Ha (? & (q & D) & ? & ?). split; [done|]. split; [|done]. exists q. by apply dseg_frame. Qed.

Lemma rep_init : rep BPendingGroup_Init (Stack [] ∅).
Proof.
  split; cbn; try done.
  - split; [done|]. split; [by exists None|]. split; [constructor|done].
  - intros a. by rewrite !lookup_empty.
  - intros a. set_solver.
  - right. by rewrite map_size_empty.
Qed.

Lemma slinked_delete fl m L l a : a ∉ l -> slinked fl m L l -> slinked fl (delete a m) L l.
Proof.
  intros Ha (? & (q & D) & ? & ?). split; [done|]. split; [|done]. exists q.
  eapply (dseg_same m _ [a]); [|set_solver|done]. intros b Hb. apply lookup_delete_ne. set_solver.
Qed.

Lemma init_refines g s a h x : rep g s -> s.(handlers) !! a = None ->
  exists g', BSmallPending_Init g a h x = Some g' /\ rep g' (Stack s.(order) (<[a := h]> s.(handlers))).
Proof.
  intros R Ha. unfold BSmallPending_Init.
  destruct (mark_removed (<[a := x]> (nodes g)) a) as (y & -> & Hy); [by rewrite lookup_insert_eq|].
  destruct R as [Rl Rd Ro Rr Rs Rc]. rewrite insert_insert_eq.
  assert (a ∉ s.(order)) as Na by (intros Hin; destruct (Rs a Hin); congruence).
  unfold DebugCounter_Increment. rewrite (proj2 (Z.leb_le _ _)) by (unfold INT32_MAX in *; lia).
  eexists. split; [done|]. split; cbn.
  - by apply slinked_frame.
  - intros b. destruct (decide (a = b)) as [->|]; [by rewrite !lookup_insert_eq|]. by rewrite !lookup_insert_ne.
  - intros b. destruct (decide (a = b)) as [->|]; [rewrite !lookup_insert_eq; cbn; by rewrite bool_decide_eq_false_2|].
    by rewrite !lookup_insert_ne.
  - intros b z. destruct (decide (a = b)) as [->|]; [rewrite lookup_insert_eq; by intros [= <-]|].
    rewrite lookup_insert_ne by done. apply Rr.
  - intros b Hb. destruct (decide (a = b)) as [->|]; [by rewrite lookup_insert_eq|]. rewrite lookup_insert_ne by done. by apply Rs.
  - rewrite map_size_insert_None by (by rewrite Ro, Ha). bool_cases; lia.
Qed.

Lemma free_refines g s a h : rep g s -> s.(handlers) !! a = Some h ->
  exists g', BSmallPending_Free g a = Some g' /\ rep g' (Stack (without a s.(order)) (delete a s.(handlers))).
Proof.
  intros R Ha. unfold BSmallPending_Free. rewrite (assert_pending_ok g s R a h Ha).
  destruct (take_out g s R a) as (m & l & E & S' & Dm & Sm); [by rewrite Ha|]. pose proof R as [Rl Rd Ro Rr Rs Rc].
  assert (objects g !! a = Some (MkPending h (bool_decide (a ∈ order s)))) as Hob by (by rewrite Ro, Ha).
  assert (0 < Z.of_nat (size (objects g))) as Hsz.
  { destruct (size (objects g)) eqn:Es; [|lia]. apply map_size_empty_inv in Es. rewrite Es in Hob. done. }
  unfold DebugCounter_Decrement. rewrite (proj2 (Z.ltb_lt _ _)) by (unfold INT32_MAX in *; lia). rewrite E.
  eexists. split; [done|]. split; cbn.
  - apply slinked_delete; [rewrite elem_of_without; tauto|done].
  - intros b. destruct (decide (a = b)) as [->|]; [by rewrite !lookup_delete_eq|]. by rewrite !lookup_delete_ne, Dm.
  - intros b. destruct (decide (a = b)) as [->|]; [by rewrite !lookup_delete_eq|]. rewrite !lookup_delete_ne, Ro by done.
    destruct (handlers s !! b); [|done]. cbn. do 2 f_equal. apply bool_decide_ext. rewrite elem_of_without. naive_solver.
  - intros b z. destruct (decide (a = b)) as [->|]; [by rewrite lookup_delete_eq|]. rewrite lookup_delete_ne by done.
    intros Hb Hn. rewrite Sm in Hb by done. eapply Rr; [done|]. rewrite elem_of_without in Hn. naive_solver.
  - intros b [Hb Hne]%elem_of_without. rewrite lookup_delete_ne by done. by apply Rs.
  - rewrite map_size_delete, Hob. bool_cases; lia.
Qed.

(** Replacing one object after the list has changed. *)
Lemma rep_change g s a h m l ord pn :
  rep g s -> s.(handlers) !! a = Some h -> slinked false m l ord ->
  (forall b, is_Some (m !! b) <-> is_Some (s.(handlers) !! b)) ->
  (forall b, b <> a -> b ∈ ord <-> b ∈ s.(order)) -> pn = bool_decide (a ∈ ord) ->
  (forall b x, m !! b = Some x -> b ∉ ord -> x.(n) = Some b) ->
  rep (set_object a (MkPending h pn) (set_list m l g)) (Stack ord s.(handlers)).
Proof.
  intros [Rl Rd Ro Rr Rs Rc] Ha S' Dm Ho -> Hr. split; cbn; try done.
  - intros b. destruct (decide (a = b)) as [->|]; [by rewrite lookup_insert_eq, Ha|]. rewrite lookup_insert_ne, Ro by done.
    destruct (handlers s !! b); [|done]. cbn. do 2 f_equal. apply bool_decide_ext. symmetry. by apply Ho.
  - intros b Hb. destruct (decide (b = a)) as [->|Hne]; [by rewrite Ha|]. apply Rs. by apply Ho.
  - rewrite map_size_insert_Some; [done|]. by rewrite Ro, Ha.
Qed.

Lemma take_out_removed g s a m : rep g s -> same_outside (without a s.(order)) g.(nodes) m ->
  forall b x, b <> a -> m !! b = Some x -> b ∉ without a s.(order) -> x.(n) = Some b.
Proof.
  intros [Rl Rd Ro Rr Rs Rc] Sm b x Hne Hb Hn. rewrite Sm in Hb by done. eapply Rr; [done|]. rewrite elem_of_without in Hn. naive_solver.
Qed.

Lemma set_refines g s a h : rep g s -> s.(handlers) !! a = Some h ->
  exists g', BSmallPending_Set g a = Some g' /\ rep g' (Stack (a :: without a s.(order)) s.(handlers)).
Proof.
  intros R Ha. unfold BSmallPending_Set. rewrite (assert_pending_ok g s R a h Ha).
  destruct (take_out g s R a) as (m & l & -> & S' & Dm & Sm); [by rewrite Ha|].
  assert (a ∉ without a s.(order)) as Na by (rewrite elem_of_without; tauto).
  destruct (sprepend_slinked false m l _ a S' Na) as (m' & l' & -> & S2 & Sm2); [apply Dm; by rewrite Ha|].
  eexists. split; [done|]. apply rep_change; try done.
  - intros b. destruct (decide (b ∈ a :: without a s.(order))) as [Hb|Hb]; [|by rewrite Sm2, Dm].
    pose proof (slinked_alive _ _ _ _ _ S2 Hb). split; [intros _|done]. destruct R as [_ Rd _ _ Rs _].
    apply elem_of_cons in Hb as [->|Hb]; [by rewrite Ha|]. apply Rs. by apply elem_of_without in Hb as [? _].
  - intros b Hne. rewrite elem_of_cons, elem_of_without. tauto.
  - symmetry. apply bool_decide_eq_true. by left.
  - intros b x Hb [Hne Hn]%not_elem_of_cons. rewrite Sm2 in Hb by (rewrite elem_of_cons; tauto).
    by eapply take_out_removed.
Qed.

Lemma unset_refines g s a h : rep g s -> s.(handlers) !! a = Some h ->
  exists g', BSmallPending_Unset g a = Some g' /\ rep g' (Stack (without a s.(order)) s.(handlers)).
Proof.
  intros R Ha. unfold BSmallPending_Unset. rewrite (assert_pending_ok g s R a h Ha).
  destruct (take_out g s R a) as (m & l & E & S' & Dm & Sm); [by rewrite Ha|]. revert E.
  case_bool_decide as Hin; cbn [negb].
  - intros ->. destruct (mark_removed m a) as (x & -> & Hx); [apply Dm; by rewrite Ha|].
    assert (a ∉ without a s.(order)) as Na by (rewrite elem_of_without; tauto).
    eexists. split; [done|]. apply rep_change; try done.
    + by apply slinked_frame.
    + intros b. destruct (decide (a = b)) as [->|]; [by rewrite lookup_insert_eq, Ha|]. by rewrite lookup_insert_ne.
    + intros b Hne. rewrite elem_of_without. tauto.
    + symmetry. by apply bool_decide_eq_false.
    + intros b y. destruct (decide (a = b)) as [->|]; [rewrite lookup_insert_eq; by intros [= <-]|].
      rewrite lookup_insert_ne by done. intros Hb Hn. by eapply take_out_removed.
  - intros _. rewrite without_notin by done. eexists. split; [done|]. by destruct s.
Qed.

Lemma execute_refines g s a l h : rep g s -> s.(order) = a :: l -> s.(handlers) !! a = Some h ->
  exists g', BPendingGroup_ExecuteJob g = Some (g', h) /\ rep g' (Stack l s.(handlers)).
Proof.
  intros R Ho Ha. pose proof R as [Rl Rd Rob Rr Rs Rc]. unfold BPendingGroup_ExecuteJob, SLinkedList_IsEmpty, SLinkedList_First.
  rewrite Ho in Rl. pose proof Rl as (Hf & _ & [Na ND]%NoDup_cons & _). rewrite Hf. cbn [head_or].
  rewrite bool_decide_eq_false_2, (is_removed g s R a h Ha), Rob, Ha by done. cbn.
  rewrite bool_decide_eq_true_2 by (rewrite Ho; by left). cbn.
  destruct (sremove_first_slinked false _ _ _ _ Rl) as (L' & -> & S').
  destruct (mark_removed (nodes g) a) as (x & -> & Hx); [apply Rd; by rewrite Ha|].
  eexists. split; [done|]. apply rep_change; try done.
  - by apply slinked_frame.
  - intros b. destruct (decide (a = b)) as [->|]; [by rewrite lookup_insert_eq, Ha|]. by rewrite lookup_insert_ne.
  - intros b Hne. rewrite Ho, elem_of_cons. tauto.
  - symmetry. by apply bool_decide_eq_false.
  - intros b y. destruct (decide (a = b)) as [->|]; [rewrite lookup_insert_eq; by intros [= <-]|].
    rewrite lookup_insert_ne by done. intros Hb Hn. eapply Rr; [done|]. rewrite Ho, elem_of_cons. naive_solver.
Qed.

Lemma sethandler_refines g s a h h' : rep g s -> s.(handlers) !! a = Some h ->
  exists g', BSmallPending_SetHandler g a h' = Some g' /\ rep g' (Stack s.(order) (<[a := h']> s.(handlers))).
Proof.
  intros [Rl Rd Ro Rr Rs Rc] Ha. unfold BSmallPending_SetHandler. rewrite Ro, Ha. cbn. eexists. split; [done|]. split; cbn; try done.
  - intros b. rewrite Rd. destruct (decide (a = b)) as [->|]; [by rewrite lookup_insert_eq, Ha|]. by rewrite lookup_insert_ne.
  - intros b. destruct (decide (a = b)) as [->|]; [by rewrite !lookup_insert_eq|]. by rewrite !lookup_insert_ne.
  - intros b Hb. destruct (decide (a = b)) as [->|]; [by rewrite lookup_insert_eq|]. rewrite lookup_insert_ne by done. by apply Rs.
  - rewrite map_size_insert_Some; [done|]. by rewrite Ro, Ha.
Qed.

Lemma pending_step_refines g s c s' o : rep g s -> spec_step s c = Some (s', o) ->
  exists g', step g c = Some (g', o) /\ rep g' s'.
Proof.
  intros R E. destruct c; cbn [spec_step step] in *.
  - destruct (bool_decide_reflect (handlers s !! a = None)); [|done]. injection E as <- <-.
    destruct (init_refines g s a h x R) as (g' & -> & R'); [done|]. eauto.
  - destruct (handlers s !! a) eqn:Ha; [|done]. injection E as <- <-.
    destruct (free_refines g s a _ R Ha) as (g' & -> & R'). eauto.
  - destruct (handlers s !! a) eqn:Ha; [|done]. injection E as <- <-.
    destruct (sethandler_refines g s a _ h R Ha) as (g' & -> & R'). eauto.
  - destruct (handlers s !! a) eqn:Ha; [|done]. injection E as <- <-.
    destruct (set_refines g s a _ R Ha) as (g' & -> & R'). eauto.
  - destruct (handlers s !! a) eqn:Ha; [|done]. injection E as <- <-.
    destruct (unset_refines g s a _ R Ha) as (g' & -> & R'). eauto.
  - destruct (handlers s !! a) eqn:Ha; [|done]. injection E as <- <-.
    unfold BSmallPending_IsSet. rewrite (assert_pending_ok g s R a _ Ha), negb_involutive. eauto.
  - destruct (order s) as [|a l] eqn:Ho; [done|]. destruct (handlers s !! a) eqn:Ha; [|done]. injection E as <- <-.
    destruct (execute_refines g s a l _ R Ho Ha) as (g' & -> & R'). eauto.
Qed.

Lemma pending_runs_refine cs : forall g s s' os, rep g s -> runs spec_step s cs = Some (s', os) ->
  exists g', runs step g cs = Some (g', os) /\ rep g' s'.
Proof.
  induction cs as [|c cs IH]; intros g s s' os R E; cbn [runs] in *; [injection E as <- <-; eauto|].
  destruct (spec_step s c) as [[s1 o]|] eqn:E1; [|done].
  destruct (pending_step_refines _ _ _ _ _ R E1) as (g1 & -> & R1).
  destruct (runs spec_step s1 cs) as [[s2 os2]|] eqn:E2; [|done]. injection E as <- <-.
  destruct (IH _ _ _ _ R1 E2) as (g2 & -> & R2). eauto.
Qed.

Lemma rep_empty_free g s : rep g s -> s.(handlers) = ∅ -> BPendingGroup_Free g = Some tt.
Proof.
  intros [Rl Rd Ro Rr Rs Rc] E. assert (objects g = ∅) as Eo.
  { apply map_empty. intros a. by rewrite Ro, E, lookup_empty. }
  assert (order s = []) as El.
  { destruct (order s) as [|a l] eqn:Eo'; [done|]. destruct (Rs a) as [h Hh]; [by left|]. by rewrite E, lookup_empty in Hh. }
  rewrite Eo, map_size_empty in Rc. unfold BPendingGroup_Free, DebugCounter_Free, SLinkedList_IsEmpty.
  destruct Rl as (-> & _). rewrite El. cbn. destruct Rc as [->| ->]; done.
Qed.

(** C11: pending jobs are a stack.  Every sequence of calls on live job objects
    gives exactly what a stack of jobs gives: a job that is set goes on top,
    also when it was pending; executing takes the top and calls its handler; a
    job that is unset or freed is never called.  No assertion fails, and the
    group can be freed once no object is left. *)
Theorem pending_refines_stack cs s os :
  runs spec_step (Stack [] ∅) cs = Some (s, os) ->
  exists g, runs step BPendingGroup_Init cs = Some (g, os) /\
    BPendingGroup_PeekJob g = head s.(order) /\
    BPendingGroup_HasJobs g = negb (bool_decide (s.(order) = [])) /\
    (s.(handlers) = ∅ -> BPendingGroup_Free g = Some tt).
Proof.
  intros E. destruct (pending_runs_refine _ _ _ _ _ rep_init E) as (g & Eg & R). exists g. split; [done|].
  pose proof R as [(Rf & _) _ _ _ _ _]. unfold BPendingGroup_PeekJob, BPendingGroup_HasJobs, SLinkedList_First, SLinkedList_IsEmpty.
  rewrite Rf. split; [by destruct (order s)|]. split; [|by apply rep_empty_free].
  f_equal. apply bool_decide_ext. by destruct (order s).
Qed.

Lemma pending_refines_stack_witness :
  let cs := [CInit 1 11 (Node (Some 9) None); CInit 2 12 (Node None (Some 9)); CInit 3 13 (Node None None);
             CSet 1; CSet 2; CSet 3; CSet 1; CUnset 3; CExecute; CIsSet 1; CFree 3; CExecute; CFree 1; CFree 2] in
  exists g, runs step BPendingGroup_Init cs =
      Some (g, [ODone; ODone; ODone; ODone; ODone; ODone; ODone; ODone; ORun 11; OBool false; ODone; ORun 12; ODone; ODone]) /\
    BPendingGroup_Free g = Some tt.
Proof.
  intros cs. destruct (pending_refines_stack cs (Stack [] ∅)
    [ODone; ODone; ODone; ODone; ODone; ODone; ODone; ODone; ORun 11; OBool false; ODone; ORun 12; ODone; ODone])
    as (g & E & _ & _ & F); [vm_compute; reflexivity|]. exists g. split; [exact E|by apply F].
Defined.

End Pending.
