(* ===== verification/Avl.v ===== *)
(** * Balanced search trees

    Models [structure/CAvl_impl.h] as the reactor and the fair queue instantiate
    it (no counts, no associative sums, no keys; [SAvl_impl.h] only wraps it).
    The children of a node are its subtrees and the parent pointers are the
    path from a node up to the root, so that a function of the source that
    works on a node gets the subtree and the path.  The entry of a node stands
    for its address.  [None] is a failed [ASSERT]. *)

From Stdlib Require Import Sorting.Sorted.
From S2P Require Import Prelude.
From S2P Require Import Words.

Inductive tree (E : Type) :=
  | Leaf
  | Nd (l : tree E) (e : E) (balance : Z) (r : tree E).
Arguments Leaf {E}.
Arguments Nd {E} l e balance r.

(** One step up: the entry and balance of the parent, which child we are (true
    is [link[1]], the right one), and the other child. *)
Record frame (E : Type) := Frame { side : bool; entry : E; fbalance : Z; other : tree E }.
Arguments Frame {E}.
Arguments side {E}.
Arguments entry {E}.
Arguments fbalance {E}.
Arguments other {E}.

Section avl.
Context {E : Type} `{EqDecision E}.
(** [CAVL_PARAM_FUN_COMPARE_ENTRIES]. *)
Context (compare : E -> E -> Z).

Definition CAvl_MAX (a b : Z) : Z := if b <? a then a else b.
Definition CAvl_OPTNEG (a : Z) (neg : bool) : Z := if neg then - a else a.

Definition CAvl_compare_entries (a b : E) : option Z :=
  let res := compare a b in
  ASSERT -1 <=? res in
  ASSERT res <=? 1 in
  Some res.

(** A node with [c] as its child on side [s]. *)
Definition node_at (s : bool) (c : tree E) (e : E) (b : Z) (o : tree E) : tree E :=
  if s then Nd o e b c else Nd c e b o.
Definition link (s : bool) (t : tree E) : tree E :=
  match t with Leaf => Leaf | Nd l _ _ r => if s then r else l end.

(** The tree whose root the path leads to. *)
Fixpoint plug (p : list (frame E)) (t : tree E) : tree E :=
  match p with
  | [] => t
  | f :: p => plug p (node_at f.(side) t f.(entry) f.(fbalance) f.(other))
  end.

Definition CAvl_rotate (r : tree E) (dir : bool) : option (tree E) :=
  match r, link (negb dir) r with
  | Nd _ e b _, Nd _ ne nb _ as nr =>
      Some (node_at dir (node_at (negb dir) (link dir nr) e b (link dir r)) ne nb (link (negb dir) nr))
  | _, _ => None
  end.

Fixpoint CAvl_subtree_min (t : tree E) : option E :=
  match t with
  | Leaf => None
  | Nd Leaf e _ _ => Some e
  | Nd l _ _ _ => CAvl_subtree_min l
  end.
Fixpoint CAvl_subtree_max (t : tree E) : option E :=
  match t with
  | Leaf => None
  | Nd _ e _ Leaf => Some e
  | Nd _ _ _ r => CAvl_subtree_max r
  end.

Definition set_balance (b : Z) (t : tree E) : tree E :=
  match t with Leaf => Leaf | Nd l e _ r => Nd l e b r end.
Definition balance_of (t : tree E) : Z := match t with Leaf => 0 | Nd _ _ b _ => b end.

Definition set_link_balance (s : bool) (b : Z) (t : tree E) : tree E :=
  match t with
  | Leaf => Leaf
  | Nd l e tb r => if s then Nd l e tb (set_balance b r) else Nd (set_balance b l) e tb r
  end.

(** The transformations of [CAvl_rebalance] on a node whose balance [b] is 2 or
    -2; the second result is what is subtracted from [delta].  After the
    rotations the node is below [child] or [gchild], on the side it came from. *)
Definition transform (l : tree E) (e : E) (b : Z) (r : tree E) : option (tree E * Z) :=
  let bside := b =? 2 in
  let bsidef := if b =? 2 then 1 else -1 in
  let node := Nd l e b r in
  let child := link bside node in
  match child with
  | Leaf => None
  | Nd _ _ cb _ =>
      if cb * bsidef =? 1 then
        LET t <- CAvl_rotate node (negb bside) in
        Some (set_link_balance (negb bside) 0 (set_balance 0 t), 1)
      else if cb * bsidef =? 0 then
        LET t <- CAvl_rotate node (negb bside) in
        Some (set_link_balance (negb bside) (1 * bsidef) (set_balance (-1 * bsidef) t), 0)
      else if cb * bsidef =? -1 then
        match link (negb bside) child with
        | Leaf => None
        | Nd _ _ gb _ =>
            LET c <- CAvl_rotate child bside in
            LET t <- CAvl_rotate (node_at bside c e b (link (negb bside) node)) (negb bside) in
            let nb := - CAvl_MAX 0 (gb * bsidef) * bsidef in
            let cb := CAvl_MAX 0 (- gb * bsidef) * bsidef in
            Some (set_link_balance (negb bside) nb (set_link_balance bside cb (set_balance 0 t)), 1)
        end
      else None
  end.

Definition in_range (x : Z) : bool := (-1 <=? x) && (x <=? 1).

(** The work of [CAvl_rebalance] at one node: the new subtree and by how much
    its height has changed. *)
Definition rebalance_node (l : tree E) (e : E) (b : Z) (r : tree E) (s : bool) (deltac : Z) : option (tree E * Z) :=
  let delta := CAvl_MAX deltac (CAvl_OPTNEG b s) - CAvl_MAX 0 (CAvl_OPTNEG b s) in
  ASSERT in_range delta in
  let b := b - CAvl_OPTNEG deltac s in
  LET (t, delta) <-
    (if (b =? 2) || (b =? -2) then
       LET (t, d) <- transform l e b r in Some (t, delta - d)
     else Some (Nd l e b r, delta)) in
  ASSERT in_range delta in
  Some (t, delta).

(** [CAvl_rebalance(o, arg, node, side, deltac)] for the node [t] at the end of
    the path [p]; the result is the whole tree. *)
Fixpoint CAvl_rebalance (p : list (frame E)) (t : tree E) (s : bool) (deltac : Z) : option (tree E) :=
  match t with
  | Leaf => None
  | Nd l e b r =>
      ASSERT in_range deltac in
      ASSERT in_range b in
      if deltac =? 0 then Some (plug p t)
      else
        LET (t, delta) <- rebalance_node l e b r s deltac in
        match p with
        | [] => Some t
        | f :: p => CAvl_rebalance p (node_at f.(side) t f.(entry) f.(fbalance) f.(other)) f.(side) delta
        end
  end.

(** The loop of [CAvl_Insert]: down from [t] to the place of [x].  The result
    is [None] inside when an equal entry is met (return value 0). *)
Fixpoint insert_loop (x : E) (p : list (frame E)) (t : tree E) : option (option (tree E)) :=
  match t with
  | Leaf => None
  | Nd l e b r =>
      LET comp <- CAvl_compare_entries x e in
      if comp =? 0 then Some None
      else
        let s := comp =? 1 in
        match link s t with
        | Leaf =>
            LET t <- CAvl_rebalance p (node_at s (Nd Leaf x 0 Leaf) e b (link (negb s) t)) s 1 in Some (Some t)
        | Nd _ _ _ _ =>
            if s then insert_loop x (Frame true e b l :: p) r
            else insert_loop x (Frame false e b r :: p) l
        end
  end.

Definition CAvl_Insert (root : tree E) (x : E) : option (option (tree E)) :=
  match root with
  | Leaf => Some (Some (Nd Leaf x 0 Leaf))
  | Nd _ _ _ _ => insert_loop x [] root
  end.

(** Where an entry is: its subtree and the path to it. *)
Fixpoint position (x : E) (p : list (frame E)) (t : tree E) : option (list (frame E) * tree E) :=
  match t with
  | Leaf => None
  | Nd l e b r =>
      if bool_decide (x = e) then Some (p, t)
      else match position x (Frame false e b r :: p) l with
           | Some z => Some z
           | None => position x (Frame true e b l :: p) r
           end
  end.

(** The path to the rightmost node of [t], and the left child of that node:
    where [CAvl_subtree_max] ends. *)
Fixpoint max_position (p : list (frame E)) (t : tree E) : option (list (frame E) * E * tree E) :=
  match t with
  | Leaf => None
  | Nd l e b Leaf => Some (p, e, l)
  | Nd l e b r => max_position (Frame true e b l :: p) r
  end.

(** The part of [CAvl_Remove] after the swap: the node at the end of [p], which
    has at most one child, is replaced by this child. *)
Definition remove_at (p : list (frame E)) (child : tree E) : option (tree E) :=
  match p with
  | [] => Some child
  | f :: p => CAvl_rebalance p (node_at f.(side) child f.(entry) f.(fbalance) f.(other)) f.(side) (-1)
  end.

(** With two children, [CAvl_swap_for_remove] exchanges the places and the
    balances of the node and the maximum of its left subtree: on the path from
    the new place of the node, the maximum stands where the node was. *)
Definition CAvl_Remove (root : tree E) (x : E) : option (tree E) :=
  LET (p, t) <- position x [] root in
  match t with
  | Leaf => None
  | Nd l _ b r =>
      match l, r with
      | Nd _ _ _ _, Nd _ _ _ _ =>
          LET (q, m, ml) <- max_position [] l in
          remove_at (q ++ Frame false m b r :: p) ml
      | Nd _ _ _ _, Leaf => remove_at p l
      | Leaf, _ => remove_at p r
      end
  end.

Definition CAvl_GetFirst (root : tree E) : option E := CAvl_subtree_min root.
Definition CAvl_GetLast (root : tree E) : option E := CAvl_subtree_max root.
Definition CAvl_IsEmpty (root : tree E) : bool := match root with Leaf => true | _ => false end.

(** [CAvl_GetNext]: down on the right, or up to the first parent we are left of. *)
Fixpoint up_from (s : bool) (p : list (frame E)) : option E :=
  match p with
  | [] => None
  | f :: p => if eqb f.(side) s then up_from s p else Some f.(entry)
  end.
Definition CAvl_GetNext (root : tree E) (x : E) : option (option E) :=
  LET (p, t) <- position x [] root in
  Some (match link true t with Leaf => up_from true p | r => CAvl_subtree_min r end).
Definition CAvl_GetPrev (root : tree E) (x : E) : option (option E) :=
  LET (p, t) <- position x [] root in
  Some (match link false t with Leaf => up_from false p | l => CAvl_subtree_max l end).

(** [CAvl_Verify]: the height, when every check of the recursion passes. *)
Fixpoint CAvl_verify_recurser (t : tree E) : option Z :=
  match t with
  | Leaf => Some 0
  | Nd l e b r =>
      ASSERT in_range b in
      LET hl <- (match l with
                 | Leaf => Some 0
                 | Nd _ el _ _ => LET c <- CAvl_compare_entries el e in ASSERT c =? -1 in CAvl_verify_recurser l
                 end) in
      LET hr <- (match r with
                 | Leaf => Some 0
                 | Nd _ er _ _ => LET c <- CAvl_compare_entries er e in ASSERT c =? 1 in CAvl_verify_recurser r
                 end) in
      ASSERT b =? hr - hl in
      Some (CAvl_MAX hl hr + 1)
  end.

(** ** Shape

    The entries in order, the height, and the AVL condition. *)
Fixpoint elems (t : tree E) : list E :=
  match t with Leaf => [] | Nd l e _ r => elems l ++ e :: elems r end.
Fixpoint height (t : tree E) : Z :=
  match t with Leaf => 0 | Nd l _ _ r => 1 + Z.max (height l) (height r) end.
Fixpoint balanced (t : tree E) : Prop :=
  match t with
  | Leaf => True
  | Nd l _ b r => b = height r - height l /\ -1 <= b <= 1 /\ balanced l /\ balanced r
  end.

(** A path that would make a balanced tree of a balanced one of height [h]. *)
Fixpoint path_ok (p : list (frame E)) (h : Z) : Prop :=
  match p with
  | [] => True
  | f :: p =>
      balanced f.(other) /\ -1 <= f.(fbalance) <= 1 /\
      f.(fbalance) = (if f.(side) then h - height f.(other) else height f.(other) - h) /\
      path_ok p (1 + Z.max h (height f.(other)))
  end.

(** The entries before and after the place a path leads to. *)
Fixpoint lefts (p : list (frame E)) : list E :=
  match p with [] => [] | f :: p => lefts p ++ (if f.(side) then elems f.(other) ++ [f.(entry)] else []) end.
Fixpoint rights (p : list (frame E)) : list E :=
  match p with [] => [] | f :: p => (if f.(side) then [] else f.(entry) :: elems f.(other)) ++ rights p end.

Lemma height_nonneg t : 0 <= height t.
Proof. induction t; cbn [height]; lia. Qed.

Lemma CAvl_MAX_max a b : CAvl_MAX a b = Z.max a b.
Proof. unfold CAvl_MAX. bool_cases; lia. Qed.

Lemma elems_node_at s c e b o : elems (node_at s c e b o) = if s then elems o ++ e :: elems c else elems c ++ e :: elems o.
Proof. by destruct s. Qed.

Lemma elems_plug p t : elems (plug p t) = lefts p ++ elems t ++ rights p.
Proof.
  revert t. induction p as [|f p IH]; intros t; cbn [plug lefts rights app]; [by rewrite app_nil_r|].
  rewrite IH, elems_node_at. destruct (side f); simplify_list_eq; done.
Qed.

Lemma plug_balanced p t : balanced t -> path_ok p (height t) -> balanced (plug p t).
Proof.
  revert t. induction p as [|f p IH]; intros t Ht; cbn [plug path_ok]; [done|]. intros (Ho & Hr & Hb & Hp).
  apply IH; destruct (side f); cbn [node_at balanced height]; [done..| |].
  - by rewrite Z.max_comm.
  - done.
Qed.

Ltac avl_done :=
  eexists _, _; split; [reflexivity|]; cbn [balanced height elems set_link_balance set_balance node_at link negb app];
  repeat split; try assumption; rewrite ?CAvl_MAX_max; simplify_list_eq; try done; try lia.

(** A node out of balance by two is repaired, and its height changes by the
    amount that [delta] is corrected by. *)
Lemma transform_ok l e b r :
  balanced l -> balanced r -> b = height r - height l -> b = 2 \/ b = -2 ->
  exists t d, transform l e b r = Some (t, d) /\ balanced t /\ elems t = elems l ++ e :: elems r /\
    height t = 1 + Z.max (height l) (height r) - d /\ 0 <= d <= 1.
Proof.
  intros Hl Hr Eb [->| ->]; unfold transform, CAvl_rotate; cbn [Z.eqb link negb Pos.eqb].
  - pose proof (height_nonneg l). destruct r as [|rl re rb rr]; cbn [height] in *; [lia|].
    cbn [balanced] in Hr. destruct Hr as (Erb & Rrb & Hrl & Hrr).
    assert (rb = 1 \/ rb = 0 \/ rb = -1) as [->|[->| ->]] by lia; [avl_done..|].
    destruct rl as [|gl ge gb gr]; cbn [height] in *; [pose proof (height_nonneg rr); lia|].
    cbn [balanced] in Hrl. destruct Hrl as (Egb & Rgb & Hgl & Hgr). cbn [Z.mul Z.eqb Z.opp Pos.mul Pos.eqb link negb node_at].
    avl_done.
  - pose proof (height_nonneg r). destruct l as [|ll le lb lr]; cbn [height] in *; [lia|].
    cbn [balanced] in Hl. destruct Hl as (Elb & Rlb & Hll & Hlr).
    assert (lb = 1 \/ lb = 0 \/ lb = -1) as [->|[->| ->]] by lia; [|avl_done..].
    destruct lr as [|gl ge gb gr]; cbn [height] in *; [pose proof (height_nonneg ll); lia|].
    cbn [balanced] in Hlr. destruct Hlr as (Egb & Rgb & Hgl & Hgr). cbn [Z.mul Z.eqb Z.opp Pos.mul Pos.eqb link negb node_at].
    avl_done.
Qed.

Lemma in_range_true x : -1 <= x <= 1 -> in_range x = true.
Proof. intros. unfold in_range. bool_cases; lia. Qed.

Lemma rebalance_node_ok l e b r (s : bool) deltac :
  balanced l -> balanced r -> -1 <= b <= 1 -> deltac = 1 \/ deltac = -1 ->
  let hl := height l - (if s then 0 else deltac) in
  let hr := height r - (if s then deltac else 0) in
  b = hr - hl ->
  exists t delta, rebalance_node l e b r s deltac = Some (t, delta) /\ balanced t /\
    elems t = elems l ++ e :: elems r /\ height t = 1 + Z.max hl hr + delta /\ -1 <= delta <= 1.
Proof.
  intros Hl Hr Rb Rd hl hr Eb. unfold rebalance_node. cbn zeta. rewrite !CAvl_MAX_max.
  set (delta := Z.max deltac _ - _).
  assert (-1 <= delta <= 1 /\ delta = Z.max (height l) (height r) - Z.max hl hr) as [Hd Ed].
  { unfold delta, hl, hr, CAvl_OPTNEG in *. destruct s; lia. }
  assert (b - CAvl_OPTNEG deltac s = height r - height l) as Eb' by (unfold hl, hr, CAvl_OPTNEG in *; destruct s; lia).
  rewrite in_range_true by lia. rewrite Eb'.
  destruct (Z.eqb_spec (height r - height l) 2) as [E2|E2]; [|destruct (Z.eqb_spec (height r - height l) (-2)) as [E2'|E2']]; cbn [orb].
  1,2: destruct (transform_ok l e (height r - height l) r) as (t & d & -> & Bt & Et & Ht & Rt); [done|done|done|lia|].
  1,2: assert (-1 <= delta - d <= 1) by (unfold hl, hr in *; destruct s; lia).
  1,2: rewrite in_range_true by lia; eexists _, _; split; [done|]; split; [done|]; split; [done|]; lia.
  rewrite in_range_true by lia. eexists _, _. split; [done|]. cbn [balanced height elems].
  split; [repeat split; try done; unfold hl, hr in *; destruct s; lia|]. split; [done|]. lia.
Qed.

(** [CAvl_rebalance] restores the balance from a child that has grown or
    shrunk by one up to the root, and keeps the entries. *)
Lemma rebalance_ok p : forall l e b r (s : bool) deltac,
  balanced l -> balanced r -> -1 <= b <= 1 -> -1 <= deltac <= 1 ->
  let hl := height l - (if s then 0 else deltac) in
  let hr := height r - (if s then deltac else 0) in
  b = hr - hl -> path_ok p (1 + Z.max hl hr) ->
  exists t', CAvl_rebalance p (Nd l e b r) s deltac = Some t' /\ balanced t' /\
    elems t' = lefts p ++ (elems l ++ e :: elems r) ++ rights p.
Proof.
  induction p as [|f p IH]; intros l e b r s deltac Hl Hr Rb Rd hl hr Eb Hp;
    cbn [CAvl_rebalance]; rewrite !in_range_true by lia; destruct (Z.eqb_spec deltac 0) as [->|Hne].
  1,3: eexists; split; [done|]; split; [|by rewrite elems_plug];
    apply plug_balanced; [cbn [balanced]; repeat split; try done; unfold hl, hr in *; destruct s; lia|];
    unfold hl, hr in *; cbn [height]; destruct s; by rewrite !Z.sub_0_r in Hp.
  all: destruct (rebalance_node_ok l e b r s deltac) as (t & delta & -> & Bt & Et & Ht & Rt); [done|done|lia|lia|done|].
  - eexists. split; [done|]. split; [done|]. cbn [lefts rights app]. by rewrite app_nil_r.
  - cbn [path_ok] in Hp. destruct Hp as (Ho & Rf & Ef & Hp). fold hl hr in Ht. cbn [lefts rights].
    destruct (side f) eqn:Sf; cbn [node_at].
    + destruct (IH (other f) (entry f) (fbalance f) t true delta) as (t' & -> & Bt' & Et'); [done|done|done|done|lia| |].
      * replace (height t - delta) with (1 + Z.max hl hr) by lia. by rewrite Z.sub_0_r, Z.max_comm.
      * eexists. split; [done|]. split; [done|]. rewrite Et', Et. simplify_list_eq. done.
    + destruct (IH t (entry f) (fbalance f) (other f) false delta) as (t' & -> & Bt' & Et'); [done|done|done|done|lia| |].
      * replace (height t - delta) with (1 + Z.max hl hr) by lia. by rewrite Z.sub_0_r.
      * eexists. split; [done|]. split; [done|]. rewrite Et', Et. simplify_list_eq. done.
Qed.

(** ** Order

    What the comparison function has to be: a strict total order in which only
    an entry itself compares equal. *)
Class EntryOrder := {
  cmp_range a b : -1 <= compare a b <= 1;
  cmp_opp a b : compare b a = - compare a b;
  cmp_eq a b : compare a b = 0 <-> a = b;
  cmp_trans a b c : compare a b = -1 -> compare b c = -1 -> compare a c = -1;
}.

Context `{Ord : EntryOrder}.

Definition below (a b : E) : Prop := compare a b = -1.
Definition sorted (l : list E) : Prop := StronglySorted below l.

Lemma compare_entries_ok a b : CAvl_compare_entries a b = Some (compare a b).
Proof using Ord.
  unfold CAvl_compare_entries. pose proof (cmp_range a b). by rewrite !(proj2 (Z.leb_le _ _)) by lia.
Qed.

Lemma sorted_cons x l : sorted (x :: l) <-> sorted l /\ (forall b, b ∈ l -> below x b).
Proof.
  unfold sorted. rewrite <- Forall_forall. split; [intros [? ?]%StronglySorted_inv; done|intros [? ?]; by constructor].
Qed.

Lemma sorted_app l1 l2 :
  sorted (l1 ++ l2) <-> sorted l1 /\ sorted l2 /\ (forall a b, a ∈ l1 -> b ∈ l2 -> below a b).
Proof.
  induction l1 as [|x l1 IH]; cbn [app].
  - split; [intros H; split; [constructor|split; [done|set_solver]]|tauto].
  - rewrite !sorted_cons, IH. set_solver.
Qed.

(** *** Insertion *)

Lemma insert_loop_ok x t : forall p,
  t <> Leaf -> balanced t -> path_ok p (height t) -> sorted (elems t) ->
  exists res, insert_loop x p t = Some res /\
    match res with
    | None => x ∈ elems t
    | Some t' => balanced t' /\ exists l1 l2, elems t = l1 ++ l2 /\ elems t' = lefts p ++ (l1 ++ x :: l2) ++ rights p /\
        (forall y, y ∈ l1 -> below y x) /\ (forall y, y ∈ l2 -> below x y)
    end.
Proof using Ord.
  induction t as [|l IHl e b r IHr]; intros p Hne Hb Hp Hs; [done|]. cbn [insert_loop]. rewrite compare_entries_ok.
  cbn [balanced elems height] in *. destruct Hb as (Eb & Rb & Bl & Br).
  apply sorted_app in Hs as (Sl & [Sr Her]%sorted_cons & Hlr).
  pose proof (cmp_range x e) as Rc. destruct (Z.eqb_spec (compare x e) 0) as [E0|E0].
  { apply cmp_eq in E0 as ->. eexists. split; [done|]. set_solver. }
  destruct (Z.eqb_spec (compare x e) 1) as [E1|E1]; cbn [link negb].
  - assert (below e x) as Hex by (unfold below; rewrite cmp_opp; lia).
    assert (forall y, y ∈ elems l ++ [e] -> below y x) as Hlx.
    { intros y [Hy| ->%list_elem_of_singleton]%elem_of_app; [|done]. eapply cmp_trans; [|exact Hex]. apply Hlr; [done|]. by left. }
    destruct r as [|rl re rb rr].
    + cbn [node_at]. destruct (rebalance_ok p l e b (Nd Leaf x 0 Leaf) true 1) as (t' & -> & Bt & Et);
        [done|by cbn|done|lia|cbn [height] in *; lia| |].
      { cbn [height] in *. by replace (1 + Z.max 0 0 - 1) with 0 by lia; rewrite Z.sub_0_r. }
      eexists. split; [done|]. split; [done|]. exists (elems l ++ [e]), []. rewrite Et. cbn [elems]. simplify_list_eq. set_solver.
    + destruct (IHr (Frame true e b l :: p)) as (res & -> & Hres); [done|done| |done|].
      { cbn [path_ok side entry fbalance other]. repeat split; try done; try lia. by rewrite Z.max_comm. }
      eexists. split; [done|]. destruct res as [t'|]; [|set_solver]. destruct Hres as (Bt & l1 & l2 & E12 & Et & H1 & H2).
      split; [done|]. exists (elems l ++ e :: l1), l2. rewrite E12, Et. cbn [lefts rights side entry other].
      simplify_list_eq. split; [done|]. split; [done|]. split; [|done]. set_solver.
  - assert (below x e) as Hxe by (unfold below; lia).
    assert (forall y, y ∈ e :: elems r -> below x y) as Hxr.
    { intros y [->|Hy]%elem_of_cons; [done|]. eapply cmp_trans; [exact Hxe|]. by apply Her. }
    destruct l as [|ll le lb lr].
    + cbn [node_at]. destruct (rebalance_ok p (Nd Leaf x 0 Leaf) e b r false 1) as (t' & -> & Bt & Et);
        [by cbn|done|done|lia|cbn [height] in *; lia| |].
      { cbn [height] in *. by replace (1 + Z.max 0 0 - 1) with 0 by lia; rewrite Z.sub_0_r. }
      eexists. split; [done|]. split; [done|]. exists [], (e :: elems r). rewrite Et. cbn [elems]. simplify_list_eq. set_solver.
    + destruct (IHl (Frame false e b r :: p)) as (res & -> & Hres); [done|done| |done|].
      { cbn [path_ok side entry fbalance other]. repeat split; try done; try lia. }
      eexists. split; [done|]. destruct res as [t'|]; [|set_solver]. destruct Hres as (Bt & l1 & l2 & E12 & Et & H1 & H2).
      split; [done|]. exists l1, (l2 ++ e :: elems r). rewrite E12, Et. cbn [lefts rights side entry other].
      simplify_list_eq. split; [done|]. split; [done|]. split; [done|]. set_solver.
Qed.

(** An AVL tree that holds the entries [l], in their order. *)
Definition holds (t : tree E) (l : list E) : Prop := balanced t /\ elems t = l /\ sorted l.

Lemma insert_holds t l x : holds t l ->
  exists res, CAvl_Insert t x = Some res /\
    match res with
    | None => x ∈ l
    | Some t' => exists l1 l2, l = l1 ++ l2 /\ holds t' (l1 ++ x :: l2)
    end.
Proof using Ord.
  intros (B & <- & S). destruct t as [|tl te tb tr] eqn:Et.
  - eexists. split; [done|]. exists [], []. split; [done|]. split; [done|]. split; [done|]. repeat constructor.
  - rewrite <- Et in *. destruct (insert_loop_ok x t [] ltac:(by subst) B I S) as (res & Er & H).
    exists res. split; [by subst|]. destruct res as [t'|]; [|done]. destruct H as (B' & l1 & l2 & E12 & Et' & H1 & H2).
    exists l1, l2. split; [done|]. split; [done|]. cbn [lefts rights app] in Et'. rewrite app_nil_r in Et'. split; [done|].
    rewrite E12 in S. apply sorted_app in S as (S1 & S2 & S12). apply sorted_app. split; [done|].
    split; [apply sorted_cons; by split|]. intros a b Ha [->|Hb]%elem_of_cons; [by apply H1|by apply S12].
Qed.

(** *** Removal *)

Lemma position_ok x t : forall p, x ∈ elems t -> balanced t -> path_ok p (height t) ->
  exists p' l b r, position x p t = Some (p', Nd l x b r) /\ balanced (Nd l x b r) /\
    path_ok p' (height (Nd l x b r)) /\
    lefts p' ++ elems (Nd l x b r) ++ rights p' = lefts p ++ elems t ++ rights p.
Proof.
  induction t as [|l IHl e b r IHr]; intros p Hx Hb Hp; cbn [elems] in Hx; [set_solver|]. cbn [position].
  case_bool_decide as Exe; [subst e; by eexists _, _, _, _|].
  cbn [balanced] in Hb. destruct Hb as (Eb & Rb & Bl & Br). cbn [height] in Hp.
  destruct (decide (x ∈ elems l)) as [Hl|Hl].
  - destruct (IHl (Frame false e b r :: p)) as (p' & l' & b' & r' & -> & B' & P' & El'); [done|done| |].
    { cbn [path_ok side entry fbalance other]. repeat split; try done; try lia. }
    eexists _, _, _, _. split; [done|]. split; [done|]. split; [done|]. rewrite El'. cbn [lefts rights side entry other elems]. by simplify_list_eq.
  - assert (x ∈ elems r) as Hr by set_solver.
    assert (forall p, position x p l = None) as Np.
    { clear -Hl. induction l as [|ll IH1 le lb lr IH2]; intros p; [done|]. cbn [position elems] in *.
      rewrite bool_decide_eq_false_2 by set_solver. rewrite IH1, IH2; set_solver. }
    rewrite Np. destruct (IHr (Frame true e b l :: p)) as (p' & l' & b' & r' & -> & B' & P' & El'); [done|done| |].
    { cbn [path_ok side entry fbalance other]. repeat split; try done; try lia. by rewrite Z.max_comm. }
    eexists _, _, _, _. split; [done|]. split; [done|]. split; [done|]. rewrite El'. cbn [lefts rights side entry other elems]. by simplify_list_eq.
Qed.

Lemma max_position_ok t : forall p, t <> Leaf -> balanced t -> path_ok p (height t) ->
  exists q m ml, max_position p t = Some (q, m, ml) /\ balanced ml /\ path_ok q (1 + height ml) /\
    lefts q ++ elems ml ++ [m] = lefts p ++ elems t /\ rights q = rights p.
Proof.
  induction t as [|l _ e b r IHr]; intros p Hne Hb Hp; [done|]. cbn [max_position balanced height elems] in *.
  destruct Hb as (Eb & Rb & Bl & Br). destruct r as [|rl re rb rr].
  - eexists _, _, _. split; [done|]. split; [done|]. split; [|done]. cbn [height] in Hp.
    pose proof (height_nonneg l). by replace (Z.max (height l) 0) with (height l) in Hp by lia.
  - destruct (IHr (Frame true e b l :: p)) as (q & m & ml & -> & Bm & Pq & El & Er); [done|done| |].
    { cbn [path_ok side entry fbalance other]. repeat split; try done; try lia. by rewrite Z.max_comm. }
    eexists _, _, _. split; [done|]. split; [done|]. split; [done|]. split; [|done]. rewrite El. cbn [lefts side entry other].
    by simplify_list_eq.
Qed.

Lemma remove_at_ok p child : balanced child -> path_ok p (1 + height child) ->
  exists t', remove_at p child = Some t' /\ balanced t' /\ elems t' = lefts p ++ elems child ++ rights p.
Proof.
  intros Bc Hp. destruct p as [|f p]; cbn [remove_at].
  - eexists. split; [done|]. split; [done|]. cbn. by rewrite app_nil_r.
  - cbn [path_ok] in Hp. destruct Hp as (Ho & Rf & Ef & Hp). cbn [lefts rights]. destruct (side f); cbn [node_at].
    + destruct (rebalance_ok p (other f) (entry f) (fbalance f) child true (-1)) as (t' & -> & Bt & Et); [done|done|done|lia|lia| |].
      * replace (height child - -1) with (1 + height child) by lia. by rewrite Z.sub_0_r, Z.max_comm.
      * eexists. split; [done|]. split; [done|]. rewrite Et. by simplify_list_eq.
    + destruct (rebalance_ok p child (entry f) (fbalance f) (other f) false (-1)) as (t' & -> & Bt & Et); [done|done|done|lia|lia| |].
      * replace (height child - -1) with (1 + height child) by lia. by rewrite Z.sub_0_r.
      * eexists. split; [done|]. split; [done|]. rewrite Et. by simplify_list_eq.
Qed.

(** The path below a node goes on with the path from it. *)
Lemma max_position_app t s : forall p q m ml,
  max_position p t = Some (q, m, ml) -> max_position (p ++ s) t = Some (q ++ s, m, ml).
Proof.
  induction t as [|l _ e b r IHr]; intros p q m ml; cbn [max_position]; [done|].
  destruct r as [|rl re rb rr]; [by intros [= <- <- <-]|]. intros H. by apply IHr in H.
Qed.

Lemma remove_holds t l x : holds t l -> x ∈ l ->
  exists t' l1 l2, CAvl_Remove t x = Some t' /\ l = l1 ++ x :: l2 /\ holds t' (l1 ++ l2).
Proof using Ord.
  intros (B & <- & S) Hx. unfold CAvl_Remove.
  destruct (position_ok x t [] Hx B I) as (p & l & b & r & -> & Bn & Pp & El).
  cbn [lefts rights app] in El. rewrite app_nil_r in El.
  cbn [balanced height elems] in *. destruct Bn as (Eb & Rb & Bl & Br).
  assert (exists t', (match l, r with
      | Nd _ _ _ _, Nd _ _ _ _ => LET (q, m, ml) <- max_position [] l in remove_at (q ++ Frame false m b r :: p) ml
      | Nd _ _ _ _, Leaf => remove_at p l
      | Leaf, _ => remove_at p r end) = Some t' /\ balanced t' /\ elems t' = lefts p ++ (elems l ++ elems r) ++ rights p)
    as (t' & -> & Bt & Et).
  { destruct l as [|ll le lb lr] eqn:Hl; [|destruct r as [|rl re rb rr] eqn:Hr].
    - apply remove_at_ok; [done|]. pose proof (height_nonneg r). cbn [height] in *. by replace (Z.max 0 (height r)) with (height r) in Pp by lia.
    - rewrite app_nil_r. apply remove_at_ok; [done|]. pose proof (height_nonneg (Nd ll le lb lr)).
      by replace (Z.max (height (Nd ll le lb lr)) (height (@Leaf E))) with (height (Nd ll le lb lr)) in Pp by (cbn [height] in *; lia).
    - rewrite <- Hl, <- Hr in *. destruct (max_position_ok l [] ltac:(by subst) Bl I) as (q & m & ml & Em & Bm & _).
      rewrite Em. pose proof (max_position_app l (Frame false m b r :: p) [] q m ml Em) as Em'.
      destruct (max_position_ok l (Frame false m b r :: p)) as (q' & m' & ml' & Eq & Bm' & Pq & El' & Er'); [by subst|done| |].
      { cbn [path_ok side entry fbalance other]. repeat split; try done; try lia. }
      cbn [app] in Em'. rewrite Em' in Eq. injection Eq as <- <- <-.
      destruct (remove_at_ok _ _ Bm' Pq) as (t' & -> & Bt & Et). exists t'. split; [done|]. split; [done|].
      rewrite Et, Er'. cbn [lefts rights side entry other] in *. rewrite app_nil_r in El'.
      transitivity ((lefts (q ++ Frame false m b r :: p) ++ elems ml ++ [m]) ++ elems r ++ rights p); [by simplify_list_eq|].
      rewrite El'. by simplify_list_eq. }
  exists t', (lefts p ++ elems l), (elems r ++ rights p). split; [done|].
  assert (elems t = (lefts p ++ elems l) ++ x :: elems r ++ rights p) as Es by (rewrite <- El; by simplify_list_eq).
  split; [done|]. split; [done|]. split; [rewrite Et; by simplify_list_eq|].
  rewrite Es in S. apply sorted_app in S as (S1 & [S2 _]%sorted_cons & S12). apply sorted_app. set_solver.
Qed.

(** *** Traversal *)

Lemma subtree_min_head t : CAvl_subtree_min t = head (elems t).
Proof.
  induction t as [|l IHl e b r _]; [done|]. cbn [CAvl_subtree_min elems]. destruct l as [|ll le lb lr]; [done|].
  rewrite IHl. cbn [elems]. by destruct (elems ll).
Qed.

Lemma subtree_max_last t : CAvl_subtree_max t = last (elems t).
Proof.
  induction t as [|l _ e b r IHr]; [done|]. destruct r as [|rl re rb rr]; [cbn [CAvl_subtree_max elems]; by rewrite last_snoc|].
  change (CAvl_subtree_max (Nd l e b (Nd rl re rb rr))) with (CAvl_subtree_max (Nd rl re rb rr)). rewrite IHr. cbn [elems].
  rewrite last_app_cons. change (e :: elems rl ++ re :: elems rr) with ((e :: elems rl) ++ re :: elems rr).
  by rewrite app_assoc, last_app_cons.
Qed.

Lemma up_next p : up_from true p = head (rights p).
Proof. induction p as [|f p IH]; [done|]. cbn [up_from rights]. by destruct (side f). Qed.
Lemma up_prev p : up_from false p = last (lefts p).
Proof.
  induction p as [|f p IH]; [done|]. cbn [up_from lefts]. destruct (side f); cbn [eqb]; [|by rewrite app_nil_r].
  by rewrite app_assoc, last_snoc.
Qed.

Lemma sorted_split_unique l1 x l2 l1' l2' : sorted (l1 ++ x :: l2) -> l1 ++ x :: l2 = l1' ++ x :: l2' -> l1 = l1' /\ l2 = l2'.
Proof using Ord.
  revert l1'. induction l1 as [|y l1 IH]; intros [|y' l1'] S; cbn [app]; intros Eq.
  - by injection Eq.
  - injection Eq as <- ->. apply sorted_cons in S as [_ S]. assert (below x x) as Hb by (apply S; set_solver).
    unfold below in Hb. rewrite (proj2 (cmp_eq x x)) in Hb; done.
  - injection Eq as -> <-. cbn [app] in S. apply sorted_cons in S as [_ S]. assert (below x x) as Hb by (apply S; set_solver).
    unfold below in Hb. rewrite (proj2 (cmp_eq x x)) in Hb; done.
  - injection Eq as <- Eq. cbn [app] in S. apply sorted_cons in S as [S _]. destruct (IH _ S Eq) as [-> ->]. done.
Qed.

Lemma next_prev_holds t l1 x l2 : holds t (l1 ++ x :: l2) ->
  CAvl_GetNext t x = Some (head l2) /\ CAvl_GetPrev t x = Some (last l1).
Proof using Ord.
  intros (B & El & S). unfold CAvl_GetNext, CAvl_GetPrev.
  destruct (position_ok x t [] ltac:(rewrite El; set_solver) B I) as (p & l & b & r & -> & Bn & Pp & Es).
  cbn [lefts rights app elems] in Es. rewrite app_nil_r, El in Es.
  assert (lefts p ++ elems l ++ x :: elems r ++ rights p = l1 ++ x :: l2) as Es' by (rewrite <- Es; by simplify_list_eq).
  rewrite app_assoc in Es'. destruct (sorted_split_unique l1 x l2 _ _ S (eq_sym Es')) as [-> ->].
  split; cbn [link].
  - destruct r as [|rl re rb rr]; [by rewrite up_next|]. rewrite subtree_min_head. cbn [elems]. by destruct (elems rl).
  - destruct l as [|ll le lb lr]; [by rewrite up_prev, app_nil_r|]. rewrite subtree_max_last. cbn [elems]. by rewrite app_assoc, !last_app_cons.
Qed.

(** The checks of [CAvl_Verify] pass. *)
Lemma verify_holds t : balanced t -> sorted (elems t) -> CAvl_verify_recurser t = Some (height t).
Proof using Ord.
  induction t as [|l IHl e b r IHr]; intros B S; [done|]. cbn [CAvl_verify_recurser balanced elems height] in *.
  destruct B as (Eb & Rb & Bl & Br). apply sorted_app in S as (Sl & [Sr Her]%sorted_cons & Hlr).
  rewrite in_range_true by done.
  assert (match l with Leaf => Some 0 | Nd _ el _ _ => LET c <- CAvl_compare_entries el e in ASSERT c =? -1 in CAvl_verify_recurser l end
    = Some (height l)) as ->.
  { destruct l as [|ll le lb lr]; [done|]. rewrite compare_entries_ok, (Hlr le e), IHl; [done|done|done|cbn [elems]; set_solver|by left]. }
  assert (match r with Leaf => Some 0 | Nd _ er _ _ => LET c <- CAvl_compare_entries er e in ASSERT c =? 1 in CAvl_verify_recurser r end
    = Some (height r)) as ->.
  { destruct r as [|rl re rb rr]; [done|]. rewrite compare_entries_ok, cmp_opp, (Her re), IHr; [done|done|done|cbn [elems]; set_solver]. }
  rewrite Eb, Z.eqb_refl, CAvl_MAX_max. f_equal. lia.
Qed.

(** *** Height *)

Lemma height_size t : balanced t -> 2 ^ height t <= (Z.of_nat (length (elems t)) + 1) ^ 2.
Proof using.
  induction t as [|l IHl e b r IHr]; intros B; [done|]. cbn [balanced elems height] in *. destruct B as (Eb & Rb & Bl & Br).
  specialize (IHl Bl). specialize (IHr Br). rewrite length_app. cbn [length].
  set (A := Z.of_nat (length (elems l)) + 1) in *. set (C := Z.of_nat (length (elems r)) + 1) in *.
  replace (Z.of_nat (length (elems l) + S (length (elems r))) + 1) with (A + C) by lia.
  assert (0 < A /\ 0 < C) as [HA HC] by lia. pose proof (height_nonneg l) as Hl. pose proof (height_nonneg r) as Hr.
  rewrite !Z.pow_2_r in *. set (hl := height l) in *. set (hr := height r) in *. clearbody A C hl hr. clear -IHl IHr HA HC Hl Hr Eb Rb.
  assert (forall h, 0 <= h -> 0 < 2 ^ h) as Pos by (intros; apply Z.pow_pos_nonneg; lia).
  assert (hr = hl + 1 \/ hr = hl \/ hr = hl - 1) as [E1|[E1|E1]] by lia.
  - replace (1 + Z.max hl hr) with (hl + 1 + 1) by lia. subst hr. rewrite !Z.pow_add_r, Z.pow_1_r in * by lia.
    specialize (Pos hl Hl). set (x := 2 ^ hl) in *. clearbody x. assert (x <= A * C) by nia. nia.
  - replace (1 + Z.max hl hr) with (hl + 1) by lia. subst hr. rewrite !Z.pow_add_r, Z.pow_1_r in * by lia. nia.
  - replace (1 + Z.max hl hr) with (hr + 1 + 1) by lia. assert (hl = hr + 1) as -> by lia. rewrite !Z.pow_add_r, Z.pow_1_r in * by lia.
    specialize (Pos hr Hr). set (x := 2 ^ hr) in *. clearbody x. assert (x <= A * C) by nia. nia.
Qed.

(** ** An ordered set

    What the users of the tree rely on: the entries as a sorted list. *)
Inductive set_op := SInsert (x : E) | SRemove (x : E).

Definition spec_insert (x : E) (l : list E) : list E :=
  filter (fun y => compare y x = -1) l ++ x :: filter (fun y => compare x y = -1) l.
Definition spec_remove (x : E) (l : list E) : list E := filter (fun y => y <> x) l.

(** [None]: an entry that is not in the tree must not be removed. *)
Definition spec_step (l : list E) (o : set_op) : option (list E * bool) :=
  match o with
  | SInsert x => Some (if bool_decide (x ∈ l) then (l, false) else (spec_insert x l, true))
  | SRemove x => ASSERT bool_decide (x ∈ l) in Some (spec_remove x l, true)
  end.
Definition avl_step (t : tree E) (o : set_op) : option (tree E * bool) :=
  match o with
  | SInsert x => LET r <- CAvl_Insert t x in Some (match r with None => (t, false) | Some t => (t, true) end)
  | SRemove x => LET t <- CAvl_Remove t x in Some (t, true)
  end.

Fixpoint set_runs {S} (f : S -> set_op -> option (S * bool)) (s : S) (os : list set_op) : option (S * list bool) :=
  match os with
  | [] => Some (s, [])
  | o :: os => LET (s, r) <- f s o in LET (s, rs) <- set_runs f s os in Some (s, r :: rs)
  end.

Lemma below_irrefl x : ~ below x x.
Proof using Ord. unfold below. rewrite (proj2 (cmp_eq x x)); done. Qed.
Lemma below_asym x y : below x y -> ~ below y x.
Proof using Ord. unfold below. rewrite (cmp_opp x y). lia. Qed.

Lemma filter_all (P : E -> Prop) `{!forall x, Decision (P x)} (l : list E) : (forall y, y ∈ l -> P y) -> filter P l = l.
Proof.
  induction l as [|y l IH]; intros HP; [done|]. rewrite filter_cons_True by (apply HP; by left). rewrite IH; [done|].
  intros z Hz. apply HP. by right.
Qed.
Lemma filter_none (P : E -> Prop) `{!forall x, Decision (P x)} (l : list E) : (forall y, y ∈ l -> ~ P y) -> filter P l = [].
Proof.
  induction l as [|y l IH]; intros HP; [done|]. rewrite filter_cons_False by (apply HP; by left). apply IH.
  intros z Hz. apply HP. by right.
Qed.

Lemma spec_insert_split x l1 l2 : sorted (l1 ++ x :: l2) -> spec_insert x (l1 ++ l2) = l1 ++ x :: l2.
Proof using Ord.
  intros (S1 & [S2 H2]%sorted_cons & H1)%sorted_app. unfold spec_insert. rewrite !filter_app.
  rewrite (filter_all (fun y => compare y x = -1) l1), (filter_none (fun y => compare y x = -1) l2),
    (filter_none (fun y => compare x y = -1) l1), (filter_all (fun y => compare x y = -1) l2); [by rewrite app_nil_r|..].
  - intros y Hy. by apply H2.
  - intros y Hy. apply below_asym, H1; [done|]. by left.
  - intros y Hy. apply below_asym. by apply H2.
  - intros y Hy. apply H1; [done|]. by left.
Qed.

Lemma spec_remove_split x l1 l2 : sorted (l1 ++ x :: l2) -> spec_remove x (l1 ++ x :: l2) = l1 ++ l2.
Proof using Ord.
  intros (S1 & [S2 H2]%sorted_cons & H1)%sorted_app. unfold spec_remove. rewrite filter_app, filter_cons_False by tauto.
  rewrite !filter_all; [done|..].
  - intros y Hy ->. eapply below_irrefl. by apply H2.
  - intros y Hy ->. eapply below_irrefl, H1; [done|]. by left.
Qed.

Lemma avl_step_refines t l o l' r : holds t l -> spec_step l o = Some (l', r) ->
  exists t', avl_step t o = Some (t', r) /\ holds t' l'.
Proof using Ord.
  intros H Es. destruct o as [x|x]; cbn [spec_step avl_step] in *.
  - destruct (insert_holds t l x H) as (res & -> & Hr). destruct res as [t'|].
    + destruct Hr as (l1 & l2 & -> & H'). pose proof H' as (_ & _ & S). rewrite bool_decide_eq_false_2 in Es.
      * injection Es as <- <-. rewrite spec_insert_split by done. by eexists.
      * apply sorted_app in S as (_ & [_ S2]%sorted_cons & S1). intros [Hx|Hx]%elem_of_app.
        -- apply (below_irrefl x), S1; [done|by left].
        -- by apply (below_irrefl x), S2.
    + rewrite bool_decide_eq_true_2 in Es by done. injection Es as <- <-. by eexists.
  - case_bool_decide as Hx; [|done]. injection Es as <- <-.
    destruct (remove_holds t l x H Hx) as (t' & l1 & l2 & -> & -> & H'). destruct H as (_ & _ & S).
    rewrite spec_remove_split by done. by eexists.
Qed.

Lemma avl_runs_refine os : forall t l l' rs, holds t l -> set_runs spec_step l os = Some (l', rs) ->
  exists t', set_runs avl_step t os = Some (t', rs) /\ holds t' l'.
Proof using Ord.
  induction os as [|o os IH]; intros t l l' rs H Es; cbn [set_runs] in *; [injection Es as <- <-; by eexists|].
  destruct (spec_step l o) as [[l1 r]|] eqn:E1; [|done]. destruct (avl_step_refines _ _ _ _ _ H E1) as (t1 & -> & H1).
  destruct (set_runs spec_step l1 os) as [[l2 rs2]|] eqn:E2; [|done]. injection Es as <- <-.
  destruct (IH _ _ _ _ H1 E2) as (t2 & -> & H2). by eexists.
Qed.

Lemma holds_leaf : holds Leaf [].
Proof using. split; [done|]. split; [done|]. constructor. Qed.

(** C23: the AVL tree is an ordered set.  Any sequence of insertions and removals
    gives the results and the order that a sorted list gives; no assertion
    fails, the checks of [CAvl_Verify] pass, the first and last entries are the
    ends of the list, next and previous are its neighbours, and the height is
    logarithmic in the number of entries. *)
Theorem avl_ordered_set os l rs :
  set_runs spec_step [] os = Some (l, rs) ->
  exists t h, set_runs avl_step Leaf os = Some (t, rs) /\ elems t = l /\
    CAvl_verify_recurser t = Some h /\ 2 ^ h <= (Z.of_nat (length l) + 1) ^ 2 /\
    CAvl_GetFirst t = head l /\ CAvl_GetLast t = last l /\
    (forall l1 x l2, l = l1 ++ x :: l2 -> CAvl_GetNext t x = Some (head l2) /\ CAvl_GetPrev t x = Some (last l1)).
Proof using Ord.
  intros Es. destruct (avl_runs_refine _ _ _ _ _ holds_leaf Es) as (t & Et & H). pose proof H as (B & <- & S).
  exists t, (height t). split; [done|]. split; [done|]. split; [by apply verify_holds|]. split; [by apply height_size|].
  split; [apply subtree_min_head|]. split; [apply subtree_max_last|]. intros l1 x l2 El. rewrite El in H. by apply next_prev_holds.
Qed.

End avl.

(** Integers in their order, compared as the users of the tree compare. *)
#[export] Instance Z_entry_order : EntryOrder Bsize.B_COMPARE.
Proof.
  split; unfold Bsize.B_COMPARE; intros; bool_cases; cbn; try lia; split; try done; lia.
Qed.

Definition sample_ops : list (set_op (E:=Z)) :=
  [SInsert 5; SInsert 3; SInsert 9; SInsert 1; SInsert 5; SInsert 4; SInsert 2; SRemove 3; SRemove 5; SInsert 7; SInsert 8].

Lemma avl_ordered_set_witness :
  exists t h, set_runs (avl_step Bsize.B_COMPARE) Leaf sample_ops =
      Some (t, [true; true; true; true; false; true; true; true; true; true; true]) /\
    elems t = [1; 2; 4; 7; 8; 9] /\ CAvl_verify_recurser Bsize.B_COMPARE t = Some h /\ CAvl_GetFirst t = Some 1 /\ h = 3.
Proof.
  destruct (avl_ordered_set Bsize.B_COMPARE sample_ops [1; 2; 4; 7; 8; 9]
    [true; true; true; true; false; true; true; true; true; true; true]) as (t & h & E1 & E2 & E3 & _ & E4 & _);
    [vm_compute; reflexivity|].
  exists t, h. split; [exact E1|]. split; [exact E2|]. split; [exact E3|]. split; [exact E4|].
  vm_compute in E1. injection E1 as <-. vm_compute in E3. by injection E3 as <-.
Defined.
