(* ===== verification/Reactor.v ===== *)
(** * The event loop

    Models [system/BReactor_badvpn.c] as it is compiled (epoll), with
    [system/BTime.h] and the part of [misc/overflow.h] it uses: jobs, timers,
    limits and file descriptors, the waiting for events and their dispatching.

    Objects are kept by address.  The pending jobs are the stack that
    [Pending.v] shows a job group to be, the running timers are in the AVL tree
    of [Avl.v], the expired timers and the active limits in lists, as
    [LinkedList.v] shows them to be.  The clock and [epoll] answer through
    arguments.  A handler that is called is returned; what it does are calls
    of the functions below.  [None] is a failed [ASSERT]. *)

From Stdlib Require Import Sorting.Sorted.
From S2P Require Import Prelude.
From S2P Require Import Words.
From S2P Require Import LinkedList.
From S2P Require Import Pending.
From S2P Require Import Avl.
Import Bsize.

Module Reactor.

(** ** Time *)

Definition INT64_MAX : Z := 9223372036854775807.
Definition INT64_MIN : Z := -9223372036854775808.

Definition add_int64_overflows (a b : Z) : Z :=
  if xorb (a <? 0) (b <? 0) then 0
  else if a <? 0 then - Z.b2z (a <? INT64_MIN - b)
  else Z.b2z (INT64_MAX - b <? a).

Definition btime_add (t1 t2 : Z) : Z :=
  let overflows := add_int64_overflows t1 t2 in
  if negb (overflows =? 0) then if 0 <? overflows then INT64_MAX else INT64_MIN
  else t1 + t2.

(** ** Objects *)

Inductive timer_state := TIMER_STATE_INACTIVE | TIMER_STATE_RUNNING | TIMER_STATE_EXPIRED.
#[export] Instance timer_state_eq_dec : EqDecision timer_state.
Proof. solve_decision. Defined.

(** A [BTimer] is a [BSmallTimer] with [is_small] zero and a time of its own. *)
Record BSmallTimer := MkTimer { absTime : Z; tstate : timer_state; is_small : bool; msTime : Z }.
Record BFileDescriptor := MkFd { fd : Z; active : bool; waitEvents : Z; epoll_returned_ptr : option nat }.
Record BReactorLimit := MkLimit { count : Z; limit : Z }.
Record epoll_event := MkEvent { events : Z; ptr : option addr }.

Definition BREACTOR_READ : Z := 1.
Definition BREACTOR_WRITE : Z := 2.
Definition BREACTOR_ERROR : Z := 4.
Definition BREACTOR_HUP : Z := 8.
Definition EPOLLIN : Z := 1.
Definition EPOLLOUT : Z := 4.
Definition EPOLLERR : Z := 8.
Definition EPOLLHUP : Z := 16.
Definition BSYSTEM_MAX_RESULTS : nat := 64.

(** A running timer is in the tree under its time and its address. *)
Definition compare_timers (a b : Z * addr) : Z :=
  let cmp := B_COMPARE (fst a) (fst b) in
  if negb (cmp =? 0) then cmp else B_COMPARE (snd a) (snd b).

Record BReactor := MkReactor {
  exiting : bool;
  exit_code : Z;
  pending_jobs : Pending.stack;
  timers : gmap addr BSmallTimer;
  timers_tree : tree (Z * addr);
  timers_expired_list : list addr;
  limits : gmap addr BReactorLimit;
  active_limits_list : list addr;
  fds : gmap addr BFileDescriptor;
  epoll_results : list epoll_event;
  epoll_results_pos : nat;
  d_fds_counter : Z;
  d_limits_ctr : Z;
}.

Definition set_exit c r := MkReactor true c r.(pending_jobs) r.(timers) r.(timers_tree) r.(timers_expired_list)
  r.(limits) r.(active_limits_list) r.(fds) r.(epoll_results) r.(epoll_results_pos) r.(d_fds_counter) r.(d_limits_ctr).
Definition set_jobs j r := MkReactor r.(exiting) r.(exit_code) j r.(timers) r.(timers_tree) r.(timers_expired_list)
  r.(limits) r.(active_limits_list) r.(fds) r.(epoll_results) r.(epoll_results_pos) r.(d_fds_counter) r.(d_limits_ctr).
Definition set_timers tm t l r := MkReactor r.(exiting) r.(exit_code) r.(pending_jobs) tm t l
  r.(limits) r.(active_limits_list) r.(fds) r.(epoll_results) r.(epoll_results_pos) r.(d_fds_counter) r.(d_limits_ctr).
Definition set_limits m l c r := MkReactor r.(exiting) r.(exit_code) r.(pending_jobs) r.(timers) r.(timers_tree) r.(timers_expired_list)
  m l r.(fds) r.(epoll_results) r.(epoll_results_pos) r.(d_fds_counter) c.
Definition set_fds f c r := MkReactor r.(exiting) r.(exit_code) r.(pending_jobs) r.(timers) r.(timers_tree) r.(timers_expired_list)
  r.(limits) r.(active_limits_list) f r.(epoll_results) r.(epoll_results_pos) c r.(d_limits_ctr).
Definition set_results l n r := MkReactor r.(exiting) r.(exit_code) r.(pending_jobs) r.(timers) r.(timers_tree) r.(timers_expired_list)
  r.(limits) r.(active_limits_list) r.(fds) l n r.(d_fds_counter) r.(d_limits_ctr).

(** [epoll_create] may fail; [BReactor_Init] then returns 0. *)
Definition BReactor_Init (epoll_created : bool) : option BReactor :=
  if epoll_created then
    Some (MkReactor false 0 (Pending.Stack [] ∅) ∅ Leaf [] ∅ [] ∅ [] 0 0 0)
  else None.

(** [closed] tells whether closing the epoll descriptor succeeds. *)
Definition BReactor_Free (r : BReactor) (closed : bool) : option unit :=
  ASSERT bool_decide (r.(pending_jobs).(Pending.order) = []) in
  ASSERT CAvl_IsEmpty r.(timers_tree) in
  ASSERT bool_decide (r.(timers_expired_list) = []) in
  ASSERT bool_decide (r.(active_limits_list) = []) in
  ASSERT Pending.DebugCounter_Free r.(d_fds_counter) in
  ASSERT Pending.DebugCounter_Free r.(d_limits_ctr) in
  ASSERT closed in
  ASSERT bool_decide (r.(pending_jobs).(Pending.handlers) = ∅) in
  Some tt.

Definition BReactor_Quit (r : BReactor) (code : Z) : BReactor := set_exit code r.

(** ** Timers *)

(** [x] is what the object's [absTime] holds before. *)
Definition BSmallTimer_Init (r : BReactor) (a : addr) (x : Z) : BReactor :=
  set_timers (<[a := MkTimer x TIMER_STATE_INACTIVE true 0]> r.(timers)) r.(timers_tree) r.(timers_expired_list) r.

Definition BTimer_Init (r : BReactor) (a : addr) (x ms : Z) : BReactor :=
  set_timers (<[a := MkTimer x TIMER_STATE_INACTIVE false ms]> r.(timers)) r.(timers_tree) r.(timers_expired_list) r.

Definition BSmallTimer_IsRunning (r : BReactor) (a : addr) : option bool :=
  LET t <- r.(timers) !! a in Some (negb (bool_decide (t.(tstate) = TIMER_STATE_INACTIVE))).

Definition set_tstate (s : timer_state) (t : BSmallTimer) : BSmallTimer := MkTimer t.(absTime) s t.(is_small) t.(msTime).

(** Removing a node that is not in the list would follow dangling links. *)
Definition unlink (a : addr) (l : list addr) : option (list addr) :=
  ASSERT bool_decide (a ∈ l) in Some (Pending.without a l).

Definition BReactor_RemoveSmallTimer (r : BReactor) (a : addr) : option BReactor :=
  LET t <- r.(timers) !! a in
  let inactive := <[a := set_tstate TIMER_STATE_INACTIVE t]> r.(timers) in
  match t.(tstate) with
  | TIMER_STATE_INACTIVE => Some r
  | TIMER_STATE_EXPIRED =>
      LET l <- unlink a r.(timers_expired_list) in Some (set_timers inactive r.(timers_tree) l r)
  | TIMER_STATE_RUNNING =>
      LET tr <- CAvl_Remove r.(timers_tree) (t.(absTime), a) in
      Some (set_timers inactive tr r.(timers_expired_list) r)
  end.

Inductive timer_mode := BTIMER_SET_ABSOLUTE | BTIMER_SET_RELATIVE.

(** [now] is what [btime_gettime] returns when it is called. *)
Definition BReactor_SetSmallTimer (r : BReactor) (a : addr) (mode : timer_mode) (time now : Z) : option BReactor :=
  LET r <- BReactor_RemoveSmallTimer r a in
  let time := match mode with BTIMER_SET_RELATIVE => btime_add now time | BTIMER_SET_ABSOLUTE => time end in
  LET t <- r.(timers) !! a in
  LET res <- CAvl_Insert compare_timers r.(timers_tree) (time, a) in
  LET tr <- res in
  Some (set_timers (<[a := MkTimer time TIMER_STATE_RUNNING t.(is_small) t.(msTime)]> r.(timers)) tr r.(timers_expired_list) r).

(** A [BTimer] is set to its own time or to a given one. *)
Definition BReactor_SetTimer (r : BReactor) (a : addr) (now : Z) : option BReactor :=
  LET t <- r.(timers) !! a in BReactor_SetSmallTimer r a BTIMER_SET_RELATIVE t.(msTime) now.
Definition BReactor_SetTimerAfter (r : BReactor) (a : addr) (after now : Z) : option BReactor :=
  BReactor_SetSmallTimer r a BTIMER_SET_RELATIVE after now.
Definition BReactor_SetTimerAbsolute (r : BReactor) (a : addr) (time now : Z) : option BReactor :=
  BReactor_SetSmallTimer r a BTIMER_SET_ABSOLUTE time now.

(** The body of the loops that move a timer from the tree to the expired list. *)
Definition expire (r : BReactor) (a : addr) (t : BSmallTimer) : option BReactor :=
  LET tr <- CAvl_Remove r.(timers_tree) (t.(absTime), a) in
  Some (set_timers (<[a := set_tstate TIMER_STATE_EXPIRED t]> r.(timers)) tr (r.(timers_expired_list) ++ [a]) r).

(** The first running timer; the loops assert its state. *)
Definition first_timer (r : BReactor) : option (option (addr * BSmallTimer)) :=
  match CAvl_GetFirst r.(timers_tree) with
  | None => Some None
  | Some (_, a) =>
      LET t <- r.(timers) !! a in
      ASSERT bool_decide (t.(tstate) = TIMER_STATE_RUNNING) in
      Some (Some (a, t))
  end.

(** The loop of [move_expired_timers] runs at most once for every timer in the
    tree; [fuel] counts the rounds. *)
Fixpoint move_expired_loop (fuel : nat) (r : BReactor) (now : Z) (moved : bool) : option (BReactor * bool) :=
  match fuel with
  | O => None
  | S fuel =>
      LET ft <- first_timer r in
      match ft with
      | None => Some (r, moved)
      | Some (a, t) =>
          if now <? t.(absTime) then Some (r, moved)
          else LET r <- expire r a t in move_expired_loop fuel r now true
      end
  end.

Definition tree_fuel (r : BReactor) : nat := S (length (elems r.(timers_tree))).

Definition move_expired_timers (r : BReactor) (now : Z) : option (BReactor * bool) :=
  move_expired_loop (tree_fuel r) r now false.

Fixpoint move_first_loop (fuel : nat) (r : BReactor) (first_time : Z) : option BReactor :=
  match fuel with
  | O => None
  | S fuel =>
      LET ft <- first_timer r in
      match ft with
      | None => Some r
      | Some (a, t) =>
          ASSERT first_time <=? t.(absTime) in
          if first_time <? t.(absTime) then Some r
          else LET r <- expire r a t in move_first_loop fuel r first_time
      end
  end.

Definition move_first_timers (r : BReactor) : option BReactor :=
  LET ft <- first_timer r in
  LET (a, t) <- ft in
  LET r' <- expire r a t in
  move_first_loop (tree_fuel r) r' t.(absTime).

(** ** Limits *)

Definition BReactorLimit_Init (r : BReactor) (a : addr) (lim : Z) : option BReactor :=
  ASSERT 0 <? lim in
  LET c <- Pending.DebugCounter_Increment r.(d_limits_ctr) in
  Some (set_limits (<[a := MkLimit 0 lim]> r.(limits)) r.(active_limits_list) c r).

Definition BReactorLimit_Free (r : BReactor) (a : addr) : option BReactor :=
  LET o <- r.(limits) !! a in
  LET c <- Pending.DebugCounter_Decrement r.(d_limits_ctr) in
  LET l <- (if 0 <? o.(count) then unlink a r.(active_limits_list) else Some r.(active_limits_list)) in
  Some (set_limits (delete a r.(limits)) l c r).

(** The second result is the return value. *)
Definition BReactorLimit_Increment (r : BReactor) (a : addr) : option (BReactor * bool) :=
  LET o <- r.(limits) !! a in
  if o.(limit) <=? o.(count) then Some (r, false)
  else
    let l := if o.(count) + 1 =? 1 then r.(active_limits_list) ++ [a] else r.(active_limits_list) in
    Some (set_limits (<[a := MkLimit (o.(count) + 1) o.(limit)]> r.(limits)) l r.(d_limits_ctr) r, true).

Definition BReactorLimit_SetLimit (r : BReactor) (a : addr) (lim : Z) : option BReactor :=
  LET o <- r.(limits) !! a in
  ASSERT 0 <? lim in
  Some (set_limits (<[a := MkLimit o.(count) lim]> r.(limits)) r.(active_limits_list) r.(d_limits_ctr) r).

(** The loop that ends [wait_for_events]. *)
Fixpoint reset_limits (l : list addr) (m : gmap addr BReactorLimit) : option (gmap addr BReactorLimit) :=
  match l with
  | [] => Some m
  | a :: l =>
      LET o <- m !! a in
      ASSERT 0 <? o.(count) in
      reset_limits l (<[a := MkLimit 0 o.(limit)]> m)
  end.

(** ** File descriptors *)

Definition BFileDescriptor_Init (r : BReactor) (a : addr) (n : Z) : BReactor :=
  set_fds (<[a := MkFd n false 0 None]> r.(fds)) r.(d_fds_counter) r.

(** [ctl] tells whether [epoll_ctl] succeeds; the second result is the return
    value. *)
Definition BReactor_AddFileDescriptor (r : BReactor) (a : addr) (ctl : bool) : option (BReactor * bool) :=
  LET f <- r.(fds) !! a in
  ASSERT negb f.(active) in
  if negb ctl then Some (r, false)
  else
    LET c <- Pending.DebugCounter_Increment r.(d_fds_counter) in
    Some (set_fds (<[a := MkFd f.(fd) true 0 None]> r.(fds)) c r, true).

Definition BReactor_RemoveFileDescriptor (r : BReactor) (a : addr) (ctl : bool) : option BReactor :=
  LET f <- r.(fds) !! a in
  ASSERT f.(active) in
  LET c <- Pending.DebugCounter_Decrement r.(d_fds_counter) in
  ASSERT ctl in
  let r := set_fds (<[a := MkFd f.(fd) false f.(waitEvents) f.(epoll_returned_ptr)]> r.(fds)) c r in
  match f.(epoll_returned_ptr) with
  | None => Some r
  | Some i =>
      LET e <- r.(epoll_results) !! i in
      Some (set_results (<[i := MkEvent e.(events) None]> r.(epoll_results)) r.(epoll_results_pos) r)
  end.

Definition BReactor_SetFileDescriptorEvents (r : BReactor) (a : addr) (ev : Z) (ctl : bool) : option BReactor :=
  LET f <- r.(fds) !! a in
  ASSERT f.(active) in
  ASSERT Z.land ev (Z.lnot (Z.lor BREACTOR_READ BREACTOR_WRITE)) =? 0 in
  if f.(waitEvents) =? ev then Some r
  else
    ASSERT ctl in
    Some (set_fds (<[a := MkFd f.(fd) true ev f.(epoll_returned_ptr)]> r.(fds)) r.(d_fds_counter) r).

(** [set_epoll_fd_pointers] from entry [i] on. *)
Fixpoint set_epoll_fd_pointers (i : nat) (l : list epoll_event) (m : gmap addr BFileDescriptor)
  : option (gmap addr BFileDescriptor) :=
  match l with
  | [] => Some m
  | e :: l =>
      LET a <- e.(ptr) in
      LET f <- m !! a in
      ASSERT f.(active) in
      ASSERT bool_decide (f.(epoll_returned_ptr) = None) in
      set_epoll_fd_pointers (S i) l (<[a := MkFd f.(fd) f.(active) f.(waitEvents) (Some i)]> m)
  end.

(** ** Waiting *)

(** How [epoll_wait] returns, with the time [btime_gettime] then shows:
    interrupted, with nothing when the time is over, with events, or with
    another error than [EINTR]. *)
Inductive answer := Interrupted (at_ : Z) | TimedOut (at_ : Z) | Ready (l : list epoll_event) | WaitError.

(** A wait ends, or the process is in [epoll_wait] with this timeout. *)
Inductive wait_result := Woken (r : BReactor) | Waiting (r : BReactor) (timeout : Z).

(** Subtraction of times, undefined on overflow. *)
Definition btime_sub (a b : Z) : option Z :=
  ASSERT (INT64_MIN <=? a - b) && (a - b <=? INT64_MAX) in Some (a - b).

(** [try_again]: [Some r] ends the wait. *)
Definition try_again (r : BReactor) (timeout_abs : option Z) (now : Z) : option (option BReactor) :=
  match timeout_abs with
  | None => Some None
  | Some t => if t <=? now then LET r <- move_first_timers r in Some (Some r) else Some None
  end.

(** [timeout_rel] and [timeout_rel_trunc]. *)
Definition relative_timeout (timeout_abs : option Z) (now : Z) : option (Z * Z) :=
  match timeout_abs with
  | None => Some (0, 0)
  | Some t => LET rel <- btime_sub t now in Some (rel, if INT_MAX <? rel then INT_MAX else rel)
  end.

(** The last argument of [epoll_wait]. *)
Definition epoll_timeout (timeout_abs : option Z) (timeout_rel_trunc : Z) : Z :=
  match timeout_abs with Some _ => timeout_rel_trunc | None => -1 end.

(** The loop of [wait_for_events]; without an answer it keeps waiting. *)
Fixpoint wait_loop (r : BReactor) (timeout_abs : option Z) (now : Z) (answers : list answer) : option wait_result :=
  LET (timeout_rel, timeout_rel_trunc) <- relative_timeout timeout_abs now in
  match answers with
  | [] => Some (Waiting r (epoll_timeout timeout_abs timeout_rel_trunc))
  | ans :: answers =>
      match ans with
      | WaitError => None
      | Interrupted t =>
          LET e <- try_again r timeout_abs t in
          match e with Some r => Some (Woken r) | None => wait_loop r timeout_abs t answers end
      | TimedOut t =>
          LET _ <- timeout_abs in
          if timeout_rel_trunc =? timeout_rel then LET r <- move_first_timers r in Some (Woken r)
          else
            LET e <- try_again r timeout_abs t in
            match e with Some r => Some (Woken r) | None => wait_loop r timeout_abs t answers end
      | Ready l =>
          ASSERT (length l <=? BSYSTEM_MAX_RESULTS)%nat in
          LET m <- set_epoll_fd_pointers 0 l r.(fds) in
          Some (Woken (set_results l 0 (set_fds m r.(d_fds_counter) r)))
      end
  end.

Definition finish_wait (w : wait_result) : option wait_result :=
  match w with
  | Waiting r timeout => Some (Waiting r timeout)
  | Woken r => LET m <- reset_limits r.(active_limits_list) r.(limits) in Some (Woken (set_limits m [] r.(d_limits_ctr) r))
  end.

Definition wait_for_events (r : BReactor) (now : Z) (answers : list answer) : option wait_result :=
  ASSERT bool_decide (r.(pending_jobs).(Pending.order) = []) in
  ASSERT bool_decide (r.(timers_expired_list) = []) in
  ASSERT (r.(epoll_results_pos) =? length r.(epoll_results))%nat in
  let r := set_results [] 0 r in
  LET ft <- first_timer r in
  match ft with
  | Some (_, t) =>
      LET (r, moved) <- move_expired_timers r now in
      if moved then Some (Woken r)
      else LET w <- wait_loop r (Some t.(absTime)) now answers in finish_wait w
  | None => LET w <- wait_loop r None 0 answers in finish_wait w
  end.

(** ** Dispatching *)

Inductive dispatch := CallJob (h : Z) | CallTimer (a : addr) (small : bool) | CallFd (a : addr) (ev : Z).

Definition report_events (f : BFileDescriptor) (ev : Z) : Z :=
  let on (m : Z) := negb (Z.land ev m =? 0) in
  let wants (m : Z) := negb (Z.land f.(waitEvents) m =? 0) in
  let e := if wants BREACTOR_READ && on EPOLLIN then BREACTOR_READ else 0 in
  let e := if wants BREACTOR_WRITE && on EPOLLOUT then Z.lor e BREACTOR_WRITE else e in
  let e := if on EPOLLERR then Z.lor e BREACTOR_ERROR else e in
  if on EPOLLHUP then Z.lor e BREACTOR_HUP else e.

(** One round of the loop of [BReactor_Exec]: the new state and the handler that
    is called, if one is, or the timeout of the [epoll_wait] it is in. *)
Inductive round := Round (r : BReactor) (d : option dispatch) | Sleep (r : BReactor) (timeout : Z).

Definition exec_round (r : BReactor) (now : Z) (answers : list answer) : option round :=
  match r.(pending_jobs).(Pending.order) with
  | _ :: _ =>
      LET (j, o) <- Pending.spec_step r.(pending_jobs) Pending.CExecute in
      match o with Pending.ORun h => Some (Round (set_jobs j r) (Some (CallJob h))) | _ => None end
  | [] =>
      match r.(timers_expired_list) with
      | a :: l =>
          LET t <- r.(timers) !! a in
          ASSERT bool_decide (t.(tstate) = TIMER_STATE_EXPIRED) in
          Some (Round (set_timers (<[a := set_tstate TIMER_STATE_INACTIVE t]> r.(timers)) r.(timers_tree) l r)
                  (Some (CallTimer a t.(is_small))))
      | [] =>
          if (r.(epoll_results_pos) <? length r.(epoll_results))%nat then
            LET e <- r.(epoll_results) !! r.(epoll_results_pos) in
            let i := r.(epoll_results_pos) in
            let r := set_results r.(epoll_results) (S i) r in
            match e.(ptr) with
            | None => Some (Round r None)
            | Some a =>
                LET f <- r.(fds) !! a in
                ASSERT f.(active) in
                ASSERT bool_decide (f.(epoll_returned_ptr) = Some i) in
                let r := set_fds (<[a := MkFd f.(fd) true f.(waitEvents) None]> r.(fds)) r.(d_fds_counter) r in
                let ev := report_events f e.(events) in
                if ev =? 0 then Some (Round r None) else Some (Round r (Some (CallFd a ev)))
            end
          else
            LET w <- wait_for_events r now answers in
            match w with Woken r => Some (Round r None) | Waiting r timeout => Some (Sleep r timeout) end
      end
  end.

(** [BReactor_Exec] ends when [exiting] is set; a round starts otherwise. *)
Definition exec_ends (r : BReactor) : option Z := if r.(exiting) then Some r.(exit_code) else None.

(** One round of [BReactor_Synchronize]: it returns, or it has a handler called. *)
Inductive sync := SyncReturns (res : bool) | SyncCalls (r : BReactor) (h : Z).

Definition synchronize_round (r : BReactor) (ref : addr) : option sync :=
  if r.(exiting) then Some (SyncReturns false)
  else
    LET a <- head r.(pending_jobs).(Pending.order) in
    if bool_decide (a = ref) then Some (SyncReturns true)
    else
      LET (j, o) <- Pending.spec_step r.(pending_jobs) Pending.CExecute in
      match o with Pending.ORun h => Some (SyncCalls (set_jobs j r) h) | _ => None end.

(** ** Invariant *)

Lemma compare_timers_spec t a u b :
  compare_timers (t, a) (u, b) =
    match Z.compare t u with Lt => -1 | Gt => 1 | Eq => match Z.compare a b with Lt => -1 | Gt => 1 | Eq => 0 end end.
Proof.
  assert (forall x y, B_COMPARE x y = match Z.compare x y with Lt => -1 | Gt => 1 | Eq => 0 end) as B.
  { intros x y. unfold B_COMPARE. destruct (Z.compare_spec x y); bool_cases; lia. }
  unfold compare_timers. cbn [fst snd]. rewrite !B. by destruct (t ?= u).
Qed.

#[export] Instance compare_timers_order : EntryOrder compare_timers.
Proof.
  split.
  - intros [t a] [u b]. rewrite compare_timers_spec. destruct (t ?= u), (a ?= b); lia.
  - intros [t a] [u b]. rewrite !compare_timers_spec, (Z.compare_antisym t u), (Z.compare_antisym a b). by destruct (t ?= u), (a ?= b).
  - intros [t a] [u b]. rewrite compare_timers_spec. destruct (Z.compare_spec t u), (Z.compare_spec a b); split; intros H1; try done; try congruence; injection H1; lia.
  - intros [t a] [u b] [v c]. rewrite !compare_timers_spec.
    destruct (Z.compare_spec t u), (Z.compare_spec u v), (Z.compare_spec t v), (Z.compare_spec a b), (Z.compare_spec b c), (Z.compare_spec a c); try done; lia.
Qed.

Definition running (tr : tree (Z * addr)) : list (Z * addr) := elems tr.
#[local] Arguments running : simpl never.

(** The tree holds the running timers under their times, the list the expired
    ones. *)
Record timers_ok (tm : gmap addr BSmallTimer) (tr : tree (Z * addr)) (ex : list addr) : Prop := {
  tok_tree : holds compare_timers tr (running tr);
  tok_running t a : (t, a) ∈ running tr <-> exists x, tm !! a = Some x /\ absTime x = t /\ tstate x = TIMER_STATE_RUNNING;
  tok_range t a : (t, a) ∈ running tr -> INT64_MIN <= t <= INT64_MAX;
  tok_nodup : NoDup ex;
  tok_expired a : a ∈ ex <-> exists x, tm !! a = Some x /\ tstate x = TIMER_STATE_EXPIRED;
}.

Lemma sorted_nodup (l : list (Z * addr)) : sorted compare_timers l -> NoDup l.
Proof.
  induction l as [|x l IH]; [constructor|]. intros [S H]%sorted_cons. constructor; [|by apply IH].
  intros Hx. by eapply (below_irrefl compare_timers), H.
Qed.

Lemma timers_update tm tr ex a x tr' ex' :
  timers_ok tm tr ex -> holds compare_timers tr' (running tr') -> NoDup ex' ->
  (forall t b, (t, b) ∈ running tr' <-> b <> a /\ (t, b) ∈ running tr \/ b = a /\ t = absTime x /\ tstate x = TIMER_STATE_RUNNING) ->
  (forall b, b ∈ ex' <-> b <> a /\ b ∈ ex \/ b = a /\ tstate x = TIMER_STATE_EXPIRED) ->
  (tstate x = TIMER_STATE_RUNNING -> INT64_MIN <= absTime x <= INT64_MAX) ->
  timers_ok (<[a := x]> tm) tr' ex'.
Proof.
  intros [Ht Hr Hg Hn He] Ht' Hn' Hr' He' Hg'. split; try done.
  - intros t b. rewrite Hr', Hr. destruct (decide (a = b)) as [->|]; [rewrite lookup_insert_eq|rewrite lookup_insert_ne by done]; naive_solver.
  - intros t b [[_ H]|(-> & -> & H)]%Hr'; [by eapply Hg|by apply Hg'].
  - intros b. rewrite He', He. destruct (decide (a = b)) as [->|]; [rewrite lookup_insert_eq|rewrite lookup_insert_ne by done]; naive_solver.
Qed.

(** Taking a running timer out of the tree. *)
Lemma tree_remove tm tr ex a x : timers_ok tm tr ex -> tm !! a = Some x -> tstate x = TIMER_STATE_RUNNING ->
  exists tr' l1 l2, CAvl_Remove tr (absTime x, a) = Some tr' /\ running tr = l1 ++ (absTime x, a) :: l2 /\ running tr' = l1 ++ l2 /\
    holds compare_timers tr' (running tr') /\
    (forall t b, (t, b) ∈ running tr' <-> b <> a /\ (t, b) ∈ running tr).
Proof.
  intros [Ht Hr Hg Hn He] Hx Hs. assert ((absTime x, a) ∈ running tr) as Hin by (apply Hr; eauto).
  destruct (remove_holds compare_timers tr _ _ Ht Hin) as (tr' & l1 & l2 & E & El & H'). pose proof H' as (_ & El' & _).
  exists tr', l1, l2. split; [done|]. split; [done|]. split; [done|]. unfold running. rewrite El'. split; [done|]. intros t b.
  destruct Ht as (_ & _ & S). apply sorted_nodup in S. fold (running tr). rewrite El in *.
  rewrite NoDup_app, NoDup_cons in S. rewrite !elem_of_app, elem_of_cons. split.
  - intros H. assert ((t, b) <> (absTime x, a)) as Hne by (intros [= -> ->]; destruct S as (_ & S1 & S2 & _); naive_solver set_solver).
    split; [|tauto]. intros ->. assert ((t, a) ∈ l1 ++ (absTime x, a) :: l2) as (y & Hy & <- & _)%Hr by (rewrite elem_of_app, elem_of_cons; tauto).
    congruence.
  - intros [Hne [?|[[= -> ->]|?]]]; tauto.
Qed.

Lemma without_nodup a l : NoDup l -> NoDup (Pending.without a l).
Proof. apply NoDup_filter. Qed.

Lemma remove_timer_ok r a x : timers_ok r.(timers) r.(timers_tree) r.(timers_expired_list) -> r.(timers) !! a = Some x ->
  exists tr' ex', BReactor_RemoveSmallTimer r a =
      Some (set_timers (<[a := set_tstate TIMER_STATE_INACTIVE x]> r.(timers)) tr' ex' r) /\
    timers_ok (<[a := set_tstate TIMER_STATE_INACTIVE x]> r.(timers)) tr' ex'.
Proof.
  intros T Hx. unfold BReactor_RemoveSmallTimer. rewrite Hx. pose proof T as [Ht Hr Hg Hn He]. destruct (tstate x) eqn:Hs.
  - exists r.(timers_tree), r.(timers_expired_list). unfold set_tstate. rewrite <- Hs.
    assert (MkTimer (absTime x) (tstate x) (is_small x) (msTime x) = x) as -> by (by destruct x).
    rewrite insert_id by done. split; [by destruct r|done].
  - destruct (tree_remove _ _ _ a x T Hx Hs) as (tr' & l1 & l2 & -> & _ & _ & H' & Hm). exists tr', r.(timers_expired_list).
    split; [done|]. eapply timers_update; try done; cbn.
    + intros t b. rewrite Hm. naive_solver.
    + intros b. split; [|naive_solver]. intros Hb. left. split; [|done]. intros ->. apply He in Hb as (y & ? & ?). congruence.
  - assert (a ∈ r.(timers_expired_list)) as Hin by (apply He; eauto). unfold unlink. rewrite bool_decide_eq_true_2 by done.
    eexists _, _. split; [done|]. eapply timers_update; try done; cbn.
    + by apply without_nodup.
    + intros t b. split; [|naive_solver]. intros Hb. left. split; [|done]. intros ->. apply Hr in Hb as (y & ? & ? & ?). congruence.
    + intros b. rewrite Pending.elem_of_without. naive_solver.
Qed.

Lemma btime_add_clamps a b : INT64_MIN <= a <= INT64_MAX -> INT64_MIN <= b <= INT64_MAX ->
  btime_add a b = Z.max INT64_MIN (Z.min INT64_MAX (a + b)).
Proof.
  unfold btime_add, add_int64_overflows, INT64_MIN, INT64_MAX. intros Ha Hb.
  bool_cases; cbn in *; lia.
Qed.

Definition set_time (mode : timer_mode) (time now : Z) : Z :=
  match mode with BTIMER_SET_RELATIVE => btime_add now time | BTIMER_SET_ABSOLUTE => time end.

Lemma set_timer_ok r a x mode time now :
  timers_ok r.(timers) r.(timers_tree) r.(timers_expired_list) -> r.(timers) !! a = Some x ->
  INT64_MIN <= set_time mode time now <= INT64_MAX ->
  exists tr' ex', BReactor_SetSmallTimer r a mode time now =
      Some (set_timers (<[a := MkTimer (set_time mode time now) TIMER_STATE_RUNNING (is_small x) (msTime x)]> r.(timers)) tr' ex' r) /\
    timers_ok (<[a := MkTimer (set_time mode time now) TIMER_STATE_RUNNING (is_small x) (msTime x)]> r.(timers)) tr' ex'.
Proof.
  intros T Hx Hg'. unfold BReactor_SetSmallTimer. destruct (remove_timer_ok r a x T Hx) as (tr & ex & -> & T').
  cbn [timers set_timers timers_tree]. rewrite lookup_insert_eq. fold (set_time mode time now). pose proof T' as [Ht Hr Hg Hn He].
  destruct (insert_holds compare_timers tr _ (set_time mode time now, a) Ht) as (res & -> & Hres). destruct res as [tr'|].
  - destruct Hres as (l1 & l2 & El & H'). pose proof H' as (_ & El' & _). eexists _, _. cbn. rewrite !insert_insert_eq.
    split; [done|]. rewrite <- (insert_insert_eq r.(timers) a _ (set_tstate TIMER_STATE_INACTIVE x)).
    eapply timers_update; try done; cbn.
    + unfold running. by rewrite El'.
    + intros t b. unfold running at 1. rewrite El', El, !elem_of_app, elem_of_cons.
      assert ((t, b) ∈ running tr -> b <> a) as Hne.
      { intros (y & Hy & _ & Hs)%Hr ->. rewrite lookup_insert_eq in Hy. injection Hy as <-. done. }
      rewrite El, elem_of_app in Hne. naive_solver.
    + intros b. assert (b ∈ ex -> b <> a); [|naive_solver]. intros (y & Hy & Hs)%He ->.
      rewrite lookup_insert_eq in Hy. injection Hy as <-. done.
  - apply Hr in Hres as (y & Hy & _ & Hs). rewrite lookup_insert_eq in Hy. injection Hy as <-. done.
Qed.

(** *** Expiring *)

Definition timers_inv (r : BReactor) : Prop := timers_ok r.(timers) r.(timers_tree) r.(timers_expired_list).

Lemma first_timer_ok r : timers_inv r ->
  first_timer r = Some None /\ running r.(timers_tree) = [] \/
  exists a x l, first_timer r = Some (Some (a, x)) /\ r.(timers) !! a = Some x /\ tstate x = TIMER_STATE_RUNNING /\
    running r.(timers_tree) = (absTime x, a) :: l /\ (forall t b, (t, b) ∈ l -> absTime x <= t).
Proof.
  intros [Ht Hr Hg Hn He]. unfold first_timer, CAvl_GetFirst. rewrite subtree_min_head. fold (running r.(timers_tree)).
  destruct (running r.(timers_tree)) as [|[t a] l] eqn:El; [by left|right].
  destruct (proj1 (Hr t a)) as (x & Hx & <- & Hs); [by left|]. exists a, x, l. cbn [head]. rewrite Hx, bool_decide_eq_true_2 by done.
  split; [done|]. split; [done|]. split; [done|]. split; [done|]. intros u b Hb. destruct Ht as (_ & _ & [_ S]%sorted_cons).
  specialize (S _ Hb). unfold below in S. rewrite compare_timers_spec in S. destruct (Z.compare_spec (absTime x) u); lia.
Qed.

(** What moving timers to the expired list does: those of [moved], in their
    order, leave the tree. *)
Definition expired_by (moved : list (Z * addr)) (r r' : BReactor) : Prop :=
  exists tm tr, r' = set_timers tm tr (r.(timers_expired_list) ++ map snd moved) r /\ timers_inv r' /\
    running r.(timers_tree) = moved ++ running tr.

Lemma expired_by_nil r : timers_inv r -> expired_by [] r r.
Proof. intros T. exists r.(timers), r.(timers_tree). cbn. rewrite app_nil_r. split; [by destruct r|done]. Qed.

Lemma expired_by_trans m1 m2 r1 r2 r3 : expired_by m1 r1 r2 -> expired_by m2 r2 r3 -> expired_by (m1 ++ m2) r1 r3.
Proof.
  intros (tm1 & tr1 & -> & T1 & E1) (tm2 & tr2 & -> & T2 & E2). cbn in *. exists tm2, tr2. rewrite map_app, app_assoc.
  split; [done|]. split; [done|]. by rewrite E1, E2, app_assoc.
Qed.

Lemma expire_ok r a x l : timers_inv r -> r.(timers) !! a = Some x -> tstate x = TIMER_STATE_RUNNING ->
  running r.(timers_tree) = (absTime x, a) :: l ->
  exists r', expire r a x = Some r' /\ expired_by [(absTime x, a)] r r' /\ running r'.(timers_tree) = l.
Proof.
  intros T Hx Hs El. unfold expire. destruct (tree_remove _ _ _ a x T Hx Hs) as (tr' & l1 & l2 & -> & E1 & E2 & H' & Hm).
  pose proof T as [Ht Hr Hg Hn He]. destruct Ht as (_ & _ & S). rewrite E1 in S.
  destruct (sorted_split_unique compare_timers l1 (absTime x, a) l2 [] l S) as [-> ->]; [by rewrite <- E1, El|]. cbn in E2.
  assert (a ∉ r.(timers_expired_list)) as Na by (intros (y & ? & ?)%He; congruence).
  eexists. split; [done|]. split; [|done]. exists (<[a := set_tstate TIMER_STATE_EXPIRED x]> r.(timers)), tr'. cbn.
  split; [done|]. split; [|by rewrite El, E2]. eapply timers_update; try done; cbn.
  - apply NoDup_app. split; [done|]. split; [set_solver|]. apply NoDup_singleton.
  - intros t b. rewrite Hm. naive_solver.
  - intros b. rewrite elem_of_app, list_elem_of_singleton. split; [|naive_solver]. intros [Hb| ->]; [left; split; [|done]; congruence|by right].
Qed.

(** [move_expired_timers] moves exactly the timers that are due. *)
Lemma move_expired_loop_ok now : forall fuel r m, timers_inv r -> (length (running r.(timers_tree)) < fuel)%nat ->
  exists r' moved, move_expired_loop fuel r now m = Some (r', m || negb (bool_decide (moved = []))) /\ expired_by moved r r' /\
    (forall t a, (t, a) ∈ moved -> t <= now) /\ (forall t a, (t, a) ∈ running r'.(timers_tree) -> now < t).
Proof.
  induction fuel as [|fuel IH]; intros r m T Hf; [lia|]. cbn [move_expired_loop].
  destruct (first_timer_ok r T) as [[-> El]|(a & x & l & -> & Hx & Hs & El & Hl)].
  - exists r, []. rewrite bool_decide_eq_true_2, orb_false_r by done. split; [done|]. split; [by apply expired_by_nil|]. rewrite El. set_solver.
  - destruct (Z.ltb_spec now (absTime x)).
    + exists r, []. rewrite bool_decide_eq_true_2, orb_false_r by done. split; [done|]. split; [by apply expired_by_nil|]. rewrite El.
      split; [set_solver|]. intros t b [[= -> ->]|Hb]%elem_of_cons; [done|]. specialize (Hl _ _ Hb). lia.
    + destruct (expire_ok r a x l T Hx Hs El) as (r1 & -> & E1 & El1). pose proof E1 as (tm & tr & _ & T1 & _).
      destruct (IH r1 true T1) as (r' & moved & -> & E' & Hd & Hn); [rewrite El1, El in *; cbn in Hf; lia|].
      exists r', ((absTime x, a) :: moved). rewrite (bool_decide_eq_false_2 (_ :: _ = [])), orb_true_r by done. split; [done|].
      split; [by eapply (expired_by_trans [_])|]. split; [|done]. intros t b [[= -> ->]|Hb]%elem_of_cons; [lia|by eapply Hd].
Qed.

(** [move_first_timers] moves exactly the timers that have the first time. *)
Lemma move_first_loop_ok t0 : forall fuel r, timers_inv r -> (length (running r.(timers_tree)) < fuel)%nat ->
  (forall t a, (t, a) ∈ running r.(timers_tree) -> t0 <= t) ->
  exists r' moved, move_first_loop fuel r t0 = Some r' /\ expired_by moved r r' /\
    (forall t a, (t, a) ∈ moved -> t = t0) /\ (forall t a, (t, a) ∈ running r'.(timers_tree) -> t0 < t).
Proof.
  induction fuel as [|fuel IH]; intros r T Hf H0; [lia|]. cbn [move_first_loop].
  destruct (first_timer_ok r T) as [[-> El]|(a & x & l & -> & Hx & Hs & El & Hl)].
  - exists r, []. split; [done|]. split; [by apply expired_by_nil|]. rewrite El. set_solver.
  - assert (t0 <= absTime x) as Hle by (eapply H0; rewrite El; by left). rewrite (proj2 (Z.leb_le _ _)) by done.
    destruct (Z.ltb_spec t0 (absTime x)).
    + exists r, []. split; [done|]. split; [by apply expired_by_nil|]. rewrite El.
      split; [set_solver|]. intros t b [[= -> ->]|Hb]%elem_of_cons; [done|]. specialize (Hl _ _ Hb). lia.
    + destruct (expire_ok r a x l T Hx Hs El) as (r1 & -> & E1 & El1). pose proof E1 as (tm & tr & _ & T1 & _).
      destruct (IH r1 T1) as (r' & moved & -> & E' & Hd & Hn); [rewrite El1, El in *; cbn in Hf; lia| |].
      * intros t b Hb. eapply H0. rewrite El. right. by rewrite <- El1.
      * exists r', ((absTime x, a) :: moved). split; [done|].
        split; [by eapply (expired_by_trans [_])|]. split; [|done]. intros t b [[= -> ->]|Hb]%elem_of_cons; [lia|by eapply Hd].
Qed.

Lemma move_first_timers_ok r t0 a0 l0 : timers_inv r -> running r.(timers_tree) = (t0, a0) :: l0 ->
  exists r' moved, move_first_timers r = Some r' /\ expired_by moved r r' /\ moved <> [] /\
    (forall t a, (t, a) ∈ moved -> t = t0) /\ (forall t a, (t, a) ∈ running r'.(timers_tree) -> t0 < t).
Proof.
  intros T El0. unfold move_first_timers.
  destruct (first_timer_ok r T) as [[-> El]|(a & x & l & -> & Hx & Hs & El & Hl)]; [congruence|].
  rewrite El0 in El. injection El as -> -> ->.
  destruct (expire_ok r a x l T Hx Hs El0) as (r1 & -> & E1 & El1). pose proof E1 as (tm & tr & _ & T1 & _).
  destruct (move_first_loop_ok (absTime x) (tree_fuel r) r1 T1) as (r' & moved & -> & E' & Hd & Hn).
  - unfold tree_fuel. fold (running r.(timers_tree)). rewrite El1, El0. cbn. lia.
  - intros t b Hb. rewrite El1 in Hb. by eapply Hl.
  - exists r', ((absTime x, a) :: moved). split; [done|]. split; [by eapply (expired_by_trans [_])|]. split; [done|]. split; [|done].
    intros t b [[= -> ->]|Hb]%elem_of_cons; [lia|by eapply Hd].
Qed.

(** *** Limits *)

Definition counts (c : Z) (n : nat) : Prop := c = Pending.INT32_MAX \/ c = Z.of_nat n.

Lemma counter_increment c n : counts c n -> 0 <= c <= Pending.INT32_MAX ->
  exists c', Pending.DebugCounter_Increment c = Some c' /\ counts c' (S n) /\ 0 <= c' <= Pending.INT32_MAX.
Proof.
  intros H Hc. unfold Pending.DebugCounter_Increment. rewrite (proj2 (Z.leb_le _ _)) by lia.
  eexists. split; [done|]. unfold counts, Pending.INT32_MAX in *. bool_cases; lia.
Qed.

Lemma counter_decrement c n : counts c (S n) -> 0 <= c <= Pending.INT32_MAX ->
  exists c', Pending.DebugCounter_Decrement c = Some c' /\ counts c' n /\ 0 <= c' <= Pending.INT32_MAX.
Proof.
  intros H Hc. unfold Pending.DebugCounter_Decrement. rewrite (proj2 (Z.ltb_lt _ _)) by (unfold counts, Pending.INT32_MAX in *; lia).
  eexists. split; [done|]. unfold counts, Pending.INT32_MAX in *. bool_cases; lia.
Qed.

Record limits_ok (m : gmap addr BReactorLimit) (l : list addr) (c : Z) : Prop := {
  lok_values a o : m !! a = Some o -> 0 <= o.(count) /\ 0 < o.(limit);
  lok_active a : a ∈ l <-> exists o, m !! a = Some o /\ 0 < o.(count);
  lok_nodup : NoDup l;
  lok_counter : counts c (size m) /\ 0 <= c <= Pending.INT32_MAX;
}.

(** Writing one limit object, which is in the list exactly when it counts. *)
Lemma limits_update m l c a o l' c' : limits_ok m l c -> 0 <= o.(count) -> 0 < o.(limit) -> NoDup l' ->
  (forall b, b ∈ l' <-> b <> a /\ b ∈ l \/ b = a /\ 0 < o.(count)) ->
  counts c' (size (<[a := o]> m)) -> 0 <= c' <= Pending.INT32_MAX -> limits_ok (<[a := o]> m) l' c'.
Proof.
  intros [Hv Ha Hn Hc] H0 H1 Hn' Ha' Hc' Hr. split; try done.
  - intros b p. destruct (decide (a = b)) as [->|]; [rewrite lookup_insert_eq; by intros [= <-]|rewrite lookup_insert_ne by done; apply Hv].
  - intros b. rewrite Ha', Ha. destruct (decide (a = b)) as [->|]; [rewrite lookup_insert_eq|rewrite lookup_insert_ne by done]; naive_solver.
Qed.

Definition limits_inv (r : BReactor) : Prop := limits_ok r.(limits) r.(active_limits_list) r.(d_limits_ctr).

Lemma limit_init_ok r a lim : limits_inv r -> 0 < lim -> r.(limits) !! a = None ->
  exists m c, BReactorLimit_Init r a lim = Some (set_limits m r.(active_limits_list) c r) /\ limits_ok m r.(active_limits_list) c.
Proof.
  intros I Hl Ha. pose proof I as [Hv Hac Hn [Hc Hr]]. unfold BReactorLimit_Init. rewrite (proj2 (Z.ltb_lt _ _)) by done.
  destruct (counter_increment _ _ Hc Hr) as (c' & -> & Hc' & Hr'). eexists _, _. split; [done|].
  eapply limits_update; try done; cbn; try lia.
  - intros b. split; [|naive_solver lia]. intros Hb. left. split; [|done]. intros ->. apply Hac in Hb as (o & ? & _). congruence.
  - by rewrite map_size_insert_None.
Qed.

Lemma limit_free_ok r a o : limits_inv r -> r.(limits) !! a = Some o ->
  exists m l c, BReactorLimit_Free r a = Some (set_limits m l c r) /\ limits_ok m l c.
Proof.
  intros I Ha. pose proof I as [Hv Hac Hn [Hc Hr]]. unfold BReactorLimit_Free. rewrite Ha.
  assert (size r.(limits) = S (size (delete a r.(limits)))) as Es by (rewrite <- (insert_delete_id _ _ _ Ha) at 1; by rewrite map_size_insert_None by apply lookup_delete_eq).
  rewrite Es in Hc. destruct (counter_decrement _ _ Hc Hr) as (c' & -> & Hc' & Hr').
  assert ((if 0 <? count o then unlink a r.(active_limits_list) else Some r.(active_limits_list)) = Some (Pending.without a r.(active_limits_list))) as ->.
  { destruct (Z.ltb_spec 0 (count o)).
    - unfold unlink. rewrite bool_decide_eq_true_2; [done|]. apply Hac. eauto.
    - f_equal. rewrite Pending.without_notin; [done|]. intros (p & ? & ?)%Hac. simplify_eq. lia. }
  eexists _, _, _. split; [done|]. split; try done.
  - intros b p. destruct (decide (a = b)) as [->|]; [by rewrite lookup_delete_eq|rewrite lookup_delete_ne by done; apply Hv].
  - intros b. rewrite Pending.elem_of_without, Hac. destruct (decide (a = b)) as [->|]; [rewrite lookup_delete_eq|rewrite lookup_delete_ne by done]; naive_solver.
  - by apply without_nodup.
Qed.

Lemma limit_increment_ok r a o : limits_inv r -> r.(limits) !! a = Some o ->
  exists m l, BReactorLimit_Increment r a = Some (set_limits m l r.(d_limits_ctr) r, count o <? limit o) /\ limits_ok m l r.(d_limits_ctr).
Proof.
  intros I Ha. pose proof I as [Hv Hac Hn [Hc Hr]]. unfold BReactorLimit_Increment. rewrite Ha. destruct (Hv _ _ Ha).
  destruct (Z.leb_spec (limit o) (count o)); [rewrite (proj2 (Z.ltb_ge _ _)) by lia; exists r.(limits), r.(active_limits_list); split; [by destruct r|done]|].
  rewrite (proj2 (Z.ltb_lt _ _)) by lia. eexists _, _. split; [done|]. eapply limits_update; try done; cbn; try lia.
  - destruct (Z.eqb_spec (count o + 1) 1); [|done]. apply NoDup_app. split; [done|]. split; [|apply NoDup_singleton].
    intros b (p & ? & ?)%Hac ->%list_elem_of_singleton. simplify_eq. lia.
  - intros b. destruct (Z.eqb_spec (count o + 1) 1).
    + rewrite elem_of_app, list_elem_of_singleton. destruct (decide (b = a)) as [->|]; [|naive_solver].
      split; [right; split; [done|lia]|by right].
    + destruct (decide (b = a)) as [->|]; [|naive_solver]. split; [right; split; [done|lia]|intros _]. apply Hac. exists o. split; [done|lia].
  - rewrite map_size_insert_Some; [done|]. by rewrite Ha.
Qed.

Lemma limit_set_ok r a o lim : limits_inv r -> r.(limits) !! a = Some o -> 0 < lim ->
  exists m, BReactorLimit_SetLimit r a lim = Some (set_limits m r.(active_limits_list) r.(d_limits_ctr) r) /\
    limits_ok m r.(active_limits_list) r.(d_limits_ctr).
Proof.
  intros I Ha Hl. pose proof I as [Hv Hac Hn [Hc Hr]]. unfold BReactorLimit_SetLimit. rewrite Ha, (proj2 (Z.ltb_lt _ _)) by done.
  destruct (Hv _ _ Ha). eexists. split; [done|]. eapply limits_update; try done; cbn; try lia.
  - intros b. destruct (decide (b = a)) as [->|]; [|naive_solver]. rewrite Hac. naive_solver.
  - rewrite map_size_insert_Some; [done|]. by rewrite Ha.
Qed.

Lemma reset_limits_ok c : forall l m, limits_ok m l c -> exists m', reset_limits l m = Some m' /\ limits_ok m' [] c.
Proof.
  induction l as [|a l IH]; intros m I; [by eexists|]. pose proof I as [Hv Hac [Hal Hn]%NoDup_cons [Hc Hr]]. cbn [reset_limits].
  destruct (proj1 (Hac a)) as (o & Ho & Hp); [by left|]. rewrite Ho, (proj2 (Z.ltb_lt _ _)) by done. apply IH.
  destruct (Hv _ _ Ho). eapply limits_update; try done; cbn; try lia.
  - intros b. rewrite elem_of_cons. naive_solver lia.
  - rewrite map_size_insert_Some; [done|]. by rewrite Ho.
Qed.

(** *** File descriptors *)

(** The result entry an active file descriptor points to. *)
Definition flink (o : option BFileDescriptor) : option nat :=
  match o with Some f => if f.(active) then f.(epoll_returned_ptr) else None | None => None end.
Definition is_active (o : option BFileDescriptor) : bool := match o with Some f => f.(active) | None => false end.
Definition nactive (m : gmap addr BFileDescriptor) : nat := size (filter (fun x : addr * BFileDescriptor => x.2.(active) = true) m).

Record fds_ok (m : gmap addr BFileDescriptor) (c : Z) (res : list epoll_event) (pos : nat) : Prop := {
  fok_pos : (pos <= length res)%nat;
  fok_link a i : flink (m !! a) = Some i <-> (pos <= i)%nat /\ exists e, res !! i = Some e /\ e.(ptr) = Some a;
  fok_counter : counts c (nactive m) /\ 0 <= c <= Pending.INT32_MAX;
}.
Definition fds_inv (r : BReactor) : Prop := fds_ok r.(fds) r.(d_fds_counter) r.(epoll_results) r.(epoll_results_pos).

Lemma nactive_insert m a y :
  (nactive (<[a := y]> m) + (if is_active (m !! a) then 1 else 0) = nactive m + (if y.(active) then 1 else 0))%nat.
Proof.
  unfold nactive.
  assert (size (filter (fun x : addr * BFileDescriptor => x.2.(active) = true) (<[a := y]> m)) =
    size (filter (fun x : addr * BFileDescriptor => x.2.(active) = true) (delete a m)) + (if active y then 1 else 0))%nat as ->.
  { destruct (active y) eqn:Ey.
    - rewrite <- insert_delete_eq, map_filter_insert_True by done. rewrite map_size_insert_None; [lia|].
      by rewrite map_lookup_filter, lookup_delete_eq.
    - rewrite map_filter_insert_False by (cbn; congruence). lia. }
  rewrite map_filter_delete, map_size_delete, map_lookup_filter.
  destruct (m !! a) as [x|] eqn:Ex; cbn; [|lia]. destruct (active x) eqn:Ea;
    [rewrite option_guard_True by done|rewrite option_guard_False by done]; cbn; [|lia].
  assert (size (filter (fun x : addr * BFileDescriptor => x.2.(active) = true) m) <> 0)%nat; [|lia].
  intros E0%map_size_empty_inv. assert (filter (fun x : addr * BFileDescriptor => x.2.(active) = true) m !! a = Some x) as E1 by (by apply map_lookup_filter_Some).
  by rewrite E0, lookup_empty in E1.
Qed.

(** Writing a descriptor that keeps its entry. *)
Lemma fds_update m c res pos a y c' : fds_ok m c res pos -> flink (Some y) = flink (m !! a) ->
  counts c' (nactive (<[a := y]> m)) -> 0 <= c' <= Pending.INT32_MAX -> fds_ok (<[a := y]> m) c' res pos.
Proof.
  intros [Hp Hl Hc] Hy Hc' Hr. split; try done. intros b i. rewrite <- Hl.
  destruct (decide (a = b)) as [->|]; [by rewrite lookup_insert_eq, Hy|by rewrite lookup_insert_ne].
Qed.

Lemma fds_keep m c res pos a y : fds_ok m c res pos -> flink (Some y) = flink (m !! a) -> y.(active) = is_active (m !! a) ->
  fds_ok (<[a := y]> m) c res pos.
Proof.
  intros I Hy Ha. pose proof I as [_ _ [Hc Hr]]. eapply fds_update; try done.
  pose proof (nactive_insert m a y) as E. rewrite Ha in E. destruct (is_active (m !! a)); by replace (nactive (<[a := y]> m)) with (nactive m) by lia.
Qed.

Lemma fd_init_ok r a n : fds_inv r -> is_active (r.(fds) !! a) = false ->
  fds_ok (<[a := MkFd n false 0 None]> r.(fds)) r.(d_fds_counter) r.(epoll_results) r.(epoll_results_pos).
Proof. intros I Ha. apply fds_keep; [done| |done]. unfold flink, is_active in *. cbn. by destruct (fds r !! a) as [x|]; [rewrite Ha|]. Qed.

Lemma fd_add_ok r a f ctl : fds_inv r -> r.(fds) !! a = Some f -> f.(active) = false ->
  exists m c, BReactor_AddFileDescriptor r a ctl = Some (set_fds m c r, ctl) /\ fds_ok m c r.(epoll_results) r.(epoll_results_pos).
Proof.
  intros I Hf Ha. pose proof I as [_ _ [Hc Hr]]. unfold BReactor_AddFileDescriptor. rewrite Hf, Ha. cbn [negb].
  destruct ctl; cbn [negb]; [|exists r.(fds), r.(d_fds_counter); split; [by destruct r|done]].
  destruct (counter_increment _ _ Hc Hr) as (c & -> & Hc' & Hr'). eexists _, _. split; [done|]. eapply fds_update; try done.
  - rewrite Hf. cbn. by rewrite Ha.
  - pose proof (nactive_insert r.(fds) a (MkFd f.(fd) true 0 None)) as E. rewrite Hf in E. cbn in E. rewrite Ha in E.
    by replace (nactive _) with (S (nactive r.(fds))) by lia.
Qed.

Lemma fd_remove_ok r a f : fds_inv r -> r.(fds) !! a = Some f -> f.(active) = true ->
  exists m c res, BReactor_RemoveFileDescriptor r a true = Some (set_results res r.(epoll_results_pos) (set_fds m c r)) /\
    fds_ok m c res r.(epoll_results_pos).
Proof.
  intros I Hf Ha. pose proof I as [Hp Hl [Hc Hr]]. unfold BReactor_RemoveFileDescriptor. rewrite Hf, Ha.
  set (y := MkFd f.(fd) false f.(waitEvents) f.(epoll_returned_ptr)).
  pose proof (nactive_insert r.(fds) a y) as E. rewrite Hf in E. cbn in E. rewrite Ha in E.
  replace (nactive r.(fds)) with (S (nactive (<[a := y]> r.(fds)))) in Hc by lia.
  destruct (counter_decrement _ _ Hc Hr) as (c & -> & Hc' & Hr'). cbn [epoll_results set_fds].
  destruct (epoll_returned_ptr f) as [i|] eqn:Ei.
  - destruct (proj1 (Hl a i)) as (Hi & e & He & Hpa); [rewrite Hf; cbn; by rewrite Ha|]. rewrite He. eexists _, _, _. split; [done|].
    split; [by rewrite length_insert| |done]. intros b j. destruct (decide (a = b)) as [<-|Hne].
    + rewrite lookup_insert_eq. cbn. split; [done|]. intros (Hj & e' & He' & Hp').
      destruct (decide (i = j)) as [<-|]; [rewrite list_lookup_insert_eq in He' by (by eapply lookup_lt_Some); by injection He' as <-|].
      rewrite list_lookup_insert_ne in He' by done. assert (flink (fds r !! a) = Some j) as Hj' by (apply Hl; eauto).
      rewrite Hf in Hj'. cbn in Hj'. rewrite Ha in Hj'. congruence.
    + rewrite lookup_insert_ne, Hl by done. destruct (decide (i = j)) as [<-|]; [|by rewrite list_lookup_insert_ne].
      rewrite list_lookup_insert_eq by (by eapply lookup_lt_Some). rewrite He. naive_solver.
  - exists (<[a := y]> r.(fds)), c, r.(epoll_results). split; [by destruct r|]. eapply fds_update; try done. rewrite Hf. cbn. by rewrite Ha.
Qed.

Lemma fd_events_ok r a f ev : fds_inv r -> r.(fds) !! a = Some f -> f.(active) = true ->
  Z.land ev (Z.lnot (Z.lor BREACTOR_READ BREACTOR_WRITE)) = 0 ->
  exists m, BReactor_SetFileDescriptorEvents r a ev true = Some (set_fds m r.(d_fds_counter) r) /\
    fds_ok m r.(d_fds_counter) r.(epoll_results) r.(epoll_results_pos).
Proof.
  intros I Hf Ha Hev. unfold BReactor_SetFileDescriptorEvents. rewrite Hf, Ha, Hev. cbn.
  destruct (Z.eqb_spec (waitEvents f) ev); [exists r.(fds); split; [by destruct r|done]|].
  eexists. split; [done|]. apply fds_keep; [done| |]; rewrite Hf; cbn; by rewrite Ha.
Qed.

(** An entry is taken from the results. *)
Lemma fd_skip_ok r e : fds_inv r -> r.(epoll_results) !! r.(epoll_results_pos) = Some e -> e.(ptr) = None ->
  fds_ok r.(fds) r.(d_fds_counter) r.(epoll_results) (S r.(epoll_results_pos)).
Proof.
  intros [Hp Hl Hc] He Hn. split; [by apply lookup_lt_Some in He| |done]. intros a i. rewrite Hl. split; intros [Hi (e' & He' & Hp')].
  - split; [|eauto]. destruct (decide (i = r.(epoll_results_pos))) as [->|]; [congruence|lia].
  - split; [lia|eauto].
Qed.

Lemma fd_take_ok r e a : fds_inv r -> r.(epoll_results) !! r.(epoll_results_pos) = Some e -> e.(ptr) = Some a ->
  exists f, r.(fds) !! a = Some f /\ f.(active) = true /\ f.(epoll_returned_ptr) = Some r.(epoll_results_pos) /\
    fds_ok (<[a := MkFd f.(fd) true f.(waitEvents) None]> r.(fds)) r.(d_fds_counter) r.(epoll_results) (S r.(epoll_results_pos)).
Proof.
  intros I He Ha. pose proof I as [Hp Hl [Hc Hr]]. assert (flink (fds r !! a) = Some r.(epoll_results_pos)) as Hk by (apply Hl; eauto).
  destruct (fds r !! a) as [f|] eqn:Hf; [|done]. cbn in Hk. destruct (active f) eqn:Hac; [|done]. exists f.
  split; [done|]. split; [done|]. split; [done|]. split; [by apply lookup_lt_Some in He| |].
  - intros b i. destruct (decide (a = b)) as [<-|Hne].
    + rewrite lookup_insert_eq. cbn. split; [done|]. intros (Hi & e' & He' & Hp').
      assert (flink (fds r !! a) = Some i) as Hk' by (apply Hl; split; [lia|eauto]). rewrite Hf in Hk'. cbn in Hk'. rewrite Hac in Hk'.
      rewrite Hk in Hk'. injection Hk' as Hk'. lia.
    + rewrite lookup_insert_ne, Hl by done. split; intros [Hi (e' & He' & Hp')]; (split; [|eauto]); [|lia].
      destruct (decide (i = r.(epoll_results_pos))) as [->|]; [congruence|lia].
  - pose proof (nactive_insert r.(fds) a (MkFd f.(fd) true f.(waitEvents) None)) as E. rewrite Hf in E. cbn in E. rewrite Hac in E.
    split; [|done]. by replace (nactive _) with (nactive r.(fds)) by lia.
Qed.

(** When every entry has been taken, no descriptor points to one. *)
Lemma fd_clear_ok m c res : fds_ok m c res (length res) -> fds_ok m c [] 0.
Proof.
  intros [Hp Hl Hc]. split; [done| |done]. intros a i. rewrite Hl. split; intros [Hi (e & He & _)]; [apply lookup_lt_Some in He; lia|done].
Qed.

(** What [epoll_wait] may return: some registered descriptors, each once. *)
Definition ready_ok (m : gmap addr BFileDescriptor) (l : list epoll_event) : bool :=
  (0 <? length l)%nat && (length l <=? BSYSTEM_MAX_RESULTS)%nat && bool_decide (NoDup (map ptr l)) &&
  forallb (fun e => match e.(ptr) with Some a => is_active (m !! a) | None => false end) l.

Lemma set_pointers_ok c : forall l m done, fds_ok m c done 0 -> NoDup (map ptr l) ->
  (forall e, e ∈ l -> exists a f, e.(ptr) = Some a /\ m !! a = Some f /\ f.(active) = true /\ f.(epoll_returned_ptr) = None) ->
  exists m', set_epoll_fd_pointers (length done) l m = Some m' /\ fds_ok m' c (done ++ l) 0.
Proof.
  induction l as [|e l IH]; intros m done I ND Hall; [rewrite app_nil_r; by eexists|]. cbn [set_epoll_fd_pointers map] in *.
  apply NoDup_cons in ND as [Ne ND]. destruct (Hall e) as (a & f & Ea & Hf & Hac & Hn); [by left|].
  rewrite Ea, Hf, Hac, bool_decide_eq_true_2 by done. pose proof I as [Hp Hl [Hc Hr]].
  destruct (IH (<[a := MkFd f.(fd) true f.(waitEvents) (Some (length done))]> m) (done ++ [e])) as (m' & Em & I').
  - split; [lia| |].
    + intros b i. destruct (decide (a = b)) as [<-|Hne].
      * rewrite lookup_insert_eq. cbn. split.
        -- intros [= <-]. split; [lia|]. exists e. split; [|done]. rewrite lookup_app_r by lia. by rewrite Nat.sub_diag.
        -- intros (_ & e' & He' & Hp'). apply lookup_app_Some in He' as [He'|[Hge He']].
           { assert (flink (m !! a) = Some i) as Hk by (apply Hl; split; [lia|eauto]). rewrite Hf in Hk. cbn in Hk. rewrite Hac, Hn in Hk. done. }
           apply list_lookup_singleton_Some in He' as [He' _]. f_equal. lia.
      * rewrite lookup_insert_ne, Hl by done. split; intros [Hi (e' & He' & Hp')]; (split; [lia|]).
        -- exists e'. split; [|done]. by apply lookup_app_l_Some.
        -- apply lookup_app_Some in He' as [He'|[Hge He']]; [eauto|]. apply list_lookup_singleton_Some in He' as [_ <-]. congruence.
    + pose proof (nactive_insert m a (MkFd f.(fd) true f.(waitEvents) (Some (length done)))) as E. rewrite Hf in E. cbn in E.
      rewrite Hac in E. split; [|done]. by replace (nactive _) with (nactive m) by lia.
  - done.
  - intros e' He'. destruct (Hall e') as (b & g & Eb & Hg & Hgc & Hgn); [by right|]. exists b, g. rewrite lookup_insert_ne; [done|].
    intros <-. apply Ne. rewrite Ea, <- Eb. by apply list_elem_of_fmap_2.
  - exists m'. rewrite <- app_assoc in I'. split; [|done]. rewrite <- Em, length_app. cbn. by rewrite Nat.add_1_r.
Qed.

Lemma ready_pointers_ok m c l : fds_ok m c [] 0 -> ready_ok m l = true ->
  exists m', set_epoll_fd_pointers 0 l m = Some m' /\ fds_ok m' c l 0 /\ (length l <=? BSYSTEM_MAX_RESULTS)%nat = true.
Proof.
  intros I. unfold ready_ok. rewrite !andb_true_iff, bool_decide_eq_true, forallb_forall. intros (((_ & Hlen) & ND) & Hall).
  destruct (set_pointers_ok c l m [] I ND) as (m' & E & I'); [|by exists m'].
  intros e He. apply list_elem_of_In in He. specialize (Hall e He). destruct (ptr e) as [a|]; [|done]. destruct (m !! a) as [f|] eqn:Hf; [|done].
  exists a, f. split; [done|]. split; [done|]. split; [done|]. destruct I as [_ Hl _]. destruct (epoll_returned_ptr f) as [i|] eqn:Ei; [|done].
  destruct (proj1 (Hl a i)) as (_ & e' & He' & _); [|done]. rewrite Hf. cbn in *. by rewrite Hall.
Qed.

(** *** The calls handlers make *)

Definition jobs_ok (j : Pending.stack) : Prop := forall a, a ∈ j.(Pending.order) -> is_Some (j.(Pending.handlers) !! a).

Lemma jobs_step_ok j c j' o : jobs_ok j -> Pending.spec_step j c = Some (j', o) -> jobs_ok j'.
Proof.
  intros J E. unfold jobs_ok in *. destruct c; cbn in E.
  - case_bool_decide; [|done]. injection E as <- <-. cbn. intros b Hb.
    destruct (decide (a = b)) as [->|]; [by rewrite lookup_insert_eq|rewrite lookup_insert_ne by done; by apply J].
  - destruct (Pending.handlers j !! a) eqn:Ha; [|done]. injection E as <- <-. cbn. intros b [Hb Hne]%Pending.elem_of_without.
    rewrite lookup_delete_ne by done. by apply J.
  - destruct (Pending.handlers j !! a) eqn:Ha; [|done]. injection E as <- <-. cbn. intros b Hb.
    destruct (decide (a = b)) as [->|]; [by rewrite lookup_insert_eq|rewrite lookup_insert_ne by done; by apply J].
  - destruct (Pending.handlers j !! a) eqn:Ha; [|done]. injection E as <- <-. cbn. intros b [->|[Hb _]%Pending.elem_of_without]%elem_of_cons; [done|by apply J].
  - destruct (Pending.handlers j !! a) eqn:Ha; [|done]. injection E as <- <-. cbn. intros b [Hb _]%Pending.elem_of_without. by apply J.
  - destruct (Pending.handlers j !! a) eqn:Ha; [|done]. by injection E as <- <-.
  - destruct (Pending.order j) as [|a l]; [done|]. destruct (Pending.handlers j !! a); [|done]. injection E as <- <-. cbn.
    intros b Hb. apply J. by right.
Qed.

Lemma jobs_execute_ok j a l : jobs_ok j -> j.(Pending.order) = a :: l ->
  exists h, j.(Pending.handlers) !! a = Some h /\
    Pending.spec_step j Pending.CExecute = Some (Pending.Stack l j.(Pending.handlers), Pending.ORun h) /\
    jobs_ok (Pending.Stack l j.(Pending.handlers)).
Proof.
  intros J El. destruct (J a) as [h Hh]; [rewrite El; by left|]. exists h. split; [done|].
  assert (Pending.spec_step j Pending.CExecute = Some (Pending.Stack l (Pending.handlers j), Pending.ORun h)) as E by (cbn; by rewrite El, Hh).
  split; [done|]. by eapply jobs_step_ok.
Qed.

Record inv (r : BReactor) : Prop := {
  inv_jobs : jobs_ok r.(pending_jobs);
  inv_timers : timers_inv r;
  inv_limits : limits_inv r;
  inv_fds : fds_inv r;
}.

Inductive rcall :=
  | RJob (c : Pending.call)
  | RSmallTimerInit (a : addr) (x : Z) | RTimerInit (a : addr) (x ms : Z)
  | RSetSmallTimer (a : addr) (mode : timer_mode) (time now : Z) | RSetTimer (a : addr) (now : Z)
  | RRemoveTimer (a : addr)
  | RLimitInit (a : addr) (lim : Z) | RLimitFree (a : addr) | RLimitIncrement (a : addr) | RLimitSet (a : addr) (lim : Z)
  | RFdInit (a : addr) (n : Z) | RFdAdd (a : addr) (ctl : bool) | RFdRemove (a : addr) | RFdEvents (a : addr) (ev : Z)
  | RQuit (code : Z).

Definition in_int64 (t : Z) : bool := (INT64_MIN <=? t) && (t <=? INT64_MAX).
Definition timer_idle (r : BReactor) (a : addr) : bool :=
  match r.(timers) !! a with Some x => bool_decide (x.(tstate) = TIMER_STATE_INACTIVE) | None => true end.

(** What the callers have to respect: objects are initialized before they are
    used and are not initialized again while they are in use; times are 64-bit
    numbers; jobs are executed by the event loop only. *)
Definition legal_call (r : BReactor) (c : rcall) : bool :=
  match c with
  | RJob Pending.CExecute => false
  | RJob c => bool_decide (is_Some (Pending.spec_step r.(pending_jobs) c))
  | RSmallTimerInit a _ => timer_idle r a
  | RTimerInit a _ ms => timer_idle r a && in_int64 ms
  | RSetSmallTimer a _ time now => bool_decide (is_Some (r.(timers) !! a)) && in_int64 time && in_int64 now
  | RSetTimer a now => match r.(timers) !! a with Some x => in_int64 x.(msTime) | None => false end && in_int64 now
  | RRemoveTimer a => bool_decide (is_Some (r.(timers) !! a))
  | RLimitInit a lim => bool_decide (r.(limits) !! a = None) && (0 <? lim)
  | RLimitFree a | RLimitIncrement a => bool_decide (is_Some (r.(limits) !! a))
  | RLimitSet a lim => bool_decide (is_Some (r.(limits) !! a)) && (0 <? lim)
  | RFdInit a _ => negb (is_active (r.(fds) !! a))
  | RFdAdd a _ => bool_decide (is_Some (r.(fds) !! a)) && negb (is_active (r.(fds) !! a))
  | RFdRemove a => is_active (r.(fds) !! a)
  | RFdEvents a ev => is_active (r.(fds) !! a) && (Z.land ev (Z.lnot (Z.lor BREACTOR_READ BREACTOR_WRITE)) =? 0)
  | RQuit _ => true
  end.

(** [epoll_ctl] succeeds on registered descriptors, as the code asserts. *)
Definition call_step (r : BReactor) (c : rcall) : option BReactor :=
  match c with
  | RJob c => LET (j, _) <- Pending.spec_step r.(pending_jobs) c in Some (set_jobs j r)
  | RSmallTimerInit a x => Some (BSmallTimer_Init r a x)
  | RTimerInit a x ms => Some (BTimer_Init r a x ms)
  | RSetSmallTimer a mode time now => BReactor_SetSmallTimer r a mode time now
  | RSetTimer a now => BReactor_SetTimer r a now
  | RRemoveTimer a => BReactor_RemoveSmallTimer r a
  | RLimitInit a lim => BReactorLimit_Init r a lim
  | RLimitFree a => BReactorLimit_Free r a
  | RLimitIncrement a => LET (r, _) <- BReactorLimit_Increment r a in Some r
  | RLimitSet a lim => BReactorLimit_SetLimit r a lim
  | RFdInit a n => Some (BFileDescriptor_Init r a n)
  | RFdAdd a ctl => LET (r, _) <- BReactor_AddFileDescriptor r a ctl in Some r
  | RFdRemove a => BReactor_RemoveFileDescriptor r a true
  | RFdEvents a ev => BReactor_SetFileDescriptorEvents r a ev true
  | RQuit code => Some (BReactor_Quit r code)
  end.

Lemma in_int64_true t : in_int64 t = true <-> INT64_MIN <= t <= INT64_MAX.
Proof. unfold in_int64. rewrite andb_true_iff, !Z.leb_le. tauto. Qed.

Lemma set_time_range mode time now : in_int64 time = true -> in_int64 now = true -> INT64_MIN <= set_time mode time now <= INT64_MAX.
Proof.
  rewrite !in_int64_true. intros Ht Hn. destruct mode; cbn [set_time]; [done|]. rewrite btime_add_clamps by done. unfold INT64_MIN, INT64_MAX in *. lia.
Qed.

Lemma idle_timer_ok r a x : timers_inv r -> timer_idle r a = true -> tstate x = TIMER_STATE_INACTIVE ->
  timers_ok (<[a := x]> r.(timers)) r.(timers_tree) r.(timers_expired_list).
Proof.
  intros T Hi Hx. unfold timer_idle in Hi. pose proof T as [Ht Hr Hg Hn He]. eapply timers_update; try done.
  - intros t b. assert ((t, b) ∈ running r.(timers_tree) -> b <> a) as Hne; [|rewrite Hx; split; [by auto|intros [[_ ?]|(_ & _ & ?)]; done]]. intros (y & Hy & _ & Hs)%Hr ->.
    rewrite Hy, bool_decide_eq_true in Hi. congruence.
  - intros b. assert (b ∈ r.(timers_expired_list) -> b <> a) as Hne; [|rewrite Hx; split; [by auto|intros [[_ ?]|[_ ?]]; done]]. intros (y & Hy & Hs)%He ->.
    rewrite Hy, bool_decide_eq_true in Hi. congruence.
  - congruence.
Qed.

Lemma set_jobs_inv r j : inv r -> jobs_ok j -> inv (set_jobs j r).
Proof. intros [_ T L F] J. by constructor. Qed.
Lemma set_timers_inv r tm tr ex : inv r -> timers_ok tm tr ex -> inv (set_timers tm tr ex r).
Proof. intros [J _ L F] T. by constructor. Qed.
Lemma set_limits_inv r m l c : inv r -> limits_ok m l c -> inv (set_limits m l c r).
Proof. intros [J T _ F] L. by constructor. Qed.
Lemma set_fds_inv r m c : inv r -> fds_ok m c r.(epoll_results) r.(epoll_results_pos) -> inv (set_fds m c r).
Proof. intros [J T L _] F. by constructor. Qed.
Lemma set_results_inv r m c res pos : inv r -> fds_ok m c res pos -> inv (set_results res pos (set_fds m c r)).
Proof. intros [J T L _] F. by constructor. Qed.
#[local] Hint Resolve set_jobs_inv set_timers_inv set_limits_inv set_fds_inv set_results_inv : core.

Lemma active_fd r a : is_active (r.(fds) !! a) = true -> exists f, r.(fds) !! a = Some f /\ f.(active) = true.
Proof. destruct (fds r !! a) as [f|]; [by exists f|done]. Qed.

Lemma call_ok r c : inv r -> legal_call r c = true -> exists r', call_step r c = Some r' /\ inv r'.
Proof.
  intros I. pose proof I as [J T L F]. destruct c; cbn [legal_call call_step]; intros Hl; rewrite ?andb_true_iff, ?bool_decide_eq_true, ?Z.ltb_lt, ?Z.eqb_eq in Hl.
  - assert (is_Some (Pending.spec_step r.(pending_jobs) c)) as [[j o] E] by (destruct c; try done; by apply bool_decide_eq_true in Hl).
    rewrite E. eexists. split; [done|]. apply set_jobs_inv; [done|]. by eapply jobs_step_ok.
  - eexists. split; [done|]. apply set_timers_inv; [done|]. by apply idle_timer_ok.
  - destruct Hl as [Hl _]. eexists. split; [done|]. apply set_timers_inv; [done|]. by apply idle_timer_ok.
  - destruct Hl as (([x Hx] & Ht) & Hn). destruct (set_timer_ok r a x mode time now T Hx (set_time_range _ _ _ Ht Hn)) as (tr & ex & -> & T'). eauto.
  - destruct Hl as (Ht & Hn). unfold BReactor_SetTimer. destruct (timers r !! a) as [x|] eqn:Hx; [|done].
    destruct (set_timer_ok r a x BTIMER_SET_RELATIVE (msTime x) now T Hx (set_time_range _ _ _ Ht Hn)) as (tr & ex & -> & T'). eauto.
  - destruct Hl as [x Hx]. destruct (remove_timer_ok r a x T Hx) as (tr & ex & -> & T'). eauto.
  - destruct Hl as [Ha Hlim]. destruct (limit_init_ok r a lim L Hlim Ha) as (m & c & -> & L'). eauto.
  - destruct Hl as [o Ho]. destruct (limit_free_ok r a o L Ho) as (m & l & c & -> & L'). eauto.
  - destruct Hl as [o Ho]. destruct (limit_increment_ok r a o L Ho) as (m & l & -> & L'). eauto.
  - destruct Hl as [[o Ho] Hlim]. destruct (limit_set_ok r a o lim L Ho Hlim) as (m & -> & L'). eauto.
  - apply negb_true_iff in Hl. eexists. split; [done|]. apply set_fds_inv; [done|]. by apply fd_init_ok.
  - destruct Hl as [[f Hf] Ha%negb_true_iff]. rewrite Hf in Ha. destruct (fd_add_ok r a f ctl F Hf Ha) as (m & c & -> & F'). eauto.
  - destruct (active_fd r a Hl) as (f & Hf & Ha). destruct (fd_remove_ok r a f F Hf Ha) as (m & c & res & -> & F'). eauto.
  - destruct Hl as [Ha Hev]. destruct (active_fd r a Ha) as (f & Hf & Hac). destruct (fd_events_ok r a f ev F Hf Hac Hev) as (m & -> & F'). eauto.
  - by eexists.
Qed.

(** *** Waiting *)

(** The time of the first running timer. *)
Definition first_time (r : BReactor) : option Z := fst <$> head (running r.(timers_tree)).
Definition due (t0 : option Z) (now : Z) : bool := match t0 with Some t => t <=? now | None => false end.

(** [epoll_wait] that was called at [now] may return 0 at [t]: it was given a
    timeout, and the timeout has passed. *)
Definition may_time_out (timeout now t : Z) : bool := (0 <=? timeout) && (now + timeout <=? t).

(** What the system may answer: time does not go back, [epoll_wait] returns 0
    only when the timeout it was given allows it, and the events are those of
    registered descriptors. *)
Fixpoint legal_answers (m : gmap addr BFileDescriptor) (t0 : option Z) (now : Z) (answers : list answer) : bool :=
  match answers with
  | [] => true
  | WaitError :: _ => false
  | Interrupted t :: answers => (now <=? t) && (t <=? INT64_MAX) && legal_answers m t0 t answers
  | TimedOut t :: answers =>
      match relative_timeout t0 now with
      | Some (_, trunc) => may_time_out (epoll_timeout t0 trunc) now t
      | None => true
      end && (now <=? t) && (t <=? INT64_MAX) && legal_answers m t0 t answers
  | Ready l :: _ => ready_ok m l
  end.

Definition legal_round (r : BReactor) (now : Z) (answers : list answer) : bool :=
  (0 <=? now) && (now <=? INT64_MAX) && legal_answers r.(fds) (first_time r) now answers.

(** The time at which a wait ends, or which the last answer shows. *)
Fixpoint wake_time (t0 : option Z) (now : Z) (answers : list answer) : Z :=
  if due t0 now then now
  else match answers with
       | (Interrupted t | TimedOut t) :: answers => wake_time t0 t answers
       | _ => now
       end.

(** The timeout of a wait at [T]: it ends with the first timer, or earlier if
    that is too far away for an [int]. *)
Definition timeout_until (t0 : option Z) (T timeout : Z) : Prop :=
  match t0 with Some t => timeout = Z.min INT_MAX (t - T) | None => timeout = -1 end.

(** What ends a wait: the first timers are due, or there are events. *)
Inductive wait_outcome (r : BReactor) (t0 : option Z) (T : Z) : wait_result -> Prop :=
  | Wait_goes_on timeout : due t0 T = false -> timeout_until t0 T timeout -> wait_outcome r t0 T (Waiting r timeout)
  | Wait_timer r' moved : due t0 T = true -> moved <> [] -> expired_by moved r r' ->
      (forall t a, (t, a) ∈ moved -> t <= T) -> (forall t a u b, (t, a) ∈ moved -> (u, b) ∈ running r'.(timers_tree) -> t < u) ->
      wait_outcome r t0 T (Woken r')
  | Wait_events l m : l <> [] -> fds_ok m r.(d_fds_counter) l 0 ->
      wait_outcome r t0 T (Woken (set_results l 0 (set_fds m r.(d_fds_counter) r))).

Lemma try_again_ok r now : timers_inv r ->
  exists e, try_again r (first_time r) now = Some e /\
    match e with
    | None => due (first_time r) now = false
    | Some r' => due (first_time r) now = true /\ wait_outcome r (first_time r) now (Woken r')
    end.
Proof.
  intros T. unfold try_again. destruct (first_time r) as [t0|] eqn:E0; [|by eexists]. cbn [due]. destruct (Z.leb_spec t0 now); [|by eexists].
  unfold first_time in E0. destruct (running r.(timers_tree)) as [|[t a] l] eqn:El; [done|]. injection E0 as <-.
  destruct (move_first_timers_ok r t a l T El) as (r' & moved & -> & E' & Hne & Hm & Hr). eexists. split; [done|].
  assert (due (Some t) now = true) as Hd by (by apply Z.leb_le). split; [done|]. eapply Wait_timer; try done.
  - intros u b ->%Hm. lia.
  - intros u b v c ->%Hm Hv. by eapply Hr.
Qed.

Lemma relative_timeout_ok r now : timers_inv r -> 0 <= now -> now <= INT64_MAX -> due (first_time r) now = false ->
  exists rel trunc, relative_timeout (first_time r) now = Some (rel, trunc) /\
    timeout_until (first_time r) now (epoll_timeout (first_time r) trunc) /\
    (forall t0, first_time r = Some t0 -> rel = t0 - now /\ trunc = Z.min INT_MAX rel).
Proof.
  intros [_ _ Hg _ _] H0 H1 Hd. unfold relative_timeout, first_time in *. destruct (running r.(timers_tree)) as [|[t a] l]; cbn in *; [by eexists _, _|].
  destruct (Hg t a) as [_ Ht]; [by left|]. apply Z.leb_gt in Hd. unfold btime_sub, INT64_MIN, INT64_MAX in *.
  rewrite !(proj2 (Z.leb_le _ _)) by lia. eexists _, _. split; [done|]. split; [bool_cases; lia|]. intros t0 [= <-]. split; [done|]. bool_cases; lia.
Qed.

Lemma wait_loop_ok r : timers_inv r -> fds_ok r.(fds) r.(d_fds_counter) [] 0 -> forall answers now,
  0 <= now -> now <= INT64_MAX -> due (first_time r) now = false -> legal_answers r.(fds) (first_time r) now answers = true ->
  exists w, wait_loop r (first_time r) now answers = Some w /\ wait_outcome r (first_time r) (wake_time (first_time r) now answers) w.
Proof.
  intros T F. induction answers as [|ans answers IH]; intros now H0 H1 Hd Hl;
    destruct (relative_timeout_ok r now T H0 H1 Hd) as (rel & trunc & Er & Hu & Ht); cbn [wait_loop wake_time]; rewrite Er, Hd.
  - eexists. split; [done|]. by apply Wait_goes_on.
  - assert (forall t, now <= t -> t <= INT64_MAX -> legal_answers r.(fds) (first_time r) t answers = true ->
      exists w, (LET e <- try_again r (first_time r) t in
         match e with Some r' => Some (Woken r') | None => wait_loop r (first_time r) t answers end) = Some w /\
        wait_outcome r (first_time r) (wake_time (first_time r) t answers) w) as Again.
    { intros t Hn Hm Hl'. destruct (try_again_ok r t T) as ([r'|] & -> & He).
      - destruct He as [Ht' He]. eexists. split; [done|].
        destruct answers; cbn [wake_time]; by rewrite Ht'.
      - apply IH; [lia|done|done|done]. }
    destruct ans as [t|t|l|]; cbn [legal_answers] in Hl; [| | |done]; rewrite ?andb_true_iff, ?Z.leb_le in Hl.
    + destruct Hl as ((? & ?) & ?). by apply Again.
    + destruct Hl as (((Hto & ?) & ?) & ?). rewrite Er in Hto. apply andb_true_iff in Hto as [Hpos Hto].
      destruct (first_time r) as [t0|] eqn:E0; [|done]. destruct (Ht t0 eq_refl) as [-> ->]. apply Z.leb_le in Hto. cbn [epoll_timeout] in Hto.
      destruct (Z.eqb_spec (Z.min INT_MAX (t0 - now)) (t0 - now)); [|by apply Again].
      assert (due (Some t0) t = true) as Hdt by (apply Z.leb_le; lia). destruct (try_again_ok r t T) as (res & Ee & He).
      rewrite E0 in Ee, He. unfold try_again in Ee. unfold due in Hdt. rewrite Hdt in Ee.
      destruct (move_first_timers r) as [r'|]; [|done]. injection Ee as <-. destruct He as [_ He]. eexists. split; [done|].
      destruct answers; cbn [wake_time]; unfold due; by rewrite Hdt.
    + destruct (ready_pointers_ok _ _ _ F Hl) as (m & -> & F' & ->). eexists. split; [done|]. apply Wait_events; [|done]. intros ->. done.
Qed.

Definition idle (r : BReactor) : Prop :=
  r.(pending_jobs).(Pending.order) = [] /\ r.(timers_expired_list) = [] /\ r.(epoll_results_pos) = length r.(epoll_results).

(** What a wait from [r] that ends at [T] leads to. *)
Definition woken (r : BReactor) (T : Z) (r' : BReactor) : Prop :=
  exists moved, running r.(timers_tree) = moved ++ running r'.(timers_tree) /\ r'.(timers_expired_list) = map snd moved /\
    (forall t a, (t, a) ∈ moved -> t <= T) /\ (forall t a u b, (t, a) ∈ moved -> (u, b) ∈ running r'.(timers_tree) -> t < u) /\
    (moved = [] -> r'.(epoll_results) <> []).

Definition wait_spec (r : BReactor) (T : Z) (w : wait_result) : Prop :=
  match w with
  | Woken r' => inv r' /\ woken r T r'
  | Waiting r' timeout => inv r' /\ running r'.(timers_tree) = running r.(timers_tree) /\ idle r' /\ due (first_time r) T = false /\
      timeout_until (first_time r) T timeout
  end.

Lemma expired_inv moved r r' : inv r -> expired_by moved r r' -> inv r'.
Proof. intros I (tm & tr & -> & T & _). by apply set_timers_inv. Qed.

Lemma finish_wait_ok r w T : inv r -> idle r -> r.(epoll_results) = [] -> wait_outcome r (first_time r) T w ->
  exists w', finish_wait w = Some w' /\ wait_spec r T w'.
Proof.
  intros I (Ho & Hx & Hp) Er H. assert (forall r1, inv r1 -> woken r T r1 -> exists w', finish_wait (Woken r1) = Some w' /\ wait_spec r T w') as Fin.
  { intros r1 I1 W. unfold finish_wait. destruct (reset_limits_ok _ _ _ (inv_limits _ I1)) as (m & -> & L).
    eexists. split; [done|]. split; [by apply set_limits_inv|done]. }
  destruct H as [timeout Hd Hu|r' moved Hd Hne E Hm Hr|l m Hl F].
  - exists (Waiting r timeout). done.
  - apply Fin; [by eapply expired_inv|]. destruct E as (tm & tr & -> & T' & Et). exists moved. cbn in *. rewrite Hx in *. done.
  - apply Fin; [by apply set_results_inv|]. exists []. cbn. split; [done|]. split; [done|]. split; [set_solver|]. split; [set_solver|done].
Qed.

Lemma first_time_due r now : timers_inv r -> (forall t a, (t, a) ∈ running r.(timers_tree) -> now < t) -> due (first_time r) now = false.
Proof. intros T H. unfold first_time. destruct (running _) as [|[t a] l]; [done|]. cbn. apply Z.leb_gt. apply (H t a). by left. Qed.

Lemma wait_for_events_ok r now answers : inv r -> idle r -> legal_round r now answers = true ->
  exists w, wait_for_events r now answers = Some w /\ wait_spec r (wake_time (first_time r) now answers) w.
Proof.
  intros I Id Hl. pose proof Id as (Ho & Hx & Hp). unfold wait_for_events.
  rewrite Ho, Hx, Hp, Nat.eqb_refl, !bool_decide_eq_true_2 by done. set (r0 := set_results [] 0 r).
  assert (inv r0) as I0.
  { pose proof I as [J T L F]. constructor; try done. unfold fds_inv in F. rewrite Hp in F. by eapply fd_clear_ok. }
  unfold legal_round in Hl. rewrite !andb_true_iff, !Z.leb_le in Hl. destruct Hl as ((H0 & H1) & Hl).
  destruct (first_timer_ok r0 (inv_timers _ I0)) as [[-> El]|(a & x & l & -> & Hx' & Hs & El & Hmin)].
  - assert (first_time r0 = None) as E0 by (unfold first_time; by rewrite El).
    assert (first_time r = None) as E1 by done. rewrite E1 in *.
    destruct (wait_loop_ok r0 (inv_timers _ I0) (inv_fds _ I0) answers 0) as (w & Ew & Hw); try done; rewrite ?E0; try done.
    + revert Hl. destruct answers as [|[t|t|l|] answers]; cbn [legal_answers]; try done.
      rewrite !andb_true_iff, !Z.leb_le. intros ((? & ?) & ?). split; [lia|done].
    + rewrite E0 in Ew, Hw. rewrite Ew.
      assert (wait_outcome r0 (first_time r0) (wake_time None now answers) w) as Hw'.
      { rewrite E0. destruct Hw; [by apply Wait_goes_on|done|by apply Wait_events]. }
      destruct (finish_wait_ok r0 w (wake_time None now answers) I0) as (w' & -> & Hs); [done|done|done|].
      exists w'. split; [done|]. by destruct w'.
  - destruct (move_expired_loop_ok now (tree_fuel r0) r0 false (inv_timers _ I0)) as (r1 & moved & E & Em & Hdue & Hrest);
      [unfold tree_fuel, running; lia|]. unfold move_expired_timers. rewrite E. cbn [orb].
    assert (inv r1) as I1 by (by eapply expired_inv). pose proof Em as (tm & tr & E1 & T1 & Et).
    destruct moved as [|m0 moved].
    + rewrite bool_decide_eq_true_2 by done. cbn [negb]. cbn in Et. rewrite E1 in Hrest. cbn in Hrest.
      assert (first_time r1 = first_time r) as Ef by (unfold first_time; rewrite E1; cbn; by rewrite Et).
      assert (first_time r = Some (absTime x)) as Efx by (unfold first_time; change (timers_tree r) with (timers_tree r0); by rewrite El).
      destruct (wait_loop_ok r1 (inv_timers _ I1)) with (answers := answers) (now := now) as (w & Ew & Hw); try done.
      * rewrite E1. apply (inv_fds _ I0).
      * rewrite Ef. apply first_time_due; [apply (inv_timers _ I)|]. by rewrite Et.
      * rewrite Ef. by rewrite E1.
      * rewrite Ef, Efx in Ew. rewrite Ew.
        destruct (finish_wait_ok r1 w (wake_time (first_time r1) now answers) I1) as (w' & -> & Hsp);
          [by rewrite E1; unfold idle; cbn; rewrite Hx|by rewrite E1|done|].
        exists w'. split; [done|]. rewrite <- Ef. unfold wait_spec, woken in *.
        assert (running (timers_tree r1) = running (timers_tree r)) as Er by (rewrite E1; cbn; by rewrite <- Et).
        rewrite <- Er. destruct w'; [done|]. by rewrite <- Ef.
    + rewrite bool_decide_eq_false_2 by done. cbn [negb]. eexists. split; [done|]. split; [done|].
      assert (due (first_time r) now = true) as Hd.
      { unfold first_time. change (timers_tree r) with (timers_tree r0). rewrite El. apply Z.leb_le. rewrite El in Et. cbn in Et.
        apply (Hdue (absTime x) a). injection Et as <- _. by left. }
      assert (wake_time (first_time r) now answers = now) as -> by (destruct answers; cbn [wake_time]; by rewrite Hd).
      exists (m0 :: moved). rewrite E1 in *. cbn in *. rewrite Hx. split; [done|]. split; [done|]. split; [done|]. split; [|done].
      intros t b u c Ht Hu. specialize (Hdue _ _ Ht). specialize (Hrest _ _ Hu). lia.
Qed.

(** *** Rounds and runs *)

(** What a round does: jobs first, then expired timers, then events, each in
    their order; the loop waits only when there is nothing left to do. *)
Definition round_spec (r : BReactor) (T : Z) (res : round) : Prop :=
  match res with
  | Round r' (Some (CallJob h)) =>
      exists a l, r.(pending_jobs).(Pending.order) = a :: l /\ r.(pending_jobs).(Pending.handlers) !! a = Some h /\
        r'.(pending_jobs).(Pending.order) = l
  | Round r' (Some (CallTimer a small)) =>
      r.(pending_jobs).(Pending.order) = [] /\ r.(timers_expired_list) = a :: r'.(timers_expired_list) /\
      (exists x, r.(timers) !! a = Some x /\ small = x.(is_small)) /\ BSmallTimer_IsRunning r' a = Some false
  | Round r' (Some (CallFd a ev)) =>
      r.(pending_jobs).(Pending.order) = [] /\ r.(timers_expired_list) = [] /\ r'.(epoll_results_pos) = S r.(epoll_results_pos) /\
      exists e f, r.(epoll_results) !! r.(epoll_results_pos) = Some e /\ e.(ptr) = Some a /\ r.(fds) !! a = Some f /\ f.(active) = true /\
        ev = report_events f e.(events) /\ ev <> 0 /\
        (Z.land ev BREACTOR_READ <> 0 -> Z.land f.(waitEvents) BREACTOR_READ <> 0) /\
        (Z.land ev BREACTOR_WRITE <> 0 -> Z.land f.(waitEvents) BREACTOR_WRITE <> 0)
  | Round r' None =>
      r.(pending_jobs).(Pending.order) = [] /\ r.(timers_expired_list) = [] /\
      ((r.(epoll_results_pos) < length r.(epoll_results))%nat /\ r'.(epoll_results_pos) = S r.(epoll_results_pos) \/ idle r /\ woken r T r')
  | Sleep r' timeout => idle r /\ idle r' /\ running r'.(timers_tree) = running r.(timers_tree) /\ due (first_time r) T = false /\
      timeout_until (first_time r) T timeout
  end.

Definition after_round (res : round) : BReactor := match res with Round r _ => r | Sleep r _ => r end.

Lemma report_events_wanted f ev m : m = BREACTOR_READ \/ m = BREACTOR_WRITE ->
  Z.land (report_events f ev) m <> 0 -> Z.land f.(waitEvents) m <> 0.
Proof.
  unfold report_events, BREACTOR_READ, BREACTOR_WRITE, BREACTOR_ERROR, BREACTOR_HUP.
  intros [-> | ->]; bool_cases; try done; by rewrite ?andb_false_r in *.
Qed.

Lemma round_ok r now answers : inv r -> legal_round r now answers = true ->
  exists res, exec_round r now answers = Some res /\ round_spec r (wake_time (first_time r) now answers) res /\ inv (after_round res).
Proof.
  intros I Hl. pose proof I as [J T L F]. unfold exec_round.
  destruct (Pending.order r.(pending_jobs)) as [|a l] eqn:Eo.
  2:{ destruct (jobs_execute_ok _ a l J Eo) as (h & Hh & -> & J'). eexists. split; [done|]. split; [by exists a, l|]. by apply set_jobs_inv. }
  destruct (timers_expired_list r) as [|a l] eqn:Ex.
  2:{ pose proof T as [Ht Hr Hg Hn He]. rewrite Ex in *. destruct (proj1 (He a)) as (x & Hx & Hs); [by left|].
      rewrite Hx, bool_decide_eq_true_2 by done. eexists. split; [done|]. apply NoDup_cons in Hn as [Na Hn]. split.
      - unfold round_spec, BSmallTimer_IsRunning. cbn. rewrite Eo, Ex, lookup_insert_eq. cbn. rewrite bool_decide_eq_true_2 by done. eauto 6.
      - apply set_timers_inv; [done|]. eapply timers_update; [exact T|done|done| | |done]; cbn.
        + intros t b. split; [|naive_solver]. intros Hb. left. split; [|done]. intros ->. apply Hr in Hb as (y & ? & _ & ?). congruence.
        + rewrite Ex. intros b. rewrite elem_of_cons. split; [|naive_solver]. intros Hb. left. split; [congruence|by right]. }
  destruct (Nat.ltb_spec r.(epoll_results_pos) (length r.(epoll_results))) as [Hlt|Hge].
  - destruct (lookup_lt_is_Some_2 _ _ Hlt) as [e He]. rewrite He. destruct (ptr e) as [a|] eqn:Ea.
    + destruct (fd_take_ok r e a F He Ea) as (f & Hf & Hac & Hret & F'). cbn [fds set_results]. rewrite Hf, Hac, bool_decide_eq_true_2 by done.
      assert (inv (set_fds (<[a := MkFd f.(fd) true f.(waitEvents) None]> r.(fds)) r.(d_fds_counter) (set_results r.(epoll_results) (S r.(epoll_results_pos)) r))) as I'
        by (by constructor).
      destruct (Z.eqb_spec (report_events f (events e)) 0); (eexists; split; [done|]); (split; [|done]).
      * split; [done|]. split; [done|]. by left.
      * split; [done|]. split; [done|]. split; [done|]. exists e, f. repeat split; try done; apply report_events_wanted; tauto.
    + eexists. split; [done|]. split; [split; [done|]; split; [done|]; by left|]. constructor; try done. exact (fd_skip_ok r e F He Ea).
  - assert (idle r) as Id by (split; [done|]; split; [done|]; destruct F; lia).
    destruct (wait_for_events_ok r now answers I Id Hl) as (w & -> & Hw). destruct w as [r'|r' timeout].
    + destruct Hw as [I' W]. eexists. split; [done|]. split; [|done]. split; [done|]. split; [done|]. by right.
    + destruct Hw as (I' & Er & Id' & Hd & Hu). by eexists.
Qed.

Inductive revent := ECall (c : rcall) | ERound (now : Z) (answers : list answer) | ESync (ref : addr).

(** A job that is waited for with [BReactor_Synchronize] stays pending. *)
Definition legal_event (r : BReactor) (ev : revent) : bool :=
  match ev with
  | ECall c => legal_call r c
  | ERound now answers => negb r.(exiting) && legal_round r now answers
  | ESync ref => bool_decide (ref ∈ r.(pending_jobs).(Pending.order))
  end.

Definition event_step (r : BReactor) (ev : revent) : option BReactor :=
  match ev with
  | ECall c => call_step r c
  | ERound now answers => LET res <- exec_round r now answers in Some (after_round res)
  | ESync ref => LET s <- synchronize_round r ref in Some (match s with SyncReturns _ => r | SyncCalls r _ => r end)
  end.

Fixpoint reactor_run (r : BReactor) (evs : list revent) : option BReactor :=
  match evs with [] => Some r | ev :: evs => LET r <- event_step r ev in reactor_run r evs end.
Fixpoint legal_run (r : BReactor) (evs : list revent) : bool :=
  match evs with
  | [] => true
  | ev :: evs => legal_event r ev && match event_step r ev with Some r => legal_run r evs | None => true end
  end.

(** No object is in use any more. *)
Definition released (r : BReactor) : Prop :=
  r.(pending_jobs).(Pending.handlers) = ∅ /\ r.(limits) = ∅ /\
  (forall a x, r.(timers) !! a = Some x -> x.(tstate) = TIMER_STATE_INACTIVE) /\ (forall a, is_active (r.(fds) !! a) = false).

Lemma synchronize_ok r ref : inv r -> ref ∈ r.(pending_jobs).(Pending.order) ->
  exists s, synchronize_round r ref = Some s /\
    match s with
    | SyncReturns b => b = negb r.(exiting) /\ (b = true -> head r.(pending_jobs).(Pending.order) = Some ref)
    | SyncCalls r' h => inv r' /\ ref ∈ r'.(pending_jobs).(Pending.order) /\
        exists a, r.(pending_jobs).(Pending.order) = a :: r'.(pending_jobs).(Pending.order) /\ r.(pending_jobs).(Pending.handlers) !! a = Some h
    end.
Proof.
  intros I Hin. unfold synchronize_round. destruct (exiting r); [by eexists|].
  destruct (Pending.order r.(pending_jobs)) as [|a l] eqn:Eo; [by apply elem_of_nil in Hin|]. cbn [head].
  case_bool_decide as Ha; [subst; by eexists|].
  destruct (jobs_execute_ok _ a l (inv_jobs _ I) Eo) as (h & Hh & -> & J'). eexists. split; [done|]. split; [by apply set_jobs_inv|].
  split; [set_solver|]. by exists a.
Qed.

Lemma event_ok r ev : inv r -> legal_event r ev = true -> exists r', event_step r ev = Some r' /\ inv r'.
Proof.
  intros I Hl. destruct ev as [c|now answers|ref]; cbn in *.
  - by apply call_ok.
  - apply andb_true_iff in Hl as [_ Hl]. destruct (round_ok r now answers I Hl) as (res & -> & _ & I'). by eexists.
  - apply bool_decide_eq_true in Hl. destruct (synchronize_ok r ref I Hl) as ([b|r' h] & -> & Hs); [by eexists|]. destruct Hs as [I' _]. by eexists.
Qed.

Lemma reactor_run_ok evs : forall r, inv r -> legal_run r evs = true -> exists r', reactor_run r evs = Some r' /\ inv r'.
Proof.
  induction evs as [|ev evs IH]; intros r I Hl; [by eexists|]. cbn in *. apply andb_true_iff in Hl as [Hl Hr].
  destruct (event_ok r ev I Hl) as (r1 & E1 & I1). rewrite E1 in *. by apply IH.
Qed.

Definition new_reactor : BReactor := MkReactor false 0 (Pending.Stack [] ∅) ∅ Leaf [] ∅ [] ∅ [] 0 0 0.

Lemma new_reactor_inv : inv new_reactor.
Proof.
  constructor.
  - intros a Ha. by apply elem_of_nil in Ha.
  - constructor; cbn; try done; [apply holds_leaf| | |constructor|]; unfold running; cbn; set_solver.
  - constructor; cbn; try done; [set_solver|constructor|]. unfold counts, Pending.INT32_MAX. rewrite map_size_empty. lia.
  - constructor; cbn; try done; [by intros a i; rewrite lookup_empty; split; [|intros (_ & e & He & _)]|].
    unfold counts, nactive, Pending.INT32_MAX. rewrite map_filter_empty, map_size_empty. lia.
Qed.

Lemma released_free r : inv r -> released r -> BReactor_Free r true = Some tt.
Proof.
  intros [J T L F] (Hh & Hm & Ht & Hf). pose proof T as [(_ & _ & _) Hr _ _ He]. pose proof L as [_ Ha _ [Hc _]]. pose proof F as [_ _ [Hn _]].
  assert (forall {A} (l : list A), (forall x, x ∉ l) -> l = []) as Nil by (intros A [|x l] H; [done|]; by destruct (H x); left).
  unfold BReactor_Free. rewrite (Nil _ (Pending.order r.(pending_jobs))), (Nil _ r.(timers_expired_list)), (Nil _ r.(active_limits_list)).
  - assert (running r.(timers_tree) = []) as Et.
    { apply Nil. intros [t a] (x & Hx & _ & Hs)%Hr. rewrite (Ht _ _ Hx) in Hs. done. }
    assert (CAvl_IsEmpty r.(timers_tree) = true) as -> by (unfold running in Et; destruct r.(timers_tree); [done|]; by destruct (app_eq_nil _ _ Et)).
    assert (nactive r.(fds) = 0%nat) as E0.
    { unfold nactive. apply map_size_empty_iff, map_empty. intros a. rewrite map_lookup_filter. specialize (Hf a).
      destruct (fds r !! a) as [f|]; cbn in *; [|done]. rewrite option_guard_False; [done|congruence]. }
    rewrite E0 in Hn. rewrite Hm, map_size_empty in Hc. unfold Pending.DebugCounter_Free. rewrite Hh.
    destruct Hn as [-> | ->], Hc as [-> | ->]; done.
  - intros a (o & Ho & _)%Ha. by rewrite Hm, lookup_empty in Ho.
  - intros a (x & Hx & Hs)%He. rewrite (Ht _ _ Hx) in Hs. done.
  - intros a [h Hha]%J. by rewrite Hh, lookup_empty in Hha.
Qed.

(** C9: the event loop is safe and dispatches in its order.  Whatever handlers
    do with their jobs, timers, limits and file descriptors, in any order and
    also from within other handlers, and whatever the system answers: no
    assertion fails; a round calls the handler of the top job if there is one,
    else of the first expired timer, else of the next ready descriptor that has
    not been removed, with events it waits for; it waits only when nothing is
    left to do; and when no object is in use any more the reactor can be
    freed. *)
Theorem reactor_safe evs :
  BReactor_Init true = Some new_reactor /\
  (legal_run new_reactor evs = true ->
   exists r, reactor_run new_reactor evs = Some r /\
     (forall now answers, legal_round r now answers = true ->
        exists res, exec_round r now answers = Some res /\ round_spec r (wake_time (first_time r) now answers) res) /\
     (released r -> BReactor_Free r true = Some tt)).
Proof.
  split; [done|]. intros Hl. destruct (reactor_run_ok evs _ new_reactor_inv Hl) as (r & Er & I). exists r. split; [done|]. split.
  - intros now answers Ha. destruct (round_ok r now answers I Ha) as (res & E & S & _). eauto.
  - by apply released_free.
Qed.

(** The timer [a] is running and has time [t]. *)
Definition runs_until (r : BReactor) (a : addr) (t : Z) : Prop :=
  exists x, r.(timers) !! a = Some x /\ x.(tstate) = TIMER_STATE_RUNNING /\ x.(absTime) = t.

Lemma runs_until_tree r a t : timers_inv r -> runs_until r a t <-> (t, a) ∈ running r.(timers_tree).
Proof. intros [_ Hr _ _ _]. rewrite Hr. unfold runs_until. naive_solver. Qed.

Lemma first_time_least r t a : timers_inv r -> (t, a) ∈ running r.(timers_tree) ->
  exists t0 a0, first_time r = Some t0 /\ (t0, a0) ∈ running r.(timers_tree) /\ t0 <= t.
Proof.
  intros [(_ & _ & S) _ _ _ _]. unfold first_time. revert S. destruct (running r.(timers_tree)) as [|[t0 a0] l]; [by intros _ ?%elem_of_nil|].
  intros [_ S]%(sorted_cons compare_timers) Hin. exists t0, a0. split; [done|]. split; [by left|].
  apply elem_of_cons in Hin as [[= -> ->]|Hin]; [done|]. specialize (S _ Hin). unfold below in S. rewrite compare_timers_spec in S.
  destruct (Z.compare_spec t0 t); lia.
Qed.

(** The timeout of [epoll_wait] at [T]: minus one if no timer runs, otherwise it
    is positive, does not go past a running timer, and the wait goes on exactly
    until a running timer unless that does not fit an [int]. *)
Definition timeout_fits (r : BReactor) (T timeout : Z) : Prop :=
  (forall a t, runs_until r a t -> 0 < timeout <= INT_MAX /\ T + timeout <= t) /\
  ((forall a t, ~ runs_until r a t) -> timeout = -1) /\
  (timeout = -1 \/ timeout = INT_MAX \/ exists a, runs_until r a (T + timeout)).

Lemma timeout_until_fits r T timeout : timers_inv r -> due (first_time r) T = false -> timeout_until (first_time r) T timeout -> timeout_fits r T timeout.
Proof.
  intros Tm Hd Hu. split.
  - intros a t (t0 & a0 & E & _ & Hle)%runs_until_tree%first_time_least; [|done|done]. rewrite E in *. apply Z.leb_gt in Hd. cbn in Hu. unfold INT_MAX in *. lia.
  - unfold first_time in *. destruct (running r.(timers_tree)) as [|[t0 a0] l] eqn:El; cbn in *; [by split; [|left]|].
    assert (runs_until r a0 t0) as H0 by (apply runs_until_tree; [done|]; rewrite El; by left). split; [intros Hn; by destruct (Hn a0 t0)|].
    right. destruct (Z.eq_dec timeout INT_MAX) as [|Hne]; [by left|]. right. exists a0. by replace (T + timeout) with t0 by lia.
Qed.

(** C10: timers expire on time.  A timer that is set relative to the time [now]
    runs until then, saturating instead of overflowing.  When the loop waits,
    the timers that expire are running timers whose time has come, in the order
    of their times, and before every timer that goes on running; no other timer
    stops; a wait ends without expired timers only for events.  While it is in
    [epoll_wait], which it called at the time [T], no running timer's time had
    come at [T], and the timeout it gave ends the wait with the first running
    timer: it is -1 without running timers, never goes past one, and is shorter
    only if the time does not fit an [int].  The system is assumed to return 0
    from [epoll_wait] only when the timeout it was given has passed. *)
Theorem timers_on_time evs r :
  legal_run new_reactor evs = true -> reactor_run new_reactor evs = Some r ->
  (forall a x ms now, r.(timers) !! a = Some x -> in_int64 ms = true -> in_int64 now = true ->
     exists r', BReactor_SetSmallTimer r a BTIMER_SET_RELATIVE ms now = Some r' /\
       runs_until r' a (Z.max INT64_MIN (Z.min INT64_MAX (now + ms)))) /\
  (forall now answers, idle r -> legal_round r now answers = true ->
   let T := wake_time (first_time r) now answers in
   (exists r' timeout, exec_round r now answers = Some (Sleep r' timeout) /\ (forall a t, runs_until r a t -> T < t) /\
      (forall a t, runs_until r' a t <-> runs_until r a t) /\ timeout_fits r T timeout) \/
   (exists r' moved, exec_round r now answers = Some (Round r' None) /\ r'.(timers_expired_list) = map snd moved /\
      (forall t a, (t, a) ∈ moved -> runs_until r a t /\ t <= T) /\ StronglySorted (fun x y => x.1 <= y.1) moved /\
      (forall a t, runs_until r' a t <-> runs_until r a t /\ (t, a) ∉ moved) /\
      (forall t a u b, (t, a) ∈ moved -> runs_until r' b u -> t < u) /\
      (moved = [] -> r'.(epoll_results) <> []))).
Proof.
  intros Hl Er. destruct (reactor_run_ok evs _ new_reactor_inv Hl) as (r0 & E0 & I). rewrite Er in E0. injection E0 as <-.
  pose proof (inv_timers _ I) as Tm. split.
  { intros a x ms now Hx H1 H2. pose proof (set_time_range BTIMER_SET_RELATIVE ms now H1 H2) as Hg. apply in_int64_true in H1, H2.
    destruct (set_timer_ok r a x BTIMER_SET_RELATIVE ms now Tm Hx Hg) as (tr & ex & -> & _). eexists. split; [done|].
    eexists. cbn. rewrite lookup_insert_eq. split; [done|]. split; [done|]. by apply btime_add_clamps. }
  intros now answers Id Ha T. pose proof Tm as [(_ & _ & Srt) _ _ _ _].
  destruct (round_ok r now answers I Ha) as (res & Eres & S & I'). pose proof Id as (Ho & Hx & Hp).
  unfold exec_round in Eres. rewrite Ho, Hx, Hp, Nat.ltb_irrefl in Eres.
  unfold exec_round. rewrite Ho, Hx, Hp, Nat.ltb_irrefl. destruct (wait_for_events r now answers) as [[r'|r' timeout]|]; [| |done]; injection Eres as <-.
  - right. destruct S as (_ & _ & [[Hlt _]|[_ (moved & Em & Hex & HT & Hlt & Hev)]]); [lia|]. exists r', moved.
    pose proof (inv_timers _ I') as Tm'. cbn [after_round] in Tm'. split; [done|]. split; [done|]. rewrite Em in Srt. pose proof (sorted_nodup _ Srt) as ND.
    apply (sorted_app compare_timers) in Srt as (S1 & _ & _). apply NoDup_app in ND as (_ & ND & _). split; [|split; [|split; [|split; [|done]]]].
    + intros t a Hin. split; [|by eapply HT]. apply runs_until_tree; [done|]. rewrite Em, elem_of_app. by left.
    + clear - S1. induction S1 as [|[t a] l S1 IH H]; constructor; [done|]. eapply Forall_impl; [exact H|]. intros [u b] Hb.
      unfold below in Hb. rewrite compare_timers_spec in Hb. cbn. destruct (Z.compare_spec t u); lia.
    + intros a t. rewrite !runs_until_tree, Em, elem_of_app by done. split; [intros H; split; [by right|]; intros H'; by eapply ND|tauto].
    + intros t a u b Hin Hru%runs_until_tree; [|done]. by eapply Hlt.
  - left. destruct S as (_ & Id' & Err & Hd & Hu). exists r', timeout. split; [done|]. pose proof (inv_timers _ I') as Tm'. cbn [after_round] in Tm'. split.
    + intros a t (t0 & a0 & E & _ & Hle)%runs_until_tree%first_time_least; [|done|done]. fold T in Hd. rewrite E in Hd. apply Z.leb_gt in Hd. lia.
    + split; [intros a t; by rewrite !runs_until_tree, Err|]. by apply timeout_until_fits.
Qed.

(** A job, two timers and a descriptor. *)
Definition sample_events : list revent :=
  [ECall (RJob (Pending.CInit 1 11 (Node None None))); ECall (RJob (Pending.CSet 1)); ECall (RSmallTimerInit 20 0); ECall (RTimerInit 21 0 50);
   ECall (RSetTimer 21 100); ECall (RSetSmallTimer 20 BTIMER_SET_RELATIVE 30 100); ECall (RFdInit 30 5); ECall (RFdAdd 30 true);
   ECall (RFdEvents 30 BREACTOR_READ); ERound 100 []; ERound 100 [Ready [MkEvent (Z.lor EPOLLIN EPOLLOUT) (Some 30)]]].

Lemma reactor_safe_witness :
  exists r r', reactor_run new_reactor sample_events = Some r /\
    exec_round r 101 [] = Some (Round r' (Some (CallFd 30 BREACTOR_READ))) /\
    round_spec r (wake_time (first_time r) 101 []) (Round r' (Some (CallFd 30 BREACTOR_READ))).
Proof.
  destruct (reactor_safe sample_events) as [_ H]. destruct H as (r & Er & Hr & _); [vm_compute; reflexivity|].
  destruct (Hr 101 []) as (res & Eres & Hs); [vm_compute in Er; injection Er as <-; vm_compute; reflexivity|].
  exists r, (after_round res). split; [exact Er|].
  assert (res = Round (after_round res) (Some (CallFd 30 BREACTOR_READ))) as E
    by (vm_compute in Er; injection Er as <-; vm_compute in Eres; injection Eres as <-; reflexivity).
  rewrite <- E. split; [exact Eres|exact Hs].
Defined.

Lemma timers_on_time_witness :
  exists r r' r'' timeout, reactor_run new_reactor (sample_events ++ [ERound 101 []]) = Some r /\
    exec_round r 105 [Interrupted 110; TimedOut 130] = Some (Round r' None) /\ r'.(timers_expired_list) = [20] /\ runs_until r' 21 150 /\
    exec_round r 105 [Interrupted 110] = Some (Sleep r'' timeout) /\ timeout_fits r 110 timeout /\ timeout = 20.
Proof.
  destruct (reactor_run new_reactor (sample_events ++ [ERound 101 []])) as [r|] eqn:Er; [|vm_compute in Er; discriminate].
  exists r. pose proof (timers_on_time (sample_events ++ [ERound 101 []]) r) as H.
  destruct H as [_ H]; [vm_compute; reflexivity|exact Er|].
  assert (idle r) as Id by (vm_compute in Er; injection Er as <-; repeat split; vm_compute; reflexivity).
  destruct (H 105 [Interrupted 110; TimedOut 130] Id) as [H1|H1]; [vm_compute in Er; injection Er as <-; vm_compute; reflexivity| |].
  { destruct H1 as (r' & tm & E & _). exfalso. clear - Er E. vm_compute in Er. injection Er as <-. vm_compute in E. discriminate. }
  destruct (H 105 [Interrupted 110] Id) as [H2|H2]; [vm_compute in Er; injection Er as <-; vm_compute; reflexivity| |].
  2:{ destruct H2 as (r' & tm & E & _). exfalso. clear - Er E. vm_compute in Er. injection Er as <-. vm_compute in E. discriminate. }
  destruct H1 as (r' & moved & E & Ex & _ & _ & Hrun & _). destruct H2 as (r'' & timeout & E2 & _ & _ & Hfit).
  exists r', r'', timeout. split; [reflexivity|]. split; [exact E|].
  assert (timers_expired_list r' = [20]) as Ex' by (clear - Er E; vm_compute in Er; injection Er as <-; vm_compute in E; injection E as <-; reflexivity).
  split; [exact Ex'|]. split.
  - apply Hrun. split.
    + clear - Er. vm_compute in Er. injection Er as <-. eexists. repeat split; vm_compute; reflexivity.
    + intros Hin. assert (21 ∈ map snd moved) as H21 by (exact (list_elem_of_fmap_2 snd _ _ Hin)).
      rewrite <- Ex, Ex' in H21. apply list_elem_of_singleton in H21. discriminate.
  - split; [exact E2|]. split.
    + revert Hfit. clear - Er. vm_compute in Er. injection Er as <-. intros Hfit. exact Hfit.
    + clear - Er E2. vm_compute in Er. injection Er as <-. vm_compute in E2. injection E2 as _ <-. reflexivity.
Defined.

End Reactor.
