(* ===== verification/ReactorFrame.v ===== *)
(** * What the event loop leaves alone

    Frame properties of [Reactor.v]: a round of the loop changes the timers,
    descriptors and limits it has to, and of the others nothing their owners
    could notice; a call about one object leaves the others as they are.  The
    clients of the reactor that are modelled on it ([Inactivity.v],
    [Connection.v]) are proved with these. *)

From S2P Require Import Prelude.
From S2P Require Import LinkedList.
From S2P Require Import Avl.
From S2P Require Import Pending.
From S2P Require Import Reactor.
Import Reactor.

Module Frame.

(** ** Relations that every part of a wait respects *)
Section waits.
Context (K : BReactor -> BReactor -> Prop) `{!PreOrder K}.
Context (K_results : forall l n r, K r (set_results l n r)).
Context (K_expire : forall r a x r', first_timer r = Some (Some (a, x)) -> expire r a x = Some r' -> K r r').
Context (K_pointers : forall l r m c, set_epoll_fd_pointers 0 l r.(fds) = Some m -> K r (set_fds m c r)).
Context (K_limits : forall r m l c, reset_limits r.(active_limits_list) r.(limits) = Some m -> K r (set_limits m l c r)).

Lemma move_expired_kept fuel : forall r now b r' b', move_expired_loop fuel r now b = Some (r', b') -> K r r'.
Proof using PreOrder0 K_expire.
  induction fuel as [|fuel IH]; intros r now b r' b'; [done|]. cbn [move_expired_loop]. destruct (first_timer r) as [[[a x]|]|] eqn:Ef; [| |done].
  - case_match; [by intros [= <- _]|]. destruct (expire r a x) as [r1|] eqn:Ex; [|done]. intros E. etrans; [by eapply K_expire|by eapply IH].
  - by intros [= <- _].
Qed.

Lemma move_first_loop_kept fuel : forall r t r', move_first_loop fuel r t = Some r' -> K r r'.
Proof using PreOrder0 K_expire.
  induction fuel as [|fuel IH]; intros r t r'; [done|]. cbn [move_first_loop]. destruct (first_timer r) as [[[a x]|]|] eqn:Ef; [| |done].
  - case_match; [|done]. case_match; [by intros [= <-]|]. destruct (expire r a x) as [r1|] eqn:Ex; [|done]. intros E. etrans; [by eapply K_expire|by eapply IH].
  - by intros [= <-].
Qed.

Lemma move_first_kept r r' : move_first_timers r = Some r' -> K r r'.
Proof using PreOrder0 K_expire.
  unfold move_first_timers. destruct (first_timer r) as [[[a x]|]|] eqn:Ef; [|done|done]. destruct (expire r a x) as [r1|] eqn:Ex; [|done].
  intros E%move_first_loop_kept. etrans; [by eapply K_expire|done].
Qed.

Definition waited (w : wait_result) : BReactor := match w with Woken r => r | Waiting r _ => r end.

Lemma try_again_kept r t now e : try_again r t now = Some e -> match e with Some r' => K r r' | None => True end.
Proof using PreOrder0 K_expire.
  unfold try_again. destruct t as [t|]; [|by intros [= <-]]. case_match; [|by intros [= <-]]. destruct (move_first_timers r) eqn:E; [|done].
  intros [= <-]. by apply move_first_kept.
Qed.

Lemma wait_loop_kept answers : forall r t now w, wait_loop r t now answers = Some w -> K r (waited w).
Proof using PreOrder0 K_expire K_results K_pointers.
  induction answers as [|ans answers IH]; intros r t now w; cbn [wait_loop]; destruct (relative_timeout t now) as [[u v]|]; try done; [by intros [= <-]|].
  destruct ans as [u'|u'|l|]; [| | |done].
  - destruct (try_again r t u') as [[r'|]|] eqn:E; [intros [= <-]; exact (try_again_kept _ _ _ _ E)|by eapply IH|done].
  - destruct t as [t|]; [|done]. case_match.
    + destruct (move_first_timers r) eqn:E; [|done]. intros [= <-]. by apply move_first_kept.
    + destruct (try_again r (Some t) u') as [[r'|]|] eqn:E; [intros [= <-]; exact (try_again_kept _ _ _ _ E)|by eapply IH|done].
  - case_match; [|done]. destruct (set_epoll_fd_pointers 0 l (fds r)) eqn:E; [|done]. intros [= <-]. cbn [waited]. etrans; [by eapply K_pointers|]. apply K_results.
Qed.

Lemma finish_wait_kept w w' : finish_wait w = Some w' -> K (waited w) (waited w').
Proof using PreOrder0 K_limits.
  destruct w as [r|r]; cbn; [|by intros [= <-]]. destruct (reset_limits _ _) eqn:E; [|done]. intros [= <-]. by apply K_limits.
Qed.

Lemma wait_kept r now answers w : wait_for_events r now answers = Some w -> K r (waited w).
Proof using PreOrder0 K_expire K_results K_pointers K_limits.
  unfold wait_for_events. do 3 (case_match; [|done]). set (r0 := set_results [] 0 r). intros E. trans r0; [apply K_results|]. revert E.
  destruct (first_timer r0) as [[[a x]|]|]; [| |done].
  - destruct (move_expired_timers r0 now) as [[r1 b]|] eqn:Em; [|done]. intros E. trans r1; [by eapply move_expired_kept|]. revert E.
    destruct b; [by intros [= <-]|]. destruct (wait_loop r1 _ now answers) as [w1|] eqn:Ew; [|done].
    intros E%finish_wait_kept. etrans; [by eapply wait_loop_kept|done].
  - destruct (wait_loop r0 None 0 answers) as [w1|] eqn:Ew; [|done]. intros E%finish_wait_kept. etrans; [by eapply wait_loop_kept|done].
Qed.
End waits.

(** ** Timers *)

(** Only the step from running to expired is allowed. *)
Definition kept (x x' : BSmallTimer) : Prop :=
  absTime x' = absTime x /\ is_small x' = is_small x /\ msTime x' = msTime x /\
  (tstate x = TIMER_STATE_INACTIVE <-> tstate x' = TIMER_STATE_INACTIVE).

Definition timers_kept (r r' : BReactor) : Prop := forall a x, r.(timers) !! a = Some x -> exists x', r'.(timers) !! a = Some x' /\ kept x x'.

#[global] Instance timers_kept_preorder : PreOrder timers_kept.
Proof.
  split; [by intros r a x Hx; exists x|]. intros r1 r2 r3 K1 K2 a x Hx. destruct (K1 a x Hx) as (x2 & H2 & A1 & A2 & A3 & A4).
  destruct (K2 a x2 H2) as (x3 & H3 & B1 & B2 & B3 & B4). exists x3. split; [done|]. unfold kept. rewrite B1, B2, B3, <- B4. done.
Qed.

(** The timers are all a round can change of this. *)
Lemma timers_kept_same r r' : r'.(timers) = r.(timers) -> timers_kept r r'.
Proof. intros E a x Hx. exists x. by rewrite E. Qed.

Lemma first_timer_running r a x : first_timer r = Some (Some (a, x)) -> r.(timers) !! a = Some x /\ tstate x = TIMER_STATE_RUNNING.
Proof.
  unfold first_timer. destruct (CAvl_GetFirst _) as [[t b]|]; [|done]. destruct (timers r !! b) as [y|] eqn:Hy; [|done].
  case_bool_decide; [|done]. by intros [= <- <-].
Qed.

Lemma expire_kept r a x r' : first_timer r = Some (Some (a, x)) -> expire r a x = Some r' -> timers_kept r r'.
Proof.
  intros [Hx Hs]%first_timer_running. unfold expire. destruct (CAvl_Remove _ _); [|done]. intros [= <-] b y Hy. cbn.
  destruct (decide (a = b)) as [<-|]; [rewrite lookup_insert_eq|rewrite lookup_insert_ne by done; by exists y].
  eexists. split; [done|]. replace y with x by congruence. unfold kept. cbn. by rewrite Hs.
Qed.

Lemma wait_timers r now answers w : wait_for_events r now answers = Some w -> timers_kept r (waited w).
Proof.
  apply wait_kept; try (intros; by apply timers_kept_same); [typeclasses eauto|]. apply expire_kept.
Qed.

(** A round keeps the timers, the one whose handler it calls apart, and only
    the end of a wait makes timers expire. *)
Definition round_timers (r : BReactor) (res : round) : Prop :=
  match res with
  | Round r' (Some (CallTimer a _)) =>
      exists x, r.(timers) !! a = Some x /\ tstate x = TIMER_STATE_EXPIRED /\ r'.(timers) = <[a := set_tstate TIMER_STATE_INACTIVE x]> r.(timers)
  | Round r' (Some _) => r'.(timers) = r.(timers)
  | Round r' None => r'.(timers) = r.(timers) \/ (length r.(epoll_results) <= r.(epoll_results_pos))%nat /\ timers_kept r r'
  | Sleep r' _ => timers_kept r r'
  end.

Lemma round_kept r now answers res : exec_round r now answers = Some res -> round_timers r res.
Proof.
  unfold exec_round. destruct (Pending.order _) as [|j l].
  2:{ destruct (Pending.spec_step _ _) as [[st o]|]; [|done]. destruct o; try done. by intros [= <-]. }
  destruct (timers_expired_list r) as [|a l].
  2:{ destruct (timers r !! a) as [x|] eqn:Hx; [|done]. case_bool_decide; [|done]. intros [= <-]. by exists x. }
  destruct (Nat.ltb_spec (epoll_results_pos r) (length (epoll_results r))).
  - destruct (epoll_results r !! _) as [e|]; [|done]. destruct (ptr e) as [a|]; [|intros [= <-]; by left]. cbn [fds set_results].
    destruct (fds r !! a) as [f|]; [|done]. case_match; [|done]. case_bool_decide; [|done]. case_match; intros [= <-]; [by left|done].
  - destruct (wait_for_events r now answers) as [w|] eqn:Ew; [|done]. apply wait_timers in Ew. destruct w as [r'|r']; intros [= <-]; [by right|done].
Qed.

(** The time of an expired timer has come. *)
Definition late (r : BReactor) (C : Z) : Prop := forall a x, r.(timers) !! a = Some x -> tstate x = TIMER_STATE_EXPIRED -> absTime x <= C.

Lemma late_mono r C C' : late r C -> C <= C' -> late r C'.
Proof. intros L H a x Hx Hs. specialize (L a x Hx Hs). lia. Qed.

Lemma wake_time_range m t0 : forall answers now, now <= INT64_MAX -> legal_answers m t0 now answers = true -> now <= wake_time t0 now answers <= INT64_MAX.
Proof.
  induction answers as [|ans answers IH]; intros now Hn; cbn [legal_answers wake_time]; destruct (due t0 now); try lia.
  destruct ans; try lia; rewrite ?andb_true_iff, ?Z.leb_le; intros H; specialize (IH at_);
    [destruct H as [[? ?] ?]|destruct H as [[[? ?] ?] ?]]; specialize (IH ltac:(done) ltac:(done)); lia.
Qed.

Lemma round_late r now answers res C : inv r -> legal_round r now answers = true -> exec_round r now answers = Some res -> late r C -> C <= now ->
  late (after_round res) (wake_time (first_time r) now answers).
Proof.
  intros I Hl E L HC. pose proof (round_kept _ _ _ _ E) as K. destruct (round_ok r now answers I Hl) as (res' & E' & S & I'). rewrite E in E'. injection E' as <-.
  unfold legal_round in Hl. rewrite !andb_true_iff, !Z.leb_le in Hl. destruct Hl as [[_ Hn] Hl]. pose proof (wake_time_range _ _ _ _ Hn Hl) as HT. set (T := wake_time _ _ _) in *.
  pose proof (inv_timers _ I) as Tm. pose proof (inv_timers _ I') as Tm'.
  assert ((after_round res).(timers) = r.(timers) -> late (after_round res) T) as Same.
  { intros Et. unfold late. rewrite Et. apply (late_mono r C); [done|lia]. }
  destruct res as [r' [[h|a sm|a ev]|]|r']; cbn [after_round round_timers] in *; [by apply Same| |by apply Same| |].
  - destruct K as (x & Hx & _ & Et). intros b y. rewrite Et. intros [[<- <-]|[_ Hy]]%lookup_insert_Some; [done|]. intros Hs. specialize (L b y Hy Hs). lia.
  - destruct K as [K|[Hp K]]; [by apply Same|]. destruct S as (_ & _ & [[Hlt _]|[_ (moved & Em & Hex & HdT & _)]]); [lia|].
    intros a x' Hx' Hs'. assert (a ∈ r'.(timers_expired_list)) as Ha by (apply (tok_expired _ _ _ Tm'); eauto).
    rewrite Hex in Ha. apply list_elem_of_In, in_map_iff in Ha as ([t b] & Eb & Hin%list_elem_of_In). cbn in Eb. subst b.
    destruct (proj1 (tok_running _ _ _ Tm t a)) as (x & Hx & <- & _); [rewrite Em; set_solver|]. destruct (K a x Hx) as (y & Hy & Ka & _).
    replace y with x' in * by congruence. rewrite Ka. by eapply HdT.
  - destruct S as (_ & (_ & Hex & _) & _). intros a x' Hx' Hs'. assert (a ∈ r'.(timers_expired_list)) as Ha by (apply (tok_expired _ _ _ Tm'); eauto).
    rewrite Hex in Ha. by apply elem_of_nil in Ha.
Qed.

(** ** Descriptors and limits *)

Definition fd_same (f f' : BFileDescriptor) : Prop := fd f' = fd f /\ active f' = active f /\ waitEvents f' = waitEvents f.

Definition fds_within (m m' : gmap addr BFileDescriptor) : Prop := forall a f, m !! a = Some f -> exists f', m' !! a = Some f' /\ fd_same f f'.
Definition limits_within (m m' : gmap addr BReactorLimit) : Prop := forall a, is_Some (m !! a) -> is_Some (m' !! a).

#[global] Instance fds_within_preorder : PreOrder fds_within.
Proof.
  split; [by intros m a f Hf; exists f|]. intros m1 m2 m3 K1 K2 a f Hf. destruct (K1 a f Hf) as (f2 & H2 & A1 & A2 & A3).
  destruct (K2 a f2 H2) as (f3 & H3 & B1 & B2 & B3). exists f3. split; [done|]. unfold fd_same. by rewrite B1, B2, B3.
Qed.
#[global] Instance limits_within_preorder : PreOrder limits_within.
Proof. split; [by intros m a|]. intros m1 m2 m3 K1 K2 a H. by apply K2, K1. Qed.

Lemma fds_within_insert m a f f' : m !! a = Some f -> fd_same f f' -> fds_within m (<[a := f']> m).
Proof.
  intros Hf S b g Hg. destruct (decide (a = b)) as [<-|]; [|exists g; by rewrite lookup_insert_ne].
  exists f'. rewrite lookup_insert_eq. split; [done|]. by replace g with f by congruence.
Qed.
Lemma limits_within_insert m a x : limits_within m (<[a := x]> m).
Proof. intros b H. rewrite lookup_insert_is_Some. destruct (decide (a = b)); [by left|by right]. Qed.

Lemma pointers_within : forall l i m m', set_epoll_fd_pointers i l m = Some m' -> fds_within m m'.
Proof.
  induction l as [|e l IH]; intros i m m'; cbn; [by intros [= <-]|]. destruct (ptr e) as [a|]; [|done]. destruct (m !! a) as [f|] eqn:Hf; [|done].
  case_match; [|done]. case_match; [|done]. intros E%IH. etrans; [|exact E]. by eapply fds_within_insert.
Qed.
Lemma reset_within : forall l m m', reset_limits l m = Some m' -> limits_within m m'.
Proof.
  induction l as [|a l IH]; intros m m'; cbn; [by intros [= <-]|]. destruct (m !! a) as [o|]; [|done]. case_match; [|done].
  intros E%IH. etrans; [|exact E]. apply limits_within_insert.
Qed.

(** What the owners of descriptors and limits know of the reactor. *)
Definition registers_kept (r r' : BReactor) : Prop := fds_within r.(fds) r'.(fds) /\ limits_within r.(limits) r'.(limits).

#[global] Instance registers_kept_preorder : PreOrder registers_kept.
Proof. split; [by intros r|]. intros r1 r2 r3 [A1 A2] [B1 B2]. split; by etrans. Qed.

Lemma expire_registers r a x r' : expire r a x = Some r' -> registers_kept r r'.
Proof. unfold expire. destruct (CAvl_Remove _ _); [|done]. by intros [= <-]. Qed.

Lemma wait_registers r now answers w : wait_for_events r now answers = Some w -> registers_kept r (waited w).
Proof.
  apply wait_kept; [typeclasses eauto|done|by intros r0 a x r' _; apply expire_registers| |].
  - intros l r0 m c E. split; [by eapply pointers_within|done].
  - intros r0 m l c E. split; [done|by eapply reset_within].
Qed.

Lemma round_registers r now answers res : exec_round r now answers = Some res -> registers_kept r (after_round res).
Proof.
  unfold exec_round. destruct (Pending.order _) as [|j l].
  2:{ destruct (Pending.spec_step _ _) as [[st o]|]; [|done]. destruct o; try done. by intros [= <-]. }
  destruct (timers_expired_list r) as [|a l].
  2:{ destruct (timers r !! a) as [x|] eqn:Hx; [|done]. case_bool_decide; [|done]. by intros [= <-]. }
  destruct (Nat.ltb_spec (epoll_results_pos r) (length (epoll_results r))).
  - destruct (epoll_results r !! _) as [e|]; [|done]. destruct (ptr e) as [a|]; [|by intros [= <-]]. cbn [fds set_results].
    destruct (fds r !! a) as [f|] eqn:Hf; [|done]. case_match eqn:Ha; [|done]. case_bool_decide; [|done].
    case_match; intros [= <-]; (split; [|done]); (eapply fds_within_insert; [done|]); by repeat split.
  - destruct (wait_for_events r now answers) as [w|] eqn:Ew; [|done]. apply wait_registers in Ew. by destruct w as [r'|r']; intros [= <-].
Qed.

(** ** Calls about other objects *)

Definition about_timer (a : addr) (c : rcall) : bool :=
  match c with RSmallTimerInit b _ | RTimerInit b _ _ | RSetSmallTimer b _ _ _ | RSetTimer b _ | RRemoveTimer b => bool_decide (a = b) | _ => false end.
Definition about_fd (a : addr) (c : rcall) : bool :=
  match c with RFdInit b _ | RFdAdd b _ | RFdRemove b | RFdEvents b _ => bool_decide (a = b) | _ => false end.
Definition about_limit (a : addr) (c : rcall) : bool :=
  match c with RLimitInit b _ | RLimitFree b | RLimitIncrement b | RLimitSet b _ => bool_decide (a = b) | _ => false end.

(** A call about something else changes at most one timer, which is not this one. *)
Lemma call_timers a r c r' : inv r -> legal_call r c = true -> about_timer a c = false -> call_step r c = Some r' ->
  r'.(timers) = r.(timers) \/ exists b x, r'.(timers) = <[b := x]> r.(timers) /\ tstate x <> TIMER_STATE_EXPIRED /\ a <> b.
Proof.
  intros I Hl Ho. pose proof (inv_timers _ I) as T. destruct c; cbn [legal_call call_step about_timer] in *;
    rewrite ?bool_decide_eq_false in Ho; rewrite ?andb_true_iff, ?bool_decide_eq_true in Hl.
  - destruct (Pending.spec_step _ _) as [[j o]|]; [|done]. intros [= <-]. by left.
  - intros [= <-]. right. by eexists _, _.
  - intros [= <-]. right. by eexists _, _.
  - destruct Hl as [[[x Hx] Ht] Hn]. destruct (set_timer_ok r a0 x mode time now T Hx (set_time_range _ _ _ Ht Hn)) as (tr & ex & -> & _). intros [= <-]. right. by eexists _, _.
  - unfold BReactor_SetTimer. destruct (timers r !! a0) as [x|] eqn:Hx; [|done]. destruct Hl as [Ht Hn].
    destruct (set_timer_ok r a0 x BTIMER_SET_RELATIVE (msTime x) now T Hx (set_time_range _ _ _ Ht Hn)) as (tr & ex & -> & _). intros [= <-]. right. by eexists _, _.
  - destruct Hl as [x Hx]. destruct (remove_timer_ok r a0 x T Hx) as (tr & ex & -> & _). intros [= <-]. right. by eexists _, _.
  - unfold BReactorLimit_Init. repeat case_match; try done. intros [= <-]. by left.
  - unfold BReactorLimit_Free. repeat case_match; try done; intros [= <-]; by left.
  - unfold BReactorLimit_Increment. repeat case_match; try done; simplify_eq; intros [= <-]; by left.
  - unfold BReactorLimit_SetLimit. repeat case_match; try done; intros [= <-]; by left.
  - intros [= <-]. by left.
  - unfold BReactor_AddFileDescriptor. repeat case_match; try done; simplify_eq; intros [= <-]; by left.
  - unfold BReactor_RemoveFileDescriptor. repeat case_match; try done; simplify_eq; intros [= <-]; by left.
  - unfold BReactor_SetFileDescriptorEvents. repeat case_match; try done; simplify_eq; intros [= <-]; by left.
  - intros [= <-]. by left.
Qed.

Lemma remove_timer_registers r a r' : BReactor_RemoveSmallTimer r a = Some r' -> r'.(fds) = r.(fds) /\ r'.(limits) = r.(limits).
Proof. unfold BReactor_RemoveSmallTimer. repeat (case_match; try done); by intros [= <-]. Qed.
Lemma set_timer_registers r a mode t now r' : BReactor_SetSmallTimer r a mode t now = Some r' -> r'.(fds) = r.(fds) /\ r'.(limits) = r.(limits).
Proof.
  unfold BReactor_SetSmallTimer. destruct (BReactor_RemoveSmallTimer r a) as [r1|] eqn:E; [|done]. apply remove_timer_registers in E as [E1 E2].
  destruct (timers r1 !! a); [|done]. destruct (CAvl_Insert _ _ _) as [[tr|]|]; try done. intros [= <-]. by rewrite <- E1, <- E2.
Qed.

Lemma call_registers r c r' : call_step r c = Some r' ->
  (forall a, about_fd a c = false -> r'.(fds) !! a = r.(fds) !! a) /\ (forall a, about_limit a c = false -> r'.(limits) !! a = r.(limits) !! a).
Proof.
  destruct c; cbn [call_step about_fd about_limit].
  - destruct (Pending.spec_step _ _) as [[j o]|]; [|done]. by intros [= <-].
  - by intros [= <-].
  - by intros [= <-].
  - intros E. by apply set_timer_registers in E as [-> ->].
  - unfold BReactor_SetTimer. destruct (timers r !! a); [|done]. intros E. by apply set_timer_registers in E as [-> ->].
  - intros E. by apply remove_timer_registers in E as [-> ->].
  - unfold BReactorLimit_Init. repeat (case_match; try done). intros [= <-]. split; [done|]. intros b' H'%bool_decide_eq_false. cbn. by rewrite lookup_insert_ne by congruence.
  - unfold BReactorLimit_Free. repeat (case_match; try done); intros [= <-]; (split; [done|]); intros b' H'%bool_decide_eq_false; cbn; by rewrite lookup_delete_ne by congruence.
  - unfold BReactorLimit_Increment. repeat (case_match; try done); simplify_eq; intros [= <-]; (split; [done|]); intros b' H'%bool_decide_eq_false; cbn; by rewrite ?lookup_insert_ne by congruence.
  - unfold BReactorLimit_SetLimit. repeat (case_match; try done). intros [= <-]. split; [done|]. intros b' H'%bool_decide_eq_false. cbn. by rewrite lookup_insert_ne by congruence.
  - intros [= <-]. split; [|done]. intros b H%bool_decide_eq_false. cbn. by rewrite lookup_insert_ne by congruence.
  - unfold BReactor_AddFileDescriptor. repeat (case_match; try done); simplify_eq; intros [= <-]; (split; [|done]); intros b' H'%bool_decide_eq_false; cbn; by rewrite ?lookup_insert_ne by congruence.
  - unfold BReactor_RemoveFileDescriptor. repeat (case_match; try done); simplify_eq; intros [= <-]; (split; [|done]); intros b' H'%bool_decide_eq_false; cbn; by rewrite ?lookup_insert_ne by congruence.
  - unfold BReactor_SetFileDescriptorEvents. repeat (case_match; try done); simplify_eq; intros [= <-]; (split; [|done]); intros b' H'%bool_decide_eq_false; cbn; by rewrite ?lookup_insert_ne by congruence.
  - by intros [= <-].
Qed.

(** ** The owner's calls *)

(** [a] is registered and waits for [ev]. *)
Definition watches (r : BReactor) (a : addr) (ev : Z) : Prop :=
  exists f, r.(fds) !! a = Some f /\ f.(active) = true /\ f.(waitEvents) = ev.

(** [a] was registered and is not any more. *)
Definition dormant (r : BReactor) (a : addr) : Prop := exists f, r.(fds) !! a = Some f /\ f.(active) = false.

Definition events_ok (ev : Z) : Prop := Z.land ev (Z.lnot (Z.lor BREACTOR_READ BREACTOR_WRITE)) = 0.

Lemma watches_active r a ev : watches r a ev -> is_active (r.(fds) !! a) = true.
Proof. by intros (f & -> & Ha & _). Qed.

Lemma dormant_inactive r a : dormant r a -> is_active (r.(fds) !! a) = false.
Proof. by intros (f & -> & Ha). Qed.

Lemma fds_within_dormant r r' a : fds_within r.(fds) r'.(fds) -> dormant r a -> dormant r' a.
Proof. intros K (f & Hf & Ha). destruct (K a f Hf) as (f' & Hf' & _ & A & _). exists f'. by rewrite A. Qed.

Lemma fds_within_watches r r' a ev : fds_within r.(fds) r'.(fds) -> watches r a ev -> watches r' a ev.
Proof. intros K (f & Hf & Ha & He). destruct (K a f Hf) as (f' & Hf' & _ & A & W). exists f'. by rewrite A, W. Qed.

Lemma fd_added r a n ok : inv r -> is_active (r.(fds) !! a) = false ->
  exists r', BReactor_AddFileDescriptor (BFileDescriptor_Init r a n) a ok = Some (r', ok) /\ inv r' /\ r'.(limits) = r.(limits) /\
    if ok then watches r' a 0 else is_active (r'.(fds) !! a) = false.
Proof.
  intros I Ha. destruct (call_ok r (RFdInit a n) I) as (r1 & [= <-] & I1); [cbn; by rewrite Ha|].
  set (r1 := BFileDescriptor_Init r a n) in *. assert (r1.(fds) !! a = Some (MkFd n false 0 None)) as H1 by apply lookup_insert_eq.
  destruct (call_ok r1 (RFdAdd a ok) I1) as (r2 & E2 & I2); [cbn [legal_call]; by rewrite H1|].
  destruct (fd_add_ok r1 a _ ok (inv_fds _ I1) H1 eq_refl) as (m & c & E & _). cbn [call_step] in E2. rewrite E in E2. injection E2 as <-.
  eexists. rewrite E. split; [done|]. split; [done|]. split; [done|]. unfold BReactor_AddFileDescriptor in E. rewrite H1 in E. cbn [active negb fd] in E.
  destruct ok; cbn [negb] in E.
  - destruct (Pending.DebugCounter_Increment _) as [c'|]; [|done]. injection E as <- <-. eexists. cbn. by rewrite lookup_insert_eq.
  - assert (set_fds m c r1 = r1) as -> by congruence. by rewrite H1.
Qed.

Lemma fd_waits r a ev0 ev : inv r -> watches r a ev0 -> events_ok ev ->
  exists r', BReactor_SetFileDescriptorEvents r a ev true = Some r' /\ inv r' /\ watches r' a ev /\ r'.(limits) = r.(limits).
Proof.
  intros I (f & Hf & Ha & _) Hev. destruct (call_ok r (RFdEvents a ev) I) as (r' & E & I'); [cbn [legal_call]; rewrite Hf; cbn [is_active]; rewrite Ha; by apply Z.eqb_eq|].
  cbn [call_step] in E. exists r'. split; [done|]. split; [done|]. unfold BReactor_SetFileDescriptorEvents in E. rewrite Hf, Ha, Hev in E. cbn in E.
  destruct (Z.eqb_spec (waitEvents f) ev); injection E as <-; [by split; [exists f|]|]. split; [|done]. eexists. cbn. by rewrite lookup_insert_eq.
Qed.

Lemma fd_removed r a ev : inv r -> watches r a ev ->
  exists r', BReactor_RemoveFileDescriptor r a true = Some r' /\ inv r' /\ dormant r' a /\ r'.(limits) = r.(limits).
Proof.
  intros I (f & Hf & Ha & _). destruct (call_ok r (RFdRemove a) I) as (r' & E & I'); [cbn; by rewrite Hf|]. cbn [call_step] in E.
  exists r'. split; [done|]. split; [done|]. unfold BReactor_RemoveFileDescriptor in E. rewrite Hf, Ha in E. destruct (Pending.DebugCounter_Decrement _); [|done].
  destruct (epoll_returned_ptr f); cbn in E; [destruct (epoll_results r !! _); [|done]|]; injection E as <-; (split; [|done]); eexists; cbn; by rewrite lookup_insert_eq.
Qed.

Lemma limit_taken r l : inv r -> is_Some (r.(limits) !! l) ->
  exists r' ok, BReactorLimit_Increment r l = Some (r', ok) /\ inv r' /\ r'.(fds) = r.(fds) /\ limits_within r.(limits) r'.(limits).
Proof.
  intros I [o Ho]. destruct (call_ok r (RLimitIncrement l) I) as (r' & E & I'); [cbn; apply bool_decide_eq_true; by eexists|]. cbn [call_step] in E.
  destruct (BReactorLimit_Increment r l) as [[r1 ok]|] eqn:E1; [|done]. injection E as <-. exists r1, ok. split; [done|]. split; [done|].
  unfold BReactorLimit_Increment in E1. rewrite Ho in E1. destruct (_ <=? _); injection E1 as <- _; [by split|]. split; [done|]. apply limits_within_insert.
Qed.

Lemma limit_added r l lim : inv r -> r.(limits) !! l = None -> 0 < lim ->
  exists r', BReactorLimit_Init r l lim = Some r' /\ inv r' /\ r'.(fds) = r.(fds) /\ r'.(limits) = <[l := MkLimit 0 lim]> r.(limits).
Proof.
  intros I Hl Hp. destruct (call_ok r (RLimitInit l lim) I) as (r' & E & I'); [cbn; by rewrite Hl, bool_decide_eq_true_2, (proj2 (Z.ltb_lt _ _))|]. cbn [call_step] in E.
  exists r'. split; [done|]. split; [done|]. unfold BReactorLimit_Init in E. repeat (case_match; try done). by injection E as <-.
Qed.

Lemma limit_freed r l : inv r -> is_Some (r.(limits) !! l) ->
  exists r', BReactorLimit_Free r l = Some r' /\ inv r' /\ r'.(fds) = r.(fds) /\ r'.(limits) = delete l r.(limits).
Proof.
  intros I Hl. destruct (call_ok r (RLimitFree l) I) as (r' & E & I'); [cbn; by apply bool_decide_eq_true|]. cbn [call_step] in E.
  exists r'. split; [done|]. split; [done|]. unfold BReactorLimit_Free in E. repeat (case_match; try done); by injection E as <-.
Qed.
(** ** Event bits *)

Definition has (events m : Z) : bool := negb (Z.land events m =? 0).

Lemma has_bit ev k : 0 <= k -> has ev (2 ^ k) = Z.testbit ev k.
Proof.
  intros Hk. unfold has. destruct (Z.testbit ev k) eqn:Hb.
  - apply negb_true_iff, Z.eqb_neq. intros E. assert (Z.testbit (Z.land ev (2 ^ k)) k = true); [|by rewrite E, Z.bits_0 in *].
    by rewrite Z.land_spec, Hb, Z.pow2_bits_true.
  - apply negb_false_iff, Z.eqb_eq, Z.bits_inj'. intros n Hn. rewrite Z.land_spec, Z.bits_0, Z.pow2_bits_eqb by done.
    destruct (Z.eqb_spec k n) as [->|]; [by rewrite Hb|by rewrite andb_false_r].
Qed.

Lemma has_lor ev m k : 0 <= k -> has (Z.lor ev m) (2 ^ k) = has ev (2 ^ k) || has m (2 ^ k).
Proof. intros. by rewrite !has_bit, Z.lor_spec by done. Qed.
Lemma has_clear ev m k : 0 <= k -> has (Z.land ev (Z.lnot m)) (2 ^ k) = has ev (2 ^ k) && negb (has m (2 ^ k)).
Proof. intros. by rewrite !has_bit, Z.land_spec, Z.lnot_spec by done. Qed.

Lemma events_ok_lor a b : events_ok a -> events_ok b -> events_ok (Z.lor a b).
Proof. unfold events_ok. intros Ha Hb. by rewrite Z.land_lor_distr_l, Ha, Hb. Qed.
Lemma events_ok_clear a b : events_ok a -> events_ok (Z.land a b).
Proof. unfold events_ok. intros Ha. by rewrite <- Z.land_assoc, (Z.land_comm b), Z.land_assoc, Ha. Qed.

Lemma has_or ev a b : has ev (Z.lor a b) = has ev a || has ev b.
Proof.
  unfold has. rewrite Z.land_lor_distr_r. destruct (Z.eqb_spec (Z.land ev a) 0) as [->|H1].
  - by rewrite Z.lor_0_l.
  - destruct (Z.eqb_spec (Z.lor (Z.land ev a) (Z.land ev b)) 0) as [E|]; [|done]. by apply Z.lor_eq_0_iff in E as [? _].
Qed.

(** The descriptor's event that a round leads to. *)
Definition fd_event (a : addr) (res : option round) : option Z :=
  match res with Some (Round _ (Some (CallFd b ev))) => if bool_decide (b = a) then Some ev else None | _ => None end.


(** A round and a descriptor that is watched: the events it is called with were
    waited for. *)
Lemma fd_round r a ev0 now answers : inv r -> legal_round r now answers = true -> watches r a ev0 ->
  exists res, exec_round r now answers = Some res /\ inv (after_round res) /\ registers_kept r (after_round res) /\ watches (after_round res) a ev0 /\
    match fd_event a (Some res) with
    | Some ev => (has ev BREACTOR_READ = true -> has ev0 BREACTOR_READ = true) /\ (has ev BREACTOR_WRITE = true -> has ev0 BREACTOR_WRITE = true)
    | None => True
    end.
Proof.
  intros Hi Hr Hw. destruct (round_ok r now answers Hi Hr) as (res & E & Sp & I'). pose proof (round_registers _ _ _ _ E) as K.
  exists res. split; [done|]. split; [done|]. split; [done|]. split; [by eapply fds_within_watches; [apply K|]|].
  destruct res as [r' [[|b sm|b ev]|]|]; try done. cbn [fd_event]. case_bool_decide as Eb; [|done]. subst b.
  destruct Sp as (_ & _ & _ & e & f & _ & _ & Hf & _ & _ & _ & Hrd & Hwr). destruct Hw as (f1 & Hf1 & _ & We). rewrite Hf in Hf1. injection Hf1 as <-.
  rewrite We in Hrd, Hwr. unfold has. by rewrite !negb_true_iff, !Z.eqb_neq.
Qed.

End Frame.
