(* ===== verification/Flow.v ===== *)
(** * The flow interfaces

    Models [PacketPassInterface], [PacketRecvInterface], [StreamPassInterface]
    and [StreamRecvInterface] of [flow/]: one party (the user) starts an
    operation, the other (the provider) works on it and declares it done.  Both
    steps are deferred through jobs, so that neither party is called from
    inside its own call.

    The four structures have the same fields but for a few; the record
    [flow_interface] has them all: only the packet interfaces have an [mtu], only
    [PacketPassInterface] can be cancelled, [PacketRecvInterface] has no
    [job_operation_len] and [PacketPassInterface] no [job_done_len].  Pointers are
    offsets into the memory of the user, [None] is null.  The handlers are
    called by the components that install them: a job returns the arguments
    its handler gets. *)

From S2P Require Import Prelude.

Module Flow.

Inductive flow_state := STATE_NONE | STATE_OPERATION_PENDING | STATE_BUSY | STATE_DONE_PENDING.

#[export] Instance flow_state_eq_dec : EqDecision flow_state.
Proof. solve_decision. Defined.

Record flow_interface := MkFlow {
  mtu : Z;
  handler_requestcancel : bool;
  handler_done : bool;
  job_operation : bool;
  job_operation_data : option Z;
  job_operation_len : Z;
  job_requestcancel : bool;
  job_done : bool;
  job_done_len : Z;
  state : flow_state;
  cancel_requested : bool;
}.

Definition is_state (s : flow_state) (i : flow_interface) : bool := bool_decide (i.(state) = s).

(** [BPending_Set(&i->job_operation)] with the arguments of the operation. *)
Definition set_operation d n i := MkFlow i.(mtu) i.(handler_requestcancel) i.(handler_done) true d n
  i.(job_requestcancel) i.(job_done) i.(job_done_len) STATE_OPERATION_PENDING i.(cancel_requested).
(** [BPending_Set(&i->job_done)]. *)
Definition set_done n i := MkFlow i.(mtu) i.(handler_requestcancel) i.(handler_done) i.(job_operation)
  i.(job_operation_data) i.(job_operation_len) i.(job_requestcancel) true n STATE_DONE_PENDING i.(cancel_requested).
Definition set_cancel j c i := MkFlow i.(mtu) i.(handler_requestcancel) i.(handler_done) i.(job_operation)
  i.(job_operation_data) i.(job_operation_len) j i.(job_done) i.(job_done_len) i.(state) c.
(** A job that runs is unset first. *)
Definition run_operation i := MkFlow i.(mtu) i.(handler_requestcancel) i.(handler_done) false
  i.(job_operation_data) i.(job_operation_len) i.(job_requestcancel) i.(job_done) i.(job_done_len) STATE_BUSY i.(cancel_requested).
Definition run_done i := MkFlow i.(mtu) i.(handler_requestcancel) i.(handler_done) i.(job_operation)
  i.(job_operation_data) i.(job_operation_len) i.(job_requestcancel) false i.(job_done_len) STATE_NONE i.(cancel_requested).
Definition unset_operation i := MkFlow i.(mtu) i.(handler_requestcancel) i.(handler_done) false
  i.(job_operation_data) i.(job_operation_len) i.(job_requestcancel) i.(job_done) i.(job_done_len) i.(state) i.(cancel_requested).
Definition set_handlers rc dn i := MkFlow i.(mtu) rc dn i.(job_operation)
  i.(job_operation_data) i.(job_operation_len) i.(job_requestcancel) i.(job_done) i.(job_done_len) i.(state) i.(cancel_requested).

Definition flow_new (m : Z) : flow_interface := MkFlow m false false false None 0 false false 0 STATE_NONE false.

(** ** PacketPassInterface *)

Definition PacketPassInterface_Init (m : Z) : option flow_interface := ASSERT 0 <=? m in Some (flow_new m).

Definition PacketPassInterface_EnableCancel (i : flow_interface) : option flow_interface :=
  ASSERT negb i.(handler_requestcancel) in
  ASSERT negb i.(handler_done) in
  Some (set_handlers true i.(handler_done) i).

Definition PacketPassInterface_Sender_Init (i : flow_interface) : option flow_interface :=
  ASSERT negb i.(handler_done) in Some (set_handlers i.(handler_requestcancel) true i).

Definition PacketPassInterface_Sender_Send (i : flow_interface) (data : option Z) (data_len : Z) : option flow_interface :=
  ASSERT 0 <=? data_len in
  ASSERT data_len <=? i.(mtu) in
  ASSERT negb (0 <? data_len) || negb (bool_decide (data = None)) in
  ASSERT is_state STATE_NONE i in
  ASSERT i.(handler_done) in
  Some (set_cancel i.(job_requestcancel) false (set_operation data data_len i)).

Definition PacketPassInterface_Done (i : flow_interface) : option flow_interface :=
  ASSERT is_state STATE_BUSY i in
  Some (set_done 0 (set_cancel false i.(cancel_requested) i)).

Definition PacketPassInterface_Sender_RequestCancel (i : flow_interface) : option flow_interface :=
  ASSERT is_state STATE_OPERATION_PENDING i || is_state STATE_BUSY i || is_state STATE_DONE_PENDING i in
  ASSERT i.(handler_requestcancel) in
  if i.(cancel_requested) then Some i
  else
    let i := set_cancel i.(job_requestcancel) true i in
    if is_state STATE_OPERATION_PENDING i then Some (set_done 0 (unset_operation i))
    else if is_state STATE_BUSY i then Some (set_cancel true i.(cancel_requested) i)
    else Some i.

Definition _PacketPassInterface_job_operation (i : flow_interface) : option (flow_interface * (option Z * Z)) :=
  ASSERT is_state STATE_OPERATION_PENDING i in
  Some (run_operation i, (i.(job_operation_data), i.(job_operation_len))).

Definition _PacketPassInterface_job_requestcancel (i : flow_interface) : option flow_interface :=
  ASSERT is_state STATE_BUSY i in
  ASSERT i.(cancel_requested) in
  ASSERT i.(handler_requestcancel) in
  Some (set_cancel false i.(cancel_requested) i).

Definition _PacketPassInterface_job_done (i : flow_interface) : option flow_interface :=
  ASSERT is_state STATE_DONE_PENDING i in Some (run_done i).

(** ** PacketRecvInterface *)

Definition PacketRecvInterface_Init (m : Z) : option flow_interface := ASSERT 0 <=? m in Some (flow_new m).

Definition PacketRecvInterface_Receiver_Init (i : flow_interface) : option flow_interface :=
  ASSERT negb i.(handler_done) in Some (set_handlers i.(handler_requestcancel) true i).

Definition PacketRecvInterface_Receiver_Recv (i : flow_interface) (data : option Z) : option flow_interface :=
  ASSERT negb (0 <? i.(mtu)) || negb (bool_decide (data = None)) in
  ASSERT is_state STATE_NONE i in
  ASSERT i.(handler_done) in
  Some (set_operation data 0 i).

Definition PacketRecvInterface_Done (i : flow_interface) (data_len : Z) : option flow_interface :=
  ASSERT 0 <=? data_len in
  ASSERT data_len <=? i.(mtu) in
  ASSERT is_state STATE_BUSY i in
  Some (set_done data_len i).

Definition _PacketRecvInterface_job_operation (i : flow_interface) : option (flow_interface * option Z) :=
  ASSERT is_state STATE_OPERATION_PENDING i in Some (run_operation i, i.(job_operation_data)).

Definition _PacketRecvInterface_job_done (i : flow_interface) : option (flow_interface * Z) :=
  ASSERT is_state STATE_DONE_PENDING i in Some (run_done i, i.(job_done_len)).

(** ** StreamPassInterface *)

Definition StreamPassInterface_Init : flow_interface := flow_new 0.

Definition StreamPassInterface_Sender_Init (i : flow_interface) : option flow_interface :=
  ASSERT negb i.(handler_done) in Some (set_handlers i.(handler_requestcancel) true i).

Definition StreamPassInterface_Sender_Send (i : flow_interface) (data : option Z) (data_len : Z) : option flow_interface :=
  ASSERT 0 <? data_len in
  ASSERT negb (bool_decide (data = None)) in
  ASSERT is_state STATE_NONE i in
  ASSERT i.(handler_done) in
  Some (set_operation data data_len i).

Definition StreamPassInterface_Done (i : flow_interface) (data_len : Z) : option flow_interface :=
  ASSERT is_state STATE_BUSY i in
  ASSERT 0 <? data_len in
  ASSERT data_len <=? i.(job_operation_len) in
  Some (set_done data_len i).

Definition _StreamPassInterface_job_operation (i : flow_interface) : option (flow_interface * (option Z * Z)) :=
  ASSERT is_state STATE_OPERATION_PENDING i in
  Some (run_operation i, (i.(job_operation_data), i.(job_operation_len))).

Definition _StreamPassInterface_job_done (i : flow_interface) : option (flow_interface * Z) :=
  ASSERT is_state STATE_DONE_PENDING i in Some (run_done i, i.(job_done_len)).

(** ** StreamRecvInterface *)

Definition StreamRecvInterface_Init : flow_interface := flow_new 0.

Definition StreamRecvInterface_Receiver_Init (i : flow_interface) : option flow_interface :=
  ASSERT negb i.(handler_done) in Some (set_handlers i.(handler_requestcancel) true i).

Definition StreamRecvInterface_Receiver_Recv (i : flow_interface) (data : option Z) (data_len : Z) : option flow_interface :=
  ASSERT 0 <? data_len in
  ASSERT negb (bool_decide (data = None)) in
  ASSERT is_state STATE_NONE i in
  ASSERT i.(handler_done) in
  Some (set_operation data data_len i).

Definition StreamRecvInterface_Done (i : flow_interface) (data_len : Z) : option flow_interface :=
  ASSERT is_state STATE_BUSY i in
  ASSERT 0 <? data_len in
  ASSERT data_len <=? i.(job_operation_len) in
  Some (set_done data_len i).

Definition _StreamRecvInterface_job_operation (i : flow_interface) : option (flow_interface * (option Z * Z)) :=
  ASSERT is_state STATE_OPERATION_PENDING i in
  Some (run_operation i, (i.(job_operation_data), i.(job_operation_len))).

Definition _StreamRecvInterface_job_done (i : flow_interface) : option (flow_interface * Z) :=
  ASSERT is_state STATE_DONE_PENDING i in Some (run_done i, i.(job_done_len)).

(** ** The jobs follow the state

    A job is set exactly in the state its function asserts, and a cancel job
    only while the provider works on a cancelled operation. *)
Inductive flow_kind := PacketPass | PacketRecv | StreamPass | StreamRecv.

Record flow_ok (k : flow_kind) (i : flow_interface) : Prop := {
  fo_op : i.(job_operation) = is_state STATE_OPERATION_PENDING i;
  fo_done : i.(job_done) = is_state STATE_DONE_PENDING i;
  fo_cancel : i.(job_requestcancel) = true ->
    k = PacketPass /\ i.(state) = STATE_BUSY /\ i.(cancel_requested) = true /\ i.(handler_requestcancel) = true;
}.

(** The calls of the user ([Start], [Cancel]) and of the provider ([Finish]),
    and the jobs, which run when they are set. *)
Inductive flow_event :=
  | Start (data : option Z) (n : Z) | Finish (n : Z) | Cancel
  | JobOperation | JobCancel | JobDone.

Definition flow_start k i d n :=
  match k with
  | PacketPass => PacketPassInterface_Sender_Send i d n
  | PacketRecv => PacketRecvInterface_Receiver_Recv i d
  | StreamPass => StreamPassInterface_Sender_Send i d n
  | StreamRecv => StreamRecvInterface_Receiver_Recv i d n
  end.
Definition flow_finish k i n :=
  match k with
  | PacketPass => PacketPassInterface_Done i
  | PacketRecv => PacketRecvInterface_Done i n
  | StreamPass => StreamPassInterface_Done i n
  | StreamRecv => StreamRecvInterface_Done i n
  end.
Definition flow_job_operation k i :=
  match k with
  | PacketPass => option_map fst (_PacketPassInterface_job_operation i)
  | PacketRecv => option_map fst (_PacketRecvInterface_job_operation i)
  | StreamPass => option_map fst (_StreamPassInterface_job_operation i)
  | StreamRecv => option_map fst (_StreamRecvInterface_job_operation i)
  end.
Definition flow_job_done k i :=
  match k with
  | PacketPass => _PacketPassInterface_job_done i
  | PacketRecv => option_map fst (_PacketRecvInterface_job_done i)
  | StreamPass => option_map fst (_StreamPassInterface_job_done i)
  | StreamRecv => option_map fst (_StreamRecvInterface_job_done i)
  end.

Definition flow_step (k : flow_kind) (i : flow_interface) (ev : flow_event) : option flow_interface :=
  match ev with
  | Start d n => flow_start k i d n
  | Finish n => flow_finish k i n
  | Cancel => match k with PacketPass => PacketPassInterface_Sender_RequestCancel i | _ => None end
  | JobOperation => if i.(job_operation) then flow_job_operation k i else Some i
  | JobCancel => if i.(job_requestcancel) then _PacketPassInterface_job_requestcancel i else Some i
  | JobDone => if i.(job_done) then flow_job_done k i else Some i
  end.

Lemma is_state_true s i : is_state s i = true <-> i.(state) = s.
Proof. apply bool_decide_eq_true. Qed.

Lemma flow_new_ok k m : flow_ok k (flow_new m).
Proof. by split. Qed.

Ltac flow_unfold :=
  unfold flow_start, flow_finish, flow_job_operation, flow_job_done,
    PacketPassInterface_Sender_Send, PacketPassInterface_Done, PacketPassInterface_Sender_RequestCancel,
    PacketRecvInterface_Receiver_Recv, PacketRecvInterface_Done, StreamPassInterface_Sender_Send, StreamPassInterface_Done,
    StreamRecvInterface_Receiver_Recv, StreamRecvInterface_Done, _PacketPassInterface_job_operation,
    _PacketPassInterface_job_requestcancel, _PacketPassInterface_job_done, _PacketRecvInterface_job_operation,
    _PacketRecvInterface_job_done, _StreamPassInterface_job_operation, _StreamPassInterface_job_done,
    _StreamRecvInterface_job_operation, _StreamRecvInterface_job_done, is_state in *; cbn in *.

Lemma flow_step_ok k i ev i' : flow_ok k i -> flow_step k i ev = Some i' -> flow_ok k i'.
Proof.
  intros [Ho Hd Hc] E. destruct i as [m rc dn jo d n jc jd dl st cr].
  destruct ev, k; cbn in *; flow_unfold; destruct st; cbn in *; repeat case_match; simplify_eq;
    try (split; cbn in *; naive_solver).
Qed.

(** A job that is set finds the state it asserts, whatever was called before. *)
Theorem flow_jobs_safe k m evs i :
  foldl (fun r ev => LET i <- r in flow_step k i ev)
    (Some (set_handlers (match k with PacketPass => true | _ => false end) true (flow_new m))) evs = Some i ->
  is_Some (flow_step k i JobOperation) /\ is_Some (flow_step k i JobCancel) /\ is_Some (flow_step k i JobDone).
Proof.
  intros E. assert (flow_ok k i) as [Ho Hd Hc].
  { revert i E. induction evs as [|ev evs IH] using rev_ind; cbn; intros i.
    - intros [= <-]. by split.
    - rewrite foldl_snoc. destruct (foldl _ _ evs) as [i0|]; [|done]. intros E. eapply flow_step_ok; [|done]. by apply IH. }
  clear E. destruct i as [m' rc dn jo d n jc jd dl st cr]. unfold is_state in *. cbn in *. subst jo jd.
  destruct k; flow_unfold; repeat split; destruct st; cbn; eauto; destruct jc; cbn; eauto;
    destruct Hc as (? & ? & -> & ->); done || eauto.
Qed.

Lemma run_done_flow k i : flow_ok k i -> i.(state) = STATE_DONE_PENDING -> flow_ok k (run_done i).
Proof.
  intros [F1 F2 F3] Hs. unfold is_state in *. rewrite Hs in *. split; cbn; [done|done|].
  intros Hc. destruct (F3 Hc) as (_ & [=] & _).
Qed.

Lemma run_operation_flow k i : flow_ok k i -> i.(state) = STATE_OPERATION_PENDING -> flow_ok k (run_operation i).
Proof.
  intros [F1 F2 F3] Hs. unfold is_state in *. rewrite Hs in *. split; cbn; [done|done|].
  intros Hc. destruct (F3 Hc) as (_ & [=] & _).
Qed.

(** ** Operations that may be started succeed *)

(** A packet that fits, at an address when it is not empty. *)
Definition packet_ok (mt : Z) (d : option Z) (n : Z) : Prop := 0 <= n <= mt /\ (0 < n -> d <> None).

Lemma send_start i d n : flow_ok PacketPass i -> i.(state) = STATE_NONE -> i.(handler_done) = true -> packet_ok i.(mtu) d n ->
  exists i', PacketPassInterface_Sender_Send i d n = Some i' /\ flow_ok PacketPass i' /\ i'.(state) = STATE_OPERATION_PENDING /\
    i'.(mtu) = i.(mtu) /\ i'.(handler_done) = true /\ i'.(handler_requestcancel) = i.(handler_requestcancel) /\
    i'.(job_operation_data) = d /\ i'.(job_operation_len) = n.
Proof.
  intros F Hs Hh [Hn Hd]. assert (exists i', PacketPassInterface_Sender_Send i d n = Some i') as [i' E].
  { unfold PacketPassInterface_Sender_Send. rewrite Hh, !(proj2 (Z.leb_le _ _)) by lia.
    rewrite (proj2 (is_state_true STATE_NONE i)) by done. destruct (Z.ltb_spec 0 n); cbn; [|by eexists].
    rewrite bool_decide_eq_false_2 by auto. by eexists. }
  exists i'. split; [done|]. split; [by eapply (flow_step_ok PacketPass i (Start d n))|].
  unfold PacketPassInterface_Sender_Send in E. repeat case_match; simplify_eq. by repeat split.
Qed.

Lemma done_finish i : flow_ok PacketPass i -> i.(state) = STATE_BUSY ->
  exists i', PacketPassInterface_Done i = Some i' /\ flow_ok PacketPass i' /\ i'.(state) = STATE_DONE_PENDING /\
    i'.(mtu) = i.(mtu) /\ i'.(handler_done) = i.(handler_done) /\ i'.(handler_requestcancel) = i.(handler_requestcancel) /\
    i'.(job_operation_data) = i.(job_operation_data) /\ i'.(job_operation_len) = i.(job_operation_len).
Proof.
  intros F Hs. assert (exists i', PacketPassInterface_Done i = Some i') as [i' E].
  { unfold PacketPassInterface_Done. rewrite (proj2 (is_state_true STATE_BUSY i)) by done. by eexists. }
  exists i'. split; [done|]. split; [by eapply (flow_step_ok PacketPass i (Finish 0))|].
  unfold PacketPassInterface_Done in E. repeat case_match; simplify_eq. by repeat split.
Qed.

Lemma cancel_request i : flow_ok PacketPass i -> i.(state) <> STATE_NONE -> i.(handler_requestcancel) = true ->
  exists i', PacketPassInterface_Sender_RequestCancel i = Some i' /\ flow_ok PacketPass i' /\ i'.(state) <> STATE_NONE /\
    i'.(mtu) = i.(mtu) /\ i'.(handler_done) = i.(handler_done) /\ i'.(handler_requestcancel) = i.(handler_requestcancel) /\
    i'.(job_operation_data) = i.(job_operation_data) /\ i'.(job_operation_len) = i.(job_operation_len).
Proof.
  intros F Hs Hc. assert (exists i', PacketPassInterface_Sender_RequestCancel i = Some i') as [i' E].
  { unfold PacketPassInterface_Sender_RequestCancel, is_state. rewrite Hc. destruct (state i) eqn:Es; [done|..];
      cbn; rewrite ?Es; cbn; destruct (cancel_requested i); by eexists. }
  exists i'. split; [done|]. split; [by eapply (flow_step_ok PacketPass i Cancel)|].
  unfold PacketPassInterface_Sender_RequestCancel in E. repeat case_match; simplify_eq; by repeat split.
Qed.

Lemma job_of_state k i : flow_ok k i ->
  (i.(job_operation) = true -> i.(state) = STATE_OPERATION_PENDING) /\ (i.(job_done) = true -> i.(state) = STATE_DONE_PENDING).
Proof. intros [F1 F2 F3]. rewrite F1, F2. by rewrite !is_state_true. Qed.

Lemma recv_start i d : flow_ok PacketRecv i -> i.(state) = STATE_NONE -> i.(handler_done) = true -> (0 < i.(mtu) -> d <> None) ->
  exists i', PacketRecvInterface_Receiver_Recv i d = Some i' /\ flow_ok PacketRecv i' /\ i'.(state) = STATE_OPERATION_PENDING /\
    i'.(mtu) = i.(mtu) /\ i'.(handler_done) = true /\ i'.(job_operation_data) = d.
Proof.
  intros F Hs Hh Hd. assert (exists i', PacketRecvInterface_Receiver_Recv i d = Some i') as [i' E].
  { unfold PacketRecvInterface_Receiver_Recv. rewrite Hh, (proj2 (is_state_true STATE_NONE i)) by done.
    destruct (Z.ltb_spec 0 (mtu i)); cbn; [|by eexists]. rewrite bool_decide_eq_false_2 by auto. by eexists. }
  exists i'. split; [done|]. split; [by eapply (flow_step_ok PacketRecv i (Start d 0))|].
  unfold PacketRecvInterface_Receiver_Recv in E. repeat case_match; simplify_eq. by repeat split.
Qed.

Lemma recv_finish i n : flow_ok PacketRecv i -> i.(state) = STATE_BUSY -> 0 <= n <= i.(mtu) ->
  exists i', PacketRecvInterface_Done i n = Some i' /\ flow_ok PacketRecv i' /\ i'.(state) = STATE_DONE_PENDING /\
    i'.(mtu) = i.(mtu) /\ i'.(handler_done) = i.(handler_done) /\ i'.(job_operation_data) = i.(job_operation_data) /\ i'.(job_done_len) = n.
Proof.
  intros F Hs Hn. assert (exists i', PacketRecvInterface_Done i n = Some i') as [i' E].
  { unfold PacketRecvInterface_Done. rewrite (proj2 (is_state_true STATE_BUSY i)), !(proj2 (Z.leb_le _ _)) by (done || lia). by eexists. }
  exists i'. split; [done|]. split; [by eapply (flow_step_ok PacketRecv i (Finish n))|].
  unfold PacketRecvInterface_Done in E. repeat case_match; simplify_eq. by repeat split.
Qed.

Lemma stream_start i d n : flow_ok StreamPass i -> i.(state) = STATE_NONE -> i.(handler_done) = true -> 0 < n -> d <> None ->
  exists i', StreamPassInterface_Sender_Send i d n = Some i' /\ flow_ok StreamPass i' /\ i'.(state) = STATE_OPERATION_PENDING /\
    i'.(handler_done) = true /\ i'.(job_operation_data) = d /\ i'.(job_operation_len) = n.
Proof.
  intros F Hs Hh Hn Hd. assert (exists i', StreamPassInterface_Sender_Send i d n = Some i') as [i' E].
  { unfold StreamPassInterface_Sender_Send. rewrite Hh, (proj2 (is_state_true STATE_NONE i)), (proj2 (Z.ltb_lt _ _)), bool_decide_eq_false_2 by done. by eexists. }
  exists i'. split; [done|]. split; [by eapply (flow_step_ok StreamPass i (Start d n))|].
  unfold StreamPassInterface_Sender_Send in E. repeat case_match; simplify_eq. by repeat split.
Qed.

Lemma stream_finish i n : flow_ok StreamPass i -> i.(state) = STATE_BUSY -> 0 < n <= i.(job_operation_len) ->
  exists i', StreamPassInterface_Done i n = Some i' /\ flow_ok StreamPass i' /\ i'.(state) = STATE_DONE_PENDING /\
    i'.(handler_done) = i.(handler_done) /\ i'.(job_operation_data) = i.(job_operation_data) /\
    i'.(job_operation_len) = i.(job_operation_len) /\ i'.(job_done_len) = n.
Proof.
  intros F Hs Hn. assert (exists i', StreamPassInterface_Done i n = Some i') as [i' E].
  { unfold StreamPassInterface_Done. rewrite (proj2 (is_state_true STATE_BUSY i)), (proj2 (Z.ltb_lt _ _)), (proj2 (Z.leb_le _ _)) by (done || lia). by eexists. }
  exists i'. split; [done|]. split; [by eapply (flow_step_ok StreamPass i (Finish n))|].
  unfold StreamPassInterface_Done in E. repeat case_match; simplify_eq. by repeat split.
Qed.

(** The receiving stream has the same operations. *)
Lemma stream_kinds i : flow_ok StreamRecv i <-> flow_ok StreamPass i.
Proof. by split; intros [F1 F2 F3]; (split; [done|done|]); intros Hc; destruct (F3 Hc) as [? _]. Qed.

Lemma recv_stream_start i d n : flow_ok StreamRecv i -> i.(state) = STATE_NONE -> i.(handler_done) = true -> 0 < n -> d <> None ->
  exists i', StreamRecvInterface_Receiver_Recv i d n = Some i' /\ flow_ok StreamRecv i' /\ i'.(state) = STATE_OPERATION_PENDING /\
    i'.(handler_done) = true /\ i'.(job_operation_data) = d /\ i'.(job_operation_len) = n.
Proof. rewrite stream_kinds. intros. setoid_rewrite stream_kinds. by apply stream_start. Qed.

Lemma recv_stream_finish i n : flow_ok StreamRecv i -> i.(state) = STATE_BUSY -> 0 < n <= i.(job_operation_len) ->
  exists i', StreamRecvInterface_Done i n = Some i' /\ flow_ok StreamRecv i' /\ i'.(state) = STATE_DONE_PENDING /\
    i'.(handler_done) = i.(handler_done) /\ i'.(job_operation_data) = i.(job_operation_data) /\
    i'.(job_operation_len) = i.(job_operation_len) /\ i'.(job_done_len) = n.
Proof. rewrite stream_kinds. intros. setoid_rewrite stream_kinds. by apply stream_finish. Qed.

End Flow.
