(* ===== verification/ChunkBuffer.v ===== *)
(** * The circular packet buffer

    Models [structure/ChunkBuffer2.h].  The buffer is
    the byte array behind [struct ChunkBuffer2_block *], so that the packets
    written through [input_dest] and the lengths written by [SubmitPacket]
    share one memory; pointers into it are byte offsets, and [None] is the null
    pointer.  All [int] values stay between 0 and [size], except the product
    that gives [input_avail], which is computed in [size_t] and converted
    back.  A result [None] is a failed [ASSERT] or an access outside the
    array. *)

From S2P Require Import Prelude.
From S2P Require Import Words.
From S2P Require Import CLib.
Import Bsize.

Module ChunkBuffer.

(** [sizeof(struct ChunkBuffer2_block)]. *)
Definition sizeof_block : Z := 4.

Record ChunkBuffer2 := MkBuffer {
  buffer : bytes;
  size : Z;
  wrap : Z;
  start : Z;
  used : Z;
  mtu : Z;
  input_dest : option Z;
  input_avail : Z;
  output_dest : option Z;
  output_avail : Z;
}.

Definition set_buffer m b := MkBuffer m b.(size) b.(wrap) b.(start) b.(used) b.(mtu) b.(input_dest) b.(input_avail) b.(output_dest) b.(output_avail).
Definition set_shape w s u b := MkBuffer b.(buffer) b.(size) w s u b.(mtu) b.(input_dest) b.(input_avail) b.(output_dest) b.(output_avail).
Definition set_input d a b := MkBuffer b.(buffer) b.(size) b.(wrap) b.(start) b.(used) b.(mtu) d a b.(output_dest) b.(output_avail).
Definition set_output d a b := MkBuffer b.(buffer) b.(size) b.(wrap) b.(start) b.(used) b.(mtu) b.(input_dest) b.(input_avail) d a.

(** [buf->buffer[i].len]. *)
Definition block_len (b : ChunkBuffer2) (i : Z) : option Z :=
  if (0 <=? i) && (sizeof_block * i + sizeof_block <=? Z.of_nat (length b.(buffer)))
  then Some (to_int (le_dec (take 4 (drop (Z.to_nat (sizeof_block * i)) b.(buffer)))))
  else None.

Definition blocks_for (len : Z) : Z := to_int (bdivide_up (u64 len) sizeof_block).

Definition _ChunkBuffer2_end (b : ChunkBuffer2) : Z :=
  if b.(wrap) - b.(start) <=? b.(used) then b.(used) - (b.(wrap) - b.(start))
  else b.(start) + b.(used).

Definition _ChunkBuffer2_assert_buffer (b : ChunkBuffer2) : bool :=
  (0 <? b.(size)) && (0 <? b.(wrap)) && (b.(wrap) <=? b.(size)) && (0 <=? b.(start))
  && (b.(start) <? b.(wrap)) && (0 <=? b.(used)) && (b.(used) <=? b.(wrap))
  && ((b.(wrap) =? b.(size)) || (b.(wrap) - b.(start) <=? b.(used))) && (0 <=? b.(mtu)).

(** The number of free blocks after [end]. *)
Definition free_blocks (b : ChunkBuffer2) (e : Z) : Z :=
  if b.(wrap) - b.(start) <=? b.(used) then b.(start) - e else b.(size) - e.

Definition assert_input (b : ChunkBuffer2) : bool :=
  let e := _ChunkBuffer2_end b in
  let nowhere := bool_decide (b.(input_dest) = None) && (b.(input_avail) =? -1) in
  if b.(size) - e - 1 <? b.(mtu) then nowhere
  else
    let free := free_blocks b e in
    if 0 <? free then
      bool_decide (b.(input_dest) = Some (sizeof_block * (e + 1)))
      && (u64 b.(input_avail) =? u64 ((free - 1) * sizeof_block))
    else nowhere.

Definition assert_output (b : ChunkBuffer2) : option bool :=
  if 0 <? b.(used) then
    LET datalen <- block_len b b.(start) in
    ASSERT 0 <=? datalen in
    let blocklen := blocks_for datalen in
    ASSERT blocklen <=? b.(used) - 1 in
    ASSERT blocklen <=? b.(wrap) - b.(start) - 1 in
    Some (bool_decide (b.(output_dest) = Some (sizeof_block * (b.(start) + 1)))
          && (b.(output_avail) =? datalen))
  else Some (bool_decide (b.(output_dest) = None) && (b.(output_avail) =? -1)).

Definition _ChunkBuffer2_assert_io (b : ChunkBuffer2) : bool :=
  assert_input b && bool_decide (assert_output b = Some true).

Definition _ChunkBuffer2_update_input (b : ChunkBuffer2) : ChunkBuffer2 :=
  let e := _ChunkBuffer2_end b in
  if b.(size) - e - 1 <? b.(mtu) then set_input None (-1) b
  else
    let free := free_blocks b e in
    if 0 <? free then
      set_input (Some (sizeof_block * (e + 1))) (to_int (u64 ((free - 1) * sizeof_block))) b
    else set_input None (-1) b.

Definition _ChunkBuffer2_update_output (b : ChunkBuffer2) : option ChunkBuffer2 :=
  if 0 <? b.(used) then
    LET datalen <- block_len b b.(start) in
    ASSERT 0 <=? datalen in
    let blocklen := blocks_for datalen in
    ASSERT blocklen <=? b.(used) - 1 in
    ASSERT blocklen <=? b.(wrap) - b.(start) - 1 in
    Some (set_output (Some (sizeof_block * (b.(start) + 1))) datalen b)
  else Some (set_output None (-1) b).

Definition ChunkBuffer2_calc_blocks (chunk_len num : Z) : Z :=
  let chunk_data_blocks := blocks_for chunk_len in
  if INT_MAX - 1 <? chunk_data_blocks then -1
  else
    let chunk_blocks := 1 + chunk_data_blocks in
    if INT_MAX - 1 <? num then -1
    else
      let num_chunks := num + 1 in
      if INT_MAX / num_chunks <? chunk_blocks then -1
      else chunk_blocks * num_chunks.

Definition ChunkBuffer2_Init (mem : bytes) (blocks mtu : Z) : option ChunkBuffer2 :=
  ASSERT 0 <? blocks in
  ASSERT 0 <=? mtu in
  let b := MkBuffer mem blocks blocks 0 0 (blocks_for mtu) None 0 None 0 in
  ASSERT _ChunkBuffer2_assert_buffer b in
  let b := _ChunkBuffer2_update_input b in
  LET b <- _ChunkBuffer2_update_output b in
  ASSERT _ChunkBuffer2_assert_io b in
  Some b.

Definition ChunkBuffer2_SubmitPacket (b : ChunkBuffer2) (len : Z) : option ChunkBuffer2 :=
  ASSERT negb (bool_decide (b.(input_dest) = None)) in
  ASSERT 0 <=? len in
  ASSERT len <=? b.(input_avail) in
  ASSERT _ChunkBuffer2_assert_buffer b in
  ASSERT _ChunkBuffer2_assert_io b in
  let e := _ChunkBuffer2_end b in
  let blocklen := blocks_for len in
  ASSERT blocklen <=? b.(size) - e - 1 in
  ASSERT (b.(used) <? b.(wrap) - b.(start)) || (blocklen <=? b.(start) - e - 1) in
  LET m <- store (Z.to_nat (sizeof_block * e)) (le_enc 4 len) b.(buffer) in
  let b := set_buffer m (set_shape b.(wrap) b.(start) (b.(used) + (1 + blocklen)) b) in
  let b :=
    if (b.(used) <=? b.(wrap) - b.(start)) && (b.(size) - (e + 1 + blocklen) - 1 <? b.(mtu))
    then set_shape (e + 1 + blocklen) b.(start) b.(used) b else b in
  ASSERT _ChunkBuffer2_assert_buffer b in
  let b := _ChunkBuffer2_update_input b in
  LET b <- (if b.(used) =? 1 + blocklen then _ChunkBuffer2_update_output b else Some b) in
  ASSERT _ChunkBuffer2_assert_io b in
  Some b.

Definition ChunkBuffer2_ConsumePacket (b : ChunkBuffer2) : option ChunkBuffer2 :=
  ASSERT negb (bool_decide (b.(output_dest) = None)) in
  ASSERT _ChunkBuffer2_assert_buffer b in
  ASSERT _ChunkBuffer2_assert_io b in
  ASSERT 1 <=? b.(wrap) - b.(start) in
  ASSERT 1 <=? b.(used) in
  LET len <- block_len b b.(start) in
  let blocklen := blocks_for len in
  ASSERT blocklen <=? b.(wrap) - b.(start) - 1 in
  ASSERT blocklen <=? b.(used) - 1 in
  let data_wrapped := b.(wrap) - b.(start) <=? b.(used) in
  let b := set_shape b.(wrap) (b.(start) + (1 + blocklen)) (b.(used) - (1 + blocklen)) b in
  let b := if b.(start) =? b.(wrap) then set_shape b.(size) 0 b.(used) b else b in
  ASSERT _ChunkBuffer2_assert_buffer b in
  let b := if data_wrapped then _ChunkBuffer2_update_input b else b in
  LET b <- _ChunkBuffer2_update_output b in
  ASSERT _ChunkBuffer2_assert_io b in
  Some b.

(** The user of the buffer writes at an offset it got as [input_dest] and
    reads what [output_dest] and [output_avail] show. *)
Definition write_at (off : Z) (d : bytes) (b : ChunkBuffer2) : option ChunkBuffer2 :=
  ASSERT 0 <=? off in
  LET m <- store (Z.to_nat off) d b.(buffer) in Some (set_buffer m b).
Definition read_at (off len : Z) (b : ChunkBuffer2) : bytes :=
  take (Z.to_nat len) (drop (Z.to_nat off) b.(buffer)).

(** ** The layout of the queue

    The abstract state is the list of the packets in the buffer.  A packet
    takes one block for its length and as many as its data needs; the packets
    lie one after the other from [start], up to [wrap], and go on from 0. *)
Definition blocks (p : bytes) : Z := bdivide_up (Z.of_nat (length p)) sizeof_block.

Fixpoint total (q : list bytes) : Z :=
  match q with
  | [] => 0
  | p :: q => 1 + blocks p + total q
  end.

(** The packets [q] lie from block [at_], each at a block not after [last]. *)
Fixpoint segment (mem : bytes) (last at_ : Z) (q : list bytes) : Prop :=
  match q with
  | [] => True
  | p :: q =>
      at_ <= last /\ bytes_at mem (sizeof_block * at_) (le_enc 4 (Z.of_nat (length p))) /\
      bytes_at mem (sizeof_block * (at_ + 1)) p /\ segment mem last (at_ + 1 + blocks p) q
  end.

(** The packets up to [wrap] are [q1], the ones that wrapped around [q2]. *)
Record layout (b : ChunkBuffer2) (q1 q2 : list bytes) : Prop := {
  l_mem : Z.of_nat (length b.(buffer)) = sizeof_block * b.(size);
  l_max : sizeof_block * b.(size) <= INT_MAX;
  l_mtu : 0 <= b.(mtu);
  l_start : 0 <= b.(start) < b.(wrap);
  l_wrap : b.(wrap) <= b.(size);
  l_seg1 : segment b.(buffer) (b.(size) - 1 - b.(mtu)) b.(start) q1;
  l_seg2 : segment b.(buffer) (b.(size) - 1 - b.(mtu)) 0 q2;
  l_shape :
    (q2 = [] /\ b.(wrap) = b.(size) /\ total q1 = b.(used)
       /\ b.(start) + b.(used) + 1 + b.(mtu) <= b.(size)) \/
    (total q1 = b.(wrap) - b.(start) /\ total q2 = b.(used) - (b.(wrap) - b.(start))
       /\ total q2 <= b.(start) /\ b.(size) <= b.(wrap) + b.(mtu));
}.

(** What the buffer offers to the writer and to the reader. *)
Definition input_ok (b : ChunkBuffer2) : Prop :=
  let e := _ChunkBuffer2_end b in
  let free := free_blocks b e in
  if 0 <? free then b.(input_dest) = Some (sizeof_block * (e + 1)) /\ b.(input_avail) = (free - 1) * sizeof_block
  else b.(input_dest) = None /\ b.(input_avail) = -1.

Definition output_ok (b : ChunkBuffer2) (q : list bytes) : Prop :=
  match q with
  | [] => b.(output_dest) = None /\ b.(output_avail) = -1
  | p :: _ => b.(output_dest) = Some (sizeof_block * (b.(start) + 1)) /\ b.(output_avail) = Z.of_nat (length p)
  end.

(** The buffer holds the queue [q]. *)
Definition rep (b : ChunkBuffer2) (q : list bytes) : Prop :=
  exists q1 q2, q = q1 ++ q2 /\ layout b q1 q2 /\ input_ok b /\ output_ok b q.

(** *** Lemmas on blocks and segments *)

Ltac blk := unfold sizeof_block, INT_MAX in *; lia.

Lemma blocks_nonneg p : 0 <= blocks p.
Proof. apply bdivide_up_nonneg; unfold sizeof_block; lia. Qed.

Lemma blocks_spec p : sizeof_block * blocks p - sizeof_block < Z.of_nat (length p) <= sizeof_block * blocks p.
Proof. apply bdivide_up_spec; unfold sizeof_block; lia. Qed.

Lemma total_nonneg q : 0 <= total q.
Proof. induction q as [|p q IH]; cbn [total]; [done|]. pose proof (blocks_nonneg p). lia. Qed.

Lemma total_app q q' : total (q ++ q') = total q + total q'.
Proof. induction q as [|p q IH]; cbn [total app]; [done|]. lia. Qed.

Lemma total_pos q : 0 < total q -> exists p q', q = p :: q'.
Proof. destruct q as [|p q']; [cbn [total]; lia|eauto]. Qed.

Lemma blocks_for_length p : Z.of_nat (length p) <= INT_MAX -> blocks_for (Z.of_nat (length p)) = blocks p.
Proof.
  intros H. pose proof (blocks_spec p). pose proof (blocks_nonneg p).
  unfold blocks_for, blocks, INT_MAX, sizeof_block in *. rewrite u64_small by lia. apply to_int_small. lia.
Qed.

Lemma segment_store mem mem' off d last a q :
  store off d mem = Some mem' -> segment mem last a q ->
  (Z.of_nat (off + length d) <= sizeof_block * a \/ sizeof_block * (a + total q) <= Z.of_nat off) ->
  segment mem' last a q.
Proof.
  intros E. revert a. induction q as [|p q IH]; intros a; cbn [segment total]; [done|].
  intros (Hl & Hh & Hp & Hq) Hd. pose proof (total_nonneg q). pose proof (blocks_spec p). unfold sizeof_block in *.
  repeat split; [done|eapply bytes_at_store; eauto..|apply IH; [done|lia]]; rewrite ?le_enc_length; lia.
Qed.

Lemma segment_app mem last a q q' :
  segment mem last a (q ++ q') <-> segment mem last a q /\ segment mem last (a + total q) q'.
Proof.
  revert a. induction q as [|p q IH]; intros a; cbn [segment total app]; [by rewrite Z.add_0_r; tauto|].
  rewrite IH. replace (a + 1 + blocks p + total q) with (a + (1 + blocks p + total q)) by lia. tauto.
Qed.

(** *** What a layout says of the fields *)

Lemma layout_cases b q1 q2 : layout b q1 q2 ->
  let e := _ChunkBuffer2_end b in
  0 <= e /\ 0 <= b.(used) /\
  ((b.(used) < b.(wrap) - b.(start) /\ q2 = [] /\ b.(wrap) = b.(size) /\ total q1 = b.(used) /\
     e = b.(start) + b.(used) /\ free_blocks b e = b.(size) - e /\ e + 1 + b.(mtu) <= b.(size)) \/
  (b.(wrap) - b.(start) <= b.(used) /\ total q1 = b.(wrap) - b.(start) /\ e = total q2 /\
     e = b.(used) - (b.(wrap) - b.(start)) /\ e <= b.(start) /\ free_blocks b e = b.(start) - e /\
     b.(start) + 1 + b.(mtu) <= b.(size) /\ b.(size) <= b.(wrap) + b.(mtu))).
Proof.
  intros [Hm Hx Ht Hs Hw S1 S2 Sh]. pose proof (total_nonneg q2). pose proof (total_nonneg q1).
  unfold free_blocks, _ChunkBuffer2_end. cbn zeta. split; [bool_cases; lia|split; [lia|]].
  destruct Sh as [(-> & E1 & E2 & E3)|(E1 & E2 & E3 & E4)]; bool_cases; try lia; [left|right].
  - repeat split; lia.
  - destruct (total_pos q1) as (p & q & ->); [lia|]. cbn [segment] in S1. repeat split; lia.
Qed.

Lemma layout_used b q1 q2 : layout b q1 q2 -> b.(used) = total (q1 ++ q2).
Proof. intros L. rewrite total_app. destruct (layout_cases _ _ _ L) as (_ & _ & [(?&->&?)|?]); cbn [total]; lia. Qed.

Lemma layout_assert b q1 q2 : layout b q1 q2 -> _ChunkBuffer2_assert_buffer b = true.
Proof.
  intros L. pose proof (layout_cases _ _ _ L) as C. pose proof (layout_used _ _ _ L).
  pose proof (total_nonneg (q1 ++ q2)). destruct L.
  unfold _ChunkBuffer2_assert_buffer. cbn zeta in C. bool_cases; lia.
Qed.

(** Only the memory and the shape matter. *)
Definition same_layout (b b' : ChunkBuffer2) : Prop :=
  b'.(buffer) = b.(buffer) /\ b'.(size) = b.(size) /\ b'.(wrap) = b.(wrap) /\
  b'.(start) = b.(start) /\ b'.(used) = b.(used) /\ b'.(mtu) = b.(mtu).

Lemma layout_same b b' q1 q2 : same_layout b b' -> layout b q1 q2 -> layout b' q1 q2.
Proof.
  intros (E1 & E2 & E3 & E4 & E5 & E6) []. split; rewrite ?E1, ?E2, ?E3, ?E4, ?E5, ?E6; done.
Qed.

(** The two ends of the buffer are brought up to date. *)
Lemma update_input_ok b q1 q2 : layout b q1 q2 ->
  exists d a, _ChunkBuffer2_update_input b = set_input d a b /\ input_ok (set_input d a b).
Proof.
  intros L. pose proof (layout_cases _ _ _ L) as C. destruct L. cbn zeta in C.
  unfold _ChunkBuffer2_update_input, INT_MAX, sizeof_block in *. cbn zeta.
  rewrite (proj2 (Z.ltb_ge _ _)) by lia.
  destruct (0 <? free_blocks b (_ChunkBuffer2_end b)) eqn:F; eexists _, _; (split; [reflexivity|]);
    unfold input_ok; cbn zeta.
  all: repeat match goal with
    | |- context [_ChunkBuffer2_end (set_input ?d ?a ?c)] => change (_ChunkBuffer2_end (set_input d a c)) with (_ChunkBuffer2_end c)
    | |- context [free_blocks (set_input ?d ?a ?c)] => change (free_blocks (set_input d a c)) with (free_blocks c) end.
  all: rewrite F; cbn [input_dest input_avail set_input]; split; try done.
  to_prop. unfold sizeof_block. rewrite u64_small, to_int_small; lia.
Qed.

Lemma assert_input_ok b q1 q2 : layout b q1 q2 -> input_ok b -> assert_input b = true.
Proof.
  intros L I. pose proof (layout_cases _ _ _ L) as C. destruct L. unfold assert_input, input_ok in *. cbn zeta in *.
  rewrite (proj2 (Z.ltb_ge _ _)) by lia.
  destruct (0 <? free_blocks b (_ChunkBuffer2_end b)); destruct I as [-> ->]; by rewrite bool_decide_eq_true_2, Z.eqb_refl.
Qed.

Lemma packet_bound b q1 q2 p : layout b q1 q2 -> 1 + blocks p <= b.(size) -> Z.of_nat (length p) <= INT_MAX.
Proof. intros [] H. pose proof (blocks_spec p). unfold sizeof_block in *. lia. Qed.

(** The length the buffer reads for its first packet. *)
Lemma first_packet b p q1 q2 : layout b (p :: q1) q2 ->
  block_len b b.(start) = Some (Z.of_nat (length p)) /\ blocks_for (Z.of_nat (length p)) = blocks p /\
  0 <= blocks p <= b.(used) - 1 /\ blocks p <= b.(wrap) - b.(start) - 1.
Proof.
  intros L. pose proof (layout_cases _ _ _ L) as C. pose proof (total_nonneg q1). pose proof (total_nonneg q2).
  pose proof (blocks_nonneg p).
  assert (Z.of_nat (length p) <= INT_MAX) as HL.
  { eapply packet_bound; [done|]. cbn [total] in C. destruct L. lia. }
  split; [|split; [by apply blocks_for_length|cbn [total] in C; lia]].
  destruct L. cbn [segment] in *. destruct l_seg3 as (_ & Hh & _). unfold block_len.
  cbn [total] in C. unfold INT_MAX, sizeof_block in *.
  rewrite (proj2 (Z.leb_le _ _)), (proj2 (Z.leb_le (4 * start b + 4) _)) by lia. cbn [andb].
  apply bytes_at_read in Hh. rewrite le_enc_length in Hh. rewrite Hh, le_dec_enc, to_int_small by (cbn; lia). done.
Qed.

Lemma update_output_ok b q1 q2 : layout b q1 q2 ->
  exists d a, _ChunkBuffer2_update_output b = Some (set_output d a b) /\ output_ok (set_output d a b) (q1 ++ q2).
Proof.
  intros L. pose proof (layout_used _ _ _ L) as U. pose proof (layout_cases _ _ _ L) as C.
  unfold _ChunkBuffer2_update_output. destruct q1 as [|p q1].
  - cbn [total] in C. destruct C as (_ & _ & [(_ & -> & _ & E & _)|(_ & E & _)]); [|destruct L; lia].
    rewrite <- E. eexists _, _. split; [reflexivity|done].
  - destruct (first_packet _ _ _ _ L) as (-> & E & [H0 H1] & H2). rewrite E.
    rewrite (proj2 (Z.ltb_lt _ _)), !(proj2 (Z.leb_le _ _)) by lia. eexists _, _. by split.
Qed.

Lemma assert_output_ok b q1 q2 : layout b q1 q2 -> output_ok b (q1 ++ q2) -> assert_output b = Some true.
Proof.
  intros L O. pose proof (layout_used _ _ _ L) as U. pose proof (layout_cases _ _ _ L) as C.
  unfold assert_output. destruct q1 as [|p q1].
  - cbn [total] in C. destruct C as (_ & _ & [(_ & -> & _ & E & _)|(_ & E & _)]); [|destruct L; lia].
    cbn in O. destruct O as [-> ->]. by rewrite <- E.
  - destruct (first_packet _ _ _ _ L) as (-> & E & [H0 H1] & H2). rewrite E. cbn in O. destruct O as [-> ->].
    rewrite (proj2 (Z.ltb_lt _ _)), !(proj2 (Z.leb_le _ _)), bool_decide_eq_true_2, Z.eqb_refl by (done || lia). done.
Qed.

Lemma assert_io_ok b q1 q2 : layout b q1 q2 -> input_ok b -> output_ok b (q1 ++ q2) -> _ChunkBuffer2_assert_io b = true.
Proof.
  intros L I O. unfold _ChunkBuffer2_assert_io. rewrite (assert_input_ok _ _ _ L I), (assert_output_ok _ _ _ L O).
  by rewrite bool_decide_eq_true_2.
Qed.

(** *** The operations on a layout *)

Lemma layout_writable b q1 q2 off d m :
  layout b q1 q2 -> store (Z.to_nat off) d b.(buffer) = Some m ->
  let e := _ChunkBuffer2_end b in
  sizeof_block * e <= off -> off + Z.of_nat (length d) <= sizeof_block * (e + free_blocks b e) ->
  layout (set_buffer m b) q1 q2.
Proof.
  intros L E e H1 H2. pose proof (layout_cases _ _ _ L) as C. fold e in C. cbn zeta in C. pose proof (store_length _ _ _ _ E).
  destruct L. split; cbn; [blk|try done..].
  - eapply segment_store; [done..|]. blk.
  - destruct C as (_ & _ & [(_ & -> & _)|C]); [done|]. eapply segment_store; [done..|]. blk.
Qed.

Definition submitted (b : ChunkBuffer2) (m : bytes) (n : Z) : ChunkBuffer2 :=
  let e := _ChunkBuffer2_end b in
  let b := set_buffer m (set_shape b.(wrap) b.(start) (b.(used) + (1 + n)) b) in
  if (b.(used) <=? b.(wrap) - b.(start)) && (b.(size) - (e + 1 + n) - 1 <? b.(mtu))
  then set_shape (e + 1 + n) b.(start) b.(used) b else b.

Lemma submitted_layout b q1 q2 d m :
  layout b q1 q2 ->
  let e := _ChunkBuffer2_end b in
  1 + blocks d <= free_blocks b e ->
  bytes_at b.(buffer) (sizeof_block * (e + 1)) d ->
  store (Z.to_nat (sizeof_block * e)) (le_enc 4 (Z.of_nat (length d))) b.(buffer) = Some m ->
  exists q1' q2', q1' ++ q2' = (q1 ++ q2) ++ [d] /\ layout (submitted b m (blocks d)) q1' q2'.
Proof.
  intros L e Hf Hd E. pose proof (layout_cases _ _ _ L) as C. fold e in C. cbn zeta in C. pose proof (store_length _ _ _ _ E).
  pose proof (blocks_spec d). pose proof (blocks_nonneg d).
  assert (layout (set_buffer m b) q1 q2) as [] by (eapply layout_writable; eauto; fold e; rewrite ?le_enc_length; blk).
  assert (bytes_at m (sizeof_block * e) (le_enc 4 (Z.of_nat (length d)))) as B1 by (apply (bytes_at_stored b.(buffer)); [blk|exact E]).
  assert (bytes_at m (sizeof_block * (e + 1)) d) as B2.
  { eapply bytes_at_store; [done..|]. rewrite le_enc_length. blk. }
  cbn in *. unfold submitted. cbn zeta. fold e. cbn.
  destruct C as (He & Hu & [(U & -> & W & T & Ee & F & R)|(U & T & T2 & Ee & R1 & F & R2 & R3)]).
  - exists (q1 ++ [d]), []. rewrite !app_nil_r. split; [done|].
    assert (segment m (size b - 1 - mtu b) (start b) (q1 ++ [d])) as S'.
    { apply segment_app. split; [done|]. rewrite T, <- Ee. cbn [segment]. repeat split; [lia|apply B1..|apply B2|apply B2]. }
    assert (total (q1 ++ [d]) = used b + (1 + blocks d)) as T' by (rewrite total_app; cbn [total]; lia).
    destruct (Z.leb_spec (used b + (1 + blocks d)) (wrap b - start b)), (Z.ltb_spec (size b - (e + 1 + blocks d) - 1) (mtu b));
      cbn; split; cbn; try done; try blk.
    left. repeat split; lia.
  - exists q1, (q2 ++ [d]). split; [by rewrite app_assoc|].
    rewrite (proj2 (Z.leb_gt _ _)) by lia. cbn.
    split; cbn; try done; try blk.
    + apply segment_app. split; [done|]. rewrite <- T2, Z.add_0_l. cbn [segment]. repeat split; [lia|apply B1..|apply B2|apply B2].
    + right. rewrite total_app. cbn [total]. repeat split; lia.
Qed.

Definition consumed (b : ChunkBuffer2) (n : Z) : ChunkBuffer2 :=
  let b := set_shape b.(wrap) (b.(start) + (1 + n)) (b.(used) - (1 + n)) b in
  if b.(start) =? b.(wrap) then set_shape b.(size) 0 b.(used) b else b.

Lemma consumed_layout b p q1 q2 : layout b (p :: q1) q2 ->
  exists q1' q2', q1' ++ q2' = q1 ++ q2 /\ layout (consumed b (blocks p)) q1' q2' /\
    _ChunkBuffer2_end (consumed b (blocks p)) = _ChunkBuffer2_end b.
Proof.
  intros L. pose proof (layout_cases _ _ _ L) as C. cbn zeta in C. pose proof (total_nonneg q1). pose proof (blocks_nonneg p).
  destruct L. cbn [segment total] in *. unfold consumed, _ChunkBuffer2_end in *. cbn.
  destruct l_seg3 as (P1 & _ & _ & S1). replace (start b + 1 + blocks p) with (start b + (1 + blocks p)) in S1 by lia.
  destruct (Z.eqb_spec (start b + (1 + blocks p)) (wrap b)).
  - destruct C as (_ & _ & [C|C]); [lia|]. assert (q1 = []) as ->.
    { destruct q1 as [|p' q1]; [done|]. cbn [total] in C. pose proof (total_nonneg q1). pose proof (blocks_nonneg p'). lia. }
    exists q2, []. rewrite app_nil_r. split; [done|]. cbn. split; [|bool_cases; lia].
    split; cbn; try done; try blk. left. cbn [total] in *. repeat split; try lia.
  - destruct C as (_ & _ & [(U & -> & C)|C]); [exists q1, []|exists q1, q2]; (split; [done|]); cbn; (split; [|bool_cases; lia]).
    + split; cbn; try done; try blk. left. repeat split; lia.
    + split; cbn; try done; blk.
Qed.

(** *** The operations refine those of a queue *)

Lemma finish b q1 q2 : layout b q1 q2 -> input_ok b -> output_ok b (q1 ++ q2) ->
  _ChunkBuffer2_assert_io b = true /\ rep b (q1 ++ q2).
Proof. intros L I O. split; [by apply (assert_io_ok _ q1 q2)|]. by exists q1, q2. Qed.

Lemma init_rep mem blocks mtu :
  Z.of_nat (length mem) = sizeof_block * blocks -> sizeof_block * blocks <= INT_MAX -> 0 <= mtu ->
  1 + bdivide_up mtu sizeof_block <= blocks ->
  exists b, ChunkBuffer2_Init mem blocks mtu = Some b /\ rep b [] /\ b.(size) = blocks /\
    b.(ChunkBuffer.mtu) = bdivide_up mtu sizeof_block.
Proof.
  intros Hm Hx H0 Hb. pose proof (bdivide_up_spec mtu sizeof_block ltac:(unfold sizeof_block; lia) H0) as Sp.
  pose proof (bdivide_up_nonneg mtu sizeof_block ltac:(unfold sizeof_block; lia) H0) as Hn.
  assert (blocks_for mtu = bdivide_up mtu sizeof_block) as E.
  { unfold blocks_for. rewrite u64_small, to_int_small; blk. }
  unfold ChunkBuffer2_Init. rewrite (proj2 (Z.ltb_lt _ _)), (proj2 (Z.leb_le _ _)), E by lia. cbn zeta.
  set (b := MkBuffer _ _ _ _ _ _ _ _ _ _).
  assert (layout b [] []) as L by (split; cbn; try done; try lia; left; repeat split; cbn [total]; lia).
  rewrite (layout_assert _ _ _ L). destruct (update_input_ok _ _ _ L) as (d & a & -> & I).
  assert (layout (set_input d a b) [] []) as L' by (by apply (layout_same b)).
  destruct (update_output_ok _ _ _ L') as (d' & a' & -> & O).
  destruct (finish (set_output d' a' (set_input d a b)) [] []) as [-> R]; [by apply (layout_same b)|done..|].
  by eexists.
Qed.

(** Writing where the buffer offers room keeps the queue. *)
Lemma write_rep b q off k d :
  rep b q -> b.(input_dest) = Some off -> 0 <= k -> k + Z.of_nat (length d) <= b.(input_avail) ->
  exists m, write_at (off + k) d b = Some (set_buffer m b) /\ rep (set_buffer m b) q /\ bytes_at m (off + k) d.
Proof.
  intros (q1 & q2 & -> & L & I & O) Hd Hk Ha. unfold input_ok in I. cbn zeta in I.
  pose proof (layout_cases _ _ _ L) as C. cbn zeta in C.
  destruct (Z.ltb_spec 0 (free_blocks b (_ChunkBuffer2_end b))) as [F|F]; destruct I as [I1 I2]; [|congruence].
  rewrite I1 in Hd. injection Hd as <-. rewrite I2 in Ha. unfold write_at.
  rewrite (proj2 (Z.leb_le _ _)) by blk.
  destruct (store_total (Z.to_nat (sizeof_block * (_ChunkBuffer2_end b + 1) + k)) d b.(buffer)) as [m E]; [destruct L; blk|].
  rewrite E. exists m. split; [done|]. split; [|by eapply bytes_at_stored; [blk|]].
  exists q1, q2. split; [done|]. split; [eapply layout_writable; eauto; blk|]. split; [|done].
  change (input_ok b). unfold input_ok. cbn zeta. by rewrite (proj2 (Z.ltb_lt _ _)).
Qed.

Lemma update_input_layout b q1 q2 q : layout b q1 q2 -> output_ok b q ->
  layout (_ChunkBuffer2_update_input b) q1 q2 /\ input_ok (_ChunkBuffer2_update_input b) /\
  output_ok (_ChunkBuffer2_update_input b) q /\
  (_ChunkBuffer2_update_input b).(used) = b.(used) /\ (_ChunkBuffer2_update_input b).(size) = b.(size) /\
  (_ChunkBuffer2_update_input b).(mtu) = b.(mtu).
Proof.
  intros L O. destruct (update_input_ok _ _ _ L) as (d & a & -> & I).
  split; [by apply (layout_same b)|]. done.
Qed.

Lemma submitted_fields b m n :
  let b' := submitted b m n in
  b'.(used) = b.(used) + (1 + n) /\ b'.(start) = b.(start) /\ b'.(size) = b.(size) /\ b'.(mtu) = b.(mtu) /\
  b'.(output_dest) = b.(output_dest) /\ b'.(output_avail) = b.(output_avail).
Proof. unfold submitted. cbn zeta. by destruct (_ && _). Qed.

Lemma output_ok_fields b b' q :
  b'.(start) = b.(start) -> b'.(output_dest) = b.(output_dest) -> b'.(output_avail) = b.(output_avail) ->
  output_ok b q -> output_ok b' q.
Proof. unfold output_ok. by intros -> -> ->. Qed.

Lemma submit_rep b q off d :
  rep b q -> b.(input_dest) = Some off -> Z.of_nat (length d) <= b.(input_avail) -> bytes_at b.(buffer) off d ->
  exists b', ChunkBuffer2_SubmitPacket b (Z.of_nat (length d)) = Some b' /\ rep b' (q ++ [d]) /\
    b'.(size) = b.(size) /\ b'.(mtu) = b.(mtu) /\ (q <> [] -> b'.(output_dest) = b.(output_dest)).
Proof.
  intros (q1 & q2 & -> & L & I & O) Hd Ha Hb.
  pose proof (layout_cases _ _ _ L) as C. pose proof (assert_io_ok _ _ _ L I O) as Io.
  unfold input_ok in I. cbn zeta in I, C. set (e := _ChunkBuffer2_end b) in *.
  destruct (Z.ltb_spec 0 (free_blocks b e)) as [F|F]; destruct I as [I1 I2]; [|congruence].
  assert (off = sizeof_block * (e + 1)) as -> by congruence. rewrite I2 in Ha.
  pose proof (blocks_spec d). pose proof (blocks_nonneg d).
  assert (1 + blocks d <= free_blocks b e) as Hf by blk.
  assert (blocks_for (Z.of_nat (length d)) = blocks d) as Eb by (apply blocks_for_length, (packet_bound _ _ _ _ L); destruct L; lia).
  unfold ChunkBuffer2_SubmitPacket. rewrite Io, (layout_assert _ _ _ L), bool_decide_eq_false_2 by congruence. fold e. cbn zeta. rewrite Eb, I2.
  rewrite !(proj2 (Z.leb_le _ _)) by (destruct L; lia).
  assert ((used b <? wrap b - start b) || (blocks d <=? start b - e - 1) = true) as -> by (destruct L; bool_cases; lia).
  destruct (store_total (Z.to_nat (sizeof_block * e)) (le_enc 4 (Z.of_nat (length d))) b.(buffer)) as [m E].
  { rewrite le_enc_length. destruct L. blk. }
  rewrite E. cbn [negb]. change (if _ && _ then _ else _) with (submitted b m (blocks d)).
  destruct (submitted_layout b q1 q2 d m L Hf Hb E) as (q1' & q2' & Eq & L').
  rewrite (layout_assert _ _ _ L'). destruct (submitted_fields b m (blocks d)) as (Fu & Fs & Fz & Fm & Fo & Fa).
  pose proof (layout_used _ _ _ L) as U. set (b2 := submitted b m (blocks d)) in *. clearbody b2.
  destruct (update_input_ok _ _ _ L') as (di & ai & -> & I').
  assert (layout (set_input di ai b2) q1' q2') as L2 by (by apply (layout_same b2)).
  rewrite <- Eq. cbn [used set_input]. destruct (Z.eqb_spec b2.(used) (1 + blocks d)).
  - destruct (update_output_ok _ _ _ L2) as (do & ao & -> & O').
    destruct (finish (set_output do ao (set_input di ai b2)) q1' q2') as [-> R]; [by apply (layout_same b2)|done..|].
    eexists. split; [done|]. split; [done|]. split; [done|]. split; [done|]. intros Hne. exfalso.
    destruct (q1 ++ q2) as [|p q]; [done|]. cbn [total] in U. pose proof (total_nonneg q). pose proof (blocks_nonneg p). lia.
  - destruct (finish (set_input di ai b2) q1' q2') as [-> R]; [done|done| |by eexists].
    rewrite Eq. apply (output_ok_fields b); [done..|]. destruct (q1 ++ q2) as [|p q]; [|done].
    cbn [total] in U. lia.
Qed.

(** Consuming never takes room away from the writer. *)
Lemma consumed_fields b p q1 q2 : layout b (p :: q1) q2 ->
  let b' := consumed b (blocks p) in let e := _ChunkBuffer2_end b in
  b'.(size) = b.(size) /\ b'.(mtu) = b.(mtu) /\ b'.(buffer) = b.(buffer) /\
  b'.(input_dest) = b.(input_dest) /\ b'.(input_avail) = b.(input_avail) /\
  free_blocks b e <= free_blocks b' e /\
  (b.(used) < b.(wrap) - b.(start) -> free_blocks b' e = free_blocks b e).
Proof.
  intros L. pose proof (layout_cases _ _ _ L) as C. pose proof (total_nonneg q1). pose proof (blocks_nonneg p).
  cbn zeta in *. destruct L. cbn [total] in *. unfold consumed, free_blocks in *. cbn.
  destruct (Z.eqb_spec (start b + (1 + blocks p)) (wrap b)); cbn; repeat split; bool_cases; lia.
Qed.

Lemma input_ok_dest b : input_ok b ->
  let e := _ChunkBuffer2_end b in
  forall off, b.(input_dest) = Some off <-> off = sizeof_block * (e + 1) /\ 0 < free_blocks b e.
Proof.
  unfold input_ok. cbn zeta. intros I off. destruct (Z.ltb_spec 0 (free_blocks b (_ChunkBuffer2_end b))); destruct I as [-> _].
  - split; [intros [= <-]|intros [-> _]]; done.
  - split; [done|lia].
Qed.

Lemma consume_rep b p q :
  rep b (p :: q) ->
  exists b', ChunkBuffer2_ConsumePacket b = Some b' /\ rep b' q /\ b'.(size) = b.(size) /\ b'.(mtu) = b.(mtu) /\
    (forall off, b.(input_dest) = Some off -> b'.(input_dest) = Some off /\ b.(input_avail) <= b'.(input_avail)) /\
    b'.(buffer) = b.(buffer).
Proof.
  intros (q1 & q2 & Eq & L & I & O). pose proof (layout_used _ _ _ L) as U. rewrite <- Eq in U.
  pose proof (layout_cases _ _ _ L) as C. cbn zeta in C. pose proof (blocks_nonneg p). pose proof (total_nonneg q).
  destruct q1 as [|p' q1]; [cbn [total] in C, U; destruct C as (_ & _ & [(_ & -> & C)|C]); [|destruct L]; cbn [total] in *; lia|].
  injection Eq as <- ->. unfold ChunkBuffer2_ConsumePacket.
  rewrite (assert_io_ok _ _ _ L I O), (layout_assert _ _ _ L), bool_decide_eq_false_2 by (cbn in O; destruct O; congruence).
  destruct (first_packet _ _ _ _ L) as (-> & E & [P0 P1] & P2). rewrite E. cbn [negb].
  rewrite !(proj2 (Z.leb_le _ _)) by (destruct L; lia). cbn zeta.
  change (if _ =? _ then _ else _) with (consumed b (blocks p)).
  destruct (consumed_layout _ _ _ _ L) as (q1' & q2' & <- & L' & Ee).
  rewrite (layout_assert _ _ _ L').
  destruct (consumed_fields _ _ _ _ L) as (Fz & Fm & Fb & Fd & Fa & Fr & Fl). cbn zeta in Fr, Fl.
  set (b2 := consumed b (blocks p)) in *. clearbody b2.
  assert (exists b3, (if wrap b - start b <=? used b then _ChunkBuffer2_update_input b2 else b2) = b3 /\
    same_layout b2 b3 /\ input_ok b3) as (b3 & -> & Sl & I3).
  { destruct (Z.leb_spec (wrap b - start b) (used b)).
    - destruct (update_input_ok _ _ _ L') as (d & a & -> & I'). by eexists.
    - eexists. split; [done|]. split; [done|]. unfold input_ok in *. cbn zeta in *. by rewrite Ee, Fl, Fd, Fa by lia. }
  assert (layout b3 q1' q2') as L3 by (by apply (layout_same b2)).
  destruct (update_output_ok _ _ _ L3) as (do & ao & -> & O').
  destruct (finish (set_output do ao b3) q1' q2') as [-> R]; [by apply (layout_same b3)|done..|].
  eexists. split; [done|]. split; [done|]. destruct Sl as (S1 & S2 & S3 & S4 & S5 & S6).
  repeat (split; [cbn; congruence|]). split; [|cbn; congruence]. cbn.
  assert (_ChunkBuffer2_end b3 = _ChunkBuffer2_end b) as E3 by (rewrite <- Ee; unfold _ChunkBuffer2_end; by rewrite S3, S4, S5).
  assert (free_blocks b3 (_ChunkBuffer2_end b) = free_blocks b2 (_ChunkBuffer2_end b)) as F3 by (unfold free_blocks; by rewrite S2, S3, S4, S5).
  intros off Hoff. pose proof (proj1 (input_ok_dest _ I off) Hoff) as [Ho Hf].
  unfold input_ok in I, I3. cbn zeta in I, I3. rewrite E3, F3 in I3.
  rewrite (proj2 (Z.ltb_lt _ _)) in I by lia. rewrite (proj2 (Z.ltb_lt _ _)) in I3 by lia. destruct I as [_ ->], I3 as [-> ->]. split; [by rewrite Ho|blk].
Qed.

(** The reader sees the first packet. *)
Lemma output_rep b p q : rep b (p :: q) ->
  exists off, b.(output_dest) = Some off /\ b.(output_avail) = Z.of_nat (length p) /\
    bytes_at b.(buffer) off p /\ read_at off b.(output_avail) b = p.
Proof.
  intros (q1 & q2 & Eq & L & I & O). cbn in O. destruct O as [-> ->]. eexists. split; [done|]. split; [done|].
  assert (bytes_at (buffer b) (sizeof_block * (start b + 1)) p) as B.
  { destruct q1 as [|p' q1]; [|injection Eq as <- _; destruct L as [_ _ _ _ _ S1 _ _]; apply S1].
    pose proof (layout_cases _ _ _ L) as C. cbn zeta in C. cbn [total] in C.
    destruct C as (_ & _ & [(_ & -> & C)|C]); [done|destruct L; lia]. }
  split; [done|]. unfold read_at. rewrite Nat2Z.id. by apply bytes_at_read.
Qed.

Lemma output_rep_empty b : rep b [] -> b.(output_dest) = None /\ b.(output_avail) = -1.
Proof. by intros (q1 & q2 & _ & _ & _ & O). Qed.

Lemma total_le k q : Forall (fun p => blocks p <= k) q -> total q <= Z.of_nat (length q) * (1 + k).
Proof. induction 1 as [|p q Hp Hq IH]; cbn [total length]; lia. Qed.

(** Room for one more packet of the MTU as long as fewer than [num] are queued. *)
Lemma room_rep b q num :
  rep b q -> (1 + b.(mtu)) * (num + 1) <= b.(size) -> Forall (fun p => blocks p <= b.(mtu)) q ->
  Z.of_nat (length q) < num -> is_Some b.(input_dest) /\ sizeof_block * b.(mtu) <= b.(input_avail).
Proof.
  intros (q1 & q2 & -> & L & I & O) Hs Hq Hn. pose proof (layout_cases _ _ _ L) as C. cbn zeta in C.
  pose proof (total_le _ _ Hq). rewrite <- (layout_used _ _ _ L) in *.
  assert (1 + b.(mtu) <= free_blocks b (_ChunkBuffer2_end b)) as F by (destruct L; nia).
  unfold input_ok in I. cbn zeta in I. rewrite (proj2 (Z.ltb_lt _ _)) in I by (destruct L; lia).
  destruct I as [-> ->]. split; [done|blk].
Qed.

Lemma input_dest_some b q : rep b q -> 0 <= b.(input_avail) -> is_Some b.(input_dest).
Proof. intros (q1 & q2 & _ & _ & I & _). unfold input_ok in I. cbn zeta in I. destruct (0 <? _); destruct I as [-> ->]; [done|lia]. Qed.

Lemma output_avail_sign b q : rep b q -> (b.(output_avail) <? 0) = bool_decide (q = []).
Proof. intros (q1 & q2 & _ & _ & _ & O). destruct q; destruct O as [_ ->]; [done|]. cbn. bool_cases; [lia|done]. Qed.

(** ** A bounded queue

    A user submits a packet when the buffer shows enough room for it and takes
    the packet that the buffer shows. *)
Inductive queue_op := Submit (d : bytes) | Take.
Inductive queue_event := Accepted (d : bytes) | Refused (d : bytes) | Taken (d : bytes) | Empty.

Definition user_step (b : ChunkBuffer2) (o : queue_op) : option (ChunkBuffer2 * queue_event) :=
  match o with
  | Submit d =>
      match b.(input_dest) with
      | Some off =>
          if Z.of_nat (length d) <=? b.(input_avail) then
            LET b <- write_at off d b in
            LET b <- ChunkBuffer2_SubmitPacket b (Z.of_nat (length d)) in
            Some (b, Accepted d)
          else Some (b, Refused d)
      | None => Some (b, Refused d)
      end
  | Take =>
      match b.(output_dest) with
      | Some off =>
          let d := read_at off b.(output_avail) b in
          LET b <- ChunkBuffer2_ConsumePacket b in Some (b, Taken d)
      | None => Some (b, Empty)
      end
  end.

Fixpoint user_run (b : ChunkBuffer2) (ops : list queue_op) : option (ChunkBuffer2 * list queue_event) :=
  match ops with
  | [] => Some (b, [])
  | o :: ops =>
      LET (b, ev) <- user_step b o in
      LET (b, evs) <- user_run b ops in Some (b, ev :: evs)
  end.

(** The specification: packets leave in the order they came, and one that is
    not longer than [mtu] is refused only when [num] packets are waiting or a
    longer one is. *)
Inductive queue_spec (mtu num : Z) : list bytes -> list queue_op -> list queue_event -> list bytes -> Prop :=
  | Q_done q : queue_spec mtu num q [] [] q
  | Q_accept q d ops evs q' :
      queue_spec mtu num (q ++ [d]) ops evs q' -> queue_spec mtu num q (Submit d :: ops) (Accepted d :: evs) q'
  | Q_refuse q d ops evs q' :
      mtu < Z.of_nat (length d) \/ num <= Z.of_nat (length q) \/ Exists (fun p => mtu < Z.of_nat (length p)) q ->
      queue_spec mtu num q ops evs q' -> queue_spec mtu num q (Submit d :: ops) (Refused d :: evs) q'
  | Q_take p q ops evs q' :
      queue_spec mtu num q ops evs q' -> queue_spec mtu num (p :: q) (Take :: ops) (Taken p :: evs) q'
  | Q_empty ops evs q' :
      queue_spec mtu num [] ops evs q' -> queue_spec mtu num [] (Take :: ops) (Empty :: evs) q'.

Lemma calc_blocks_spec chunk_len num :
  0 <= chunk_len <= INT_MAX -> 0 <= num <= INT_MAX ->
  ChunkBuffer2_calc_blocks chunk_len num =
    let n := (1 + bdivide_up chunk_len sizeof_block) * (num + 1) in if n <=? INT_MAX then n else -1.
Proof.
  intros Hc Hn. pose proof (bdivide_up_spec chunk_len sizeof_block ltac:(unfold sizeof_block; lia) ltac:(lia)) as Sp.
  pose proof (bdivide_up_nonneg chunk_len sizeof_block ltac:(unfold sizeof_block; lia) ltac:(lia)) as H0.
  assert (blocks_for chunk_len = bdivide_up chunk_len sizeof_block) as E.
  { unfold blocks_for. rewrite u64_small, to_int_small; blk. }
  unfold ChunkBuffer2_calc_blocks. rewrite E. cbn zeta. set (k := bdivide_up _ _) in *. clearbody k.
  rewrite (proj2 (Z.ltb_ge _ _)) by blk.
  destruct (Z.ltb_spec (INT_MAX - 1) num); [rewrite (proj2 (Z.leb_gt _ _)); [done|unfold INT_MAX in *; nia]|].
  pose proof (Z.div_mod INT_MAX (num + 1) ltac:(lia)). pose proof (Z.mod_pos_bound INT_MAX (num + 1) ltac:(lia)).
  destruct (Z.ltb_spec (INT_MAX / (num + 1)) (1 + k)), (Z.leb_spec ((1 + k) * (num + 1)) INT_MAX); try done; nia.
Qed.

Lemma blocks_le_mtu p m : Z.of_nat (length p) <= m -> blocks p <= bdivide_up m sizeof_block.
Proof.
  intros H. apply bdivide_up_le; [unfold sizeof_block; lia..|].
  pose proof (bdivide_up_spec m sizeof_block ltac:(unfold sizeof_block; lia) ltac:(lia)). lia.
Qed.

Lemma room_mtu b q m num :
  rep b q -> 0 <= m -> b.(mtu) = bdivide_up m sizeof_block -> (1 + b.(mtu)) * (num + 1) <= b.(size) ->
  Forall (fun p => Z.of_nat (length p) <= m) q -> Z.of_nat (length q) < num ->
  is_Some b.(input_dest) /\ m <= b.(input_avail).
Proof.
  intros R H0 Hm Hs Hq Hn. destruct (room_rep b q num) as [I A]; [done|done| |done|].
  - eapply Forall_impl; [exact Hq|]. intros p Hp. rewrite Hm. by apply blocks_le_mtu.
  - split; [done|]. rewrite Hm in A. pose proof (bdivide_up_spec m sizeof_block ltac:(unfold sizeof_block; lia) H0). lia.
Qed.

Lemma not_long m (q : list bytes) : ~ Exists (fun p => m < Z.of_nat (length p)) q -> Forall (fun p => Z.of_nat (length p) <= m) q.
Proof. intros H. apply Forall_forall. intros p Hp. destruct (Z.leb_spec (Z.of_nat (length p)) m); [done|]. destruct H. apply Exists_exists. eauto. Qed.

Lemma user_run_spec m num ops : forall b q,
  rep b q -> 0 <= m -> b.(mtu) = bdivide_up m sizeof_block -> (1 + b.(mtu)) * (num + 1) <= b.(size) ->
  exists b' evs q', user_run b ops = Some (b', evs) /\ queue_spec m num q ops evs q' /\ rep b' q'.
Proof.
  induction ops as [|o ops IH]; intros b q R H0 Hm Hs; cbn [user_run].
  { eexists _, _, _. split; [done|]. split; [constructor|done]. }
  destruct o as [d|]; cbn [user_step].
  - destruct (decide (is_Some b.(input_dest) /\ Z.of_nat (length d) <= b.(input_avail))) as [[[off Ho] Ha]|Hno].
    + rewrite Ho, (proj2 (Z.leb_le _ _)) by done.
      destruct (write_rep b q off 0 d R Ho) as (mem & Ew & R1 & B); [lia..|]. rewrite Z.add_0_r in Ew, B. rewrite Ew.
      destruct (submit_rep (set_buffer mem b) q off d R1 Ho Ha B) as (b' & -> & R2 & E1 & E2 & _). cbn in E1, E2.
      destruct (IH b' (q ++ [d])) as (b'' & evs & q' & -> & Sp & R'); [done|done|congruence..|].
      eexists _, _, _. split; [done|]. split; [by constructor|done].
    + assert (match b.(input_dest) with Some off => if Z.of_nat (length d) <=? b.(input_avail) then
                LET b <- write_at off d b in LET b <- ChunkBuffer2_SubmitPacket b (Z.of_nat (length d)) in Some (b, Accepted d)
                else Some (b, Refused d) | None => Some (b, Refused d) end = Some (b, Refused d)) as ->.
      { destruct (input_dest b); [|done]. destruct (Z.leb_spec (Z.of_nat (length d)) (input_avail b)); [|done]. destruct Hno. eauto. }
      destruct (IH b q) as (b'' & evs & q' & -> & Sp & R'); [done..|].
      eexists _, _, _. split; [done|]. split; [constructor; [|done]|done].
      destruct (Z.leb_spec (Z.of_nat (length d)) m); [right|by left].
      destruct (Z.leb_spec num (Z.of_nat (length q))); [by left|right].
      destruct (decide (Exists (fun p => m < Z.of_nat (length p)) q)) as [|Hx]; [done|].
      destruct (room_mtu b q m num) as [? ?]; [done..|by apply not_long|done|]. destruct Hno. split; [done|lia].
  - destruct q as [|p q].
    + destruct (output_rep_empty _ R) as [-> _].
      destruct (IH b []) as (b'' & evs & q' & -> & Sp & R'); [done..|].
      eexists _, _, _. split; [done|]. split; [by constructor|done].
    + destruct (output_rep _ _ _ R) as (off & -> & _ & _ & ->).
      destruct (consume_rep _ _ _ R) as (b' & -> & R2 & E1 & E2 & _).
      destruct (IH b' q) as (b'' & evs & q' & -> & Sp & R'); [done|done|congruence..|].
      eexists _, _, _. split; [done|]. split; [by constructor|done].
Qed.

(** C12: the circular buffer is a bounded queue.  For every sequence of
    submissions and removals no assertion fails and no access leaves the
    array; packets come out unchanged and in order, and with the number of blocks
    that [ChunkBuffer2_calc_blocks] gives, [num] packets of the MTU always fit. *)
Theorem chunk_buffer_queue mem mtu num ops :
  0 <= mtu <= INT_MAX -> 0 <= num <= INT_MAX ->
  let blocks := ChunkBuffer2_calc_blocks mtu num in
  0 < blocks -> sizeof_block * blocks <= INT_MAX -> Z.of_nat (length mem) = sizeof_block * blocks ->
  exists b b' evs q, ChunkBuffer2_Init mem blocks mtu = Some b /\ user_run b ops = Some (b', evs) /\
    queue_spec mtu num [] ops evs q /\ rep b' q.
Proof.
  intros H0 Hn n Hp Hx Hl. assert (n = (1 + bdivide_up mtu sizeof_block) * (num + 1)) as E.
  { revert Hp. unfold n. rewrite calc_blocks_spec by done. cbn zeta. destruct (_ <=? _); lia. }
  pose proof (bdivide_up_nonneg mtu sizeof_block ltac:(unfold sizeof_block; lia) ltac:(lia)).
  destruct (init_rep mem n mtu) as (b & Ei & R & Es & Em); [done|done|lia|nia|].
  destruct (user_run_spec mtu num ops b []) as (b' & evs & q & Er & Sp & R'); [done|lia|done|rewrite Em, Es; lia|].
  by exists b, b', evs, q.
Qed.

(** Two packets through a buffer for one: the second waits for the first. *)
Lemma chunk_buffer_queue_witness :
  exists b b' q, ChunkBuffer2_Init (repeat 7 24) 6 5 = Some b /\
    user_run b [Submit [1; 2; 3; 4; 5]; Submit [6]; Submit [7; 8; 9; 10; 11]; Take; Take; Take] =
      Some (b', [Accepted [1; 2; 3; 4; 5]; Accepted [6]; Refused [7; 8; 9; 10; 11]; Taken [1; 2; 3; 4; 5]; Taken [6]; Empty]) /\ rep b' q.
Proof.
  destruct (chunk_buffer_queue (repeat 7 24) 5 1 [Submit [1; 2; 3; 4; 5]; Submit [6]; Submit [7; 8; 9; 10; 11]; Take; Take; Take])
    as (b & b' & evs & q & E1 & E2 & _ & R); [vm_compute; intuition congruence..|].
  exists b, b', q. split; [exact E1|]. split; [|done]. rewrite E2. do 2 f_equal.
  vm_compute in E1. injection E1 as <-. vm_compute in E2. by injection E2 as _ <-.
Defined.

(** [ChunkBuffer2_calc_blocks] checks that the number of blocks is an [int],
    not that the number of bytes is: with 2^30 blocks the room does not fit
    [input_avail], and the initialisation fails its own assertion. *)
Theorem chunk_init_aborts mem :
  ChunkBuffer2_calc_blocks 0 1073741823 = 1073741824 /\ ChunkBuffer2_Init mem 1073741824 0 = None.
Proof. done. Qed.

End ChunkBuffer.
