(* ===== verification/PacketBuffer.v ===== *)
(** * The packet buffer

    Models [flow/PacketBuffer.c]: packets are received from a
    [PacketRecvInterface] into the circular buffer and sent from it to a
    [PacketPassInterface].  Both operations are outstanding at the same time
    and work directly on the memory of the buffer, so the model keeps the
    pointers that were handed out and lets the two parties use them at any
    moment until the operation is done. *)

From S2P Require Import Prelude.
From S2P Require Import Words.
From S2P Require Import Flow.
From S2P Require Import ChunkBuffer.
Import Bsize Flow ChunkBuffer.

Module PacketBuffer.

Record PacketBuffer := MkPacketBuffer {
  input : flow_interface;
  input_mtu : Z;
  output : flow_interface;
  buf : ChunkBuffer2;
}.

Definition set_input i o := MkPacketBuffer i o.(input_mtu) o.(output) o.(buf).
Definition set_output i o := MkPacketBuffer o.(input) o.(input_mtu) i o.(buf).
Definition set_buf b o := MkPacketBuffer o.(input) o.(input_mtu) o.(output) b.

(** [PacketRecvInterface_Receiver_Recv(buf->input, buf->buf.input_dest)]. *)
Definition recv (o : PacketBuffer) : option PacketBuffer :=
  LET i <- PacketRecvInterface_Receiver_Recv o.(input) o.(buf).(input_dest) in Some (set_input i o).
(** [PacketPassInterface_Sender_Send(buf->output, output_dest, output_avail)]. *)
Definition send (o : PacketBuffer) : option PacketBuffer :=
  LET i <- PacketPassInterface_Sender_Send o.(output) o.(buf).(output_dest) o.(buf).(output_avail) in
  Some (set_output i o).

Definition input_handler_done (o : PacketBuffer) (in_len : Z) : option PacketBuffer :=
  ASSERT 0 <=? in_len in
  ASSERT in_len <=? o.(input_mtu) in
  let was_empty := o.(buf).(output_avail) <? 0 in
  LET b <- ChunkBuffer2_SubmitPacket o.(buf) in_len in
  let o := set_buf b o in
  LET o <- (if o.(input_mtu) <=? o.(buf).(input_avail) then recv o else Some o) in
  if was_empty then send o else Some o.

Definition output_handler_done (o : PacketBuffer) : option PacketBuffer :=
  let was_full := o.(buf).(input_avail) <? o.(input_mtu) in
  LET b <- ChunkBuffer2_ConsumePacket o.(buf) in
  let o := set_buf b o in
  LET o <- (if was_full && (o.(input_mtu) <=? o.(buf).(input_avail)) then recv o else Some o) in
  if 0 <=? o.(buf).(output_avail) then send o else Some o.

(** The result [Some None] is the return value 0: too many blocks, or
    [BAllocArray] failed ([mem] is [None]).  Otherwise [mem] gives the bytes of the
    array, which are arbitrary. *)
Definition PacketBuffer_Init (i o : flow_interface) (num_packets : Z) (mem : option bytes)
  : option (option PacketBuffer) :=
  ASSERT i.(Flow.mtu) <=? o.(Flow.mtu) in
  ASSERT 0 <? num_packets in
  LET i <- PacketRecvInterface_Receiver_Init i in
  let input_mtu := i.(Flow.mtu) in
  LET o <- PacketPassInterface_Sender_Init o in
  let num_blocks := ChunkBuffer2_calc_blocks input_mtu num_packets in
  if num_blocks <? 0 then Some None
  else
    match mem with
    | None => Some None
    | Some mem =>
        LET b <- ChunkBuffer2_Init mem num_blocks input_mtu in
        LET r <- recv (MkPacketBuffer i input_mtu o b) in Some (Some r)
    end.

(** ** The buffer at work

    The provider of the input writes into the memory it was given while it
    holds the operation, as often as it likes; [IDone d] is its last write
    and the call of [PacketRecvInterface_Done].  The provider of the output
    reads the packet and calls [PacketPassInterface_Done].  The jobs run when
    they are set. *)
Inductive event := IJobOperation | IWrite (off : Z) (d : bytes) | IDone (d : bytes) | IJobDone
  | OJobOperation | ODone | OJobDone.

Inductive action := Got (d : bytes) | Delivered (d : bytes).

Definition legal (o : PacketBuffer) (ev : event) : bool :=
  match ev with
  | IJobOperation => o.(input).(job_operation)
  | IWrite off d => is_state STATE_BUSY o.(input) && (0 <=? off) && (off + Z.of_nat (length d) <=? o.(input_mtu))
  | IDone d => is_state STATE_BUSY o.(input) && (Z.of_nat (length d) <=? o.(input_mtu))
  | IJobDone => o.(input).(job_done)
  | OJobOperation => o.(output).(job_operation)
  | ODone => is_state STATE_BUSY o.(output)
  | OJobDone => o.(output).(job_done)
  end.

Definition step (o : PacketBuffer) (ev : event) : option (PacketBuffer * list action) :=
  match ev with
  | IJobOperation =>
      LET (i, _) <- _PacketRecvInterface_job_operation o.(input) in Some (set_input i o, [])
  | IWrite off d =>
      LET p <- o.(input).(job_operation_data) in
      LET b <- write_at (p + off) d o.(buf) in Some (set_buf b o, [])
  | IDone d =>
      LET p <- o.(input).(job_operation_data) in
      LET b <- write_at p d o.(buf) in
      LET i <- PacketRecvInterface_Done o.(input) (Z.of_nat (length d)) in
      Some (set_input i (set_buf b o), [Got d])
  | IJobDone =>
      LET (i, n) <- _PacketRecvInterface_job_done o.(input) in
      LET o <- input_handler_done (set_input i o) n in Some (o, [])
  | OJobOperation =>
      LET (i, _) <- _PacketPassInterface_job_operation o.(output) in Some (set_output i o, [])
  | ODone =>
      LET p <- o.(output).(job_operation_data) in
      let d := read_at p o.(output).(job_operation_len) o.(buf) in
      LET i <- PacketPassInterface_Done o.(output) in
      Some (set_output i o, [Delivered d])
  | OJobDone =>
      LET i <- _PacketPassInterface_job_done o.(output) in
      LET o <- output_handler_done (set_output i o) in Some (o, [])
  end.

Fixpoint run (o : PacketBuffer) (evs : list event) : option (PacketBuffer * list action) :=
  match evs with
  | [] => Some (o, [])
  | ev :: evs =>
      if legal o ev then
        LET (o, a) <- step o ev in
        LET (o, a') <- run o evs in Some (o, a ++ a')
      else run o evs
  end.

Definition got (a : list action) : list bytes := omap (fun x => match x with Got d => Some d | _ => None end) a.
Definition delivered (a : list action) : list bytes := omap (fun x => match x with Delivered d => Some d | _ => None end) a.

(** ** Invariant

    [q] is the queue in the buffer, [inp] the packet that has been received
    but not yet submitted. *)
Definition input_inv (o : PacketBuffer) (inp : option bytes) : Prop :=
  match o.(input).(state) with
  | STATE_NONE => o.(buf).(input_avail) < o.(input_mtu) /\ inp = None
  | s =>
      o.(input_mtu) <= o.(buf).(input_avail) /\ o.(input).(job_operation_data) = o.(buf).(input_dest) /\
      match s, inp with
      | STATE_DONE_PENDING, Some d =>
          o.(input).(job_done_len) = Z.of_nat (length d) /\ Z.of_nat (length d) <= o.(input_mtu) /\
          exists p, o.(buf).(input_dest) = Some p /\ bytes_at o.(buf).(buffer) p d
      | STATE_DONE_PENDING, None => False
      | _, _ => inp = None
      end
  end.

Definition output_inv (o : PacketBuffer) (q : list bytes) : Prop :=
  match q with
  | [] => o.(output).(state) = STATE_NONE
  | p :: _ =>
      o.(output).(state) <> STATE_NONE /\ o.(output).(job_operation_data) = o.(buf).(output_dest) /\
      o.(output).(job_operation_len) = Z.of_nat (length p)
  end.

Record inv (num : Z) (o : PacketBuffer) (q : list bytes) (inp : option bytes) : Prop := {
  v_rep : rep o.(buf) q;
  v_mtu : 0 <= o.(input_mtu);
  v_blocks : o.(buf).(ChunkBuffer.mtu) = bdivide_up o.(input_mtu) sizeof_block;
  v_size : (1 + o.(buf).(ChunkBuffer.mtu)) * (num + 1) <= o.(buf).(size);
  v_small : Forall (fun p => Z.of_nat (length p) <= o.(input_mtu)) q;
  v_in_flow : flow_ok PacketRecv o.(input);
  v_in_user : o.(input).(handler_done) = true;
  v_in_mtu : o.(input).(Flow.mtu) = o.(input_mtu);
  v_out_flow : flow_ok PacketPass o.(output);
  v_out_user : o.(output).(handler_done) = true;
  v_out_mtu : o.(input_mtu) <= o.(output).(Flow.mtu);
  v_in : input_inv o inp;
  v_out : output_inv o q;
}.

(** The packets received and not yet delivered. *)
Definition waiting (o : PacketBuffer) (q : list bytes) (inp : option bytes) : list bytes :=
  (if is_state STATE_DONE_PENDING o.(output) then tail q else q) ++ option_list inp.

(** The two operations start when they may. *)
Lemma recv_ok o : o.(input).(state) = STATE_NONE -> o.(input).(handler_done) = true -> is_Some o.(buf).(input_dest) ->
  recv o = Some (set_input (set_operation o.(buf).(input_dest) 0 o.(input)) o).
Proof.
  intros Hs Hh [p Hp]. unfold recv, PacketRecvInterface_Receiver_Recv. rewrite Hp, Hh.
  unfold is_state. rewrite Hs, bool_decide_eq_false_2 by done. cbn. by rewrite orb_true_r.
Qed.

Lemma send_ok o p q : o.(output).(state) = STATE_NONE -> o.(output).(handler_done) = true -> rep o.(buf) (p :: q) ->
  Z.of_nat (length p) <= o.(output).(Flow.mtu) ->
  send o = Some (set_output (set_cancel o.(output).(job_requestcancel) false
    (set_operation o.(buf).(output_dest) (Z.of_nat (length p)) o.(output))) o).
Proof.
  intros Hs Hh R Hm. destruct (output_rep _ _ _ R) as (off & E & El & _).
  unfold send, PacketPassInterface_Sender_Send. rewrite E, El, Hh.
  unfold is_state. rewrite Hs, (bool_decide_eq_false_2 (Some off = None)), !(proj2 (Z.leb_le _ _)) by (done || lia). cbn. by rewrite orb_true_r.
Qed.

Lemma refill_ok o q :
  rep o.(buf) q -> 0 <= o.(input_mtu) -> flow_ok PacketRecv o.(input) ->
  o.(input).(handler_done) = true -> o.(input).(state) = STATE_NONE ->
  exists i, (if o.(input_mtu) <=? o.(buf).(input_avail) then recv o else Some o) = Some (set_input i o) /\
    flow_ok PacketRecv i /\ i.(handler_done) = true /\ i.(Flow.mtu) = o.(input).(Flow.mtu) /\
    input_inv (set_input i o) None.
Proof.
  intros R H0 F Hh Hs. destruct (Z.leb_spec (input_mtu o) (input_avail (buf o))).
  - rewrite recv_ok by (done || (eapply input_dest_some; [done|lia])).
    eexists. split; [done|]. split; [|done].
    destruct F as [_ F2 F3]. unfold is_state in *. rewrite Hs in F2. split; cbn; [done|done|].
    intros Hc. destruct (F3 Hc) as [[=] _].
  - exists o.(input). split; [by destruct o|]. split; [done|]. split; [done|]. split; [done|].
    unfold input_inv. cbn. by rewrite Hs.
Qed.

Lemma forward_ok o p q :
  rep o.(buf) (p :: q) -> Z.of_nat (length p) <= o.(output).(Flow.mtu) -> flow_ok PacketPass o.(output) ->
  o.(output).(handler_done) = true -> o.(output).(state) = STATE_NONE ->
  exists i, send o = Some (set_output i o) /\ flow_ok PacketPass i /\ i.(handler_done) = true /\
    i.(Flow.mtu) = o.(output).(Flow.mtu) /\ i.(state) = STATE_OPERATION_PENDING /\ output_inv (set_output i o) (p :: q).
Proof.
  intros R Hm F Hh Hs. erewrite send_ok by done. eexists. split; [done|]. split; [|done].
  destruct F as [_ F2 F3]. unfold is_state in *. rewrite Hs in F2. split; cbn; [done|done|].
  intros Hc. destruct (F3 Hc) as (_ & E & _). congruence.
Qed.

(** The packet that was received joins the queue. *)
Lemma input_done_ok num o q d :
  inv num o q (Some d) -> o.(input).(state) = STATE_DONE_PENDING ->
  exists o', input_handler_done (set_input (run_done o.(input)) o) o.(input).(job_done_len) = Some o' /\
    inv num o' (q ++ [d]) None /\ waiting o' (q ++ [d]) None = waiting o q (Some d).
Proof.
  intros [R H0 Hb Hs Hq Fi Ui Mi Fo Uo Mo I O] Hst. unfold input_inv in I. rewrite Hst in I.
  destruct I as (A & P & -> & Hd & p & Hp & B). unfold input_handler_done. cbn.
  rewrite !(proj2 (Z.leb_le _ _)) by lia.
  destruct (submit_rep _ q p d R Hp ltac:(lia) B) as (b & -> & R' & Es & Em & Eo).
  set (o1 := set_buf b (set_input (run_done (input o)) o)).
  destruct (refill_ok o1 (q ++ [d])) as (i & E & Fi' & Ui' & Mi' & I'); [done|done|by apply run_done_flow|done|done|].
  cbn in E. rewrite E. cbn in Mi'.
  assert (Forall (fun p => Z.of_nat (length p) <= input_mtu o) (q ++ [d])) as Hq' by (apply Forall_app; split; [done|]; by constructor).
  rewrite (output_avail_sign _ _ R). destruct q as [|p0 q].
  - cbn in O. rewrite bool_decide_eq_true_2 by done.
    destruct (forward_ok (set_input i o1) d []) as (j & -> & Fj & Uj & Mj & Sj & O'); [done|cbn; lia|done..|].
    eexists. split; [done|]. split; [split; cbn; try done; try congruence; cbn in Mj; lia|].
    unfold waiting, is_state. cbn. by rewrite Sj, O.
  - rewrite bool_decide_eq_false_2 by done. eexists. split; [done|]. split; [split; cbn; try done; try congruence|].
    + unfold output_inv in *. cbn. destruct O as (O1 & O2 & O3). split; [done|]. split; [|done]. rewrite O2.
      symmetry. by apply Eo.
    + unfold waiting. cbn. destruct (is_state _ _); cbn; by rewrite app_nil_r.
Qed.

(** An outstanding receive survives when the buffer keeps its pointer. *)
Lemma input_inv_keep o o' q inp :
  rep o.(buf) q -> 0 <= o.(input_mtu) -> o.(input_mtu) <= o.(buf).(input_avail) ->
  (forall off, o.(buf).(input_dest) = Some off ->
     o'.(buf).(input_dest) = Some off /\ o.(buf).(input_avail) <= o'.(buf).(input_avail)) ->
  o'.(buf).(buffer) = o.(buf).(buffer) -> o'.(input) = o.(input) -> o'.(input_mtu) = o.(input_mtu) ->
  input_inv o inp -> input_inv o' inp.
Proof.
  intros R H0 Ha Hd Eb Ei Em I. destruct (input_dest_some _ _ R) as [off Ho]; [lia|].
  destruct (Hd off Ho) as [Ho' Ha']. unfold input_inv in *. rewrite Ei, Em, Eb, Ho'. rewrite Ho in I.
  destruct (state (input o)); [lia|intuition lia..].
Qed.

(** The packet that was sent leaves the queue. *)
Lemma output_done_ok num o q inp :
  inv num o q inp -> o.(output).(state) = STATE_DONE_PENDING ->
  exists o', output_handler_done (set_output (run_done o.(output)) o) = Some o' /\
    inv num o' (tail q) inp /\ waiting o' (tail q) inp = waiting o q inp.
Proof.
  intros [R H0 Hb Hs Hq Fi Ui Mi Fo Uo Mo I O] Hst. destruct q as [|p q]; [cbn in O; congruence|]. cbn [tail].
  unfold output_handler_done. cbn. destruct (consume_rep _ _ _ R) as (b & -> & R' & Es & Em & Ed & Eb).
  apply Forall_cons in Hq as [Hp Hq].
  set (o1 := set_buf b (set_output (run_done (output o)) o)).
  assert (exists i, (if (input_avail (buf o) <? input_mtu o) && (input_mtu o <=? input_avail b) then recv o1 else Some o1)
      = Some (set_input i o1) /\ flow_ok PacketRecv i /\ i.(handler_done) = true /\ i.(Flow.mtu) = o.(input).(Flow.mtu) /\
        input_inv (set_input i o1) inp) as (i & -> & Fi' & Ui' & Mi' & I').
  { destruct (Z.ltb_spec (input_avail (buf o)) (input_mtu o)).
    - assert (o.(input).(state) = STATE_NONE /\ inp = None) as [Sn ->].
      { unfold input_inv in I. destruct (state (input o)); [by destruct I|exfalso; lia..]. }
      destruct (refill_ok o1 q) as (i & E & ?); [done..|]. by exists i.
    - exists o.(input). split; [done|]. split; [done|]. split; [done|]. split; [done|].
      by apply (input_inv_keep o _ (p :: q)). }
  cbn. rewrite Z.leb_antisym, (output_avail_sign _ _ R'). destruct q as [|p' q].
  - rewrite bool_decide_eq_true_2 by done. cbn [negb]. eexists. split; [done|].
    split; [split; cbn; try done; try congruence; by apply run_done_flow|].
    unfold waiting, is_state. cbn. by rewrite Hst.
  - rewrite bool_decide_eq_false_2 by done. cbn [negb]. apply Forall_cons in Hq as [Hp' Hq].
    destruct (forward_ok (set_input i o1) p' q) as (j & -> & Fj & Uj & Mj & Sj & O'); [done|cbn; lia|by apply run_done_flow|done..|].
    eexists. split; [done|]. split; [split; cbn; try done; try congruence; [by constructor|cbn in Mj; lia]|].
    unfold waiting, is_state. cbn. by rewrite Sj, Hst.
Qed.


Lemma waiting_busy o q inp : o.(output).(state) <> STATE_DONE_PENDING -> waiting o q inp = q ++ option_list inp.
Proof. intros H. unfold waiting, is_state. by rewrite bool_decide_eq_false_2. Qed.

Lemma input_start_ok num o q inp :
  inv num o q inp -> o.(input).(state) = STATE_OPERATION_PENDING -> inv num (set_input (run_operation o.(input)) o) q inp.
Proof.
  intros [] Hs. split; cbn; try done.
  - destruct v_in_flow0 as [F1 F2 F3]. unfold is_state in *. rewrite Hs in *. split; cbn; try done. intros Hc. by destruct (F3 Hc).
  - unfold input_inv in *. rewrite Hs in v_in0. by cbn.
Qed.

Lemma output_start_ok num o q inp :
  inv num o q inp -> o.(output).(state) = STATE_OPERATION_PENDING -> inv num (set_output (run_operation o.(output)) o) q inp.
Proof.
  intros [] Hs. split; cbn; try done.
  - destruct v_out_flow0 as [F1 F2 F3]. unfold is_state in *. rewrite Hs in *. split; cbn; try done. intros Hc. by destruct (F3 Hc) as (_ & [=] & _).
  - unfold output_inv in *. destruct q; cbn; [congruence|]. by destruct v_out0 as (_ & ? & ?).
Qed.

(** The provider of the input writes inside the room it was given. *)
Lemma input_write_ok num o q inp k d :
  inv num o q inp -> o.(input).(state) = STATE_BUSY -> 0 <= k -> k + Z.of_nat (length d) <= o.(input_mtu) ->
  exists p m, o.(input).(job_operation_data) = Some p /\ o.(buf).(input_dest) = Some p /\
    write_at (p + k) d o.(buf) = Some (set_buffer m o.(buf)) /\ bytes_at m (p + k) d /\
    inv num (set_buf (set_buffer m o.(buf)) o) q inp.
Proof.
  intros [] Hs Hk Hl. unfold input_inv in v_in0. rewrite Hs in v_in0. destruct v_in0 as (A & P & Hi).
  destruct (input_dest_some _ _ v_rep0) as [p Hp]; [lia|].
  destruct (write_rep _ q p k d v_rep0 Hp Hk ltac:(lia)) as (m & E & R & B).
  exists p, m. rewrite P, Hp, E. split; [done|]. split; [done|]. split; [done|]. split; [done|].
  split; cbn; try done. unfold input_inv. cbn. by rewrite Hs.
Qed.

Lemma input_finish_ok num o q p d i :
  inv num o q None -> o.(input).(state) = STATE_BUSY -> o.(buf).(input_dest) = Some p ->
  bytes_at o.(buf).(buffer) p d -> Z.of_nat (length d) <= o.(input_mtu) ->
  i = set_done (Z.of_nat (length d)) o.(input) -> inv num (set_input i o) q (Some d).
Proof.
  intros [] Hs Hp Hb Hl ->. split; cbn; try done.
  - destruct v_in_flow0 as [F1 F2 F3]. unfold is_state in *. rewrite Hs in *. split; cbn; try done. intros Hc. by destruct (F3 Hc).
  - unfold input_inv in *. rewrite Hs in v_in0. cbn. destruct v_in0 as (A & P & _). split; [done|]. split; [done|]. split; [done|]. split; [done|]. eauto.
Qed.

Lemma output_finish_ok num o p q inp :
  inv num o (p :: q) inp -> o.(output).(state) = STATE_BUSY ->
  inv num (set_output (set_done 0 (set_cancel false o.(output).(cancel_requested) o.(output))) o) (p :: q) inp.
Proof.
  intros [] Hs. split; cbn; try done.
  - destruct v_out_flow0 as [F1 F2 F3]. unfold is_state in *. rewrite Hs in *. split; cbn; done.
  - by destruct v_out0 as (_ & ? & ?).
Qed.

Lemma in_busy_none num o q inp : inv num o q inp -> o.(input).(state) = STATE_BUSY -> inp = None.
Proof. intros [] Hs. unfold input_inv in v_in0. rewrite Hs in v_in0. by destruct v_in0 as (_ & _ & ?). Qed.

Lemma buffer_step_inv num o q inp ev :
  inv num o q inp -> legal o ev = true ->
  exists o' a q' inp', step o ev = Some (o', a) /\ inv num o' q' inp' /\
    waiting o q inp ++ got a = delivered a ++ waiting o' q' inp'.
Proof.
  intros V L. pose proof V as []. destruct ev as [|k d|d| | | |]; cbn [legal step] in *.
  - rewrite (fo_op _ _ v_in_flow0) in L. unfold _PacketRecvInterface_job_operation. rewrite L. apply is_state_true in L.
    eexists _, _, q, inp. split; [done|]. split; [by apply input_start_ok|]. by rewrite app_nil_r.
  - to_prop. apply is_state_true in H. destruct (input_write_ok _ _ _ _ _ _ V H H1 H0) as (p & m & -> & _ & -> & _ & V').
    eexists _, _, q, inp. split; [done|]. split; [done|]. by rewrite app_nil_r.
  - to_prop. pose proof H as Hs. apply is_state_true in H. pose proof (in_busy_none _ _ _ _ V H) as ->.
    destruct (input_write_ok _ _ _ _ 0 d V H ltac:(lia) ltac:(lia)) as (p & m & -> & Hp & E & B & V').
    rewrite Z.add_0_r in E, B. rewrite E. unfold PacketRecvInterface_Done. cbn. rewrite Hs, v_in_mtu0, !(proj2 (Z.leb_le _ _)) by lia.
    eexists _, _, q, (Some d). split; [done|]. split.
    + eapply (input_finish_ok num (set_buf (set_buffer m (buf o)) o)); done.
    + unfold waiting. cbn. by rewrite app_nil_r.
  - rewrite (fo_done _ _ v_in_flow0) in L. unfold _PacketRecvInterface_job_done. rewrite L. apply is_state_true in L.
    destruct inp as [d|]; [|unfold input_inv in v_in0; rewrite L in v_in0; by destruct v_in0 as (_ & _ & ?)].
    destruct (input_done_ok _ _ _ _ V L) as (o' & -> & V' & W). eexists _, _, _, None. split; [done|]. split; [done|].
    by rewrite app_nil_r, W.
  - rewrite (fo_op _ _ v_out_flow0) in L. unfold _PacketPassInterface_job_operation. rewrite L. apply is_state_true in L.
    eexists _, _, q, inp. split; [done|]. split; [by apply output_start_ok|]. cbn. rewrite app_nil_r, !waiting_busy by (cbn; congruence). done.
  - pose proof L as Hs. apply is_state_true in L. destruct q as [|p q]; [cbn in v_out0; congruence|].
    destruct v_out0 as (_ & -> & ->). destruct (output_rep _ _ _ v_rep0) as (off & -> & El & _ & Er). rewrite <- El, Er.
    unfold PacketPassInterface_Done. rewrite Hs. eexists _, _, (p :: q), inp. split; [done|]. split; [by apply output_finish_ok|].
    rewrite waiting_busy by congruence. cbn. by rewrite app_nil_r.
  - rewrite (fo_done _ _ v_out_flow0) in L. unfold _PacketPassInterface_job_done. rewrite L. apply is_state_true in L.
    destruct (output_done_ok _ _ _ _ V L) as (o' & -> & V' & W). eexists _, _, _, inp. split; [done|]. split; [done|].
    by rewrite app_nil_r, W.
Qed.

(** What the jobs of the buffer leave alone: an operation of its input that is
    in progress, with its place and the bytes of the array. *)
Lemma recv_frame o o' : recv o = Some o' -> o'.(input).(state) = STATE_OPERATION_PENDING /\ o'.(input_mtu) = o.(input_mtu).
Proof. unfold recv, PacketRecvInterface_Receiver_Recv. intros E. repeat case_match; by simplify_eq. Qed.
Lemma send_frame o o' : send o = Some o' -> o'.(input) = o.(input) /\ o'.(buf) = o.(buf) /\ o'.(input_mtu) = o.(input_mtu).
Proof. unfold send, PacketPassInterface_Sender_Send. intros E. repeat case_match; by simplify_eq. Qed.

Lemma output_done_frame num o q inp o' : inv num o q inp -> o.(output).(state) = STATE_DONE_PENDING ->
  output_handler_done (set_output (run_done o.(output)) o) = Some o' ->
  o'.(input_mtu) = o.(input_mtu) /\ (o.(input).(state) <> STATE_BUSY -> o'.(input).(state) <> STATE_BUSY) /\
  (o.(input).(state) = STATE_BUSY -> o'.(input) = o.(input) /\ o'.(buf).(buffer) = o.(buf).(buffer) /\ o'.(buf).(input_dest) = o.(buf).(input_dest)).
Proof.
  intros [R H0 _ _ _ _ _ _ _ _ _ I O] Hst. destruct q as [|p q]; [cbn in O; congruence|]. unfold output_handler_done. cbn.
  destruct (consume_rep _ _ _ R) as (b & -> & _ & _ & _ & Ed & Eb). set (o1 := set_buf b _). intros E.
  destruct (if (_ <? _) && _ then recv o1 else Some o1) as [o2|] eqn:E2; [|done].
  assert (o'.(input) = o2.(input) /\ o'.(buf) = o2.(buf) /\ o'.(input_mtu) = o2.(input_mtu)) as (-> & -> & ->).
  { revert E. destruct (0 <=? _); [apply send_frame|]. by intros [= <-]. }
  destruct ((_ <? _) && _) eqn:Ef.
  - apply recv_frame in E2 as [S2 M2]. rewrite S2. split; [done|]. split; [done|]. intros Hb. exfalso. unfold input_inv in I. rewrite Hb in I.
    apply andb_true_iff in Ef as [Ef _]. apply Z.ltb_lt in Ef. cbn in Ef. lia.
  - injection E2 as <-. split; [done|]. split; [done|]. intros Hb. split; [done|]. split; [done|]. cbn. unfold input_inv in I. rewrite Hb in I.
    destruct (input_dest_some _ _ R) as [off Ho]; [lia|]. rewrite Ho. by destruct (Ed off Ho).
Qed.

Lemma buffer_jobs_frame num o q inp ev o' a : inv num o q inp -> legal o ev = true -> ev = IJobDone \/ ev = OJobOperation \/ ev = ODone \/ ev = OJobDone ->
  step o ev = Some (o', a) -> o'.(input_mtu) = o.(input_mtu) /\ got a = [] /\ (o.(input).(state) <> STATE_BUSY -> o'.(input).(state) <> STATE_BUSY) /\
  (o.(input).(state) = STATE_BUSY -> o'.(input) = o.(input) /\ o'.(buf).(buffer) = o.(buf).(buffer) /\ o'.(buf).(input_dest) = o.(buf).(input_dest)).
Proof.
  intros V L [-> | [-> | [-> | ->]]] E; cbn [legal step] in *.
  - pose proof (proj2 (job_of_state _ _ (v_in_flow _ _ _ _ V)) L) as Hd. unfold _PacketRecvInterface_job_done in E. rewrite (proj2 (is_state_true _ _) Hd) in E.
    destruct (input_handler_done _ _) as [o1|] eqn:E1; [|done]. injection E as <- <-. rewrite Hd.
    unfold input_handler_done in E1. do 2 (destruct (_ <=? _) in E1; [|done]). destruct (ChunkBuffer2_SubmitPacket _ _) as [b|]; [|done]. set (o2 := set_buf b _) in E1.
    destruct (if _ <=? _ then recv o2 else Some o2) as [o3|] eqn:E3; [|done].
    assert (o1.(input) = o3.(input) /\ o1.(input_mtu) = o3.(input_mtu)) as [-> ->].
    { revert E1. destruct (_ <? 0); [intros E1%send_frame; by destruct E1 as (? & _ & ?)|]. by intros [= <-]. }
    revert E3. destruct (_ <=? _); [intros [-> ->]%recv_frame|intros [= <-]]; done.
  - unfold _PacketPassInterface_job_operation in E. repeat case_match; by simplify_eq.
  - unfold PacketPassInterface_Done in E. repeat case_match; by simplify_eq.
  - pose proof (proj2 (job_of_state _ _ (v_out_flow _ _ _ _ V)) L) as Hd. unfold _PacketPassInterface_job_done in E. rewrite (proj2 (is_state_true _ _) Hd) in E.
    destruct (output_handler_done _) as [o1|] eqn:E1; [|done]. injection E as <- <-. destruct (output_done_frame _ _ _ _ _ V Hd E1) as (? & ? & ?). done.
Qed.

Lemma buffer_run_inv num evs : forall o q inp, inv num o q inp ->
  exists o' a q' inp', run o evs = Some (o', a) /\ inv num o' q' inp' /\
    waiting o q inp ++ got a = delivered a ++ waiting o' q' inp'.
Proof.
  induction evs as [|ev evs IH]; intros o q inp V; cbn [run].
  - eexists _, _, q, inp. split; [done|]. split; [done|]. by rewrite app_nil_r.
  - destruct (legal o ev) eqn:L; [|by apply IH].
    destruct (buffer_step_inv _ _ _ _ _ V L) as (o1 & a1 & q1 & i1 & -> & V1 & W1).
    destruct (IH _ _ _ V1) as (o2 & a2 & q2 & i2 & -> & V2 & W2). eexists _, _, q2, i2. split; [done|]. split; [done|].
    unfold got, delivered in *. by rewrite !omap_app, app_assoc, W1, <- app_assoc, W2, app_assoc.
Qed.

Lemma buffer_init_inv m o num mem :
  0 <= m <= INT_MAX -> m <= o.(Flow.mtu) -> 0 < num <= INT_MAX ->
  flow_ok PacketPass o -> o.(handler_done) = false -> o.(state) = STATE_NONE ->
  let blocks := ChunkBuffer2_calc_blocks m num in
  0 < blocks -> sizeof_block * blocks <= INT_MAX -> Z.of_nat (length mem) = sizeof_block * blocks ->
  exists r, PacketBuffer_Init (flow_new m) o num (Some mem) = Some (Some r) /\ inv num r [] None /\
    waiting r [] None = [].
Proof.
  intros Hm Hmo Hn Fo Uo So n Hp Hx Hl. assert (n = (1 + bdivide_up m sizeof_block) * (num + 1)) as E.
  { revert Hp. unfold n. rewrite calc_blocks_spec by lia. cbn zeta. destruct (_ <=? _); lia. }
  pose proof (bdivide_up_nonneg m sizeof_block ltac:(unfold sizeof_block; lia) ltac:(lia)).
  destruct (init_rep mem n m) as (b & Eb & R & Es & Em); [done|done|lia|nia|].
  destruct (room_mtu b [] m num) as [Hd Ha]; [done|lia|done|rewrite Em, Es; lia|constructor|cbn; lia|].
  unfold PacketBuffer_Init, PacketRecvInterface_Receiver_Init, PacketPassInterface_Sender_Init.
  cbn [Flow.mtu flow_new handler_done negb set_handlers]. fold n.
  rewrite (proj2 (Z.leb_le _ _)), (proj2 (Z.ltb_lt _ _)), Uo, (proj2 (Z.ltb_ge _ _)), Eb by lia. cbn [negb].
  rewrite recv_ok by done. eexists. split; [done|]. split; [|unfold waiting; cbn; by destruct (is_state _ _)].
  destruct Fo as [F1 F2 F3]. unfold is_state in *.
  split; cbn; done || lia.
Qed.

(** C13: the packet buffer relays.  Whatever the order in which the two parties
    work, no assertion fails; the packets received are the packets delivered,
    unchanged and in order, followed by those still in the buffer; the receive
    is suspended only while [num] packets are waiting, the send only while
    there is nothing to send, and one of the two is always going on. *)
Theorem packet_buffer_relays m o num mem evs :
  0 <= m <= INT_MAX -> m <= o.(Flow.mtu) -> 0 < num <= INT_MAX ->
  flow_ok PacketPass o -> o.(handler_done) = false -> o.(state) = STATE_NONE ->
  let blocks := ChunkBuffer2_calc_blocks m num in
  0 < blocks -> sizeof_block * blocks <= INT_MAX -> Z.of_nat (length mem) = sizeof_block * blocks ->
  exists r r' acts rest, PacketBuffer_Init (flow_new m) o num (Some mem) = Some (Some r) /\
    run r evs = Some (r', acts) /\ got acts = delivered acts ++ rest /\
    (r'.(input).(state) = STATE_NONE -> r'.(output).(state) <> STATE_DONE_PENDING -> num <= Z.of_nat (length rest)) /\
    (r'.(output).(state) = STATE_NONE -> r'.(input).(state) <> STATE_DONE_PENDING -> rest = []) /\
    (r'.(input).(state) <> STATE_NONE \/ r'.(output).(state) <> STATE_NONE).
Proof.
  intros Hm Hmo Hn Fo Uo So n Hp Hx Hl. destruct (buffer_init_inv m o num mem) as (r & Er & V & W); [done..|].
  destruct (buffer_run_inv num evs r [] None V) as (r' & a & q & inp & Ea & V' & W').
  rewrite W in W'. exists r, r', a, (waiting r' q inp). split; [done|]. split; [done|]. split; [done|].
  assert (r'.(input).(state) = STATE_NONE -> num <= Z.of_nat (length q)) as Full.
  { destruct V'. unfold input_inv in v_in0. intros E. rewrite E in v_in0. destruct v_in0 as [A _].
    destruct (Z.leb_spec num (Z.of_nat (length q))); [done|].
    destruct (room_mtu (buf r') q (input_mtu r') num) as [_ ?]; [done..|lia]. }
  destruct V'. split; [|split].
  - intros E E'. rewrite waiting_busy by done. rewrite length_app. specialize (Full E). lia.
  - intros E E'. destruct q; [|by destruct v_out0]. rewrite waiting_busy by congruence. unfold input_inv in v_in0.
    destruct (state (input r')); [by destruct v_in0 as [_ ->]|by destruct v_in0 as (_ & _ & ->)..|done].
  - destruct (decide (r'.(input).(state) = STATE_NONE)) as [E|E]; [right|by left].
    specialize (Full E). destruct q; [cbn in Full; lia|by destruct v_out0].
Qed.

(** A buffer for one packet of five bytes, with a second packet on its way. *)
Lemma packet_buffer_relays_witness :
  let evs := [IJobOperation; IWrite 1 [9; 9]; IDone [1; 2; 3; 4; 5]; IJobDone; IJobOperation; OJobOperation;
              IDone [6; 7]; ODone; IJobDone; OJobDone; OJobOperation; ODone] in
  exists r r' acts rest, PacketBuffer_Init (flow_new 5) (flow_new 8) 1 (Some (repeat 0 24)) = Some (Some r) /\
    run r evs = Some (r', acts) /\ got acts = delivered acts ++ rest /\ got acts = [[1; 2; 3; 4; 5]; [6; 7]] /\ rest = [].
Proof.
  intros evs. destruct (packet_buffer_relays 5 (flow_new 8) 1 (repeat 0 24) evs)
    as (r & r' & acts & rest & E1 & E2 & E3 & _);
    [done|done|done|apply flow_new_ok|done|done|done|done|done|].
  exists r, r', acts, rest. split; [exact E1|]. split; [exact E2|]. split; [exact E3|].
  vm_compute in E1. injection E1 as <-. vm_compute in E2. injection E2 as <- <-. vm_compute in E3.
  split; [reflexivity|]. by injection E3 as <-.
Defined.

End PacketBuffer.
