(* ===== verification/PacketProto.v ===== *)
(** * Packets over a stream

    Models [protocol/packetproto.h], [flow/PacketProtoEncoder.c] and
    [flow/PacketProtoDecoder.c]: a packet is sent as its length on two bytes,
    little-endian, and its payload.  The encoder works in the memory of the
    party it encodes for; the decoder receives into a buffer of its own and
    passes packets on from inside it.  A result [None] is a failed [ASSERT] or
    an access outside the buffer. *)

From S2P Require Import Prelude.
From S2P Require Import Words.
From S2P Require Import Flow.
Import ByteOrder Flow.

Module PacketProto.

Definition sizeof_packetproto_header : Z := 2.
Definition PACKETPROTO_ENCLEN (len : Z) : Z := sizeof_packetproto_header + len.
Definition PACKETPROTO_MAXPAYLOAD : Z := UINT16_MAX.

Definition bmin_int (a b : Z) : Z := if a <? b then a else b.

(** ** Encoder *)

Record PacketProtoEncoder := MkEncoder {
  enc_input : flow_interface;
  output_packet : option Z;
  enc_output : flow_interface;
}.

Definition PacketProtoEncoder_Init (input : flow_interface) : option PacketProtoEncoder :=
  ASSERT input.(mtu) <=? PACKETPROTO_MAXPAYLOAD in
  LET i <- PacketRecvInterface_Receiver_Init input in
  LET o <- PacketRecvInterface_Init (PACKETPROTO_ENCLEN i.(mtu)) in
  Some (MkEncoder i None o).

Definition output_handler_recv (e : PacketProtoEncoder) (data : option Z) : option PacketProtoEncoder :=
  ASSERT bool_decide (e.(output_packet) = None) in
  LET p <- data in
  LET i <- PacketRecvInterface_Receiver_Recv e.(enc_input) (Some (p + sizeof_packetproto_header)) in
  Some (MkEncoder i (Some p) e.(enc_output)).

(** [mem] is the memory [output_packet] points into. *)
Definition enc_input_handler_done (e : PacketProtoEncoder) (mem : bytes) (in_len : Z)
  : option (PacketProtoEncoder * bytes) :=
  LET p <- e.(output_packet) in
  LET mem <- store (Z.to_nat p) (le_enc 2 (htol16 (u16 in_len))) mem in
  LET o <- PacketRecvInterface_Done e.(enc_output) (PACKETPROTO_ENCLEN in_len) in
  Some (MkEncoder e.(enc_input) None o, mem).

(** One packet through the encoder: its output is asked for a packet at [p],
    the provider of its input puts the payload where it is told and is done. *)
Definition encode_packet (e : PacketProtoEncoder) (mem : bytes) (p : Z) (payload : bytes)
  : option (PacketProtoEncoder * bytes * Z) :=
  LET o <- PacketRecvInterface_Receiver_Recv e.(enc_output) (Some p) in
  LET (o, data) <- _PacketRecvInterface_job_operation o in
  LET e <- output_handler_recv (MkEncoder e.(enc_input) e.(output_packet) o) data in
  LET (i, data) <- _PacketRecvInterface_job_operation e.(enc_input) in
  LET q <- data in
  LET mem <- store (Z.to_nat q) payload mem in
  LET i <- PacketRecvInterface_Done i (Z.of_nat (length payload)) in
  LET (i, n) <- _PacketRecvInterface_job_done i in
  LET (e, mem) <- enc_input_handler_done (MkEncoder i e.(output_packet) e.(enc_output)) mem n in
  LET (o, n) <- _PacketRecvInterface_job_done e.(enc_output) in
  Some (MkEncoder e.(enc_input) e.(output_packet) o, mem, n).

(** ** Decoder *)

Record PacketProtoDecoder := MkDecoder {
  input : flow_interface;
  output : flow_interface;
  output_mtu : Z;
  buf_size : Z;
  buf_start : Z;
  buf_used : Z;
  buf : bytes;
}.

Definition set_input i o := MkDecoder i o.(output) o.(output_mtu) o.(buf_size) o.(buf_start) o.(buf_used) o.(buf).
Definition set_output i o := MkDecoder o.(input) i o.(output_mtu) o.(buf_size) o.(buf_start) o.(buf_used) o.(buf).
Definition set_range s u o := MkDecoder o.(input) o.(output) o.(output_mtu) o.(buf_size) s u o.(buf).
Definition set_buf m o := MkDecoder o.(input) o.(output) o.(output_mtu) o.(buf_size) o.(buf_start) o.(buf_used) m.

(** The part of [process_data] after its loop: make room and receive.  The
    flag that is returned tells whether [handler_error] is called. *)
Definition process_rest (was_error : bool) (o : PacketProtoDecoder) : option (PacketProtoDecoder * bool) :=
  LET o <- (if was_error then Some (set_range 0 0 o)
            else if o.(buf_start) + o.(buf_used) =? o.(buf_size) then
              LET m <- store 0 (take (Z.to_nat o.(buf_used)) (drop (Z.to_nat o.(buf_start)) o.(buf))) o.(buf) in
              Some (set_range 0 o.(buf_used) (set_buf m o))
            else Some o) in
  let e := o.(buf_start) + o.(buf_used) in
  LET i <- StreamRecvInterface_Receiver_Recv o.(input) (Some e) (o.(buf_size) - e) in
  Some (set_input i o, was_error).

Definition process_data (o : PacketProtoDecoder) : option (PacketProtoDecoder * bool) :=
  let data := o.(buf_start) in
  let left := o.(buf_used) in
  if u64 left <? sizeof_packetproto_header then process_rest false o
  else
    ASSERT (0 <=? data) && (data + sizeof_packetproto_header <=? Z.of_nat (length o.(buf))) in
    let header := take 2 (drop (Z.to_nat data) o.(buf)) in
    let data := data + sizeof_packetproto_header in
    let left := left - sizeof_packetproto_header in
    let data_len := ltoh16 (le_dec header) in
    if o.(output_mtu) <? data_len then process_rest true o
    else if left <? data_len then process_rest false o
    else
      let o := set_range (o.(buf_start) + (sizeof_packetproto_header + data_len))
                 (o.(buf_used) - (sizeof_packetproto_header + data_len)) o in
      LET i <- PacketPassInterface_Sender_Send o.(output) (Some data) data_len in
      Some (set_output i o, false).

Definition input_handler_done (o : PacketProtoDecoder) (data_len : Z) : option (PacketProtoDecoder * bool) :=
  ASSERT 0 <? data_len in
  ASSERT data_len <=? o.(buf_size) - (o.(buf_start) + o.(buf_used)) in
  process_data (set_range o.(buf_start) (o.(buf_used) + data_len) o).

Definition output_handler_done (o : PacketProtoDecoder) : option (PacketProtoDecoder * bool) := process_data o.

(** [Some None] is the return value 0, when [malloc] fails. *)
Definition PacketProtoDecoder_Init (i o : flow_interface) (mem : option bytes) : option (option PacketProtoDecoder) :=
  LET i <- StreamRecvInterface_Receiver_Init i in
  LET o <- PacketPassInterface_Sender_Init o in
  let output_mtu := bmin_int o.(mtu) PACKETPROTO_MAXPAYLOAD in
  let buf_size := PACKETPROTO_ENCLEN output_mtu in
  match mem with
  | None => Some None
  | Some mem =>
      LET i <- StreamRecvInterface_Receiver_Recv i (Some 0) buf_size in
      Some (Some (MkDecoder i o output_mtu buf_size 0 0 mem))
  end.

Definition PacketProtoDecoder_Reset (o : PacketProtoDecoder) : PacketProtoDecoder :=
  set_range (o.(buf_start) + o.(buf_used)) 0 o.

(** ** The decoder at work

    [IDone d] is the provider of the input: it has written [d] where it was
    told and calls [StreamRecvInterface_Done].  [Reset] is the user of the
    decoder, at any moment. *)
Inductive event := IJobOperation | IDone (d : bytes) | IJobDone | OJobOperation | ODone | OJobDone | Reset.
Inductive action := Received (d : bytes) | Delivered (p : bytes) | Error | Cleared.

Definition legal (o : PacketProtoDecoder) (ev : event) : bool :=
  match ev with
  | IJobOperation => o.(input).(job_operation)
  | IDone d => is_state STATE_BUSY o.(input) && (0 <? Z.of_nat (length d))
      && (Z.of_nat (length d) <=? o.(input).(job_operation_len)) && bool_decide (bytes_ok d)
  | IJobDone => o.(input).(job_done)
  | OJobOperation => o.(output).(job_operation)
  | ODone => is_state STATE_BUSY o.(output)
  | OJobDone => o.(output).(job_done)
  | Reset => true
  end.

Definition report (r : option (PacketProtoDecoder * bool)) : option (PacketProtoDecoder * list action) :=
  LET (o, e) <- r in Some (o, if e then [Error] else []).

Definition step (o : PacketProtoDecoder) (ev : event) : option (PacketProtoDecoder * list action) :=
  match ev with
  | IJobOperation =>
      LET (i, _) <- _StreamRecvInterface_job_operation o.(input) in Some (set_input i o, [])
  | IDone d =>
      LET p <- o.(input).(job_operation_data) in
      ASSERT 0 <=? p in
      LET m <- store (Z.to_nat p) d o.(buf) in
      LET i <- StreamRecvInterface_Done o.(input) (Z.of_nat (length d)) in
      Some (set_input i (set_buf m o), [Received d])
  | IJobDone =>
      LET (i, n) <- _StreamRecvInterface_job_done o.(input) in
      report (input_handler_done (set_input i o) n)
  | OJobOperation =>
      LET (i, _) <- _PacketPassInterface_job_operation o.(output) in Some (set_output i o, [])
  | ODone =>
      LET p <- o.(output).(job_operation_data) in
      let d := take (Z.to_nat o.(output).(job_operation_len)) (drop (Z.to_nat p) o.(buf)) in
      LET i <- PacketPassInterface_Done o.(output) in
      Some (set_output i o, [Delivered d])
  | OJobDone =>
      LET i <- _PacketPassInterface_job_done o.(output) in
      report (output_handler_done (set_output i o))
  | Reset => Some (PacketProtoDecoder_Reset o, [Cleared])
  end.

Fixpoint run (o : PacketProtoDecoder) (evs : list event) : option (PacketProtoDecoder * list action) :=
  match evs with
  | [] => Some (o, [])
  | ev :: evs =>
      if legal o ev then
        LET (o, a) <- step o ev in
        LET (o, a') <- run o evs in Some (o, a ++ a')
      else run o evs
  end.

Definition received (a : list action) : bytes := concat (omap (fun x => match x with Received d => Some d | _ => None end) a).
Definition delivered (a : list action) : list bytes := omap (fun x => match x with Delivered d => Some d | _ => None end) a.
Definition disturbed (a : list action) : bool := existsb (fun x => match x with Error | Cleared => true | _ => false end) a.

(** The encoding of a packet and of a sequence of packets. *)
Definition frame (p : bytes) : bytes := le_enc 2 (Z.of_nat (length p)) ++ p.
Definition frames (ps : list bytes) : bytes := concat (map frame ps).

(** Runs the calls of the flow interfaces whose assertions are clear. *)
Ltac flow_go := repeat (first
  [ rewrite bool_decide_eq_true_2 by done | rewrite bool_decide_eq_false_2 by done | rewrite orb_true_r
  | rewrite (proj2 (Z.leb_le _ _)) by lia | rewrite (proj2 (Z.ltb_lt _ _)) by lia ]; cbn).

(** ** The encoding is uniquely decodable *)

Lemma frame_inj d p x y :
  Z.of_nat (length d) <= PACKETPROTO_MAXPAYLOAD -> Z.of_nat (length p) <= PACKETPROTO_MAXPAYLOAD ->
  frame d ++ x = frame p ++ y -> d = p /\ x = y.
Proof.
  unfold frame, PACKETPROTO_MAXPAYLOAD, UINT16_MAX. intros Hd Hp E. rewrite <- !app_assoc in E.
  apply app_inj_1 in E as [E1 E2]; [|by rewrite !le_enc_length].
  apply (f_equal le_dec) in E1. rewrite !le_dec_enc in E1 by (cbn; lia).
  apply app_inj_1 in E2; [done|lia].
Qed.

Lemma frames_app ps qs : frames (ps ++ qs) = frames ps ++ frames qs.
Proof. unfold frames. by rewrite map_app, concat_app. Qed.

Definition small (m : Z) (p : bytes) : Prop := Z.of_nat (length p) <= m.

Lemma frames_split m ds : forall ps x,
  m <= PACKETPROTO_MAXPAYLOAD -> Forall (small m) ds -> Forall (small m) ps ->
  frames ds ++ x = frames ps -> exists ps', ps = ds ++ ps' /\ x = frames ps'.
Proof.
  intros ps x Hm Hds. revert ps. induction Hds as [|d ds Hd Hds IH]; intros ps Hps E; [by exists ps|].
  destruct Hps as [|p ps Hp Hps]; [by cbn in E|].
  unfold frames in E. cbn [map concat] in E. fold (frames ds) in E. fold (frames ps) in E.
  rewrite <- app_assoc in E. unfold small in *. apply frame_inj in E as [-> E]; [|lia..].
  destruct (IH ps Hps E) as (ps' & -> & ->). by exists ps'.
Qed.

(** The length a stream of frames starts with. *)
Lemma frames_header m ps h t : m <= PACKETPROTO_MAXPAYLOAD -> Forall (small m) ps -> length h = 2%nat ->
  h ++ t = frames ps -> exists p ps' , ps = p :: ps' /\ le_dec h = Z.of_nat (length p) /\ t = p ++ frames ps'.
Proof.
  intros Hm Hps Hh E. destruct Hps as [|p ps Hp Hps]; [by destruct h|]. exists p, ps. split; [done|].
  unfold frames in E. cbn [map concat] in E. fold (frames ps) in E. unfold frame in E. rewrite <- app_assoc in E.
  apply app_inj_1 in E as [-> ->]; [|by rewrite le_enc_length]. split; [|done].
  unfold small, PACKETPROTO_MAXPAYLOAD, UINT16_MAX in *. rewrite le_dec_enc by (cbn; lia). done.
Qed.

(** ** The encoder frames its input *)

(** A packet leaves the encoder as its frame, in the place the receiver asked
    for, and the encoder is ready for the next. *)
Definition encoder_ready (e : PacketProtoEncoder) : Prop :=
  e.(output_packet) = None /\ e.(enc_input).(state) = STATE_NONE /\ e.(enc_output).(state) = STATE_NONE /\
  e.(enc_input).(handler_done) = true /\ e.(enc_output).(handler_done) = true /\
  0 <= e.(enc_input).(mtu) <= PACKETPROTO_MAXPAYLOAD /\ e.(enc_output).(mtu) = PACKETPROTO_ENCLEN e.(enc_input).(mtu).

Lemma encode_packet_frame e mem p payload :
  encoder_ready e -> Z.of_nat (length payload) <= e.(enc_input).(mtu) ->
  0 <= p -> p + e.(enc_output).(mtu) <= Z.of_nat (length mem) ->
  exists e' mem', encode_packet e mem p payload = Some (e', mem', Z.of_nat (length (frame payload))) /\
    bytes_at mem' p (frame payload) /\ length mem' = length mem /\ encoder_ready e' /\
    e'.(enc_input).(mtu) = e.(enc_input).(mtu).
Proof.
  intros (Ep & Si & So & Hi & Ho & Hm & Eo) Hl H0 Hr.
  unfold PACKETPROTO_ENCLEN, PACKETPROTO_MAXPAYLOAD, UINT16_MAX, sizeof_packetproto_header in *.
  destruct e as [i op o]. destruct i as [im ? ? ? ? ? ? ? ? ist ?], o as [om ? ? ? ? ? ? ? ? ost ?]. cbn in *. subst.
  unfold encode_packet, PacketRecvInterface_Receiver_Recv, _PacketRecvInterface_job_operation, output_handler_recv, is_state. cbn.
  flow_go. unfold PacketRecvInterface_Receiver_Recv, is_state. flow_go.
  destruct (store_total (Z.to_nat (p + 2)) payload mem) as [mem1 E1]; [lia|].
  change (p + sizeof_packetproto_header) with (p + 2). rewrite E1. pose proof (store_length _ _ _ _ E1) as L1.
  unfold PacketRecvInterface_Done, _PacketRecvInterface_job_done, is_state. flow_go.
  unfold enc_input_handler_done. cbn. rewrite u16_small by lia. unfold htol16.
  destruct (store_total (Z.to_nat p) (le_enc 2 (Z.of_nat (length payload))) mem1) as [mem2 E2]; [rewrite le_enc_length; lia|].
  cbn [le_enc] in E2. rewrite E2. pose proof (store_length _ _ _ _ E2) as L2.
  unfold PacketRecvInterface_Done, is_state, PACKETPROTO_ENCLEN, sizeof_packetproto_header. cbn. flow_go.
  eexists _, mem2. split; [f_equal; f_equal; lia|].
  split; [|split; [lia|]; split; [|done]].
  - change (bytes_at mem2 p (frame payload)). unfold frame.
    apply bytes_at_join; [by apply (bytes_at_stored mem1)|]. rewrite le_enc_length.
    eapply bytes_at_store; [exact E2|apply (bytes_at_stored mem); [lia|exact E1]|].
    cbn. lia.
  - repeat split; cbn; try done; unfold PACKETPROTO_MAXPAYLOAD, UINT16_MAX, PACKETPROTO_ENCLEN; lia.
Qed.

(** A sequence of packets, one after the other through the same memory. *)
Fixpoint encode_stream (e : PacketProtoEncoder) (mem : bytes) (p : Z) (ps : list bytes) : option bytes :=
  match ps with
  | [] => Some []
  | x :: ps =>
      LET (e, mem, n) <- encode_packet e mem p x in
      LET s <- encode_stream e mem p ps in
      Some (take (Z.to_nat n) (drop (Z.to_nat p) mem) ++ s)
  end.

Lemma encode_stream_frames ps : forall e mem p,
  encoder_ready e -> Forall (small e.(enc_input).(mtu)) ps ->
  0 <= p -> p + e.(enc_output).(mtu) <= Z.of_nat (length mem) -> encode_stream e mem p ps = Some (frames ps).
Proof.
  induction ps as [|x ps IH]; intros e mem p R H H0 Hl; cbn [encode_stream]; [done|].
  apply Forall_cons in H as [Hx Hps].
  destruct (encode_packet_frame e mem p x R Hx H0 Hl) as (e' & mem' & -> & B & L & R' & M).
  destruct R as (_ & _ & _ & _ & _ & _ & Eo), (R') as (_ & _ & _ & _ & _ & _ & Eo').
  rewrite IH by (done || congruence). by rewrite Nat2Z.id, (bytes_at_read _ _ _ B).
Qed.

(** ** Invariant of the decoder

    [u] is the part of the stream that is in the buffer, [infl] what has been
    received after it and not yet been processed, [cur] the packet that is
    being passed on and has not yet been delivered. *)
Record dec_base (o : PacketProtoDecoder) (u : bytes) : Prop := {
  b_start : 0 <= o.(buf_start);
  b_used : o.(buf_used) = Z.of_nat (length u);
  b_end : o.(buf_start) + o.(buf_used) <= o.(buf_size);
  b_len : Z.of_nat (length o.(buf)) = o.(buf_size);
  b_size : o.(buf_size) = 2 + o.(output_mtu);
  b_mtu : 0 <= o.(output_mtu) <= PACKETPROTO_MAXPAYLOAD;
  b_out_mtu : o.(output_mtu) <= o.(output).(mtu);
  b_at : bytes_at o.(buf) o.(buf_start) u;
  b_ok : bytes_ok u;
  b_in_flow : flow_ok StreamRecv o.(input);
  b_out_flow : flow_ok PacketPass o.(output);
  b_in_user : o.(input).(handler_done) = true;
  b_out_user : o.(output).(handler_done) = true;
}.

(** No whole packet is in the buffer. *)
Definition incomplete (u : bytes) : Prop :=
  (length u < 2)%nat \/ Z.of_nat (length u) - 2 < le_dec (take 2 u).

Definition receiving (o : PacketProtoDecoder) (u infl : bytes) : Prop :=
  o.(output).(state) = STATE_NONE /\ incomplete u /\
  o.(input).(job_operation_data) = Some (o.(buf_start) + o.(buf_used)) /\
  o.(input).(job_operation_len) = o.(buf_size) - (o.(buf_start) + o.(buf_used)) /\
  o.(buf_start) + o.(buf_used) < o.(buf_size) /\
  match o.(input).(state) with
  | STATE_NONE => False
  | STATE_DONE_PENDING =>
      o.(input).(job_done_len) = Z.of_nat (length infl) /\
      0 < Z.of_nat (length infl) <= o.(input).(job_operation_len) /\
      bytes_at o.(buf) (o.(buf_start) + o.(buf_used)) infl /\ bytes_ok infl
  | _ => infl = []
  end.

Definition sending (o : PacketProtoDecoder) (cur : option bytes) : Prop :=
  o.(input).(state) = STATE_NONE /\ o.(output).(state) <> STATE_NONE /\
  exists p pkt, o.(output).(job_operation_data) = Some p /\ o.(output).(job_operation_len) = Z.of_nat (length pkt) /\
    bytes_at o.(buf) p pkt /\ Z.of_nat (length pkt) <= o.(output_mtu) /\
    cur = if is_state STATE_DONE_PENDING o.(output) then None else Some pkt.

Definition dec_inv (o : PacketProtoDecoder) (u infl : bytes) (cur : option bytes) : Prop :=
  dec_base o u /\ ((receiving o u infl /\ cur = None) \/ (sending o cur /\ infl = [])).

(** [process_data] finds the next packet, asks for more, or drops a stream
    that announces a packet longer than the MTU. *)
Definition bad_header (m : Z) (s : bytes) : Prop :=
  exists h t, s = h ++ t /\ length h = 2%nat /\ m < le_dec h.

Lemma recv_starts o u :
  dec_base o u -> o.(input).(state) = STATE_NONE -> o.(output).(state) = STATE_NONE -> incomplete u ->
  o.(buf_start) + o.(buf_used) < o.(buf_size) ->
  exists i, StreamRecvInterface_Receiver_Recv o.(input) (Some (o.(buf_start) + o.(buf_used)))
      (o.(buf_size) - (o.(buf_start) + o.(buf_used))) = Some i /\ dec_inv (set_input i o) u [] None.
Proof.
  intros B Si So Iu Hlt. unfold StreamRecvInterface_Receiver_Recv, is_state. rewrite Si, (b_in_user _ _ B).
  flow_go. eexists. split; [done|]. split; [|by left].
  destruct B as [B1 B2 B3 B4 B5 B6 B7 B8 B9 F G U V]. split; cbn; try done.
  destruct F as [F1 F2 F3]. unfold is_state in *. rewrite Si in F2. split; cbn; [done|done|]. intros Hc. by destruct (F3 Hc).
Qed.

Lemma bytes_at_nil m off : 0 <= off -> bytes_at m off [].
Proof. by split. Qed.

Lemma process_rest_ok o u :
  dec_base o u -> o.(input).(state) = STATE_NONE -> o.(output).(state) = STATE_NONE -> incomplete u ->
  Z.of_nat (length u) < o.(buf_size) ->
  exists o', process_rest false o = Some (o', false) /\ dec_inv o' u [] None /\ o'.(output_mtu) = o.(output_mtu).
Proof.
  intros B Si So Iu Hl. unfold process_rest. cbn zeta.
  destruct (Z.eqb_spec (o.(buf_start) + o.(buf_used)) o.(buf_size)) as [E|E].
  - pose proof B as [B1 B2 B3 B4 B5 B6 B7 B8 B9 F G U V]. rewrite B2, Nat2Z.id, (bytes_at_read _ _ _ B8).
    destruct (store_total 0 u (buf o)) as [m Em]; [lia|]. rewrite Em. pose proof (store_length _ _ _ _ Em).
    destruct (recv_starts (set_range 0 (Z.of_nat (length u)) (set_buf m o)) u) as (i & Ei & I); [|done..|].
    + split; cbn; try done; try lia. by apply (bytes_at_stored (buf o) m 0 u).
    + cbn in Ei |- *. rewrite Ei. by eexists.
  - destruct (recv_starts o u) as (i & Ei & I); [done..|destruct B; lia|]. rewrite Ei. by eexists.
Qed.

Lemma process_error_ok o u :
  dec_base o u -> o.(input).(state) = STATE_NONE -> o.(output).(state) = STATE_NONE ->
  exists o', process_rest true o = Some (o', true) /\ dec_inv o' [] [] None /\ o'.(output_mtu) = o.(output_mtu).
Proof.
  intros B Si So. unfold process_rest. cbn zeta.
  destruct (recv_starts (set_range 0 0 o) []) as (i & Ei & I); [|done|done|left; cbn; lia|destruct B; cbn; lia|].
  - destruct B. split; cbn; done || lia.
  - cbn in Ei |- *. rewrite Ei. by eexists.
Qed.

Lemma send_starts o pkt p u :
  dec_base o u -> o.(input).(state) = STATE_NONE -> o.(output).(state) = STATE_NONE ->
  bytes_at o.(buf) p pkt -> Z.of_nat (length pkt) <= o.(output_mtu) ->
  exists i, PacketPassInterface_Sender_Send o.(output) (Some p) (Z.of_nat (length pkt)) = Some i /\
    dec_inv (set_output i o) u [] (Some pkt).
Proof.
  intros B Si So Hp Hl. pose proof B as [B1 B2 B3 B4 B5 B6 B7 B8 B9 F G U V].
  unfold PacketPassInterface_Sender_Send, is_state. rewrite So, V. flow_go. eexists. split; [done|]. split.
  - split; cbn; try done.
    destruct G as [G1 G2 G3]. unfold is_state in *. rewrite So in G2. split; cbn; [done|done|]. intros Hc. destruct (G3 Hc) as (_ & ? & _). congruence.
  - right. split; [|done]. split; [done|]. split; [done|]. by exists p, pkt.
Qed.

Lemma process_data_ok o u :
  dec_base o u -> o.(input).(state) = STATE_NONE -> o.(output).(state) = STATE_NONE ->
  exists o' e u' cur, process_data o = Some (o', e) /\ dec_inv o' u' [] cur /\ o'.(output_mtu) = o.(output_mtu) /\
    if e then bad_header o.(output_mtu) u else u = frames (option_list cur) ++ u'.
Proof.
  intros B Si So. pose proof B as [B1 B2 B3 B4 B5 B6 B7 B8 B9 F G U V].
  unfold PACKETPROTO_MAXPAYLOAD, UINT16_MAX in B6. unfold process_data. rewrite u64_small by lia. cbn zeta.
  unfold sizeof_packetproto_header.
  destruct (Z.ltb_spec (buf_used o) 2) as [H2|H2].
  { destruct (process_rest_ok o u) as (o' & -> & I & E); [done..|left; lia|lia|]. by eexists _, _, u, None. }
  rewrite (proj2 (Z.leb_le 0 (buf_start o))), (proj2 (Z.leb_le (buf_start o + 2) _)) by lia. cbn [andb].
  destruct (list_split_at 2 u) as (h & t & -> & Hh); [lia|]. rewrite length_app in *.
  apply bytes_at_app in B8 as [Bh Bt]. rewrite Hh in Bt. pose proof (bytes_at_read _ _ _ Bh) as Rh. rewrite Hh in Rh. rewrite Rh.
  apply Forall_app in B9 as [Oh Ot]. pose proof (le_dec_bound h Oh) as Hb. rewrite Hh in Hb. unfold ltoh16, htol16.
  destruct (Z.ltb_spec (output_mtu o) (le_dec h)).
  { destruct (process_error_ok o (h ++ t)) as (o' & -> & I & E); [done..|]. eexists _, _, [], None. split; [done|]. split; [done|].
    split; [done|]. by exists h, t. }
  destruct (Z.ltb_spec (buf_used o - 2) (le_dec h)).
  { destruct (process_rest_ok o (h ++ t)) as (o' & -> & I & E); [done..| |rewrite length_app; lia|].
    - right. rewrite take_app_length' by done. rewrite length_app. lia.
    - by eexists _, _, (h ++ t), None. }
  destruct (list_split_at (Z.to_nat (le_dec h)) t) as (pkt & rest & -> & Hp); [lia|].
  rewrite length_app in *. apply Forall_app in Ot as [Op Or]. apply bytes_at_app in Bt as [Bp Br].
  assert (le_dec h = Z.of_nat (length pkt)) as Eh by lia.
  set (o1 := set_range _ _ o).
  destruct (send_starts o1 pkt (buf_start o + 2) rest) as (i & Ei & I); [|done|done|done|cbn; lia|].
  - split; cbn; try done; try lia. by replace (buf_start o + (2 + le_dec h)) with (buf_start o + 2 + Z.of_nat (length pkt)) by lia.
  - rewrite <- Eh in Ei. change (output o) with (output o1). rewrite Ei. eexists _, _, rest, (Some pkt). split; [done|]. split; [done|]. split; [done|].
    pose proof (le_enc_dec h Oh) as Ed. rewrite Hh, Eh in Ed. 
    change (option_list (Some pkt)) with [pkt]. unfold frames, frame. cbn [map concat]. by rewrite Ed, app_nil_r, <- app_assoc.
Qed.

(** The stream from the packet that is being passed on. *)
Definition content (u infl : bytes) (cur : option bytes) : bytes := frames (option_list cur) ++ u ++ infl.

Lemma dec_input_done_ok o u infl cur :
  dec_inv o u infl cur -> o.(input).(state) = STATE_DONE_PENDING ->
  exists o' e u' cur', input_handler_done (set_input (run_done o.(input)) o) o.(input).(job_done_len) = Some (o', e) /\
    dec_inv o' u' [] cur' /\ o'.(output_mtu) = o.(output_mtu) /\
    if e then bad_header o.(output_mtu) (content u infl cur) else content u infl cur = content u' [] cur'.
Proof.
  intros [B [[(So & Iu & Ed & El & Hlt & M) ->]|[(Si & _) _]]] Hs; [|congruence]. rewrite Hs in M.
  destruct M as (-> & Hl & Bi & Oi). unfold input_handler_done. cbn.
  rewrite (proj2 (Z.ltb_lt _ _)), (proj2 (Z.leb_le _ _)) by lia.
  destruct B as [B1 B2 B3 B4 B5 B6 B7 B8 B9 F G U V].
  set (o1 := set_range _ _ _).
  destruct (process_data_ok o1 (u ++ infl)) as (o' & e & u' & cur' & -> & I & E & P); [|done|done|].
  - split; cbn; try done; try lia; [rewrite length_app; lia|apply bytes_at_join; [done|by rewrite <- B2]|by apply Forall_app|].
    by apply run_done_flow.
  - eexists _, _, u', cur'. split; [done|]. split; [done|]. split; [done|]. unfold content. rewrite app_nil_r.
    by destruct e.
Qed.

Lemma dec_output_done_ok o u infl cur :
  dec_inv o u infl cur -> o.(output).(state) = STATE_DONE_PENDING ->
  exists o' e u' cur', output_handler_done (set_output (run_done o.(output)) o) = Some (o', e) /\
    dec_inv o' u' [] cur' /\ o'.(output_mtu) = o.(output_mtu) /\
    if e then bad_header o.(output_mtu) (content u infl cur) else content u infl cur = content u' [] cur'.
Proof.
  intros [B [[(So & _) _]|[(Si & _ & p & pkt & _ & _ & _ & _ & ->) ->]]] Hs; [congruence|].
  unfold is_state. rewrite Hs, bool_decide_eq_true_2 by done. unfold output_handler_done.
  destruct (process_data_ok (set_output (run_done (output o)) o) u) as (o' & e & u' & cur' & -> & I & E & P); [|done|done|].
  - destruct B. split; cbn; try done. by apply run_done_flow.
  - eexists _, _, u', cur'. split; [done|]. split; [done|]. split; [done|]. unfold content. rewrite !app_nil_r. by destruct e.
Qed.

Lemma reset_ok o u infl cur :
  dec_inv o u infl cur -> dec_inv (PacketProtoDecoder_Reset o) [] infl cur.
Proof.
  intros [B M]. split.
  - destruct B. split; cbn; try done; try lia. apply bytes_at_nil. lia.
  - destruct M as [[(So & Iu & Ed & El & Hlt & M) ->]|[S ->]]; [left|by right]. split; [|done].
    unfold receiving. cbn. rewrite Z.add_0_r. split; [done|]. split; [left; cbn; lia|]. done.
Qed.

Definition cleared (a : list action) : bool := existsb (fun x => match x with Cleared => true | _ => false end) a.

(** What a run has done to the stream: nothing was lost, unless the decoder was
    reset or met a header that announces too long a packet. *)
Definition accounted (m : Z) (c : bytes) (a : list action) (c' : bytes) : Prop :=
  cleared a = true \/
  (disturbed a = false /\ c ++ received a = frames (delivered a) ++ c') \/
  (exists ds s, Forall (small m) ds /\ c ++ received a = frames ds ++ s /\ bad_header m s).

Lemma dec_input_write_ok o u infl cur d :
  dec_inv o u infl cur -> o.(input).(state) = STATE_BUSY ->
  0 < Z.of_nat (length d) <= o.(input).(job_operation_len) -> bytes_ok d ->
  exists o', step o (IDone d) = Some (o', [Received d]) /\ dec_inv o' u d cur /\ infl = [] /\ o'.(output_mtu) = o.(output_mtu).
Proof.
  intros [B [[(So & Iu & Ed & El & Hlt & M) ->]|[(Si & _) _]]] Hs Hd Hb; [|congruence]. rewrite Hs in M. subst infl.
  pose proof B as [B1 B2 B3 B4 B5 B6 B7 B8 B9 F G U V]. cbn [step]. rewrite Ed, (proj2 (Z.leb_le _ _)) by lia.
  destruct (store_total (Z.to_nat (buf_start o + buf_used o)) d (buf o)) as [m Em]; [lia|]. rewrite Em.
  pose proof (store_length _ _ _ _ Em). unfold StreamRecvInterface_Done, is_state. rewrite Hs. flow_go.
  eexists. split; [done|]. split; [|done]. split.
  - split; cbn; try done; try lia.
    + eapply bytes_at_store; [done..|]. lia.
    + destruct F as [F1 F2 F3]. unfold is_state in *. rewrite Hs in F1. split; cbn; [done|done|]. intros Hc. by destruct (F3 Hc).
  - left. split; [|done]. unfold receiving. cbn. repeat split; try done; try lia. by apply (bytes_at_stored (buf o)); [lia|].
Qed.

Lemma deliver_ok o u infl cur :
  dec_inv o u infl cur -> o.(output).(state) = STATE_BUSY ->
  exists o' pkt, step o ODone = Some (o', [Delivered pkt]) /\ cur = Some pkt /\ small o.(output_mtu) pkt /\
    dec_inv o' u infl None /\ o'.(output_mtu) = o.(output_mtu).
Proof.
  intros [B [[(So & _) _]|[(Si & _ & p & pkt & Ep & El & Bp & Hl & ->) ->]]] Hs; [congruence|].
  cbn [step]. rewrite Ep, El, Nat2Z.id, (bytes_at_read _ _ _ Bp). unfold PacketPassInterface_Done, is_state. rewrite Hs. flow_go.
  eexists _, pkt. split; [done|]. split; [done|]. split; [done|]. split; [|done]. split.
  - destruct B as [B1 B2 B3 B4 B5 B6 B7 B8 B9 F G U V]. split; cbn; try done.
    destruct G as [G1 G2 G3]. unfold is_state in *. rewrite Hs in G1. by split.
  - right. split; [|done]. split; [done|]. split; [done|]. by exists p, pkt.
Qed.

Lemma decoder_step o u infl cur ev :
  dec_inv o u infl cur -> legal o ev = true ->
  exists o' a u' infl' cur', step o ev = Some (o', a) /\ dec_inv o' u' infl' cur' /\
    o'.(output_mtu) = o.(output_mtu) /\ Forall (small o.(output_mtu)) (delivered a) /\
    accounted o.(output_mtu) (content u infl cur) a (content u' infl' cur').
Proof.
  intros V L. pose proof V as [B M]. destruct ev; cbn [legal] in L.
  - rewrite (fo_op _ _ (b_in_flow _ _ B)) in L. cbn [step]. unfold _StreamRecvInterface_job_operation. rewrite L. apply is_state_true in L.
    eexists _, _, u, infl, cur. split; [done|]. split; [|split; [done|]; split; [by constructor|]; right; left; by rewrite app_nil_r].
    split; [destruct B; split; cbn; try done; by apply run_operation_flow|].
    destruct M as [[(So & Iu & Ed & El & Hlt & M) ->]|[(Si & _) _]]; [|congruence]. left. split; [|done].
    unfold receiving. cbn. by rewrite L in M.
  - to_prop. apply bool_decide_eq_true in H0. apply is_state_true in H.
    destruct (dec_input_write_ok o u infl cur d V H) as (o' & -> & V' & -> & E); [lia|done|].
    eexists _, _, u, d, cur. split; [done|]. split; [done|]. split; [done|]. split; [by constructor|].
    right; left. split; [done|]. cbn. unfold content. by rewrite !app_nil_r, <- app_assoc.
  - rewrite (fo_done _ _ (b_in_flow _ _ B)) in L. cbn [step]. unfold _StreamRecvInterface_job_done. rewrite L. apply is_state_true in L.
    destruct (dec_input_done_ok _ _ _ _ V L) as (o' & e & u' & cur' & -> & V' & E & P). cbn [report].
    eexists _, _, u', [], cur'. split; [done|]. split; [done|]. split; [done|]. split; [destruct e; by constructor|].
    right. destruct e; [right; exists [], (content u infl cur)|left; split; [done|]]; cbn; rewrite ?app_nil_r; done.
  - rewrite (fo_op _ _ (b_out_flow _ _ B)) in L. cbn [step]. unfold _PacketPassInterface_job_operation. rewrite L. apply is_state_true in L.
    eexists _, _, u, infl, cur. split; [done|]. split; [|split; [done|]; split; [by constructor|]; right; left; by rewrite app_nil_r].
    split; [destruct B; split; cbn; try done; by apply run_operation_flow|].
    destruct M as [[(So & _) _]|[(Si & _ & p & pkt & Ep & El & Bp & Hl & ->) ->]]; [congruence|]. right. split; [|done].
    split; [done|]. split; [done|]. exists p, pkt. unfold is_state. rewrite L. done.
  - apply is_state_true in L. destruct (deliver_ok _ _ _ _ V L) as (o' & pkt & -> & -> & Hl & V' & E).
    eexists _, _, u, infl, None. split; [done|]. split; [done|]. split; [done|]. split; [by repeat constructor|].
    right; left. split; [done|]. cbn. by rewrite app_nil_r.
  - rewrite (fo_done _ _ (b_out_flow _ _ B)) in L. cbn [step]. unfold _PacketPassInterface_job_done. rewrite L. apply is_state_true in L.
    destruct (dec_output_done_ok _ _ _ _ V L) as (o' & e & u' & cur' & -> & V' & E & P). cbn [report].
    eexists _, _, u', [], cur'. split; [done|]. split; [done|]. split; [done|]. split; [destruct e; by constructor|].
    right. destruct e; [right; exists [], (content u infl cur)|left; split; [done|]]; cbn; rewrite ?app_nil_r; done.
  - eexists _, _, [], infl, cur. split; [done|]. split; [by apply (reset_ok o u)|]. split; [done|]. split; [by constructor|]. by left.
Qed.

Lemma received_app a a' : received (a ++ a') = received a ++ received a'.
Proof. unfold received. by rewrite omap_app, concat_app. Qed.

Lemma accounted_app m c a c1 a' c2 :
  accounted m c a c1 -> Forall (small m) (delivered a) -> accounted m c1 a' c2 -> accounted m c (a ++ a') c2.
Proof.
  intros H Hd H'. unfold accounted, cleared, disturbed in *. rewrite !existsb_app, received_app.
  assert (delivered (a ++ a') = delivered a ++ delivered a') as -> by (unfold delivered; by rewrite omap_app).
  destruct H as [->|[[-> E]|(ds & s & Hds & E & h & t & -> & Hh)]]; [by left| |].
  - destruct H' as [->|[[-> E']|(ds & s & Hds & E' & Bad)]]; [left; apply orb_true_r|right; left|right; right].
    + split; [done|]. by rewrite app_assoc, E, <- app_assoc, E', frames_app, <- app_assoc.
    + exists (delivered a ++ ds), s. split; [by apply Forall_app|]. split; [|done].
      by rewrite app_assoc, E, <- app_assoc, E', frames_app, <- app_assoc.
  - right; right. exists ds, (h ++ t ++ received a'). split; [done|]. split; [by rewrite app_assoc, E, <- !app_assoc|].
    by exists h, (t ++ received a').
Qed.

Lemma decoder_run evs : forall o u infl cur, dec_inv o u infl cur ->
  exists o' a u' infl' cur', run o evs = Some (o', a) /\ dec_inv o' u' infl' cur' /\
    o'.(output_mtu) = o.(output_mtu) /\ Forall (small o.(output_mtu)) (delivered a) /\
    accounted o.(output_mtu) (content u infl cur) a (content u' infl' cur').
Proof.
  induction evs as [|ev evs IH]; intros o u infl cur V; cbn [run].
  - eexists _, _, u, infl, cur. split; [done|]. split; [done|]. split; [done|]. split; [by constructor|].
    right; left. by rewrite app_nil_r.
  - destruct (legal o ev) eqn:L; [|by apply IH].
    destruct (decoder_step _ _ _ _ _ V L) as (o1 & a1 & u1 & i1 & c1 & -> & V1 & M1 & D1 & A1).
    destruct (IH _ _ _ _ V1) as (o2 & a2 & u2 & i2 & c2 & -> & V2 & M2 & D2 & A2). rewrite M1 in *.
    eexists _, _, u2, i2, c2. split; [done|]. split; [done|]. split; [done|]. split; [|by eapply accounted_app].
    unfold delivered in *. rewrite omap_app. by apply Forall_app.
Qed.

Definition idle_interface (k : flow_kind) (i : flow_interface) : Prop :=
  flow_ok k i /\ i.(handler_done) = false /\ i.(state) = STATE_NONE.

Lemma decoder_init i o mem :
  idle_interface StreamRecv i -> idle_interface PacketPass o -> 0 <= o.(mtu) ->
  Z.of_nat (length mem) = PACKETPROTO_ENCLEN (bmin_int o.(mtu) PACKETPROTO_MAXPAYLOAD) ->
  exists d, PacketProtoDecoder_Init i o (Some mem) = Some (Some d) /\ dec_inv d [] [] None /\
    d.(output_mtu) = bmin_int o.(mtu) PACKETPROTO_MAXPAYLOAD.
Proof.
  intros (Fi & Hi & Si) (Fo & Ho & So) Hm Hl. unfold PacketProtoDecoder_Init, StreamRecvInterface_Receiver_Init,
    PacketPassInterface_Sender_Init. rewrite Hi, Ho. cbn.
  set (m := bmin_int (mtu o) PACKETPROTO_MAXPAYLOAD) in *.
  assert (0 <= m <= PACKETPROTO_MAXPAYLOAD /\ m <= o.(mtu)) as [Hr Hle].
  { unfold m, bmin_int. bool_cases; unfold PACKETPROTO_MAXPAYLOAD, UINT16_MAX in *; lia. }
  unfold StreamRecvInterface_Receiver_Recv, is_state. cbn. rewrite Si.
  unfold PACKETPROTO_ENCLEN, sizeof_packetproto_header in *. flow_go.
  eexists. split; [done|]. split; [|done]. split.
  - destruct Fi as [F1 F2 F3], Fo as [G1 G2 G3]. unfold is_state in *. rewrite Si in *. rewrite So in *.
    split; cbn; try done; try lia; [split; cbn; [done|done|]; intros Hc; by destruct (F3 Hc)|].
    split; cbn; unfold is_state; cbn; [by rewrite So|by rewrite So|]. intros Hc. by destruct (G3 Hc) as (_ & [=] & _).
  - left. split; [|done]. unfold receiving. cbn. repeat split; try done; try lia. left. cbn. lia.
Qed.

Lemma incomplete_frames m u ps :
  m <= PACKETPROTO_MAXPAYLOAD -> Forall (small m) ps -> incomplete u -> u = frames ps -> ps = [].
Proof.
  intros Hm Hps Iu E. destruct Hps as [|p ps Hp Hps]; [done|exfalso].
  unfold frames in E. cbn [map concat] in E. fold (frames ps) in E. unfold frame in E. rewrite <- app_assoc in E. subst u.
  unfold incomplete in Iu. rewrite take_app_length', !length_app, le_enc_length in Iu by (by rewrite le_enc_length).
  unfold small, PACKETPROTO_MAXPAYLOAD, UINT16_MAX in *. rewrite le_dec_enc in Iu by (cbn; lia). lia.
Qed.

Lemma idle_content o u infl cur : dec_inv o u infl cur ->
  o.(output).(state) = STATE_NONE -> o.(input).(state) <> STATE_DONE_PENDING ->
  content u infl cur = u /\ incomplete u.
Proof.
  intros [B [[(So & Iu & Ed & El & Hlt & M) ->]|[(Si & Sn & _) _]]] Ho Hi; [|congruence].
  split; [|done]. unfold content. cbn. destruct (state (input o)); try done; subst infl; by rewrite app_nil_r.
Qed.

(** What the decoder makes of a stream of frames, cut into any pieces: no
    error, the packets unchanged and in order, and all of them in the end. *)
Lemma decode_frames m i o mem evs ps :
  idle_interface StreamRecv i -> idle_interface PacketPass o -> 0 <= m <= o.(mtu) -> m <= PACKETPROTO_MAXPAYLOAD -> Forall (small m) ps ->
  Z.of_nat (length mem) = PACKETPROTO_ENCLEN (bmin_int o.(mtu) PACKETPROTO_MAXPAYLOAD) ->
  exists d d' acts, PacketProtoDecoder_Init i o (Some mem) = Some (Some d) /\ run d evs = Some (d', acts) /\
    (cleared acts = false -> received acts `prefix_of` frames ps ->
     disturbed acts = false /\ delivered acts `prefix_of` ps /\
     (received acts = frames ps -> d'.(output).(state) = STATE_NONE -> d'.(input).(state) <> STATE_DONE_PENDING ->
      delivered acts = ps)).
Proof.
  intros Ii Io Hmo Hmi Hps Hm. destruct (decoder_init i o mem) as (d & Ed & V & Em); [done|done|lia|done|].
  destruct (decoder_run evs d [] [] None V) as (d' & a & u & infl & cur & Er & V' & M & D & A).
  exists d, d', a. split; [done|]. split; [done|].
  assert (output_mtu d <= PACKETPROTO_MAXPAYLOAD /\ m <= output_mtu d) as [Hx Hle].
  { rewrite Em. unfold bmin_int. bool_cases; lia. }
  assert (Forall (small (output_mtu d)) ps) as Hps'.
  { eapply Forall_impl; [exact Hps|]. unfold small. intros; lia. }
  intros Hc [z Hz]. destruct A as [A|[[-> A]|(ds & s & Hds & A & h & t & -> & Hh & Hb)]]; [congruence| |exfalso].
  - split; [done|]. cbn in A. rewrite A, <- app_assoc in Hz.
    destruct (frames_split _ _ _ _ Hx D Hps' (eq_sym Hz)) as (ps' & -> & E). split; [by exists ps'|].
    intros Er' Ho Hi. destruct (idle_content _ _ _ _ V' Ho Hi) as [Ec Iu]. rewrite A, frames_app, Ec in Er'.
    apply app_inv_head in Er'. apply Forall_app in Hps' as [_ Hps'].
    rewrite (incomplete_frames _ _ _ Hx Hps' Iu Er'). by rewrite app_nil_r.
  - cbn in A. rewrite A, <- app_assoc in Hz.
    destruct (frames_split _ _ _ _ Hx Hds Hps' (eq_sym Hz)) as (ps' & -> & E). apply Forall_app in Hps' as [_ Hps'].
    rewrite <- app_assoc in E. destruct (frames_header _ _ _ _ Hx Hps' Hh E) as (p' & ps'' & -> & Eh & _).
    apply Forall_cons in Hps' as [Hp' _]. unfold small in Hp'. lia.
Qed.

(** Packets survive the stream.  The decoder never fails an assertion,
    whatever arrives and however the calls interleave.  When what it has
    received is the beginning of an encoded sequence of packets, cut into any
    pieces, it reports no error and has delivered the first of these packets,
    unchanged and in order; when everything was received and nothing is
    pending, it has delivered them all. *)
Theorem packetproto_roundtrip e emem p i o mem evs ps :
  encoder_ready e -> Forall (small e.(enc_input).(mtu)) ps ->
  0 <= p -> p + e.(enc_output).(mtu) <= Z.of_nat (length emem) ->
  idle_interface StreamRecv i -> idle_interface PacketPass o -> e.(enc_input).(mtu) <= o.(mtu) ->
  Z.of_nat (length mem) = PACKETPROTO_ENCLEN (bmin_int o.(mtu) PACKETPROTO_MAXPAYLOAD) ->
  exists stream d d' acts, encode_stream e emem p ps = Some stream /\
    PacketProtoDecoder_Init i o (Some mem) = Some (Some d) /\ run d evs = Some (d', acts) /\
    (cleared acts = false -> received acts `prefix_of` stream ->
     disturbed acts = false /\ delivered acts `prefix_of` ps /\
     (received acts = stream -> d'.(output).(state) = STATE_NONE -> d'.(input).(state) <> STATE_DONE_PENDING ->
      delivered acts = ps)).
Proof.
  intros R Hps H0 Hl Ii Io Hmo Hm. pose proof R as (_ & _ & _ & _ & _ & Hmi & _).
  destruct (decode_frames (mtu (enc_input e)) i o mem evs ps) as (d & d' & a & Ed & Er & D); [done|done|lia|lia|done|done|].
  exists (frames ps), d, d', a. split; [by apply encode_stream_frames|]. done.
Qed.

Definition sample_encoder : PacketProtoEncoder :=
  MkEncoder (set_handlers false true (flow_new 4)) None (set_handlers false true (flow_new 6)).
Definition sample_events : list event :=
  [IJobOperation; IDone [2]; IJobDone; IJobOperation; IDone [0; 7; 8; 1; 0]; IJobDone; OJobOperation; ODone; OJobDone;
   IJobOperation; IDone [9]; IJobDone; OJobOperation; ODone; OJobDone].

(** Two packets in three pieces that do not respect their boundaries. *)
Lemma packetproto_roundtrip_witness :
  exists stream d d' acts, encode_stream sample_encoder (repeat 0 8) 1 [[7; 8]; [9]] = Some stream /\
    PacketProtoDecoder_Init (flow_new 0) (flow_new 4) (Some (repeat 0 6)) = Some (Some d) /\
    run d sample_events = Some (d', acts) /\ received acts = stream /\ delivered acts = [[7; 8]; [9]].
Proof.
  destruct (packetproto_roundtrip sample_encoder (repeat 0 8) 1 (flow_new 0) (flow_new 4) (repeat 0 6) sample_events [[7; 8]; [9]])
    as (stream & d & d' & acts & E1 & E2 & E3 & H).
  - by repeat split.
  - by repeat constructor.
  - done.
  - done.
  - by repeat split.
  - by repeat split.
  - done.
  - done.
  - exists stream, d, d', acts. split; [exact E1|]. split; [exact E2|]. split; [exact E3|].
    vm_compute in E1. injection E1 as <-. vm_compute in E2. injection E2 as <-. vm_compute in E3. injection E3 as <- <-.
    split; [reflexivity|]. apply H; [reflexivity|by exists []|reflexivity..|by vm_compute].
Defined.

End PacketProto.
