(* ===== verification/FairQueue.v ===== *)
(** * The fair queue

    Models [flow/PacketPassFairQueue.c]: several flows of packets share one
    output.  Each flow has a time, which grows with what it has sent; the queued
    flow with the smallest time is served next.

    Flows are kept by address.  The tree of queued flows is the AVL tree of
    [Avl.v] ([SAvl_impl.h] only wraps it) over the addresses, compared through
    the times the flows have at that moment, as [compare_flows] does.  Packets
    are passed on by pointer; [None] as a result is a failed [ASSERT]. *)

From Stdlib Require Import Sorting.Sorted.
From S2P Require Import Prelude.
From S2P Require Import Words.
From S2P Require Import LinkedList.
From S2P Require Import Pending.
From S2P Require Import Avl.
From S2P Require Import Reactor.
From S2P Require Import Flow.
Import Bsize Flow.

Module FairQueue.

(** ** The objects *)

Definition FAIRQUEUE_MAX_TIME : Z := 18446744073709551615.

Record PacketPassFairQueueFlow := MkQFlow {
  input : flow_interface;
  time : Z;
  is_queued : bool;
  queued_data : option Z;
  queued_data_len : Z;
  handler_busy : bool;
}.
Abbreviation flows_map := (gmap addr PacketPassFairQueueFlow).

Record PacketPassFairQueue := MkQueue {
  output : flow_interface;
  use_cancel : bool;
  packet_weight : Z;
  sending_flow : option addr;
  sending_len : Z;
  previous_flow : option addr;
  queued_tree : tree addr;
  flows_list : list addr;
  flows : flows_map;
  freeing : bool;
  schedule_job : bool;
  d_ctr : Z;
}.

Definition set_flow_input i f := MkQFlow i f.(time) f.(is_queued) f.(queued_data) f.(queued_data_len) f.(handler_busy).
Definition set_flow_time t f := MkQFlow f.(input) t f.(is_queued) f.(queued_data) f.(queued_data_len) f.(handler_busy).
Definition set_queued b f := MkQFlow f.(input) f.(time) b f.(queued_data) f.(queued_data_len) f.(handler_busy).
Definition set_packet d n f := MkQFlow f.(input) f.(time) f.(is_queued) d n f.(handler_busy).
Definition set_busy b f := MkQFlow f.(input) f.(time) f.(is_queued) f.(queued_data) f.(queued_data_len) b.

Definition set_output o m := MkQueue o m.(use_cancel) m.(packet_weight) m.(sending_flow) m.(sending_len) m.(previous_flow)
  m.(queued_tree) m.(flows_list) m.(flows) m.(freeing) m.(schedule_job) m.(d_ctr).
Definition set_sending a n m := MkQueue m.(output) m.(use_cancel) m.(packet_weight) a n m.(previous_flow)
  m.(queued_tree) m.(flows_list) m.(flows) m.(freeing) m.(schedule_job) m.(d_ctr).
Definition set_previous a m := MkQueue m.(output) m.(use_cancel) m.(packet_weight) m.(sending_flow) m.(sending_len) a
  m.(queued_tree) m.(flows_list) m.(flows) m.(freeing) m.(schedule_job) m.(d_ctr).
Definition set_tree t m := MkQueue m.(output) m.(use_cancel) m.(packet_weight) m.(sending_flow) m.(sending_len) m.(previous_flow)
  t m.(flows_list) m.(flows) m.(freeing) m.(schedule_job) m.(d_ctr).
Definition set_flows f m := MkQueue m.(output) m.(use_cancel) m.(packet_weight) m.(sending_flow) m.(sending_len) m.(previous_flow)
  m.(queued_tree) m.(flows_list) f m.(freeing) m.(schedule_job) m.(d_ctr).
Definition set_list l c m := MkQueue m.(output) m.(use_cancel) m.(packet_weight) m.(sending_flow) m.(sending_len) m.(previous_flow)
  m.(queued_tree) l m.(flows) m.(freeing) m.(schedule_job) c.
Definition set_job b m := MkQueue m.(output) m.(use_cancel) m.(packet_weight) m.(sending_flow) m.(sending_len) m.(previous_flow)
  m.(queued_tree) m.(flows_list) m.(flows) m.(freeing) b m.(d_ctr).
Definition set_freeing m := MkQueue m.(output) m.(use_cancel) m.(packet_weight) m.(sending_flow) m.(sending_len) m.(previous_flow)
  m.(queued_tree) m.(flows_list) m.(flows) true m.(schedule_job) m.(d_ctr).
Definition update_flow a f m := set_flows (<[a := f]> m.(flows)) m.

Definition time_of (fl : flows_map) (a : addr) : Z := match fl !! a with Some f => f.(time) | None => 0 end.

Definition compare_flows (fl : flows_map) (a b : addr) : Z :=
  let cmp := B_COMPARE (time_of fl a) (time_of fl b) in
  if negb (cmp =? 0) then cmp else B_COMPARE a b.

(** ** Operations *)

(** The first queued flow; the callers assert that it is queued. *)
Definition first_flow (m : PacketPassFairQueue) : option (option (addr * PacketPassFairQueueFlow)) :=
  match CAvl_GetFirst m.(queued_tree) with
  | None => Some None
  | Some a => LET f <- m.(flows) !! a in ASSERT f.(is_queued) in Some (Some (a, f))
  end.

Definition get_current_time (m : PacketPassFairQueue) : option Z :=
  match m.(sending_flow) with
  | Some a => LET f <- m.(flows) !! a in Some f.(time)
  | None =>
      LET ff <- first_flow m in
      let have := match ff with Some (_, f) => Some f.(time) | None => None end in
      LET have <- (match m.(previous_flow) with
                   | Some p =>
                       LET f <- m.(flows) !! p in
                       match have with
                       | Some t => Some (Some (if f.(time) <? t then f.(time) else t))
                       | None => Some (Some f.(time))
                       end
                   | None => Some have
                   end) in
      Some (match have with Some t => t | None => 0 end)
  end.

(** The loop that subtracts time from all flows; for the flow that has just been
    served the time may wrap. *)
Fixpoint subtract_loop (subtract : Z) (flow : addr) (l : list addr) (fl : flows_map) : option flows_map :=
  match l with
  | [] => Some fl
  | a :: l =>
      LET f <- fl !! a in
      if (f.(time) <? subtract) && negb (bool_decide (a = flow)) then
        ASSERT negb f.(is_queued) in
        subtract_loop subtract flow l (<[a := set_flow_time 0 f]> fl)
      else subtract_loop subtract flow l (<[a := set_flow_time (u64 (f.(time) - subtract)) f]> fl)
  end.

Definition increment_sent_flow (m : PacketPassFairQueue) (flow : addr) (amount : Z) : option PacketPassFairQueue :=
  ASSERT amount <=? FAIRQUEUE_MAX_TIME in
  LET f <- m.(flows) !! flow in
  ASSERT negb f.(is_queued) in
  ASSERT bool_decide (m.(sending_flow) = None) in
  LET m <- (if FAIRQUEUE_MAX_TIME - f.(time) <? amount then
              LET ff <- first_flow m in
              let subtract := match ff with None => f.(time) | Some (_, g) => g.(time) end in
              LET fl <- subtract_loop subtract flow m.(flows_list) m.(flows) in Some (set_flows fl m)
            else Some m) in
  LET f <- m.(flows) !! flow in
  Some (update_flow flow (set_flow_time (u64 (f.(time) + amount)) f) m).

(** The packet that is passed to the output is returned with its flow. *)
Inductive action := Passed (a : addr) (data : option Z) (n : Z) | Served (a : addr) (amount : Z) | Busy (a : addr).

Definition schedule (m : PacketPassFairQueue) : option (PacketPassFairQueue * list action) :=
  ASSERT bool_decide (m.(sending_flow) = None) in
  ASSERT bool_decide (m.(previous_flow) = None) in
  ASSERT negb m.(freeing) in
  LET ff <- first_flow m in
  LET (a, f) <- ff in
  LET t <- CAvl_Remove m.(queued_tree) a in
  let m := update_flow a (set_queued false f) (set_tree t m) in
  LET o <- PacketPassInterface_Sender_Send m.(output) f.(queued_data) f.(queued_data_len) in
  Some (set_sending (Some a) f.(queued_data_len) (set_output o m), [Passed a f.(queued_data) f.(queued_data_len)]).

(** The job is unset before its handler is called. *)
Definition schedule_job_handler (m : PacketPassFairQueue) : option (PacketPassFairQueue * list action) :=
  let m := set_job false m in
  ASSERT bool_decide (m.(sending_flow) = None) in
  ASSERT negb m.(freeing) in
  let m := set_previous None m in
  if negb (CAvl_IsEmpty m.(queued_tree)) then schedule m else Some (m, []).

Definition bmax_uint64 (a b : Z) : Z := if a <? b then b else a.

Definition input_handler_send (m : PacketPassFairQueue) (flow : addr) (data : option Z) (data_len : Z)
  : option (PacketPassFairQueue * list action) :=
  LET f <- m.(flows) !! flow in
  ASSERT negb (bool_decide (m.(sending_flow) = Some flow)) in
  ASSERT negb f.(is_queued) in
  ASSERT negb m.(freeing) in
  LET (m, f) <- (if bool_decide (m.(previous_flow) = Some flow) then Some (set_previous None m, f)
                 else LET t <- get_current_time m in Some (m, set_flow_time (bmax_uint64 f.(time) t) f)) in
  let m := update_flow flow (set_packet data data_len f) m in
  LET res <- CAvl_Insert (compare_flows m.(flows)) m.(queued_tree) flow in
  LET t <- res in
  let m := update_flow flow (set_queued true (set_packet data data_len f)) (set_tree t m) in
  if bool_decide (m.(sending_flow) = None) && negb m.(schedule_job) then schedule m else Some (m, []).

Definition output_handler_done (m : PacketPassFairQueue) : option (PacketPassFairQueue * list action) :=
  LET flow <- m.(sending_flow) in
  ASSERT bool_decide (m.(previous_flow) = None) in
  ASSERT negb m.(schedule_job) in
  ASSERT negb m.(freeing) in
  LET f <- m.(flows) !! flow in
  ASSERT negb f.(is_queued) in
  let m := set_previous (Some flow) (set_sending None m.(sending_len) m) in
  let amount := u64 (m.(packet_weight) + m.(sending_len)) in
  LET m <- increment_sent_flow m flow amount in
  let m := set_job true m in
  LET f <- m.(flows) !! flow in
  LET i <- PacketPassInterface_Done f.(input) in
  let m := update_flow flow (set_busy false (set_flow_input i f)) m in
  Some (m, Served flow amount :: (if f.(handler_busy) then [Busy flow] else [])).

(** [None] inside is the return value 0. *)
Definition PacketPassFairQueue_Init (o : flow_interface) (use_cancel : bool) (packet_weight : Z) : option (option PacketPassFairQueue) :=
  ASSERT 0 <? packet_weight in
  ASSERT negb use_cancel || o.(handler_requestcancel) in
  if negb ((u64 o.(mtu) <=? FAIRQUEUE_MAX_TIME) && (u64 packet_weight <=? FAIRQUEUE_MAX_TIME - u64 o.(mtu))) then Some None
  else
    LET o <- PacketPassInterface_Sender_Init o in
    Some (Some (MkQueue o use_cancel packet_weight None 0 None Leaf [] ∅ false false 0)).

Definition PacketPassFairQueue_Free (m : PacketPassFairQueue) : option unit :=
  ASSERT bool_decide (m.(flows_list) = []) in
  ASSERT CAvl_IsEmpty m.(queued_tree) in
  ASSERT bool_decide (m.(previous_flow) = None) in
  ASSERT bool_decide (m.(sending_flow) = None) in
  ASSERT Pending.DebugCounter_Free m.(d_ctr) in
  Some tt.

Definition PacketPassFairQueue_PrepareFree (m : PacketPassFairQueue) : PacketPassFairQueue := set_freeing m.

(** [x] is what the object holds before. *)
Definition PacketPassFairQueueFlow_Init (m : PacketPassFairQueue) (a : addr) (x : PacketPassFairQueueFlow) : option PacketPassFairQueue :=
  ASSERT negb m.(freeing) in
  LET i <- PacketPassInterface_Init m.(output).(mtu) in
  LET c <- Pending.DebugCounter_Increment m.(d_ctr) in
  Some (update_flow a (MkQFlow i 0 false x.(queued_data) x.(queued_data_len) false) (set_list (m.(flows_list) ++ [a]) c m)).

Definition PacketPassFairQueueFlow_Free (m : PacketPassFairQueue) (a : addr) : option PacketPassFairQueue :=
  LET f <- m.(flows) !! a in
  ASSERT m.(freeing) || negb (bool_decide (m.(sending_flow) = Some a)) in
  LET c <- Pending.DebugCounter_Decrement m.(d_ctr) in
  let m := if bool_decide (m.(sending_flow) = Some a) then set_sending None m.(sending_len) m else m in
  let m := if bool_decide (m.(previous_flow) = Some a) then set_previous None m else m in
  LET m <- (if f.(is_queued) then LET t <- CAvl_Remove m.(queued_tree) a in Some (set_tree t m) else Some m) in
  LET l <- Reactor.unlink a m.(flows_list) in
  Some (set_flows (delete a m.(flows)) (set_list l c m)).

Definition PacketPassFairQueueFlow_IsBusy (m : PacketPassFairQueue) (a : addr) : option bool :=
  ASSERT negb m.(freeing) in Some (bool_decide (m.(sending_flow) = Some a)).

Definition PacketPassFairQueueFlow_RequestCancel (m : PacketPassFairQueue) (a : addr) : option PacketPassFairQueue :=
  ASSERT bool_decide (m.(sending_flow) = Some a) in
  ASSERT m.(use_cancel) in
  ASSERT negb m.(freeing) in
  ASSERT negb m.(schedule_job) in
  LET o <- PacketPassInterface_Sender_RequestCancel m.(output) in Some (set_output o m).

Definition PacketPassFairQueueFlow_SetBusyHandler (m : PacketPassFairQueue) (a : addr) (handler : bool) : option PacketPassFairQueue :=
  LET f <- m.(flows) !! a in
  ASSERT bool_decide (m.(sending_flow) = Some a) in
  ASSERT negb m.(freeing) in
  Some (update_flow a (set_busy handler f) m).

(** ** Runs

    The users of the flows start operations ([QSend]), the provider of the
    output finishes them ([QDone]), jobs run when they are set.  When the
    owner has called [PrepareFree] it only frees. *)
Inductive event :=
  | QFlowInit (a : addr) (x : PacketPassFairQueueFlow) | QFlowFree (a : addr) | QSenderInit (a : addr)
  | QSend (a : addr) (data : option Z) (n : Z) | QInputJob (a : addr) | QInputDone (a : addr)
  | QScheduleJob | QOutputJob | QCancelJob | QDone | QOutputDone
  | QRequestCancel (a : addr) | QSetBusy (a : addr) (handler : bool) | QPrepareFree.

Definition flow_has (m : PacketPassFairQueue) (a : addr) (p : PacketPassFairQueueFlow -> bool) : bool :=
  match m.(flows) !! a with Some f => p f | None => false end.

Definition legal (m : PacketPassFairQueue) (ev : event) : bool :=
  match ev with
  | QFlowFree a => flow_has m a (fun _ => m.(freeing) || negb (bool_decide (m.(sending_flow) = Some a)))
  | QPrepareFree => true
  | ev =>
      negb m.(freeing) &&
      match ev with
      | QFlowInit a _ => bool_decide (m.(flows) !! a = None)
      | QSenderInit a => flow_has m a (fun f => negb f.(input).(handler_done))
      | QSend a d n => flow_has m a (fun f => is_state STATE_NONE f.(input) && f.(input).(handler_done) &&
          (0 <=? n) && (n <=? f.(input).(mtu)) && (negb (0 <? n) || negb (bool_decide (d = None))))
      | QInputJob a => flow_has m a (fun f => f.(input).(job_operation))
      | QInputDone a => flow_has m a (fun f => f.(input).(job_done))
      | QScheduleJob => m.(schedule_job)
      | QOutputJob => m.(output).(job_operation)
      | QCancelJob => m.(output).(job_requestcancel)
      | QDone => is_state STATE_BUSY m.(output)
      | QOutputDone => m.(output).(job_done)
      | QRequestCancel a => bool_decide (m.(sending_flow) = Some a) && m.(use_cancel)
      | QSetBusy a _ => bool_decide (m.(sending_flow) = Some a)
      | _ => true
      end
  end.

Definition quiet (r : option PacketPassFairQueue) : option (PacketPassFairQueue * list action) :=
  LET m <- r in Some (m, []).
Definition on_input (m : PacketPassFairQueue) (a : addr) (g : flow_interface -> option flow_interface) : option PacketPassFairQueue :=
  LET f <- m.(flows) !! a in LET i <- g f.(input) in Some (update_flow a (set_flow_input i f) m).

Definition step (m : PacketPassFairQueue) (ev : event) : option (PacketPassFairQueue * list action) :=
  match ev with
  | QFlowInit a x => quiet (PacketPassFairQueueFlow_Init m a x)
  | QFlowFree a => quiet (PacketPassFairQueueFlow_Free m a)
  | QSenderInit a => quiet (on_input m a PacketPassInterface_Sender_Init)
  | QSend a d n => quiet (on_input m a (fun i => PacketPassInterface_Sender_Send i d n))
  | QInputJob a =>
      LET f <- m.(flows) !! a in
      LET (i, (d, n)) <- _PacketPassInterface_job_operation f.(input) in
      input_handler_send (update_flow a (set_flow_input i f) m) a d n
  | QInputDone a => quiet (on_input m a _PacketPassInterface_job_done)
  | QScheduleJob => schedule_job_handler m
  | QOutputJob => LET (o, _) <- _PacketPassInterface_job_operation m.(output) in Some (set_output o m, [])
  | QCancelJob => LET o <- _PacketPassInterface_job_requestcancel m.(output) in Some (set_output o m, [])
  | QDone => LET o <- PacketPassInterface_Done m.(output) in Some (set_output o m, [])
  | QOutputDone => LET o <- _PacketPassInterface_job_done m.(output) in output_handler_done (set_output o m)
  | QRequestCancel a => quiet (PacketPassFairQueueFlow_RequestCancel m a)
  | QSetBusy a h => quiet (PacketPassFairQueueFlow_SetBusyHandler m a h)
  | QPrepareFree => Some (PacketPassFairQueue_PrepareFree m, [])
  end.

Fixpoint run (m : PacketPassFairQueue) (evs : list event) : option (PacketPassFairQueue * list action) :=
  match evs with
  | [] => Some (m, [])
  | ev :: evs =>
      if legal m ev then
        LET (m, a) <- step m ev in
        LET (m, a') <- run m evs in Some (m, a ++ a')
      else run m evs
  end.

(** ** Order of the flows *)

Lemma compare_flows_timers fl a b : compare_flows fl a b = Reactor.compare_timers (time_of fl a, a) (time_of fl b, b).
Proof. done. Qed.

#[export] Instance compare_flows_order fl : EntryOrder (compare_flows fl).
Proof.
  split; intros a b; rewrite ?compare_flows_timers.
  - apply Reactor.compare_timers_order.
  - apply Reactor.compare_timers_order.
  - rewrite (@cmp_eq _ _ Reactor.compare_timers_order). split; [by intros [= _ ->]|by intros ->].
  - intros c. rewrite !compare_flows_timers. apply Reactor.compare_timers_order.
Qed.

Lemma below_times fl a b : below (compare_flows fl) a b -> time_of fl a <= time_of fl b.
Proof.
  unfold below. rewrite compare_flows_timers, Reactor.compare_timers_spec. destruct (Z.compare_spec (time_of fl a) (time_of fl b)); lia.
Qed.

(** The order depends on the times of the flows in the tree only, and is kept
    when these change by the same amount. *)
Lemma holds_shift fl fl' d tr l : (forall a, a ∈ l -> time_of fl' a = time_of fl a - d) ->
  holds (compare_flows fl) tr l -> holds (compare_flows fl') tr l.
Proof.
  intros Ht (B & El & S). split; [done|]. split; [done|]. clear El B. unfold sorted in *. induction S as [|a l S IH HF]; constructor.
  - apply IH. intros b Hb. apply Ht. by right.
  - rewrite Forall_forall in *. intros b Hb. specialize (HF b Hb). unfold below in *. rewrite compare_flows_timers, Reactor.compare_timers_spec in *.
    rewrite (Ht a), (Ht b) by (rewrite elem_of_cons; tauto). replace (time_of fl a - d ?= time_of fl b - d) with (time_of fl a ?= time_of fl b); [done|].
    destruct (Z.compare_spec (time_of fl a) (time_of fl b)), (Z.compare_spec (time_of fl a - d) (time_of fl b - d)); done || (exfalso; lia).
Qed.

Lemma time_of_insert fl a f b : time_of (<[a := f]> fl) b = if bool_decide (a = b) then f.(time) else time_of fl b.
Proof. unfold time_of. case_bool_decide; [subst; by rewrite lookup_insert_eq|by rewrite lookup_insert_ne]. Qed.

Lemma holds_update fl a f tr l : (a ∈ l -> f.(time) = time_of fl a) ->
  holds (compare_flows fl) tr l -> holds (compare_flows (<[a := f]> fl)) tr l.
Proof.
  intros Ha. apply (holds_shift _ _ 0). intros b Hb. rewrite time_of_insert. case_bool_decide; [subst; rewrite Ha by done|]; lia.
Qed.

(** ** Invariant *)

Record flow_good (mt : Z) (f : PacketPassFairQueueFlow) : Prop := {
  g_time : 0 <= f.(time) <= FAIRQUEUE_MAX_TIME;
  g_flow : flow_ok PacketPass f.(input);
  g_mtu : f.(input).(mtu) = mt;
  g_cancel : f.(input).(handler_requestcancel) = false;
  g_args : f.(input).(state) = STATE_OPERATION_PENDING \/ f.(input).(state) = STATE_BUSY ->
    packet_ok mt f.(input).(job_operation_data) f.(input).(job_operation_len);
  g_queued : f.(is_queued) = true -> f.(input).(state) = STATE_BUSY /\
    f.(queued_data) = f.(input).(job_operation_data) /\ f.(queued_data_len) = f.(input).(job_operation_len);
}.

(** The flow [f] at [a] is being sent: the output has its packet, and no queued
    flow has a smaller time. *)
Record sending_ok (m : PacketPassFairQueue) (f : PacketPassFairQueueFlow) : Prop := {
  s_queued : f.(is_queued) = false;
  s_busy : f.(input).(state) = STATE_BUSY;
  s_first b g : m.(flows) !! b = Some g -> g.(is_queued) = true -> f.(time) <= g.(time);
  s_previous : m.(previous_flow) = None;
  s_job : m.(schedule_job) = false;
  s_len : m.(sending_len) = f.(input).(job_operation_len);
  s_output : m.(output).(job_operation_data) = f.(input).(job_operation_data) /\
    m.(output).(job_operation_len) = f.(input).(job_operation_len);
}.

Record core (m : PacketPassFairQueue) : Prop := {
  c_nodup : NoDup m.(flows_list);
  c_list a : a ∈ m.(flows_list) <-> is_Some (m.(flows) !! a);
  c_ctr : Reactor.counts m.(d_ctr) (size m.(flows)) /\ 0 <= m.(d_ctr) <= Pending.INT32_MAX;
  c_tree : holds (compare_flows m.(flows)) m.(queued_tree) (elems m.(queued_tree));
  c_queued a : a ∈ elems m.(queued_tree) <-> exists f, m.(flows) !! a = Some f /\ f.(is_queued) = true;
  c_flow a f : m.(flows) !! a = Some f -> flow_good m.(output).(mtu) f;
  c_busy a f : m.(flows) !! a = Some f -> f.(input).(state) = STATE_BUSY -> f.(is_queued) = true \/ m.(sending_flow) = Some a;
  c_sending a : m.(sending_flow) = Some a -> exists f, m.(flows) !! a = Some f /\ sending_ok m f;
  c_previous a : m.(previous_flow) = Some a -> m.(schedule_job) = true /\ exists f, m.(flows) !! a = Some f /\ f.(is_queued) = false;
  c_job : m.(schedule_job) = true -> m.(sending_flow) = None;
  c_output : flow_ok PacketPass m.(output) /\ m.(output).(handler_done) = true;
  c_idle : m.(freeing) = false -> m.(sending_flow) = None <-> m.(output).(state) = STATE_NONE;
  c_weight : 0 < m.(packet_weight) /\ 0 <= m.(output).(mtu) /\ m.(packet_weight) + m.(output).(mtu) <= FAIRQUEUE_MAX_TIME;
  c_cancel : m.(use_cancel) = true -> m.(output).(handler_requestcancel) = true;
}.

(** Something is queued only while something is sent or about to be. *)
Definition work (m : PacketPassFairQueue) : Prop :=
  m.(freeing) = false -> m.(sending_flow) = None -> elems m.(queued_tree) <> [] -> m.(schedule_job) = true.

(** Replacing a flow by one with the same time and place in the queue. *)
Lemma core_update m a f f' : core m -> m.(flows) !! a = Some f -> f'.(time) = f.(time) -> f'.(is_queued) = f.(is_queued) ->
  flow_good m.(output).(mtu) f' -> (f'.(input).(state) = STATE_BUSY <-> f.(input).(state) = STATE_BUSY) ->
  (f.(input).(state) = STATE_BUSY -> f'.(input).(job_operation_data) = f.(input).(job_operation_data) /\
    f'.(input).(job_operation_len) = f.(input).(job_operation_len)) ->
  core (update_flow a f' m).
Proof.
  intros [Cn Cl Cc Ct Cq Cf Cb Cs Cp Cj Co Ci Cw Cx] Ha Et Eq G Hb Ho. split; cbn; try done.
  - intros b. rewrite Cl. destruct (decide (a = b)) as [<-|]; [rewrite lookup_insert_eq, Ha; by split|by rewrite lookup_insert_ne].
  - rewrite map_size_insert_Some; [done|by rewrite Ha].
  - apply holds_update; [|done]. intros _. unfold time_of. by rewrite Ha.
  - intros b. rewrite Cq. destruct (decide (a = b)) as [<-|]; [rewrite lookup_insert_eq, Ha; naive_solver congruence|by rewrite lookup_insert_ne].
  - intros b g. destruct (decide (a = b)) as [<-|]; [rewrite lookup_insert_eq; by intros [= <-]|rewrite lookup_insert_ne by done; apply Cf].
  - intros b g. destruct (decide (a = b)) as [<-|]; [rewrite lookup_insert_eq; intros [= <-] Hg; rewrite Eq; apply (Cb a f Ha); by apply Hb|].
    rewrite lookup_insert_ne by done. apply Cb.
  - intros b Hs. destruct (Cs b Hs) as (g & Hg & [S1 S2 S3 S4 S5 S6 S7]).
    assert (forall c h, <[a := f']> (flows m) !! c = Some h -> is_queued h = true -> time g <= time h) as Hmin.
    { intros c h. destruct (decide (a = c)) as [<-|]; [rewrite lookup_insert_eq; intros [= <-]; rewrite Eq, Et; intros; by eapply S3|].
      rewrite lookup_insert_ne by done. apply S3. }
    destruct (decide (a = b)) as [<-|]; [|rewrite lookup_insert_ne by done; by exists g].
    rewrite lookup_insert_eq. exists f'. split; [done|]. assert (g = f) as -> by congruence. destruct (Ho S2) as [Ho1 Ho2].
    destruct S7. split; cbn; try congruence; [by apply Hb|intros c h Hc Hq; rewrite Et; by eapply Hmin|split; congruence].
  - intros b Hp. destruct (Cp b Hp) as (? & g & Hg & Hq). split; [done|].
    destruct (decide (a = b)) as [<-|]; [rewrite lookup_insert_eq; exists f'; split; [done|congruence]|rewrite lookup_insert_ne by done; eauto].
Qed.

Lemma core_set_output m o : core m -> flow_ok PacketPass o -> o.(handler_done) = true -> o.(mtu) = m.(output).(mtu) ->
  o.(handler_requestcancel) = m.(output).(handler_requestcancel) -> (o.(state) = STATE_NONE <-> m.(output).(state) = STATE_NONE) ->
  o.(job_operation_data) = m.(output).(job_operation_data) -> o.(job_operation_len) = m.(output).(job_operation_len) ->
  core (set_output o m).
Proof.
  intros [Cn Cl Cc Ct Cq Cf Cb Cs Cp Cj Co Ci Cw Cx] Fo Hd Hm Hc Hs Hod Hol. split; cbn; try done; try congruence.
  - intros b g Hg. rewrite Hm. by eapply Cf.
  - intros b Hb. destruct (Cs b Hb) as (g & Hg & [S1 S2 S3 S4 S5 S6 S7]). exists g. split; [done|]. split; cbn; try done. destruct S7. split; congruence.
  - intros Hf. rewrite Hs. by apply Ci.
  - rewrite Hc. done.
Qed.

(** ** The queue *)

Lemma tree_take fl tr a : holds (compare_flows fl) tr (elems tr) -> a ∈ elems tr ->
  exists tr', CAvl_Remove tr a = Some tr' /\ holds (compare_flows fl) tr' (elems tr') /\ (forall b, b ∈ elems tr' <-> b <> a /\ b ∈ elems tr).
Proof.
  intros H Ha. destruct (remove_holds (compare_flows fl) tr _ a H Ha) as (tr' & l1 & l2 & E & El & H'). pose proof H' as (_ & El' & _).
  exists tr'. split; [done|]. rewrite El'. split; [done|]. intros b. rewrite El. destruct H as (_ & _ & S). rewrite El in S.
  apply (sorted_app (compare_flows fl)) in S as (_ & [_ S2]%(sorted_cons (compare_flows fl)) & S1). rewrite !elem_of_app, elem_of_cons.
  split; [|naive_solver]. intros Hb. split; [|tauto]. intros ->. destruct Hb as [Hb|Hb].
  - eapply (below_irrefl (compare_flows fl)), S1; [done|by left].
  - by eapply (below_irrefl (compare_flows fl)), S2.
Qed.

Lemma first_flow_ok m : core m ->
  first_flow m = Some None /\ elems m.(queued_tree) = [] \/
  exists a f, first_flow m = Some (Some (a, f)) /\ m.(flows) !! a = Some f /\ f.(is_queued) = true /\ a ∈ elems m.(queued_tree) /\
    (forall b g, m.(flows) !! b = Some g -> g.(is_queued) = true -> f.(time) <= g.(time)).
Proof.
  intros C. unfold first_flow, CAvl_GetFirst. rewrite subtree_min_head. pose proof (c_tree _ C) as (_ & _ & S).
  destruct (elems (queued_tree m)) as [|a l] eqn:El; [by left|right]. cbn [head].
  destruct (proj1 (c_queued _ C a)) as (f & Hf & Hq); [rewrite El; by left|]. exists a, f. rewrite Hf, Hq. split; [done|]. split; [done|]. split; [done|]. split; [by left|].
  intros b g Hg Hgq. assert (b ∈ elems (queued_tree m)) as Hb by (apply (c_queued _ C); eauto). rewrite El in Hb.
  apply elem_of_cons in Hb as [->|Hb]; [assert (g = f) as -> by congruence; lia|].
  apply (sorted_cons (compare_flows m.(flows))) in S as [_ S]. specialize (S b Hb). apply below_times in S. unfold time_of in S. by rewrite Hf, Hg in S.
Qed.

(** The times of the flows, apart from one. *)
Definition same_times (m m' : PacketPassFairQueue) : Prop := forall a, time_of m'.(flows) a = time_of m.(flows) a.

Definition passes (acts : list action) : Prop := Forall (fun x => match x with Passed _ _ _ => True | _ => False end) acts.

Lemma schedule_ok m : core m -> m.(sending_flow) = None -> m.(previous_flow) = None -> m.(freeing) = false ->
  m.(schedule_job) = false -> elems m.(queued_tree) <> [] ->
  exists m' acts, schedule m = Some (m', acts) /\ core m' /\ work m' /\ same_times m m' /\ passes acts /\
    m'.(flows_list) = m.(flows_list) /\ m'.(freeing) = false /\ m'.(packet_weight) = m.(packet_weight) /\ m'.(output).(mtu) = m.(output).(mtu).
Proof.
  intros C Hs Hp Hf Hj Hne. unfold schedule. rewrite Hs, Hp, Hf, !bool_decide_eq_true_2 by done. cbn [negb].
  destruct (first_flow_ok m C) as [[_ ?]|(a & f & -> & Ha & Hq & Hin & Hmin)]; [done|].
  destruct (tree_take _ _ a (c_tree _ C) Hin) as (tr' & -> & Ht & Hm).
  pose proof (c_flow _ C a f Ha) as [G1 G2 G3 G4 G5 G6]. destruct (G6 Hq) as (Gb & Gd & Gl).
  destruct (c_output _ C) as [Fo Ho]. pose proof (c_idle _ C Hf) as [Hi _].
  destruct (send_start m.(output) f.(queued_data) f.(queued_data_len)) as (o' & E & Fo' & So' & Mo' & Ho' & Co' & Do' & Lo'); [done|by apply Hi|done| |].
  { rewrite Gd, Gl. apply G5. by right. }
  cbn [output update_flow set_flows set_tree]. rewrite E. eexists _, _. split; [done|].
  destruct C as [Cn Cl Cc Ct Cq Cf Cb Cs Cp Cj Co Ci Cw Cx]. split; [split|]; cbn; try done.
  - intros b. rewrite Cl. destruct (decide (a = b)) as [<-|]; [rewrite lookup_insert_eq, Ha; by split|by rewrite lookup_insert_ne].
  - rewrite map_size_insert_Some; [done|by rewrite Ha].
  - apply holds_update; [|done]. intros _. unfold time_of. by rewrite Ha.
  - intros b. rewrite Hm, Cq. destruct (decide (a = b)) as [<-|]; [rewrite lookup_insert_eq|rewrite lookup_insert_ne by done]; naive_solver.
  - intros b g. rewrite Mo'. destruct (decide (a = b)) as [<-|]; [rewrite lookup_insert_eq; intros [= <-]|rewrite lookup_insert_ne by done; apply Cf]. by split.
  - intros b g. destruct (decide (a = b)) as [<-|]; [rewrite lookup_insert_eq; by right|rewrite lookup_insert_ne by done].
    intros Hg Hb. destruct (Cb b g Hg Hb); [by left|congruence].
  - intros b [= <-]. rewrite lookup_insert_eq. eexists. split; [done|]. split; cbn; try done; try congruence.
    + intros b g. destruct (decide (a = b)) as [<-|]; [rewrite lookup_insert_eq; by intros [= <-]|rewrite lookup_insert_ne by done; apply Hmin].
    + split; congruence.
  - congruence.
  - congruence.
  - intros _. rewrite So'. by split.
  - by rewrite Mo'.
  - by rewrite Co'.
  - split; [done|]. split; [|split; [by repeat constructor|done]]. intros b. cbn. rewrite time_of_insert. case_bool_decide; [|done]. subst. cbn. unfold time_of. by rewrite Ha.
Qed.

Lemma core_job_previous m b p : core m -> (b = true -> m.(sending_flow) = None) -> (m.(sending_flow) <> None -> p = None) ->
  (forall a, p = Some a -> b = true /\ m.(previous_flow) = Some a) -> core (set_previous p (set_job b m)).
Proof.
  intros [Cn Cl Cc Ct Cq Cf Cb Cs Cp Cj Co Ci Cw Cx] Hb Hs Hp. split; cbn; try done.
  - intros a Ha. destruct (Cs a Ha) as (f & Hf & [S1 S2 S3 S4 S5 S6 S7]). exists f. split; [done|]. split; cbn; try done; [apply Hs; congruence|].
    destruct b; [|done]. rewrite Hb in Ha; done.
  - intros a Ha. destruct (Hp a Ha) as [-> Hp']. split; [done|]. by destruct (Cp a Hp').
Qed.

Lemma schedule_job_ok m : core m -> work m -> m.(schedule_job) = true -> m.(freeing) = false ->
  exists m' acts, schedule_job_handler m = Some (m', acts) /\ core m' /\ work m' /\ same_times m m' /\ passes acts /\
    m'.(flows_list) = m.(flows_list) /\ m'.(freeing) = false /\ m'.(packet_weight) = m.(packet_weight) /\ m'.(output).(mtu) = m.(output).(mtu).
Proof.
  intros C W Hj Hf. pose proof (c_job _ C Hj) as Hs. unfold schedule_job_handler. cbn [sending_flow set_job freeing].
  rewrite Hs, Hf, bool_decide_eq_true_2 by done. cbn [negb].
  assert (core (set_previous None (set_job false m))) as C' by (by apply core_job_previous).
  destruct (CAvl_IsEmpty (queued_tree (set_previous None (set_job false m)))) eqn:Ee; cbn [negb].
  - eexists _, _. split; [done|]. split; [done|]. split; [|split; [done|]; split; [constructor|done]]. intros _ _ H. destruct H. cbn in *. by destruct (queued_tree m).
  - apply (schedule_ok _ C'); try done. cbn in *. destruct (queued_tree m); [done|]. cbn. intros H. by apply app_eq_nil in H as [_ [=]].
Qed.

(** ** A packet is queued *)

Lemma get_current_time_update m a f f' : m.(flows) !! a = Some f -> f'.(time) = f.(time) -> a ∉ elems m.(queued_tree) ->
  get_current_time (update_flow a f' m) = get_current_time m.
Proof.
  intros Ha Et Nq. assert (first_flow (update_flow a f' m) = first_flow m) as Ef.
  { unfold first_flow. cbn [queued_tree update_flow set_flows flows]. destruct (CAvl_GetFirst (queued_tree m)) as [b|] eqn:Eg; [|done]. rewrite lookup_insert_ne; [done|].
    intros ->. apply Nq. unfold CAvl_GetFirst in Eg. rewrite subtree_min_head in Eg. destruct (elems (queued_tree m)); [done|]. injection Eg as ->. by left. }
  unfold get_current_time. cbn [sending_flow previous_flow flows update_flow set_flows] in *. rewrite Ef.
  assert (forall b (k : PacketPassFairQueueFlow -> option Z), (forall g g', time g = time g' -> k g = k g') ->
    (LET g <- <[a := f']> (flows m) !! b in k g) = (LET g <- flows m !! b in k g)) as Lk.
  { intros b k Hk. destruct (decide (a = b)) as [<-|]; [rewrite lookup_insert_eq, Ha; by apply Hk|by rewrite lookup_insert_ne]. }
  destruct (sending_flow m) as [s|]; [apply Lk; by intros g g' ->|]. destruct (first_flow m) as [ff|]; [|done].
  destruct (previous_flow m) as [p|]; [|done].
  destruct (decide (a = p)) as [<-|]; [rewrite lookup_insert_eq, Ha, Et; done|by rewrite lookup_insert_ne].
Qed.

Lemma get_current_time_ok m : core m ->
  exists t, get_current_time m = Some t /\ 0 <= t <= FAIRQUEUE_MAX_TIME /\
    (forall s f, m.(sending_flow) = Some s -> m.(flows) !! s = Some f -> t = f.(time)).
Proof.
  intros C. unfold get_current_time. destruct (sending_flow m) as [s|] eqn:Hs.
  { destruct (c_sending _ C s Hs) as (f & Hf & _). rewrite Hf. eexists. split; [done|]. pose proof (g_time _ _ (c_flow _ C s f Hf)). split; [done|].
    intros s' f' [= <-] Hf'. congruence. }
  assert (exists have, (LET ff <- first_flow m in Some (match ff with Some (_, f) => Some f.(time) | None => None end)) = Some have /\
    match have with Some t => 0 <= t <= FAIRQUEUE_MAX_TIME | None => True end) as (have & Eh & Hh).
  { destruct (first_flow_ok m C) as [[-> _]|(a & f & -> & Ha & _)]; [by eexists|]. eexists. split; [done|]. exact (g_time _ _ (c_flow _ C a f Ha)). }
  destruct (first_flow m) as [ff|]; [|done]. injection Eh as ->.
  destruct (previous_flow m) as [p|] eqn:Hp.
  - destruct (c_previous _ C p Hp) as (_ & f & Hf & _). rewrite Hf. pose proof (g_time _ _ (c_flow _ C p f Hf)).
    destruct have; (eexists; split; [done|]; split; [|done]); [destruct (_ <? _)|]; done.
  - eexists. split; [done|]. split; [|done]. unfold FAIRQUEUE_MAX_TIME in *. destruct have; [done|lia].
Qed.

(** The flow [a], which is idle, becomes [f'] and joins the queue. *)
Lemma core_enqueue m a f f' tr' p : core m -> m.(flows) !! a = Some f -> f.(is_queued) = false -> m.(sending_flow) <> Some a ->
  f'.(is_queued) = true -> flow_good m.(output).(mtu) f' ->
  (forall s g, m.(sending_flow) = Some s -> m.(flows) !! s = Some g -> g.(time) <= f'.(time)) ->
  holds (compare_flows (<[a := f']> m.(flows))) tr' (elems tr') -> (forall b, b ∈ elems tr' <-> b = a \/ b ∈ elems m.(queued_tree)) ->
  (p = m.(previous_flow) /\ m.(previous_flow) <> Some a \/ p = None) ->
  core (update_flow a f' (set_tree tr' (set_previous p m))).
Proof.
  intros C Ha Nq Ns Eq G Hs Ht Hm Hp. pose proof C as [Cn Cl Cc Ct Cq Cf Cb Cs Cp Cj Co Ci Cw Cx]. split; cbn; try done.
  - intros b. rewrite Cl. destruct (decide (a = b)) as [<-|]; [rewrite lookup_insert_eq, Ha; by split|by rewrite lookup_insert_ne].
  - rewrite map_size_insert_Some; [done|by rewrite Ha].
  - intros b. rewrite Hm, Cq. destruct (decide (a = b)) as [<-|]; [rewrite lookup_insert_eq|rewrite lookup_insert_ne by done]; naive_solver.
  - intros b g. destruct (decide (a = b)) as [<-|]; [rewrite lookup_insert_eq; by intros [= <-]|rewrite lookup_insert_ne by done; apply Cf].
  - intros b g. destruct (decide (a = b)) as [<-|]; [rewrite lookup_insert_eq; intros [= <-]; by left|rewrite lookup_insert_ne by done; apply Cb].
  - intros s Es. destruct (Cs s Es) as (g & Hg & [S1 S2 S3 S4 S5 S6 S7]). rewrite lookup_insert_ne by congruence. exists g. split; [done|].
    split; cbn; try done.
    + intros b h. destruct (decide (a = b)) as [<-|]; [rewrite lookup_insert_eq; intros [= <-] _; by eapply Hs|rewrite lookup_insert_ne by done; apply S3].
    + destruct Hp as [[-> _]| ->]; done.
  - intros b Hb. destruct Hp as [[-> Hne]| ->]; [|done]. rewrite lookup_insert_ne by congruence. by apply Cp.
Qed.

Definition backlogged (m : PacketPassFairQueue) (a : addr) : bool :=
  flow_has m a is_queued || bool_decide (m.(sending_flow) = Some a) || bool_decide (m.(previous_flow) = Some a).

(** The outcome of every step but the one that ends a transmission. *)
Record calm (m m' : PacketPassFairQueue) (acts : list action) : Prop := {
  k_core : core m';
  k_work : work m';
  k_weight : m'.(packet_weight) = m.(packet_weight);
  k_mtu : m'.(output).(mtu) = m.(output).(mtu);
  k_passes : passes acts;
  k_times a : backlogged m a = true -> backlogged m' a = true -> time_of m'.(flows) a = time_of m.(flows) a;
}.

Lemma idle_not_backlogged m a f : core m -> m.(flows) !! a = Some f -> f.(input).(state) <> STATE_BUSY ->
  f.(is_queued) = false /\ m.(sending_flow) <> Some a /\ a ∉ elems m.(queued_tree).
Proof.
  intros C Ha Hb. pose proof (c_flow _ C a f Ha) as [_ _ _ _ _ Gq]. assert (is_queued f = false) as Nq.
  { destruct (is_queued f) eqn:Eq; [|done]. destruct (Gq eq_refl) as [? _]. congruence. }
  split; [done|]. split.
  - intros Hs. destruct (c_sending _ C a Hs) as (g & Hg & [_ S2 _ _ _ _ _]). congruence.
  - intros (g & Hg & Hq)%(c_queued _ C). congruence.
Qed.

(** Inserting a flow that is not in the tree. *)
Lemma tree_put fl tr a : holds (compare_flows fl) tr (elems tr) -> a ∉ elems tr ->
  exists tr', CAvl_Insert (compare_flows fl) tr a = Some (Some tr') /\ holds (compare_flows fl) tr' (elems tr') /\
    (forall b, b ∈ elems tr' <-> b = a \/ b ∈ elems tr).
Proof.
  intros H Ha. destruct (insert_holds (compare_flows fl) tr _ a H) as ([tr'|] & E & Hr); [|done].
  destruct Hr as (l1 & l2 & El & H'). pose proof H' as (_ & El' & _). exists tr'. split; [done|]. rewrite El'. split; [done|].
  intros b. rewrite El, !elem_of_app, elem_of_cons. tauto.
Qed.

Lemma input_handler_send_ok m a f : core m -> work m -> m.(freeing) = false -> m.(flows) !! a = Some f ->
  f.(input).(state) = STATE_OPERATION_PENDING ->
  exists m' acts, input_handler_send (update_flow a (set_flow_input (run_operation f.(input)) f) m) a
      f.(input).(job_operation_data) f.(input).(job_operation_len) = Some (m', acts) /\ calm m m' acts.
Proof.
  intros C W Hfr Ha Hst. destruct (idle_not_backlogged m a f C Ha) as (Nq & Ns & Nt); [congruence|].
  pose proof (c_flow _ C a f Ha) as [G1 G2 G3 G4 G5 G6]. set (i := run_operation (input f)). set (d := job_operation_data (input f)). set (n := job_operation_len (input f)).
  unfold input_handler_send. cbn [flows update_flow set_flows sending_flow freeing previous_flow]. rewrite lookup_insert_eq, Hfr, (bool_decide_eq_false_2 _ Ns).
  cbn [is_queued set_flow_input]. rewrite Nq. cbn [negb].
  assert (exists t p, (if bool_decide (m.(previous_flow) = Some a)
      then Some (set_previous None (update_flow a (set_flow_input i f) m), set_flow_input i f)
      else LET t <- get_current_time (update_flow a (set_flow_input i f) m) in
           Some (update_flow a (set_flow_input i f) m, set_flow_time (bmax_uint64 (time (set_flow_input i f)) t) (set_flow_input i f))) =
    Some (update_flow a (set_flow_input i f) (set_previous p m), set_flow_time t (set_flow_input i f)) /\
    0 <= t <= FAIRQUEUE_MAX_TIME /\ (forall s g, m.(sending_flow) = Some s -> m.(flows) !! s = Some g -> g.(time) <= t) /\
    (m.(previous_flow) = Some a -> t = f.(time)) /\ (p = m.(previous_flow) /\ m.(previous_flow) <> Some a \/ p = None)) as (t & p & -> & Ht & Hts & Htp & Hp).
  { case_bool_decide as Hpa.
    - exists f.(time), None. split; [done|]. split; [done|]. split; [|by auto]. intros s g Hs. destruct (c_previous _ C a Hpa) as [Hj _].
      rewrite (c_job _ C Hj) in Hs. done.
    - rewrite (get_current_time_update m a f) by done. destruct (get_current_time_ok m C) as (t & -> & Ht & Hs).
      exists (bmax_uint64 f.(time) t), m.(previous_flow). cbn. split; [by destruct m|]. unfold bmax_uint64.
      split; [destruct (_ <? _); lia|]. split; [|split; [done|by left]]. intros s g Hs1 Hg. rewrite <- (Hs s g Hs1 Hg). destruct (Z.ltb_spec f.(time) t); lia. }
  set (f1 := set_packet d n (set_flow_time t (set_flow_input i f))). set (f2 := set_queued true f1).
  cbn [update_flow set_flows flows set_previous queued_tree]. rewrite insert_insert_eq.
  destruct (tree_put (<[a := f1]> m.(flows)) m.(queued_tree) a) as (tr' & -> & Htr & Hm); [by apply holds_update, c_tree|done|].
  assert (core (update_flow a f2 (set_tree tr' (set_previous p m)))) as C3.
  { eapply (core_enqueue m a f f2); try done.
    - split; cbn; try done; [by apply run_operation_flow|by intros _; apply G5; left].
    - assert (<[a := f2]> (flows m) = <[a := f2]> (<[a := f1]> (flows m))) as -> by (by rewrite insert_insert_eq).
      apply holds_update; [|done]. intros _. by rewrite time_of_insert, bool_decide_eq_true_2. }
  unfold update_flow, set_flows, set_tree, set_previous. cbn. rewrite !insert_insert_eq.
  assert (MkQueue (output m) (use_cancel m) (packet_weight m) (sending_flow m) (sending_len m) p tr' (flows_list m) (<[a := f2]> (flows m))
    (freeing m) (schedule_job m) (d_ctr m) = update_flow a f2 (set_tree tr' (set_previous p m))) as -> by done.
  set (m3 := update_flow a f2 (set_tree tr' (set_previous p m))) in *.
  assert (forall b, backlogged m b = true -> time_of m3.(flows) b = time_of m.(flows) b) as Hsame.
  { intros b Hb. cbn. rewrite time_of_insert. case_bool_decide as E; [subst b|done]. unfold time_of. rewrite Ha. cbn. apply Htp.
    unfold backlogged, flow_has in Hb. rewrite Ha, Nq, (bool_decide_eq_false_2 _ Ns) in Hb. by apply bool_decide_eq_true in Hb. }
  destruct (bool_decide (sending_flow m = None) && negb (schedule_job m)) eqn:Ec.
  - apply andb_true_iff in Ec as [Ec1%bool_decide_eq_true Ec2%negb_true_iff]. destruct (schedule_ok m3 C3) as (m' & acts & -> & C' & W' & T' & P' & _ & _ & Kw & Km); try done.
    + destruct Hp as [[-> _]| ->]; [|done]. cbn. destruct (previous_flow m) as [q|] eqn:Hq; [|done]. destruct (c_previous _ C q Hq). congruence.
    + cbn. intros E. assert (a ∈ elems tr') as Hin by (apply Hm; by left). rewrite E in Hin. by apply elem_of_nil in Hin.
    + eexists _, _. split; [done|]. split; try done. intros b Hb _. rewrite T'. by apply Hsame.
  - eexists _, _. split; [done|]. split; try done; [|constructor|by auto]. intros _ Hs _. cbn in *. rewrite Hs, bool_decide_eq_true_2 in Ec by done. by destruct (schedule_job m).
Qed.

(** ** A transmission ends *)

Definition shifted (sub : Z) (flow a : addr) (f : PacketPassFairQueueFlow) : PacketPassFairQueueFlow :=
  set_flow_time (if (f.(time) <? sub) && negb (bool_decide (a = flow)) then 0 else u64 (f.(time) - sub)) f.

Lemma subtract_loop_ok sub flow : forall l fl, NoDup l ->
  (forall a, a ∈ l -> exists f, fl !! a = Some f /\ (f.(time) < sub -> a <> flow -> f.(is_queued) = false)) ->
  exists fl', subtract_loop sub flow l fl = Some fl' /\
    forall b, fl' !! b = if bool_decide (b ∈ l) then shifted sub flow b <$> fl !! b else fl !! b.
Proof.
  induction l as [|a l IH]; intros fl ND Hl; [by eexists|]. apply NoDup_cons in ND as [Na ND]. cbn [subtract_loop].
  destruct (Hl a) as (f & Hf & Hq); [by left|]. rewrite Hf.
  assert ((if (f.(time) <? sub) && negb (bool_decide (a = flow)) then ASSERT negb f.(is_queued) in
        subtract_loop sub flow l (<[a := set_flow_time 0 f]> fl)
      else subtract_loop sub flow l (<[a := set_flow_time (u64 (f.(time) - sub)) f]> fl)) = subtract_loop sub flow l (<[a := shifted sub flow a f]> fl)) as ->.
  { unfold shifted. destruct (Z.ltb_spec f.(time) sub); cbn; [|done]. case_bool_decide; cbn; [done|]. by rewrite Hq. }
  destruct (IH (<[a := shifted sub flow a f]> fl) ND) as (fl' & -> & Hb).
  - intros b Hb. destruct (Hl b) as (g & Hg & Hgq); [by right|]. exists g. rewrite lookup_insert_ne; [done|]. congruence.
  - eexists. split; [done|]. intros b. rewrite Hb. destruct (decide (a = b)) as [<-|Hne].
    + rewrite (bool_decide_eq_false_2 (a ∈ l)), (bool_decide_eq_true_2 (a ∈ a :: l)), lookup_insert_eq, Hf by (done || by left). done.
    + rewrite lookup_insert_ne by done. rewrite (bool_decide_ext (b ∈ a :: l) (b ∈ l)); [done|]. rewrite elem_of_cons. naive_solver.
Qed.

(** The times after a transmission of [amount] by [s]: those of the queued
    flows and of [s] all change by the same [d], and [s] pays. *)
Record repaid (fl fl' : flows_map) (s : addr) (d amount : Z) : Prop := {
  r_dom b : fl !! b = None -> fl' !! b = None;
  r_flow b g : fl !! b = Some g -> exists t, fl' !! b = Some (set_flow_time t g) /\ 0 <= t <= FAIRQUEUE_MAX_TIME /\
    (b <> s -> g.(is_queued) = true -> t = g.(time) - d) /\ (b = s -> t = g.(time) - d + amount);
}.

Lemma increment_ok m s f amount : core m -> m.(sending_flow) = Some s -> m.(flows) !! s = Some f -> 0 <= amount <= FAIRQUEUE_MAX_TIME ->
  let m1 := set_previous (Some s) (set_sending None m.(sending_len) m) in
  exists fl' d, increment_sent_flow m1 s amount = Some (set_flows fl' m1) /\ repaid m.(flows) fl' s d amount.
Proof.
  intros C Hs Hf Ham m1. destruct (c_sending _ C s Hs) as (f0 & Hf0 & [S1 S2 S3 S4 S5 S6 S7]). assert (f0 = f) as -> by congruence.
  pose proof (g_time _ _ (c_flow _ C s f Hf)) as Hft. unfold increment_sent_flow. rewrite (proj2 (Z.leb_le _ _)) by lia.
  cbn [flows m1 set_previous set_sending sending_flow flows_list]. rewrite Hf, S1, bool_decide_eq_true_2 by done. cbn [negb].
  assert (first_flow m1 = first_flow m) as -> by done.
  destruct (Z.ltb_spec (FAIRQUEUE_MAX_TIME - time f) amount) as [Hov|Hov].
  - assert (exists ff sub, first_flow m = Some ff /\ match ff with None => time f | Some (_, g) => time g end = sub /\ time f <= sub <= FAIRQUEUE_MAX_TIME /\
      (forall b g, m.(flows) !! b = Some g -> g.(is_queued) = true -> sub <= g.(time))) as (ff & sub & -> & -> & Hsub & Hmin).
    { destruct (first_flow_ok m C) as [[-> El]|(a & g & -> & Ha & Hq & _ & Hmin)].
      - exists None, f.(time). split; [done|]. split; [done|]. split; [lia|]. intros b g Hb Hq.
        assert (b ∈ elems m.(queued_tree)) as Hin by (apply (c_queued _ C); eauto). rewrite El in Hin. by apply elem_of_nil in Hin.
      - eexists _, _. split; [done|]. split; [done|]. split; [|done]. split; [by eapply S3|]. apply (c_flow _ C a g Ha). }
    destruct (subtract_loop_ok sub s m.(flows_list) m.(flows)) as (fl & -> & Hfl); [apply C| |].
    { intros a Ha. apply (c_list _ C) in Ha as [g Hg]. exists g. split; [done|]. intros Hlt _. destruct (is_queued g) eqn:Eq; [|done].
      specialize (Hmin a g Hg Eq). lia. }
    assert (forall b, fl !! b = shifted sub s b <$> m.(flows) !! b) as Hall.
    { intros b. rewrite Hfl. case_bool_decide as Hb; [done|]. destruct (m.(flows) !! b) eqn:Eb; [|done]. destruct Hb. apply (c_list _ C). by rewrite Eb. }
    cbn [set_flows flows]. rewrite Hall, Hf. cbn [fmap option_fmap option_map]. eexists _, sub. split; [done|]. split.
    + intros b Hb. rewrite lookup_insert_ne by congruence. by rewrite Hall, Hb.
    + intros b g Hg. destruct (decide (s = b)) as [<-|Hne].
      * rewrite lookup_insert_eq. assert (g = f) as -> by congruence. eexists. split; [done|]. cbn. rewrite (bool_decide_eq_true_2 (s = s)), andb_false_r by done.
        assert (u64 (u64 (time f - sub) + amount) = time f - sub + amount) as ->.
        { unfold u64. rewrite Zplus_mod_idemp_l. apply Z.mod_small. unfold FAIRQUEUE_MAX_TIME in *. lia. }
        split; [unfold FAIRQUEUE_MAX_TIME in *; lia|]. split; [done|lia].
      * rewrite lookup_insert_ne, Hall, Hg by done. eexists. split; [done|]. pose proof (g_time _ _ (c_flow _ C b g Hg)) as Hgt.
        rewrite (bool_decide_eq_false_2 (b = s)) by done. cbn [negb]. rewrite andb_true_r. destruct (Z.ltb_spec (time g) sub).
        -- split; [unfold FAIRQUEUE_MAX_TIME; lia|]. split; [|done]. intros _ Hq. specialize (Hmin b g Hg Hq). lia.
        -- rewrite u64_small by (unfold FAIRQUEUE_MAX_TIME in *; lia). split; [lia|]. split; [lia|done].
  - cbn [flows m1 set_previous set_sending]. rewrite Hf. eexists _, 0. split; [done|]. split.
    + intros b Hb. by rewrite lookup_insert_ne by congruence.
    + intros b g Hg. destruct (decide (s = b)) as [<-|Hne].
      * rewrite lookup_insert_eq. assert (g = f) as -> by congruence. eexists. split; [done|]. rewrite u64_small by (unfold FAIRQUEUE_MAX_TIME in *; lia).
        split; [lia|]. split; [done|lia].
      * rewrite lookup_insert_ne by done. exists g.(time). split; [cbn; rewrite Hg; by destruct g|]. split; [apply (c_flow _ C b g Hg)|]. split; [lia|done].
Qed.

Lemma increment_output m o s amount :
  increment_sent_flow (set_output o m) s amount = (LET m <- increment_sent_flow m s amount in Some (set_output o m)).
Proof.
  unfold increment_sent_flow. change (first_flow (set_output o m)) with (first_flow m). cbn [flows set_output sending_flow flows_list].
  destruct (amount <=? FAIRQUEUE_MAX_TIME); [|done]. destruct (flows m !! s) as [f|] eqn:Hf; [|done].
  destruct (negb (is_queued f)); [|done]. destruct (bool_decide (sending_flow m = None)); [|done].
  destruct (_ <? amount); cbn [flows set_output]; [|by rewrite Hf].
  destruct (first_flow m) as [ff|]; [|done]. cbn zeta. destruct (subtract_loop _ s (flows_list m) (flows m)) as [fl|]; [|done].
  cbn [flows set_output set_flows]. by destruct (fl !! s).
Qed.

Lemma output_handler_done_ok m s f o : core m -> m.(sending_flow) = Some s -> m.(flows) !! s = Some f -> m.(freeing) = false ->
  m.(output).(state) = STATE_DONE_PENDING -> o = run_done m.(output) ->
  exists m' busy fl d, output_handler_done (set_output o m) = Some (m', Served s (m.(packet_weight) + m.(sending_len)) :: busy) /\
    core m' /\ work m' /\ m'.(packet_weight) = m.(packet_weight) /\ m'.(output).(mtu) = m.(output).(mtu) /\
    (busy = [] \/ busy = [Busy s]) /\ m'.(previous_flow) = Some s /\ m'.(sending_flow) = None /\
    repaid m.(flows) fl s d (m.(packet_weight) + m.(sending_len)) /\
    (forall b, time_of m'.(flows) b = time_of fl b) /\ (forall b, flow_has m' b is_queued = flow_has m b is_queued).
Proof.
  intros C Hs Hf Hfr Hst ->. destruct (c_sending _ C s Hs) as (f0 & Hf0 & S). assert (f0 = f) as -> by congruence. pose proof S as [S1 S2 S3 S4 S5 S6 S7].
  pose proof (c_flow _ C s f Hf) as Gf. pose proof Gf as [G1 G2 G3 G4 G5 G6]. pose proof (c_weight _ C) as (Hw0 & Hm0 & Hwm).
  assert (0 <= sending_len m <= mtu (output m)) as Hlen by (rewrite S6; apply G5; by right).
  unfold output_handler_done. cbn [sending_flow set_output previous_flow schedule_job freeing flows]. rewrite Hs, S4, S5, Hfr, Hf, S1, bool_decide_eq_true_2 by done.
  cbn [negb]. cbn [packet_weight sending_len set_previous set_sending set_output]. rewrite (u64_small (_ + _)) by (unfold FAIRQUEUE_MAX_TIME in *; lia).
  set (amount := packet_weight m + sending_len m).
  set (m0 := set_output (run_done (output m)) m).
  destruct (increment_ok m s f amount C Hs Hf ltac:(unfold amount; lia)) as (fl & d & Ei & R).
  change (set_previous (Some s) (set_sending None (sending_len m) m0)) with
    (set_output (run_done (output m)) (set_previous (Some s) (set_sending None (sending_len m) m))).
  rewrite increment_output, Ei.
  cbn [flows set_job set_flows set_output]. pose proof R as [Rd Rf]. destruct (Rf s f Hf) as (t & Ht & Htr & _ & Hts). rewrite Ht. cbn [input set_flow_time handler_busy].
  destruct (done_finish f.(input) G2 S2) as (i & -> & Fi & Si & Mi & _ & Ri & Di & Li).
  set (f' := set_busy false (set_flow_input i (set_flow_time t f))).
  eexists _, _, fl, d. split; [done|]. unfold update_flow. cbn [set_job set_flows flows set_previous set_sending m0 set_output].
  assert (forall b, time_of (<[s := f']> fl) b = time_of fl b) as Hto.
  { intros b. rewrite time_of_insert. case_bool_decide; [subst b|done]. unfold time_of. by rewrite Ht. }
  assert (forall b, b <> s -> forall g, fl !! b = Some g <-> exists h u, m.(flows) !! b = Some h /\ g = set_flow_time u h /\ fl !! b = Some (set_flow_time u h)) as Hfl.
  { intros b _ g. split; [|naive_solver]. intros Hg. destruct (m.(flows) !! b) as [h|] eqn:Eh; [|rewrite (Rd b Eh) in Hg; done].
    destruct (Rf b h Eh) as (u & Hu & _). exists h, u. naive_solver congruence. }
  assert (forall b, flow_has (set_flows (<[s := f']> fl) m) b is_queued = flow_has m b is_queued) as Hqs.
  { intros b. unfold flow_has. cbn. destruct (decide (s = b)) as [<-|]; [rewrite lookup_insert_eq, Hf; done|]. rewrite lookup_insert_ne by done.
    destruct (m.(flows) !! b) as [h|] eqn:Eh; [|by rewrite (Rd b Eh)]. by destruct (Rf b h Eh) as (u & -> & _). }
  split; [|split; [done|]; split; [done|]; split; [done|]; split; [destruct (handler_busy f); [by right|by left]|]; split; [done|]; split; [done|]; split; [done|]; split; [done|apply Hqs]].
  destruct C as [Cn Cl Cc Ct Cq Cf Cb Cs Cp Cj Co Ci Cw Cx].
  assert (forall b, is_Some (<[s := f']> fl !! b) <-> is_Some (flows m !! b)) as Hdom.
  { intros b. destruct (decide (s = b)) as [<-|]; [rewrite lookup_insert_eq, Hf; by split|]. rewrite lookup_insert_ne by done.
    destruct (m.(flows) !! b) as [h|] eqn:Eh; [|rewrite (Rd b Eh); done]. destruct (Rf b h Eh) as (u & -> & _). by split. }
  split; cbn; try done.
  - intros b. rewrite Cl. symmetry. apply Hdom.
  - assert (size (<[s := f']> fl) = size (flows m)) as ->; [|done]. rewrite <- !(size_dom (D := gset addr)). f_equal.
    apply set_eq. intros b. rewrite !elem_of_dom. apply Hdom.
  - apply (holds_shift m.(flows) _ d); [|done]. intros b Hb. rewrite Hto. apply Cq in Hb as (g & Hg & Hq). destruct (Rf b g Hg) as (u & Hu & _ & Hud & _).
    unfold time_of. rewrite Hu, Hg. apply Hud; [congruence|done].
  - intros b. rewrite Cq. specialize (Hqs b). unfold flow_has in Hqs. cbn in Hqs. destruct (<[s := f']> fl !! b), (flows m !! b); naive_solver congruence.
  - intros b g. destruct (decide (s = b)) as [<-|Hne].
    + rewrite lookup_insert_eq. intros [= <-]. split; cbn; try done; try congruence. intros [?|?]; congruence.
    + rewrite lookup_insert_ne, (Hfl b) by done. intros (h & u & Hh & -> & Hu). destruct (Rf b h Hh) as (u' & Hu' & Hur & _). rewrite Hu in Hu'. injection Hu' as ->.
      destruct (Cf b h Hh). by split.
  - intros b g. destruct (decide (s = b)) as [<-|Hne].
    + rewrite lookup_insert_eq. intros [= <-]. cbn. congruence.
    + rewrite lookup_insert_ne, (Hfl b) by done. intros (h & u & Hh & -> & Hu) Hb. destruct (Cb b h Hh Hb); [by left|congruence].
  - intros b [= <-]. split; [done|]. rewrite lookup_insert_eq. by eexists.
  - split; [|apply Co]. apply run_done_flow; [apply Co|done].
Qed.

(** ** Every step *)

Lemma calm_update m a f f' : core m -> work m -> m.(flows) !! a = Some f -> f'.(time) = f.(time) -> f'.(is_queued) = f.(is_queued) ->
  flow_good m.(output).(mtu) f' -> (f'.(input).(state) = STATE_BUSY <-> f.(input).(state) = STATE_BUSY) ->
  (f.(input).(state) = STATE_BUSY -> f'.(input).(job_operation_data) = f.(input).(job_operation_data) /\
    f'.(input).(job_operation_len) = f.(input).(job_operation_len)) ->
  calm m (update_flow a f' m) [].
Proof.
  intros C W Ha Et Eq G Hb Ho. split; try done; [by eapply core_update|constructor|].
  intros b _ _. cbn. rewrite time_of_insert. case_bool_decide; [subst b|done]. unfold time_of. by rewrite Ha.
Qed.

Lemma calm_set_output m o : core m -> work m -> flow_ok PacketPass o -> o.(handler_done) = true -> o.(mtu) = m.(output).(mtu) ->
  o.(handler_requestcancel) = m.(output).(handler_requestcancel) -> (o.(state) = STATE_NONE <-> m.(output).(state) = STATE_NONE) ->
  o.(job_operation_data) = m.(output).(job_operation_data) -> o.(job_operation_len) = m.(output).(job_operation_len) ->
  calm m (set_output o m) [].
Proof. intros C W Fo Hd Hm Hc Hs Hod Hol. split; try done; [by apply core_set_output|constructor]. Qed.

Lemma flow_init_ok m a x : core m -> work m -> m.(freeing) = false -> m.(flows) !! a = None ->
  exists m', PacketPassFairQueueFlow_Init m a x = Some m' /\ calm m m' [].
Proof.
  intros C W Hf Ha. pose proof C as [Cn Cl [Cc Cr] Ct Cq Cf Cb Cs Cp Cj Co Ci Cw Cx]. unfold PacketPassFairQueueFlow_Init, PacketPassInterface_Init.
  rewrite Hf, (proj2 (Z.leb_le _ _)) by lia. cbn [negb]. destruct (Reactor.counter_increment _ _ Cc Cr) as (c & -> & Cc' & Cr').
  assert (a ∉ m.(flows_list)) as Nl by (intros [? ?]%Cl; congruence).
  assert (a ∉ elems m.(queued_tree)) as Nt by (intros (g & ? & _)%Cq; congruence).
  eexists. split; [done|]. split; try done; [| |intros b Hb _].
  - split; cbn; try done.
    + apply NoDup_app. split; [done|]. split; [set_solver|]. apply NoDup_singleton.
    + intros b. rewrite elem_of_app, list_elem_of_singleton, Cl. destruct (decide (a = b)) as [<-|];
        [rewrite lookup_insert_eq; split; [done|by right]|rewrite lookup_insert_ne by done; naive_solver].
    + by rewrite map_size_insert_None.
    + by apply holds_update.
    + intros b. rewrite Cq. destruct (decide (a = b)) as [<-|]; [rewrite lookup_insert_eq|rewrite lookup_insert_ne by done]; naive_solver.
    + intros b g. destruct (decide (a = b)) as [<-|]; [rewrite lookup_insert_eq; intros [= <-]|rewrite lookup_insert_ne by done; apply Cf].
      split; cbn; try done. by intros [?|?].
    + intros b g. destruct (decide (a = b)) as [<-|]; [rewrite lookup_insert_eq; by intros [= <-]|rewrite lookup_insert_ne by done; apply Cb].
    + intros s Hs. destruct (Cs s Hs) as (g & Hg & [S1 S2 S3 S4 S5 S6 S7]). rewrite lookup_insert_ne by congruence. exists g. split; [done|]. split; cbn; try done.
      intros b h. destruct (decide (a = b)) as [<-|]; [rewrite lookup_insert_eq; by intros [= <-]|rewrite lookup_insert_ne by done; apply S3].
    + intros p Hp. destruct (Cp p Hp) as (? & g & Hg & ?). rewrite lookup_insert_ne by congruence. eauto.
  - constructor.
  - cbn. rewrite time_of_insert. case_bool_decide; [subst b|done]. exfalso. revert Hb. unfold backlogged, flow_has. rewrite Ha.
    rewrite !bool_decide_eq_false_2; [done| |]; [intros (_ & g & ? & _)%Cp; congruence|intros (g & ? & _)%Cs; congruence].
Qed.

(** A flow leaves; after [PrepareFree] also one that is being sent. *)
Lemma flow_free_ok m a f : core m -> work m -> m.(flows) !! a = Some f -> m.(freeing) = true \/ m.(sending_flow) <> Some a ->
  exists m', PacketPassFairQueueFlow_Free m a = Some m' /\ calm m m' [].
Proof.
  intros C W Ha Hfr. pose proof C as [Cn Cl [Cc Cr] Ct Cq Cf Cb Cs Cp Cj Co Ci Cw Cx]. unfold PacketPassFairQueueFlow_Free. rewrite Ha.
  assert (m.(freeing) || negb (bool_decide (m.(sending_flow) = Some a)) = true) as ->
    by (destruct Hfr as [-> | H]; [done|]; by rewrite (bool_decide_eq_false_2 _ H), orb_true_r).
  assert (size m.(flows) = S (size (delete a m.(flows)))) as Es by (rewrite <- (insert_delete_id _ _ _ Ha) at 1; by rewrite map_size_insert_None by apply lookup_delete_eq).
  rewrite Es in Cc. destruct (Reactor.counter_decrement _ _ Cc Cr) as (c & -> & Cc' & Cr').
  set (s' := if bool_decide (m.(sending_flow) = Some a) then None else m.(sending_flow)).
  set (p' := if bool_decide (m.(previous_flow) = Some a) then None else m.(previous_flow)).
  set (m1 := if bool_decide (m.(sending_flow) = Some a) then set_sending None m.(sending_len) m else m).
  assert (m1 = set_sending s' m.(sending_len) m) as -> by (unfold m1, s'; case_bool_decide; [done|by destruct m]).
  cbn [previous_flow set_sending]. assert ((if bool_decide (previous_flow m = Some a) then set_previous None (set_sending s' (sending_len m) m)
    else set_sending s' (sending_len m) m) = set_previous p' (set_sending s' (sending_len m) m)) as -> by (unfold p'; case_bool_decide; [done|by destruct m]).
  assert (exists tr', (if is_queued f then LET t <- CAvl_Remove (queued_tree (set_previous p' (set_sending s' (sending_len m) m))) a in
      Some (set_tree t (set_previous p' (set_sending s' (sending_len m) m))) else Some (set_previous p' (set_sending s' (sending_len m) m))) =
      Some (set_tree tr' (set_previous p' (set_sending s' (sending_len m) m))) /\
    holds (compare_flows m.(flows)) tr' (elems tr') /\ (forall b, b ∈ elems tr' <-> b <> a /\ b ∈ elems m.(queued_tree))) as (tr' & -> & Ht & Hm).
  { destruct (is_queued f) eqn:Eq.
    - destruct (tree_take _ _ a Ct) as (tr' & E & Ht & Hm); [apply Cq; eauto|]. cbn [queued_tree set_previous set_sending]. rewrite E. by exists tr'.
    - exists m.(queued_tree). split; [by destruct m|]. split; [done|]. intros b. split; [|tauto]. intros Hb. split; [|done]. intros ->. apply Cq in Hb as (g & ? & ?). congruence. }
  unfold Reactor.unlink. cbn [flows_list set_tree set_previous set_sending]. rewrite bool_decide_eq_true_2 by (apply Cl; by rewrite Ha).
  assert (forall s, s' = Some s -> m.(sending_flow) = Some s /\ s <> a) as Hs' by (intros s; unfold s'; case_bool_decide; naive_solver congruence).
  assert (forall p, p' = Some p -> m.(previous_flow) = Some p /\ p <> a) as Hp' by (intros p; unfold p'; case_bool_decide; naive_solver congruence).
  eexists. split; [done|]. split; cbn; try done; [| |constructor|].
  - split; cbn; try done.
    + by apply Reactor.without_nodup.
    + intros b. rewrite Pending.elem_of_without, Cl. destruct (decide (a = b)) as [<-|]; [rewrite lookup_delete_eq, is_Some_alt; naive_solver|rewrite lookup_delete_ne by done; naive_solver].
    + apply (holds_shift m.(flows) _ 0); [|done]. intros b [Hb _]%Hm. unfold time_of. rewrite lookup_delete_ne by done. lia.
    + intros b. rewrite Hm, Cq. destruct (decide (a = b)) as [<-|]; [rewrite lookup_delete_eq|rewrite lookup_delete_ne by done]; naive_solver.
    + intros b g. destruct (decide (a = b)) as [<-|]; [by rewrite lookup_delete_eq|rewrite lookup_delete_ne by done; apply Cf].
    + intros b g. destruct (decide (a = b)) as [<-|]; [by rewrite lookup_delete_eq|rewrite lookup_delete_ne by done]. intros Hg Hb.
      destruct (Cb b g Hg Hb) as [?|Hsb]; [by left|right]. unfold s'. by rewrite bool_decide_eq_false_2 by congruence.
    + intros s [Hs Hne]%Hs'. destruct (Cs s Hs) as (g & Hg & [S1 S2 S3 S4 S5 S6 S7]). rewrite lookup_delete_ne by done. exists g. split; [done|]. split; cbn; try done.
      * intros b h. destruct (decide (a = b)) as [<-|]; [by rewrite lookup_delete_eq|rewrite lookup_delete_ne by done; apply S3].
      * unfold p'. rewrite S4. by case_bool_decide.
    + intros p [Hp Hne]%Hp'. rewrite lookup_delete_ne by done. by apply Cp.
    + intros Hj. unfold s'. rewrite (Cj Hj). by case_bool_decide.
    + intros Hf. destruct Hfr as [?|Hne]; [congruence|]. unfold s'. rewrite bool_decide_eq_false_2 by done. by apply Ci.
  - intros Hf Hs Hne. apply W; [done| |].
    + cbn in Hs. unfold s' in Hs. destruct Hfr as [?|Hns]; [cbn in Hf; congruence|]. by rewrite bool_decide_eq_false_2 in Hs by done.
    + cbn in Hne. intros E. apply Hne. destruct (elems tr') as [|b l] eqn:El; [done|]. exfalso.
      assert (b ∈ elems m.(queued_tree)) as Hb by (apply Hm; rewrite <- El; rewrite El; by left). rewrite E in Hb. by apply elem_of_nil in Hb.
  - intros b _ Hb. cbn. unfold time_of. destruct (decide (a = b)) as [<-|]; [|by rewrite lookup_delete_ne]. exfalso. revert Hb. unfold backlogged, flow_has. cbn.
    rewrite lookup_delete_eq, !bool_decide_eq_false_2; [done| |]; [by intros [_ ?]%Hp'|by intros [_ ?]%Hs'].
Qed.

(** What one step of a flow interface does to the flow it belongs to. *)
Lemma on_input_ok m a f g : core m -> work m -> m.(flows) !! a = Some f ->
  (exists i, g f.(input) = Some i /\ flow_ok PacketPass i /\ i.(mtu) = f.(input).(mtu) /\ i.(handler_requestcancel) = f.(input).(handler_requestcancel) /\
     (i.(state) = STATE_OPERATION_PENDING -> packet_ok i.(mtu) i.(job_operation_data) i.(job_operation_len)) /\
     (i.(state) = STATE_BUSY <-> f.(input).(state) = STATE_BUSY) /\
     (f.(input).(state) = STATE_BUSY -> i.(job_operation_data) = f.(input).(job_operation_data) /\ i.(job_operation_len) = f.(input).(job_operation_len))) ->
  exists m', on_input m a g = Some m' /\ calm m m' [].
Proof.
  intros C W Ha (i & E & F & Hm & Hc & Hp & Hb & Ho). unfold on_input. rewrite Ha, E. eexists. split; [done|].
  pose proof (c_flow _ C a f Ha) as [G1 G2 G3 G4 G5 G6]. eapply calm_update; try done. split; cbn; try congruence; try done.
  - intros [Hs|Hs]; [rewrite <- G3, <- Hm; by apply Hp|]. apply Hb in Hs. destruct (Ho Hs) as [-> ->]. apply G5. by right.
  - intros Hq. destruct (G6 Hq) as (Hs & Hd & Hl). split; [by apply Hb|]. destruct (Ho Hs). split; congruence.
Qed.

Lemma flow_has_true m a p : flow_has m a p = true -> exists f, m.(flows) !! a = Some f /\ p f = true.
Proof. unfold flow_has. destruct (m.(flows) !! a) as [f|]; [|done]. eauto. Qed.

(** The step that ends a transmission of [s]. *)
Record serves (m m' : PacketPassFairQueue) (acts : list action) (s : addr) (amount : Z) : Prop := {
  v_core : core m';
  v_work : work m';
  v_weight : m'.(packet_weight) = m.(packet_weight);
  v_mtu : m'.(output).(mtu) = m.(output).(mtu);
  v_acts : acts = [Served s amount] \/ acts = [Served s amount; Busy s];
  v_amount : 0 <= amount <= m.(packet_weight) + m.(output).(mtu);
  v_before : m.(sending_flow) = Some s /\ m.(previous_flow) = None;
  v_after : m'.(sending_flow) = None /\ m'.(previous_flow) = Some s;
  v_queued b : flow_has m' b is_queued = flow_has m b is_queued;
  v_times : exists d, (forall b, flow_has m b is_queued = true -> time_of m'.(flows) b = time_of m.(flows) b - d) /\
    time_of m'.(flows) s = time_of m.(flows) s - d + amount;
  v_first b : flow_has m b is_queued = true -> time_of m.(flows) s <= time_of m.(flows) b;
}.

Lemma transmission_done_ok m : core m -> m.(freeing) = false -> m.(output).(job_done) = true ->
  exists m' acts s amount, step m QOutputDone = Some (m', acts) /\ serves m m' acts s amount.
Proof.
  intros C Hfr Hj. destruct (c_output _ C) as [Fo Ho]. pose proof (proj2 (job_of_state _ _ Fo) Hj) as Hst. cbn [step].
  unfold _PacketPassInterface_job_done. rewrite (proj2 (is_state_true _ _) Hst).
  destruct (sending_flow m) as [s|] eqn:Hs; [|rewrite (c_idle _ C Hfr) in Hs; congruence].
  destruct (c_sending _ C s Hs) as (f & Hf & S). pose proof S as [S1 S2 S3 S4 S5 S6 S7].
  destruct (output_handler_done_ok m s f _ C Hs Hf Hfr Hst eq_refl) as (m' & busy & fl & d & -> & C' & W' & Ew & Em & Hb & Hp & Hn & [Rd Rf] & Ht & Hq).
  eexists _, _, s, _. split; [done|]. split; try done.
  - destruct Hb as [-> | ->]; [by left|by right].
  - destruct (c_weight _ C) as (? & ? & ?). rewrite S6. destruct (c_flow _ C s f Hf) as [_ _ _ _ G5 _]. destruct (G5 (or_intror S2)) as [? _]. lia.
  - exists d. split.
    + intros b (g & Hg & Hgq)%flow_has_true. rewrite Ht. destruct (Rf b g Hg) as (t & Et & _ & Hd & _). unfold time_of. rewrite Et, Hg. apply Hd; [congruence|done].
    + rewrite Ht. destruct (Rf s f Hf) as (t & Et & _ & _ & Hd). unfold time_of. rewrite Et, Hf. by apply Hd.
  - intros b (g & Hg & Hgq)%flow_has_true. unfold time_of. rewrite Hf, Hg. by eapply S3.
Qed.

Lemma calm_quiet m r : (exists m', r = Some m' /\ calm m m' []) -> exists m' acts, quiet r = Some (m', acts) /\ calm m m' acts.
Proof. intros (m' & -> & K). by exists m', []. Qed.

Lemma calm_step_ok m ev : core m -> work m -> legal m ev = true -> ev <> QOutputDone ->
  exists m' acts, step m ev = Some (m', acts) /\ calm m m' acts.
Proof.
  intros C W Hl Hne. destruct (c_output _ C) as [Fo Ho].
  destruct ev; cbn [legal step] in *; try (apply andb_true_iff in Hl as [Hfr%negb_true_iff Hl]); try (apply calm_quiet).
  - apply bool_decide_eq_true in Hl. by apply flow_init_ok.
  - apply flow_has_true in Hl as (f & Hf & Hl). eapply flow_free_ok; try done. apply orb_true_iff in Hl as [?|Hl]; [by left|right].
    by apply negb_true_iff, bool_decide_eq_false in Hl.
  - apply flow_has_true in Hl as (f & Hf & Hl%negb_true_iff). eapply on_input_ok; try done. pose proof (c_flow _ C a f Hf) as [G1 [F1 F2 F3] G3 G4 G5 G6].
    unfold PacketPassInterface_Sender_Init. rewrite Hl. eexists. split; [done|]. split; [by split|]. cbn.
    split; [done|]. split; [done|]. split; [intros Hs; rewrite G3; apply G5; by left|done].
  - apply flow_has_true in Hl as (f & Hf & Hl). rewrite !andb_true_iff, is_state_true, !Z.leb_le in Hl. destruct Hl as ((((Hs & Hh) & H0) & H1) & Hd).
    pose proof (c_flow _ C a f Hf) as [G1 G2 G3 G4 G5 G6]. eapply on_input_ok; try done.
    assert (packet_ok (mtu (input f)) data n) as P.
    { split; [done|]. intros Hn. rewrite (proj2 (Z.ltb_lt _ _)) in Hd by done. by apply negb_true_iff, bool_decide_eq_false in Hd. }
    destruct (send_start f.(input) data n G2 Hs Hh P) as (i & E & Fi & Si & Mi & _ & Ci & Di & Li). exists i.
    split; [done|]. split; [done|]. split; [done|]. split; [done|]. split; [intros _; by rewrite Mi, Di, Li|]. rewrite Si, Hs. by repeat split.
  - apply flow_has_true in Hl as (f & Hf & Hl). pose proof (c_flow _ C a f Hf) as [G1 G2 G3 G4 G5 G6]. pose proof (proj1 (job_of_state _ _ G2) Hl) as Hs.
    rewrite Hf. unfold _PacketPassInterface_job_operation. rewrite (proj2 (is_state_true _ _) Hs). by apply input_handler_send_ok.
  - apply flow_has_true in Hl as (f & Hf & Hl). pose proof (c_flow _ C a f Hf) as [G1 G2 G3 G4 G5 G6]. pose proof (proj2 (job_of_state _ _ G2) Hl) as Hs.
    eapply on_input_ok; try done. unfold _PacketPassInterface_job_done. rewrite (proj2 (is_state_true _ _) Hs). eexists. split; [done|].
    split; [by apply run_done_flow|]. cbn. rewrite Hs. by repeat split.
  - destruct (schedule_job_ok m C W Hl Hfr) as (m' & acts & -> & C' & W' & T' & P' & _ & _ & Ew & Em). eexists _, _. split; [done|]. by split.
  - pose proof (proj1 (job_of_state _ _ Fo) Hl) as Hs. unfold _PacketPassInterface_job_operation. rewrite (proj2 (is_state_true _ _) Hs). eexists _, _. split; [done|].
    apply calm_set_output; try done; [by apply run_operation_flow|]. cbn. by rewrite Hs.
  - pose proof (fo_cancel _ _ Fo Hl) as (_ & Hs & Hc & Hr). unfold _PacketPassInterface_job_requestcancel. rewrite (proj2 (is_state_true _ _) Hs), Hc, Hr.
    eexists _, _. split; [done|]. apply calm_set_output; try done. by destruct Fo as [F1 F2 F3].
  - apply is_state_true in Hl. destruct (done_finish _ Fo Hl) as (o & -> & F' & S' & M' & H' & R' & D' & L'). eexists _, _. split; [done|].
    apply calm_set_output; try done; try congruence. by rewrite S', Hl.
  - done.
  - apply andb_true_iff in Hl as [Hs%bool_decide_eq_true Hu]. destruct (c_sending _ C a Hs) as (f & Hf & S). unfold PacketPassFairQueueFlow_RequestCancel.
    rewrite Hu, Hfr, (s_job _ _ S), bool_decide_eq_true_2 by done. cbn [negb].
    assert (m.(output).(state) <> STATE_NONE) as Hn by (rewrite <- (c_idle _ C Hfr); congruence).
    destruct (cancel_request _ Fo Hn (c_cancel _ C Hu)) as (o & -> & F' & S' & M' & H' & R' & D' & L'). eexists. split; [done|].
    apply calm_set_output; try done; try congruence. 
  - apply bool_decide_eq_true in Hl. destruct (c_sending _ C a Hl) as (f & Hf & S). unfold PacketPassFairQueueFlow_SetBusyHandler.
    rewrite Hf, Hl, Hfr, bool_decide_eq_true_2 by done. eexists. split; [done|]. pose proof (c_flow _ C a f Hf) as [G1 G2 G3 G4 G5 G6].
    eapply calm_update; try done.
  - eexists _, _. split; [done|]. split; try done; [|constructor]. destruct C as [Cn Cl Cc Ct Cq Cf Cb Cs Cp Cj Co Ci Cw Cx].
    split; cbn; try done. intros b Hb. destruct (Cs b Hb) as (g & Hg & [S1 S2 S3 S4 S5 S6 S7]). exists g. split; [done|]. by split.
Qed.

Lemma step_ok m ev : core m -> work m -> legal m ev = true ->
  exists m' acts, step m ev = Some (m', acts) /\ (calm m m' acts \/ exists s amount, serves m m' acts s amount).
Proof.
  intros C W Hl. assert (ev = QOutputDone \/ ev <> QOutputDone) as [->|Hne] by (destruct ev; (by left) || by right).
  - cbn [legal] in Hl. apply andb_true_iff in Hl as [Hfr%negb_true_iff Hl]. destruct (transmission_done_ok m C Hfr Hl) as (m' & acts & s & n & E & V). eauto 8.
  - destruct (calm_step_ok m ev C W Hl Hne) as (m' & acts & E & K). eauto 8.
Qed.

(** ** Runs and fairness *)

(** A step keeps the invariant and the parameters. *)
Lemma step_keeps m ev : core m -> work m -> legal m ev = true ->
  exists m' acts, step m ev = Some (m', acts) /\ (calm m m' acts \/ exists s amount, serves m m' acts s amount) /\
    core m' /\ work m' /\ m'.(packet_weight) = m.(packet_weight) /\ m'.(output).(mtu) = m.(output).(mtu).
Proof.
  intros C W Hl. destruct (step_ok m ev C W Hl) as (m' & acts & E & K). exists m', acts. split; [done|]. split; [done|].
  by destruct K as [[]|(s & n & [])].
Qed.

Lemma queue_run_ok evs : forall m, core m -> work m ->
  exists m' acts, run m evs = Some (m', acts) /\ core m' /\ work m' /\ m'.(packet_weight) = m.(packet_weight) /\ m'.(output).(mtu) = m.(output).(mtu).
Proof.
  induction evs as [|ev evs IH]; intros m C W; [by eexists _, _|]. cbn [run]. destruct (legal m ev) eqn:Hl; [|by apply IH].
  destruct (step_keeps m ev C W Hl) as (m1 & a1 & -> & _ & C1 & W1 & <- & <-).
  destruct (IH m1 C1 W1) as (m2 & a2 & -> & H). by eexists _, _.
Qed.

(** What a flow has been charged for. *)
Fixpoint served (a : addr) (acts : list action) : Z :=
  match acts with
  | [] => 0
  | Served b n :: acts => (if bool_decide (b = a) then n else 0) + served a acts
  | _ :: acts => served a acts
  end.

Definition gap (m : PacketPassFairQueue) (a b : addr) : Z := time_of m.(flows) a - time_of m.(flows) b.

Lemma served_app a x y : served a (x ++ y) = served a x + served a y.
Proof. induction x as [|[]]; cbn; lia. Qed.
Lemma served_passes a acts : passes acts -> served a acts = 0.
Proof. induction 1 as [|[] l]; cbn; done. Qed.

Lemma backlogged_cases m a : backlogged m a = true ->
  flow_has m a is_queued = true \/ m.(sending_flow) = Some a \/ m.(previous_flow) = Some a.
Proof. unfold backlogged. rewrite !orb_true_iff, !bool_decide_eq_true. tauto. Qed.

Lemma serves_gap m m' acts s n a b : serves m m' acts s n -> backlogged m a = true -> backlogged m b = true ->
  gap m' a b = gap m a b + served a acts - served b acts /\
  Z.abs (gap m' a b) <= Z.max (Z.abs (gap m a b)) (m.(packet_weight) + m.(output).(mtu)).
Proof.
  intros [_ _ _ _ Va Vn [Vs Vp] _ _ (d & Vq & Vt) Vf] Ha Hb.
  assert (forall x, served x acts = if bool_decide (s = x) then n else 0) as Hsv by (intros x; destruct Va as [-> | ->]; cbn; lia).
  assert (forall x, backlogged m x = true -> (x = s \/ flow_has m x is_queued = true)) as Hx.
  { intros x Hx. destruct (backlogged_cases m x Hx) as [?|[?|?]]; [by right|left; congruence|congruence]. }
  unfold gap. rewrite !Hsv.
  assert (forall x, x <> s -> backlogged m x = true -> flow_has m x is_queued = true) as Hq by (intros x Hne Hbx; by destruct (Hx x Hbx)).
  destruct (decide (a = s)) as [->|Na], (decide (b = s)) as [->|Nb].
  - rewrite (bool_decide_eq_true_2 (s = s)) by done. split; lia.
  - rewrite (bool_decide_eq_true_2 (s = s)), (bool_decide_eq_false_2 (s = b)), Vt, (Vq b) by auto. pose proof (Vf b ltac:(auto)). split; lia.
  - rewrite (bool_decide_eq_true_2 (s = s)), (bool_decide_eq_false_2 (s = a)), Vt, (Vq a) by auto. pose proof (Vf a ltac:(auto)). split; lia.
  - rewrite (bool_decide_eq_false_2 (s = a)), (bool_decide_eq_false_2 (s = b)), (Vq a), (Vq b) by auto. split; lia.
Qed.

(** Both flows want to send, in every state of the run. *)
Fixpoint always (p : PacketPassFairQueue -> bool) (m : PacketPassFairQueue) (evs : list event) : bool :=
  p m && match evs with
         | [] => true
         | ev :: evs => if legal m ev then match step m ev with Some (m, _) => always p m evs | None => true end else always p m evs
         end.

Lemma always_now p m evs : always p m evs = true -> p m = true.
Proof. destruct evs; cbn [always]; rewrite andb_true_iff; tauto. Qed.

Lemma run_gap a b evs : forall m m' acts, core m -> work m -> always (fun m => backlogged m a && backlogged m b) m evs = true ->
  run m evs = Some (m', acts) ->
  gap m' a b = gap m a b + served a acts - served b acts /\
  Z.abs (gap m' a b) <= Z.max (Z.abs (gap m a b)) (m.(packet_weight) + m.(output).(mtu)).
Proof.
  induction evs as [|ev evs IH]; intros m m' acts C W Hal E; cbn [run] in E.
  - injection E as <- <-. cbn. split; lia.
  - cbn [always] in Hal. apply andb_true_iff in Hal as [[Ha Hb]%andb_true_iff Hal]. destruct (legal m ev) eqn:Hl; [|by apply IH].
    destruct (step_keeps m ev C W Hl) as (m1 & a1 & E1 & K & C1 & W1 & Ew & Em). rewrite E1 in E, Hal.
    destruct (run m1 evs) as [[m2 a2]|] eqn:E2; [|done]. injection E as <- <-.
    destruct (IH m1 m2 a2 C1 W1 Hal E2) as [G1 G2]. rewrite !served_app.
    rewrite Ew, Em in G2. destruct K as [K|(s & n & V)].
    + assert (gap m1 a b = gap m a b) as Eg.
      { apply always_now, andb_true_iff in Hal as [Ha1 Hb1]. unfold gap. by rewrite !(k_times _ _ _ K). }
      rewrite !(served_passes _ a1) by apply K. rewrite Eg in *. split; lia.
    + destruct (serves_gap m m1 a1 s n a b V Ha Hb). split; lia.
Qed.

Lemma fair_queue_init o uc w : flow_ok PacketPass o -> o.(state) = STATE_NONE -> o.(handler_done) = false -> 0 <= o.(mtu) <= INT_MAX ->
  0 < w <= INT_MAX -> (uc = true -> o.(handler_requestcancel) = true) ->
  exists m, PacketPassFairQueue_Init o uc w = Some (Some m) /\ core m /\ work m /\ m.(packet_weight) = w /\ m.(output).(mtu) = o.(mtu).
Proof.
  intros F Hs Hh Hm Hw Hc. unfold PacketPassFairQueue_Init, PacketPassInterface_Sender_Init, INT_MAX in *. rewrite (proj2 (Z.ltb_lt _ _)) by lia.
  assert (negb uc || handler_requestcancel o = true) as -> by (destruct uc; [by rewrite Hc|done]).
  rewrite !u64_small, !(proj2 (Z.leb_le _ _)), Hh by (unfold FAIRQUEUE_MAX_TIME; lia). cbn. eexists. split; [done|].
  split; [|split; [by intros _ _ []|done]]. split; cbn; try done.
  - constructor.
  - intros a. rewrite lookup_empty. split; [by intros ?%elem_of_nil|by intros [? ?]].
  - rewrite map_size_empty. unfold Reactor.counts, Pending.INT32_MAX. lia.
  - apply holds_leaf.
  - intros a. rewrite lookup_empty. split; [by intros ?%elem_of_nil|by intros (? & ? & _)].
  - split; [|done]. by destruct F as [F1 F2 F3].
  - unfold FAIRQUEUE_MAX_TIME. lia.
Qed.

(** C17: the fair queue is safe and never idles.  For every output, every number
    of flows and every order of events, no assertion fails; when packets are
    queued, one is being sent or the schedule job is set; the output has
    exactly the packet that the flow being sent was given, and that flow has
    the smallest time; once all flows are freed, the queue can be freed. *)
Theorem fair_queue_safe o uc w evs :
  flow_ok PacketPass o -> o.(state) = STATE_NONE -> o.(handler_done) = false -> 0 <= o.(mtu) <= INT_MAX ->
  0 < w <= INT_MAX -> (uc = true -> o.(handler_requestcancel) = true) ->
  exists m0 m acts, PacketPassFairQueue_Init o uc w = Some (Some m0) /\ run m0 evs = Some (m, acts) /\
    (m.(freeing) = false -> m.(sending_flow) = None -> m.(schedule_job) = false -> forall a, flow_has m a is_queued = false) /\
    (forall a, m.(sending_flow) = Some a -> exists f, m.(flows) !! a = Some f /\
       m.(output).(job_operation_data) = f.(input).(job_operation_data) /\ m.(output).(job_operation_len) = f.(input).(job_operation_len) /\
       forall b, flow_has m b is_queued = true -> time_of m.(flows) a <= time_of m.(flows) b) /\
    (m.(flows) = ∅ -> PacketPassFairQueue_Free m = Some tt).
Proof.
  intros F Hs Hh Hm Hw Hc. destruct (fair_queue_init o uc w F Hs Hh Hm Hw Hc) as (m0 & E0 & C0 & W0 & _).
  destruct (queue_run_ok evs m0 C0 W0) as (m & acts & Er & C & W & _). exists m0, m, acts. split; [done|]. split; [done|]. split; [|split].
  - intros Hf Hn Hj a. destruct (flow_has m a is_queued) eqn:E; [|done]. apply flow_has_true in E as (f & Hf1 & Hq).
    assert (a ∈ elems m.(queued_tree)) as Hin by (apply (c_queued _ C); eauto). assert (m.(schedule_job) = true); [|congruence].
    apply W; [done|done|]. intros El. rewrite El in Hin. by apply elem_of_nil in Hin.
  - intros a Ha. destruct (c_sending _ C a Ha) as (f & Hf & S). exists f. split; [done|]. destruct (s_output _ _ S) as [-> ->]. split; [done|]. split; [done|].
    intros b (g & Hg & Hq)%flow_has_true. unfold time_of. rewrite Hf, Hg. by eapply (s_first _ _ S).
  - intros He. assert (forall {A} (l : list A), (forall x, x ∉ l) -> l = []) as Nil by (intros A [|x l] H; [done|]; by destruct (H x); left).
    unfold PacketPassFairQueue_Free. rewrite (Nil _ m.(flows_list)).
    + assert (CAvl_IsEmpty m.(queued_tree) = true) as ->.
      { assert (elems m.(queued_tree) = []) as El by (apply Nil; intros a (f & Hf & _)%(c_queued _ C); by rewrite He, lookup_empty in Hf).
        destruct m.(queued_tree); [done|]. by destruct (app_eq_nil _ _ El). }
      destruct (previous_flow m) as [p|] eqn:Hp; [destruct (c_previous _ C p Hp) as (_ & f & Hf & _); by rewrite He, lookup_empty in Hf|].
      destruct (sending_flow m) as [s|] eqn:Hsd; [destruct (c_sending _ C s Hsd) as (f & Hf & _); by rewrite He, lookup_empty in Hf|].
      destruct (c_ctr _ C) as [Hct _]. rewrite He, map_size_empty in Hct. unfold Pending.DebugCounter_Free. destruct Hct as [-> | ->]; done.
    + intros a [f Hf]%(c_list _ C). by rewrite He, lookup_empty in Hf.
Qed.

(** C18: the queue is fair to flows that both want to send.  Over any part of a
    run in which two flows always have a packet, are sending, or have just
    sent, what they have sent (with the weight of each packet) differs, up to
    the difference of their times at the start, by no more than that
    difference or one largest packet; this holds across the overflow of the
    times, and nothing the other flows do matters. *)
Theorem fair_queue_fair o uc w evs0 evs a b :
  flow_ok PacketPass o -> o.(state) = STATE_NONE -> o.(handler_done) = false -> 0 <= o.(mtu) <= INT_MAX ->
  0 < w <= INT_MAX -> (uc = true -> o.(handler_requestcancel) = true) ->
  exists m0 m acts0 m' acts, PacketPassFairQueue_Init o uc w = Some (Some m0) /\ run m0 evs0 = Some (m, acts0) /\ run m evs = Some (m', acts) /\
    (always (fun m => backlogged m a && backlogged m b) m evs = true ->
     Z.abs (gap m a b + (served a acts - served b acts)) <= Z.max (Z.abs (gap m a b)) (w + o.(mtu))).
Proof.
  intros F Hs Hh Hm Hw Hc. destruct (fair_queue_init o uc w F Hs Hh Hm Hw Hc) as (m0 & E0 & C0 & W0 & Ew & Em).
  destruct (queue_run_ok evs0 m0 C0 W0) as (m & acts0 & Er & C & W & Ew' & Em').
  destruct (queue_run_ok evs m C W) as (m' & acts & Er' & _). exists m0, m, acts0, m', acts. split; [done|]. split; [done|]. split; [done|]. intros Hal.
  destruct (run_gap a b evs m m' acts C W Hal Er') as [G1 G2]. rewrite Ew', Em', Ew, Em in G2. rewrite G1 in G2. lia.
Qed.

(** Two flows on an output with an MTU of ten bytes. *)
Definition fresh_flow : PacketPassFairQueueFlow := MkQFlow (flow_new 0) 0 false None 0 false.
Definition two_flows : list event := [QFlowInit 1 fresh_flow; QSenderInit 1; QFlowInit 2 fresh_flow; QSenderInit 2].
Definition transmit : list event := [QOutputJob; QDone; QOutputDone].
Definition again (a n : Z) : list event := transmit ++ [QInputDone a; QSend a (Some a) n; QInputJob a; QScheduleJob].

Lemma fair_queue_safe_witness :
  let evs := two_flows ++ [QSend 1 (Some 100) 5; QSend 2 (Some 200) 9; QInputJob 2; QInputJob 1; QRequestCancel 2; QSetBusy 2 true] ++
    transmit ++ [QScheduleJob; QFlowFree 2; QPrepareFree; QFlowFree 1] in
  exists m0 m acts, PacketPassFairQueue_Init (set_handlers true false (flow_new 10)) true 1 = Some (Some m0) /\ run m0 evs = Some (m, acts) /\
    acts = [Passed 2 (Some 200) 9; Served 2 10; Busy 2; Passed 1 (Some 100) 5] /\ PacketPassFairQueue_Free m = Some tt.
Proof.
  intros evs. destruct (fair_queue_safe (set_handlers true false (flow_new 10)) true 1 evs) as (m0 & m & acts & E0 & E1 & _ & _ & Hf);
    [by split|done|done|done|done|done|].
  exists m0, m, acts. split; [exact E0|]. split; [exact E1|]. vm_compute in E0. injection E0 as <-. vm_compute in E1. injection E1 as <- <-.
  split; [reflexivity|]. apply Hf. reflexivity.
Defined.

(** Flow 1 sends packets of five bytes, flow 2 of nine. *)
Lemma fair_queue_fair_witness :
  let evs0 := two_flows ++ [QSend 1 (Some 1) 5; QInputJob 1; QSend 2 (Some 2) 9; QInputJob 2] in
  let evs := again 1 5 ++ again 2 9 ++ again 1 5 ++ again 2 9 ++ again 1 5 ++ again 1 5 in
  exists m0 m acts0 m' acts, PacketPassFairQueue_Init (flow_new 10) false 1 = Some (Some m0) /\ run m0 evs0 = Some (m, acts0) /\
    run m evs = Some (m', acts) /\ served 1 acts = 24 /\ served 2 acts = 20 /\ gap m 1 2 = 0 /\ Z.abs (0 + (24 - 20)) <= Z.max (Z.abs 0) (1 + 10).
Proof.
  intros evs0 evs. destruct (fair_queue_fair (flow_new 10) false 1 evs0 evs 1 2) as (m0 & m & acts0 & m' & acts & E0 & E1 & E2 & Hf);
    [apply flow_new_ok|done|done|done|done|done|].
  exists m0, m, acts0, m', acts. split; [exact E0|]. split; [exact E1|]. split; [exact E2|].
  assert (served 1 acts = 24 /\ served 2 acts = 20 /\ gap m 1 2 = 0 /\ always (fun m => backlogged m 1 && backlogged m 2) m evs = true) as (S1 & S2 & G & Hal).
  { clear Hf. vm_compute in E0. injection E0 as <-. vm_compute in E1. injection E1 as <- <-. vm_compute in E2. injection E2 as <- <-. repeat split; vm_compute; reflexivity. }
  specialize (Hf Hal). rewrite S1, S2, G in Hf. split; [exact S1|]. split; [exact S2|]. split; [exact G|exact Hf].
Defined.

(** The time of a flow is not removed when it stops sending: flow 1 sends three
    packets while nobody else does; when both flows then have packets all the
    time, only flow 2 is served until it has caught up. *)
Theorem idle_flow_overtaken :
  let alone := [QSend 1 (Some 1) 5; QInputJob 1] ++ transmit ++ [QScheduleJob; QInputDone 1] in
  let evs0 := two_flows ++ alone ++ alone ++ alone ++ [QSend 2 (Some 2) 5; QInputJob 2; QSend 1 (Some 1) 5; QInputJob 1] in
  let evs := again 2 5 ++ again 2 5 ++ again 2 5 in
  (LET r <- PacketPassFairQueue_Init (flow_new 10) false 1 in LET m0 <- r in LET (m, _) <- run m0 evs0 in LET (_, acts) <- run m evs in
   Some (always (fun m => backlogged m 1 && backlogged m 2) m evs, served 1 acts, served 2 acts)) = Some (true, 0, 18).
Proof. vm_compute. reflexivity. Qed.

End FairQueue.
