(* ===== verification/SinglePacketBuffer.v ===== *)
(** * One packet between a source and a sink

    Models [flow/SinglePacketBuffer.c] as a machine whose events are the calls
    of the parties around it and the jobs of its interfaces; the buffer's memory
    is part of the state, pointers are offsets into it.  [None] as a result is
    a failed [ASSERT] or an access outside. *)

From S2P Require Import Prelude.
From S2P Require Import LinkedList.
From S2P Require Import Flow.
Import Flow.

Module SinglePacketBuffer.

Record SinglePacketBuffer := MkSingle { input : flow_interface; output : flow_interface; buf : bytes }.
Definition set_input i o := MkSingle i o.(output) o.(buf).
Definition set_output i o := MkSingle o.(input) i o.(buf).
Definition set_buf b o := MkSingle o.(input) o.(output) b.

Definition input_handler_done (o : SinglePacketBuffer) (in_len : Z) : option SinglePacketBuffer :=
  LET i <- PacketPassInterface_Sender_Send o.(output) (Some 0) in_len in Some (set_output i o).

Definition output_handler_done (o : SinglePacketBuffer) : option SinglePacketBuffer :=
  LET i <- PacketRecvInterface_Receiver_Recv o.(input) (Some 0) in Some (set_input i o).

(** [mem] is what [BAlloc] returns; [Some None] is the return value 0. *)
Definition SinglePacketBuffer_Init (i o : flow_interface) (mem : option bytes) : option (option SinglePacketBuffer) :=
  ASSERT i.(mtu) <=? o.(mtu) in
  LET i <- PacketRecvInterface_Receiver_Init i in
  LET o <- PacketPassInterface_Sender_Init o in
  match mem with
  | None => Some None
  | Some mem => LET i <- PacketRecvInterface_Receiver_Recv i (Some 0) in Some (Some (MkSingle i o mem))
  end.

Inductive event := IJobOperation | IWrite (off : Z) (d : bytes) | IDone (d : bytes) | IJobDone | OJobOperation | ODone | OJobDone.
Inductive action := Got (d : bytes) | Delivered (d : bytes).

Definition legal (o : SinglePacketBuffer) (ev : event) : bool :=
  match ev with
  | IJobOperation => o.(input).(job_operation)
  | IWrite off d => is_state STATE_BUSY o.(input) && (0 <=? off) && (off + Z.of_nat (length d) <=? o.(input).(mtu))
  | IDone d => is_state STATE_BUSY o.(input) && (Z.of_nat (length d) <=? o.(input).(mtu))
  | IJobDone => o.(input).(job_done)
  | OJobOperation => o.(output).(job_operation)
  | ODone => is_state STATE_BUSY o.(output)
  | OJobDone => o.(output).(job_done)
  end.

Definition step (o : SinglePacketBuffer) (ev : event) : option (SinglePacketBuffer * list action) :=
  match ev with
  | IJobOperation => LET (i, _) <- _PacketRecvInterface_job_operation o.(input) in Some (set_input i o, [])
  | IWrite off d =>
      LET p <- o.(input).(job_operation_data) in
      LET b <- store (Z.to_nat (p + off)) d o.(buf) in Some (set_buf b o, [])
  | IDone d =>
      LET p <- o.(input).(job_operation_data) in
      LET b <- store (Z.to_nat p) d o.(buf) in
      LET i <- PacketRecvInterface_Done o.(input) (Z.of_nat (length d)) in Some (set_input i (set_buf b o), [Got d])
  | IJobDone => LET (i, n) <- _PacketRecvInterface_job_done o.(input) in LET o <- input_handler_done (set_input i o) n in Some (o, [])
  | OJobOperation => LET (i, _) <- _PacketPassInterface_job_operation o.(output) in Some (set_output i o, [])
  | ODone =>
      LET p <- o.(output).(job_operation_data) in
      let d := take (Z.to_nat o.(output).(job_operation_len)) (drop (Z.to_nat p) o.(buf)) in
      LET i <- PacketPassInterface_Done o.(output) in Some (set_output i o, [Delivered d])
  | OJobDone => LET i <- _PacketPassInterface_job_done o.(output) in LET o <- output_handler_done (set_output i o) in Some (o, [])
  end.

Definition got (a : list action) : list bytes := omap (fun x => match x with Got d => Some d | _ => None end) a.
Definition delivered (a : list action) : list bytes := omap (fun x => match x with Delivered d => Some d | _ => None end) a.

(** Where the buffer is, and the packet in it that has not been delivered. *)
Definition turn (o : SinglePacketBuffer) (cur : option bytes) : Prop :=
  match o.(input).(state) with
  | STATE_NONE => o.(output).(state) <> STATE_NONE /\ o.(output).(job_operation_data) = Some 0 /\
      (o.(output).(state) = STATE_DONE_PENDING /\ cur = None \/
       o.(output).(state) <> STATE_DONE_PENDING /\ exists d, cur = Some d /\ o.(output).(job_operation_len) = Z.of_nat (length d) /\ bytes_at o.(buf) 0 d)
  | STATE_DONE_PENDING => o.(output).(state) = STATE_NONE /\
      exists d, cur = Some d /\ o.(input).(job_done_len) = Z.of_nat (length d) /\ Z.of_nat (length d) <= o.(input).(mtu) /\ bytes_at o.(buf) 0 d
  | _ => o.(output).(state) = STATE_NONE /\ cur = None /\ o.(input).(job_operation_data) = Some 0
  end.

Record inv (o : SinglePacketBuffer) (cur : option bytes) : Prop := {
  v_in : flow_ok PacketRecv o.(input) /\ o.(input).(handler_done) = true;
  v_out : flow_ok PacketPass o.(output) /\ o.(output).(handler_done) = true;
  v_mtu : 0 <= o.(input).(mtu) <= o.(output).(mtu);
  v_buf : Z.of_nat (length o.(buf)) = o.(input).(mtu);
  v_turn : turn o cur;
}.

Definition I (o : SinglePacketBuffer) (h : list action) : Prop := exists cur, inv o cur /\ got h = delivered h ++ option_list cur.

Lemma got_app x y : got (x ++ y) = got x ++ got y.
Proof. apply omap_app. Qed.
Lemma delivered_app x y : delivered (x ++ y) = delivered x ++ delivered y.
Proof. apply omap_app. Qed.

Lemma single_quiet o h cur : inv o cur -> got h = delivered h ++ option_list cur -> I o (h ++ []).
Proof. intros V E. exists cur. by rewrite app_nil_r. Qed.

Lemma single_step_ok o h ev : I o h -> legal o ev = true -> exists o' a, step o ev = Some (o', a) /\ I o' (h ++ a).
Proof.
  intros (cur & [[Fi Ui] [Fo Uo] Hm Hb T] & E) Hl. unfold turn in T. destruct ev; cbn [legal step] in *.
  - pose proof (proj1 (job_of_state _ _ Fi) Hl) as Hs. rewrite Hs in T. unfold _PacketRecvInterface_job_operation. rewrite (proj2 (is_state_true _ _) Hs).
    eexists _, _. split; [done|]. eapply single_quiet; [|done]. split; cbn; try done. split; [by apply run_operation_flow|done].
  - rewrite !andb_true_iff, is_state_true, !Z.leb_le in Hl. destruct Hl as ((Hs & H0) & H1). rewrite Hs in T. destruct T as (To & -> & Ed). rewrite Ed.
    destruct (store_total (Z.to_nat (0 + off)) d o.(buf)) as [b Eb]; [lia|]. rewrite Eb. eexists _, _. split; [done|]. eapply single_quiet; [|done].
    split; cbn; try done; [by rewrite (store_length _ _ _ _ Eb)|]. unfold turn. cbn. by rewrite Hs.
  - rewrite andb_true_iff, is_state_true, Z.leb_le in Hl. destruct Hl as (Hs & H1). rewrite Hs in T. destruct T as (To & -> & Ed). rewrite Ed.
    destruct (store_total (Z.to_nat 0) d o.(buf)) as [b Eb]; [lia|]. rewrite Eb.
    destruct (recv_finish o.(input) (Z.of_nat (length d)) Fi Hs) as (i & -> & F' & S' & M' & H' & D' & L'); [lia|]. eexists _, _. split; [done|].
    exists (Some d). split; [|rewrite got_app, delivered_app, E; cbn; by rewrite !app_nil_r].
    split; cbn; rewrite ?M'; try done; [by rewrite H'|by rewrite (store_length _ _ _ _ Eb)|]. unfold turn. cbn. rewrite S', M', L'. split; [done|]. exists d.
    split; [done|]. split; [done|]. split; [done|]. by eapply bytes_at_stored.
  - pose proof (proj2 (job_of_state _ _ Fi) Hl) as Hs. rewrite Hs in T. destruct T as (To & d & -> & Hd & Hdm & B).
    unfold _PacketRecvInterface_job_done, input_handler_done. rewrite (proj2 (is_state_true _ _) Hs). cbn [output set_input]. rewrite Hd.
    destruct (send_start o.(output) (Some 0) (Z.of_nat (length d)) Fo To Uo) as (j & -> & F' & S' & M' & H' & C' & D' & L'); [split; [lia|done]|].
    eexists _, _. split; [done|]. eapply single_quiet; [|done]. split; cbn; try done; [split; [by apply run_done_flow|done]|by rewrite M'|].
    unfold turn. cbn. rewrite S', D', L'. split; [done|]. split; [done|]. right. split; [done|]. by exists d.
  - pose proof (proj1 (job_of_state _ _ Fo) Hl) as Hs. unfold _PacketPassInterface_job_operation. rewrite (proj2 (is_state_true _ _) Hs).
    eexists _, _. split; [done|]. eapply single_quiet; [|done]. split; cbn; try done; [split; [by apply run_operation_flow|done]|].
    unfold turn. cbn. destruct (state (input o)); rewrite Hs in T; try (by destruct T). destruct T as (_ & T2 & [[? _]|[_ T3]]); [done|].
    split; [done|]. split; [done|]. by right.
  - apply is_state_true in Hl. destruct (state (input o)) eqn:Hs; rewrite Hl in T; try (by destruct T).
    destruct T as (_ & Ed & [[? _]|[_ (d & -> & Hn & B)]]); [done|]. rewrite Ed, Hn. 
    destruct (done_finish o.(output) Fo Hl) as (j & -> & F' & S' & M' & H' & C' & D' & L'). eexists _, _. split; [done|].
    exists None. split; [split; cbn; rewrite ?M', ?H'; try done|].
    + unfold turn. cbn. rewrite Hs, S', D', Ed. split; [done|]. split; [done|]. by left.
    + rewrite got_app, delivered_app, E. cbn. rewrite !app_nil_r. change (option_list (Some d)) with [d].
      by rewrite Nat2Z.id, (bytes_at_read _ _ _ B).
  - pose proof (proj2 (job_of_state _ _ Fo) Hl) as Hs. destruct (state (input o)) eqn:Hi; rewrite Hs in T; try (by destruct T).
    destruct T as (_ & _ & [[_ ->]|[? _]]); [|done]. unfold _PacketPassInterface_job_done, output_handler_done. rewrite (proj2 (is_state_true _ _) Hs). cbn [input set_output].
    destruct (recv_start o.(input) (Some 0) Fi Hi Ui) as (i & -> & F' & S' & M' & H' & D'); [done|]. eexists _, _. split; [done|].
    eapply single_quiet; [|done]. split; cbn; rewrite ?M'; try done; [split; [by apply run_done_flow|done]|]. unfold turn. cbn. by rewrite S'.
Qed.

(** One buffer, one packet: whatever the order of events, no assertion fails;
    the packets received are the packets delivered, in order, and the one in
    the buffer; and exactly one side has the buffer. *)
Theorem single_buffer_relays i o mem evs :
  flow_ok PacketRecv i -> i.(state) = STATE_NONE -> i.(handler_done) = false ->
  flow_ok PacketPass o -> o.(state) = STATE_NONE -> o.(handler_done) = false ->
  0 <= i.(mtu) <= o.(mtu) -> Z.of_nat (length mem) = i.(mtu) ->
  exists b b' acts cur, SinglePacketBuffer_Init i o (Some mem) = Some (Some b) /\ machine_run legal step b evs = Some (b', acts) /\
    got acts = delivered acts ++ option_list cur /\ (b'.(input).(state) = STATE_NONE <-> b'.(output).(state) <> STATE_NONE).
Proof.
  intros Fi Si Ui Fo So Uo Hm Hl. unfold SinglePacketBuffer_Init, PacketRecvInterface_Receiver_Init, PacketPassInterface_Sender_Init.
  rewrite (proj2 (Z.leb_le _ _)), Ui, Uo by lia. cbn [negb].
  destruct (recv_start (set_handlers i.(handler_requestcancel) true i) (Some 0)) as (i' & -> & F' & S' & M' & H' & D');
    [by destruct Fi as [F1 F2 F3]|done|done|done|].
  eexists _. destruct (machine_invariant legal step I single_step_ok evs (MkSingle i' (set_handlers o.(handler_requestcancel) true o) mem) []) as (b' & acts & E & cur & V & Eg).
  - exists None. split; [|done]. split; cbn; rewrite ?M'; try done; [by destruct Fo as [F1 F2 F3]|]. unfold turn. cbn. by rewrite S'.
  - exists b', acts, cur. split; [done|]. split; [done|]. split; [done|]. destruct V as [_ _ _ _ T]. unfold turn in T.
    destruct (state (input b')); naive_solver.
Qed.
End SinglePacketBuffer.
