(* ===== verification/PacketStreamSender.v ===== *)
(** * A packet as a stream

    Models [flow/PacketStreamSender.c]: packets handed to the input are passed
    to a stream, piece by piece.  Events are the calls of the parties around it
    and the jobs of its interfaces.  [None] as a result is a failed [ASSERT] or
    an access outside the packet. *)

From S2P Require Import Prelude.
From S2P Require Import LinkedList.
From S2P Require Import Flow.
Import Flow.

Module PacketStreamSender.

Record PacketStreamSender := MkSender { input : flow_interface; output : flow_interface; in_len : Z; in_ : option Z; in_used : Z }.
Definition set_input i s := MkSender i s.(output) s.(in_len) s.(in_) s.(in_used).
Definition set_output i s := MkSender s.(input) i s.(in_len) s.(in_) s.(in_used).
Definition set_packet l p u s := MkSender s.(input) s.(output) l p u.

Definition send_data (s : PacketStreamSender) : option PacketStreamSender :=
  ASSERT 0 <=? s.(in_len) in
  if s.(in_used) <? s.(in_len) then
    LET i <- StreamPassInterface_Sender_Send s.(output) (option_map (Z.add s.(in_used)) s.(in_)) (s.(in_len) - s.(in_used)) in
    Some (set_output i s)
  else
    LET i <- PacketPassInterface_Done s.(input) in
    Some (set_input i (set_packet (-1) s.(in_) s.(in_used) s)).

Definition input_handler_send (s : PacketStreamSender) (data : option Z) (data_len : Z) : option PacketStreamSender :=
  ASSERT s.(in_len) =? -1 in
  ASSERT 0 <=? data_len in
  send_data (set_packet data_len data 0 s).

Definition output_handler_done (s : PacketStreamSender) (data_len : Z) : option PacketStreamSender :=
  ASSERT 0 <=? s.(in_len) in
  ASSERT 0 <? data_len in
  ASSERT data_len <=? s.(in_len) - s.(in_used) in
  send_data (set_packet s.(in_len) s.(in_) (s.(in_used) + data_len) s).

(** [p] and [u] are what [in] and [in_used] hold before. *)
Definition PacketStreamSender_Init (output : flow_interface) (mtu : Z) (p : option Z) (u : Z) : option PacketStreamSender :=
  ASSERT 0 <=? mtu in
  LET i <- PacketPassInterface_Init mtu in
  LET o <- StreamPassInterface_Sender_Init output in
  Some (MkSender i o (-1) p u).

(** The user of the input has the packet in memory until it is done. *)
Inductive event := IInit | ISend (d : bytes) | IJobOperation | IJobDone | OJobOperation | ODone (n : Z) | OJobDone.
Inductive action := Wrote (d : bytes) | Finished (d : bytes).

Definition legal (x : PacketStreamSender * bytes) (ev : event) : bool :=
  let (s, pkt) := x in
  match ev with
  | IInit => negb s.(input).(handler_done)
  | ISend d => is_state STATE_NONE s.(input) && s.(input).(handler_done) && (Z.of_nat (length d) <=? s.(input).(mtu))
  | IJobOperation => s.(input).(job_operation)
  | IJobDone => s.(input).(job_done)
  | OJobOperation => s.(output).(job_operation)
  | ODone n => is_state STATE_BUSY s.(output) && (0 <? n) && (n <=? s.(output).(job_operation_len))
  | OJobDone => s.(output).(job_done)
  end.

Definition step (x : PacketStreamSender * bytes) (ev : event) : option ((PacketStreamSender * bytes) * list action) :=
  let (s, pkt) := x in
  match ev with
  | IInit => LET i <- PacketPassInterface_Sender_Init s.(input) in Some ((set_input i s, pkt), [])
  | ISend d => LET i <- PacketPassInterface_Sender_Send s.(input) (Some 0) (Z.of_nat (length d)) in Some ((set_input i s, d), [])
  | IJobOperation =>
      LET (i, (p, n)) <- _PacketPassInterface_job_operation s.(input) in
      LET s <- input_handler_send (set_input i s) p n in Some ((s, pkt), [])
  | IJobDone => LET i <- _PacketPassInterface_job_done s.(input) in Some ((set_input i s, pkt), [Finished pkt])
  | OJobOperation => LET (o, _) <- _StreamPassInterface_job_operation s.(output) in Some ((set_output o s, pkt), [])
  | ODone n =>
      LET p <- s.(output).(job_operation_data) in
      ASSERT (0 <=? p) && (p + n <=? Z.of_nat (length pkt)) in
      LET o <- StreamPassInterface_Done s.(output) n in
      Some ((set_output o s, pkt), [Wrote (take (Z.to_nat n) (drop (Z.to_nat p) pkt))])
  | OJobDone =>
      LET (o, n) <- _StreamPassInterface_job_done s.(output) in
      LET s <- output_handler_done (set_output o s) n in Some ((s, pkt), [])
  end.

Definition wrote (a : list action) : bytes := concat (omap (fun x => match x with Wrote d => Some d | _ => None end) a).
Definition finished (a : list action) : list bytes := omap (fun x => match x with Finished d => Some d | _ => None end) a.

(** How much of the packet is written, and where the sender is. *)
Definition progress (s : PacketStreamSender) (pkt : bytes) (w : Z) : Prop :=
  match s.(input).(state) with
  | STATE_NONE => s.(in_len) = -1 /\ s.(output).(state) = STATE_NONE /\ w = 0
  | STATE_OPERATION_PENDING => s.(in_len) = -1 /\ s.(output).(state) = STATE_NONE /\ w = 0 /\
      s.(input).(job_operation_data) = Some 0 /\ s.(input).(job_operation_len) = Z.of_nat (length pkt)
  | STATE_BUSY => s.(in_len) = Z.of_nat (length pkt) /\ s.(in_) = Some 0 /\ 0 <= s.(in_used) < s.(in_len) /\
      s.(output).(state) <> STATE_NONE /\ s.(output).(job_operation_data) = Some s.(in_used) /\
      s.(output).(job_operation_len) = s.(in_len) - s.(in_used) /\
      (s.(output).(state) <> STATE_DONE_PENDING /\ w = s.(in_used) \/
       s.(output).(state) = STATE_DONE_PENDING /\ w = s.(in_used) + s.(output).(job_done_len) /\ 0 < s.(output).(job_done_len) <= s.(in_len) - s.(in_used))
  | STATE_DONE_PENDING => s.(in_len) = -1 /\ s.(output).(state) = STATE_NONE /\ w = Z.of_nat (length pkt)
  end.

Record inv (s : PacketStreamSender) (pkt : bytes) (w : Z) : Prop := {
  v_in : flow_ok PacketPass s.(input) /\ 0 <= s.(input).(mtu);
  v_out : flow_ok StreamPass s.(output) /\ s.(output).(handler_done) = true;
  v_progress : progress s pkt w;
}.

Definition I (x : PacketStreamSender * bytes) (h : list action) : Prop :=
  exists w, inv x.1 x.2 w /\ wrote h = concat (finished h) ++ take (Z.to_nat w) x.2.

Lemma wrote_app x y : wrote (x ++ y) = wrote x ++ wrote y.
Proof. unfold wrote. by rewrite omap_app, concat_app. Qed.
Lemma finished_app x y : finished (x ++ y) = finished x ++ finished y.
Proof. apply omap_app. Qed.

(** [send_data] goes on with the packet or finishes it. *)
Lemma send_data_ok s pkt u : flow_ok PacketPass s.(input) -> 0 <= s.(input).(mtu) -> s.(input).(state) = STATE_BUSY ->
  flow_ok StreamPass s.(output) -> s.(output).(handler_done) = true -> s.(output).(state) = STATE_NONE ->
  s.(in_len) = Z.of_nat (length pkt) -> s.(in_) = Some 0 -> s.(in_used) = u -> 0 <= u <= s.(in_len) ->
  exists s', send_data s = Some s' /\ inv s' pkt u.
Proof.
  intros Fi Hm Si Fo Uo So Hl Hp <- Hu. unfold send_data. rewrite (proj2 (Z.leb_le _ _)) by lia. destruct (Z.ltb_spec s.(in_used) s.(in_len)).
  - rewrite Hp. cbn [option_map]. rewrite Z.add_0_r.
    destruct (stream_start s.(output) (Some s.(in_used)) (s.(in_len) - s.(in_used)) Fo So Uo) as (o & -> & F' & S' & H' & D' & L'); [lia|done|].
    eexists. split; [done|]. split; cbn; try done. unfold progress. cbn. rewrite Si, S', D', L'. repeat split; try done; try lia. by left.
  - destruct (done_finish s.(input) Fi Si) as (i & -> & F' & S' & M' & H' & C' & D' & L'). eexists. split; [done|]. split; cbn; [by rewrite M'|done|].
    unfold progress. cbn. rewrite S'. repeat split; try done; lia.
Qed.

Lemma sender_quiet s pkt h w : inv s pkt w -> wrote h = concat (finished h) ++ take (Z.to_nat w) pkt -> I (s, pkt) (h ++ []).
Proof. intros V E. exists w. by rewrite app_nil_r. Qed.

Lemma sender_step_ok x h ev : I x h -> legal x ev = true -> exists x' a, step x ev = Some (x', a) /\ I x' (h ++ a).
Proof.
  destruct x as [s pkt]. intros (w & [[Fi Hm] [Fo Uo] P] & E) Hl. cbn [fst snd] in *. unfold progress in P. destruct ev; cbn [legal step] in *.
  - apply negb_true_iff in Hl. unfold PacketPassInterface_Sender_Init. rewrite Hl. eexists _, _. split; [done|]. eapply sender_quiet; [|done].
    split; cbn; try done. by destruct Fi as [F1 F2 F3].
  - rewrite !andb_true_iff, is_state_true, Z.leb_le in Hl. destruct Hl as ((Hs & Hh) & Hd). rewrite Hs in P. destruct P as (P1 & P2 & ->).
    destruct (send_start s.(input) (Some 0) (Z.of_nat (length d)) Fi Hs Hh) as (i & -> & F' & S' & M' & H' & C' & D' & L'); [split; [lia|done]|].
    eexists _, _. split; [done|]. eapply (sender_quiet _ _ _ 0); [|done]. split; cbn; rewrite ?M'; try done. unfold progress. cbn. by rewrite S', D', L'.
  - pose proof (proj1 (job_of_state _ _ Fi) Hl) as Hs. rewrite Hs in P. destruct P as (P1 & P2 & -> & P3 & P4).
    unfold _PacketPassInterface_job_operation, input_handler_send. rewrite (proj2 (is_state_true _ _) Hs). cbn [in_len set_input]. rewrite P1, P3, P4.
    cbn [Z.eqb Pos.eqb]. rewrite (proj2 (Z.leb_le _ _)) by lia.
    destruct (send_data_ok (set_packet (Z.of_nat (length pkt)) (Some 0) 0 (set_input (run_operation s.(input)) s)) pkt 0) as (s' & -> & V);
      cbn; try done; [by apply run_operation_flow|lia|]. eexists _, _. split; [done|]. by eapply sender_quiet.
  - pose proof (proj2 (job_of_state _ _ Fi) Hl) as Hs. rewrite Hs in P. destruct P as (P1 & P2 & ->). unfold _PacketPassInterface_job_done.
    rewrite (proj2 (is_state_true _ _) Hs). eexists _, _. split; [done|]. exists 0. split; [split; cbn; try done; split; [by apply run_done_flow|done]|].
    rewrite wrote_app, finished_app, concat_app, E. cbn. by rewrite Nat2Z.id, firstn_all, !app_nil_r.
  - pose proof (proj1 (job_of_state _ _ Fo) Hl) as Hs. unfold _StreamPassInterface_job_operation. rewrite (proj2 (is_state_true _ _) Hs).
    eexists _, _. split; [done|]. eapply sender_quiet; [|done]. split; cbn; try done; [split; [by apply run_operation_flow|done]|]. unfold progress. cbn.
    destruct (state (input s)); rewrite Hs in P; naive_solver.
  - rewrite !andb_true_iff, is_state_true, Z.ltb_lt, Z.leb_le in Hl. destruct Hl as ((Hs & H0) & Hn).
    destruct (state (input s)) eqn:Hi; rewrite Hs in P; try naive_solver. destruct P as (P1 & P2 & P3 & _ & P5 & P6 & [[_ ->]|[? _]]); [|done].
    rewrite P5. rewrite !(proj2 (Z.leb_le _ _)) by lia. cbn [andb].
    destruct (stream_finish s.(output) n Fo Hs) as (o & -> & F' & S' & H' & D' & L' & N'); [lia|]. eexists _, _. split; [done|].
    exists (s.(in_used) + n). split.
    + split; cbn; rewrite ?H'; try done. unfold progress. cbn. rewrite Hi, S', D', L', N', P5. repeat split; try done; try lia. right. split; [done|]. lia.
    + rewrite wrote_app, finished_app, E. cbn [finished omap list_omap]. rewrite app_nil_r, <- app_assoc. f_equal. cbn. rewrite app_nil_r.
      rewrite Z2Nat.inj_add by lia. by rewrite take_take_drop.
  - pose proof (proj2 (job_of_state _ _ Fo) Hl) as Hs. destruct (state (input s)) eqn:Hi; rewrite Hs in P; try naive_solver.
    destruct P as (P1 & P2 & P3 & _ & P5 & P6 & [[? _]|(_ & -> & Pn)]); [done|]. unfold _StreamPassInterface_job_done, output_handler_done.
    rewrite (proj2 (is_state_true _ _) Hs). cbn [in_len in_used set_output in_]. rewrite !(proj2 (Z.leb_le _ _)), (proj2 (Z.ltb_lt _ _)) by lia.
    destruct (send_data_ok (set_packet s.(in_len) s.(in_) (s.(in_used) + job_done_len (output s)) (set_output (run_done s.(output)) s)) pkt
      (s.(in_used) + job_done_len (output s))) as (s' & -> & V); cbn; try done; [by apply run_done_flow|lia|]. eexists _, _. split; [done|]. by eapply sender_quiet.
Qed.

(** Packets become a stream unchanged.  However the stream takes the data,
    in pieces of any size, no assertion fails and what it has taken is the
    finished packets one after the other, followed by a part of the next one;
    a packet is reported done exactly when the stream has taken all of it. *)
Theorem stream_sender_exact o mt p u evs :
  flow_ok StreamPass o -> o.(state) = STATE_NONE -> o.(handler_done) = false -> 0 <= mt ->
  exists s s' pkt acts rest, PacketStreamSender_Init o mt p u = Some s /\
    machine_run legal step (s, []) evs = Some ((s', pkt), acts) /\ wrote acts = concat (finished acts) ++ rest /\ rest `prefix_of` pkt /\
    (s'.(input).(state) = STATE_NONE -> rest = []) /\ (s'.(input).(state) = STATE_DONE_PENDING -> rest = pkt) /\
    (s'.(input).(state) = STATE_BUSY -> s'.(output).(state) <> STATE_NONE).
Proof.
  intros F So Uo Hm. unfold PacketStreamSender_Init, PacketPassInterface_Init, StreamPassInterface_Sender_Init.
  rewrite (proj2 (Z.leb_le _ _)), Uo by done. cbn [negb]. set (s := MkSender _ _ _ _ _).
  destruct (machine_invariant legal step I sender_step_ok evs (s, []) []) as ([s' pkt] & acts & E & w & V & Ew).
  - exists 0. split; [|done]. split; cbn; try done. by destruct F as [F1 F2 F3].
  - exists s, s', pkt, acts, (take (Z.to_nat w) pkt). split; [done|]. split; [done|]. split; [done|]. split; [apply prefix_take|].
    destruct V as [_ _ P]. unfold progress in P. cbn [fst snd] in P. split; [|split]; intros Hs; rewrite Hs in P.
    + by destruct P as (_ & _ & ->).
    + destruct P as (_ & _ & ->). by rewrite Nat2Z.id, firstn_all.
    + by destruct P as (_ & _ & _ & ? & _).
Qed.

Lemma stream_sender_exact_witness :
  let evs := [IInit; ISend [1; 2; 3; 4]; IJobOperation; OJobOperation; ODone 3; OJobDone; OJobOperation; ODone 1; OJobDone; IJobDone;
              ISend [5; 6]; IJobOperation; OJobOperation; ODone 1] in
  exists s s' pkt acts rest, PacketStreamSender_Init (flow_new 0) 10 None 7 = Some s /\
    machine_run legal step (s, []) evs = Some ((s', pkt), acts) /\ wrote acts = concat (finished acts) ++ rest /\
    wrote acts = [1; 2; 3; 4; 5] /\ finished acts = [[1; 2; 3; 4]] /\ rest = [5].
Proof.
  intros evs. destruct (stream_sender_exact (flow_new 0) 10 None 7 evs) as (s & s' & pkt & acts & rest & E1 & E2 & E3 & _);
    [apply flow_new_ok|done|done|done|]. exists s, s', pkt, acts, rest. split; [exact E1|]. split; [exact E2|]. split; [exact E3|].
  vm_compute in E1. injection E1 as <-. vm_compute in E2. injection E2 as <- <- <-. vm_compute in E3. split; [reflexivity|]. split; [reflexivity|].
  by injection E3 as <-.
Defined.
End PacketStreamSender.
