(* ===== verification/PacketPassConnector.v ===== *)
(** * An output that can be exchanged

    Models [flow/PacketPassConnector.c]: packets of the input wait for an output
    to be connected.  Events are the calls of the parties around it and the jobs
    of its interfaces.  [None] as a result is a failed [ASSERT]. *)

From S2P Require Import Prelude.
From S2P Require Import LinkedList.
From S2P Require Import Flow.
Import Flow.

Module PacketPassConnector.

Record PacketPassConnector := MkConnector { input : flow_interface; input_mtu : Z; in_len : Z; in_ : option Z; output : option flow_interface }.
Definition set_input i c := MkConnector i c.(input_mtu) c.(in_len) c.(in_) c.(output).
Definition set_packet l p c := MkConnector c.(input) c.(input_mtu) l p c.(output).
Definition set_output o c := MkConnector c.(input) c.(input_mtu) c.(in_len) c.(in_) o.

Definition input_handler_send (c : PacketPassConnector) (data : option Z) (data_len : Z) : option PacketPassConnector :=
  ASSERT 0 <=? data_len in
  ASSERT data_len <=? c.(input_mtu) in
  ASSERT c.(in_len) =? -1 in
  let c := set_packet data_len data c in
  match c.(output) with
  | Some o => LET o <- PacketPassInterface_Sender_Send o c.(in_) c.(in_len) in Some (set_output (Some o) c)
  | None => Some c
  end.

Definition output_handler_done (c : PacketPassConnector) : option PacketPassConnector :=
  ASSERT 0 <=? c.(in_len) in
  LET _ <- c.(output) in
  let c := set_packet (-1) c.(in_) c in
  LET i <- PacketPassInterface_Done c.(input) in Some (set_input i c).

(** [p] is what [in] holds before. *)
Definition PacketPassConnector_Init (mtu : Z) (p : option Z) : option PacketPassConnector :=
  ASSERT 0 <=? mtu in
  LET i <- PacketPassInterface_Init mtu in Some (MkConnector i mtu (-1) p None).

Definition PacketPassConnector_ConnectOutput (c : PacketPassConnector) (o : flow_interface) : option PacketPassConnector :=
  ASSERT bool_decide (c.(output) = None) in
  ASSERT c.(input_mtu) <=? o.(mtu) in
  LET o <- PacketPassInterface_Sender_Init o in
  if 0 <=? c.(in_len) then LET o <- PacketPassInterface_Sender_Send o c.(in_) c.(in_len) in Some (set_output (Some o) c)
  else Some (set_output (Some o) c).

Definition PacketPassConnector_DisconnectOutput (c : PacketPassConnector) : option PacketPassConnector :=
  LET _ <- c.(output) in Some (set_output None c).

Inductive event := IInit | ISend (p : option Z) (n : Z) | IJobOperation | IJobDone
  | Connect (o : flow_interface) | Disconnect | OJobOperation | ODone | OJobDone.
Inductive action := Sent (p : option Z) (n : Z) | Delivered (p : option Z) (n : Z) | Finished (p : option Z) (n : Z).

(** An output that is connected is fresh and large enough. *)
Definition fresh_output (c : PacketPassConnector) (o : flow_interface) : bool :=
  is_state STATE_NONE o && negb o.(handler_done) && negb o.(job_operation) && negb o.(job_done) && negb o.(job_requestcancel) && (c.(input_mtu) <=? o.(mtu)).

Definition legal (c : PacketPassConnector) (ev : event) : bool :=
  match ev with
  | IInit => negb c.(input).(handler_done)
  | ISend p n => is_state STATE_NONE c.(input) && c.(input).(handler_done) && (0 <=? n) && (n <=? c.(input_mtu)) && (negb (0 <? n) || negb (bool_decide (p = None)))
  | IJobOperation => c.(input).(job_operation)
  | IJobDone => c.(input).(job_done)
  | Connect o => bool_decide (c.(output) = None) && fresh_output c o
  | Disconnect => negb (bool_decide (c.(output) = None))
  | OJobOperation => match c.(output) with Some o => o.(job_operation) | None => false end
  | ODone => match c.(output) with Some o => is_state STATE_BUSY o | None => false end
  | OJobDone => match c.(output) with Some o => o.(job_done) | None => false end
  end.

Definition step (c : PacketPassConnector) (ev : event) : option (PacketPassConnector * list action) :=
  match ev with
  | IInit => LET i <- PacketPassInterface_Sender_Init c.(input) in Some (set_input i c, [])
  | ISend p n => LET i <- PacketPassInterface_Sender_Send c.(input) p n in Some (set_input i c, [Sent p n])
  | IJobOperation =>
      LET (i, (p, n)) <- _PacketPassInterface_job_operation c.(input) in LET c <- input_handler_send (set_input i c) p n in Some (c, [])
  | IJobDone =>
      LET i <- _PacketPassInterface_job_done c.(input) in
      Some (set_input i c, [Finished c.(input).(job_operation_data) c.(input).(job_operation_len)])
  | Connect o => LET c <- PacketPassConnector_ConnectOutput c o in Some (c, [])
  | Disconnect => LET c <- PacketPassConnector_DisconnectOutput c in Some (c, [])
  | OJobOperation => LET o <- c.(output) in LET (o, _) <- _PacketPassInterface_job_operation o in Some (set_output (Some o) c, [])
  | ODone =>
      LET o <- c.(output) in
      LET o' <- PacketPassInterface_Done o in Some (set_output (Some o') c, [Delivered o.(job_operation_data) o.(job_operation_len)])
  | OJobDone => LET o <- c.(output) in LET o <- _PacketPassInterface_job_done o in LET c <- output_handler_done (set_output (Some o) c) in Some (c, [])
  end.

Definition sent (a : list action) := omap (fun x => match x with Sent p n => Some (p, n) | _ => None end) a.
Definition delivered (a : list action) := omap (fun x => match x with Delivered p n => Some (p, n) | _ => None end) a.
Definition finished (a : list action) := omap (fun x => match x with Finished p n => Some (p, n) | _ => None end) a.

(** The output works on the packet of the input, if there is one. *)
Definition output_ok (c : PacketPassConnector) (o : flow_interface) : Prop :=
  flow_ok PacketPass o /\ o.(handler_done) = true /\ c.(input_mtu) <= o.(mtu) /\
  (if 0 <=? c.(in_len) then o.(state) <> STATE_NONE /\ o.(job_operation_data) = c.(in_) /\ o.(job_operation_len) = c.(in_len)
   else o.(state) = STATE_NONE).

Record inv (c : PacketPassConnector) : Prop := {
  v_in : flow_ok PacketPass c.(input) /\ c.(input).(mtu) = c.(input_mtu) /\ 0 <= c.(input_mtu);
  v_args : c.(input).(state) <> STATE_NONE -> packet_ok c.(input_mtu) c.(input).(job_operation_data) c.(input).(job_operation_len);
  v_packet : if bool_decide (c.(input).(state) = STATE_BUSY) then c.(in_) = c.(input).(job_operation_data) /\ c.(in_len) = c.(input).(job_operation_len)
             else c.(in_len) = -1;
  v_out : forall o, c.(output) = Some o -> output_ok c o;
}.

(** The packet on its way, and whether the output is known to have it. *)
Definition pending (c : PacketPassConnector) : list (option Z * Z) :=
  if bool_decide (c.(input).(state) = STATE_NONE) then [] else [(c.(input).(job_operation_data), c.(input).(job_operation_len))].
Definition passed (c : PacketPassConnector) : bool :=
  is_state STATE_DONE_PENDING c.(input) || match c.(output) with Some o => is_state STATE_DONE_PENDING o | None => false end.

Definition I (c : PacketPassConnector) (h : list action) : Prop :=
  inv c /\ sent h = finished h ++ pending c /\ (finished h ++ (if passed c then pending c else [])) `sublist_of` delivered h.

Lemma connector_apps x y :
  sent (x ++ y) = sent x ++ sent y /\ delivered (x ++ y) = delivered x ++ delivered y /\ finished (x ++ y) = finished x ++ finished y.
Proof. unfold sent, delivered, finished. by rewrite !omap_app. Qed.

(** Starting the packet of the input on an output that waits for one. *)
Lemma connector_start c o : flow_ok PacketPass o -> o.(handler_done) = true -> o.(state) = STATE_NONE -> c.(input_mtu) <= o.(mtu) ->
  packet_ok c.(input_mtu) c.(in_) c.(in_len) ->
  exists o', PacketPassInterface_Sender_Send o c.(in_) c.(in_len) = Some o' /\ output_ok c o' /\ o'.(state) = STATE_OPERATION_PENDING.
Proof.
  intros F H S M [P1 P2]. destruct (send_start o c.(in_) c.(in_len) F S H) as (o' & -> & F' & S' & M' & H' & C' & D' & L'); [split; [lia|done]|].
  exists o'. split; [done|]. split; [|done]. split; [done|]. split; [done|]. split; [lia|]. rewrite (proj2 (Z.leb_le _ _)) by lia. by rewrite S'.
Qed.

Lemma connector_quiet c c' h : inv c' -> pending c' = pending c -> (passed c' = true -> passed c = true) ->
  I c h -> I c' (h ++ []).
Proof.
  intros V Ep Hp (_ & E & S). rewrite app_nil_r. split; [done|]. split; [by rewrite Ep|]. rewrite Ep. destruct (passed c'); [by rewrite Hp in S|].
  etrans; [|exact S]. apply sublist_app; [done|apply sublist_nil_l].
Qed.

(** The output has something to do only while the input waits for it. *)
Lemma output_busy c o : inv c -> c.(output) = Some o -> o.(state) <> STATE_NONE ->
  c.(input).(state) = STATE_BUSY /\ 0 <= c.(in_len) /\ o.(job_operation_data) = c.(input).(job_operation_data) /\ o.(job_operation_len) = c.(input).(job_operation_len).
Proof.
  intros [Vi Va Vp Vo] Eo Hs. destruct (Vo o Eo) as (_ & _ & _ & T). destruct (Z.leb_spec 0 c.(in_len)); [|by destruct Hs].
  case_bool_decide as B; [|lia]. destruct T as (_ & -> & ->), Vp as [E1 E2]. by rewrite <- E1, <- E2.
Qed.

Lemma connector_input_operation c h : I c h -> legal c IJobOperation = true -> exists c' a, step c IJobOperation = Some (c', a) /\ I c' (h ++ a).
Proof.
  intros HI Hl. pose proof HI as ([[Fi [Hm H0]] Va Vp Vo] & E & S). cbn [legal step] in *.
  pose proof (proj1 (job_of_state _ _ Fi) Hl) as Hs. rewrite Hs in *. pose proof (Va ltac:(done)) as P. pose proof P as [P1 P2].
  unfold _PacketPassInterface_job_operation, input_handler_send. rewrite (proj2 (is_state_true _ _) Hs). cbn [in_len input_mtu set_input].
  rewrite bool_decide_eq_false_2 in Vp by done. rewrite Vp, !(proj2 (Z.leb_le _ _)) by lia. cbn [Z.eqb Pos.eqb output set_packet set_input].
  set (c1 := set_packet _ _ _). assert (inv (set_output None c1)) as [Wi Wa Wp _].
  { split; cbn; try done. split; [by apply run_operation_flow|done]. }
  assert (pending c1 = pending c) as Ep by (unfold pending; cbn; by rewrite Hs). destruct (c.(output)) as [o|] eqn:Eo.
  - destruct (Vo o eq_refl) as (F1 & F2 & F3 & F4). rewrite Vp in F4. cbn in F4. destruct (connector_start c1 o F1 F2 F4 F3 P) as (o' & -> & Ok & So).
    eexists _, _. split; [done|]. apply (connector_quiet c); [|exact Ep| |done].
    + split; cbn; try done. by intros ? [= <-].
    + unfold passed, is_state. cbn. by rewrite So.
  - eexists _, _. split; [done|]. apply (connector_quiet c); [|exact Ep|unfold passed, is_state; cbn; by rewrite Eo|done].
    split; cbn; try done. by rewrite Eo.
Qed.

Lemma connector_input_done c h : I c h -> legal c IJobDone = true -> exists c' a, step c IJobDone = Some (c', a) /\ I c' (h ++ a).
Proof.
  intros ([[Fi [Hm H0]] Va Vp Vo] & E & S) Hl. cbn [legal step] in *. pose proof (proj2 (job_of_state _ _ Fi) Hl) as Hs.
  unfold _PacketPassInterface_job_done. rewrite (proj2 (is_state_true _ _) Hs). eexists _, _. split; [done|].
  destruct (connector_apps h [Finished c.(input).(job_operation_data) c.(input).(job_operation_len)]) as (A1 & A2 & A3).
  unfold I. rewrite A1, A2, A3. unfold passed, pending, is_state in E, S. rewrite Hs in E, S. cbn in E, S. split.
  - split; cbn; try done; [split; [by apply run_done_flow|done]|]. by rewrite Hs in Vp.
  - unfold pending. cbn. rewrite !app_nil_r, E. split; [done|]. rewrite bool_decide_eq_true_2 by done.
    destruct (passed _); by rewrite app_nil_r.
Qed.

Lemma connector_send c h p n : I c h -> legal c (ISend p n) = true -> exists c' a, step c (ISend p n) = Some (c', a) /\ I c' (h ++ a).
Proof.
  intros ([[Fi [Hm H0]] Va Vp Vo] & E & S) Hl. cbn [legal step] in *.
  rewrite !andb_true_iff, is_state_true, !Z.leb_le in Hl. destruct Hl as ((((Hs & Hh) & Hn) & Hn') & Hp).
  assert (packet_ok c.(input_mtu) p n) as P. { split; [lia|]. intros Hz ->. rewrite (proj2 (Z.ltb_lt _ _)) in Hp by done. done. }
  destruct (send_start c.(input) p n Fi Hs Hh) as (i & -> & F' & S' & M' & H' & C' & D' & L'); [by rewrite Hm|]. eexists _, _. split; [done|].
  destruct (connector_apps h [Sent p n]) as (A1 & A2 & A3). unfold I. rewrite A1, A2, A3. rewrite Hs in Vp. cbn in Vp. unfold passed, pending in *. rewrite Hs in *.
  cbn in E, S. cbn. rewrite S', D', L', !app_nil_r in *. rewrite E. cbn. split; [|split; [done|]].
  - split; cbn; rewrite ?M', ?S', ?D', ?L'; try done.
  - destruct (c.(output)) as [o|] eqn:Eo; cbn.
    + destruct (Vo o eq_refl) as (_ & _ & _ & T). rewrite Vp in T. cbn in T. unfold is_state. rewrite T, S'. cbn. rewrite app_nil_r. by destruct (_ || _) in S; rewrite ?app_nil_r in S.
    + unfold is_state. rewrite S'. cbn. rewrite app_nil_r. by destruct (_ || _) in S; rewrite ?app_nil_r in S.
Qed.

(** Connecting starts the packet that waits, disconnecting forgets the output. *)
Lemma connector_connect c h o : I c h -> legal c (Connect o) = true -> exists c' a, step c (Connect o) = Some (c', a) /\ I c' (h ++ a).
Proof.
  intros HI Hl. pose proof HI as ([[Fi [Hm H0]] Va Vp Vo] & E & S). cbn [legal step] in *. unfold fresh_output in Hl.
  rewrite !andb_true_iff, is_state_true, !negb_true_iff, Z.leb_le in Hl. destruct Hl as (Ho & ((((Hs & Hh) & Ho1) & Ho2) & Ho3) & Hmt).
  unfold PacketPassConnector_ConnectOutput, PacketPassInterface_Sender_Init. rewrite Ho, Hh. apply bool_decide_eq_true in Ho.
  rewrite (proj2 (Z.leb_le _ _)) by lia. cbn [negb]. set (o1 := set_handlers _ _ _).
  assert (flow_ok PacketPass o1) as F1. { split; unfold is_state; cbn; [by rewrite Ho1, Hs|by rewrite Ho2, Hs|by rewrite Ho3]. }
  destruct (Z.leb_spec 0 c.(in_len)).
  - case_bool_decide as B; [|lia]. destruct Vp as [V1 V2].
    destruct (connector_start c o1) as (o' & -> & Ok & So); try done; [by rewrite V1, V2; apply Va; rewrite B|].
    eexists _, _. split; [done|]. apply (connector_quiet c); try done; [|unfold passed, is_state; cbn; by rewrite B, So].
    split; cbn; try done; [|by intros ? [= <-]]. by rewrite bool_decide_eq_true_2.
  - eexists _, _. split; [done|]. apply (connector_quiet c); try done; [|unfold passed, is_state; cbn; by rewrite Hs, orb_false_r, Ho, orb_false_r].
    split; cbn; try done. intros ? [= <-]. split; [done|]. split; [done|]. split; [done|]. by rewrite (proj2 (Z.leb_gt _ _)).
Qed.

Lemma connector_disconnect c h : I c h -> legal c Disconnect = true -> exists c' a, step c Disconnect = Some (c', a) /\ I c' (h ++ a).
Proof.
  intros HI Hl. pose proof HI as ([Vi Va Vp Vo] & _). cbn [legal step] in *. unfold PacketPassConnector_DisconnectOutput. destruct (c.(output)) as [o|] eqn:Eo; [|done].
  eexists _, _. split; [done|]. apply (connector_quiet c); try done. unfold passed. cbn. rewrite orb_false_r. by intros ->.
Qed.

(** What the output does with the packet. *)
Lemma connector_output c h ev : I c h -> legal c ev = true -> ev = OJobOperation \/ ev = ODone \/ ev = OJobDone ->
  exists c' a, step c ev = Some (c', a) /\ I c' (h ++ a).
Proof.
  intros HI Hl Hev. pose proof HI as (V & E & S). pose proof V as [[Fi [Hm H0]] Va Vp Vo].
  destruct (c.(output)) as [o|] eqn:Eo; [|by destruct Hev as [-> | [-> | ->]]; cbn in Hl; rewrite Eo in Hl].
  pose proof (Vo o eq_refl) as (Fo & Uo & Mo & T). pose proof (output_busy c o V Eo) as HB.
  destruct Hev as [-> | [-> | ->]]; cbn [legal step] in *; rewrite Eo in Hl |- *.
  - pose proof (proj1 (job_of_state _ _ Fo) Hl) as Hs. destruct HB as (Hb & Hn & _); [by rewrite Hs|]. unfold _PacketPassInterface_job_operation.
    rewrite (proj2 (is_state_true _ _) Hs). eexists _, _. split; [done|]. apply (connector_quiet c); try done; [|by unfold passed, is_state; cbn; rewrite Hb].
    rewrite (proj2 (Z.leb_le _ _)) in T by done. split; cbn; try done. intros ? [= <-]. split; [by apply run_operation_flow|].
    split; [done|]. split; [done|]. cbn. rewrite (proj2 (Z.leb_le _ _)) by done. by destruct T.
  - apply is_state_true in Hl. destruct HB as (Hb & Hn & Hd & Hk); [by rewrite Hl|]. rewrite (proj2 (Z.leb_le _ _)) in T by done.
    destruct (done_finish o Fo Hl) as (o' & -> & F' & S' & M' & H' & C' & D' & L'). eexists _, _. split; [done|].
    destruct (connector_apps h [Delivered o.(job_operation_data) o.(job_operation_len)]) as (A1 & A2 & A3). unfold I. rewrite A1, A2, A3. cbn. split; [|split].
    + split; cbn; try done. intros ? [= <-]. unfold output_ok. cbn. rewrite M', H', D', L', S', (proj2 (Z.leb_le _ _)) by done. by destruct T.
    + by rewrite !app_nil_r.
    + unfold passed, is_state. cbn. rewrite S', orb_true_r, app_nil_r. unfold pending. cbn. rewrite Hb, Hd, Hk. cbn. apply sublist_app; [|done].
      etrans; [|exact S]. apply sublist_inserts_r, reflexivity.
  - pose proof (proj2 (job_of_state _ _ Fo) Hl) as Hs. destruct HB as (Hb & Hn & Hd & Hk); [by rewrite Hs|]. unfold _PacketPassInterface_job_done, output_handler_done.
    rewrite (proj2 (is_state_true _ _) Hs). cbn [in_len output set_output set_packet input in_]. rewrite (proj2 (Z.leb_le _ _)) by done.
    destruct (done_finish c.(input) Fi Hb) as (i & -> & F' & S' & M' & H' & C' & D' & L'). eexists _, _. split; [done|].
    apply (connector_quiet c); try done.
    + split; cbn; rewrite ?M', ?S', ?D', ?L'; try done; [by intros _; apply Va; rewrite Hb|]. intros ? [= <-]. split; [by apply run_done_flow|]. done.
    + unfold pending. cbn. by rewrite S', D', L', Hb.
    + intros _. unfold passed, is_state. by rewrite Eo, Hs, orb_true_r.
Qed.

Lemma connector_step_ok c h ev : I c h -> legal c ev = true -> exists c' a, step c ev = Some (c', a) /\ I c' (h ++ a).
Proof.
  intros HI Hl. destruct ev; eauto using connector_send, connector_input_operation, connector_input_done, connector_connect, connector_disconnect, connector_output.
  pose proof HI as ([[Fi [Hm H0]] Va Vp Vo] & E & S). cbn [legal step] in *. apply negb_true_iff in Hl. unfold PacketPassInterface_Sender_Init. rewrite Hl.
  eexists _, _. split; [done|]. apply (connector_quiet c); try done. split; cbn; try done. by destruct Fi as [F1 F2 F3].
Qed.

(** Outputs may come and go at any time: no assertion fails; the packets the
    input hands over are reported done in their order, the one on its way
    apart; and each packet reported done was delivered to an output, though
    one whose output goes before its report may be delivered to the next
    output again. *)
Theorem connector_relays mt p evs : 0 <= mt ->
  exists c c' acts, PacketPassConnector_Init mt p = Some c /\ machine_run legal step c evs = Some (c', acts) /\
    sent acts = finished acts ++ pending c' /\ finished acts `sublist_of` delivered acts.
Proof.
  intros Hm. unfold PacketPassConnector_Init, PacketPassInterface_Init. rewrite (proj2 (Z.leb_le _ _)) by done. set (c := MkConnector _ _ _ _ _).
  destruct (machine_invariant legal step I connector_step_ok evs c []) as (c' & acts & E & V & Es & Sd).
  - split; [|by split]. by split.
  - exists c, c', acts. split; [done|]. split; [done|]. split; [done|]. etrans; [|exact Sd]. apply sublist_inserts_r, reflexivity.
Qed.

(** The same packet twice: its first output has taken it and goes before it
    reports so. *)
Example reconnect_repeats :
  let f := flow_new 10 in
  let evs := [IInit; ISend (Some 5) 3; IJobOperation; Connect f; OJobOperation; ODone; Disconnect; Connect f; OJobOperation; ODone; OJobDone; IJobDone] in
  exists c c' acts, PacketPassConnector_Init 10 None = Some c /\ machine_run legal step c evs = Some (c', acts) /\
    sent acts = [(Some 5, 3)] /\ delivered acts = [(Some 5, 3); (Some 5, 3)] /\ finished acts = [(Some 5, 3)].
Proof. eexists _, _, _. by split; [reflexivity|vm_compute]. Qed.
End PacketPassConnector.
