(* ===== verification/BufferWriter.v ===== *)
(** * Packets for whoever asks

    Models [flow/BufferWriter.c]: a packet can be written when the receiver has
    asked for one.  Events are the calls of the parties around it and the jobs
    of its interface; the receiver's buffer is part of the state.  [None] as a
    result is a failed [ASSERT] or an access outside. *)

From S2P Require Import Prelude.
From S2P Require Import LinkedList.
From S2P Require Import Flow.
Import Flow.

Module BufferWriter.

Record BufferWriter := MkWriter { recv_interface : flow_interface; out_have : bool; out : option Z; d_mtu : Z; d_writing : bool }.
Definition set_interface i w := MkWriter i w.(out_have) w.(out) w.(d_mtu) w.(d_writing).
Definition set_out h p w := MkWriter w.(recv_interface) h p w.(d_mtu) w.(d_writing).
Definition set_writing b w := MkWriter w.(recv_interface) w.(out_have) w.(out) w.(d_mtu) b.

Definition output_handler_recv (w : BufferWriter) (data : option Z) : option BufferWriter :=
  ASSERT negb w.(out_have) in Some (set_out true data w).

(** [p] is what [out] holds before. *)
Definition BufferWriter_Init (mtu : Z) (p : option Z) : option BufferWriter :=
  ASSERT 0 <=? mtu in
  LET i <- PacketRecvInterface_Init mtu in Some (MkWriter i false p mtu false).

(** [Some] of the buffer for the return value 1, [None] for 0. *)
Definition BufferWriter_StartPacket (w : BufferWriter) : option (BufferWriter * option (option Z)) :=
  ASSERT negb w.(d_writing) in
  if negb w.(out_have) then Some (w, None) else Some (set_writing true w, Some w.(out)).

Definition BufferWriter_EndPacket (w : BufferWriter) (len : Z) : option BufferWriter :=
  ASSERT 0 <=? len in
  ASSERT len <=? w.(d_mtu) in
  ASSERT w.(out_have) in
  ASSERT w.(d_writing) in
  let w := set_out false w.(out) w in
  LET i <- PacketRecvInterface_Done w.(recv_interface) len in
  Some (set_writing false (set_interface i w)).

(** The receiver has one buffer, which it gives to every [Recv]. *)
Inductive event := OInit | ORecv | OJobOperation | OJobDone | Start | Write (off : Z) (d : bytes) | End_ (d : bytes).
Inductive action := Started (ok : bool) | Submitted (d : bytes) | Received (d : bytes).

Definition legal (x : BufferWriter * bytes) (ev : event) : bool :=
  let (w, mem) := x in
  match ev with
  | OInit => negb w.(recv_interface).(handler_done)
  | ORecv => is_state STATE_NONE w.(recv_interface) && w.(recv_interface).(handler_done)
  | OJobOperation => w.(recv_interface).(job_operation)
  | OJobDone => w.(recv_interface).(job_done)
  | Start => negb w.(d_writing)
  | Write off d => w.(d_writing) && (0 <=? off) && (off + Z.of_nat (length d) <=? w.(d_mtu))
  | End_ d => w.(d_writing) && (Z.of_nat (length d) <=? w.(d_mtu))
  end.

Definition step (x : BufferWriter * bytes) (ev : event) : option (BufferWriter * bytes * list action) :=
  let (w, mem) := x in
  match ev with
  | OInit => LET i <- PacketRecvInterface_Receiver_Init w.(recv_interface) in Some (set_interface i w, mem, [])
  | ORecv => LET i <- PacketRecvInterface_Receiver_Recv w.(recv_interface) (Some 0) in Some (set_interface i w, mem, [])
  | OJobOperation =>
      LET (i, p) <- _PacketRecvInterface_job_operation w.(recv_interface) in
      LET w <- output_handler_recv (set_interface i w) p in Some (w, mem, [])
  | OJobDone =>
      LET (i, n) <- _PacketRecvInterface_job_done w.(recv_interface) in
      Some (set_interface i w, mem, [Received (take (Z.to_nat n) mem)])
  | Start => LET (w, r) <- BufferWriter_StartPacket w in Some (w, mem, [Started (bool_decide (is_Some r))])
  | Write off d => LET p <- w.(out) in LET mem <- store (Z.to_nat (p + off)) d mem in Some (w, mem, [])
  | End_ d =>
      LET p <- w.(out) in
      LET mem <- store (Z.to_nat p) d mem in
      LET w <- BufferWriter_EndPacket w (Z.of_nat (length d)) in Some (w, mem, [Submitted d])
  end.

Definition submitted (a : list action) : list bytes := omap (fun x => match x with Submitted d => Some d | _ => None end) a.
Definition received (a : list action) : list bytes := omap (fun x => match x with Received d => Some d | _ => None end) a.

Record inv (w : BufferWriter) (mem : bytes) (cur : option bytes) : Prop := {
  v_flow : flow_ok PacketRecv w.(recv_interface);
  v_mtu : w.(d_mtu) = w.(recv_interface).(mtu) /\ Z.of_nat (length mem) = w.(d_mtu);
  v_have : w.(out_have) = is_state STATE_BUSY w.(recv_interface);
  v_out : w.(out_have) = true -> w.(out) = Some 0;
  v_arg : w.(recv_interface).(state) = STATE_OPERATION_PENDING -> w.(recv_interface).(job_operation_data) = Some 0;
  v_writing : w.(d_writing) = true -> w.(out_have) = true;
  v_cur : match cur with
          | Some d => w.(recv_interface).(state) = STATE_DONE_PENDING /\ w.(recv_interface).(job_done_len) = Z.of_nat (length d) /\ bytes_at mem 0 d
          | None => w.(recv_interface).(state) <> STATE_DONE_PENDING
          end;
}.

Definition I (x : BufferWriter * bytes) (h : list action) : Prop :=
  exists cur, inv x.1 x.2 cur /\ submitted h = received h ++ option_list cur.

Lemma writer_apps x y : submitted (x ++ y) = submitted x ++ submitted y /\ received (x ++ y) = received x ++ received y.
Proof. unfold submitted, received. by rewrite !omap_app. Qed.

Lemma writer_quiet w mem h a cur : inv w mem cur -> submitted a = [] -> received a = [] -> submitted h = received h ++ option_list cur -> I (w, mem) (h ++ a).
Proof. intros V E1 E2 E. exists cur. split; [done|]. destruct (writer_apps h a) as [-> ->]. by rewrite E1, E2, !app_nil_r. Qed.

Lemma writer_receiver_step w mem h ev : I (w, mem) h -> legal (w, mem) ev = true -> ev = OInit \/ ev = ORecv \/ ev = OJobOperation \/ ev = OJobDone ->
  exists x' a, step (w, mem) ev = Some (x', a) /\ I x' (h ++ a).
Proof.
  intros (cur & [F [Hm Hl'] Hh Ho Ha Hw Hc] & E) Hl [-> | [-> | [-> | ->]]]; cbn [fst snd legal step] in *.
  - apply negb_true_iff in Hl. unfold PacketRecvInterface_Receiver_Init. rewrite Hl. eexists _, _. split; [done|]. apply (writer_quiet _ _ _ _ cur); try done.
    split; cbn; try done. by destruct F as [F1 F2 F3].
  - rewrite andb_true_iff, is_state_true in Hl. destruct Hl as [Hs Hd]. destruct (recv_start w.(recv_interface) (Some 0) F Hs Hd) as (i & -> & F' & S' & M' & H' & D'); [done|].
    eexists _, _. split; [done|]. unfold is_state in Hh. rewrite Hs in Hh. destruct cur as [d|]; [by rewrite Hs in Hc; destruct Hc|]. apply (writer_quiet _ _ _ _ None); try done.
    split; cbn; rewrite ?M', ?S'; try done. unfold is_state. by rewrite S'.
  - pose proof (proj1 (job_of_state _ _ F) Hl) as Hs. unfold _PacketRecvInterface_job_operation, output_handler_recv. unfold is_state in Hh. rewrite Hs in Hh.
    rewrite (proj2 (is_state_true _ _) Hs). cbn [out_have set_interface]. rewrite Hh, (Ha Hs). cbn [negb bool_decide]. eexists _, _. split; [done|].
    destruct cur as [d|]; [by rewrite Hs in Hc; destruct Hc|]. apply (writer_quiet _ _ _ _ None); try done. split; cbn; try done. by apply run_operation_flow.
  - pose proof (proj2 (job_of_state _ _ F) Hl) as Hs. unfold _PacketRecvInterface_job_done. rewrite (proj2 (is_state_true _ _) Hs). eexists _, _. split; [done|].
    destruct cur as [d|]; [|done]. destruct Hc as (_ & -> & B). unfold is_state in Hh. rewrite Hs in Hh. cbn in Hh. exists None. split.
    + split; cbn; try done. by apply run_done_flow.
    + destruct (writer_apps h [Received (take (Z.to_nat (Z.of_nat (length d))) mem)]) as [-> ->]. cbn. rewrite !app_nil_r, E. apply bytes_at_read in B.
      change (drop (Z.to_nat 0) mem) with mem in B. by rewrite Nat2Z.id, B.
Qed.

Lemma writer_user_step w mem h ev : I (w, mem) h -> legal (w, mem) ev = true -> ev = Start \/ (exists off d, ev = Write off d) \/ (exists d, ev = End_ d) ->
  exists x' a, step (w, mem) ev = Some (x', a) /\ I x' (h ++ a).
Proof.
  intros (cur & V & E) Hl Hev. pose proof V as [F [Hm Hl'] Hh Ho Ha Hw Hc]. destruct Hev as [-> | [(off & d & ->) | (d & ->)]]; cbn [fst snd legal step] in *.
  - unfold BufferWriter_StartPacket. rewrite Hl. destruct (w.(out_have)) eqn:Eh; cbn [negb]; (eexists _, _; split; [done|]); apply (writer_quiet _ _ _ _ cur); try done.
    by split; cbn; rewrite ?Eh.
  - rewrite !andb_true_iff, !Z.leb_le in Hl. destruct Hl as ((Wr & H0) & H1). rewrite (Ho (Hw Wr)).
    destruct (store_total (Z.to_nat (0 + off)) d mem) as [m Em]; [lia|]. rewrite Em. eexists _, _. split; [done|].
    rewrite (Hw Wr) in Hh. symmetry in Hh. apply is_state_true in Hh. destruct cur as [d'|]; [by rewrite Hh in Hc; destruct Hc|].
    apply (writer_quiet _ _ _ _ None); try done. split; try done; [by rewrite (store_length _ _ _ _ Em)|by rewrite (Hw Wr), (proj2 (is_state_true _ _) Hh)].
  - rewrite andb_true_iff, Z.leb_le in Hl. destruct Hl as (Wr & H1). rewrite (Ho (Hw Wr)). destruct (store_total (Z.to_nat 0) d mem) as [m Em]; [lia|]. rewrite Em.
    unfold BufferWriter_EndPacket. rewrite (Hw Wr), Wr, !(proj2 (Z.leb_le _ _)) by lia. rewrite (Hw Wr) in Hh. symmetry in Hh. apply is_state_true in Hh.
    cbn [recv_interface set_out]. destruct (recv_finish w.(recv_interface) (Z.of_nat (length d)) F Hh) as (i & -> & F' & S' & M' & H' & D' & L'); [lia|].
    eexists _, _. split; [done|]. destruct cur as [d'|]; [by rewrite Hh in Hc; destruct Hc|]. exists (Some d). split.
    + split; cbn; rewrite ?M', ?S', ?L'; try done; [by rewrite (store_length _ _ _ _ Em)|by unfold is_state; rewrite S'|]. split; [done|]. split; [done|]. by eapply bytes_at_stored.
    + destruct (writer_apps h [Submitted d]) as [-> ->]. rewrite E. cbn. by rewrite !app_nil_r.
Qed.

(** Best effort: a packet can be started exactly when the receiver waits for
    one, no assertion fails, and the receiver gets the packets that were
    submitted, in order, the last one perhaps later. *)
Theorem writer_relays mt p mem evs : 0 <= mt -> Z.of_nat (length mem) = mt ->
  exists w w' mem' acts cur, BufferWriter_Init mt p = Some w /\ machine_run legal step (w, mem) evs = Some (w', mem', acts) /\
    submitted acts = received acts ++ option_list cur /\
    (w'.(d_writing) = false -> exists w2 r, BufferWriter_StartPacket w' = Some (w2, r) /\ (is_Some r <-> w'.(recv_interface).(state) = STATE_BUSY)).
Proof.
  intros Hm Hl. unfold BufferWriter_Init, PacketRecvInterface_Init. rewrite (proj2 (Z.leb_le _ _)) by done. set (w := MkWriter _ _ _ _ _).
  destruct (machine_invariant legal step I) with (evs := evs) (s := (w, mem)) (h := @nil action) as ([w' m'] & acts & E & cur & V & Es).
  - intros [w0 m0] h ev HI Hev. destruct ev; eauto 6 using writer_receiver_step, writer_user_step.
  - exists None. by split.
  - exists w, w', m', acts, cur. split; [done|]. split; [done|]. split; [done|]. intros Hw. unfold BufferWriter_StartPacket. rewrite Hw.
    destruct V as [_ _ Hh _ _ _ _]. cbn [fst] in Hh. destruct (w'.(out_have)); cbn [negb]; (eexists _, _; split; [done|]); rewrite <- is_state_true, <- Hh; [by eauto|].
    by split; [intros []|].
Qed.
End BufferWriter.
