(* ===== verification/ProtoFlow.v ===== *)
(** * Packets into a stream

    Models [flow/PacketProtoFlow.c]: a [BufferWriter], an encoder and a
    [PacketBuffer] in a row, so that packets that are written leave framed.
    The writer's interface is the encoder's input and the encoder's output is
    the buffer's input; each of the two is one object here too.  Packets are
    written right into the memory of the buffer's ring, behind the place for
    the header.  [None] as a result is a failed [ASSERT] or an access outside.

    The theorem composes the three with the decoder on the other side. *)

From S2P Require Import Prelude.
From S2P Require Import Words.
From S2P Require Import LinkedList.
From S2P Require Import Flow.
From S2P Require Import ChunkBuffer.
From S2P Require Import PacketBuffer.
From S2P Require Import PacketProto.
From S2P Require Import BufferWriter.
Import Flow ChunkBuffer.

Module ProtoFlow.
Import BufferWriter(BufferWriter, MkWriter, recv_interface, out_have, out, d_mtu, d_writing, set_interface, BufferWriter_Init, BufferWriter_StartPacket, BufferWriter_EndPacket).
Import PacketBuffer(PacketBuffer, input, input_mtu, output, buf, set_input, set_buf, PacketBuffer_Init).
Import PacketProto(PacketProtoEncoder, MkEncoder, enc_input, output_packet, enc_output, PacketProtoEncoder_Init, PACKETPROTO_ENCLEN, PACKETPROTO_MAXPAYLOAD, frame, frames).

(** [packet] is the encoder's [output_packet]; its interfaces are those of the
    neighbours. *)
Record PacketProtoFlow := MkProtoFlow { ainput : BufferWriter; packet : option Z; buffer_ : PacketBuffer }.

Definition encoder (o : PacketProtoFlow) : PacketProtoEncoder := MkEncoder o.(ainput).(recv_interface) o.(packet) o.(buffer_).(input).
Definition set_encoder (e : PacketProtoEncoder) (o : PacketProtoFlow) : PacketProtoFlow :=
  MkProtoFlow (set_interface e.(enc_input) o.(ainput)) e.(output_packet) (set_input e.(enc_output) o.(buffer_)).
Definition set_ainput w o := MkProtoFlow w o.(packet) o.(buffer_).
Definition set_pbuffer b o := MkProtoFlow o.(ainput) o.(packet) b.

(** [p] and [mem] are what the writer's pointer and the array hold before; the
    result [Some None] is the return value 0. *)
Definition PacketProtoFlow_Init (mtu num_packets : Z) (o : flow_interface) (p : option Z) (mem : option bytes) : option (option PacketProtoFlow) :=
  ASSERT 0 <=? mtu in
  ASSERT mtu <=? PACKETPROTO_MAXPAYLOAD in
  ASSERT 0 <? num_packets in
  ASSERT PACKETPROTO_ENCLEN mtu <=? o.(Flow.mtu) in
  LET w <- BufferWriter_Init mtu p in
  LET e <- PacketProtoEncoder_Init w.(recv_interface) in
  LET b <- PacketBuffer_Init e.(enc_output) o num_packets mem in
  match b with
  | None => Some None
  | Some b => Some (Some (MkProtoFlow (set_interface e.(enc_input) w) e.(output_packet) b))
  end.

Definition PacketProtoFlow_GetInput (o : PacketProtoFlow) : BufferWriter := o.(ainput).

(** ** The flow at work

    [EOperation] and [EDone] are the jobs that call the encoder, [WOperation]
    the one that calls the writer, and [Buffer] those that call the buffer or
    its output. *)
Inductive event := Start | Write (off : Z) (d : bytes) | End_ (d : bytes) | WOperation | EOperation | EDone | Buffer (ev : PacketBuffer.event).
Inductive action := Started (ok : bool) | Submitted (d : bytes) | Delivered (f : bytes).

Definition shown (x : PacketBuffer.action) : option action := match x with PacketBuffer.Delivered f => Some (Delivered f) | _ => None end.

Definition buffer_event (ev : PacketBuffer.event) : bool :=
  match ev with PacketBuffer.IJobDone | PacketBuffer.OJobOperation | PacketBuffer.ODone | PacketBuffer.OJobDone => true | _ => false end.

Definition legal (o : PacketProtoFlow) (ev : event) : bool :=
  let w := o.(ainput) in
  match ev with
  | Start => negb w.(d_writing)
  | Write off d => w.(d_writing) && (0 <=? off) && (off + Z.of_nat (length d) <=? w.(d_mtu))
  | End_ d => w.(d_writing) && (Z.of_nat (length d) <=? w.(d_mtu))
  | WOperation => w.(recv_interface).(job_operation)
  | EOperation => o.(buffer_).(input).(job_operation)
  | EDone => w.(recv_interface).(job_done)
  | Buffer ev => buffer_event ev && PacketBuffer.legal o.(buffer_) ev
  end.

Definition step (o : PacketProtoFlow) (ev : event) : option (PacketProtoFlow * list action) :=
  match ev with
  | Start => LET (w, r) <- BufferWriter_StartPacket o.(ainput) in Some (set_ainput w o, [Started (bool_decide (is_Some r))])
  | Write off d =>
      LET p <- o.(ainput).(out) in
      LET b <- write_at (p + off) d o.(buffer_).(buf) in Some (set_pbuffer (set_buf b o.(buffer_)) o, [])
  | End_ d =>
      LET p <- o.(ainput).(out) in
      LET b <- write_at p d o.(buffer_).(buf) in
      LET w <- BufferWriter_EndPacket o.(ainput) (Z.of_nat (length d)) in
      Some (set_ainput w (set_pbuffer (set_buf b o.(buffer_)) o), [Submitted d])
  | WOperation =>
      LET (i, p) <- _PacketRecvInterface_job_operation o.(ainput).(recv_interface) in
      LET w <- BufferWriter.output_handler_recv (set_interface i o.(ainput)) p in Some (set_ainput w o, [])
  | EOperation =>
      LET (i, p) <- _PacketRecvInterface_job_operation o.(buffer_).(input) in
      LET e <- PacketProto.output_handler_recv (MkEncoder o.(ainput).(recv_interface) o.(packet) i) p in
      Some (set_encoder e o, [])
  | EDone =>
      LET (i, n) <- _PacketRecvInterface_job_done o.(ainput).(recv_interface) in
      LET (e, m) <- PacketProto.enc_input_handler_done (MkEncoder i o.(packet) o.(buffer_).(input)) o.(buffer_).(buf).(buffer) n in
      Some (set_pbuffer (set_buf (set_buffer m o.(buffer_).(buf)) (set_encoder e o).(buffer_)) (set_encoder e o), [])
  | Buffer ev =>
      LET (b, a) <- PacketBuffer.step o.(buffer_) ev in
      Some (set_pbuffer b o, omap shown a)
  end.

Definition submitted (a : list action) : list bytes := omap (fun x => match x with Submitted d => Some d | _ => None end) a.
Definition delivered (a : list action) : list bytes := omap (fun x => match x with Delivered d => Some d | _ => None end) a.

Lemma flow_lists_app x y : submitted (x ++ y) = submitted x ++ submitted y /\ delivered (x ++ y) = delivered x ++ delivered y.
Proof. unfold submitted, delivered. by rewrite !omap_app. Qed.

(** ** The invariant

    A receive of the buffer goes through the encoder to the writer: while it is
    on its way, or with the writer, the encoder holds its place [p]. *)
Record at_writer (w : BufferWriter) (b : PacketBuffer) (p : Z) (cur : option bytes) : Prop := {
  aw_busy : b.(input).(state) = STATE_BUSY /\ b.(input).(job_operation_data) = Some p /\ b.(buf).(input_dest) = Some p;
  aw_phase :
    match w.(recv_interface).(state) with
    | STATE_NONE => False
    | STATE_OPERATION_PENDING => w.(recv_interface).(job_operation_data) = Some (p + 2) /\ cur = None
    | STATE_BUSY => w.(out) = Some (p + 2) /\ cur = None
    | STATE_DONE_PENDING => exists d, cur = Some d /\ w.(recv_interface).(job_done_len) = Z.of_nat (length d) /\
        Z.of_nat (length d) <= w.(d_mtu) /\ bytes_at b.(buf).(buffer) (p + 2) d
    end;
}.

Record inv (num : Z) (o : PacketProtoFlow) (q : list bytes) (inp cur : option bytes) : Prop := {
  v_buffer : PacketBuffer.inv num o.(buffer_) q inp;
  v_flow : flow_ok PacketRecv o.(ainput).(recv_interface);
  v_user : o.(ainput).(recv_interface).(handler_done) = true;
  v_mtu : o.(ainput).(recv_interface).(Flow.mtu) = o.(ainput).(d_mtu) /\ 0 <= o.(ainput).(d_mtu) <= PACKETPROTO_MAXPAYLOAD;
  v_enclen : o.(buffer_).(input_mtu) = PACKETPROTO_ENCLEN o.(ainput).(d_mtu);
  v_have : o.(ainput).(out_have) = is_state STATE_BUSY o.(ainput).(recv_interface);
  v_writing : o.(ainput).(d_writing) = true -> o.(ainput).(out_have) = true;
  v_packet : match o.(packet) with
             | Some p => at_writer o.(ainput) o.(buffer_) p cur
             | None => o.(buffer_).(input).(state) <> STATE_BUSY /\ o.(ainput).(recv_interface).(state) = STATE_NONE /\ cur = None
             end;
}.

Definition I (num : Z) (m : Z) (o : PacketProtoFlow) (h : list action) : Prop :=
  exists q inp cur, inv num o q inp cur /\ o.(ainput).(d_mtu) = m /\ Forall (fun d => Z.of_nat (length d) <= m) (submitted h) /\
    map frame (submitted h) = delivered h ++ PacketBuffer.waiting o.(buffer_) q inp ++ map frame (option_list cur).

(** A step in which nothing is submitted or delivered. *)
Lemma flow_quiet num m o h o' a q inp cur q' inp' cur' : inv num o' q' inp' cur' -> submitted a = [] -> delivered a = [] -> o'.(ainput).(d_mtu) = m ->
  Forall (fun d => Z.of_nat (length d) <= m) (submitted h) ->
  map frame (submitted h) = delivered h ++ PacketBuffer.waiting o.(buffer_) q inp ++ map frame (option_list cur) ->
  PacketBuffer.waiting o'.(buffer_) q' inp' ++ map frame (option_list cur') = PacketBuffer.waiting o.(buffer_) q inp ++ map frame (option_list cur) ->
  I num m o' (h ++ a).
Proof.
  intros V E1 E2 Em Hs E W. exists q', inp', cur'. split; [done|]. split; [done|]. destruct (flow_lists_app h a) as [-> ->]. rewrite E1, E2, !app_nil_r. split; [done|]. by rewrite W.
Qed.

(** A packet being written is in its place: the encoder's packet is set. *)
Lemma inv_busy num o q inp cur : inv num o q inp cur -> o.(ainput).(recv_interface).(state) <> STATE_NONE ->
  exists p, o.(packet) = Some p /\ at_writer o.(ainput) o.(buffer_) p cur.
Proof. intros [] Hs. destruct (packet o) as [p|]; [by exists p|]. by destruct v_packet0 as (_ & ? & _). Qed.

(** Writing at an offset of the payload. *)
Lemma payload_write num o q inp cur off d : inv num o q inp cur -> o.(ainput).(recv_interface).(state) = STATE_BUSY -> 0 <= off ->
  off + Z.of_nat (length d) <= o.(ainput).(d_mtu) ->
  exists p m, o.(packet) = Some p /\ o.(ainput).(out) = Some (p + 2) /\ cur = None /\
    write_at (p + 2 + off) d o.(buffer_).(buf) = Some (set_buffer m o.(buffer_).(buf)) /\ bytes_at m (p + 2 + off) d /\
    inv num (set_pbuffer (set_buf (set_buffer m o.(buffer_).(buf)) o.(buffer_)) o) q inp None.
Proof.
  intros V Hs H0 Hl. destruct (inv_busy _ _ _ _ _ V) as (p & Hp & A); [by rewrite Hs|]. pose proof A as [(B1 & B2 & B3) B4]. rewrite Hs in B4. destruct B4 as [Ho ->].
  pose proof V as []. unfold PACKETPROTO_ENCLEN, PacketProto.sizeof_packetproto_header in *.
  destruct (PacketBuffer.input_write_ok num o.(buffer_) q inp (2 + off) d v_buffer0 B1) as (p' & m & E1 & E2 & E3 & E4 & V'); [lia|lia|].
  rewrite B2 in E1. injection E1 as <-. rewrite Z.add_assoc in E3, E4. exists p, m. do 5 (split; [done|]). split; cbn; try done.
  rewrite Hp. split; [done|]. by rewrite Hs.
Qed.

(** *** The user of the writer *)

Lemma start_step num m o h : I num m o h -> legal o Start = true -> exists o' a, step o Start = Some (o', a) /\ I num m o' (h ++ a).
Proof.
  intros (q & inp & cur & V & Em & Hs & E) L. cbn [legal step] in *. unfold BufferWriter_StartPacket. rewrite L. pose proof V as [].
  destruct (out_have (ainput o)) eqn:Eh; cbn [negb]; (eexists _, _; split; [done|]); eapply flow_quiet; try done.
  all: split; cbn; rewrite ?Eh; try done; try (destruct (packet o); [by destruct v_packet0|done]).
Qed.

Lemma write_step num m o h off d : I num m o h -> legal o (Write off d) = true -> exists o' a, step o (Write off d) = Some (o', a) /\ I num m o' (h ++ a).
Proof.
  intros (q & inp & cur & V & Em & Hs & E) L. cbn [legal step] in *. rewrite !andb_true_iff, !Z.leb_le in L. destruct L as ((Hw & H0) & Hl).
  pose proof V as []. specialize (v_writing0 Hw). rewrite v_have0, is_state_true in v_writing0.
  destruct (payload_write _ _ _ _ _ off d V v_writing0 H0 Hl) as (p & mm & Hp & -> & -> & -> & _ & V'). eexists _, _. split; [done|]. by eapply flow_quiet.
Qed.

Lemma end_step num m o h d : I num m o h -> legal o (End_ d) = true -> exists o' a, step o (End_ d) = Some (o', a) /\ I num m o' (h ++ a).
Proof.
  intros (q & inp & cur & V & Em & Hs & E) L. cbn [legal step] in *. rewrite !andb_true_iff, !Z.leb_le in L. destruct L as (Hw & Hl).
  pose proof V as []. pose proof (v_writing0 Hw) as Hh. pose proof Hh as Hb. rewrite v_have0, is_state_true in Hb.
  destruct (payload_write _ _ _ _ _ 0 d V Hb) as (p & mm & Hp & -> & -> & Ew & B & V'); [lia|lia|]. rewrite Z.add_0_r in Ew, B. rewrite Ew.
  unfold BufferWriter_EndPacket. rewrite Hh, Hw, !(proj2 (Z.leb_le _ _)) by lia. cbn [recv_interface BufferWriter.set_out].
  destruct (recv_finish (recv_interface (ainput o)) (Z.of_nat (length d)) v_flow0 Hb) as (i & -> & F' & S' & M' & U' & _ & N'); [lia|].
  eexists _, _. split; [done|]. exists q, inp, (Some d). destruct (flow_lists_app h [Submitted d]) as [-> ->]. split; [|split; [done|split]].
  - destruct V' as []. split; cbn; rewrite ?U', ?M'; try done; [unfold is_state; by rewrite S'|]. cbn in v_packet1. rewrite Hp in *. destruct v_packet1 as [A1 _].
    split; [done|]. cbn. rewrite S'. by exists d.
  - apply Forall_app. split; [done|]. apply Forall_singleton. lia.
  - rewrite map_app, E. cbn. by rewrite !app_nil_r, <- app_assoc.
Qed.

(** *** The jobs *)

Lemma writer_operation_step num m o h : I num m o h -> legal o WOperation = true -> exists o' a, step o WOperation = Some (o', a) /\ I num m o' (h ++ a).
Proof.
  intros (q & inp & cur & V & Em & Hs & E) L. cbn [legal step] in *. pose proof V as []. pose proof (proj1 (job_of_state _ _ v_flow0) L) as Ho.
  destruct (inv_busy _ _ _ _ _ V) as (p & Hp & [A1 A2]); [by rewrite Ho|]. rewrite Ho in A2. destruct A2 as [Hd ->].
  unfold _PacketRecvInterface_job_operation, BufferWriter.output_handler_recv. rewrite (proj2 (is_state_true _ _) Ho). cbn [out_have set_interface].
  rewrite v_have0. unfold is_state at 1. rewrite Ho, Hd. cbn [negb bool_decide]. eexists _, _. split; [done|]. eapply flow_quiet; try done.
  split; cbn; try done; [by apply run_operation_flow|]. rewrite Hp. split; cbn; done.
Qed.

Lemma encoder_operation_step num m o h : I num m o h -> legal o EOperation = true -> exists o' a, step o EOperation = Some (o', a) /\ I num m o' (h ++ a).
Proof.
  intros (q & inp & cur & V & Em & Hs & E) L. cbn [legal step] in *. pose proof V as []. pose proof v_buffer0 as VB. destruct VB.
  pose proof (proj1 (job_of_state _ _ v_in_flow) L) as Ho. destruct (packet o) as [p|] eqn:Hp; [by destruct v_packet0 as [(A & _) _]; rewrite Ho in A|].
  destruct v_packet0 as (_ & Sn & ->). unfold _PacketRecvInterface_job_operation, PacketProto.output_handler_recv. rewrite (proj2 (is_state_true _ _) Ho). cbn [output_packet].
  pose proof v_in as Hin. unfold PacketBuffer.input_inv in Hin. rewrite Ho in Hin. destruct Hin as (Ha & Hd & _).
  destruct (input_dest_some _ _ v_rep) as [p Hdest]; [unfold PACKETPROTO_ENCLEN in *; lia|]. rewrite Hd, Hdest. rewrite bool_decide_eq_true_2 by done. cbn [enc_input].
  destruct (recv_start (recv_interface (ainput o)) (Some (p + PacketProto.sizeof_packetproto_header)) v_flow0 Sn v_user0) as (i & -> & F' & S' & M' & U' & D'); [done|].
  eexists _, _. split; [done|]. pose proof (PacketBuffer.input_start_ok _ _ _ _ v_buffer0 Ho) as VB'. eapply flow_quiet; try done.
  split; cbn; rewrite ?U', ?M'; try done.
  - rewrite v_have0. unfold is_state. by rewrite S', Sn.
  - split; cbn; [by rewrite Hd, Hdest|]. rewrite S', D'. done.
Qed.

(** The header goes before the payload that is in place. *)
Lemma header_write num b q inp p d : PacketBuffer.inv num b q inp -> b.(input).(state) = STATE_BUSY -> b.(input).(job_operation_data) = Some p ->
  Z.of_nat (length d) <= PACKETPROTO_MAXPAYLOAD -> PACKETPROTO_ENCLEN (Z.of_nat (length d)) <= b.(input_mtu) -> bytes_at b.(buf).(buffer) (p + 2) d ->
  exists m, store (Z.to_nat p) (le_enc 2 (ByteOrder.htol16 (u16 (Z.of_nat (length d))))) b.(buf).(buffer) = Some m /\
    PacketBuffer.inv num (set_input (set_done (PACKETPROTO_ENCLEN (Z.of_nat (length d))) b.(input)) (set_buf (set_buffer m b.(buf)) b)) q (Some (frame d)).
Proof.
  intros V Hs Hp Hm Hl B. unfold PACKETPROTO_ENCLEN, PACKETPROTO_MAXPAYLOAD, UINT16_MAX, PacketProto.sizeof_packetproto_header in *.
  rewrite u16_small by lia. unfold ByteOrder.htol16. pose proof (PacketBuffer.in_busy_none _ _ _ _ V Hs) as ->.
  destruct (PacketBuffer.input_write_ok num b q None 0 (le_enc 2 (Z.of_nat (length d))) V Hs) as (p' & m & E1 & E2 & E3 & E4 & V'); [lia|rewrite le_enc_length; lia|].
  rewrite Hp in E1. injection E1 as <-. rewrite Z.add_0_r in E3, E4. unfold write_at in E3. destruct (0 <=? p) eqn:E0; [|done]. apply Z.leb_le in E0.
  destruct (store (Z.to_nat p) _ _) as [m'|] eqn:Es; [|done]. assert (m' = m) as -> by (by injection E3).
  exists m. split; [done|]. assert (bytes_at m p (frame d)) as Bf.
  { unfold frame. apply bytes_at_join; [done|]. rewrite le_enc_length. eapply bytes_at_store; [exact Es|exact B|]. rewrite le_enc_length. lia. }
  assert (2 + Z.of_nat (length d) = Z.of_nat (length (frame d))) as El by (unfold frame; rewrite length_app, le_enc_length; lia).
  rewrite El. apply (PacketBuffer.input_finish_ok num (set_buf (set_buffer m b.(buf)) b) q p); try done. rewrite <- El. cbn. lia.
Qed.

Lemma encoder_done_step num m o h : I num m o h -> legal o EDone = true -> exists o' a, step o EDone = Some (o', a) /\ I num m o' (h ++ a).
Proof.
  intros (q & inp & cur & V & Em & Hs & E) L. cbn [legal step] in *. pose proof V as []. pose proof (proj2 (job_of_state _ _ v_flow0) L) as Ho.
  destruct (inv_busy _ _ _ _ _ V) as (p & Hp & [(B1 & B2 & B3) A2]); [by rewrite Ho|]. rewrite Ho in A2. destruct A2 as (d & -> & Hn & Hl & B).
  unfold _PacketRecvInterface_job_done, PacketProto.enc_input_handler_done. rewrite (proj2 (is_state_true _ _) Ho), Hp, Hn. cbn [output_packet enc_output].
  destruct (header_write num o.(buffer_) q inp p d v_buffer0 B1 B2) as (mm & -> & VB); [lia|unfold PACKETPROTO_ENCLEN in *; lia|done|].
  unfold PacketRecvInterface_Done. pose proof (PacketBuffer.v_in_mtu _ _ _ _ v_buffer0) as Mi. rewrite (proj2 (is_state_true _ _) B1), Mi, v_enclen0.
  unfold PACKETPROTO_ENCLEN, PacketProto.sizeof_packetproto_header in *. rewrite !(proj2 (Z.leb_le _ _)) by lia. eexists _, _. split; [done|].
  pose proof (PacketBuffer.in_busy_none _ _ _ _ v_buffer0 B1) as ->. eapply (flow_quiet num m o h _ _ q None (Some d) q (Some (frame d)) None); try done.
  - split; cbn; try done; [by apply run_done_flow|]. rewrite v_have0. unfold is_state. by rewrite Ho.
  - unfold PacketBuffer.waiting. cbn. by rewrite !app_nil_r.
Qed.

Lemma shown_lists a : submitted (omap shown a) = [] /\ delivered (omap shown a) = PacketBuffer.delivered a.
Proof. unfold submitted, delivered, PacketBuffer.delivered. induction a as [|[] a [IH1 IH2]]; cbn in *; [done|done|]. split; [done|by f_equal]. Qed.

Lemma buffer_step num m o h ev : I num m o h -> legal o (Buffer ev) = true -> exists o' a, step o (Buffer ev) = Some (o', a) /\ I num m o' (h ++ a).
Proof.
  intros (q & inp & cur & V & Em & Hs & E) L. cbn [legal step] in *. apply andb_true_iff in L as [He L]. pose proof V as [].
  destruct (PacketBuffer.buffer_step_inv _ _ _ _ _ v_buffer0 L) as (b & a & q' & inp' & Eb & V' & W). rewrite Eb.
  destruct (PacketBuffer.buffer_jobs_frame _ _ _ _ _ _ _ v_buffer0 L ltac:(destruct ev; try done; auto) Eb) as (Fm & Fg & Fn & Fb).
  eexists _, _. split; [done|]. destruct (shown_lists a) as [Ea Ed].
  exists q', inp', cur. destruct (flow_lists_app h (omap shown a)) as [-> ->]. rewrite Ea, Ed, app_nil_r. split; [|split; [done|split; [done|]]].
  - split; cbn; rewrite ?Fm; try done. destruct (packet o) as [p|]; [|destruct v_packet0 as (? & ? & ?); auto].
    destruct v_packet0 as [(B1 & B2 & B3) A2]. destruct (Fb B1) as (F1 & F2 & F3). split; [by rewrite F1, F3|]. by rewrite F2.
  - rewrite Fg, app_nil_r in W. by rewrite E, W, <- !app_assoc.
Qed.

Lemma proto_flow_step_ok num m o h ev : I num m o h -> legal o ev = true -> exists o' a, step o ev = Some (o', a) /\ I num m o' (h ++ a).
Proof. destruct ev; eauto using start_step, write_step, end_step, writer_operation_step, encoder_operation_step, encoder_done_step, buffer_step. Qed.

(** ** The whole *)

Lemma buffer_init_frame i o num mem r : PacketBuffer_Init i o num mem = Some (Some r) -> r.(input).(state) = STATE_OPERATION_PENDING /\ r.(input_mtu) = i.(Flow.mtu).
Proof.
  unfold PacketBuffer_Init, PacketRecvInterface_Receiver_Init. intros E. repeat case_match; simplify_eq.
  match goal with H : PacketBuffer.recv _ = Some _ |- _ => apply PacketBuffer.recv_frame in H as [-> ->] end. done.
Qed.

(** Nothing is left to do for the jobs between the parts. *)
Definition settled (o : PacketProtoFlow) : Prop :=
  o.(ainput).(recv_interface).(job_operation) = false /\ o.(ainput).(recv_interface).(job_done) = false /\
  o.(buffer_).(input).(job_operation) = false /\ o.(buffer_).(input).(job_done) = false /\ o.(buffer_).(output).(job_done) = false.

(** A packet can be started unless the buffer is full. *)
Lemma settled_starts num o q inp cur : inv num o q inp cur -> settled o -> o.(ainput).(d_writing) = false ->
  Z.of_nat (length (PacketBuffer.waiting o.(buffer_) q inp)) < num -> exists w p, BufferWriter_StartPacket o.(ainput) = Some (w, Some p).
Proof.
  intros [] (S1 & S2 & S3 & S4 & S5) Hw Hn. pose proof v_buffer0 as VB. destruct VB. rewrite (fo_done _ _ v_out_flow) in S5. rewrite (fo_op _ _ v_in_flow) in S3. rewrite (fo_done _ _ v_in_flow) in S4.
  rewrite (fo_op _ _ v_flow0) in S1. rewrite (fo_done _ _ v_flow0) in S2. unfold PacketBuffer.waiting in Hn. rewrite S5, length_app in Hn.
  assert (o.(buffer_).(input).(state) = STATE_BUSY) as Hb.
  { unfold PacketBuffer.input_inv in v_in. unfold is_state in *. destruct (state (input (buffer_ o))); try done. destruct v_in as [Hlt _].
    destruct (room_mtu (buf (buffer_ o)) q (input_mtu (buffer_ o)) num) as [_ ?]; [done..|lia|lia]. }
  destruct (packet o) as [p|]; [|by destruct v_packet0]. destruct v_packet0 as [_ A2]. unfold is_state in *.
  assert (o.(ainput).(recv_interface).(state) = STATE_BUSY) as Hs by (destruct (state (recv_interface (ainput o))); done).
  unfold BufferWriter_StartPacket. rewrite Hw, v_have0, Hs. by eexists _, _.
Qed.

Lemma proto_flow_init mtu num o p mem : 0 <= mtu <= PACKETPROTO_MAXPAYLOAD -> PACKETPROTO_ENCLEN mtu <= o.(Flow.mtu) -> 0 < num <= INT_MAX ->
  PacketProto.idle_interface PacketPass o ->
  let blocks := ChunkBuffer2_calc_blocks (PACKETPROTO_ENCLEN mtu) num in
  0 < blocks -> sizeof_block * blocks <= INT_MAX -> Z.of_nat (length mem) = sizeof_block * blocks ->
  exists f, PacketProtoFlow_Init mtu num o p (Some mem) = Some (Some f) /\ I num mtu f [].
Proof.
  intros Hm Hmo Hn (Fo & Uo & So) blocks H1 H2 H3. unfold PACKETPROTO_MAXPAYLOAD, UINT16_MAX in Hm.
  destruct (PacketBuffer.buffer_init_inv (PACKETPROTO_ENCLEN mtu) o num mem) as (b & Eb & Vb & Wb); try done; [unfold PACKETPROTO_ENCLEN, PacketProto.sizeof_packetproto_header, INT_MAX; lia|].
  unfold PacketProtoFlow_Init, BufferWriter_Init, PacketRecvInterface_Init, PacketProtoEncoder_Init, PacketRecvInterface_Receiver_Init, PACKETPROTO_MAXPAYLOAD, UINT16_MAX.
  rewrite !(proj2 (Z.leb_le _ _)), (proj2 (Z.ltb_lt _ _)) by lia. cbn [recv_interface Flow.mtu flow_new handler_done set_handlers]. rewrite (proj2 (Z.leb_le mtu _)) by lia. cbn [negb].
  unfold PacketRecvInterface_Init. cbn [Flow.mtu flow_new set_handlers]. rewrite (proj2 (Z.leb_le 0 _)) by (unfold PACKETPROTO_ENCLEN, PacketProto.sizeof_packetproto_header; lia).
  cbn [enc_output enc_input output_packet]. rewrite Eb. eexists. split; [done|]. destruct (buffer_init_frame _ _ _ _ _ Eb) as [Sb Mb].
  exists [], None, None. split; [|split; [done|]; split; [constructor|]; cbn; by rewrite Wb]. split; cbn; rewrite ?Sb, ?Mb; done || (unfold PACKETPROTO_MAXPAYLOAD, UINT16_MAX; lia).
Qed.

Lemma prefix_concat {A} (l k : list (list A)) : l `prefix_of` k -> concat l `prefix_of` concat k.
Proof. intros [r ->]. rewrite concat_app. by eexists. Qed.

(** C20: packets through the stream.  Whatever the order in which the parties
    work, with a user that writes at most [mtu] bytes into a packet it has
    started: no assertion fails and no byte is written outside; what leaves the
    flow is the packets submitted, framed, in order, up to those still inside;
    when all jobs have run and fewer than [num] packets are inside, a packet can
    be started; and a decoder that reads a prefix of what left, cut into any
    pieces, delivers a prefix of the submitted packets and reports no error. *)
Theorem proto_flow_delivers mtu num o p mem evs i oi dmem devs :
  0 <= mtu <= PACKETPROTO_MAXPAYLOAD -> PACKETPROTO_ENCLEN mtu <= o.(Flow.mtu) -> 0 < num <= INT_MAX -> PacketProto.idle_interface PacketPass o ->
  let blocks := ChunkBuffer2_calc_blocks (PACKETPROTO_ENCLEN mtu) num in
  0 < blocks -> sizeof_block * blocks <= INT_MAX -> Z.of_nat (length mem) = sizeof_block * blocks ->
  PacketProto.idle_interface StreamRecv i -> PacketProto.idle_interface PacketPass oi -> mtu <= oi.(Flow.mtu) ->
  Z.of_nat (length dmem) = PACKETPROTO_ENCLEN (PacketProto.bmin_int oi.(Flow.mtu) PACKETPROTO_MAXPAYLOAD) ->
  exists f f' acts rest d d' dacts, PacketProtoFlow_Init mtu num o p (Some mem) = Some (Some f) /\ machine_run legal step f evs = Some (f', acts) /\
    map frame (submitted acts) = delivered acts ++ rest /\
    (settled f' -> f'.(ainput).(d_writing) = false -> Z.of_nat (length rest) < num -> exists w p', BufferWriter_StartPacket f'.(ainput) = Some (w, Some p')) /\
    PacketProto.PacketProtoDecoder_Init i oi (Some dmem) = Some (Some d) /\ PacketProto.run d devs = Some (d', dacts) /\
    (PacketProto.cleared dacts = false -> PacketProto.received dacts `prefix_of` concat (delivered acts) ->
     PacketProto.disturbed dacts = false /\ PacketProto.delivered dacts `prefix_of` submitted acts).
Proof.
  intros Hm Hmo Hn Ho blocks H1 H2 H3 Hi Hoi Hmi Hd. destruct (proto_flow_init mtu num o p mem) as (f & Ef & If); [done..|].
  destruct (machine_invariant legal step (I num mtu) (proto_flow_step_ok num mtu) evs f [] If) as (f' & acts & Er & q & inp & cur & V & _ & Hs & E). cbn [app] in *.
  destruct (PacketProto.decode_frames mtu i oi dmem devs (submitted acts)) as (d & d' & dacts & Ed & Erd & D); [done|done|lia|lia|done|done|].
  exists f, f', acts, (PacketBuffer.waiting f'.(buffer_) q inp ++ map frame (option_list cur)), d, d', dacts. do 3 (split; [done|]). split; [|split; [done|]; split; [done|]].
  - intros St Hw Hl. eapply settled_starts; try done. rewrite length_app in Hl. lia.
  - intros Hc Hp. destruct D as (D1 & D2 & _); [done| |done]. etrans; [exact Hp|]. unfold frames. rewrite E. apply prefix_concat. by eexists.
Qed.

(** Two packets, the second still inside; the first arrives in two pieces. *)
Definition sample_events : list event :=
  [EOperation; WOperation; Start; Write 1 [8]; End_ [7; 8]; EDone; Buffer PacketBuffer.IJobDone; Buffer PacketBuffer.OJobOperation; EOperation; WOperation;
   Start; Buffer PacketBuffer.ODone; End_ [9]; EDone].
Definition sample_decoding : list PacketProto.event :=
  [PacketProto.IJobOperation; PacketProto.IDone [2; 0; 7]; PacketProto.IJobDone; PacketProto.IJobOperation; PacketProto.IDone [8]; PacketProto.IJobDone;
   PacketProto.OJobOperation; PacketProto.ODone].

Lemma proto_flow_delivers_witness : exists f f' acts d d' dacts,
  PacketProtoFlow_Init 4 2 (flow_new 6) None (Some (repeat 0 36)) = Some (Some f) /\ machine_run legal step f sample_events = Some (f', acts) /\
  PacketProto.PacketProtoDecoder_Init (flow_new 0) (flow_new 4) (Some (repeat 0 6)) = Some (Some d) /\ PacketProto.run d sample_decoding = Some (d', dacts) /\
  submitted acts = [[7; 8]; [9]] /\ delivered acts = [[2; 0; 7; 8]] /\ PacketProto.delivered dacts = [[7; 8]] /\ PacketProto.delivered dacts `prefix_of` submitted acts.
Proof.
  destruct (proto_flow_delivers 4 2 (flow_new 6) None (repeat 0 36) sample_events (flow_new 0) (flow_new 4) (repeat 0 6) sample_decoding)
    as (f & f' & acts & rest & d & d' & dacts & E1 & E2 & _ & _ & E3 & E4 & D);
    [by split|by compute|by split|by repeat split|by compute|by compute|by compute|by repeat split|by repeat split|by compute|by compute|].
  exists f, f', acts, d, d', dacts. split; [exact E1|]. split; [exact E2|]. split; [exact E3|]. split; [exact E4|].
  vm_compute in E1. injection E1 as <-. vm_compute in E2. injection E2 as <- <-. vm_compute in E3. injection E3 as <-. vm_compute in E4. injection E4 as <- <-.
  split; [reflexivity|]. split; [reflexivity|]. split; [reflexivity|]. apply D; [reflexivity|]. by exists [].
Defined.
End ProtoFlow.
