(* ===== verification/Inactivity.v ===== *)
(** * The inactivity monitor

    Models [flowextra/PacketPassInactivityMonitor.c]: a layer between a source
    of packets and its output that reports when nothing was sent for a time.
    The monitor's timer is a timer of the reactor of [Reactor.v], whose rounds
    are steps of the model; the calls other parties make to the same reactor
    are too.  A clock that does not go back is part of the state.

    The last theorem is what the header promises: the handler is called only
    when nothing is being sent and the whole interval has passed since the last
    packet, unless a report was forced. *)

From S2P Require Import Prelude.
From S2P Require Import LinkedList.
From S2P Require Import Avl.
From S2P Require Import Pending.
From S2P Require Import Reactor.
From S2P Require Import ReactorFrame.
From S2P Require Import Flow.
Import Reactor.
Import Flow.

Import Frame.

(** ** The monitor *)
Module Monitor.

(** [handler] is the user's handler with its argument; [timer] is the place of
    the monitor's timer. *)
Record PacketPassInactivityMonitor := MkMonitor { output : flow_interface; reactor : BReactor; handler : option Z; input : flow_interface; timer : addr }.
Definition set_output x o := MkMonitor x o.(reactor) o.(handler) o.(input) o.(timer).
Definition set_reactor x o := MkMonitor o.(output) x o.(handler) o.(input) o.(timer).
Definition set_handler x o := MkMonitor o.(output) o.(reactor) x o.(input) o.(timer).
Definition set_input x o := MkMonitor o.(output) o.(reactor) o.(handler) x o.(timer).

Definition input_handler_send (o : PacketPassInactivityMonitor) (data : option Z) (data_len : Z) : option PacketPassInactivityMonitor :=
  LET i <- PacketPassInterface_Sender_Send o.(output) data data_len in
  let o := set_output i o in
  LET r <- BReactor_RemoveSmallTimer o.(reactor) o.(timer) in Some (set_reactor r o).

Definition input_handler_requestcancel (o : PacketPassInactivityMonitor) : option PacketPassInactivityMonitor :=
  LET i <- PacketPassInterface_Sender_RequestCancel o.(output) in Some (set_output i o).

(** [now] is the time when the timer is set. *)
Definition output_handler_done (o : PacketPassInactivityMonitor) (now : Z) : option PacketPassInactivityMonitor :=
  LET r <- BReactor_SetTimer o.(reactor) o.(timer) now in
  let o := set_reactor r o in
  LET i <- PacketPassInterface_Done o.(input) in Some (set_input i o).

(** With the handler that is called, if there is one. *)
Definition timer_handler (o : PacketPassInactivityMonitor) (now : Z) : option (PacketPassInactivityMonitor * option Z) :=
  LET r <- BReactor_SetTimer o.(reactor) o.(timer) now in
  let o := set_reactor r o in Some (o, o.(handler)).

(** [x] is what the timer's [absTime] holds before. *)
Definition PacketPassInactivityMonitor_Init (out : flow_interface) (r : BReactor) (interval : Z) (h : option Z) (a : addr) (x now : Z) : option PacketPassInactivityMonitor :=
  LET i <- PacketPassInterface_Init out.(mtu) in
  LET i <- (if out.(handler_requestcancel) then PacketPassInterface_EnableCancel i else Some i) in
  LET out <- PacketPassInterface_Sender_Init out in
  let r := BTimer_Init r a x interval in
  LET r <- BReactor_SetTimer r a now in
  Some (MkMonitor out r h i a).

(** The state of the reactor that is left. *)
Definition PacketPassInactivityMonitor_Free (o : PacketPassInactivityMonitor) : option BReactor :=
  BReactor_RemoveSmallTimer o.(reactor) o.(timer).

Definition PacketPassInactivityMonitor_SetHandler (o : PacketPassInactivityMonitor) (h : option Z) : PacketPassInactivityMonitor := set_handler h o.

Definition PacketPassInactivityMonitor_Force (o : PacketPassInactivityMonitor) (now : Z) : option PacketPassInactivityMonitor :=
  LET r <- BReactor_SetTimerAfter o.(reactor) o.(timer) 0 now in Some (set_reactor r o).

(** *** The parties around it *)

Inductive event := IInit | ISend (p : option Z) (n : Z) | ICancel | IJobOperation | IJobCancel | IJobDone
  | OJobOperation | OJobCancel | ODone | OJobDone (now : Z)
  | SetHandler (h : option Z) | Force (now : Z) | Call (c : rcall) | Turn (now : Z) (answers : list answer) (later : Z).
(** [Fired]: the timer's handler is called at a time; whether both interfaces
    are idle then; and the user's handler that is called. *)
Inductive action := Busy | Idle (at_ : Z) | Forced | Fired (at_ : Z) (quiet : bool) (h : option Z).

Definition no_jobs (i : flow_interface) : bool := negb i.(job_operation) && negb i.(job_requestcancel) && negb i.(job_done).

(** The time goes on; the reactor's rounds run jobs first, so that its timers
    expire when the interfaces have no jobs left. *)
Definition legal (x : PacketPassInactivityMonitor * Z) (ev : event) : bool :=
  let (o, clock) := x in
  match ev with
  | IInit => negb o.(input).(handler_done)
  | ISend p n => is_state STATE_NONE o.(input) && o.(input).(handler_done) && (0 <=? n) && (n <=? o.(input).(mtu)) && (negb (0 <? n) || negb (bool_decide (p = None)))
  | ICancel => negb (is_state STATE_NONE o.(input)) && o.(input).(handler_requestcancel)
  | IJobOperation => o.(input).(job_operation)
  | IJobCancel => o.(input).(job_requestcancel)
  | IJobDone => o.(input).(job_done)
  | OJobOperation => o.(output).(job_operation)
  | OJobCancel => o.(output).(job_requestcancel)
  | ODone => is_state STATE_BUSY o.(output)
  | OJobDone now => o.(output).(job_done) && (clock <=? now) && (now <=? INT64_MAX)
  | SetHandler _ => true
  | Force now => (clock <=? now) && (now <=? INT64_MAX)
  | Call c => legal_call o.(reactor) c && negb (about_timer o.(timer) c)
  | Turn now answers later =>
      (clock <=? now) && legal_round o.(reactor) now answers && no_jobs o.(input) && no_jobs o.(output) &&
      (wake_time (first_time o.(reactor)) now answers <=? later) && (later <=? INT64_MAX)
  end.

Definition step (x : PacketPassInactivityMonitor * Z) (ev : event) : option (PacketPassInactivityMonitor * Z * list action) :=
  let (o, clock) := x in
  match ev with
  | IInit => LET i <- PacketPassInterface_Sender_Init o.(input) in Some (set_input i o, clock, [])
  | ISend p n => LET i <- PacketPassInterface_Sender_Send o.(input) p n in Some (set_input i o, clock, [])
  | ICancel => LET i <- PacketPassInterface_Sender_RequestCancel o.(input) in Some (set_input i o, clock, [])
  | IJobOperation =>
      LET (i, (p, n)) <- _PacketPassInterface_job_operation o.(input) in
      LET o <- input_handler_send (set_input i o) p n in Some (o, clock, [Busy])
  | IJobCancel =>
      LET i <- _PacketPassInterface_job_requestcancel o.(input) in
      LET o <- input_handler_requestcancel (set_input i o) in Some (o, clock, [])
  | IJobDone => LET i <- _PacketPassInterface_job_done o.(input) in Some (set_input i o, clock, [])
  | OJobOperation => LET (i, _) <- _PacketPassInterface_job_operation o.(output) in Some (set_output i o, clock, [])
  | OJobCancel => LET i <- _PacketPassInterface_job_requestcancel o.(output) in Some (set_output i o, clock, [])
  | ODone => LET i <- PacketPassInterface_Done o.(output) in Some (set_output i o, clock, [])
  | OJobDone now =>
      LET i <- _PacketPassInterface_job_done o.(output) in
      LET o <- output_handler_done (set_output i o) now in Some (o, now, [Idle now])
  | SetHandler h => Some (PacketPassInactivityMonitor_SetHandler o h, clock, [])
  | Force now => LET o <- PacketPassInactivityMonitor_Force o now in Some (o, now, [Forced])
  | Call c => LET r <- call_step o.(reactor) c in Some (set_reactor r o, clock, [])
  | Turn now answers later =>
      let T := wake_time (first_time o.(reactor)) now answers in
      LET res <- exec_round o.(reactor) now answers in
      let o := set_reactor (after_round res) o in
      let quiet := is_state STATE_NONE o.(input) && is_state STATE_NONE o.(output) in
      match res with
      | Round _ (Some (CallTimer a _)) =>
          if bool_decide (a = o.(timer)) then LET (o, h) <- timer_handler o later in Some (o, later, [Fired T quiet h; Idle later])
          else Some (o, T, [])
      | _ => Some (o, T, [])
      end
  end.

(** When the timer was set last, if nothing was sent or forced since. *)
Definition since (h : list action) : option Z :=
  fold_left (fun s x => match x with Idle t => Some t | Busy | Forced => None | Fired _ _ _ => s end) h None.
Definition was_forced (h : list action) : bool := existsb (fun x => match x with Forced => true | _ => false end) h.

Lemma since_snoc h x : since (h ++ [x]) = match x with Idle t => Some t | Busy | Forced => None | Fired _ _ _ => since h end.
Proof. unfold since. rewrite fold_left_app. by destruct x. Qed.
Lemma was_forced_app h h' : was_forced (h ++ h') = was_forced h || was_forced h'.
Proof. apply existsb_app. Qed.

(** *** The timer *)
Section timer.
Context (interval : Z) (Hint : in_int64 interval = true) (a : addr).

(** The reactor is sound, and has the timer. *)
Record timer_base (r : BReactor) (clock : Z) (x : BSmallTimer) : Prop := {
  tb_inv : inv r;
  tb_late : late r clock;
  tb_clock : in_int64 clock = true;
  tb_timer : r.(timers) !! a = Some x /\ msTime x = interval;
}.

(** The timer runs while the output is idle, and since then only, unless it was
    forced. *)
Definition timer_active (x : BSmallTimer) (idle : bool) (h : list action) : Prop :=
  (idle = true -> tstate x <> TIMER_STATE_INACTIVE) /\
  (was_forced h = false -> tstate x <> TIMER_STATE_INACTIVE -> idle = true /\ exists t, since h = Some t /\ absTime x = btime_add t interval).

(** Whenever it fired. *)
Definition fired_ok (h : list action) : Prop := forall h1 T q hd h2, h = h1 ++ Fired T q hd :: h2 -> was_forced h1 = false ->
  q = true /\ exists t, since h1 = Some t /\ btime_add t interval <= T.

Definition timer_ok (r : BReactor) (clock : Z) (idle : bool) (h : list action) : Prop :=
  (exists x, timer_base r clock x /\ timer_active x idle h) /\ fired_ok h.

Lemma fired_snoc h y : fired_ok h ->
  match y with Fired T q _ => was_forced h = false -> q = true /\ exists t, since h = Some t /\ btime_add t interval <= T | _ => True end -> fired_ok (h ++ [y]).
Proof.
  intros F Hy h1 T q hd h2 E Hf. destruct h2 as [|z h2 _] using rev_ind.
  - apply app_inj_tail in E as [-> ->]. by apply Hy.
  - rewrite app_comm_cons, app_assoc in E. apply app_inj_tail in E as [-> _]. by eapply F.
Qed.

(** Timers that are not expired may get any time. *)
Lemma late_insert r tm tr ex b x C : late r C -> tm = <[b := x]> r.(timers) -> tstate x <> TIMER_STATE_EXPIRED -> late (set_timers tm tr ex r) C.
Proof. intros L -> Hx c y. cbn. intros [[<- <-]|[_ Hy]]%lookup_insert_Some; [done|]. by apply (L c). Qed.

Lemma base_set r clock x mode time now : timer_base r clock x -> clock <= now <= INT64_MAX -> in_int64 time = true ->
  exists r', BReactor_SetSmallTimer r a mode time now = Some r' /\
    timer_base r' now (MkTimer (set_time mode time now) TIMER_STATE_RUNNING (is_small x) (msTime x)).
Proof.
  intros [I L Hc [Hx Hm]] Hn Ht. assert (in_int64 now = true) as Hn' by (apply in_int64_true in Hc; apply in_int64_true; lia).
  destruct (set_timer_ok r a x mode time now (inv_timers _ I) Hx (set_time_range mode _ _ Ht Hn')) as (tr & ex & -> & T').
  eexists. split; [done|]. split; [by apply set_timers_inv|eapply late_insert; [by eapply late_mono; [|apply Hn]|done|done]|done|]. cbn. by rewrite lookup_insert_eq.
Qed.

Lemma timer_set r clock x now : timer_base r clock x -> clock <= now <= INT64_MAX ->
  exists r', BReactor_SetTimer r a now = Some r' /\ forall h, fired_ok h -> timer_ok r' now true (h ++ [Idle now]).
Proof.
  intros B Hn. pose proof B as [_ _ _ [Hx Hm]]. unfold BReactor_SetTimer. rewrite Hx, Hm.
  destruct (base_set r clock x BTIMER_SET_RELATIVE interval now B Hn Hint) as (r' & -> & B'). exists r'. split; [done|]. intros h F.
  split; [|by apply fired_snoc]. eexists. split; [exact B'|]. split; [done|]. intros _ _. split; [done|]. exists now. by rewrite since_snoc.
Qed.

Lemma timer_removed r clock idle h : timer_ok r clock idle h ->
  exists r', BReactor_RemoveSmallTimer r a = Some r' /\ timer_ok r' clock false (h ++ [Busy]).
Proof.
  intros [(x & [I L Hc [Hx Hm]] & A) F]. destruct (remove_timer_ok r a x (inv_timers _ I) Hx) as (tr & ex & -> & T'). eexists. split; [done|].
  split; [|by apply fired_snoc]. eexists. split; [split; [by apply set_timers_inv|by eapply late_insert|done|cbn; by rewrite lookup_insert_eq]|]. done.
Qed.

Lemma timer_forced r clock idle h now : timer_ok r clock idle h -> clock <= now <= INT64_MAX ->
  exists r', BReactor_SetTimerAfter r a 0 now = Some r' /\ timer_ok r' now idle (h ++ [Forced]).
Proof.
  intros [(x & B & A) F] Hn. destruct (base_set r clock x BTIMER_SET_RELATIVE 0 now B Hn) as (r' & E & B'); [done|]. exists r'. split; [done|].
  split; [|by apply fired_snoc]. eexists. split; [exact B'|]. split; [done|]. rewrite was_forced_app. cbn. by rewrite orb_true_r.
Qed.

Lemma timer_call r clock idle h c : timer_ok r clock idle h -> legal_call r c = true -> about_timer a c = false ->
  exists r', call_step r c = Some r' /\ timer_ok r' clock idle h.
Proof.
  intros [(x & [I L Hc [Hx Hm]] & A) F] Hl Ho. destruct (call_ok r c I Hl) as (r' & E & I'). exists r'. split; [done|]. split; [|done]. exists x. split; [|done].
  split; try done; destruct (call_timers a r c r' I Hl Ho E) as [Et|(b & y & Et & Hy & Hne)].
  - unfold late. by rewrite Et.
  - intros d z. rewrite Et. intros [[<- <-]|[_ Hz]]%lookup_insert_Some; [done|]. by apply (L d).
  - by rewrite Et.
  - by rewrite Et, lookup_insert_ne.
Qed.

(** What a round does when it does not call the timer's handler, and when it
    does. *)
Definition calls (res : round) : bool :=
  match res with Round _ (Some (CallTimer b _)) => bool_decide (b = a) | _ => false end.

Lemma round_base r clock x now answers res : timer_base r clock x -> clock <= now -> legal_round r now answers = true -> exec_round r now answers = Some res ->
  now <= wake_time (first_time r) now answers <= INT64_MAX /\
  exists x', timer_base (after_round res) (wake_time (first_time r) now answers) x' /\
    if calls res then tstate x = TIMER_STATE_EXPIRED else kept x x'.
Proof.
  intros [I L Hc [Hx Hm]] Hn Hl E. pose proof (round_late _ _ _ _ _ I Hl E L Hn) as L'. destruct (round_ok r now answers I Hl) as (res' & E' & _ & I').
  rewrite E in E'. injection E' as <-. unfold legal_round in Hl. rewrite !andb_true_iff, !Z.leb_le in Hl. destruct Hl as [[H0 H1] Hl].
  pose proof (wake_time_range _ _ _ _ H1 Hl) as HT. split; [done|]. set (T := wake_time _ _ _) in *.
  assert (in_int64 T = true) as HT' by (apply in_int64_true in Hc; apply in_int64_true; lia).
  assert (timers_kept r (after_round res) -> exists x', timer_base (after_round res) T x' /\ kept x x') as Keep.
  { intros K. destruct (K a x Hx) as (x' & Hx' & Kx). exists x'. split; [split; try done|done]. destruct Kx as (_ & _ & -> & _). done. }
  pose proof (round_kept _ _ _ _ E) as K. destruct res as [r' [[hd|b sm|b ev]|]|r']; cbn [calls round_timers after_round] in *; try by apply Keep, timers_kept_same.
  - destruct K as (y & Hy & Hs & Et). case_bool_decide as Eb.
    + subst b. exists (set_tstate TIMER_STATE_INACTIVE y). replace y with x in * by congruence. split; [|done]. split; try done. by rewrite Et, lookup_insert_eq.
    + exists x. split; [|done]. split; try done. by rewrite Et, lookup_insert_ne.
  - by destruct K as [K|[_ K]]; apply Keep; [apply timers_kept_same|].
  - by apply Keep.
Qed.

Lemma timer_ok_forced r clock idle h : timer_ok r clock true h -> (was_forced h = false -> idle = true) -> timer_ok r clock idle h.
Proof.
  intros [(x & B & A1 & A2) F] Hi. split; [|done]. exists x. split; [done|]. split; [intros _; by apply A1|].
  intros Hf Hs. split; [by apply Hi|]. by apply A2.
Qed.

(** The handler is called: the timer had expired, and is set again. *)
Lemma timer_turn r clock idle h now answers later q hd : timer_ok r clock idle h -> clock <= now -> legal_round r now answers = true ->
  wake_time (first_time r) now answers <= later <= INT64_MAX -> (idle = true -> q = true) ->
  exists res, exec_round r now answers = Some res /\
    if calls res then exists r', BReactor_SetTimer (after_round res) a later = Some r' /\
                        timer_ok r' later idle (h ++ [Fired (wake_time (first_time r) now answers) q hd; Idle later])
    else timer_ok (after_round res) (wake_time (first_time r) now answers) idle h.
Proof.
  intros [(x & B & A) F] Hn Hl Hlt Hq. pose proof B as [I L Hc [Hx Hm]]. destruct (round_ok r now answers I Hl) as (res & E & _). exists res. split; [done|].
  destruct (round_base r clock x now answers res B Hn Hl E) as (HT & x' & B' & K). destruct (calls res).
  - destruct (timer_set _ _ _ later B' Hlt) as (r' & Er & H'). exists r'. split; [done|]. destruct A as [_ A2]. rewrite K in A2. apply timer_ok_forced.
    2:{ rewrite was_forced_app. cbn. rewrite orb_false_r. intros Hf. by apply A2. }
    change (h ++ [?x; ?y]) with (h ++ ([x] ++ [y])). rewrite app_assoc.
    apply H', fired_snoc; [done|]. intros Hf. destruct (A2 Hf) as (Hi & t & Ht & Ha); [done|]. split; [by apply Hq|]. exists t. split; [done|]. rewrite <- Ha. specialize (L a x Hx K). lia.
  - split; [|done]. exists x'. split; [done|]. destruct K as (Ka & _ & _ & Kt), A as [A1 A2]. split.
    + intros Hi Hs. apply (A1 Hi). by apply Kt.
    + intros Hf Hs. rewrite Ka. apply A2; [done|]. by rewrite Kt.
Qed.
End timer.

(** *** The interfaces *)

Record flows_ok (o : PacketPassInactivityMonitor) : Prop := {
  fl_in : flow_ok PacketPass o.(input);
  fl_out : flow_ok PacketPass o.(output) /\ o.(output).(handler_done) = true;
  fl_mtu : o.(input).(mtu) = o.(output).(mtu);
  fl_cancel : o.(input).(handler_requestcancel) = o.(output).(handler_requestcancel);
  fl_args : o.(input).(state) = STATE_OPERATION_PENDING -> packet_ok o.(input).(mtu) o.(input).(job_operation_data) o.(input).(job_operation_len);
  fl_state : o.(input).(state) = STATE_BUSY <-> o.(output).(state) <> STATE_NONE;
}.

Definition I (interval : Z) (a : addr) (x : PacketPassInactivityMonitor * Z) (h : list action) : Prop :=
  flows_ok x.1 /\ x.1.(timer) = a /\ timer_ok interval a x.1.(reactor) x.2 (is_state STATE_NONE x.1.(output)) h.

(** Steps of the interfaces alone. *)
Lemma monitor_quiet interval a o o' clock h : I interval a (o, clock) h -> flows_ok o' -> o'.(timer) = o.(timer) -> o'.(reactor) = o.(reactor) ->
  (o'.(output).(state) = STATE_NONE <-> o.(output).(state) = STATE_NONE) -> I interval a (o', clock) (h ++ []).
Proof.
  intros (_ & Ea & T) F Et Er Es. rewrite app_nil_r. split; [done|]. cbn [fst snd] in *. rewrite Et, Er. split; [done|].
  assert (is_state STATE_NONE o'.(output) = is_state STATE_NONE o.(output)) as -> by (by apply bool_decide_ext). done.
Qed.

Lemma cancel_state i i' : PacketPassInterface_Sender_RequestCancel i = Some i' ->
  (i'.(state) = STATE_BUSY <-> i.(state) = STATE_BUSY) /\ (i'.(state) = STATE_OPERATION_PENDING -> i.(state) = STATE_OPERATION_PENDING) /\
  (i'.(state) = STATE_NONE <-> i.(state) = STATE_NONE).
Proof.
  unfold PacketPassInterface_Sender_RequestCancel, is_state. cbn. destruct (state i) eqn:Es; cbn; try done; repeat (case_match; try done);
    intros [= <-]; cbn; rewrite ?Es; try done.
Qed.

Lemma requestcancel_flow i : flow_ok PacketPass i -> i.(job_requestcancel) = true ->
  exists i', _PacketPassInterface_job_requestcancel i = Some i' /\ flow_ok PacketPass i' /\ i.(state) = STATE_BUSY /\ i'.(state) = STATE_BUSY /\
    i'.(mtu) = i.(mtu) /\ i'.(handler_done) = i.(handler_done) /\ i'.(handler_requestcancel) = true /\ i.(handler_requestcancel) = true.
Proof.
  intros F Hj. destruct (fo_cancel _ _ F Hj) as (_ & Hs & Hc & Hh). destruct F as [F1 F2 F3].
  unfold _PacketPassInterface_job_requestcancel. rewrite (proj2 (is_state_true _ _) Hs), Hc, Hh. eexists. split; [done|]. by split.
Qed.

(** The input's user, and the provider of the output. *)
Lemma monitor_flow_step interval a o clock h ev : I interval a (o, clock) h -> legal (o, clock) ev = true ->
  match ev with IInit | ISend _ _ | ICancel | IJobCancel | IJobDone | OJobOperation | OJobCancel | ODone | SetHandler _ => True | _ => False end ->
  exists x' acts, step (o, clock) ev = Some (x', acts) /\ I interval a x' (h ++ acts).
Proof.
  intros HI Hl Hev. pose proof HI as ([Fi [Fo Uo] Hm Hc Ha Hs] & _). cbn [fst] in *. destruct ev; try done; clear Hev; cbn [legal step] in *.
  - apply negb_true_iff in Hl. unfold PacketPassInterface_Sender_Init. rewrite Hl. eexists _, _. split; [done|]. eapply monitor_quiet; try done.
    split; cbn; try done. by destruct Fi as [F1 F2 F3].
  - rewrite !andb_true_iff, is_state_true, !Z.leb_le in Hl. destruct Hl as ((((Hn & Hh) & H0) & H1) & Hp).
    assert (packet_ok o.(input).(mtu) p n) as P. { split; [lia|]. intros Hz ->. by rewrite (proj2 (Z.ltb_lt _ _)) in Hp. }
    destruct (send_start o.(input) p n Fi Hn Hh P) as (i & -> & F' & S' & M' & H' & C' & D' & L'). eexists _, _. split; [done|]. eapply monitor_quiet; try done.
    rewrite Hn in Hs. split; cbn; rewrite ?M', ?C', ?S', ?D', ?L'; try done. rewrite <- Hs. done.
  - rewrite andb_true_iff, negb_true_iff in Hl. destruct Hl as [Hn Hh].
    destruct (cancel_request o.(input) Fi) as (i & E & F' & S' & M' & H' & C' & D' & L'); [by intros E%is_state_true; rewrite E in Hn|done|]. rewrite E.
    eexists _, _. split; [done|]. eapply monitor_quiet; try done. destruct (cancel_state _ _ E) as (S1 & S2 & _).
    split; cbn; rewrite ?M', ?C', ?D', ?L'; try done; [by intros ?%S2; apply Ha|by rewrite S1].
  - destruct (requestcancel_flow _ Fi Hl) as (i & -> & F' & S1 & S2 & M' & H' & C' & C1). unfold input_handler_requestcancel. cbn [output set_input].
    destruct (cancel_request o.(output) Fo) as (j & E & Fj & Sj & Mj & Hj & Cj & Dj & Lj); [by apply Hs|by rewrite <- Hc|]. rewrite E. eexists _, _. split; [done|].
    destruct (cancel_state _ _ E) as (_ & _ & S3). eapply monitor_quiet; try done. split; cbn; rewrite ?M', ?C', ?Mj, ?Cj, ?Hj, ?S2; try done. by rewrite <- Hc.
  - pose proof (proj2 (job_of_state _ _ Fi) Hl) as Hd. unfold _PacketPassInterface_job_done. rewrite (proj2 (is_state_true _ _) Hd). eexists _, _. split; [done|].
    eapply monitor_quiet; try done. rewrite Hd in Hs. split; cbn; try done; [by apply run_done_flow|]. by rewrite <- Hs.
  - pose proof (proj1 (job_of_state _ _ Fo) Hl) as Hd. unfold _PacketPassInterface_job_operation. rewrite (proj2 (is_state_true _ _) Hd). eexists _, _. split; [done|].
    eapply monitor_quiet; try done; [|by rewrite Hd]. rewrite Hd in Hs. split; cbn; try done; [split; [by apply run_operation_flow|done]|]. by rewrite Hs.
  - destruct (requestcancel_flow _ Fo Hl) as (i & -> & F' & S1 & S2 & M' & H' & C' & C1). eexists _, _. split; [done|].
    eapply monitor_quiet; try done; [|by rewrite S1, <- S2]. rewrite S1 in Hs. split; cbn; rewrite ?M', ?H', ?C', ?S2; try done. by rewrite Hc.
  - apply is_state_true in Hl. destruct (done_finish o.(output) Fo Hl) as (i & -> & F' & S' & M' & H' & C' & _). eexists _, _. split; [done|].
    eapply monitor_quiet; try done; [|by cbn; rewrite S', Hl]. rewrite Hl in Hs. split; cbn; rewrite ?M', ?H', ?C', ?S'; try done. by rewrite Hs.
  - eexists _, _. split; [done|]. by eapply monitor_quiet.
Qed.

Section steps.
Context (interval : Z) (Hint : in_int64 interval = true) (a : addr).

(** A packet starts: the timer stops. *)
Lemma monitor_starts o clock h : I interval a (o, clock) h -> legal (o, clock) IJobOperation = true ->
  exists x' acts, step (o, clock) IJobOperation = Some (x', acts) /\ I interval a x' (h ++ acts).
Proof.
  intros ([Fi [Fo Uo] Hm Hc Ha Hs] & Ea & T) Hl. cbn [fst snd legal step] in *. pose proof (proj1 (job_of_state _ _ Fi) Hl) as Hd.
  unfold _PacketPassInterface_job_operation, input_handler_send. rewrite (proj2 (is_state_true _ _) Hd). cbn [output set_input].
  assert (o.(output).(state) = STATE_NONE) as Ho by (rewrite Hd in Hs; destruct (state (output o)); [done|exfalso; by assert (STATE_OPERATION_PENDING = STATE_BUSY) by (by apply Hs)..]).
  destruct (send_start o.(output) o.(input).(job_operation_data) o.(input).(job_operation_len) Fo Ho Uo) as (i & -> & F' & S' & M' & H' & C' & D' & L'); [rewrite <- Hm; by apply Ha|]. cbn [reactor timer set_input set_output].
  rewrite Ea. destruct (timer_removed _ _ _ _ _ _ T) as (r' & -> & T'). eexists _, _. split; [done|]. split; [|split; [done|]].
  - split; cbn; rewrite ?M', ?H', ?C', ?S'; try done. by apply run_operation_flow.
  - cbn. unfold is_state. by rewrite S'.
Qed.

(** A packet ends: the timer is set again. *)
Lemma monitor_ends o clock h now : I interval a (o, clock) h -> legal (o, clock) (OJobDone now) = true ->
  exists x' acts, step (o, clock) (OJobDone now) = Some (x', acts) /\ I interval a x' (h ++ acts).
Proof.
  intros ([Fi [Fo Uo] Hm Hc Ha Hs] & Ea & [(x & B & A) F]) Hl. cbn [fst snd legal step] in *. rewrite !andb_true_iff, !Z.leb_le in Hl. destruct Hl as [[Hl H0] H1].
  pose proof (proj2 (job_of_state _ _ Fo) Hl) as Hd. unfold _PacketPassInterface_job_done, output_handler_done. rewrite (proj2 (is_state_true _ _) Hd).
  cbn [reactor set_output timer]. rewrite Ea. destruct (timer_set interval Hint a _ _ _ now B ltac:(lia)) as (r' & -> & T'). cbn [input set_reactor set_output].
  destruct (done_finish o.(input) Fi) as (i & -> & F' & S' & M' & H' & C' & _); [apply Hs; by rewrite Hd|]. eexists _, _. split; [done|]. split; [|split; [done|by apply T']].
  split; cbn; rewrite ?M', ?H', ?C', ?S'; try done. split; [by apply run_done_flow|done].
Qed.

(** A round of the reactor. *)
Lemma monitor_turn o clock h now answers later : I interval a (o, clock) h -> legal (o, clock) (Turn now answers later) = true ->
  exists x' acts, step (o, clock) (Turn now answers later) = Some (x', acts) /\ I interval a x' (h ++ acts).
Proof.
  intros (Fl & Ea & T) Hl. pose proof Fl as [Fi [Fo Uo] Hm Hc Ha Hs]. cbn [fst snd legal step] in *. rewrite !andb_true_iff, !Z.leb_le in Hl.
  destruct Hl as (((((H0 & Hr) & Ni) & No) & Hw) & Hx). set (W := wake_time _ _ _) in *.
  set (q := is_state STATE_NONE o.(input) && is_state STATE_NONE o.(output)).
  assert (is_state STATE_NONE o.(output) = true -> q = true) as Hq.
  { intros Ho. unfold q. rewrite Ho, andb_true_r. apply is_state_true in Ho. apply is_state_true. destruct Fi as [F1 F2 _]. unfold no_jobs, is_state in *.
    rewrite F1, F2 in Ni. destruct (state (input o)) eqn:Es; cbn in Ni; rewrite ?andb_false_r in Ni; try done. by apply Hs in Ho. }
  destruct (timer_turn interval Hint a _ _ _ _ now answers later q o.(handler) T H0 Hr ltac:(split; done) Hq) as (res & -> & Hres). fold W in Hres.
  destruct (calls a res) eqn:Ec.
  - destruct res as [r' [[|b sm|]|]|]; try done. cbn [calls] in Ec. cbn [set_reactor timer]. rewrite Ea, Ec. destruct Hres as (r1 & E1 & T1).
    unfold timer_handler. cbn [reactor timer set_reactor after_round] in *. rewrite Ea, E1. eexists _, _. split; [done|]. done.
  - assert (exists o', o' = set_reactor (after_round res) o /\ I interval a (o', W) (h ++ [])) as (o' & -> & HI).
    { eexists. split; [done|]. rewrite app_nil_r. done. }
    destruct res as [r' [[|b sm|]|]|]; try by eauto. cbn [calls] in Ec. cbn [set_reactor timer after_round] in *. rewrite Ea, Ec. eauto.
Qed.

Lemma monitor_step_ok x h ev : I interval a x h -> legal x ev = true -> exists x' acts, step x ev = Some (x', acts) /\ I interval a x' (h ++ acts).
Proof.
  destruct x as [o clock]. intros HI Hl. destruct ev; try (eapply monitor_flow_step; try done; fail);
    eauto using monitor_starts, monitor_ends, monitor_turn; pose proof HI as (Fl & Ea & T); cbn [fst snd legal step] in *; rewrite andb_true_iff in Hl.
  - rewrite !Z.leb_le in Hl. unfold PacketPassInactivityMonitor_Force. rewrite Ea. destruct (timer_forced interval a _ _ _ _ now T Hl) as (r' & -> & T'). eexists _, _. split; [done|]. split; [by destruct Fl|done].
  - destruct Hl as [Hc Ho%negb_true_iff]. rewrite Ea in Ho. destruct (timer_call interval a _ _ _ _ c T Hc Ho) as (r' & -> & T'). eexists _, _. split; [done|]. rewrite app_nil_r. split; [by destruct Fl|done].
Qed.
End steps.

Lemma monitor_init_ok r out interval hd a x now : inv r -> timer_idle r a = true -> late r now -> in_int64 interval = true -> INT64_MIN <= now <= INT64_MAX ->
  flow_ok PacketPass out -> out.(state) = STATE_NONE -> out.(handler_done) = false -> 0 <= out.(mtu) ->
  exists m, PacketPassInactivityMonitor_Init out r interval hd a x now = Some m /\ I interval a (m, now) [Idle now].
Proof.
  intros Ir Hi L Hint Hn F Hs Hd Hm. unfold PacketPassInactivityMonitor_Init, PacketPassInterface_Init, PacketPassInterface_Sender_Init, PacketPassInterface_EnableCancel.
  rewrite (proj2 (Z.leb_le _ _)) by done. rewrite Hd. set (r0 := BTimer_Init r a x interval).
  assert (timer_base interval a r0 now (MkTimer x TIMER_STATE_INACTIVE false interval)) as B.
  { split; [apply set_timers_inv; [done|by apply idle_timer_ok; [apply inv_timers|..]]|by eapply (late_insert r)|by apply in_int64_true|]. unfold r0. cbn. by rewrite lookup_insert_eq. }
  destruct (timer_set interval Hint a _ _ _ now B ltac:(lia)) as (r' & E & T'). rewrite E. specialize (T' []). cbn [app] in T'.
  assert (fired_ok interval []) as F0 by (intros h1 T q hd' h2 Eh; by destruct h1).
  destruct (out.(handler_requestcancel)) eqn:Ec; cbn [flow_new handler_requestcancel handler_done negb]; (eexists; split; [done|]); (split; [|split; [done|]]);
    try (split; cbn; rewrite ?Hs; try done; destruct F as [F1 F2 F3]; rewrite <- ?Ec; done);
    cbn; unfold is_state; cbn; rewrite Hs; by apply T'.
Qed.

(** C19: inactivity is reported when it should be.  On a reactor other parties use
    too, whatever the order of packets, cancels and rounds: no assertion fails;
    unless a report was forced, the timer's handler runs only when both
    interfaces are idle and the whole interval has passed since the last
    packet ended or the timer was set, whichever is later; the timer is running
    exactly while the output is idle; and the monitor can be freed. *)
Theorem inactivity_reported revs r out interval hd a x now evs :
  legal_run new_reactor revs = true -> reactor_run new_reactor revs = Some r -> timer_idle r a = true -> late r now ->
  in_int64 interval = true -> INT64_MIN <= now <= INT64_MAX ->
  flow_ok PacketPass out -> out.(state) = STATE_NONE -> out.(handler_done) = false -> 0 <= out.(mtu) ->
  exists m m' clock acts, PacketPassInactivityMonitor_Init out r interval hd a x now = Some m /\
    machine_run legal step (m, now) evs = Some (m', clock, acts) /\
    (forall h1 T quiet hd' h2, Idle now :: acts = h1 ++ Fired T quiet hd' :: h2 -> was_forced h1 = false ->
       quiet = true /\ exists t, since h1 = Some t /\ btime_add t interval <= T) /\
    (m'.(output).(state) = STATE_NONE -> BSmallTimer_IsRunning m'.(reactor) a = Some true) /\
    (was_forced acts = false -> BSmallTimer_IsRunning m'.(reactor) a = Some true -> m'.(output).(state) = STATE_NONE) /\
    exists r', PacketPassInactivityMonitor_Free m' = Some r' /\ BSmallTimer_IsRunning r' a = Some false.
Proof.
  intros Hl Er Hi L Hint Hn F Hs Hd Hm. destruct (reactor_run_ok revs _ new_reactor_inv Hl) as (r0 & E0 & Ir). rewrite Er in E0. injection E0 as <-.
  destruct (monitor_init_ok r out interval hd a x now Ir Hi L Hint Hn F Hs Hd Hm) as (m & Em & Im).
  destruct (machine_invariant legal step (I interval a) (monitor_step_ok interval Hint a) evs (m, now) [Idle now] Im) as ([m' clock] & acts & E & _ & Ea & Tm).
  cbn [fst snd] in *. exists m, m', clock, acts. split; [done|]. split; [done|]. pose proof Tm as [(y & [Iy Ly Hc [Hy My]] & A1 & A2) Fd]. split; [exact Fd|].
  unfold BSmallTimer_IsRunning at 1 2. rewrite Hy. split; [|split].
  - intros Ho. rewrite bool_decide_eq_false_2; [done|]. apply A1. by apply is_state_true.
  - intros Hf. case_bool_decide as By; [done|]. intros _. apply is_state_true. by apply A2.
  - unfold PacketPassInactivityMonitor_Free. rewrite Ea. destruct (remove_timer_ok _ a y (inv_timers _ Iy) Hy) as (tr & ex & -> & _). eexists. split; [done|].
    unfold BSmallTimer_IsRunning. cbn. by rewrite lookup_insert_eq.
Qed.

(** A packet sent at 2000 and taken at 6000; the interval is 10000. *)
Definition sample : list event :=
  [IInit; Turn 2000 [] 2000; ISend (Some 0) 3; IJobOperation; OJobOperation; ODone; OJobDone 6000; IJobDone; Turn 6000 [TimedOut 16000] 16000; Turn 16000 [] 16001].

Lemma inactivity_reported_witness :
  exists m m' clock acts, PacketPassInactivityMonitor_Init (flow_new 10) new_reactor 10000 (Some 7) 100 0 1000 = Some m /\
    machine_run legal step (m, 1000) sample = Some (m', clock, acts) /\
    acts = [Busy; Idle 6000; Fired 16000 true (Some 7); Idle 16001] /\ (exists t, since [Idle 1000; Busy; Idle 6000] = Some t /\ btime_add t 10000 <= 16000) /\
    BSmallTimer_IsRunning m'.(reactor) 100 = Some true.
Proof.
  destruct (inactivity_reported [] new_reactor (flow_new 10) 10000 (Some 7) 100 0 1000 sample) as (m & m' & clock & acts & E1 & E2 & E3 & E4 & _);
    [reflexivity|reflexivity|reflexivity|intros b y Hy; cbn in Hy; by rewrite lookup_empty in Hy|reflexivity|done|apply flow_new_ok|reflexivity|reflexivity|done|].
  exists m, m', clock, acts. split; [exact E1|]. split; [exact E2|]. assert (acts = [Busy; Idle 6000; Fired 16000 true (Some 7); Idle 16001]) as Ea.
  { vm_compute in E1. injection E1 as <-. vm_compute in E2. by injection E2 as _ _ <-. }
  split; [done|]. split.
  - destruct (E3 [Idle 1000; Busy; Idle 6000] 16000 true (Some 7) [Idle 16001]) as [_ H]; [by rewrite Ea|reflexivity|exact H].
  - apply E4. vm_compute in E1. injection E1 as <-. vm_compute in E2. by injection E2 as <- _ _.
Defined.

(** A forced report does not wait for the packet that is being sent: the
    handler is called with the output busy. *)
Example forced_while_sending :
  exists m m' clock acts, PacketPassInactivityMonitor_Init (flow_new 10) new_reactor 10000 (Some 7) 100 0 1000 = Some m /\
    machine_run legal step (m, 1000) [IInit; ISend (Some 0) 3; IJobOperation; OJobOperation; Force 2000; Turn 2000 [] 2000; Turn 2000 [] 2001] = Some (m', clock, acts) /\
    m'.(output).(state) = STATE_BUSY /\ acts = [Busy; Forced; Fired 2000 false (Some 7); Idle 2001].
Proof. eexists _, _, _, _. split; [vm_compute; reflexivity|]. split; [vm_compute; reflexivity|]. by split. Qed.
End Monitor.
