(* ===== verification/Addr.v ===== *)
(** * Socket addresses

    Models [system/BAddr.h].  The tagged unions [BIPAddr] and [BAddr] are
    inductive types; addresses and ports are in network byte order, so the
    object representation [le_enc] of an [ipv4] address lists its four
    octets in the order they are written.  [getaddrinfo], which is not part of
    the repository, is a parameter of the functions that call it. *)

From S2P Require Import Prelude.
From S2P Require Import Words.
From S2P Require Import ParseNumber.
From S2P Require Import CLib.
Import ByteOrder ReadWriteInt Bsize.

Inductive BIPAddr :=
  | BIPAddr_None
  | BIPAddr_IPv4 (ipv4 : Z)
  | BIPAddr_IPv6 (ipv6 : bytes).

Inductive BAddr :=
  | BAddr_None
  | BAddr_IPv4 (ip : Z) (port : Z)
  | BAddr_IPv6 (ip : bytes) (port : Z)
  | BAddr_Packet (phys_proto interface_index header_type packet_type : Z) (phys_addr : bytes).

#[export] Instance BIPAddr_eq_dec : EqDecision BIPAddr.
Proof. solve_decision. Defined.
#[export] Instance BAddr_eq_dec : EqDecision BAddr.
Proof. solve_decision. Defined.

(** The values of the C types. *)
Definition BIPAddr_wf (a : BIPAddr) : Prop :=
  match a with
  | BIPAddr_None => True
  | BIPAddr_IPv4 ip => 0 <= ip < 4294967296
  | BIPAddr_IPv6 ip => bytes_ok ip /\ length ip = 16%nat
  end.
Definition BAddr_wf (a : BAddr) : Prop :=
  match a with
  | BAddr_None => True
  | BAddr_IPv4 ip port => 0 <= ip < 4294967296 /\ 0 <= port < 65536
  | BAddr_IPv6 ip port => (bytes_ok ip /\ length ip = 16%nat) /\ 0 <= port < 65536
  | BAddr_Packet proto idx ht pt mac =>
      (0 <= proto < 65536) /\ (- INT_MAX - 1 <= idx <= INT_MAX) /\ ht = 1 /\ (1 <= pt <= 5) /\
      bytes_ok mac /\ length mac = 8%nat
  end.

Module BAddr.

Definition BADDR_TYPE_NONE : Z := 0.
Definition BADDR_TYPE_IPV4 : Z := 1.
Definition BADDR_TYPE_IPV6 : Z := 2.
Definition BADDR_TYPE_PACKET : Z := 5.
Definition BADDR_MAX_ADDR_LEN : nat := 128.

(** The [type] field. *)
Definition addr_type (a : BAddr) : Z :=
  match a with
  | BAddr_None => BADDR_TYPE_NONE
  | BAddr_IPv4 _ _ => BADDR_TYPE_IPV4
  | BAddr_IPv6 _ _ => BADDR_TYPE_IPV6
  | BAddr_Packet _ _ _ _ _ => BADDR_TYPE_PACKET
  end.

Definition BIPAddr_InitInvalid : BIPAddr := BIPAddr_None.
Definition BIPAddr_InitIPv4 (ip : Z) : BIPAddr := BIPAddr_IPv4 ip.
Definition BIPAddr_InitIPv6 (ip : bytes) : BIPAddr := BIPAddr_IPv6 (take 16 ip).
Definition BIPAddr_IsInvalid (a : BIPAddr) : bool :=
  match a with BIPAddr_None => true | _ => false end.

Definition BIPAddr_Compare (a1 a2 : BIPAddr) : bool :=
  match a1, a2 with
  | BIPAddr_IPv4 x, BIPAddr_IPv4 y => x =? y
  | BIPAddr_IPv6 x, BIPAddr_IPv6 y => memcmp x y =? 0
  | _, _ => false
  end.

Definition BAddr_MakeNone : BAddr := BAddr_None.
Definition BAddr_MakeIPv4 (ip port : Z) : BAddr := BAddr_IPv4 ip port.
Definition BAddr_MakeIPv6 (ip : bytes) (port : Z) : BAddr := BAddr_IPv6 (take 16 ip) port.
Definition BAddr_MakeFromIpaddrAndPort (a : BIPAddr) (port : Z) : BAddr :=
  match a with
  | BIPAddr_None => BAddr_MakeNone
  | BIPAddr_IPv4 ip => BAddr_MakeIPv4 ip port
  | BIPAddr_IPv6 ip => BAddr_MakeIPv6 ip port
  end.

(** The last two of the eight octets stay unset. *)
Definition BAddr_InitPacket (phys_proto interface_index header_type packet_type : Z)
    (phys_addr unset : bytes) : option BAddr :=
  ASSERT header_type =? 1 in
  ASSERT (1 <=? packet_type) && (packet_type <=? 5) in
  Some (BAddr_Packet phys_proto interface_index header_type packet_type (take 6 phys_addr ++ unset)).

Definition BAddr_IsInvalid (a : BAddr) : bool :=
  match a with BAddr_None => true | _ => false end.

Definition BAddr_GetPort (a : BAddr) : option Z :=
  match a with
  | BAddr_IPv4 _ port | BAddr_IPv6 _ port => Some port
  | _ => None
  end.

Definition BAddr_GetIPAddr (a : BAddr) : BIPAddr :=
  match a with
  | BAddr_IPv4 ip _ => BIPAddr_InitIPv4 ip
  | BAddr_IPv6 ip _ => BIPAddr_InitIPv6 ip
  | _ => BIPAddr_InitInvalid
  end.

Definition BAddr_SetPort (a : BAddr) (port : Z) : option BAddr :=
  match a with
  | BAddr_IPv4 ip _ => Some (BAddr_IPv4 ip port)
  | BAddr_IPv6 ip _ => Some (BAddr_IPv6 ip port)
  | _ => None
  end.

Definition BAddr_Compare (a1 a2 : BAddr) : bool :=
  match a1, a2 with
  | BAddr_IPv4 i1 p1, BAddr_IPv4 i2 p2 => (i1 =? i2) && (p1 =? p2)
  | BAddr_IPv6 i1 p1, BAddr_IPv6 i2 p2 => (memcmp i1 i2 =? 0) && (p1 =? p2)
  | _, _ => false
  end.

Definition BAddr_CompareOrder (a1 a2 : BAddr) : Z :=
  let cmp := B_COMPARE (addr_type a1) (addr_type a2) in
  if negb (cmp =? 0) then cmp
  else
    match a1, a2 with
    | BAddr_IPv4 i1 p1, BAddr_IPv4 i2 p2 =>
        let cmp := B_COMPARE (ntoh32 i1) (ntoh32 i2) in
        if negb (cmp =? 0) then cmp else B_COMPARE (ntoh16 p1) (ntoh16 p2)
    | BAddr_IPv6 i1 p1, BAddr_IPv6 i2 p2 =>
        let cmp := memcmp i1 i2 in
        if negb (cmp =? 0) then B_COMPARE cmp 0 else B_COMPARE (ntoh16 p1) (ntoh16 p2)
    | _, _ => 0
    end.

(** The text [sprintf] leaves in [out]. *)
Definition BIPAddr_Print (a : BIPAddr) : option bytes :=
  match a with
  | BIPAddr_None => Some (bs "(none)")
  | BIPAddr_IPv4 ip =>
      match le_enc 4 ip with
      | [a; b; c; d] =>
          Some (dec_repr a ++ bs "." ++ dec_repr b ++ bs "." ++ dec_repr c ++ bs "." ++ dec_repr d)
      | _ => None
      end
  | BIPAddr_IPv6 ip =>
      LET w0 <- badvpn_read_be16 ip in
      LET w1 <- badvpn_read_be16 (drop 2 ip) in
      LET w2 <- badvpn_read_be16 (drop 4 ip) in
      LET w3 <- badvpn_read_be16 (drop 6 ip) in
      LET w4 <- badvpn_read_be16 (drop 8 ip) in
      LET w5 <- badvpn_read_be16 (drop 10 ip) in
      LET w6 <- badvpn_read_be16 (drop 12 ip) in
      LET w7 <- badvpn_read_be16 (drop 14 ip) in
      Some (hex_repr w0 ++ bs ":" ++ hex_repr w1 ++ bs ":" ++ hex_repr w2 ++ bs ":" ++ hex_repr w3
              ++ bs ":" ++ hex_repr w4 ++ bs ":" ++ hex_repr w5 ++ bs ":" ++ hex_repr w6
              ++ bs ":" ++ hex_repr w7)
  end.

Definition BADDR_PACKET_HEADER_TYPE_ETHERNET : Z := 1.

(** [%d] of an [int] and [%02x] of a byte. *)
Definition dec_int (x : Z) : bytes := if x <? 0 then bs "-" ++ dec_repr (- x) else dec_repr x.
Definition hex2 (x : Z) : bytes := [hex_char (x / 16); hex_char (x mod 16)].

Definition BAddr_Print (a : BAddr) : option bytes :=
  match a with
  | BAddr_None => Some (bs "(none)")
  | BAddr_IPv4 ip port =>
      LET out <- BIPAddr_Print (BIPAddr_InitIPv4 ip) in
      Some (out ++ bs ":" ++ dec_repr (ntoh16 port))
  | BAddr_IPv6 ip port =>
      LET out <- BIPAddr_Print (BIPAddr_InitIPv6 ip) in
      Some (out ++ bs ":" ++ dec_repr (ntoh16 port))
  | BAddr_Packet phys_proto interface_index header_type packet_type phys_addr =>
      ASSERT header_type =? BADDR_PACKET_HEADER_TYPE_ETHERNET in
      match phys_addr with
      | a0 :: a1 :: a2 :: a3 :: a4 :: a5 :: _ =>
          Some (bs "proto=" ++ dec_repr phys_proto ++ bs ",ifindex=" ++ dec_int interface_index
                ++ bs ",htype=eth,ptype=" ++ dec_int packet_type ++ bs ",addr="
                ++ hex2 a0 ++ bs ":" ++ hex2 a1 ++ bs ":" ++ hex2 a2 ++ bs ":" ++ hex2 a3
                ++ bs ":" ++ hex2 a4 ++ bs ":" ++ hex2 a5)
      | _ => None
      end
  end.

Section Resolve.
(** [getaddrinfo v6 numeric_only node]: the address octets of the first
    result for the family, [None] on failure. *)
Context (getaddrinfo : bool -> bool -> bytes -> option bytes).

Definition ch_lbracket : Z := 91.
Definition ch_rbracket : Z := 93.
Definition ch_colon : Z := 58.

(** Returns the address, or [None] for the return value 0. *)
Definition BIPAddr_Resolve (str : bytes) (noresolve : bool) : option BIPAddr :=
  let v6 := match str with
            | c :: _ => (c =? ch_lbracket) && (List.last str 0 =? ch_rbracket)
            | [] => false
            end in
  let addr_str := if v6 then take (length str - 2) (drop 1 str) else str in
  if (BADDR_MAX_ADDR_LEN <? length addr_str)%nat then None
  else
    match getaddrinfo v6 noresolve addr_str with
    | None => None
    | Some octets => Some (if v6 then BIPAddr_IPv6 octets else BIPAddr_IPv4 (le_dec octets))
    end.

(** Splits [str] into the family, the address text and the port text. *)
Definition split_hostport (str : bytes) : option (bool * bytes * bytes) :=
  match str with
  | [] => None
  | c :: rest =>
      if c =? ch_lbracket then
        match strchr rest ch_rbracket with
        | None => None
        | Some (addr, after) =>
            match after with
            | c1 :: port => if c1 =? ch_colon then Some (true, addr, port) else None
            | [] => None
            end
        end
      else
        match strchr str ch_colon with
        | None => None
        | Some (addr, port) => Some (false, addr, port)
        end
  end.

(** [name_len] is [None] when [name] is NULL. *)
Definition BAddr_Parse2 (str : bytes) (name_len : option Z) (noresolve : bool)
  : option BAddr :=
  let len := length str in
  if (len <? 1)%nat || (1000 <? len)%nat then None
  else
    match split_hostport str with
    | None => None
    | Some (v6, addr_str, port_str) =>
        if (128 <=? length addr_str)%nat then None
        else if (6 <=? length port_str)%nat then None
        else
          let '(conv_res, err) := strtol10 port_str in
          if (match port_str with [] => true | _ => false end)
             || (match err with [] => false | _ => true end) then None
          else if (conv_res <? 0) || (UINT16_MAX <? conv_res) then None
          else
            let port := hton16 conv_res in
            match getaddrinfo v6 noresolve addr_str with
            | None => None
            | Some octets =>
                let addr := if v6 then BAddr_IPv6 octets port
                            else BAddr_IPv4 (le_dec octets) port in
                match name_len with
                | Some n => if u64 n <=? Z.of_nat (length addr_str) then None else Some addr
                | None => Some addr
                end
            end
    end.

Definition BAddr_Parse (str : bytes) (name_len : option Z) : option BAddr :=
  BAddr_Parse2 str name_len false.
End Resolve.

(** ** Lemmas *)

Lemma B_COMPARE_0 a b : B_COMPARE a b = 0 <-> a = b.
Proof. unfold B_COMPARE. destruct (Z.ltb_spec b a), (Z.ltb_spec a b); simpl; lia. Qed.
Lemma B_COMPARE_lt a b : B_COMPARE a b < 0 <-> a < b.
Proof. unfold B_COMPARE. destruct (Z.ltb_spec b a), (Z.ltb_spec a b); simpl; lia. Qed.
Lemma B_COMPARE_gt a b : 0 < B_COMPARE a b <-> b < a.
Proof. unfold B_COMPARE. destruct (Z.ltb_spec b a), (Z.ltb_spec a b); simpl; lia. Qed.

Lemma memcmp_be a b :
  bytes_ok a -> bytes_ok b -> length a = length b -> Z.sgn (memcmp a b) = Z.sgn (be_dec a - be_dec b).
Proof.
  intros Ha. revert b. induction Ha as [|x a Hx Ha IH]; intros b Hb Hl.
  { by destruct b. }
  destruct Hb as [|y b Hy Hb]; [done|]. simpl in Hl. injection Hl as Hl.
  assert (forall z l, be_dec (z :: l) = z * 256 ^ Z.of_nat (length l) + be_dec l) as Hc.
  { intros z l. unfold be_dec. simpl. rewrite <- (length_rev l). generalize (rev l) as r. clear.
    induction r as [|c r IHr]; [simpl; lia|]. cbn [app le_dec length].
    rewrite IHr, Nat2Z.inj_succ, Z.pow_succ_r by lia. ring. }
  rewrite !Hc, <- Hl. pose proof (be_dec_bound a Ha). pose proof (be_dec_bound b Hb) as Bb.
  rewrite <- Hl in Bb. cbn [memcmp]. unfold is_byte in *.
  destruct (Z.ltb_spec x y); [|destruct (Z.ltb_spec y x)].
  - rewrite (Z.sgn_neg (-1)), Z.sgn_neg by nia. done.
  - rewrite (Z.sgn_pos 1), Z.sgn_pos by nia. done.
  - assert (x = y) as -> by lia. rewrite IH by done. f_equal. lia.
Qed.

(** A numeric sort key: the order of [BAddr_CompareOrder]. *)
Definition order_key (a : BAddr) : Z * Z * Z :=
  match a with
  | BAddr_IPv4 ip port => (BADDR_TYPE_IPV4, ntoh32 ip, ntoh16 port)
  | BAddr_IPv6 ip port => (BADDR_TYPE_IPV6, be_dec ip, ntoh16 port)
  | _ => (addr_type a, 0, 0)
  end.

Definition key_lt (k1 k2 : Z * Z * Z) : Prop :=
  let '(a1, b1, c1) := k1 in let '(a2, b2, c2) := k2 in
  a1 < a2 \/ (a1 = a2 /\ (b1 < b2 \/ (b1 = b2 /\ c1 < c2))).

Lemma compare_order_key a b :
  BAddr_wf a -> BAddr_wf b ->
  (BAddr_CompareOrder a b < 0 <-> key_lt (order_key a) (order_key b)) /\
  (0 < BAddr_CompareOrder a b <-> key_lt (order_key b) (order_key a)).
Proof.
  intros Ha Hb. unfold BAddr_CompareOrder. cbv zeta.
  destruct (Z.eqb_spec (B_COMPARE (addr_type a) (addr_type b)) 0) as [E|E]; simpl.
  2:{ rewrite B_COMPARE_lt, B_COMPARE_gt. rewrite B_COMPARE_0 in E.
      destruct a, b; simpl in *; unfold BADDR_TYPE_NONE, BADDR_TYPE_IPV4, BADDR_TYPE_IPV6, BADDR_TYPE_PACKET in *; lia. }
  rewrite B_COMPARE_0 in E.
  destruct a as [|i1 p1|i1 p1|], b as [|i2 p2|i2 p2|];
    unfold addr_type, BADDR_TYPE_NONE, BADDR_TYPE_IPV4, BADDR_TYPE_IPV6, BADDR_TYPE_PACKET in E; try lia;
    cbn [order_key key_lt addr_type]; try (unfold key_lt; lia).
  - destruct (Z.eqb_spec (B_COMPARE (ntoh32 i1) (ntoh32 i2)) 0) as [C|C]; simpl;
      rewrite B_COMPARE_lt, B_COMPARE_gt; rewrite B_COMPARE_0 in C; lia.
  - destruct Ha as [[Hi1 Hl1] _], Hb as [[Hi2 Hl2] _].
    pose proof (memcmp_be i1 i2 Hi1 Hi2 ltac:(congruence)) as S.
    destruct (Z.eqb_spec (memcmp i1 i2) 0) as [C|C]; simpl; rewrite B_COMPARE_lt, B_COMPARE_gt.
    + rewrite C in S. simpl in S. symmetry in S. apply Z.sgn_null_iff in S. lia.
    + lia.
Qed.

Lemma bs_dot : bs "." = [46]. Proof. reflexivity. Qed.
Lemma bs_colon : bs ":" = [58]. Proof. reflexivity. Qed.

Lemma digits_ne l c : Forall is_digit l -> ~ is_digit c -> Forall (fun x => x <> c) l.
Proof. intros H Hc. eapply Forall_impl; [exact H|]. intros x Hx ->. done. Qed.

Lemma dec_repr_spec x :
  0 <= x <= UINT64_MAX -> dec_value (dec_repr x) = x /\ Forall is_digit (dec_repr x) /\ dec_repr x <> [].
Proof. intros H. apply dec_digits_spec; [by apply u64_lt_pow20|lia]. Qed.

(** A value below 10^n prints on at most n digits. *)
Lemma dec_repr_length n x :
  (0 < n <= 20)%nat -> 0 <= x < 10 ^ Z.of_nat n -> (length (dec_repr x) <= n)%nat.
Proof.
  intros Hn Hx. unfold dec_repr.
  assert (forall f m y, (0 < m <= f)%nat -> 0 <= y < 10 ^ Z.of_nat m ->
            (length (dec_digits f y []) <= m)%nat) as G; [|apply G; lia].
  clear. induction f as [|f IH]; intros m y Hm Hy; [simpl; lia|]. cbn [dec_digits].
  destruct (Z.ltb_spec 0 (y / 10)) as [Hq|]; [|simpl; lia].
  destruct m as [|m]; [lia|]. rewrite Nat2Z.inj_succ, Z.pow_succ_r in Hy by lia.
  pose proof (more_fuel m y Hy Hq).
  rewrite (dec_digits_app _ _ [_]), length_app.
  specialize (IH m (y / 10) ltac:(lia)). simpl.
  enough (length (dec_digits f (y / 10) []) <= m)%nat by lia. apply IH.
  split; [lia|]. apply Z.div_lt_upper_bound; lia.
Qed.

Lemma dec_int_length x : - INT_MAX - 1 <= x <= INT_MAX -> (length (dec_int x) <= 11)%nat.
Proof.
  intros H. unfold dec_int, INT_MAX in *. change (bs "-") with [45].
  destruct (Z.ltb_spec x 0); [cbn [app length]; pose proof (dec_repr_length 10 (- x))|pose proof (dec_repr_length 10 x)];
    simpl in *; lia.
Qed.

Lemma hex_repr_length x : (length (hex_repr x) <= 4)%nat.
Proof.
  unfold hex_repr. assert (forall f y acc, (length (hex_digits f y acc) <= f + length acc)%nat) as G.
  { induction f as [|f IH]; intros y acc; [simpl; lia|]. cbn [hex_digits].
    destruct (0 <? y / 16); [|simpl; lia]. specialize (IH (y / 16) (hex_char (y mod 16) :: acc)). simpl in IH. lia. }
  specialize (G 4%nat x []). simpl in *. lia.
Qed.

Lemma print_ipv6_text ip :
  length ip = 16%nat -> exists s, BIPAddr_Print (BIPAddr_IPv6 ip) = Some s /\ (length s <= 39)%nat.
Proof.
  intros H. do 16 (destruct ip as [|? ip]; [done|]). destruct ip; [|done]. clear H.
  eexists. split; [reflexivity|]. rewrite bs_colon. cbn [be_dec]. rewrite !length_app.
  repeat match goal with |- context [length (hex_repr ?x)] =>
    let H := fresh in pose proof (hex_repr_length x) as H; revert H; generalize (length (hex_repr x)) end.
  cbn [length]. lia.
Qed.

(** The text of a printed IPv4 address has no ':' and at most 15 characters. *)
Lemma print_ipv4_text ip s :
  BIPAddr_Print (BIPAddr_IPv4 ip) = Some s ->
  Forall (fun c => c <> ch_colon) s /\ (length s <= 15)%nat /\ exists c r, s = c :: r /\ is_digit c.
Proof.
  unfold BIPAddr_Print. rewrite bs_dot. cbn [le_enc]. set (a := ip mod 256). set (b := _ mod 256). set (c := _ mod 256). set (d := _ mod 256).
  intros [= <-]. pose proof (Z.mod_pos_bound ip 256). 
  assert (forall o, 0 <= o < 256 -> Forall is_digit (dec_repr o) /\ (length (dec_repr o) <= 3)%nat
            /\ dec_repr o <> []) as O.
  { intros o Ho. destruct (dec_repr_spec o) as (_ & D & N); [unfold UINT64_MAX; lia|].
    split; [done|]. split; [apply dec_repr_length; simpl; lia|done]. }
  assert (0 <= a < 256 /\ 0 <= b < 256 /\ 0 <= c < 256 /\ 0 <= d < 256) as (Ra & Rb & Rc & Rd)
    by (repeat split; apply Z.mod_pos_bound; lia).
  destruct (O a Ra) as (Da & La & Na), (O b Rb) as (Db & Lb & _), (O c Rc) as (Dc & Lc & _),
    (O d Rd) as (Dd & Ld & _).
  split; [|split].
  - assert (~ is_digit ch_colon) by (unfold is_digit, ch_colon, chr_9; lia).
    repeat ((apply Forall_app; split) || (apply Forall_cons; split)); try done; by apply digits_ne.
  - repeat (rewrite length_app || rewrite length_cons). lia.
  - destruct (dec_repr a) as [|c0 r] eqn:E; [done|]. inversion_clear Da. eauto.
Qed.

End BAddr.
Import BAddr.

(** [BAddr_CompareOrder] is a strict order on addresses that the sorted
    containers can rely on: antisymmetric in sign, transitive, and on IPv4 and
    IPv6 addresses zero exactly when [BAddr_Compare] reports equality, which
    is equality of the addresses. *)
Theorem compare_order_total a b c :
  BAddr_wf a -> BAddr_wf b -> BAddr_wf c ->
  (BAddr_CompareOrder a b < 0 <-> 0 < BAddr_CompareOrder b a) /\
  (BAddr_CompareOrder a b < 0 -> BAddr_CompareOrder b c < 0 -> BAddr_CompareOrder a c < 0) /\
  (BAddr_GetPort a <> None ->
     (BAddr_CompareOrder a b = 0 <-> a = b) /\ (BAddr_Compare a b = true <-> a = b)).
Proof.
  intros Wa Wb Wc.
  destruct (compare_order_key a b Wa Wb) as [Lab Gab], (compare_order_key b a Wb Wa) as [Lba Gba],
    (compare_order_key b c Wb Wc) as [Lbc _], (compare_order_key a c Wa Wc) as [Lac _].
  split; [by rewrite Lab, Gba|]. split.
  { rewrite Lab, Lbc, Lac. destruct (order_key a) as [[]], (order_key b) as [[]], (order_key c) as [[]].
    unfold key_lt. lia. }
  intros Hp. assert (BAddr_CompareOrder a b = 0 <-> order_key a = order_key b) as K.
  { split.
    - intros E. rewrite E in *. destruct (order_key a) as [[]], (order_key b) as [[]].
      unfold key_lt in *. f_equal; [f_equal|]; lia.
    - intros E. rewrite E in *. destruct (order_key b) as [[]]. unfold key_lt in *. lia. }
  rewrite K. clear -Wa Wb Hp.
  destruct a as [|i1 p1|i1 p1|], b as [|i2 p2|i2 p2|]; try done; unfold order_key, BAddr_wf in *;
    split; try (split; [|by intros [=]]; done).
  - split; [|by intros [= -> ->]]. intros [= Ei Ep]. unfold ntoh32, ntoh16 in *.
    rewrite <- (hton32_invol i1), <- (hton32_invol i2), <- (hton16_invol p1), <- (hton16_invol p2) by lia.
    by rewrite Ei, Ep.
  - simpl. rewrite andb_true_iff, !Z.eqb_eq. split; [by intros [-> ->]|by intros [= -> ->]].
  - split; [|by intros [= -> ->]]. intros [= Ei Ep]. destruct Wa as [[O1 L1] ?], Wb as [[O2 L2] ?].
    unfold ntoh16 in *. rewrite <- (hton16_invol p1), <- (hton16_invol p2), Ep by lia. f_equal.
    rewrite <- (be_enc_dec i1), <- (be_enc_dec i2), Ei by done. by rewrite L1, L2.
  - simpl. destruct Wa as [[O1 L1] ?], Wb as [[O2 L2] ?].
    rewrite andb_true_iff, !Z.eqb_eq, memcmp_refl_iff by congruence.
    split; [by intros [-> ->]|by intros [= -> ->]].
Qed.

Lemma compare_order_total_witness :
  let a := BAddr_IPv4 16777343 36895 in
  let b := BAddr_IPv4 16777343 20480 in
  BAddr_CompareOrder b a < 0 /\ 0 < BAddr_CompareOrder a b /\ BAddr_Compare a a = true.
Proof.
  cbv zeta. set (a := BAddr_IPv4 16777343 36895). set (b := BAddr_IPv4 16777343 20480).
  assert (BAddr_wf a /\ BAddr_wf b) as [Wa Wb] by (unfold a, b; simpl; lia).
  destruct (compare_order_total b a a Wb Wa Wa) as (AS & _ & _).
  destruct (compare_order_total a a a Wa Wa Wa) as (_ & _ & EQ).
  assert (BAddr_CompareOrder b a < 0) as L by reflexivity.
  split; [exact L|]. split; [exact (proj1 AS L)|].
  destruct (EQ ltac:(discriminate)) as [_ EQ']. exact (proj2 EQ' eq_refl).
Defined.

(** Parsing the printed form of an IPv4 socket address gives the address
    back.  For every address and port, and every resolver that maps the
    printed dotted quad of an address to its octets (the documented numeric
    behaviour of [getaddrinfo]), [BAddr_Parse2] applied to the output of
    [BAddr_Print] returns that address: the buffer and length limits of the
    parser are never hit. *)
Theorem addr_print_parse (getaddrinfo : bool -> bool -> bytes -> option bytes) ip port noresolve :
  0 <= ip < 4294967296 -> 0 <= port < 65536 ->
  (forall s, BIPAddr_Print (BIPAddr_IPv4 ip) = Some s -> getaddrinfo false noresolve s = Some (le_enc 4 ip)) ->
  exists s, BAddr_Print (BAddr_IPv4 ip port) = Some s /\
    BAddr_Parse2 getaddrinfo s None noresolve = Some (BAddr_IPv4 ip port).
Proof.
  intros Hip Hport Hres.
  destruct (BIPAddr_Print (BIPAddr_IPv4 ip)) as [t|] eqn:Et; [|discriminate Et].
  destruct (print_ipv4_text ip t Et) as (Nc & Lt & c & r & Er & Hc).
  pose proof (hton16_range port) as Rp.
  destruct (dec_repr_spec (hton16 port)) as (Vp & Dp & Np); [unfold UINT64_MAX; lia|].
  assert (length (dec_repr (hton16 port)) <= 5)%nat as Lp by (apply dec_repr_length; simpl; lia).
  exists (t ++ bs ":" ++ dec_repr (ntoh16 port)). unfold BAddr_Print, BIPAddr_InitIPv4. rewrite Et. split; [done|].
  unfold ntoh16. rewrite bs_colon. unfold BAddr_Parse2. cbv zeta.
  rewrite !length_app. cbn [length].
  destruct (Nat.ltb_spec (length t + (1 + length (dec_repr (hton16 port)))) 1); [lia|].
  destruct (Nat.ltb_spec 1000 (length t + (1 + length (dec_repr (hton16 port))))); [lia|]. cbn [orb].
  assert (split_hostport (t ++ [58] ++ dec_repr (hton16 port)) = Some (false, t, dec_repr (hton16 port))) as ->.
  { pose proof (strchr_app t 58 (dec_repr (hton16 port)) Nc) as SC. rewrite Er in *. cbn [app split_hostport] in *.
    destruct (Z.eqb_spec c ch_lbracket); [unfold is_digit, chr_9, ch_lbracket in *; lia|].
    unfold ch_colon. by rewrite SC. }
  destruct (Nat.leb_spec 128 (length t)); [lia|].
  destruct (Nat.leb_spec 6 (length (dec_repr (hton16 port)))); [lia|].
  rewrite strtol10_digits by (done || (unfold LONG_MAX; lia)). rewrite Vp.
  destruct (dec_repr (hton16 port)) eqn:Ed; [done|]. cbn [orb].
  destruct (Z.ltb_spec (hton16 port) 0); [lia|].
  destruct (Z.ltb_spec UINT16_MAX (hton16 port)); [unfold UINT16_MAX in *; lia|]. cbn [orb].
  rewrite (Hres t eq_refl), le_dec_enc by (simpl; lia). by rewrite hton16_invol.
Qed.

(** A resolver for the numeric address 127.0.0.1 only. *)
Definition resolve_loopback (v6 numeric : bool) (node : bytes) : option bytes :=
  if bool_decide (node = bs "127.0.0.1") then Some [127; 0; 0; 1] else None.

Lemma addr_print_parse_witness :
  exists s, BAddr_Print (BAddr_IPv4 16777343 (hton16 8880)) = Some s /\ s = bs "127.0.0.1:8880" /\
    BAddr_Parse2 resolve_loopback s None true = Some (BAddr_IPv4 16777343 (hton16 8880)).
Proof.
  destruct (addr_print_parse resolve_loopback 16777343 (hton16 8880) true) as (s & E & P);
    [lia|vm_compute; split; congruence|intros s [= <-]; reflexivity|].
  exists s. split; [exact E|]. split; [|exact P]. vm_compute in E. injection E as <-. reflexivity.
Defined.

(** The printing functions stay inside the buffers their callers provide:
    the text of any IP address has fewer than [BIPADDR_MAX_PRINT_LEN] = 40
    characters and the text of any socket address fewer than
    [BADDR_MAX_PRINT_LEN] = 120, so the terminating NUL fits too, and printing
    a well-formed address never asserts. *)
Theorem addr_print_fits a ip :
  BAddr_wf a -> BIPAddr_wf ip ->
  (exists s, BAddr_Print a = Some s /\ (length s < 120)%nat) /\
  (exists s, BIPAddr_Print ip = Some s /\ (length s < 40)%nat).
Proof.
  assert (forall i, BIPAddr_wf i -> exists s, BIPAddr_Print i = Some s /\ (length s < 40)%nat) as Hip.
  { intros [|i|i] Hw; [exists (bs "(none)"); split; [done|vm_compute; lia]| |].
    - destruct (BIPAddr_Print (BIPAddr_IPv4 i)) as [t|] eqn:Et; [|discriminate Et].
      exists t. destruct (print_ipv4_text i t Et) as (_ & Hl & _). split; [done|lia].
    - destruct Hw as [_ Hl]. destruct (print_ipv6_text i Hl) as (s & -> & Hs). exists s. split; [done|lia]. }
  intros Ha Hi. split; [|by apply Hip].
  assert (forall p, (length (dec_repr (ntoh16 p)) <= 5)%nat) as Hp.
  { intros p. apply dec_repr_length; [lia|]. pose proof (hton16_range p). unfold ntoh16. simpl. lia. }
  destruct a as [|i p|i p|pr idx ht pt mac];
    [exists (bs "(none)"); split; [done|vm_compute; lia]| | |]; cbn [BAddr_wf] in Ha.
  - destruct (Hip (BIPAddr_InitIPv4 i)) as (s & E & Hs); [apply Ha|]. unfold BAddr_Print. rewrite E.
    eexists. split; [done|]. rewrite bs_colon, !length_app. specialize (Hp p). cbn [length]. lia.
  - destruct Ha as [[Hb Hl] _]. destruct (Hip (BIPAddr_InitIPv6 i)) as (s & E & Hs).
    { unfold BIPAddr_InitIPv6. rewrite take_ge by lia. done. }
    unfold BAddr_Print. rewrite E. eexists. split; [done|]. rewrite bs_colon, !length_app. specialize (Hp p). cbn [length]. lia.
  - destruct Ha as (Hpr & Hidx & -> & Hpt & Hb & Hl). unfold BAddr_Print.
    do 6 (destruct mac as [|? mac]; [done|]). eexists. split; [done|].
    pose proof (dec_repr_length 5 pr ltac:(lia) ltac:(simpl; lia)) as L1. pose proof (dec_int_length idx Hidx) as L2.
    pose proof (dec_int_length pt ltac:(unfold INT_MAX; lia)) as L3. rewrite !length_app.
    revert L1 L2 L3. generalize (length (dec_repr pr)), (length (dec_int idx)), (length (dec_int pt)).
    intros n1 n2 n3. unfold hex2. cbn [length]. change (length (bs "proto=")) with 6%nat.
    change (length (bs ",ifindex=")) with 9%nat. change (length (bs ",htype=eth,ptype=")) with 17%nat.
    change (length (bs ",addr=")) with 6%nat. change (length (bs ":")) with 1%nat. lia.
Qed.

Lemma addr_print_fits_witness :
  exists s t, BAddr_Print (BAddr_Packet 2048 (-2147483648) 1 5 [1; 2; 3; 4; 5; 6; 0; 0]) = Some s /\ (length s < 120)%nat /\
    BIPAddr_Print (BIPAddr_IPv6 (repeat 255 16)) = Some t /\ (length t < 40)%nat.
Proof.
  destruct (addr_print_fits (BAddr_Packet 2048 (-2147483648) 1 5 [1; 2; 3; 4; 5; 6; 0; 0]) (BIPAddr_IPv6 (repeat 255 16)))
    as [(s & Es & Ls) (t & Et & Lt)].
  - unfold BAddr_wf, INT_MAX. repeat split; try lia. repeat constructor; unfold is_byte; lia.
  - split; [|reflexivity]. repeat constructor; unfold is_byte; lia.
  - exists s, t. auto.
Defined.
