(* ===== verification/Sockets.v ===== *)
(** * Listening and connecting

    Models the first half of [system/BConnection_unix.c]: address conversion,
    [BListener] and [BConnector], with [system/BConnection_common.c].  The
    reactor is the one of [Reactor.v]; a [BPending] job is a flag, as in
    [Flow.v].  The results of system calls are arguments; what is acquired from
    the system and given back to it is listed.  [None] as a result is a failed
    [ASSERT]. *)

From S2P Require Import Prelude.
From S2P Require Import LinkedList.
From S2P Require Import Reactor.
From S2P Require Import ReactorFrame.
From S2P Require Import Addr.
Import Reactor Frame.

Module Sockets.

(** ** Addresses *)

Definition AF_UNIX : Z := 1.
Definition AF_INET : Z := 2.
Definition AF_INET6 : Z := 10.
Definition sizeof_sockaddr_in : Z := 16.
Definition sizeof_sockaddr_in6 : Z := 28.

(** The union in [struct sys_addr], with the fields of [sockaddr_in] and
    [sockaddr_in6]; other families by their number. *)
Inductive sockaddr := sockaddr_in (sin_port s_addr : Z) | sockaddr_in6 (sin6_port sin6_flowinfo : Z) (s6_addr : bytes) (sin6_scope_id : Z) | sockaddr_other (family : Z).
Record sys_addr := MkSysAddr { len : Z; sa : sockaddr }.

Definition sa_family (a : sockaddr) : Z :=
  match a with sockaddr_in _ _ => AF_INET | sockaddr_in6 _ _ _ _ => AF_INET6 | sockaddr_other f => f end.

Definition addr_socket_to_sys (addr : BAddr) : option sys_addr :=
  match addr with
  | BAddr_IPv4 ip port => Some (MkSysAddr sizeof_sockaddr_in (sockaddr_in port ip))
  | BAddr_IPv6 ip port => Some (MkSysAddr sizeof_sockaddr_in6 (sockaddr_in6 port 0 (take 16 ip) 0))
  | _ => None
  end.

Definition addr_sys_to_socket (addr : sys_addr) : option BAddr :=
  match addr.(sa) with
  | sockaddr_in port ip => ASSERT addr.(len) =? sizeof_sockaddr_in in Some (BAddr.BAddr_MakeIPv4 ip port)
  | sockaddr_in6 port _ ip _ => ASSERT addr.(len) =? sizeof_sockaddr_in6 in Some (BAddr.BAddr_MakeIPv6 ip port)
  | sockaddr_other _ => Some BAddr.BAddr_MakeNone
  end.

Definition BConnection_AddressSupported (addr : BAddr) : bool :=
  (BAddr.addr_type addr =? BAddr.BADDR_TYPE_IPV4) || (BAddr.addr_type addr =? BAddr.BADDR_TYPE_IPV6).

Definition MAX_UNIX_SOCKET_PATH : Z := 200.
Definition offsetof_sun_path : Z := 2.

(** The bytes of [struct unix_addr]: [old] is what they hold before; the
    family is at their start, the path behind it.  [None] is the return value
    0; writing outside the union would be the outer [None]. *)
Definition build_unix_address (old : bytes) (socket_path : bytes) : option (option (Z * bytes)) :=
  let n := Z.of_nat (length socket_path) in
  if MAX_UNIX_SOCKET_PATH <? n then Some None
  else
    LET b <- store 0 (le_enc 2 AF_UNIX) old in
    LET b <- store (Z.to_nat offsetof_sun_path) (socket_path ++ [0]) b in
    Some (Some (offsetof_sun_path + n + 1, b)).

(** ** What is held of the system *)

Inductive resource := RPath | RFd | RSocketFile | RJob.
#[export] Instance sock_resource_eq_dec : EqDecision resource.
Proof. solve_decision. Defined.

Inductive action := Acquire (x : resource) | Release (x : resource) | Discarded | HandedOver | Connected (is_error : bool).

Fixpoint give_back (x : resource) (l : list resource) : option (list resource) :=
  match l with
  | [] => None
  | y :: l => if bool_decide (x = y) then Some l else LET l <- give_back x l in Some (y :: l)
  end.

(** [None] when something is given back that is not held; a descriptor that is
    handed over has a new owner. *)
Fixpoint holding (st : list resource) (tr : list action) : option (list resource) :=
  match tr with
  | [] => Some st
  | Acquire x :: tr => holding (x :: st) tr
  | Release x :: tr => LET st <- give_back x st in holding st tr
  | HandedOver :: tr => LET st <- give_back RFd st in holding st tr
  | _ :: tr => holding st tr
  end.

(** ** Listeners *)

Inductive BLisCon_from := BLISCON_FROM_ADDR (addr : BAddr) | BLISCON_FROM_UNIX (socket_path : bytes).

Inductive unlink_result := UnlinkOk | UnlinkENOENT | UnlinkFailed.
#[export] Instance unlink_result_eq_dec : EqDecision unlink_result.
Proof. solve_decision. Defined.

(** Results of the calls of [BListener_InitFrom], and the bytes of [unixaddr]
    before. *)
Record listen_calls := MkListenCalls {
  strdup_ok : bool; l_unixaddr : bytes; l_socket : Z; l_nonblock : bool; unlink_old : unlink_result; bind_ok : bool; listen_ok : bool; l_epoll : bool }.

Record BListener := MkListener { unix_socket_path : option bytes; lfd : Z; lbfd : addr; default_job : bool }.

Definition listener_fail0 (r : BReactor) (tr : list action) : option (BReactor * option BListener * list action) := Some (r, None, tr).
Definition listener_fail1 (unix : bool) r tr := listener_fail0 r (tr ++ if unix then [Release RPath] else []).
Definition listener_fail2 (unix : bool) r tr := listener_fail1 unix r (tr ++ [Release RFd]).
Definition listener_fail3 (unix : bool) r tr := listener_fail2 unix r (tr ++ if unix then [Release RSocketFile] else []).

(** From the non-blocking socket on; [path] is the copied path. *)
Definition listen_on (r : BReactor) (path : option bytes) (a : addr) (s : listen_calls) (tr : list action) : option (BReactor * option BListener * list action) :=
  let unix := bool_decide (is_Some path) in
  if unix && bool_decide (s.(unlink_old) = UnlinkFailed) then listener_fail2 unix r tr
  else if negb s.(bind_ok) then listener_fail2 unix r tr
  else
    let tr := tr ++ (if unix then [Acquire RSocketFile] else []) in
    if negb s.(listen_ok) then listener_fail3 unix r tr
    else
      let r := BFileDescriptor_Init r a s.(l_socket) in
      LET (r, ok) <- BReactor_AddFileDescriptor r a s.(l_epoll) in
      if negb ok then listener_fail3 unix r tr
      else
        LET r <- BReactor_SetFileDescriptorEvents r a BREACTOR_READ true in
        Some (r, Some (MkListener path s.(l_socket) a false), tr ++ [Acquire RJob]).

(** [a] is the place of the listener's [bfd]. *)
Definition BListener_InitFrom (r : BReactor) (from : BLisCon_from) (a : addr) (s : listen_calls) : option (BReactor * option BListener * list action) :=
  match from with
  | BLISCON_FROM_UNIX p =>
      if negb s.(strdup_ok) then listener_fail0 r []
      else
        let tr := [Acquire RPath] in
        LET u <- build_unix_address s.(l_unixaddr) p in
        match u with
        | None => listener_fail1 true r tr
        | Some _ =>
            if s.(l_socket) <? 0 then listener_fail1 true r tr
            else
              let tr := tr ++ [Acquire RFd] in
              if negb s.(l_nonblock) then listener_fail2 true r tr else listen_on r (Some p) a s tr
        end
  | BLISCON_FROM_ADDR addr =>
      if negb (BConnection_AddressSupported addr) then listener_fail1 false r []
      else
        LET _ <- addr_socket_to_sys addr in
        if s.(l_socket) <? 0 then listener_fail1 false r []
        else
          let tr := [Acquire RFd] in
          if negb s.(l_nonblock) then listener_fail2 false r tr else listen_on r None a s tr
  end.

Definition BListener_Init (r : BReactor) (addr : BAddr) (a : Z) (s : listen_calls) := BListener_InitFrom r (BLISCON_FROM_ADDR addr) a s.
Definition BListener_InitUnix (r : BReactor) (socket_path : bytes) (a : Z) (s : listen_calls) := BListener_InitFrom r (BLISCON_FROM_UNIX socket_path) a s.

(** The job is set, the user's handler is called. *)
Definition listener_fd_handler (o : BListener) : BListener := MkListener o.(unix_socket_path) o.(lfd) o.(lbfd) true.

(** Runs when the handler has not accepted; [newfd] is what [accept] returns. *)
Definition listener_default_job_handler (o : BListener) (newfd : Z) : BListener * list action :=
  (MkListener o.(unix_socket_path) o.(lfd) o.(lbfd) false, if newfd <? 0 then [] else [Acquire RFd; Discarded; Release RFd]).

Definition BListener_Free (r : BReactor) (o : BListener) : option (BReactor * list action) :=
  LET r <- BReactor_RemoveFileDescriptor r o.(lbfd) true in
  let unix := bool_decide (is_Some o.(unix_socket_path)) in
  Some (r, [Release RJob; Release RFd] ++ (if unix then [Release RSocketFile] else []) ++ (if unix then [Release RPath] else [])).

(** ** Connectors *)

Inductive connect_result := ConnectDone | ConnectInProgress | ConnectFailed.
Record connect_calls := MkConnectCalls { c_unixaddr : bytes; c_socket : Z; c_nonblock : bool; connect_res : connect_result; c_epoll : bool }.

Record BConnector := MkConnector { cjob : bool; cfd : Z; connected : bool; have_bfd : bool; cbfd : addr }.

(** From the socket on: [tr] has acquired the job. *)
Definition connect_on (r : BReactor) (a : addr) (s : connect_calls) (tr : list action) : option (BReactor * option BConnector * list action) :=
  let fail1 r tr := Some (r, None, tr ++ [Release RJob]) in
  let fail2 r tr := fail1 r (tr ++ [Release RFd]) in
  if s.(c_socket) <? 0 then fail1 r tr
  else
    let tr := tr ++ [Acquire RFd] in
    if negb s.(c_nonblock) then fail2 r tr
    else
      match s.(connect_res) with
      | ConnectFailed => fail2 r tr
      | ConnectInProgress =>
          let r := BFileDescriptor_Init r a s.(c_socket) in
          LET (r, ok) <- BReactor_AddFileDescriptor r a s.(c_epoll) in
          if negb ok then fail2 r tr
          else
            LET r <- BReactor_SetFileDescriptorEvents r a BREACTOR_WRITE true in
            Some (r, Some (MkConnector false s.(c_socket) false true a), tr)
      | ConnectDone => Some (r, Some (MkConnector true s.(c_socket) true false a), tr)
      end.

Definition BConnector_InitFrom (r : BReactor) (from : BLisCon_from) (a : Z) (s : connect_calls) : option (BReactor * option BConnector * list action) :=
  match from with
  | BLISCON_FROM_UNIX p =>
      LET u <- build_unix_address s.(c_unixaddr) p in
      match u with None => Some (r, None, []) | Some _ => connect_on r a s [Acquire RJob] end
  | BLISCON_FROM_ADDR addr =>
      if negb (BConnection_AddressSupported addr) then Some (r, None, [])
      else LET _ <- addr_socket_to_sys addr in connect_on r a s [Acquire RJob]
  end.

Definition BConnector_Init (r : BReactor) (addr : BAddr) (a : Z) (s : connect_calls) := BConnector_InitFrom r (BLISCON_FROM_ADDR addr) a s.
Definition BConnector_InitUnix (r : BReactor) (socket_path : bytes) (a : Z) (s : connect_calls) := BConnector_InitFrom r (BLISCON_FROM_UNIX socket_path) a s.

(** [res] is what [getsockopt] gives: [None] when it fails. *)
Definition connector_fd_handler (r : BReactor) (o : BConnector) (res : option Z) : option (BReactor * BConnector * list action) :=
  ASSERT 0 <=? o.(cfd) in
  ASSERT negb o.(connected) in
  ASSERT o.(have_bfd) in
  LET r <- BReactor_RemoveFileDescriptor r o.(cbfd) true in
  let ok := match res with Some n => n =? 0 | None => false end in
  Some (r, MkConnector o.(cjob) o.(cfd) ok false o.(cbfd), [Connected (negb ok)]).

Definition connector_job_handler (o : BConnector) : option (BConnector * list action) :=
  ASSERT 0 <=? o.(cfd) in
  ASSERT o.(connected) in
  ASSERT negb o.(have_bfd) in
  Some (MkConnector false o.(cfd) o.(connected) o.(have_bfd) o.(cbfd), [Connected false]).

Definition BConnector_Free (r : BReactor) (o : BConnector) : option (BReactor * list action) :=
  LET r <- (if o.(have_bfd) then BReactor_RemoveFileDescriptor r o.(cbfd) true else Some r) in
  Some (r, (if negb (o.(cfd) =? -1) then [Release RFd] else []) ++ [Release RJob]).

(** ** Properties *)

(** The two conversions are inverse on the addresses that are supported. *)
Lemma sys_addr_roundtrip a : BAddr_wf a -> BConnection_AddressSupported a = true ->
  exists s, addr_socket_to_sys a = Some s /\ addr_sys_to_socket s = Some a.
Proof.
  intros W. destruct a as [|ip port|ip port|]; try done; intros _; (eexists; split; [done|]); [done|].
  destruct W as [[_ Hl] _]. cbn. unfold BAddr.BAddr_MakeIPv6. by rewrite !firstn_all2 by (rewrite ?length_take; lia).
Qed.

Lemma unsupported_addr a : BConnection_AddressSupported a = false <-> addr_socket_to_sys a = None.
Proof. by destruct a. Qed.

(** The path is copied whole, with its terminator, or refused; the union of
    203 bytes is not left. *)
Lemma unix_address_fits old path : length old = Z.to_nat (offsetof_sun_path + MAX_UNIX_SOCKET_PATH + 1) ->
  exists res, build_unix_address old path = Some res /\
    match res with
    | None => MAX_UNIX_SOCKET_PATH < Z.of_nat (length path)
    | Some (n, b) => n = offsetof_sun_path + Z.of_nat (length path) + 1 /\ take (Z.to_nat n) b = le_enc 2 AF_UNIX ++ path ++ [0] /\ length b = length old
    end.
Proof.
  intros Hl. unfold build_unix_address. destruct (Z.ltb_spec MAX_UNIX_SOCKET_PATH (Z.of_nat (length path))); [by eexists|].
  unfold MAX_UNIX_SOCKET_PATH, offsetof_sun_path in *. destruct (store_total 0 (le_enc 2 AF_UNIX) old) as [b Eb]; [cbn in *; lia|]. rewrite Eb.
  destruct (store_total (Z.to_nat 2) (path ++ [0]) b) as [b' Eb']; [rewrite length_app, (store_length _ _ _ _ Eb); cbn in *; lia|]. rewrite Eb'.
  eexists. split; [done|]. split; [done|]. split; [|by rewrite (store_length _ _ _ _ Eb'), (store_length _ _ _ _ Eb)].
  apply store_prefix in Eb, Eb'. cbn [Nat.add take app] in Eb. rewrite length_app in Eb'. cbn [length] in Eb'.
  replace (Z.to_nat (2 + Z.of_nat (length path) + 1)) with (Z.to_nat 2 + (length path + 1))%nat by lia. rewrite Eb'.
  rewrite le_enc_length in Eb. change (Z.to_nat 2) with 2%nat. by rewrite Eb.
Qed.

Lemma holding_app st a b : holding st (a ++ b) = LET st' <- holding st a in holding st' b.
Proof.
  revert st. induction a as [|x a IH]; intros st; [done|]. destruct x; cbn; try apply IH; destruct (give_back _ st); done || apply IH.
Qed.

(** What initialization promises: everything is given back when it fails, and
    otherwise when the object is freed. *)
Definition listener_good (a : addr) (out : BReactor * option BListener * list action) : Prop :=
  let '(r, res, tr) := out in
  inv r /\
  match res with
  | None => holding [] tr = Some [] /\ is_active (r.(fds) !! a) = false
  | Some o => watches r a BREACTOR_READ /\ o.(lbfd) = a /\ o.(default_job) = false /\
      forall r' b, inv r' -> watches r' a BREACTOR_READ -> exists r2 tr2,
        BListener_Free r' (MkListener o.(unix_socket_path) o.(lfd) o.(lbfd) b) = Some (r2, tr2) /\
        inv r2 /\ is_active (r2.(fds) !! a) = false /\ holding [] (tr ++ tr2) = Some []
  end.

Lemma listen_on_good r path a s tr : inv r -> is_active (r.(fds) !! a) = false ->
  holding [] tr = Some (if bool_decide (is_Some path) then [RFd; RPath] else [RFd]) ->
  exists out, listen_on r path a s tr = Some out /\ listener_good a out.
Proof.
  intros I Ha Ht. unfold listen_on. set (unix := bool_decide (is_Some path)) in *.
  assert (forall r, inv r -> is_active (r.(fds) !! a) = false -> exists out, listener_fail2 unix r tr = Some out /\ listener_good a out) as F2.
  { intros r0 I0 A0. eexists. split; [done|]. split; [done|]. split; [|done]. rewrite !holding_app, Ht. by destruct unix. }
  destruct (unix && _); [by apply F2|]. destruct (bind_ok s); [|by apply F2]. cbn [negb].
  set (tr1 := tr ++ (if unix then [Acquire RSocketFile] else [])). assert (holding [] tr1 = Some (if unix then [RSocketFile; RFd; RPath] else [RFd])) as Ht1.
  { unfold tr1. rewrite holding_app, Ht. by destruct unix. }
  assert (forall r, inv r -> is_active (r.(fds) !! a) = false -> exists out, listener_fail3 unix r tr1 = Some out /\ listener_good a out) as F3.
  { intros r0 I0 A0. eexists. split; [done|]. split; [done|]. split; [|done]. rewrite !holding_app, Ht1. by destruct unix. }
  destruct (listen_ok s); [|by apply F3]. cbn [negb]. destruct (fd_added r a (l_socket s) (l_epoll s) I Ha) as (r1 & -> & I1 & _ & W1).
  destruct (l_epoll s); [|by apply F3]. cbn [negb]. destruct (fd_waits r1 a 0 BREACTOR_READ I1 W1) as (r2 & -> & I2 & W2 & _); [done|].
  eexists. split; [done|]. split; [done|]. split; [done|]. split; [done|]. split; [done|]. intros r' b I' W'. unfold BListener_Free. cbn [lbfd unix_socket_path].
  destruct (fd_removed r' a _ I' W') as (r3 & -> & I3 & A3%dormant_inactive & _). fold unix. eexists _, _. split; [done|]. split; [done|]. split; [done|].
  rewrite !holding_app, Ht1. by destruct unix.
Qed.

Lemma listener_releases r from a s : inv r -> is_active (r.(fds) !! a) = false ->
  length s.(l_unixaddr) = Z.to_nat (offsetof_sun_path + MAX_UNIX_SOCKET_PATH + 1) ->
  exists out, BListener_InitFrom r from a s = Some out /\ listener_good a out.
Proof.
  intros I Ha Hu. unfold BListener_InitFrom. destruct from as [addr|p].
  - destruct (BConnection_AddressSupported addr) eqn:Es; [|by eexists]. cbn [negb].
    destruct (addr_socket_to_sys addr) eqn:Ec; [|by apply unsupported_addr in Ec; congruence]. destruct (_ <? 0); [by eexists|].
    destruct (l_nonblock s); [|by eexists]. by apply listen_on_good.
  - destruct (strdup_ok s); [|by eexists]. cbn [negb]. destruct (unix_address_fits _ p Hu) as (u & -> & _). destruct u as [u|]; [|by eexists].
    destruct (_ <? 0); [by eexists|]. destruct (l_nonblock s); [|by eexists]. by apply listen_on_good.
Qed.

(** *** The life of a connector *)

(** [CTake] is the connection that takes the descriptor over. *)
Inductive cevent := CJob | CFd (res : option Z) | CTake | CCall (c : rcall).

Definition take_fd (o : BConnector) : BConnector := MkConnector o.(cjob) (-1) o.(connected) o.(have_bfd) o.(cbfd).

Definition clegal (x : BReactor * BConnector) (ev : cevent) : bool :=
  let (r, o) := x in
  match ev with
  | CJob => o.(cjob)
  | CFd _ => is_active (r.(fds) !! o.(cbfd))
  | CTake => o.(connected) && (0 <=? o.(cfd)) && negb o.(have_bfd) && negb o.(cjob)
  | CCall c => legal_call r c && negb (about_fd o.(cbfd) c)
  end.

Definition cstep (x : BReactor * BConnector) (ev : cevent) : option (BReactor * BConnector * list action) :=
  let (r, o) := x in
  match ev with
  | CJob => LET (o, acts) <- connector_job_handler o in Some (r, o, acts)
  | CFd res => connector_fd_handler r o res
  | CTake => Some (r, take_fd o, [HandedOver])
  | CCall c => LET r <- call_step r c in Some (r, o, [])
  end.

Definition reports (h : list action) : list bool := omap (fun x => match x with Connected e => Some e | _ => None end) h.

(** Waiting for the job or for the descriptor, or reported. *)
Record connector_inv (a : addr) (x : BReactor * BConnector) (h : list action) : Prop := {
  ci_reactor : inv x.1;
  ci_place : x.2.(cbfd) = a;
  ci_bfd : is_active (x.1.(fds) !! a) = x.2.(have_bfd) /\ (x.2.(have_bfd) = true -> watches x.1 a BREACTOR_WRITE);
  ci_turn : match reports h with
            | [] => (x.2.(cjob) = true /\ x.2.(connected) = true /\ x.2.(have_bfd) = false \/ x.2.(cjob) = false /\ x.2.(connected) = false /\ x.2.(have_bfd) = true) /\ 0 <= x.2.(cfd)
            | [e] => x.2.(cjob) = false /\ x.2.(have_bfd) = false /\ x.2.(connected) = negb e /\ (0 <= x.2.(cfd) \/ x.2.(cfd) = -1 /\ e = false)
            | _ => False
            end;
  ci_held : holding [] h = Some (if x.2.(cfd) =? -1 then [RJob] else [RFd; RJob]);
}.

Lemma connect_reports_app h h' : reports (h ++ h') = reports h ++ reports h'.
Proof. apply omap_app. Qed.

Lemma connector_inv_step a x h ev : connector_inv a x h -> clegal x ev = true -> exists x' acts, cstep x ev = Some (x', acts) /\ connector_inv a x' (h ++ acts).
Proof.
  destruct x as [r o]. intros [I Ep [Ea Ew] T H] Hl. cbn [fst snd] in *. destruct ev as [|res| |c]; cbn [clegal cstep] in *.
  - destruct (reports h) as [|e [|]] eqn:Er; [|by destruct T as [T _]; congruence|done]. destruct T as [[(_ & Hc & Hb)|[? _]] Hf]; [|congruence].
    unfold connector_job_handler. rewrite Hc, Hb, (proj2 (Z.leb_le _ _)) by done. cbn [negb]. eexists _, _. split; [done|]. rewrite Hb in Ea, Ew.
    split; cbn; rewrite ?connect_reports_app, ?Er, ?holding_app, ?H, ?Hc, ?Hb; try done. cbn. split; [done|]. split; [done|]. split; [done|]. by left.
  - rewrite Ep, Ea in Hl. destruct (reports h) as [|e [|]] eqn:Er; [|by destruct T as (_ & T & _); congruence|done]. destruct T as [[[_ [_ ?]]|(Hj & Hc & Hb)] Hf]; [congruence|].
    unfold connector_fd_handler. rewrite Hc, Hb, (proj2 (Z.leb_le _ _)), Ep by done. cbn [negb]. destruct (fd_removed r a _ I (Ew Hb)) as (r' & -> & I' & A'%dormant_inactive & _).
    eexists _, _. split; [done|]. split; cbn; rewrite ?connect_reports_app, ?Er, ?holding_app, ?H, ?Hj; try done. cbn. split; [done|]. split; [done|]. split; [by rewrite negb_involutive|]. by left.
  - rewrite !andb_true_iff, Z.leb_le, !negb_true_iff in Hl. destruct Hl as (((Hc & Hf) & Hb) & Hj).
    destruct (reports h) as [|e [|]] eqn:Er; [naive_solver congruence| |done]. destruct T as (_ & _ & He & _).
    eexists _, _. split; [done|]. split; cbn; rewrite ?connect_reports_app, ?Er, ?holding_app, ?H; try done.
    + cbn. split; [done|]. split; [done|]. split; [done|]. right. split; [done|]. rewrite Hc in He. by destruct e.
    + destruct (Z.eqb_spec (cfd o) (-1)); [lia|]. done.
  - rewrite andb_true_iff, negb_true_iff in Hl. destruct Hl as [Hl Ho]. rewrite Ep in Ho. destruct (call_ok r c I Hl) as (r' & E & I'). rewrite E.
    eexists _, _. split; [done|]. rewrite app_nil_r. destruct (call_registers r c r' E) as [K _]. specialize (K a Ho).
    split; cbn; try done. rewrite K. split; [done|]. intros Hb. destruct (Ew Hb) as (f & Hf & Hw). exists f. by rewrite K.
Qed.

Definition connector_good (a : addr) (out : BReactor * option BConnector * list action) : Prop :=
  let '(r, res, tr) := out in
  inv r /\ match res with
           | None => holding [] tr = Some [] /\ is_active (r.(fds) !! a) = false
           | Some o => reports tr = [] /\ connector_inv a (r, o) tr
           end.

Lemma connect_on_good r a s : inv r -> is_active (r.(fds) !! a) = false -> exists out, connect_on r a s [Acquire RJob] = Some out /\ connector_good a out.
Proof.
  intros I Ha. unfold connect_on. destruct (Z.ltb_spec (c_socket s) 0); [by eexists|]. destruct (c_nonblock s); [|by eexists]. cbn [negb].
  assert ((c_socket s =? -1) = false) as En by lia. destruct (connect_res s); [| |by eexists].
  - eexists. split; [done|]. split; [done|]. split; [done|]. split; cbn; rewrite ?En; try done. split; [by left|lia].
  - destruct (fd_added r a (c_socket s) (c_epoll s) I Ha) as (r1 & -> & I1 & _ & W1). destruct (c_epoll s); [|by eexists]. cbn [negb].
    destruct (fd_waits r1 a 0 BREACTOR_WRITE I1 W1) as (r2 & -> & I2 & W2 & _); [done|]. eexists. split; [done|]. split; [done|]. split; [done|].
    split; cbn; rewrite ?En; try done; [split; [by eapply watches_active|done]|]. split; [by right|lia].
Qed.

Lemma connector_init_good r from a s : inv r -> is_active (r.(fds) !! a) = false ->
  length s.(c_unixaddr) = Z.to_nat (offsetof_sun_path + MAX_UNIX_SOCKET_PATH + 1) ->
  exists out, BConnector_InitFrom r from a s = Some out /\ connector_good a out.
Proof.
  intros I Ha Hu. unfold BConnector_InitFrom. destruct from as [addr|p].
  - destruct (BConnection_AddressSupported addr) eqn:Es; [|by eexists]. cbn [negb].
    destruct (addr_socket_to_sys addr) eqn:Ec; [by apply connect_on_good|]. apply unsupported_addr in Ec. congruence.
  - destruct (unix_address_fits _ p Hu) as (u & -> & _). destruct u; [by apply connect_on_good|by eexists].
Qed.

(** Whatever a connector is told and whenever it is freed: no assertion fails,
    the outcome is reported at most once, the report is an error exactly when
    there is no connection to take over, and nothing stays open. *)
Theorem connector_outcome r from a s evs : inv r -> is_active (r.(fds) !! a) = false ->
  length s.(c_unixaddr) = Z.to_nat (offsetof_sun_path + MAX_UNIX_SOCKET_PATH + 1) ->
  exists r' res tr, BConnector_InitFrom r from a s = Some (r', res, tr) /\ inv r' /\
    match res with
    | None => holding [] tr = Some [] /\ is_active (r'.(fds) !! a) = false
    | Some o => exists r2 o2 acts r3 tr3, machine_run clegal cstep (r', o) evs = Some (r2, o2, acts) /\
        BConnector_Free r2 o2 = Some (r3, tr3) /\ holding [] (tr ++ acts ++ tr3) = Some [] /\ is_active (r3.(fds) !! a) = false /\
        match reports acts with [] => True | [e] => o2.(connected) = negb e | _ => False end
    end.
Proof.
  intros I Ha Hu. destruct (connector_init_good r from a s I Ha Hu) as ([[r' res] tr] & E & I' & G). exists r', res, tr. split; [done|]. split; [done|].
  destruct res as [o|]; [|done]. destruct G as [Er G].
  destruct (machine_invariant clegal cstep (connector_inv a) (connector_inv_step a) evs (r', o) tr G) as ([r2 o2] & acts & Em & [I2 Ep [Ea Ew] T H]).
  cbn [fst snd] in *. exists r2, o2, acts. unfold BConnector_Free. rewrite Ep.
  assert (exists r3, (if o2.(have_bfd) then BReactor_RemoveFileDescriptor r2 a true else Some r2) = Some r3 /\ is_active (r3.(fds) !! a) = false) as (r3 & -> & A3).
  { destruct (have_bfd o2); [|by exists r2]. destruct (fd_removed r2 a _ I2 (Ew eq_refl)) as (r3 & -> & _ & A3%dormant_inactive & _). by exists r3. }
  eexists r3, _. split; [done|]. split; [done|]. split; [|split; [done|]].
  - rewrite app_assoc, holding_app, H. by destruct (cfd o2 =? -1).
  - rewrite connect_reports_app, Er in T. cbn [app] in T. destruct (reports acts) as [|e [|]]; [done| |done]. by destruct T as (_ & _ & ? & _).
Qed.
End Sockets.
