(* ===== verification/Connection.v ===== *)
(** * Connections

    Models [BConnection] of [system/BConnection_unix.c]: a socket behind a
    [StreamPassInterface] and a [StreamRecvInterface], on the reactor of
    [Reactor.v] with its descriptors and limits.  The buffers of the user that
    the data pointers point into are part of the state, and so are the jobs, as
    flags.  The results of [read] and [write] are arguments.  [None] as a
    result is a failed [ASSERT] or an access outside a buffer.

    The theorems: for all users and all answers of the system no assertion
    fails, no byte is lost, repeated or reordered, an operation that waits is
    always waited for, and everything is given back. *)

From S2P Require Import Prelude.
From S2P Require Import LinkedList.
From S2P Require Import Reactor.
From S2P Require Import ReactorFrame.
From S2P Require Import Flow.
From S2P Require Import Addr.
From S2P Require Import Sockets.
Import Reactor Frame Flow.

Module Connection.

Definition BCONNECTION_SEND_LIMIT : Z := 2.
Definition BCONNECTION_RECV_LIMIT : Z := 2.

Inductive send_state := SEND_STATE_NOT_INITED | SEND_STATE_READY | SEND_STATE_BUSY.
Inductive recv_state := RECV_STATE_NOT_INITED | RECV_STATE_READY | RECV_STATE_BUSY | RECV_STATE_INITED_CLOSED | RECV_STATE_NOT_INITED_CLOSED.
#[export] Instance send_state_eq_dec : EqDecision send_state.
Proof. solve_decision. Defined.
#[export] Instance recv_state_eq_dec : EqDecision recv_state.
Proof. solve_decision. Defined.

(** The members of [send] and [recv]; the last field is the user's buffer. *)
Record send_half := MkSendHalf { slimit : addr; siface : flow_interface; sjob : bool; sdata : option Z; slen : Z; sstate : send_state; smem : bytes }.
Record recv_half := MkRecvHalf { rlimit : addr; riface : flow_interface; rjob : bool; rdata : option Z; ravail : Z; rstate : recv_state; rmem : bytes }.

(** [d_err]: an error has been reported. *)
Record BConnection := MkConnection { cn_fd : Z; close_fd : bool; is_hupd : bool; bfd : addr; wait_events : Z; send : send_half; recv : recv_half; d_err : bool }.

Definition set_siface i h := MkSendHalf h.(slimit) i h.(sjob) h.(sdata) h.(slen) h.(sstate) h.(smem).
Definition set_sbusy p n h := MkSendHalf h.(slimit) h.(siface) h.(sjob) p n SEND_STATE_BUSY h.(smem).
Definition set_sstate st h := MkSendHalf h.(slimit) h.(siface) h.(sjob) h.(sdata) h.(slen) st h.(smem).
Definition set_smem m h := MkSendHalf h.(slimit) h.(siface) h.(sjob) h.(sdata) h.(slen) h.(sstate) m.
Definition set_riface i h := MkRecvHalf h.(rlimit) i h.(rjob) h.(rdata) h.(ravail) h.(rstate) h.(rmem).
Definition set_rjob b h := MkRecvHalf h.(rlimit) h.(riface) b h.(rdata) h.(ravail) h.(rstate) h.(rmem).
Definition set_rbusy p n h := MkRecvHalf h.(rlimit) h.(riface) h.(rjob) p n RECV_STATE_BUSY h.(rmem).
Definition set_rstate st h := MkRecvHalf h.(rlimit) h.(riface) h.(rjob) h.(rdata) h.(ravail) st h.(rmem).
Definition set_rmem m h := MkRecvHalf h.(rlimit) h.(riface) h.(rjob) h.(rdata) h.(ravail) h.(rstate) m.

Definition set_hupd b o := MkConnection o.(cn_fd) o.(close_fd) b o.(bfd) o.(wait_events) o.(send) o.(recv) o.(d_err).
Definition set_wait w o := MkConnection o.(cn_fd) o.(close_fd) o.(is_hupd) o.(bfd) w o.(send) o.(recv) o.(d_err).
Definition set_send h o := MkConnection o.(cn_fd) o.(close_fd) o.(is_hupd) o.(bfd) o.(wait_events) h o.(recv) o.(d_err).
Definition set_recv h o := MkConnection o.(cn_fd) o.(close_fd) o.(is_hupd) o.(bfd) o.(wait_events) o.(send) h o.(d_err).
Definition set_err b o := MkConnection o.(cn_fd) o.(close_fd) o.(is_hupd) o.(bfd) o.(wait_events) o.(send) o.(recv) b.

Inductive cn_event := BCONNECTION_EVENT_ERROR | BCONNECTION_EVENT_RECVCLOSED.

(** [Wrote] and [Read]: the socket; [Sent] and [Received]: what the user is
    told; the dropped ones are those the user gave up before it was told. *)
Inductive action := Wrote (d : bytes) | Sent (d : bytes) | DroppedSent (d : bytes)
  | Read (d : bytes) | Received (d : bytes) | DroppedReceived (d : bytes) | Report (e : cn_event).

Inductive write_result := WDone (n : Z) | WAgain | WError.
(** No data is the end of the stream. *)
Inductive read_result := RData (d : bytes) | RAgain | RError.

Abbreviation outcome := (option (BReactor * BConnection * list action)).

Definition connection_report_error (r : BReactor) (o : BConnection) : outcome :=
  ASSERT negb o.(d_err) in
  Some (r, set_err true o, [Report BCONNECTION_EVENT_ERROR]).

(** [o->wait_events |= ev], and tell the reactor. *)
Definition wait_for (r : BReactor) (o : BConnection) (ev : Z) : outcome :=
  let o := set_wait (Z.lor o.(wait_events) ev) o in
  LET r <- BReactor_SetFileDescriptorEvents r o.(bfd) o.(wait_events) true in Some (r, o, []).

(** Whether another operation may be done in this round. *)
Definition within_limit (r : BReactor) (o : BConnection) (l : addr) : option (BReactor * bool) :=
  if negb o.(is_hupd) then BReactorLimit_Increment r l else Some (r, true).

Definition connection_send (r : BReactor) (o : BConnection) (w : write_result) : outcome :=
  ASSERT negb o.(d_err) in
  ASSERT bool_decide (o.(send).(sstate) = SEND_STATE_BUSY) in
  LET (r, ok) <- within_limit r o o.(send).(slimit) in
  if negb ok then wait_for r o BREACTOR_WRITE
  else
    LET p <- o.(send).(sdata) in
    ASSERT p + o.(send).(slen) <=? Z.of_nat (length o.(send).(smem)) in
    match w with
    | WAgain => if negb o.(is_hupd) then wait_for r o BREACTOR_WRITE else connection_report_error r o
    | WError => connection_report_error r o
    | WDone bytes =>
        ASSERT 0 <? bytes in
        ASSERT bytes <=? o.(send).(slen) in
        let d := take (Z.to_nat bytes) (drop (Z.to_nat p) o.(send).(smem)) in
        let o := set_send (set_sstate SEND_STATE_READY o.(send)) o in
        LET i <- StreamPassInterface_Done o.(send).(siface) bytes in
        Some (r, set_send (set_siface i o.(send)) o, [Wrote d])
    end.

Definition connection_recv (r : BReactor) (o : BConnection) (x : read_result) : outcome :=
  ASSERT negb o.(d_err) in
  ASSERT bool_decide (o.(recv).(rstate) = RECV_STATE_BUSY) in
  LET (r, ok) <- within_limit r o o.(recv).(rlimit) in
  if negb ok then wait_for r o BREACTOR_READ
  else
    match x with
    | RAgain => if negb o.(is_hupd) then wait_for r o BREACTOR_READ else connection_report_error r o
    | RError => connection_report_error r o
    | RData [] => Some (r, set_recv (set_rstate RECV_STATE_INITED_CLOSED o.(recv)) o, [Report BCONNECTION_EVENT_RECVCLOSED])
    | RData d =>
        let bytes := Z.of_nat (length d) in
        ASSERT bytes <=? o.(recv).(ravail) in
        LET p <- o.(recv).(rdata) in
        LET m <- store (Z.to_nat p) d o.(recv).(rmem) in
        let o := set_recv (set_rstate RECV_STATE_READY (set_rmem m o.(recv))) o in
        LET i <- StreamRecvInterface_Done o.(recv).(riface) bytes in
        Some (r, set_recv (set_riface i o.(recv)) o, [Read d])
    end.

(** The first part of the handler: the events are no longer waited for, and
    after a hang-up none is. *)
Definition acknowledge (r : BReactor) (o : BConnection) (ev : Z) : option (BReactor * BConnection) :=
  let o := set_wait (Z.land o.(wait_events) (Z.lnot ev)) o in
  LET r <- BReactor_SetFileDescriptorEvents r o.(bfd) o.(wait_events) true in
  if has ev BREACTOR_HUP then LET r <- BReactor_RemoveFileDescriptor r o.(bfd) true in Some (r, set_hupd true o) else Some (r, o).

Definition connection_fd_handler (r : BReactor) (o : BConnection) (events : Z) (w : write_result) (x : read_result) : outcome :=
  ASSERT negb o.(d_err) in
  ASSERT negb o.(is_hupd) in
  LET (r, o) <- acknowledge r o events in
  let fault := has events (Z.lor BREACTOR_ERROR BREACTOR_HUP) in
  let have_send := has events BREACTOR_WRITE || (fault && bool_decide (o.(send).(sstate) = SEND_STATE_BUSY)) in
  ASSERT negb have_send || bool_decide (o.(send).(sstate) = SEND_STATE_BUSY) in
  let have_recv := has events BREACTOR_READ || (fault && bool_decide (o.(recv).(rstate) = RECV_STATE_BUSY)) in
  ASSERT negb have_recv || bool_decide (o.(recv).(rstate) = RECV_STATE_BUSY) in
  if have_send then
    let o := if have_recv then set_recv (set_rjob true o.(recv)) o else o in
    connection_send r o w
  else if have_recv then connection_recv r o x
  else if negb o.(is_hupd) then connection_report_error r o
  else Some (r, o, []).

Definition connection_send_job_handler (r : BReactor) (o : BConnection) (w : write_result) : outcome :=
  ASSERT negb o.(d_err) in
  ASSERT bool_decide (o.(send).(sstate) = SEND_STATE_BUSY) in
  connection_send r o w.

Definition connection_recv_job_handler (r : BReactor) (o : BConnection) (x : read_result) : outcome :=
  ASSERT negb o.(d_err) in
  ASSERT bool_decide (o.(recv).(rstate) = RECV_STATE_BUSY) in
  connection_recv r o x.

Definition connection_send_if_handler_send (r : BReactor) (o : BConnection) (data : option Z) (data_len : Z) (w : write_result) : outcome :=
  ASSERT negb o.(d_err) in
  ASSERT bool_decide (o.(send).(sstate) = SEND_STATE_READY) in
  ASSERT 0 <? data_len in
  connection_send r (set_send (set_sbusy data data_len o.(send)) o) w.

Definition connection_recv_if_handler_recv (r : BReactor) (o : BConnection) (data : option Z) (data_avail : Z) (x : read_result) : outcome :=
  ASSERT negb o.(d_err) in
  ASSERT bool_decide (o.(recv).(rstate) = RECV_STATE_READY) in
  ASSERT 0 <? data_avail in
  connection_recv r (set_recv (set_rbusy data data_avail o.(recv)) o) x.

(** ** Setting up and freeing *)

(** Where the descriptor comes from, with the results of [accept] and
    [fcntl]; [want]: the address of the peer is asked for. *)
Inductive BConnection_source :=
  | BCONNECTION_SOURCE_TYPE_LISTENER (l : Sockets.BListener) (accepted : Z) (peer : Sockets.sys_addr) (want : bool) (nonblock : bool)
  | BCONNECTION_SOURCE_TYPE_CONNECTOR (c : Sockets.BConnector)
  | BCONNECTION_SOURCE_TYPE_PIPE (pipefd : Z) (close_it : bool) (nonblock : bool).

Definition source_ok (src : BConnection_source) : bool :=
  match src with
  | BCONNECTION_SOURCE_TYPE_LISTENER l _ _ _ _ => l.(Sockets.default_job)
  | BCONNECTION_SOURCE_TYPE_CONNECTOR c => (0 <=? c.(Sockets.cfd)) && c.(Sockets.connected) && negb c.(Sockets.have_bfd) && negb c.(Sockets.cjob)
  | BCONNECTION_SOURCE_TYPE_PIPE n _ _ => 0 <=? n
  end.

(** The listener's default job is unset, the connector's descriptor taken. *)
Definition source_left (src : BConnection_source) : BConnection_source :=
  match src with
  | BCONNECTION_SOURCE_TYPE_LISTENER l n p wt nb =>
      BCONNECTION_SOURCE_TYPE_LISTENER (Sockets.MkListener l.(Sockets.unix_socket_path) l.(Sockets.lfd) l.(Sockets.lbfd) false) n p wt nb
  | BCONNECTION_SOURCE_TYPE_CONNECTOR c => BCONNECTION_SOURCE_TYPE_CONNECTOR (Sockets.take_fd c)
  | _ => src
  end.

(** The descriptor, whether it is closed later, and whether to go on; the
    inner [None] is [fail0]. *)
Definition source_fd (src : BConnection_source) : option (Z * bool * bool) :=
  match src with
  | BCONNECTION_SOURCE_TYPE_LISTENER _ n _ _ nb => if n <? 0 then None else Some (n, true, nb)
  | BCONNECTION_SOURCE_TYPE_CONNECTOR c => Some (c.(Sockets.cfd), true, true)
  | BCONNECTION_SOURCE_TYPE_PIPE n cl nb => Some (n, cl, nb)
  end.

Definition source_addr (src : BConnection_source) : option (option BAddr) :=
  match src with
  | BCONNECTION_SOURCE_TYPE_LISTENER _ _ p true true => LET a <- Sockets.addr_sys_to_socket p in Some (Some a)
  | _ => Some None
  end.

(** [a], [ls] and [lr] are the places of [bfd] and of the limits, [h] and [g]
    what the members hold before; [epoll]: [epoll_ctl] succeeds. *)
Definition BConnection_Init (r : BReactor) (src : BConnection_source) (a ls lr : addr) (h : send_half) (g : recv_half) (epoll : bool)
  : option (BReactor * BConnection_source * option BConnection * option BAddr * list Sockets.action) :=
  ASSERT source_ok src in
  let left_ := source_left src in
  match source_fd src with
  | None => Some (r, left_, None, None, [])
  | Some (n, cl, go) =>
      let tr := if cl then [Sockets.Acquire Sockets.RFd] else [] in
      let fail1 := tr ++ (if cl then [Sockets.Release Sockets.RFd] else []) in
      if negb go then Some (r, left_, None, None, fail1)
      else
        LET ad <- source_addr src in
        let r := BFileDescriptor_Init r a n in
        LET (r, ok) <- BReactor_AddFileDescriptor r a epoll in
        if negb ok then Some (r, left_, None, ad, fail1)
        else
          LET r <- BReactorLimit_Init r ls BCONNECTION_SEND_LIMIT in
          LET r <- BReactorLimit_Init r lr BCONNECTION_RECV_LIMIT in
          let h := MkSendHalf ls h.(siface) h.(sjob) h.(sdata) h.(slen) SEND_STATE_NOT_INITED h.(smem) in
          let g := MkRecvHalf lr g.(riface) g.(rjob) g.(rdata) g.(ravail) RECV_STATE_NOT_INITED g.(rmem) in
          Some (r, left_, Some (MkConnection n cl false a 0 h g false), ad, tr)
  end.

Definition BConnection_Free (r : BReactor) (o : BConnection) : option (BReactor * list Sockets.action) :=
  ASSERT bool_decide (o.(send).(sstate) = SEND_STATE_NOT_INITED) in
  ASSERT bool_decide (o.(recv).(rstate) = RECV_STATE_NOT_INITED) || bool_decide (o.(recv).(rstate) = RECV_STATE_NOT_INITED_CLOSED) in
  LET r <- BReactorLimit_Free r o.(recv).(rlimit) in
  LET r <- BReactorLimit_Free r o.(send).(slimit) in
  LET r <- (if negb o.(is_hupd) then BReactor_RemoveFileDescriptor r o.(bfd) true else Some r) in
  Some (r, if o.(close_fd) then [Sockets.Release Sockets.RFd] else []).

Definition BConnection_SendAsync_Init (o : BConnection) : option BConnection :=
  ASSERT negb o.(d_err) in
  ASSERT bool_decide (o.(send).(sstate) = SEND_STATE_NOT_INITED) in
  let h := o.(send) in
  Some (set_send (MkSendHalf h.(slimit) StreamPassInterface_Init false h.(sdata) h.(slen) SEND_STATE_READY h.(smem)) o).

Definition BConnection_RecvAsync_Init (o : BConnection) : option BConnection :=
  ASSERT negb o.(d_err) in
  ASSERT bool_decide (o.(recv).(rstate) = RECV_STATE_NOT_INITED) in
  let h := o.(recv) in
  Some (set_recv (MkRecvHalf h.(rlimit) StreamRecvInterface_Init false h.(rdata) h.(ravail) RECV_STATE_READY h.(rmem)) o).

(** [o->wait_events &= ~ev], and tell the reactor, unless the peer hung up. *)
Definition stop_waiting (r : BReactor) (o : BConnection) (ev : Z) : option (BReactor * BConnection) :=
  if negb o.(is_hupd) then
    let o := set_wait (Z.land o.(wait_events) (Z.lnot ev)) o in
    LET r <- BReactor_SetFileDescriptorEvents r o.(bfd) o.(wait_events) true in Some (r, o)
  else Some (r, o).

(** Bytes that were written, or read, and not yet reported. *)
Definition unreported (i : flow_interface) (m : bytes) : bytes :=
  if is_state STATE_DONE_PENDING i then take (Z.to_nat i.(job_done_len)) m else [].

Definition BConnection_SendAsync_Free (r : BReactor) (o : BConnection) : outcome :=
  ASSERT bool_decide (o.(send).(sstate) = SEND_STATE_READY) || bool_decide (o.(send).(sstate) = SEND_STATE_BUSY) in
  LET (r, o) <- stop_waiting r o BREACTOR_WRITE in
  let h := o.(send) in
  Some (r, set_send (MkSendHalf h.(slimit) h.(siface) false h.(sdata) h.(slen) SEND_STATE_NOT_INITED h.(smem)) o, [DroppedSent (unreported h.(siface) h.(smem))]).

Definition BConnection_RecvAsync_Free (r : BReactor) (o : BConnection) : outcome :=
  ASSERT bool_decide (o.(recv).(rstate) = RECV_STATE_READY) || bool_decide (o.(recv).(rstate) = RECV_STATE_BUSY) ||
         bool_decide (o.(recv).(rstate) = RECV_STATE_INITED_CLOSED) in
  LET (r, o) <- stop_waiting r o BREACTOR_READ in
  let h := o.(recv) in
  Some (r, set_recv (MkRecvHalf h.(rlimit) h.(riface) false h.(rdata) h.(ravail) RECV_STATE_NOT_INITED h.(rmem)) o, [DroppedReceived (unreported h.(riface) h.(rmem))]).

(** ** The parties around it *)

Inductive event := SInit | SFree | SUser | SSend (d : bytes) | SJobOperation (w : write_result) | SJobDone
  | RInit | RFree | RUser | RRecv (m : bytes) | RJobOperation (x : read_result) | RJobDone | RJob (x : read_result)
  | Call (c : rcall) | Turn (now : Z) (answers : list answer) (w : write_result) (x : read_result).

(** What [write] and [read] may return on a buffer of a length: they do not
    write or read more than that, [write] writes something, and while an error
    is pending on the socket they fail. *)
Definition write_ok (faulty : bool) (n : Z) (w : write_result) : bool :=
  match w with WDone k => negb faulty && (0 <? k) && (k <=? n) | WAgain => negb faulty | WError => true end.
Definition read_ok (faulty : bool) (n : Z) (x : read_result) : bool :=
  match x with RData d => negb faulty && (Z.of_nat (length d) <=? n) | RAgain => negb faulty | RError => true end.

(** The reactor reports an error that is pending. *)
Definition faulted (faulty : bool) (events : Z) : bool := faulty || (has events BREACTOR_ERROR && negb (has events BREACTOR_HUP)).

Definition quiet (i : flow_interface) : bool := negb i.(job_operation) && negb i.(job_done).
Definition send_inited (h : send_half) : bool := negb (bool_decide (h.(sstate) = SEND_STATE_NOT_INITED)).
Definition recv_inited (h : recv_half) : bool := negb (bool_decide (h.(rstate) = RECV_STATE_NOT_INITED)).

(** After an error the connection may only be taken apart.  The reactor's
    rounds run jobs first. *)
Definition legal (s : BReactor * BConnection * bool) (ev : event) : bool :=
  let '(r, o, faulty) := s in
  let h := o.(send) in let g := o.(recv) in
  match ev with
  | SInit => negb o.(d_err) && negb (send_inited h)
  | SFree => send_inited h
  | SUser => send_inited h && negb h.(siface).(handler_done)
  | SSend d => negb o.(d_err) && send_inited h && is_state STATE_NONE h.(siface) && h.(siface).(handler_done) && negb (bool_decide (d = []))
  | SJobOperation w => negb o.(d_err) && send_inited h && h.(siface).(job_operation) && write_ok faulty h.(siface).(job_operation_len) w
  | SJobDone => send_inited h && h.(siface).(job_done)
  | RInit => negb o.(d_err) && negb (recv_inited g)
  | RFree => recv_inited g
  | RUser => recv_inited g && negb g.(riface).(handler_done)
  | RRecv m => negb o.(d_err) && recv_inited g && is_state STATE_NONE g.(riface) && g.(riface).(handler_done) && negb (bool_decide (m = []))
  | RJobOperation x => negb o.(d_err) && recv_inited g && g.(riface).(job_operation) && read_ok faulty g.(riface).(job_operation_len) x
  | RJobDone => recv_inited g && g.(riface).(job_done)
  | RJob x => negb o.(d_err) && recv_inited g && g.(rjob) && read_ok faulty g.(ravail) x
  | Call c => legal_call r c && negb (about_fd o.(bfd) c) && negb (about_limit h.(slimit) c) && negb (about_limit g.(rlimit) c)
  | Turn now answers w x =>
      negb o.(d_err) && legal_round r now answers && (negb (send_inited h) || quiet h.(siface)) && (negb (recv_inited g) || (quiet g.(riface) && negb g.(rjob))) &&
      match fd_event o.(bfd) (exec_round r now answers) with
      | Some ev => write_ok (faulted faulty ev) h.(slen) w && read_ok (faulted faulty ev) g.(ravail) x
      | None => true
      end
  end.

Definition step (s : BReactor * BConnection * bool) (ev : event) : option (BReactor * BConnection * bool * list action) :=
  let '(r, o, faulty) := s in
  let h := o.(send) in let g := o.(recv) in
  let quietly o := Some (r, o, faulty, []) in
  let with_ (out : outcome) (f : bool) := LET (x, acts) <- out in Some (x, f, acts) in
  match ev with
  | SInit => LET o <- BConnection_SendAsync_Init o in quietly o
  | SFree => with_ (BConnection_SendAsync_Free r o) faulty
  | SUser => LET i <- StreamPassInterface_Sender_Init h.(siface) in quietly (set_send (set_siface i h) o)
  | SSend d => LET i <- StreamPassInterface_Sender_Send h.(siface) (Some 0) (Z.of_nat (length d)) in quietly (set_send (set_smem d (set_siface i h)) o)
  | SJobOperation w =>
      LET (i, (p, n)) <- _StreamPassInterface_job_operation h.(siface) in
      with_ (connection_send_if_handler_send r (set_send (set_siface i h) o) p n w) faulty
  | SJobDone =>
      LET (i, n) <- _StreamPassInterface_job_done h.(siface) in
      Some (r, set_send (set_siface i h) o, faulty, [Sent (take (Z.to_nat n) h.(smem))])
  | RInit => LET o <- BConnection_RecvAsync_Init o in quietly o
  | RFree => with_ (BConnection_RecvAsync_Free r o) faulty
  | RUser => LET i <- StreamRecvInterface_Receiver_Init g.(riface) in quietly (set_recv (set_riface i g) o)
  | RRecv m => LET i <- StreamRecvInterface_Receiver_Recv g.(riface) (Some 0) (Z.of_nat (length m)) in quietly (set_recv (set_rmem m (set_riface i g)) o)
  | RJobOperation x =>
      LET (i, (p, n)) <- _StreamRecvInterface_job_operation g.(riface) in
      with_ (connection_recv_if_handler_recv r (set_recv (set_riface i g) o) p n x) faulty
  | RJobDone =>
      LET (i, n) <- _StreamRecvInterface_job_done g.(riface) in
      Some (r, set_recv (set_riface i g) o, faulty, [Received (take (Z.to_nat n) g.(rmem))])
  | RJob x => with_ (connection_recv_job_handler r (set_recv (set_rjob false g) o) x) faulty
  | Call c => LET r <- call_step r c in Some (r, o, faulty, [])
  | Turn now answers w x =>
      LET res <- exec_round r now answers in
      match fd_event o.(bfd) (Some res) with
      | Some ev => with_ (connection_fd_handler (after_round res) o ev w x) (faulted faulty ev)
      | None => Some (after_round res, o, faulty, [])
      end
  end.

Definition wrote (h : list action) : bytes := concat (omap (fun x => match x with Wrote d => Some d | _ => None end) h).
Definition sent (h : list action) : bytes := concat (omap (fun x => match x with Sent d | DroppedSent d => Some d | _ => None end) h).
Definition read (h : list action) : bytes := concat (omap (fun x => match x with Read d => Some d | _ => None end) h).
Definition received (h : list action) : bytes := concat (omap (fun x => match x with Received d | DroppedReceived d => Some d | _ => None end) h).

Lemma flow_apps x y : wrote (x ++ y) = wrote x ++ wrote y /\ sent (x ++ y) = sent x ++ sent y /\ read (x ++ y) = read x ++ read y /\ received (x ++ y) = received x ++ received y.
Proof. unfold wrote, sent, read, received. by rewrite !omap_app, !concat_app. Qed.

(** ** The invariant *)

(** The connection waits for an event. *)
Definition waits (o : BConnection) (m : Z) : bool := negb o.(is_hupd) && has o.(wait_events) m.

(** What the reactor knows. *)
Record base (r : BReactor) (o : BConnection) : Prop := {
  b_inv : inv r;
  b_events : events_ok o.(wait_events);
  b_fd : if o.(is_hupd) then dormant r o.(bfd) else watches r o.(bfd) o.(wait_events);
  b_limits : is_Some (r.(limits) !! o.(send).(slimit)) /\ is_Some (r.(limits) !! o.(recv).(rlimit)) /\ o.(send).(slimit) <> o.(recv).(rlimit);
}.

(** An operation of [n] bytes at the start of the user's buffer. *)
Definition operation_ok (i : flow_interface) (m : bytes) : Prop :=
  i.(job_operation_data) = Some 0 /\ i.(job_operation_len) = Z.of_nat (length m) /\ 0 < i.(job_operation_len).

Definition busy_send (h : send_half) : Prop :=
  flow_ok StreamPass h.(siface) /\ h.(siface).(state) = STATE_BUSY /\ operation_ok h.(siface) h.(smem) /\
  h.(sstate) = SEND_STATE_BUSY /\ h.(sdata) = Some 0 /\ h.(slen) = h.(siface).(job_operation_len).

Definition send_ok (err w : bool) (h : send_half) : Prop :=
  match h.(sstate) with
  | SEND_STATE_NOT_INITED => w = false
  | SEND_STATE_READY => flow_ok StreamPass h.(siface) /\ h.(siface).(state) <> STATE_BUSY /\ w = false /\
      (h.(siface).(state) = STATE_OPERATION_PENDING -> operation_ok h.(siface) h.(smem))
  | SEND_STATE_BUSY => busy_send h /\ (err = false -> w = true)
  end.

Definition busy_recv (g : recv_half) : Prop :=
  flow_ok StreamRecv g.(riface) /\ g.(riface).(state) = STATE_BUSY /\ operation_ok g.(riface) g.(rmem) /\
  g.(rstate) = RECV_STATE_BUSY /\ g.(rdata) = Some 0 /\ g.(ravail) = g.(riface).(job_operation_len).

Definition recv_ok (err faulty w : bool) (g : recv_half) : Prop :=
  match g.(rstate) with
  | RECV_STATE_NOT_INITED => w = false
  | RECV_STATE_READY => flow_ok StreamRecv g.(riface) /\ g.(riface).(state) <> STATE_BUSY /\ w = false /\ g.(rjob) = false /\
      (g.(riface).(state) = STATE_OPERATION_PENDING -> operation_ok g.(riface) g.(rmem)) /\
      (g.(riface).(state) = STATE_DONE_PENDING -> 0 < g.(riface).(job_done_len) <= Z.of_nat (length g.(rmem)))
  | RECV_STATE_BUSY => busy_recv g /\ (err = false -> if faulty then w || g.(rjob) = true else w = negb g.(rjob))
  | RECV_STATE_INITED_CLOSED => flow_ok StreamRecv g.(riface) /\ g.(riface).(state) = STATE_BUSY /\ w = false /\ g.(rjob) = false
  | RECV_STATE_NOT_INITED_CLOSED => False
  end.

(** What was written or read and is not reported yet. *)
Definition scur (h : send_half) : bytes := if send_inited h then unreported h.(siface) h.(smem) else [].
Definition rcur (g : recv_half) : bytes := if recv_inited g then unreported g.(riface) g.(rmem) else [].

Definition I (s : BReactor * BConnection * bool) (hist : list action) : Prop :=
  let '(r, o, faulty) := s in
  base r o /\ send_ok o.(d_err) (waits o BREACTOR_WRITE) o.(send) /\ recv_ok o.(d_err) faulty (waits o BREACTOR_READ) o.(recv) /\
  wrote hist = sent hist ++ scur o.(send) /\ read hist = received hist ++ rcur o.(recv).

(** *** Steps of the reactor *)

Lemma wait_for_ok r o m : base r o -> o.(is_hupd) = false -> events_ok m ->
  exists r', wait_for r o m = Some (r', set_wait (Z.lor o.(wait_events) m) o, []) /\ base r' (set_wait (Z.lor o.(wait_events) m) o).
Proof.
  intros [Hi He Hf [L1 [L2 L3]]] Hh Hm. rewrite Hh in Hf. unfold wait_for. cbn [bfd set_wait wait_events].
  destruct (fd_waits r o.(bfd) _ (Z.lor o.(wait_events) m) Hi Hf) as (r' & -> & I' & W' & L'); [by apply events_ok_lor|]. exists r'. split; [done|].
  split; cbn; rewrite ?Hh, ?L'; try done. by apply events_ok_lor.
Qed.

Lemma within_limit_ok r o l : base r o -> l = o.(send).(slimit) \/ l = o.(recv).(rlimit) ->
  exists r' ok, within_limit r o l = Some (r', ok) /\ base r' o /\ (o.(is_hupd) = true -> ok = true).
Proof.
  intros B Hl. unfold within_limit. destruct (is_hupd o) eqn:Hh; cbn [negb]; [by exists r, true|]. pose proof B as [Hi He Hf [L1 [L2 L3]]].
  destruct (limit_taken r l Hi) as (r' & ok & -> & I' & F' & K'); [by destruct Hl as [-> | ->]|]. exists r', ok. split; [done|]. split; [|done].
  split; try done; rewrite Hh in *; [|by split; [apply K'|split; [apply K'|]]]. unfold watches. by rewrite F'.
Qed.

Lemma waits_more o :
  let ow := set_wait (Z.lor o.(wait_events) BREACTOR_WRITE) o in let or := set_wait (Z.lor o.(wait_events) BREACTOR_READ) o in
  waits ow BREACTOR_READ = waits o BREACTOR_READ /\ waits ow BREACTOR_WRITE = negb o.(is_hupd) /\
  waits or BREACTOR_WRITE = waits o BREACTOR_WRITE /\ waits or BREACTOR_READ = negb o.(is_hupd).
Proof.
  cbn zeta. unfold waits. cbn. change BREACTOR_READ with (2 ^ 0). change BREACTOR_WRITE with (2 ^ 1). rewrite !has_lor by done. cbn.
  by rewrite !orb_false_r, !orb_true_r, !andb_true_r.
Qed.

Lemma waits_less o ev m : m = BREACTOR_READ \/ m = BREACTOR_WRITE ->
  waits (set_wait (Z.land o.(wait_events) (Z.lnot ev)) o) m = waits o m && negb (has ev m).
Proof.
  intros Hm. unfold waits. cbn. rewrite <- andb_assoc. f_equal.
  destruct Hm as [-> | ->]; [change BREACTOR_READ with (2 ^ 0)|change BREACTOR_WRITE with (2 ^ 1)]; by apply has_clear.
Qed.

(** *** One operation on the socket *)

Lemma connection_send_ok r o w faulty : base r o -> o.(d_err) = false -> busy_send o.(send) -> write_ok faulty o.(send).(slen) w = true ->
  (faulty = false -> waits o BREACTOR_WRITE = false) ->
  exists r' o' acts, connection_send r o w = Some (r', o', acts) /\ base r' o' /\ send_ok o'.(d_err) (waits o' BREACTOR_WRITE) o'.(send) /\
    o'.(recv) = o.(recv) /\ waits o' BREACTOR_READ = waits o BREACTOR_READ /\
    wrote acts = scur o'.(send) /\ sent acts = [] /\ read acts = [] /\ received acts = [].
Proof.
  intros B Hd Hb Hw Hf. pose proof Hb as (F & Si & (D1 & D2 & D3) & Ss & Sd & Sl). unfold connection_send. rewrite Hd, Ss. cbn [negb bool_decide].
  rewrite bool_decide_eq_true_2 by done. destruct (within_limit_ok r o o.(send).(slimit) B) as (r1 & ok & -> & B1 & Hok); [by left|].
  destruct (waits_more o) as (M1 & M2 & _). assert (scur o.(send) = []) as Hc by (unfold scur, unreported, is_state; rewrite Si; by case_match).
  assert (o.(is_hupd) = false -> exists r', wait_for r1 o BREACTOR_WRITE = Some (r', set_wait (Z.lor o.(wait_events) BREACTOR_WRITE) o, []) /\
    base r' (set_wait (Z.lor o.(wait_events) BREACTOR_WRITE) o) /\ send_ok false (waits (set_wait (Z.lor o.(wait_events) BREACTOR_WRITE) o) BREACTOR_WRITE) o.(send)) as Wait.
  { intros Hh. destruct (wait_for_ok r1 o BREACTOR_WRITE B1 Hh) as (r' & -> & B'); [done|]. exists r'. split; [done|]. split; [done|]. unfold send_ok. rewrite Ss, M2, Hh. done. }
  assert (exists r' o' acts, connection_report_error r1 o = Some (r', o', acts) /\ base r' o' /\ send_ok o'.(d_err) (waits o' BREACTOR_WRITE) o'.(send) /\
    o'.(recv) = o.(recv) /\ waits o' BREACTOR_READ = waits o BREACTOR_READ /\ wrote acts = scur o'.(send) /\ sent acts = [] /\ read acts = [] /\ received acts = []) as Err.
  { unfold connection_report_error. rewrite Hd. eexists _, _, _. split; [done|]. split; [by destruct B1|]. cbn. split; [|by rewrite Hc]. unfold send_ok. by rewrite Ss. }
  destruct ok; cbn [negb].
  2:{ destruct (is_hupd o) eqn:Hh; [by specialize (Hok eq_refl)|]. destruct (Wait eq_refl) as (r' & -> & B' & S'). eexists _, _, _. split; [done|]. cbn. rewrite Hd, Hc. done. }
  rewrite Sd, Sl, D2, (proj2 (Z.leb_le _ _)) by lia. destruct w as [n| |].
  - cbn [write_ok] in Hw. rewrite Sl, !andb_true_iff, negb_true_iff, Z.ltb_lt, Z.leb_le in Hw. destruct Hw as ((Hw & H0) & H1).
    rewrite (proj2 (Z.ltb_lt _ _)), (proj2 (Z.leb_le _ _)) by lia. cbn [set_send send set_sstate siface].
    destruct (stream_finish o.(send).(siface) n F Si) as (i & -> & F' & S' & H' & D' & L' & N'); [lia|]. eexists _, _, _. split; [done|].
    split; [by destruct B1|]. cbn. split; [split; [done|]; rewrite S'; split; [done|]; split; [by apply Hf|done]|]. split; [done|]. split; [done|].
    unfold scur, send_inited, unreported, is_state. cbn. rewrite S', N'. cbn. by rewrite app_nil_r.
  - cbn [write_ok] in Hw. destruct (is_hupd o) eqn:Hh; [apply Err|]. destruct (Wait eq_refl) as (r' & E & B' & S'). cbn [negb]. rewrite E. eexists _, _, _. split; [done|].
    cbn. rewrite Hd, Hc. done.
  - apply Err.
Qed.

Lemma connection_recv_ok r o x faulty : base r o -> o.(d_err) = false -> busy_recv o.(recv) -> o.(recv).(rjob) = false ->
  read_ok faulty o.(recv).(ravail) x = true -> (faulty = false -> waits o BREACTOR_READ = false) ->
  exists r' o' acts, connection_recv r o x = Some (r', o', acts) /\ base r' o' /\ recv_ok o'.(d_err) faulty (waits o' BREACTOR_READ) o'.(recv) /\
    o'.(send) = o.(send) /\ waits o' BREACTOR_WRITE = waits o BREACTOR_WRITE /\
    read acts = rcur o'.(recv) /\ received acts = [] /\ wrote acts = [] /\ sent acts = [].
Proof.
  intros B Hd Hb Hj Hx Hf. pose proof Hb as (F & Si & (D1 & D2 & D3) & Ss & Sd & Sl). unfold connection_recv. rewrite Hd, Ss. cbn [negb].
  rewrite bool_decide_eq_true_2 by done. destruct (within_limit_ok r o o.(recv).(rlimit) B) as (r1 & ok & -> & B1 & Hok); [by right|].
  destruct (waits_more o) as (_ & _ & M1 & M2). assert (rcur o.(recv) = []) as Hc by (unfold rcur, unreported, is_state; rewrite Si; by case_match).
  assert (o.(is_hupd) = false -> exists r', wait_for r1 o BREACTOR_READ = Some (r', set_wait (Z.lor o.(wait_events) BREACTOR_READ) o, []) /\
    base r' (set_wait (Z.lor o.(wait_events) BREACTOR_READ) o) /\ recv_ok false faulty (waits (set_wait (Z.lor o.(wait_events) BREACTOR_READ) o) BREACTOR_READ) o.(recv)) as Wait.
  { intros Hh. destruct (wait_for_ok r1 o BREACTOR_READ B1 Hh) as (r' & -> & B'); [done|]. exists r'. split; [done|]. split; [done|].
    unfold recv_ok. rewrite Ss, M2, Hh, Hj. split; [done|]. by destruct faulty. }
  assert (exists r' o' acts, connection_report_error r1 o = Some (r', o', acts) /\ base r' o' /\ recv_ok o'.(d_err) faulty (waits o' BREACTOR_READ) o'.(recv) /\
    o'.(send) = o.(send) /\ waits o' BREACTOR_WRITE = waits o BREACTOR_WRITE /\
    read acts = rcur o'.(recv) /\ received acts = [] /\ wrote acts = [] /\ sent acts = []) as Err.
  { unfold connection_report_error. rewrite Hd. eexists _, _, _. split; [done|]. split; [by destruct B1|]. cbn. split; [|by rewrite Hc]. unfold recv_ok. by rewrite Ss. }
  destruct ok; cbn [negb].
  2:{ destruct (is_hupd o) eqn:Hh; [by specialize (Hok eq_refl)|]. destruct (Wait eq_refl) as (r' & -> & B' & S'). eexists _, _, _. split; [done|]. cbn. rewrite Hd, Hc. done. }
  destruct x as [d| |].
  - cbn [read_ok] in Hx. rewrite Sl, andb_true_iff, negb_true_iff, Z.leb_le in Hx. destruct Hx as (Hfa & H1). specialize (Hf Hfa). destruct d as [|b d].
    { eexists _, _, _. split; [done|]. split; [by destruct B1|]. cbn. split; [done|]. split; [done|]. split; [done|].
      unfold rcur, recv_inited, unreported, is_state. cbn. by rewrite Si. }
    rewrite Sl, Sd, (proj2 (Z.leb_le _ _)) by lia. destruct (store_total (Z.to_nat 0) (b :: d) o.(recv).(rmem)) as [m Em]; [lia|]. rewrite Em.
    cbn [set_recv recv set_rstate set_rmem riface].
    destruct (recv_stream_finish o.(recv).(riface) (Z.of_nat (length (b :: d))) F Si) as (i & -> & F' & S' & H' & D' & L' & N'); [cbn in *; lia|]. eexists _, _, _. split; [done|].
    split; [by destruct B1|]. split; [|split; [done|]; split; [done|]].
    + cbn - [length]. rewrite S', N', (store_length _ _ _ _ Em). do 4 (split; [done|]). split; [done|]. cbn in *. lia.
    + unfold rcur, recv_inited, unreported, is_state. cbn [recv set_recv set_riface riface rstate rmem]. rewrite S', N'. cbn - [length]. rewrite Nat2Z.id.
      assert (take (length (b :: d)) m = b :: d) as Hp by exact (store_prefix _ _ _ _ Em). rewrite Hp. unfold read. cbn. by rewrite app_nil_r.
  - destruct (is_hupd o) eqn:Hh; [apply Err|]. destruct (Wait eq_refl) as (r' & E & B' & S'). cbn [negb]. rewrite E. eexists _, _, _. split; [done|].
    cbn. rewrite Hd, Hc. done.
  - apply Err.
Qed.

(** *** Steps of the users *)

Lemma send_inited_true h : send_inited h = true <-> h.(sstate) <> SEND_STATE_NOT_INITED.
Proof. unfold send_inited. by rewrite negb_true_iff, bool_decide_eq_false. Qed.
Lemma recv_inited_true g : recv_inited g = true <-> g.(rstate) <> RECV_STATE_NOT_INITED.
Proof. unfold recv_inited. by rewrite negb_true_iff, bool_decide_eq_false. Qed.

(** A half that is in use has a sound interface. *)
Lemma send_flow err w h : send_ok err w h -> send_inited h = true -> flow_ok StreamPass h.(siface).
Proof. rewrite send_inited_true. unfold send_ok, busy_send. destruct (sstate h); naive_solver. Qed.
Lemma recv_flow err f w g : recv_ok err f w g -> recv_inited g = true -> flow_ok StreamRecv g.(riface).
Proof. rewrite recv_inited_true. unfold recv_ok, busy_recv. destruct (rstate g); naive_solver. Qed.

(** Unless its interface is busy, it is ready. *)
Lemma send_ready err w h : send_ok err w h -> send_inited h = true -> h.(siface).(state) <> STATE_BUSY -> h.(sstate) = SEND_STATE_READY.
Proof. rewrite send_inited_true. unfold send_ok, busy_send. destruct (sstate h); naive_solver. Qed.
Lemma recv_ready err f w g : recv_ok err f w g -> recv_inited g = true -> g.(riface).(state) <> STATE_BUSY -> g.(rstate) = RECV_STATE_READY.
Proof. rewrite recv_inited_true. unfold recv_ok, busy_recv. destruct (rstate g); naive_solver. Qed.

Lemma base_send r o h : base r o -> h.(slimit) = o.(send).(slimit) -> base r (set_send h o).
Proof. intros [Hi He Hf Hl] E. split; cbn; rewrite ?E; done. Qed.
Lemma base_recv r o g : base r o -> g.(rlimit) = o.(recv).(rlimit) -> base r (set_recv g o).
Proof. intros [Hi He Hf Hl] E. split; cbn; rewrite ?E; done. Qed.

(** What the user of the sending side does. *)
Lemma sender_step r o f hist ev : I (r, o, f) hist -> legal (r, o, f) ev = true ->
  match ev with SInit | SUser | SSend _ | SJobDone => True | _ => False end ->
  exists s' acts, step (r, o, f) ev = Some (s', acts) /\ I s' (hist ++ acts).
Proof.
  intros (B & S & R & W & D) Hl Hev. destruct ev; try done; clear Hev; cbn [legal step] in *.
  - rewrite andb_true_iff, !negb_true_iff in Hl. destruct Hl as [He Hs]. unfold send_inited in Hs. apply negb_false_iff, bool_decide_eq_true in Hs.
    unfold BConnection_SendAsync_Init. rewrite He, Hs. eexists _, _. split; [done|]. rewrite app_nil_r. split; [by apply base_send|]. cbn.
    unfold send_ok in S. rewrite Hs in S. split; [done|]. split; [done|]. split; [|done]. rewrite W. unfold scur, send_inited. by rewrite Hs.
  - rewrite andb_true_iff, negb_true_iff in Hl. destruct Hl as [Hs Hh]. pose proof (send_flow _ _ _ S Hs) as F. unfold StreamPassInterface_Sender_Init. rewrite Hh.
    eexists _, _. split; [done|]. rewrite app_nil_r. split; [by apply base_send|]. split; [|done]. 
    assert (flow_ok StreamPass (set_handlers (handler_requestcancel (siface (send o))) true (siface (send o)))) as F' by (by destruct F as [F1 F2 F3]).
    unfold send_ok, busy_send, operation_ok in *. cbn. destruct (sstate (send o)); [done|..]; tauto.
  - rewrite !andb_true_iff, !negb_true_iff, is_state_true, bool_decide_eq_false in Hl. destruct Hl as ((((He & Hs) & Hn) & Hh) & Hd).
    assert (o.(send).(sstate) = SEND_STATE_READY) as Hr by (eapply send_ready; try done; by rewrite Hn). pose proof (send_flow _ _ _ S Hs) as F.
    assert (0 < Z.of_nat (length d)) as Hpos by (destruct d; [done|cbn; lia]).
    destruct (stream_start o.(send).(siface) (Some 0) (Z.of_nat (length d)) F Hn Hh Hpos) as (i & -> & F' & S' & H' & D' & L'); [done|].
    eexists _, _. split; [done|]. rewrite app_nil_r. split; [by apply base_send|]. unfold send_ok in *. rewrite Hr in S. destruct S as (_ & _ & Sw & _).
    cbn. rewrite Hr. split; [|split; [done|]; split; [|done]].
    + split; [done|]. rewrite S'. split; [done|]. split; [done|]. intros _. unfold operation_ok. by rewrite D', L'.
    + rewrite W. unfold scur, send_inited, unreported, is_state. cbn. by rewrite Hr, Hn, S'.
  - rewrite andb_true_iff in Hl. destruct Hl as [Hs Hj]. pose proof (send_flow _ _ _ S Hs) as F. pose proof (proj2 (job_of_state _ _ F) Hj) as Hd.
    assert (o.(send).(sstate) = SEND_STATE_READY) as Hr by (eapply send_ready; try done; by rewrite Hd).
    unfold _StreamPassInterface_job_done. rewrite (proj2 (is_state_true _ _) Hd). eexists _, _. split; [done|]. split; [by apply base_send|].
    set (a := [Sent _]). destruct (flow_apps hist a) as (-> & -> & -> & ->). unfold send_ok in *. rewrite Hr in S. destruct S as (_ & _ & Sw & _). cbn. rewrite Hr.
    split; [split; [by apply run_done_flow|done]|]. split; [done|]. rewrite W, D. unfold scur, send_inited, unreported, is_state. cbn. rewrite Hr, Hd. cbn. by rewrite !app_nil_r.
Qed.

(** What the user of the receiving side does. *)
Lemma receiver_step r o f hist ev : I (r, o, f) hist -> legal (r, o, f) ev = true ->
  match ev with RInit | RUser | RRecv _ | RJobDone => True | _ => False end ->
  exists s' acts, step (r, o, f) ev = Some (s', acts) /\ I s' (hist ++ acts).
Proof.
  intros (B & S & R & W & D) Hl Hev. destruct ev; try done; clear Hev; cbn [legal step] in *.
  - rewrite andb_true_iff, !negb_true_iff in Hl. destruct Hl as [He Hs]. unfold recv_inited in Hs. apply negb_false_iff, bool_decide_eq_true in Hs.
    unfold BConnection_RecvAsync_Init. rewrite He, Hs. eexists _, _. split; [done|]. rewrite app_nil_r. split; [by apply base_recv|]. cbn.
    unfold recv_ok in R. rewrite Hs in R. split; [done|]. split; [done|]. split; [done|]. rewrite D. unfold rcur, recv_inited. by rewrite Hs.
  - rewrite andb_true_iff, negb_true_iff in Hl. destruct Hl as [Hs Hh]. pose proof (recv_flow _ _ _ _ R Hs) as F. unfold StreamRecvInterface_Receiver_Init. rewrite Hh.
    eexists _, _. split; [done|]. rewrite app_nil_r. split; [by apply base_recv|]. split; [done|]. split; [|done]. 
    assert (flow_ok StreamRecv (set_handlers (handler_requestcancel (riface (recv o))) true (riface (recv o)))) as F' by (by destruct F as [F1 F2 F3]).
    unfold recv_ok, busy_recv, operation_ok in *. cbn. destruct (rstate (recv o)); [done|..]; tauto.
  - rewrite !andb_true_iff, !negb_true_iff, is_state_true, bool_decide_eq_false in Hl. destruct Hl as ((((He & Hs) & Hn) & Hh) & Hd).
    assert (o.(recv).(rstate) = RECV_STATE_READY) as Hr by (eapply recv_ready; try done; by rewrite Hn). pose proof (recv_flow _ _ _ _ R Hs) as F.
    assert (0 < Z.of_nat (length m)) as Hpos by (destruct m; [done|cbn; lia]).
    destruct (recv_stream_start o.(recv).(riface) (Some 0) (Z.of_nat (length m)) F Hn Hh Hpos) as (i & -> & F' & S' & H' & D' & L'); [done|].
    eexists _, _. split; [done|]. rewrite app_nil_r. split; [by apply base_recv|]. unfold recv_ok in *. rewrite Hr in R. destruct R as (_ & _ & Rw & Rj & _).
    cbn. rewrite Hr. split; [done|]. split; [|split; [done|]].
    + split; [done|]. rewrite S'. do 3 (split; [done|]). split; [|done]. intros _. unfold operation_ok. by rewrite D', L'.
    + rewrite D. unfold rcur, recv_inited, unreported, is_state. cbn. by rewrite Hr, Hn, S'.
  - rewrite andb_true_iff in Hl. destruct Hl as [Hs Hj]. pose proof (recv_flow _ _ _ _ R Hs) as F. pose proof (proj2 (job_of_state _ _ F) Hj) as Hd.
    assert (o.(recv).(rstate) = RECV_STATE_READY) as Hr by (eapply recv_ready; try done; by rewrite Hd).
    unfold _StreamRecvInterface_job_done. rewrite (proj2 (is_state_true _ _) Hd). eexists _, _. split; [done|]. split; [by apply base_recv|].
    set (a := [Received _]). destruct (flow_apps hist a) as (-> & -> & -> & ->). unfold recv_ok in *. rewrite Hr in R. destruct R as (_ & _ & Rw & Rj & _). cbn. rewrite Hr.
    split; [done|]. split; [split; [by apply run_done_flow|done]|]. rewrite W, D. unfold rcur, recv_inited, unreported, is_state. cbn. rewrite Hr, Hd. cbn. by rewrite !app_nil_r.
Qed.

(** *** Taking the halves down *)

Lemma stop_waiting_ok r o m : base r o -> m = BREACTOR_READ \/ m = BREACTOR_WRITE ->
  exists r' w, stop_waiting r o m = Some (r', set_wait w o) /\ base r' (set_wait w o) /\ waits (set_wait w o) m = false /\
    (forall k, k = BREACTOR_READ \/ k = BREACTOR_WRITE -> k <> m -> waits (set_wait w o) k = waits o k).
Proof.
  intros B Hm. pose proof B as [Hi He Hf [L1 [L2 L3]]]. unfold stop_waiting. destruct (is_hupd o) eqn:Hh; cbn [negb].
  - exists r, o.(wait_events). assert (set_wait o.(wait_events) o = o) as E by (by destruct o). rewrite E. split; [done|]. split; [done|]. split; [|done]. unfold waits. by rewrite Hh.
  - cbn [bfd set_wait wait_events]. destruct (fd_waits r o.(bfd) _ (Z.land o.(wait_events) (Z.lnot m)) Hi Hf) as (r' & -> & I' & W' & L'); [by apply events_ok_clear|].
    eexists r', _. split; [done|]. split; [split; cbn; rewrite ?Hh, ?L'; try done; by apply events_ok_clear|]. split.
    + rewrite waits_less by done. destruct Hm as [-> | ->]; by rewrite andb_false_r.
    + intros k Hk Hne. rewrite waits_less by done. destruct Hk as [-> | ->], Hm as [-> | ->]; try done; by rewrite andb_true_r.
Qed.

Lemma send_free_step r o f hist : I (r, o, f) hist -> legal (r, o, f) SFree = true -> exists s' acts, step (r, o, f) SFree = Some (s', acts) /\ I s' (hist ++ acts).
Proof.
  intros (B & S & R & W & D) Hl. cbn [legal step] in *. unfold BConnection_SendAsync_Free.
  assert (bool_decide (sstate (send o) = SEND_STATE_READY) || bool_decide (sstate (send o) = SEND_STATE_BUSY) = true) as -> by (apply send_inited_true in Hl; by destruct (sstate (send o))).
  destruct (stop_waiting_ok r o BREACTOR_WRITE B) as (r' & w & -> & B' & Ww & Wr); [by right|]. eexists _, _. split; [done|].
  split; [by apply base_send|]. set (a := [DroppedSent _]). destruct (flow_apps hist a) as (-> & -> & -> & ->). cbn. split; [done|].
  split; [change (waits _ BREACTOR_READ) with (waits (set_wait w o) BREACTOR_READ); rewrite Wr by (done || by left); done|].
  rewrite W, D. unfold scur. cbn. rewrite Hl. by rewrite !app_nil_r.
Qed.

Lemma recv_free_step r o f hist : I (r, o, f) hist -> legal (r, o, f) RFree = true -> exists s' acts, step (r, o, f) RFree = Some (s', acts) /\ I s' (hist ++ acts).
Proof.
  intros (B & S & R & W & D) Hl. cbn [legal step] in *. unfold BConnection_RecvAsync_Free.
  assert (bool_decide (rstate (recv o) = RECV_STATE_READY) || bool_decide (rstate (recv o) = RECV_STATE_BUSY) || bool_decide (rstate (recv o) = RECV_STATE_INITED_CLOSED) = true) as ->
    by (apply recv_inited_true in Hl; unfold recv_ok in R; by destruct (rstate (recv o))).
  destruct (stop_waiting_ok r o BREACTOR_READ B) as (r' & w & -> & B' & Ww & Wr); [by left|]. eexists _, _. split; [done|].
  split; [by apply base_recv|]. set (a := [DroppedReceived _]). destruct (flow_apps hist a) as (-> & -> & -> & ->). cbn.
  split; [change (waits _ BREACTOR_WRITE) with (waits (set_wait w o) BREACTOR_WRITE); rewrite Wr by (done || by right); done|]. split; [done|].
  rewrite W, D. unfold rcur. cbn. rewrite Hl. by rewrite !app_nil_r.
Qed.

(** *** Operations that start *)

(** After an operation of one half, the other one is as it was. *)
Lemma recv_ok_err err err' f w g : recv_ok err f w g -> (err' = false -> err = false) -> recv_ok err' f w g.
Proof. unfold recv_ok. destruct (rstate g); naive_solver. Qed.
Lemma send_ok_err err err' w h : send_ok err w h -> (err' = false -> err = false) -> send_ok err' w h.
Proof. unfold send_ok. destruct (sstate h); naive_solver. Qed.

Lemma send_operation_step r o f hist w : I (r, o, f) hist -> legal (r, o, f) (SJobOperation w) = true ->
  exists s' acts, step (r, o, f) (SJobOperation w) = Some (s', acts) /\ I s' (hist ++ acts).
Proof.
  intros (B & S & R & W & D) Hl. cbn [legal step] in *. rewrite !andb_true_iff, negb_true_iff in Hl. destruct Hl as (((He & Hs) & Hj) & Hw).
  pose proof (send_flow _ _ _ S Hs) as F. pose proof (proj1 (job_of_state _ _ F) Hj) as Hd.
  assert (o.(send).(sstate) = SEND_STATE_READY) as Hr by (eapply send_ready; try done; by rewrite Hd). unfold send_ok in S. rewrite Hr in S. destruct S as (_ & _ & Sw & So).
  specialize (So Hd). pose proof So as (O1 & O2 & O3). unfold _StreamPassInterface_job_operation, connection_send_if_handler_send. rewrite (proj2 (is_state_true _ _) Hd).
  cbn [d_err set_send send sstate set_siface]. rewrite He, Hr, (proj2 (Z.ltb_lt _ _)) by done. cbn [negb].
  set (o1 := set_send (set_sbusy _ _ _) _). destruct (connection_send_ok r o1 w f) as (r' & o' & acts & -> & B' & S' & Er & Wr & A1 & A2 & A3 & A4); try done.
  { by apply base_send; [apply base_send|]. } { unfold busy_send. cbn. split; [by apply run_operation_flow|]. done. }
  eexists _, _. split; [done|]. split; [done|]. split; [done|]. destruct (flow_apps hist acts) as (-> & -> & -> & ->). rewrite A1, A2, A3, A4, Er, Wr, W, D. cbn.
  split; [by eapply recv_ok_err|]. unfold scur at 1, send_inited, unreported, is_state. rewrite Hr, Hd. cbn. by rewrite !app_nil_r.
Qed.

Lemma recv_operation_step r o f hist x : I (r, o, f) hist -> legal (r, o, f) (RJobOperation x) = true ->
  exists s' acts, step (r, o, f) (RJobOperation x) = Some (s', acts) /\ I s' (hist ++ acts).
Proof.
  intros (B & S & R & W & D) Hl. cbn [legal step] in *. rewrite !andb_true_iff, negb_true_iff in Hl. destruct Hl as (((He & Hs) & Hj) & Hw).
  pose proof (recv_flow _ _ _ _ R Hs) as F. pose proof (proj1 (job_of_state _ _ F) Hj) as Hd.
  assert (o.(recv).(rstate) = RECV_STATE_READY) as Hr by (eapply recv_ready; try done; by rewrite Hd). unfold recv_ok in R. rewrite Hr in R. destruct R as (_ & _ & Rw & Rj & Ro & _).
  specialize (Ro Hd). pose proof Ro as (O1 & O2 & O3). unfold _StreamRecvInterface_job_operation, connection_recv_if_handler_recv. rewrite (proj2 (is_state_true _ _) Hd).
  cbn [d_err set_recv recv rstate set_riface]. rewrite He, Hr, (proj2 (Z.ltb_lt _ _)) by done. cbn [negb].
  set (o1 := set_recv (set_rbusy _ _ _) _). destruct (connection_recv_ok r o1 x f) as (r' & o' & acts & -> & B' & R' & Er & Wr & A1 & A2 & A3 & A4); try done.
  { by apply base_recv; [apply base_recv|]. } { unfold busy_recv. cbn. split; [by apply run_operation_flow|]. done. }
  eexists _, _. split; [done|]. split; [done|]. destruct (flow_apps hist acts) as (-> & -> & -> & ->). rewrite A1, A2, A3, A4, Er, Wr, W, D. cbn.
  split; [by eapply send_ok_err|]. split; [done|]. split; [by rewrite !app_nil_r|]. unfold rcur at 1, recv_inited, unreported, is_state. rewrite Hr, Hd. cbn. by rewrite !app_nil_r.
Qed.

(** The job the descriptor's handler leaves for the receiving side. *)
Lemma recv_job_step r o f hist x : I (r, o, f) hist -> legal (r, o, f) (RJob x) = true ->
  exists s' acts, step (r, o, f) (RJob x) = Some (s', acts) /\ I s' (hist ++ acts).
Proof.
  intros (B & S & R & W & D) Hl. cbn [legal step] in *. rewrite !andb_true_iff, negb_true_iff in Hl. destruct Hl as (((He & Hs) & Hj) & Hx).
  assert (busy_recv o.(recv) /\ (f = false -> waits o BREACTOR_READ = false)) as [Hb Hw].
  { apply recv_inited_true in Hs. unfold recv_ok in R. rewrite Hj in R. destruct (rstate (recv o)); naive_solver. }
  unfold connection_recv_job_handler. cbn [d_err set_recv recv rstate set_rjob]. pose proof Hb as (_ & _ & _ & Es & _). rewrite He, Es. cbn [negb].
  rewrite bool_decide_eq_true_2 by done. set (o1 := set_recv (set_rjob false _) _).
  destruct (connection_recv_ok r o1 x f) as (r' & o' & acts & -> & B' & R' & Er & Wr & A1 & A2 & A3 & A4); try done; [by apply base_recv|].
  eexists _, _. split; [done|]. split; [done|]. destruct (flow_apps hist acts) as (-> & -> & -> & ->). rewrite A1, A2, A3, A4, Er, Wr, W, D. cbn.
  split; [by eapply send_ok_err|]. split; [done|]. split; [by rewrite !app_nil_r|]. destruct Hb as (_ & Si & _). unfold rcur at 1, recv_inited, unreported, is_state. rewrite Es, Si. cbn. by rewrite !app_nil_r.
Qed.

(** *** Events of the descriptor *)

Lemma acknowledge_ok r o ev : base r o -> o.(is_hupd) = false ->
  exists r' o', acknowledge r o ev = Some (r', o') /\ base r' o' /\ o'.(send) = o.(send) /\ o'.(recv) = o.(recv) /\ o'.(d_err) = o.(d_err) /\
    o'.(is_hupd) = has ev BREACTOR_HUP /\
    (forall m, m = BREACTOR_READ \/ m = BREACTOR_WRITE -> waits o' m = waits o m && negb (has ev m) && negb (has ev BREACTOR_HUP)).
Proof.
  intros B Hh. pose proof B as [Hi He Hf Hl]. rewrite Hh in Hf. unfold acknowledge. cbn [bfd set_wait wait_events].
  destruct (fd_waits r o.(bfd) _ (Z.land o.(wait_events) (Z.lnot ev)) Hi Hf) as (r1 & -> & I1 & W1 & L1); [by apply events_ok_clear|].
  destruct (has ev BREACTOR_HUP) eqn:Eh.
  - destruct (fd_removed r1 o.(bfd) _ I1 W1) as (r2 & -> & I2 & A2 & L2). eexists r2, _. split; [done|]. rewrite <- L2 in L1.
    split; [split; cbn; rewrite ?L1; try done; by apply events_ok_clear|]. do 4 (split; [done|]). intros m Hm. by rewrite andb_false_r.
  - eexists r1, _. split; [done|]. split; [split; cbn; rewrite ?Hh, ?L1; try done; by apply events_ok_clear|]. do 3 (split; [done|]). split; [done|].
    intros m Hm. by rewrite waits_less, andb_true_r.
Qed.

(** A half that the events do not concern. *)
Lemma send_other w w' ev h err : send_ok false w h -> (w' = w && negb (has ev BREACTOR_WRITE) && negb (has ev BREACTOR_HUP)) ->
  has ev BREACTOR_WRITE || (has ev (Z.lor BREACTOR_ERROR BREACTOR_HUP) && bool_decide (h.(sstate) = SEND_STATE_BUSY)) = false ->
  send_ok err w' h.
Proof.
  intros S -> [-> Hf]%orb_false_iff. rewrite andb_true_r. unfold send_ok in *. destruct (sstate h) eqn:Es; [by rewrite S|naive_solver|].
  rewrite bool_decide_eq_true_2, andb_true_r, has_or in Hf by done. apply orb_false_iff in Hf as [_ ->]. rewrite andb_true_r. naive_solver.
Qed.

Lemma recv_other f w w' ev g err : recv_ok false f w g -> (w' = w && negb (has ev BREACTOR_READ) && negb (has ev BREACTOR_HUP)) ->
  has ev BREACTOR_READ || (has ev (Z.lor BREACTOR_ERROR BREACTOR_HUP) && bool_decide (g.(rstate) = RECV_STATE_BUSY)) = false ->
  recv_ok err (faulted f ev) w' g.
Proof.
  intros R -> [-> Hf]%orb_false_iff. rewrite andb_true_r. unfold recv_ok in *. destruct (rstate g) eqn:Es; [by rewrite R|by destruct R as (? & ? & -> & ?)| |naive_solver|done].
  rewrite bool_decide_eq_true_2, andb_true_r, has_or in Hf by done. apply orb_false_iff in Hf as [He ->]. unfold faulted. rewrite He, orb_false_r, andb_true_r. naive_solver.
Qed.

(** Taking an event of the sending side. *)
Lemma handled_bit f w ev m k : m || (k && true) = true -> k = has ev BREACTOR_ERROR || has ev BREACTOR_HUP -> faulted f ev = false ->
  w && negb m && negb (has ev BREACTOR_HUP) = false.
Proof. unfold faulted. intros H -> Hf. destruct m, (has ev BREACTOR_ERROR), (has ev BREACTOR_HUP), f, w; done. Qed.

Lemma fd_handler_ok r o f hist ev w x : I (r, o, f) hist -> o.(d_err) = false -> o.(is_hupd) = false -> (recv_inited o.(recv) = true -> o.(recv).(rjob) = false) ->
  (has ev BREACTOR_WRITE = true -> has o.(wait_events) BREACTOR_WRITE = true) -> (has ev BREACTOR_READ = true -> has o.(wait_events) BREACTOR_READ = true) ->
  write_ok (faulted f ev) o.(send).(slen) w = true -> read_ok (faulted f ev) o.(recv).(ravail) x = true ->
  exists r' o' acts, connection_fd_handler r o ev w x = Some (r', o', acts) /\ I (r', o', faulted f ev) (hist ++ acts).
Proof.
  intros (B & S & R & W & D) Hd Hh Hj Ew Er Hw Hx. rewrite Hd in S, R. unfold connection_fd_handler. rewrite Hd, Hh. cbn [negb].
  destruct (acknowledge_ok r o ev B Hh) as (r2 & o2 & -> & B2 & Es & Erv & Ed & Hu & Wt). rewrite Hd in Ed.
  assert (has ev BREACTOR_WRITE = true -> sstate (send o) = SEND_STATE_BUSY) as Bw.
  { intros H. specialize (Ew H). assert (waits o BREACTOR_WRITE = true) as E by (unfold waits; by rewrite Hh, Ew). rewrite E in S. unfold send_ok in S. destruct (sstate (send o)); naive_solver. }
  assert (has ev BREACTOR_READ = true -> rstate (recv o) = RECV_STATE_BUSY) as Br.
  { intros H. specialize (Er H). assert (waits o BREACTOR_READ = true) as E by (unfold waits; by rewrite Hh, Er). rewrite E in R. unfold recv_ok in R. destruct (rstate (recv o)); naive_solver. }
  pose proof (Wt BREACTOR_WRITE (or_intror eq_refl)) as Ww. pose proof (Wt BREACTOR_READ (or_introl eq_refl)) as Wr.
  pose proof (fun err => send_other _ _ ev _ err S Ww) as So. pose proof (fun err => recv_other f _ _ ev _ err R Wr) as Ro. rewrite Es, Erv.
  set (hs := has ev BREACTOR_WRITE || _) in *. set (hr := has ev BREACTOR_READ || _) in *.
  assert (hs = true -> sstate (send o) = SEND_STATE_BUSY) as Hs. { unfold hs. intros [H|[_ H%bool_decide_eq_true]%andb_true_iff]%orb_true_iff; [by apply Bw|done]. }
  assert (hr = true -> rstate (recv o) = RECV_STATE_BUSY) as Hr. { unfold hr. intros [H|[_ H%bool_decide_eq_true]%andb_true_iff]%orb_true_iff; [by apply Br|done]. }
  assert (negb hs || bool_decide (sstate (send o) = SEND_STATE_BUSY) = true) as -> by (destruct hs; [rewrite Hs by done|]; done).
  assert (negb hr || bool_decide (rstate (recv o) = RECV_STATE_BUSY) = true) as -> by (destruct hr; [rewrite Hr by done|]; done).
  assert (hs = true -> faulted f ev = false -> waits o2 BREACTOR_WRITE = false) as Cs.
  { intros H Hf. rewrite Ww. unfold hs in H. rewrite bool_decide_eq_true_2 in H by (by apply Hs). by eapply handled_bit; [exact H|apply has_or|]. }
  assert (hr = true -> faulted f ev = false -> waits o2 BREACTOR_READ = false) as Cr.
  { intros H Hf. rewrite Wr. unfold hr in H. rewrite bool_decide_eq_true_2 in H by (by apply Hr). by eapply handled_bit; [exact H|apply has_or|]. }
  assert (hr = true -> busy_recv o.(recv)) as Hbr. { intros H. unfold recv_ok in R. rewrite (Hr H) in R. by destruct R. }
  assert (scur o.(send) = [] \/ hs = false) as Zs.
  { destruct hs; [left|by right]. unfold send_ok in S. rewrite (Hs eq_refl) in S. destruct S as [(_ & Si & _) _]. unfold scur, unreported, is_state. rewrite Si. by case_match. }
  assert (rcur o.(recv) = [] \/ hr = false) as Zr.
  { destruct hr; [left|by right]. destruct (Hbr eq_refl) as (_ & Si & _). unfold rcur, unreported, is_state. rewrite Si. by case_match. }
  destruct hs.
  - destruct Zs as [Zs|]; [|done]. unfold send_ok in S. rewrite (Hs eq_refl) in S. destruct S as [Hb _]. set (o3 := if hr then _ else o2).
    assert (base r2 o3 /\ o3.(d_err) = false /\ o3.(send) = o.(send) /\ waits o3 = waits o2 /\ rcur o3.(recv) = rcur o.(recv)) as (B3 & D3 & S3 & W3 & Rc3).
    { unfold o3. destruct hr; [|by rewrite Erv]. split; [by apply base_recv; [|by rewrite Erv]|]. done. }
    rewrite <- S3 in Hb, Hw. destruct (connection_send_ok r2 o3 w (faulted f ev) B3 D3 Hb Hw) as (r' & o' & acts & -> & B' & S' & Er' & Wr' & A1 & A2 & A3 & A4); [by rewrite W3; apply Cs|].
    eexists _, _, _. split; [done|]. split; [done|]. split; [done|]. destruct (flow_apps hist acts) as (-> & -> & -> & ->). rewrite A1, A2, A3, A4, Er', Wr', W3, Rc3, W, D, Zs, !app_nil_r.
    split; [|done]. unfold o3. destruct hr; [|rewrite Erv; by apply Ro]. unfold recv_ok. cbn. rewrite (Hr eq_refl). split; [exact (Hbr eq_refl)|]. intros _.
    destruct (faulted f ev); [by rewrite orb_true_r|by apply Cr].
  - destruct hr.
    + destruct Zr as [Zr|]; [|done]. rewrite <- Erv in Hx.
      destruct (connection_recv_ok r2 o2 x (faulted f ev) B2 Ed) as (r' & o' & acts & -> & B' & R' & Es' & Ws' & A1 & A2 & A3 & A4);
        [by rewrite Erv; apply Hbr|rewrite Erv; apply Hj, recv_inited_true; by rewrite Hr|done|by apply Cr|].
      eexists _, _, _. split; [done|]. split; [done|]. destruct (flow_apps hist acts) as (-> & -> & -> & ->). rewrite A1, A2, A3, A4, Es', Ws', Es, W, D, Zr, !app_nil_r.
      split; [by apply So|done].
    + destruct (is_hupd o2); cbn [negb].
      * eexists _, _, _. split; [done|]. rewrite app_nil_r. split; [done|]. rewrite Es, Erv. split; [by apply So|]. by split; [apply Ro|].
      * unfold connection_report_error. rewrite Ed. cbn [negb]. eexists _, _, _. split; [done|]. split; [by destruct B2|]. cbn. rewrite Es, Erv.
        split; [by apply So|]. split; [by apply Ro|]. destruct (flow_apps hist [Report BCONNECTION_EVENT_ERROR]) as (-> & -> & -> & ->). by rewrite W, D, !app_nil_r.
Qed.

Lemma base_kept r r' o : base r o -> inv r' -> registers_kept r r' -> base r' o.
Proof.
  intros [Hi He Hf [L1 [L2 L3]]] I' [K1 K2]. split; try done; [|by split; [apply K2|split; [apply K2|]]].
  destruct (is_hupd o); [by eapply fds_within_dormant|by eapply fds_within_watches].
Qed.

Lemma turn_step r o f hist now answers w x : I (r, o, f) hist -> legal (r, o, f) (Turn now answers w x) = true ->
  exists s' acts, step (r, o, f) (Turn now answers w x) = Some (s', acts) /\ I s' (hist ++ acts).
Proof.
  intros HI Hl. pose proof HI as (B & S & R & W & D). cbn [legal step] in *. rewrite !andb_true_iff, negb_true_iff in Hl. destruct Hl as ((((He & Hr) & Qs) & Qr) & Hio).
  pose proof B as [Hi Hev Hf _]. destruct (round_ok r now answers Hi Hr) as (res & E & Sp & I'). rewrite E in Hio |- *. pose proof (round_registers _ _ _ _ E) as K.
  assert (base (after_round res) o) as B' by (by apply (base_kept r)).
  destruct (fd_event o.(bfd) (Some res)) as [ev|] eqn:Ef; [|eexists _, _; split; [done|]; by rewrite app_nil_r].
  destruct res as [r' [[|b sm|b ev']|]|]; try done. cbn [fd_event] in Ef. case_bool_decide as Eb; [|done]. injection Ef as ->. subst b.
  destruct Sp as (_ & _ & _ & e & fd0 & _ & _ & Hfd & Hac & _ & _ & Hrd & Hwr). destruct (is_hupd o) eqn:Hh; [by destruct Hf as (? & ? & ?); congruence|].
  destruct Hf as (fd1 & Hfd1 & _ & Hwe). rewrite Hfd in Hfd1. injection Hfd1 as <-. rewrite Hwe in Hrd, Hwr. apply andb_true_iff in Hio as [Hw Hx].
  destruct (fd_handler_ok (after_round (Round r' (Some (CallFd o.(bfd) ev)))) o f hist ev w x) as (r2 & o2 & acts & -> & I2); try done.
  - intros Hi'. rewrite Hi' in Qr. apply andb_true_iff in Qr as [_ Qr]. by apply negb_true_iff.
  - unfold has. rewrite !negb_true_iff, !Z.eqb_neq. done.
  - unfold has. rewrite !negb_true_iff, !Z.eqb_neq. done.
  - by eexists _, _.
Qed.

Lemma call_event_step r o f hist c : I (r, o, f) hist -> legal (r, o, f) (Call c) = true ->
  exists s' acts, step (r, o, f) (Call c) = Some (s', acts) /\ I s' (hist ++ acts).
Proof.
  intros (B & S & R & W & D) Hl. cbn [legal step] in *. rewrite !andb_true_iff, !negb_true_iff in Hl. destruct Hl as (((Hc & Hf) & H1) & H2).
  pose proof B as [Hi Hev Hfd [L1 [L2 L3]]]. destruct (call_ok r c Hi Hc) as (r' & E & I'). rewrite E. destruct (call_registers r c r' E) as [K1 K2].
  eexists _, _. split; [done|]. rewrite app_nil_r. split; [|done]. split; try done; rewrite ?K1, ?K2 by done; [|done].
  unfold watches, dormant. by rewrite K1.
Qed.

Lemma connection_step_ok s hist ev : I s hist -> legal s ev = true -> exists s' acts, step s ev = Some (s', acts) /\ I s' (hist ++ acts).
Proof.
  destruct s as [[r o] f]. intros HI Hl. destruct ev; try (by eapply sender_step); try (by eapply receiver_step);
    eauto using send_free_step, recv_free_step, send_operation_step, recv_operation_step, recv_job_step, call_event_step, turn_step.
Qed.

(** *** Errors that do not make the next operation fail *)

(** Which operation [connection_fd_handler] makes for an event. *)
Definition handles (o : BConnection) (ev : Z) : option (write_result -> read_result -> bool) :=
  let fault := has ev (Z.lor BREACTOR_ERROR BREACTOR_HUP) in
  if has ev BREACTOR_WRITE || (fault && bool_decide (o.(send).(sstate) = SEND_STATE_BUSY)) then
    Some (fun w _ => match w with WError => true | _ => false end)
  else if has ev BREACTOR_READ || (fault && bool_decide (o.(recv).(rstate) = RECV_STATE_BUSY)) then
    Some (fun _ x => match x with RError => true | _ => false end)
  else None.

(** What users and the system may do, without an assumption on what [write] and
    [read] return when an error was reported. *)
Definition possible (s : BReactor * BConnection * bool) (ev : event) : bool :=
  let '(r, o, _) := s in
  match ev with
  | Turn now answers w x =>
      negb o.(d_err) && legal_round r now answers && (negb (send_inited o.(send)) || quiet o.(send).(siface)) &&
      (negb (recv_inited o.(recv)) || (quiet o.(recv).(riface) && negb o.(recv).(rjob))) &&
      write_ok false o.(send).(slen) w && read_ok false o.(recv).(ravail) x
  | _ => legal (r, o, false) ev
  end.

(** The reactor has reported an error, and the operation that follows does not
    fail. *)
Definition outlives_error (s : BReactor * BConnection * bool) (ev : event) : bool :=
  let '(r, o, faulty) := s in
  match ev with
  | SJobOperation w => faulty && match w with WError => false | _ => true end
  | RJobOperation x | RJob x => faulty && match x with RError => false | _ => true end
  | Turn now answers w x =>
      match fd_event o.(bfd) (exec_round r now answers) with
      | Some ev => faulted faulty ev && match handles o ev with Some failed => negb (failed w x) | None => false end
      | None => false
      end
  | _ => false
  end.

Lemma acknowledge_halves r o ev r' o' : acknowledge r o ev = Some (r', o') -> o'.(send) = o.(send) /\ o'.(recv) = o.(recv).
Proof. unfold acknowledge. case_match; [|done]. case_match; [case_match; [|done]|]; by intros [= _ <-]. Qed.

(** The result of an operation that is not made does not matter. *)
Lemma fd_handler_unused r o ev w x :
  connection_fd_handler r o ev w x =
  match handles o ev with
  | Some failed => if failed WError RAgain then connection_fd_handler r o ev w RError else connection_fd_handler r o ev WError x
  | None => connection_fd_handler r o ev WError RError
  end.
Proof.
  unfold connection_fd_handler, handles. destruct (negb (d_err o)); [|by repeat case_match]. destruct (negb (is_hupd o)); [|by repeat case_match].
  destruct (acknowledge r o ev) as [[r1 o1]|] eqn:E; [|by repeat case_match]. apply acknowledge_halves in E as [-> ->].
  destruct (_ || _ && bool_decide (sstate _ = _)); cbn [negb orb]; [by repeat case_match|].
  destruct (_ || _ && bool_decide (rstate _ = _)); cbn [negb orb]; [by repeat case_match|]. by repeat case_match.
Qed.

Lemma possible_step_ok s hist ev : I s hist -> possible s ev = true -> outlives_error s ev = false ->
  exists s' acts, step s ev = Some (s', acts) /\ I s' (hist ++ acts).
Proof.
  destruct s as [[r o] f]. intros HI Hp Ho.
  assert (forall ev', step (r, o, f) ev = step (r, o, f) ev' -> legal (r, o, f) ev' = true -> exists s' acts, step (r, o, f) ev = Some (s', acts) /\ I s' (hist ++ acts)) as Same
    by (intros ev' -> Hl; by apply connection_step_ok).
  destruct ev as [| | | |w| | | | | |x| |x|c|now answers w x]; try (by apply (Same _ eq_refl)).
  - apply (Same _ eq_refl). destruct f; [|done]. cbn in *. destruct w; [done|done|]. done.
  - apply (Same _ eq_refl). destruct f; [|done]. cbn in *. destruct x; [done|done|]. done.
  - apply (Same _ eq_refl). destruct f; [|done]. cbn in *. destruct x; [done|done|]. done.
  - cbn [possible outlives_error] in Hp, Ho. rewrite !andb_true_iff in Hp. destruct Hp as [[[[[He Hr] Hs] Hg] Hw] Hx].
    destruct (exec_round r now answers) as [res|] eqn:Er; [|exfalso; destruct (round_ok r now answers (b_inv _ _ (proj1 HI)) Hr) as (? & ? & _); congruence].
    destruct (fd_event (bfd o) (Some res)) as [ev|] eqn:Ev.
    2:{ apply (Same _ eq_refl). cbn [legal]. by rewrite Er, Ev, He, Hr, Hs, Hg. }
    apply (Same (match handles o ev with Some failed => if failed WError RAgain then Turn now answers w RError else Turn now answers WError x | None => Turn now answers WError RError end)).
    + cbn [step]. rewrite Er, Ev, fd_handler_unused. destruct (handles o ev) as [failed|]; [destruct (failed WError RAgain)|]; cbn [step]; by rewrite Er, Ev.
    + assert (forall w x, write_ok (faulted f ev) (slen (send o)) w && read_ok (faulted f ev) (ravail (recv o)) x = true ->
        legal (r, o, f) (Turn now answers w x) = true) as L by (intros w' x' H; cbn [legal]; by rewrite Er, Ev, He, Hr, Hs, Hg).
      unfold handles in *. destruct (_ || _ && bool_decide (sstate _ = _)); [|destruct (_ || _ && bool_decide (rstate _ = _))]; apply L; [| |done];
        destruct (faulted f ev); cbn [andb] in Ho; [destruct w; done|by rewrite Hw|destruct x; done|done].
Qed.

(** *** What never changes *)

Definition places (o : BConnection) : addr * bool * addr * addr := (o.(bfd), o.(close_fd), o.(send).(slimit), o.(recv).(rlimit)).
Definition keeps (o : BConnection) (out : outcome) : Prop := forall r' o' acts, out = Some (r', o', acts) -> places o' = places o.

Lemma wait_for_places r o m : keeps o (wait_for r o m).
Proof. unfold keeps, wait_for. intros r' o' acts. case_match; [|done]. by intros [= _ <- _]. Qed.
Lemma report_error_places r o : keeps o (connection_report_error r o).
Proof. unfold keeps, connection_report_error. intros r' o' acts. case_match; [|done]. by intros [= _ <- _]. Qed.

Lemma send_places r o w : keeps o (connection_send r o w).
Proof.
  intros r' o' acts. unfold connection_send. do 2 (case_match; [|done]). destruct (within_limit _ _ _) as [[r1 ok]|]; [|done]. case_match; [apply wait_for_places|].
  case_match; [|done]. case_match; [|done]. destruct w; [|case_match; [apply wait_for_places|apply report_error_places]|apply report_error_places].
  do 3 (case_match; [|done]). by intros [= _ <- _].
Qed.
Lemma recv_places r o x : keeps o (connection_recv r o x).
Proof.
  intros r' o' acts. unfold connection_recv. do 2 (case_match; [|done]). destruct (within_limit _ _ _) as [[r1 ok]|]; [|done]. case_match; [apply wait_for_places|].
  destruct x as [d| |]; [|case_match; [apply wait_for_places|apply report_error_places]|apply report_error_places].
  destruct d; [by intros [= _ <- _]|]. do 4 (case_match; [|done]). by intros [= _ <- _].
Qed.
Lemma fd_handler_places r o ev w x : keeps o (connection_fd_handler r o ev w x).
Proof.
  intros r' o' acts. unfold connection_fd_handler. do 2 (case_match; [|done]). destruct (acknowledge r o ev) as [[r1 o1]|] eqn:E; [|done].
  assert (places o1 = places o) as <-. { unfold acknowledge in E. case_match; [|done]. case_match; [case_match; [|done]|]; by injection E as _ <-. }
  do 2 (case_match; [|done]). case_match; [|case_match; [apply recv_places|case_match; [apply report_error_places|by intros [= _ <- _]]]].
  intros Es%send_places. rewrite Es. by case_match.
Qed.
Lemma stop_places r o m r' o' : stop_waiting r o m = Some (r', o') -> places o' = places o.
Proof. unfold stop_waiting. case_match; [case_match; [|done]|]; by intros [= _ <-]. Qed.

Lemma step_places s ev s' acts : step s ev = Some (s', acts) -> places s'.1.2 = places s.1.2.
Proof.
  destruct s as [[r o] f]. destruct ev; cbn [step].
  - unfold BConnection_SendAsync_Init. destruct (negb _); [|done]. destruct (bool_decide _); [|done]. by intros [= <- _].
  - unfold BConnection_SendAsync_Free. destruct (_ || _); [|done]. destruct (stop_waiting _ _ _) as [[r1 o1]|] eqn:E; [|done]. apply stop_places in E. intros [= <- _]. exact E.
  - case_match; [|done]. by intros [= <- _].
  - case_match; [|done]. by intros [= <- _].
  - destruct (_StreamPassInterface_job_operation _) as [[i [p n]]|]; [|done]. unfold connection_send_if_handler_send. destruct (negb _); [|done]. destruct (bool_decide _); [|done]. destruct (_ <? _); [|done].
    destruct (connection_send _ _ _) as [[[r1 o1] a1]|] eqn:E; [|done]. apply send_places in E. intros [= <- _]. exact E.
  - case_match; [|done]. case_match. by intros [= <- _].
  - unfold BConnection_RecvAsync_Init. destruct (negb _); [|done]. destruct (bool_decide _); [|done]. by intros [= <- _].
  - unfold BConnection_RecvAsync_Free. destruct (_ || _); [|done]. destruct (stop_waiting _ _ _) as [[r1 o1]|] eqn:E; [|done]. apply stop_places in E. intros [= <- _]. exact E.
  - case_match; [|done]. by intros [= <- _].
  - case_match; [|done]. by intros [= <- _].
  - destruct (_StreamRecvInterface_job_operation _) as [[i [p n]]|]; [|done]. unfold connection_recv_if_handler_recv. destruct (negb _); [|done]. destruct (bool_decide _); [|done]. destruct (_ <? _); [|done].
    destruct (connection_recv _ _ _) as [[[r1 o1] a1]|] eqn:E; [|done]. apply recv_places in E. intros [= <- _]. exact E.
  - case_match; [|done]. case_match. by intros [= <- _].
  - unfold connection_recv_job_handler. destruct (negb _); [|done]. destruct (bool_decide _); [|done]. destruct (connection_recv _ _ _) as [[[r1 o1] a1]|] eqn:E; [|done]. apply recv_places in E. intros [= <- _]. exact E.
  - case_match; [|done]. by intros [= <- _].
  - case_match; [|done]. destruct (fd_event _ _); [|by intros [= <- _]].
    destruct (connection_fd_handler _ _ _ _ _) as [[[r1 o1] a1]|] eqn:E; [|done]. apply fd_handler_places in E. intros [= <- _]. exact E.
Qed.

(** ** The life of a connection *)

Section life.
Context (r : BReactor) (src : BConnection_source) (a ls lr : addr) (h : send_half) (g : recv_half) (epoll : bool).
Context (Hinv : inv r) (Ha : is_active (r.(fds) !! a) = false) (Hls : r.(limits) !! ls = None) (Hlr : r.(limits) !! lr = None) (Hne : ls <> lr).
Context (Hsrc : source_ok src = true) (Hpeer : is_Some (source_addr src)).

Lemma connection_init_ok : exists r' left_ co ad tr, BConnection_Init r src a ls lr h g epoll = Some (r', left_, co, ad, tr) /\ left_ = source_left src /\
  match co with
  | None => Sockets.holding [] tr = Some [] /\ is_active (r'.(fds) !! a) = false
  | Some o => I (r', o, false) [] /\ o.(bfd) = a /\ o.(send).(slimit) = ls /\ o.(recv).(rlimit) = lr /\ Sockets.holding [] tr = Some (if o.(close_fd) then [Sockets.RFd] else [])
  end.
Proof using Hinv Ha Hls Hlr Hne Hsrc Hpeer.
  unfold BConnection_Init. rewrite Hsrc. destruct (source_fd src) as [[[n cl] go]|]; [|by eexists _, _, _, _, _].
  set (tr := if cl then _ else _). assert (Sockets.holding [] (tr ++ (if cl then [Sockets.Release Sockets.RFd] else [])) = Some []) as Ht by (unfold tr; by destruct cl).
  destruct go; cbn [negb]; [|by eexists _, _, _, _, _]. destruct Hpeer as [ad ->]. destruct (fd_added r a n epoll Hinv Ha) as (r1 & -> & I1 & L1 & W1).
  destruct epoll; cbn [negb]; [|by eexists _, _, _, _, _]. destruct (limit_added r1 ls BCONNECTION_SEND_LIMIT I1) as (r2 & -> & I2 & F2 & L2); [by rewrite L1|done|].
  destruct (limit_added r2 lr BCONNECTION_RECV_LIMIT I2) as (r3 & -> & I3 & F3 & L3); [by rewrite L2, L1, lookup_insert_ne|done|].
  eexists _, _, _, _, _. split; [done|]. split; [done|]. split; [|do 3 (split; [done|]); unfold tr; by destruct cl].
  split; [|done]. split; cbn; try done.
  - destruct W1 as (f1 & Hf1 & Hw1). exists f1. by rewrite F3, F2.
  - rewrite L3, L2. split; [|by rewrite lookup_insert_eq]. rewrite lookup_insert_ne, lookup_insert_eq by done. done.
Qed.


Lemma connection_run_ok r0 o evs : I (r0, o, false) [] ->
  exists r' o' f' acts, machine_run legal step (r0, o, false) evs = Some (r', o', f', acts) /\ I (r', o', f') acts /\ places o' = places o.
Proof using.
  intros I0. destruct (machine_invariant legal step (fun s hist => I s hist /\ places s.1.2 = places o)) with (evs := evs) (s := (r0, o, false)) (h := @nil action)
    as ([[r' o'] f'] & acts & E & HI & Hp).
  - intros s hist ev [HI Hp] Hl. destruct (connection_step_ok s hist ev HI Hl) as (s' & acts & E & HI'). exists s', acts. split; [done|]. split; [done|].
    by rewrite (step_places _ _ _ _ E).
  - done.
  - by exists r', o', f', acts.
Qed.

(** What a connection in use still owes and what taking it down gives back. *)
Definition waited_for (r' : BReactor) (o : BConnection) : Prop :=
  (o.(send).(sstate) = SEND_STATE_BUSY -> o.(d_err) = false -> watches r' a o.(wait_events) /\ has o.(wait_events) BREACTOR_WRITE = true) /\
  (o.(recv).(rstate) = RECV_STATE_BUSY -> o.(d_err) = false -> o.(recv).(rjob) = false -> watches r' a o.(wait_events) /\ has o.(wait_events) BREACTOR_READ = true).
Definition given_back (tr : list Sockets.action) (r' : BReactor) (o : BConnection) : Prop :=
  o.(send).(sstate) = SEND_STATE_NOT_INITED -> o.(recv).(rstate) = RECV_STATE_NOT_INITED ->
  exists r2 tr2, BConnection_Free r' o = Some (r2, tr2) /\ Sockets.holding [] (tr ++ tr2) = Some [] /\
    is_active (r2.(fds) !! a) = false /\ r2.(limits) !! ls = None /\ r2.(limits) !! lr = None.

Lemma waited_for_ok r' o f hist : I (r', o, f) hist -> o.(bfd) = a -> waited_for r' o.
Proof using.
  intros ([_ _ Hf _] & S & R & _) Ea. rewrite Ea in Hf. unfold waited_for, send_ok, recv_ok, waits in *. split.
  - intros Hs He. rewrite Hs in S. destruct S as [_ S]. specialize (S He). by destruct (is_hupd o).
  - intros Hs He Hj. rewrite Hs, Hj in R. destruct R as [_ R]. specialize (R He). destruct f; rewrite ?orb_false_r in R; by destruct (is_hupd o).
Qed.

Lemma given_back_ok tr r' o f hist : I (r', o, f) hist -> places o = (a, o.(close_fd), ls, lr) ->
  Sockets.holding [] tr = Some (if o.(close_fd) then [Sockets.RFd] else []) -> given_back tr r' o.
Proof using Hne.
  intros ([Hi _ Hf (L1 & L2 & L3)] & _) [= Ea Es El] Ht Hs Hr. unfold BConnection_Free. rewrite Hs, Hr, Ea, Es, El in *. cbn [orb].
  destruct (limit_freed r' lr Hi L2) as (r1 & E1 & I1 & F1 & M1). destruct (limit_freed r1 ls I1) as (r2 & E2 & I2 & F2 & M2); [by rewrite M1, lookup_delete_ne by congruence|].
  rewrite !bool_decide_eq_true_2, E1, E2 by done. cbn [orb]. assert (r2.(limits) !! ls = None /\ r2.(limits) !! lr = None) as [N1 N2].
  { rewrite M2, M1. split; [by rewrite lookup_delete_eq|]. by rewrite lookup_delete_ne, lookup_delete_eq by congruence. }
  assert (Sockets.holding [] (tr ++ (if o.(close_fd) then [Sockets.Release Sockets.RFd] else [])) = Some []) as Hh by (rewrite Sockets.holding_app, Ht; by destruct (close_fd o)).
  destruct (is_hupd o); cbn [negb].
  - eexists r2, _. split; [done|]. split; [done|]. split; [|done]. rewrite F2, F1. by apply dormant_inactive.
  - assert (watches r2 a o.(wait_events)) as W2 by (unfold watches; by rewrite F2, F1). destruct (fd_removed r2 a _ I2 W2) as (r3 & -> & _ & A3%dormant_inactive & L).
    eexists r3, _. split; [done|]. split; [done|]. split; [done|]. by rewrite L.
Qed.


(** C15: the streams are exact.  What was written to the socket is what the user
    of the sending side was told, or gave up being told, in order, and then what
    it will be told next; and the user of the receiving side gets exactly the
    bytes that were read.  The runs are those in which a [read] or [write] fails
    once [EPOLLERR] was reported ([legal]). *)
Theorem connection_exact evs r0 left_ o ad tr : BConnection_Init r src a ls lr h g epoll = Some (r0, left_, Some o, ad, tr) ->
  exists r' o' f' acts, machine_run legal step (r0, o, false) evs = Some (r', o', f', acts) /\
    wrote acts = sent acts ++ scur o'.(send) /\ read acts = received acts ++ rcur o'.(recv).
Proof using Hinv Ha Hls Hlr Hne Hsrc Hpeer.
  intros E. destruct connection_init_ok as (r1 & left1 & co & ad1 & tr1 & E1 & _ & Hco). rewrite E in E1. injection E1 as <- <- <- <- <-.
  destruct Hco as (I0 & _). destruct (connection_run_ok r0 o evs I0) as (r' & o' & f' & acts & Em & I' & _). exists r', o', f', acts. split; [done|]. by destruct I' as (_ & _ & _ & ? & ?).
Qed.
End life.

(** A connection on a pipe that sends four bytes, three at first, and reads
    two; the rest is sent when the descriptor is reported as writable. *)
Definition sample_pipe : BConnection_source := BCONNECTION_SOURCE_TYPE_PIPE 5 true true.
Definition no_send : send_half := MkSendHalf 0 (flow_new 0) false None 0 SEND_STATE_NOT_INITED [].
Definition no_recv : recv_half := MkRecvHalf 0 (flow_new 0) false None 0 RECV_STATE_NOT_INITED [].
Definition sample_connection : list event :=
  [SInit; SUser; RInit; RUser; SSend [1; 2; 3; 4]; SJobOperation (WDone 3); SJobDone; RRecv [0; 0; 0]; RJobOperation RAgain;
   SSend [4]; SJobOperation WAgain; Turn 10 [Ready [MkEvent (Z.lor EPOLLIN EPOLLOUT) (Some 50)]] WAgain RAgain;
   Turn 11 [] (WDone 1) RAgain; RJob (RData [8; 9]); SJobDone; RJobDone].


Lemma connection_exact_witness : exists r0 left_ o ad tr r' o' f' acts,
  BConnection_Init new_reactor sample_pipe 50 60 61 no_send no_recv true = Some (r0, left_, Some o, ad, tr) /\
  machine_run legal step (r0, o, false) sample_connection = Some (r', o', f', acts) /\
  wrote acts = sent acts ++ scur o'.(send) /\ read acts = received acts ++ rcur o'.(recv) /\ sent acts = [1; 2; 3; 4] /\ received acts = [8; 9].
Proof.
  destruct (BConnection_Init new_reactor sample_pipe 50 60 61 no_send no_recv true) as [[[[[r0 left_] [o|]] ad] tr]|] eqn:E; [|by vm_compute in E..].
  destruct (connection_exact new_reactor sample_pipe 50 60 61 no_send no_recv true new_reactor_inv eq_refl eq_refl eq_refl ltac:(lia) eq_refl ltac:(by eexists) sample_connection _ _ _ _ _ E)
    as (r' & o' & f' & acts & Er & Hw & Hr).
  exists r0, left_, o, ad, tr, r', o', f', acts. split; [reflexivity|]. split; [exact Er|]. split; [exact Hw|]. split; [exact Hr|]. clear Hw Hr.
  vm_compute in E. injection E as <- <- <- <- <-. vm_compute in Er. injection Er as <- <- <- <-. by vm_compute.
Defined.

(** The assumption on pending errors, and the end of the runs in
    [connection_safe], are needed: when the reactor reports an
    error and the data can be written all the same, the descriptor is still
    waited for, and its next event finds nothing to send. *)
Example error_without_failure : exists r0 left_ o ad tr,
  BConnection_Init new_reactor sample_pipe 50 60 61 no_send no_recv true = Some (r0, left_, Some o, ad, tr) /\
  exists r1 o1 acts1, machine_run legal step (r0, o, false) [SInit; SUser; SSend [1; 2]; SJobOperation WAgain] = Some (r1, o1, false, acts1) /\
  exists r2 o2 acts2, connection_fd_handler r1 o1 BREACTOR_ERROR (WDone 2) RAgain = Some (r2, o2, acts2) /\ watches r2 50 BREACTOR_WRITE /\
    connection_fd_handler r2 o2 BREACTOR_WRITE (WDone 2) RAgain = None.
Proof.
  eexists _, _, _, _, _. split; [vm_compute; reflexivity|]. eexists _, _, _. split; [vm_compute; reflexivity|]. eexists _, _, _. split; [vm_compute; reflexivity|].
  split; [by eexists|]. by vm_compute.
Qed.

(** Nothing keeps the receiving side from being set up again after the end of
    the stream: freeing it forgets that it was closed. *)
Example reopened_after_close : exists r0 left_ o ad tr r' o' acts,
  BConnection_Init new_reactor sample_pipe 50 60 61 no_send no_recv true = Some (r0, left_, Some o, ad, tr) /\
  machine_run legal step (r0, o, false) [RInit; RUser; RRecv [0]; RJobOperation (RData []); RFree; RInit] = Some (r', o', false, acts) /\
  acts = [Report BCONNECTION_EVENT_RECVCLOSED; DroppedReceived []] /\ o'.(recv).(rstate) = RECV_STATE_READY.
Proof. eexists _, _, _, _, _, _, _, _. split; [vm_compute; reflexivity|]. split; [vm_compute; reflexivity|]. by split. Qed.
End Connection.
