(* ===== verification/SocksClient.v ===== *)
(** * The SOCKS5 client

    Models [socksclient/BSocksClient.c], [socksclient/BSocksClient.h] and
    [misc/socks_proto.h]: the state machine that connects to the SOCKS server,
    negotiates an authentication method, sends the CONNECT request and reports
    the connection up.

    The object is a record; each handler of the source is a function from the
    object to the object it leaves behind, [None] when an [ASSERT] fails or
    memory outside the live buffer is touched.  What the handlers do to the
    outside (packets sent, receives started, events reported) is appended to
    the field [out].  The buffer carries the number of its allocation, so that
    a pointer kept across a [BRealloc] is seen to dangle; the bytes a
    [BRealloc] leaves uninitialised are arbitrary ([indet]).  The connection,
    connector and packet sender are kept as far as their own assertions
    observe them ([system/BConnection_unix.c], [flow/PacketStreamSender.c],
    [flow/StreamRecvInterface.h], [flow/PacketPassInterface.h]).  Whether an
    allocation, a [BConnector_Init] or a [BConnection_Init] succeeds is an
    input of the operation. *)

From S2P Require Import Prelude.
From S2P Require Import Words.
From S2P Require Import Addr.
Import ByteOrder Bsize BAddr.

(** ** Protocol constants *)

Definition SOCKS_VERSION : Z := 5.
Definition SOCKS_METHOD_NO_AUTHENTICATION_REQUIRED : Z := 0.
Definition SOCKS_METHOD_USERNAME_PASSWORD : Z := 2.
Definition SOCKS_CMD_CONNECT : Z := 1.
Definition SOCKS_ATYP_IPV4 : Z := 1.
Definition SOCKS_ATYP_IPV6 : Z := 4.
Definition SOCKS_REP_SUCCEEDED : Z := 0.

(** The object representations of the packed protocol structs. *)
Definition socks_client_hello_header (ver nmethods : Z) : bytes := [ver; nmethods].
Definition socks_client_hello_method (method : Z) : bytes := [method].
Definition socks_request_header (ver cmd rsv atyp : Z) : bytes := [ver; cmd; rsv; atyp].
Definition socks_addr_ipv4 (addr port : Z) : bytes := le_enc 4 addr ++ le_enc 2 port.
Definition socks_addr_ipv6 (addr : bytes) (port : Z) : bytes := addr ++ le_enc 2 port.
Definition sizeof_client_hello_header : Z := 2.
Definition sizeof_client_hello_method : Z := 1.
Definition sizeof_server_hello : Z := 2.
Definition sizeof_request_header : Z := 4.
Definition sizeof_reply_header : Z := 4.
Definition sizeof_addr_ipv4 : Z := 6.
Definition sizeof_addr_ipv6 : Z := 18.

(** ** Data *)

Inductive socks_state :=
  | STATE_CONNECTING | STATE_SENDING_HELLO | STATE_SENT_HELLO
  | STATE_SENDING_PASSWORD | STATE_SENT_PASSWORD
  | STATE_SENDING_REQUEST | STATE_SENT_REQUEST | STATE_RECEIVED_REPLY_HEADER
  | STATE_UP.

Inductive socks_event :=
  | BSOCKSCLIENT_EVENT_ERROR | BSOCKSCLIENT_EVENT_UP | BSOCKSCLIENT_EVENT_ERROR_CLOSED.

#[export] Instance socks_state_eq_dec : EqDecision socks_state.
Proof. solve_decision. Defined.
#[export] Instance socks_event_eq_dec : EqDecision socks_event.
Proof. solve_decision. Defined.

(** [username_len] and [password_len] are the lengths of the byte strings. *)
Record BSocksClient_auth_info := AuthInfo {
  auth_type : Z;
  username : bytes;
  password : bytes;
}.

(** One direction of a [BConnection]. *)
Inductive io_state := NotInited | Ready | Busy.

#[export] Instance io_state_eq_dec : EqDecision io_state.
Proof. solve_decision. Defined.

Record BConnection := Conn { con_recv : io_state; con_send : io_state }.

(** What the object does to its environment. *)
Inductive socks_action :=
  | ASend (data : bytes)       (* PacketPassInterface_Sender_Send *)
  | ARecv (len : Z)            (* StreamRecvInterface_Receiver_Recv *)
  | AGot (data : bytes)        (* bytes the connection stored for the last receive *)
  | AReport (ev : socks_event).

(** A pointer into the buffer: the allocation it was taken from, an offset. *)
Definition ptr : Type := nat * Z.

Record BSocksClient := SC {
  auth_info : list BSocksClient_auth_info;
  dest_addr : BAddr;
  state : socks_state;
  buffer : option (nat * bytes);
  allocs : nat;                      (* allocations made so far *)
  connector : bool;
  con : option BConnection;
  send_sender : option (option (ptr * Z)); (* PacketStreamSender and the packet it holds *)
  recv_dest : ptr;
  recv_len : Z;
  recv_total : Z;
  d_err : bool;                      (* the DebugError job is set *)
  out : list socks_action;
}.

Definition set_state s o := SC o.(auth_info) o.(dest_addr) s o.(buffer) o.(allocs) o.(connector)
  o.(con) o.(send_sender) o.(recv_dest) o.(recv_len) o.(recv_total) o.(d_err) o.(out).
Definition set_buffer b n o := SC o.(auth_info) o.(dest_addr) o.(state) b n o.(connector)
  o.(con) o.(send_sender) o.(recv_dest) o.(recv_len) o.(recv_total) o.(d_err) o.(out).
Definition set_connector b o := SC o.(auth_info) o.(dest_addr) o.(state) o.(buffer) o.(allocs) b
  o.(con) o.(send_sender) o.(recv_dest) o.(recv_len) o.(recv_total) o.(d_err) o.(out).
Definition set_con c o := SC o.(auth_info) o.(dest_addr) o.(state) o.(buffer) o.(allocs) o.(connector)
  c o.(send_sender) o.(recv_dest) o.(recv_len) o.(recv_total) o.(d_err) o.(out).
Definition set_sender s o := SC o.(auth_info) o.(dest_addr) o.(state) o.(buffer) o.(allocs) o.(connector)
  o.(con) s o.(recv_dest) o.(recv_len) o.(recv_total) o.(d_err) o.(out).
Definition set_recv d l t o := SC o.(auth_info) o.(dest_addr) o.(state) o.(buffer) o.(allocs) o.(connector)
  o.(con) o.(send_sender) d l t o.(d_err) o.(out).
Definition set_err o := SC o.(auth_info) o.(dest_addr) o.(state) o.(buffer) o.(allocs) o.(connector)
  o.(con) o.(send_sender) o.(recv_dest) o.(recv_len) o.(recv_total) true o.(out).
Definition emit a o := SC o.(auth_info) o.(dest_addr) o.(state) o.(buffer) o.(allocs) o.(connector)
  o.(con) o.(send_sender) o.(recv_dest) o.(recv_len) o.(recv_total) o.(d_err) (o.(out) ++ [a]).

Definition num_auth_info (o : BSocksClient) : Z := Z.of_nat (length o.(auth_info)).

Module SocksClient.
Section SocksClient.
Context (indet : nat -> nat -> Z).

(** ** The connection's assertions *)

Definition BConnection_RecvAsync_Init (o : BSocksClient) : option BSocksClient :=
  LET c <- o.(con) in
  ASSERT bool_decide (c.(con_recv) = NotInited) in
  Some (set_con (Some (Conn Ready c.(con_send))) o).
Definition BConnection_SendAsync_Init (o : BSocksClient) : option BSocksClient :=
  LET c <- o.(con) in
  ASSERT bool_decide (c.(con_send) = NotInited) in
  Some (set_con (Some (Conn c.(con_recv) Ready)) o).
Definition BConnection_RecvAsync_Free (o : BSocksClient) : option BSocksClient :=
  LET c <- o.(con) in
  ASSERT negb (bool_decide (c.(con_recv) = NotInited)) in
  Some (set_con (Some (Conn NotInited c.(con_send))) o).
Definition BConnection_SendAsync_Free (o : BSocksClient) : option BSocksClient :=
  LET c <- o.(con) in
  ASSERT negb (bool_decide (c.(con_send) = NotInited)) in
  Some (set_con (Some (Conn c.(con_recv) NotInited)) o).
Definition BConnection_Free (o : BSocksClient) : option BSocksClient :=
  LET c <- o.(con) in
  ASSERT bool_decide (c.(con_send) = NotInited) in
  ASSERT bool_decide (c.(con_recv) = NotInited) in
  Some (set_con None o).
Definition BConnector_Free (o : BSocksClient) : option BSocksClient :=
  ASSERT o.(connector) in Some (set_connector false o).

(** [PacketPassInterface_Sender_Send] to the packet stream sender: the sender
    keeps the pointer until the packet is done. *)
Definition Sender_Send (len : Z) (o : BSocksClient) : option BSocksClient :=
  LET s <- o.(send_sender) in
  ASSERT (match s with None => true | Some _ => false end) in
  ASSERT (0 <=? len) && (len <=? INT_MAX) in
  LET (a, b) <- o.(buffer) in
  ASSERT len <=? Z.of_nat (length b) in
  Some (emit (ASend (take (Z.to_nat len) b)) (set_sender (Some (Some ((a, 0), len))) o)).

Definition Receiver_Recv (len : Z) (o : BSocksClient) : option BSocksClient :=
  LET c <- o.(con) in
  ASSERT 0 <? len in
  ASSERT bool_decide (c.(con_recv) = Ready) in
  Some (emit (ARecv len) (set_con (Some (Conn Busy c.(con_send))) o)).

(** ** [BSocksClient.c] *)

Definition report_error (o : BSocksClient) (error : socks_event) : option BSocksClient :=
  ASSERT negb o.(d_err) in
  Some (emit (AReport error) (set_err o)).

Definition init_control_io (o : BSocksClient) : option BSocksClient :=
  LET o <- BConnection_RecvAsync_Init o in
  LET o <- BConnection_SendAsync_Init o in
  Some (set_sender (Some None) o).

Definition free_control_io (o : BSocksClient) : option BSocksClient :=
  LET _ <- o.(send_sender) in
  let o := set_sender None o in
  LET o <- BConnection_SendAsync_Free o in
  BConnection_RecvAsync_Free o.

Definition init_up_io (o : BSocksClient) : option BSocksClient :=
  LET o <- BConnection_RecvAsync_Init o in
  BConnection_SendAsync_Init o.

Definition free_up_io (o : BSocksClient) : option BSocksClient :=
  LET o <- BConnection_SendAsync_Free o in
  BConnection_RecvAsync_Free o.

(** [BRealloc]: the old bytes are kept up to the new size, the others are
    indeterminate, and pointers into the old block are invalid. *)
Definition realloc_bytes (k : nat) (old : bytes) (n : nat) : bytes :=
  map (fun i => default (indet k i) (old !! i)) (seq 0 n).

(** Returns the object and whether the buffer was reserved. *)
Definition reserve_buffer (o : BSocksClient) (size : bsize_t) (alloc_ok : bool) : BSocksClient * bool :=
  if size.(is_overflow) then (o, false)
  else if negb alloc_ok then (o, false)
  else
    let old := match o.(buffer) with Some (_, b) => b | None => [] end in
    (set_buffer (Some (o.(allocs), realloc_bytes o.(allocs) old (Z.to_nat size.(value))))
       (S o.(allocs)) o, true).

Definition do_receive (o : BSocksClient) : option BSocksClient :=
  ASSERT o.(recv_len) <? o.(recv_total) in
  Receiver_Recv (o.(recv_total) - o.(recv_len)) o.

Definition start_receive (o : BSocksClient) (dest : Z) (total : Z) : option BSocksClient :=
  ASSERT 0 <? total in
  LET (a, _) <- o.(buffer) in
  do_receive (set_recv (a, dest) 0 total o).

(** [memcpy(o->buffer + off, d, sizeof d)]. *)
Definition write_buffer (off : nat) (d : bytes) (o : BSocksClient) : option BSocksClient :=
  LET (a, b) <- o.(buffer) in
  LET b <- store off d b in
  Some (set_buffer (Some (a, b)) o.(allocs) o).

(** [o->buffer[i]], as an unsigned char. *)
Definition read_buffer (i : nat) (o : BSocksClient) : option Z :=
  LET (_, b) <- o.(buffer) in b !! i.

Fixpoint write_methods (i : nat) (l : list BSocksClient_auth_info) (o : BSocksClient)
  : option BSocksClient :=
  match l with
  | [] => Some o
  | ai :: l =>
      LET o <- write_buffer (Z.to_nat sizeof_client_hello_header + i)
                 (socks_client_hello_method (hton8 (u8 ai.(auth_type)))) o in
      write_methods (S i) l o
  end.

Definition fail1 (o : BSocksClient) : option BSocksClient :=
  LET o <- free_control_io o in
  LET o <- BConnection_Free o in
  report_error o BSOCKSCLIENT_EVENT_ERROR.

Definition connector_handler (o : BSocksClient) (is_error con_ok alloc_ok : bool)
  : option BSocksClient :=
  ASSERT bool_decide (o.(state) = STATE_CONNECTING) in
  if is_error then report_error o BSOCKSCLIENT_EVENT_ERROR
  else if negb con_ok then report_error o BSOCKSCLIENT_EVENT_ERROR
  else
    let o := set_con (Some (Conn NotInited NotInited)) o in
    LET o <- init_control_io o in
    if (num_auth_info o =? 0) || (255 <? num_auth_info o) then fail1 o
    else
      let size := bsize_add (bsize_fromsize sizeof_client_hello_header)
                    (bsize_mul (bsize_fromsize (num_auth_info o))
                               (bsize_fromsize sizeof_client_hello_method)) in
      let '(o, ok) := reserve_buffer o size alloc_ok in
      if negb ok then fail1 o
      else
        LET o <- write_buffer 0 (socks_client_hello_header (hton8 SOCKS_VERSION)
                                   (hton8 (u8 (num_auth_info o)))) o in
        LET o <- write_methods 0 o.(auth_info) o in
        LET o <- Sender_Send size.(value) o in
        Some (set_state STATE_SENDING_HELLO o).

Inductive connection_event :=
  | BCONNECTION_EVENT_ERROR | BCONNECTION_EVENT_RECVCLOSED.

Definition connection_handler (o : BSocksClient) (event : connection_event) : option BSocksClient :=
  ASSERT negb (bool_decide (o.(state) = STATE_CONNECTING)) in
  match o.(state), event with
  | STATE_UP, BCONNECTION_EVENT_RECVCLOSED => report_error o BSOCKSCLIENT_EVENT_ERROR_CLOSED
  | _, _ => report_error o BSOCKSCLIENT_EVENT_ERROR
  end.

Definition auth_finished (o : BSocksClient) (alloc_ok : bool) : option BSocksClient :=
  let size := bsize_fromsize sizeof_request_header in
  let size := match o.(dest_addr) with
              | BAddr_IPv4 _ _ => bsize_add size (bsize_fromsize sizeof_addr_ipv4)
              | BAddr_IPv6 _ _ => bsize_add size (bsize_fromsize sizeof_addr_ipv6)
              | _ => size
              end in
  let '(o, ok) := reserve_buffer o size alloc_ok in
  if negb ok then report_error o BSOCKSCLIENT_EVENT_ERROR
  else
    LET (atyp, o) <-
      match o.(dest_addr) with
      | BAddr_IPv4 ip port =>
          LET o <- write_buffer (Z.to_nat sizeof_request_header) (socks_addr_ipv4 ip port) o in
          Some (hton8 SOCKS_ATYP_IPV4, o)
      | BAddr_IPv6 ip port =>
          LET o <- write_buffer (Z.to_nat sizeof_request_header) (socks_addr_ipv6 ip port) o in
          Some (hton8 SOCKS_ATYP_IPV6, o)
      | _ => None
      end in
    LET o <- write_buffer 0 (socks_request_header (hton8 SOCKS_VERSION) (hton8 SOCKS_CMD_CONNECT)
                               (hton8 0) atyp) o in
    LET o <- Sender_Send size.(value) o in
    Some (set_state STATE_SENDING_REQUEST o).

(** The search loop of the hello reply: the first entry of that method. *)
Fixpoint find_auth (l : list BSocksClient_auth_info) (method : Z) : option BSocksClient_auth_info :=
  match l with
  | [] => None
  | ai :: l => if ai.(auth_type) =? method then Some ai else find_auth l method
  end.

Definition fail (o : BSocksClient) : option BSocksClient :=
  report_error o BSOCKSCLIENT_EVENT_ERROR.

(** [case STATE_SENT_HELLO] of [recv_handler_done]. *)
Definition recv_hello (o : BSocksClient) (alloc_ok : bool) : option BSocksClient :=
  LET ver <- read_buffer 0 o in
  LET method <- read_buffer 1 o in
  if negb (ntoh8 ver =? SOCKS_VERSION) then fail o
  else
    match find_auth o.(auth_info) (ntoh8 method) with
    | None => fail o
    | Some ai =>
        if ai.(auth_type) =? SOCKS_METHOD_NO_AUTHENTICATION_REQUIRED then auth_finished o alloc_ok
        else if ai.(auth_type) =? SOCKS_METHOD_USERNAME_PASSWORD then
          let ul := Z.of_nat (length ai.(username)) in
          let pl := Z.of_nat (length ai.(password)) in
          if (ul =? 0) || (255 <? ul) || (pl =? 0) || (255 <? pl) then fail o
          else
            let size := bsize_fromsize (1 + 1 + ul + 1 + pl) in
            let '(o, ok) := reserve_buffer o size alloc_ok in
            if negb ok then fail o
            else
              LET o <- write_buffer 0 [1] o in
              LET o <- write_buffer 1 [u8 ul] o in
              LET o <- write_buffer 2 ai.(username) o in
              LET o <- write_buffer (2 + length ai.(username)) [u8 pl] o in
              LET o <- write_buffer (3 + length ai.(username)) ai.(password) o in
              LET o <- Sender_Send size.(value) o in
              Some (set_state STATE_SENDING_PASSWORD o)
        else None
    end.

(** [case STATE_SENT_REQUEST] of [recv_handler_done]. *)
Definition recv_reply_header (o : BSocksClient) : option BSocksClient :=
  LET ver <- read_buffer 0 o in
  LET rep <- read_buffer 1 o in
  LET atyp <- read_buffer 3 o in
  if negb (ntoh8 ver =? SOCKS_VERSION) then fail o
  else if negb (ntoh8 rep =? SOCKS_REP_SUCCEEDED) then fail o
  else if ntoh8 atyp =? SOCKS_ATYP_IPV4 then
    LET o <- start_receive o sizeof_reply_header sizeof_addr_ipv4 in
    Some (set_state STATE_RECEIVED_REPLY_HEADER o)
  else if ntoh8 atyp =? SOCKS_ATYP_IPV6 then
    LET o <- start_receive o sizeof_reply_header sizeof_addr_ipv6 in
    Some (set_state STATE_RECEIVED_REPLY_HEADER o)
  else fail o.

(** [case STATE_SENT_PASSWORD] of [recv_handler_done]. *)
Definition recv_password_reply (o : BSocksClient) (alloc_ok : bool) : option BSocksClient :=
  LET b0 <- read_buffer 0 o in
  if negb (b0 =? 1) then fail o
  else
    LET b1 <- read_buffer 1 o in
    if negb (b1 =? 0) then fail o
    else auth_finished o alloc_ok.

(** [case STATE_RECEIVED_REPLY_HEADER] of [recv_handler_done]. *)
Definition recv_reply_rest (o : BSocksClient) : option BSocksClient :=
  let o := set_buffer None o.(allocs) o in
  LET o <- free_control_io o in
  LET o <- init_up_io o in
  let o := set_state STATE_UP o in
  Some (emit (AReport BSOCKSCLIENT_EVENT_UP) o).

Definition recv_handler_done (o : BSocksClient) (data_len : Z) (alloc_ok : bool)
  : option BSocksClient :=
  ASSERT 0 <=? data_len in
  ASSERT data_len <=? o.(recv_total) - o.(recv_len) in
  let o := set_recv o.(recv_dest) (o.(recv_len) + data_len) o.(recv_total) o in
  if o.(recv_len) <? o.(recv_total) then do_receive o
  else
    match o.(state) with
    | STATE_SENT_HELLO => recv_hello o alloc_ok
    | STATE_SENT_REQUEST => recv_reply_header o
    | STATE_SENT_PASSWORD => recv_password_reply o alloc_ok
    | STATE_RECEIVED_REPLY_HEADER => recv_reply_rest o
    | _ => None
    end.

Definition send_handler_done (o : BSocksClient) (alloc_ok : bool) : option BSocksClient :=
  LET _ <- o.(buffer) in
  match o.(state) with
  | STATE_SENDING_HELLO =>
      let size := bsize_fromsize sizeof_server_hello in
      let '(o, ok) := reserve_buffer o size alloc_ok in
      if negb ok then fail o
      else LET o <- start_receive o 0 size.(value) in Some (set_state STATE_SENT_HELLO o)
  | STATE_SENDING_REQUEST =>
      let size := bsize_add (bsize_fromsize sizeof_reply_header)
                    (bsize_max (bsize_fromsize sizeof_addr_ipv4) (bsize_fromsize sizeof_addr_ipv6)) in
      let '(o, ok) := reserve_buffer o size alloc_ok in
      if negb ok then fail o
      else LET o <- start_receive o 0 sizeof_reply_header in Some (set_state STATE_SENT_REQUEST o)
  | STATE_SENDING_PASSWORD =>
      let size := bsize_fromsize 2 in
      let '(o, ok) := reserve_buffer o size alloc_ok in
      if negb ok then fail o
      else LET o <- start_receive o 0 size.(value) in Some (set_state STATE_SENT_PASSWORD o)
  | _ => None
  end.

Definition BSocksClient_auth_none : BSocksClient_auth_info :=
  AuthInfo SOCKS_METHOD_NO_AUTHENTICATION_REQUIRED [] [].

Definition BSocksClient_auth_password (user pass : bytes) : BSocksClient_auth_info :=
  AuthInfo SOCKS_METHOD_USERNAME_PASSWORD user pass.

Definition auth_type_ok (ai : BSocksClient_auth_info) : bool :=
  (ai.(auth_type) =? SOCKS_METHOD_NO_AUTHENTICATION_REQUIRED)
  || (ai.(auth_type) =? SOCKS_METHOD_USERNAME_PASSWORD).

(** [Some None] is the return value 0. *)
Definition BSocksClient_Init (server_addr : BAddr) (auths : list BSocksClient_auth_info)
    (dest : BAddr) (connector_ok : bool) : option (option BSocksClient) :=
  ASSERT negb (BAddr_IsInvalid server_addr) in
  ASSERT (addr_type dest =? BADDR_TYPE_IPV4) || (addr_type dest =? BADDR_TYPE_IPV6) in
  ASSERT forallb auth_type_ok auths in
  if negb connector_ok then Some None
  else Some (Some (SC auths dest STATE_CONNECTING None 0 true None None (0%nat, 0) 0 0 false [])).

Definition BSocksClient_Free (o : BSocksClient) : option BSocksClient :=
  LET o <-
    (if negb (bool_decide (o.(state) = STATE_CONNECTING)) then
       LET o <- (if bool_decide (o.(state) = STATE_UP) then free_up_io o else free_control_io o) in
       BConnection_Free o
     else Some o) in
  LET o <- BConnector_Free o in
  match o.(buffer) with
  | Some _ => Some (set_buffer None o.(allocs) o)
  | None => Some o
  end.

(** ** The environment

    What can happen to the object between two of its own actions.  The
    connection writes received bytes into the buffer before it calls
    [recv_handler_done]; it reads the packet it sends from the buffer. *)
Inductive socks_input :=
  | InConnector (is_error con_ok alloc_ok : bool)
  | InConnection (event : connection_event)
  | InRecv (data : bytes) (alloc_ok : bool)
  | InSent (alloc_ok : bool).

(** The connection stores [data] at [recv_dest + recv_len]. *)
Definition conn_store (data : bytes) (o : BSocksClient) : option BSocksClient :=
  LET (a, b) <- o.(buffer) in
  ASSERT (a =? fst o.(recv_dest))%nat in
  LET o <- write_buffer (Z.to_nat (snd o.(recv_dest) + o.(recv_len))) data o in
  Some (emit (AGot data) o).

Definition socks_step (o : BSocksClient) (i : socks_input) : option BSocksClient :=
  match i with
  | InConnector is_error con_ok alloc_ok => connector_handler o is_error con_ok alloc_ok
  | InConnection event => connection_handler o event
  | InRecv data alloc_ok =>
      LET c <- o.(con) in
      LET o <- conn_store data o in
      recv_handler_done (set_con (Some (Conn Ready c.(con_send))) o) (Z.of_nat (length data)) alloc_ok
  | InSent alloc_ok =>
      LET s <- o.(send_sender) in
      LET ((a, _), _) <- s in
      LET (a', _) <- o.(buffer) in
      ASSERT (a =? a')%nat in
      send_handler_done (set_sender (Some None) o) alloc_ok
  end.

(** When the reactor may call in.  An object that reported an error has been
    freed by its user; the connector reports once; the connection reports, and
    completes a receive or a send that was started, while it exists. *)
Definition socks_enabled (o : BSocksClient) (i : socks_input) : bool :=
  negb o.(d_err) &&
  match i with
  | InConnector _ _ _ => bool_decide (o.(state) = STATE_CONNECTING)
  | InConnection _ => match o.(con) with Some _ => true | None => false end
  | InRecv data _ =>
      match o.(con) with
      | Some c => bool_decide (c.(con_recv) = Busy) && negb (bool_decide (o.(state) = STATE_UP))
                  && (0 <? Z.of_nat (length data))
                  && (Z.of_nat (length data) <=? o.(recv_total) - o.(recv_len))
      | None => false
      end
  | InSent _ => match o.(send_sender) with Some (Some _) => true | _ => false end
  end.

(** Runs a sequence of inputs; stops with [Some None] at an input that cannot
    happen. *)
Fixpoint socks_run (o : BSocksClient) (ins : list socks_input) : option (option BSocksClient) :=
  match ins with
  | [] => Some (Some o)
  | i :: ins =>
      if socks_enabled o i then LET o <- socks_step o i in socks_run o ins else Some None
  end.

End SocksClient.

(** ** Specification

    The conversation an object had with the server, byte by byte: [true] marks
    a byte sent, [false] a byte received.  How the server's bytes were split
    into receives is not visible in it. *)
Definition to_server (l : bytes) : list (bool * Z) := map (pair true) l.
Definition from_server (l : bytes) : list (bool * Z) := map (pair false) l.

Definition act_conv (a : socks_action) : list (bool * Z) :=
  match a with ASend d => to_server d | AGot d => from_server d | _ => [] end.
Definition act_report (a : socks_action) : list socks_event :=
  match a with AReport e => [e] | _ => [] end.
Definition conv (l : list socks_action) : list (bool * Z) := concat (map act_conv l).
Definition reports (l : list socks_action) : list socks_event := concat (map act_report l).

(** RFC 1928 and RFC 1929 messages. *)
Definition hello_msg (auths : list BSocksClient_auth_info) : bytes :=
  [5; Z.of_nat (length auths)] ++ map auth_type auths.
Definition password_msg (ai : BSocksClient_auth_info) : bytes :=
  [1; Z.of_nat (length ai.(username))] ++ ai.(username)
  ++ [Z.of_nat (length ai.(password))] ++ ai.(password).
Definition request_msg (dest : BAddr) : bytes :=
  match dest with
  | BAddr_IPv4 ip port => [5; 1; 0; 1] ++ le_enc 4 ip ++ le_enc 2 port
  | BAddr_IPv6 ip port => [5; 1; 0; 4] ++ ip ++ le_enc 2 port
  | _ => []
  end.

Definition credentials_ok (ai : BSocksClient_auth_info) : Prop :=
  (0 < length ai.(username) < 256)%nat /\ (0 < length ai.(password) < 256)%nat.

(** The part between the hello and the request. *)
Inductive auth_exchange (auths : list BSocksClient_auth_info) : list (bool * Z) -> Prop :=
  | auth_exchange_none ai :
      find_auth auths 0 = Some ai ->
      auth_exchange auths (from_server [5; 0])
  | auth_exchange_password ai :
      find_auth auths 2 = Some ai -> credentials_ok ai ->
      auth_exchange auths (from_server [5; 2] ++ to_server (password_msg ai) ++ from_server [1; 0]).

Definition reply_ok (r : bytes) : Prop :=
  exists rsv atyp addr, r = [5; 0; rsv; atyp] ++ addr /\
    ((atyp = 1 /\ length addr = 6%nat) \/ (atyp = 4 /\ length addr = 18%nat)).

(** A complete successful handshake. *)
Definition handshake (auths : list BSocksClient_auth_info) (dest : BAddr) (l : list (bool * Z)) : Prop :=
  exists ax r, auth_exchange auths ax /\ reply_ok r /\
    l = to_server (hello_msg auths) ++ ax ++ to_server (request_msg dest) ++ from_server r.

(** What an object may report to its user, in order: it comes up at most
    once, an error is the last report, and "closed by the server" is only
    said of a connection that was up. *)
Definition legal_reports (l : list socks_event) : Prop :=
  l = [] \/ l = [BSOCKSCLIENT_EVENT_ERROR] \/ l = [BSOCKSCLIENT_EVENT_UP]
  \/ l = [BSOCKSCLIENT_EVENT_UP; BSOCKSCLIENT_EVENT_ERROR]
  \/ l = [BSOCKSCLIENT_EVENT_UP; BSOCKSCLIENT_EVENT_ERROR_CLOSED].

(** ** Invariant *)

Section Invariant.
(** The authentication list and destination the object was initialised with. *)
Context {cfg : list BSocksClient_auth_info * BAddr}.

Definition cfg_ok (o : BSocksClient) : Prop :=
  (o.(auth_info), o.(dest_addr)) = cfg /\
  forallb auth_type_ok o.(auth_info) = true /\ BAddr_wf o.(dest_addr) /\
  (addr_type o.(dest_addr) = BADDR_TYPE_IPV4 \/ addr_type o.(dest_addr) = BADDR_TYPE_IPV6).

Definition io_on (c : BConnection) : Prop := c.(con_recv) <> NotInited /\ c.(con_send) <> NotInited.

(** What the object holds, by state: exactly what [BSocksClient_Free] frees. *)
Definition resources (o : BSocksClient) : Prop :=
  o.(connector) = true /\
  match o.(state) with
  | STATE_CONNECTING => o.(con) = None /\ o.(send_sender) = None
  | STATE_UP => (exists c, o.(con) = Some c /\ io_on c) /\ o.(send_sender) = None
  | _ => (exists c, o.(con) = Some c /\ io_on c) /\ is_Some o.(send_sender)
  end.

(** A packet is being sent from the live buffer. *)
Definition sending (o : BSocksClient) : Prop :=
  exists a b n, o.(buffer) = Some (a, b) /\ o.(con) = Some (Conn Ready Ready) /\
    o.(send_sender) = Some (Some ((a, 0), n)).

(** A message of [total] bytes is being received at offset [base] of the live
    buffer; [got] is the buffer up to the last byte received. *)
Definition receiving (o : BSocksClient) (base total : Z) (got : bytes) : Prop :=
  exists a b, o.(buffer) = Some (a, b) /\ o.(con) = Some (Conn Busy Ready) /\
    o.(send_sender) = Some None /\ o.(recv_dest) = (a, base) /\ o.(recv_total) = total /\
    0 <= o.(recv_len) < total /\ base + total <= Z.of_nat (length b) /\
    got = take (Z.to_nat (base + o.(recv_len))) b.

Definition hello_part (o : BSocksClient) := to_server (hello_msg o.(auth_info)).
Definition request_part (o : BSocksClient) := to_server (request_msg o.(dest_addr)).

(** What each state knows. *)
Definition progress (o : BSocksClient) : Prop :=
  match o.(state) with
  | STATE_CONNECTING =>
      o.(con) = None /\ o.(send_sender) = None /\ o.(buffer) = None /\ conv o.(out) = []
  | STATE_SENDING_HELLO => sending o /\ conv o.(out) = hello_part o
  | STATE_SENT_HELLO =>
      exists got, receiving o 0 2 got /\ conv o.(out) = hello_part o ++ from_server got
  | STATE_SENDING_PASSWORD =>
      exists ai, find_auth o.(auth_info) 2 = Some ai /\ credentials_ok ai /\ sending o /\
        conv o.(out) = hello_part o ++ from_server [5; 2] ++ to_server (password_msg ai)
  | STATE_SENT_PASSWORD =>
      exists ai got, find_auth o.(auth_info) 2 = Some ai /\ credentials_ok ai /\ receiving o 0 2 got /\
        conv o.(out) = hello_part o ++ from_server [5; 2] ++ to_server (password_msg ai) ++ from_server got
  | STATE_SENDING_REQUEST =>
      exists ax, auth_exchange o.(auth_info) ax /\ sending o /\
        conv o.(out) = hello_part o ++ ax ++ request_part o
  | STATE_SENT_REQUEST =>
      exists ax got, auth_exchange o.(auth_info) ax /\ receiving o 0 4 got /\
        (exists a b, o.(buffer) = Some (a, b) /\ length b = 22%nat) /\
        conv o.(out) = hello_part o ++ ax ++ request_part o ++ from_server got
  | STATE_RECEIVED_REPLY_HEADER =>
      exists ax total got rsv atyp addr, auth_exchange o.(auth_info) ax /\ receiving o 4 total got /\
        got = [5; 0; rsv; atyp] ++ addr /\ ((atyp = 1 /\ total = 6) \/ (atyp = 4 /\ total = 18)) /\
        conv o.(out) = hello_part o ++ ax ++ request_part o ++ from_server got
  | STATE_UP =>
      (exists c, o.(con) = Some c /\ io_on c) /\ o.(send_sender) = None /\ o.(buffer) = None /\
      handshake o.(auth_info) o.(dest_addr) (conv o.(out))
  end.

Definition up_reports (o : BSocksClient) : list socks_event :=
  if bool_decide (o.(state) = STATE_UP) then [BSOCKSCLIENT_EVENT_UP] else [].

Definition inv (o : BSocksClient) : Prop :=
  cfg_ok o /\ resources o /\
  (o.(state) = STATE_UP -> handshake o.(auth_info) o.(dest_addr) (conv o.(out))) /\
  (if o.(d_err)
   then exists e, reports o.(out) = up_reports o ++ [e] /\ e <> BSOCKSCLIENT_EVENT_UP /\
          (e = BSOCKSCLIENT_EVENT_ERROR_CLOSED -> o.(state) = STATE_UP)
   else progress o /\ reports o.(out) = up_reports o).

(** ** Lemmas *)

Lemma conv_app l1 l2 : conv (l1 ++ l2) = conv l1 ++ conv l2.
Proof. unfold conv. by rewrite map_app, concat_app. Qed.
Lemma reports_app l1 l2 : reports (l1 ++ l2) = reports l1 ++ reports l2.
Proof. unfold reports. by rewrite map_app, concat_app. Qed.
Lemma conv_emit l a : conv (l ++ [a]) = conv l ++ act_conv a.
Proof. rewrite conv_app. unfold conv. simpl. by rewrite app_nil_r. Qed.
Lemma reports_emit l a : reports (l ++ [a]) = reports l ++ act_report a.
Proof. rewrite reports_app. unfold reports. simpl. by rewrite app_nil_r. Qed.

Lemma to_server_app a b : to_server (a ++ b) = to_server a ++ to_server b.
Proof. apply map_app. Qed.
Lemma from_server_app a b : from_server (a ++ b) = from_server a ++ from_server b.
Proof. apply map_app. Qed.

Lemma realloc_length indet k old n : length (realloc_bytes indet k old n) = n.
Proof. unfold realloc_bytes. by rewrite length_map, length_seq. Qed.


Lemma reserve_buffer_ok indet o n :
  reserve_buffer indet o (bsize_fromsize n) true =
  (set_buffer (Some (o.(allocs),
     realloc_bytes indet o.(allocs) (match o.(buffer) with Some (_, b) => b | None => [] end) (Z.to_nat n)))
     (S o.(allocs)) o, true).
Proof. done. Qed.

Lemma realloc_split indet k old n1 n2 :
  exists p q, realloc_bytes indet k old (n1 + n2) = p ++ q /\ length p = n1 /\ length q = n2.
Proof.
  destruct (list_split_at n1 (realloc_bytes indet k old (n1 + n2))) as (p & q & E & Hp);
    [rewrite realloc_length; lia|].
  exists p, q. split; [done|]. split; [done|].
  apply (f_equal length) in E. rewrite realloc_length, length_app in E. lia.
Qed.

(** [msg] was put into a fresh buffer and handed to the sender. *)
Definition sent (o : BSocksClient) (msg : bytes) (st : socks_state) : BSocksClient :=
  set_state st (emit (ASend msg)
    (set_sender (Some (Some ((o.(allocs), 0), Z.of_nat (length msg))))
      (set_buffer (Some (o.(allocs), msg)) (S o.(allocs)) o))).

(** A receive of [total] bytes was started into a fresh buffer [b]. *)
Definition awaiting (o : BSocksClient) (b : bytes) (total : Z) (st : socks_state) : BSocksClient :=
  set_state st (emit (ARecv total) (set_con (Some (Conn Busy Ready))
    (set_recv (o.(allocs), 0) 0 total (set_buffer (Some (o.(allocs), b)) (S o.(allocs)) o)))).

Lemma Sender_Send_all o a b :
  o.(send_sender) = Some None -> o.(buffer) = Some (a, b) -> Z.of_nat (length b) <= INT_MAX ->
  Sender_Send (Z.of_nat (length b)) o =
  Some (emit (ASend b) (set_sender (Some (Some ((a, 0), Z.of_nat (length b)))) o)).
Proof.
  intros Hs Hb Hl. unfold Sender_Send. rewrite Hs, Hb.
  rewrite (proj2 (Z.leb_le 0 _)), (proj2 (Z.leb_le _ INT_MAX)), Z.leb_refl by lia. simpl.
  by rewrite Nat2Z.id, firstn_all.
Qed.

Lemma write_buffer_mid o a p q r d off :
  o.(buffer) = Some (a, p ++ q ++ r) -> length p = off -> length q = length d ->
  write_buffer off d o = Some (set_buffer (Some (a, p ++ d ++ r)) o.(allocs) o).
Proof. intros Hb Hp Hq. unfold write_buffer. by rewrite Hb, store_mid. Qed.

Lemma write_buffer_tail o a p q d off :
  o.(buffer) = Some (a, p ++ q) -> length p = off -> length q = length d ->
  write_buffer off d o = Some (set_buffer (Some (a, p ++ d)) o.(allocs) o).
Proof.
  intros Hb Hp Hq. rewrite (write_buffer_mid o a p q [] d off) by (rewrite ?app_nil_r; done).
  by rewrite app_nil_r.
Qed.

Lemma write_buffer_head o a q r d :
  o.(buffer) = Some (a, q ++ r) -> length q = length d ->
  write_buffer 0 d o = Some (set_buffer (Some (a, d ++ r)) o.(allocs) o).
Proof. intros Hb Hq. by apply (write_buffer_mid o a [] q r d 0). Qed.

Lemma write_methods_fill l : forall i o a p q,
  o.(buffer) = Some (a, p ++ q) -> length p = (2 + i)%nat -> length q = length l ->
  forallb auth_type_ok l = true ->
  write_methods i l o = Some (set_buffer (Some (a, p ++ map auth_type l)) o.(allocs) o).
Proof.
  induction l as [|ai l IH]; intros i o a p q Hb Hp Hq Hl.
  - destruct q; [|done]. simpl. rewrite <- Hb. by destruct o.
  - destruct q as [|x q]; [done|]. simpl in Hl. apply andb_true_iff in Hl as [Ha Hl].
    cbn [write_methods]. rewrite (write_buffer_mid _ a p [x] q) by done.
    rewrite (IH _ _ a (p ++ [auth_type ai]) q); [|simpl|rewrite length_app; simpl; lia|simpl in Hq; lia|done].
    + simpl. by rewrite <- app_assoc.
    + rewrite <- app_assoc. simpl. do 4 f_equal.
      unfold auth_type_ok, SOCKS_METHOD_NO_AUTHENTICATION_REQUIRED, SOCKS_METHOD_USERNAME_PASSWORD in Ha.
      apply orb_true_iff in Ha as [Ha|Ha]; apply Z.eqb_eq in Ha; by rewrite Ha.
Qed.

(** [auth_finished] sends the CONNECT request. *)
Lemma auth_finished_ok indet o :
  cfg_ok o -> o.(send_sender) = Some None ->
  auth_finished indet o true = Some (sent o (request_msg o.(dest_addr)) STATE_SENDING_REQUEST).
Proof.
  intros (_ & _ & Hwf & Hty) Hs. unfold auth_finished.
  set (old := match o.(buffer) with Some (_, b) => b | None => [] end).
  destruct (dest_addr o) as [|ip port|ip port|] eqn:Hd; try (exfalso; by destruct Hty).
  - change (bsize_add _ _) with (bsize_fromsize 10). rewrite reserve_buffer_ok. fold old. simpl negb. cbv iota.
    cbn [set_buffer dest_addr]. rewrite Hd.
    change (Z.to_nat 10) with (4 + 6)%nat.
    destruct (realloc_split indet (allocs o) old 4 6) as (p & q & E & Hp & Hq). rewrite E.
    erewrite (write_buffer_tail _ _ p q) by (done || by rewrite Hq).
    erewrite (write_buffer_head _ _ p) by (done || by rewrite Hp).
    rewrite (Sender_Send_all _ (allocs o) (request_msg (BAddr_IPv4 ip port))) by done. done.
  - change (bsize_add _ _) with (bsize_fromsize 22). rewrite reserve_buffer_ok. fold old. simpl negb. cbv iota.
    cbn [set_buffer dest_addr]. rewrite Hd. destruct Hwf as [[_ Hip] _].
    change (Z.to_nat 22) with (4 + 18)%nat.
    destruct (realloc_split indet (allocs o) old 4 18) as (p & q & E & Hp & Hq). rewrite E.
    assert (length (socks_addr_ipv6 ip port) = 18%nat) as Ha
      by (unfold socks_addr_ipv6; rewrite length_app, le_enc_length; lia).
    erewrite (write_buffer_tail _ _ p q) by (done || by rewrite Hq).
    erewrite (write_buffer_head _ _ p) by (done || by rewrite Hp).
    assert (Z.of_nat (length (request_msg (BAddr_IPv6 ip port))) = 22) as Hl
      by (unfold request_msg; rewrite !length_app, le_enc_length; simpl; lia).
    change (value (bsize_fromsize 22)) with 22. rewrite <- Hl.
    rewrite (Sender_Send_all _ (allocs o) (request_msg (BAddr_IPv6 ip port)));
      [|done|done|rewrite Hl; done]. done.
Qed.


Lemma hello_size n :
  0 < n <= 255 ->
  bsize_add (bsize_fromsize sizeof_client_hello_header)
    (bsize_mul (bsize_fromsize n) (bsize_fromsize sizeof_client_hello_method)) = bsize_fromsize (2 + n).
Proof.
  intros Hn. unfold bsize_add, bsize_mul, bsize_fromsize, sizeof_client_hello_header, sizeof_client_hello_method, SIZE_MAX.
  cbn [is_overflow value]. rewrite Z.mul_1_r, !u64_small by (rewrite ?u64_small by lia; lia).
  assert (18446744073709551615 / n >= 1) by (apply Z.le_ge, Z.div_le_lower_bound; lia).
  destruct (Z.ltb_spec (18446744073709551615 / n) 1); [lia|].
  destruct (Z.ltb_spec (18446744073709551615 - 2) n); [lia|]. by rewrite andb_false_r.
Qed.

Lemma init_control_io_fresh o :
  init_control_io (set_con (Some (Conn NotInited NotInited)) o) =
  Some (set_sender (Some None) (set_con (Some (Conn Ready Ready)) o)).
Proof. done. Qed.

(** A connected client sends its hello. *)
Lemma connector_handler_ok indet o :
  cfg_ok o -> o.(state) = STATE_CONNECTING -> 0 < num_auth_info o <= 255 -> o.(buffer) = None ->
  connector_handler indet o false true true =
  Some (sent (set_con (Some (Conn Ready Ready)) o) (hello_msg o.(auth_info)) STATE_SENDING_HELLO).
Proof.
  intros (_ & Hau & _ & _) Hst Hn Hb. unfold connector_handler. rewrite Hst. cbn [bool_decide negb].
  rewrite init_control_io_fresh. change (num_auth_info (set_sender _ _)) with (num_auth_info o). cbv zeta.
  destruct (Z.eqb_spec (num_auth_info o) 0) as [|_]; [lia|].
  destruct (Z.ltb_spec 255 (num_auth_info o)) as [|_]; [lia|].
  rewrite hello_size, reserve_buffer_ok by done. cbn [orb negb buffer allocs set_sender set_con]. rewrite Hb.
  set (n := length (auth_info o)). replace (Z.to_nat (2 + num_auth_info o)) with (2 + n)%nat
    by (unfold num_auth_info in *; lia).
  destruct (realloc_split indet (allocs o) [] 2 n) as (p & q & E & Hp & Hq). rewrite E.
  erewrite (write_buffer_head _ _ p q) by done.
  cbn [auth_info set_buffer set_sender set_con].
  erewrite (write_methods_fill (auth_info o) 0 _ (allocs o)) by done.
  cbn [value bsize_fromsize allocs set_buffer].
  assert (Z.of_nat (length (hello_msg (auth_info o))) = 2 + num_auth_info o) as Hl
    by (unfold hello_msg, num_auth_info; rewrite length_app, length_map; simpl; lia).
  rewrite <- Hl. unfold num_auth_info in *. change (u8 (Z.of_nat _)) with (u8 (Z.of_nat n)).
  unfold hton8, SOCKS_VERSION, socks_client_hello_header. rewrite u8_small by (subst n; lia).
  rewrite (Sender_Send_all _ (allocs o) (hello_msg (auth_info o))); [done|done|done|unfold INT_MAX; lia].
Qed.

(** Filling a buffer from the front: [done] is written, [rest] is not. *)
Lemma write_buffer_next o a done rest d off :
  o.(buffer) = Some (a, done ++ rest) -> length done = off -> (length d <= length rest)%nat ->
  write_buffer off d o =
  Some (set_buffer (Some (a, (done ++ d) ++ drop (length d) rest)) o.(allocs) o).
Proof.
  intros Hb Ho Hl. rewrite <- (take_drop (length d) rest) in Hb.
  rewrite (write_buffer_mid o a done (take (length d) rest) (drop (length d) rest) d off);
    [by rewrite <- app_assoc|done|done|rewrite length_take; lia].
Qed.

Lemma find_auth_type l m ai : find_auth l m = Some ai -> ai.(auth_type) = m.
Proof.
  induction l as [|x l IH]; simpl; [done|]. destruct (Z.eqb_spec (auth_type x) m); [by intros [= <-]|done].
Qed.

Lemma ntoh8_id x : ntoh8 x = x.
Proof. done. Qed.

Lemma find_auth_in l m ai : find_auth l m = Some ai -> In ai l.
Proof.
  induction l as [|x l IH]; simpl; [done|]. destruct (Z.eqb_spec (auth_type x) m); [intros [= <-]; by left|auto].
Qed.

Lemma recv_hello_none indet o a b ok ai :
  o.(buffer) = Some (a, b) -> b !! 0%nat = Some 5 -> b !! 1%nat = Some 0 -> find_auth o.(auth_info) 0 = Some ai ->
  recv_hello indet o ok = auth_finished indet o ok.
Proof.
  intros Hb H0 H1 Hf. unfold recv_hello, read_buffer. rewrite Hb, H0, H1.
  change (negb (ntoh8 5 =? SOCKS_VERSION)) with false. change (ntoh8 0) with 0. cbv iota. rewrite Hf.
  by rewrite (find_auth_type _ _ _ Hf).
Qed.

Lemma recv_hello_password indet o a b0 ai :
  o.(buffer) = Some (a, b0) -> b0 !! 0%nat = Some 5 -> b0 !! 1%nat = Some 2 ->
  o.(send_sender) = Some None ->
  find_auth o.(auth_info) 2 = Some ai -> credentials_ok ai ->
  recv_hello indet o true = Some (sent o (password_msg ai) STATE_SENDING_PASSWORD).
Proof.
  intros Hb H0 H1 Hs Hf [Hu Hp]. unfold recv_hello, read_buffer. rewrite Hb, H0, H1.
  change (negb (ntoh8 5 =? SOCKS_VERSION)) with false. change (ntoh8 2) with 2. cbv iota.
  rewrite Hf, (find_auth_type _ _ _ Hf).
  change (2 =? SOCKS_METHOD_NO_AUTHENTICATION_REQUIRED) with false.
  change (2 =? SOCKS_METHOD_USERNAME_PASSWORD) with true. cbv iota zeta.
  set (nu := length (username ai)) in *. set (np := length (password ai)) in *.
  destruct (Z.eqb_spec (Z.of_nat nu) 0) as [|_]; [lia|]. destruct (Z.ltb_spec 255 (Z.of_nat nu)) as [|_]; [lia|].
  destruct (Z.eqb_spec (Z.of_nat np) 0) as [|_]; [lia|]. destruct (Z.ltb_spec 255 (Z.of_nat np)) as [|_]; [lia|].
  cbn [orb]. rewrite reserve_buffer_ok. cbn [negb]. rewrite Hb.
  assert (Z.of_nat (length (password_msg ai)) = 1 + 1 + Z.of_nat nu + 1 + Z.of_nat np) as Hl
    by (unfold password_msg; rewrite !length_app; simpl; lia).
  set (b := realloc_bytes _ _ _ _). assert (length b = (3 + nu + np)%nat) as Hlb
    by (subst b; rewrite realloc_length; lia).
  pose (w1 := [1]). pose (w2 := w1 ++ [u8 (Z.of_nat nu)]). pose (w3 := w2 ++ username ai).
  pose (w4 := w3 ++ [u8 (Z.of_nat np)]).
  pose (r1 := drop 1 b). pose (r2 := drop 1 r1). pose (r3 := drop nu r2). pose (r4 := drop 1 r3).
  assert (length r1 = (2 + nu + np)%nat) as L1 by (unfold r1; rewrite length_drop; lia).
  assert (length r2 = (1 + nu + np)%nat) as L2 by (unfold r2; rewrite length_drop; lia).
  assert (length r3 = (1 + np)%nat) as L3 by (unfold r3; rewrite length_drop; lia).
  assert (length r4 = np) as L4 by (unfold r4; rewrite length_drop; lia).
  assert (length w3 = (2 + nu)%nat) as W3 by (unfold w3; rewrite length_app; done).
  assert (length w4 = (3 + nu)%nat) as W4 by (unfold w4; rewrite length_app, W3; simpl; lia).
  rewrite (write_buffer_next _ (allocs o) [] b [1]) by (done || (simpl; lia)).
  rewrite (write_buffer_next _ (allocs o) w1 r1 [u8 (Z.of_nat nu)]) by (done || (simpl; lia)).
  rewrite (write_buffer_next _ (allocs o) w2 r2 (username ai)) by (done || (fold nu; lia)).
  rewrite (write_buffer_next _ (allocs o) w3 r3 [u8 (Z.of_nat np)]) by (done || (simpl; lia)).
  rewrite (write_buffer_next _ (allocs o) w4 r4 (password ai)) by (done || (fold np; lia)).
  rewrite drop_ge by (fold np; lia). unfold w4, w3, w2, w1.
  rewrite !u8_small by lia. cbn [value bsize_fromsize]. rewrite <- Hl.
  assert ((((([1] ++ [Z.of_nat nu]) ++ username ai) ++ [Z.of_nat np]) ++ password ai) ++ [] = password_msg ai) as ->
    by (unfold password_msg; by rewrite app_nil_r, <- !app_assoc).
  by rewrite (Sender_Send_all _ (allocs o) (password_msg ai)) by (done || (rewrite Hl; unfold INT_MAX; lia)).
Qed.

(** ** Every enabled input preserves the invariant and aborts nowhere *)

Lemma error_inv o e :
  cfg_ok o -> resources o -> o.(d_err) = false ->
  (o.(state) = STATE_UP -> handshake o.(auth_info) o.(dest_addr) (conv o.(out))) ->
  reports o.(out) = up_reports o -> e <> BSOCKSCLIENT_EVENT_UP ->
  (e = BSOCKSCLIENT_EVENT_ERROR_CLOSED -> o.(state) = STATE_UP) ->
  exists o', report_error o e = Some o' /\ inv o'.
Proof.
  intros Hc Hr Hd Hu Hrep He Hcl. unfold report_error. rewrite Hd. eexists. split; [done|].
  split; [exact Hc|]. split; [exact Hr|].
  cbn [emit set_err out d_err state auth_info dest_addr]. split.
  - intros Hs. rewrite conv_emit, app_nil_r. by apply Hu.
  - exists e. rewrite reports_emit, Hrep. done.
Qed.

(** An object in the middle of the handshake that is about to fail. *)
Lemma fail_inv o :
  cfg_ok o -> o.(connector) = true -> o.(state) <> STATE_CONNECTING -> o.(state) <> STATE_UP ->
  (exists c, o.(con) = Some c /\ io_on c) -> is_Some o.(send_sender) -> o.(d_err) = false ->
  reports o.(out) = [] -> exists o', fail o = Some o' /\ inv o'.
Proof.
  intros Hc Hk Hs1 Hs2 Hcon Hsn Hd Hr. apply error_inv; try done.
  - split; [done|]. by destruct (state o).
  - rewrite Hr. unfold up_reports. by rewrite bool_decide_eq_false_2.
Qed.

Lemma sent_inv o msg st :
  cfg_ok o -> o.(connector) = true -> o.(con) = Some (Conn Ready Ready) -> o.(d_err) = false ->
  reports o.(out) = [] -> st <> STATE_CONNECTING -> st <> STATE_UP ->
  progress (sent o msg st) -> inv (sent o msg st).
Proof.
  intros Hc Hk Hcon Hd Hr Hs1 Hs2 Hp. split; [exact Hc|]. split.
  { split; [done|]. cbn. assert (exists c, con o = Some c /\ io_on c) by (eexists; split; [done|done]).
    destruct st; try done; split; done. }
  split; [cbn; congruence|]. cbn [d_err sent set_state emit set_sender set_buffer]. rewrite Hd. split; [done|].
  cbn [out sent awaiting set_state emit set_sender set_buffer set_con set_recv]. rewrite reports_emit, Hr. unfold up_reports. cbn [state set_state]. by rewrite bool_decide_eq_false_2.
Qed.

Lemma sent_sending o msg st : o.(con) = Some (Conn Ready Ready) -> sending (sent o msg st).
Proof. intros H. do 3 eexists. by cbn. Qed.

Lemma awaiting_inv o b total st :
  cfg_ok o -> o.(connector) = true -> o.(d_err) = false -> o.(send_sender) = Some None ->
  reports o.(out) = [] -> st <> STATE_CONNECTING -> st <> STATE_UP ->
  progress (awaiting o b total st) -> inv (awaiting o b total st).
Proof.
  intros Hc Hk Hd Hsn Hr Hs1 Hs2 Hp. split; [exact Hc|]. split.
  { split; [done|]. cbn. rewrite Hsn. destruct st; try done; split; eauto; by eexists. }
  split; [cbn; congruence|]. cbn [d_err awaiting set_state emit set_con set_recv set_buffer]. rewrite Hd. split; [done|].
  cbn [out sent awaiting set_state emit set_sender set_buffer set_con set_recv]. rewrite reports_emit, Hr. unfold up_reports. cbn [state set_state]. by rewrite bool_decide_eq_false_2.
Qed.

Lemma awaiting_receiving o b total st :
  o.(send_sender) = Some None -> 0 < total -> total <= Z.of_nat (length b) ->
  receiving (awaiting o b total st) 0 total [].
Proof. intros Hs Ht Hb. exists (allocs o), b. cbn. rewrite Hs. repeat split; try lia; done. Qed.

Definition old_bytes (o : BSocksClient) : bytes :=
  match o.(buffer) with Some (_, b) => b | None => [] end.

(** What follows a packet that was sent completely. *)
Lemma send_handler_done_ok indet o a b st n total :
  o.(buffer) = Some (a, b) -> o.(con) = Some (Conn Ready Ready) ->
  (o.(state) = STATE_SENDING_HELLO /\ st = STATE_SENT_HELLO /\ n = 2%nat /\ total = 2 \/
   o.(state) = STATE_SENDING_PASSWORD /\ st = STATE_SENT_PASSWORD /\ n = 2%nat /\ total = 2 \/
   o.(state) = STATE_SENDING_REQUEST /\ st = STATE_SENT_REQUEST /\ n = 22%nat /\ total = 4) ->
  send_handler_done indet o true =
  Some (awaiting o (realloc_bytes indet o.(allocs) (old_bytes o) n) total st).
Proof.
  intros Hb Hc [(Hs & -> & -> & ->)|[(Hs & -> & -> & ->)|(Hs & -> & -> & ->)]]; unfold send_handler_done;
    rewrite Hs, Hb; try change (bsize_add _ _) with (bsize_fromsize 22);
    unfold start_receive, do_receive, Receiver_Recv, awaiting, reserve_buffer, old_bytes;
    cbn -[realloc_bytes]; rewrite ?Hb, ?Hc; done.
Qed.

Lemma send_handler_done_noalloc indet o a b :
  o.(buffer) = Some (a, b) ->
  (o.(state) = STATE_SENDING_HELLO \/ o.(state) = STATE_SENDING_PASSWORD \/ o.(state) = STATE_SENDING_REQUEST) ->
  send_handler_done indet o false = fail o.
Proof.
  intros Hb Hs. unfold send_handler_done. rewrite Hb. by destruct Hs as [->|[->| ->]].
Qed.

(** ** Receiving *)

(** The object after the connection stored [data]; [b] is the new buffer. *)
Definition stored (o : BSocksClient) (a : nat) (b data : bytes) : BSocksClient :=
  set_recv o.(recv_dest) (o.(recv_len) + Z.of_nat (length data)) o.(recv_total)
    (set_con (Some (Conn Ready Ready)) (emit (AGot data) (set_buffer (Some (a, b)) o.(allocs) o))).

Lemma step_recv indet o base total got data ok :
  receiving o base total got -> 0 <= base ->
  (0 < length data)%nat -> Z.of_nat (length data) <= total - o.(recv_len) ->
  exists a b, o.(buffer) = Some (a, b) /\ exists b', length b' = length b /\
    take (Z.to_nat (base + o.(recv_len) + Z.of_nat (length data))) b' = got ++ data /\
    socks_step indet o (InRecv data ok) =
    (if o.(recv_len) + Z.of_nat (length data) <? total then do_receive (stored o a b' data)
     else match o.(state) with
          | STATE_SENT_HELLO => recv_hello indet (stored o a b' data) ok
          | STATE_SENT_REQUEST => recv_reply_header (stored o a b' data)
          | STATE_SENT_PASSWORD => recv_password_reply indet (stored o a b' data) ok
          | STATE_RECEIVED_REPLY_HEADER => recv_reply_rest (stored o a b' data)
          | _ => None
          end).
Proof.
  intros (a & b & Hb & Hc & Hs & Hd & Ht & Hl & Hbl & ->) Hbase Hlen Hle. exists a, b. split; [done|].
  set (off := Z.to_nat (base + recv_len o)).
  destruct (store_total off data b) as [b' Eb]; [unfold off; lia|]. exists b'.
  split; [by apply store_length in Eb|]. split.
  - unfold store in Eb. run_inv; subst. to_prop.
    rewrite app_assoc, take_app_le by (rewrite length_app, length_take; unfold off; lia).
    apply take_ge. rewrite length_app, length_take. unfold off. lia.
  - cbn [socks_step]. rewrite Hc. unfold conn_store. rewrite Hb, Hd. cbn [fst snd]. rewrite Nat.eqb_refl.
    unfold write_buffer. rewrite Hb. fold off. rewrite Eb. unfold recv_handler_done.
    cbn [set_con emit set_buffer recv_total recv_len recv_dest set_recv state con_send].
    rewrite Ht, (proj2 (Z.leb_le 0 _)), (proj2 (Z.leb_le _ (total - _))) by lia.
    unfold stored. by rewrite Ht.
Qed.

Lemma step_connector indet o is_error con_ok ok :
  inv o -> o.(d_err) = false -> o.(state) = STATE_CONNECTING ->
  exists o', connector_handler indet o is_error con_ok ok = Some o' /\ inv o'.
Proof.
  intros (Hc & Hr & Hu & Hp) Hd Hs. rewrite Hd in Hp. destruct Hp as [Hp Hrep].
  unfold progress in Hp. rewrite Hs in Hp. destruct Hp as (Hcon & Hsn & Hb & Hcv).
  assert (exists o', report_error o BSOCKSCLIENT_EVENT_ERROR = Some o' /\ inv o') as Herr
    by (apply error_inv; done).
  assert (exists o', fail1 (set_sender (Some None) (set_con (Some (Conn Ready Ready)) o)) = Some o' /\ inv o') as Hf1.
  { change (fail1 _) with
      (report_error (set_con None (set_sender None (set_con (Some (Conn Ready Ready)) o))) BSOCKSCLIENT_EVENT_ERROR).
    apply error_inv; try done. destruct Hr as [Hk Hr]. split; [done|]. cbn. by rewrite Hs. }
  destruct (decide (0 < num_auth_info o <= 255)) as [Hn|Hn].
  - destruct is_error, con_ok, ok; try (unfold connector_handler; rewrite Hs; exact Herr).
    + rewrite connector_handler_ok by done. eexists. split; [done|]. destruct Hr as [Hk _].
      assert (reports (out o) = []) as Hrep' by (rewrite Hrep; unfold up_reports; rewrite Hs; done).
      apply sent_inv; try done. split; [by apply sent_sending|]. cbn [out sent set_state emit set_sender set_buffer set_con].
      rewrite conv_emit, Hcv. done.
    + unfold connector_handler. rewrite Hs, init_control_io_fresh. cbn [bool_decide negb].
      change (num_auth_info (set_sender _ _)) with (num_auth_info o).
      rewrite hello_size by done. unfold reserve_buffer. cbn [is_overflow bsize_fromsize negb].
      by destruct (_ || _).
  - unfold connector_handler. rewrite Hs. destruct is_error; [exact Herr|]. destruct con_ok; [|exact Herr].
    rewrite init_control_io_fresh. cbn [bool_decide negb].
    change (num_auth_info (set_sender _ _)) with (num_auth_info o).
    assert ((num_auth_info o =? 0) || (255 <? num_auth_info o) = true) as ->; [|done].
    unfold num_auth_info in *. apply orb_true_iff. rewrite Z.eqb_eq, Z.ltb_lt. lia.
Qed.

Lemma live_resources o : inv o -> o.(d_err) = false -> o.(state) <> STATE_CONNECTING ->
  o.(connector) = true /\ exists c, o.(con) = Some c /\ io_on c.
Proof. intros (_ & [Hk Hr] & _) _ Hs. split; [done|]. destruct (state o); naive_solver. Qed.

Lemma step_connection o ev :
  inv o -> o.(d_err) = false -> is_Some o.(con) ->
  exists o', connection_handler o ev = Some o' /\ inv o'.
Proof.
  intros (Hc & Hr & Hu & Hp) Hd [c Hcon]. rewrite Hd in Hp. destruct Hp as [Hp Hrep].
  assert (forall e, e <> BSOCKSCLIENT_EVENT_UP -> (e = BSOCKSCLIENT_EVENT_ERROR_CLOSED -> o.(state) = STATE_UP) ->
    exists o', report_error o e = Some o' /\ inv o') as He by (intros; by apply error_inv).
  unfold connection_handler. destruct (state o) eqn:Hs, ev; cbn [bool_decide negb]; try (by apply He);
    destruct Hr as [_ Hr]; rewrite Hs in Hr; naive_solver.
Qed.

Lemma step_sent indet o ok :
  inv o -> o.(d_err) = false -> (exists p, o.(send_sender) = Some (Some p)) ->
  exists o', socks_step indet o (InSent ok) = Some o' /\ inv o'.
Proof.
  intros (Hc & [Hk _] & _ & Hp) Hd [p Hsn]. rewrite Hd in Hp. destruct Hp as [Hp Hrep].
  assert (sending o /\ (state o = STATE_SENDING_HELLO \/ state o = STATE_SENDING_PASSWORD \/ state o = STATE_SENDING_REQUEST))
    as [(a & b & n & Hb & Hcon & Hsn') Hs].
  { unfold progress, receiving in Hp. destruct (state o); naive_solver. }
  assert (reports (out o) = []) as Hrep'.
  { rewrite Hrep. unfold up_reports. rewrite bool_decide_eq_false_2; [done|].
    by destruct Hs as [->|[->| ->]]. }
  cbn [socks_step]. rewrite Hsn', Hb, Nat.eqb_refl. set (o1 := set_sender (Some None) o).
  destruct ok.
  2:{ rewrite (send_handler_done_noalloc indet o1 a b) by done.
      apply fail_inv; try done; try (cbn; by destruct Hs as [->|[->| ->]]). by exists (Conn Ready Ready). }
  assert (forall b' total st, 0 < total -> total <= Z.of_nat (length b') ->
    receiving (awaiting o1 b' total st) 0 total []) as Hrecv by (intros; by apply awaiting_receiving).
  assert (forall b' total st, conv (out (awaiting o1 b' total st)) = conv (out o)) as Hcv.
  { intros. cbn [out awaiting set_state emit set_con set_recv set_buffer o1 set_sender]. by rewrite conv_emit, app_nil_r. }
  unfold progress in Hp. destruct Hs as [Hs|[Hs|Hs]]; rewrite Hs in Hp.
  - rewrite (send_handler_done_ok indet o1 a b STATE_SENT_HELLO 2 2) by naive_solver.
    eexists. split; [done|]. apply awaiting_inv; try done. exists []. split; [apply Hrecv; [lia|by rewrite realloc_length]|].
    rewrite Hcv, app_nil_r. apply Hp.
  - destruct Hp as (ai & Hf & Hcr & _ & Hcv0).
    rewrite (send_handler_done_ok indet o1 a b STATE_SENT_PASSWORD 2 2) by naive_solver.
    eexists. split; [done|]. apply awaiting_inv; try done. exists ai, []. split; [done|]. split; [done|].
    split; [apply Hrecv; [lia|by rewrite realloc_length]|]. rewrite Hcv, app_nil_r. apply Hcv0.
  - destruct Hp as (ax & Hax & _ & Hcv0).
    rewrite (send_handler_done_ok indet o1 a b STATE_SENT_REQUEST 22 4) by naive_solver.
    eexists. split; [done|]. apply awaiting_inv; try done. exists ax, []. split; [done|].
    split; [apply Hrecv; [lia|rewrite realloc_length; lia]|].
    split; [do 2 eexists; split; [done|apply realloc_length]|].
    rewrite Hcv, app_nil_r. apply Hcv0.
Qed.

(** An object in the middle of the handshake. *)
Definition mid (o : BSocksClient) : Prop :=
  cfg_ok o /\ o.(connector) = true /\ (exists c, o.(con) = Some c /\ io_on c) /\
  o.(send_sender) = Some None /\ o.(d_err) = false /\ reports o.(out) = [] /\
  o.(state) <> STATE_CONNECTING /\ o.(state) <> STATE_UP.

Lemma mid_inv o : mid o -> progress o -> inv o.
Proof.
  intros (Hc & Hk & Hcon & Hsn & Hd & Hr & Hs1 & Hs2) Hp. split; [done|]. split.
  { split; [done|]. destruct (state o); try done; by rewrite Hsn. }
  split; [done|]. rewrite Hd. split; [done|]. unfold up_reports. by rewrite bool_decide_eq_false_2.
Qed.

Lemma mid_fail o : mid o -> exists o', fail o = Some o' /\ inv o'.
Proof. intros (Hc & Hk & Hcon & Hsn & Hd & Hr & Hs1 & Hs2). by apply fail_inv. Qed.

Lemma mid_sent o msg st :
  mid o -> o.(con) = Some (Conn Ready Ready) -> st <> STATE_CONNECTING -> st <> STATE_UP ->
  progress (sent o msg st) -> inv (sent o msg st).
Proof. intros (Hc & Hk & Hcon & Hsn & Hd & Hr & Hs1 & Hs2) ?. by apply sent_inv. Qed.

Lemma mid_stored o a b data :
  inv o -> o.(d_err) = false -> o.(state) <> STATE_CONNECTING -> o.(state) <> STATE_UP ->
  o.(send_sender) = Some None -> mid (stored o a b data).
Proof.
  intros (Hc & [Hk Hr] & _ & Hp) Hd Hs1 Hs2 Hsn. rewrite Hd in Hp. destruct Hp as [_ Hrep].
  split; [exact Hc|]. split; [exact Hk|]. split; [by exists (Conn Ready Ready)|]. split; [done|]. split; [done|].
  split; [|done]. cbn [stored out set_recv set_con emit set_buffer]. rewrite reports_emit, Hrep.
  unfold up_reports. by rewrite bool_decide_eq_false_2.
Qed.

Lemma conv_stored o a b data : conv (out (stored o a b data)) = conv (out o) ++ from_server data.
Proof. apply conv_emit. Qed.

Lemma auth_finished_inv indet o ax ok :
  mid o -> o.(con) = Some (Conn Ready Ready) -> auth_exchange o.(auth_info) ax ->
  conv o.(out) = hello_part o ++ ax -> exists o', auth_finished indet o ok = Some o' /\ inv o'.
Proof.
  intros Hm Hcon Hax Hcv. destruct Hm as (Hc & Hm). destruct ok.
  - rewrite auth_finished_ok by (done || apply Hm). eexists. split; [done|].
    apply mid_sent; try done. exists ax. split; [done|]. split; [by apply sent_sending|].
    cbn [out sent set_state emit set_sender set_buffer]. rewrite conv_emit, Hcv, <- app_assoc. done.
  - assert (auth_finished indet o false = fail o) as ->; [|by apply mid_fail].
    destruct Hc as (_ & _ & _ & Hty). unfold auth_finished, reserve_buffer.
    by destruct (dest_addr o); try (destruct Hty; done).
Qed.

Lemma recv_hello_inv indet o a b ok :
  mid o -> o.(con) = Some (Conn Ready Ready) -> o.(buffer) = Some (a, b) ->
  (exists got, length got = 2%nat /\ take 2 b = got /\ conv o.(out) = hello_part o ++ from_server got) ->
  exists o', recv_hello indet o ok = Some o' /\ inv o'.
Proof.
  intros Hm Hcon Hb ([|v [|m [|]]] & Hl & Ht & Hcv); try done.
  assert (b !! 0%nat = Some v /\ b !! 1%nat = Some m) as [H0 H1].
  { by destruct b as [|x [|y b]]; simplify_eq/=. }
  pose proof (mid_fail o Hm) as Hf. pose proof Hm as (_ & _ & _ & Hsn & _).
  destruct (decide (v = 5)) as [->|Hv].
  2:{ unfold recv_hello, read_buffer. rewrite Hb, H0, H1, !ntoh8_id. unfold SOCKS_VERSION.
      destruct (Z.eqb_spec v 5); [done|exact Hf]. }
  destruct (find_auth (auth_info o) m) as [ai|] eqn:Hai.
  2:{ unfold recv_hello, read_buffer. rewrite Hb, H0, H1, !ntoh8_id. by rewrite Hai. }
  destruct (decide (m = 0)) as [->|Hm0].
  { rewrite (recv_hello_none indet o a b ok ai) by done.
    apply (auth_finished_inv indet o (from_server [5; 0])); try done. by eapply auth_exchange_none. }
  destruct (decide (m = 2 /\ credentials_ok ai /\ ok = true)) as [(-> & Hcr & ->)|Hno].
  - rewrite (recv_hello_password indet o a b ai) by done. eexists. split; [done|].
    apply mid_sent; try done. exists ai. split; [done|]. split; [done|]. split; [by apply sent_sending|].
    cbn [out sent set_state emit set_sender set_buffer]. by rewrite conv_emit, Hcv, <- app_assoc.
  - assert (m = 2) as ->.
    { destruct Hm as ((_ & Hau & _) & _). rewrite forallb_forall in Hau.
      pose proof (find_auth_type _ _ _ Hai) as Hty. apply find_auth_in in Hai. apply Hau in Hai.
      unfold auth_type_ok, SOCKS_METHOD_NO_AUTHENTICATION_REQUIRED, SOCKS_METHOD_USERNAME_PASSWORD in Hai.
      apply orb_true_iff in Hai as [Hai|Hai]; apply Z.eqb_eq in Hai; congruence. }
    unfold recv_hello, read_buffer. rewrite Hb, H0, H1, !ntoh8_id, Hai, (find_auth_type _ _ _ Hai).
    cbv zeta. cbn [Z.eqb negb Pos.eqb ntoh8 SOCKS_VERSION SOCKS_METHOD_NO_AUTHENTICATION_REQUIRED SOCKS_METHOD_USERNAME_PASSWORD].
    destruct (_ || _) eqn:Hcr; [done|]. to_prop.
    destruct ok; [|done]. exfalso. apply Hno. split; [done|]. split; [|done]. split; lia.
Qed.

Lemma recv_password_inv indet o a b ai got ok :
  mid o -> o.(con) = Some (Conn Ready Ready) -> o.(buffer) = Some (a, b) ->
  find_auth o.(auth_info) 2 = Some ai -> credentials_ok ai -> length got = 2%nat -> take 2 b = got ->
  conv o.(out) = hello_part o ++ from_server [5; 2] ++ to_server (password_msg ai) ++ from_server got ->
  exists o', recv_password_reply indet o ok = Some o' /\ inv o'.
Proof.
  intros Hm Hcon Hb Hf Hcr Hl Ht Hcv. destruct got as [|v [|m [|]]]; try done.
  assert (b !! 0%nat = Some v /\ b !! 1%nat = Some m) as [H0 H1].
  { by destruct b as [|x [|y b]]; simplify_eq/=. }
  unfold recv_password_reply, read_buffer. rewrite Hb, H0, H1.
  destruct (Z.eqb_spec v 1) as [->|]; [cbn [negb]|by apply mid_fail].
  destruct (Z.eqb_spec m 0) as [->|]; [cbn [negb]|by apply mid_fail].
  eapply auth_finished_inv; try done. by apply auth_exchange_password.
Qed.

Lemma start_receive_rest o a b total :
  o.(buffer) = Some (a, b) -> o.(con) = Some (Conn Ready Ready) -> 0 < total ->
  start_receive o sizeof_reply_header total =
  Some (emit (ARecv total) (set_con (Some (Conn Busy Ready)) (set_recv (a, 4) 0 total o))).
Proof.
  intros Hb Hcon Ht. unfold start_receive, do_receive, Receiver_Recv. rewrite Hb.
  cbn [set_recv recv_len recv_total con]. rewrite Hcon, Z.sub_0_r, (proj2 (Z.ltb_lt 0 total)) by done. done.
Qed.

Lemma recv_reply_header_inv o a b ax got :
  mid o -> o.(con) = Some (Conn Ready Ready) -> o.(buffer) = Some (a, b) -> length b = 22%nat ->
  auth_exchange o.(auth_info) ax -> take 4 b = got ->
  conv o.(out) = hello_part o ++ ax ++ request_part o ++ from_server got ->
  exists o', recv_reply_header o = Some o' /\ inv o'.
Proof.
  intros Hm Hcon Hb Hl Hax Ht Hcv. destruct b as [|v [|rep [|rsv [|atyp b]]]]; try done. cbn in Ht.
  unfold recv_reply_header, read_buffer. rewrite Hb. cbn [lookup list_lookup]. rewrite !ntoh8_id.
  unfold SOCKS_VERSION, SOCKS_REP_SUCCEEDED, SOCKS_ATYP_IPV4, SOCKS_ATYP_IPV6.
  destruct (Z.eqb_spec v 5) as [->|]; [cbn [negb]|by apply mid_fail].
  destruct (Z.eqb_spec rep 0) as [->|]; [cbn [negb]|by apply mid_fail].
  assert (forall total, (atyp = 1 /\ total = 6 \/ atyp = 4 /\ total = 18) ->
    inv (set_state STATE_RECEIVED_REPLY_HEADER
      (emit (ARecv total) (set_con (Some (Conn Busy Ready)) (set_recv (a, 4) 0 total o))))) as Hgo.
  { intros total Hat. destruct Hm as (Hc & Hk & _ & Hsn & Hd & Hr & _ & _). apply mid_inv.
    - split; [exact Hc|]. split; [done|]. split; [by exists (Conn Busy Ready)|]. split; [done|]. split; [done|].
      split; [|done]. cbn [out set_state emit set_con set_recv]. by rewrite reports_emit, Hr.
    - exists ax, total, got, rsv, atyp, []. split; [done|]. split.
      { exists a, (5 :: 0 :: rsv :: atyp :: b). cbn. rewrite Hb. cbn in Hl. repeat split; try done; lia. }
      split; [by rewrite app_nil_r|]. split; [done|].
      cbn [out set_state emit set_con set_recv]. by rewrite conv_emit, app_nil_r. }
  destruct (Z.eqb_spec atyp 1) as [->|]; [|destruct (Z.eqb_spec atyp 4) as [->|]; [|by apply mid_fail]];
    rewrite (start_receive_rest o _ _ _ Hb Hcon) by done; eexists; (split; [done|]); apply Hgo; auto.
Qed.

Lemma recv_reply_rest_ok o :
  o.(con) = Some (Conn Ready Ready) -> o.(send_sender) = Some None ->
  recv_reply_rest o = Some (emit (AReport BSOCKSCLIENT_EVENT_UP) (set_state STATE_UP
    (set_con (Some (Conn Ready Ready)) (set_sender None (set_buffer None o.(allocs) o))))).
Proof. intros Hcon Hsn. destruct o. cbn in Hcon, Hsn. by subst. Qed.

Lemma recv_reply_rest_inv o ax r :
  mid o -> o.(con) = Some (Conn Ready Ready) -> auth_exchange o.(auth_info) ax -> reply_ok r ->
  conv o.(out) = hello_part o ++ ax ++ request_part o ++ from_server r ->
  exists o', recv_reply_rest o = Some o' /\ inv o'.
Proof.
  intros Hm Hcon Hax Hrep Hcv. destruct Hm as (Hc & Hk & _ & Hsn & Hd & Hr & _ & _).
  rewrite recv_reply_rest_ok by done. eexists. split; [done|].
  assert (handshake (auth_info o) (dest_addr o) (conv (out o ++ [AReport BSOCKSCLIENT_EVENT_UP]))) as Hh.
  { rewrite conv_emit, app_nil_r. by exists ax, r. }
  split; [exact Hc|]. split; [split; [done|]; split; [by exists (Conn Ready Ready)|done]|].
  split; [done|]. cbn [d_err emit set_state set_con set_sender set_buffer out]. rewrite Hd. split.
  - split; [by exists (Conn Ready Ready)|]. done.
  - rewrite reports_emit, Hr. done.
Qed.

(** A receive that is not complete goes on where it stopped. *)
Lemma more_inv o base total got data a b b' :
  inv o -> o.(d_err) = false -> receiving o base total got -> 0 <= base ->
  o.(buffer) = Some (a, b) -> length b' = length b ->
  take (Z.to_nat (base + o.(recv_len) + Z.of_nat (length data))) b' = got ++ data ->
  (0 < length data)%nat -> o.(recv_len) + Z.of_nat (length data) < total ->
  exists o', do_receive (stored o a b' data) = Some o' /\ o'.(state) = o.(state) /\ o'.(buffer) = Some (a, b') /\
    (o.(state) <> STATE_CONNECTING -> o.(state) <> STATE_UP -> mid o') /\
    o'.(auth_info) = o.(auth_info) /\ o'.(dest_addr) = o.(dest_addr) /\
    receiving o' base total (got ++ data) /\ conv o'.(out) = conv o.(out) ++ from_server data.
Proof.
  intros Hi Hd (a0 & b0 & Hb0 & Hc & Hs & Hde & Ht & Hl & Hbl & Hg) Hbase Hb Hlb Htk Hdat Hlt.
  rewrite Hb0 in Hb. injection Hb as -> ->.
  exists (emit (ARecv (total - (recv_len o + Z.of_nat (length data))))
            (set_con (Some (Conn Busy Ready)) (stored o a b' data))).
  split; [|split; [done|split; [done|split; [|split; [done|split; [done|split]]]]]].
  - unfold do_receive, Receiver_Recv. cbn [stored set_recv recv_len recv_total con set_con con_recv con_send].
    rewrite Ht, (proj2 (Z.ltb_lt _ total)), (proj2 (Z.ltb_lt 0 _)) by lia. done.
  - intros Hs1 Hs2. destruct (mid_stored o a b' data Hi Hd Hs1 Hs2 Hs) as (Mc & Mk & _ & Ms & Md & Mr & M1 & M2).
    split; [exact Mc|]. split; [exact Mk|]. split; [by exists (Conn Busy Ready)|]. split; [exact Ms|].
    split; [exact Md|]. split; [|done]. cbn [out emit set_con]. by rewrite reports_emit, Mr.
  - exists a, b'. cbn. rewrite <- Htk, Hlb. repeat split; try done; try lia. f_equal. lia.
  - cbn [out emit set_con]. by rewrite conv_emit, app_nil_r, conv_stored.
Qed.

Lemma receiving_full o base total got data b' :
  receiving o base total got -> 0 <= base -> o.(recv_len) + Z.of_nat (length data) = total ->
  take (Z.to_nat (base + o.(recv_len) + Z.of_nat (length data))) b' = got ++ data ->
  take (Z.to_nat (base + total)) b' = got ++ data /\ length (got ++ data) = Z.to_nat (base + total).
Proof.
  intros (a & b & _ & _ & _ & _ & _ & Hl & Hbl & ->) Hb He Ht.
  split; [rewrite <- Ht; f_equal; lia|]. rewrite length_app, length_take. lia.
Qed.

(** The handler of a completely received message. *)
Definition handle_message (indet : nat -> nat -> Z) (o : BSocksClient) (ok : bool) : option BSocksClient :=
  match o.(state) with
  | STATE_SENT_HELLO => recv_hello indet o ok
  | STATE_SENT_REQUEST => recv_reply_header o
  | STATE_SENT_PASSWORD => recv_password_reply indet o ok
  | STATE_RECEIVED_REPLY_HEADER => recv_reply_rest o
  | _ => None
  end.

(** [o'] is [o] with [data] more received of the message at [base]. *)
Record advanced (o o' : BSocksClient) (base : Z) (got data : bytes) : Prop := {
  adv_mid : mid o';
  adv_state : o'.(state) = o.(state);
  adv_auth : o'.(auth_info) = o.(auth_info);
  adv_dest : o'.(dest_addr) = o.(dest_addr);
  adv_conv : conv o'.(out) = conv o.(out) ++ from_server data;
  adv_len : length (old_bytes o') = length (old_bytes o);
}.

Lemma recv_cases indet o base total got data ok :
  inv o -> o.(d_err) = false -> receiving o base total got -> 0 <= base ->
  o.(state) <> STATE_CONNECTING -> o.(state) <> STATE_UP ->
  (0 < length data)%nat -> Z.of_nat (length data) <= total - o.(recv_len) ->
  exists o', advanced o o' base got data /\
    ((socks_step indet o (InRecv data ok) = Some o' /\ receiving o' base total (got ++ data) /\
      o'.(recv_len) = o.(recv_len) + Z.of_nat (length data) /\ o'.(recv_len) < total) \/
     (socks_step indet o (InRecv data ok) = handle_message indet o' ok /\ o'.(con) = Some (Conn Ready Ready) /\
      o.(recv_len) + Z.of_nat (length data) = total /\
      length (got ++ data) = Z.to_nat (base + total) /\
      exists a b', o'.(buffer) = Some (a, b') /\ take (Z.to_nat (base + total)) b' = got ++ data)).
Proof.
  intros Hi Hd Hr Hbase Hs1 Hs2 Hlen Hle.
  assert (o.(send_sender) = Some None) as Hsn by (destruct Hr as (? & ? & ? & ? & ? & _); done).
  destruct (step_recv indet o base total got data ok Hr Hbase Hlen Hle) as (a & b & Hb & b' & Hlb & Htk & ->).
  destruct (Z.ltb_spec (recv_len o + Z.of_nat (length data)) total) as [Hlt|Hge].
  - destruct (more_inv o base total got data a b b' Hi Hd Hr Hbase Hb Hlb Htk Hlen Hlt)
      as (o' & E & Hst & Hbuf & Hmid & Hau & Hde & Hrv & Hcv).
    exists o'. split.
    + split; try done; [by apply Hmid|]. unfold old_bytes. by rewrite Hbuf, Hb.
    + left. split; [done|]. split; [done|].
      unfold do_receive, Receiver_Recv in E. run_inv. subst o'. done.
  - exists (stored o a b' data). split.
    + split; try done; [by apply mid_stored|apply conv_stored|]. unfold old_bytes. by rewrite Hb.
    + right. split; [done|]. split; [done|]. assert (recv_len o + Z.of_nat (length data) = total) as He by lia.
      split; [done|]. destruct (receiving_full _ _ _ _ _ _ Hr Hbase He Htk) as [Ht' Hl'].
      split; [done|]. by exists a, b'.
Qed.

Lemma step_recv_inv indet o data ok c :
  inv o -> o.(d_err) = false -> o.(con) = Some c -> c.(con_recv) = Busy -> o.(state) <> STATE_UP ->
  (0 < length data)%nat -> Z.of_nat (length data) <= o.(recv_total) - o.(recv_len) ->
  exists o', socks_step indet o (InRecv data ok) = Some o' /\ inv o'.
Proof.
  intros Hi Hd Hcon Hbusy Hup Hlen Hle. pose proof Hi as (_ & _ & _ & Hp). rewrite Hd in Hp. destruct Hp as [Hp _].
  unfold progress, sending in Hp. destruct (state o) eqn:Hs; try done;
    try (destruct Hp as (? & ?); congruence);
    try (decompose [ex and] Hp; simplify_eq; simpl in *; congruence).
  - destruct Hp as (got & Hr & Hcv). pose proof Hr as (? & ? & _ & _ & _ & _ & Ht & _). rewrite Ht in Hle.
    destruct (recv_cases indet o 0 2 got data ok) as (o' & [Hm Hst Hau Hde Hcv' _] & Hcase); try done; try congruence.
    assert (conv (out o') = hello_part o' ++ from_server (got ++ data)) as Hcv2.
    { rewrite Hcv', Hcv, from_server_app, app_assoc. unfold hello_part. by rewrite Hau. }
    destruct Hcase as [(-> & Hr' & _)|(-> & Hc' & _ & Hl & a & b & Hb & Htk)].
    + eexists. split; [done|]. apply mid_inv; [done|]. unfold progress. rewrite Hst, Hs. eauto.
    + unfold handle_message. rewrite Hst, Hs. eapply recv_hello_inv; eauto.
  - destruct Hp as (ai & got & Hf & Hcr & Hr & Hcv). pose proof Hr as (? & ? & _ & _ & _ & _ & Ht & _). rewrite Ht in Hle.
    destruct (recv_cases indet o 0 2 got data ok) as (o' & [Hm Hst Hau Hde Hcv' _] & Hcase); try done; try congruence.
    assert (conv (out o') = hello_part o' ++ from_server [5; 2] ++ to_server (password_msg ai) ++ from_server (got ++ data))
      as Hcv2.
    { rewrite Hcv', Hcv, from_server_app, <- !app_assoc. unfold hello_part. by rewrite Hau. }
    rewrite <- Hau in Hf. destruct Hcase as [(-> & Hr' & _)|(-> & Hc' & _ & Hl & a & b & Hb & Htk)].
    + eexists. split; [done|]. apply mid_inv; [done|]. unfold progress. rewrite Hst, Hs. eauto 10.
    + unfold handle_message. rewrite Hst, Hs. eapply recv_password_inv; eauto.
  - destruct Hp as (ax & got & Hax & Hr & (a0 & b0 & Hb0 & Hl0) & Hcv).
    pose proof Hr as (? & ? & _ & _ & _ & _ & Ht & _). rewrite Ht in Hle.
    destruct (recv_cases indet o 0 4 got data ok) as (o' & [Hm Hst Hau Hde Hcv' Hlen'] & Hcase); try done; try congruence.
    assert (conv (out o') = hello_part o' ++ ax ++ request_part o' ++ from_server (got ++ data)) as Hcv2.
    { rewrite Hcv', Hcv, from_server_app, <- !app_assoc. unfold hello_part, request_part. by rewrite Hau, Hde. }
    rewrite <- Hau in Hax. unfold old_bytes in Hlen'. rewrite Hb0 in Hlen'.
    destruct Hcase as [(-> & Hr' & _)|(-> & Hc' & _ & Hl & a & b & Hb & Htk)].
    + eexists. split; [done|]. apply mid_inv; [done|]. unfold progress. rewrite Hst, Hs.
      exists ax, (got ++ data). pose proof Hr' as (a1 & b1 & Hb1 & _). rewrite Hb1 in *.
      repeat split; try done. exists a1, b1. split; [done|lia].
    + unfold handle_message. rewrite Hst, Hs. rewrite Hb in Hlen'.
      eapply recv_reply_header_inv; eauto. lia.
  - destruct Hp as (ax & total & got & rsv & atyp & addr & Hax & Hr & Hg & Hat & Hcv).
    pose proof Hr as (? & ? & _ & _ & _ & _ & Ht & _). rewrite Ht in Hle.
    destruct (recv_cases indet o 4 total got data ok) as (o' & [Hm Hst Hau Hde Hcv' _] & Hcase); try done; try congruence.
    assert (conv (out o') = hello_part o' ++ ax ++ request_part o' ++ from_server (got ++ data)) as Hcv2.
    { rewrite Hcv', Hcv, from_server_app, <- !app_assoc. unfold hello_part, request_part. by rewrite Hau, Hde. }
    rewrite <- Hau in Hax. destruct Hcase as [(-> & Hr' & _)|(-> & Hc' & _ & Hl & a & b & Hb & Htk)].
    + eexists. split; [done|]. apply mid_inv; [done|]. unfold progress. rewrite Hst, Hs.
      exists ax, total, (got ++ data), rsv, atyp, (addr ++ data). repeat split; try done. by rewrite Hg, <- app_assoc.
    + unfold handle_message. rewrite Hst, Hs. eapply recv_reply_rest_inv; eauto.
      exists rsv, atyp, (addr ++ data). split; [by rewrite Hg, <- app_assoc|].
      rewrite Hg, <- app_assoc in Hl. rewrite !length_app in Hl. rewrite length_app. simpl in Hl. lia.
Qed.

(** The step lemma. *)
Lemma step_inv indet o i :
  inv o -> socks_enabled o i = true -> exists o', socks_step indet o i = Some o' /\ inv o'.
Proof.
  intros Hi He. unfold socks_enabled in He. apply andb_true_iff in He as [Hd He]. apply negb_true_iff in Hd.
  destruct i as [e c a|ev|data ok|ok].
  - apply step_connector; [done|done|]. by apply bool_decide_eq_true in He.
  - apply step_connection; [done|done|]. by destruct (con o).
  - destruct (con o) as [c|] eqn:Hc; [|done]. to_prop. apply bool_decide_eq_true in H.
    apply bool_decide_eq_false in H2. eapply step_recv_inv; eauto; lia.
  - apply step_sent; [done|done|]. destruct (send_sender o) as [[p|]|]; try done. by exists p.
Qed.

Lemma run_inv_ind indet ins : forall o, inv o ->
  exists r, socks_run indet o ins = Some r /\ forall o', r = Some o' -> inv o'.
Proof.
  induction ins as [|i ins IH]; intros o Hi; cbn [socks_run].
  - exists (Some o). split; [done|]. by intros o' [= <-].
  - destruct (socks_enabled o i) eqn:He; [|by exists None].
    destruct (step_inv indet o i Hi He) as (o1 & -> & Hi1). by apply IH.
Qed.

End Invariant.

Lemma init_inv server auths dest k o :
  BAddr_wf dest -> BSocksClient_Init server auths dest k = Some (Some o) -> @inv (auths, dest) o.
Proof.
  intros Hwf H. unfold BSocksClient_Init in H.
  destruct (negb _); [|done]. destruct (_ || _) eqn:Hty; [|done]. destruct (forallb _ _) eqn:Hau; [|done].
  destruct k; [|done]. cbn in H. injection H as <-. apply orb_true_iff in Hty. rewrite !Z.eqb_eq in Hty.
  split; [done|]. split; [done|]. split; [done|]. done.
Qed.

(** Nothing is held any more. *)
Definition released (o : BSocksClient) : Prop :=
  o.(connector) = false /\ o.(con) = None /\ o.(send_sender) = None /\ o.(buffer) = None.

Lemma free_up_io_ok o c :
  o.(con) = Some c -> io_on c -> free_up_io o = Some (set_con (Some (Conn NotInited NotInited)) o).
Proof.
  intros Hc [H1 H2]. unfold free_up_io, BConnection_SendAsync_Free, BConnection_RecvAsync_Free. rewrite Hc.
  rewrite (bool_decide_eq_false_2 _ H2). cbn. by rewrite (bool_decide_eq_false_2 _ H1).
Qed.

Lemma free_control_io_ok o c :
  o.(con) = Some c -> io_on c -> is_Some o.(send_sender) ->
  free_control_io o = Some (set_con (Some (Conn NotInited NotInited)) (set_sender None o)).
Proof.
  intros Hc Hon [s Hs]. unfold free_control_io. rewrite Hs.
  exact (free_up_io_ok (set_sender None o) c Hc Hon).
Qed.

Lemma free_released cfg o : @inv cfg o -> exists f, BSocksClient_Free o = Some f /\ released f.
Proof.
  intros (_ & [Hk Hr] & _). unfold BSocksClient_Free, released.
  assert (exists o1, (if negb (bool_decide (o.(state) = STATE_CONNECTING)) then
       LET o <- (if bool_decide (o.(state) = STATE_UP) then free_up_io o else free_control_io o) in
       BConnection_Free o else Some o) = Some o1 /\
    o1.(connector) = true /\ o1.(con) = None /\ o1.(send_sender) = None) as (o1 & -> & Hk1 & Hc1 & Hs1).
  { destruct (state o) eqn:Hs; cbn [bool_decide negb]; destruct Hr as [Hr1 Hr2];
      try (destruct Hr1 as (c & Hc & Hon)).
    1: by exists o.
    all: rewrite ?(bool_decide_eq_false_2 (_ = STATE_CONNECTING)) by done; cbn [negb].
    all: try rewrite (bool_decide_eq_false_2 (_ = STATE_UP)) by done;
      rewrite ?(bool_decide_eq_true_2 (STATE_UP = STATE_UP)) by done.
    all: rewrite ?(free_control_io_ok o c), ?(free_up_io_ok o c) by done; eauto 10. }
  unfold BConnector_Free. rewrite Hk1. cbn. destruct (buffer o1) eqn:Hb; eauto 10.
Qed.

Lemma inv_legal cfg o : @inv cfg o -> legal_reports (reports o.(out)).
Proof.
  intros (_ & _ & _ & H). unfold legal_reports, up_reports in *.
  destruct (bool_decide_reflect (state o = STATE_UP)) as [Hs|Hs], (d_err o).
  - destruct H as (e & -> & He & _). destruct e; naive_solver.
  - destruct H as [_ ->]. naive_solver.
  - destruct H as (e & -> & He & Hcl). destruct e; naive_solver.
  - destruct H as [_ ->]. naive_solver.
Qed.

(** ** A server that answers

    The bytes of a message arrive in any non-empty pieces. *)
Definition chunks_of (msg : bytes) (cs : list bytes) : Prop := concat cs = msg /\ Forall (fun c => c <> []) cs.
Definition deliver (cs : list bytes) : list socks_input := map (fun c => InRecv c true) cs.

Lemma enabled_recv o base total got data :
  receiving o base total got -> o.(d_err) = false -> o.(state) <> STATE_UP -> data <> [] ->
  Z.of_nat (length data) <= total - o.(recv_len) -> socks_enabled o (InRecv data true) = true.
Proof.
  intros (a & b & _ & Hc & _ & _ & Ht & _) Hd Hs Hn Hl. unfold socks_enabled. rewrite Hd, Hc, Ht.
  rewrite (bool_decide_eq_false_2 (state o = STATE_UP)) by done.
  rewrite (proj2 (Z.leb_le _ _)) by done. destruct data; [done|]. done.
Qed.

Lemma run_chunks cfg indet base total k cs : forall o got,
  @inv cfg o -> o.(d_err) = false -> receiving o base total got -> 0 <= base ->
  o.(state) <> STATE_CONNECTING -> o.(state) <> STATE_UP ->
  Forall (fun c => c <> []) cs -> Z.of_nat (length (concat cs)) = total - o.(recv_len) ->
  exists o', @advanced cfg o o' base got (concat cs) /\ o'.(con) = Some (Conn Ready Ready) /\
    (exists a b, o'.(buffer) = Some (a, b) /\ take (Z.to_nat (base + total)) b = got ++ concat cs) /\
    exists o2, handle_message indet o' true = Some o2 /\ @inv cfg o2 /\
      socks_run indet o (deliver cs ++ k) = socks_run indet o2 k.
Proof.
  induction cs as [|c cs IH]; intros o got Hi Hd Hr Hb Hs1 Hs2 Hcs Hl.
  { exfalso. destruct Hr as (? & ? & _ & _ & _ & _ & _ & Hlen & _). simpl in Hl. lia. }
  inversion_clear Hcs as [|? ? Hc Hcs']. cbn [concat] in *. rewrite length_app in Hl.
  assert (0 < length c)%nat as Hc0 by (destruct c; [done|simpl; lia]).
  cbn [deliver map app socks_run]. rewrite (enabled_recv o base total got c) by (done || lia).
  destruct (recv_cases indet o base total got c true Hi) as (o1 & Ha & Hcase); try done; [lia|].
  assert (exists o2, socks_step indet o (InRecv c true) = Some o2 /\ @inv cfg o2) as (o1' & E' & Hi1').
  { destruct Hr as (a & b & _ & Hcon & _ & _ & Ht & _). eapply step_recv_inv; eauto. lia. }
  destruct Hcase as [(E & Hr1 & Hl1 & Hlt)|(E & Hc1 & He & _ & Hbuf)].
  - destruct Ha as [Hm Hst Hau Hde Hcv Hlen]. assert (@inv cfg o1) as Hi1 by congruence.
    rewrite E. destruct (IH o1 (got ++ c)) as (o2 & [Hm2 Hst2 Hau2 Hde2 Hcv2 Hlen2] & Hc2 & (a & b & Hb2 & Ht2) & Hrun);
      try done; try congruence; [apply Hm|lia|].
    exists o2. split; [|split; [done|split; [|done]]].
    + split; try congruence. rewrite Hcv2, Hcv, from_server_app. by rewrite app_assoc.
    + exists a, b. split; [done|]. by rewrite Ht2, app_assoc.
  - rewrite E'. destruct cs as [|c2 cs].
    + exists o1. cbn [concat]. rewrite app_nil_r. split; [done|]. split; [done|]. split; [done|].
      exists o1'. split; [congruence|done].
    + exfalso. inversion_clear Hcs' as [|? ? Hc2 ?]. destruct c2; [done|]. simpl in Hl. lia.
Qed.

(** What the server and the reactor do for the authentication part. *)
Inductive auth_script (auths : list BSocksClient_auth_info) : list socks_input -> list (bool * Z) -> Prop :=
  | auth_script_none ai cs :
      find_auth auths 0 = Some ai -> chunks_of [5; 0] cs ->
      auth_script auths (deliver cs) (from_server [5; 0])
  | auth_script_password ai cs1 cs2 :
      find_auth auths 2 = Some ai -> credentials_ok ai -> chunks_of [5; 2] cs1 -> chunks_of [1; 0] cs2 ->
      auth_script auths (deliver cs1 ++ InSent true :: deliver cs2)
        (from_server [5; 2] ++ to_server (password_msg ai) ++ from_server [1; 0]).


Lemma run_sent cfg indet o k st n total :
  @inv cfg o -> o.(d_err) = false ->
  (o.(state) = STATE_SENDING_HELLO /\ st = STATE_SENT_HELLO /\ n = 2%nat /\ total = 2 \/
   o.(state) = STATE_SENDING_PASSWORD /\ st = STATE_SENT_PASSWORD /\ n = 2%nat /\ total = 2 \/
   o.(state) = STATE_SENDING_REQUEST /\ st = STATE_SENT_REQUEST /\ n = 22%nat /\ total = 4) ->
  exists o', socks_run indet o (InSent true :: k) = socks_run indet o' k /\ @inv cfg o' /\
    o'.(d_err) = false /\ o'.(state) = st /\ o'.(auth_info) = o.(auth_info) /\ o'.(dest_addr) = o.(dest_addr) /\
    receiving o' 0 total [] /\ o'.(recv_len) = 0 /\ conv o'.(out) = conv o.(out).
Proof.
  intros Hi Hd Hst. pose proof Hi as (_ & _ & _ & Hp). rewrite Hd in Hp. destruct Hp as [Hp _].
  assert (sending o) as (a & b & m & Hb & Hcon & Hsn) by
    (unfold progress in Hp; destruct Hst as [(E & _)|[(E & _)|(E & _)]]; rewrite E in Hp; naive_solver).
  assert (socks_enabled o (InSent true) = true) as He by (unfold socks_enabled; by rewrite Hd, Hsn).
  destruct (step_inv indet o _ Hi He) as (o' & E & Hi'). exists o'. cbn [socks_run]. rewrite He, E.
  split; [done|]. split; [done|]. cbn [socks_step] in E. rewrite Hsn, Hb, Nat.eqb_refl in E.
  rewrite (send_handler_done_ok indet (set_sender (Some None) o) a b st n total Hb Hcon Hst) in E.
  injection E as <-. split; [done|]. split; [done|]. split; [done|]. split; [done|].
  split; [apply awaiting_receiving; [done|lia|rewrite realloc_length; lia]|]. split; [done|].
  cbn [out awaiting set_state emit set_con set_recv set_buffer set_sender]. by rewrite conv_emit, app_nil_r.
Qed.

(** A message of the server is handled as a whole. *)
Lemma run_message cfg indet o base total msg k cs :
  @inv cfg o -> o.(d_err) = false -> receiving o base total (take (Z.to_nat base) (old_bytes o)) -> 0 <= base -> o.(recv_len) = 0 ->
  o.(state) <> STATE_CONNECTING -> o.(state) <> STATE_UP ->
  chunks_of msg cs -> Z.of_nat (length msg) = total ->
  exists o' a b, mid (cfg := cfg) o' /\ o'.(state) = o.(state) /\ o'.(auth_info) = o.(auth_info) /\
    o'.(dest_addr) = o.(dest_addr) /\ conv o'.(out) = conv o.(out) ++ from_server msg /\
    o'.(con) = Some (Conn Ready Ready) /\ o'.(send_sender) = Some None /\ o'.(buffer) = Some (a, b) /\
    length b = length (old_bytes o) /\
    take (Z.to_nat (base + total)) b = take (Z.to_nat base) (old_bytes o) ++ msg /\
    exists o2, handle_message indet o' true = Some o2 /\ @inv cfg o2 /\
      socks_run indet o (deliver cs ++ k) = socks_run indet o2 k.
Proof.
  intros Hi Hd Hr Hb Hl0 Hs1 Hs2 [<- Hcs] Hl.
  destruct (run_chunks cfg indet base total k cs o _ Hi Hd Hr Hb Hs1 Hs2 Hcs ltac:(lia))
    as (o' & [Hm Hst Hau Hde Hcv Hlen] & Hc & (a & b & Hbuf & Ht) & E).
  exists o', a, b. unfold old_bytes in Hlen at 1. rewrite Hbuf in Hlen.
  repeat split; try done; apply Hm.
Qed.

(** After the CONNECT request: the reply brings the object up. *)
Lemma run_request cfg indet o rsv atyp addr cs1 cs2 :
  @inv cfg o -> o.(d_err) = false -> o.(state) = STATE_SENDING_REQUEST ->
  (atyp = 1 /\ length addr = 6%nat) \/ (atyp = 4 /\ length addr = 18%nat) ->
  chunks_of [5; 0; rsv; atyp] cs1 -> chunks_of addr cs2 ->
  exists o', socks_run indet o (InSent true :: deliver cs1 ++ deliver cs2) = Some (Some o') /\
    o'.(state) = STATE_UP /\ o'.(d_err) = false /\
    conv o'.(out) = conv o.(out) ++ from_server ([5; 0; rsv; atyp] ++ addr).
Proof.
  intros Hi Hd Hs Hat Hc1 Hc2.
  destruct (run_sent cfg indet o (deliver cs1 ++ deliver cs2) STATE_SENT_REQUEST 22 4 Hi Hd)
    as (o1 & -> & Hi1 & Hd1 & Hs1 & Hau1 & Hde1 & Hr1 & Hl1 & Hcv1); [naive_solver|].
  assert (length (old_bytes o1) = 22%nat) as Hlen.
  { pose proof Hi1 as (_ & _ & _ & Hp). rewrite Hd1 in Hp. destruct Hp as [Hp _]. unfold progress in Hp. rewrite Hs1 in Hp.
    destruct Hp as (_ & _ & _ & _ & (a & b & Hb & Hlb) & _). unfold old_bytes. by rewrite Hb. }
  destruct (run_message cfg indet o1 0 4 [5; 0; rsv; atyp] (deliver cs2) cs1)
    as (o2 & a & b & Hm2 & Hs2 & Hau2 & Hde2 & Hcv2 & Hcon2 & Hsn2 & Hb2 & Hlb & Ht2 & o3 & E3 & Hi3 & ->);
    try done; try congruence.
  rewrite Hlen in Hlb. destruct b as [|v [|rep [|rs [|at' b]]]]; try done. cbn in Ht2. injection Ht2 as -> -> -> ->.
  assert (o3 = set_state STATE_RECEIVED_REPLY_HEADER (emit (ARecv (Z.of_nat (length addr)))
     (set_con (Some (Conn Busy Ready)) (set_recv (a, 4) 0 (Z.of_nat (length addr)) o2)))) as ->.
  { unfold handle_message in E3. rewrite Hs2, Hs1 in E3. unfold recv_reply_header, read_buffer in E3. rewrite Hb2 in E3.
    cbn [lookup list_lookup] in E3. rewrite !ntoh8_id in E3.
    destruct Hat as [[-> Hal]|[-> Hal]]; cbn -[start_receive] in E3;
      rewrite (start_receive_rest o2 _ _ _ Hb2 Hcon2) in E3 by done; injection E3 as <-; rewrite Hal; done. }
  set (o3 := set_state _ _) in *.
  assert (d_err o3 = false /\ old_bytes o3 = 5 :: 0 :: rsv :: atyp :: b) as [Hd3 Hob3].
  { split; [apply Hm2|]. unfold old_bytes. cbn. by rewrite Hb2. }
  destruct (run_message cfg indet o3 4 (Z.of_nat (length addr)) addr [] cs2)
    as (o4 & a4 & b4 & Hm4 & Hs4 & Hau4 & Hde4 & Hcv4 & Hcon4 & Hsn4 & Hb4 & _ & _ & o5 & E5 & Hi5 & Hrun); try done.
  { rewrite Hob3. exists a, (5 :: 0 :: rsv :: atyp :: b). cbn. rewrite Hb2. cbn in Hlb.
    repeat split; try done; lia. }
  rewrite app_nil_r in Hrun. rewrite Hrun. exists o5. split; [done|].
  unfold handle_message in E5. rewrite Hs4 in E5. cbn in E5. rewrite recv_reply_rest_ok in E5 by done. injection E5 as <-.
  split; [done|]. split; [apply Hm4|]. cbn [out emit set_state set_con set_sender set_buffer].
  rewrite conv_emit, app_nil_r, Hcv4. cbn [out o3 emit set_state set_con set_recv].
  rewrite conv_emit, app_nil_r, Hcv2, Hcv1, from_server_app, <- app_assoc. done.
Qed.

Lemma run_auth cfg indet o sc ax k :
  @inv cfg o -> o.(d_err) = false -> o.(state) = STATE_SENDING_HELLO -> auth_script o.(auth_info) sc ax ->
  exists o', socks_run indet o (InSent true :: sc ++ k) = socks_run indet o' k /\ @inv cfg o' /\
    o'.(d_err) = false /\ o'.(state) = STATE_SENDING_REQUEST /\ o'.(dest_addr) = o.(dest_addr) /\
    conv o'.(out) = conv o.(out) ++ ax ++ request_part o.
Proof.
  intros Hi Hd Hs Hsc.
  destruct (run_sent cfg indet o (sc ++ k) STATE_SENT_HELLO 2 2 Hi Hd)
    as (o1 & -> & Hi1 & Hd1 & Hs1 & Hau1 & Hde1 & Hr1 & Hl1 & Hcv1); [naive_solver|].
  destruct Hsc as [ai cs Hf Hc|ai cs1 cs2 Hf Hcr Hc1 Hc2].
  - destruct (run_message cfg indet o1 0 2 [5; 0] k cs)
      as (o2 & a & b & Hm2 & Hs2 & Hau2 & Hde2 & Hcv2 & Hcon2 & Hsn2 & Hb2 & _ & Ht2 & o3 & E3 & Hi3 & ->);
      try done; try congruence.
    unfold handle_message in E3. rewrite Hs2, Hs1 in E3.
    rewrite (recv_hello_none indet o2 a b true ai Hb2) in E3;
      [|by destruct b as [|? [|]]; simplify_eq/=|by destruct b as [|? [|]]; simplify_eq/=|by rewrite Hau2, Hau1].
    rewrite auth_finished_ok in E3 by (done || apply Hm2). injection E3 as <-.
    eexists. split; [done|]. split; [done|]. split; [apply Hm2|]. split; [done|]. split; [cbn; congruence|].
    cbn [out sent set_state emit set_sender set_buffer]. unfold request_part.
    rewrite conv_emit, Hcv2, Hcv1, <- !app_assoc. cbn [act_conv]. by rewrite Hde2, Hde1.
  - rewrite <- app_assoc. destruct (run_message cfg indet o1 0 2 [5; 2] ((InSent true :: deliver cs2) ++ k) cs1)
      as (o2 & a & b & Hm2 & Hs2 & Hau2 & Hde2 & Hcv2 & Hcon2 & Hsn2 & Hb2 & _ & Ht2 & o3 & E3 & Hi3 & ->);
      try done; try congruence.
    unfold handle_message in E3. rewrite Hs2, Hs1 in E3.
    rewrite (recv_hello_password indet o2 a b ai Hb2) in E3;
      [|by destruct b as [|? [|]]; simplify_eq/=|by destruct b as [|? [|]]; simplify_eq/=|done|by rewrite Hau2, Hau1|done].
    injection E3 as <-.
    destruct (run_sent cfg indet (sent o2 (password_msg ai) STATE_SENDING_PASSWORD) (deliver cs2 ++ k) STATE_SENT_PASSWORD 2 2 Hi3)
      as (o4 & E4 & Hi4 & Hd4 & Hs4 & Hau4 & Hde4 & Hr4 & Hl4 & Hcv4); [apply Hm2|naive_solver|].
    cbn [app]. rewrite E4.
    destruct (run_message cfg indet o4 0 2 [1; 0] k cs2)
      as (o5 & a5 & b5 & Hm5 & Hs5 & Hau5 & Hde5 & Hcv5 & Hcon5 & Hsn5 & Hb5 & _ & Ht5 & o6 & E6 & Hi6 & ->);
      try done; try congruence.
    unfold handle_message in E6. rewrite Hs5, Hs4 in E6. unfold recv_password_reply, read_buffer in E6. rewrite Hb5 in E6.
    destruct b5 as [|x [|y b5]]; simplify_eq/=. rewrite auth_finished_ok in E6 by (done || apply Hm5). injection E6 as <-.
    eexists. split; [done|]. split; [done|]. split; [apply Hm5|]. split; [done|].
    split; [cbn; rewrite Hde5, Hde4; cbn; congruence|].
    cbn [out sent set_state emit set_sender set_buffer]. unfold request_part.
    rewrite conv_emit, Hcv5, Hcv4. cbn [out sent set_state emit set_sender set_buffer].
    rewrite conv_emit, Hcv2, Hcv1. cbn [act_conv]. rewrite Hde5, Hde4. cbn. rewrite Hde2, Hde1.
    by rewrite <- !app_assoc.
Qed.

End SocksClient.
Import SocksClient.

(** C3: whatever the server, the network and the allocator do, the SOCKS
    client neither fails an assertion nor touches memory outside its live
    buffer: every sequence of events the reactor can deliver to an initialised
    client runs to its end; the reports it makes to its user are one of the
    legal sequences (up at most once, an error last, "closed" only after
    "up"); and at any point [BSocksClient_Free] runs and releases the
    connector, the connection, both I/O interfaces and the buffer. *)
Theorem socks_safe indet server auths dest k o ins :
  BAddr_wf dest -> BSocksClient_Init server auths dest k = Some (Some o) ->
  exists r, socks_run indet o ins = Some r /\
    forall o', r = Some o' -> legal_reports (reports o'.(out)) /\
      exists f, BSocksClient_Free o' = Some f /\ released f.
Proof.
  intros Hwf Hinit. destruct (run_inv_ind indet ins o (init_inv _ _ _ _ _ Hwf Hinit)) as (r & E & Hr).
  exists r. split; [done|]. intros o' Ho. specialize (Hr o' Ho).
  split; [by eapply inv_legal|by eapply free_released].
Qed.

(** C1: a client that reports UP has had a complete, successful SOCKS5
    conversation: the bytes exchanged are exactly the hello offering the
    configured methods, the server's choice of an offered method (with the
    username/password exchange of RFC 1929 when that is the method), the
    CONNECT request for the configured destination, and a success reply with
    an IPv4 or IPv6 bound address; nothing else was sent or consumed. *)
Theorem socks_up_sound indet server auths dest k o ins o' :
  BAddr_wf dest -> BSocksClient_Init server auths dest k = Some (Some o) ->
  socks_run indet o ins = Some (Some o') -> BSOCKSCLIENT_EVENT_UP ∈ reports o'.(out) ->
  handshake auths dest (conv o'.(out)).
Proof.
  intros Hwf Hinit Hrun Hup. destruct (run_inv_ind indet ins o (init_inv _ _ _ _ _ Hwf Hinit)) as (r & E & Hr).
  rewrite Hrun in E. injection E as <-. destruct (Hr o' eq_refl) as ((Hcfg & _) & _ & Hh & Hrep).
  injection Hcfg as <- <-. apply Hh. unfold up_reports in Hrep.
  destruct (bool_decide_reflect (state o' = STATE_UP)) as [|Hs]; [done|]. exfalso. destruct (d_err o').
  - destruct Hrep as (e & E & He & _). rewrite E in Hup. set_solver.
  - destruct Hrep as [_ E]. rewrite E in Hup. set_solver.
Qed.

(** C2: a client comes up with every cooperating server.  With one to 255
    configured methods, whenever the server picks an offered method, accepts
    the credentials and answers the request with success, then however its
    bytes are cut into pieces the client reports UP, and the conversation is
    the handshake (completeness, the converse of soundness). *)
Theorem socks_up_complete indet server auths dest o sc ax rsv atyp addr cs1 cs2 :
  BAddr_wf dest -> BSocksClient_Init server auths dest true = Some (Some o) ->
  0 < Z.of_nat (length auths) <= 255 -> auth_script auths sc ax ->
  (atyp = 1 /\ length addr = 6%nat) \/ (atyp = 4 /\ length addr = 18%nat) ->
  chunks_of [5; 0; rsv; atyp] cs1 -> chunks_of addr cs2 ->
  exists o', socks_run indet o (InConnector false true true :: InSent true :: sc ++
                                InSent true :: deliver cs1 ++ deliver cs2) = Some (Some o') /\
    reports o'.(out) = [BSOCKSCLIENT_EVENT_UP] /\
    conv o'.(out) = to_server (hello_msg auths) ++ ax ++ to_server (request_msg dest)
                    ++ from_server ([5; 0; rsv; atyp] ++ addr).
Proof.
  intros Hwf Hinit Hn Hsc Hat Hc1 Hc2. pose proof (init_inv _ _ _ _ _ Hwf Hinit) as Hi.
  assert (o = SC auths dest STATE_CONNECTING None 0 true None None (0%nat, 0) 0 0 false []) as Eo.
  { unfold BSocksClient_Init in Hinit. repeat case_match; congruence. }
  set (o1 := sent (set_con (Some (Conn Ready Ready)) o) (hello_msg (auth_info o)) STATE_SENDING_HELLO).
  assert (socks_step indet o (InConnector false true true) = Some o1) as E1.
  { cbn [socks_step]. apply (connector_handler_ok (cfg := (auths, dest))); [apply Hi|by subst o..]. }
  assert (socks_enabled o (InConnector false true true) = true) as He by (by subst o).
  destruct (step_inv indet o _ Hi He) as (o1' & E1' & Hi1). rewrite E1 in E1'. injection E1' as <-.
  cbn [socks_run]. rewrite He, E1. fold (socks_run indet o1 (InSent true :: sc ++ InSent true :: deliver cs1 ++ deliver cs2)).
  assert (auth_info o1 = auths /\ dest_addr o1 = dest /\ d_err o1 = false) as (Hau & Hde & Hd1) by (by subst o1 o).
  destruct (run_auth _ indet o1 sc ax (InSent true :: deliver cs1 ++ deliver cs2) Hi1 Hd1 eq_refl)
    as (o2 & E2 & Hi2 & Hd2 & Hs2 & _ & Hcv2); [by rewrite Hau|].
  change (if socks_enabled o1 (InSent true) then _ else _) with
    (socks_run indet o1 (InSent true :: sc ++ InSent true :: deliver cs1 ++ deliver cs2)). rewrite E2.
  destruct (run_request _ indet o2 rsv atyp addr cs1 cs2 Hi2 Hd2 Hs2 Hat Hc1 Hc2) as (o3 & E3 & Hs3 & Hd3 & Hcv3).
  exists o3. split; [done|].
  destruct (run_inv_ind indet (InSent true :: deliver cs1 ++ deliver cs2) o2 Hi2) as (r & E & Hr).
  rewrite E3 in E. injection E as <-. destruct (Hr o3 eq_refl) as (_ & _ & _ & Hrep). rewrite Hd3 in Hrep.
  destruct Hrep as [_ Hrep]. unfold up_reports in Hrep. rewrite Hs3 in Hrep. split; [done|].
  rewrite Hcv3, Hcv2. unfold request_part. rewrite Hde. subst o1 o.
  cbn [out sent set_state emit set_sender set_buffer set_con auth_info]. rewrite conv_emit.
  by rewrite <- !app_assoc.
Qed.

(** A session with a server on 127.0.0.1 that wants a password and whose
    bytes arrive one at a time or in pieces. *)
Definition example_auths := [BSocksClient_auth_none; BSocksClient_auth_password (bs "user") (bs "secret")].
Definition example_dest := BAddr_IPv4 16909060 20480.
Definition example_server := BAddr_IPv4 16777343 14340.
Definition example_client : BSocksClient :=
  SC example_auths example_dest STATE_CONNECTING None 0 true None None (0%nat, 0) 0 0 false [].
Definition example_addr : bytes := [10; 0; 0; 1; 4; 210].
Definition example_inputs : list socks_input :=
  InConnector false true true :: InSent true ::
  (deliver [[5]; [2]] ++ InSent true :: deliver [[1; 0]]) ++
  InSent true :: deliver [[5; 0]; [0]; [1]] ++ deliver [[10; 0; 0]; [1; 4; 210]].

Lemma socks_safe_witness :
  exists r, BSocksClient_Init example_server example_auths example_dest true = Some (Some example_client) /\
    socks_run (fun _ _ => 7) example_client (example_inputs ++ [InConnection BCONNECTION_EVENT_RECVCLOSED])
      = Some (Some r) /\
    reports r.(out) = [BSOCKSCLIENT_EVENT_UP; BSOCKSCLIENT_EVENT_ERROR_CLOSED] /\
    exists f, BSocksClient_Free r = Some f /\ released f.
Proof.
  eexists. split; [reflexivity|]. split; [vm_compute; reflexivity|]. split; [reflexivity|].
  destruct (socks_safe (fun _ _ => 7) example_server example_auths example_dest true example_client
      (example_inputs ++ [InConnection BCONNECTION_EVENT_RECVCLOSED])
      ltac:(vm_compute; intuition congruence) eq_refl) as (r & E & H).
  vm_compute in E. injection E as <-. exact (proj2 (H _ eq_refl)).
Defined.

Lemma socks_up_sound_witness :
  exists r, socks_run (fun _ _ => 7) example_client example_inputs = Some (Some r) /\
    handshake example_auths example_dest (conv r.(out)).
Proof.
  eexists. split; [vm_compute; reflexivity|].
  apply (socks_up_sound (fun _ _ => 7) example_server example_auths example_dest true example_client example_inputs).
  - vm_compute. intuition congruence.
  - reflexivity.
  - vm_compute. reflexivity.
  - vm_compute. left.
Defined.

Lemma socks_up_complete_witness :
  exists r, socks_run (fun _ _ => 7) example_client example_inputs = Some (Some r) /\
    reports r.(out) = [BSOCKSCLIENT_EVENT_UP].
Proof.
  destruct (socks_up_complete (fun _ _ => 7) example_server example_auths example_dest example_client
    (deliver [[5]; [2]] ++ InSent true :: deliver [[1; 0]])
    (from_server [5; 2] ++ to_server (password_msg (BSocksClient_auth_password (bs "user") (bs "secret"))) ++ from_server [1; 0])
    0 1 example_addr [[5; 0]; [0]; [1]] [[10; 0; 0]; [1; 4; 210]]
    ltac:(vm_compute; intuition congruence) eq_refl) as (r & E & R & _).
  - vm_compute. intuition congruence.
  - apply auth_script_password; [reflexivity|split; split; vm_compute; lia|split; [reflexivity|repeat constructor; congruence]..].
  - left. split; reflexivity.
  - split; [reflexivity|repeat constructor; congruence].
  - split; [reflexivity|repeat constructor; congruence].
  - exists r. split; [exact E|exact R].
Defined.
