(* ===== verification/Contract.v ===== *)
(** * The connection under the SOCKS client

    [SocksClient.v] uses a connection through what it can observe of it: each
    half is not set up, ready, or busy.  This file shows that the connection of
    [Connection.v] keeps that contract: the two follow each other under a view
    of the detailed state, so the theorems on the SOCKS client hold on top of
    the connection that [system/BConnection_unix.c] implements. *)

From S2P Require Import Prelude.
From S2P Require Import LinkedList.
From S2P Require Import SocksClient.
From S2P Require Import Reactor.
From S2P Require Import ReactorFrame.
From S2P Require Import Flow.
From S2P Require Import Addr.
From S2P Require Import Sockets.
From S2P Require Import Connection.
Import Reactor Frame Flow Connection.

Module Contract.

(** What the client sees. *)
Definition send_view (h : send_half) : io_state := if send_inited h then SocksClient.Ready else NotInited.
Definition recv_view (g : recv_half) : io_state :=
  if recv_inited g then if is_state STATE_NONE g.(riface) then SocksClient.Ready else Busy else NotInited.
Definition view (o : BConnection) : SocksClient.BConnection := Conn (recv_view o.(recv)) (send_view o.(send)).

(** What the contract makes of an event of the connection.  The end of a
    receive is the part of [socks_step] that comes before the handler. *)
Definition contract (c : BSocksClient) (ev : event) : option BSocksClient :=
  match ev with
  | SInit => SocksClient.BConnection_SendAsync_Init c
  | SFree => SocksClient.BConnection_SendAsync_Free c
  | RInit => SocksClient.BConnection_RecvAsync_Init c
  | RFree => SocksClient.BConnection_RecvAsync_Free c
  | RRecv m => SocksClient.Receiver_Recv (Z.of_nat (length m)) c
  | RJobDone =>
      LET x <- c.(con) in
      ASSERT bool_decide (x.(con_recv) = Busy) in
      Some (set_con (Some (Conn SocksClient.Ready x.(con_send))) c)
  | _ => Some c
  end.

(** ** Events the client does not see *)

Definition same_view (o : BConnection) (out : outcome) : Prop := forall r' o' acts, out = Some (r', o', acts) -> view o' = view o.

Lemma wait_for_view r o m : same_view o (wait_for r o m).
Proof. unfold same_view, wait_for. intros r' o' acts. case_match; [|done]. by intros [= _ <- _]. Qed.
Lemma report_error_view r o : same_view o (connection_report_error r o).
Proof. unfold same_view, connection_report_error. intros r' o' acts. case_match; [|done]. by intros [= _ <- _]. Qed.

Lemma connection_send_view r o w : same_view o (connection_send r o w).
Proof.
  intros r' o' acts. unfold connection_send. case_match; [|done]. destruct (bool_decide _) eqn:Es; [|done]. apply bool_decide_eq_true in Es.
  destruct (within_limit _ _ _) as [[r1 ok]|]; [|done]. case_match; [apply wait_for_view|].
  case_match; [|done]. case_match; [|done]. destruct w; [|case_match; [apply wait_for_view|apply report_error_view]|apply report_error_view].
  do 3 (case_match; [|done]). intros [= _ <- _]. unfold view, send_view, send_inited. cbn. by rewrite Es.
Qed.

Lemma recv_done_view i n i' : StreamRecvInterface_Done i n = Some i' -> is_state STATE_NONE i = false /\ is_state STATE_NONE i' = false.
Proof.
  unfold StreamRecvInterface_Done, is_state. intros E. destruct (bool_decide (state i = STATE_BUSY)) eqn:Hb; [|done]. apply bool_decide_eq_true in Hb. rewrite Hb.
  repeat case_match; simplify_eq; done.
Qed.

Lemma connection_recv_view r o x : same_view o (connection_recv r o x).
Proof.
  intros r' o' acts. unfold connection_recv. case_match; [|done]. destruct (bool_decide _) eqn:Es; [|done]. apply bool_decide_eq_true in Es.
  destruct (within_limit _ _ _) as [[r1 ok]|]; [|done]. case_match; [apply wait_for_view|].
  destruct x as [d| |]; [|case_match; [apply wait_for_view|apply report_error_view]|apply report_error_view].
  destruct d; [intros [= _ <- _]; unfold view, recv_view, recv_inited; cbn; by rewrite Es|]. do 3 (case_match; [|done]).
  destruct (StreamRecvInterface_Done _ _) as [i|] eqn:E; [|done]. apply recv_done_view in E as [E1 E2]. cbn in E1.
  intros [= _ <- _]. unfold view, recv_view, recv_inited. cbn. by rewrite Es, E1, E2.
Qed.

Lemma fd_handler_view r o ev w x : same_view o (connection_fd_handler r o ev w x).
Proof.
  intros r' o' acts. unfold connection_fd_handler. do 2 (case_match; [|done]). destruct (acknowledge r o ev) as [[r1 o1]|] eqn:E; [|done].
  assert (view o1 = view o) as <-. { unfold acknowledge in E. case_match; [|done]. case_match; [case_match; [|done]|]; by injection E as _ <-. }
  do 2 (case_match; [|done]). case_match; [|case_match; [apply connection_recv_view|case_match; [apply report_error_view|by intros [= _ <- _]]]].
  intros Es%connection_send_view. rewrite Es. by case_match.
Qed.

(** Only the calls of the client and the end of a receive change the view. *)
Definition seen (ev : event) : bool := match ev with SInit | SFree | RInit | RFree | RRecv _ | RJobDone => true | _ => false end.

Lemma unseen_view s ev s' acts : seen ev = false -> step s ev = Some (s', acts) -> view s'.1.2 = view s.1.2.
Proof.
  destruct s as [[r o] f]. destruct ev; try done; intros _; cbn [step].
  - case_match; [|done]. by intros [= <- _].
  - case_match; [|done]. by intros [= <- _].
  - unfold _StreamPassInterface_job_operation, connection_send_if_handler_send. destruct (is_state _ _); [|done]. destruct (negb _); [|done].
    cbn [send set_send sstate set_siface]. destruct (bool_decide _) eqn:Es; [|done]. apply bool_decide_eq_true in Es. destruct (_ <? _); [|done].
    destruct (connection_send _ _ _) as [[[r1 o1] a1]|] eqn:E; [|done]. apply connection_send_view in E. intros [= <- _]. cbn. rewrite E. unfold view, send_view, send_inited. cbn. by rewrite Es.
  - destruct (_StreamPassInterface_job_done _) as [[i n]|]; [|done]. by intros [= <- _].
  - unfold StreamRecvInterface_Receiver_Init. destruct (negb _); [|done]. by intros [= <- _].
  - unfold _StreamRecvInterface_job_operation, connection_recv_if_handler_recv. destruct (is_state _ _) eqn:Eo; [|done]. apply is_state_true in Eo. destruct (negb _); [|done].
    cbn [recv set_recv rstate set_riface]. destruct (bool_decide _) eqn:Es; [|done]. apply bool_decide_eq_true in Es. destruct (_ <? _); [|done].
    destruct (connection_recv _ _ _) as [[[r1 o1] a1]|] eqn:E; [|done]. apply connection_recv_view in E. intros [= <- _]. cbn. rewrite E. unfold view, recv_view, recv_inited, is_state. cbn. by rewrite Es, Eo.
  - unfold connection_recv_job_handler. destruct (negb _); [|done]. destruct (bool_decide _); [|done]. destruct (connection_recv _ _ _) as [[[r1 o1] a1]|] eqn:E; [|done]. apply connection_recv_view in E. intros [= <- _]. exact E.
  - case_match; [|done]. by intros [= <- _].
  - case_match; [|done]. destruct (fd_event _ _); [|by intros [= <- _]].
    destruct (connection_fd_handler _ _ _ _ _) as [[[r1 o1] a1]|] eqn:E; [|done]. apply fd_handler_view in E. intros [= <- _]. exact E.
Qed.

(** ** Events it sees *)

Lemma send_view_not h : send_view h = NotInited <-> send_inited h = false.
Proof. unfold send_view. by destruct (send_inited h). Qed.
Lemma recv_view_not g : recv_view g = NotInited <-> recv_inited g = false.
Proof. unfold recv_view. destruct (recv_inited g), (is_state STATE_NONE (riface g)); by split. Qed.
Lemma recv_view_ready g : recv_view g = SocksClient.Ready <-> recv_inited g = true /\ is_state STATE_NONE g.(riface) = true.
Proof. unfold recv_view. destruct (recv_inited g), (is_state STATE_NONE (riface g)); naive_solver. Qed.

Lemma sender_contract r o f c ev s' acts : con c = Some (view o) -> legal (r, o, f) ev = true -> ev = SInit \/ ev = SFree ->
  step (r, o, f) ev = Some (s', acts) -> exists c', contract c ev = Some c' /\ con c' = Some (view s'.1.2).
Proof.
  intros Hc Hl [-> | ->] E; cbn [legal step contract] in *.
  - rewrite andb_true_iff, !negb_true_iff in Hl. destruct Hl as [_ Hs]. unfold SocksClient.BConnection_SendAsync_Init. rewrite Hc. cbn [con_send con_recv view].
    rewrite bool_decide_eq_true_2 by by apply send_view_not. eexists. split; [done|]. unfold BConnection_SendAsync_Init in E.
    destruct (negb _); [|done]. destruct (bool_decide _); [|done]. by injection E as <- _.
  - unfold SocksClient.BConnection_SendAsync_Free. rewrite Hc. cbn [con_send con_recv view].
    rewrite bool_decide_eq_false_2 by (rewrite send_view_not; congruence). eexists. split; [done|]. unfold BConnection_SendAsync_Free in E.
    destruct (_ || _); [|done]. destruct (stop_waiting _ _ _) as [[r1 o1]|] eqn:Ew; [|done]. injection E as <- _.
    unfold stop_waiting in Ew. case_match; [case_match; [|done]|]; by injection Ew as _ <-.
Qed.

Lemma receiver_contract r o f c ev s' acts : con c = Some (view o) -> legal (r, o, f) ev = true -> ev = RInit \/ ev = RFree ->
  step (r, o, f) ev = Some (s', acts) -> exists c', contract c ev = Some c' /\ con c' = Some (view s'.1.2).
Proof.
  intros Hc Hl [-> | ->] E; cbn [legal step contract] in *.
  - rewrite andb_true_iff, !negb_true_iff in Hl. destruct Hl as [_ Hs]. unfold SocksClient.BConnection_RecvAsync_Init. rewrite Hc. cbn [con_send con_recv view].
    rewrite bool_decide_eq_true_2 by by apply recv_view_not. eexists. split; [done|]. unfold BConnection_RecvAsync_Init in E.
    destruct (negb _); [|done]. destruct (bool_decide _); [|done]. by injection E as <- _.
  - unfold SocksClient.BConnection_RecvAsync_Free. rewrite Hc. cbn [con_send con_recv view].
    rewrite bool_decide_eq_false_2 by (rewrite recv_view_not; congruence). eexists. split; [done|]. unfold BConnection_RecvAsync_Free in E.
    destruct (_ || _); [|done]. destruct (stop_waiting _ _ _) as [[r1 o1]|] eqn:Ew; [|done]. injection E as <- _.
    unfold stop_waiting in Ew. case_match; [case_match; [|done]|]; by injection Ew as _ <-.
Qed.

Lemma receive_contract r o f c m s' acts : con c = Some (view o) -> legal (r, o, f) (RRecv m) = true -> step (r, o, f) (RRecv m) = Some (s', acts) ->
  exists c', contract c (RRecv m) = Some c' /\ con c' = Some (view s'.1.2).
Proof.
  intros Hc Hl E. cbn [legal step contract] in *. rewrite !andb_true_iff, !negb_true_iff, bool_decide_eq_false in Hl. destruct Hl as ((((_ & Hs) & Hn) & _) & Hm).
  unfold SocksClient.Receiver_Recv. rewrite Hc. cbn [con_send con_recv view]. rewrite (proj2 (Z.ltb_lt _ _)) by (destruct m; [done|cbn; lia]).
  rewrite bool_decide_eq_true_2 by by apply recv_view_ready. eexists. split; [done|].
  unfold StreamRecvInterface_Receiver_Recv in E. repeat case_match; simplify_eq. unfold view, recv_view, recv_inited in *. cbn. by rewrite Hs.
Qed.

Lemma received_contract r o f c s' acts : con c = Some (view o) -> legal (r, o, f) RJobDone = true -> step (r, o, f) RJobDone = Some (s', acts) ->
  exists c', contract c RJobDone = Some c' /\ con c' = Some (view s'.1.2).
Proof.
  intros Hc Hl E. cbn [legal step contract] in *. rewrite andb_true_iff in Hl. destruct Hl as [Hs _]. unfold _StreamRecvInterface_job_done in E.
  destruct (is_state STATE_DONE_PENDING _) eqn:Ed; [|done]. apply is_state_true in Ed. injection E as <- _. rewrite Hc. cbn [con_send con_recv view].
  assert (recv_view o.(recv) = Busy) as -> by (unfold recv_view, is_state; by rewrite Hs, Ed). eexists. split; [done|].
  unfold view, recv_view, recv_inited in *. cbn. by rewrite Hs.
Qed.

(** One event on both sides. *)
Definition both_legal (s : BReactor * BConnection * bool * BSocksClient) (ev : event) : bool := legal s.1 ev.
Definition both_step (s : BReactor * BConnection * bool * BSocksClient) (ev : event) : option (BReactor * BConnection * bool * BSocksClient * list action) :=
  LET (s1, acts) <- step s.1 ev in LET c <- contract s.2 ev in Some (s1, c, acts).

Lemma contract_follows s c hist ev : I s hist -> con c = Some (view s.1.2) -> both_legal (s, c) ev = true ->
  exists s' c' acts, both_step (s, c) ev = Some (s', c', acts) /\ I s' (hist ++ acts) /\ con c' = Some (view s'.1.2).
Proof.
  unfold both_legal, both_step. cbn [fst snd]. intros HI Hc Hl. destruct (connection_step_ok s hist ev HI Hl) as (s' & acts & E & HI'). rewrite E.
  assert (exists c', contract c ev = Some c' /\ con c' = Some (view s'.1.2)) as (c' & -> & Hc'); [|by exists s', c', acts].
  destruct (seen ev) eqn:Hs.
  - destruct s as [[r o] f]. destruct ev; try done; eauto using sender_contract, receiver_contract, receive_contract, received_contract.
  - exists c. rewrite (unseen_view _ _ _ _ Hs E). by destruct ev.
Qed.

(** ** What the client relies on *)

(** Calls of the client that it may make: after an error it only takes the
    connection down, and it receives after it has set its handler. *)
Definition may_ask (o : BConnection) (ev : event) : bool :=
  match ev with
  | SFree | RFree => true
  | SInit | RInit => negb o.(d_err)
  | RRecv _ => negb o.(d_err) && o.(recv).(riface).(handler_done)
  | _ => false
  end.

(** The contract is kept in a state: what it allows is legal, a receive ends
    with at least a byte and no more than was asked for, and what it lets the
    client free can be freed. *)
Definition keeps_contract (s : BReactor * BConnection * bool) (c : BSocksClient) : Prop :=
  let '(r, o, _) := s in
  con c = Some (view o) /\
  (forall ev, may_ask o ev = true -> is_Some (contract c ev) -> legal s ev = true) /\
  (legal s RJobDone = true -> exists s' d, step s RJobDone = Some (s', [Received d]) /\ 0 < Z.of_nat (length d) <= Z.of_nat (length o.(recv).(rmem))) /\
  (is_Some (SocksClient.BConnection_Free c) -> is_Some (BConnection_Free r o)).

Lemma contract_allows r o f c ev : con c = Some (view o) -> may_ask o ev = true -> is_Some (contract c ev) -> legal (r, o, f) ev = true.
Proof.
  intros Hc Hm [c' E]. destruct ev; try done; cbn [may_ask contract legal] in *.
  - unfold SocksClient.BConnection_SendAsync_Init in E. rewrite Hc in E. destruct (bool_decide _) eqn:Hs; [|done].
    apply bool_decide_eq_true, send_view_not in Hs. by rewrite Hm, Hs.
  - unfold SocksClient.BConnection_SendAsync_Free in E. rewrite Hc in E. destruct (bool_decide _) eqn:Hs; [done|].
    apply bool_decide_eq_false in Hs. cbn in Hs. rewrite send_view_not in Hs. by apply not_false_is_true.
  - unfold SocksClient.BConnection_RecvAsync_Init in E. rewrite Hc in E. destruct (bool_decide _) eqn:Hs; [|done].
    apply bool_decide_eq_true, recv_view_not in Hs. by rewrite Hm, Hs.
  - unfold SocksClient.BConnection_RecvAsync_Free in E. rewrite Hc in E. destruct (bool_decide _) eqn:Hs; [done|].
    apply bool_decide_eq_false in Hs. cbn in Hs. rewrite recv_view_not in Hs. by apply not_false_is_true.
  - unfold SocksClient.Receiver_Recv in E. rewrite Hc in E. destruct (_ <? _) eqn:Hn; [|done]. destruct (bool_decide _) eqn:Hs; [|done].
    apply bool_decide_eq_true, recv_view_ready in Hs as [-> ->]. apply andb_true_iff in Hm as [-> ->]. by destruct m.
Qed.

Lemma contract_received r o f hist : I (r, o, f) hist -> legal (r, o, f) RJobDone = true ->
  exists s' d, step (r, o, f) RJobDone = Some (s', [Received d]) /\ 0 < Z.of_nat (length d) <= Z.of_nat (length o.(recv).(rmem)).
Proof.
  intros (_ & _ & R & _) Hl. cbn [legal step] in *. apply andb_true_iff in Hl as [Hs Hj]. pose proof (recv_flow _ _ _ _ R Hs) as F.
  pose proof (proj2 (job_of_state _ _ F) Hj) as Hd. assert (o.(recv).(rstate) = RECV_STATE_READY) as Hr by (eapply recv_ready; try done; by rewrite Hd).
  unfold recv_ok in R. rewrite Hr in R. destruct R as (_ & _ & _ & _ & _ & Hlen). specialize (Hlen Hd).
  unfold _StreamRecvInterface_job_done. rewrite (proj2 (is_state_true _ _) Hd). eexists _, _. split; [done|]. rewrite length_take. lia.
Qed.

Lemma contract_frees r o f hist c : I (r, o, f) hist -> con c = Some (view o) -> is_Some (SocksClient.BConnection_Free c) -> is_Some (BConnection_Free r o).
Proof.
  intros HI Hc [c' E]. unfold SocksClient.BConnection_Free in E. rewrite Hc in E. destruct (bool_decide _) eqn:Hs; [|done].
  destruct (bool_decide (con_recv _ = _)) eqn:Hr; [|done]. apply bool_decide_eq_true, send_view_not, negb_false_iff, bool_decide_eq_true in Hs.
  apply bool_decide_eq_true, recv_view_not, negb_false_iff, bool_decide_eq_true in Hr. pose proof HI as ([_ _ _ (_ & _ & L)] & _).
  assert (Sockets.holding [] (if o.(close_fd) then [Sockets.Acquire Sockets.RFd] else []) = Some (if o.(close_fd) then [Sockets.RFd] else [])) as Ht by by destruct (close_fd o).
  destruct (given_back_ok o.(bfd) o.(send).(slimit) o.(recv).(rlimit) L _ r o f hist HI eq_refl Ht Hs Hr) as (r2 & tr2 & -> & _). by eexists.
Qed.

Lemma contract_kept r o f hist c : I (r, o, f) hist -> con c = Some (view o) -> keeps_contract (r, o, f) c.
Proof. intros HI Hc. split; [done|]. split_and!; eauto using contract_allows, contract_received, contract_frees. Qed.

Section life.
Context (r : BReactor) (src : BConnection_source) (a ls lr : addr) (h : send_half) (g : recv_half) (epoll : bool).
Context (Hinv : inv r) (Ha : is_active (r.(fds) !! a) = false) (Hls : r.(limits) !! ls = None) (Hlr : r.(limits) !! lr = None) (Hne : ls <> lr).
Context (Hsrc : source_ok src = true) (Hpeer : is_Some (source_addr src)).

(** C16: the connection refines the contract that the SOCKS client is proved
    against.  A new connection looks like the one that [connector_handler]
    starts with; from then on each event of the connection is matched by the
    contract, and in every state that is reached the contract is kept.  As in
    [connection_exact], a [read] or [write] fails once [EPOLLERR] was reported. *)
Theorem connection_refines_contract evs c r0 left_ o ad tr :
  BConnection_Init r src a ls lr h g epoll = Some (r0, left_, Some o, ad, tr) -> con c = Some (Conn NotInited NotInited) ->
  exists s' c' acts, machine_run both_legal both_step (r0, o, false, c) evs = Some (s', c', acts) /\ keeps_contract s' c'.
Proof using Hinv Ha Hls Hlr Hne Hsrc Hpeer.
  intros E Hc. destruct (connection_init_ok r src a ls lr h g epoll Hinv Ha Hls Hlr Hne Hsrc Hpeer) as (r1 & left1 & co & ad1 & tr1 & E1 & _ & Hco).
  rewrite E in E1. injection E1 as <- <- <- <- <-. destruct Hco as (I0 & _).
  assert (view o = Conn NotInited NotInited) as Hv. { unfold BConnection_Init in E. repeat case_match; simplify_eq; done. }
  destruct (machine_invariant both_legal both_step (fun s hist => I s.1 hist /\ con s.2 = Some (view s.1.1.2))) with (evs := evs) (s := (r0, o, false, c)) (h := @nil action)
    as ([s' c'] & acts & Er & HI & Hc').
  - intros [s1 c1] hist ev [HI H1] Hl. destruct (contract_follows s1 c1 hist ev HI H1 Hl) as (s2 & c2 & acts & E2 & HI2 & H2). by exists (s2, c2), acts.
  - cbn. by rewrite Hv.
  - exists s', c', acts. split; [done|]. destruct s' as [[r' o'] f']. by eapply contract_kept.
Qed.
End life.

(** A client whose connector has just connected, on the connection of the
    sample run, and what it then sees. *)
Definition sample_client : BSocksClient :=
  SC [] (BAddr_IPv4 0 0) STATE_CONNECTING None 0 true (Some (Conn NotInited NotInited)) None (0%nat, 0) 0 0 false [].

Lemma connection_refines_contract_witness : exists r0 left_ o ad tr s' c' acts,
  BConnection_Init new_reactor sample_pipe 50 60 61 no_send no_recv true = Some (r0, left_, Some o, ad, tr) /\
  machine_run both_legal both_step (r0, o, false, sample_client) sample_connection = Some (s', c', acts) /\ keeps_contract s' c' /\ con c' = Some (Conn SocksClient.Ready SocksClient.Ready).
Proof.
  destruct (BConnection_Init new_reactor sample_pipe 50 60 61 no_send no_recv true) as [[[[[r0 left_] [o|]] ad] tr]|] eqn:E; [|by vm_compute in E..].
  destruct (connection_refines_contract new_reactor sample_pipe 50 60 61 no_send no_recv true new_reactor_inv eq_refl eq_refl eq_refl ltac:(lia) eq_refl ltac:(by eexists)
    sample_connection sample_client _ _ _ _ _ E eq_refl) as (s' & c' & acts & Er & K).
  exists r0, left_, o, ad, tr, s', c', acts. split; [reflexivity|]. split; [exact Er|]. split; [exact K|]. clear K.
  vm_compute in E. injection E as <- <- <- <- <-. vm_compute in Er. by injection Er as <- <- <-.
Defined.
End Contract.
