(* ===== verification/TcpClient.v ===== *)
(** * The TCP client of tun2socks

    Models [struct tcp_client] and the functions on it in
    [tun2socks/tun2socks.c]: a TCP connection that lwIP accepted on the TUN
    side, paired with a SOCKS connection, with one buffer for each direction
    and two independent ends that can close in either order.

    The structure is a record.  Each function of the source takes the record
    to the record it leaves behind; [None] is a failed [ASSERT], a write
    outside a buffer, or the use of something that was freed (the client
    itself, the pcb, the SOCKS client).  The calls to lwIP and to the SOCKS
    connection that carry data or free something are appended to [trace].
    lwIP is not modelled: what it answers ([tcp_close], [tcp_sndbuf],
    [tcp_write], [tcp_output]) is an argument of the functions that ask.  The
    ghost fields [wnd] and [unacked] of the pcb count what lwIP's receive window
    and send queue hold.

    [SYNC_COMMIT] runs the jobs that were queued since [SYNC_FROMHERE]; here
    it is a list of events of the SOCKS side that happen at that point. *)

From S2P Require Import Prelude.
From S2P Require Import Addr.
From S2P Require Import SocksClient.
Import BAddr.

(** [lwip/custom/lwipopts.h]: [TCP_MSS] is 1460, and [TCP_WND] lwIP's default
    of four segments; [tun2socks.h]. *)
Definition TCP_MSS : Z := 1460.
Definition TCP_WND : Z := 4 * TCP_MSS.
Definition CLIENT_SOCKS_RECV_BUF_SIZE : Z := 8192.

Inductive err_t := ERR_OK | ERR_MEM | ERR_ABRT | ERR_OTHER.

#[export] Instance err_t_eq_dec : EqDecision err_t.
Proof. solve_decision. Defined.

(** The lwIP pcb: which callbacks are set, and lwIP's own counts. *)
Record tcp_pcb := Pcb {
  cb_err : bool; cb_recv : bool; cb_sent : bool;
  wnd : Z;      (* receive window left *)
  unacked : Z;  (* bytes written and not yet confirmed *)
}.

Inductive tcp_action :=
  | TGot (data : bytes)        (* bytes copied from lwIP into buf *)
  | TToSocks (data : bytes)    (* bytes of buf the SOCKS connection took *)
  | TRecved (n : Z)            (* tcp_recved *)
  | TFromSocks (data : bytes)  (* bytes received from the SOCKS connection *)
  | TWrite (data : bytes)      (* tcp_write that succeeded *)
  | TPbufFree                  (* pbuf_free *)
  | TClose | TAbort            (* tcp_close, tcp_abort *)
  | TSocksFree                 (* BSocksClient_Free *)
  | TReport (ev : socks_event) (* event the SOCKS client reported *)
  | TReturn (e : err_t).       (* value a callback returned to lwIP *)

Record tcp_client := Client {
  local_addr : BAddr;
  remote_addr : BAddr;
  pcb : option tcp_pcb;             (* None once it was freed *)
  client_closed : bool;
  buf : bytes;
  buf_used : Z;
  socks_username : option bytes;
  socks_client : bool;              (* the BSocksClient is initialised *)
  socks_up : bool;
  socks_closed : bool;
  socks_send_busy : option Z;       (* a send of so many bytes is in progress *)
  socks_recv_busy : bool;           (* a receive is in progress *)
  socks_recv_buf : bytes;
  socks_recv_buf_used : Z;
  socks_recv_buf_sent : Z;
  socks_recv_waiting : bool;
  socks_recv_tcp_pending : Z;
  dead_client : bool;               (* the dead var was killed *)
  freed : bool;                     (* free(client) was done *)
  num_clients : Z;                  (* the global counter *)
  trace : list tcp_action;
}.

Module TcpClient.

(** Field updates. *)
Definition set_pcb p c := Client c.(local_addr) c.(remote_addr) p c.(client_closed) c.(buf) c.(buf_used) c.(socks_username)
  c.(socks_client) c.(socks_up) c.(socks_closed) c.(socks_send_busy) c.(socks_recv_busy) c.(socks_recv_buf)
  c.(socks_recv_buf_used) c.(socks_recv_buf_sent) c.(socks_recv_waiting) c.(socks_recv_tcp_pending) c.(dead_client)
  c.(freed) c.(num_clients) c.(trace).
Definition set_client_closed c := Client c.(local_addr) c.(remote_addr) c.(pcb) true c.(buf) c.(buf_used) c.(socks_username)
  c.(socks_client) c.(socks_up) c.(socks_closed) c.(socks_send_busy) c.(socks_recv_busy) c.(socks_recv_buf)
  c.(socks_recv_buf_used) c.(socks_recv_buf_sent) c.(socks_recv_waiting) c.(socks_recv_tcp_pending) true
  c.(freed) c.(num_clients) c.(trace).
Definition set_buf b n c := Client c.(local_addr) c.(remote_addr) c.(pcb) c.(client_closed) b n c.(socks_username)
  c.(socks_client) c.(socks_up) c.(socks_closed) c.(socks_send_busy) c.(socks_recv_busy) c.(socks_recv_buf)
  c.(socks_recv_buf_used) c.(socks_recv_buf_sent) c.(socks_recv_waiting) c.(socks_recv_tcp_pending) c.(dead_client)
  c.(freed) c.(num_clients) c.(trace).
Definition set_socks_gone c := Client c.(local_addr) c.(remote_addr) c.(pcb) c.(client_closed) c.(buf) c.(buf_used) c.(socks_username)
  false c.(socks_up) true None false c.(socks_recv_buf)
  c.(socks_recv_buf_used) c.(socks_recv_buf_sent) c.(socks_recv_waiting) c.(socks_recv_tcp_pending) c.(dead_client)
  c.(freed) c.(num_clients) c.(trace).
Definition set_up c := Client c.(local_addr) c.(remote_addr) c.(pcb) c.(client_closed) c.(buf) c.(buf_used) c.(socks_username)
  c.(socks_client) true c.(socks_closed) c.(socks_send_busy) c.(socks_recv_busy) c.(socks_recv_buf)
  c.(socks_recv_buf_used) c.(socks_recv_buf_sent) c.(socks_recv_waiting) c.(socks_recv_tcp_pending) c.(dead_client)
  c.(freed) c.(num_clients) c.(trace).
Definition set_busy s r c := Client c.(local_addr) c.(remote_addr) c.(pcb) c.(client_closed) c.(buf) c.(buf_used) c.(socks_username)
  c.(socks_client) c.(socks_up) c.(socks_closed) s r c.(socks_recv_buf)
  c.(socks_recv_buf_used) c.(socks_recv_buf_sent) c.(socks_recv_waiting) c.(socks_recv_tcp_pending) c.(dead_client)
  c.(freed) c.(num_clients) c.(trace).
Definition set_recv_buf b c := Client c.(local_addr) c.(remote_addr) c.(pcb) c.(client_closed) c.(buf) c.(buf_used) c.(socks_username)
  c.(socks_client) c.(socks_up) c.(socks_closed) c.(socks_send_busy) c.(socks_recv_busy) b
  c.(socks_recv_buf_used) c.(socks_recv_buf_sent) c.(socks_recv_waiting) c.(socks_recv_tcp_pending) c.(dead_client)
  c.(freed) c.(num_clients) c.(trace).
Definition set_recv u s w p c := Client c.(local_addr) c.(remote_addr) c.(pcb) c.(client_closed) c.(buf) c.(buf_used) c.(socks_username)
  c.(socks_client) c.(socks_up) c.(socks_closed) c.(socks_send_busy) c.(socks_recv_busy) c.(socks_recv_buf)
  u s w p c.(dead_client)
  c.(freed) c.(num_clients) c.(trace).
Definition set_freed n c := Client c.(local_addr) c.(remote_addr) c.(pcb) c.(client_closed) c.(buf) c.(buf_used) None
  c.(socks_client) c.(socks_up) c.(socks_closed) c.(socks_send_busy) c.(socks_recv_busy) c.(socks_recv_buf)
  c.(socks_recv_buf_used) c.(socks_recv_buf_sent) c.(socks_recv_waiting) c.(socks_recv_tcp_pending) true
  true n c.(trace).
Definition emit a c := Client c.(local_addr) c.(remote_addr) c.(pcb) c.(client_closed) c.(buf) c.(buf_used) c.(socks_username)
  c.(socks_client) c.(socks_up) c.(socks_closed) c.(socks_send_busy) c.(socks_recv_busy) c.(socks_recv_buf)
  c.(socks_recv_buf_used) c.(socks_recv_buf_sent) c.(socks_recv_waiting) c.(socks_recv_tcp_pending) c.(dead_client)
  c.(freed) c.(num_clients) (c.(trace) ++ [a]).

(** ** lwIP calls that need the pcb alive *)

Definition tcp_callbacks (e r s : bool -> bool) (c : tcp_client) : option tcp_client :=
  LET p <- c.(pcb) in
  Some (set_pcb (Some (Pcb (e p.(cb_err)) (r p.(cb_recv)) (s p.(cb_sent)) p.(wnd) p.(unacked))) c).
Definition keep (b : bool) : bool := b.
Definition off (b : bool) : bool := false.
Definition on (b : bool) : bool := true.

Definition tcp_close (c : tcp_client) (close_ok : bool) : option (tcp_client * bool) :=
  LET _ <- c.(pcb) in
  if close_ok then Some (emit TClose (set_pcb None c), true) else Some (c, false).
Definition tcp_abort (c : tcp_client) : option tcp_client :=
  LET _ <- c.(pcb) in Some (emit TAbort (set_pcb None c)).
Definition tcp_recved (n : Z) (c : tcp_client) : option tcp_client :=
  LET p <- c.(pcb) in
  Some (emit (TRecved n) (set_pcb (Some (Pcb p.(cb_err) p.(cb_recv) p.(cb_sent) (p.(wnd) + n) p.(unacked))) c)).

(** ** SOCKS interface calls *)

Definition StreamPass_Send (len : Z) (c : tcp_client) : option tcp_client :=
  ASSERT c.(socks_client) in
  ASSERT 0 <? len in
  ASSERT (match c.(socks_send_busy) with None => true | Some _ => false end) in
  Some (set_busy (Some len) c.(socks_recv_busy) c).
Definition StreamRecv_Recv (c : tcp_client) : option tcp_client :=
  ASSERT c.(socks_client) in
  ASSERT negb c.(socks_recv_busy) in
  Some (set_busy c.(socks_send_busy) true c).
Definition BSocksClient_Free' (c : tcp_client) : option tcp_client :=
  ASSERT c.(socks_client) in Some (emit TSocksFree (set_socks_gone c)).

(** ** [tun2socks.c] *)

(** The node removal from [tcp_clients] is done by the owner of the list
    (module [Clients]) when it sees [freed]. *)
Definition client_dealloc (c : tcp_client) : option tcp_client :=
  ASSERT negb c.(freed) in
  ASSERT c.(client_closed) in
  ASSERT c.(socks_closed) in
  ASSERT 0 <? c.(num_clients) in
  Some (set_freed (c.(num_clients) - 1) c).

(** [client_free_client], [client_free_socks] and
    [client_handle_freed_client] call each other, each call closing one more
    end.  The part of [client_free_socks] up to the decision: *)
Definition client_free_socks_begin (c : tcp_client) : option tcp_client :=
  ASSERT negb c.(freed) in
  ASSERT negb c.(socks_closed) in
  LET c <- (if c.(socks_up) && negb c.(client_closed) then tcp_callbacks keep off keep c else Some c) in
  BSocksClient_Free' c.

(** [client_handle_freed_client]; [client_free_socks] is called with the
    client closed, so that it ends in [client_dealloc]. *)
Definition client_handle_freed_client (c : tcp_client) : option tcp_client :=
  ASSERT negb c.(freed) in
  ASSERT negb c.(client_closed) in
  let c := set_client_closed c in
  if (0 <? c.(buf_used)) && negb c.(socks_closed) then Some c
  else if negb c.(socks_closed) then
    LET c <- client_free_socks_begin c in client_dealloc c
  else client_dealloc c.

Definition client_free_client (c : tcp_client) (close_ok : bool) : option tcp_client :=
  ASSERT negb c.(freed) in
  ASSERT negb c.(client_closed) in
  LET c <- tcp_callbacks off off off c in
  LET (c, ok) <- tcp_close c close_ok in
  LET c <- (if negb ok then tcp_abort c else Some c) in
  client_handle_freed_client c.

Definition client_abort_client (c : tcp_client) : option tcp_client :=
  ASSERT negb c.(freed) in
  ASSERT negb c.(client_closed) in
  LET c <- tcp_callbacks off off off c in
  LET c <- tcp_abort c in
  client_handle_freed_client c.

Definition client_free_socks (c : tcp_client) (close_ok : bool) : option tcp_client :=
  LET c <- client_free_socks_begin c in
  if c.(socks_up) && ((0 <=? c.(socks_recv_buf_used)) || (0 <? c.(socks_recv_tcp_pending)))
     && negb c.(client_closed)
  then Some c
  else if negb c.(client_closed) then client_free_client c close_ok
  else client_dealloc c.

Definition client_murder (c : tcp_client) : option tcp_client :=
  ASSERT negb c.(freed) in
  LET c <-
    (if negb c.(client_closed) then
       LET c <- tcp_callbacks off off off c in
       LET c <- tcp_abort c in
       Some (set_client_closed c)
     else Some c) in
  LET c <- (if negb c.(socks_closed) then BSocksClient_Free' c else Some c) in
  client_dealloc c.

(** lwIP has freed the pcb before it reports the error. *)
Definition client_err_func (c : tcp_client) : option tcp_client :=
  ASSERT negb c.(freed) in
  ASSERT negb c.(client_closed) in
  client_handle_freed_client c.

Definition client_send_to_socks (c : tcp_client) : option tcp_client :=
  ASSERT negb c.(freed) in
  ASSERT negb c.(socks_closed) in
  ASSERT c.(socks_up) in
  ASSERT 0 <? c.(buf_used) in
  StreamPass_Send c.(buf_used) c.

Definition client_socks_send_handler_done (c : tcp_client) (data_len : Z) (close_ok : bool)
  : option tcp_client :=
  ASSERT negb c.(freed) in
  ASSERT negb c.(socks_closed) in
  ASSERT c.(socks_up) in
  ASSERT 0 <? c.(buf_used) in
  ASSERT 0 <? data_len in
  ASSERT data_len <=? c.(buf_used) in
  let rest := take (Z.to_nat (c.(buf_used) - data_len)) (drop (Z.to_nat data_len) c.(buf)) in
  LET b <- store 0 rest c.(buf) in
  let c := set_buf b (c.(buf_used) - data_len) c in
  LET c <- (if negb c.(client_closed) then tcp_recved data_len c else Some c) in
  if 0 <? c.(buf_used) then StreamPass_Send c.(buf_used) c
  else if c.(client_closed) then client_free_socks c close_ok
  else Some c.

Definition client_socks_recv_initiate (c : tcp_client) : option tcp_client :=
  ASSERT negb c.(freed) in
  ASSERT negb c.(client_closed) in
  ASSERT negb c.(socks_closed) in
  ASSERT c.(socks_up) in
  ASSERT c.(socks_recv_buf_used) =? -1 in
  StreamRecv_Recv c.

(** What lwIP answers during [client_socks_recv_send_out]: for each turn of
    the loop [tcp_sndbuf] and the result of [tcp_write] (past the end of the
    list the send buffer is full), then the result of [tcp_output]. *)
Record send_answers := Answers {
  writes : list (Z * err_t);
  output : err_t;
}.

(** How the loop ends: [None] means [tcp_write] failed for another reason
    than memory. *)
Fixpoint write_loop (ws : list (Z * err_t)) (c : tcp_client) : option (tcp_client * bool) :=
  match ws with
  | [] => Some (c, true)
  | (sndbuf, err) :: ws =>
      let to_write := Z.min (c.(socks_recv_buf_used) - c.(socks_recv_buf_sent)) sndbuf in
      if to_write =? 0 then Some (c, true)
      else
        match err with
        | ERR_OK =>
            LET p <- c.(pcb) in
            ASSERT c.(socks_recv_buf_sent) + to_write <=? Z.of_nat (length c.(socks_recv_buf)) in
            let data := take (Z.to_nat to_write) (drop (Z.to_nat c.(socks_recv_buf_sent)) c.(socks_recv_buf)) in
            let c := set_pcb (Some (Pcb p.(cb_err) p.(cb_recv) p.(cb_sent) p.(wnd) (p.(unacked) + to_write))) c in
            let c := emit (TWrite data)
              (set_recv c.(socks_recv_buf_used) (c.(socks_recv_buf_sent) + to_write) c.(socks_recv_waiting)
                 (c.(socks_recv_tcp_pending) + to_write) c) in
            if c.(socks_recv_buf_sent) <? c.(socks_recv_buf_used) then write_loop ws c else Some (c, true)
        | ERR_MEM => Some (c, true)
        | _ => Some (c, false)
        end
  end.

(** The boolean is false for the return value -1. *)
Definition client_socks_recv_send_out (c : tcp_client) (a : send_answers) : option (tcp_client * bool) :=
  ASSERT negb c.(freed) in
  ASSERT negb c.(client_closed) in
  ASSERT c.(socks_up) in
  ASSERT 0 <? c.(socks_recv_buf_used) in
  ASSERT c.(socks_recv_buf_sent) <? c.(socks_recv_buf_used) in
  ASSERT negb c.(socks_recv_waiting) in
  LET (c, ok) <- write_loop a.(writes) c in
  if negb ok then LET c <- client_abort_client c in Some (c, false)
  else if negb (bool_decide (a.(output) = ERR_OK)) then LET c <- client_abort_client c in Some (c, false)
  else if c.(socks_recv_buf_sent) <? c.(socks_recv_buf_used) then
    if c.(socks_recv_tcp_pending) =? 0 then LET c <- client_abort_client c in Some (c, false)
    else Some (set_recv c.(socks_recv_buf_used) c.(socks_recv_buf_sent) true c.(socks_recv_tcp_pending) c, true)
  else Some (set_recv (-1) c.(socks_recv_buf_sent) c.(socks_recv_waiting) c.(socks_recv_tcp_pending) c, true).

Definition client_socks_recv_handler_done (c : tcp_client) (data_len : Z) (a : send_answers)
  : option tcp_client :=
  ASSERT negb c.(freed) in
  ASSERT 0 <? data_len in
  ASSERT data_len <=? CLIENT_SOCKS_RECV_BUF_SIZE in
  ASSERT negb c.(socks_closed) in
  ASSERT c.(socks_up) in
  ASSERT c.(socks_recv_buf_used) =? -1 in
  if c.(client_closed) then Some c
  else
    let c := set_recv data_len 0 false c.(socks_recv_tcp_pending) c in
    LET (c, ok) <- client_socks_recv_send_out c a in
    if negb ok then Some c
    else if c.(socks_recv_buf_used) =? -1 then client_socks_recv_initiate c
    else Some c.

Definition client_socks_handler (c : tcp_client) (event : socks_event) (close_ok : bool) : option tcp_client :=
  ASSERT negb c.(freed) in
  ASSERT negb c.(socks_closed) in
  match event with
  | BSOCKSCLIENT_EVENT_ERROR => client_free_socks c close_ok
  | BSOCKSCLIENT_EVENT_UP =>
      ASSERT negb c.(socks_up) in
      ASSERT c.(socks_client) in
      let c := set_busy None false c in
      let c := set_recv (-1) c.(socks_recv_buf_sent) c.(socks_recv_waiting) 0 c in
      LET c <- (if negb c.(client_closed) then tcp_callbacks keep keep on c else Some c) in
      let c := set_up c in
      LET c <- (if 0 <? c.(buf_used) then client_send_to_socks c else Some c) in
      if negb c.(client_closed) then client_socks_recv_initiate c else Some c
  | BSOCKSCLIENT_EVENT_ERROR_CLOSED =>
      ASSERT c.(socks_up) in
      client_free_socks c close_ok
  end.

(** ** Events of the SOCKS side *)

Inductive socks_input :=
  | SEvent (ev : socks_event) (close_ok : bool)
  | SSendDone (n : Z) (close_ok : bool)
  | SRecvDone (data : bytes) (a : send_answers).

(** The answers of [tcp_sndbuf] are unsigned. *)
Definition answers_ok (a : send_answers) : bool := forallb (fun w => 0 <=? fst w) a.(writes).

(** What the SOCKS client promises: see [SocksClient.socks_safe]. *)
Definition socks_input_enabled (c : tcp_client) (i : socks_input) : bool :=
  negb c.(freed) && c.(socks_client) &&
  match i with
  | SEvent BSOCKSCLIENT_EVENT_UP _ => negb c.(socks_up)
  | SEvent BSOCKSCLIENT_EVENT_ERROR_CLOSED _ => c.(socks_up)
  | SEvent BSOCKSCLIENT_EVENT_ERROR _ => true
  | SSendDone n _ => match c.(socks_send_busy) with Some l => (0 <? n) && (n <=? l) | None => false end
  | SRecvDone data a =>
      c.(socks_recv_busy) && (0 <? Z.of_nat (length data))
      && (Z.of_nat (length data) <=? CLIENT_SOCKS_RECV_BUF_SIZE) && answers_ok a
  end.

(** The connection reads the bytes it sends from [buf] and stores the bytes it
    receives in [socks_recv_buf]. *)
Definition socks_input_step (c : tcp_client) (i : socks_input) : option tcp_client :=
  match i with
  | SEvent ev close_ok => client_socks_handler (emit (TReport ev) c) ev close_ok
  | SSendDone n close_ok =>
      let c := emit (TToSocks (take (Z.to_nat n) c.(buf))) (set_busy None c.(socks_recv_busy) c) in
      client_socks_send_handler_done c n close_ok
  | SRecvDone data a =>
      LET b <- store 0 data c.(socks_recv_buf) in
      let c := emit (TFromSocks data) (set_recv_buf b (set_busy c.(socks_send_busy) false c)) in
      client_socks_recv_handler_done c (Z.of_nat (length data)) a
  end.

(** [SYNC_COMMIT]: events that are not possible in the state they meet did not
    happen. *)
Fixpoint sync (ins : list socks_input) (c : tcp_client) : option tcp_client :=
  match ins with
  | [] => Some c
  | i :: ins =>
      if socks_input_enabled c i
      then LET c <- socks_input_step c i in sync ins c
      else sync ins c
  end.

(** ** The lwIP callbacks *)

Definition client_recv_func (c : tcp_client) (p : option bytes) (err : err_t)
    (close_ok : bool) (jobs : list socks_input) : option (tcp_client * err_t) :=
  ASSERT negb c.(freed) in
  ASSERT negb c.(client_closed) in
  ASSERT bool_decide (err = ERR_OK) in
  match p with
  | None => LET c <- client_free_client c close_ok in Some (c, ERR_ABRT)
  | Some data =>
      let tot_len := Z.of_nat (length data) in
      ASSERT 0 <? tot_len in
      if TCP_WND - c.(buf_used) <? tot_len then Some (c, ERR_MEM)
      else
        LET b <- store (Z.to_nat c.(buf_used)) data c.(buf) in
        let c := emit (TGot data) (set_buf b (c.(buf_used) + tot_len) c) in
        if (c.(buf_used) =? tot_len) && c.(socks_up) then
          ASSERT negb c.(socks_closed) in
          LET c <- client_send_to_socks c in
          LET c <- sync jobs c in
          if c.(dead_client) then Some (c, ERR_ABRT)
          else Some (emit TPbufFree c, ERR_OK)
        else Some (emit TPbufFree c, ERR_OK)
  end.

Definition client_sent_func (c : tcp_client) (len : Z) (a : send_answers) (close_ok : bool)
    (jobs : list socks_input) : option (tcp_client * err_t) :=
  ASSERT negb c.(freed) in
  ASSERT negb c.(client_closed) in
  ASSERT c.(socks_up) in
  ASSERT 0 <? len in
  ASSERT len <=? c.(socks_recv_tcp_pending) in
  let c := set_recv c.(socks_recv_buf_used) c.(socks_recv_buf_sent) c.(socks_recv_waiting)
             (c.(socks_recv_tcp_pending) - len) c in
  if 0 <? c.(socks_recv_buf_used) then
    ASSERT c.(socks_recv_waiting) in
    ASSERT c.(socks_recv_buf_sent) <? c.(socks_recv_buf_used) in
    let c := set_recv c.(socks_recv_buf_used) c.(socks_recv_buf_sent) false c.(socks_recv_tcp_pending) c in
    LET (c, ok) <- client_socks_recv_send_out c a in
    if negb ok then Some (c, ERR_ABRT)
    else
      ASSERT 0 <? c.(socks_recv_tcp_pending) in
      if (c.(socks_recv_buf_used) =? -1) && negb c.(socks_closed) then
        LET c <- client_socks_recv_initiate c in
        LET c <- sync jobs c in
        if c.(dead_client) then Some (c, ERR_ABRT) else Some (c, ERR_OK)
      else Some (c, ERR_OK)
  else if c.(socks_closed) && (c.(socks_recv_tcp_pending) =? 0) then
    LET c <- client_free_client c close_ok in Some (c, ERR_ABRT)
  else Some (c, ERR_OK).

(** ** Creation

    [listener_accept_func] fills a structure that [malloc] returned with
    arbitrary contents [m]; the SOCKS client's own initialisation is
    [SocksClient.BSocksClient_Init]. *)

(** [username] is set when a username is configured and the source address is
    to be appended to it. *)
Definition concat_source (username : option bytes) (remote : BAddr) : option (option bytes) :=
  match username with
  | None => Some None
  | Some u => LET a <- BAddr_Print remote in Some (Some (u ++ bs "@" ++ a))
  end.

(** The window of a fresh pcb is [TCP_WND]. *)
Definition listener_accept_func (m : tcp_client) (is_ipv6 : bool) (local_ip remote_ip : BIPAddr)
    (local_port remote_port : Z) (err : err_t) (malloc_ok concat_ok socks_ok : bool)
    (username : option bytes) (num : Z) (jobs : list socks_input)
  : option (option tcp_client * err_t) :=
  ASSERT bool_decide (err = ERR_OK) in
  if negb malloc_ok then Some (None, ERR_MEM)
  else
    let local := BAddr_MakeFromIpaddrAndPort local_ip (Words.ByteOrder.hton16 local_port) in
    let remote := BAddr_MakeFromIpaddrAndPort remote_ip (Words.ByteOrder.hton16 remote_port) in
    LET user <- concat_source username remote in
    if match user with Some _ => negb concat_ok | None => false end then Some (None, ERR_MEM)
    else if negb socks_ok then Some (None, ERR_MEM)
    else
      ASSERT 0 <=? num in
      let c := Client local remote (Some (Pcb true true false TCP_WND 0)) false m.(buf) 0 user
                 true false false None false m.(socks_recv_buf) m.(socks_recv_buf_used)
                 m.(socks_recv_buf_sent) m.(socks_recv_waiting) m.(socks_recv_tcp_pending)
                 false false (num + 1) [] in
      LET c <- sync jobs c in
      if c.(dead_client) then Some (Some c, ERR_ABRT) else Some (Some c, ERR_OK).

(** ** Everything that can happen to a client *)

Inductive tcp_input :=
  | IErr
  | IRecv (p : option bytes) (close_ok : bool) (jobs : list socks_input)
  | ISent (len : Z) (a : send_answers) (close_ok : bool) (jobs : list socks_input)
  | ISocks (i : socks_input).

(** lwIP calls a callback while it is set; it confirms bytes that were written;
    a received pbuf is not empty. *)
Definition tcp_input_enabled (c : tcp_client) (i : tcp_input) : bool :=
  match i, c.(pcb) with
  | IErr, Some p => negb c.(freed) && p.(cb_err)
  | IRecv None _ _, Some p => negb c.(freed) && p.(cb_recv)
  | IRecv (Some data) _ _, Some p => negb c.(freed) && p.(cb_recv) && (0 <? Z.of_nat (length data))
  | ISent len a _ _, Some p =>
      negb c.(freed) && p.(cb_sent) && (0 <? len) && (len <=? p.(unacked)) && answers_ok a
  | ISocks i, _ => socks_input_enabled c i
  | _, None => false
  end.

Definition pcb_window (n : Z) (c : tcp_client) : tcp_client :=
  match c.(pcb) with
  | Some p => set_pcb (Some (Pcb p.(cb_err) p.(cb_recv) p.(cb_sent) (p.(wnd) - n) p.(unacked))) c
  | None => c
  end.
Definition pcb_acked (n : Z) (c : tcp_client) : tcp_client :=
  match c.(pcb) with
  | Some p => set_pcb (Some (Pcb p.(cb_err) p.(cb_recv) p.(cb_sent) p.(wnd) (p.(unacked) - n))) c
  | None => c
  end.

Definition tcp_input_step (c : tcp_client) (i : tcp_input) : option tcp_client :=
  match i with
  | IErr => client_err_func (set_pcb None c)
  | IRecv p close_ok jobs =>
      let n := match p with Some data => Z.of_nat (length data) | None => 0 end in
      LET (c', r) <- client_recv_func (pcb_window n c) p ERR_OK close_ok jobs in
      Some (emit (TReturn r) (if bool_decide (r = ERR_MEM) then c else c'))
  | ISent len a close_ok jobs =>
      LET (c', r) <- client_sent_func (pcb_acked len c) len a close_ok jobs in
      Some (emit (TReturn r) c')
  | ISocks i => socks_input_step c i
  end.

Fixpoint tcp_run (c : tcp_client) (ins : list tcp_input) : option tcp_client :=
  match ins with
  | [] => Some c
  | i :: ins =>
      if tcp_input_enabled c i then LET c <- tcp_input_step c i in tcp_run c ins else tcp_run c ins
  end.

(** ** The byte streams of a trace *)

Definition sel (f : tcp_action -> bytes) (l : list tcp_action) : bytes := concat (map f l).
#[global] Arguments sel : simpl never.
(** From the TUN side into [buf], and from [buf] to the SOCKS server. *)
Definition got_from_client := sel (fun a => match a with TGot d => d | _ => [] end).
Definition sent_to_socks := sel (fun a => match a with TToSocks d => d | _ => [] end).
(** From the SOCKS server, and what was handed to lwIP for the TUN side. *)
Definition got_from_socks := sel (fun a => match a with TFromSocks d => d | _ => [] end).
Definition written_to_client := sel (fun a => match a with TWrite d => d | _ => [] end).

(** What is in the two buffers. *)
Definition pending_up (c : tcp_client) : bytes := take (Z.to_nat c.(buf_used)) c.(buf).
Definition pending_down (c : tcp_client) : bytes :=
  if c.(socks_up) && (0 <? c.(socks_recv_buf_used))
  then drop (Z.to_nat c.(socks_recv_buf_sent)) (take (Z.to_nat c.(socks_recv_buf_used)) c.(socks_recv_buf))
  else [].

(** ** Invariant *)

(** What holds of a client that was not deallocated, in the middle of its
    functions too. *)
Record base (c : tcp_client) : Prop := {
  bs_freed : c.(freed) = false;
  bs_num : 0 < c.(num_clients);
  bs_buf : Z.of_nat (length c.(buf)) = TCP_WND;
  bs_rbuf : Z.of_nat (length c.(socks_recv_buf)) = CLIENT_SOCKS_RECV_BUF_SIZE;
  bs_used : 0 <= c.(buf_used) <= TCP_WND;
  bs_socks : c.(socks_client) = negb c.(socks_closed);
  bs_send : match c.(socks_send_busy) with
            | None => c.(socks_up) = false \/ c.(socks_closed) = true \/ c.(buf_used) = 0
            | Some l => c.(socks_up) = true /\ c.(socks_closed) = false /\ 0 < l <= c.(buf_used)
            end;
  bs_recv : c.(socks_recv_busy) = true ->
              c.(socks_up) = true /\ c.(socks_closed) = false /\ c.(socks_recv_buf_used) = -1;
}.

(** The pcb of an open client. *)
Definition pcb_ok (c : tcp_client) (p : tcp_pcb) : Prop :=
  p.(cb_err) = true /\ p.(cb_recv) = negb c.(socks_closed) /\ p.(cb_sent) = c.(socks_up) /\
  p.(wnd) = TCP_WND - c.(buf_used) /\
  (if c.(socks_up) then p.(unacked) = c.(socks_recv_tcp_pending) /\ 0 <= p.(unacked) else p.(unacked) = 0).

(** The state of the direction from SOCKS to the client, when both are there:
    a receive is in progress, or received data waits for lwIP to confirm
    earlier data. *)
Definition down_ok (c : tcp_client) : Prop :=
  (c.(socks_recv_buf_used) = -1 /\ (c.(socks_closed) = false -> c.(socks_recv_busy) = true)) \/
  (0 <= c.(socks_recv_buf_sent) < c.(socks_recv_buf_used) /\
   c.(socks_recv_buf_used) <= CLIENT_SOCKS_RECV_BUF_SIZE /\
   c.(socks_recv_waiting) = true /\ 0 < c.(socks_recv_tcp_pending)).

(** The relation between the two ends, between two events. *)
Record live (c : tcp_client) : Prop := {
  lv_base : base c;
  lv_dead : c.(dead_client) = c.(client_closed);
  lv_ends : if c.(client_closed)
            then c.(pcb) = None /\ c.(socks_closed) = false /\ 0 < c.(buf_used)
            else exists p, c.(pcb) = Some p /\ pcb_ok c p;
  lv_down : c.(client_closed) = false -> c.(socks_up) = true -> down_ok c;
  lv_closed : c.(socks_closed) = true ->
              c.(socks_up) = true /\ (0 < c.(socks_recv_buf_used) \/ 0 < c.(socks_recv_tcp_pending));
}.

(** A deallocated client holds nothing. *)
Definition gone (c : tcp_client) : Prop :=
  c.(freed) = true /\ c.(client_closed) = true /\ c.(socks_closed) = true /\
  c.(pcb) = None /\ c.(socks_client) = false /\ c.(socks_username) = None /\ c.(dead_client) = true /\
  0 <= c.(num_clients).

Definition ok (c : tcp_client) : Prop := live c \/ gone c.

(** No byte is lost, duplicated or reordered: what entered a direction is what
    left it followed by what its buffer holds.  A closed client takes no more
    bytes from the SOCKS side. *)
Definition streams (c : tcp_client) : Prop :=
  got_from_client c.(trace) = sent_to_socks c.(trace) ++ pending_up c /\
  (c.(client_closed) = false -> got_from_socks c.(trace) = written_to_client c.(trace) ++ pending_down c) /\
  written_to_client c.(trace) `prefix_of` got_from_socks c.(trace).

(** [c'] differs from [c] by closing ends only: no byte moved. *)
Record teardown (c c' : tcp_client) : Prop := {
  td_up : pending_up c' = pending_up c;
  td_down : pending_down c' = pending_down c;
  td_open : c.(client_closed) = true -> c'.(client_closed) = true;
  td_s1 : got_from_client c'.(trace) = got_from_client c.(trace);
  td_s2 : sent_to_socks c'.(trace) = sent_to_socks c.(trace);
  td_s3 : got_from_socks c'.(trace) = got_from_socks c.(trace);
  td_s4 : written_to_client c'.(trace) = written_to_client c.(trace);
  td_num : c'.(num_clients) = c.(num_clients) - (if c'.(freed) then 1 else 0);
}.

(** ** Lemmas *)

Lemma sel_app f l1 l2 : sel f (l1 ++ l2) = sel f l1 ++ sel f l2.
Proof. unfold sel. by rewrite map_app, concat_app. Qed.
Lemma sel_one f a : sel f [a] = f a.
Proof. unfold sel. simpl. by rewrite app_nil_r. Qed.

Lemma teardown_streams c c' : teardown c c' -> streams c -> streams c'.
Proof.
  intros [] (H1 & H2 & H3). unfold streams. rewrite td_up0, td_down0, td_s5, td_s6, td_s7, td_s8.
  split; [done|]. split; [|done]. intros Hc. apply H2. destruct (client_closed c); [|done]. by rewrite td_open0 in Hc.
Qed.

(** Solves [teardown] goals on explicit records. *)
Ltac teardown_tac :=
  split; unfold got_from_client, sent_to_socks, got_from_socks, written_to_client; cbn;
  rewrite ?sel_app, ?sel_one; cbn; rewrite ?app_nil_r; try done; try congruence;
  repeat match goal with H : freed _ = _ |- _ => rewrite H end; try lia.

Lemma dealloc_ok c :
  base c -> c.(client_closed) = true -> c.(socks_closed) = true -> c.(pcb) = None ->
  exists c', client_dealloc c = Some c' /\ gone c' /\ teardown c c' /\ c'.(client_closed) = true.
Proof.
  intros [] Hc Hs Hp. unfold client_dealloc. rewrite bs_freed0, Hc, Hs, (proj2 (Z.ltb_lt _ _)) by done.
  eexists. split; [done|]. split; [|split; [teardown_tac|done]].
  unfold gone. cbn. rewrite Hc, Hs, Hp, bs_socks0, Hs. repeat split; lia.
Qed.

Lemma teardown_trans c1 c2 c3 :
  c2.(freed) = false -> teardown c1 c2 -> teardown c2 c3 -> teardown c1 c3.
Proof. intros F [] []. split; try congruence; auto. rewrite F in *. lia. Qed.

(** Freeing the SOCKS side. *)
Lemma free_socks_begin_ok c :
  base c -> c.(socks_closed) = false ->
  (c.(client_closed) = false -> c.(socks_up) = true -> is_Some c.(pcb)) ->
  exists c', client_free_socks_begin c = Some c' /\ base c' /\ c'.(socks_closed) = true /\ teardown c c' /\
    c'.(client_closed) = c.(client_closed) /\ c'.(socks_up) = c.(socks_up) /\
    c'.(socks_recv_buf_used) = c.(socks_recv_buf_used) /\ c'.(socks_recv_tcp_pending) = c.(socks_recv_tcp_pending) /\
    c'.(socks_recv_buf_sent) = c.(socks_recv_buf_sent) /\ c'.(socks_recv_waiting) = c.(socks_recv_waiting) /\
    c'.(buf_used) = c.(buf_used) /\ c'.(dead_client) = c.(dead_client) /\
    c'.(pcb) = (if c.(socks_up) && negb c.(client_closed)
                then (p ← c.(pcb); Some (Pcb p.(cb_err) false p.(cb_sent) p.(wnd) p.(unacked))) else c.(pcb)).
Proof.
  intros Hb Hs Hp. pose proof Hb as []. unfold client_free_socks_begin. rewrite bs_freed0, Hs. cbn [negb].
  assert (forall c0, socks_client c0 = true -> BSocksClient_Free' c0 = Some (emit TSocksFree (set_socks_gone c0))) as HF.
  { intros c0 E. unfold BSocksClient_Free'. by rewrite E. }
  destruct (socks_up c && negb (client_closed c)) eqn:E.
  - to_prop. destruct (Hp H0 H) as [p Ep]. unfold tcp_callbacks. rewrite Ep, HF by (cbn; by rewrite bs_socks0, Hs).
    eexists. split; [done|]. split; [split; cbn; auto; done|]. split; [done|]. split; [teardown_tac|]. repeat split; cbn; rewrite ?Ep; done.
  - rewrite HF by by rewrite bs_socks0, Hs.
    eexists. split; [done|]. split; [split; cbn; auto; done|]. split; [done|]. split; [teardown_tac|]. repeat split; done.
Qed.

Lemma handle_freed_ok c :
  base c -> c.(client_closed) = false -> c.(pcb) = None ->
  exists c', client_handle_freed_client c = Some c' /\ ok c' /\ teardown c c' /\ c'.(client_closed) = true.
Proof.
  intros Hb Hc Hp. pose proof Hb as []. unfold client_handle_freed_client. rewrite bs_freed0, Hc. cbn [negb].
  set (c1 := set_client_closed c).
  assert (base c1) as Hb1 by (by split).
  assert (teardown c c1) as Ht by teardown_tac.
  destruct ((0 <? _) && _) eqn:E.
  { eexists. split; [done|]. to_prop. split; [left|by split]. split; try done. congruence. }
  destruct (socks_closed c1) eqn:Hs; cbn [negb].
  - destruct (dealloc_ok c1 Hb1 eq_refl Hs Hp) as (c2 & E2 & G & T & C). exists c2.
    split; [done|]. split; [by right|]. split; [|done].
    eapply teardown_trans; [|exact Ht|exact T]. done.
  - destruct (free_socks_begin_ok c1 Hb1 Hs) as (c2 & -> & Hb2 & Hs2 & T2 & C2 & _ & _ & _ & _ & _ & _ & _ & P2); [done|].
    assert (pcb c2 = None) as Hp2 by (rewrite P2; cbn; by rewrite andb_false_r).
    destruct (dealloc_ok c2 Hb2 C2 Hs2 Hp2) as (c3 & E3 & G & T & C). exists c3.
    split; [done|]. split; [by right|]. split; [|done].
    eapply teardown_trans; [|exact Ht|]; [done|]. eapply teardown_trans; [|exact T2|exact T]. apply Hb2.
Qed.

Lemma base_pcb p c : base c -> base (set_pcb p c).
Proof. by intros []. Qed.
Lemma base_emit a c : base c -> base (emit a c).
Proof. by intros []. Qed.

Lemma abort_ok c :
  base c -> c.(client_closed) = false -> is_Some c.(pcb) ->
  exists c', client_abort_client c = Some c' /\ ok c' /\ teardown c c' /\ c'.(client_closed) = true.
Proof.
  intros Hb Hc [p Hp]. unfold client_abort_client. rewrite (bs_freed _ Hb), Hc. unfold tcp_callbacks, tcp_abort.
  rewrite Hp. cbn [negb set_pcb pcb].
  match goal with |- context [client_handle_freed_client ?x] => set (c1 := x) end.
  destruct (handle_freed_ok c1) as (c2 & E & O & T & C); [by destruct Hb|done|done|].
  exists c2. split; [done|]. split; [done|]. split; [|done].
  apply (teardown_trans c c1 c2); [by destruct Hb|subst c1; destruct Hb; teardown_tac|exact T].
Qed.

Lemma free_client_ok c k :
  base c -> c.(client_closed) = false -> is_Some c.(pcb) ->
  exists c', client_free_client c k = Some c' /\ ok c' /\ teardown c c' /\ c'.(client_closed) = true.
Proof.
  intros Hb Hc [p Hp]. unfold client_free_client. rewrite (bs_freed _ Hb), Hc. unfold tcp_callbacks, tcp_close, tcp_abort.
  rewrite Hp. cbn [negb set_pcb pcb].
  destruct k; cbn [negb emit set_pcb pcb].
  all: match goal with |- context [client_handle_freed_client ?x] => set (c1 := x) end.
  all: destruct (handle_freed_ok c1) as (c2 & E & O & T & C); [by destruct Hb|done|done|].
  all: exists c2; split; [done|]; split; [done|]; split; [|done].
  all: apply (teardown_trans c c1 c2); [by destruct Hb|subst c1; destruct Hb; teardown_tac|exact T].
Qed.

Lemma free_socks_ok c k :
  live c -> c.(socks_closed) = false ->
  exists c', client_free_socks c k = Some c' /\ ok c' /\ teardown c c'.
Proof.
  intros Hl Hs. pose proof Hl as [Hb Hd He Hdn Hcl]. unfold client_free_socks.
  destruct (free_socks_begin_ok c Hb Hs) as (c1 & -> & Hb1 & Hs1 & T1 & C1 & U1 & R1 & P1 & S1 & W1 & B1 & D1 & Q1).
  { intros E _. rewrite E in He. destruct He as (p & -> & _). done. }
  rewrite U1, R1, P1, C1. destruct (client_closed c) eqn:Hc.
  - rewrite andb_false_r. cbn [negb]. destruct He as (Hp & _ & _).
    destruct (dealloc_ok c1 Hb1 C1 Hs1) as (c2 & E & G & T & _).
    { rewrite Q1, andb_false_r. done. }
    exists c2. split; [done|]. split; [by right|]. eapply teardown_trans; [|exact T1|exact T]. apply Hb1.
  - destruct He as (p & Hp & Hpk). cbn [negb]. rewrite andb_true_r.
    destruct (socks_up c && (_ || _)) eqn:E.
    + exists c1. split; [done|]. split; [left|done]. to_prop. rewrite H in *. cbn in Q1. rewrite Hp in Q1. cbn in Q1.
      destruct Hpk as (K1 & K2 & K3 & K4 & K5). rewrite H in *. split; try done.
      * by rewrite D1, C1.
      * rewrite C1. eexists. split; [exact Q1|]. unfold pcb_ok. cbn. rewrite Hs1, U1, B1, P1. auto.
      * intros _ _. unfold down_ok. rewrite R1, S1, W1, P1, Hs1. destruct (Hdn eq_refl eq_refl) as [[? _]|?]; [left; done|by right].
      * intros _. split; [done|]. rewrite R1, P1. rewrite Z.leb_le, Z.ltb_lt in H0.
        destruct (Hdn eq_refl eq_refl) as [[Hu _]|Hw]; lia.
    + destruct (free_client_ok c1 k Hb1) as (c2 & E2 & O & T & _).
      { congruence. }
      { rewrite Q1, Hp. case_match; by eexists. }
      exists c2. split; [done|]. split; [done|]. eapply teardown_trans; [|exact T1|exact T]. apply Hb1.
Qed.

(** The SOCKS side is freed after a closed client's data was sent. *)
Lemma free_socks_drained c k :
  base c -> c.(socks_closed) = false -> c.(client_closed) = true -> c.(pcb) = None ->
  exists c', client_free_socks c k = Some c' /\ gone c' /\ teardown c c'.
Proof.
  intros Hb Hs Hc Hp. unfold client_free_socks.
  destruct (free_socks_begin_ok c Hb Hs) as (c1 & -> & Hb1 & Hs1 & T1 & C1 & U1 & R1 & P1 & S1 & W1 & B1 & D1 & Q1); [congruence|].
  rewrite C1, Hc, andb_false_r. cbn [negb].
  destruct (dealloc_ok c1 Hb1) as (c2 & E & G & T & _); try done; [congruence| |].
  { rewrite Q1, Hc, andb_false_r. done. }
  exists c2. split; [done|]. split; [done|]. eapply teardown_trans; [|exact T1|exact T]. apply Hb1.
Qed.

(** The outcome of a complete event: a state between events, no byte lost,
    and the counter lowered exactly when the client was deallocated. *)
Definition good (c c' : tcp_client) : Prop :=
  ok c' /\ streams c' /\ c'.(num_clients) = c.(num_clients) - (if c'.(freed) then 1 else 0).

Lemma teardown_good c0 c c' :
  c.(num_clients) = c0.(num_clients) -> streams c -> ok c' -> teardown c c' -> good c0 c'.
Proof.
  intros Hn Hs Ho Ht. split; [done|]. split; [by eapply teardown_streams|]. rewrite <- Hn. apply Ht.
Qed.

Lemma live_good c0 c : c.(num_clients) = c0.(num_clients) -> streams c -> live c -> good c0 c.
Proof. intros Hn Hs Hl. split; [by left|]. split; [done|]. rewrite (bs_freed _ (lv_base _ Hl)). lia. Qed.

Lemma drop_take_split (l : bytes) a k u :
  0 <= a -> 0 <= k -> a + k <= u ->
  drop (Z.to_nat a) (take (Z.to_nat u) l) =
  take (Z.to_nat k) (drop (Z.to_nat a) l) ++ drop (Z.to_nat (a + k)) (take (Z.to_nat u) l).
Proof.
  intros Ha Hk Hu. rewrite <- (take_drop (Z.to_nat k) (drop (Z.to_nat a) (take (Z.to_nat u) l))) at 1.
  f_equal.
  - rewrite skipn_firstn_comm, take_take. f_equal. lia.
  - rewrite drop_drop. f_equal. lia.
Qed.

(** Sending from the front of [buf]. *)
Lemma sent_front c n b :
  streams c -> 0 < n <= c.(buf_used) -> c.(buf_used) <= Z.of_nat (length c.(buf)) ->
  store 0 (take (Z.to_nat (c.(buf_used) - n)) (drop (Z.to_nat n) c.(buf))) c.(buf) = Some b ->
  streams (set_buf b (c.(buf_used) - n) (emit (TToSocks (take (Z.to_nat n) c.(buf))) c)).
Proof.
  intros (H1 & H2 & H3) Hn Hu Hst. pose proof (store_read _ _ _ _ Hst) as Hr. rewrite drop_0 in Hr.
  rewrite length_take, length_drop in Hr.
  unfold streams, pending_up in *. unfold got_from_client, sent_to_socks, got_from_socks, written_to_client in *. cbn.
  rewrite !sel_app, !sel_one, !app_nil_r. split; [|done].
  rewrite H1, <- app_assoc. f_equal.
  rewrite <- (take_drop (Z.to_nat n) (take (Z.to_nat (buf_used c)) (buf c))), take_take, skipn_firstn_comm.
  f_equal; [f_equal; lia|]. replace (Z.to_nat (buf_used c) - Z.to_nat n)%nat with (Z.to_nat (buf_used c - n)) by lia.
  rewrite <- Hr. f_equal. lia.
Qed.

Lemma step_send_done c n k :
  live c -> streams c -> socks_input_enabled c (SSendDone n k) = true ->
  exists c', socks_input_step c (SSendDone n k) = Some c' /\ good c c'.
Proof.
  intros Hl Hs He. pose proof Hl as [Hb Hd Hen Hdn Hcl]. pose proof Hb as [].
  unfold socks_input_enabled in He. to_prop. destruct (socks_send_busy c) as [l|] eqn:Hsb; [|done].
  destruct bs_send0 as (Hup & Hsc & Hl0). to_prop. cbn [socks_input_step].
  set (c1 := emit _ (set_busy _ _ _)). unfold client_socks_send_handler_done.
  change (freed c1) with (freed c). change (socks_closed c1) with (socks_closed c).
  change (socks_up c1) with (socks_up c). change (buf_used c1) with (buf_used c). change (buf c1) with (buf c).
  rewrite bs_freed0, Hsc, Hup. cbn [negb].
  rewrite (proj2 (Z.ltb_lt 0 (buf_used c))), (proj2 (Z.ltb_lt 0 n)), (proj2 (Z.leb_le n _)) by lia.
  destruct (store_total 0 (take (Z.to_nat (buf_used c - n)) (drop (Z.to_nat n) (buf c))) (buf c)) as [b Eb].
  { rewrite length_take, length_drop. lia. }
  rewrite Eb. set (c2 := set_buf b (buf_used c - n) c1).
  assert (streams c2) as Hs2 by (apply (sent_front c n b); done || lia).
  assert (length b = length (buf c)) as Hlb by (by eapply store_length).
  assert (forall s, (match s with None => buf_used c - n = 0 | Some l => 0 < l <= buf_used c - n end) ->
    base (set_busy s (socks_recv_busy c) c2)) as Hbase.
  { intros s Hsn. split; try done; cbn; try lia. destruct s; auto. }
  change (client_closed c2) with (client_closed c). destruct (client_closed c) eqn:Hc; cbn [negb].
  - destruct Hen as (Hp & _ & _). cbn [c2 set_buf buf_used]. destruct (Z.ltb_spec 0 (buf_used c - n)) as [Hpos|Hz].
    + unfold StreamPass_Send. change (socks_client c2) with (socks_client c). rewrite bs_socks0, Hsc.
      rewrite (proj2 (Z.ltb_lt _ _)) by done. cbn. eexists. split; [done|].
      apply live_good; [done|exact Hs2|]. specialize (Hbase (Some (buf_used c - n)) ltac:(simpl; lia)).
      split; try done; cbn; rewrite ?Hc, ?Hp; try done; congruence.
    + change (client_closed c2) with (client_closed c). rewrite Hc.
      destruct (free_socks_drained c2 k) as (c3 & E & G & T); try done; [apply (Hbase None); lia|].
      exists c3. split; [done|]. by apply (teardown_good c c2); [|done|right|].
  - destruct Hen as (p & Hp & Hpk). unfold tcp_recved. change (pcb c2) with (pcb c). rewrite Hp.
    set (p' := Pcb _ _ _ _ _). set (c3 := emit (TRecved n) (set_pcb (Some p') c2)).
    assert (streams c3) as Hs3 by (eapply teardown_streams; [|exact Hs2]; teardown_tac).
    assert (pcb_ok c3 p') as Hpk3.
    { destruct Hpk as (K1 & K2 & K3 & K4 & K5). unfold pcb_ok. cbn. repeat split; try done. lia. }
    change (buf_used c3) with (buf_used c - n). change (client_closed c3) with (client_closed c). rewrite Hc.
    destruct (Z.ltb_spec 0 (buf_used c - n)) as [Hpos|Hz].
    + unfold StreamPass_Send. change (socks_client c3) with (socks_client c). rewrite bs_socks0, Hsc.
      rewrite (proj2 (Z.ltb_lt _ _)) by done. cbn [negb]. change (socks_send_busy c3) with (@None Z). cbn iota.
      eexists. split; [done|].
      apply live_good; [done|exact Hs3|]. destruct (Hbase (Some (buf_used c - n)) ltac:(simpl; lia)).
      split; [by split|by cbn; rewrite Hc|cbn; rewrite Hc; by exists p'|intros _; exact (Hdn eq_refl)|cbn; congruence].
    + eexists. split; [done|]. apply live_good; [done|exact Hs3|]. destruct (Hbase None ltac:(simpl; lia)).
      split; [by split|by cbn; rewrite Hc|cbn; rewrite Hc; by exists p'|intros _; exact (Hdn eq_refl)|cbn; congruence].
Qed.

(** ** From SOCKS to the client *)

(** [c'] is [c] with [k] more bytes of [socks_recv_buf] handed to lwIP. *)
Record wrote (c c' : tcp_client) (k : Z) : Prop := {
  wr_base : base c';
  wr_streams : streams c';
  wr_pcb : forall p, c.(pcb) = Some p ->
    c'.(pcb) = Some (Pcb p.(cb_err) p.(cb_recv) p.(cb_sent) p.(wnd) (p.(unacked) + k));
  wr_k : 0 <= k /\ c.(socks_recv_buf_sent) + k <= c.(socks_recv_buf_used);
  wr_sent : c'.(socks_recv_buf_sent) = c.(socks_recv_buf_sent) + k;
  wr_pend : c'.(socks_recv_tcp_pending) = c.(socks_recv_tcp_pending) + k;
  wr_closed : c'.(client_closed) = c.(client_closed);
  wr_up : c'.(socks_up) = c.(socks_up);
  wr_sclosed : c'.(socks_closed) = c.(socks_closed);
  wr_dead : c'.(dead_client) = c.(dead_client);
  wr_used : c'.(buf_used) = c.(buf_used);
  wr_rused : c'.(socks_recv_buf_used) = c.(socks_recv_buf_used);
  wr_wait : c'.(socks_recv_waiting) = c.(socks_recv_waiting);
  wr_busy : c'.(socks_recv_busy) = c.(socks_recv_busy);
  wr_num : c'.(num_clients) = c.(num_clients);
}.

Lemma wrote_refl c :
  base c -> streams c -> c.(socks_recv_buf_sent) <= c.(socks_recv_buf_used) -> wrote c c 0.
Proof.
  intros Hb Hs Hl. split; try done; try lia. intros [] ->. cbn. by rewrite Z.add_0_r.
Qed.

Lemma wrote_trans c1 c2 c3 k1 k2 : is_Some c1.(pcb) -> wrote c1 c2 k1 -> wrote c2 c3 k2 -> wrote c1 c3 (k1 + k2).
Proof.
  intros [p Hp] [] []. split; try congruence; try done; try lia.
  intros p' Hp'. rewrite (wr_pcb1 _ (wr_pcb0 _ Hp')). cbn. by rewrite Z.add_assoc.
Qed.

(** One successful turn of the loop. *)
Lemma write_once c p k :
  base c -> streams c -> c.(pcb) = Some p -> c.(client_closed) = false -> c.(socks_up) = true ->
  c.(socks_recv_busy) = false -> 0 <= c.(socks_recv_buf_sent) -> 0 < k ->
  c.(socks_recv_buf_sent) + k <= c.(socks_recv_buf_used) -> c.(socks_recv_buf_used) <= CLIENT_SOCKS_RECV_BUF_SIZE ->
  let c1 := set_pcb (Some (Pcb p.(cb_err) p.(cb_recv) p.(cb_sent) p.(wnd) (p.(unacked) + k))) c in
  wrote c (emit (TWrite (take (Z.to_nat k) (drop (Z.to_nat c.(socks_recv_buf_sent)) c.(socks_recv_buf))))
     (set_recv c.(socks_recv_buf_used) (c.(socks_recv_buf_sent) + k) c.(socks_recv_waiting)
        (c.(socks_recv_tcp_pending) + k) c1)) k.
Proof.
  intros Hb (H1 & H2 & H3) Hp Hc Hup Hbusy Hs0 Hk Hle Hsz c1. specialize (H2 Hc).
  assert (0 < socks_recv_buf_used c) as Hpos by lia.
  split; try done; try lia.
  - destruct Hb. by split.
  - unfold streams, pending_down, pending_up in *.
    unfold got_from_client, sent_to_socks, got_from_socks, written_to_client in *. cbn.
    rewrite !sel_app, !sel_one, !app_nil_r. rewrite Hup, (proj2 (Z.ltb_lt 0 _)) in * by done. cbn [andb] in *.
    rewrite (drop_take_split _ _ k) in H2 by lia. rewrite app_assoc in H2.
    split; [done|]. split; [done|]. rewrite H2. by eexists.
  - intros p' E. cbn. congruence.
Qed.

Lemma write_loop_ok ws : forall c,
  base c -> streams c -> is_Some c.(pcb) -> c.(client_closed) = false -> c.(socks_up) = true ->
  c.(socks_recv_busy) = false -> 0 <= c.(socks_recv_buf_sent) < c.(socks_recv_buf_used) ->
  c.(socks_recv_buf_used) <= CLIENT_SOCKS_RECV_BUF_SIZE -> forallb (fun w => 0 <=? fst w) ws = true ->
  exists c' b k, write_loop ws c = Some (c', b) /\ wrote c c' k.
Proof.
  induction ws as [|[sb e] ws IH]; intros c Hb Hs Hp Hc Hup Hbusy Hsent Hsz Hws.
  { exists c, true, 0. split; [done|]. apply wrote_refl; done || lia. }
  cbn in Hws. to_prop. cbn [write_loop].
  set (k := Z.min (socks_recv_buf_used c - socks_recv_buf_sent c) sb). destruct (Z.eqb_spec k 0) as [|Hk].
  { exists c, true, 0. split; [done|]. apply wrote_refl; done || lia. }
  destruct e; try (eexists c, _, 0; split; [done|]; apply wrote_refl; done || lia).
  destruct Hp as [p Hp]. rewrite Hp. rewrite (proj2 (Z.leb_le _ _)) by (rewrite (bs_rbuf _ Hb); lia).
  pose proof (write_once c p k Hb Hs Hp Hc Hup Hbusy ltac:(lia) ltac:(lia) ltac:(lia) Hsz) as Hw. cbv zeta in Hw.
  cbn [socks_recv_buf_used socks_recv_buf_sent socks_recv_waiting socks_recv_tcp_pending set_pcb].
  set (c1 := emit _ _) in *. change (socks_recv_buf_sent c1) with (socks_recv_buf_sent c + k).
  change (socks_recv_buf_used c1) with (socks_recv_buf_used c).
  destruct (Z.ltb_spec (socks_recv_buf_sent c + k) (socks_recv_buf_used c)).
  - destruct (IH c1) as (c2 & b & k2 & E & Hw2); try done; try apply Hw.
    { change (0 <= socks_recv_buf_sent c + k < socks_recv_buf_used c). lia. }
    exists c2, b, (k + k2). split; [done|]. by eapply wrote_trans.
  - by exists c1, true, k.
Qed.

(** The whole of [client_socks_recv_send_out]: either the client was aborted,
    or the direction is in order again. *)
Lemma send_out_ok c a p :
  base c -> streams c -> c.(pcb) = Some p -> pcb_ok c p -> c.(client_closed) = false -> c.(socks_up) = true ->
  c.(socks_recv_busy) = false -> c.(dead_client) = false ->
  0 <= c.(socks_recv_buf_sent) < c.(socks_recv_buf_used) -> c.(socks_recv_buf_used) <= CLIENT_SOCKS_RECV_BUF_SIZE ->
  c.(socks_recv_waiting) = false -> answers_ok a = true ->
  exists c' b, client_socks_recv_send_out c a = Some (c', b) /\
    if b : bool then
      base c' /\ streams c' /\ (exists p', c'.(pcb) = Some p' /\ pcb_ok c' p') /\ c'.(client_closed) = false /\
      c'.(socks_up) = true /\ c'.(socks_closed) = c.(socks_closed) /\ c'.(socks_recv_busy) = false /\
      c'.(dead_client) = false /\ c'.(num_clients) = c.(num_clients) /\ 0 < c'.(socks_recv_tcp_pending) /\
      (c'.(socks_recv_buf_used) = -1 \/
       (0 <= c'.(socks_recv_buf_sent) < c'.(socks_recv_buf_used) /\
        c'.(socks_recv_buf_used) <= CLIENT_SOCKS_RECV_BUF_SIZE /\ c'.(socks_recv_waiting) = true))
    else good c c' /\ c'.(client_closed) = true.
Proof.
  intros Hb Hs Hp Hpk Hc Hup Hbusy Hd Hsent Hsz Hw Ha. unfold client_socks_recv_send_out.
  rewrite (bs_freed _ Hb), Hc, Hup, Hw. rewrite (proj2 (Z.ltb_lt 0 _)), (proj2 (Z.ltb_lt _ (socks_recv_buf_used c))) by lia.
  cbn [negb]. destruct (write_loop_ok (writes a) c) as (c1 & b & k & -> & W); try done.
  destruct W as [Wb Ws Wp Wk Wse Wpe Wc Wu Wsc Wd Wbu Wru Ww Wbz Wn]. specialize (Wp p Hp).
  assert (forall (q : option tcp_client), exists c' b', (LET c <- client_abort_client c1 in Some (c, false)) = Some (c', b') /\
    b' = false /\ good c c' /\ client_closed c' = true) as Habort.
  { intros _. destruct (abort_ok c1 Wb) as (c2 & -> & O & T & C); [congruence|by rewrite Wp|].
    exists c2, false. split; [done|]. split; [done|]. split; [|done]. by eapply teardown_good. }
  destruct b; cbn [negb]; [|destruct (Habort None) as (c2 & b2 & E & -> & H); by exists c2, false].
  destruct (bool_decide (output a = ERR_OK)); cbn [negb]; [|destruct (Habort None) as (c2 & b2 & E & -> & H); by exists c2, false].
  destruct Hpk as (K1 & K2 & K3 & K4 & K5). rewrite Hup in K5. destruct K5 as [K5 K6].
  assert (pcb_ok c1 (Pcb (cb_err p) (cb_recv p) (cb_sent p) (wnd p) (unacked p + k))) as Hpk1.
  { unfold pcb_ok. cbn. rewrite Wsc, Wu, Hup, Wbu, Wpe. repeat split; try congruence; lia. }
  destruct (Z.ltb_spec (socks_recv_buf_sent c1) (socks_recv_buf_used c1)).
  - destruct (Z.eqb_spec (socks_recv_tcp_pending c1) 0); [destruct (Habort None) as (c2 & b2 & E & -> & H2); by exists c2, false|].
    eexists _, true. split; [done|].
    split; [destruct Wb; by split|]. split; [exact Ws|]. split; [eexists; split; [exact Wp|exact Hpk1]|].
    cbn. repeat split; try congruence; lia.
  - eexists _, true. split; [done|]. split; [destruct Wb; split; try done; cbn; congruence|].
    split.
    { destruct Ws as (S1 & S2 & S3). split; [exact S1|]. split; [|exact S3]. intros Hcl. specialize (S2 Hcl).
      unfold pending_down in S2 |- *. cbn. rewrite andb_false_r.
      rewrite Wu, Hup, (proj2 (Z.ltb_lt 0 _)) in S2 by lia. cbn [andb] in S2.
      rewrite drop_ge in S2 by (rewrite length_take; lia). done. }
    split; [eexists; split; [exact Wp|exact Hpk1]|]. cbn. repeat split; try congruence; lia.
Qed.

(** After a successful [client_socks_recv_send_out] the next receive is
    started unless data waits. *)
Lemma recv_resume c p :
  base c -> streams c -> c.(pcb) = Some p -> pcb_ok c p -> c.(client_closed) = false -> c.(socks_up) = true ->
  c.(socks_closed) = false -> c.(socks_recv_busy) = false -> c.(dead_client) = false -> c.(socks_recv_buf_used) = -1 ->
  exists c', client_socks_recv_initiate c = Some c' /\ live c' /\ streams c' /\ c'.(num_clients) = c.(num_clients).
Proof.
  intros Hb Hs Hp Hpk Hc Hup Hsc Hbz Hd Hu. unfold client_socks_recv_initiate, StreamRecv_Recv.
  rewrite (bs_freed _ Hb), Hc, Hsc, Hup, Hu, (bs_socks _ Hb), Hsc, Hbz. cbn. eexists. split; [done|].
  split; [|by split]. split; cbn.
  - destruct Hb. split; try done.
  - congruence.
  - rewrite Hc. eauto.
  - intros _ _. left. done.
  - congruence.
Qed.

Lemma live_waiting c p :
  base c -> c.(pcb) = Some p -> pcb_ok c p -> c.(client_closed) = false -> c.(socks_up) = true ->
  c.(dead_client) = false -> 0 < c.(socks_recv_tcp_pending) ->
  (c.(socks_recv_buf_used) = -1 /\ (c.(socks_closed) = false -> c.(socks_recv_busy) = true) \/
   (0 <= c.(socks_recv_buf_sent) < c.(socks_recv_buf_used) /\
    c.(socks_recv_buf_used) <= CLIENT_SOCKS_RECV_BUF_SIZE /\ c.(socks_recv_waiting) = true)) -> live c.
Proof.
  intros Hb Hp Hpk Hc Hup Hd Hpos Hcase. split; try done; [congruence|rewrite Hc; eauto| |].
  - intros _ _. destruct Hcase as [?|(? & ? & ?)]; [by left|by right].
  - intros _. split; [done|]. by right.
Qed.

(** A received chunk is put at the start of [socks_recv_buf]. *)
Lemma received_streams c data b :
  streams c -> c.(client_closed) = false -> c.(socks_up) = true -> c.(socks_recv_buf_used) = -1 ->
  (0 < length data)%nat -> store 0 data c.(socks_recv_buf) = Some b ->
  streams (set_recv (Z.of_nat (length data)) 0 false c.(socks_recv_tcp_pending)
    (emit (TFromSocks data) (set_recv_buf b (set_busy c.(socks_send_busy) false c)))).
Proof.
  intros (H1 & H2 & H3) Hc Hup Hu Hl Hst. specialize (H2 Hc). pose proof (store_read _ _ _ _ Hst) as Hr. rewrite drop_0 in Hr.
  unfold streams, pending_up, pending_down in *.
  unfold got_from_client, sent_to_socks, got_from_socks, written_to_client in *. cbn.
  rewrite !sel_app, !sel_one, !app_nil_r. rewrite Hup, Hu in *. cbn in H2. rewrite app_nil_r in H2. cbn [andb].
  rewrite (proj2 (Z.ltb_lt 0 _)) by lia. rewrite Nat2Z.id, Hr, drop_0.
  split; [done|]. split; [by rewrite H2|]. destruct H3 as [t E]. rewrite E. exists (t ++ data). by rewrite app_assoc.
Qed.

Lemma step_recv_done c data a :
  live c -> streams c -> socks_input_enabled c (SRecvDone data a) = true ->
  exists c', socks_input_step c (SRecvDone data a) = Some c' /\ good c c'.
Proof.
  intros Hl Hs He. pose proof Hl as [Hb Hd Hen Hdn Hcl]. unfold socks_input_enabled in He. to_prop.
  destruct (bs_recv _ Hb H0) as (Hup & Hsc & Hu). cbn [socks_input_step].
  destruct (store_total 0 data (socks_recv_buf c)) as [b Eb].
  { pose proof (bs_rbuf _ Hb). lia. }
  rewrite Eb. pose proof (store_length _ _ _ _ Eb) as Hlb.
  set (c1 := emit _ _). unfold client_socks_recv_handler_done.
  change (freed c1) with (freed c). change (socks_closed c1) with (socks_closed c).
  change (socks_up c1) with (socks_up c). change (socks_recv_buf_used c1) with (socks_recv_buf_used c).
  change (client_closed c1) with (client_closed c). change (socks_recv_tcp_pending c1) with (socks_recv_tcp_pending c).
  rewrite (bs_freed _ Hb), Hsc, Hup, Hu. rewrite (proj2 (Z.ltb_lt _ _)), (proj2 (Z.leb_le _ _)) by lia. cbn [negb].
  assert (base c1) as Hb1.
  { destruct Hb. split; try done. cbn. by rewrite Hlb. }
  destruct (client_closed c) eqn:Hc.
  - (* the client is closed: the bytes are dropped *)
    eexists. split; [done|]. apply live_good; [done| |].
    + destruct Hs as (S1 & S2 & S3). unfold streams, pending_up in *.
      unfold got_from_client, sent_to_socks, got_from_socks, written_to_client in *. cbn.
      rewrite !sel_app, !sel_one, !app_nil_r. split; [done|]. split; [congruence|].
      destruct S3 as [t E]. rewrite E. exists (t ++ data). by rewrite app_assoc.
    + split; try done; cbn; rewrite ?Hc; try done; congruence.
  - destruct Hen as (p & Hp & Hpk). set (c2 := set_recv _ _ _ _ c1).
    assert (streams c2) as Hs2 by (apply received_streams; done || lia).
    destruct (send_out_ok c2 a p) as (c3 & r & -> & Hr); try done.
    { destruct Hb1. by split. }
    destruct r; cbn [negb].
    2:{ exists c3. split; [done|]. by destruct Hr as [Hr _]. }
    destruct Hr as (Hb3 & Hs3 & (p3 & Hp3 & Hpk3) & Hc3 & Hu3 & Hsc3 & Hbz3 & Hd3 & Hn3 & Hpos3 & Hcase).
    destruct (Z.eqb_spec (socks_recv_buf_used c3) (-1)) as [Hu1|Hu1].
    + destruct (recv_resume c3 p3) as (c4 & -> & Hl4 & Hs4 & Hn4); try done; [by rewrite Hsc3|].
      exists c4. split; [done|]. apply live_good; [by rewrite Hn4, Hn3|done|done].
    + exists c3. split; [done|]. apply live_good; [done|done|]. eapply live_waiting; eauto.
      right. by destruct Hcase.
Qed.

Lemma live_num c : live c -> c.(freed) = false.
Proof. intros H. apply (bs_freed _ (lv_base _ H)). Qed.

(** Recording a call that moves no byte. *)
Definition neutral (a : tcp_action) : Prop :=
  match a with TGot _ | TToSocks _ | TFromSocks _ | TWrite _ => False | _ => True end.

Lemma emit_live c a : live c -> live (emit a c).
Proof. intros [Hb ? ? ? ?]. split; try done. by destruct Hb. Qed.

Lemma emit_streams c a : neutral a -> streams c -> streams (emit a c).
Proof.
  intros Ha (S1 & S2 & S3). unfold streams, pending_up, pending_down in *.
  unfold got_from_client, sent_to_socks, got_from_socks, written_to_client in *. cbn.
  rewrite !sel_app, !sel_one. by destruct a; try done; rewrite !app_nil_r.
Qed.

Lemma emit_good c c' a : neutral a -> good c c' -> good c (emit a c').
Proof.
  intros Ha (O & S & N). split; [|split; [by apply emit_streams|done]].
  destruct O as [L|G]; [left; by apply emit_live|right; exact G].
Qed.

Lemma step_handler c ev k :
  live c -> streams c -> socks_input_enabled c (SEvent ev k) = true ->
  exists c', client_socks_handler c ev k = Some c' /\ good c c'.
Proof.
  intros Hl Hs He. pose proof Hl as [Hb Hd Hen Hdn Hcl]. unfold socks_input_enabled in He. to_prop.
  assert (socks_closed c = false) as Hsc by (rewrite (bs_socks _ Hb) in H1; by apply negb_true_iff in H1).
  assert (exists c', client_free_socks c k = Some c' /\ good c c') as Hfree.
  { destruct (free_socks_ok c k Hl Hsc) as (c' & -> & O & T). exists c'. split; [done|]. by eapply teardown_good. }
  unfold client_socks_handler. rewrite (bs_freed _ Hb), Hsc. cbn [negb].
  destruct ev; [done| |rewrite H0; done].
  (* up *)
  rewrite H0, H1. apply negb_true_iff in H0.
  set (c1 := set_recv _ _ _ _ _).
  assert (streams (set_up c1)) as Hs1.
  { destruct Hs as (S1 & S2 & S3). unfold streams, pending_up, pending_down in *. cbn.
    rewrite H0 in S2. cbn in S2. by split. }
  change (client_closed c1) with (client_closed c).
  destruct (client_closed c) eqn:Hc; cbn [negb].
  - destruct Hen as (Hp & _ & Hpos). change (buf_used (set_up c1)) with (buf_used c).
    rewrite (proj2 (Z.ltb_lt _ _)) by done. unfold client_send_to_socks, StreamPass_Send. cbn.
    rewrite (bs_freed _ Hb), Hsc, H1, (proj2 (Z.ltb_lt _ _)) by done. cbn. rewrite Hc. cbn [negb].
    eexists. split; [done|]. apply live_good; [done|exact Hs1|].
    split; cbn; rewrite ?Hc; try done; try congruence. destruct Hb. split; try done; cbn; try done; repeat split; try done; lia.
  - destruct Hen as (p & Hp & Hpk). unfold tcp_callbacks. change (pcb c1) with (pcb c). rewrite Hp.
    set (p' := Pcb _ _ _ _ _). set (c2 := set_up _).
    assert (exists c3, (if 0 <? buf_used c2 then client_send_to_socks c2 else Some c2) = Some c3 /\ base c3 /\
      streams c3 /\ pcb c3 = Some p' /\ pcb_ok c3 p' /\ client_closed c3 = false /\ socks_up c3 = true /\ socks_closed c3 = false /\
      socks_recv_busy c3 = false /\ dead_client c3 = false /\ socks_recv_buf_used c3 = -1 /\ num_clients c3 = num_clients c)
      as (c3 & -> & Hb3 & Hs3 & Hp3 & Hpk3 & Hc3 & Hu3 & Hsc3 & Hbz3 & Hd3 & Hr3 & Hn3).
    { assert (pcb_ok c2 p') as Hpk2.
      { destruct Hpk as (K1 & K2 & K3 & K4 & K5). rewrite H0 in K5. unfold pcb_ok. cbn. repeat split; try done; lia. }
      change (buf_used c2) with (buf_used c). destruct (Z.ltb_spec 0 (buf_used c)).
      - unfold client_send_to_socks, StreamPass_Send. cbn. rewrite (bs_freed _ Hb), Hsc, H1, (proj2 (Z.ltb_lt _ _)) by done.
        eexists. split; [done|]. split.
        { destruct Hb. split; try done; cbn; try done; repeat split; try done; lia. }
        repeat split; try done; apply Hpk2 || apply Hs1.
      - eexists. split; [done|]. split.
        { destruct Hb. split; try done; cbn; try done. right. right. lia. }
        repeat split; try done; apply Hpk2 || apply Hs1. }
    rewrite Hc3. destruct (recv_resume c3 p') as (c4 & -> & Hl4 & Hs4 & Hn4); try done.
    exists c4. split; [done|]. apply live_good; congruence.
Qed.

Lemma step_event c ev k :
  live c -> streams c -> socks_input_enabled c (SEvent ev k) = true ->
  exists c', socks_input_step c (SEvent ev k) = Some c' /\ good c c'.
Proof.
  intros Hl Hs He. apply (step_handler (emit (TReport ev) c)); [by apply emit_live|by apply emit_streams|exact He].
Qed.

Lemma step_socks c i :
  live c -> streams c -> socks_input_enabled c i = true -> exists c', socks_input_step c i = Some c' /\ good c c'.
Proof. destruct i; eauto using step_event, step_send_done, step_recv_done. Qed.

(** ** Jobs and callbacks *)

Lemma sync_gone ins : forall c, c.(freed) = true -> sync ins c = Some c.
Proof.
  induction ins as [|i ins IH]; intros c Hf; [done|]. cbn [sync]. unfold socks_input_enabled. rewrite Hf. cbn. by apply IH.
Qed.

Lemma good_trans c1 c2 c3 : c2.(freed) = false -> good c1 c2 -> good c2 c3 -> good c1 c3.
Proof. intros F (_ & _ & N1) (O & S & N2). split; [done|]. split; [done|]. rewrite F in N1. lia. Qed.

Lemma sync_ok ins : forall c, live c -> streams c -> exists c', sync ins c = Some c' /\ good c c'.
Proof.
  induction ins as [|i ins IH]; intros c Hl Hs.
  { exists c. split; [done|]. by apply live_good. }
  cbn [sync]. destruct (socks_input_enabled c i) eqn:He; [|by apply IH].
  destruct (step_socks c i Hl Hs He) as (c1 & -> & Hg). destruct Hg as ([Hl1|Hg1] & Hs1 & Hn1).
  - destruct (IH c1 Hl1 Hs1) as (c2 & -> & Hg2). exists c2. split; [done|].
    rewrite (live_num _ Hl1) in Hn1.
    apply (good_trans c c1 c2); [by apply live_num|apply live_good; done || lia|done].
  - exists c1. split; [by apply sync_gone, Hg1|]. split; [by right|]. done.
Qed.

Lemma step_err c :
  live c -> streams c -> tcp_input_enabled c IErr = true -> exists c', tcp_input_step c IErr = Some c' /\ good c c'.
Proof.
  intros Hl Hs He. pose proof Hl as [Hb Hd Hen Hdn Hcl]. cbn in He. destruct (pcb c) as [p|] eqn:Hp; [|done].
  assert (client_closed c = false) as Hc by (destruct (client_closed c); [by destruct Hen|done]).
  cbn [tcp_input_step]. unfold client_err_func. cbn. rewrite (bs_freed _ Hb), Hc. cbn [negb].
  destruct (handle_freed_ok (set_pcb None c)) as (c1 & E & O & T & _); [by apply base_pcb|done|done|].
  exists c1. split; [done|]. by apply (teardown_good c (set_pcb None c)).
Qed.

(** The state after data was copied into [buf]. *)
Lemma copied_streams c data b :
  streams c -> 0 <= c.(buf_used) <= Z.of_nat (length c.(buf)) ->
  store (Z.to_nat c.(buf_used)) data c.(buf) = Some b ->
  streams (emit (TGot data) (set_buf b (c.(buf_used) + Z.of_nat (length data)) c)).
Proof.
  intros (H1 & H2 & H3) Hu Hst. unfold streams, pending_up in *.
  unfold got_from_client, sent_to_socks, got_from_socks, written_to_client in *. cbn.
  rewrite !sel_app, !sel_one, !app_nil_r. split; [|done]. rewrite H1, <- app_assoc. f_equal.
  unfold store in Hst. run_inv. subst b. to_prop.
  rewrite app_assoc, take_app_le by (rewrite length_app, length_take; lia).
  symmetry. apply take_ge. rewrite length_app, length_take. lia.
Qed.

Lemma tcp_step_recv c q k jobs :
  live c -> streams c -> tcp_input_enabled c (IRecv q k jobs) = true ->
  exists c', tcp_input_step c (IRecv q k jobs) = Some c' /\ good c c'.
Proof.
  intros Hl Hs He. pose proof Hl as [Hb Hd Hen Hdn Hcl]. cbn [tcp_input_enabled] in He.
  destruct (pcb c) as [p|] eqn:Hp; [|by destruct q].
  assert (client_closed c = false) as Hc by (destruct (client_closed c); [by destruct Hen|done]).
  rewrite Hc in Hen. destruct Hen as (p0 & E0 & Hpk). injection E0 as <-.
  cbn [tcp_input_step]. unfold client_recv_func, pcb_window. rewrite Hp.
  set (n := match q with Some data => Z.of_nat (length data) | None => 0 end).
  set (p' := Pcb _ _ _ (wnd p - n) _). set (c1 := set_pcb (Some p') c).
  change (freed c1) with (freed c). change (client_closed c1) with (client_closed c).
  rewrite (bs_freed _ Hb), Hc. cbn [negb]. rewrite bool_decide_eq_true_2 by done.
  destruct q as [data|].
  2:{ destruct (free_client_ok c1 k) as (c2 & -> & O & T & _); [by apply base_pcb|done|by eexists|].
      eexists. split; [done|]. rewrite bool_decide_eq_false_2 by done. apply emit_good; [done|].
      by apply (teardown_good c c1). }
  to_prop. destruct Hpk as (K1 & K2 & K3 & K4 & K5). rewrite H1 in K2. symmetry in K2. apply negb_true_iff in K2.
  rewrite (proj2 (Z.ltb_lt 0 _)) by done.
  change (buf_used c1) with (buf_used c). change (buf c1) with (buf c).
  destruct (Z.ltb_spec (TCP_WND - buf_used c) (Z.of_nat (length data))).
  { eexists. split; [done|]. rewrite bool_decide_eq_true_2 by done. apply emit_good; [done|]. by apply live_good. }
  pose proof (bs_used _ Hb) as Hu. pose proof (bs_buf _ Hb) as Hbl.
  destruct (store_total (Z.to_nat (buf_used c)) data (buf c)) as [b Eb]; [lia|].
  rewrite Eb. pose proof (store_length _ _ _ _ Eb) as Hlb.
  set (c2 := emit (TGot data) _).
  assert (streams c2) as Hs2 by (apply (copied_streams c data b); done || lia).
  change (buf_used c2) with (buf_used c + Z.of_nat (length data)). change (socks_up c2) with (socks_up c).
  change (socks_closed c2) with (socks_closed c). rewrite K2. cbn [negb].
  assert (pcb_ok c2 p') as Hpk2.
  { unfold pcb_ok. cbn [p' cb_err cb_recv cb_sent wnd unacked c2 c1 emit set_buf set_pcb socks_closed socks_up buf_used
      socks_recv_tcp_pending]. rewrite K2. unfold n. repeat split; try done; lia. }
  (* the state once a send is in progress, or none is needed *)
  assert (forall s, match s with
                    | None => socks_up c = false
                    | Some l => socks_up c = true /\ 0 < l <= buf_used c + Z.of_nat (length data)
                    end -> live (set_busy s (socks_recv_busy c) c2)) as Hlive.
  { intros s Hsn. split; [|cbn; congruence|cbn; rewrite Hc; by exists p'|exact Hdn|cbn; congruence].
    destruct Hb. split; try done; cbn; try lia. destruct s; auto. naive_solver. }
  destruct (Z.eqb_spec (buf_used c + Z.of_nat (length data)) (Z.of_nat (length data))) as [Hz|Hz].
  - cbn [andb]. destruct (socks_up c) eqn:Hup.
    + unfold client_send_to_socks, StreamPass_Send. cbn [c2 emit set_buf freed socks_closed socks_up buf_used c1 set_pcb
        socks_client socks_send_busy socks_recv_busy].
      rewrite (bs_freed _ Hb), K2, Hup, (bs_socks _ Hb), K2.
      rewrite (proj2 (Z.ltb_lt 0 (buf_used c + Z.of_nat (length data)))) by lia. cbn [negb].
      assert (socks_send_busy c = None) as Hsb.
      { pose proof (bs_send _ Hb) as Hsd. destruct (socks_send_busy c); [|done]. lia. }
      rewrite Hsb. destruct (sync_ok jobs _ (Hlive (Some (buf_used c + Z.of_nat (length data))) ltac:(split; [done|lia])) Hs2)
        as (c3 & E3 & Hg3). change (set_busy _ _ _) with (set_busy (Some (buf_used c + Z.of_nat (length data))) (socks_recv_busy c) c2).
      rewrite E3. destruct (dead_client c3).
      * eexists. split; [done|]. rewrite bool_decide_eq_false_2 by done. by apply emit_good.
      * eexists. split; [done|]. rewrite bool_decide_eq_false_2 by done. apply emit_good; [done|]. by apply emit_good.
    + eexists. split; [done|]. rewrite bool_decide_eq_false_2 by done. apply emit_good; [done|]. apply emit_good; [done|].
      apply live_good; [done|done|]. specialize (Hlive None eq_refl).
      assert (socks_send_busy c = None) as Hsb.
      { pose proof (bs_send _ Hb) as Hsd. destruct (socks_send_busy c); [|done]. destruct Hsd; congruence. }
      replace c2 with (set_busy None (socks_recv_busy c) c2); [done|]. rewrite <- Hsb. done.
  - cbn [andb]. eexists. split; [done|]. rewrite bool_decide_eq_false_2 by done. apply emit_good; [done|]. apply emit_good; [done|].
    apply live_good; [done|done|]. replace c2 with (set_busy (socks_send_busy c) (socks_recv_busy c) c2) by done.
    apply Hlive. pose proof (bs_send _ Hb) as Hsd. destruct (socks_send_busy c); [naive_solver lia|].
    destruct Hsd as [?|[?|?]]; [done|congruence|lia].
Qed.

Lemma tcp_step_sent c len a k jobs :
  live c -> streams c -> tcp_input_enabled c (ISent len a k jobs) = true ->
  exists c', tcp_input_step c (ISent len a k jobs) = Some c' /\ good c c'.
Proof.
  intros Hl Hs He. pose proof Hl as [Hb Hd Hen Hdn Hcl]. cbn [tcp_input_enabled] in He.
  destruct (pcb c) as [p|] eqn:Hp; [|done].
  assert (client_closed c = false) as Hc by (destruct (client_closed c); [by destruct Hen|done]).
  rewrite Hc in Hen, Hd. destruct Hen as (p0 & E0 & Hpk). injection E0 as <-. to_prop.
  destruct Hpk as (K1 & K2 & K3 & K4 & K5). assert (socks_up c = true) as Hup by congruence. rewrite Hup in K5.
  destruct K5 as [K5 K6]. specialize (Hdn Hc Hup).
  cbn [tcp_input_step]. unfold client_sent_func, pcb_acked. rewrite Hp.
  set (p' := Pcb _ _ _ _ _). set (c1 := set_pcb (Some p') c).
  change (freed c1) with (freed c). change (client_closed c1) with (client_closed c). change (socks_up c1) with (socks_up c).
  change (socks_recv_tcp_pending c1) with (socks_recv_tcp_pending c).
  rewrite (bs_freed _ Hb), Hc, Hup, (proj2 (Z.ltb_lt 0 len)), (proj2 (Z.leb_le len _)) by lia. cbn [negb].
  set (c2 := set_recv _ _ _ _ c1). change (socks_recv_buf_used c2) with (socks_recv_buf_used c).
  assert (base c2) as Hb2 by (destruct Hb; by split).
  assert (streams c2) as Hs2 by exact Hs.
  assert (pcb_ok c2 p') as Hpk2.
  { unfold pcb_ok. cbn [p' cb_err cb_recv cb_sent wnd unacked c2 c1 set_recv set_pcb socks_closed socks_up buf_used
      socks_recv_tcp_pending]. rewrite Hup. repeat split; try done; lia. }
  destruct Hdn as [[Hu Hbz]|(Hse & Hsz & Hw & Hpe)].
  - rewrite Hu. cbn [Z.ltb]. cbn [Z.compare]. change (socks_closed c2) with (socks_closed c).
    change (socks_recv_tcp_pending c2) with (socks_recv_tcp_pending c - len).
    destruct (socks_closed c && _) eqn:E.
    + destruct (free_client_ok c2 k Hb2 Hc) as (c3 & -> & O & T & _); [by eexists|].
      eexists. split; [done|]. apply emit_good; [done|]. by apply (teardown_good c c2).
    + eexists. split; [done|]. apply emit_good; [done|]. apply live_good; [done|done|].
      split; [done|cbn; congruence|cbn; rewrite Hc; by exists p'|by left|].
      intros Hsc. split; [done|]. right. cbn in Hsc |- *. rewrite Hsc in E. cbn [andb] in E. apply Z.eqb_neq in E. lia.
  - rewrite (proj2 (Z.ltb_lt 0 _)) by lia. change (socks_recv_waiting c2) with (socks_recv_waiting c). rewrite Hw.
    change (socks_recv_buf_sent c2) with (socks_recv_buf_sent c). rewrite (proj2 (Z.ltb_lt (socks_recv_buf_sent c) _)) by lia.
    set (c3 := set_recv _ _ _ _ c2).
    assert (socks_recv_busy c = false) as Hbz.
    { destruct (socks_recv_busy c) eqn:E; [|done]. destruct (bs_recv _ Hb E) as (_ & _ & ?). lia. }
    destruct (send_out_ok c3 a p') as (c4 & r & -> & Hr); try done; [destruct Hb2; by split|].
    destruct r; cbn [negb].
    2:{ eexists. split; [done|]. apply emit_good; [done|]. by destruct Hr. }
    destruct Hr as (Hb4 & Hs4 & (p4 & Hp4 & Hpk4) & Hc4 & Hu4 & Hsc4 & Hbz4 & Hd4 & Hn4 & Hpos4 & Hcase).
    rewrite (proj2 (Z.ltb_lt 0 _)) by done.
    destruct (Z.eqb_spec (socks_recv_buf_used c4) (-1)) as [Hu1|Hu1]; [destruct (socks_closed c4) eqn:Hscl|]; cbn [negb andb].
    + eexists. split; [done|]. apply emit_good; [done|]. apply live_good; [done|done|].
      eapply live_waiting; eauto.
    + destruct (recv_resume c4 p4) as (c5 & -> & Hl5 & Hs5 & Hn5); try done.
      destruct (sync_ok jobs c5 Hl5 Hs5) as (c6 & -> & Hg6).
      assert (good c c6) as Hg.
      { apply (good_trans c c5 c6); [by apply live_num|apply live_good; [|done|done]|done]. by rewrite Hn5, Hn4. }
      destruct (dead_client c6); (eexists; split; [done|]; by apply emit_good).
    + eexists. split; [done|]. apply emit_good; [done|]. apply live_good; [done|done|].
      eapply live_waiting; eauto; right; by destruct Hcase.
Qed.

Lemma step_tcp c i :
  live c -> streams c -> tcp_input_enabled c i = true -> exists c', tcp_input_step c i = Some c' /\ good c c'.
Proof. destruct i; eauto using step_err, tcp_step_recv, tcp_step_sent, step_socks. Qed.

Lemma run_gone ins : forall c, gone c -> tcp_run c ins = Some c.
Proof.
  induction ins as [|i ins IH]; intros c G; [done|]. cbn [tcp_run].
  assert (tcp_input_enabled c i = false) as ->; [|by apply IH].
  destruct G as (F & _ & _ & P & S & _). unfold tcp_input_enabled, socks_input_enabled. rewrite P, F.
  by destruct i as [|[]| |]; cbn.
Qed.

Lemma run_ok ins : forall c, live c -> streams c -> exists c', tcp_run c ins = Some c' /\ good c c'.
Proof.
  induction ins as [|i ins IH]; intros c Hl Hs.
  { exists c. split; [done|]. by apply live_good. }
  cbn [tcp_run]. destruct (tcp_input_enabled c i) eqn:He; [|by apply IH].
  destruct (step_tcp c i Hl Hs He) as (c1 & -> & Hg). destruct Hg as ([Hl1|Hg1] & Hs1 & Hn1).
  - destruct (IH c1 Hl1 Hs1) as (c2 & -> & Hg2). exists c2. split; [done|]. rewrite (live_num _ Hl1) in Hn1.
    apply (good_trans c c1 c2); [by apply live_num|apply live_good; done || lia|done].
  - exists c1. split; [by apply run_gone|]. split; [by right|done].
Qed.

(** ** Data accepted from the client is only given up when SOCKS fails *)

Definition failed (l : list tcp_action) : bool :=
  existsb (fun a => match a with
    | TReport BSOCKSCLIENT_EVENT_ERROR | TReport BSOCKSCLIENT_EVENT_ERROR_CLOSED => true
    | _ => false end) l.

(** The SOCKS side is given up with an empty buffer or after it failed, and
    then the buffer is left alone. *)
Record acct (c c' : tcp_client) : Prop := {
  ac_trace : c.(trace) `prefix_of` c'.(trace);
  ac_close : c'.(socks_closed) = true ->
             c.(socks_closed) = true \/ failed c'.(trace) = true \/ c'.(buf_used) <= 0;
  ac_keep : c.(socks_closed) = true -> c'.(socks_closed) = true /\ c'.(buf_used) = c.(buf_used);
}.

Lemma failed_prefix l1 l2 : l1 `prefix_of` l2 -> failed l1 = true -> failed l2 = true.
Proof. intros [l ->] H. unfold failed in *. by rewrite existsb_app, H. Qed.

Lemma acct_refl c : acct c c.
Proof. by split; auto. Qed.

Lemma acct_trans c1 c2 c3 : acct c1 c2 -> acct c2 c3 -> acct c1 c3.
Proof.
  intros [T1 C1 K1] [T2 C2 K2]. split; [by etrans| |].
  - intros H. destruct (C2 H) as [H2|?]; [|auto]. destruct (C1 H2) as [?|[F|U]]; [auto| |].
    + right. left. by eapply failed_prefix.
    + right. right. destruct (K2 H2). lia.
  - intros H. destruct (K1 H) as [H2 E]. destruct (K2 H2). split; [done|congruence].
Qed.

Ltac acct_tac := split; cbn; [first [done | by eexists] | auto | auto].

Lemma acct_emit a c : acct c (emit a c).
Proof. acct_tac. Qed.
Lemma acct_pcb p c : acct c (set_pcb p c).
Proof. acct_tac. Qed.
Lemma acct_closed c : acct c (set_client_closed c).
Proof. acct_tac. Qed.
Lemma acct_busy s r c : acct c (set_busy s r c).
Proof. acct_tac. Qed.
Lemma acct_rbuf b c : acct c (set_recv_buf b c).
Proof. acct_tac. Qed.
Lemma acct_recv u sn w p c : acct c (set_recv u sn w p c).
Proof. acct_tac. Qed.
Lemma acct_up c : acct c (set_up c).
Proof. acct_tac. Qed.
Lemma acct_freed n c : acct c (set_freed n c).
Proof. acct_tac. Qed.

(** Opens one more function of a successful run. *)
Ltac open_run :=
  repeat match goal with
  | H : None = Some _ |- _ => discriminate H
  | H : Some (_, _) = Some (_, _) |- _ => injection H as <- <-
  | H : Some _ = Some _ |- _ => injection H as <-
  | H : (if ?b then _ else None) = Some _ |- _ => destruct b eqn:?; [|discriminate H]
  | H : (match ?e with Some _ => _ | None => None end) = Some _ |- _ =>
      destruct e eqn:?; [|discriminate H]
  | H : (let '(_, _) := ?p in _) = Some _ |- _ => destruct p
  | H : (if ?b then _ else _) = Some _ |- _ => destruct b eqn:?
  end.

Create HintDb acct.
#[local] Hint Resolve acct_refl acct_emit acct_pcb acct_closed acct_busy acct_rbuf acct_recv acct_up acct_freed : acct.

Lemma acct_dealloc c c' : client_dealloc c = Some c' -> acct c c'.
Proof. unfold client_dealloc. intros. open_run. by auto with acct. Qed.

Lemma acct_callbacks e r sn c c' : tcp_callbacks e r sn c = Some c' -> acct c c'.
Proof. unfold tcp_callbacks. intros. open_run. by auto with acct. Qed.

Lemma acct_abort c c' : tcp_abort c = Some c' -> acct c c'.
Proof. unfold tcp_abort. intros. open_run. eapply acct_trans; [apply acct_pcb|apply acct_emit]. Qed.

Lemma acct_free_socks_begin c c' :
  client_free_socks_begin c = Some c' -> failed c.(trace) = true \/ c.(buf_used) <= 0 -> acct c c'.
Proof.
  unfold client_free_socks_begin, BSocksClient_Free', tcp_callbacks. intros E H. open_run; to_prop.
  all: split; cbn; [by eexists| |congruence].
  all: intros _; right; destruct H as [H|H]; [left|by right]; eapply failed_prefix; [|exact H]; by eexists.
Qed.

Lemma acct_handle_freed c c' : client_handle_freed_client c = Some c' -> acct c c'.
Proof.
  unfold client_handle_freed_client. intros E. open_run; to_prop.
  - by auto with acct.
  - eapply acct_trans; [|by eapply acct_dealloc]. eapply acct_trans; [apply acct_closed|].
    eapply acct_free_socks_begin; [done|]. right. destruct Heqb1 as [?|?]; to_prop; [done|congruence].
  - eapply acct_trans; [apply acct_closed|by eapply acct_dealloc].
Qed.

Lemma acct_abort_client c c' : client_abort_client c = Some c' -> acct c c'.
Proof.
  unfold client_abort_client. intros E. open_run.
  eapply acct_trans; [by eapply acct_callbacks|]. eapply acct_trans; [by eapply acct_abort|by apply acct_handle_freed].
Qed.

Lemma acct_free_client c k c' : client_free_client c k = Some c' -> acct c c'.
Proof.
  unfold client_free_client, tcp_close. intros E. open_run; cbn in *; open_run.
  all: eapply acct_trans; [by eapply acct_callbacks|]; eapply acct_trans; [|by eapply acct_handle_freed].
  all: first [by eapply acct_abort | eapply acct_trans; [apply acct_pcb|apply acct_emit]].
Qed.

Lemma acct_free_socks c k c' :
  client_free_socks c k = Some c' -> failed c.(trace) = true \/ c.(buf_used) <= 0 -> acct c c'.
Proof.
  unfold client_free_socks. intros E H. open_run;
    (eapply acct_trans; [by eapply acct_free_socks_begin|]);
    first [apply acct_refl | by eapply acct_free_client | by eapply acct_dealloc].
Qed.

Lemma acct_initiate c c' : client_socks_recv_initiate c = Some c' -> acct c c'.
Proof. unfold client_socks_recv_initiate, StreamRecv_Recv. intros. open_run. by auto with acct. Qed.

Lemma acct_send_to_socks c c' : client_send_to_socks c = Some c' -> acct c c'.
Proof. unfold client_send_to_socks, StreamPass_Send. intros. open_run. by auto with acct. Qed.

Lemma acct_write_loop ws : forall c c' b, write_loop ws c = Some (c', b) -> acct c c'.
Proof.
  induction ws as [|[sb e] ws IH]; intros c c' b E; cbn [write_loop] in E; [open_run; by auto with acct|].
  open_run; [by auto with acct|]. destruct e; open_run; try (by auto with acct).
  - apply IH in E. eapply acct_trans; [|exact E]. eapply acct_trans; [apply acct_pcb|]. eapply acct_trans; [apply acct_recv|].
    apply acct_emit.
  - eapply acct_trans; [apply acct_pcb|]. eapply acct_trans; [apply acct_recv|]. apply acct_emit.
Qed.

Lemma acct_send_out c a c' b : client_socks_recv_send_out c a = Some (c', b) -> acct c c'.
Proof.
  unfold client_socks_recv_send_out. intros E. open_run;
    (eapply acct_trans; [by eapply acct_write_loop|]);
    first [by eapply acct_abort_client | by auto with acct].
Qed.

(** [client_socks_send_handler_done] runs while the SOCKS side is there. *)
Lemma acct_send_done c n k c' :
  client_socks_send_handler_done c n k = Some c' -> acct c c'.
Proof.
  unfold client_socks_send_handler_done. intros E.
  destruct (negb (freed c)); [|done]. destruct (negb (socks_closed c)) eqn:Hsc; [|done]. apply negb_true_iff in Hsc.
  destruct (socks_up c), (0 <? buf_used c), (0 <? n), (n <=? buf_used c); try done.
  destruct (store _ _ _) as [b|]; [|done].
  assert (acct c (set_buf b (buf_used c - n) c)) as A0 by (split; cbn; [done|congruence|congruence]).
  set (c1 := set_buf b (buf_used c - n) c) in *. eapply acct_trans; [exact A0|]. clear A0.
  destruct (if negb (client_closed c1) then tcp_recved n c1 else Some c1) as [c2|] eqn:E2; [|done].
  assert (acct c1 c2) as A1.
  { clear E. unfold tcp_recved in E2. open_run; [|by auto with acct]. eapply acct_trans; [apply acct_pcb|apply acct_emit]. }
  eapply acct_trans; [exact A1|]. clear E2. unfold StreamPass_Send in E. open_run; to_prop; try (by auto with acct).
  eapply acct_free_socks; [done|]. by right.
Qed.

Lemma acct_handler_up c k c' :
  client_socks_handler c BSOCKSCLIENT_EVENT_UP k = Some c' -> acct c c'.
Proof.
  unfold client_socks_handler. intros E. destruct (negb (freed c)), (negb (socks_closed c)), (negb (socks_up c)), (socks_client c); try done.
  set (c1 := set_recv _ _ _ _ _) in E.
  assert (acct c c1) as A1 by (eapply acct_trans; [apply acct_busy|apply acct_recv]).
  eapply acct_trans; [exact A1|]. clearbody c1. clear A1.
  destruct (if negb (client_closed c1) then _ else _) as [c2|] eqn:E2; [|done].
  assert (acct c1 c2) as A2 by (clear E; destruct (negb (client_closed c1)); [by eapply acct_callbacks|open_run; by auto with acct]).
  eapply acct_trans; [exact A2|]. eapply acct_trans; [apply acct_up|]. clear A2 E2. set (c3 := set_up c2) in *. clearbody c3.
  destruct (if 0 <? buf_used c3 then _ else _) as [c4|] eqn:E4; [|done].
  assert (acct c3 c4) as A4 by (clear E; destruct (0 <? buf_used c3); [by eapply acct_send_to_socks|open_run; by auto with acct]).
  eapply acct_trans; [exact A4|]. clear E4. open_run; [by eapply acct_initiate|by auto with acct].
Qed.

Lemma acct_socks_step c i c' : socks_input_step c i = Some c' -> acct c c'.
Proof.
  destruct i as [ev k|n k|data a]; cbn [socks_input_step]; intros E.
  - eapply acct_trans; [apply (acct_emit (TReport ev))|].
    assert (ev <> BSOCKSCLIENT_EVENT_UP -> failed (trace (emit (TReport ev) c)) = true) as HF.
    { intros He. unfold failed. cbn. rewrite existsb_app. apply orb_true_iff. right. by destruct ev. }
    destruct ev; [| by eapply acct_handler_up|]; unfold client_socks_handler in E; open_run;
      (eapply acct_free_socks; [done|left; by apply HF]).
  - eapply acct_trans; [apply acct_busy|]. eapply acct_trans; [apply acct_emit|]. by eapply acct_send_done.
  - destruct (store _ _ _) as [b|]; [|done]. eapply acct_trans; [apply acct_busy|]. eapply acct_trans; [apply acct_rbuf|].
    eapply acct_trans; [apply acct_emit|]. unfold client_socks_recv_handler_done in E. open_run; try (by auto with acct).
    all: eapply acct_trans; [apply acct_recv|]; eapply acct_trans; [by eapply acct_send_out|].
    all: first [by eapply acct_initiate | by auto with acct].
Qed.

Lemma acct_sync ins : forall c c', sync ins c = Some c' -> acct c c'.
Proof.
  induction ins as [|i ins IH]; intros c c' E; cbn [sync] in E; open_run; [by auto with acct| |by apply IH].
  eapply acct_trans; [by eapply acct_socks_step|by apply IH].
Qed.

Lemma acct_window n c : acct c (pcb_window n c).
Proof. unfold pcb_window. destruct (pcb c); by auto with acct. Qed.
Lemma acct_acked n c : acct c (pcb_acked n c).
Proof. unfold pcb_acked. destruct (pcb c); by auto with acct. Qed.

(** Every enabled event accounts for the data. *)
Lemma acct_step c i c' :
  live c -> tcp_input_enabled c i = true -> tcp_input_step c i = Some c' -> acct c c'.
Proof.
  intros Hl He E. destruct i as [|q k jobs|len a k jobs|i]; cbn [tcp_input_step] in E.
  - eapply acct_trans; [apply acct_pcb|]. unfold client_err_func in E. open_run. by eapply acct_handle_freed.
  - assert (socks_closed c = false \/ q = None) as Hq.
    { destruct q; [|by right]. cbn in He. destruct (pcb c) as [p|] eqn:Hp; [|done]. to_prop. left.
      pose proof (lv_ends _ Hl) as Hen. destruct (client_closed c); [destruct Hen; congruence|].
      destruct Hen as (p0 & E0 & _ & K & _). rewrite Hp in E0. injection E0 as <-. rewrite H1 in K.
      by destruct (socks_closed c). }
    destruct (client_recv_func _ q ERR_OK k jobs) as [[c1 r]|] eqn:E1; [|done]. injection E as <-.
    eapply acct_trans; [|apply acct_emit]. destruct (bool_decide (r = ERR_MEM)); [by auto with acct|].
    eapply acct_trans; [apply (acct_window (match q with Some data => Z.of_nat (length data) | None => 0 end))|].
    assert (socks_closed (pcb_window (match q with Some data => Z.of_nat (length data) | None => 0 end) c) = false \/ q = None)
      as Hq1 by (unfold pcb_window; by destruct (pcb c)).
    set (c0 := pcb_window _ c) in *. clearbody c0. unfold client_recv_func in E1.
    destruct (negb (freed c0)), (negb (client_closed c0)), (bool_decide (ERR_OK = ERR_OK)); try done.
    destruct q as [data|]; [|open_run; by eapply acct_free_client].
    destruct Hq1 as [Hq1|]; [|done]. destruct (0 <? _); [|done].
    destruct (_ <? Z.of_nat (length data)); [open_run; by auto with acct|].
    destruct (store _ _ _) as [b|]; [|done].
    assert (acct c0 (emit (TGot data) (set_buf b (buf_used c0 + Z.of_nat (length data)) c0))) as A
      by (split; cbn; [by eexists|congruence|congruence]).
    eapply acct_trans; [exact A|]. clear A. set (c2 := emit _ _) in *. clearbody c2.
    open_run; try (eapply acct_trans; [|apply acct_emit]); try (by auto with acct);
      (eapply acct_trans; [by eapply acct_send_to_socks|by eapply acct_sync]).
  - destruct (client_sent_func _ len a k jobs) as [[c1 r]|] eqn:E1; [|done]. injection E as <-.
    eapply acct_trans; [|apply acct_emit]. eapply acct_trans; [apply (acct_acked len)|]. set (c0 := pcb_acked len c) in *.
    clearbody c0. unfold client_sent_func in E1.
    destruct (negb (freed c0)), (negb (client_closed c0)), (socks_up c0), (0 <? len); try done.
    destruct (len <=? _); [|done].
    set (c2 := set_recv _ _ _ _ c0) in E1. apply (acct_trans _ c2); [apply acct_recv|]. clearbody c2.
    destruct (0 <? socks_recv_buf_used c2).
    + destruct (socks_recv_waiting c2); [|done]. destruct (_ <? _); [|done].
      destruct (client_socks_recv_send_out _ a) as [[c3 b3]|] eqn:E3; [|done]. apply acct_send_out in E3.
      eapply acct_trans; [eapply acct_trans; [apply acct_recv|exact E3]|]. open_run; try (by auto with acct);
        (eapply acct_trans; [by eapply acct_initiate|by eapply acct_sync]).
    + open_run; [by eapply acct_free_client|by auto with acct].
  - by eapply acct_socks_step.
Qed.

Lemma acct_run ins : forall c c', live c -> streams c -> tcp_run c ins = Some c' -> acct c c'.
Proof.
  induction ins as [|i ins IH]; intros c c' Hl Hs E; cbn [tcp_run] in E; [open_run; by auto with acct|].
  destruct (tcp_input_enabled c i) eqn:He; [|by apply IH].
  destruct (step_tcp c i Hl Hs He) as (c1 & E1 & O & S1 & _). rewrite E1 in E.
  eapply acct_trans; [by eapply acct_step|]. destruct O as [L1|G1]; [by apply IH|].
  rewrite run_gone in E by done. injection E as <-. by auto with acct.
Qed.

(** The memory [malloc] returns has the size of the structure. *)
Definition raw_ok (m : tcp_client) : Prop :=
  Z.of_nat (length m.(buf)) = TCP_WND /\ Z.of_nat (length m.(socks_recv_buf)) = CLIENT_SOCKS_RECV_BUF_SIZE.

Lemma accept_ok m v6 lip rip lp rp mo co so user num jobs :
  raw_ok m -> 0 <= num ->
  BAddr_wf (BAddr_MakeFromIpaddrAndPort rip (Words.ByteOrder.hton16 rp)) ->
  exists r e, listener_accept_func m v6 lip rip lp rp ERR_OK mo co so user num jobs = Some (r, e) /\
    match r with
    | None => e = ERR_MEM
    | Some c => ok c /\ streams c /\ c.(num_clients) = num + 1 - (if c.(freed) then 1 else 0) /\
        (e = ERR_OK \/ e = ERR_ABRT)
    end.
Proof.
  intros [Hb Hr] Hn Hwf. unfold listener_accept_func. rewrite bool_decide_eq_true_2 by done.
  destruct mo; cbn [negb]; [|by exists None, ERR_MEM].
  assert (exists u, concat_source user (BAddr_MakeFromIpaddrAndPort rip (Words.ByteOrder.hton16 rp)) = Some u) as [u ->].
  { unfold concat_source. destruct user; [|by eexists].
    destruct rip as [|ip|ip]; cbn [BAddr_MakeFromIpaddrAndPort] in *; [by eexists|by eexists|].
    unfold BAddr_MakeIPv6, BAddr_Print, BIPAddr_InitIPv6 in *. cbn [BAddr_wf] in Hwf. destruct Hwf as [[_ Hl] _].
    destruct (print_ipv6_text (take 16 (take 16 ip))) as (s & -> & _); [rewrite take_take; exact Hl|]. by eexists. }
  destruct (match u with Some _ => negb co | None => false end); [by exists None, ERR_MEM|].
  destruct so; cbn [negb]; [|by exists None, ERR_MEM].
  rewrite (proj2 (Z.leb_le 0 num)) by done.
  match goal with |- context [sync jobs ?x] => set (c := x) end.
  assert (live c) as Hl.
  { split; cbn; try done; [|exists (Pcb true true false TCP_WND 0); split; [done|]; unfold pcb_ok; cbn; repeat split; lia].
    split; cbn; try done; try lia. }
  destruct (sync_ok jobs c Hl) as (c1 & -> & O & S & N).
  { split; [done|]. split; [done|]. by apply prefix_nil. }
  destruct (dead_client c1); (eexists (Some c1), _; split; [done|]; auto).
Qed.

(** A client that was accepted and then went through any sequence of events. *)
Definition reachable (c : tcp_client) : Prop :=
  exists m v6 lip rip lp rp user num jobs ins c0 e,
    raw_ok m /\ 0 <= num /\ BAddr_wf (BAddr_MakeFromIpaddrAndPort rip (Words.ByteOrder.hton16 rp)) /\
    listener_accept_func m v6 lip rip lp rp ERR_OK true true true user num jobs = Some (Some c0, e) /\
    tcp_run c0 ins = Some c.

Lemma reachable_good c : reachable c -> ok c /\ streams c.
Proof.
  intros (m & v6 & lip & rip & lp & rp & user & num & jobs & ins & c0 & e & Hm & Hn & Hw & Ha & Hr).
  destruct (accept_ok m v6 lip rip lp rp true true true user num jobs Hm Hn Hw) as (r & e' & E & H).
  rewrite Ha in E. injection E as <- <-. destruct H as ([Hl|Hg] & Hs & _ & _).
  - destruct (run_ok ins c0 Hl Hs) as (c' & E' & O & S & _). rewrite Hr in E'. by injection E' as <-.
  - rewrite run_gone in Hr by done. injection Hr as <-. split; [by right|done].
Qed.

Lemma fresh_acct m v6 lip rip lp rp user num jobs c e :
  raw_ok m -> 0 <= num ->
  listener_accept_func m v6 lip rip lp rp ERR_OK true true true user num jobs = Some (Some c, e) ->
  c.(socks_closed) = true -> failed c.(trace) = true \/ c.(buf_used) <= 0.
Proof.
  intros Hm Hn Ha Hc. unfold listener_accept_func in Ha. rewrite bool_decide_eq_true_2 in Ha by done. cbn [negb] in Ha.
  destruct (concat_source user _) as [u|]; [|done].
  replace (match u with Some _ => false | None => false end) with false in Ha by (by destruct u). cbn iota in Ha.
  destruct (0 <=? num); [|done].
  destruct (sync jobs _) as [c1|] eqn:E; [|done]. apply acct_sync in E. destruct E as [_ E _]. cbn in E.
  destruct (dead_client c1); injection Ha as <- <-; destruct (E Hc) as [?|?]; done.
Qed.

End TcpClient.
Import TcpClient.

(** C5: the two ends of a client close in any order without a failed
    assertion, a use of freed memory or a leak.  From an accepted client
    (whatever [malloc] left in the structure), every sequence of lwIP
    callbacks, SOCKS events and jobs runs through; the client is then either
    alive, with its resources matching its two ends, or it was deallocated, and
    then the pcb, the SOCKS client, the username and the structure were all
    released. *)
Theorem client_safe m v6 lip rip lp rp mo co so user num jobs ins :
  raw_ok m -> 0 <= num ->
  BAddr_wf (BAddr_MakeFromIpaddrAndPort rip (Words.ByteOrder.hton16 rp)) ->
  exists r e, listener_accept_func m v6 lip rip lp rp ERR_OK mo co so user num jobs = Some (r, e) /\
    forall c, r = Some c ->
      exists c', tcp_run c ins = Some c' /\ (live c' \/ gone c') /\
        c'.(num_clients) = num + 1 - (if c'.(freed) then 1 else 0).
Proof.
  intros Hm Hn Hw. destruct (accept_ok m v6 lip rip lp rp mo co so user num jobs Hm Hn Hw) as (r & e & E & H).
  exists r, e. split; [done|]. intros c ->. destruct H as ([Hl|Hg] & Hs & Hnum & _).
  - destruct (run_ok ins c Hl Hs) as (c' & -> & O & _ & N). exists c'. split; [done|]. split; [done|].
    rewrite (live_num _ Hl) in Hnum. lia.
  - exists c. split; [by apply run_gone|]. split; [by right|done].
Qed.

(** C4: bytes cross a client unchanged in both directions.  At any time what
    lwIP delivered is what the SOCKS connection took followed by the contents
    of [buf]; while the client is open, what came from the SOCKS server is
    what was handed to lwIP followed by the rest of [socks_recv_buf]; and what
    was handed to lwIP is always a prefix of what came from the server. *)
Theorem client_streams c :
  reachable c ->
  got_from_client c.(trace) = sent_to_socks c.(trace) ++ pending_up c /\
  (c.(client_closed) = false -> got_from_socks c.(trace) = written_to_client c.(trace) ++ pending_down c) /\
  written_to_client c.(trace) `prefix_of` got_from_socks c.(trace).
Proof. intros H. by apply reachable_good in H as [_ H]. Qed.

(** C6: a client that closes does not lose what it sent.  When a client has
    been deallocated and its SOCKS side never reported an error or a close,
    every byte lwIP delivered was taken by the SOCKS connection, even those
    buffered when the client closed or was reset. *)
Theorem client_drains c :
  reachable c -> c.(freed) = true -> failed c.(trace) = false ->
  sent_to_socks c.(trace) = got_from_client c.(trace).
Proof.
  intros Hreach Hf Hnf. destruct (reachable_good c Hreach) as [O (S1 & _)].
  destruct Hreach as (m & v6 & lip & rip & lp & rp & user & num & jobs & ins & c0 & e & Hm & Hn & Hw & Ha & Hr).
  destruct O as [Hl|G]; [rewrite (live_num _ Hl) in Hf; done|]. destruct G as (_ & _ & Hsc & _).
  assert (buf_used c <= 0) as Hu.
  { destruct (accept_ok m v6 lip rip lp rp true true true user num jobs Hm Hn Hw) as (r & e' & E & H).
    rewrite Ha in E. injection E as <- <-. destruct H as ([Hl|Hg] & Hs & _).
    - destruct (acct_run ins c0 c Hl Hs Hr) as [Ht Hcl Hk]. destruct (Hcl Hsc) as [Hc0|[F|?]]; [|congruence|done].
      destruct (fresh_acct _ _ _ _ _ _ _ _ _ _ _ Hm Hn Ha Hc0) as [F|U].
      + by rewrite (failed_prefix _ _ Ht F) in Hnf.
      + destruct (Hk Hc0). lia.
    - rewrite run_gone in Hr by done. injection Hr as <-.
      destruct (fresh_acct _ _ _ _ _ _ _ _ _ _ _ Hm Hn Ha Hsc); [congruence|done]. }
  rewrite S1. unfold pending_up. replace (Z.to_nat (buf_used c)) with 0%nat by lia. by rewrite take_0, app_nil_r.
Qed.

(** C7: no wake-up is lost.  A client that was not deallocated always waits for
    something that happens: before its SOCKS client is up, that one is there and
    not closed, to report an event; while it is up, data waiting for the SOCKS
    server is being sent, of which there is some if the client has closed, and
    if the client is open a receive is in progress, or the received data waits
    for lwIP to confirm bytes that are still unconfirmed, with the callback that
    resumes installed; and after the SOCKS side has closed, lwIP has bytes of
    the client to confirm and that callback is installed. *)
Theorem client_no_stall c :
  reachable c -> c.(freed) = false ->
  (c.(socks_up) = false -> c.(socks_client) = true /\ c.(socks_closed) = false) /\
  (c.(socks_up) = true -> c.(socks_closed) = false ->
     (0 < c.(buf_used) -> is_Some c.(socks_send_busy)) /\
     (if c.(client_closed) then 0 < c.(buf_used) else
        c.(socks_recv_busy) = true \/
        exists p, c.(pcb) = Some p /\ p.(cb_sent) = true /\ 0 < p.(unacked) /\ 0 < c.(socks_recv_buf_used))) /\
  (c.(socks_closed) = true -> exists p, c.(pcb) = Some p /\ p.(cb_sent) = true /\ 0 < p.(unacked)).
Proof.
  intros Hr Hf. destruct (reachable_good c Hr) as [[Hl|G] _]; [|by destruct G as [G _]; rewrite G in Hf].
  destruct Hl as [Hb Hd Hen Hdn Hcl]. split; [|split].
  - intros Hup. assert (socks_closed c = false) as Hs by (destruct (socks_closed c); [destruct (Hcl eq_refl); congruence|done]).
    split; [|done]. by rewrite (bs_socks _ Hb), Hs.
  - intros Hup Hsc. split.
    + intros Hu. pose proof (bs_send _ Hb) as H. destruct (socks_send_busy c); [by eexists|]. destruct H as [H|[H|H]]; [congruence|congruence|lia].
    + destruct (client_closed c); [by destruct Hen as (_ & _ & ?)|]. destruct Hen as (p & Hp & _ & _ & K3 & _ & K5). rewrite Hup in K5.
      destruct (Hdn eq_refl Hup) as [[_ H]|(H1 & _ & _ & H2)]; [left; by apply H|]. right. exists p. repeat split; try congruence; lia.
  - intros Hsc. destruct (Hcl Hsc) as [Hup Hw]. destruct (client_closed c); [by destruct Hen as (_ & ? & _); congruence|].
    destruct Hen as (p & Hp & _ & _ & K3 & _ & K5). rewrite Hup in K3, K5. exists p. split; [done|]. split; [done|].
    destruct (Hdn eq_refl Hup) as [[H _]|(_ & _ & _ & H)]; lia.
Qed.

(** The receive buffer is as large as the window it promises.  [buf] never
    holds more than [TCP_WND] bytes, and data that fits the window lwIP still
    advertises is always accepted: the "no buffer" error path is not taken. *)
Theorem client_window c p data k jobs :
  reachable c -> tcp_input_enabled c (IRecv (Some data) k jobs) = true ->
  c.(pcb) = Some p -> Z.of_nat (length data) <= p.(wnd) ->
  c.(buf_used) + Z.of_nat (length data) <= TCP_WND /\
  exists c' r, client_recv_func (pcb_window (Z.of_nat (length data)) c) (Some data) ERR_OK k jobs = Some (c', r) /\
    (r = ERR_OK \/ r = ERR_ABRT).
Proof.
  intros Hr He Hp Hlen. destruct (reachable_good c Hr) as [[Hl|G] Hs].
  2:{ destruct G as (F & _ & _ & P & _). congruence. }
  destruct (step_tcp c _ Hl Hs He) as (c2 & E & _). cbn [tcp_input_step] in E.
  pose proof (lv_ends _ Hl) as Hen. destruct (client_closed c); [destruct Hen; congruence|].
  destruct Hen as (p0 & Hp0 & _ & _ & _ & K4 & _). rewrite Hp in Hp0. injection Hp0 as <-.
  split; [lia|]. destruct (client_recv_func _ _ _ _ _) as [[c' r]|] eqn:E1; [|done]. exists c', r. split; [done|].
  unfold client_recv_func, pcb_window in E1. rewrite Hp in E1. cbn [buf_used set_pcb] in E1.
  destruct (Z.ltb_spec (TCP_WND - buf_used c) (Z.of_nat (length data))); [lia|].
  repeat case_match; simplify_eq; auto.
Qed.

(** A session: three bytes arrive before the SOCKS side is up, two are sent,
    the server answers, the client closes, the last byte is sent. *)
Definition raw_memory : tcp_client :=
  Client BAddr_None BAddr_None None true (repeat 170 (Z.to_nat TCP_WND)) 99 None false true true (Some 3) true
    (repeat 187 (Z.to_nat CLIENT_SOCKS_RECV_BUF_SIZE)) 7 8 true 9 true true 0 [].
Definition accepted (jobs : list socks_input) : option (option tcp_client * err_t) :=
  listener_accept_func raw_memory false (BIPAddr_IPv4 16909060) (BIPAddr_IPv4 33554442) 80 40000 ERR_OK
    true true true (Some (bs "user")) 4 jobs.
Definition get_client (r : option (option tcp_client * err_t)) : tcp_client :=
  match r with Some (Some c, _) => c | _ => raw_memory end.
Definition session_start : tcp_client := get_client (accepted []).
Definition session_open : list tcp_input :=
  [IRecv (Some [1; 2; 3]) true [];
   ISocks (SEvent BSOCKSCLIENT_EVENT_UP true);
   ISocks (SSendDone 2 true);
   ISocks (SRecvDone [9; 8; 7; 6] (Answers [(3, ERR_OK); (0, ERR_OK)] ERR_OK))].
Definition session_close : list tcp_input := [IRecv None true []; ISocks (SSendDone 1 true)].
Definition run_or (c : tcp_client) (ins : list tcp_input) : tcp_client :=
  match tcp_run c ins with Some c' => c' | None => raw_memory end.

Lemma session_reachable ins :
  tcp_run session_start ins = Some (run_or session_start ins) -> reachable (run_or session_start ins).
Proof.
  intros H. exists raw_memory, false, (BIPAddr_IPv4 16909060), (BIPAddr_IPv4 33554442), 80, 40000, (Some (bs "user")), 4, [],
    ins, session_start, ERR_OK.
  split; [split; vm_compute; reflexivity|]. split; [lia|]. split; [vm_compute; intuition congruence|].
  split; [vm_compute; reflexivity|exact H].
Qed.

Lemma client_safe_witness :
  exists c', tcp_run session_start (session_open ++ session_close) = Some c' /\ (live c' \/ gone c') /\
    c'.(freed) = true /\ c'.(num_clients) = 4.
Proof.
  destruct (client_safe raw_memory false (BIPAddr_IPv4 16909060) (BIPAddr_IPv4 33554442) 80 40000 true true true
    (Some (bs "user")) 4 [] (session_open ++ session_close)) as (r & e & E & H).
  - split; vm_compute; reflexivity.
  - lia.
  - vm_compute. intuition congruence.
  - assert (r = Some session_start) as ->.
    { assert (Some (r, e) = Some (Some session_start, ERR_OK)) as X by (rewrite <- E; vm_compute; reflexivity). by injection X. }
    destruct (H session_start eq_refl) as (c' & Ec & O & N). exists c'. split; [exact Ec|]. split; [exact O|].
    assert (freed c' = true) as F.
    { assert (option_map freed (Some c') = Some true) as X by (rewrite <- Ec; vm_compute; reflexivity). by injection X. }
    split; [exact F|]. rewrite N, F. reflexivity.
Defined.

Lemma client_streams_witness :
  let c := run_or session_start session_open in
  sent_to_socks c.(trace) = [1; 2] /\ pending_up c = [3] /\ written_to_client c.(trace) = [9; 8; 7] /\
  pending_down c = [6] /\ got_from_client c.(trace) = [1; 2; 3] /\ got_from_socks c.(trace) = [9; 8; 7; 6].
Proof.
  cbv zeta. destruct (client_streams (run_or session_start session_open)) as (H1 & H2 & _).
  - apply session_reachable. vm_compute. reflexivity.
  - split; [vm_compute; reflexivity|]. split; [vm_compute; reflexivity|]. split; [vm_compute; reflexivity|].
    split; [vm_compute; reflexivity|]. split; [rewrite H1; vm_compute; reflexivity|].
    rewrite H2 by (vm_compute; reflexivity). vm_compute. reflexivity.
Defined.

Lemma client_drains_witness :
  let c := run_or session_start (session_open ++ session_close) in
  c.(freed) = true /\ sent_to_socks c.(trace) = [1; 2; 3].
Proof.
  cbv zeta. split; [vm_compute; reflexivity|].
  rewrite (client_drains (run_or session_start (session_open ++ session_close)));
    [vm_compute; reflexivity| |vm_compute; reflexivity|vm_compute; reflexivity].
  apply session_reachable. vm_compute. reflexivity.
Defined.

Lemma client_no_stall_witness :
  let c := run_or session_start session_open in
  is_Some c.(socks_send_busy) /\
  (c.(socks_recv_busy) = true \/
   exists p, c.(pcb) = Some p /\ p.(cb_sent) = true /\ 0 < p.(unacked) /\ 0 < c.(socks_recv_buf_used)).
Proof.
  cbv zeta. destruct (client_no_stall (run_or session_start session_open)) as (_ & H & _).
  - apply session_reachable. vm_compute. reflexivity.
  - vm_compute. reflexivity.
  - destruct H as [H1 H2]; [vm_compute; reflexivity|vm_compute; reflexivity|].
    split; [apply H1; vm_compute; reflexivity|].
    replace (client_closed (run_or session_start session_open)) with false in H2 by (vm_compute; reflexivity). exact H2.
Defined.

Lemma client_window_witness :
  let c := run_or session_start session_open in
  exists c' r, client_recv_func (pcb_window 5839 c) (Some (repeat 5 (Z.to_nat 5839))) ERR_OK true [] = Some (c', r) /\
    (r = ERR_OK \/ r = ERR_ABRT).
Proof.
  cbv zeta. destruct (client_window (run_or session_start session_open) (Pcb true true true 5839 3) (repeat 5 (Z.to_nat 5839)) true [])
    as [_ H].
  - apply session_reachable. vm_compute. reflexivity.
  - vm_compute. reflexivity.
  - vm_compute. reflexivity.
  - rewrite repeat_length, Z2Nat.id by lia. cbn. lia.
  - rewrite repeat_length, Z2Nat.id in H by lia. exact H.
Defined.
