(* ===== verification/Clients.v ===== *)
(** * The set of TCP clients

    Models the list [tcp_clients] and the counter [num_clients] of
    [tun2socks/tun2socks.c]: clients are appended by [listener_accept_func],
    removed by [client_dealloc] from whatever event deallocates them, and the
    rest are killed by the loop of [tun2socks_run] when the program ends.  A
    client sees the global counter in its field [num_clients] while one of its
    functions runs. *)

From S2P Require Import Prelude.
From S2P Require Import Addr.
From S2P Require Import TcpClient.
Import BAddr TcpClient.

Record tun := Tun {
  tcp_clients : list (nat * tcp_client);  (* in list order, with their addresses *)
  count : Z;                              (* num_clients *)
  next : nat;                             (* addresses not used so far *)
}.

(** [LinkedList1_Append] to and [LinkedList1_Remove] from [tcp_clients]. *)
Inductive client_action := Link (id : nat) | Unlink (id : nat).

Module Clients.

Definition set_num (n : Z) (c : tcp_client) : tcp_client :=
  Client c.(local_addr) c.(remote_addr) c.(pcb) c.(client_closed) c.(buf) c.(buf_used) c.(socks_username)
    c.(socks_client) c.(socks_up) c.(socks_closed) c.(socks_send_busy) c.(socks_recv_busy) c.(socks_recv_buf)
    c.(socks_recv_buf_used) c.(socks_recv_buf_sent) c.(socks_recv_waiting) c.(socks_recv_tcp_pending)
    c.(dead_client) c.(freed) n c.(trace).

Definition no_clients : tun := Tun [] 0 0.

Fixpoint find_client (id : nat) (l : list (nat * tcp_client)) : option tcp_client :=
  match l with
  | [] => None
  | (i, c) :: l => if (i =? id)%nat then Some c else find_client id l
  end.

(** [LinkedList1_Remove] of the node, or the node with its new contents. *)
Fixpoint put_client (id : nat) (c : tcp_client) (l : list (nat * tcp_client)) : list (nat * tcp_client) :=
  match l with
  | [] => []
  | (i, x) :: l =>
      if (i =? id)%nat then (if c.(freed) then l else (i, c) :: l) else (i, x) :: put_client id c l
  end.

Inductive tun_input :=
  | TAccept (m : tcp_client) (is_ipv6 : bool) (local_ip remote_ip : BIPAddr) (local_port remote_port : Z)
      (malloc_ok concat_ok socks_ok : bool) (username : option bytes) (jobs : list socks_input)
  | TClient (id : nat) (i : tcp_input).

Definition if_freed (c : tcp_client) (id : nat) : list client_action := if c.(freed) then [Unlink id] else [].

(** The new state and what was linked and unlinked. *)
Definition tun_step (w : tun) (i : tun_input) : option (tun * list client_action) :=
  match i with
  | TAccept m v6 lip rip lp rp mo co so user jobs =>
      LET (r, _) <- listener_accept_func m v6 lip rip lp rp ERR_OK mo co so user w.(count) jobs in
      match r with
      | None => Some (w, [])
      | Some c =>
          Some (Tun (if c.(freed) then w.(tcp_clients) else w.(tcp_clients) ++ [(w.(next), c)])
                    c.(num_clients) (S w.(next)), Link w.(next) :: if_freed c w.(next))
      end
  | TClient id i =>
      match find_client id w.(tcp_clients) with
      | None => Some (w, [])
      | Some c =>
          let c := set_num w.(count) c in
          if tcp_input_enabled c i then
            LET c <- tcp_input_step c i in
            Some (Tun (put_client id c w.(tcp_clients)) c.(num_clients) w.(next), if_freed c id)
          else Some (w, [])
      end
  end.

Fixpoint tun_run (w : tun) (ins : list tun_input) : option (tun * list client_action) :=
  match ins with
  | [] => Some (w, [])
  | i :: ins =>
      LET (w, acts) <- tun_step w i in
      LET (w, acts') <- tun_run w ins in
      Some (w, acts ++ acts')
  end.

(** The loop of [tun2socks_run]: while there is a first client, murder it.  A
    client that stayed in the list would be murdered again.  The result is the
    counter and the clients as they were left. *)
Fixpoint free_clients (l : list (nat * tcp_client)) (n : Z) : option (Z * list (nat * tcp_client)) :=
  match l with
  | [] => Some (n, [])
  | (id, c) :: l =>
      LET c <- client_murder (set_num n c) in
      ASSERT c.(freed) in
      LET (n, dead) <- free_clients l c.(num_clients) in
      Some (n, (id, c) :: dead)
  end.

(** What [TAccept] relies on: the size of the allocation, and that lwIP's
    addresses are of the IP family it says. *)
Definition input_ok (i : tun_input) : Prop :=
  match i with
  | TAccept m _ _ rip _ rp _ _ _ _ _ =>
      raw_ok m /\ BAddr_wf (BAddr_MakeFromIpaddrAndPort rip (Words.ByteOrder.hton16 rp))
  | TClient _ _ => True
  end.

(** The clients that are linked after a trace, in list order; [None] when one
    is linked twice or unlinked without being linked. *)
Fixpoint linked (l : list nat) (acts : list client_action) : option (list nat) :=
  match acts with
  | [] => Some l
  | Link id :: acts => if bool_decide (id ∈ l) then None else linked (l ++ [id]) acts
  | Unlink id :: acts => if bool_decide (id ∈ l) then linked (filter (.≠ id) l) acts else None
  end.

(** ** Lemmas *)

Record tun_ok (w : tun) : Prop := {
  to_count : w.(count) = Z.of_nat (length w.(tcp_clients));
  to_live : Forall (fun x => live x.2 /\ streams x.2) w.(tcp_clients);
  to_ids : NoDup (map fst w.(tcp_clients)) /\ Forall (fun x => (x.1 < w.(next))%nat) w.(tcp_clients);
}.

Lemma linked_app acts1 : forall l acts2, linked l (acts1 ++ acts2) = LET l' <- linked l acts1 in linked l' acts2.
Proof. induction acts1 as [|[id|id] acts1 IH]; intros l acts2; cbn; [done| |]; case_bool_decide; try done; apply IH. Qed.

Lemma set_num_live n c : 0 < n -> live c -> live (set_num n c).
Proof. intros Hn [[] ? ? ? ?]. split; try done.  Qed.
Lemma set_num_streams n c : streams c -> streams (set_num n c).
Proof. done. Qed.

Lemma find_put id c c' l :
  find_client id l = Some c ->
  Forall (fun x => live x.2 /\ streams x.2) l -> (c'.(freed) = false -> live c' /\ streams c') ->
  (live c /\ streams c) /\ (0 < length l)%nat /\
  Forall (fun x => live x.2 /\ streams x.2) (put_client id c' l) /\
  Z.of_nat (length (put_client id c' l)) = Z.of_nat (length l) - (if c'.(freed) then 1 else 0).
Proof.
  induction l as [|[i x] l IH]; intros Hf Hl Hc; [done|]. cbn [find_client put_client] in *.
  inversion_clear Hl as [|? ? Hx Hl']. destruct (Nat.eqb_spec i id) as [->|].
  - injection Hf as <-. destruct (freed c') eqn:F; cbn [length]; (split; [exact Hx|split; [lia|split; [|lia]]]); [done|].
    constructor; [by apply Hc|done].
  - destruct (IH Hf Hl' Hc) as (H1 & H2 & H3 & H4). cbn [length]. split; [exact H1|]. split; [lia|]. split; [by constructor|lia].
Qed.

Lemma filter_absent (id : nat) (l : list nat) : id ∉ l -> filter (.≠ id) l = l.
Proof.
  induction l as [|x l IH]; [done|]. rewrite elem_of_cons, filter_cons. intros H. rewrite decide_True by naive_solver. by rewrite IH by tauto.
Qed.

Lemma put_ids id c l : NoDup (map fst l) -> is_Some (find_client id l) ->
  id ∈ map fst l /\ map fst (put_client id c l) = if c.(freed) then filter (.≠ id) (map fst l) else map fst l.
Proof.
  induction l as [|[i x] l IH]; [by intros _ []|]. cbn [find_client put_client map fst]. rewrite NoDup_cons, elem_of_cons, filter_cons.
  intros [Hi ND] Hf. destruct (Nat.eqb_spec i id) as [->|Hne].
  - rewrite decide_False by tauto. rewrite filter_absent by done. split; [by left|]. by destruct (freed c).
  - destruct (IH ND Hf) as [H1 H2]. split; [by right|]. rewrite decide_True by done. cbn [map fst]. rewrite H2. by destruct (freed c).
Qed.

Lemma put_incl id c l x : x ∈ map fst (put_client id c l) -> x ∈ map fst l.
Proof. induction l as [|[i y] l IH]; [done|]. cbn [put_client]. destruct (i =? id)%nat, (freed c); cbn; set_solver. Qed.

Lemma below_ids n l : Forall (fun x : nat * tcp_client => (x.1 < n)%nat) l <-> forall i, i ∈ map fst l -> (i < n)%nat.
Proof.
  rewrite Forall_forall. split.
  - intros H i Hi. apply list_elem_of_fmap in Hi as (x & -> & Hx). by apply H.
  - intros H x Hx. apply H. by apply list_elem_of_fmap_2.
Qed.

(** A step keeps the invariant, and the trace tells how the list changes. *)
Lemma step_tun_ok w i : tun_ok w -> input_ok i ->
  exists w' acts, tun_step w i = Some (w', acts) /\ tun_ok w' /\ linked (map fst w.(tcp_clients)) acts = Some (map fst w'.(tcp_clients)).
Proof.
  intros W Hi. pose proof W as [Hn Hl [ND Hlt]]. destruct i as [m v6 lip rip lp rp mo co so user jobs|id i]; cbn [tun_step].
  - destruct Hi as [Hm Hw].
    destruct (accept_ok m v6 lip rip lp rp mo co so user (count w) jobs Hm ltac:(lia) Hw) as (r & e & -> & H).
    destruct r as [c|]; [|by exists w, []]. destruct H as (O & S & N & _).
    assert (next w ∉ map fst (tcp_clients w)) as Hnew by (rewrite below_ids in Hlt; intros Hin%Hlt; lia).
    eexists _, _. split; [done|]. unfold if_freed. cbn [linked]. rewrite bool_decide_eq_false_2 by done. destruct (freed c) eqn:F.
    + cbn [linked]. rewrite bool_decide_eq_true_2 by (rewrite elem_of_app; right; by left).
      rewrite filter_app, filter_absent, filter_cons, decide_False, app_nil_r by (done || tauto). split; [|done].
      split; cbn [count tcp_clients next]; [lia|done|]. split; [done|]. eapply Forall_impl; [exact Hlt|]. cbn. lia.
    + cbn [linked tcp_clients]. rewrite map_app. split; [|done]. split; cbn [count tcp_clients next].
      * rewrite N, Hn, length_app. simpl. lia.
      * apply Forall_app. split; [done|]. constructor; [|done]. destruct O as [L|G]; [done|]. destruct G as [G _]. congruence.
      * split; [rewrite map_app; apply NoDup_app; cbn; split; [done|]; split; [set_solver|apply NoDup_singleton]|].
        apply Forall_app. split; [eapply Forall_impl; [exact Hlt|]; cbn; lia|]. constructor; [cbn; lia|done].
  - destruct (find_client id (tcp_clients w)) as [c|] eqn:Hf; [|by exists w, []].
    destruct (tcp_input_enabled _ i) eqn:He; [|by exists w, []].
    destruct (find_put id c (set_num (count w) c) (tcp_clients w) Hf Hl) as ([Lc Sc] & Hpos & _).
    { intros _. destruct (find_put id c raw_memory (tcp_clients w) Hf Hl) as ([L S] & Hp & _); [done|].
      split; [apply set_num_live; [lia|done]|done]. }
    destruct (step_tcp (set_num (count w) c) i) as (c' & -> & O & S & N);
      [apply set_num_live; [lia|done]|done|done|].
    destruct (find_put id c c' (tcp_clients w) Hf Hl) as (_ & _ & H3 & H4).
    { intros F. split; [|done]. destruct O as [?|G]; [done|]. destruct G as [G _]. congruence. }
    destruct (put_ids id c' _ ND (ex_intro _ _ Hf)) as [Hin Hids].
    eexists _, _. split; [done|]. cbn [tcp_clients]. split.
    + split; cbn [count tcp_clients next]; [rewrite N, H4, Hn; done|done|]. split.
      * rewrite Hids. destruct (freed c'); [by apply NoDup_filter|done].
      * rewrite below_ids in *. intros x Hx%put_incl. by apply Hlt.
    + rewrite Hids. unfold if_freed. destruct (freed c'); cbn [linked]; [by rewrite bool_decide_eq_true_2|done].
Qed.

Lemma tun_run_ok ins : Forall input_ok ins -> forall w, tun_ok w ->
  exists w' acts, tun_run w ins = Some (w', acts) /\ tun_ok w' /\ linked (map fst w.(tcp_clients)) acts = Some (map fst w'.(tcp_clients)).
Proof.
  induction 1 as [|i ins Hi _ IH]; intros w Hw; [by exists w, []|]. cbn [tun_run].
  destruct (step_tun_ok w i Hw Hi) as (w1 & acts1 & -> & Hw1 & E1). destruct (IH w1 Hw1) as (w2 & acts2 & -> & Hw2 & E2).
  eexists _, _. split; [done|]. split; [done|]. by rewrite linked_app, E1.
Qed.

(** Killing a live client always ends in its deallocation. *)
Lemma murder_ok c : live c -> exists c', client_murder c = Some c' /\ gone c' /\ c'.(num_clients) = c.(num_clients) - 1.
Proof.
  intros [Hb Hd Hen Hdn Hcl]. unfold client_murder. rewrite (bs_freed _ Hb). cbn [negb].
  assert (exists c1, (if negb (client_closed c) then
      LET c <- tcp_callbacks off off off c in LET c <- tcp_abort c in Some (set_client_closed c) else Some c) = Some c1 /\
    base c1 /\ client_closed c1 = true /\ pcb c1 = None /\ num_clients c1 = num_clients c) as (c1 & -> & Hb1 & Hc1 & Hp1 & Hn1).
  { destruct (client_closed c) eqn:Hc; cbn [negb].
    - exists c. by destruct Hen as (? & _).
    - destruct Hen as (p & Hp & _). unfold tcp_callbacks, tcp_abort. rewrite Hp. cbn.
      eexists. split; [done|]. split; [by destruct Hb|]. done. }
  assert (exists c2, (if negb (socks_closed c1) then BSocksClient_Free' c1 else Some c1) = Some c2 /\
    base c2 /\ client_closed c2 = true /\ socks_closed c2 = true /\ pcb c2 = None /\ num_clients c2 = num_clients c)
    as (c2 & -> & Hb2 & Hc2 & Hs2 & Hp2 & Hn2).
  { destruct (socks_closed c1) eqn:Hs; cbn [negb]; [by exists c1|]. unfold BSocksClient_Free'.
    rewrite (bs_socks _ Hb1), Hs. cbn. eexists. split; [done|]. split; [|done].
    destruct Hb1. split; cbn; auto; done. }
  destruct (dealloc_ok c2 Hb2 Hc2 Hs2 Hp2) as (c3 & -> & G & T & _). exists c3. split; [done|]. split; [done|].
  rewrite (td_num _ _ T), Hn2. by destruct G as [-> _].
Qed.

Lemma free_clients_ok l : Forall (fun x => live x.2 /\ streams x.2) l ->
  exists dead, free_clients l (Z.of_nat (length l)) = Some (0, dead) /\ map fst dead = map fst l /\ Forall (fun x => gone x.2) dead.
Proof.
  induction 1 as [|[i c] l [Hl _] _ (dead & IH & Hd & Hg)]; [by exists []|]. cbn [free_clients].
  destruct (murder_ok (set_num (Z.of_nat (length ((i, c) :: l))) c)) as (c' & -> & G & N);
    [apply set_num_live; [simpl; lia|done]|].
  pose proof G as [-> _]. cbn [length set_num num_clients] in N.
  replace (num_clients c') with (Z.of_nat (length l)) by lia. rewrite IH. eexists. split; [done|]. cbn. rewrite Hd.
  split; [done|]. by constructor.
Qed.

End Clients.
Import Clients.

(** C8: the client counter is the length of the client list, and the final
    clean-up empties it.  Whatever clients are accepted and whatever happens to
    each of them, in any interleaving: no assertion fails; no client is linked
    twice or unlinked without being linked, and the list holds those that were
    linked and not unlinked, in order; [num_clients] stays equal to its length;
    every listed client is live; and the loop that murders the remaining
    clients when the program ends deallocates each of them once, in list order,
    with everything it held, and ends with the counter at zero. *)
Theorem clients_counted ins :
  Forall input_ok ins ->
  exists w acts dead, tun_run no_clients ins = Some (w, acts) /\ linked [] acts = Some (map fst w.(tcp_clients)) /\
    w.(count) = Z.of_nat (length w.(tcp_clients)) /\ Forall (fun x => live x.2) w.(tcp_clients) /\
    free_clients w.(tcp_clients) w.(count) = Some (0, dead) /\ map fst dead = map fst w.(tcp_clients) /\
    Forall (fun x => gone x.2) dead.
Proof.
  intros Hins. destruct (tun_run_ok ins Hins no_clients) as (w & acts & E & [Hn Hl _] & Ha); [repeat constructor|].
  destruct (free_clients_ok _ Hl) as (dead & Ed & Hd & Hg). exists w, acts, dead. rewrite Hn.
  repeat (split; [done|]). split; [by eapply Forall_impl; [exact Hl|]; intros ? []|]. done.
Qed.

(** Two clients; the first one closes and is deallocated, the second stays. *)
Definition two_clients : list tun_input :=
  [TAccept raw_memory false (BIPAddr_IPv4 16909060) (BIPAddr_IPv4 33554442) 80 40000 true true true None [];
   TAccept raw_memory false (BIPAddr_IPv4 16909060) (BIPAddr_IPv4 33554442) 80 40001 true true true None
     [SEvent SocksClient.BSOCKSCLIENT_EVENT_UP true];
   TClient 0 (IRecv None true [])].

Lemma clients_counted_witness :
  exists w acts dead, tun_run no_clients two_clients = Some (w, acts) /\ acts = [Link 0; Link 1; Unlink 0] /\
    map fst w.(tcp_clients) = [1%nat] /\ w.(count) = 1 /\
    free_clients w.(tcp_clients) w.(count) = Some (0, dead) /\ map fst dead = map fst w.(tcp_clients) /\ Forall (fun x => gone x.2) dead.
Proof.
  destruct (clients_counted two_clients) as (w & acts & dead & E & _ & N & _ & F).
  - repeat constructor; vm_compute; intuition congruence.
  - exists w, acts, dead. split; [exact E|].
    assert (option_map (fun '(w, acts) => (acts, map fst w.(tcp_clients), w.(count))) (Some (w, acts)) = Some ([Link 0; Link 1; Unlink 0], [1%nat], 1)) as X
      by (rewrite <- E; vm_compute; reflexivity).
    injection X as X0 X1 X2. split; [exact X0|]. split; [exact X1|]. split; [exact X2|exact F].
Defined.
