(* ===== verification/IpAddr6.v ===== *)
(** * IPv6 addresses

    Models [misc/ipaddr6.h]: parsing and printing of addresses and prefixes,
    and conversion between prefix lengths and masks.  [struct ipv6_addr] is
    the list of its sixteen bytes.  A function that returns 0 or 1 gives
    [Some None] or [Some (Some r)]; the outer [None] is an access outside the
    array. *)

From S2P Require Import Prelude.
From S2P Require Import ParseNumber.
From S2P Require Import CLib.

Record ipv6_ifaddr := IfAddr { ifaddr_addr : bytes; ifaddr_prefix : Z }.

Module IpAddr6.

(** The local variables of [ipaddr6_parse_ipv6_addr] and its output. *)
Record parse_state := PS {
  num_blocks : Z;
  compress_pos : Z;
  block : Z;
  empty : bool;
  out : bytes;
}.

Definition ch_dot : Z := 46.
Definition ch_colon : Z := 58.
Definition ch_slash : Z := 47.

(** [bytes[2*num_blocks] = block >> 8; bytes[2*num_blocks+1] = block & 0xFF] *)
Definition put_block (st : parse_state) : option parse_state :=
  LET b <- store (Z.to_nat (2 * st.(num_blocks)))
             [Z.shiftr st.(block) 8; Z.land st.(block) 255] st.(out) in
  Some (PS (st.(num_blocks) + 1) st.(compress_pos) 0 true b).

(** The main loop.  [first] is [i == 0]; [seg] is the text after the last ':',
    where the IPv4 ending starts again.  The result is the state and, after a
    '.', that text. *)
Fixpoint addr_loop (first : bool) (seg name : bytes) (st : parse_state)
  : option (option (parse_state * option bytes)) :=
  match name with
  | [] => Some (Some (st, None))
  | c :: rest =>
      if c =? ch_dot then Some (Some (st, Some seg))
      else if c =? ch_colon then
        let is_double := match rest with d :: _ => d =? ch_colon | [] => false end in
        if negb first && (st.(empty) || (st.(num_blocks) =? 7)) then Some None
        else if first && negb is_double then Some None
        else
          LET st <- (if negb first then put_block st else Some st) in
          if is_double && negb (st.(compress_pos) =? -1) then Some None
          else
            let st := if is_double
                      then PS st.(num_blocks) st.(num_blocks) st.(block) st.(empty) st.(out) else st in
            match rest with
            | d :: rest' => if d =? ch_colon then addr_loop false rest' rest' st else addr_loop false rest rest st
            | [] => addr_loop false rest rest st
            end
      else
        let digit := decode_hex_digit c in
        if digit <? 0 then Some None
        else if UINT16_MAX / 16 <? st.(block) then Some None
        else
          let b := u16 (st.(block) * 16) in
          if UINT16_MAX - b <? digit then Some None
          else addr_loop false seg rest (PS st.(num_blocks) st.(compress_pos) (u16 (b + digit)) false st.(out))
  end.

(** The loop over the IPv4 ending: the bytes completed so far are in [acc]. *)
Fixpoint ipv4_loop (name acc : bytes) (byte : Z) (empty : bool) : option bytes :=
  match name with
  | [] => if negb (length acc =? 3)%nat || empty then None else Some (acc ++ [byte])
  | c :: rest =>
      if c =? ch_dot then
        if empty || (length acc =? 3)%nat then None else ipv4_loop rest (acc ++ [byte]) 0 true
      else if negb empty && (byte =? 0) then None
      else
        let digit := decode_decimal_digit c in
        if digit <? 0 then None
        else if UINT8_MAX / 10 <? byte then None
        else
          let b := u8 (byte * 10) in
          if UINT8_MAX - b <? digit then None
          else ipv4_loop rest acc (u8 (b + digit)) false
  end.

(** [ipv4_done]: makes room for the zeros the '::' stands for. *)
Definition addr_finish (st : parse_state) : option (option bytes) :=
  if (st.(compress_pos) =? -1) && negb (st.(num_blocks) =? 8) then Some None
  else
    let cp := if st.(compress_pos) =? -1 then 0 else st.(compress_pos) in
    let num_rear := st.(num_blocks) - cp in
    let moved := take (Z.to_nat (2 * num_rear)) (drop (Z.to_nat (2 * cp)) st.(out)) in
    ASSERT 0 <=? 8 - num_rear - cp in
    LET b <- store (Z.to_nat (2 * (8 - num_rear))) moved st.(out) in
    LET b <- store (Z.to_nat (2 * cp)) (repeat 0 (Z.to_nat (2 * (8 - num_rear - cp)))) b in
    Some (Some b).

(** [out_addr] has arbitrary contents before the call. *)
Definition ipaddr6_parse_ipv6_addr (name out_addr : bytes) : option (option bytes) :=
  LET r <- addr_loop true name name (PS 0 (-1) 0 true out_addr) in
  match r with
  | None => Some None
  | Some (st, None) =>
      if negb st.(empty) then LET st <- put_block st in addr_finish st
      else if negb (st.(num_blocks) =? st.(compress_pos)) then Some None
      else addr_finish st
  | Some (st, Some seg) =>
      if st.(empty) || ((st.(num_blocks) =? 0) && (st.(compress_pos) =? -1)) then Some None
      else
        match ipv4_loop seg [] 0 true with
        | None => Some None
        | Some four =>
            if 8 - st.(num_blocks) <? 2 then Some None
            else
              LET b <- store (Z.to_nat (2 * st.(num_blocks))) four st.(out) in
              addr_finish (PS (st.(num_blocks) + 2) st.(compress_pos) st.(block) st.(empty) b)
        end
  end.

Definition ipaddr6_parse_ipv6_prefix (str : bytes) : option Z :=
  match parse_unsigned_integer str with
  | None => None
  | Some d => if 128 <? d then None else Some d
  end.

Definition ipaddr6_parse_ipv6_ifaddr (str out_addr : bytes) : option (option ipv6_ifaddr) :=
  match strchr str ch_slash with
  | None => Some None
  | Some (a, p) =>
      LET r <- ipaddr6_parse_ipv6_addr a out_addr in
      match r with
      | None => Some None
      | Some addr =>
          match ipaddr6_parse_ipv6_prefix p with
          | None => Some None
          | Some prefix => Some (Some (IfAddr addr prefix))
          end
      end
  end.

(** [t |= 1 << (8 - i - 1)] for [i < n], starting from [t]. *)
Fixpoint or_bits (n : nat) (i t : Z) : Z :=
  match n with
  | O => t
  | S n => or_bits n (i + 1) (Z.lor t (u8 (Z.shiftl 1 (8 - i - 1))))
  end.

Definition ipaddr6_ipv6_mask_from_prefix (prefix : Z) (out_mask : bytes) : option bytes :=
  ASSERT 0 <=? prefix in
  ASSERT prefix <=? 128 in
  let quot := prefix / 8 in
  let rem := prefix mod 8 in
  LET m <- (if 0 <? quot then store 0 (repeat UINT8_MAX (Z.to_nat quot)) out_mask else Some out_mask) in
  LET m <- (if 0 <? 16 - quot then store (Z.to_nat quot) (repeat 0 (Z.to_nat (16 - quot))) m else Some m) in
  if rem =? 0 then Some m
  else
    LET b <- m !! Z.to_nat quot in
    store (Z.to_nat quot) [or_bits (Z.to_nat rem) 0 b] m.

(** The number of leading 0xFF bytes and what follows them. *)
Fixpoint skip_ones (mask : bytes) (prefix : Z) : Z * bytes :=
  match mask with
  | b :: rest => if b =? UINT8_MAX then skip_ones rest (prefix + 8) else (prefix, mask)
  | [] => (prefix, [])
  end.

(** [for (j = 0; j <= 8; j++)]: the number of leading ones of the byte. *)
Fixpoint partial_ones (fuel : nat) (byte j t : Z) : option Z :=
  match fuel with
  | O => None
  | S fuel =>
      if byte =? t then Some j
      else partial_ones fuel byte (j + 1) (if j <? 8 then Z.lor t (u8 (Z.shiftl 1 (8 - j - 1))) else t)
  end.

Definition ipaddr6_ipv6_prefix_from_mask (mask : bytes) : option Z :=
  let '(prefix, rest) := skip_ones mask 0 in
  match rest with
  | [] => Some prefix
  | b :: rest =>
      match partial_ones 9 b 0 0 with
      | None => None
      | Some j => if forallb (fun x => x =? 0) rest then Some (prefix + j) else None
      end
  end.

Definition ipaddr6_ipv6_ifaddr_from_addr_mask (addr mask : bytes) : option ipv6_ifaddr :=
  match ipaddr6_ipv6_prefix_from_mask mask with
  | None => None
  | Some prefix => Some (IfAddr addr prefix)
  end.

Definition ipaddr6_ipv6_addrs_in_network (addr1 addr2 : bytes) (netprefix : Z) : option bool :=
  ASSERT 0 <=? netprefix in
  ASSERT netprefix <=? 128 in
  let quot := Z.to_nat (netprefix / 8) in
  let rem := netprefix mod 8 in
  if negb (memcmp (take quot addr1) (take quot addr2) =? 0) then Some false
  else if rem =? 0 then Some true
  else
    let t := or_bits (Z.to_nat rem) 0 0 in
    LET b1 <- addr1 !! quot in
    LET b2 <- addr2 !! quot in
    Some (Z.land b1 t =? Z.land b2 t).

(** The search for the longest run of zero blocks. *)
Record scan := Scan { largest_start : Z; largest_len : Z; current_start : Z; current_len : Z }.

Fixpoint scan_blocks (zeros : list bool) (i : Z) (s : scan) : scan :=
  match zeros with
  | [] => s
  | z :: zeros =>
      scan_blocks zeros (i + 1)
        (if z then
           let len := s.(current_len) + 1 in
           if s.(largest_len) <? len then Scan s.(current_start) len s.(current_start) len
           else Scan s.(largest_start) s.(largest_len) s.(current_start) len
         else Scan s.(largest_start) s.(largest_len) (i + 1) 0)
  end.

(** The eight 16-bit blocks of an address. *)
Fixpoint words (addr : bytes) : list Z :=
  match addr with
  | hi :: lo :: rest => Z.lor (Z.shiftl hi 8) lo :: words rest
  | _ => []
  end.
Fixpoint zero_blocks (addr : bytes) : list bool :=
  match addr with
  | hi :: lo :: rest => ((hi =? 0) && (lo =? 0)) :: zero_blocks rest
  | _ => []
  end.

Definition ipaddr6_print_addr (addr : bytes) : bytes :=
  let s := scan_blocks (zero_blocks addr) 0 (Scan 0 0 0 0) in
  let ws := words addr in
  if 1 <? s.(largest_len) then
    let front := take (Z.to_nat s.(largest_start)) ws in
    let back := drop (Z.to_nat (s.(largest_start) + s.(largest_len))) ws in
    concat (map (fun w => hex_repr w ++ [ch_colon]) front)
    ++ (if s.(largest_start) =? 0 then [ch_colon] else [])
    ++ concat (map (fun w => ch_colon :: hex_repr w) back)
    ++ (if s.(largest_start) + s.(largest_len) =? 8 then [ch_colon] else [])
  else
    match ws with
    | [] => []
    | w :: ws => hex_repr w ++ concat (map (fun w => ch_colon :: hex_repr w) ws)
    end.

Definition ipaddr6_print_ifaddr (a : ipv6_ifaddr) : option bytes :=
  ASSERT 0 <=? a.(ifaddr_prefix) in
  ASSERT a.(ifaddr_prefix) <=? 128 in
  Some (ipaddr6_print_addr a.(ifaddr_addr) ++ [ch_slash] ++ dec_repr a.(ifaddr_prefix)).

(** ** Lemmas *)

Definition is_word (w : Z) : Prop := 0 <= w < 65536.

(** The bytes of a list of blocks. *)
Definition flat (ws : list Z) : bytes := concat (map (fun w => [w / 256; w mod 256]) ws).

Lemma flat_length ws : length (flat ws) = (2 * length ws)%nat.
Proof. unfold flat. induction ws as [|w ws IH]; [done|]. cbn [map concat length app]. rewrite IH. lia. Qed.
Lemma flat_app a b : flat (a ++ b) = flat a ++ flat b.
Proof. unfold flat. by rewrite map_app, concat_app. Qed.

Lemma hex_char_decode d : 0 <= d < 16 -> decode_hex_digit (hex_char d) = d.
Proof.
  intros H. assert (forallb (fun d => decode_hex_digit (hex_char d) =? d) (map Z.of_nat (seq 0 16)) = true) as E by reflexivity.
  rewrite forallb_forall in E. apply Z.eqb_eq, E, in_map_iff. exists (Z.to_nat d). rewrite in_seq. lia.
Qed.
Lemma hex_char_plain d : 0 <= d < 16 -> hex_char d <> ch_dot /\ hex_char d <> ch_colon.
Proof. intros H. unfold hex_char, ch_dot, ch_colon. destruct (Z.ltb_spec d 10); lia. Qed.

(** One hexadecimal digit. *)
Lemma loop_digit f seg d rest n cp b e o :
  0 <= d < 16 -> 0 <= b < 4096 ->
  addr_loop f seg (hex_char d :: rest) (PS n cp b e o) = addr_loop false seg rest (PS n cp (16 * b + d) false o).
Proof.
  intros Hd Hb. destruct (hex_char_plain d Hd). cbn [addr_loop].
  destruct (Z.eqb_spec (hex_char d) ch_dot); [done|]. destruct (Z.eqb_spec (hex_char d) ch_colon); [done|].
  rewrite hex_char_decode by done. cbn [block num_blocks compress_pos IpAddr6.out]. unfold UINT16_MAX.
  destruct (Z.ltb_spec d 0); [lia|]. change (65535 / 16) with 4095. destruct (Z.ltb_spec 4095 b); [lia|].
  rewrite (u16_small (b * 16)) by lia. destruct (Z.ltb_spec (65535 - b * 16) d); [lia|].
  rewrite u16_small by lia. do 2 f_equal. lia.
Qed.

Lemma hex_repr_cases w : is_word w ->
  (exists d, hex_repr w = [hex_char d] /\ 0 <= d < 16 /\ w = d) \/
  (exists d c, hex_repr w = [hex_char d; hex_char c] /\ 0 <= d < 16 /\ 0 <= c < 16 /\ w = 16 * d + c) \/
  (exists d c b, hex_repr w = [hex_char d; hex_char c; hex_char b] /\ 0 <= d < 16 /\ 0 <= c < 16 /\ 0 <= b < 16 /\
     w = 16 * (16 * d + c) + b) \/
  (exists d c b a, hex_repr w = [hex_char d; hex_char c; hex_char b; hex_char a] /\ 0 <= d < 16 /\ 0 <= c < 16 /\
     0 <= b < 16 /\ 0 <= a < 16 /\ w = 16 * (16 * (16 * d + c) + b) + a).
Proof.
  intros Hw. unfold is_word in Hw. unfold hex_repr. cbn [hex_digits].
  pose proof (Z.div_mod w 16). pose proof (Z.mod_pos_bound w 16).
  destruct (Z.ltb_spec 0 (w / 16)); [|left; exists (w mod 16); repeat split; lia].
  set (w1 := w / 16) in *. pose proof (Z.div_mod w1 16). pose proof (Z.mod_pos_bound w1 16).
  destruct (Z.ltb_spec 0 (w1 / 16)); [|right; left; exists (w1 mod 16), (w mod 16); repeat split; lia].
  set (w2 := w1 / 16) in *. pose proof (Z.div_mod w2 16). pose proof (Z.mod_pos_bound w2 16).
  destruct (Z.ltb_spec 0 (w2 / 16)); [|right; right; left; exists (w2 mod 16), (w1 mod 16), (w mod 16); repeat split; lia].
  set (w3 := w2 / 16) in *. pose proof (Z.div_mod w3 16). pose proof (Z.mod_pos_bound w3 16).
  right. right. right. exists (w3 mod 16), (w2 mod 16), (w1 mod 16), (w mod 16).
  split; [by destruct (0 <? w3 / 16)|]. repeat split; lia.
Qed.

(** A printed block. *)
Lemma loop_block f seg w rest n cp o :
  is_word w -> addr_loop f seg (hex_repr w ++ rest) (PS n cp 0 true o) = addr_loop false seg rest (PS n cp w false o).
Proof.
  intros Hw. pose proof Hw as Hw'. unfold is_word in Hw'.
  destruct (hex_repr_cases w Hw) as [(d & -> & ? & ->)|[(d & c & -> & ? & ? & ->)|
    [(d & c & b & -> & ? & ? & ? & ->)|(d & c & b & a & -> & ? & ? & ? & ? & ->)]]]; cbn [app];
    repeat (rewrite loop_digit by lia); do 2 f_equal; lia.
Qed.

Lemma hex_repr_head w rest : is_word w -> exists c r, hex_repr w ++ rest = c :: r /\ c <> ch_colon.
Proof.
  intros Hw. destruct (hex_repr_cases w Hw) as [(d & -> & ? & _)|[(d & c & -> & ? & ? & _)|
    [(d & c & b & -> & ? & ? & ? & _)|(d & c & b & a & -> & ? & ? & ? & ? & _)]]]; cbn [app];
    (do 2 eexists; split; [done|apply hex_char_plain; lia]).
Qed.

Lemma put_block_ok w n cp e pre x y suf :
  is_word w -> Z.of_nat (length pre) = 2 * n ->
  put_block (PS n cp w e (pre ++ [x; y] ++ suf)) =
  Some (PS (n + 1) cp 0 true ((pre ++ flat [w]) ++ suf)).
Proof.
  intros Hw Hp. unfold put_block. cbn [num_blocks block IpAddr6.out compress_pos].
  rewrite Z.shiftr_div_pow2 by lia. change 255 with (Z.ones 8). rewrite Z.land_ones by lia.
  change (2 ^ 8) with 256. rewrite store_mid by (done || lia). by rewrite <- app_assoc.
Qed.

(** Space for at least one more block. *)
Lemma two_more (o pre : bytes) n : length o = 16%nat -> Z.of_nat (length pre) = 2 * n -> n <= 7 -> pre `prefix_of` o ->
  exists x y suf, o = pre ++ [x; y] ++ suf.
Proof.
  intros Ho Hp Hn [suf ->]. rewrite length_app in Ho.
  destruct suf as [|x [|y suf]]; simpl in Ho; [lia|lia|]. by exists x, y, suf.
Qed.

(** A single ':' between two blocks. *)
Lemma loop_colon seg w v rest n cp pre x y suf :
  is_word w -> is_word v -> Z.of_nat (length pre) = 2 * n -> n < 7 ->
  exists seg', addr_loop false seg (ch_colon :: hex_repr v ++ rest) (PS n cp w false (pre ++ [x; y] ++ suf)) =
    addr_loop false seg' rest (PS (n + 1) cp v false ((pre ++ flat [w]) ++ suf)).
Proof.
  intros Hw Hv Hp Hn. destruct (hex_repr_head v rest Hv) as (c & r & E & Hc).
  exists (hex_repr v ++ rest). rewrite <- (loop_block false (hex_repr v ++ rest) v rest (n + 1) cp) by done.
  cbn [addr_loop]. rewrite E. change (ch_colon =? ch_dot) with false. rewrite Z.eqb_refl.
  destruct (Z.eqb_spec c ch_colon); [done|]. cbn [negb andb orb empty num_blocks].
  destruct (Z.eqb_spec n 7); [lia|]. rewrite put_block_ok by done. done.
Qed.

(** The printed form of the blocks after the first. *)
Definition tail_text (ws : list Z) : bytes := concat (map (fun w => ch_colon :: hex_repr w) ws).

Lemma tail_text_cons v B rest : tail_text (v :: B) ++ rest = ch_colon :: hex_repr v ++ (tail_text B ++ rest).
Proof. unfold tail_text. cbn [map concat app]. by rewrite <- app_assoc. Qed.

(** Blocks [w :: B], of which [w] is still pending, are written up to the last
    one, [l], which is then pending. *)
Lemma loop_tail B : forall seg w rest n cp pre o,
  Forall is_word (w :: B) -> length o = 16%nat -> pre `prefix_of` o -> Z.of_nat (length pre) = 2 * n ->
  n + Z.of_nat (length B) <= 7 ->
  exists seg' l o', addr_loop false seg (tail_text B ++ rest) (PS n cp w false o) =
      addr_loop false seg' rest (PS (n + Z.of_nat (length B)) cp l false o') /\
    length o' = 16%nat /\ is_word l /\ exists B', w :: B = B' ++ [l] /\ (pre ++ flat B') `prefix_of` o'.
Proof.
  induction B as [|v B IH]; intros seg w rest n cp pre o Hw Ho Hpre Hp Hn.
  - exists seg, w, o. cbn [tail_text map concat app length]. rewrite Z.add_0_r. split; [done|]. split; [done|].
    inversion_clear Hw. split; [done|]. exists []. split; [done|]. unfold flat. cbn. by rewrite app_nil_r.
  - inversion_clear Hw as [|? ? Hw1 Hw2]. pose proof Hw2 as Hw2'. inversion_clear Hw2' as [|? ? Hv _].
    cbn [length] in Hn. destruct (two_more o pre n) as (x & y & suf & ->); [done|done|lia|done|].
    rewrite tail_text_cons.
    destruct (loop_colon seg w v (tail_text B ++ rest) n cp pre x y suf) as (seg' & E); [done|done|done|lia|].
    rewrite E.
    destruct (IH seg' v rest (n + 1) cp (pre ++ flat [w]) ((pre ++ flat [w]) ++ suf)) as (seg2 & l & o' & E2 & L2 & Wl & B' & EB & P);
      [done| |by eexists| |lia|].
    { rewrite !length_app in *. cbn in *. lia. }
    { rewrite length_app. cbn. lia. }
    rewrite E2. exists seg2, l, o'. split; [do 2 f_equal; cbn [length]; lia|].
    split; [done|]. split; [done|]. exists (w :: B'). split; [by rewrite EB|].
    change (w :: B') with ([w] ++ B'). rewrite flat_app, app_assoc. done.
Qed.

(** Writing the last pending block. *)
Lemma put_last n cp l pre o :
  is_word l -> length o = 16%nat -> pre `prefix_of` o -> Z.of_nat (length pre) = 2 * n -> n <= 7 ->
  exists suf, put_block (PS n cp l false o) = Some (PS (n + 1) cp 0 true ((pre ++ flat [l]) ++ suf)) /\
    length ((pre ++ flat [l]) ++ suf) = 16%nat.
Proof.
  intros Hl Ho Hpre Hp Hn. destruct (two_more o pre n) as (x & y & suf & ->); try done.
  exists suf. rewrite put_block_ok by done. split; [done|]. rewrite !length_app in *. cbn in *. lia.
Qed.

(** ** The zero run *)

Definition scan_ok (zs : list bool) : bool :=
  let s := scan_blocks zs 0 (Scan 0 0 0 0) in
  (0 <=? s.(largest_start)) && (0 <=? s.(largest_len)) && (s.(largest_start) + s.(largest_len) <=? 8) &&
  forallb (fun z => z) (take (Z.to_nat s.(largest_len)) (drop (Z.to_nat s.(largest_start)) zs)).

Fixpoint all_bools (n : nat) : list (list bool) :=
  match n with O => [[]] | S n => map (cons true) (all_bools n) ++ map (cons false) (all_bools n) end.

Lemma all_bools_in zs : In zs (all_bools (length zs)).
Proof.
  induction zs as [|z zs IH]; [by left|]. cbn [all_bools length]. apply in_or_app.
  destruct z; [left|right]; by apply in_map.
Qed.

Lemma scan_all_ok zs : length zs = 8%nat -> scan_ok zs = true.
Proof.
  intros Hl. pose proof (all_bools_in zs) as Hin. rewrite Hl in Hin.
  assert (forallb scan_ok (all_bools 8) = true) as H by (vm_compute; reflexivity).
  rewrite forallb_forall in H. by apply H.
Qed.

Lemma words_flat addr : bytes_ok addr -> Nat.even (length addr) = true ->
  flat (words addr) = addr /\ Forall is_word (words addr) /\ (2 * length (words addr) = length addr)%nat /\
  zero_blocks addr = map (fun w => w =? 0) (words addr).
Proof.
  intros Hb He. remember (length addr) as n eqn:Hn. revert addr Hb He Hn.
  induction n as [n IH] using lt_wf_ind. intros addr Hb He Hn.
  destruct addr as [|hi [|lo rest]]; [by subst|by subst|]. cbn [length] in Hn.
  inversion_clear Hb as [|? ? Hh Hb1]. inversion_clear Hb1 as [|? ? Hlo Hb2].
  destruct (IH (length rest) ltac:(lia) rest Hb2) as (F & W & L & Zr); [by subst n|done|].
  cbn [words zero_blocks map length]. unfold is_byte in *.
  assert (Z.lor (Z.shiftl hi 8) lo = hi * 256 + lo) as ->.
  { rewrite Z.shiftl_mul_pow2 by lia. rewrite <- Z.lxor_lor, <- Z.add_nocarry_lxor; [lia| |];
      (apply Z.bits_inj'; intros k Hk; rewrite Z.land_spec, Z.bits_0, <- Z.shiftl_mul_pow2, Z.shiftl_spec by lia;
       destruct (Z.ltb_spec k 8); [rewrite (Z.testbit_neg_r hi) by lia; done|
         replace (Z.testbit lo k) with false; [by rewrite andb_false_r|];
         destruct (Z.eq_dec lo 0) as [->|]; [by rewrite Z.bits_0|];
         symmetry; apply Z.bits_above_log2; [lia|]; apply Z.log2_lt_pow2; [lia|];
         apply Z.lt_le_trans with (2 ^ 8); [lia|apply Z.pow_le_mono_r; lia]]). }
  split; [|split; [|split]].
  - change (flat (hi * 256 + lo :: words rest)) with ([(hi * 256 + lo) / 256; (hi * 256 + lo) mod 256] ++ flat (words rest)).
    rewrite F, Z.div_add_l, Z.div_small, Z.add_0_r by lia. rewrite Z.add_comm, Z.mod_add, Z.mod_small by lia. done.
  - constructor; [unfold is_word; lia|done].
  - lia.
  - f_equal; [|done]. destruct (Z.eqb_spec hi 0), (Z.eqb_spec lo 0), (Z.eqb_spec (hi * 256 + lo) 0); simpl; lia || done.
Qed.

(** ** Parsing what was printed *)

(** What [ipaddr6_parse_ipv6_addr] does after its main loop. *)
Definition parse_end (r : option (option (parse_state * option bytes))) : option (option bytes) :=
  LET r <- r in
  match r with
  | Some (st, None) =>
      if negb st.(empty) then LET st <- put_block st in addr_finish st
      else if negb (st.(num_blocks) =? st.(compress_pos)) then Some None
      else addr_finish st
  | _ => Some None
  end.

Lemma parse_end_eq name o st :
  addr_loop true name name (PS 0 (-1) 0 true o) = Some (Some (st, None)) ->
  ipaddr6_parse_ipv6_addr name o = parse_end (Some (Some (st, None))).
Proof. intros H. unfold ipaddr6_parse_ipv6_addr. by rewrite H. Qed.

Lemma finish_full b e o : length o = 16%nat -> addr_finish (PS 8 (-1) b e o) = Some (Some o).
Proof.
  intros Ho. unfold addr_finish. cbn [compress_pos num_blocks IpAddr6.out]. cbn [Z.eqb Pos.eqb negb andb].
  change (Z.to_nat (2 * 0)) with 0%nat. rewrite drop_0, take_ge by (simpl; lia).
  change (0 <=? 8 - (8 - 0) - 0) with true. cbn iota.
  change (Z.to_nat (2 * (8 - (8 - 0)))) with 0%nat. change (Z.to_nat (2 * (8 - (8 - 0) - 0))) with 0%nat.
  pose proof (store_mid 0 o [] o [] eq_refl eq_refl) as E. cbn [app] in E. rewrite app_nil_r in E. rewrite E. cbn [repeat].
  pose proof (store_mid 0 [] [] [] o eq_refl eq_refl) as E2. cbn [app] in E2. by rewrite E2.
Qed.

(** [A] blocks before the '::', [B] after it. *)
Lemma finish_compressed A B suf n b e :
  length ((flat A ++ flat B) ++ suf) = 16%nat -> n = Z.of_nat (length A + length B) ->
  addr_finish (PS n (Z.of_nat (length A)) b e ((flat A ++ flat B) ++ suf)) =
  Some (Some (flat A ++ repeat 0 (16 - 2 * length A - 2 * length B) ++ flat B)).
Proof.
  intros Ho ->. unfold addr_finish. cbn [compress_pos num_blocks IpAddr6.out].
  rewrite !length_app, !flat_length in Ho.
  destruct (Z.eqb_spec (Z.of_nat (length A)) (-1)); [lia|]. cbn [andb].
  set (la := length A) in *. set (lb := length B) in *.
  replace (Z.of_nat (la + lb) - Z.of_nat la) with (Z.of_nat lb) by lia.
  rewrite (proj2 (Z.leb_le 0 _)) by lia.
  replace (Z.to_nat (2 * Z.of_nat lb)) with (2 * lb)%nat by lia.
  replace (Z.to_nat (2 * Z.of_nat la)) with (2 * la)%nat by lia.
  replace (Z.to_nat (2 * (8 - Z.of_nat lb))) with (16 - 2 * lb)%nat by lia.
  replace (Z.to_nat (2 * (8 - Z.of_nat lb - Z.of_nat la))) with (16 - 2 * la - 2 * lb)%nat by lia.
  rewrite <- app_assoc, drop_app_length', take_app_length' by (rewrite flat_length; lia).
  set (o := flat A ++ flat B ++ suf). assert (length o = 16%nat) as Lo by (unfold o; rewrite !length_app, !flat_length; lia).
  destruct (list_split_at (16 - 2 * lb) o) as (p & q & Eo & Lp); [lia|].
  assert (length q = (2 * lb)%nat) as Lq by (rewrite Eo, length_app in Lo; lia).
  rewrite Eo, <- (app_nil_r q), store_mid by (done || (rewrite flat_length; lia)). cbn iota. rewrite app_nil_r.
  assert (exists z, p = flat A ++ z /\ length z = (16 - 2 * la - 2 * lb)%nat) as (z & -> & Lz).
  { assert (take (16 - 2 * lb) o = p) as <- by (rewrite Eo; by rewrite take_app_length').
    unfold o. exists (take (16 - 2 * lb - 2 * la) (flat B ++ suf)).
    rewrite take_app, flat_length. fold la. split; [f_equal|].
    - apply take_ge. rewrite flat_length. fold la. lia.
    - rewrite length_take, length_app, flat_length. fold lb. lia. }
  rewrite <- app_assoc, store_mid by (rewrite ?flat_length, ?repeat_length; done || lia). done.
Qed.

(** Parsing the blocks after the '::'. *)
Lemma parse_back A B o seg :
  Forall is_word B -> length o = 16%nat -> flat A `prefix_of` o -> (length A + length B <= 8)%nat ->
  (length A < 8)%nat ->
  exists st, addr_loop false seg (match B with [] => [] | b :: B => hex_repr b ++ tail_text B end)
      (PS (Z.of_nat (length A)) (Z.of_nat (length A)) 0 true o) = Some (Some (st, None)) /\
    parse_end (Some (Some (st, None))) = Some (Some (flat A ++ repeat 0 (16 - 2 * length A - 2 * length B) ++ flat B)).
Proof.
  intros HB Ho Hp Hn Hn8. destruct B as [|b B].
  - eexists. split; [done|]. cbn. rewrite Z.eqb_refl. cbn [negb]. destruct Hp as [suf ->].
    pose proof (finish_compressed A [] suf (Z.of_nat (length A)) 0 true) as F. change (flat []) with (@nil Z) in F.
    rewrite !app_nil_r in F. rewrite F; [by rewrite app_nil_r|done|cbn [length]; lia].
  - inversion HB; subst. cbn [length] in Hn. rewrite loop_block by done. rewrite <- (app_nil_r (tail_text B)).
    destruct (loop_tail B seg b [] (Z.of_nat (length A)) (Z.of_nat (length A)) (flat A) o) as (seg' & l & o' & E & L & Wl & B' & EB & P);
      [done|done|done|rewrite flat_length; lia|lia|].
    rewrite E. eexists. split; [done|]. cbn [parse_end empty negb].
    assert (length B = length B') as LB by (apply (f_equal length) in EB; rewrite length_app in EB; simpl in EB; lia).
    destruct (put_last (Z.of_nat (length A) + Z.of_nat (length B)) (Z.of_nat (length A)) l (flat A ++ flat B') o')
      as (suf & EP & LP); [done|done|done|rewrite length_app, !flat_length; lia|lia|].
    rewrite EP. cbn iota. rewrite EB. rewrite <- (app_assoc (flat A)), <- flat_app in LP |- *.
    apply finish_compressed; [done|]. rewrite length_app. simpl. lia.
Qed.

Lemma concat_front a A :
  concat (map (fun w => hex_repr w ++ [ch_colon]) (a :: A)) = hex_repr a ++ tail_text A ++ [ch_colon].
Proof.
  revert a. induction A as [|v A IH]; intros a; [cbn; by rewrite app_nil_r|]. cbn [map concat] in *. rewrite IH.
  unfold tail_text. cbn [map concat app]. by rewrite <- !app_assoc.
Qed.

(** Parsing up to the '::'. *)
Lemma parse_front A o R :
  Forall is_word A -> length o = 16%nat -> (length A <= 6)%nat ->
  exists seg o', addr_loop true (concat (map (fun w => hex_repr w ++ [ch_colon]) A) ++ (if (length A =? 0)%nat then [ch_colon] else []) ++ ch_colon :: R)
      (concat (map (fun w => hex_repr w ++ [ch_colon]) A) ++ (if (length A =? 0)%nat then [ch_colon] else []) ++ ch_colon :: R)
      (PS 0 (-1) 0 true o) =
    addr_loop false seg R (PS (Z.of_nat (length A)) (Z.of_nat (length A)) 0 true o') /\
    length o' = 16%nat /\ flat A `prefix_of` o'.
Proof.
  intros HA Ho Hl. destruct A as [|a A].
  { exists R, o. split; [done|]. split; [done|]. by eexists. }
  rewrite concat_front. cbn [length Nat.eqb app]. rewrite <- !app_assoc. cbn [app].
  inversion HA; subst. rewrite loop_block by done. cbn [length] in Hl.
  match goal with |- context [addr_loop false ?s _ _] => set (seg := s) end.
  destruct (loop_tail A seg a (ch_colon :: ch_colon :: R) 0 (-1) [] o) as (seg' & l & o' & E & L & Wl & A' & EA & P);
    [done|done|by eexists|done|lia|]. rewrite E.
  assert (length A = length A') as LA by (apply (f_equal length) in EA; rewrite length_app in EA; simpl in EA; lia).
  destruct (put_last (0 + Z.of_nat (length A)) (-1) l (flat A') o') as (suf & EP & LP); [done|done|done|rewrite flat_length; lia|lia|].
  exists R, ((flat A' ++ flat [l]) ++ suf). split; [|split; [done|]].
  - cbn [addr_loop]. change (ch_colon =? ch_dot) with false. rewrite !Z.eqb_refl. cbn [negb andb orb empty num_blocks].
    destruct (Z.eqb_spec (0 + Z.of_nat (length A)) 7); [lia|]. rewrite EP. cbn [compress_pos]. cbn [Z.eqb negb andb num_blocks].
    do 2 f_equal; cbn [num_blocks block empty IpAddr6.out]; f_equal; lia.
  - rewrite EA, flat_app. by eexists.
Qed.

(** The text of an address without a zero run. *)
Lemma parse_plain ws o :
  Forall is_word ws -> length ws = 8%nat -> length o = 16%nat ->
  ipaddr6_parse_ipv6_addr (match ws with [] => [] | w :: B => hex_repr w ++ tail_text B end) o = Some (Some (flat ws)).
Proof.
  intros W L Ho. destruct ws as [|w B]; [done|]. inversion W; subst. cbn [length] in L.
  pose proof (loop_block true (hex_repr w ++ tail_text B) w (tail_text B) 0 (-1) o ltac:(done)) as E.
  rewrite <- (app_nil_r (tail_text B)) in E at 4.
  destruct (loop_tail B (hex_repr w ++ tail_text B) w [] 0 (-1) [] o) as (seg & l & o' & E2 & L2 & Wl & B' & EB & P);
    [done|done|by eexists|done|lia|]. rewrite E2 in E. rewrite (parse_end_eq _ _ _ E). cbn [parse_end empty negb].
  assert (length B = length B') as LB by (apply (f_equal length) in EB; rewrite length_app in EB; simpl in EB; lia).
  destruct (put_last (0 + Z.of_nat (length B)) (-1) l (flat B') o') as (suf & EP & LP);
    [done|done|done|rewrite flat_length; lia|lia|].
  rewrite EP. cbn iota. rewrite <- flat_app, <- EB in *.
  assert (suf = []) as -> by (rewrite length_app, flat_length in LP; cbn [length] in LP; apply nil_length_inv; lia).
  rewrite app_nil_r in *. replace (0 + Z.of_nat (length B) + 1) with 8 by lia. by apply finish_full.
Qed.

Lemma flat_zeros n : flat (repeat 0 n) = repeat 0 (2 * n).
Proof.
  induction n as [|n IH]; [done|]. replace (2 * S n)%nat with (S (S (2 * n))) by lia. cbn [repeat].
  rewrite <- IH. done.
Qed.

Lemma all_zero_repeat l : forallb (fun z => z) (map (fun w => w =? 0) l) = true -> l = repeat 0 (length l).
Proof. induction l as [|x l IH]; [done|]. cbn. intros E. to_prop. subst. f_equal. by apply IH. Qed.

(** The text of an address with a zero run: [A] before it, [B] after it. *)
Lemma parse_compressed A B n o :
  Forall is_word A -> Forall is_word B -> length o = 16%nat -> (length A + n + length B)%nat = 8%nat -> (2 <= n)%nat ->
  ipaddr6_parse_ipv6_addr
    (concat (map (fun w => hex_repr w ++ [ch_colon]) A) ++ (if (length A =? 0)%nat then [ch_colon] else []) ++
     concat (map (fun w => ch_colon :: hex_repr w) B) ++ (if (length B =? 0)%nat then [ch_colon] else [])) o =
  Some (Some (flat (A ++ repeat 0 n ++ B))).
Proof.
  intros WA WB Ho Hn H2.
  assert (concat (map (fun w => ch_colon :: hex_repr w) B) ++ (if (length B =? 0)%nat then [ch_colon] else []) =
          ch_colon :: match B with [] => [] | b :: B => hex_repr b ++ tail_text B end) as ->.
  { destruct B as [|b B']; [done|]. cbn. by rewrite app_nil_r. }
  destruct (parse_front A o (match B with [] => [] | b :: B => hex_repr b ++ tail_text B end) WA Ho ltac:(lia))
    as (seg & o' & E & Lo & Po).
  destruct (parse_back A B o' seg WB Lo Po ltac:(lia) ltac:(lia)) as (st & E2 & E3).
  rewrite E2 in E. rewrite (parse_end_eq _ _ st E), E3. do 2 f_equal. rewrite !flat_app, flat_zeros. do 3 f_equal. lia.
Qed.

(** ** The parser on arbitrary text *)

(** What holds of the local variables at every iteration. *)
Record loop_ok (st : parse_state) : Prop := {
  lo_out : length st.(out) = 16%nat;
  lo_num : 0 <= st.(num_blocks) <= 7;
  lo_cp : -1 <= st.(compress_pos) <= st.(num_blocks);
}.

Lemma put_block_safe st : loop_ok st -> exists b,
  put_block st = Some (PS (st.(num_blocks) + 1) st.(compress_pos) 0 true b) /\ length b = 16%nat.
Proof.
  intros [Ho Hn _]. unfold put_block.
  destruct (store_total (Z.to_nat (2 * num_blocks st)) [Z.shiftr (block st) 8; Z.land (block st) 255] (IpAddr6.out st)) as [b E];
    [cbn [length]; lia|].
  rewrite E. exists b. split; [done|]. apply store_length in E. congruence.
Qed.

Lemma addr_loop_safe n : forall name first seg st, (length name <= n)%nat -> loop_ok st ->
  exists r, addr_loop first seg name st = Some r /\ forall st' t, r = Some (st', t) -> loop_ok st'.
Proof.
  induction n as [n IH] using lt_wf_ind. intros name first seg st Hn Hok. destruct name as [|c rest]; cbn [addr_loop].
  { eexists. split; [done|]. by intros ? ? [= <- <-]. }
  cbn [length] in Hn. destruct (c =? ch_dot); [eexists; split; [done|]; by intros ? ? [= <- <-]|].
  destruct (c =? ch_colon).
  - destruct (negb first && _) eqn:E1; [by eexists|]. destruct (first && _); [by eexists|].
    assert (exists st1, (if negb first then put_block st else Some st) = Some st1 /\ loop_ok st1) as (st1 & -> & Hok1).
    { destruct first; cbn [negb andb] in *; [by eexists|]. apply orb_false_iff in E1 as [_ E1]. to_prop.
      destruct (put_block_safe st Hok) as (b & -> & Hb). eexists. split; [done|]. destruct Hok. constructor; cbn; lia. }
    destruct (_ && negb (compress_pos st1 =? -1)); [by eexists|].
    match goal with |- context [addr_loop false rest rest ?s] => set (st2 := s); assert (loop_ok st2) as Hok2 end.
    { destruct Hok1. unfold st2. match goal with |- context [if ?b then _ else _] => destruct b end; constructor; cbn; lia. }
    destruct rest as [|d rest']; [eapply (IH 0%nat); [lia|cbn; lia|done]|]. cbn [length] in Hn.
    destruct (d =? ch_colon); [eapply (IH (length rest')); [lia|lia|done]|eapply (IH (S (length rest'))); [lia|done|done]].
  - destruct (_ <? 0); [by eexists|]. destruct (_ <? block st); [by eexists|]. destruct (_ <? _); [by eexists|].
    eapply (IH (length rest)); [lia|lia|]. destruct Hok. by constructor.
Qed.

Lemma ipv4_loop_four name : forall acc byte e four, ipv4_loop name acc byte e = Some four -> length four = 4%nat.
Proof.
  induction name as [|c rest IH]; intros acc byte e four; cbn [ipv4_loop].
  - destruct (Nat.eqb_spec (length acc) 3); [|done]. destruct e; [done|]. intros [= <-]. rewrite length_app. cbn. lia.
  - repeat match goal with |- (if ?b then _ else _) = _ -> _ => destruct b; try done; try (by apply IH) end.
Qed.

Lemma addr_finish_safe st :
  length st.(out) = 16%nat -> 0 <= st.(num_blocks) <= 8 -> -1 <= st.(compress_pos) <= st.(num_blocks) ->
  exists r, addr_finish st = Some r /\ forall a, r = Some a -> length a = 16%nat.
Proof.
  intros Ho Hn Hc. unfold addr_finish. destruct (_ && _) eqn:E; [by eexists|].
  set (cp := if compress_pos st =? -1 then 0 else compress_pos st).
  assert (0 <= cp <= num_blocks st) as Hcp by (unfold cp; destruct (Z.eqb_spec (compress_pos st) (-1)); lia).
  set (nr := num_blocks st - cp). rewrite (proj2 (Z.leb_le 0 _)) by lia.
  match goal with |- context [store ?o ?d ?l] => destruct (store_total o d l) as [b Eb]; [rewrite length_take, length_drop; lia|] end.
  rewrite Eb. apply store_length in Eb.
  match goal with |- context [store ?o ?d ?l] => destruct (store_total o d l) as [b' Eb']; [rewrite repeat_length; lia|] end.
  rewrite Eb'. apply store_length in Eb'.
  eexists. split; [done|]. intros a [= <-]. congruence.
Qed.

Lemma parse_safe name out_addr :
  length out_addr = 16%nat ->
  exists r, ipaddr6_parse_ipv6_addr name out_addr = Some r /\ forall a, r = Some a -> length a = 16%nat.
Proof.
  intros Ho. unfold ipaddr6_parse_ipv6_addr.
  destruct (addr_loop_safe (length name) name true name (PS 0 (-1) 0 true out_addr)) as (r & -> & Hr);
    [done|by constructor; cbn; lia|].
  destruct r as [[st [seg|]]|]; [| |by eexists]; destruct (Hr _ _ eq_refl) as [Hl Hn Hc].
  - destruct (_ || _); [by eexists|]. destruct (ipv4_loop seg [] 0 true) as [four|] eqn:E4; [|by eexists].
    apply ipv4_loop_four in E4. destruct (Z.ltb_spec (8 - num_blocks st) 2); [by eexists|].
    destruct (store_total (Z.to_nat (2 * num_blocks st)) four (IpAddr6.out st)) as [b Eb]; [lia|]. rewrite Eb.
    apply store_length in Eb. apply addr_finish_safe; cbn; lia || congruence.
  - destruct (empty st); cbn [negb].
    + destruct (negb _); [by eexists|]. apply addr_finish_safe; lia.
    + destruct (put_block_safe st) as (b & -> & Hb); [by constructor|]. apply addr_finish_safe; cbn; lia.
Qed.

(** ** Masks *)

(** The mask of a prefix: ones in its first [prefix] bits. *)
Definition mask_bytes (prefix : Z) : bytes :=
  repeat UINT8_MAX (Z.to_nat (prefix / 8)) ++
  (if prefix mod 8 =? 0 then repeat 0 (Z.to_nat (16 - prefix / 8))
   else or_bits (Z.to_nat (prefix mod 8)) 0 0 :: repeat 0 (Z.to_nat (15 - prefix / 8))).

Lemma mask_from_prefix_eq prefix o :
  0 <= prefix <= 128 -> length o = 16%nat ->
  ipaddr6_ipv6_mask_from_prefix prefix o = Some (mask_bytes prefix).
Proof.
  intros Hp Ho. unfold ipaddr6_ipv6_mask_from_prefix, mask_bytes.
  rewrite (proj2 (Z.leb_le 0 prefix)), (proj2 (Z.leb_le prefix 128)) by lia.
  pose proof (Z.div_mod prefix 8). pose proof (Z.mod_pos_bound prefix 8).
  set (q := prefix / 8) in *. set (r := prefix mod 8) in *.
  destruct (list_split_at (Z.to_nat q) o) as (a & b & -> & La); [lia|]. rewrite length_app in Ho.
  assert ((if 0 <? q then store 0 (repeat UINT8_MAX (Z.to_nat q)) (a ++ b) else Some (a ++ b)) =
          Some (repeat UINT8_MAX (Z.to_nat q) ++ b)) as ->.
  { destruct (Z.ltb_spec 0 q).
    - apply (store_mid 0 _ [] a b); [done|]. by rewrite repeat_length.
    - assert (q = 0) as -> by lia. destruct a; [done|cbn in La; lia]. }
  assert ((if 0 <? 16 - q then store (Z.to_nat q) (repeat 0 (Z.to_nat (16 - q))) (repeat UINT8_MAX (Z.to_nat q) ++ b)
           else Some (repeat UINT8_MAX (Z.to_nat q) ++ b)) =
          Some (repeat UINT8_MAX (Z.to_nat q) ++ repeat 0 (Z.to_nat (16 - q)))) as ->.
  { destruct (Z.ltb_spec 0 (16 - q)).
    - pose proof (store_mid (Z.to_nat q) (repeat 0 (Z.to_nat (16 - q))) (repeat UINT8_MAX (Z.to_nat q)) b []) as E.
      rewrite !app_nil_r in E. apply E; rewrite !repeat_length; lia.
    - assert (q = 16) as -> by lia. destruct b; [done|cbn in *; lia]. }
  destruct (Z.eqb_spec r 0); [done|]. replace (Z.to_nat (16 - q)) with (S (Z.to_nat (15 - q))) by lia. cbn [repeat].
  rewrite list_lookup_middle by (by rewrite repeat_length).
  apply (store_mid _ [_] _ [0]); [by rewrite repeat_length|done].
Qed.

Lemma prefix_of_mask_bytes prefix :
  0 <= prefix <= 128 -> ipaddr6_ipv6_prefix_from_mask (mask_bytes prefix) = Some prefix.
Proof.
  intros Hp. set (ok p := match ipaddr6_ipv6_prefix_from_mask (mask_bytes p) with Some p' => p' =? p | None => false end).
  assert (forallb ok (map Z.of_nat (seq 0 129)) = true) as H by (vm_compute; reflexivity).
  rewrite forallb_forall in H. specialize (H prefix). unfold ok in H.
  destruct (ipaddr6_ipv6_prefix_from_mask (mask_bytes prefix)) as [p'|].
  - f_equal. apply Z.eqb_eq, H, in_map_iff. exists (Z.to_nat prefix). rewrite in_seq. lia.
  - exfalso. discriminate H. apply in_map_iff. exists (Z.to_nat prefix). rewrite in_seq. lia.
Qed.

Lemma skip_ones_spec mask n p rest : skip_ones mask n = (p, rest) ->
  exists k, mask = repeat UINT8_MAX k ++ rest /\ p = n + 8 * Z.of_nat k /\
    match rest with b :: _ => b <> UINT8_MAX | [] => True end.
Proof.
  revert n. induction mask as [|b mask IH]; intros n; cbn [skip_ones].
  { intros [= <- <-]. exists 0%nat. split; [done|]. split; [lia|done]. }
  destruct (Z.eqb_spec b UINT8_MAX) as [->|Hb].
  - intros E. destruct (IH _ E) as (k & -> & -> & Hr). exists (S k). split; [done|]. split; [lia|done].
  - intros [= <- <-]. exists 0%nat. split; [done|]. split; [lia|done].
Qed.

Lemma partial_ones_spec b j : partial_ones 9 b 0 0 = Some j -> 0 <= j <= 8 /\ b = or_bits (Z.to_nat j) 0 0.
Proof.
  cbn [partial_ones].
  repeat match goal with |- context [b =? ?t] => destruct (Z.eqb_spec b t) as [->|_]; [intros [= <-]; split; [lia|reflexivity]|] end.
  done.
Qed.

Lemma forallb_zero l : forallb (fun x => x =? 0) l = true -> l = repeat 0 (length l).
Proof. induction l as [|x l IH]; [done|]. cbn. intros E. to_prop. subst. f_equal. by apply IH. Qed.

Lemma mask_of_prefix_from_mask mask prefix :
  length mask = 16%nat -> ipaddr6_ipv6_prefix_from_mask mask = Some prefix -> 0 <= prefix <= 128 /\ mask = mask_bytes prefix.
Proof.
  intros Hl. unfold ipaddr6_ipv6_prefix_from_mask. destruct (skip_ones mask 0) as [p rest] eqn:E.
  apply skip_ones_spec in E as (k & -> & -> & Hr). rewrite length_app, repeat_length in Hl.
  destruct rest as [|b rest]; cbn [length] in Hl.
  { intros [= <-]. split; [lia|]. replace k with 16%nat by lia. reflexivity. }
  destruct (partial_ones 9 b 0 0) as [j|] eqn:Ej; [|done]. apply partial_ones_spec in Ej as [Hj ->].
  destruct (forallb _ rest) eqn:Ez; [|done]. apply forallb_zero in Ez. intros [= <-]. split; [lia|].
  assert (j <> 8) as Hj8 by (intros ->; by apply Hr).
  unfold mask_bytes. replace ((0 + 8 * Z.of_nat k + j) / 8) with (Z.of_nat k) by (Z.div_mod_to_equations; lia).
  replace ((0 + 8 * Z.of_nat k + j) mod 8) with j by (Z.div_mod_to_equations; lia). rewrite Nat2Z.id. f_equal.
  rewrite Ez. destruct (Z.eqb_spec j 0) as [->|].
  - replace (Z.to_nat (16 - Z.of_nat k)) with (S (length rest)) by lia. done.
  - do 2 f_equal. lia.
Qed.

(** The bytes of an address that its mask keeps. *)
Definition masked (addr mask : bytes) : bytes := zip_with Z.land addr mask.

Lemma masked_ones l : bytes_ok l -> masked l (repeat UINT8_MAX (length l)) = l.
Proof.
  induction 1 as [|x l Hx Hl IH]; [done|]. unfold masked in *. cbn. rewrite IH. f_equal.
  unfold is_byte in Hx. change UINT8_MAX with (Z.ones 8). rewrite Z.land_ones by lia. apply Z.mod_small. lia.
Qed.
Lemma masked_zeros l n : (length l <= n)%nat -> masked l (repeat 0 n) = repeat 0 (length l).
Proof.
  revert n. induction l as [|x l IH]; intros [|n] Hn; try done; [cbn in Hn; lia|]. unfold masked in *. cbn.
  rewrite IH by (cbn in Hn; lia). by rewrite Z.land_0_r.
Qed.
Lemma memcmp_eq a b : length a = length b -> (memcmp a b =? 0) = bool_decide (a = b).
Proof.
  revert b. induction a as [|x a IH]; intros [|y b] Hl; try done. cbn [memcmp].
  destruct (Z.ltb_spec x y); [symmetry; apply bool_decide_eq_false; intros [= -> ->]; lia|].
  destruct (Z.ltb_spec y x); [symmetry; apply bool_decide_eq_false; intros [= -> ->]; lia|].
  rewrite IH by (by injection Hl). assert (x = y) as -> by lia. apply bool_decide_ext. split; [by intros ->|by intros [= ->]].
Qed.

End IpAddr6.
Import IpAddr6.

(** Parsing a printed IPv6 address gives the address back.  For every
    address, the text [ipaddr6_print_addr] writes (with its longest run of
    zero blocks replaced by '::') is accepted by [ipaddr6_parse_ipv6_addr],
    which never writes outside the sixteen bytes and returns exactly that
    address, whatever the output held before. *)
Theorem ipv6_print_parse addr out0 :
  bytes_ok addr -> length addr = 16%nat -> length out0 = 16%nat ->
  ipaddr6_parse_ipv6_addr (ipaddr6_print_addr addr) out0 = Some (Some addr).
Proof.
  intros Hb Hl Ho. destruct (words_flat addr Hb) as (F & W & L & Zr); [by rewrite Hl|]. rewrite Hl in L.
  pose proof (scan_all_ok (zero_blocks addr)) as Hs. rewrite Zr, length_map in Hs. specialize (Hs ltac:(lia)).
  unfold scan_ok in Hs. unfold ipaddr6_print_addr. rewrite Zr. set (s := scan_blocks _ 0 _) in *. to_prop.
  set (ws := words addr) in *. destruct (Z.ltb_spec 1 (largest_len s)) as [Hrun|_].
  - set (ns := Z.to_nat (largest_start s)) in *. set (nl := Z.to_nat (largest_len s)) in *.
    replace (Z.to_nat (largest_start s + largest_len s)) with (ns + nl)%nat by lia.
    set (A := take ns ws). set (B := drop (ns + nl) ws).
    assert (length A = ns) as LA by (unfold A; rewrite length_take; lia).
    assert (length B = (8 - (ns + nl))%nat) as LB by (unfold B; rewrite length_drop; lia).
    replace (largest_start s =? 0) with (length A =? 0)%nat
      by (destruct (Z.eqb_spec (largest_start s) 0), (Nat.eqb_spec (length A) 0); lia || done).
    replace (largest_start s + largest_len s =? 8) with (length B =? 0)%nat
      by (destruct (Z.eqb_spec (largest_start s + largest_len s) 8), (Nat.eqb_spec (length B) 0); lia || done).
    rewrite (parse_compressed A B nl) by (done || lia || by apply Forall_take || by apply Forall_drop).
    do 2 f_equal. rewrite <- F. f_equal. transitivity (take ns ws ++ take nl (drop ns ws) ++ drop nl (drop ns ws)); [|by rewrite !take_drop].
    unfold A, B. rewrite drop_drop. do 2 f_equal.
    rewrite skipn_map, firstn_map in H0. apply all_zero_repeat in H0. rewrite H0. f_equal.
    rewrite length_take, length_drop. lia.
  - rewrite <- F. by apply parse_plain; [|lia|].
Qed.

Lemma ipv6_print_parse_witness :
  ipaddr6_print_addr ([32; 1; 13; 184] ++ repeat 0 11 ++ [66]) = bs "2001:db8::42" /\
  ipaddr6_parse_ipv6_addr (bs "2001:db8::42") (repeat 255 16) = Some (Some ([32; 1; 13; 184] ++ repeat 0 11 ++ [66])).
Proof.
  assert (ipaddr6_print_addr ([32; 1; 13; 184] ++ repeat 0 11 ++ [66]) = bs "2001:db8::42") as E by (vm_compute; reflexivity).
  split; [exact E|]. rewrite <- E.
  apply ipv6_print_parse; [|reflexivity|reflexivity]. repeat constructor; unfold is_byte; lia.
Defined.

(** [ipaddr6_parse_ipv6_addr] is memory-safe on arbitrary text.  Whatever
    the bytes of [name] (unbounded blocks, several '::', an IPv4 ending
    anywhere), the parser ends, every write it makes lies inside the sixteen
    bytes of the output, the gap it moves and clears for '::' is never
    negative, and an accepted name fills exactly sixteen bytes. *)
Theorem ipv6_parse_safe name out_addr :
  length out_addr = 16%nat ->
  exists r, ipaddr6_parse_ipv6_addr name out_addr = Some r /\ forall a, r = Some a -> length a = 16%nat.
Proof. apply parse_safe. Qed.

Lemma ipv6_parse_safe_witness :
  (exists r, ipaddr6_parse_ipv6_addr (bs "1::2:3:4:5:6:7:8:9:a") (repeat 0 16) = Some r /\
     forall a, r = Some a -> length a = 16%nat) /\
  ipaddr6_parse_ipv6_addr (bs "::ffff:10.0.0.1") (repeat 7 16) = Some (Some (repeat 0 10 ++ [255; 255; 10; 0; 0; 1])).
Proof. split; [apply ipv6_parse_safe; reflexivity|vm_compute; reflexivity]. Defined.

(** Prefix lengths and network masks correspond exactly.  For every prefix
    length, [ipaddr6_ipv6_mask_from_prefix] passes its assertions, stays
    inside the sixteen bytes whatever they held, and the mask it writes is
    turned back into the prefix by [ipaddr6_ipv6_prefix_from_mask]; and a mask
    that routine accepts is exactly the mask of the prefix it returns, so it
    rejects every mask whose ones are not contiguous. *)
Theorem ipv6_mask_prefix :
  (forall prefix out, 0 <= prefix <= 128 -> length out = 16%nat ->
     exists mask, ipaddr6_ipv6_mask_from_prefix prefix out = Some mask /\ length mask = 16%nat /\
       ipaddr6_ipv6_prefix_from_mask mask = Some prefix) /\
  (forall mask prefix out, length mask = 16%nat -> length out = 16%nat ->
     ipaddr6_ipv6_prefix_from_mask mask = Some prefix ->
     0 <= prefix <= 128 /\ ipaddr6_ipv6_mask_from_prefix prefix out = Some mask).
Proof.
  split.
  - intros prefix o Hp Ho. exists (mask_bytes prefix). split; [by apply mask_from_prefix_eq|].
    split; [|by apply prefix_of_mask_bytes]. unfold mask_bytes.
    destruct (Z.eqb_spec (prefix mod 8) 0); cbn [length]; rewrite length_app; cbn [length];
      rewrite !repeat_length; Z.div_mod_to_equations; lia.
  - intros mask prefix o Hm Ho E. apply mask_of_prefix_from_mask in E as [Hp ->]; [|done].
    split; [done|]. by apply mask_from_prefix_eq.
Qed.

Lemma ipv6_mask_prefix_witness :
  (exists mask, ipaddr6_ipv6_mask_from_prefix 53 (repeat 170 16) = Some mask /\ length mask = 16%nat /\
     ipaddr6_ipv6_prefix_from_mask mask = Some 53) /\
  ipaddr6_ipv6_mask_from_prefix 20 (repeat 7 16) = Some ([255; 255; 240] ++ repeat 0 13).
Proof.
  split; [apply (proj1 ipv6_mask_prefix); [lia|reflexivity]|].
  apply (proj2 ipv6_mask_prefix); reflexivity.
Defined.

(** [ipaddr6_ipv6_addrs_in_network] decides membership in a network: for
    every prefix length it passes its assertions, reads only bytes of the two
    addresses, and answers whether the addresses agree under the mask that
    [ipaddr6_ipv6_mask_from_prefix] computes for that prefix. *)
Theorem ipv6_same_network a b prefix out mask :
  bytes_ok a -> bytes_ok b -> length a = 16%nat -> length b = 16%nat -> length out = 16%nat -> 0 <= prefix <= 128 ->
  ipaddr6_ipv6_mask_from_prefix prefix out = Some mask ->
  ipaddr6_ipv6_addrs_in_network a b prefix = Some (bool_decide (masked a mask = masked b mask)).
Proof.
  intros Ba Bb La Lb Lo Hp. rewrite mask_from_prefix_eq by done. intros [= <-].
  unfold ipaddr6_ipv6_addrs_in_network, mask_bytes.
  rewrite (proj2 (Z.leb_le 0 prefix)), (proj2 (Z.leb_le prefix 128)) by lia.
  pose proof (Z.div_mod prefix 8). pose proof (Z.mod_pos_bound prefix 8).
  set (q := prefix / 8) in *. set (r := prefix mod 8) in *.
  destruct (list_split_at (Z.to_nat q) a) as (a1 & a2 & -> & La1); [lia|].
  destruct (list_split_at (Z.to_nat q) b) as (b1 & b2 & -> & Lb1); [lia|].
  apply Forall_app in Ba as [Ba1 Ba2], Bb as [Bb1 Bb2]. rewrite length_app in La, Lb.
  rewrite !take_app_length' by done. rewrite memcmp_eq by lia. unfold masked.
  rewrite !zip_with_app by (rewrite repeat_length; done).
  pose proof (masked_ones a1 Ba1) as Ma. pose proof (masked_ones b1 Bb1) as Mb. rewrite La1 in Ma. rewrite Lb1 in Mb.
  unfold masked in Ma, Mb. rewrite Ma, Mb.
  destruct (bool_decide_reflect (a1 = b1)) as [->|Hne]; cbn [negb];
    [|do 2 f_equal; symmetry; apply bool_decide_eq_false; intros E; apply app_inj_1 in E as [E _]; [done|lia]].
  destruct (Z.eqb_spec r 0).
  - fold (masked a2 (repeat 0 (Z.to_nat (16 - q)))). fold (masked b2 (repeat 0 (Z.to_nat (16 - q)))).
    rewrite !masked_zeros by lia. replace (length b2) with (length a2) by lia. by rewrite bool_decide_true.
  - destruct a2 as [|x a2]; [cbn in La; lia|]. destruct b2 as [|y b2]; [cbn in Lb; lia|]. cbn [length] in La, Lb.
    rewrite !list_lookup_middle by done. f_equal. cbn [zip_with].
    fold (masked a2 (repeat 0 (Z.to_nat (15 - q)))). fold (masked b2 (repeat 0 (Z.to_nat (15 - q)))).
    rewrite !masked_zeros by lia. replace (length b2) with (length a2) by lia.
    set (t := or_bits _ _ _). destruct (Z.eqb_spec (Z.land x t) (Z.land y t)) as [->|Hn].
    + by rewrite bool_decide_true.
    + symmetry. apply bool_decide_eq_false. intros E. apply app_inv_head in E. by injection E.
Qed.

Lemma ipv6_same_network_witness :
  ipaddr6_ipv6_addrs_in_network (repeat 32 16) ([32; 32; 47] ++ repeat 1 13) 20 =
  Some (bool_decide (masked (repeat 32 16) ([255; 255; 240] ++ repeat 0 13) =
                     masked ([32; 32; 47] ++ repeat 1 13) ([255; 255; 240] ++ repeat 0 13))).
Proof.
  apply (ipv6_same_network _ _ 20 (repeat 0 16)); try reflexivity; try lia; repeat constructor; unfold is_byte; lia.
Defined.
