(* ===== verification/Options.v ===== *)
(** * Options of tun2socks

    Models the command line of [tun2socks/tun2socks.c] ([parse_arguments],
    [process_arguments]) and what it calls: [misc/loglevel.h],
    [misc/read_file.h], [misc/concat_strings.h] and
    [BLogGlobal_GetChannelByName].  The arguments are NUL-free strings, as byte
    lists.  The list of log channels, which is generated, and [getaddrinfo] are
    parameters. *)

From S2P Require Import Prelude.
From S2P Require Import Words.
From S2P Require Import ParseNumber.
From S2P Require Import CLib.
From S2P Require Import Addr.
From S2P Require Import IpAddr6.
From S2P Require Import SocksClient.
Import ByteOrder BAddr SocksClient.

(** ** Strings and files *)

(** [!strcmp(a, b)] *)
Fixpoint streq (a b : bytes) : bool :=
  match a, b with
  | [], [] => true
  | x :: a, y :: b => (x =? y) && streq a b
  | _, _ => false
  end.

Lemma streq_eq a b : streq a b = true <-> a = b.
Proof.
  revert b. induction a as [|x a IH]; intros [|y b]; cbn; try done.
  rewrite andb_true_iff, Z.eqb_eq, IH. split; [by intros [-> ->]|by intros [= -> ->]].
Qed.

Module Options.

Definition BLOG_ERROR : Z := 1.
Definition BLOG_WARNING : Z := 2.
Definition BLOG_NOTICE : Z := 3.
Definition BLOG_INFO : Z := 4.
Definition BLOG_DEBUG : Z := 5.
Definition LOGGER_STDOUT : Z := 1.
Definition LOGGER_SYSLOG : Z := 2.

Definition parse_loglevel (str : bytes) : Z :=
  if streq str (bs "none") then 0
  else if streq str (bs "error") then BLOG_ERROR
  else if streq str (bs "warning") then BLOG_WARNING
  else if streq str (bs "notice") then BLOG_NOTICE
  else if streq str (bs "info") then BLOG_INFO
  else if streq str (bs "debug") then BLOG_DEBUG
  else
    let '(res, endptr) := strtol10 str in
    if negb (match str with [] => true | _ => false end) && (match endptr with [] => true | _ => false end)
       && (0 <=? res) && (res <=? BLOG_DEBUG)
    then res else -1.

(** The first loop of [concat_strings]: the sum of the lengths, unless it
    would not leave room for the NUL. *)
Fixpoint sum_lengths (strs : list bytes) (sum : Z) : option Z :=
  match strs with
  | [] => Some sum
  | s :: strs =>
      let str_len := Z.of_nat (length s) in
      if u64 (SIZE_MAX - 1 - sum) <? str_len then None else sum_lengths strs (u64 (sum + str_len))
  end.

(** The second loop; [None] when a copy leaves the allocation. *)
Fixpoint copy_strings (strs : list bytes) (sum : nat) (res : bytes) : option (bytes * nat) :=
  match strs with
  | [] => Some (res, sum)
  | s :: strs => LET res <- store sum s res in copy_strings strs (sum + length s) res
  end.

(** [malloc n] is the contents of the new block, [None] on failure.  The result
    is [Some None] for NULL and the whole block with its NUL otherwise. *)
Definition concat_strings (malloc : Z -> option bytes) (strs : list bytes) : option (option bytes) :=
  match sum_lengths strs 0 with
  | None => Some None
  | Some sum =>
      match malloc (u64 (sum + 1)) with
      | None => Some None
      | Some res_str =>
          LET r <- copy_strings strs 0 res_str in
          let '(res_str, n) := r in
          LET res_str <- store n [0] res_str in
          Some (Some res_str)
      end
  end.

(** A file: its contents and the offset at which reading fails, if any.
    [fread] returns as much as it was asked for unless the file ends or a read
    error occurs. *)
Record file := File { contents : bytes; error_at : option nat }.

Definition fread (f : file) (pos n : nat) : bytes :=
  let avail := match f.(error_at) with Some e => take e f.(contents) | None => f.(contents) end in
  take n (drop pos avail).
Definition feof (f : file) (pos : nat) : bool :=
  (length f.(contents) <=? pos)%nat && match f.(error_at) with Some e => (length f.(contents) <? e)%nat | None => true end.

(** The loop of [read_file].  [buf] is the allocation, [buf_len] the bytes read
    so far; [alloc_ok size] tells whether an allocation of that size succeeds,
    and what [realloc] adds is unspecified, here zero.  [None] is a write
    outside the buffer or too little fuel. *)
Fixpoint read_loop (fuel : nat) (alloc_ok : Z -> bool) (f : file) (buf : bytes) (buf_len : nat)
  : option (option (bytes * nat)) :=
  match fuel with
  | O => None
  | S fuel =>
      let buf_size := length buf in
      let grown :=
        if (buf_len =? buf_size)%nat then
          if SIZE_MAX / Z.of_nat buf_size <? 2 then None
          else if alloc_ok (2 * Z.of_nat buf_size) then Some (buf ++ repeat 0 buf_size) else None
        else Some buf in
      match grown with
      | None => Some None
      | Some buf =>
          let chunk := fread f buf_len (length buf - buf_len) in
          match chunk with
          | [] => if feof f buf_len then Some (Some (buf, buf_len)) else Some None
          | _ => LET buf <- store buf_len chunk buf in read_loop fuel alloc_ok f buf (buf_len + length chunk)
          end
      end
  end.

(** [fopen file = None] is a failure to open; the result is the data. *)
Definition read_file (alloc_ok : Z -> bool) (f : option file) : option (option bytes) :=
  match f with
  | None => Some None
  | Some f =>
      if negb (alloc_ok 128) then Some None
      else
        LET r <- read_loop (S (S (length f.(contents)))) alloc_ok f (repeat 0 128) 0 in
        match r with
        | None => Some None
        | Some (buf, buf_len) => Some (Some (take buf_len buf))
        end
  end.

(** ** The options *)

Record options := Opt {
  help : bool;
  version : bool;
  logger : Z;
  logger_syslog_facility : bytes;
  logger_syslog_ident : bytes;
  loglevel : Z;
  loglevels : list Z;
  tundev : option bytes;
  netif_ipaddr : option bytes;
  netif_netmask : option bytes;
  netif_ip6addr : option bytes;
  socks_server_addr : option bytes;
  username : option bytes;
  password : option bytes;
  password_file : option bytes;
  append_source_to_username : bool;
}.

Definition set_help (v : bool) (o : options) : options :=
  Opt
      v o.(version) o.(logger) o.(logger_syslog_facility) o.(logger_syslog_ident) o.(loglevel)
      o.(loglevels) o.(tundev) o.(netif_ipaddr) o.(netif_netmask) o.(netif_ip6addr) o.(socks_server_addr)
      o.(username) o.(password) o.(password_file) o.(append_source_to_username).
Definition set_version (v : bool) (o : options) : options :=
  Opt
      o.(help) v o.(logger) o.(logger_syslog_facility) o.(logger_syslog_ident) o.(loglevel) o.(loglevels)
      o.(tundev) o.(netif_ipaddr) o.(netif_netmask) o.(netif_ip6addr) o.(socks_server_addr) o.(username)
      o.(password) o.(password_file) o.(append_source_to_username).
Definition set_logger (v : Z) (o : options) : options :=
  Opt
      o.(help) o.(version) v o.(logger_syslog_facility) o.(logger_syslog_ident) o.(loglevel)
      o.(loglevels) o.(tundev) o.(netif_ipaddr) o.(netif_netmask) o.(netif_ip6addr) o.(socks_server_addr)
      o.(username) o.(password) o.(password_file) o.(append_source_to_username).
Definition set_logger_syslog_facility (v : bytes) (o : options) : options :=
  Opt
      o.(help) o.(version) o.(logger) v o.(logger_syslog_ident) o.(loglevel) o.(loglevels) o.(tundev)
      o.(netif_ipaddr) o.(netif_netmask) o.(netif_ip6addr) o.(socks_server_addr) o.(username)
      o.(password) o.(password_file) o.(append_source_to_username).
Definition set_logger_syslog_ident (v : bytes) (o : options) : options :=
  Opt
      o.(help) o.(version) o.(logger) o.(logger_syslog_facility) v o.(loglevel) o.(loglevels) o.(tundev)
      o.(netif_ipaddr) o.(netif_netmask) o.(netif_ip6addr) o.(socks_server_addr) o.(username)
      o.(password) o.(password_file) o.(append_source_to_username).
Definition set_loglevel (v : Z) (o : options) : options :=
  Opt
      o.(help) o.(version) o.(logger) o.(logger_syslog_facility) o.(logger_syslog_ident) v o.(loglevels)
      o.(tundev) o.(netif_ipaddr) o.(netif_netmask) o.(netif_ip6addr) o.(socks_server_addr) o.(username)
      o.(password) o.(password_file) o.(append_source_to_username).
Definition set_loglevels (v : list Z) (o : options) : options :=
  Opt
      o.(help) o.(version) o.(logger) o.(logger_syslog_facility) o.(logger_syslog_ident) o.(loglevel) v
      o.(tundev) o.(netif_ipaddr) o.(netif_netmask) o.(netif_ip6addr) o.(socks_server_addr) o.(username)
      o.(password) o.(password_file) o.(append_source_to_username).
Definition set_tundev (v : option bytes) (o : options) : options :=
  Opt
      o.(help) o.(version) o.(logger) o.(logger_syslog_facility) o.(logger_syslog_ident) o.(loglevel)
      o.(loglevels) v o.(netif_ipaddr) o.(netif_netmask) o.(netif_ip6addr) o.(socks_server_addr)
      o.(username) o.(password) o.(password_file) o.(append_source_to_username).
Definition set_netif_ipaddr (v : option bytes) (o : options) : options :=
  Opt
      o.(help) o.(version) o.(logger) o.(logger_syslog_facility) o.(logger_syslog_ident) o.(loglevel)
      o.(loglevels) o.(tundev) v o.(netif_netmask) o.(netif_ip6addr) o.(socks_server_addr) o.(username)
      o.(password) o.(password_file) o.(append_source_to_username).
Definition set_netif_netmask (v : option bytes) (o : options) : options :=
  Opt
      o.(help) o.(version) o.(logger) o.(logger_syslog_facility) o.(logger_syslog_ident) o.(loglevel)
      o.(loglevels) o.(tundev) o.(netif_ipaddr) v o.(netif_ip6addr) o.(socks_server_addr) o.(username)
      o.(password) o.(password_file) o.(append_source_to_username).
Definition set_netif_ip6addr (v : option bytes) (o : options) : options :=
  Opt
      o.(help) o.(version) o.(logger) o.(logger_syslog_facility) o.(logger_syslog_ident) o.(loglevel)
      o.(loglevels) o.(tundev) o.(netif_ipaddr) o.(netif_netmask) v o.(socks_server_addr) o.(username)
      o.(password) o.(password_file) o.(append_source_to_username).
Definition set_socks_server_addr (v : option bytes) (o : options) : options :=
  Opt
      o.(help) o.(version) o.(logger) o.(logger_syslog_facility) o.(logger_syslog_ident) o.(loglevel)
      o.(loglevels) o.(tundev) o.(netif_ipaddr) o.(netif_netmask) o.(netif_ip6addr) v o.(username)
      o.(password) o.(password_file) o.(append_source_to_username).
Definition set_username (v : option bytes) (o : options) : options :=
  Opt
      o.(help) o.(version) o.(logger) o.(logger_syslog_facility) o.(logger_syslog_ident) o.(loglevel)
      o.(loglevels) o.(tundev) o.(netif_ipaddr) o.(netif_netmask) o.(netif_ip6addr) o.(socks_server_addr)
      v o.(password) o.(password_file) o.(append_source_to_username).
Definition set_password (v : option bytes) (o : options) : options :=
  Opt
      o.(help) o.(version) o.(logger) o.(logger_syslog_facility) o.(logger_syslog_ident) o.(loglevel)
      o.(loglevels) o.(tundev) o.(netif_ipaddr) o.(netif_netmask) o.(netif_ip6addr) o.(socks_server_addr)
      o.(username) v o.(password_file) o.(append_source_to_username).
Definition set_password_file (v : option bytes) (o : options) : options :=
  Opt
      o.(help) o.(version) o.(logger) o.(logger_syslog_facility) o.(logger_syslog_ident) o.(loglevel)
      o.(loglevels) o.(tundev) o.(netif_ipaddr) o.(netif_netmask) o.(netif_ip6addr) o.(socks_server_addr)
      o.(username) o.(password) v o.(append_source_to_username).
Definition set_append_source_to_username (v : bool) (o : options) : options :=
  Opt
      o.(help) o.(version) o.(logger) o.(logger_syslog_facility) o.(logger_syslog_ident) o.(loglevel)
      o.(loglevels) o.(tundev) o.(netif_ipaddr) o.(netif_netmask) o.(netif_ip6addr) o.(socks_server_addr)
      o.(username) o.(password) o.(password_file) v.

Section Args.
(** The names of [blog_channel_list]. *)
Context (channels : list bytes).

(** [blog_channel_list] searched from index [i] on. *)
Fixpoint channel_from (l : list bytes) (i : Z) (name : bytes) : Z :=
  match l with
  | [] => -1
  | c :: l => if streq c name then i else channel_from l (i + 1) name
  end.
Definition BLogGlobal_GetChannelByName (name : bytes) : Z := channel_from channels 0 name.

Definition default_options (argv0 : bytes) : options :=
  Opt false false LOGGER_STDOUT (bs "daemon") argv0 (-1) (repeat (-1) (length channels))
    None None None None None None None None false.

(** The loop over the arguments after [argv[0]]; [false] is the return value
    0, with the options as they are at that point. *)
Fixpoint parse_loop (args : list bytes) (o : options) : options * bool :=
  match args with
  | [] => (o, true)
  | arg :: rest =>
      if streq arg (bs "--help") then parse_loop rest (set_help true o)
      else if streq arg (bs "--version") then parse_loop rest (set_version true o)
      else if streq arg (bs "--logger") then
        match rest with
        | arg2 :: rest =>
            if streq arg2 (bs "stdout") then parse_loop rest (set_logger LOGGER_STDOUT o)
            else if streq arg2 (bs "syslog") then parse_loop rest (set_logger LOGGER_SYSLOG o)
            else (o, false)
        | [] => (o, false)
        end
      else if streq arg (bs "--syslog-facility") then
        match rest with v :: rest => parse_loop rest (set_logger_syslog_facility v o) | [] => (o, false) end
      else if streq arg (bs "--syslog-ident") then
        match rest with v :: rest => parse_loop rest (set_logger_syslog_ident v o) | [] => (o, false) end
      else if streq arg (bs "--loglevel") then
        match rest with
        | v :: rest =>
            let o := set_loglevel (parse_loglevel v) o in
            if o.(loglevel) <? 0 then (o, false) else parse_loop rest o
        | [] => (o, false)
        end
      else if streq arg (bs "--channel-loglevel") then
        match rest with
        | name :: v :: rest =>
            let channel := BLogGlobal_GetChannelByName name in
            if channel <? 0 then (o, false)
            else
              let loglevel := parse_loglevel v in
              if loglevel <? 0 then (o, false)
              else parse_loop rest (set_loglevels (<[Z.to_nat channel := loglevel]> o.(loglevels)) o)
        | _ => (o, false)
        end
      else if streq arg (bs "--tundev") then
        match rest with v :: rest => parse_loop rest (set_tundev (Some v) o) | [] => (o, false) end
      else if streq arg (bs "--netif-ipaddr") then
        match rest with v :: rest => parse_loop rest (set_netif_ipaddr (Some v) o) | [] => (o, false) end
      else if streq arg (bs "--netif-netmask") then
        match rest with v :: rest => parse_loop rest (set_netif_netmask (Some v) o) | [] => (o, false) end
      else if streq arg (bs "--netif-ip6addr") then
        match rest with v :: rest => parse_loop rest (set_netif_ip6addr (Some v) o) | [] => (o, false) end
      else if streq arg (bs "--socks-server-addr") then
        match rest with v :: rest => parse_loop rest (set_socks_server_addr (Some v) o) | [] => (o, false) end
      else if streq arg (bs "--username") then
        match rest with v :: rest => parse_loop rest (set_username (Some v) o) | [] => (o, false) end
      else if streq arg (bs "--password") then
        match rest with v :: rest => parse_loop rest (set_password (Some v) o) | [] => (o, false) end
      else if streq arg (bs "--password-file") then
        match rest with v :: rest => parse_loop rest (set_password_file (Some v) o) | [] => (o, false) end
      else if streq arg (bs "--append-source-to-username") then
        parse_loop rest (set_append_source_to_username true o)
      else (o, false)
  end.

Definition given {A} (o : option A) : bool := match o with Some _ => true | None => false end.

(** The checks after the loop. *)
Definition options_complete (o : options) : bool :=
  if o.(help) || o.(version) then true
  else if negb (given o.(netif_ipaddr)) then false
  else if negb (given o.(netif_netmask)) then false
  else if negb (given o.(socks_server_addr)) then false
  else if given o.(username) then
    if negb (given o.(password)) && negb (given o.(password_file)) then false
    else if given o.(password) && given o.(password_file) then false
    else true
  else true.

(** [options] before the call is [o0]. *)
Definition parse_arguments (argv : list bytes) (o0 : options) : options * bool :=
  match argv with
  | [] => (o0, false)
  | argv0 :: args =>
      let '(o, ok) := parse_loop args (default_options argv0) in
      if ok then (o, options_complete o) else (o, false)
  end.
End Args.

(** ** Configuration *)

Record config := Config {
  cfg_netif_ipaddr : BIPAddr;
  cfg_netif_netmask : BIPAddr;
  cfg_netif_ip6addr : bytes;
  cfg_socks_server_addr : BAddr;
  cfg_auth_info : list BSocksClient_auth_info;
  cfg_password_file_contents : option bytes;
}.

Section Process.
Context (getaddrinfo : bool -> bool -> bytes -> option bytes).
(** [fopen] by name, and allocation. *)
Context (fopen : bytes -> option file) (alloc_ok : Z -> bool).

Definition is_ipv4 (a : BIPAddr) : bool := match a with BIPAddr_IPv4 _ => true | _ => false end.

(** The authentication methods: none, and the password method when a username
    is given.  The result carries [password_file_contents]. *)
Definition auth_methods (o : options) : option (option (list BSocksClient_auth_info * option bytes)) :=
  match o.(username) with
  | None => Some (Some ([BSocksClient_auth_none], None))
  | Some user =>
      match o.(password) with
      | Some pass => Some (Some ([BSocksClient_auth_none; BSocksClient_auth_password user pass], None))
      | None =>
          LET name <- o.(password_file) in
          LET r <- read_file alloc_ok (fopen name) in
          match r with
          | None => Some None
          | Some data =>
              Some (Some ([BSocksClient_auth_none; BSocksClient_auth_password user data], Some data))
          end
      end
  end.

(** [old_ip6] is [netif_ip6addr] before the call, [contents0] is
    [password_file_contents].  The inner [None] is the return value 0; the
    outer one a failed assertion or a NULL string. *)
Definition process_arguments (o : options) (old_ip6 : bytes) (contents0 : option bytes) : option (option config) :=
  ASSERT negb (given contents0) in
  LET ip <- o.(netif_ipaddr) in
  match BIPAddr_Resolve getaddrinfo ip false with
  | None => Some None
  | Some ipaddr =>
    if negb (is_ipv4 ipaddr) then Some None
    else
    LET nm <- o.(netif_netmask) in
    match BIPAddr_Resolve getaddrinfo nm false with
    | None => Some None
    | Some netmask =>
      if negb (is_ipv4 netmask) then Some None
      else
      LET ip6 <- (match o.(netif_ip6addr) with
                  | None => Some (Some old_ip6)
                  | Some s => IpAddr6.ipaddr6_parse_ipv6_addr s old_ip6
                  end) in
      match ip6 with
      | None => Some None
      | Some ip6addr =>
        LET sa <- o.(socks_server_addr) in
        match BAddr_Parse2 getaddrinfo sa None false with
        | None => Some None
        | Some server =>
          LET auth <- auth_methods o in
          match auth with
          | None => Some None
          | Some (infos, data) => Some (Some (Config ipaddr netmask ip6addr server infos data))
          end
        end
      end
    end
  end.
End Process.

(** ** Lemmas on arguments *)

(** A command line that sets every option of [o]. *)
Definition text_args (name : bytes) (v : option bytes) : list bytes :=
  match v with Some s => [name; s] | None => [] end.
Definition switch (name : bytes) (b : bool) : list bytes := if b then [name] else [].
Definition level_args (name : list bytes) (l : Z) : list bytes := if l <? 0 then [] else name ++ [dec_repr l].
Fixpoint channel_args (chs : list bytes) (ls : list Z) : list bytes :=
  match chs, ls with
  | c :: chs, l :: ls => level_args [bs "--channel-loglevel"; c] l ++ channel_args chs ls
  | _, _ => []
  end.

Definition render (channels : list bytes) (o : options) : list bytes :=
  switch (bs "--help") o.(help) ++ switch (bs "--version") o.(version) ++
  [bs "--logger"; if o.(logger) =? LOGGER_STDOUT then bs "stdout" else bs "syslog"] ++
  [bs "--syslog-facility"; o.(logger_syslog_facility)] ++ [bs "--syslog-ident"; o.(logger_syslog_ident)] ++
  level_args [bs "--loglevel"] o.(loglevel) ++ channel_args channels o.(loglevels) ++
  text_args (bs "--tundev") o.(tundev) ++ text_args (bs "--netif-ipaddr") o.(netif_ipaddr) ++
  text_args (bs "--netif-netmask") o.(netif_netmask) ++ text_args (bs "--netif-ip6addr") o.(netif_ip6addr) ++
  text_args (bs "--socks-server-addr") o.(socks_server_addr) ++ text_args (bs "--username") o.(username) ++
  text_args (bs "--password") o.(password) ++ text_args (bs "--password-file") o.(password_file) ++
  switch (bs "--append-source-to-username") o.(append_source_to_username).

Definition level_ok (l : Z) : Prop := -1 <= l <= BLOG_DEBUG.
Definition options_ok (channels : list bytes) (o : options) : Prop :=
  (o.(logger) = LOGGER_STDOUT \/ o.(logger) = LOGGER_SYSLOG) /\ level_ok o.(loglevel) /\
  Forall level_ok o.(loglevels) /\ length o.(loglevels) = length channels /\ options_complete o = true.

Lemma parse_loglevel_repr l : 0 <= l <= BLOG_DEBUG -> parse_loglevel (dec_repr l) = l.
Proof.
  unfold BLOG_DEBUG. intros H.
  assert (l = 0 \/ l = 1 \/ l = 2 \/ l = 3 \/ l = 4 \/ l = 5) as D by lia.
  destruct D as [->|[->|[->|[->|[->| ->]]]]]; reflexivity.
Qed.

Lemma parse_loglevel_range str : -1 <= parse_loglevel str <= BLOG_DEBUG.
Proof.
  unfold parse_loglevel, BLOG_DEBUG, BLOG_ERROR, BLOG_WARNING, BLOG_NOTICE, BLOG_INFO.
  repeat match goal with |- context [if streq ?a ?b then _ else _] => destruct (streq a b); [lia|] end.
  destruct (strtol10 str) as [v e]. destruct (negb _ && _ && _ && _) eqn:E; [|lia]. to_prop. lia.
Qed.

Section Arguments.
Context (channels : list bytes).
Abbreviation parse_loop := (parse_loop channels).

Lemma loop_switch f (set : bool -> options -> options) b rest o :
  (forall rest o, parse_loop (f :: rest) o = parse_loop rest (set true o)) ->
  parse_loop (switch f b ++ rest) o = parse_loop rest (if b then set true o else o).
Proof. intros H. destruct b; [apply H|done]. Qed.

Lemma loop_text f (set : option bytes -> options -> options) v rest o :
  (forall s rest o, parse_loop (f :: s :: rest) o = parse_loop rest (set (Some s) o)) ->
  parse_loop (text_args f v ++ rest) o = parse_loop rest (match v with Some s => set (Some s) o | None => o end).
Proof. intros H. destruct v; [apply H|done]. Qed.

Lemma loop_loglevel l rest o : level_ok l ->
  parse_loop (level_args [bs "--loglevel"] l ++ rest) o = parse_loop rest (if l <? 0 then o else set_loglevel l o).
Proof.
  intros Hl. unfold level_args. destruct (Z.ltb_spec l 0); [done|]. unfold level_ok in Hl.
  transitivity (let o := set_loglevel (parse_loglevel (dec_repr l)) o in
                if o.(loglevel) <? 0 then (o, false) else parse_loop rest o); [reflexivity|].
  rewrite parse_loglevel_repr by lia. cbn. destruct (Z.ltb_spec l 0); [lia|done].
Qed.

Lemma channel_from_app pre c chs i :
  ~ In c pre -> channel_from (pre ++ c :: chs) i c = i + Z.of_nat (length pre).
Proof.
  revert i. induction pre as [|x pre IH]; intros i Hn; cbn [app channel_from].
  - rewrite (proj2 (streq_eq c c)) by done. cbn. lia.
  - destruct (streq x c) eqn:E; [apply streq_eq in E; subst; exfalso; apply Hn; by left|].
    rewrite IH by (intros Hi; apply Hn; by right). cbn [length]. lia.
Qed.

Lemma loop_channels chs : forall pre ls dn rest o,
  channels = pre ++ chs -> NoDup channels -> length ls = length chs -> Forall level_ok ls ->
  length dn = length pre -> o.(loglevels) = dn ++ repeat (-1) (length chs) ->
  parse_loop (channel_args chs ls ++ rest) o = parse_loop rest (set_loglevels (dn ++ ls) o).
Proof.
  induction chs as [|c chs IH]; intros pre ls dn rest o Hch Hnd Hl Hok Hd Ho.
  { destruct ls; [|done]. cbn [channel_args app]. cbn [length repeat] in Ho. rewrite <- Ho. by destruct o. }
  destruct ls as [|l ls]; [done|]. apply Forall_cons in Hok as [H1 H2]. cbn [length] in Hl. injection Hl as Hl.
  cbn [channel_args]. rewrite <- app_assoc.
  assert (parse_loop (level_args [bs "--channel-loglevel"; c] l ++ channel_args chs ls ++ rest) o =
          parse_loop (channel_args chs ls ++ rest) (set_loglevels (dn ++ l :: repeat (-1) (length chs)) o)) as ->.
  { unfold level_args. destruct (Z.ltb_spec l 0).
    - unfold level_ok in *. assert (l = -1) as -> by lia. cbn [length repeat] in Ho. rewrite <- Ho. by destruct o.
    - unfold level_ok in *. transitivity (
        let channel := BLogGlobal_GetChannelByName channels c in
        if channel <? 0 then (o, false) else
        let lv := parse_loglevel (dec_repr l) in
        if lv <? 0 then (o, false) else
        parse_loop (channel_args chs ls ++ rest) (set_loglevels (<[Z.to_nat channel := lv]> o.(loglevels)) o)); [reflexivity|].
      assert (BLogGlobal_GetChannelByName channels c = Z.of_nat (length pre)) as ->.
      { unfold BLogGlobal_GetChannelByName. rewrite Hch, channel_from_app; [lia|].
        rewrite Hch in Hnd. intros Hi. apply NoDup_app in Hnd as (_ & Hx & _). apply (Hx c); [by apply list_elem_of_In|by left]. }
      cbn zeta. rewrite parse_loglevel_repr by lia. destruct (Z.ltb_spec (Z.of_nat (length pre)) 0); [lia|].
      destruct (Z.ltb_spec l 0); [lia|]. rewrite Nat2Z.id, Ho, <- Hd, <- (Nat.add_0_r (length dn)), insert_app_r. done. }
  rewrite (IH (pre ++ [c]) ls (dn ++ [l])); try done.
  - rewrite <- app_assoc. by destruct o.
  - by rewrite <- app_assoc.
  - rewrite !length_app. cbn. lia.
  - cbn. by rewrite <- app_assoc.
Qed.
End Arguments.


(** ** Lemmas on strings and files *)

(** What [concat_strings] sums and copies. *)
Lemma sum_lengths_ok strs : forall sum,
  0 <= sum -> sum + Z.of_nat (length (concat strs)) < SIZE_MAX ->
  sum_lengths strs sum = Some (sum + Z.of_nat (length (concat strs))).
Proof.
  induction strs as [|s strs IH]; intros sum H0 Hs; cbn [sum_lengths concat] in *; [cbn; f_equal; lia|].
  rewrite length_app in *. unfold SIZE_MAX in *. rewrite !u64_small by lia.
  destruct (Z.ltb_spec (18446744073709551615 - 1 - sum) (Z.of_nat (length s))); [lia|].
  rewrite IH by lia. f_equal. lia.
Qed.
Lemma sum_lengths_fail strs : forall sum,
  0 <= sum < SIZE_MAX -> SIZE_MAX <= sum + Z.of_nat (length (concat strs)) -> sum_lengths strs sum = None.
Proof.
  induction strs as [|s strs IH]; intros sum H0 Hs; cbn [sum_lengths concat] in *; [cbn in Hs; lia|].
  rewrite length_app in *. unfold SIZE_MAX in *. rewrite (u64_small (18446744073709551615 - 1 - sum)) by lia.
  destruct (Z.ltb_spec (18446744073709551615 - 1 - sum) (Z.of_nat (length s))); [done|].
  rewrite u64_small by lia. apply IH; lia.
Qed.
Lemma copy_strings_ok strs : forall pre mid suf, length mid = length (concat strs) ->
  copy_strings strs (length pre) (pre ++ mid ++ suf) =
  Some (pre ++ concat strs ++ suf, (length pre + length (concat strs))%nat).
Proof.
  induction strs as [|s strs IH]; intros pre mid suf Hl; cbn [copy_strings concat] in *.
  { destruct mid; [|done]. cbn. by rewrite Nat.add_0_r. }
  rewrite length_app in Hl. destruct (list_split_at (length s) mid) as (m1 & m2 & -> & L1); [lia|].
  rewrite <- !app_assoc, store_mid by done. rewrite length_app in Hl.
  rewrite <- length_app, (app_assoc pre s). rewrite IH by lia. rewrite <- !app_assoc, !length_app. do 2 f_equal. lia.
Qed.

(** The loop of [read_file] with [buf_len] bytes of the file already in the
    buffer; sizes stay below half the address space. *)
Definition alloc_all (alloc_ok : Z -> bool) (f : file) : Prop :=
  forall n, 128 <= n <= Z.max 128 (2 * Z.of_nat (length f.(contents))) -> alloc_ok n = true.

Lemma fread_spec contents pos n : fread (File contents None) pos n = take n (drop pos contents).
Proof. done. Qed.

Lemma read_loop_total fuel alloc_ok f : forall buf n,
  (n <= length buf)%nat -> (0 < length buf)%nat -> (n <= length f.(contents))%nat ->
  (length f.(contents) - n < fuel)%nat -> exists r, read_loop fuel alloc_ok f buf n = Some r /\
    forall b m, r = Some (b, m) -> feof f m = true /\ (m <= length f.(contents))%nat /\
      (take n buf = take n f.(contents) -> take m b = take m f.(contents)).
Proof.
  induction fuel as [|fuel IH]; intros buf n Hn Hb Hf Hfuel; [lia|]. cbn [read_loop].
  match goal with |- context [match ?g with None => _ | Some _ => _ end] => set (grown := g) end.
  destruct grown as [buf'|] eqn:G; [|eexists; split; [done|done]].
  assert (exists ext, buf' = buf ++ ext /\ (n < length buf')%nat) as (ext & -> & Hn').
  { unfold grown in G. destruct (Nat.eqb_spec n (length buf)).
    - destruct (_ <? 2); [done|]. destruct (alloc_ok _); [|done]. injection G as <-. eexists. split; [done|].
      rewrite length_app, repeat_length. lia.
    - injection G as <-. exists []. rewrite app_nil_r. split; [done|lia]. }
  clear G grown. destruct (fread f n _) as [|c ch] eqn:E.
  { destruct (feof f n) eqn:Ef; eexists; (split; [done|]); [|done]. intros b m [= <- <-]. split; [done|]. split; [done|].
    intros Ht. rewrite take_app_le by lia. done. }
  set (chunk := c :: ch) in *. assert (0 < length chunk)%nat as Hpos by (cbn; lia).
  assert (chunk = take (length chunk) (drop n (contents f)) /\ (n + length chunk <= length (buf ++ ext))%nat /\
          (n + length chunk <= length (contents f))%nat) as (Ec & Hc1 & Hc2).
  { unfold fread in E. set (av := match error_at f with Some e => take e (contents f) | None => contents f end) in E.
    assert (exists k, av = take k (contents f)) as [k Ek].
    { unfold av. destruct (error_at f) as [e|]; [by exists e|]. exists (length (contents f)). by rewrite take_ge. }
    rewrite Ek, skipn_firstn_comm, take_take in E.
    assert (length chunk = length (take (Nat.min (length (buf ++ ext) - n) (k - n)) (drop n (contents f)))) as Lc by (by rewrite E).
    rewrite length_take, length_drop in Lc. split; [|split; lia].
    rewrite <- E at 1. rewrite Lc. rewrite <- (take_ge (drop n (contents f)) (length (contents f) - n)) at 1 by (rewrite length_drop; lia).
    rewrite take_take. f_equal. }
  clearbody chunk. destruct (store_total n chunk (buf ++ ext)) as [b Eb]; [done|]. rewrite Eb.
  pose proof (store_length _ _ _ _ Eb) as Lb.
  destruct (IH b (n + length chunk)%nat) as (r & -> & Hr); [lia|lia|done|lia|].
  eexists. split; [done|]. intros b' m Er. destruct (Hr b' m Er) as (H1 & H2 & H3). split; [done|]. split; [done|].
  intros Ht. apply H3. rewrite (store_prefix _ _ _ _ Eb), take_app_le, Ht by lia.
  by rewrite <- take_take_drop, <- Ec.
Qed.

Lemma read_loop_succeeds fuel alloc_ok data : alloc_all alloc_ok (File data None) -> Z.of_nat (length data) < 2 ^ 62 ->
  forall buf n r, read_loop fuel alloc_ok (File data None) buf n = Some r ->
  (n <= length buf)%nat -> (128 <= length buf)%nat -> (n <= length data)%nat -> r <> None.
Proof.
  intros Hall Hsz. induction fuel as [|fuel IH]; intros buf n r; cbn [read_loop]; [done|].
  match goal with |- context [match ?g with None => _ | Some _ => _ end] => set (grown := g) end.
  intros E Hn Hb Hf.
  assert (exists buf', grown = Some buf' /\ (length buf <= length buf')%nat /\ (n < length buf')%nat) as (buf' & -> & Hl & Hn').
  { unfold grown. destruct (Nat.eqb_spec n (length buf)); [|eexists; split; [done|]; lia].
    destruct (Z.ltb_spec (SIZE_MAX / Z.of_nat (length buf)) 2) as [Hlt|_].
    { exfalso. assert (2 <= SIZE_MAX / Z.of_nat (length buf)); [|lia].
      apply Z.div_le_lower_bound; unfold SIZE_MAX; lia. }
    rewrite Hall by (cbn [contents]; lia). eexists. split; [done|]. rewrite length_app, repeat_length. lia. }
  rewrite fread_spec in E. destruct (take _ _) as [|c ch] eqn:Et.
  - apply (f_equal length) in Et. rewrite length_take, length_drop in Et. cbn [length] in Et. unfold feof in E. cbn [contents error_at] in E.
    rewrite (proj2 (Nat.leb_le (length data) n)) in E by lia. cbn in E. by injection E as <-.
  - apply (f_equal length) in Et. rewrite length_take, length_drop in Et. cbn [length] in Et.
    destruct (store n (c :: ch) buf') as [b|] eqn:Eb; [|done]. pose proof (store_length _ _ _ _ Eb).
    apply (IH b _ _ E); cbn [length]; lia.
Qed.

Lemma feof_end f m : feof f m = true -> (m <= length f.(contents))%nat -> m = length f.(contents).
Proof. unfold feof. intros H1 H2. apply andb_true_iff in H1 as [H1 _]. to_prop. lia. Qed.

(** The values process_arguments works with. *)
Definition getaddrinfo_ok (getaddrinfo : bool -> bool -> bytes -> option bytes) : Prop :=
  forall v6 num node octets, getaddrinfo v6 num node = Some octets ->
    bytes_ok octets /\ length octets = if v6 : bool then 16%nat else 4%nat.

Lemma le_dec_4 l : bytes_ok l -> length l = 4%nat -> 0 <= le_dec l < 4294967296.
Proof. intros H1 H2. pose proof (le_dec_bound l H1) as H. rewrite H2 in H. exact H. Qed.

Lemma resolve_wf g s n a : getaddrinfo_ok g -> BIPAddr_Resolve g s n = Some a -> BIPAddr_wf a.
Proof.
  intros Hg. unfold BIPAddr_Resolve. set (v6 := match s with [] => false | _ => _ end).
  destruct (_ <? _)%nat; [done|]. destruct (g v6 n _) as [o|] eqn:E; [|done]. intros [= <-].
  apply Hg in E as [H1 H2]. destruct v6; cbn; [done|by apply le_dec_4].
Qed.
Lemma parse2_wf g s a : getaddrinfo_ok g -> BAddr_Parse2 g s None false = Some a ->
  BAddr_wf a /\ match a with BAddr_IPv4 _ _ | BAddr_IPv6 _ _ => True | _ => False end.
Proof.
  intros Hg. unfold BAddr_Parse2. destruct (_ || _); [done|]. destruct (split_hostport s) as [[[v6 ad] po]|]; [|done].
  destruct (_ <=? _)%nat; [done|]. destruct (_ <=? _)%nat; [done|]. destruct (strtol10 po) as [v e].
  destruct (_ || _); [done|]. destruct (_ || _) eqn:Ev; [done|]. apply orb_false_iff in Ev as [V1 V2]. to_prop.
  destruct (g v6 false ad) as [o|] eqn:E; [|done]. intros [= <-]. apply Hg in E as [H1 H2].
  assert (0 <= hton16 v < 65536) as Hp by apply hton16_range.
  destruct v6; cbn; [done|]. split; [|done]. split; [by apply le_dec_4|done].
Qed.

Lemma read_file_total alloc_ok f : exists r, read_file alloc_ok f = Some r /\
  forall d, r = Some d -> d = match f with Some f => f.(contents) | None => [] end.
Proof.
  unfold read_file. destruct f as [f|]; [|by eexists]. destruct (negb (alloc_ok 128)); [by eexists|].
  destruct (read_loop_total (S (S (length (contents f)))) alloc_ok f (repeat 0 128) 0) as (r & -> & Hr);
    [lia|rewrite repeat_length; lia|lia|lia|].
  destruct r as [[b m]|]; [|by eexists]. destruct (Hr b m eq_refl) as (He & Hm & Ht). eexists. split; [done|].
  intros d [= <-]. rewrite Ht by done. rewrite (feof_end f m) by done. by apply take_ge.
Qed.

Lemma process_ok o getaddrinfo fopen alloc_ok old_ip6 :
  (if negb (given o.(netif_ipaddr)) then false
   else if negb (given o.(netif_netmask)) then false
   else if negb (given o.(socks_server_addr)) then false
   else if given o.(username) then
     if negb (given o.(password)) && negb (given o.(password_file)) then false
     else if given o.(password) && given o.(password_file) then false
     else true
   else true) = true ->
  getaddrinfo_ok getaddrinfo -> length old_ip6 = 16%nat ->
  exists r, process_arguments getaddrinfo fopen alloc_ok o old_ip6 None = Some r /\
    forall c, r = Some c ->
      (exists ip mask, c.(cfg_netif_ipaddr) = BIPAddr_IPv4 ip /\ c.(cfg_netif_netmask) = BIPAddr_IPv4 mask) /\
      length c.(cfg_netif_ip6addr) = 16%nat /\
      (BAddr_wf c.(cfg_socks_server_addr) /\
       match c.(cfg_socks_server_addr) with BAddr_IPv4 _ _ | BAddr_IPv6 _ _ => True | _ => False end) /\
      forallb auth_type_ok c.(cfg_auth_info) = true /\
      match o.(username) with
      | None => c.(cfg_auth_info) = [BSocksClient_auth_none]
      | Some u => exists pass, c.(cfg_auth_info) = [BSocksClient_auth_none; BSocksClient_auth_password u pass]
      end.
Proof.
  intros Hc Hg H6.
  unfold process_arguments. cbn [given negb].
  destruct (netif_ipaddr o) as [ip|]; [|done]. destruct (netif_netmask o) as [nm|]; [|done].
  destruct (socks_server_addr o) as [sa|]; [|done]. cbn [given negb] in Hc.
  destruct (BIPAddr_Resolve getaddrinfo ip false) as [[|v4|]|] eqn:E1; try by eexists.
  destruct (BIPAddr_Resolve getaddrinfo nm false) as [[|m4|]|] eqn:E2; try by eexists. cbn [is_ipv4 negb].
  assert (exists r, match netif_ip6addr o with None => Some (Some old_ip6)
            | Some s => IpAddr6.ipaddr6_parse_ipv6_addr s old_ip6 end = Some r /\ forall a, r = Some a -> length a = 16%nat)
    as (r6 & -> & L6).
  { destruct (netif_ip6addr o); [by apply IpAddr6.parse_safe|]. eexists. split; [done|]. by intros a [= <-]. }
  destruct r6 as [ip6|]; [|by eexists]. specialize (L6 _ eq_refl).
  destruct (BAddr_Parse2 getaddrinfo sa None false) as [server|] eqn:E3; [|by eexists]. apply parse2_wf in E3; [|done].
  assert (exists r, auth_methods fopen alloc_ok o = Some r /\ forall infos d, r = Some (infos, d) ->
            forallb auth_type_ok infos = true /\
            match username o with None => infos = [BSocksClient_auth_none]
            | Some u => exists pass, infos = [BSocksClient_auth_none; BSocksClient_auth_password u pass] end) as (ra & -> & Ha).
  { unfold auth_methods. destruct (username o) as [u|]; [|eexists; split; [done|]; by intros ? ? [= <- <-]].
    destruct (password o) as [pw|]; [eexists; split; [done|]; intros ? ? [= <- <-]; split; [done|by eexists]|].
    destruct (password_file o) as [pf|]; [|done].
    destruct (read_file_total alloc_ok (fopen pf)) as (rd & -> & _). destruct rd as [d|]; [|by eexists].
    eexists. split; [done|]. intros ? ? [= <- <-]. split; [done|by eexists]. }
  destruct ra as [[infos d]|]; [|by eexists]. eexists. split; [done|]. intros c [= <-]. cbn.
  split; [by do 2 eexists|]. split; [done|]. split; [done|]. by apply (Ha infos d).
Qed.

(** What the argument loop keeps in range. *)
Definition options_range (channels : list bytes) (o : options) : Prop :=
  (o.(logger) = LOGGER_STDOUT \/ o.(logger) = LOGGER_SYSLOG) /\ level_ok o.(loglevel) /\
  Forall level_ok o.(loglevels) /\ length o.(loglevels) = length channels.

Lemma default_range channels a0 : options_range channels (default_options channels a0).
Proof.
  split; [by left|]. split; [unfold level_ok, BLOG_DEBUG; cbn; lia|]. split; [|apply repeat_length].
  cbn. apply Forall_forall. intros l Hl. apply list_elem_of_In, repeat_spec in Hl. subst. unfold level_ok, BLOG_DEBUG. lia.
Qed.

Lemma parse_loop_range channels n : forall args o, (length args <= n)%nat -> options_range channels o ->
  forall o', parse_loop channels args o = (o', true) -> options_range channels o'.
Proof.
  induction n as [n IH] using lt_wf_ind. intros args o Hn Ho o'. destruct args as [|arg rest]; cbn [parse_loop]; [by intros [= <-]|].
  cbn [length] in Hn. destruct Ho as (H1 & H2 & H3 & H4).
  repeat match goal with |- context [if streq arg ?b then _ else _] => destruct (streq arg b) end; try done;
  try (apply (IH (length rest)); [lia|lia|split; [done|split; [done|done]]]);
  destruct rest as [|v rest]; try done; cbn [length] in Hn;
  try (apply (IH (length rest)); [lia|lia|split; [done|split; [done|done]]]).
  - destruct (streq v _); [apply (IH (length rest)); [lia|lia|split; [by left|done]]|].
    destruct (streq v _); [apply (IH (length rest)); [lia|lia|split; [by right|done]]|done].
  - destruct (_ <? 0) eqn:E; [done|]. apply (IH (length rest)); [lia|lia|]. split; [done|]. split; [apply parse_loglevel_range|done].
  - destruct rest as [|w rest]; [done|]. cbn [length] in Hn. destruct (_ <? 0); [done|]. destruct (_ <? 0); [done|].
    apply (IH (length rest)); [lia|lia|]. split; [done|]. split; [done|]. cbn. split; [|by rewrite length_insert].
    apply Forall_insert; [done|]. apply parse_loglevel_range.
Qed.

Lemma parse_arguments_range channels argv o0 o :
  parse_arguments channels argv o0 = (o, true) -> options_range channels o /\ options_complete o = true.
Proof.
  destruct argv as [|a0 args]; [done|]. cbn [parse_arguments].
  destruct (parse_loop channels args (default_options channels a0)) as [o1 ok] eqn:E. destruct ok; [|done].
  intros [= -> Hc]. split; [|done]. by apply (parse_loop_range channels (length args) args _ ltac:(done) (default_range channels a0)).
Qed.

End Options.
Import Options.

(** The command line can express every configuration and nothing is lost
    in parsing it.  For every consistent option record (levels -1 to 5, one per
    channel, the required options present) the command line that spells the
    options out is accepted by [parse_arguments], which returns exactly that
    record whatever the options held before. *)
Theorem arguments_roundtrip channels argv0 o o0 :
  NoDup channels -> options_ok channels o ->
  parse_arguments channels (argv0 :: render channels o) o0 = (o, true).
Proof.
  intros Hnd (Hlog & Hlev & Hlevs & Hlen & Hc).
  assert (parse_loop channels (render channels o) (default_options channels argv0) = (o, true)) as E.
  { unfold render. rewrite (loop_switch _ _ set_help), (loop_switch _ _ set_version) by reflexivity.
    set (d := if o.(version) then _ else _).
    match goal with |- Options.parse_loop channels ([bs "--logger"; ?l] ++ ?r) d = _ =>
      assert (Options.parse_loop channels ([bs "--logger"; l] ++ r) d = Options.parse_loop channels r (set_logger o.(logger) d)) as -> end.
    { destruct Hlog as [-> | ->]; reflexivity. }
    match goal with |- Options.parse_loop channels ([bs "--syslog-facility"; ?v] ++ [bs "--syslog-ident"; ?w] ++ ?r) ?x = _ =>
      change (Options.parse_loop channels ([bs "--syslog-facility"; v] ++ [bs "--syslog-ident"; w] ++ r) x)
        with (Options.parse_loop channels r (set_logger_syslog_ident w (set_logger_syslog_facility v x))) end.
    rewrite loop_loglevel by done.
    rewrite (loop_channels channels channels [] o.(loglevels) []); try done.
    2: { unfold d. destruct (loglevel o <? 0), (help o), (version o); reflexivity. }
    rewrite (loop_text _ _ set_tundev), (loop_text _ _ set_netif_ipaddr), (loop_text _ _ set_netif_netmask),
      (loop_text _ _ set_netif_ip6addr), (loop_text _ _ set_socks_server_addr), (loop_text _ _ set_username),
      (loop_text _ _ set_password), (loop_text _ _ set_password_file) by reflexivity.
    rewrite <- (app_nil_r (switch _ (append_source_to_username o))).
    rewrite (loop_switch _ _ set_append_source_to_username) by reflexivity.
    cbn [Options.parse_loop app]. f_equal. unfold d. clear -Hlev. destruct o. cbn in Hlev |- *. unfold level_ok in Hlev.
    destruct (Z.ltb_spec loglevel0 0); [assert (loglevel0 = -1) as -> by lia|];
    repeat match goal with |- context [match ?b with _ => _ end] => is_var b; destruct b end; reflexivity. }
  unfold parse_arguments. rewrite E. by rewrite Hc.
Qed.

Definition sample_options : options :=
  Opt false false LOGGER_SYSLOG (bs "local0") (bs "t2s") 4 [-1; 5] (Some (bs "tun0")) (Some (bs "10.0.0.2"))
    (Some (bs "255.255.255.0")) None (Some (bs "127.0.0.1:1080")) (Some (bs "u")) (Some (bs "p")) None true.

Lemma arguments_roundtrip_witness :
  parse_arguments [bs "tun2socks"; bs "BTap"] (bs "tun2socks" :: render [bs "tun2socks"; bs "BTap"] sample_options)
    sample_options = (sample_options, true).
Proof.
  apply arguments_roundtrip.
  - apply (bool_decide_unpack _). vm_compute. exact I.
  - split; [by right|]. unfold level_ok, BLOG_DEBUG. split; [cbn; lia|]. split; [repeat constructor; lia|]. by split.
Defined.

(** C40: what [process_arguments] leaves is what the rest of tun2socks asserts.
    After an accepted command line without --help or --version, with a
    [getaddrinfo] that returns addresses of the family asked for,
    [process_arguments] dereferences no missing option and ends; when it
    succeeds the interface address and the netmask are IPv4 addresses (as
    [lwip_init_job_hadler] asserts), the server address is an IPv4 or IPv6
    address, the first authentication method is "none", every method is one
    [BSocksClient_Init] accepts, and the password method is there exactly when
    a username was given, with that username. *)
Theorem process_arguments_config channels argv o0 o getaddrinfo fopen alloc_ok old_ip6 :
  parse_arguments channels argv o0 = (o, true) -> o.(help) = false -> o.(version) = false ->
  getaddrinfo_ok getaddrinfo -> length old_ip6 = 16%nat ->
  exists r, process_arguments getaddrinfo fopen alloc_ok o old_ip6 None = Some r /\
    forall c, r = Some c ->
      (exists ip mask, c.(cfg_netif_ipaddr) = BIPAddr_IPv4 ip /\ c.(cfg_netif_netmask) = BIPAddr_IPv4 mask) /\
      length c.(cfg_netif_ip6addr) = 16%nat /\
      (BAddr_wf c.(cfg_socks_server_addr) /\
       match c.(cfg_socks_server_addr) with BAddr_IPv4 _ _ | BAddr_IPv6 _ _ => True | _ => False end) /\
      forallb auth_type_ok c.(cfg_auth_info) = true /\
      match o.(username) with
      | None => c.(cfg_auth_info) = [BSocksClient_auth_none]
      | Some u => exists pass, c.(cfg_auth_info) = [BSocksClient_auth_none; BSocksClient_auth_password u pass]
      end.
Proof.
  intros Hp Hh Hv Hg H6. destruct argv as [|a0 args]; [done|]. cbn [parse_arguments] in Hp.
  destruct (parse_loop channels args (default_options channels a0)) as [o1 ok]. destruct ok; [|done].
  injection Hp as -> Hc. unfold options_complete in Hc. rewrite Hh, Hv in Hc. cbn [orb] in Hc.
  by apply process_ok.
Qed.

Definition sample_getaddrinfo (v6 numeric : bool) (node : bytes) : option bytes :=
  Some (repeat 10 (if v6 then 16 else 4)).

Lemma process_arguments_config_witness :
  exists r, process_arguments sample_getaddrinfo (fun _ => None) (fun _ => true) sample_options (repeat 0 16) None = Some r /\
    forall c, r = Some c ->
      (exists ip mask, c.(cfg_netif_ipaddr) = BIPAddr_IPv4 ip /\ c.(cfg_netif_netmask) = BIPAddr_IPv4 mask) /\
      length c.(cfg_netif_ip6addr) = 16%nat /\
      (BAddr_wf c.(cfg_socks_server_addr) /\
       match c.(cfg_socks_server_addr) with BAddr_IPv4 _ _ | BAddr_IPv6 _ _ => True | _ => False end) /\
      forallb auth_type_ok c.(cfg_auth_info) = true /\
      match sample_options.(username) with
      | None => c.(cfg_auth_info) = [BSocksClient_auth_none]
      | Some u => exists pass, c.(cfg_auth_info) = [BSocksClient_auth_none; BSocksClient_auth_password u pass]
      end.
Proof.
  apply (process_arguments_config [bs "tun2socks"; bs "BTap"]
           (bs "tun2socks" :: render [bs "tun2socks"; bs "BTap"] sample_options) sample_options); try reflexivity.
  - intros v6 num node octets [= <-]. split; [destruct v6; repeat constructor; unfold is_byte; lia|by destruct v6].
Defined.

(** [read_file] returns the file or fails.  For every file, every position
    at which reading fails and every pattern of failing allocations, the loop
    ends, stays inside its growing buffer, and what it returns is the whole
    file, never a prefix of it; and when nothing fails it does return the
    file. *)
Theorem read_file_exact alloc_ok f :
  (exists r, read_file alloc_ok (Some f) = Some r /\ forall d, r = Some d -> d = f.(contents)) /\
  (f.(error_at) = None -> alloc_all alloc_ok f -> Z.of_nat (length f.(contents)) < 2 ^ 62 ->
   read_file alloc_ok (Some f) = Some (Some f.(contents))).
Proof.
  split; [apply (read_file_total alloc_ok (Some f))|]. intros He Ha Hs.
  destruct (read_file_total alloc_ok (Some f)) as (r & E & Hr). rewrite E. destruct r as [d|]; [by rewrite (Hr d eq_refl)|].
  exfalso. destruct f as [data e]. cbn [error_at contents] in *. subst e. unfold read_file in E. cbn [contents] in E.
  rewrite (Ha 128) in E by lia. cbn [negb] in E.
  destruct (read_loop _ _ _ _ _) as [r|] eqn:El; [|done].
  apply (read_loop_succeeds _ _ _ Ha Hs) in El; [|cbn; lia|cbn; lia|lia]. destruct r as [[? ?]|]; done.
Qed.

Lemma read_file_exact_witness :
  read_file (fun n => n <? 1024) (Some (File (repeat 65 300) None)) = Some (Some (repeat 65 300)).
Proof.
  apply (proj2 (read_file_exact (fun n => n <? 1024) (File (repeat 65 300) None))); [reflexivity| |cbn; lia].
  intros n Hn. cbn in Hn. apply Z.ltb_lt. lia.
Defined.

(** [concat_strings] is exact: with a block of the size it asks for it
    returns the concatenation with its NUL, never writing outside the block;
    when the length with the NUL does not fit [size_t] it returns NULL without
    allocating. *)
Theorem concat_strings_exact malloc strs block :
  malloc (Z.of_nat (length (concat strs)) + 1) = Some block -> length block = (length (concat strs) + 1)%nat ->
  concat_strings malloc strs =
  if Z.of_nat (length (concat strs)) <? SIZE_MAX then Some (Some (concat strs ++ [0])) else Some None.
Proof.
  intros Hm Hl. unfold concat_strings. destruct (Z.ltb_spec (Z.of_nat (length (concat strs))) SIZE_MAX).
  - rewrite sum_lengths_ok by lia. unfold SIZE_MAX in *. rewrite Z.add_0_l, u64_small, Hm by lia.
    destruct (list_split_at (length (concat strs)) block) as (mid & suf & -> & L); [lia|].
    pose proof (copy_strings_ok strs [] mid suf L) as E. cbn [app length] in E. rewrite E, Nat.add_0_l.
    rewrite length_app in Hl. destruct suf as [|x suf]; [cbn in Hl; lia|]. destruct suf; [|cbn in Hl; lia].
    pose proof (store_mid (length (concat strs)) [0] (concat strs) [x] [] eq_refl eq_refl) as E2. cbn [app] in E2.
    by rewrite E2.
  - by rewrite sum_lengths_fail by (unfold SIZE_MAX in *; lia).
Qed.

Lemma concat_strings_exact_witness :
  concat_strings (fun n => Some (repeat 7 (Z.to_nat n))) [bs "user"; bs "@"; bs "10.0.0.1:80"] =
  if Z.of_nat (length (concat [bs "user"; bs "@"; bs "10.0.0.1:80"])) <? SIZE_MAX
  then Some (Some (concat [bs "user"; bs "@"; bs "10.0.0.1:80"] ++ [0])) else Some None.
Proof. apply (concat_strings_exact _ _ (repeat 7 17)); reflexivity. Defined.
