(* ===== verification/Device.v ===== *)
(** * Packets between the TUN device and lwIP

    Models [common_netif_output], [netif_output_func], [netif_output_ip6_func],
    [netif_input_func], [netif_init_func] and [device_read_handler_send] of
    [tun2socks/tun2socks.c], and [tun2socks_write].  A pbuf chain is the list of
    the payloads of its buffers; lwIP's allocator and its IP layer answer
    through arguments. *)

From S2P Require Import Prelude.
From S2P Require Import TcpClient.
Import TcpClient.

Module Device.

(** ** Sending *)

(** [BTap_Send]: the assertions, and what is handed to [write]. *)
Definition BTap_Send (frame_mtu : Z) (data : bytes) : option bytes :=
  ASSERT 0 <=? Z.of_nat (length data) in
  ASSERT Z.of_nat (length data) <=? frame_mtu in
  Some data.

(** The [do ... while (p = p->next)] loop: [device_write_buf] and, unless there
    was no space left, the length.  [None] is a write outside the buffer. *)
Fixpoint copy_chunks (mtu : Z) (p : list bytes) (len : Z) (buf : bytes) : option (bytes * option Z) :=
  match p with
  | [] => Some (buf, Some len)
  | c :: p =>
      if mtu - len <? Z.of_nat (length c) then Some (buf, None)
      else
        LET buf <- store (Z.to_nat len) c buf in
        copy_chunks mtu p (len + Z.of_nat (length c)) buf
  end.

(** The result is [device_write_buf] afterwards and the packet sent, if any;
    the function always returns [ERR_OK].  A pbuf is never an empty chain. *)
Definition common_netif_output (quitting : bool) (mtu : Z) (p : list bytes) (buf : bytes)
  : option (bytes * option bytes) :=
  if quitting then Some (buf, None)
  else
    match p with
    | [] => None
    | [c] =>
        if mtu <? Z.of_nat (length c) then Some (buf, None)
        else LET d <- BTap_Send mtu c in Some (buf, Some d)
    | _ =>
        LET r <- copy_chunks mtu p 0 buf in
        let '(buf, len) := r in
        match len with
        | None => Some (buf, None)
        | Some len => LET d <- BTap_Send mtu (take (Z.to_nat len) buf) in Some (buf, Some d)
        end
    end.

Definition netif_output_func := common_netif_output.
Definition netif_output_ip6_func := common_netif_output.

(** The caller's packet goes to the device unchecked but for the assertions. *)
Definition tun2socks_write (mtu : Z) (data : bytes) : option bytes := BTap_Send mtu data.

(** ** Receiving *)

Inductive dev_action :=
  | DCallback (data : bytes)    (* tunnel_callback_packet_received *)
  | DDone                       (* PacketPassInterface_Done *)
  | DAlloc (n : Z)              (* pbuf_alloc succeeded *)
  | DInput4 (p : list bytes)    (* ip_input(p) *)
  | DInput6 (p : list bytes)    (* ip6_input(p) *)
  | DFree.                      (* pbuf_free(p) *)

(** [ip_err] is what [ip_input] or [ip6_input] returns. *)
Definition netif_input_func (ip6_enabled : bool) (ip_err : err_t) (p : list bytes) : option (list dev_action * err_t) :=
  match p with
  | [] => None
  | c :: _ =>
      let ip_version := match c with b :: _ => Z.shiftr b 4 | [] => 0 end in
      if ip_version =? 4 then Some ([DInput4 p], ip_err)
      else if (ip_version =? 6) && ip6_enabled then Some ([DInput6 p], ip_err)
      else Some ([DFree], ERR_OK)
  end.

(** [pbuf_take]: the data over the buffers of the chain. *)
Fixpoint pbuf_take (sizes : list nat) (data : bytes) : list bytes :=
  match sizes with
  | [] => []
  | n :: sizes => take n data :: pbuf_take sizes (drop n data)
  end.

(** [sizes] are the lengths of the buffers of the chain [pbuf_alloc] returns,
    [None] when it fails.  [pbuf_take] succeeds when the chain is long
    enough. *)
Definition device_read_handler_send (quitting callback ip6_enabled : bool) (sizes : option (list nat)) (ip_err : err_t)
    (data : bytes) : option (list dev_action) :=
  ASSERT negb quitting in
  let data_len := Z.of_nat (length data) in
  let tr := (if callback then [DCallback data] else []) ++ [DDone] in
  if UINT16_MAX <? data_len then Some tr
  else
    match sizes with
    | None => Some tr
    | Some sizes =>
        ASSERT (length data <=? sum_list sizes)%nat in
        let p := pbuf_take sizes data in
        LET r <- netif_input_func ip6_enabled ip_err p in
        let '(acts, err) := r in
        Some (tr ++ [DAlloc data_len] ++ acts ++ (if bool_decide (err = ERR_OK) then [] else [DFree]))
    end.

(** ** Lemmas *)

Lemma copy_chunks_spec mtu p : forall len done rest buf,
  buf = done ++ rest -> len = Z.of_nat (length done) -> Z.of_nat (length buf) = mtu ->
  exists buf' r, copy_chunks mtu p len buf = Some (buf', r) /\ length buf' = length buf /\
    if len + Z.of_nat (length (concat p)) <=? mtu
    then r = Some (len + Z.of_nat (length (concat p))) /\ take (length done + length (concat p)) buf' = done ++ concat p
    else r = None.
Proof.
  induction p as [|c p IH]; intros len done rest buf Hb Hl Hm; cbn [copy_chunks concat].
  - do 2 eexists. split; [done|]. split; [done|]. cbn [length]. rewrite Hb, length_app in Hm.
    rewrite (proj2 (Z.leb_le _ _)) by lia. rewrite Z.add_0_r, Nat.add_0_r, app_nil_r, Hb. split; [done|by apply take_app_length].
  - rewrite length_app. destruct (Z.ltb_spec (mtu - len) (Z.of_nat (length c))).
    { do 2 eexists. split; [done|]. split; [done|]. by rewrite (proj2 (Z.leb_gt _ _)) by lia. }
    subst buf. rewrite length_app in Hm. destruct (list_split_at (length c) rest) as (r1 & r2 & -> & L1); [lia|].
    replace (Z.to_nat len) with (length done) by lia. rewrite store_mid by done. rewrite length_app in Hm.
    destruct (IH (len + Z.of_nat (length c)) (done ++ c) r2 (done ++ c ++ r2)) as (buf' & r & E & Lb & R).
    { by rewrite app_assoc. } { rewrite length_app. lia. } { rewrite !length_app. lia. }
    rewrite E. exists buf', r. split; [done|]. split; [rewrite Lb, !length_app; lia|].
    rewrite length_app in R. replace (len + Z.of_nat (length c) + Z.of_nat (length (concat p)))
      with (len + Z.of_nat (length c + length (concat p))) in R by lia.
    destruct (Z.leb_spec (len + Z.of_nat (length c + length (concat p))) mtu); [|done].
    destruct R as [-> R]. split; [done|]. rewrite <- app_assoc in R. rewrite <- R. f_equal. lia.
Qed.

Lemma pbuf_take_concat sizes : forall data, (length data <= sum_list sizes)%nat -> concat (pbuf_take sizes data) = data.
Proof.
  induction sizes as [|n sizes IH]; intros data Hl; cbn in *.
  - destruct data; [done|cbn in Hl; lia].
  - rewrite IH by (rewrite length_drop; lia). apply take_drop.
Qed.

(** Events that end the pbuf's life in tun2socks: freed, or taken by lwIP. *)
Definition consumes (ip_err : err_t) (a : dev_action) : bool :=
  match a with
  | DFree => true
  | DInput4 _ | DInput6 _ => bool_decide (ip_err = ERR_OK)
  | _ => false
  end.
Definition delivered (l : list dev_action) : list (bool * bytes) :=
  concat (map (fun a => match a with DInput4 p => [(false, concat p)] | DInput6 p => [(true, concat p)] | _ => [] end) l).
Definition count_if (f : dev_action -> bool) (l : list dev_action) : nat := length (List.filter f l).

(** The first nibble of the first buffer is the packet's. *)
Lemma first_nibble n sizes data c p : pbuf_take (n :: sizes) data = c :: p -> (0 < n)%nat ->
  match c with b :: _ => Z.shiftr b 4 | [] => 0 end = match data with b :: _ => Z.shiftr b 4 | [] => 0 end.
Proof. cbn. intros [= <- _] Hn. destruct n; [lia|]. by destruct data. Qed.

(** What [pbuf_alloc] promises of the chain it returns for [data]. *)
Definition chain_ok (sizes : option (list nat)) (data : bytes) : Prop :=
  forall l, sizes = Some l -> (length data <= sum_list l)%nat /\ exists n l', l = n :: l' /\ (0 < n)%nat.

(** A pbuf that was allocated is consumed exactly once, and none otherwise. *)
Definition consumed_once (ip_err : err_t) (tr : list dev_action) : bool :=
  (count_if (consumes ip_err) tr =? count_if (fun a => match a with DAlloc _ => true | _ => false end) tr)%nat.

Lemma device_read_consumed callback ip6 sizes ip_err data : chain_ok sizes data ->
  exists tr, device_read_handler_send false callback ip6 sizes ip_err data = Some tr /\ consumed_once ip_err tr = true.
Proof.
  intros Hs. unfold device_read_handler_send. cbn [negb]. destruct (_ <? _); [eexists; split; [done|]; by destruct callback|].
  destruct sizes as [l|]; [|eexists; split; [done|]; by destruct callback]. destruct (Hs l eq_refl) as (Hl & n & l' & -> & Hn).
  rewrite (proj2 (Nat.leb_le _ _)) by done. cbn [pbuf_take]. unfold netif_input_func.
  destruct (_ =? 4); [|destruct (_ && ip6)]; eexists; (split; [done|]); by destruct callback, ip_err.
Qed.

End Device.
Import Device.

(** C36: lwIP's output reaches the device whole or not at all.  For every pbuf
    chain, [common_netif_output] never writes outside the device write buffer
    and meets the assertions of [BTap_Send]; unless tun2socks is quitting, it
    sends the concatenation of the chain's payloads when that fits the device's
    MTU, and sends nothing when it does not. *)
Theorem output_whole quitting mtu p buf :
  p <> [] -> Z.of_nat (length buf) = mtu ->
  exists buf', common_netif_output quitting mtu p buf =
    Some (buf', if negb quitting && (Z.of_nat (length (concat p)) <=? mtu) then Some (concat p) else None) /\
    length buf' = length buf.
Proof.
  intros Hp Hm. unfold common_netif_output. destruct quitting; [by eexists|]. cbn [negb andb].
  destruct p as [|c [|c2 p]]; [done| |].
  - cbn [concat]. rewrite app_nil_r. destruct (Z.ltb_spec mtu (Z.of_nat (length c))).
    + eexists. by rewrite (proj2 (Z.leb_gt _ _)) by lia.
    + unfold BTap_Send. rewrite !(proj2 (Z.leb_le _ _)) by lia. by eexists.
  - set (q := c :: c2 :: p). destruct (copy_chunks_spec mtu q 0 [] buf buf) as (buf' & r & -> & Lb & R); [done|done|done|].
    exists buf'. cbn [app length] in R. rewrite Z.add_0_l in R.
    destruct (Z.leb_spec (Z.of_nat (length (concat q))) mtu) as [Hle|_]; [|by subst r].
    destruct R as [-> R]. rewrite Nat2Z.id. rewrite Nat.add_0_l in R. rewrite R.
    unfold BTap_Send. by rewrite !(proj2 (Z.leb_le _ _)) by lia.
Qed.

Lemma output_whole_witness :
  exists buf', common_netif_output false 5 [[69; 1]; []; [2; 3]] (repeat 0 5) = Some (buf', Some [69; 1; 2; 3]) /\
    length buf' = 5%nat.
Proof. apply (output_whole false 5 [[69; 1]; []; [2; 3]] (repeat 0 5)); [discriminate|reflexivity]. Defined.

(** C37: a packet read from the device is handed on exactly once and its pbuf
    is neither leaked nor freed twice.  Whatever the packet, the buffers
    [pbuf_alloc] returns and the result of the IP layer: no assertion fails,
    the device is told once that the packet was taken, a pbuf that was
    allocated is consumed exactly once (by the IP layer when it accepts it, by
    [pbuf_free] otherwise), and the IP layer sees at most this packet, whole:
    IPv4 for version 4, IPv6 for version 6 when IPv6 is enabled. *)
Theorem device_read_once callback ip6 sizes ip_err data :
  (forall l, sizes = Some l -> (length data <= sum_list l)%nat /\ exists n l', l = n :: l' /\ (0 < n)%nat) ->
  exists tr, device_read_handler_send false callback ip6 sizes ip_err data = Some tr /\
    count_if (fun a => match a with DDone => true | _ => false end) tr = 1%nat /\
    count_if (consumes ip_err) tr = count_if (fun a => match a with DAlloc _ => true | _ => false end) tr /\
    delivered tr =
      (let version := match data with b :: _ => Z.shiftr b 4 | [] => 0 end in
       if (Z.of_nat (length data) <=? UINT16_MAX) && bool_decide (sizes <> None) &&
          ((version =? 4) || ((version =? 6) && ip6))
       then [(version =? 6, data)] else []).
Proof.
  intros Hs. unfold device_read_handler_send. cbn [negb].
  destruct (Z.ltb_spec UINT16_MAX (Z.of_nat (length data))).
  { eexists. split; [done|]. rewrite (proj2 (Z.leb_gt _ _)) by lia. by destruct callback. }
  rewrite (proj2 (Z.leb_le _ _)) by lia. destruct sizes as [l|]; [|eexists; split; [done|]; by destruct callback].
  destruct (Hs l eq_refl) as (Hl & n & l' & -> & Hn). rewrite (proj2 (Nat.leb_le _ _)) by done.
  pose proof (pbuf_take_concat (n :: l') data Hl) as Hcat.
  destruct (pbuf_take (n :: l') data) as [|c p] eqn:Ep; [done|]. pose proof (first_nibble _ _ _ _ _ Ep Hn) as Hv.
  unfold netif_input_func. rewrite Hv. cbv zeta. set (v := match data with b :: _ => _ | [] => 0 end).
  rewrite bool_decide_true by done. cbn [andb].
  destruct (Z.eqb_spec v 4) as [->|]; [|destruct (Z.eqb_spec v 6) as [->|]; [destruct ip6|]]; cbn [andb orb Z.eqb Pos.eqb];
    eexists; (split; [done|]); destruct callback, ip_err; cbn; rewrite <- ?Hcat; cbn; rewrite ?app_nil_r; done.
Qed.

Lemma device_read_once_witness :
  exists tr, device_read_handler_send false true false (Some [2; 4]%nat) ERR_OK [69; 0; 0; 4] = Some tr /\
    count_if (fun a => match a with DDone => true | _ => false end) tr = 1%nat /\
    count_if (consumes ERR_OK) tr = count_if (fun a => match a with DAlloc _ => true | _ => false end) tr /\
    delivered tr = [(false, [69; 0; 0; 4])].
Proof.
  apply (device_read_once true false (Some [2; 4]%nat) ERR_OK [69; 0; 0; 4]).
  intros l [= <-]. split; [cbn; lia|]. do 2 eexists. split; [reflexivity|lia].
Defined.
