(* ===== verification/Pbuf.v ===== *)
(** * Packet buffers

    Models [lwip/src/core/pbuf.c] with [lwip/src/include/lwip/pbuf.h], as the
    configuration of tun2socks ([lwip/custom/lwipopts.h]) compiles them: memory
    from [malloc], custom pbufs on, [LWIP_ASSERT] and [LWIP_ERROR] abort.

    The heap has the pbufs by address and blocks of bytes by address.  The data
    memory of a [PBUF_RAM] or [PBUF_POOL] is the block with the address of the
    pbuf; the other types point into blocks of their users, so that what one
    pointer writes another one sees.  [None] is an abort, an access to freed
    memory or one outside a block.  What [malloc] answers, the contents of new
    memory included, are arguments.  When a pool allocation fails
    [PBUF_POOL_IS_EMPTY] sets [pbuf_free_ooseq_pending] too, which nothing in
    tun2socks reads; the variable is left out.

    Counters and lengths keep their width (8 and 16 bits), with wrap-around. *)

From stdpp Require Import gmultiset.
From S2P Require Import Prelude LinkedList.
Open Scope Z_scope.

Module Pbuf.

Inductive pbuf_layer := PBUF_TRANSPORT | PBUF_IP | PBUF_LINK | PBUF_RAW.
Inductive pbuf_type := PBUF_RAM | PBUF_ROM | PBUF_REF | PBUF_POOL.
#[export] Instance pbuf_type_eq_dec : EqDecision pbuf_type.
Proof. solve_decision. Defined.

Definition PBUF_FLAG_IS_CUSTOM : Z := 2.
Definition PBUF_LINK_HLEN : Z := 14.
Definition PBUF_IP_HLEN : Z := 40.
Definition PBUF_TRANSPORT_HLEN : Z := 20.
Definition MEM_ALIGNMENT : Z := 4.
Definition LWIP_MEM_ALIGN (x : Z) : Z := Z.land (x + MEM_ALIGNMENT - 1) (Z.lnot (MEM_ALIGNMENT - 1)).
Definition TCP_MSS : Z := 1460.
Definition PBUF_POOL_BUFSIZE_ALIGNED : Z := LWIP_MEM_ALIGN (TCP_MSS + 40 + PBUF_LINK_HLEN).
Definition SIZEOF_STRUCT_PBUF : Z := LWIP_MEM_ALIGN 24.

(** [custom]: the object is a [struct pbuf_custom], that is, there is a
    [custom_free_function] behind the pbuf. *)
Record pbuf := MkPbuf { next : option addr; payload : option (addr * Z); tot_len : Z; len : Z; type : pbuf_type; flags : Z; ref : Z; custom : bool }.

Definition set_next n p := MkPbuf n p.(payload) p.(tot_len) p.(len) p.(type) p.(flags) p.(ref) p.(custom).
Definition set_payload d p := MkPbuf p.(next) d p.(tot_len) p.(len) p.(type) p.(flags) p.(ref) p.(custom).
Definition set_tot_len t p := MkPbuf p.(next) p.(payload) t p.(len) p.(type) p.(flags) p.(ref) p.(custom).
Definition set_len n p := MkPbuf p.(next) p.(payload) p.(tot_len) n p.(type) p.(flags) p.(ref) p.(custom).
Definition set_flags f p := MkPbuf p.(next) p.(payload) p.(tot_len) p.(len) p.(type) f p.(ref) p.(custom).
Definition set_ref r p := MkPbuf p.(next) p.(payload) p.(tot_len) p.(len) p.(type) p.(flags) r p.(custom).

Record heap := MkHeap { pbufs : gmap addr pbuf; blocks : gmap addr bytes }.
Definition put (a : addr) (p : pbuf) (h : heap) : heap := MkHeap (<[a := p]> h.(pbufs)) h.(blocks).
Definition fuel (h : heap) : nat := S (size h.(pbufs)).

(** ** Memory *)

(** An answer of [malloc]: the address, and what the memory holds where the
    flags of the pbuf and its data will be. *)
Record answer := MkAnswer { at_ : addr; old_flags : Z; old_data : bytes }.

(** A pbuf at fresh memory with [n] bytes behind it.  The fields not set yet
    are those that the memory holds; only [flags] is read before it is set. *)
Definition fresh_block (m : answer) (n : Z) (h : heap) : heap := MkHeap h.(pbufs) (<[m.(at_) := resize (Z.to_nat n) 0 m.(old_data)]> h.(blocks)).

Definition read (h : heap) (p : pbuf) (off n : Z) : option bytes :=
  LET (b, o) <- p.(payload) in
  LET m <- h.(blocks) !! b in
  ASSERT (0 <=? o + off) && (0 <=? n) && (o + off + n <=? Z.of_nat (length m)) in
  Some (take (Z.to_nat n) (drop (Z.to_nat (o + off)) m)).

Definition write (h : heap) (p : pbuf) (off : Z) (d : bytes) : option heap :=
  LET (b, o) <- p.(payload) in
  LET m <- h.(blocks) !! b in
  ASSERT 0 <=? o + off in
  LET m <- store (Z.to_nat (o + off)) d m in
  Some (MkHeap h.(pbufs) (<[b := m]> h.(blocks))).

(** ** Reference counts *)

(** [mem_free], [memp_free] or the custom function. *)
Definition release (a : addr) (x : pbuf) (h : heap) : option (heap * list addr) :=
  let pb := delete a h.(pbufs) in
  if negb (Z.land x.(flags) PBUF_FLAG_IS_CUSTOM =? 0) then ASSERT x.(custom) in Some (MkHeap pb h.(blocks), [a])
  else if bool_decide (x.(type) = PBUF_ROM) || bool_decide (x.(type) = PBUF_REF) then Some (MkHeap pb h.(blocks), [])
  else Some (MkHeap pb (delete a h.(blocks)), []).

(** The result is the heap, the count, and the custom pbufs given to their
    functions. *)
Fixpoint free_loop (fuel : nat) (h : heap) (p : option addr) (count : Z) : option (heap * Z * list addr) :=
  match p with
  | None => Some (h, count, [])
  | Some a =>
      match fuel with
      | O => None
      | S fuel =>
          LET x <- h.(pbufs) !! a in
          ASSERT 0 <? x.(ref) in
          let ref := u16 (x.(ref) - 1) in
          let h := put a (set_ref ref x) h in
          if ref =? 0 then
            let q := x.(next) in
            LET (h, c) <- release a x h in
            LET (h, count, c') <- free_loop fuel h q (u8 (count + 1)) in
            Some (h, count, c ++ c')
          else Some (h, count, [])
      end
  end.

Definition pbuf_free (h : heap) (p : option addr) : option (heap * Z * list addr) :=
  LET a <- p in
  LET _ <- h.(pbufs) !! a in
  free_loop (fuel h) h p 0.

Definition pbuf_ref (h : heap) (p : option addr) : option heap :=
  match p with
  | Some a => LET x <- h.(pbufs) !! a in Some (put a (set_ref (u16 (x.(ref) + 1)) x) h)
  | None => Some h
  end.

(** ** Allocation *)

Definition layer_offset (layer : pbuf_layer) : Z :=
  match layer with
  | PBUF_TRANSPORT => PBUF_LINK_HLEN + PBUF_IP_HLEN + PBUF_TRANSPORT_HLEN
  | PBUF_IP => PBUF_LINK_HLEN + PBUF_IP_HLEN
  | PBUF_LINK => PBUF_LINK_HLEN
  | PBUF_RAW => 0
  end.

(** The data of a pbuf at [a], aligned, as an offset in its block. *)
Definition payload_offset (a offset : Z) : option Z :=
  let p := LWIP_MEM_ALIGN (a + SIZEOF_STRUCT_PBUF + offset) in
  ASSERT p mod MEM_ALIGNMENT =? 0 in
  Some (p - (a + SIZEOF_STRUCT_PBUF)).

(** The rest of a pool chain: [p] is its head, [r] its last pbuf so far. *)
Fixpoint pool_loop (fuel : nat) (h : heap) (p r : addr) (rem_len : Z) (ms : list answer) : option (heap * option addr * list addr) :=
  if rem_len <=? 0 then Some (h, Some p, [])
  else
    match fuel, ms with
    | O, _ => None
    | _, [] => LET (h, _, c) <- pbuf_free h (Some p) in Some (h, None, c)
    | S fuel, m :: ms =>
        let q := m.(at_) in
        LET y <- h.(pbufs) !! r in
        let h := put r (set_next (Some q) y) h in
        ASSERT rem_len <? 0xffff in
        LET o <- payload_offset q 0 in
        let n := Z.min (u16 rem_len) PBUF_POOL_BUFSIZE_ALIGNED in
        LET x <- h.(pbufs) !! p in
        LET (_, po) <- x.(payload) in
        ASSERT po + x.(len) <=? PBUF_POOL_BUFSIZE_ALIGNED in
        let h := put q (MkPbuf None (Some (q, o)) (u16 rem_len) n PBUF_POOL 0 1 false) (fresh_block m PBUF_POOL_BUFSIZE_ALIGNED h) in
        pool_loop fuel h p q (rem_len - n) ms
    end.

(** [set reference count], [set flags]. *)
Definition finish_alloc (h : heap) (a : addr) : option heap :=
  LET x <- h.(pbufs) !! a in Some (put a (set_flags 0 (set_ref 1 x)) h).

(** [ms] are the answers of [malloc]; when they are used up it fails. *)
Definition pbuf_alloc (h : heap) (layer : pbuf_layer) (length : Z) (type : pbuf_type) (ms : list answer) : option (heap * option addr * list addr) :=
  let offset := layer_offset layer in
  match ms with
  | [] => Some (h, None, [])
  | m :: ms =>
      let p := m.(at_) in
      match type with
      | PBUF_POOL =>
          LET o <- payload_offset p offset in
          let room := PBUF_POOL_BUFSIZE_ALIGNED - LWIP_MEM_ALIGN offset in
          let n := u16 (Z.min length room) in
          ASSERT o + n <=? PBUF_POOL_BUFSIZE_ALIGNED in
          ASSERT 0 <? room in
          let h := put p (MkPbuf None (Some (p, o)) length n type m.(old_flags) 1 false) (fresh_block m PBUF_POOL_BUFSIZE_ALIGNED h) in
          LET (h, r, c) <- pool_loop (Z.to_nat length) h p p (length - n) ms in
          match r with
          | Some a => LET h <- finish_alloc h a in Some (h, Some a, c)
          | None => Some (h, None, c)
          end
      | PBUF_RAM =>
          LET o <- payload_offset p offset in
          let size := LWIP_MEM_ALIGN (SIZEOF_STRUCT_PBUF + offset) + LWIP_MEM_ALIGN length - SIZEOF_STRUCT_PBUF in
          let h := put p (MkPbuf None (Some (p, o)) length length type m.(old_flags) 0 false) (fresh_block m size h) in
          LET h <- finish_alloc h p in
          Some (h, Some p, [])
      | PBUF_ROM | PBUF_REF =>
          LET h <- finish_alloc (put p (MkPbuf None None length length type m.(old_flags) 0 false) h) p in
          Some (h, Some p, [])
      end
  end.

(** [mem] is the memory for the payload: its address and size. *)
Definition pbuf_alloced_custom (h : heap) (l : pbuf_layer) (length : Z) (type : pbuf_type) (p : addr) (payload_mem : option addr) (payload_mem_len : Z)
  : heap * option addr :=
  let offset := layer_offset l in
  if payload_mem_len <? LWIP_MEM_ALIGN offset + length then (h, None)
  else
    let d := match payload_mem with Some b => Some (b, LWIP_MEM_ALIGN offset) | None => None end in
    (put p (MkPbuf None d length length type PBUF_FLAG_IS_CUSTOM 1 true) h, Some p).

(** ** Chains *)

Fixpoint realloc_loop (fuel : nat) (h : heap) (q rem_len grow : Z) : option (heap * addr * Z) :=
  match fuel with
  | O => None
  | S fuel =>
      LET x <- h.(pbufs) !! q in
      if x.(len) <? rem_len then
        ASSERT grow <? 0xffff in
        let h := put q (set_tot_len (u16 (x.(tot_len) + u16 grow)) x) h in
        LET q' <- x.(next) in
        realloc_loop fuel h q' (u16 (rem_len - x.(len))) grow
      else Some (h, q, rem_len)
  end.

(** [mem_trim] leaves the memory as it is. *)
Definition pbuf_realloc (h : heap) (p : option addr) (new_len : Z) : option (heap * list addr) :=
  LET a <- p in
  LET x <- h.(pbufs) !! a in
  if x.(tot_len) <=? new_len then Some (h, [])
  else
    LET (h, q, rem_len) <- realloc_loop (fuel h) h a new_len (new_len - x.(tot_len)) in
    LET y <- h.(pbufs) !! q in
    let h := put q (set_tot_len rem_len (set_len rem_len y)) h in
    LET (h, c) <- (match y.(next) with Some n => LET (h, _, c) <- pbuf_free h (Some n) in Some (h, c) | None => Some (h, []) end) in
    LET y <- h.(pbufs) !! q in
    Some (put q (set_next None y) h, c).

Definition pbuf_header (h : heap) (p : option addr) (header_size_increment : Z) : option (heap * Z) :=
  LET a <- p in
  if header_size_increment =? 0 then Some (h, 0)
  else
    LET x <- h.(pbufs) !! a in
    ASSERT (0 <? header_size_increment) || (u16 (- header_size_increment) <=? x.(len)) in
    let done := (fun d => Some (put a (set_tot_len (u16 (x.(tot_len) + header_size_increment)) (set_len (u16 (x.(len) + header_size_increment)) (set_payload d x))) h, 0)) in
    if bool_decide (x.(type) = PBUF_RAM) || bool_decide (x.(type) = PBUF_POOL) then
      LET (b, o) <- x.(payload) in
      ASSERT bool_decide (b = a) in
      if o - header_size_increment <? 0 then Some (h, 1) else done (Some (b, o - header_size_increment))
    else if (header_size_increment <? 0) && (u16 (- header_size_increment) <=? x.(len)) then
      LET (b, o) <- x.(payload) in done (Some (b, o - header_size_increment))
    else Some (h, 1).

Fixpoint clen_loop (fuel : nat) (h : heap) (p : option addr) (len : Z) : option Z :=
  match p with
  | None => Some len
  | Some a =>
      match fuel with
      | O => None
      | S fuel => LET x <- h.(pbufs) !! a in clen_loop fuel h x.(next) (u8 (len + 1))
      end
  end.
Definition pbuf_clen (h : heap) (p : option addr) : option Z := clen_loop (fuel h) h p 0.

Fixpoint cat_loop (fuel : nat) (h : heap) (p t : addr) : option heap :=
  match fuel with
  | O => None
  | S fuel =>
      LET x <- h.(pbufs) !! p in
      LET y <- h.(pbufs) !! t in
      match x.(next) with
      | Some q => cat_loop fuel (put p (set_tot_len (u16 (x.(tot_len) + y.(tot_len))) x) h) q t
      | None =>
          ASSERT x.(tot_len) =? x.(len) in
          Some (put p (set_next (Some t) (set_tot_len (u16 (x.(tot_len) + y.(tot_len))) x)) h)
      end
  end.

Definition pbuf_cat (h : heap) (hd t : option addr) : option heap :=
  LET a <- hd in LET b <- t in cat_loop (fuel h) h a b.

Definition pbuf_chain (h : heap) (hd t : option addr) : option heap :=
  LET h <- pbuf_cat h hd t in pbuf_ref h t.

Definition pbuf_dechain (h : heap) (a : addr) : option (heap * option addr * list addr) :=
  LET x <- h.(pbufs) !! a in
  LET (h, tail_gone, c) <- (match x.(next) with
    | Some b =>
        LET y <- h.(pbufs) !! b in
        ASSERT y.(tot_len) =? x.(tot_len) - x.(len) in
        let h := put b (set_tot_len (u16 (x.(tot_len) - x.(len))) y) h in
        LET x <- h.(pbufs) !! a in
        let h := put a (set_tot_len x.(len) (set_next None x)) h in
        pbuf_free h (Some b)
    | None => Some (h, 1, [])
    end) in
  LET x' <- h.(pbufs) !! a in
  ASSERT x'.(tot_len) =? x'.(len) in
  Some (h, if 0 <? tail_gone then None else x.(next), c).

(** ** Chains as lists *)

(** [l] are the pbufs of the chain that starts with [p], which ends. *)
Fixpoint chain (h : heap) (p : option addr) (l : list addr) : Prop :=
  match l with
  | [] => p = None
  | a :: l => p = Some a /\ exists x, h.(pbufs) !! a = Some x /\ chain h x.(next) l
  end.

(** The [next] pointers, and how many of them point to [b]. *)
Definition nexts (h : heap) : gmap addr (option addr) := next <$> h.(pbufs).
Definition count (b : addr) (nx : gmap addr (option addr)) : nat := size (filter (fun kv => kv.2 = Some b) nx).
Definition preds (h : heap) (b : addr) : nat := count b (nexts h).
Definition is_next (n : option addr) (b : addr) : nat := if decide (n = Some b) then 1 else 0.

Lemma count_new nx a n b : nx !! a = None -> count b (<[a := n]> nx) = (is_next n b + count b nx)%nat.
Proof.
  intros H. unfold count, is_next. destruct (decide (n = Some b)) as [->|Hn].
  - rewrite map_filter_insert_True by done. apply map_size_insert_None. apply map_lookup_filter_None. by left.
  - rewrite map_filter_insert_False by done. by rewrite delete_id.
Qed.

Lemma count_delete nx a n b : nx !! a = Some n -> count b nx = (is_next n b + count b (delete a nx))%nat.
Proof. intros H. rewrite <- (insert_delete_id nx a n H) at 1. apply count_new, lookup_delete_eq. Qed.

Lemma count_insert nx a n0 n b : nx !! a = Some n0 -> (count b (<[a := n]> nx) + is_next n0 b)%nat = (count b nx + is_next n b)%nat.
Proof. intros H. rewrite <- insert_delete_eq, count_new, (count_delete nx a n0) by (done || apply lookup_delete_eq). lia. Qed.

Lemma is_next_eq b : is_next (Some b) b = 1%nat.
Proof. unfold is_next. by rewrite decide_True. Qed.
Lemma is_next_ne n b : n <> Some b -> is_next n b = 0%nat.
Proof. intros. unfold is_next. by rewrite decide_False. Qed.

Lemma count_pos nx a b : nx !! a = Some (Some b) -> (0 < count b nx)%nat.
Proof. intros H. rewrite (count_delete _ _ _ _ H), is_next_eq. lia. Qed.

Lemma count_one nx a a' b : count b nx = 1%nat -> nx !! a = Some (Some b) -> nx !! a' = Some (Some b) -> a = a'.
Proof.
  intros H1 Ha Ha'. destruct (decide (a = a')) as [|Hne]; [done|]. rewrite (count_delete _ _ _ _ Ha), is_next_eq in H1.
  pose proof (count_pos (delete a nx) a' b) as H. rewrite lookup_delete_ne in H by done. apply H in Ha'. lia.
Qed.

Lemma nexts_lookup h a x : h.(pbufs) !! a = Some x -> nexts h !! a = Some x.(next).
Proof. intros H. unfold nexts. by rewrite lookup_fmap, H. Qed.

Lemma nexts_put h a x : nexts (put a x h) = <[a := x.(next)]> (nexts h).
Proof. unfold nexts, put. cbn [pbufs]. by rewrite fmap_insert. Qed.

Lemma nexts_same h a x x' : h.(pbufs) !! a = Some x -> x'.(next) = x.(next) -> nexts (put a x' h) = nexts h.
Proof. intros H E. rewrite nexts_put, E. apply insert_id. by apply nexts_lookup. Qed.

(** Chains depend on the [next] pointers only. *)
Lemma chain_ext h h' l : forall p, (forall a, a ∈ l -> nexts h' !! a = nexts h !! a) -> chain h p l -> chain h' p l.
Proof.
  induction l as [|a l IH]; intros p E; [done|]. cbn [chain]. intros (-> & x & Hx & C). split; [done|].
  pose proof (E a ltac:(left)) as Ea. rewrite (nexts_lookup _ _ _ Hx) in Ea. unfold nexts in Ea. rewrite lookup_fmap, fmap_Some in Ea.
  destruct Ea as (x' & Hx' & En). exists x'. split; [done|]. rewrite <- En. apply IH; [|done]. intros b Hb. apply E. by right.
Qed.

Lemma chain_in h l : forall p a, chain h p l -> a ∈ l -> exists x, h.(pbufs) !! a = Some x.
Proof. induction l as [|b l IH]; intros p a; cbn [chain]; [by intros _ ?%elem_of_nil|]. intros (_ & x & Hx & C) [->|Ha]%elem_of_cons; eauto. Qed.

Lemma chain_unique h l : forall p l', chain h p l -> chain h p l' -> l = l'.
Proof.
  induction l as [|a l IH]; intros p [|a' l']; cbn [chain]; [done| | |].
  - by intros -> (? & _).
  - by intros (-> & _) ?.
  - intros (-> & x & Hx & C) ([= <-] & x' & Hx' & C'). rewrite Hx in Hx'. injection Hx' as <-. f_equal. by eapply IH.
Qed.

Lemma chain_app h l1 l2 : forall p, chain h p (l1 ++ l2) -> exists q, chain h q l2 /\ (l1 = [] -> p = q) /\
  forall a, last l1 = Some a -> exists x, h.(pbufs) !! a = Some x /\ x.(next) = q.
Proof.
  induction l1 as [|b l1 IH]; intros p; cbn [app]; [intros C; by exists p|]. cbn [chain]. intros (-> & x & Hx & C).
  destruct (IH _ C) as (q & Cq & E1 & E2). exists q. split; [done|]. split; [done|]. intros a. destruct l1 as [|c l1]; [intros [= <-]; exists x; by rewrite E1|]. apply E2.
Qed.

(** A pbuf inside a chain has the rest of it behind it and a pbuf in front. *)
Lemma chain_from h l1 a l2 p : chain h p (l1 ++ a :: l2) -> chain h (Some a) (a :: l2).
Proof. intros (q & C & _)%chain_app. pose proof C as (-> & _). done. Qed.

Lemma chain_nodup h l : forall p, chain h p l -> NoDup l.
Proof.
  induction l as [|a l IH]; intros p C; [constructor|]. constructor; [|cbn [chain] in C; destruct C as (_ & x & _ & C); by eapply IH].
  intros (l1 & l2 & ->)%list_elem_of_split. pose proof C as (-> & _). pose proof (chain_from h (a :: l1) a l2 _ C) as C'.
  pose proof (f_equal length (chain_unique _ _ _ _ C C')) as E. cbn in E. rewrite length_app in E. cbn in E. lia.
Qed.

Lemma chain_pred h l : forall p a, chain h p l -> a ∈ l -> p <> Some a -> exists b x, b ∈ l /\ h.(pbufs) !! b = Some x /\ x.(next) = Some a.
Proof.
  induction l as [|c l IH]; intros p a; cbn [chain]; [by intros _ ?%elem_of_nil|]. intros (-> & x & Hx & C) [->|Ha]%elem_of_cons Hp; [done|].
  destruct (decide (x.(next) = Some a)) as [E|E]; [exists c, x; by repeat split; [left|..]|].
  destruct (IH _ _ C Ha E) as (b & y & Hb & Hy). exists b, y. split; [by right|done].
Qed.

Lemma pred_counts h a x b : h.(pbufs) !! a = Some x -> x.(next) = Some b -> (0 < preds h b)%nat.
Proof. intros Hx E. apply (count_pos _ a). by rewrite (nexts_lookup _ _ _ Hx), E. Qed.

Lemma preds_pos h a : (0 < preds h a)%nat -> exists b y, h.(pbufs) !! b = Some y /\ y.(next) = Some a.
Proof.
  unfold preds, count. intros Hp. assert (filter (fun kv => kv.2 = Some a) (nexts h) <> ∅) as Hne by (intros E; rewrite E, map_size_empty in Hp; lia). apply map_choose in Hne.
  destruct Hne as (b & n & Hb). rewrite map_lookup_filter_Some in Hb. destruct Hb as [Hb En]. cbn in En. subst n. unfold nexts in Hb. rewrite lookup_fmap, fmap_Some in Hb. destruct Hb as (y & Hy & Ey). by exists b, y.
Qed.

Lemma chain_size h p l : chain h p l -> (length l <= size h.(pbufs))%nat.
Proof.
  intros C. rewrite <- (size_dom (D := gset addr)), <- (size_list_to_set (C := gset addr)) by by eapply chain_nodup. apply subseteq_size.
  intros a Ha%elem_of_list_to_set. destruct (chain_in _ _ _ _ C Ha) as [x Hx]. by eapply elem_of_dom_2.
Qed.

(** ** References *)

Definition owns_memory (x : pbuf) : bool := bool_decide (x.(type) = PBUF_RAM) || bool_decide (x.(type) = PBUF_POOL).

(** The payload of a pbuf with its own memory is inside of it. *)
Definition mem_ok (h : heap) (a : addr) (x : pbuf) : Prop :=
  0 <= x.(len) /\ (owns_memory x = true -> x.(custom) = false /\ exists o m, x.(payload) = Some (a, o) /\ h.(blocks) !! a = Some m /\ 0 <= o /\ o + x.(len) <= Z.of_nat (length m)).

(** Reference counts are the number of pointers: the ones held by users, [R],
    and the [next] pointers.  No chain has a loop. *)
Record counted (h : heap) (R : gmultiset addr) : Prop := {
  c_ref a x : h.(pbufs) !! a = Some x -> x.(ref) = Z.of_nat (multiplicity a R + preds h a) /\ 0 < x.(ref) < 65536;
  c_held a : (0 < multiplicity a R)%nat -> is_Some (h.(pbufs) !! a);
  c_chain a : is_Some (h.(pbufs) !! a) -> exists l, chain h (Some a) l;
  c_mem a x : h.(pbufs) !! a = Some x -> mem_ok h a x }.

Definition flags_ok (h : heap) : Prop := forall a x, h.(pbufs) !! a = Some x -> (Z.land x.(flags) PBUF_FLAG_IS_CUSTOM =? 0) = negb x.(custom).

Definition held (p : option addr) : gmultiset addr := match p with Some a => {[+ a +]} | None => ∅ end.

Lemma multiplicity_held a p : multiplicity a (held p) = is_next p a.
Proof.
  unfold is_next. destruct p as [b|]; cbn [held]; [|by rewrite multiplicity_empty, decide_False].
  rewrite multiplicity_singleton. repeat case_decide; congruence || done.
Qed.

Lemma multiplicity_add a R p : multiplicity a (R ⊎ held p) = (multiplicity a R + is_next p a)%nat.
Proof. by rewrite multiplicity_disj_union, multiplicity_held. Qed.

Lemma put_eq a x h : (put a x h).(pbufs) !! a = Some x.
Proof. apply lookup_insert_eq. Qed.
Lemma put_ne a b x h : a <> b -> (put a x h).(pbufs) !! b = h.(pbufs) !! b.
Proof. apply lookup_insert_ne. Qed.

(** Chains and predecessors are those of the [next] pointers. *)
Lemma preds_nexts h h' b : nexts h' = nexts h -> preds h' b = preds h b.
Proof. unfold preds. by intros ->. Qed.
Lemma chain_nexts h h' p l : nexts h' = nexts h -> chain h p l -> chain h' p l.
Proof. intros E. apply chain_ext. intros a _. by rewrite E. Qed.

(** A pbuf changes, but not its [next] pointer. *)
Lemma counted_update h R R' a x x' : counted h R -> h.(pbufs) !! a = Some x -> x'.(next) = x.(next) ->
  (forall b, b <> a -> multiplicity b R' = multiplicity b R) -> x'.(ref) = Z.of_nat (multiplicity a R' + preds h a) -> 0 < x'.(ref) < 65536 -> mem_ok h a x' ->
  counted (put a x' h) R'.
Proof.
  intros [Cr Ch Cc Cm] Hx En Hm Hr Hb Ho. pose proof (nexts_same h a x x' Hx En) as E. split.
  - intros b y. rewrite (preds_nexts _ _ _ E). destruct (decide (a = b)) as [<-|Hne]; [rewrite put_eq; by intros [= <-]|]. rewrite put_ne, Hm by done. apply Cr.
  - intros b Hb'. destruct (decide (a = b)) as [<-|Hne]; [rewrite put_eq; by eexists|]. rewrite put_ne by done. apply Ch. by rewrite <- Hm.
  - intros b Hb'. destruct (Cc b) as [l C]; [|exists l; by eapply chain_nexts]. destruct (decide (a = b)) as [<-|Hne]; [by eexists|]. by rewrite put_ne in Hb'.
  - intros b y. destruct (decide (a = b)) as [<-|Hne]; [rewrite put_eq; by intros [= <-]|]. rewrite put_ne by done. apply Cm.
Qed.

(** What freeing leaves of a heap: pbufs with other counts at most, and their
    memory. *)
Record left_over (h h' : heap) : Prop := {
  lo_pbuf a x' : h'.(pbufs) !! a = Some x' -> exists x, h.(pbufs) !! a = Some x /\ x' = set_ref x'.(ref) x;
  lo_block b : h'.(blocks) !! b = h.(blocks) !! b \/ is_Some (h.(pbufs) !! b) /\ h'.(pbufs) !! b = None }.

Lemma left_over_trans h1 h2 h3 : left_over h1 h2 -> left_over h2 h3 -> left_over h1 h3.
Proof.
  intros [P1 B1] [P2 B2]. split.
  - intros a x3 H3. destruct (P2 a x3 H3) as (x2 & H2 & E3). destruct (P1 a x2 H2) as (x1 & H1 & E2). exists x1. split; [done|]. rewrite E3, E2. done.
  - intros b. destruct (B2 b) as [->|[[x2 H2] H3]]; [|right; split; [destruct (P1 b x2 H2) as (x1 & -> & _); by eexists|done]].
    destruct (B1 b) as [->|[H1 H2]]; [by left|right]. split; [done|]. destruct (pbufs h3 !! b) as [x3|] eqn:E; [|done]. destruct (P2 b x3 E) as (x2 & E2 & _). congruence.
Qed.

Lemma left_over_ref a x r h : h.(pbufs) !! a = Some x -> left_over h (put a (set_ref r x) h).
Proof.
  intros Hx. split; [|by left]. intros b y. destruct (decide (a = b)) as [<-|Hne]; [rewrite put_eq; intros [= <-]; by exists x|].
  rewrite put_ne by done. intros Hy. exists y. split; [done|]. by destruct y.
Qed.

(** Unlinking the last reference to [a]: its [next] pointer is left over. *)
Lemma counted_delete h R a x bl : counted h (R ⊎ held (Some a)) -> h.(pbufs) !! a = Some x -> x.(ref) = 1 -> (forall b, b <> a -> bl !! b = h.(blocks) !! b) ->
  counted (MkHeap (delete a h.(pbufs)) bl) (R ⊎ held x.(next)).
Proof.
  intros [Cr Ch Cc Cm] Hx H1 Hbl. pose proof (Cr a x Hx) as [Er _]. rewrite multiplicity_add, is_next_eq in Er.
  assert (nexts (MkHeap (delete a (pbufs h)) bl) = delete a (nexts h)) as En by (unfold nexts; cbn [pbufs]; by rewrite fmap_delete).
  assert (forall b, preds h b = is_next x.(next) b + preds (MkHeap (delete a (pbufs h)) bl) b)%nat as Hp.
  { intros b. unfold preds. rewrite En. apply count_delete. by apply nexts_lookup. }
  assert (forall b p l, chain h p l -> p = Some b -> b <> a -> a ∉ l) as Hnot.
  { intros b p l C -> Hb Ha. destruct (chain_pred _ _ _ _ C Ha) as (c & y & _ & Hy & Hn); [congruence|]. pose proof (pred_counts _ _ _ _ Hy Hn). lia. }
  split; cbn [pbufs blocks].
  - intros b y Hy. rewrite lookup_delete_Some in Hy. destruct Hy as [Hne Hy]. pose proof (Cr b y Hy) as [Eb ?]. split; [|done].
    rewrite Eb, !multiplicity_add, (Hp b). rewrite (is_next_ne (Some a)) by congruence. lia.
  - intros b Hb. rewrite multiplicity_add in Hb. destruct (decide (x.(next) = Some b)) as [Eb|Eb].
    + assert (b <> a) as Hne by (intros ->; pose proof (pred_counts _ _ _ _ Hx Eb); lia). rewrite lookup_delete_ne by done.
      destruct (Cc a) as [l C]; [by eexists|]. destruct l as [|a' l]; [done|]. cbn [chain] in C. destruct C as ([= <-] & x0 & Hx0 & C). rewrite Hx in Hx0. injection Hx0 as <-.
      rewrite Eb in C. destruct l as [|b' l]; [done|]. cbn [chain] in C. destruct C as ([= <-] & y & Hy & _). by eexists.
    + rewrite (is_next_ne _ _ Eb) in Hb. assert (b <> a) as Hne by (intros ->; lia). rewrite lookup_delete_ne by done. apply Ch. rewrite multiplicity_add. lia.
  - intros b [y Hy]. rewrite lookup_delete_Some in Hy. destruct Hy as [Hne Hy]. destruct (Cc b) as [l C]; [by eexists|]. exists l. eapply chain_ext; [|done].
    intros c Hc. rewrite En, lookup_delete_ne; [done|]. intros ->. by eapply (Hnot b).
  - intros b y Hy. rewrite lookup_delete_Some in Hy. destruct Hy as [Hne Hy]. destruct (Cm b y Hy) as [Hl Ho]. split; [done|]. cbn [blocks]. rewrite Hbl by done. done.
Qed.

Lemma release_ok h R a x : counted h (R ⊎ held (Some a)) -> flags_ok h -> h.(pbufs) !! a = Some x -> x.(ref) = 1 ->
  exists h' c, release a x (put a (set_ref 0 x) h) = Some (h', c) /\ counted h' (R ⊎ held x.(next)) /\ flags_ok h' /\ left_over h h' /\ h'.(pbufs) = delete a h.(pbufs) /\
    c = (if x.(custom) then [a] else []).
Proof.
  intros C F Hx H1. unfold release. cbn [put pbufs blocks]. rewrite delete_insert_eq, (F a x Hx).
  assert (forall bl, (forall b, b <> a -> bl !! b = h.(blocks) !! b) -> let h' := MkHeap (delete a h.(pbufs)) bl in
    counted h' (R ⊎ held x.(next)) /\ flags_ok h' /\ left_over h h' /\ h'.(pbufs) = delete a h.(pbufs)) as H.
  { intros bl Hbl. split; [by eapply counted_delete|]. split; [intros b y; cbn [pbufs]; intros [_ Hy]%lookup_delete_Some; by eapply F|]. split; [|done].
    split; cbn [pbufs blocks].
    - intros b y [_ Hy]%lookup_delete_Some. exists y. split; [done|]. by destruct y.
    - intros b. destruct (decide (b = a)) as [->|Hne]; [right; split; [by eexists|apply lookup_delete_eq]|left; by apply Hbl]. }
  destruct (custom x); cbn [negb]; [eexists _, _; split; [done|]; by destruct (H (blocks h)) as (? & ? & ? & ?)|].
  destruct (_ || _); eexists _, _; (split; [done|]).
  - by destruct (H (blocks h)) as (? & ? & ? & ?).
  - destruct (H (delete a (blocks h))) as (? & ? & ? & ?); [|done]. intros b Hb. by apply lookup_delete_ne.
Qed.

(** [n] pbufs of the chain were freed, the first one if any. *)
Definition freed (h h' : heap) (p : option addr) (n : nat) : Prop :=
  size h.(pbufs) = (n + size h'.(pbufs))%nat /\ (forall l, chain h p l -> (n <= length l)%nat) /\ match p with Some a => h'.(pbufs) !! a = None <-> (0 < n)%nat | None => n = 0%nat end.

(** Freeing gives a reference back; whatever loses its last one goes, down the
    chain. *)
Lemma free_loop_ok fuel : forall h p R count, counted h (R ⊎ held p) -> flags_ok h -> 0 <= count < 256 -> (size h.(pbufs) < fuel)%nat ->
  exists h' n c, free_loop fuel h p count = Some (h', u8 (count + Z.of_nat n), c) /\ counted h' R /\ flags_ok h' /\ left_over h h' /\ freed h h' p n.
Proof.
  induction fuel as [|fuel IH]; intros h p R cnt C F Hc Hf; [lia|]. destruct p as [a|]; cbn [free_loop].
  2:{ exists h, 0%nat, []. rewrite Z.add_0_r, u8_small by done. split; [done|]. cbn [held] in C. rewrite (right_id_L ∅ (⊎)) in C. split; [done|]. split; [done|]. split; [|split; [done|split; [lia|done]]].
      split; [|by left]. intros a x Hx. exists x. split; [done|]. by destruct x. }
  destruct (c_held _ _ C a) as [x Hx]; [rewrite multiplicity_add, is_next_eq; lia|]. rewrite Hx. pose proof (c_ref _ _ C a x Hx) as [Er Hb]. rewrite multiplicity_add, is_next_eq in Er.
  rewrite (proj2 (Z.ltb_lt _ _)) by lia. rewrite u16_small by lia. destruct (Z.eqb_spec (ref x - 1) 0) as [E0|E0].
  - replace (ref x - 1) with 0 by lia. destruct (release_ok h R a x C F Hx ltac:(lia)) as (h1 & c1 & -> & C1 & F1 & L1 & E1 & _).
    assert (size (pbufs h) = S (size (pbufs h1))) as Hs.
    { rewrite E1, map_size_delete_Some by (by eexists). assert (size (pbufs h) <> 0)%nat; [|lia]. rewrite map_size_non_empty_iff. intros E. by rewrite E, lookup_empty in Hx. }
    destruct (IH h1 (next x) R (u8 (cnt + 1)) C1 F1 (u8_range _)) as (h2 & n & c2 & -> & C2 & F2 & L2 & S2 & N2 & _); [lia|].
    exists h2, (S n), (c1 ++ c2). split; [|split; [done|split; [done|split; [by eapply left_over_trans|split; [lia|split]]]]].
    + unfold u8. rewrite Zplus_mod_idemp_l. do 4 f_equal. lia.
    + intros [|a' l] Cl; [done|]. pose proof (chain_nodup _ _ _ Cl) as [Ha _]%NoDup_cons. destruct Cl as (E & x0 & Hx0 & Cl). injection E as <-. rewrite Hx in Hx0. injection Hx0 as <-.
      cbn [length]. apply le_n_S, N2. eapply chain_ext; [|done]. intros b Hin. unfold nexts. rewrite E1, fmap_delete, lookup_delete_ne; [done|]. by intros ->.
    + split; [lia|intros _]. destruct (pbufs h2 !! a) as [z|] eqn:E; [|done]. destruct (lo_pbuf _ _ L2 a z E) as (y & Hy & _). by rewrite E1, lookup_delete_eq in Hy.
  - eexists _, 0%nat, _. rewrite Z.add_0_r, (u8_small cnt) by done. split; [done|]. split; [|split; [|split; [by apply left_over_ref|split; [|split]]]].
    + eapply counted_update; [done|done|done| | | |].
      * intros b Hne. rewrite multiplicity_add, is_next_ne by congruence. lia.
      * cbn [set_ref ref]. lia.
      * cbn [set_ref ref]. lia.
      * apply (c_mem _ _ C a x Hx).
    + intros b y. destruct (decide (a = b)) as [<-|Hne]; [rewrite put_eq; intros [= <-]; by apply (F a x)|]. rewrite put_ne by done. apply F.
    + cbn [put pbufs]. rewrite map_size_insert_Some by (by eexists). done.
    + intros. lia.
    + rewrite put_eq. by split; [|lia].
Qed.

Lemma free_ok h a R : counted h (R ⊎ {[+ a +]}) -> flags_ok h ->
  exists h' n c, pbuf_free h (Some a) = Some (h', u8 (Z.of_nat n), c) /\ counted h' R /\ flags_ok h' /\ left_over h h' /\ freed h h' (Some a) n.
Proof.
  intros C F. change {[+ a +]} with (held (Some a)) in C. unfold pbuf_free. destruct (c_held _ _ C a) as [x Hx]; [rewrite multiplicity_add, is_next_eq; lia|]. rewrite Hx. apply (free_loop_ok _ h (Some a) R 0); [done|done|done|]. unfold fuel. lia.
Qed.

(** ** Links *)

Lemma next_in h R a x b : counted h R -> h.(pbufs) !! a = Some x -> x.(next) = Some b -> (exists y, h.(pbufs) !! b = Some y) /\ exists l, chain h (Some a) (a :: l) /\ chain h (Some b) l.
Proof.
  intros C Hx E. destruct (c_chain _ _ C a) as [l Cl]; [by eexists|]. destruct l as [|a' l]; [done|]. pose proof Cl as (E' & x0 & Hx0 & Cl'). injection E' as <-.
  rewrite Hx in Hx0. injection Hx0 as <-. rewrite E in Cl'. split; [|by exists l]. destruct l as [|b' l]; [done|]. destruct Cl' as ([= <-] & y & Hy & _). by exists y.
Qed.

(** The chain through [a] after its [next] pointer was changed. *)
Lemma chain_redirect h a x' l1 : forall p l2 l3, chain h p (l1 ++ a :: l2) -> a ∉ l1 -> chain (put a x' h) x'.(next) l3 -> chain (put a x' h) p (l1 ++ a :: l3).
Proof.
  induction l1 as [|b l1 IH]; intros p l2 l3 C Hn C3; cbn [app chain] in *.
  - destruct C as (-> & _). split; [done|]. exists x'. by rewrite put_eq.
  - destruct C as (-> & y & Hy & C). split; [done|]. exists y. rewrite put_ne by set_solver. split; [done|]. eapply IH; [done|set_solver|done].
Qed.

(** Changing a [next] pointer: the references move with it. *)
Lemma counted_relink h R R' a x n : counted h R -> h.(pbufs) !! a = Some x -> (exists l, chain (put a (set_next n x) h) n l) ->
  (forall b, (multiplicity b R' + is_next n b = multiplicity b R + is_next x.(next) b)%nat) -> counted (put a (set_next n x) h) R'.
Proof.
  intros C Hx [l3 C3] HR.
  assert (forall b, (preds (put a (set_next n x) h) b + is_next x.(next) b = preds h b + is_next n b)%nat) as Hp.
  { intros b. unfold preds. rewrite nexts_put. apply count_insert. by apply nexts_lookup. }
  split.
  - intros b y. assert (forall y0, pbufs h !! b = Some y0 -> ref y0 = Z.of_nat (multiplicity b R' + preds (put a (set_next n x) h) b) /\ 0 < ref y0 < 65536) as H.
    { intros y0 Hy0. destruct (c_ref _ _ C b y0 Hy0) as [-> ?]. pose proof (Hp b). pose proof (HR b). split; [f_equal; lia|done]. }
    destruct (decide (a = b)) as [<-|Hne]; [rewrite put_eq; intros [= <-]; by apply (H x)|]. rewrite put_ne by done. apply H.
  - intros b Hb. pose proof (HR b). assert (is_Some (pbufs h !! b)) as [y Hy]; [|destruct (decide (a = b)) as [<-|Hne]; [rewrite put_eq|rewrite put_ne by done]; by eexists].
    destruct (decide (next x = Some b)) as [E|E]; [by destruct (next_in _ _ _ _ _ C Hx E) as [? _]|]. rewrite (is_next_ne _ _ E) in *. apply (c_held _ _ C). lia.
  - intros b Hb. assert (is_Some (pbufs h !! b)) as Hb' by (destruct (decide (a = b)) as [<-|Hne]; [by eexists|by rewrite put_ne in Hb]).
    destruct (c_chain _ _ C b Hb') as [l Cl]. destruct (decide (a ∈ l)) as [Ha|Ha].
    + apply list_elem_of_split in Ha. destruct Ha as (l1 & l2 & ->). exists (l1 ++ a :: l3). eapply chain_redirect; [done| |done].
      apply chain_nodup in Cl. apply NoDup_app in Cl. destruct Cl as (_ & Hd & _). intros Hin. apply (Hd a Hin). by left.
    + exists l. eapply chain_ext; [|done]. intros c Hc. rewrite nexts_put, lookup_insert_ne; [done|]. by intros ->.
  - intros b y. destruct (decide (a = b)) as [<-|Hne]; [rewrite put_eq; intros [= <-]; apply (c_mem _ _ C a x Hx)|]. rewrite put_ne by done. apply (c_mem _ _ C).
Qed.

Lemma chain_put_notin h a x p l : chain h p l -> a ∉ l -> chain (put a x h) p l.
Proof. intros C Ha. eapply chain_ext; [|done]. intros c Hc. rewrite nexts_put, lookup_insert_ne; [done|]. by intros ->. Qed.

Lemma counted_link h R a x t lt : counted h (R ⊎ {[+ t +]}) -> h.(pbufs) !! a = Some x -> x.(next) = None -> chain h (Some t) lt -> a ∉ lt -> counted (put a (set_next (Some t) x) h) R.
Proof.
  intros C Hx Hn Ct Ha. eapply counted_relink; [done|done|exists lt; by apply chain_put_notin|]. intros b. change {[+ t +]} with (held (Some t)).
  rewrite multiplicity_add, Hn, (is_next_ne None) by done. lia.
Qed.

Lemma counted_unlink h R a x t : counted h R -> h.(pbufs) !! a = Some x -> x.(next) = Some t -> counted (put a (set_next None x) h) (R ⊎ {[+ t +]}).
Proof.
  intros C Hx Hn. eapply counted_relink; [done|done|by exists []|]. intros b. change {[+ t +]} with (held (Some t)).
  rewrite multiplicity_add, Hn, (is_next_ne None) by done. lia.
Qed.

(** *** No leaks

    Every pbuf is in the chain of a pbuf that somebody holds. *)
Lemma reachable h R : counted h R -> forall n a l, (size h.(pbufs) < n + length l)%nat -> chain h (Some a) l -> exists r lr, (0 < multiplicity r R)%nat /\ chain h (Some r) lr /\ a ∈ lr.
Proof.
  intros C. induction n as [|n IH]; intros a l Hn Cl; [pose proof (chain_size _ _ _ Cl); lia|].
  destruct l as [|a' l]; [done|]. pose proof Cl as (E & x & Hx & _). injection E as <-.
  destruct (decide (0 < multiplicity a R)%nat) as [Hm|Hm]; [exists a, (a :: l); split; [done|]; split; [done|left]|].
  pose proof (c_ref _ _ C a x Hx) as [Er Hb]. assert (0 < preds h a)%nat as Hp by lia.
  destruct (preds_pos _ _ Hp) as (b & y & Hy & Ey). destruct (next_in _ _ _ _ _ C Hy Ey) as (_ & l' & Cb & Ca). rewrite (chain_unique _ _ _ _ Ca Cl) in Cb.
  destruct (IH b (b :: a :: l)) as (r & lr & Hr & Cr & Hin); [cbn in *; lia|done|]. exists r, lr. split; [done|]. split; [done|].
  apply list_elem_of_split in Hin. destruct Hin as (l1 & l2 & ->). pose proof (chain_from _ _ _ _ _ Cr) as Cb'. rewrite (chain_unique _ _ _ _ Cb' Cb). set_solver.
Qed.

(** ** Lengths *)

Definition tail_len (h : heap) (p : option addr) : Z := match p with Some b => match h.(pbufs) !! b with Some y => y.(tot_len) | None => 0 end | None => 0 end.

(** [tot_len] is the length of the chain, except that [r] counts [d] more. *)
Definition sized_but (h : heap) (r : addr) (d : Z) : Prop :=
  forall a x, h.(pbufs) !! a = Some x -> x.(tot_len) = x.(len) + tail_len h x.(next) + (if decide (a = r) then d else 0) /\ x.(tot_len) < 65536.
Definition sized (h : heap) : Prop := forall a x, h.(pbufs) !! a = Some x -> x.(tot_len) = x.(len) + tail_len h x.(next) /\ x.(tot_len) < 65536.

Record inv (h : heap) (R : gmultiset addr) : Prop := { i_counted : counted h R; i_flags : flags_ok h; i_sized : sized h }.

Lemma sized_left_over h h' R : sized h -> counted h' R -> left_over h h' -> sized h'.
Proof.
  intros S C L a x' Hx'. destruct (lo_pbuf _ _ L a x' Hx') as (x & Hx & E). rewrite E. cbn [set_ref tot_len len next]. destruct (S a x Hx) as [Es Hs]. split; [|done]. rewrite Es. f_equal.
  destruct (next x) as [b|] eqn:En; [|done]. cbn [tail_len]. destruct (next_in _ _ _ _ b C Hx') as ((y' & Hy') & _); [by rewrite E|]. rewrite Hy'.
  destruct (lo_pbuf _ _ L b y' Hy') as (y & -> & ->). done.
Qed.

Lemma tot_len_nonneg h R l : counted h R -> sized h -> forall a x, chain h (Some a) l -> h.(pbufs) !! a = Some x -> 0 <= x.(tot_len).
Proof.
  intros C S. induction l as [|a' l IH]; [done|]. intros a x (E & x0 & Hx0 & Cl) Hx. injection E as <-. rewrite Hx in Hx0. injection Hx0 as <-.
  destruct (S a x Hx) as [-> _]. destruct (c_mem _ _ C a x Hx) as [Hl _]. destruct (next x) as [b|]; cbn [tail_len]; [|lia]. destruct (pbufs h !! b) as [y|] eqn:Hy; [|lia]. pose proof (IH b y Cl Hy). lia.
Qed.

Lemma tot_len_range h R a x : inv h R -> h.(pbufs) !! a = Some x -> 0 <= x.(len) <= x.(tot_len) /\ x.(tot_len) < 65536.
Proof.
  intros [C _ S] Hx. destruct (c_chain _ _ C a) as [l Cl]; [by eexists|]. destruct (S a x Hx) as [E Hlt]. destruct (c_mem _ _ C a x Hx) as [Hl _]. split; [|done]. split; [done|].
  rewrite E. destruct (next x) as [b|] eqn:En; cbn [tail_len]; [|lia]. destruct (pbufs h !! b) as [y|] eqn:Hy; [|lia].
  destruct (next_in _ _ _ _ _ C Hx En) as (_ & l' & _ & Cb). pose proof (tot_len_nonneg h R l' C S b y Cb Hy). lia.
Qed.

(** Along a chain the lengths do not grow. *)
Lemma tot_len_chain h R l : inv h R -> forall a x b y, chain h (Some a) l -> h.(pbufs) !! a = Some x -> b ∈ l -> h.(pbufs) !! b = Some y -> y.(tot_len) <= x.(tot_len).
Proof.
  intros I. induction l as [|a' l IH]; intros a x b y C Hx Hb Hy; [done|]. destruct C as (E & x0 & Hx0 & Cl). injection E as <-. rewrite Hx in Hx0. injection Hx0 as <-.
  apply elem_of_cons in Hb. destruct Hb as [->|Hb]; [rewrite Hx in Hy; injection Hy as <-; lia|]. destruct (next x) as [c|] eqn:En; [|destruct l; [by apply elem_of_nil in Hb|by destruct Cl]].
  destruct (chain_in _ _ _ _ Cl Hb) as [z Hz]. destruct l as [|c' l]; [by apply elem_of_nil in Hb|]. pose proof Cl as (E & w & Hw & _). injection E as <-.
  pose proof (IH c w b y Cl Hw Hb Hy). destruct (i_sized _ _ I a x Hx) as [Es _]. rewrite En in Es. cbn [tail_len] in Es. rewrite Hw in Es.
  destruct (tot_len_range _ _ _ _ I Hx). lia.
Qed.

End Pbuf.
