(* ===== verification/PbufChain.v ===== *)
(** * Operations on chains of packet buffers

    That the operations of [Pbuf] that allocate, link, cut, shrink and free
    chains keep the invariant [Pbuf.inv], and what each of them does to a
    chain. *)

From stdpp Require Import gmultiset.
From S2P Require Import Prelude LinkedList Pbuf.
Open Scope Z_scope.
Import Pbuf.

Module PbufChain.

(** ** Chains that are not shared

    Nothing points to the first pbuf and only the chain itself to the others, so
    changing the lengths concerns nobody else. *)
Definition unshared (h : heap) (l : list addr) : bool :=
  match l with
  | [] => true
  | a :: l => (preds h a =? 0)%nat && forallb (fun b => (preds h b =? 1)%nat) l
  end.

Lemma unshared_pred h p l a x b : chain h p l -> unshared h l = true -> h.(pbufs) !! a = Some x -> x.(next) = Some b -> b ∈ l -> a ∈ l.
Proof.
  intros C U Hx En Hb. destruct l as [|c l]; [by apply elem_of_nil in Hb|]. cbn [unshared] in U. to_prop. pose proof (pred_counts _ _ _ _ Hx En) as Hp.
  pose proof C as (-> & _). destruct (decide (b = c)) as [->|Hne]; [lia|]. destruct (chain_pred _ _ _ _ C Hb) as (a' & x' & Ha' & Hx' & En'); [congruence|].
  assert (preds h b = 1%nat) as H1.
  { apply elem_of_cons in Hb. destruct Hb as [|Hb]; [done|]. rewrite forallb_forall in *. apply Nat.eqb_eq. apply list_elem_of_In in Hb. eauto. }
  rewrite (count_one (nexts h) a a' b); [done|done|by rewrite (nexts_lookup _ _ _ Hx), En|by rewrite (nexts_lookup _ _ _ Hx'), En'].
Qed.

(** A pbuf of a chain points to the one behind it. *)
Lemma chain_succ h l : forall p i d x, chain h p l -> l !! i = Some d -> h.(pbufs) !! d = Some x -> x.(next) = l !! S i.
Proof.
  induction l as [|a l IH]; intros p i d x; [done|]. intros (-> & y & Hy & C) Hi Hx. destruct i as [|i]; [|by apply (IH _ i d x C)]. injection Hi as <-. rewrite Hy in Hx. injection Hx as <-. destruct l as [|b l]; [done|]. by destruct C as (-> & _).
Qed.

Lemma count_single nx a b : nx !! a = Some (Some b) -> (forall d, nx !! d = Some (Some b) -> d = a) -> count b nx = 1%nat.
Proof.
  intros Ha Hu. rewrite (count_delete _ _ _ _ Ha), is_next_eq. unfold count. rewrite (map_empty_filter_2 (M := gmap addr)); [by rewrite map_size_empty|]. intros d n Hd E. cbn in E. subst n. apply lookup_delete_Some in Hd. destruct Hd as [Hne Hd]. by apply Hne, eq_sym, Hu.
Qed.

(** Nobody points into a chain whose pbufs only its own pbufs point to. *)
Lemma unshared_closed h p l : chain h p l -> (forall d x b, h.(pbufs) !! d = Some x -> x.(next) = Some b -> b ∈ l -> d ∈ l) -> unshared h l = true.
Proof.
  intros C Hc. pose proof (chain_nodup _ _ _ C) as Hn. assert (forall d x b i, pbufs h !! d = Some x -> next x = Some b -> l !! i = Some b -> exists j, i = S j /\ l !! j = Some d) as Hp.
  { intros d x b i Hx En Hi. pose proof (Hc d x b Hx En ltac:(by eapply list_elem_of_lookup_2)) as Hd. apply list_elem_of_lookup in Hd. destruct Hd as [j Hj]. exists j. split; [|done]. rewrite (chain_succ _ _ _ _ _ _ C Hj Hx) in En. by eapply NoDup_lookup. }
  destruct l as [|a l]; [done|]. cbn [unshared]. apply andb_true_iff. rewrite Nat.eqb_eq, forallb_forall. split.
  - destruct (preds h a) eqn:E; [done|]. destruct (preds_pos h a ltac:(lia)) as (d & x & Hx & En). by destruct (Hp d x a 0%nat Hx En eq_refl) as (j & ? & _).
  - intros b Hb%list_elem_of_In. apply Nat.eqb_eq. apply list_elem_of_lookup in Hb. destruct Hb as [i Hi]. destruct (chain_pred _ _ _ b C) as (d & x & Hd & Hx & En); [right; by eapply list_elem_of_lookup_2| |].
    + pose proof C as (-> & _). intros [= ->]. apply NoDup_cons in Hn. destruct Hn as [Hn _]. apply Hn. by eapply list_elem_of_lookup_2.
    + apply (count_single _ d); [by rewrite (nexts_lookup _ _ _ Hx), En|]. intros d' Hd'. unfold nexts in Hd'. rewrite lookup_fmap in Hd'. destruct (pbufs h !! d') as [x'|] eqn:Hx'; [|done]. injection Hd' as En'.
      destruct (Hp d x b (S i) Hx En Hi) as (j & [= <-] & Hj). destruct (Hp d' x' b (S i) Hx' En' Hi) as (j' & [= <-] & Hj'). congruence.
Qed.

(** ** Concatenating *)

(** Heaps that differ in [tot_len] only. *)
Record lengths_differ (h h' : heap) : Prop := {
  ld_blocks : h'.(blocks) = h.(blocks);
  ld_pbuf a : set_tot_len 0 <$> h'.(pbufs) !! a = set_tot_len 0 <$> h.(pbufs) !! a }.

Lemma lengths_differ_lookup h h' a x' : lengths_differ h h' -> h'.(pbufs) !! a = Some x' -> exists x, h.(pbufs) !! a = Some x /\ x' = set_tot_len x'.(tot_len) x.
Proof.
  intros [_ L] Hx'. pose proof (L a) as E. rewrite Hx' in E. cbn in E. symmetry in E. rewrite fmap_Some in E. destruct E as (x & Hx & E). exists x. split; [done|].
  clear L Hx Hx'. destruct x, x'. unfold set_tot_len in *. cbn in *. congruence.
Qed.

Lemma lengths_differ_sym h h' : lengths_differ h h' -> lengths_differ h' h.
Proof. intros [B L]. by split. Qed.

Lemma lengths_differ_nexts h h' : lengths_differ h h' -> nexts h' = nexts h.
Proof. intros [_ L]. apply map_eq. intros a. unfold nexts. rewrite !lookup_fmap. pose proof (L a) as E. destruct (pbufs h' !! a), (pbufs h !! a); cbn in *; try done. by injection E as -> _ _ _ _ _ _. Qed.

Lemma counted_lengths h h' R : counted h R -> lengths_differ h h' -> counted h' R.
Proof.
  intros C L. pose proof (lengths_differ_nexts _ _ L) as En. split.
  - intros a x' Hx'. destruct (lengths_differ_lookup _ _ _ _ L Hx') as (x & Hx & ->). rewrite (preds_nexts _ _ _ En). apply (c_ref _ _ C a x Hx).
  - intros a Ha. destruct (c_held _ _ C a Ha) as [x Hx]. destruct (lengths_differ_lookup _ _ _ _ (lengths_differ_sym _ _ L) Hx) as (x' & Hx' & _). by eexists.
  - intros a [x' Hx']. destruct (lengths_differ_lookup _ _ _ _ L Hx') as (x & Hx & _). destruct (c_chain _ _ C a) as [l Cl]; [by eexists|]. exists l. by eapply chain_nexts.
  - intros a x' Hx'. destruct (lengths_differ_lookup _ _ _ _ L Hx') as (x & Hx & ->). unfold mem_ok. rewrite (ld_blocks _ _ L). apply (c_mem _ _ C a x Hx).
Qed.

Lemma flags_lengths h h' : flags_ok h -> lengths_differ h h' -> flags_ok h'.
Proof. intros F L a x' Hx'. destruct (lengths_differ_lookup _ _ _ _ L Hx') as (x & Hx & ->). apply (F a x Hx). Qed.

(** What [pbuf_cat] does to a pbuf of the first chain. *)
Definition grown (T : Z) (t : addr) (x : pbuf) : pbuf :=
  set_tot_len (u16 (x.(tot_len) + T)) (match x.(next) with Some _ => x | None => set_next (Some t) x end).

Lemma cat_loop_spec t y l : forall fuel h p, chain h (Some p) l -> (length l <= fuel)%nat -> t ∉ l -> h.(pbufs) !! t = Some y ->
  (forall a x, a ∈ l -> h.(pbufs) !! a = Some x -> x.(next) = None -> x.(tot_len) = x.(len)) ->
  exists h', cat_loop fuel h p t = Some h' /\ h'.(blocks) = h.(blocks) /\
    forall a, h'.(pbufs) !! a = if decide (a ∈ l) then grown y.(tot_len) t <$> h.(pbufs) !! a else h.(pbufs) !! a.
Proof.
  induction l as [|p' l IH]; [done|]. intros [|fuel] h p C Hf Ht Hy Hl; [cbn in Hf; lia|]. pose proof (chain_nodup _ _ _ C) as Hnd. apply NoDup_cons in Hnd. destruct Hnd as [Hp _].
  destruct C as (E & x & Hx & C). injection E as <-. cbn [cat_loop]. rewrite Hx, Hy. destruct (next x) as [q|] eqn:En.
  - set (x' := set_tot_len _ x). assert (forall a, a <> p -> pbufs (put p x' h) !! a = pbufs h !! a) as Hne by (intros; by apply put_ne).
    destruct (IH fuel (put p x' h) q) as (h' & -> & Hb & Hs).
    + eapply chain_nexts; [|done]. by apply (nexts_same h p x).
    + cbn in Hf. lia.
    + set_solver.
    + rewrite Hne; [done|set_solver].
    + intros a z Ha. rewrite Hne; [apply Hl; set_solver|]. by intros ->.
    + exists h'. split; [done|]. split; [done|]. intros a. rewrite Hs. destruct (decide (a = p)) as [->|Ha].
      * rewrite decide_False, decide_True by (done || left). rewrite put_eq, Hx. cbn. unfold grown. by rewrite En.
      * rewrite Hne by done. destruct (decide (a ∈ l)), (decide (a ∈ p :: l)); set_solver.
  - rewrite (Hl p x) by (done || left). rewrite Z.eqb_refl. eexists. split; [done|]. split; [done|]. destruct l as [|? ?]; [|by destruct C]. intros a. destruct (decide (a = p)) as [->|Ha].
    + rewrite decide_True by left. rewrite put_eq, Hx. cbn. unfold grown. rewrite En. f_equal. rewrite (Hl p x) by (done || left). done.
    + rewrite put_ne by done. rewrite decide_False; [done|]. set_solver.
Qed.

Lemma chain_next h p l c z d : chain h p l -> c ∈ l -> h.(pbufs) !! c = Some z -> z.(next) = Some d -> d ∈ l.
Proof.
  intros C Hc Hz En. apply list_elem_of_split in Hc. destruct Hc as (k1 & k2 & ->). apply chain_from in C. destruct C as (_ & z' & Hz' & Cz). rewrite Hz in Hz'. injection Hz' as <-.
  rewrite En in Cz. destruct k2 as [|d' k2]; [done|]. destruct Cz as ([= <-] & _). set_solver.
Qed.

Lemma chain_end h p l b : chain h p (l ++ [b]) -> (exists x, h.(pbufs) !! b = Some x /\ x.(next) = None) /\
  forall c z, c ∈ l ++ [b] -> h.(pbufs) !! c = Some z -> z.(next) = None -> c = b.
Proof.
  intros C. split; [pose proof (chain_from _ _ _ _ _ C) as (_ & x & Hx & E); by exists x|]. intros c z Hc Hz Ez. apply elem_of_app in Hc. destruct Hc as [Hc|Hc]; [|set_solver]. exfalso.
  apply list_elem_of_split in Hc. destruct Hc as (k1 & k2 & ->). rewrite <- app_assoc in C. cbn in C. apply chain_from in C. destruct C as (_ & z' & Hz' & Cz). rewrite Hz in Hz'. injection Hz' as <-.
  rewrite Ez in Cz. by destruct k2; destruct Cz.
Qed.

(** Two chains become one, in their order. *)
Lemma cat_ok h R a la t lt x y : inv h (R ⊎ {[+ t +]}) -> chain h (Some a) la -> unshared h la = true -> chain h (Some t) lt -> (forall b, b ∈ la -> b ∉ lt) ->
  h.(pbufs) !! a = Some x -> h.(pbufs) !! t = Some y -> x.(tot_len) + y.(tot_len) < 65536 ->
  exists h', pbuf_cat h (Some a) (Some t) = Some h' /\ inv h' R /\ chain h' (Some a) (la ++ lt) /\ h'.(blocks) = h.(blocks) /\
    forall b, h'.(pbufs) !! b = if decide (b ∈ la) then grown y.(tot_len) t <$> h.(pbufs) !! b else h.(pbufs) !! b.
Proof.
  intros I Ca Ua Ct Hd Hx Hy Hsum. destruct lt as [|t' lt']; [done|]. pose proof Ct as (Et & _). injection Et as <-. set (lt := t :: lt') in *.
  assert (t ∈ lt) as Htt by left. assert (t ∉ la) as Ht by (intros ?; by apply (Hd t)).
  assert (forall b z, b ∈ la -> pbufs h !! b = Some z -> 0 <= tot_len z + tot_len y < 65536) as Hr.
  { intros b z Hb Hz. pose proof (tot_len_chain _ _ _ I _ _ _ _ Ca Hx Hb Hz). destruct (tot_len_range _ _ _ _ I Hz), (tot_len_range _ _ _ _ I Hy). lia. }
  destruct (cat_loop_spec t y la (fuel h) h a Ca) as (h' & E & Hb & Hs); [pose proof (chain_size _ _ _ Ca); unfold fuel; lia|done|done| |].
  { intros b z _ Hz En. destruct (i_sized _ _ I b z Hz) as [-> _]. rewrite En. cbn. lia. }
  exists h'. split; [done|]. destruct I as [C F S]. assert (exists z xz, la = z ++ [xz]) as (l1 & b & Ela). { destruct (exists_last (l := la)) as (l1 & b & ->); [by destruct la|]. by exists l1, b. }
  destruct (chain_end h (Some a) l1 b) as [(xb & Hxb & Enb) Hlast]; [by rewrite <- Ela|]. rewrite <- Ela in Hlast.
  assert (b ∉ lt) as Hblt by (apply Hd; rewrite Ela; set_solver).
  assert (lengths_differ (put b (set_next (Some t) xb) h) h') as L.
  { split; [done|]. intros c. rewrite Hs. destruct (decide (c = b)) as [->|Hne].
    - rewrite decide_True, put_eq, Hxb by (rewrite Ela; set_solver). cbn. unfold grown. by rewrite Enb.
    - rewrite put_ne by done. destruct (decide (c ∈ la)) as [Hc|Hc]; [|done]. destruct (pbufs h !! c) as [z|] eqn:Hz; [|done]. cbn. unfold grown.
      destruct (next z) eqn:Ez; [done|]. by rewrite (Hlast c z) in Hne. }
  pose proof (counted_link h R b xb t lt C Hxb Enb Ct Hblt) as C1. split; [split|split; [|done]].
  - by eapply counted_lengths.
  - eapply flags_lengths; [|done]. intros c z. destruct (decide (b = c)) as [<-|Hne]; [rewrite put_eq; intros [= <-]; by apply (F b xb)|]. rewrite put_ne by done. apply F.
  - intros c z' Hz'. rewrite Hs in Hz'. destruct (decide (c ∈ la)) as [Hc|Hc].
    + destruct (pbufs h !! c) as [z|] eqn:Hz; [|done]. injection Hz' as <-. pose proof (Hr c z Hc Hz). destruct (S c z Hz) as [Ez _]. unfold grown. cbn [set_tot_len tot_len]. rewrite u16_small by done. split; [|lia].
      destruct (next z) as [d|] eqn:En; cbn [set_tot_len set_next len next tail_len] in *.
      * rewrite En. cbn [tail_len]. rewrite Hs. pose proof (chain_next _ _ _ _ _ _ Ca Hc Hz En) as Hda.
        rewrite decide_True by done. destruct (chain_in _ _ _ _ Ca Hda) as [w Hw]. rewrite Hw in *. cbn. unfold grown. cbn [set_tot_len tot_len]. rewrite u16_small; [lia|]. by eapply Hr.
      * rewrite Hs, decide_False, Hy by done. lia.
    + destruct (S c z' Hz') as [Ez ?]. split; [|done]. rewrite Ez. f_equal. destruct (next z') as [d|] eqn:En; [|done]. cbn [tail_len]. rewrite Hs, decide_False; [done|]. intros Hda. apply Hc. by eapply unshared_pred.
  - eapply chain_nexts; [by apply lengths_differ_nexts|]. rewrite Ela in *. rewrite <- app_assoc. cbn. eapply chain_redirect; [done| |by apply (chain_put_notin h b _ (Some t))].
    apply chain_nodup in Ca. apply NoDup_app in Ca. destruct Ca as (_ & Hnd & _). intros Hin. apply (Hnd b Hin). by left.
Qed.

(** ** The other operations on chains *)

Lemma flags_put h a x x' : flags_ok h -> h.(pbufs) !! a = Some x -> x'.(flags) = x.(flags) -> x'.(custom) = x.(custom) -> flags_ok (put a x' h).
Proof. intros F Hx Ef Ec b y. destruct (decide (a = b)) as [<-|Hne]; [rewrite put_eq; intros [= <-]; rewrite Ef, Ec; by apply (F a x)|]. rewrite put_ne by done. apply F. Qed.

(** The lengths after a change of one pbuf that keeps its [tot_len] or that
    nothing points to. *)
Lemma sized_put h a x x' : sized h -> h.(pbufs) !! a = Some x -> (x'.(tot_len) = x.(tot_len) \/ preds h a = 0%nat) -> x'.(next) <> Some a ->
  x'.(tot_len) = x'.(len) + tail_len h x'.(next) -> x'.(tot_len) < 65536 -> sized (put a x' h).
Proof.
  intros S Hx Ht Hna Es Hlt b y Hy. assert (forall n, n <> Some a \/ tot_len x' = tot_len x -> tail_len (put a x' h) n = tail_len h n) as Hn.
  { intros [c|] Hc; [|done]. cbn [tail_len]. destruct (decide (a = c)) as [<-|Hne]; [rewrite put_eq, Hx; by destruct Hc|by rewrite put_ne]. }
  destruct (decide (a = b)) as [<-|Hne]; [rewrite put_eq in Hy; injection Hy as <-; rewrite Hn by (by left); done|]. rewrite put_ne in Hy by done. destruct (S b y Hy) as [Eb ?]. split; [|done].
  rewrite Hn; [done|]. destruct Ht as [Ht|Ht]; [by right|left]. intros E. pose proof (pred_counts _ _ _ _ Hy E). lia.
Qed.

Lemma next_not_self h R a x : counted h R -> h.(pbufs) !! a = Some x -> x.(next) <> Some a.
Proof. intros C Hx E. destruct (next_in _ _ _ _ _ C Hx E) as (_ & l & Ca & Cl). pose proof (f_equal length (chain_unique _ _ _ _ Ca Cl)) as El. cbn in El. lia. Qed.

Lemma ref_ok h R a x : inv h R -> h.(pbufs) !! a = Some x -> x.(ref) < 65535 -> pbuf_ref h (Some a) = Some (put a (set_ref (x.(ref) + 1) x) h) /\ inv (put a (set_ref (x.(ref) + 1) x) h) (R ⊎ {[+ a +]}).
Proof.
  intros [C F S] Hx Hr. pose proof (c_ref _ _ C a x Hx) as [Er Hb]. unfold pbuf_ref. rewrite Hx, u16_small by lia. split; [done|]. change {[+ a +]} with (held (Some a)). split.
  - eapply counted_update; [done|done|done| | | |].
    + intros b Hne. rewrite multiplicity_add, is_next_ne by congruence. lia.
    + rewrite multiplicity_add, is_next_eq. cbn [set_ref ref]. lia.
    + cbn [set_ref ref]. lia.
    + apply (c_mem _ _ C a x Hx).
  - by eapply flags_put.
  - destruct (S a x Hx). eapply sized_put; [done|done|by left|by apply (next_not_self h R a x)|done|done].
Qed.

(** What [pbuf_header] is asked for has to fit. *)
Definition header_fits (x : pbuf) (inc : Z) : bool :=
  (-32768 <=? inc) && (inc <? 32768) && (- inc <=? x.(len)) && (x.(tot_len) + inc <? 65536) && (owns_memory x || bool_decide (is_Some x.(payload))).

Definition moved_header (inc : Z) (x : pbuf) : pbuf :=
  set_tot_len (x.(tot_len) + inc) (set_len (x.(len) + inc) (set_payload (match x.(payload) with Some (b, o) => Some (b, o - inc) | None => None end) x)).

(** The payload grows or shrinks at its front, or there is no room and nothing
    changes. *)
Lemma header_ok h R a x inc : inv h R -> h.(pbufs) !! a = Some x -> preds h a = 0%nat -> header_fits x inc = true ->
  exists h' r, pbuf_header h (Some a) inc = Some (h', r) /\ inv h' R /\ ((r = 1 /\ h' = h /\ 0 < inc) \/ (r = 0 /\ h' = put a (moved_header inc x) h /\ (inc <= 0 \/ owns_memory x = true))).
Proof.
  intros I Hx Hp Hf. unfold header_fits in Hf. to_prop. destruct (tot_len_range _ _ _ _ I Hx) as [? ?]. pose proof I as [C F S]. destruct (c_mem _ _ C a x Hx) as [_ Hm].
  assert (put a (moved_header 0 x) h = h) as E0.
  { unfold moved_header. rewrite !Z.add_0_r. replace (match payload x with Some (b, o) => Some (b, o - 0) | None => None end) with (payload x) by (destruct (payload x) as [[b o]|]; [by rewrite Z.sub_0_r|done]).
    destruct x, h. unfold put. cbn in *. by rewrite insert_id. }
  unfold pbuf_header. destruct (Z.eqb_spec inc 0) as [->|Hi]; [exists h, 0; split; [done|]; split; [done|]; right; split; [done|]; split; [done|]; by left|]. rewrite Hx.
  assert ((owns_memory x = true -> forall b o, payload x = Some (b, o) -> 0 <= o - inc) -> inv (put a (moved_header inc x) h) R) as I'.
  { intros Ho. split; [|by eapply flags_put|].
    - pose proof (c_ref _ _ C a x Hx) as [Er ?]. eapply counted_update; [done|done|done|done|done|done|]. split; [cbn; lia|]. intros Hw. destruct (Hm Hw) as (Hc & o & m & Ep & Eb & ? & ?). split; [done|].
      cbn. rewrite Ep. exists (o - inc), m. split; [done|]. split; [done|]. pose proof (Ho Hw _ _ Ep). lia.
    - eapply sized_put; [done|done|by right|by apply (next_not_self h R a x)| |]; cbn; [|lia]. destruct (S a x Hx). lia. }
  assert (forall d, d = (match payload x with Some (b, o) => Some (b, o - inc) | None => None end) ->
    set_tot_len (u16 (tot_len x + inc)) (set_len (u16 (len x + inc)) (set_payload d x)) = moved_header inc x) as Ed by (intros d ->; unfold moved_header; by rewrite !u16_small by lia).
  assert ((0 <? inc) || (u16 (- inc) <=? len x) = true) as ->.
  { destruct (Z.ltb_spec 0 inc); [done|]. rewrite u16_small by lia. cbn. lia. }
  fold (owns_memory x). destruct (owns_memory x) eqn:Ho.
  - destruct (Hm eq_refl) as (_ & o & m & Ep & _ & ? & _). rewrite Ep in *. rewrite bool_decide_eq_true_2 by done. destruct (Z.ltb_spec (o - inc) 0) as [Hl|Hl].
    + exists h, 1. split; [done|]. split; [done|]. left. split; [done|]. split; [done|lia].
    + rewrite Ed by done. eexists _, _. split; [done|]. split; [apply I'; intros _ b o' [= <- <-]; done|]. right. split; [done|]. split; [done|by right].
  - destruct (Z.ltb_spec inc 0) as [Hl|Hl]; cbn [andb].
    + rewrite u16_small, (proj2 (Z.leb_le _ _)) by lia. match goal with H : _ \/ _ |- _ => destruct H as [H|H]; [done|apply bool_decide_eq_true in H; destruct H as [[b o] Ep]] end.
      rewrite Ep in *. rewrite Ed by done. eexists _, _. split; [done|]. split; [by apply I'|]. right. split; [done|]. split; [done|left; lia].
    + exists h, 1. split; [done|]. split; [done|]. left. split; [done|]. split; [done|lia].
Qed.

Lemma lengths_put h a x v : lengths_differ (put a x h) (put a (set_tot_len v x) h).
Proof. split; [done|]. intros b. destruct (decide (a = b)) as [<-|Hne]; [by rewrite !put_eq|by rewrite !put_ne]. Qed.

Lemma put_id h a x : h.(pbufs) !! a = Some x -> put a x h = h.
Proof. intros Hx. destruct h. unfold put. cbn in *. by rewrite insert_id. Qed.

Lemma put_put h a x y : put a x (put a y h) = put a x h.
Proof. unfold put. cbn. by rewrite insert_insert_eq. Qed.

Lemma set_tot_len_id x : set_tot_len x.(tot_len) x = x.
Proof. by destruct x. Qed.

(** A chain cut behind its first pbuf; the rest is given back by it. *)
Lemma cut_ok h R a x b : inv h R -> h.(pbufs) !! a = Some x -> preds h a = 0%nat -> x.(next) = Some b -> inv (put a (set_tot_len x.(len) (set_next None x)) h) (R ⊎ {[+ b +]}).
Proof.
  intros I Hx Hp En. destruct (tot_len_range _ _ _ _ I Hx). pose proof I as [C F S]. split.
  - eapply counted_lengths; [by eapply counted_unlink|]. apply lengths_put.
  - by eapply flags_put.
  - eapply sized_put; [done|done|by right|done|cbn; lia|cbn; lia].
Qed.

(** A chain of at most 256 pbufs is taken apart: the first pbuf stays, and the
    pointer returned is to the rest exactly when the rest is still there. *)
Lemma dechain_ok h R a x la : inv h R -> h.(pbufs) !! a = Some x -> preds h a = 0%nat -> chain h (Some a) la -> (length la <= 256)%nat ->
  exists h' c, pbuf_dechain h a = Some (h', (match x.(next) with Some b => match h'.(pbufs) !! b with Some _ => Some b | None => None end | None => None end), c) /\ inv h' R /\
    left_over (put a (set_tot_len x.(len) (set_next None x)) h) h'.
Proof.
  intros I Hx Hp Ca Hlen. destruct (tot_len_range _ _ _ _ I Hx) as [? ?]. pose proof I as [C F S]. destruct (S a x Hx) as [Es _]. unfold pbuf_dechain. rewrite Hx. destruct (next x) as [b|] eqn:En.
  - destruct (next_in _ _ _ _ _ C Hx En) as ((y & Hy) & lb & Ca' & Cb). rewrite (chain_unique _ _ _ _ Ca Ca') in Hlen. cbn in Hlen. rewrite Hy. cbn [tail_len] in Es. rewrite Hy in Es.
    replace (tot_len x - len x) with (tot_len y) by lia. rewrite Z.eqb_refl, u16_small, set_tot_len_id, put_id, Hx by (done || pose proof (tot_len_range _ _ _ _ I Hy); lia).
    destruct (cut_ok h R a x b I Hx Hp En) as [C1 F1 S1]. set (h1 := put a _ h) in *. assert (a ∉ lb) as Hnd by (apply chain_nodup in Ca'; by apply NoDup_cons in Ca' as [? _]).
    destruct (free_ok h1 b R C1 F1) as (h' & n & c & -> & C' & F' & L & Sz & Hn & Hb). pose proof (Hn lb ltac:(by apply chain_put_notin)) as Hle.
    destruct (pbufs h' !! a) as [x'|] eqn:Ha'.
    + destruct (lo_pbuf _ _ L a x' Ha') as (x1 & Hx1 & ->). unfold h1 in Hx1. rewrite put_eq in Hx1. injection Hx1 as <-. cbn [set_ref set_tot_len set_next tot_len len]. rewrite Z.eqb_refl.
      exists h', c. split; [|split; [split; [done|done|by eapply sized_left_over]|done]]. do 3 f_equal. rewrite u8_small by lia.
      destruct (pbufs h' !! b) eqn:Eb; [|destruct Hb as [Hb _]; pose proof (Hb eq_refl); by rewrite (proj2 (Z.ltb_lt _ _)) by lia].
      destruct n as [|n]; [done|]. destruct Hb as [_ Hb]. by pose proof (Hb ltac:(lia)).
    + (* [a] is still referenced: it was not in the chain that was freed *)
      exfalso. pose proof (c_ref _ _ C a x Hx) as [Er Hr]. destruct (c_held _ _ C' a) as [x' Hx']; [lia|]. congruence.
  - cbn in Es. rewrite Hx, (proj2 (Z.eqb_eq _ _)) by lia. exists h, []. split; [done|]. split; [done|]. replace (set_tot_len (len x) (set_next None x)) with x by (rewrite <- En, <- (Z.add_0_r (len x)), <- Es; by destruct x).
    rewrite put_id by done. split; [|by left]. intros c z Hz. exists z. split; [done|]. by destruct z.
Qed.

(** *** Shrinking *)

Definition len_at (h : heap) (a : addr) : Z := match h.(pbufs) !! a with Some x => x.(len) | None => 0 end.
Definition chain_len (h : heap) (l : list addr) : Z := foldr (fun a n => len_at h a + n) 0 l.

Lemma chain_len_cons h a l : chain_len h (a :: l) = len_at h a + chain_len h l.
Proof. done. Qed.

Lemma chain_len_app h l1 l2 : chain_len h (l1 ++ l2) = chain_len h l1 + chain_len h l2.
Proof. induction l1 as [|a l1 IH]; [done|]. cbn [app]. rewrite !chain_len_cons. lia. Qed.

Lemma tail_len_chain h l : sized h -> forall p, chain h p l -> tail_len h p = chain_len h l.
Proof.
  intros S. induction l as [|a l IH]; intros p; [by intros ->|]. intros (-> & x & Hx & C). cbn [tail_len]. rewrite chain_len_cons. unfold len_at. rewrite Hx. destruct (S a x Hx) as [-> _]. by rewrite (IH _ C).
Qed.

Lemma chain_len_nonneg h R l p : inv h R -> chain h p l -> 0 <= chain_len h l.
Proof.
  intros I C. destruct I as [Cn F S]. revert p C. induction l as [|a l IH]; intros p; [done|]. intros (-> & x & Hx & C). rewrite chain_len_cons. unfold len_at. rewrite Hx. pose proof (IH _ C). destruct (c_mem _ _ Cn a x Hx). lia.
Qed.

(** A pbuf in front of the new end: its total length changes by [grow]. *)
Definition shrunk (grow : Z) (x : pbuf) : pbuf := set_tot_len (u16 (x.(tot_len) + u16 grow)) x.

Lemma realloc_loop_spec grow l : grow < 0xffff -> forall fuel h q rem, chain h (Some q) l -> (length l <= fuel)%nat -> (forall a x, h.(pbufs) !! a = Some x -> 0 <= x.(len)) ->
  0 <= rem < 65536 -> rem <= chain_len h l ->
  exists h' l1 b l2 rem', realloc_loop fuel h q rem grow = Some (h', b, rem') /\ l = l1 ++ b :: l2 /\ h'.(blocks) = h.(blocks) /\
    rem = chain_len h l1 + rem' /\ (0 <= rem' <= len_at h b /\ (l1 = [] \/ 0 < rem')) /\ forall a, h'.(pbufs) !! a = if decide (a ∈ l1) then shrunk grow <$> h.(pbufs) !! a else h.(pbufs) !! a.
Proof.
  intros Hg. induction l as [|q' l IH]; [done|]. intros [|fuel] h q rem C Hf Hl Hr Hs; [cbn in Hf; lia|]. pose proof (chain_nodup _ _ _ C) as [Hq _]%NoDup_cons.
  destruct C as (E & x & Hx & C). injection E as <-. cbn [realloc_loop]. rewrite Hx. rewrite chain_len_cons in Hs. unfold len_at in Hs. rewrite Hx in Hs. pose proof (Hl q x Hx). destruct (Z.ltb_spec (len x) rem) as [Hlt|Hge].
  - rewrite (proj2 (Z.ltb_lt _ _)) by done. destruct l as [|q2 l]; [cbn in Hs; lia|]. pose proof C as (En & _). rewrite En. fold (shrunk grow x). set (h1 := put q (shrunk grow x) h).
    assert (forall a, a <> q -> pbufs h1 !! a = pbufs h !! a) as Hne by (intros; by apply put_ne).
    assert (forall k, q ∉ k -> chain_len h1 k = chain_len h k) as Hcl.
    { induction k as [|c k IHk]; intros Hk; [done|]. rewrite !chain_len_cons. rewrite not_elem_of_cons in Hk. rewrite IHk by tauto. f_equal. unfold len_at. rewrite Hne; [done|]. intros ->. tauto. }
    rewrite u16_small by lia. destruct (IH fuel h1 q2 (rem - len x)) as (h' & l1 & b & l2 & rem' & E2 & El & Eb & Er & Hr' & Hs').
    + rewrite <- En. eapply chain_nexts; [|done]. by apply (nexts_same h q x).
    + cbn in *. lia.
    + intros a z. destruct (decide (a = q)) as [->|Ha]; [unfold h1; rewrite put_eq; by intros [= <-]|]. rewrite Hne by done. apply Hl.
    + lia.
    + rewrite Hcl by done. lia.
    + assert ((q ∉ l1) /\ b <> q) as [Hq1 Hqb] by (rewrite El in Hq; set_solver). exists h', (q :: l1), b, l2, rem'. split; [done|]. split; [by rewrite El|]. split; [done|].
      split; [rewrite chain_len_cons; unfold len_at; rewrite Hx; rewrite Hcl in Er by done; lia|]. destruct Hr' as [Hr' Hz]. split; [split; [unfold len_at in *; by rewrite Hne in Hr'|right; destruct Hz as [-> |?]; [cbn in Er; lia|done]]|].
      intros a. rewrite Hs'. destruct (decide (a = q)) as [->|Ha].
      * rewrite decide_False, decide_True by (done || left). unfold h1. by rewrite put_eq, Hx.
      * rewrite Hne by done. destruct (decide (a ∈ l1)), (decide (a ∈ q :: l1)); set_solver.
  - exists h, [], q, l, rem. split; [done|]. split; [done|]. split; [done|]. split; [done|]. split; [split; [unfold len_at; rewrite Hx; lia|by left]|done].
Qed.

(** Freeing does not see a pbuf outside of the chain. *)
Lemma free_frame b x' fuel : forall h p l cnt, chain h p l -> b ∉ l ->
  free_loop fuel (put b x' h) p cnt = (fun '(h', n, c) => (put b x' h', n, c)) <$> free_loop fuel h p cnt.
Proof.
  induction fuel as [|fuel IH]; intros h p l cnt C Hb; destruct p as [a|]; [done|done| |done]. cbn [free_loop].
  pose proof (chain_nodup _ _ _ C) as Hnd. destruct l as [|a' l]; [done|]. destruct C as (E & x & Hx & C). injection E as <-. apply NoDup_cons in Hnd. destruct Hnd as [Ha _].
  assert (b <> a /\ (b ∉ l)) as [Hne Hbl] by set_solver. rewrite put_ne, Hx by done. destruct (0 <? ref x); [|done]. destruct (u16 (ref x - 1) =? 0).
  2:{ cbn. unfold put. cbn. by rewrite insert_insert_ne by done. }
  assert (forall hh, release a x (put a (set_ref (u16 (ref x - 1)) x) (put b x' hh)) = (fun '(h', c) => (put b x' h', c)) <$> release a x (put a (set_ref (u16 (ref x - 1)) x) hh)) as ->.
  { intros hh. unfold release, put. cbn. rewrite !delete_insert_eq, delete_insert_ne by done. repeat case_match; done. }
  destruct (release a x (put a (set_ref (u16 (ref x - 1)) x) h)) as [[h1 c1]|] eqn:Er; [|done]. cbn. rewrite (IH h1 (next x) l); [by destruct (free_loop fuel h1 (next x) (u8 (cnt + 1))) as [[[? ?] ?]|]| |done].
  eapply chain_ext; [|done]. intros c Hc. unfold release in Er. cbn in Er. rewrite delete_insert_eq in Er. assert (pbufs h1 = delete a (pbufs h)) as E1 by (repeat case_match; by simplify_eq).
  unfold nexts. rewrite E1, fmap_delete, lookup_delete_ne; [done|]. by intros ->.
Qed.

(** In a chain without sharing, the pbufs in front of [b] are the ones that
    lead to them and to it. *)
Lemma chain_before h p l1 b l2 c z : chain h p (l1 ++ b :: l2) -> c ∈ l1 -> h.(pbufs) !! c = Some z -> exists d, z.(next) = Some d /\ (d ∈ l1 \/ d = b).
Proof.
  intros C Hc Hz. apply list_elem_of_split in Hc. destruct Hc as (k1 & k2 & ->). rewrite <- app_assoc in C. cbn in C. apply chain_from in C. destruct C as (_ & z' & Hz' & C). rewrite Hz in Hz'. injection Hz' as <-.
  destruct k2 as [|d k2]; destruct C as (-> & _); eexists; (split; [done|]); [by right|left; set_solver].
Qed.

Lemma unshared_before h p l1 b l2 c z d : chain h p (l1 ++ b :: l2) -> unshared h (l1 ++ b :: l2) = true -> c <> b -> h.(pbufs) !! c = Some z -> z.(next) = Some d ->
  d ∈ l1 \/ d = b -> c ∈ l1.
Proof.
  intros C U Hcb Hz En Hd. pose proof (unshared_pred _ _ _ _ _ _ C U Hz En ltac:(set_solver)) as Hc. apply elem_of_app in Hc. destruct Hc as [|Hc]; [done|]. exfalso. apply elem_of_cons in Hc. destruct Hc as [|Hc]; [done|].
  apply list_elem_of_split in Hc. destruct Hc as (k1 & k2 & ->). pose proof (chain_nodup _ _ _ C) as Hnd. rewrite NoDup_app, NoDup_cons in Hnd. destruct Hnd as (_ & Hdis & Hb & _).
  replace (l1 ++ b :: k1 ++ c :: k2) with ((l1 ++ b :: k1) ++ c :: k2) in C by by rewrite <- app_assoc. apply chain_from in C. pose proof (chain_next _ _ _ _ _ _ C ltac:(left) Hz En) as Hdk.
  destruct Hd as [Hd| ->]; [apply (Hdis d Hd); set_solver|set_solver].
Qed.

Lemma left_over_refl h : left_over h h.
Proof. split; [|by left]. intros a x Hx. exists x. split; [done|]. by destruct x. Qed.

(** A chain whose first pbuf is left is left whole. *)
Lemma chain_left_over h h' R l : counted h' R -> left_over h h' -> forall a, chain h (Some a) l -> is_Some (h'.(pbufs) !! a) -> chain h' (Some a) l.
Proof.
  intros C L. induction l as [|a' l IH]; [done|]. intros a (E & x & Hx & Cl) [x' Hx']. injection E as <-. cbn [chain]. split; [done|]. exists x'. split; [done|].
  destruct (lo_pbuf _ _ L a x' Hx') as (x0 & Hx0 & Ex). rewrite Hx in Hx0. injection Hx0 as <-. assert (next x' = next x) as En by by rewrite Ex. rewrite En. destruct (next x) as [b|] eqn:Eb; [|destruct l; [done|by destruct Cl]].
  apply IH; [done|]. destruct (next_in _ _ _ _ _ C Hx' En) as [Hb _]. done.
Qed.

(** Freeing the chain behind [b] while [b] still points to it. *)
Lemma free_behind h R b x y n l : counted h (R ⊎ {[+ n +]}) -> flags_ok h -> h.(pbufs) !! b = Some x -> chain h (Some n) l -> b ∉ l ->
  exists h' k c, pbuf_free (put b y h) (Some n) = Some (put b y h', k, c) /\ counted h' R /\ flags_ok h' /\ left_over h h' /\ h'.(pbufs) !! b = Some x.
Proof.
  intros C F Hx Cn Hb. destruct (free_ok h n R C F) as (h' & k & c & E & C' & F' & L & _). exists h', (u8 (Z.of_nat k)), c.
  assert (b <> n) as Hne by (destruct l; [done|]; destruct Cn as (En & _); injection En as <-; set_solver).
  assert (fuel (put b y h) = fuel h) as Ef by (unfold fuel, put; cbn [pbufs]; by rewrite map_size_insert_Some by (by eexists)).
  unfold pbuf_free in *. rewrite put_ne by done. destruct (pbufs h !! n); [|done]. rewrite Ef, (free_frame b y _ h (Some n) l) by done. rewrite E. split; [done|]. split; [done|]. split; [done|]. split; [done|].
  pose proof (free_frame b x (fuel h) h (Some n) l 0 Cn Hb) as Fr. rewrite (put_id h b x Hx), E in Fr. injection Fr as E2. rewrite E2. apply put_eq.
Qed.

(** The chain cut in the middle of [b], with the total lengths corrected. *)
Lemma shrink_ok h R a la l1 b l2 rem xb h1 : inv h R -> chain h (Some a) la -> unshared h la = true -> la = l1 ++ b :: l2 -> h.(pbufs) !! b = Some xb -> 0 <= rem <= xb.(len) ->
  h1.(blocks) = h.(blocks) -> (forall c, h1.(pbufs) !! c = if decide (c ∈ l1) then shrunk (rem - xb.(tot_len)) <$> h.(pbufs) !! c else h.(pbufs) !! c) ->
  let h2 := put b (set_next None (set_tot_len rem (set_len rem xb))) h1 in
  inv h2 (R ⊎ held xb.(next)) /\ chain h2 (Some a) (l1 ++ [b]) /\ chain h2 xb.(next) l2.
Proof.
  intros I Ca Ua -> Hxb Hrem Hbl Hs h2. pose proof I as [C F S]. pose proof (chain_nodup _ _ _ Ca) as Hnd. rewrite NoDup_app, NoDup_cons in Hnd. destruct Hnd as (_ & Hd & Hb2 & _).
  assert (b ∉ l1) as Hb1 by (intros Hin; apply (Hd b Hin); left). assert (h1.(pbufs) !! b = Some xb) as Hxb1 by by rewrite Hs, decide_False.
  assert (forall c z, c ∈ l1 -> pbufs h !! c = Some z -> 0 <= tot_len z + (rem - tot_len xb) /\ shrunk (rem - tot_len xb) z = set_tot_len (tot_len z + (rem - tot_len xb)) z) as Hsh.
  { intros c z Hc Hz. destruct (tot_len_range _ _ _ _ I Hz). destruct (tot_len_range _ _ _ _ I Hxb). apply list_elem_of_split in Hc. destruct Hc as (k1 & k2 & ->). rewrite <- app_assoc in Ca. cbn in Ca. apply chain_from in Ca.
    pose proof (tot_len_chain h R _ I c z b xb Ca Hz ltac:(set_solver) Hxb). split; [lia|]. unfold shrunk. f_equal. unfold u16. rewrite Zplus_mod_idemp_r. apply Z.mod_small. lia. }
  assert (lengths_differ (put b (set_len rem (set_next None xb)) h) h2) as L.
  { split; [done|]. intros c. unfold h2. destruct (decide (b = c)) as [<-|Hne]; [by rewrite !put_eq|]. rewrite !put_ne, Hs by done. destruct (decide (c ∈ l1)); [|done]. by destruct (pbufs h !! c). }
  assert (counted (put b (set_next None xb) h) (R ⊎ held (next xb))) as C1.
  { destruct (next xb) as [n|] eqn:En; [by apply counted_unlink|]. cbn [held]. rewrite (right_id_L ∅ (⊎)). replace (set_next None xb) with xb by (rewrite <- En; by destruct xb). by rewrite put_id. }
  assert (counted h2 (R ⊎ held (next xb))) as C2.
  { eapply counted_lengths; [|exact L]. replace (put b (set_len rem (set_next None xb)) h) with (put b (set_len rem (set_next None xb)) (put b (set_next None xb) h)) by apply put_put.
    pose proof (c_ref _ _ C1 b _ (put_eq b _ h)) as [Er ?]. eapply counted_update; [done|apply put_eq|done|done|done|done|]. destruct (c_mem _ _ C1 b _ (put_eq b _ h)) as [_ Hm]. split; [cbn; lia|].
    intros Ho. destruct (Hm Ho) as (Hc & o & m & Ep & Em & ? & ?). split; [done|]. exists o, m. cbn in *. split; [done|]. split; [done|lia]. }
  split; [split|split].
  - done.
  - eapply flags_lengths; [|exact L]. by eapply flags_put.
  - intros c z Hz. unfold h2 in Hz. destruct (decide (b = c)) as [<-|Hne]; [rewrite put_eq in Hz; injection Hz as <-; cbn; destruct (tot_len_range _ _ _ _ I Hxb); lia|].
    rewrite put_ne, Hs in Hz by done. destruct (decide (c ∈ l1)) as [Hc|Hc].
    + destruct (pbufs h !! c) as [z0|] eqn:Hz0; [|done]. injection Hz as <-. destruct (Hsh c z0 Hc Hz0) as [Hn ->]. destruct (S c z0 Hz0) as [Ez ?]. cbn [set_tot_len tot_len len next]. destruct (tot_len_range _ _ _ _ I Hxb). split; [|lia].
      destruct (chain_before _ _ _ _ _ _ _ Ca Hc Hz0) as (d & En & Hd'). rewrite En in *. cbn [tail_len] in *. unfold h2. destruct (decide (b = d)) as [<-|Hbd].
      * rewrite put_eq. rewrite Hxb in Ez. cbn. lia.
      * destruct Hd' as [Hd'|]; [|done]. rewrite put_ne, Hs, decide_True by done. destruct (chain_in h _ (Some a) d Ca) as [w Hw]; [set_solver|]. rewrite Hw in *. destruct (Hsh d w Hd' Hw) as [_ Ew]. cbn [fmap option_fmap option_map]. rewrite Ew. cbn. lia.
    + destruct (S c z Hz) as [Ez ?]. split; [|done]. rewrite Ez. f_equal. destruct (next z) as [d|] eqn:En; [|done]. cbn [tail_len].
      assert (~ (d ∈ l1 \/ d = b)) as Hd' by (intros Hd'; by apply Hc; eapply unshared_before). unfold h2. rewrite put_ne, Hs, decide_False; [done|tauto|]. intros ->. tauto.
  - eapply chain_nexts; [by apply lengths_differ_nexts|]. by eapply chain_redirect.
  - eapply chain_nexts; [by apply lengths_differ_nexts|]. apply chain_put_notin; [|done]. apply chain_from in Ca. destruct Ca as (_ & x0 & Hx0 & Cn). rewrite Hxb in Hx0. by injection Hx0 as <-.
Qed.

(** Shrinking cuts the chain at [new_len]; what is behind is given back. *)
Lemma realloc_ok h R a x la new_len : inv h R -> chain h (Some a) la -> unshared h la = true -> h.(pbufs) !! a = Some x -> 0 <= new_len ->
  exists h' c, pbuf_realloc h (Some a) new_len = Some (h', c) /\ inv h' R /\
    ((x.(tot_len) <= new_len /\ h' = h) \/
     exists l1 b xb l2 rem h1, la = l1 ++ b :: l2 /\ h.(pbufs) !! b = Some xb /\ (0 <= rem <= xb.(len) /\ (l1 = [] \/ 0 < rem)) /\ new_len = chain_len h l1 + rem /\ new_len < x.(tot_len) /\ h1.(blocks) = h.(blocks) /\
       (forall c, h1.(pbufs) !! c = if decide (c ∈ l1) then shrunk (rem - xb.(tot_len)) <$> h.(pbufs) !! c else h.(pbufs) !! c) /\
       chain h' (Some a) (l1 ++ [b]) /\ left_over (put b (set_next None (set_tot_len rem (set_len rem xb))) h1) h').
Proof.
  intros I Ca Ua Hx Hn. unfold pbuf_realloc. rewrite Hx. destruct (Z.leb_spec (tot_len x) new_len) as [Hle|Hlt]; [exists h, []; split; [done|]; split; [done|]; by left|].
  pose proof I as [C F S]. destruct (tot_len_range _ _ _ _ I Hx). pose proof (tail_len_chain _ _ S _ Ca) as Et. cbn [tail_len] in Et. rewrite Hx in Et.
  destruct (realloc_loop_spec (new_len - tot_len x) la ltac:(lia) (fuel h) h a new_len Ca) as (h1 & l1 & b & l2 & rem & -> & Ela & Eb & En & Hrem & Hs).
  { pose proof (chain_size _ _ _ Ca). unfold fuel. lia. } { intros c z Hz. by destruct (c_mem _ _ C c z Hz). } { lia. } { lia. }
  destruct (chain_in _ _ _ b Ca ltac:(rewrite Ela; set_solver)) as [xb Hxb]. unfold len_at in Hrem. rewrite Hxb in Hrem.
  replace (new_len - tot_len x) with (rem - tot_len xb) in Hs.
  2:{ rewrite Ela, chain_len_app in Et. rewrite Ela in Ca. apply chain_from in Ca. pose proof (tail_len_chain _ _ S _ Ca) as Etb. cbn [tail_len] in Etb. rewrite Hxb in Etb. lia. }
  destruct (shrink_ok h R a la l1 b l2 rem xb h1 I Ca Ua Ela Hxb (proj1 Hrem) Eb Hs) as (I2 & C2a & C2n). set (x2 := set_next None _) in *. set (h2 := put b x2 h1) in *.
  assert ((b ∉ l1) /\ (b ∉ l2)) as [Hb1 Hb2]. { pose proof (chain_nodup _ _ _ Ca) as Hnd. rewrite Ela, NoDup_app, NoDup_cons in Hnd. destruct Hnd as (_ & Hd & ? & _). split; [|done]. intros Hin. apply (Hd b Hin). left. }
  rewrite Hs, decide_False, Hxb by done. set (y := set_tot_len rem (set_len rem xb)) in *. replace (put b y h1) with (put b y h2) by apply put_put.
  assert (exists h' c, (match next xb with Some n => match pbuf_free (put b y h2) (Some n) with Some (h', _, c) => Some (h', c) | None => None end | None => Some (put b y h2, []) end) = Some (put b y h', c) /\
    inv h' R /\ left_over h2 h' /\ pbufs h' !! b = Some x2) as (h' & c & -> & I' & L & Hb').
  { destruct I2 as [C2 F2 S2]. destruct (next xb) as [n|] eqn:Enx.
    - destruct (free_behind h2 R b x2 y n l2 C2 F2 (put_eq _ _ _) C2n Hb2) as (h' & k & c & -> & C' & F' & L & Hb'). exists h', c. split; [done|]. split; [|done]. split; [done|done|by eapply sized_left_over].
    - cbn [held] in C2. rewrite (right_id_L ∅ (⊎)) in C2. exists h2, []. split; [done|]. split; [done|]. split; [apply left_over_refl|apply put_eq]. }
  rewrite put_eq, put_put. change (set_next None y) with x2. rewrite (put_id h' b _ Hb'). exists h', c. split; [done|]. split; [done|]. right. exists l1, b, xb, l2, rem, h1. do 7 (split; [done|]). split; [|done].
  destruct I' as [C' _ _]. eapply chain_left_over; [done|done|done|]. apply (c_held _ _ C'). pose proof (c_ref _ _ C a x Hx) as [Er ?]. assert (preds h a = 0%nat); [|lia].
  destruct la as [|a' la]; [done|]. destruct Ca as (E & _). injection E as <-. cbn [unshared] in Ua. by to_prop.
Qed.

(** ** Allocating *)

Lemma align_eq x : LWIP_MEM_ALIGN x = 4 * ((x + 3) / 4).
Proof.
  unfold LWIP_MEM_ALIGN. replace (x + MEM_ALIGNMENT - 1) with (x + 3) by (unfold MEM_ALIGNMENT; lia). change (MEM_ALIGNMENT - 1) with (Z.ones 2). rewrite <- Z.ldiff_land, Z.ldiff_ones_r by lia.
  rewrite Z.shiftr_div_pow2, Z.shiftl_mul_pow2 by lia. change (2 ^ 2) with 4. lia.
Qed.

Lemma align_bounds x : x <= LWIP_MEM_ALIGN x < x + 4.
Proof. rewrite align_eq. pose proof (Z.div_mod (x + 3) 4). pose proof (Z.mod_pos_bound (x + 3) 4). lia. Qed.

Lemma align_add a x : a mod 4 = 0 -> LWIP_MEM_ALIGN (a + x) = a + LWIP_MEM_ALIGN x.
Proof. intros H. rewrite !align_eq. pose proof (Z.div_mod a 4 ltac:(lia)) as E. rewrite H in E. replace (a + x + 3) with (x + 3 + a / 4 * 4) by lia. rewrite Z.div_add by lia. lia. Qed.

Lemma payload_offset_ok a off : a mod 4 = 0 -> payload_offset a off = Some (LWIP_MEM_ALIGN off).
Proof.
  intros H. unfold payload_offset. assert ((a + SIZEOF_STRUCT_PBUF) mod 4 = 0) as H4.
  { rewrite Zplus_mod, H. reflexivity. }
  rewrite align_add by done. unfold MEM_ALIGNMENT. rewrite Zplus_mod, H4, align_eq, (Z.mul_comm 4), Z.mod_mul by lia. change ((0 + 0) mod 4 =? 0) with true. cbv iota. f_equal. lia.
Qed.

(** A new pbuf, referenced once, with its block if it has one. *)
Lemma counted_new h R a x bl : counted h R -> h.(pbufs) !! a = None -> x.(next) = None -> x.(ref) = 1 -> (forall b, b <> a -> bl !! b = h.(blocks) !! b) ->
  mem_ok (MkHeap h.(pbufs) bl) a x -> counted (put a x (MkHeap h.(pbufs) bl)) (R ⊎ {[+ a +]}).
Proof.
  intros C Ha En Er Hbl Hm. change {[+ a +]} with (held (Some a)). assert (multiplicity a R = 0%nat) as Hma. { destruct (multiplicity a R) eqn:E; [done|]. destruct (c_held _ _ C a) as [y Hy]; [lia|congruence]. }
  assert (forall b, preds (put a x (MkHeap h.(pbufs) bl)) b = preds h b) as Hp.
  { intros b. unfold preds. rewrite nexts_put. unfold nexts. cbn [pbufs]. rewrite count_new, is_next_ne by (rewrite ?En; done || by rewrite lookup_fmap, Ha). done. }
  assert (preds h a = 0%nat) as Hpa. { destruct (preds h a) eqn:E; [done|]. destruct (preds_pos h a) as (b & y & Hy & Ey); [lia|]. destruct (next_in _ _ _ _ _ C Hy Ey) as [[z Hz] _]. congruence. }
  split.
  - intros b y. rewrite Hp, multiplicity_add. destruct (decide (a = b)) as [<-|Hne]; [rewrite put_eq, Hma, Hpa, is_next_eq; intros [= <-]; lia|].
    rewrite put_ne, is_next_ne by (done || congruence). rewrite Nat.add_0_r. apply (c_ref _ _ C).
  - intros b. rewrite multiplicity_add. destruct (decide (a = b)) as [<-|Hne]; [rewrite put_eq; by eexists|]. rewrite put_ne, is_next_ne by (done || congruence). rewrite Nat.add_0_r. apply (c_held _ _ C).
  - intros b [y Hy]. destruct (decide (a = b)) as [<-|Hne]; [exists [a]; split; [done|]; exists x; split; [apply put_eq|done]|]. rewrite put_ne in Hy by done. destruct (c_chain _ _ C b) as [l Cl]; [by eexists|].
    exists l. apply chain_put_notin; [by eapply (chain_nexts h)|]. intros Hin. destruct (chain_in _ _ _ _ Cl Hin) as [z Hz]. congruence.
  - intros b y. destruct (decide (a = b)) as [<-|Hne]; [rewrite put_eq; by intros [= <-]|]. rewrite put_ne by done. intros Hy. destruct (c_mem _ _ C b y Hy) as [Hl Ho]. split; [done|]. cbn [put blocks]. by rewrite Hbl.
Qed.

(** The answers of [malloc]: aligned, different memory that is not in use. *)
Definition malloc_ok (h : heap) (ms : list answer) : bool :=
  bool_decide (NoDup (map at_ ms)) &&
  forallb (fun m => (m.(at_) mod 4 =? 0) && bool_decide (h.(pbufs) !! m.(at_) = None) && bool_decide (h.(blocks) !! m.(at_) = None)) ms.

(** The number of pbufs a pool chain needs behind the first one. *)
Definition pool_pbufs (rem_len : Z) : nat := Z.to_nat ((rem_len + 1515) / 1516).

(** What is there stays, and what is new is fresh. *)
Record extends (h h' : heap) : Prop := {
  e_pbuf a x : h.(pbufs) !! a = Some x -> h'.(pbufs) !! a = Some x;
  e_block b m : h.(blocks) !! b = Some m -> h'.(blocks) !! b = Some m }.

Lemma extends_trans h1 h2 h3 : extends h1 h2 -> extends h2 h3 -> extends h1 h3.
Proof. intros [P1 B1] [P2 B2]. split; eauto. Qed.

(** A pool chain that is being built: [d] bytes are missing behind [r].
    Its head is still [x0] apart from [next]; the flags of it are not set yet. *)
Record building (h0 h : heap) (R : gmultiset addr) (p r : addr) (d : Z) (l : list addr) (x0 : pbuf) : Prop := {
  b_counted : counted h (R ⊎ {[+ p +]});
  b_flags a x : h.(pbufs) !! a = Some x -> a <> p -> (Z.land x.(flags) PBUF_FLAG_IS_CUSTOM =? 0) = negb x.(custom);
  b_sized : sized_but h r d;
  b_chain : chain h (Some p) (l ++ [r]);
  b_new a x : h.(pbufs) !! a = Some x -> is_Some (h0.(pbufs) !! a) \/ a ∈ l ++ [r];
  b_pool a : a ∈ l ++ [r] -> (h0.(pbufs) !! a = None /\ h0.(blocks) !! a = None) /\ exists x o, h.(pbufs) !! a = Some x /\ x.(type) = PBUF_POOL /\ x.(custom) = false /\ x.(payload) = Some (a, o) /\ o + x.(len) <= 1516 /\ (a = p \/ 0 < x.(len));
  b_head x : h.(pbufs) !! p = Some x -> x = set_next x.(next) x0;
  b_extends : extends h0 h }.

Lemma building_step h0 h R p r d l m x0 : building h0 h R p r d l x0 -> 0 < d < 65535 -> malloc_ok h [m] = true -> h0.(pbufs) !! m.(at_) = None -> h0.(blocks) !! m.(at_) = None ->
  exists y, h.(pbufs) !! r = Some y /\
  building h0 (put m.(at_) (MkPbuf None (Some (m.(at_), 0)) (u16 d) (Z.min (u16 d) PBUF_POOL_BUFSIZE_ALIGNED) PBUF_POOL 0 1 false) (fresh_block m PBUF_POOL_BUFSIZE_ALIGNED (put r (set_next (Some m.(at_)) y) h)))
    R p m.(at_) (d - Z.min (u16 d) PBUF_POOL_BUFSIZE_ALIGNED) (l ++ [r]) x0.
Proof.
  intros [C F S Cl Hnew Hpool Hh Ex] Hd Hm Hq0 Hq1. unfold malloc_ok in Hm. cbn in Hm. to_prop. set (q := at_ m) in *. repeat match goal with H : bool_decide _ = true |- _ => apply bool_decide_eq_true in H end.
  destruct (Hpool r) as (_ & y & o & Hy & Hty & Hcu & Hpay & Hbd); [set_solver|]. exists y. split; [done|]. rewrite u16_small by lia. change PBUF_POOL_BUFSIZE_ALIGNED with 1516. set (n := Z.min d 1516).
  assert (next y = None) as Eny. { destruct (chain_end _ _ _ _ Cl) as [(y' & Hy' & E) _]. congruence. }
  assert (q <> r) as Hqr by (intros E; rewrite E in *; congruence).
  set (xq := MkPbuf None (Some (q, 0)) d n PBUF_POOL 0 1 false). set (bl := <[q := resize (Z.to_nat 1516) 0 (old_data m)]> (blocks h)).
  assert (counted (put q xq (MkHeap (pbufs h) bl)) (R ⊎ {[+ p +]} ⊎ {[+ q +]})) as C1.
  { apply counted_new; [done|done|done|done|intros b Hb; by apply lookup_insert_ne|]. split; [cbn; lia|]. intros _. split; [done|]. eexists 0, _. split; [done|]. split; [apply lookup_insert_eq|]. rewrite length_resize. cbn. lia. }
  set (h2 := put r (set_next (Some q) y) (put q xq (MkHeap (pbufs h) bl))).
  assert (put q xq (fresh_block m 1516 (put r (set_next (Some q) y) h)) = h2) as -> by (unfold h2, put, fresh_block, bl, q; cbn; f_equal; by apply insert_insert_ne).
  assert (chain (put q xq (MkHeap (pbufs h) bl)) (Some q) [q]) as Cq by (split; [done|]; exists xq; split; [apply put_eq|done]).
  assert (forall a, a <> q -> a <> r -> pbufs h2 !! a = pbufs h !! a) as Hne by (intros a ? ?; unfold h2; by rewrite !put_ne).
  assert (pbufs h2 !! q = Some xq) as H2q by (unfold h2; rewrite put_ne by done; apply put_eq). assert (pbufs h2 !! r = Some (set_next (Some q) y)) as H2r by apply put_eq.
  split.
  - eapply counted_link; [done| |done|done|set_solver]. by rewrite put_ne.
  - intros a x Ha Hap. destruct (decide (a = q)) as [->|Haq]; [rewrite H2q in Ha; by injection Ha as <-|]. destruct (decide (a = r)) as [->|Har]; [rewrite H2r in Ha; injection Ha as <-; by apply (F r y)|].
    rewrite Hne in Ha by done. by eapply F.
  - intros a x Ha. destruct (decide (a = q)) as [->|Haq]; [rewrite H2q in Ha; injection Ha as <-; cbn; lia|]. destruct (decide (a = r)) as [->|Har].
    + rewrite H2r in Ha. injection Ha as <-. destruct (S r y Hy) as [Es ?]. rewrite Eny, decide_True in Es by done. cbn [set_next tot_len len next tail_len] in *. rewrite H2q. cbn. lia.
    + rewrite Hne in Ha by done. destruct (S a x Ha) as [Es ?]. rewrite decide_False in Es by done. split; [|done]. rewrite Es. f_equal. f_equal. destruct (next x) as [c|] eqn:En; [|done]. cbn [tail_len].
      destruct (next_in _ _ _ _ _ C Ha En) as [[z Hz] _]. destruct (decide (c = r)) as [->|Hcr]; [by rewrite H2r, Hy|]. rewrite Hne; [done| |done]. intros ->. congruence.
  - rewrite <- app_assoc. cbn [app]. eapply chain_redirect; [apply chain_put_notin; [by eapply (chain_nexts h)|] | |].
    + intros Hin. destruct (chain_in _ _ _ _ Cl Hin) as [z Hz]. congruence.
    + apply chain_nodup in Cl. apply NoDup_app in Cl. destruct Cl as (_ & Hnd & _). intros Hin. apply (Hnd r Hin). left.
    + split; [done|]. by exists xq.
  - intros a x Ha. rewrite elem_of_app. destruct (decide (a = q)) as [->|Haq]; [right; right; set_solver|]. destruct (decide (a = r)) as [->|Har]; [right; left; set_solver|].
    rewrite Hne in Ha by done. destruct (Hnew a x Ha) as [|]; [by left|right; by left].
  - intros a Ha. rewrite elem_of_app in Ha. destruct Ha as [Ha|Ha%list_elem_of_singleton]; [|subst a; split; [done|]; exists xq, 0; cbn; repeat split; [done|lia|right; lia]].
    destruct (Hpool a Ha) as (Hh0 & x & o' & Hx & Ht & Hc & Hp & Hl). split; [done|]. destruct (decide (a = r)) as [->|Har].
    + rewrite Hy in Hx. injection Hx as <-. exists (set_next (Some q) y), o'. destruct Hl. by repeat split.
    + exists x, o'. destruct Hl. rewrite Hne; [by repeat split| |done]. intros ->. congruence.
  - intros x Hxp. assert (p <> q) as Hpq by (intros ->; destruct (c_held _ _ C q) as [z Hz]; [rewrite multiplicity_disj_union, multiplicity_singleton_eq; lia|congruence]).
    destruct (decide (p = r)) as [->|Hpr]; [rewrite H2r in Hxp; injection Hxp as <-; pose proof (Hh y Hy) as ->; done|]. rewrite Hne in Hxp by done. by apply Hh.
  - split.
    + intros a x Ha. rewrite Hne; [by apply (e_pbuf _ _ Ex)| |]; intros ->; [congruence|]. destruct (Hpool r) as ((Hh0 & _) & _); [set_solver|]. congruence.
    + intros b mb Hb. cbn. unfold bl. rewrite lookup_insert_ne; [by apply (e_block _ _ Ex)|]. intros <-. apply (e_block _ _ Ex) in Hb. congruence.
Qed.

Lemma pool_pbufs_step rem : 0 < rem -> pool_pbufs rem = S (pool_pbufs (rem - Z.min rem 1516)).
Proof.
  intros H. unfold pool_pbufs. destruct (Z.le_gt_cases rem 1516) as [Hle|Hgt].
  - rewrite Z.min_l, Z.sub_diag by lia. assert ((rem + 1515) / 1516 = 1) as -> by (symmetry; apply (Z.div_unique _ _ 1 (rem - 1)); lia). done.
  - rewrite Z.min_r by lia. replace (rem + 1515) with (rem - 1516 + 1515 + 1 * 1516) by lia. rewrite Z.div_add by lia. pose proof (Z.div_pos (rem - 1516 + 1515) 1516). lia.
Qed.

Lemma malloc_ok_tail h0 h m ms a x n y : malloc_ok h0 (m :: ms) = true -> h.(pbufs) !! a = Some y -> (forall m', m' ∈ m :: ms -> h.(pbufs) !! m'.(at_) = None /\ h.(blocks) !! m'.(at_) = None) ->
  forall m', m' ∈ ms -> (put m.(at_) x (fresh_block m n (put a (set_next (Some m.(at_)) y) h))).(pbufs) !! m'.(at_) = None /\
    (put m.(at_) x (fresh_block m n (put a (set_next (Some m.(at_)) y) h))).(blocks) !! m'.(at_) = None.
Proof.
  intros Hm Ha Hf m' Hm'. unfold malloc_ok in Hm. to_prop. match goal with H : bool_decide (NoDup _) = true |- _ => apply bool_decide_eq_true in H; cbn in H; apply NoDup_cons in H; destruct H as [Hn _] end.
  assert (at_ m <> at_ m') as Hne by (intros E; apply Hn; rewrite E; by apply list_elem_of_fmap_2). destruct (Hf m') as [Hp Hb]; [by right|]. unfold put, fresh_block. cbn. split.
  - rewrite !lookup_insert_ne; [done| |done]. intros ->. congruence.
  - by rewrite lookup_insert_ne.
Qed.

(** Building succeeds when there is memory for all pbufs; otherwise everything
    is given back. *)
Lemma pool_loop_ok h0 R p ms : forall fuel h r rem l x0, building h0 h R p r rem l x0 -> 0 <= rem < 65535 -> rem <= Z.of_nat fuel -> malloc_ok h0 ms = true ->
  (forall m, m ∈ ms -> h.(pbufs) !! m.(at_) = None /\ h.(blocks) !! m.(at_) = None) ->
  ((pool_pbufs rem <= length ms)%nat -> exists h' r' l', pool_loop fuel h p r rem ms = Some (h', Some p, []) /\ building h0 h' R p r' 0 l' x0) /\
  ((length ms < pool_pbufs rem)%nat -> (forall x, h.(pbufs) !! p = Some x -> Z.land x.(flags) PBUF_FLAG_IS_CUSTOM = 0) ->
    exists h' c, pool_loop fuel h p r rem ms = Some (h', None, c) /\ counted h' R /\ flags_ok h' /\ exists hb rb d lb, building h0 hb R p rb d lb x0 /\ left_over hb h').
Proof.
  induction ms as [|m ms IH]; intros fuel h r rem l x0 B Hr Hf Hm Hfr.
  - assert (forall fuel, 0 < rem -> pool_loop fuel h p r rem [] = match fuel with O => None | S _ => match pbuf_free h (Some p) with Some (h, _, c) => Some (h, None, c) | None => None end end) as Eu.
    { intros f Hp. destruct f; cbn [pool_loop]; by rewrite (proj2 (Z.leb_gt _ _)) by lia. }
    split.
    + intros Hle. destruct (Z.eq_dec rem 0) as [->|Hne]; [exists h, r, l; split; [by destruct fuel|done]|]. rewrite pool_pbufs_step in Hle by lia. cbn in Hle. lia.
    + intros Hlt Hfl. assert (0 < rem) as Hp by (destruct (Z.eq_dec rem 0) as [->|]; [vm_compute in Hlt; lia|lia]). rewrite Eu by done. destruct fuel as [|fuel]; [lia|]. pose proof B as [C F _ Cl _ Hpool _ _].
      assert (flags_ok h) as F'. { intros a x Hx. destruct (decide (a = p)) as [->|Hap]; [|by eapply F]. rewrite (Hfl x Hx). destruct (Hpool p) as (_ & x' & o & Hx' & _ & Hc & _); [destruct l; destruct Cl as ([= <-] & _); left|].
        rewrite Hx in Hx'. injection Hx' as <-. by rewrite Hc. }
      destruct (free_ok h p R C F') as (h' & n & c & -> & C' & F2 & L & _). exists h', c. split; [done|]. split; [done|]. split; [done|]. by exists h, r, rem, l.
  - destruct (Z.eq_dec rem 0) as [->|Hne].
    { split; [intros _; exists h, r, l; split; [by destruct fuel|done]|change (pool_pbufs 0) with 0%nat; lia]. }
    rewrite (pool_pbufs_step rem) by lia. destruct fuel as [|fuel]; [lia|]. cbn [pool_loop]. rewrite (proj2 (Z.leb_gt _ _)) by lia.
    destruct (Hfr m) as [Hmp Hmb]; [by left|]. assert (at_ m mod 4 = 0 /\ pbufs h0 !! at_ m = None /\ blocks h0 !! at_ m = None /\ malloc_ok h0 ms = true) as (Hal & Hm0 & Hm1 & Hms).
    { unfold malloc_ok in *. cbn [map forallb] in Hm. to_prop. repeat match goal with H : bool_decide _ = true |- _ => apply bool_decide_eq_true in H end. do 3 (split; [done|]).
      match goal with H : NoDup _ |- _ => apply NoDup_cons in H; destruct H as [_ H] end. apply andb_true_iff. split; [by apply bool_decide_eq_true_2|done]. }
    destruct (building_step h0 h R p r rem l m x0 B ltac:(lia)) as (y & Hy & B').
    { unfold malloc_ok. cbn. rewrite Hal, !bool_decide_eq_true_2 by (done || apply NoDup_singleton). done. } { done. } { done. }
    rewrite Hy, (proj2 (Z.ltb_lt _ _)), payload_offset_ok by (done || lia). change (LWIP_MEM_ALIGN 0) with 0.
    destruct (b_pool _ _ _ _ _ _ _ _ B p) as (_ & x & o & Hx & _ & _ & Hp & Hl); [pose proof (b_chain _ _ _ _ _ _ _ _ B) as Cl; destruct l; destruct Cl as ([= <-] & _); left|].
    assert (exists x', pbufs (put r (set_next (Some (at_ m)) y) h) !! p = Some x' /\ payload x' = Some (p, o) /\ len x' = len x /\ flags x' = flags x) as (x' & -> & -> & El & Efl).
    { destruct (decide (r = p)) as [->|Hrp]; [rewrite put_eq; rewrite Hx in Hy; injection Hy as <-; by eexists|]. rewrite put_ne by done. by exists x. }
    change PBUF_POOL_BUFSIZE_ALIGNED with 1516 in *. rewrite El, (proj2 (Z.leb_le _ _)) by lia. rewrite u16_small in * by lia.
    destruct (IH fuel _ _ _ _ _ B' ltac:(lia) ltac:(lia) Hms) as [IHs IHf]; [by eapply malloc_ok_tail|]. split.
    + intros Hle. apply IHs. cbn in Hle. lia.
    + intros Hlt Hfl. apply IHf; [cbn in Hlt; lia|]. assert (at_ m <> p) as Hmp' by congruence. rewrite put_ne by done. cbn [fresh_block pbufs]. intros z Hz. assert (flags z = flags x) as ->; [|by apply Hfl].
      destruct (decide (r = p)) as [->|Hrp]; [rewrite put_eq in Hz; injection Hz as <-; rewrite Hx in Hy; by injection Hy as <-|]. rewrite put_ne in Hz by done. congruence.
Qed.

(** Giving back a chain that was being built leaves what was there before. *)
Lemma building_undone h0 hb h' R p r d l x0 : counted h0 R -> building h0 hb R p r d l x0 -> counted h' R -> left_over hb h' -> h'.(pbufs) = h0.(pbufs) /\ extends h0 h'.
Proof.
  intros C0 [Cb _ _ _ Hnew Hpool _ Ex] C' L.
  assert (forall a k, chain h0 (Some a) k -> chain hb (Some a) k) as Hc.
  { intros a k Ck. eapply chain_ext; [|done]. intros b Hb. destruct (chain_in _ _ _ _ Ck Hb) as [x Hx]. by rewrite (nexts_lookup _ _ _ Hx), (nexts_lookup _ _ _ (e_pbuf _ _ Ex b x Hx)). }
  assert (forall a, is_Some (pbufs h' !! a) <-> is_Some (pbufs h0 !! a)) as Hdom.
  { intros a. split; intros Ha.
    - destruct (c_chain _ _ C' a Ha) as [k Ck]. destruct (reachable h' R C' (S (size (pbufs h'))) a k ltac:(lia) Ck) as (r0 & k0 & Hr0 & Ck0 & Hin).
      destruct (c_chain _ _ C0 r0) as [k1 Ck1]; [by apply (c_held _ _ C0)|]. pose proof (chain_left_over hb h' R k1 C' L r0 (Hc _ _ Ck1) (c_held _ _ C' r0 Hr0)) as Ck1'.
      rewrite (chain_unique _ _ _ _ Ck0 Ck1') in Hin. by apply (chain_in _ _ _ _ Ck1) in Hin.
    - destruct (c_chain _ _ C0 a Ha) as [k Ck]. destruct (reachable h0 R C0 (S (size (pbufs h0))) a k ltac:(lia) Ck) as (r0 & k0 & Hr0 & Ck0 & Hin).
      pose proof (chain_left_over hb h' R k0 C' L r0 (Hc _ _ Ck0) (c_held _ _ C' r0 Hr0)) as Ck1. by apply (chain_in _ _ _ _ Ck1) in Hin. }
  assert (forall a x', pbufs h' !! a = Some x' -> exists x, pbufs h0 !! a = Some x /\ x' = set_ref (ref x') x) as Heq.
  { intros a x' Ha. destruct (proj1 (Hdom a)) as [x Hx]; [by eexists|]. destruct (lo_pbuf _ _ L a x' Ha) as (x1 & Hx1 & E1). rewrite (e_pbuf _ _ Ex a x Hx) in Hx1. injection Hx1 as <-. by exists x. }
  assert (nexts h' = nexts h0) as En.
  { apply map_eq. intros a. unfold nexts. rewrite !lookup_fmap. destruct (pbufs h' !! a) as [x'|] eqn:Ha; [destruct (Heq a x' Ha) as (x & -> & ->); done|].
    destruct (pbufs h0 !! a) as [x|] eqn:Hx; [|done]. destruct (proj2 (Hdom a)) as [? ?]; [by eexists|congruence]. }
  assert (pbufs h' = pbufs h0) as Epb.
  { apply map_eq. intros a. destruct (pbufs h' !! a) as [x'|] eqn:Ha.
    - destruct (Heq a x' Ha) as (x & Hx & Ex'). rewrite Hx, Ex'. f_equal. destruct (c_ref _ _ C' a x' Ha) as [Er' _], (c_ref _ _ C0 a x Hx) as [Er _]. rewrite (preds_nexts _ _ _ En) in Er'.
      rewrite Er', <- Er. by destruct x.
    - destruct (pbufs h0 !! a) as [x|] eqn:Hx; [|done]. destruct (proj2 (Hdom a)) as [? ?]; [by eexists|congruence]. }
  split; [done|]. split; [by rewrite Epb|].
  intros b m Hb. pose proof (e_block _ _ Ex b m Hb) as Hbb. destruct (lo_block _ _ L b) as [->|[[x Hx] Hn]]; [done|]. exfalso. destruct (Hnew b x Hx) as [Hs|Hin].
  - destruct (proj2 (Hdom b) Hs) as [? ?]. congruence.
  - destruct (Hpool b Hin) as ((_ & Hnone) & _). congruence.
Qed.

(** The first allocation of a pool chain. *)
Definition pool_room (layer : pbuf_layer) : Z := PBUF_POOL_BUFSIZE_ALIGNED - LWIP_MEM_ALIGN (layer_offset layer).

(** What a call needs: a 16-bit length and honest answers; and when a pool chain
    cannot be completed, that the memory of its first pbuf did not look like a
    custom pbuf, because its flags are read before they are set. *)
Definition alloc_legal (h : heap) (layer : pbuf_layer) (length : Z) (type : pbuf_type) (ms : list answer) : bool :=
  (0 <=? length) && (length <? 65536) && malloc_ok h ms &&
  match type, ms with
  | PBUF_POOL, m :: ms => (pool_pbufs (length - Z.min length (pool_room layer)) <=? List.length ms)%nat || (Z.land m.(old_flags) PBUF_FLAG_IS_CUSTOM =? 0)
  | _, _ => true
  end.

(** The first pbuf of a new chain, but for [next]. *)
Definition new_head (layer : pbuf_layer) (a n : Z) (ty : pbuf_type) : pbuf :=
  MkPbuf None (match ty with PBUF_RAM | PBUF_POOL => Some (a, LWIP_MEM_ALIGN (layer_offset layer)) | _ => None end) n (match ty with PBUF_POOL => Z.min n (pool_room layer) | _ => n end) ty 0 1 false.

(** A new chain: [n] bytes of payload, nobody else's pbufs. *)
Record allocated (h h' : heap) (layer : pbuf_layer) (a : addr) (n : Z) (ty : pbuf_type) (l : list addr) : Prop := {
  al_extends : extends h h';
  al_chain : chain h' (Some a) l;
  al_single : ty <> PBUF_POOL -> l = [a];
  al_head x : h'.(pbufs) !! a = Some x -> x = set_next x.(next) (new_head layer a n ty);
  al_all b x : h'.(pbufs) !! b = Some x -> is_Some (h.(pbufs) !! b) \/ b ∈ l;
  al_new b : b ∈ l -> h.(pbufs) !! b = None /\ h.(blocks) !! b = None /\ exists x, h'.(pbufs) !! b = Some x /\ x.(type) = ty /\ (b = a \/ 0 < x.(len)) }.

Lemma room_bounds layer : 1440 <= pool_room layer <= 1516 /\ LWIP_MEM_ALIGN (layer_offset layer) + pool_room layer = 1516.
Proof. by destruct layer. Qed.

Lemma finish_alloc_ok h R a x : counted h (R ⊎ {[+ a +]}) -> sized h -> h.(pbufs) !! a = Some x -> x.(ref) = 1 -> x.(custom) = false ->
  (forall b y, h.(pbufs) !! b = Some y -> b <> a -> (Z.land y.(flags) PBUF_FLAG_IS_CUSTOM =? 0) = negb y.(custom)) ->
  finish_alloc h a = Some (put a (set_flags 0 x) h) /\ inv (put a (set_flags 0 x) h) (R ⊎ {[+ a +]}).
Proof.
  intros C S Hx Hr Hc F. unfold finish_alloc. rewrite Hx. replace (set_ref 1 x) with x by (rewrite <- Hr; by destruct x). split; [done|]. split.
  - pose proof (c_ref _ _ C a x Hx) as [Er ?]. eapply counted_update; [done|done|done|done|done|done|]. apply (c_mem _ _ C a x Hx).
  - intros b y. destruct (decide (a = b)) as [<-|Hne]; [rewrite put_eq; intros [= <-]; cbn; by rewrite Hc|]. rewrite put_ne by done. intros Hy. by eapply F.
  - destruct (S a x Hx). eapply sized_put; [done|done|by left|by apply (next_not_self h _ a x C)|done|done].
Qed.

Lemma malloc_ok_head h m ms : malloc_ok h (m :: ms) = true -> m.(at_) mod 4 = 0 /\ h.(pbufs) !! m.(at_) = None /\ h.(blocks) !! m.(at_) = None /\ malloc_ok h ms = true /\
  forall m', m' ∈ ms -> m'.(at_) <> m.(at_) /\ h.(pbufs) !! m'.(at_) = None /\ h.(blocks) !! m'.(at_) = None.
Proof.
  intros Hm. unfold malloc_ok in *. cbn [map forallb] in Hm. to_prop. repeat match goal with H : bool_decide _ = true |- _ => apply bool_decide_eq_true in H end. do 3 (split; [done|]).
  match goal with H : NoDup _ |- _ => apply NoDup_cons in H; destruct H as [Hn Hnd] end. match goal with H : forallb _ _ = true |- _ => rename H into Hall end.
  split; [apply andb_true_iff; split; [by apply bool_decide_eq_true_2|done]|]. intros m' Hm'. split; [intros E; apply Hn; rewrite <- E; by apply list_elem_of_fmap_2|].
  rewrite forallb_forall in Hall. pose proof (Hall m' (proj1 (list_elem_of_In _ _) Hm')) as H'. to_prop. by repeat match goal with H : bool_decide _ = true |- _ => apply bool_decide_eq_true in H end.
Qed.

(** A single new pbuf. *)
Lemma single_ok h R layer a g n ty : inv h R -> h.(pbufs) !! a = None -> h.(blocks) !! a = None -> g.(pbufs) = h.(pbufs) -> (forall b, b <> a -> g.(blocks) !! b = h.(blocks) !! b) ->
  ty <> PBUF_POOL -> n < 65536 -> mem_ok g a (new_head layer a n ty) ->
  inv (put a (new_head layer a n ty) g) (R ⊎ {[+ a +]}) /\ allocated h (put a (new_head layer a n ty) g) layer a n ty [a].
Proof.
  intros [C F S] Ha Hba Eg Hbl Hty Hl Hm. assert (len (new_head layer a n ty) = n) as El by by destruct ty. set (x := new_head layer a n ty) in *. assert (next x = None /\ ref x = 1 /\ flags x = 0 /\ custom x = false /\ tot_len x = n /\ type x = ty) as (En & Er & Ef & Ec & Et & Ety) by done.
  destruct g as [gp bl]. cbn in Eg. subst gp. cbn [blocks] in Hbl. split; [split|split].
  - by apply counted_new.
  - intros b y. destruct (decide (a = b)) as [<-|Hne]; [rewrite put_eq; intros [= <-]; by rewrite Ef, Ec|]. rewrite put_ne by done. apply F.
  - intros b y. destruct (decide (a = b)) as [<-|Hne]; [rewrite put_eq; intros [= <-]; rewrite Et, El, En; cbn [tail_len]; lia|]. rewrite put_ne by done. cbn [pbufs]. intros Hy. destruct (S b y Hy) as [Es ?]. split; [|done]. rewrite Es. f_equal.
    destruct (next y) as [c|] eqn:Ey; [|done]. cbn [tail_len]. destruct (next_in _ _ _ _ _ C Hy Ey) as [[z Hz] _]. rewrite put_ne; [done|]. intros ->. congruence.
  - split; [intros b y Hy; rewrite put_ne; [done|]; intros ->; congruence|]. intros b m Hb. cbn. rewrite Hbl; [done|]. intros ->. congruence.
  - split; [done|]. exists x. split; [apply put_eq|done].
  - done.
  - rewrite put_eq. by intros y [= <-].
  - intros b y. destruct (decide (b = a)) as [->|Hne]; [right; left|]. rewrite put_ne by done. cbn [pbufs]. intros Hy. left. by exists y.
  - intros b ->%list_elem_of_singleton. do 2 (split; [done|]). exists x. split; [apply put_eq|]. split; [done|by left].
Qed.

Lemma building_first h R m layer length : inv h R -> malloc_ok h [m] = true -> 0 <= length < 65536 -> let n := Z.min length (pool_room layer) in
  building h (put m.(at_) (MkPbuf None (Some (m.(at_), LWIP_MEM_ALIGN (layer_offset layer))) length n PBUF_POOL m.(old_flags) 1 false) (fresh_block m PBUF_POOL_BUFSIZE_ALIGNED h)) R m.(at_) m.(at_) (length - n) [] (set_flags m.(old_flags) (new_head layer m.(at_) length PBUF_POOL)).
Proof.
  intros [C F S] (Hal & Ha & Hba & _)%malloc_ok_head Hl n. set (a := at_ m) in *. change PBUF_POOL_BUFSIZE_ALIGNED with 1516. set (x := MkPbuf _ _ _ _ _ _ _ _). destruct (room_bounds layer) as [Hr1 Hr2].
  assert (forall b y, pbufs (put a x (fresh_block m 1516 h)) !! b = Some y -> b <> a -> pbufs h !! b = Some y) as Hold by (intros b y Hy Hne; by rewrite put_ne in Hy).
  pose proof (align_bounds (layer_offset layer)). assert (0 <= layer_offset layer) by by destruct layer. split.
  - apply counted_new; [done|done|done|done|intros b Hb; by apply lookup_insert_ne|]. split; [cbn; lia|]. intros _. split; [done|]. eexists _, _. split; [done|]. split; [apply lookup_insert_eq|]. rewrite length_resize. cbn. lia.
  - intros b y Hy Hne. apply (F b y). by apply Hold.
  - intros b y Hy. destruct (decide (b = a)) as [->|Hne]; [rewrite put_eq in Hy; injection Hy as <-; cbn; lia|]. apply Hold in Hy; [|done]. destruct (S b y Hy) as [Es ?]. split; [|done]. rewrite Es, Z.add_0_r. f_equal.
    destruct (next y) as [c|] eqn:Ey; [|done]. cbn [tail_len]. destruct (next_in _ _ _ _ _ C Hy Ey) as [[z Hz] _]. rewrite put_ne; [done|]. intros <-. congruence.
  - split; [done|]. exists x. split; [apply put_eq|done].
  - intros b y Hy. destruct (decide (b = a)) as [->|Hne]; [right; set_solver|]. left. apply Hold in Hy; [by eexists|done].
  - intros b Hb. assert (b = a) as -> by set_solver. split; [done|]. exists x, (LWIP_MEM_ALIGN (layer_offset layer)). rewrite put_eq. cbn. repeat split; [lia|by left].
  - rewrite put_eq. by intros y [= <-].
  - split; [intros b y Hy; rewrite put_ne; [done|]; intros <-; congruence|]. intros b mb Hb. cbn. rewrite lookup_insert_ne; [done|]. intros E. unfold a in *. congruence.
Qed.

(** How often [malloc] has to succeed. *)
Definition answers_needed (layer : pbuf_layer) (length : Z) (type : pbuf_type) : nat :=
  match type with PBUF_POOL => S (pool_pbufs (length - Z.min length (pool_room layer))) | _ => 1 end.

(** [pbuf_alloc] gives a new chain of the length asked for, or fails for want
    of memory and leaves the pbufs as they were. *)
Lemma alloc_ok h R layer length type ms : inv h R -> alloc_legal h layer length type ms = true ->
  exists h' r c, pbuf_alloc h layer length type ms = Some (h', r, c) /\
    match r with
    | Some a => inv h' (R ⊎ {[+ a +]}) /\ exists l, allocated h h' layer a length type l
    | None => inv h' R /\ h'.(pbufs) = h.(pbufs) /\ extends h h' /\ (List.length ms < answers_needed layer length type)%nat
    end.
Proof.
  intros I Hl. unfold alloc_legal in Hl. apply andb_true_iff in Hl. destruct Hl as [Hl Hfl]. to_prop. unfold pbuf_alloc. destruct ms as [|m ms]; [exists h, None, []; split; [done|]; split; [done|]; split; [done|]; split; [by split|]; destruct type; cbn; lia|].
  match goal with H : malloc_ok _ _ = true |- _ => rename H into Hm end. destruct (malloc_ok_head _ _ _ Hm) as (Hal & Ha & Hba & Hms & Hmf). rewrite payload_offset_ok by done. set (a := at_ m) in *.
  destruct (room_bounds layer) as [Hr1 Hr2]. assert (forall x g, finish_alloc (put a x g) a = Some (put a (set_flags 0 (set_ref 1 x)) g)) as Hfin.
  { intros x g. unfold finish_alloc. by rewrite put_eq, put_put. }
  pose proof (align_bounds (layer_offset layer)). assert (0 <= layer_offset layer) by by destruct layer.
  assert (forall ty, ty = PBUF_ROM \/ ty = PBUF_REF -> let h' := put a (set_flags 0 (set_ref 1 (MkPbuf None None length length ty (old_flags m) 0 false))) h in inv h' (R ⊎ {[+ a +]}) /\ allocated h h' layer a length ty [a]) as Hrom.
  { intros ty Hty. replace (set_flags 0 _) with (new_head layer a length ty) by by destruct Hty as [-> | ->]. apply single_ok; try done; [by destruct Hty as [-> | ->]|]. split; [by destruct Hty as [-> | ->]|]. by destruct Hty as [-> | ->]. }
  destruct type.
  - rewrite Hfin. eexists _, _, _. split; [done|]. cbv beta iota. match goal with |- inv ?g _ /\ _ => cut (inv g (R ⊎ {[+ a +]}) /\ allocated h g layer a length PBUF_RAM [a]); [intros [? ?]; split; [done|]; by exists [a]|] end.
    match goal with |- inv (put a ?x _) _ /\ _ => change x with (new_head layer a length PBUF_RAM) end. apply single_ok; try done; [intros b Hb; by apply lookup_insert_ne|]. split; [cbn; lia|]. intros _. split; [done|]. eexists _, _. split; [done|]. split; [apply lookup_insert_eq|].
    rewrite align_add by done. rewrite length_resize. pose proof (align_bounds length). cbn [new_head len]. lia.
  - rewrite Hfin. destruct (Hrom PBUF_ROM ltac:(by left)) as [I' A]. eexists _, _, _. split; [done|]. split; [done|]. by exists [a].
  - rewrite Hfin. destruct (Hrom PBUF_REF ltac:(by right)) as [I' A]. eexists _, _, _. split; [done|]. split; [done|]. by exists [a].
  - fold (pool_room layer). rewrite u16_small by lia. change PBUF_POOL_BUFSIZE_ALIGNED with 1516 in *. rewrite (proj2 (Z.leb_le _ _)), (proj2 (Z.ltb_lt _ _)) by lia.
    assert (malloc_ok h [m] = true) as Hm1. { unfold malloc_ok. cbn. fold a. rewrite Hal, !bool_decide_eq_true_2 by (done || apply NoDup_singleton). done. }
    pose proof (building_first h R m layer length I Hm1 ltac:(lia)) as B. cbv zeta in B. fold a in B. change PBUF_POOL_BUFSIZE_ALIGNED with 1516 in B. set (n := Z.min length (pool_room layer)) in *. set (h1 := put a _ _) in *.
    destruct (pool_loop_ok h R a ms (Z.to_nat length) h1 a (length - n) [] _ B ltac:(lia) ltac:(lia) Hms) as [Hs Hf].
    { intros m' Hm'. destruct (Hmf m' Hm') as (Hne & Hp & Hb). unfold h1, put, fresh_block. cbn. fold a. by rewrite !lookup_insert_ne by done. }
    destruct (Nat.leb_spec (pool_pbufs (length - n)) (List.length ms)) as [Hle|Hgt].
    + destruct (Hs Hle) as (h2 & r & l & -> & B2). pose proof B2 as [C2 F2 S2 Cl2 _ Hp2 Hh2 Ex2]. destruct (Hp2 a) as (_ & x & o & Hx & Hty & Hc & _); [destruct l; destruct Cl2 as ([= <-] & _); left|]. pose proof (Hh2 x Hx) as Eh. assert (ref x = 1) as Hr by by rewrite Eh.
      assert (sized h2) as S2'. { intros b y Hy. destruct (S2 b y Hy) as [Es ?]. split; [|done]. rewrite Es. case_decide; lia. }
      destruct (finish_alloc_ok h2 R a x C2 S2' Hx Hr Hc F2) as [-> I2]. eexists _, _, _. split; [done|]. split; [done|]. exists (l ++ [r]). split.
      * split; [intros b y Hy; rewrite put_ne; [by apply (e_pbuf _ _ Ex2)|]; intros <-; congruence|apply (e_block _ _ Ex2)].
      * eapply chain_nexts; [|done]. by apply (nexts_same h2 a x).
      * done.
      * rewrite put_eq. intros y [= <-]. rewrite Eh. done.
      * intros b y. destruct (decide (a = b)) as [<-|Hne]; [intros _; apply (b_new _ _ _ _ _ _ _ _ B2 a x Hx)|]. rewrite put_ne by done. apply (b_new _ _ _ _ _ _ _ _ B2).
      * intros b Hb. destruct (Hp2 b Hb) as ((Hb0 & Hb1) & y & o' & Hy & Hty' & _ & _ & _ & Hpos). do 2 (split; [done|]). destruct (decide (a = b)) as [<-|Hne]; [eexists; split; [apply put_eq|]; split; [done|by left]|]. exists y. by rewrite put_ne.
    + apply orb_true_iff in Hfl. destruct Hfl as [Hfl|Hfl]; to_prop; [lia|]. destruct (Hf Hgt) as (h2 & c & -> & C2 & F2 & hb & rb & d & lb & B2 & L2); [unfold h1; rewrite put_eq; by intros y [= <-]|].
      destruct (building_undone h hb h2 R a rb d lb _ (i_counted _ _ I) B2 C2 L2) as [Ep Ex]. exists h2, None, c. split; [done|]. split; [|split; [done|]; split; [done|]; unfold answers_needed; fold n; cbn [List.length]; lia]. split; [done|done|].
      intros b y Hy. rewrite Ep in Hy. destruct (i_sized _ _ I b y Hy) as [Es ?]. split; [|done]. rewrite Es. f_equal. unfold tail_len. by rewrite Ep.
Qed.

(** A new chain belongs to whoever asked for it. *)
Lemma alloc_unshared h R h' layer a n ty l : inv h R -> allocated h h' layer a n ty l -> unshared h' l = true.
Proof.
  intros I [Ex C _ _ Hall Hnew]. apply (unshared_closed h' (Some a)); [done|]. intros d x b Hx En Hb. destruct (Hall d x Hx) as [[y Hy]|]; [|done]. rewrite (e_pbuf _ _ Ex d y Hy) in Hx. injection Hx as <-.
  destruct (next_in _ _ _ _ _ (i_counted _ _ I) Hy En) as [[z Hz] _]. destruct (Hnew b Hb) as (? & _). congruence.
Qed.

End PbufChain.
