(* ===== verification/PbufData.v ===== *)
(** * The data in packet buffers

    The operations of [lwip/src/core/pbuf.c] that read and write the payload of
    chains.  [contents] is the payload of a chain as one sequence of bytes;
    each operation is shown to act on it, however the chain is cut into
    pbufs. *)

From stdpp Require Import gmultiset.
From S2P Require Import Prelude LinkedList Pbuf PbufChain.
Open Scope Z_scope.
Import Pbuf PbufChain.

Module PbufData.

Definition ERR_OK : Z := 0.
Definition ERR_ARG : Z := -14.

(** ** Copying *)

Definition is_null (p : option addr) : bool := match p with Some _ => false | None => true end.

(** [pbuf_copy() does not allow packet queues]. *)
Definition not_queue (h : heap) (p : option addr) : bool :=
  match p with
  | Some a => match h.(pbufs) !! a with Some x => negb (x.(len) =? x.(tot_len)) || is_null x.(next) | None => false end
  | None => true
  end.

Fixpoint copy_loop (fuel : nat) (h : heap) (p_to : option addr) (p_from : addr) (offset_to offset_from : Z) : option (heap * Z) :=
  match fuel with
  | O => None
  | S fuel =>
      LET t <- p_to in
      LET x <- h.(pbufs) !! t in
      LET y <- h.(pbufs) !! p_from in
      let n := u16 (if y.(len) - offset_from <=? x.(len) - offset_to then y.(len) - offset_from else x.(len) - offset_to) in
      LET d <- read h y offset_from n in
      LET h <- write h x offset_to d in
      let offset_to := u16 (offset_to + n) in
      let offset_from := u16 (offset_from + n) in
      ASSERT offset_to <=? x.(len) in
      ASSERT offset_from <=? y.(len) in
      let '(p_from, offset_from) := if y.(len) <=? offset_from then (y.(next), 0) else (Some p_from, offset_from) in
      let '(p_to, offset_to, ok) :=
        if offset_to =? x.(len) then (x.(next), 0, negb (is_null x.(next)) || is_null p_from) else (Some t, offset_to, true) in
      ASSERT ok in
      ASSERT not_queue h p_from in
      ASSERT not_queue h p_to in
      match p_from with
      | Some f => copy_loop fuel h p_to f offset_to offset_from
      | None => Some (h, ERR_OK)
      end
  end.

Definition pbuf_copy (h : heap) (p_to p_from : option addr) : option (heap * Z) :=
  LET t <- p_to in LET f <- p_from in
  LET x <- h.(pbufs) !! t in LET y <- h.(pbufs) !! f in
  ASSERT y.(tot_len) <=? x.(tot_len) in
  copy_loop (2 * fuel h) h p_to f 0 0.

(** [dataptr] is the memory that is copied to. *)
Fixpoint partial_loop (fuel : nat) (h : heap) (p : option addr) (dataptr : bytes) (len offset left copied_total : Z) : option (bytes * Z) :=
  if len =? 0 then Some (dataptr, copied_total)
  else
    match p with
    | None => Some (dataptr, copied_total)
    | Some a =>
        match fuel with
        | O => None
        | S fuel =>
            LET x <- h.(pbufs) !! a in
            if negb (offset =? 0) && (x.(Pbuf.len) <=? offset) then partial_loop fuel h x.(next) dataptr len (u16 (offset - x.(Pbuf.len))) left copied_total
            else
              let n := u16 (x.(Pbuf.len) - offset) in
              let n := if len <? n then len else n in
              LET d <- read h x offset n in
              LET dataptr <- store (Z.to_nat left) d dataptr in
              partial_loop fuel h x.(next) dataptr (u16 (len - n)) 0 (u16 (left + n)) (u16 (copied_total + n))
        end
    end.

Definition pbuf_copy_partial (h : heap) (buf : option addr) (dataptr : option bytes) (len offset : Z) : option (bytes * Z) :=
  LET a <- buf in LET d <- dataptr in
  partial_loop (fuel h) h (Some a) d len offset 0 0.

Fixpoint take_loop (fuel : nat) (h : heap) (p : option addr) (dataptr : bytes) (total_copy_len copied_total : Z) : option (heap * Z) :=
  if total_copy_len =? 0 then Some (h, copied_total)
  else
    LET a <- p in
    match fuel with
    | O => None
    | S fuel =>
        LET x <- h.(pbufs) !! a in
        let n := if x.(len) <? total_copy_len then x.(len) else total_copy_len in
        ASSERT copied_total + n <=? Z.of_nat (length dataptr) in
        LET h <- write h x 0 (take (Z.to_nat n) (drop (Z.to_nat copied_total) dataptr)) in
        take_loop fuel h x.(next) dataptr (u16 (total_copy_len - n)) (u16 (copied_total + n))
    end.

Definition pbuf_take (h : heap) (buf : option addr) (dataptr : option bytes) (len : Z) : option (heap * Z) :=
  LET a <- buf in LET d <- dataptr in
  LET x <- h.(pbufs) !! a in
  if x.(tot_len) <? len then Some (h, ERR_ARG)
  else
    LET (h, copied_total) <- take_loop (fuel h) h buf d len 0 in
    ASSERT copied_total =? len in
    Some (h, ERR_OK).

Definition pbuf_coalesce (h : heap) (p : addr) (layer : pbuf_layer) (ms : list answer) : option (heap * addr * list addr) :=
  LET x <- h.(pbufs) !! p in
  match x.(next) with
  | None => Some (h, p, [])
  | Some _ =>
      LET (h, q, c) <- pbuf_alloc h layer x.(tot_len) PBUF_RAM ms in
      match q with
      | None => Some (h, p, c)
      | Some q =>
          LET (h, err) <- pbuf_copy h (Some q) (Some p) in
          ASSERT err =? ERR_OK in
          LET (h, _, c) <- pbuf_free h (Some p) in
          Some (h, q, c)
      end
  end.

(** ** Searching *)

(** [get the correct pbuf]. *)
Fixpoint seek (fuel : nat) (h : heap) (q : option addr) (start : Z) : option (option addr * Z) :=
  match q with
  | None => Some (None, start)
  | Some a =>
      match fuel with
      | O => None
      | S fuel => LET x <- h.(pbufs) !! a in if x.(len) <=? start then seek fuel h x.(next) (u16 (start - x.(len))) else Some (q, start)
      end
  end.

Definition pbuf_get_at (h : heap) (p : option addr) (offset : Z) : option Z :=
  LET (q, copy_from) <- seek (fuel h) h p offset in
  match q with
  | Some a => LET x <- h.(pbufs) !! a in LET d <- read h x copy_from 1 in head d
  | None => Some 0
  end.

(** [k] bytes are still to be compared. *)
Fixpoint compare_loop (k : nat) (h : heap) (q : addr) (start i : Z) (s2 : bytes) : option Z :=
  match k with
  | O => Some 0
  | S k =>
      LET a <- pbuf_get_at h (Some q) (u16 (start + i)) in
      LET b <- s2 !! Z.to_nat i in
      if negb (a =? b) then Some (u16 (i + 1)) else compare_loop k h q start (i + 1) s2
  end.

Definition pbuf_memcmp (h : heap) (p : option addr) (offset : Z) (s2 : bytes) (n : Z) : option Z :=
  LET (q, start) <- seek (fuel h) h p offset in
  match q with
  | Some a => compare_loop (Z.to_nat n) h a start 0 s2
  | None => Some 0xffff
  end.

Fixpoint find_loop (fuel : nat) (h : heap) (p : addr) (mem : bytes) (mem_len max i : Z) : option Z :=
  if i <=? max then
    match fuel with
    | O => None
    | S fuel =>
        LET plus <- pbuf_memcmp h (Some p) i mem mem_len in
        if plus =? 0 then Some i else find_loop fuel h p mem mem_len max (u16 (i + plus))
    end
  else Some 0xFFFF.

Definition pbuf_memfind (h : heap) (p : addr) (mem : bytes) (mem_len start_offset : Z) : option Z :=
  LET x <- h.(pbufs) !! p in
  let max := u16 (x.(tot_len) - mem_len) in
  if mem_len + start_offset <=? x.(tot_len) then find_loop (Z.to_nat 65537) h p mem mem_len max start_offset else Some 0xFFFF.

(** [substr] is the memory of the string. *)
Definition pbuf_strstr (h : heap) (p : addr) (substr : option bytes) : option Z :=
  match substr with
  | None => Some 0xFFFF
  | Some s =>
      LET c <- head s in
      LET x <- h.(pbufs) !! p in
      if (c =? 0) || (x.(tot_len) =? 0xFFFF) then Some 0xFFFF
      else
        let substr_len := Z.of_nat (length (cstr s)) in
        if 0xFFFF <=? substr_len then Some 0xFFFF else pbuf_memfind h p s substr_len 0
  end.

(** ** The payload of a chain *)

Definition chunk (h : heap) (a : addr) : bytes := default [] (LET x <- h.(pbufs) !! a in read h x 0 x.(len)).
Definition contents (h : heap) (l : list addr) : bytes := concat (map (chunk h) l).

(** The payloads are inside of existing memory. *)
Definition readable (h : heap) (l : list addr) : Prop := forall a, a ∈ l -> exists x d, h.(pbufs) !! a = Some x /\ read h x 0 x.(len) = Some d.

Lemma readable_chunk h l a : readable h l -> a ∈ l -> exists x b o m, h.(pbufs) !! a = Some x /\ x.(payload) = Some (b, o) /\ h.(blocks) !! b = Some m /\ 0 <= o /\ 0 <= x.(len) /\ o + x.(len) <= Z.of_nat (length m) /\
  chunk h a = take (Z.to_nat x.(len)) (drop (Z.to_nat o) m).
Proof.
  intros Hr Ha. destruct (Hr a Ha) as (x & d & Hx & Hd). pose proof Hd as Hd'. unfold read in Hd. destruct (payload x) as [[b o]|] eqn:Hp; [|done]. destruct (blocks h !! b) as [m|] eqn:Hb; [|done].
  rewrite Z.add_0_r in Hd. run_inv. to_prop. exists x, b, o, m. do 3 (split; [done|]). do 3 (split; [lia|]). unfold chunk. rewrite Hx, Hd'. cbn. by subst d.
Qed.

Lemma chunk_length h l a x : readable h l -> a ∈ l -> h.(pbufs) !! a = Some x -> Z.of_nat (length (chunk h a)) = x.(len).
Proof. intros Hr Ha Hx. destruct (readable_chunk h l a Hr Ha) as (x' & b & o & m & Hx' & _ & _ & ? & ? & ? & ->). rewrite Hx in Hx'. injection Hx' as <-. rewrite length_take, length_drop. lia. Qed.

Lemma readable_cons h a l : readable h (a :: l) -> readable h l.
Proof. intros H b Hb. apply H. by right. Qed.

Lemma contents_length h l : readable h l -> Z.of_nat (length (contents h l)) = chain_len h l.
Proof.
  induction l as [|a l IH]; intros Hr; [done|]. rewrite chain_len_cons. unfold contents. cbn [map concat]. rewrite length_app. destruct (Hr a) as (x & d & Hx & _); [by left|]. unfold len_at. rewrite Hx.
  pose proof (chunk_length h (a :: l) a x Hr ltac:(left) Hx). pose proof (IH (readable_cons _ _ _ Hr)). unfold contents in *. lia.
Qed.

(** Reading a part of a payload. *)
Lemma read_part h l a x off n : readable h l -> a ∈ l -> h.(pbufs) !! a = Some x -> 0 <= off -> 0 <= n -> off + n <= x.(len) -> read h x off n = Some (take (Z.to_nat n) (drop (Z.to_nat off) (chunk h a))).
Proof.
  intros Hr Ha Hx Ho Hn Hl. destruct (readable_chunk h l a Hr Ha) as (x' & b & o & m & Hx' & Hp & Hb & ? & ? & ? & ->). rewrite Hx in Hx'. injection Hx' as <-. unfold read. rewrite Hp, Hb.
  rewrite !(proj2 (Z.leb_le _ _)) by lia. cbn. f_equal. rewrite skipn_firstn_comm, firstn_firstn, skipn_skipn. f_equal; [lia|]. f_equal. lia.
Qed.

(** ** Reading *)

Lemma store_app {A} off (d1 d2 l l1 : list A) : store off d1 l = Some l1 -> store (off + length d1) d2 l1 = store off (d1 ++ d2) l.
Proof.
  intros E. pose proof (store_length _ _ _ _ E) as El. pose proof (store_prefix _ _ _ _ E) as Ep. unfold store in *. rewrite El, length_app. run_inv. to_prop.
  replace (off + (length d1 + length d2))%nat with (off + length d1 + length d2)%nat by lia. destruct (_ <=? _)%nat eqn:Hl; [|done]. to_prop. f_equal. rewrite Ep, <- !app_assoc. do 3 f_equal.
  subst l1. rewrite app_assoc, drop_app_ge by (rewrite length_app, length_take; lia). rewrite drop_drop. f_equal. rewrite length_app, length_take. lia.
Qed.

Lemma chain_bounds h R l p : inv h R -> chain h p l -> chain_len h l < 65536 /\ forall a x, a ∈ l -> h.(pbufs) !! a = Some x -> 0 <= x.(len) < 65536.
Proof.
  intros I C. split.
  - rewrite <- (tail_len_chain h l (i_sized _ _ I) p C). destruct p as [a|]; cbn; [|lia]. destruct (pbufs h !! a) as [x|] eqn:Hx; [|lia]. by apply (i_sized _ _ I a x).
  - intros a x _ Hx. pose proof (tot_len_range _ _ _ _ I Hx). lia.
Qed.

Lemma partial_loop_spec h R l : inv h R -> forall fuel p dst len off left, chain h p l -> readable h l -> (length l <= fuel)%nat -> 0 <= off < 65536 -> 0 <= left -> 0 <= len -> left + len < 65536 ->
  (Z.to_nat left + length (take (Z.to_nat len) (drop (Z.to_nat off) (contents h l))) <= length dst)%nat ->
  exists dst', store (Z.to_nat left) (take (Z.to_nat len) (drop (Z.to_nat off) (contents h l))) dst = Some dst' /\
    partial_loop fuel h p dst len off left left = Some (dst', left + Z.of_nat (length (take (Z.to_nat len) (drop (Z.to_nat off) (contents h l))))).
Proof.
  intros I. induction l as [|a l IH]; intros fuel p dst n off left C Hr Hf Ho Hleft Hn Hs Hdst.
  { cbn in C. subst p. unfold contents in *. cbn [map concat] in *. rewrite drop_nil, take_nil in *. cbn in *. destruct (store_total (Z.to_nat left) [] dst) as [dst' E]; [cbn; lia|]. exists dst'. split; [done|].
    assert (dst' = dst) as -> by (unfold store in E; run_inv; subst; rewrite Nat.add_0_r; cbn; by rewrite take_drop). rewrite Z.add_0_r. destruct fuel; cbn; by destruct (n =? 0). }
  destruct (chain_bounds _ _ _ _ I C) as [_ Hlen]. pose proof C as (-> & x & Hx & C'). destruct (Hlen a x ltac:(left) Hx) as [Hl0 Hl1]. pose proof (chunk_length _ _ _ _ Hr ltac:(left) Hx) as Hcl.
  change (contents h (a :: l)) with (chunk h a ++ contents h l) in *. destruct fuel as [|fuel]; [cbn in Hf; lia|]. cbn [partial_loop]. destruct (Z.eqb_spec n 0) as [->|Hn0].
  { cbn in *. destruct (store_total (Z.to_nat left) [] dst) as [dst' E]; [cbn; lia|]. exists dst'. split; [done|]. unfold store in E. run_inv. subst. rewrite Nat.add_0_r. cbn. by rewrite take_drop, Z.add_0_r. }
  rewrite Hx. destruct (negb (off =? 0) && (len x <=? off)) eqn:Hskip.
  - to_prop. rewrite u16_small by lia. assert (drop (Z.to_nat off) (chunk h a ++ contents h l) = drop (Z.to_nat (off - len x)) (contents h l)) as Ed by (rewrite drop_app_ge by lia; f_equal; lia).
    rewrite Ed in *. apply IH; try done; [by eapply readable_cons|cbn in Hf; lia|lia].
  - assert (off <= len x) as Hox by (apply andb_false_iff in Hskip; destruct Hskip; to_prop; lia). rewrite u16_small by lia.
    set (k := if n <? len x - off then n else len x - off). assert (k = Z.min n (len x - off)) as Ek by (unfold k; destruct (Z.ltb_spec n (len x - off)); lia).
    rewrite (read_part h (a :: l) a x off k Hr ltac:(left) Hx) by lia. set (A := drop (Z.to_nat off) (chunk h a)) in *. assert (length A = Z.to_nat (len x - off)) as HA by (unfold A; rewrite length_drop; lia).
    assert (drop (Z.to_nat off) (chunk h a ++ contents h l) = A ++ contents h l) as Ed by (rewrite drop_app_le by lia; done). rewrite Ed in *.
    assert (take (Z.to_nat n) (A ++ contents h l) = take (Z.to_nat k) A ++ take (Z.to_nat (n - k)) (contents h l)) as Et.
    { rewrite take_app, HA. replace (Z.to_nat n - Z.to_nat (len x - off))%nat with (Z.to_nat (n - k)) by lia. f_equal. destruct (Z.le_gt_cases n (len x - off)); [f_equal; lia|]. rewrite !take_ge by lia. done. }
    rewrite Et in *. rewrite length_app in Hdst. destruct (store_total (Z.to_nat left) (take (Z.to_nat k) A) dst) as [dst1 E1]; [lia|]. rewrite E1. rewrite !u16_small by lia.
    assert (length (take (Z.to_nat k) A) = Z.to_nat k) as Htk by (rewrite length_take; lia).
    destruct (IH fuel (next x) dst1 (n - k) 0 (left + k) C' (readable_cons _ _ _ Hr)) as (dst' & E2 & ->); [cbn in Hf; lia|lia|lia|lia|lia| |].
    { rewrite drop_0, (store_length _ _ _ _ E1). lia. }
    rewrite drop_0 in *. exists dst'. split; [|f_equal; f_equal; rewrite length_app; lia]. rewrite <- (store_app _ _ _ _ _ E1), <- E2. f_equal. lia.
Qed.

(** [pbuf_copy_partial] copies the part of the payload that was asked for, as
    far as there is one, and tells how much. *)
Lemma copy_partial_ok h R a l dst n off : inv h R -> chain h (Some a) l -> readable h l -> 0 <= n < 65536 -> 0 <= off < 65536 ->
  let d := take (Z.to_nat n) (drop (Z.to_nat off) (contents h l)) in (length d <= length dst)%nat ->
  exists dst', pbuf_copy_partial h (Some a) (Some dst) n off = Some (dst', Z.of_nat (length d)) /\ store 0 d dst = Some dst'.
Proof.
  intros I C Hr Hn Ho d Hd. pose proof (chain_size _ _ _ C).
  destruct (partial_loop_spec h R l I (fuel h) (Some a) dst n off 0 C Hr) as (dst' & E1 & E2); [unfold fuel; lia|lia|lia|lia|lia|fold d; lia|by exists dst'].
Qed.

(** ** Comparing and searching *)

Lemma seek_spec h R l : inv h R -> forall fuel p off, chain h p l -> (length l <= fuel)%nat -> 0 <= off < 65536 ->
  exists q r, seek fuel h p off = Some (q, r) /\ 0 <= r <= off /\
    match q with
    | Some b => exists l1 l2 x, l = l1 ++ b :: l2 /\ h.(pbufs) !! b = Some x /\ r < x.(len) /\ off = chain_len h l1 + r /\ chain h q (b :: l2)
    | None => chain_len h l <= off
    end.
Proof.
  intros I. induction l as [|a l IH]; intros fuel p off C Hf Ho.
  { cbn in C. subst p. exists None, off. split; [by destruct fuel|]. cbn. lia. }
  destruct (chain_bounds _ _ _ _ I C) as [_ Hlen]. pose proof C as (-> & x & Hx & C'). destruct (Hlen a x ltac:(left) Hx) as [Hl0 Hl1]. destruct fuel as [|fuel]; [cbn in Hf; lia|]. cbn [seek]. rewrite Hx.
  destruct (Z.leb_spec (len x) off) as [Hle|Hgt].
  - rewrite u16_small by lia. destruct (IH fuel (next x) (off - len x) C') as (q & r & -> & Hr & Hq); [cbn in Hf; lia|lia|]. exists q, r. split; [done|]. split; [lia|]. rewrite chain_len_cons. unfold len_at. rewrite Hx.
    destruct q as [b|]; [|lia]. destruct Hq as (l1 & l2 & y & -> & Hy & Hry & Eo & Cb). exists (a :: l1), l2, y. rewrite chain_len_cons. unfold len_at. rewrite Hx. do 4 (split; [done || lia|]). done.
  - exists (Some a), off. split; [done|]. split; [lia|]. exists [], l, x. do 4 (split; [done || (cbn; lia)|]). done.
Qed.

Lemma readable_app h l1 l2 : readable h (l1 ++ l2) -> readable h l1 /\ readable h l2.
Proof. intros H. split; intros a Ha; apply H; set_solver. Qed.

Lemma contents_app h l1 l2 : contents h (l1 ++ l2) = contents h l1 ++ contents h l2.
Proof. unfold contents. by rewrite map_app, concat_app. Qed.

(** The byte at an offset, zero behind the end. *)
Lemma get_at_ok h R l p off : inv h R -> chain h p l -> readable h l -> 0 <= off < 65536 -> pbuf_get_at h p off = Some (default 0 (contents h l !! Z.to_nat off)).
Proof.
  intros I C Hr Ho. destruct (seek_spec h R l I (fuel h) p off C) as (q & r & E & Hr0 & Hq); [pose proof (chain_size _ _ _ C); unfold fuel; lia|done|]. unfold pbuf_get_at. rewrite E. destruct q as [b|].
  - destruct Hq as (l1 & l2 & x & -> & Hx & Hrx & -> & _). rewrite Hx. rewrite (read_part h (l1 ++ b :: l2) b x r 1) by (done || lia || set_solver). apply readable_app in Hr. destruct Hr as [Hr1 Hr2].
    rewrite contents_app. pose proof (contents_length _ _ Hr1) as L1. pose proof (chunk_length _ _ _ _ Hr2 ltac:(left) Hx) as L2. change (contents h (b :: l2)) with (chunk h b ++ contents h l2).
    rewrite lookup_app_r, lookup_app_l by lia. replace (Z.to_nat (chain_len h l1 + r) - length (contents h l1))%nat with (Z.to_nat r) by lia.
    destruct (lookup_lt_is_Some_2 (chunk h b) (Z.to_nat r)) as [v Hv]; [lia|]. rewrite (drop_S _ _ _ Hv), Hv. done.
  - pose proof (contents_length _ _ Hr). rewrite lookup_ge_None_2 by lia. done.
Qed.

(** The position of the first difference of two sequences of one length. *)
Fixpoint first_diff (a b : bytes) : option nat :=
  match a, b with
  | x :: a, y :: b => if x =? y then S <$> first_diff a b else Some O
  | _, _ => None
  end.

Lemma first_diff_None a : forall b, length a = length b -> first_diff a b = None <-> a = b.
Proof.
  induction a as [|x a IH]; intros [|y b] E; cbn in *; try done. destruct (Z.eqb_spec x y) as [->|Hne].
  - pose proof (IH b ltac:(lia)) as Hi. destruct (first_diff a b) as [j|]; cbn; (split; [|intros [= ->]]); [done|pose proof (proj2 Hi eq_refl); done|intros _; f_equal; by apply Hi|done].
  - split; [done|]. intros [=]. done.
Qed.

Lemma first_diff_Some a : forall b j, first_diff a b = Some j -> (j < length a)%nat /\ take j a = take j b /\ a !! j <> b !! j.
Proof.
  induction a as [|x a IH]; intros [|y b] j; cbn; try done. destruct (Z.eqb_spec x y) as [->|Hne].
  - specialize (IH b). destruct (first_diff a b) as [j'|]; cbn; [|done]. intros [= <-]. destruct (IH _ eq_refl) as (? & Et & ?). split; [lia|]. split; [cbn; by rewrite Et|done].
  - intros [= <-]. split; [lia|]. split; [done|]. cbn. congruence.
Qed.

Lemma compare_loop_spec h R b l start s2 : inv h R -> chain h (Some b) l -> readable h l -> 0 <= start -> forall k i, let T := drop (Z.to_nat start) (contents h l) in
  0 <= i -> start + i + Z.of_nat k < 65536 -> (Z.to_nat i + k <= length T)%nat -> (Z.to_nat i + k <= length s2)%nat ->
  compare_loop k h b start i s2 = Some (match first_diff (take k (drop (Z.to_nat i) T)) (take k (drop (Z.to_nat i) s2)) with Some j => i + Z.of_nat j + 1 | None => 0 end).
Proof.
  intros I C Hr Hs k. induction k as [|k IH]; intros i T Hi Hb HT H2; [by rewrite !take_0|]. cbn [compare_loop]. rewrite (get_at_ok h R l) by (done || lia || rewrite u16_small; lia). rewrite u16_small by lia.
  destruct (lookup_lt_is_Some_2 T (Z.to_nat i)) as [v Hv]; [lia|]. destruct (lookup_lt_is_Some_2 s2 (Z.to_nat i)) as [w Hw]; [lia|]. rewrite Hw.
  pose proof Hv as Hv'. unfold T in Hv. rewrite lookup_drop in Hv. replace (Z.to_nat (start + i)) with (Z.to_nat start + Z.to_nat i)%nat by lia. rewrite Hv. cbn [default option_rect from_option].
  rewrite (drop_S _ _ _ Hv'), (drop_S _ _ _ Hw). cbn [take first_diff]. replace (S (Z.to_nat i)) with (Z.to_nat (i + 1)) by lia. unfold id. destruct (Z.eqb_spec v w) as [->|Hne]; cbn [negb].
  - rewrite IH by (fold T; lia). fold T. destruct (first_diff _ _) as [j|]; cbn; [|done]. f_equal. lia.
  - rewrite u16_small by lia. f_equal. lia.
Qed.

(** [pbuf_memcmp] inside of the payload gives zero for equal bytes and the
    position behind the first difference otherwise. *)
Lemma memcmp_ok h R l p off s2 n : inv h R -> chain h p l -> readable h l -> 0 <= off < chain_len h l -> 0 <= n -> off + n <= chain_len h l -> n <= Z.of_nat (length s2) ->
  pbuf_memcmp h p off s2 n = Some (match first_diff (take (Z.to_nat n) (drop (Z.to_nat off) (contents h l))) (take (Z.to_nat n) s2) with Some j => Z.of_nat j + 1 | None => 0 end).
Proof.
  intros I C Hr Ho Hn Hon H2. destruct (chain_bounds _ _ _ _ I C) as [Hlen _]. destruct (seek_spec h R l I (fuel h) p off C) as (q & r & E & Hr0 & Hq); [pose proof (chain_size _ _ _ C); unfold fuel; lia|lia|].
  unfold pbuf_memcmp. rewrite E. destruct q as [b|]; [|lia]. destruct Hq as (l1 & l2 & x & -> & Hx & Hrx & -> & Cb). apply readable_app in Hr. destruct Hr as [Hr1 Hr2]. pose proof (contents_length _ _ Hr1) as L1. pose proof (contents_length _ _ Hr2) as L2.
  rewrite chain_len_app in *. rewrite contents_app, drop_app_ge by lia. replace (Z.to_nat (chain_len h l1 + r) - length (contents h l1))%nat with (Z.to_nat r) by lia.
  pose proof (chain_len_nonneg h R l1) as Hn1. assert (0 <= chain_len h l1) by lia.
  rewrite (compare_loop_spec h R b (b :: l2) r s2) by (done || lia || rewrite ?length_drop; lia). rewrite !drop_0. destruct (first_diff _ _); [f_equal; lia|done].
Qed.

(** Where [mem] is in [t]. *)
Definition occurs (mem t : bytes) (i : Z) : Prop := take (length mem) (drop (Z.to_nat i) t) = mem.

Lemma find_loop_spec h R a l mem n : inv h R -> chain h (Some a) l -> readable h l -> 0 < n <= chain_len h l -> n <= Z.of_nat (length mem) -> forall fuel i, 0 <= i -> chain_len h l - n - i < Z.of_nat fuel ->
  exists r, find_loop fuel h a mem n (chain_len h l - n) i = Some r /\
    ((r = 0xFFFF /\ (n = 1 -> forall k, i <= k <= chain_len h l - n -> ~ occurs (take (Z.to_nat n) mem) (contents h l) k)) \/
     (i <= r <= chain_len h l - n /\ occurs (take (Z.to_nat n) mem) (contents h l) r /\ (n = 1 -> forall k, i <= k < r -> ~ occurs (take (Z.to_nat n) mem) (contents h l) k))).
Proof.
  intros I C Hr Hn Hm fuel. destruct (chain_bounds _ _ _ _ I C) as [Hlen _]. pose proof (contents_length _ _ Hr) as Lc. assert (length (take (Z.to_nat n) mem) = Z.to_nat n) as Lm by (rewrite length_take; lia).
  induction fuel as [|fuel IH]; intros i Hi Hf; cbn [find_loop]; (destruct (Z.leb_spec i (chain_len h l - n)) as [Hle|Hgt]; [|exists 0xFFFF; split; [done|]; left; split; [done|lia]]); [lia|].
  rewrite (memcmp_ok h R l) by (done || lia). set (T := take (Z.to_nat n) (drop (Z.to_nat i) (contents h l))). assert (length T = Z.to_nat n) as LT by (unfold T; rewrite length_take, length_drop; lia).
  destruct (first_diff T (take (Z.to_nat n) mem)) as [j|] eqn:Ed.
  - destruct (first_diff_Some _ _ _ Ed) as (Hj & _ & Hne). rewrite (proj2 (Z.eqb_neq _ _)), u16_small by lia. destruct (IH (i + (Z.of_nat j + 1))) as (r & -> & Hr'); [lia|lia|]. exists r. split; [done|].
    assert (n = 1 -> j = 0%nat /\ ~ occurs (take (Z.to_nat n) mem) (contents h l) i) as H1.
    { intros ->. split; [lia|]. unfold occurs. rewrite Lm. fold T. intros E. rewrite E in Hne. done. }
    destruct Hr' as [[-> H]|(Hb & Hoc & H)]; [left|right]; (split; [lia|]); [|split; [done|]]; intros E1 k Hk; destruct (H1 E1) as [-> Hno]; (destruct (Z.eq_dec k i) as [->|]; [done|apply H; [done|lia]]).
  - apply first_diff_None in Ed; [|lia]. exists i. split; [done|]. right. split; [lia|]. split; [unfold occurs; by rewrite Lm|lia].
Qed.

(** [pbuf_memfind] returns, and what it returns is an occurrence; for a single
    byte it is the first one, if there is one. *)
Lemma memfind_ok h R a l mem n start : inv h R -> chain h (Some a) l -> readable h l -> 0 < n <= Z.of_nat (length mem) -> 0 <= start ->
  exists r, pbuf_memfind h a mem n start = Some r /\
    ((r = 0xFFFF /\ (n = 1 -> forall k, start <= k < chain_len h l -> ~ occurs (take (Z.to_nat n) mem) (contents h l) k)) \/
     (start <= r <= chain_len h l - n /\ occurs (take (Z.to_nat n) mem) (contents h l) r /\ (n = 1 -> forall k, start <= k < r -> ~ occurs (take (Z.to_nat n) mem) (contents h l) k))).
Proof.
  intros I C Hr Hn Hs. destruct (chain_bounds _ _ _ _ I C) as [Hlen _]. unfold pbuf_memfind. destruct l as [|a' l]; [done|]. pose proof C as (E & x & Hx & _). injection E as <-. rewrite Hx.
  pose proof (tail_len_chain _ _ (i_sized _ _ I) _ C) as Et. cbn [tail_len] in Et. rewrite Hx in Et. rewrite Et. destruct (Z.leb_spec (n + start) (chain_len h (a :: l))) as [Hle|Hgt].
  - rewrite u16_small by lia. destruct (find_loop_spec h R a (a :: l) mem n I C Hr ltac:(lia) ltac:(lia) (Z.to_nat 65537) start Hs ltac:(lia)) as (r & -> & H). exists r. split; [done|].
    destruct H as [[-> H]|H]; [left|by right]. split; [done|]. intros -> k Hk. apply H; [done|lia].
  - exists 0xFFFF. split; [done|]. left. split; [done|]. intros. lia.
Qed.

(** ** Writing *)

(** [d] over the bytes of [c] from [o] on. *)
Definition splice (o : nat) (d c : bytes) : bytes := take o c ++ d ++ drop (o + length d) c.

Lemma store_splice o (d c : bytes) : (o + length d <= length c)%nat -> store o d c = Some (splice o d c).
Proof. intros H. unfold store. by rewrite (proj2 (Nat.leb_le _ _)) by done. Qed.

Lemma splice_length o d c : (o + length d <= length c)%nat -> length (splice o d c) = length c.
Proof. intros H. unfold splice. rewrite !length_app, length_take, length_drop. lia. Qed.

Lemma splice_splice o d1 d2 c : (o + length d1 <= length c)%nat -> splice (o + length d1) d2 (splice o d1 c) = splice o (d1 ++ d2) c.
Proof.
  intros H. assert (length (take o c ++ d1) = (o + length d1)%nat) as HA by (rewrite length_app, length_take; lia).
  assert (splice o d1 c = (take o c ++ d1) ++ drop (o + length d1) c) as -> by (unfold splice; by rewrite <- app_assoc).
  unfold splice. rewrite take_app_length', drop_app_ge by lia. rewrite HA, drop_drop, <- !app_assoc, length_app. do 4 f_equal. lia.
Qed.

Lemma splice_app_l o d a b : (o + length d <= length a)%nat -> splice o d (a ++ b) = splice o d a ++ b.
Proof. intros H. unfold splice. rewrite take_app_le, drop_app_le by lia. by rewrite <- !app_assoc. Qed.

Lemma splice_app_r k d a b : splice (length a + k) d (a ++ b) = a ++ splice k d b.
Proof.
  unfold splice. rewrite take_app_ge, drop_app_ge, <- app_assoc by lia. replace (length a + k - length a)%nat with k by lia. replace (length a + k + length d - length a)%nat with (k + length d)%nat by lia. done.
Qed.

Lemma splice_nil o c : splice o [] c = c.
Proof. unfold splice. cbn. by rewrite Nat.add_0_r, take_drop. Qed.

(** A write that goes on behind [a]. *)
Lemma splice_over d1 d2 a b : (length d1 <= length a)%nat -> (length d1 = length a \/ d2 = []) -> splice 0 d1 a ++ splice 0 d2 b = splice 0 (d1 ++ d2) (a ++ b).
Proof.
  intros Hl H. rewrite <- splice_splice, splice_app_l by (rewrite ?length_app; lia). destruct H as [E| ->]; [|by rewrite !splice_nil]. rewrite <- splice_app_r, splice_length by lia. f_equal. lia.
Qed.

(** A write inside of a window of a block is one inside of the window. *)
Lemma splice_window o n k d m : (k + length d <= n)%nat -> (o + n <= length m)%nat -> take n (drop o (splice (o + k) d m)) = splice k d (take n (drop o m)).
Proof.
  intros H1 H2. destruct (list_split_at o m ltac:(lia)) as (A & B & -> & HA). rewrite length_app in H2. destruct (list_split_at n B ltac:(lia)) as (B1 & C & -> & HB). rewrite (drop_app_length' A) by done.
  rewrite (take_app_length' B1), <- HA, splice_app_r, drop_app_length, splice_app_l by lia. apply take_app_length'. rewrite splice_length; lia.
Qed.

(** Only memory of the pbufs in [l] was written. *)
Record wrote (h h' : heap) (l : list addr) : Prop := {
  w_pbufs : h'.(pbufs) = h.(pbufs);
  w_other b : b ∉ l -> h'.(blocks) !! b = h.(blocks) !! b;
  w_size b m : h.(blocks) !! b = Some m -> exists m', h'.(blocks) !! b = Some m' /\ length m' = length m }.

Lemma wrote_none h l : wrote h h l.
Proof. split; [done|done|]. intros b m Hb. by exists m. Qed.

Lemma wrote_both h1 h2 h3 l1 l2 l : wrote h1 h2 l1 -> wrote h2 h3 l2 -> (forall a, a ∈ l1 \/ a ∈ l2 -> a ∈ l) -> wrote h1 h3 l.
Proof.
  intros [P1 O1 S1] [P2 O2 S2] Hl. split; [congruence|intros b Hb; rewrite O2, O1; [done|naive_solver|naive_solver]|]. intros b m Hb. destruct (S1 b m Hb) as (m2 & H2 & L2). destruct (S2 b m2 H2) as (m3 & H3 & L3). exists m3. split; [done|congruence].
Qed.

Lemma wrote_inv h h' l R : inv h R -> wrote h h' l -> inv h' R.
Proof.
  intros [C F S] [Ep _ Hs]. assert (nexts h' = nexts h) as En by (unfold nexts; by rewrite Ep). split.
  - split.
    + intros a x. rewrite Ep, (preds_nexts _ _ _ En). apply (c_ref _ _ C).
    + intros a. rewrite Ep. apply (c_held _ _ C).
    + intros a. rewrite Ep. intros Ha. destruct (c_chain _ _ C a Ha) as [k Ck]. exists k. by eapply chain_nexts.
    + intros a x. rewrite Ep. intros Hx. destruct (c_mem _ _ C a x Hx) as [Hl Ho]. split; [done|]. intros Hw. destruct (Ho Hw) as (Hc & o & m & Hp & Hb & ? & ?). split; [done|].
      destruct (Hs a m Hb) as (m' & Hb' & Lm). exists o, m'. by rewrite Lm.
  - intros a x. rewrite Ep. apply F.
  - intros a x. rewrite Ep. intros Hx. destruct (S a x Hx) as [Es ?]. split; [|done]. rewrite Es. unfold tail_len. by rewrite Ep.
Qed.

Lemma wrote_chain h h' l p k : wrote h h' l -> chain h p k -> chain h' p k.
Proof. intros [Ep _ _]. apply chain_nexts. unfold nexts. by rewrite Ep. Qed.

(** Payloads elsewhere are as before. *)
Lemma wrote_chunk h h' l a : wrote h h' l -> (forall x b o, h.(pbufs) !! a = Some x -> x.(payload) = Some (b, o) -> b ∉ l) -> chunk h' a = chunk h a.
Proof.
  intros [Ep Hb _] Hl. unfold chunk. rewrite Ep. destruct (pbufs h !! a) as [x|] eqn:Hx; [|done]. unfold read. destruct (payload x) as [[b o]|] eqn:Hp; [|done]. rewrite Hb; [done|]. by eapply Hl.
Qed.

Lemma wrote_readable h h' l k : wrote h h' l -> readable h k -> readable h' k.
Proof.
  intros [Ep _ Hs] Hr a Ha. destruct (readable_chunk h k a Hr Ha) as (x & b & o & m & Hx & Hp & Hb & ? & ? & ? & _). destruct (Hs b m Hb) as (m' & Hb' & Lm). rewrite Ep. exists x. unfold read. rewrite Hp, Hb', Z.add_0_r.
  rewrite !(proj2 (Z.leb_le _ _)) by lia. cbn. by eexists.
Qed.

(** The pbufs have their own memory. *)
Definition owned (h : heap) (l : list addr) : Prop := forall a, a ∈ l -> exists x, h.(pbufs) !! a = Some x /\ owns_memory x = true.

Lemma owned_block h R a x : inv h R -> h.(pbufs) !! a = Some x -> owns_memory x = true -> exists o m, x.(payload) = Some (a, o) /\ h.(blocks) !! a = Some m /\ 0 <= o /\ 0 <= x.(len) /\ o + x.(len) <= Z.of_nat (length m).
Proof. intros I Hx Ho. destruct (c_mem _ _ (i_counted _ _ I) a x Hx) as [Hl Hm]. destruct (Hm Ho) as (_ & o & m & ? & ? & ? & ?). by exists o, m. Qed.

Lemma owned_readable h R l : inv h R -> owned h l -> readable h l.
Proof.
  intros I Ho a Ha. destruct (Ho a Ha) as (x & Hx & Hw). destruct (owned_block _ _ _ _ I Hx Hw) as (o & m & Hp & Hb & ? & ? & ?). exists x. unfold read. rewrite Hp, Hb, Z.add_0_r. rewrite !(proj2 (Z.leb_le _ _)) by lia. cbn. by eexists.
Qed.

Lemma write_ok h R a x off d : inv h R -> h.(pbufs) !! a = Some x -> owns_memory x = true -> 0 <= off -> off + Z.of_nat (length d) <= x.(len) ->
  exists h', write h x off d = Some h' /\ wrote h h' [a] /\ chunk h' a = splice (Z.to_nat off) d (chunk h a).
Proof.
  intros I Hx Hw Ho Hl. destruct (owned_block _ _ _ _ I Hx Hw) as (o & m & Hp & Hb & ? & ? & ?). unfold write. rewrite Hp, Hb, (proj2 (Z.leb_le _ _)) by lia. rewrite store_splice by lia. eexists. split; [done|]. split.
  - split; [done|intros b Hne; cbn; apply lookup_insert_ne; set_solver|]. intros b mb Hmb. cbn. destruct (decide (b = a)) as [->|Hne]; [rewrite lookup_insert_eq|rewrite lookup_insert_ne by done]; [|by exists mb].
    rewrite Hb in Hmb. injection Hmb as <-. eexists. split; [done|]. apply splice_length. lia.
  - unfold chunk. cbn. rewrite Hx. unfold read. rewrite Hp, Hb. cbn [blocks]. rewrite lookup_insert_eq, Z.add_0_r. rewrite splice_length by lia. rewrite !(proj2 (Z.leb_le _ _)) by lia. cbn [andb default option_rect from_option]. unfold id.
    rewrite Z2Nat.inj_add by lia. apply splice_window; lia.
Qed.

Lemma contents_cons h a l : contents h (a :: l) = chunk h a ++ contents h l.
Proof. done. Qed.

Lemma owned_wrote h h' l k : wrote h h' l -> owned h k -> owned h' k.
Proof. intros W Ho a Ha. rewrite (w_pbufs _ _ _ W). by apply Ho. Qed.

Lemma owned_cons h a l : owned h (a :: l) -> owned h l.
Proof. intros H b Hb. apply H. by right. Qed.

(** Writing to other pbufs does not change what owned pbufs hold. *)
Lemma owned_contents h R h' l k : inv h R -> wrote h h' l -> owned h k -> (forall a, a ∈ k -> a ∉ l) -> contents h' k = contents h k.
Proof.
  intros I W Ho Hd. induction k as [|a k IH]; [done|]. rewrite !contents_cons, IH; [|by eapply owned_cons|intros b Hb; apply Hd; by right]. f_equal. eapply wrote_chunk; [done|]. intros x b o Hx Hp.
  destruct (Ho a) as (x' & Hx' & Hw); [by left|]. rewrite Hx in Hx'. injection Hx' as <-. destruct (owned_block _ _ _ _ I Hx Hw) as (o' & m & Hp' & _). rewrite Hp in Hp'. injection Hp' as -> _. apply Hd. by left.
Qed.

Lemma take_loop_spec R data l : forall fuel h p n copied, inv h R -> chain h p l -> owned h l -> (length l <= fuel)%nat -> 0 <= n -> 0 <= copied -> copied + n < 65536 -> n <= chain_len h l ->
  copied + n <= Z.of_nat (length data) ->
  exists h', take_loop fuel h p data n copied = Some (h', copied + n) /\ wrote h h' l /\ contents h' l = splice 0 (take (Z.to_nat n) (drop (Z.to_nat copied) data)) (contents h l).
Proof.
  induction l as [|a l IH]; intros fuel h p n copied I C Ho Hf Hn Hc Hs Hl Hd.
  { cbn in C. subst p. cbn in Hl. assert (n = 0) as -> by lia. exists h. split; [destruct fuel; cbn; by rewrite Z.add_0_r|]. split; [apply wrote_none|done]. }
  pose proof (owned_readable _ _ _ I Ho) as Hr. pose proof (chain_nodup _ _ _ C) as [Hal _]%NoDup_cons. destruct (chain_bounds _ _ _ _ I C) as [_ Hlen]. pose proof C as (-> & x & Hx & C'). destruct (Hlen a x ltac:(left) Hx) as [Hl0 Hl1].
  destruct (Ho a ltac:(left)) as (x' & Hx' & Hw). rewrite Hx in Hx'. injection Hx' as <-. pose proof (chunk_length _ _ _ _ Hr ltac:(left) Hx) as Hcl. rewrite chain_len_cons in Hl. unfold len_at in Hl. rewrite Hx in Hl.
  destruct fuel as [|fuel]; [cbn in Hf; lia|]. cbn [take_loop]. destruct (Z.eqb_spec n 0) as [->|Hn0].
  { exists h. rewrite Z.add_0_r. split; [done|]. split; [apply wrote_none|]. cbn. done. }
  rewrite Hx. set (k := if len x <? n then len x else n). assert (k = Z.min (len x) n) as Ek by (unfold k; destruct (Z.ltb_spec (len x) n); lia). rewrite (proj2 (Z.leb_le _ _)) by lia.
  set (D := take (Z.to_nat k) (drop (Z.to_nat copied) data)). assert (length D = Z.to_nat k) as HD by (unfold D; rewrite length_take, length_drop; lia).
  destruct (write_ok h R a x 0 D I Hx Hw ltac:(lia) ltac:(lia)) as (h1 & -> & W1 & E1). rewrite !u16_small by lia. pose proof (owned_cons _ _ _ Ho) as Ho'.
  destruct (IH fuel h1 (next x) (n - k) (copied + k)) as (h' & -> & W2 & E2); [by eapply wrote_inv|by eapply wrote_chain|by eapply owned_wrote|cbn in Hf; lia|lia|lia|lia| |lia|].
  { assert (chain_len h1 l = chain_len h l) as -> by (unfold chain_len, len_at; by rewrite (w_pbufs _ _ _ W1)). pose proof (chain_len_nonneg h R l (next x) I C'). lia. }
  exists h'. split; [f_equal; f_equal; lia|]. split; [eapply wrote_both; [done|done|set_solver]|]. rewrite !contents_cons.
  assert (chunk h' a = chunk h1 a) as ->.
  { eapply wrote_chunk; [done|]. intros z b o Hz Hp. rewrite (w_pbufs _ _ _ W1), Hx in Hz. injection Hz as <-. destruct (owned_block _ _ _ _ I Hx Hw) as (o' & m & Hp' & _). rewrite Hp in Hp'. by injection Hp' as -> _. }
  rewrite E2, E1, (owned_contents h R h1 [a] l I W1 Ho' ltac:(set_solver)). change (Z.to_nat 0) with 0%nat. rewrite splice_over.
  - f_equal. unfold D. replace (Z.to_nat (copied + k)) with (Z.to_nat copied + Z.to_nat k)%nat by lia. rewrite <- drop_drop. set (T := drop (Z.to_nat copied) data).
    replace (Z.to_nat n) with (Z.to_nat k + Z.to_nat (n - k))%nat by lia. by rewrite take_take_drop.
  - lia.
  - destruct (Z.le_gt_cases n (len x)); [right; by replace (n - k) with 0 by lia|left; lia].
Qed.

(** [pbuf_take] puts the data at the front of the payload, or says that there is
    not enough room. *)
Lemma take_ok h R a l data n : inv h R -> chain h (Some a) l -> owned h l -> 0 <= n < 65536 -> n <= Z.of_nat (length data) ->
  if chain_len h l <? n then pbuf_take h (Some a) (Some data) n = Some (h, ERR_ARG)
  else exists h', pbuf_take h (Some a) (Some data) n = Some (h', ERR_OK) /\ wrote h h' l /\ contents h' l = splice 0 (take (Z.to_nat n) data) (contents h l).
Proof.
  intros I C Ho Hn Hd. unfold pbuf_take. pose proof C as C'. destruct l as [|a' l]; [done|]. destruct C' as (E & x & Hx & _). injection E as <-. rewrite Hx.
  pose proof (tail_len_chain _ _ (i_sized _ _ I) _ C) as Et. cbn [tail_len] in Et. rewrite Hx in Et. rewrite Et. destruct (Z.ltb_spec (chain_len h (a :: l)) n) as [|Hle]; [done|]. pose proof (chain_size _ _ _ C).
  destruct (take_loop_spec R data (a :: l) (fuel h) h (Some a) n 0 I C Ho) as (h' & -> & W & E'); [unfold fuel; lia|lia|lia|lia|lia|lia|]. rewrite Z.add_0_l, Z.eqb_refl. exists h'. split; [done|]. split; [done|]. by rewrite E', drop_0.
Qed.

(** Every pbuf behind the first one has data: [pbuf_copy] takes an empty rest of
    a chain for a queue of packets. *)
Definition filled (h : heap) (l : list addr) : bool := forallb (fun a => 0 <? len_at h a) (tail l).

Lemma filled_not_queue h R a l : inv h R -> chain h (Some a) (a :: l) -> filled h (a :: l) = true -> not_queue h (Some a) = true.
Proof.
  intros I C Hf. destruct C as (_ & x & Hx & C). cbn. rewrite Hx. destruct (Z.eqb_spec (len x) (tot_len x)) as [E|E]; [|done]. cbn. destruct l as [|b l]; [by rewrite C|]. exfalso.
  destruct (i_sized _ _ I a x Hx) as [Es _]. rewrite (tail_len_chain _ _ (i_sized _ _ I) _ C), chain_len_cons in Es. cbn in Hf. to_prop.
  assert (0 <= chain_len h l) by (destruct C as (_ & y & _ & C); by eapply chain_len_nonneg). lia.
Qed.

Lemma filled_tail h a b l : filled h (a :: b :: l) = true -> filled h (b :: l) = true /\ 0 < len_at h b.
Proof. unfold filled. cbn. intros. to_prop. done. Qed.

Lemma wrote_len h h' l k : wrote h h' l -> chain_len h' k = chain_len h k.
Proof. intros W. unfold chain_len, len_at. by rewrite (w_pbufs _ _ _ W). Qed.
Lemma wrote_filled h h' l k : wrote h h' l -> filled h' k = filled h k.
Proof. intros W. unfold filled, len_at. by rewrite (w_pbufs _ _ _ W). Qed.

(** No pbuf of the source points into the memory of the target. *)
Definition apart (h : heap) (lt lf : list addr) : Prop := forall a x b o, a ∈ lf -> h.(pbufs) !! a = Some x -> x.(payload) = Some (b, o) -> b ∉ lt.

Lemma apart_contents h h' lt lf : wrote h h' lt -> apart h lt lf -> contents h' lf = contents h lf.
Proof.
  intros W Ha. induction lf as [|a lf IH]; [done|]. rewrite !contents_cons, IH by (intros b x c o Hb; apply Ha; by right). f_equal. eapply wrote_chunk; [done|]. intros x b o Hx Hp. eapply Ha; [left|done|done].
Qed.

Lemma apart_sub h lt lf lt' lf' : apart h lt lf -> (forall a, a ∈ lt' -> a ∈ lt) -> (forall a, a ∈ lf' -> a ∈ lf) -> apart h lt' lf'.
Proof. intros H Ht Hf a x b o Ha Hx Hp Hb. by eapply H; [apply Hf| | |apply Ht]. Qed.

Lemma apart_wrote h h' l lt lf : wrote h h' l -> apart h lt lf -> apart h' lt lf.
Proof. intros W H a x b o Ha. rewrite (w_pbufs _ _ _ W). by apply H. Qed.

Record copy_state (R : gmultiset addr) (h : heap) (t : addr) (lt : list addr) (f : addr) (lf : list addr) (ot off : Z) : Prop := {
  cs_inv : inv h R; cs_to : chain h (Some t) (t :: lt); cs_from : chain h (Some f) (f :: lf); cs_owned : owned h (t :: lt); cs_read : readable h (f :: lf);
  cs_fillt : filled h (t :: lt) = true; cs_fillf : filled h (f :: lf) = true; cs_apart : apart h (t :: lt) (f :: lf);
  cs_ot : 0 <= ot <= len_at h t; cs_of : 0 <= off <= len_at h f; cs_fit : chain_len h (f :: lf) - off <= chain_len h (t :: lt) - ot }.

(** One round: what fits of the two current pbufs is copied. *)
Lemma copy_round R h t lt f lf ot off x y : copy_state R h t lt f lf ot off -> h.(pbufs) !! t = Some x -> h.(pbufs) !! f = Some y ->
  let n := Z.min (y.(len) - off) (x.(len) - ot) in let d := take (Z.to_nat n) (drop (Z.to_nat off) (chunk h f)) in
  u16 (if y.(len) - off <=? x.(len) - ot then y.(len) - off else x.(len) - ot) = n /\ read h y off n = Some d /\ length d = Z.to_nat n /\ 0 <= n /\ ot + n < 65536 /\ off + n < 65536 /\
  exists h', write h x ot d = Some h' /\ wrote h h' [t] /\ chunk h' t = splice (Z.to_nat ot) d (chunk h t) /\ inv h' R /\ contents h' lt = contents h lt /\ contents h' (f :: lf) = contents h (f :: lf).
Proof.
  intros [I Ct Cf Ho Hr Ft Ff Ap Hot Hof Hfit] Hx Hy n d. unfold len_at in Hot, Hof. rewrite Hx in Hot. rewrite Hy in Hof. destruct (tot_len_range _ _ _ _ I Hx), (tot_len_range _ _ _ _ I Hy).
  assert (0 <= n) by lia. assert (length d = Z.to_nat n) as Hd by (unfold d; rewrite length_take, length_drop; pose proof (chunk_length _ _ _ _ Hr ltac:(left) Hy); lia).
  split; [destruct (Z.leb_spec (len y - off) (len x - ot)); rewrite u16_small; lia|]. split; [apply (read_part h (f :: lf)); try done; [left|lia|lia]|]. do 4 (split; [done || lia|]).
  destruct (Ho t ltac:(left)) as (x' & Hx' & Hw). rewrite Hx in Hx'. injection Hx' as <-. destruct (write_ok h R t x ot d I Hx Hw) as (h' & E & W & Ec); [lia|lia|]. exists h'. do 3 (split; [done|]). split; [by eapply wrote_inv|].
  split; [eapply (owned_contents h R h' [t]); [done|done|by eapply owned_cons|]; apply chain_nodup in Ct; apply NoDup_cons in Ct; set_solver|]. eapply apart_contents; [done|]. eapply apart_sub; [done|set_solver|done].
Qed.

Lemma chain_len_head h a x l : h.(pbufs) !! a = Some x -> chain_len h (a :: l) = x.(len) + chain_len h l.
Proof. intros Hx. rewrite chain_len_cons. unfold len_at. by rewrite Hx. Qed.

Section copy.
Variable R : gmultiset addr.

Definition copies (fuel : nat) : Prop := forall h t lt f lf ot off, copy_state R h t lt f lf ot off -> (length lt + length lf < fuel)%nat ->
  exists h', copy_loop fuel h (Some t) f ot off = Some (h', ERR_OK) /\ wrote h h' (t :: lt) /\
    contents h' (t :: lt) = splice (Z.to_nat ot) (drop (Z.to_nat off) (contents h (f :: lf))) (contents h (t :: lt)).

(** The target moves on when its pbuf is full, and there is a next one. *)
Lemma copy_continue fuel h t lt f lf ot off x : copies fuel -> copy_state R h t lt f lf ot off -> h.(pbufs) !! t = Some x -> 0 < chain_len h (f :: lf) - off ->
  (length lt + length lf < fuel \/ (ot = x.(len) /\ length lt + length lf <= fuel))%nat ->
  exists p_to ot', (if ot =? x.(len) then (x.(next), 0, negb (is_null x.(next)) || is_null (Some f)) else (Some t, ot, true)) = (p_to, ot', true) /\
    not_queue h (Some f) = true /\ not_queue h p_to = true /\
    exists h', copy_loop fuel h p_to f ot' off = Some (h', ERR_OK) /\ wrote h h' (t :: lt) /\
      contents h' (t :: lt) = splice (Z.to_nat ot) (drop (Z.to_nat off) (contents h (f :: lf))) (contents h (t :: lt)).
Proof.
  intros IH S Hx Hpos Hfuel. pose proof S as [I Ct Cf Ho Hr Ft Ff Ap Hot Hof Hfit]. pose proof (filled_not_queue _ _ _ _ I Cf Ff) as Qf. unfold len_at in Hot. rewrite Hx in Hot. destruct (Z.eqb_spec ot (len x)) as [E|E].
  - rewrite (chain_len_head _ t x) in Hfit by done. destruct lt as [|t' lt]; [change (chain_len h []) with 0 in Hfit; lia|].
    pose proof Ct as (_ & x0 & Hx0 & Ct'). rewrite Hx in Hx0. injection Hx0 as <-. pose proof Ct' as (En & x' & Hx' & _). rewrite En. cbn [is_null negb orb].
    destruct (filled_tail _ _ _ _ Ft) as [Ft' Hpos']. exists (Some t'), 0. split; [done|]. split; [done|]. rewrite En in Ct'. split; [by eapply filled_not_queue|].
    destruct (IH h t' lt f lf 0 off) as (h' & Ec & W & Es).
    + split; try done; [by eapply owned_cons|eapply apart_sub; [done|set_solver|done]|lia|lia].
    + cbn in Hfuel. lia.
    + exists h'. split; [done|]. split; [destruct W as [Wp Wo Ws]; split; [done| |done]; intros b Hb; apply Wo; set_solver|]. rewrite !(contents_cons _ t).
      assert (contents h' [t] = contents h [t]) as Ect.
      { eapply owned_contents; [done|done|intros a Ha; apply Ho; set_solver|]. intros a ->%list_elem_of_singleton. apply chain_nodup in Ct. by apply NoDup_cons in Ct as [? _]. }
      rewrite !contents_cons in Ect. cbn in Ect. rewrite !app_nil_r in Ect. rewrite Ect, Es, <- splice_app_r. f_equal. pose proof (chunk_length _ _ _ _ (owned_readable _ _ _ I Ho) ltac:(left) Hx). lia.
  - exists (Some t), ot. split; [done|]. split; [done|]. split; [by eapply filled_not_queue|]. apply IH; [done|lia].
Qed.

Lemma copy_loop_spec fuel : copies fuel.
Proof.
  induction fuel as [|fuel IH]; intros h t lt f lf ot off S Hf; [lia|]. pose proof S as [I Ct Cf Ho Hr Ft Ff Ap Hot Hof Hfit]. pose proof Ct as (_ & x & Hx & Ct'). pose proof Cf as (_ & y & Hy & Cf').
  cbn [copy_loop]. rewrite Hx, Hy. destruct (copy_round _ _ _ _ _ _ _ _ x y S Hx Hy) as (-> & -> & Hd & Hn & Hn1 & Hn2 & h1 & -> & W & Ec & I1 & Elt & Elf). set (n := Z.min _ _) in *. set (d := take _ _) in *.
  rewrite !u16_small by lia. unfold len_at in Hot, Hof. rewrite Hx in Hot. rewrite Hy in Hof. rewrite !(proj2 (Z.leb_le _ _)) by lia. pose proof (chunk_length _ _ _ _ Hr ltac:(left) Hy) as Lf.
  pose proof (chunk_length _ _ _ _ (owned_readable _ _ _ I Ho) ltac:(left) Hx) as Lt.
  assert (contents h1 (t :: lt) = splice (Z.to_nat ot) d (contents h (t :: lt))) as EC by (rewrite !contents_cons, Ec, Elt; symmetry; apply splice_app_l; lia).
  assert (pbufs h1 !! t = Some x) as Hx1 by by rewrite (w_pbufs _ _ _ W).
  (* what is left to copy, and the state for the next round *)
  assert (forall S1 h', drop (Z.to_nat off) (contents h (f :: lf)) = d ++ S1 -> contents h' (t :: lt) = splice (Z.to_nat (ot + n)) S1 (contents h1 (t :: lt)) ->
    contents h' (t :: lt) = splice (Z.to_nat ot) (drop (Z.to_nat off) (contents h (f :: lf))) (contents h (t :: lt))) as Hfin.
  { intros S1 h' -> ->. rewrite EC. replace (Z.to_nat (ot + n)) with (Z.to_nat ot + length d)%nat by lia. apply splice_splice. rewrite contents_cons, length_app. lia. }
  assert (forall f' lf' off', chain h (Some f') (f' :: lf') -> (forall a, a ∈ f' :: lf' -> a ∈ f :: lf) -> filled h (f' :: lf') = true -> 0 <= off' <= len_at h f' ->
    chain_len h (f' :: lf') - off' = chain_len h (f :: lf) - off - n -> copy_state R h1 t lt f' lf' (ot + n) off') as Hst.
  { intros f' lf' off' C' Hsub F' Ho' El. rewrite <- (wrote_filled _ _ _ _ W) in F'. split; try done.
    - by eapply wrote_chain.
    - by eapply wrote_chain.
    - by eapply owned_wrote.
    - eapply wrote_readable; [done|]. intros a Ha. apply Hr. by apply Hsub.
    - by rewrite (wrote_filled _ _ _ _ W).
    - eapply apart_wrote; [done|]. by eapply apart_sub.
    - unfold len_at. rewrite Hx1. lia.
    - unfold len_at in *. by rewrite (w_pbufs _ _ _ W).
    - rewrite !(wrote_len _ _ _ _ W). lia. }
  assert (forall h' l, wrote h1 h' l -> (forall a, a ∈ l -> a ∈ t :: lt) -> wrote h h' (t :: lt)) as Hw by (intros h' l W' Hl; eapply wrote_both; [done|done|set_solver]).
  rewrite (chain_len_head _ t x), (chain_len_head _ f y) in Hfit by done. destruct (Z.leb_spec (len y) (off + n)) as [Hdone|Hmore].
  - assert (drop (Z.to_nat off) (contents h (f :: lf)) = d ++ contents h lf) as ES.
    { rewrite contents_cons, drop_app_le by lia. f_equal. unfold d. rewrite take_ge; [done|]. rewrite length_drop. lia. }
    destruct lf as [|f' lf].
    + cbn in Cf'. rewrite Cf'. assert (exists p_to ot', (if ot + n =? len x then (next x, 0, negb (is_null (next x)) || is_null None) else (Some t, ot + n, true)) = (p_to, ot', true) /\
        not_queue h1 p_to = true) as (p_to & ot' & -> & Q).
      { destruct (ot + n =? len x); eexists _, _; (split; [cbn [is_null]; by rewrite ?orb_true_r|]).
        - destruct lt as [|t' lt]; [by rewrite Ct'|]. pose proof Ct' as (En & _). rewrite En in *. destruct (filled_tail _ _ _ _ Ft) as [Ft' _]. eapply filled_not_queue; [done|by eapply wrote_chain|by rewrite (wrote_filled _ _ _ _ W)].
        - eapply filled_not_queue; [done|by eapply wrote_chain|by rewrite (wrote_filled _ _ _ _ W)]. }
      rewrite Q. cbn [not_queue]. exists h1. split; [done|]. split; [eapply (Hw h1 []); [apply wrote_none|set_solver]|]. eapply Hfin; [done|]. by rewrite splice_nil.
    + pose proof Cf' as (En & y' & Hy' & _). rewrite En in *. destruct (filled_tail _ _ _ _ Ff) as [Ff' Hpos]. unfold len_at in Hpos. rewrite Hy' in Hpos.
      pose proof (chain_len_nonneg h R lf (next y') I ltac:(by destruct Cf' as (_ & y0 & Hy0 & ?); rewrite Hy' in Hy0; injection Hy0 as <-)).
      destruct (copy_continue fuel h1 t lt f' lf (ot + n) 0 x IH) as (p_to & ot' & -> & -> & -> & h' & Ec' & W' & Es).
      * apply Hst; [done|set_solver|done|unfold len_at; rewrite Hy'; lia|]. rewrite (chain_len_head _ f y) by done. lia.
      * done.
      * rewrite (wrote_len _ _ _ _ W), (chain_len_head _ f' y') by done. lia.
      * cbn in Hf. lia.
      * exists h'. split; [done|]. split; [by eapply Hw|]. eapply Hfin; [done|]. rewrite Es, drop_0. f_equal. eapply apart_contents; [done|]. eapply apart_sub; [exact Ap|set_solver|set_solver].
  - destruct (copy_continue fuel h1 t lt f lf (ot + n) (off + n) x IH) as (p_to & ot' & -> & -> & -> & h' & Ec' & W' & Es).
    + apply Hst; [done|done|done|unfold len_at; rewrite Hy; lia|]. lia.
    + done.
    + rewrite (wrote_len _ _ _ _ W), (chain_len_head _ f y) by done. pose proof (chain_len_nonneg h R lf (next y) I Cf'). lia.
    + lia.
    + exists h'. split; [done|]. split; [by eapply Hw|]. eapply Hfin; [|exact Es].
      rewrite Elf, Z2Nat.inj_add, <- drop_drop by lia. rewrite contents_cons, drop_app_le, drop_app_le by (rewrite ?length_drop; lia). rewrite app_assoc. f_equal. unfold d. symmetry. apply take_drop.
Qed.
End copy.

(** [pbuf_copy] copies the whole payload of one chain to the front of another. *)
Lemma copy_ok h R t lt f lf : inv h R -> chain h (Some t) lt -> chain h (Some f) lf -> owned h lt -> readable h lf -> filled h lt = true -> filled h lf = true -> apart h lt lf -> chain_len h lf <= chain_len h lt ->
  exists h', pbuf_copy h (Some t) (Some f) = Some (h', ERR_OK) /\ wrote h h' lt /\ contents h' lt = splice 0 (contents h lf) (contents h lt).
Proof.
  intros I Ct Cf Ho Hr Ft Ff Ap Hl. pose proof (chain_size _ _ _ Ct). pose proof (chain_size _ _ _ Cf). destruct lt as [|t' lt]; [done|]. destruct lf as [|f' lf]; [done|]. pose proof Ct as (E & x & Hx & _). injection E as <-. pose proof Cf as (E & y & Hy & _). injection E as <-.
  pose proof (tail_len_chain _ _ (i_sized _ _ I) _ Ct) as Et. cbn [tail_len] in Et. rewrite Hx in Et. pose proof (tail_len_chain _ _ (i_sized _ _ I) _ Cf) as Ef. cbn [tail_len] in Ef. rewrite Hy in Ef.
  unfold pbuf_copy. rewrite Hx, Hy, (proj2 (Z.leb_le _ _)) by lia. destruct (tot_len_range _ _ _ _ I Hx), (tot_len_range _ _ _ _ I Hy). destruct (copy_loop_spec R (2 * fuel h) h t lt f lf 0 0) as (h' & E & W & Ec).
  - split; try done; [unfold len_at; rewrite Hx; lia|unfold len_at; rewrite Hy; lia|lia].
  - unfold fuel. cbn in *. lia.
  - exists h'. split; [done|]. split; [done|]. by rewrite Ec, drop_0.
Qed.

(** Allocating leaves the chains that are there as they are. *)
Lemma extends_chain h h' p l : extends h h' -> chain h p l -> chain h' p l /\ chain_len h' l = chain_len h l.
Proof.
  intros E C. assert (forall a, a ∈ l -> pbufs h' !! a = pbufs h !! a) as Hold by (intros a Ha; destruct (chain_in _ _ _ _ C Ha) as [y Hy]; rewrite Hy; by apply (e_pbuf _ _ E)).
  split; [eapply chain_ext; [|done]; intros a Ha; unfold nexts; by rewrite !lookup_fmap, Hold|]. clear C. induction l as [|a l IH]; [done|]. rewrite !chain_len_cons, IH by (intros b Hb; apply Hold; by right). unfold len_at. by rewrite Hold by left.
Qed.

Lemma extends_contents h h' l : extends h h' -> readable h l -> readable h' l /\ contents h' l = contents h l.
Proof.
  intros E Hr. assert (forall a, a ∈ l -> exists x d, pbufs h' !! a = Some x /\ read h' x 0 (len x) = Some d /\ chunk h' a = chunk h a) as H.
  { intros a Ha. destruct (readable_chunk _ _ _ Hr Ha) as (x & b & o & m & Hx & Hp & Hb & ? & ? & ? & ->). exists x, (take (Z.to_nat (len x)) (drop (Z.to_nat o) m)). unfold chunk. rewrite (e_pbuf _ _ E a x Hx). split; [done|].
    unfold read. rewrite Hp, (e_block _ _ E b m Hb), Z.add_0_r. rewrite !(proj2 (Z.leb_le _ _)) by lia. done. }
  split; [intros a Ha; destruct (H a Ha) as (x & d & ? & ? & _); by exists x, d|]. clear Hr. induction l as [|a l IH]; [done|]. rewrite !contents_cons, IH by (intros b Hb; apply H; by right). destruct (H a ltac:(left)) as (_ & _ & _ & _ & ->). done.
Qed.

Lemma forallb_ext' {A} (f g : A -> bool) l : (forall a, a ∈ l -> f a = g a) -> forallb f l = forallb g l.
Proof. induction l as [|a l IH]; intros H; [done|]. cbn. rewrite H, IH by (left || intros b Hb; apply H; by right). done. Qed.

(** What somebody else holds stays when a pbuf is freed. *)
Lemma free_keeps h p R q y : inv h (R ⊎ {[+ p +]}) -> h.(pbufs) !! q = Some y -> owns_memory y = true -> q ∈ R -> exists h' k c, pbuf_free h (Some p) = Some (h', k, c) /\ inv h' R /\
  (exists y', h'.(pbufs) !! q = Some y' /\ y' = set_ref y'.(ref) y) /\ chunk h' q = chunk h q /\ h'.(blocks) !! q = h.(blocks) !! q /\ (preds h q = 0%nat -> preds h' q = 0%nat).
Proof.
  intros I Hy Hw Hq. destruct (free_ok h p _ (i_counted _ _ I) (i_flags _ _ I)) as (h' & k & c & E & C' & F' & L & _). exists h', (u8 (Z.of_nat k)), c. split; [done|]. split; [split; [done|done|eapply sized_left_over; [apply (i_sized _ _ I)|done|done]]|].
  rewrite elem_of_multiplicity in Hq. destruct (c_held _ _ C' q Hq) as [y' Hy']. destruct (lo_pbuf _ _ L q y' Hy') as (y0 & Hy0 & Ey). rewrite Hy in Hy0. injection Hy0 as <-. split; [by exists y'|].
  destruct (owned_block _ _ _ _ I Hy Hw) as (o & m & Hp & Hb & _). assert (blocks h' !! q = blocks h !! q) as Eb by (destruct (lo_block _ _ L q) as [->|[_ Hn]]; [done|congruence]). split; [|split; [done|]].
  - unfold chunk. rewrite Hy', Hy, Ey. unfold read. cbn [set_ref payload len]. by rewrite Hp, Eb.
  - intros Hz. destruct (preds h' q) eqn:Ez; [done|]. destruct (preds_pos h' q ltac:(lia)) as (d & z & Hd & En). destruct (lo_pbuf _ _ L d z Hd) as (z0 & Hz0 & E0). rewrite E0 in En. pose proof (pred_counts _ _ _ _ Hz0 En). lia.
Qed.

(** A single pbuf of a chain's size gets what is in the chain. *)
Lemma copy_to_new h R p l r h1 n ms c layer : inv h R -> chain h (Some p) (p :: l) -> readable h (p :: l) -> filled h (p :: l) = true -> chain_len h (p :: l) = n -> alloc_legal h layer n PBUF_RAM ms = true ->
  pbuf_alloc h layer n PBUF_RAM ms = Some (h1, Some r, c) -> exists h2, pbuf_copy h1 (Some r) (Some p) = Some (h2, ERR_OK) /\ inv h2 (R ⊎ {[+ r +]}) /\ extends h h1 /\ wrote h1 h2 [r] /\ h.(pbufs) !! r = None /\ h.(blocks) !! r = None /\
    h1.(pbufs) !! r = Some (new_head layer r n PBUF_RAM) /\ chunk h2 r = contents h (p :: l).
Proof.
  intros I C Hr Hf Hn Hal E. destruct (alloc_ok h R layer n PBUF_RAM ms I Hal) as (h1' & r' & c' & E' & Hres). rewrite E in E'. injection E' as <- <- <-. destruct Hres as (I1 & lr & [Ex Cr Hs Hhead _ Hnew]). rewrite (Hs ltac:(done)) in *. destruct (Hnew r ltac:(left)) as (Hr0 & Hrb & xr & Hxr & Hty & _).
  pose proof (Hhead xr Hxr) as Exr. assert (next xr = None) as Enx by (destruct Cr as (_ & y & Hy & Cn); rewrite Hxr in Hy; by injection Hy as <-). rewrite Enx in Exr. change (set_next None (new_head layer r n PBUF_RAM)) with (new_head layer r n PBUF_RAM) in Exr. subst xr.
  destruct (extends_chain h h1 (Some p) _ Ex C) as [C1 Hlen]. destruct (extends_contents h h1 _ Ex Hr) as [Hr1 Ec1].
  assert (owned h1 [r]) as Ho by (intros a ->%list_elem_of_singleton; by exists (new_head layer r n PBUF_RAM)). assert (chain_len h1 [r] = n) as Elr by (rewrite (chain_len_head h1 r _ [] Hxr); cbn; lia).
  destruct (copy_ok h1 _ r [r] p (p :: l) I1 Cr C1 Ho Hr1) as (h2 & E2 & W & Ec2); [done| | |rewrite Hlen; lia|].
  { rewrite <- Hf. unfold filled. cbn [tail]. apply forallb_ext'. intros a Ha. unfold len_at. destruct (chain_in _ _ _ a C ltac:(by right)) as [y Hy]. by rewrite (e_pbuf _ _ Ex a y Hy), Hy. }
  { intros a y b o Ha Hy Hp ->%list_elem_of_singleton. destruct (readable_chunk _ _ _ Hr Ha) as (y' & b' & o' & m & Hy' & Hp' & Hb' & _). rewrite (e_pbuf _ _ Ex a y' Hy') in Hy. injection Hy as <-. rewrite Hp in Hp'. injection Hp' as <- <-. congruence. }
  exists h2. split; [done|]. split; [by eapply wrote_inv|]. do 5 (split; [done|]). assert (chunk h2 r = contents h2 [r]) as -> by (rewrite contents_cons; symmetry; apply app_nil_r). rewrite Ec2, Ec1. unfold splice. rewrite take_0, drop_ge; [by rewrite app_nil_r|].
  pose proof (contents_length _ _ Hr). pose proof (contents_length _ _ (owned_readable _ _ _ I1 Ho)). lia.
Qed.

(** [pbuf_coalesce] makes one pbuf with the payload of the chain and gives the
    chain back, or leaves everything as it is when there is no memory. *)
Lemma coalesce_ok h R p l layer ms : inv h (R ⊎ {[+ p +]}) -> chain h (Some p) l -> readable h l -> filled h l = true -> alloc_legal h layer (chain_len h l) PBUF_RAM ms = true ->
  exists h' q c, pbuf_coalesce h p layer ms = Some (h', q, c) /\ inv h' (R ⊎ {[+ q +]}) /\
    ((q = p /\ h'.(pbufs) = h.(pbufs) /\ extends h h') \/ (h.(pbufs) !! q = None /\ chain h' (Some q) [q] /\ contents h' [q] = contents h l)).
Proof.
  intros I C Hr Hf Hal. unfold pbuf_coalesce. pose proof C as C'. destruct l as [|p' l]; [done|]. destruct C' as (E & x & Hx & _). injection E as <-. rewrite Hx. destruct (next x) as [n|]; [|exists h, p, []; split; [done|]; split; [done|]; left; split; [done|]; split; [done|]; by split].
  pose proof (tail_len_chain _ _ (i_sized _ _ I) _ C) as Et. cbn [tail_len] in Et. rewrite Hx in Et. rewrite Et. set (lf := p :: l) in *.
  destruct (alloc_ok h _ layer (chain_len h lf) PBUF_RAM ms I Hal) as (h1 & r & c & E1 & Hres). rewrite E1. destruct r as [q|]; [|destruct Hres as (I1 & Ep & Ex & _); exists h1, p, c; split; [done|]; split; [done|]; by left].
  destruct (copy_to_new h _ p l q h1 _ ms c layer I C Hr Hf eq_refl Hal E1) as (h2 & -> & I2 & Ex & W & Hq0 & _ & Hxq & Ec). cbn [Z.eqb]. replace (R ⊎ {[+ p +]} ⊎ {[+ q +]}) with (R ⊎ {[+ q +]} ⊎ {[+ p +]}) in I2 by multiset_solver.
  destruct (free_keeps h2 p _ q (new_head layer q (chain_len h lf) PBUF_RAM) I2) as (h3 & k & c' & -> & I3 & Hx3 & Ec3 & _ & _); [by rewrite (w_pbufs _ _ _ W)|done|multiset_solver|]. exists h3, q, c'. split; [done|]. split; [done|]. right. split; [done|]. destruct Hx3 as (x3 & Hx3 & Ex3). split.
  - split; [done|]. exists x3. split; [done|]. by rewrite Ex3.
  - rewrite contents_cons. etrans; [apply app_nil_r|]. by rewrite Ec3, Ec.
Qed.

End PbufData.
