(* ===== verification/PbufRun.v ===== *)
(** * Packet buffers in use

    Sequences of calls to [Pbuf] by users that respect the rules of [pbuf.h]:
    only pbufs that are held are passed in, only chains that nobody else links
    to are changed, lengths stay below 2^16.  Whatever the order of the calls
    and the answers of [malloc], up to the first call of three kinds for which
    [PbufIssues] shows failures ([hazard]): nothing aborts, nothing is used
    after it was freed and nothing leaks.  Then what the operations do to
    packets. *)

From stdpp Require Import gmultiset.
From S2P Require Import Prelude LinkedList Pbuf PbufChain PbufData.
Open Scope Z_scope.
Import Pbuf PbufChain PbufData.

Module PbufRun.

(** ** Calls *)

Inductive event :=
  | EAlloc (layer : pbuf_layer) (length : Z) (type : pbuf_type) (ms : list answer)
  | ECustom (l : pbuf_layer) (length : Z) (type : pbuf_type) (p : addr) (payload_mem : option addr) (payload_mem_len : Z)
  | ESetPayload (a b : addr) (o : Z)           (* the user of a PBUF_REF or PBUF_ROM sets its payload *)
  | EMemory (b : addr) (m : option bytes)      (* memory of users comes, changes or goes *)
  | ERealloc (a : addr) (new_len : Z)
  | EHeader (a : addr) (inc : Z)
  | EFree (a : addr)
  | ERef (a : addr)
  | ECat (hd t : addr)
  | EChain (hd t : addr)
  | EDechain (a : addr)
  | ETake (a : addr) (data : bytes) (n : Z)
  | ECopy (t f : addr)
  | ECoalesce (a : addr) (layer : pbuf_layer) (ms : list answer).

Inductive action := Returned (p : option addr) | Result (r : Z) | CustomFreed (a : addr).

Fixpoint chain_of (fuel : nat) (h : heap) (p : option addr) : list addr :=
  match fuel, p with
  | S fuel, Some a => match h.(pbufs) !! a with Some x => a :: chain_of fuel h x.(next) | None => [] end
  | _, _ => []
  end.
Definition chain_at (h : heap) (a : addr) : list addr := chain_of (fuel h) h (Some a).

Definition readableb (h : heap) (l : list addr) : bool := forallb (fun a => match h.(pbufs) !! a with Some x => bool_decide (is_Some (read h x 0 x.(len))) | None => false end) l.
Definition ownedb (h : heap) (l : list addr) : bool := forallb (fun a => match h.(pbufs) !! a with Some x => owns_memory x | None => false end) l.
Definition apartb (h : heap) (lt lf : list addr) : bool := forallb (fun a => match h.(pbufs) !! a with Some x => match x.(payload) with Some (b, _) => bool_decide (b ∉ lt) | None => true end | None => true end) lf.
Definition on (h : heap) (a : addr) (f : pbuf -> bool) : bool := match h.(pbufs) !! a with Some x => f x | None => false end.

(** The references that users hold, and what they may do. *)
Definition legal (s : heap * gmultiset addr) (ev : event) : bool :=
  let '(h, R) := s in
  let may a := bool_decide (a ∈ R) in
  let joins a t := may a && bool_decide (t ∈ R) && unshared h (chain_at h a) && forallb (fun b => bool_decide (b ∉ chain_at h t)) (chain_at h a) && (chain_len h (chain_at h a) + chain_len h (chain_at h t) <? 65536) in
  match ev with
  | EAlloc layer length type ms => alloc_legal h layer length type ms
  | ECustom l length type p _ n => (0 <=? length) && (length <? 65536) && (0 <=? n) && (n <? 65536) && bool_decide (h.(pbufs) !! p = None) && (bool_decide (type = PBUF_ROM) || bool_decide (type = PBUF_REF))
  | ESetPayload a _ _ => may a && on h a (fun x => negb (owns_memory x))
  | EMemory b _ => bool_decide (h.(pbufs) !! b = None)
  | ERealloc a n => may a && unshared h (chain_at h a) && (0 <=? n)
  | EHeader a inc => may a && (preds h a =? 0)%nat && on h a (fun x => header_fits x inc)
  | EFree a => may a
  | ERef a => may a && on h a (fun x => x.(ref) <? 65535)
  | ECat a t => joins a t
  | EChain a t => joins a t && on h t (fun x => x.(ref) <? 65535)
  | EDechain a => may a && (preds h a =? 0)%nat && (length (chain_at h a) <=? 256)%nat
  | ETake a data n => may a && ownedb h (chain_at h a) && (0 <=? n) && (n <? 65536) && (n <=? Z.of_nat (length data))
  | ECopy t f => may t && may f && ownedb h (chain_at h t) && readableb h (chain_at h f) && filled h (chain_at h t) && filled h (chain_at h f) && apartb h (chain_at h t) (chain_at h f)
      && (chain_len h (chain_at h f) <=? chain_len h (chain_at h t))
  | ECoalesce a layer ms => may a && readableb h (chain_at h a) && filled h (chain_at h a) && alloc_legal h layer (chain_len h (chain_at h a)) PBUF_RAM ms
  end.

(** The calls that the rules allow and that can fail all the same: [pbuf_alloc]
    of a pool chain for which memory runs out after a first pbuf whose memory
    looked like a custom pbuf, [pbuf_dechain] of a chain of more than 256 pbufs,
    and [pbuf_copy] and [pbuf_coalesce] with an empty pbuf behind the first. *)
Definition hazard (s : heap * gmultiset addr) (ev : event) : bool :=
  let '(h, R) := s in
  match ev with
  | EAlloc layer n PBUF_POOL (m :: ms) =>
      (length (m :: ms) <? answers_needed layer n PBUF_POOL)%nat && negb (Z.land m.(old_flags) PBUF_FLAG_IS_CUSTOM =? 0)
  | EDechain a => (256 <? length (chain_at h a))%nat
  | ECopy t f => negb (filled h (chain_at h t)) || negb (filled h (chain_at h f))
  | ECoalesce a _ _ => negb (filled h (chain_at h a))
  | _ => false
  end.

(** What users may do by the rules, and what [malloc] may answer. *)
Definition allowed (s : heap * gmultiset addr) (ev : event) : bool :=
  let '(h, R) := s in
  let may a := bool_decide (a ∈ R) in
  let request length ms := (0 <=? length) && (length <? 65536) && malloc_ok h ms in
  match ev with
  | EAlloc _ length _ ms => request length ms
  | EDechain a => may a && (preds h a =? 0)%nat
  | ECopy t f => may t && may f && ownedb h (chain_at h t) && readableb h (chain_at h f) && apartb h (chain_at h t) (chain_at h f)
      && (chain_len h (chain_at h f) <=? chain_len h (chain_at h t))
  | ECoalesce a _ ms => may a && readableb h (chain_at h a) && request (chain_len h (chain_at h a)) ms
  | _ => legal s ev
  end.

Lemma allowed_legal s ev : allowed s ev = true -> hazard s ev = false -> legal s ev = true.
Proof.
  destruct s as [h R]. destruct ev as [layer n ty ms|l n ty p mem m|a b o|b m|a n|a inc|a|a|a t|a t|a|a data n|t f|a layer ms]; try done; cbn [allowed hazard legal].
  - intros Ha Hh. unfold alloc_legal. rewrite Ha. cbn [andb]. destruct ty; try done. destruct ms as [|m ms]; [done|]. unfold answers_needed in Hh. cbn [length] in Hh.
    destruct (Nat.leb_spec (pool_pbufs (n - Z.min n (pool_room layer))) (length ms)); [done|]. cbn [orb]. rewrite (proj2 (Nat.ltb_lt _ _)) in Hh by lia. by apply negb_false_iff in Hh.
  - intros -> Hh. cbn [andb]. apply Nat.ltb_ge in Hh. by apply Nat.leb_le.
  - rewrite !andb_true_iff, orb_false_iff, !negb_false_iff. tauto.
  - rewrite !andb_true_iff, negb_false_iff. intros ((Hm & Hr) & Hq) ->. unfold alloc_legal. rewrite !andb_true_iff. tauto.
Qed.

Definition gained (r : option addr) (R : gmultiset addr) : gmultiset addr := match r with Some a => R ⊎ {[+ a +]} | None => R end.
Definition freed_by (c : list addr) : list action := map CustomFreed c.

Definition step (s : heap * gmultiset addr) (ev : event) : option (heap * gmultiset addr * list action) :=
  let '(h, R) := s in
  match ev with
  | EAlloc layer length type ms => LET (h, r, c) <- pbuf_alloc h layer length type ms in Some (h, gained r R, Returned r :: freed_by c)
  | ECustom l length type p mem n => let '(h, r) := pbuf_alloced_custom h l length type p mem n in Some (h, gained r R, [Returned r])
  | ESetPayload a b o => LET x <- h.(pbufs) !! a in Some (put a (set_payload (Some (b, o)) x) h, R, [])
  | EMemory b m => Some (MkHeap h.(pbufs) (partial_alter (fun _ => m) b h.(blocks)), R, [])
  | ERealloc a n => LET (h, c) <- pbuf_realloc h (Some a) n in Some (h, R, freed_by c)
  | EHeader a inc => LET (h, r) <- pbuf_header h (Some a) inc in Some (h, R, [Result r])
  | EFree a => LET (h, r, c) <- pbuf_free h (Some a) in Some (h, R ∖ {[+ a +]}, Result r :: freed_by c)
  | ERef a => LET h <- pbuf_ref h (Some a) in Some (h, R ⊎ {[+ a +]}, [])
  | ECat a t => LET h <- pbuf_cat h (Some a) (Some t) in Some (h, R ∖ {[+ t +]}, [])
  | EChain a t => LET h <- pbuf_chain h (Some a) (Some t) in Some (h, R, [])
  | EDechain a => LET (h, r, c) <- pbuf_dechain h a in Some (h, R, Returned r :: freed_by c)
  | ETake a data n => LET (h, r) <- pbuf_take h (Some a) (Some data) n in Some (h, R, [Result r])
  | ECopy t f => LET (h, r) <- pbuf_copy h (Some t) (Some f) in Some (h, R, [Result r])
  | ECoalesce a layer ms => LET (h, q, c) <- pbuf_coalesce h a layer ms in Some (h, R ∖ {[+ a +]} ⊎ {[+ q +]}, Returned (Some q) :: freed_by c)
  end.

Definition empty_heap : heap := MkHeap ∅ ∅.

(** ** The predicates above as propositions *)

Lemma chain_of_ok h l : forall fuel p, chain h p l -> (length l <= fuel)%nat -> chain_of fuel h p = l.
Proof.
  induction l as [|a l IH]; intros fuel p C Hf; [cbn in C; subst p; by destruct fuel|]. destruct C as (-> & x & Hx & C). destruct fuel as [|fuel]; [cbn in Hf; lia|]. cbn. rewrite Hx. f_equal. apply IH; [done|cbn in Hf; lia].
Qed.

Lemma chain_at_ok h R a : counted h R -> a ∈ R -> chain h (Some a) (chain_at h a) /\ exists x, h.(pbufs) !! a = Some x.
Proof.
  intros C Ha. rewrite elem_of_multiplicity in Ha. destruct (c_held _ _ C a Ha) as [x Hx]. destruct (c_chain _ _ C a) as [l Cl]; [by eexists|]. split; [|by exists x].
  unfold chain_at. by rewrite (chain_of_ok h l) by (done || pose proof (chain_size _ _ _ Cl); unfold fuel; lia).
Qed.

Lemma readableb_ok h l : readableb h l = true -> readable h l.
Proof. unfold readableb. rewrite forallb_forall. intros H a Ha. specialize (H a (proj1 (list_elem_of_In _ _) Ha)). destruct (pbufs h !! a) as [x|]; [|done]. apply bool_decide_eq_true in H. destruct H as [d Hd]. by exists x, d. Qed.
Lemma ownedb_ok h l : ownedb h l = true -> owned h l.
Proof. unfold ownedb. rewrite forallb_forall. intros H a Ha. specialize (H a (proj1 (list_elem_of_In _ _) Ha)). destruct (pbufs h !! a) as [x|]; [|done]. by exists x. Qed.
Lemma apartb_ok h lt lf : apartb h lt lf = true -> apart h lt lf.
Proof. unfold apartb. rewrite forallb_forall. intros H a x b o Ha Hx Hp. specialize (H a (proj1 (list_elem_of_In _ _) Ha)). rewrite Hx, Hp in H. by apply bool_decide_eq_true in H. Qed.

Lemma held_split (R : gmultiset addr) a : a ∈ R -> R = R ∖ {[+ a +]} ⊎ {[+ a +]}.
Proof. intros Ha. multiset_solver. Qed.

(** ** Every call keeps the invariant *)

Lemma custom_ok h R l n ty p mem m : inv h R -> legal (h, R) (ECustom l n ty p mem m) = true -> exists h' r, pbuf_alloced_custom h l n ty p mem m = (h', r) /\ inv h' (gained r R).
Proof.
  intros I Hl. cbn in Hl. to_prop. match goal with H : bool_decide (_ = None) = true |- _ => apply bool_decide_eq_true in H; rename H into Hp end. match goal with H : _ \/ _ |- _ => rename H into Hty end. rewrite !bool_decide_eq_true in Hty.
  unfold pbuf_alloced_custom. destruct (_ <? _); [by exists h, None|]. eexists _, _. split; [done|]. destruct I as [C F S]. set (x := MkPbuf _ _ _ _ _ _ _ _). cbn [gained]. assert (h = MkHeap (pbufs h) (blocks h)) as Eh by by destruct h. split.
  - rewrite Eh. apply counted_new; try done. split; [cbn; lia|]. by destruct Hty as [-> | ->].
  - intros b y. destruct (decide (p = b)) as [<-|Hne]; [rewrite put_eq; by intros [= <-]|]. rewrite put_ne by done. apply F.
  - intros b y. destruct (decide (p = b)) as [<-|Hne]; [rewrite put_eq; intros [= <-]; cbn; lia|]. rewrite put_ne by done. intros Hy. destruct (S b y Hy) as [Es ?]. split; [|done]. rewrite Es. f_equal.
    destruct (next y) as [c|] eqn:Ey; [|done]. cbn [tail_len]. destruct (next_in _ _ _ _ _ C Hy Ey) as [[z Hz] _]. rewrite put_ne; [done|]. intros ->. congruence.
Qed.

Lemma set_payload_ok h R a x b o : inv h R -> h.(pbufs) !! a = Some x -> owns_memory x = false -> inv (put a (set_payload (Some (b, o)) x) h) R.
Proof.
  intros [C F S] Hx Ho. pose proof (c_ref _ _ C a x Hx) as [Er ?]. destruct (c_mem _ _ C a x Hx) as [Hl _]. destruct (S a x Hx). split.
  - eapply counted_update; [done|done|done|done|done|done|]. split; [done|]. unfold owns_memory in *. cbn. congruence.
  - by eapply flags_put.
  - eapply sized_put; [done|done|by left|by apply (next_not_self h R a x)|done|done].
Qed.

Lemma memory_ok h R b m : inv h R -> h.(pbufs) !! b = None -> inv (MkHeap h.(pbufs) (partial_alter (fun _ => m) b h.(blocks))) R.
Proof.
  intros [[Cr Ch Cc Cm] F S] Hb. split; [split|done|done]; try done.
  - intros a Ha. destruct (Cc a Ha) as [l Cl]. exists l. by eapply (chain_nexts h).
  - intros a x Hx. cbn in Hx. destruct (Cm a x Hx) as [Hl Ho]. split; [done|]. cbn. rewrite lookup_partial_alter_ne; [done|]. intros ->. congruence.
Qed.

Lemma joins_ok h R a t : inv h R -> legal (h, R) (ECat a t) = true -> exists h', pbuf_cat h (Some a) (Some t) = Some h' /\ inv h' (R ∖ {[+ t +]}) /\ chain h' (Some a) (chain_at h a ++ chain_at h t) /\ h'.(blocks) = h.(blocks) /\
  exists y, h.(pbufs) !! t = Some y /\ forall b, h'.(pbufs) !! b = if decide (b ∈ chain_at h a) then grown y.(tot_len) t <$> h.(pbufs) !! b else h.(pbufs) !! b.
Proof.
  intros I Hl. cbn [legal] in Hl. to_prop. repeat match goal with H : bool_decide (_ ∈ _) = true |- _ => apply bool_decide_eq_true in H end. match goal with H : forallb _ _ = true |- _ => rewrite forallb_forall in H; rename H into Hd end.
  match goal with H : a ∈ R |- _ => rename H into Ha end. match goal with H : t ∈ R |- _ => rename H into Ht end.
  destruct (chain_at_ok _ _ _ (i_counted _ _ I) Ha) as (Ca & x & Hx). destruct (chain_at_ok _ _ _ (i_counted _ _ I) Ht) as (Ct & y & Hy).
  pose proof (tail_len_chain _ _ (i_sized _ _ I) _ Ca) as Ea. pose proof (tail_len_chain _ _ (i_sized _ _ I) _ Ct) as Et. cbn [tail_len] in *. rewrite Hx in Ea. rewrite Hy in Et.
  rewrite (held_split R t Ht) in I. destruct (cat_ok h (R ∖ {[+ t +]}) a (chain_at h a) t (chain_at h t) x y I Ca ltac:(done) Ct) as (h' & E & I' & C' & Hb & Hs); [|done|done|lia|].
  - intros b Hb. pose proof (Hd b (proj1 (list_elem_of_In _ _) Hb)) as H'. by apply bool_decide_eq_true in H'.
  - exists h'. do 4 (split; [done|]). by exists y.
Qed.

Lemma pbuf_step_ok h R ev : inv h R -> legal (h, R) ev = true -> exists h' R' acts, step (h, R) ev = Some (h', R', acts) /\ inv h' R'.
Proof.
  intros I Hl. destruct ev as [layer n ty ms|l n ty p mem m|a b o|b m|a n|a inc|a|a|a t|a t|a|a data n|t f|a layer ms].
  - destruct (alloc_ok h R layer n ty ms I Hl) as (h' & r & c & E & Hr). cbn [step]. rewrite E. eexists _, _, _. split; [done|]. destruct r; tauto.
  - destruct (custom_ok h R l n ty p mem m I Hl) as (h' & r & E & I'). cbn [step]. rewrite E. by eexists _, _, _.
  - cbn [legal step] in *. unfold on in Hl. to_prop. destruct (pbufs h !! a) as [x|] eqn:Hx; [|done]. to_prop. eexists _, _, _. split; [done|]. by apply set_payload_ok.
  - cbn [legal step] in *. apply bool_decide_eq_true in Hl. eexists _, _, _. split; [done|]. by apply memory_ok.
  - cbn [legal step] in *. to_prop. match goal with H : bool_decide _ = true |- _ => apply bool_decide_eq_true in H; rename H into Ha end. destruct (chain_at_ok _ _ _ (i_counted _ _ I) Ha) as (Ca & x & Hx).
    destruct (realloc_ok h R a x _ n I Ca ltac:(done) Hx ltac:(done)) as (h' & c & -> & I' & _). by eexists _, _, _.
  - cbn [legal step] in *. unfold on in Hl. to_prop. destruct (pbufs h !! a) as [x|] eqn:Hx; [|done]. destruct (header_ok h R a x inc I Hx ltac:(done) ltac:(done)) as (h' & r & -> & I' & _). by eexists _, _, _.
  - cbn [legal step] in *. apply bool_decide_eq_true in Hl. rewrite (held_split R a Hl) in I. destruct I as [C F S]. destruct (free_ok h a _ C F) as (h' & k & c & -> & C' & F' & L & _). eexists _, _, _. split; [done|].
    split; [done|done|by eapply sized_left_over].
  - cbn [legal step] in *. unfold on in Hl. to_prop. destruct (pbufs h !! a) as [x|] eqn:Hx; [|done]. to_prop. destruct (ref_ok h R a x I Hx ltac:(done)) as [-> I']. by eexists _, _, _.
  - destruct (joins_ok h R a t I Hl) as (h' & E & I' & _). cbn [step]. rewrite E. by eexists _, _, _.
  - cbn [legal] in Hl. apply andb_true_iff in Hl. destruct Hl as [Hl Hr]. assert (t ∈ R) as Ht by (to_prop; by match goal with H : bool_decide (t ∈ R) = true |- _ => apply bool_decide_eq_true in H end).
    destruct (joins_ok h R a t I Hl) as (h' & E & I' & _ & _ & y & Hy & Hs). cbn [step]. unfold pbuf_chain. rewrite E. unfold on in Hr. rewrite Hy in Hr. to_prop.
    assert (exists y', pbufs h' !! t = Some y' /\ ref y' = ref y) as (y' & Hy' & Er). { rewrite Hs, Hy. destruct (decide _); [|by eexists]. eexists. split; [done|]. unfold grown. by destruct (next y). }
    destruct (ref_ok h' _ t y' I' Hy' ltac:(lia)) as [-> I2]. rewrite <- (held_split R t Ht) in I2. by eexists _, _, _.
  - cbn [legal step] in *. to_prop. match goal with H : bool_decide _ = true |- _ => apply bool_decide_eq_true in H; rename H into Ha end. destruct (chain_at_ok _ _ _ (i_counted _ _ I) Ha) as (Ca & x & Hx).
    destruct (dechain_ok h R a x _ I Hx ltac:(done) Ca ltac:(done)) as (h' & c & -> & I' & _). by eexists _, _, _.
  - cbn [legal step] in *. to_prop. match goal with H : bool_decide _ = true |- _ => apply bool_decide_eq_true in H; rename H into Ha end. match goal with H : ownedb _ _ = true |- _ => apply ownedb_ok in H; rename H into Ho end.
    destruct (chain_at_ok _ _ _ (i_counted _ _ I) Ha) as (Ca & x & Hx). pose proof (take_ok h R a _ data n I Ca Ho ltac:(lia) ltac:(lia)) as Ht. destruct (_ <? n); [rewrite Ht; by eexists _, _, _|].
    destruct Ht as (h' & -> & W & _). eexists _, _, _. split; [done|]. by eapply wrote_inv.
  - cbn [legal step] in *. to_prop. repeat match goal with H : bool_decide _ = true |- _ => apply bool_decide_eq_true in H end. match goal with H : t ∈ R |- _ => rename H into Ht end. match goal with H : f ∈ R |- _ => rename H into Hf end.
    destruct (chain_at_ok _ _ _ (i_counted _ _ I) Ht) as (Ct & _). destruct (chain_at_ok _ _ _ (i_counted _ _ I) Hf) as (Cf & _).
    destruct (copy_ok h R t _ f _ I Ct Cf) as (h' & -> & W & _); [by apply ownedb_ok|by apply readableb_ok|done|done|by apply apartb_ok|done|]. eexists _, _, _. split; [done|]. by eapply wrote_inv.
  - cbn [legal step] in *. to_prop. match goal with H : bool_decide _ = true |- _ => apply bool_decide_eq_true in H; rename H into Ha end. destruct (chain_at_ok _ _ _ (i_counted _ _ I) Ha) as (Ca & _). rewrite (held_split R a Ha) in I.
    destruct (coalesce_ok h _ a _ layer ms I Ca) as (h' & q & c & -> & I' & _); [by apply readableb_ok|done|done|]. by eexists _, _, _.
Qed.

Lemma empty_inv : inv empty_heap ∅.
Proof.
  assert (forall a, pbufs empty_heap !! a = None) as H by apply lookup_empty.
  split; [split|..]; intros a; rewrite ?H; try done. rewrite multiplicity_empty. lia.
Qed.

(** A state that is reached by calls. *)
Definition reached (h : heap) (R : gmultiset addr) : Prop := exists evs acts, machine_run legal step (empty_heap, ∅) evs = Some (h, R, acts).

Lemma pbuf_run_ok evs : exists h R acts, machine_run legal step (empty_heap, ∅) evs = Some (h, R, acts) /\ inv h R.
Proof.
  destruct (machine_invariant legal step (fun s _ => inv s.1 s.2)) with (evs := evs) (s := (empty_heap, ∅ : gmultiset addr)) (h := @nil action) as ([h R] & acts & E & I).
  - intros [h R] hist ev I Hl. destruct (pbuf_step_ok h R ev I Hl) as (h' & R' & acts & E & I'). by exists (h', R'), acts.
  - apply empty_inv.
  - by exists h, R, acts.
Qed.

Lemma reached_inv h R : reached h R -> inv h R.
Proof. intros (evs & acts & E). destruct (pbuf_run_ok evs) as (h' & R' & acts' & E' & I). rewrite E in E'. by injection E' as <- <- _. Qed.

(** What the counts, lengths and payloads are, and who holds what. *)
Definition in_order (h : heap) (R : gmultiset addr) : Prop :=
  (forall a x, h.(pbufs) !! a = Some x -> x.(ref) = Z.of_nat (multiplicity a R + preds h a) /\ x.(tot_len) = chain_len h (chain_at h a) /\
    (owns_memory x = true -> exists o m, x.(payload) = Some (a, o) /\ h.(blocks) !! a = Some m /\ 0 <= o /\ o + x.(len) <= Z.of_nat (length m)) /\
    exists r, r ∈ R /\ a ∈ chain_at h r) /\
  (R = ∅ -> h.(pbufs) = ∅).

Lemma inv_in_order h R : inv h R -> in_order h R.
Proof.
  intros I. pose proof I as [C F S].
  assert (forall a x, pbufs h !! a = Some x -> exists r, r ∈ R /\ a ∈ chain_at h r) as Hreach.
  { intros a x Hx. destruct (c_chain _ _ C a) as [l Cl]; [by eexists|]. destruct (reachable h R C (Datatypes.S (size (pbufs h))) a l ltac:(lia) Cl) as (r & lr & Hr & Cr & Hin).
    rewrite <- elem_of_multiplicity in Hr. exists r. split; [done|]. destruct (chain_at_ok _ _ _ C Hr) as [Cr' _]. by rewrite (chain_unique _ _ _ _ Cr' Cr). }
  split.
  - intros a x Hx. split; [by apply (c_ref _ _ C a x)|]. split.
    + destruct (c_chain _ _ C a) as [l Cl]; [by eexists|]. pose proof (tail_len_chain _ _ S _ Cl) as Et. cbn [tail_len] in Et. rewrite Hx in Et. unfold chain_at. rewrite (chain_of_ok h l); [done|done|]. pose proof (chain_size _ _ _ Cl). unfold fuel. lia.
    + split; [|by eapply Hreach]. intros Ho. destruct (owned_block _ _ _ _ I Hx Ho) as (o & m & ? & ? & ? & ? & ?). by exists o, m.
  - intros ->. apply map_empty. intros a. destruct (pbufs h !! a) as [x|] eqn:Hx; [|done]. destruct (Hreach a x Hx) as (r & Hr & _). by apply gmultiset_not_elem_of_empty in Hr.
Qed.

(** C24: packet buffers are safe, up to the first call with a hazard.  Whatever
    calls users make that keep to the rules ([allowed]), in any order, and
    whatever [malloc] answers, the calls run through at least up to the first
    one of three kinds ([hazard]): [pbuf_alloc] of a pool chain for which
    memory runs out and whose first pbuf got memory that looked like a custom
    pbuf, [pbuf_dechain] of a chain of more than 256 pbufs, [pbuf_copy] or
    [pbuf_coalesce] of a chain with an empty pbuf behind the first one (each can
    fail, as [PbufIssues] shows).  Up to there no assertion fails and nothing is
    used after it was freed; every reference count is the number of pointers to
    the pbuf, every [tot_len] the length of the chain, every payload of a pbuf
    with memory of its own inside of that memory; every pbuf is in a chain that
    somebody holds, so nothing leaks, and when all references have been given
    back no pbuf is left. *)
Theorem pbuf_safe evs : exists ran rest h R acts, evs = ran ++ rest /\ machine_run allowed step (empty_heap, ∅) ran = Some (h, R, acts) /\ in_order h R /\
  match rest with [] => True | ev :: _ => allowed (h, R) ev = true /\ hazard (h, R) ev = true end.
Proof.
  destruct (machine_until allowed step hazard (fun s _ => inv s.1 s.2)) with (evs := evs) (s := (empty_heap, ∅ : gmultiset addr)) (h := @nil action)
    as (ran & rest & [h R] & acts & -> & E & I & Hrest).
  - intros [h R] hist ev I Hl Hh. destruct (pbuf_step_ok h R ev I (allowed_legal _ _ Hl Hh)) as (h' & R' & acts & E & I'). by exists (h', R'), acts.
  - apply empty_inv.
  - exists ran, rest, h, R, acts. do 2 (split; [done|]). split; [by apply inv_in_order|done].
Qed.

(** ** Packets *)

(** The payload of the chain that starts with [a]. *)
Definition packet (h : heap) (a : addr) : bytes := contents h (chain_at h a).

(** The pbufs of [l] have the same payload in both heaps. *)
Definition same_data (h h' : heap) (l : list addr) : Prop := forall a, a ∈ l -> exists x x', h.(pbufs) !! a = Some x /\ h'.(pbufs) !! a = Some x' /\ x'.(payload) = x.(payload) /\ x'.(len) = x.(len) /\
  forall b o, x.(payload) = Some (b, o) -> h'.(blocks) !! b = h.(blocks) !! b.

Lemma same_contents h h' l : same_data h h' l -> contents h' l = contents h l.
Proof.
  intros H. induction l as [|a l IH]; [done|]. rewrite !contents_cons, IH by (intros b Hb; apply H; by right). f_equal. destruct (H a ltac:(left)) as (x & x' & Hx & Hx' & Hp & Hl & Hb). unfold chunk. rewrite Hx, Hx'.
  unfold read. rewrite Hp, Hl. destruct (payload x) as [[b o]|] eqn:E; [|done]. by rewrite (Hb b o eq_refl).
Qed.

Lemma packet_ok h R a l : inv h R -> a ∈ R -> chain h (Some a) l -> packet h a = contents h l.
Proof. intros I Ha C. unfold packet. destruct (chain_at_ok _ _ _ (i_counted _ _ I) Ha) as [C' _]. by rewrite (chain_unique _ _ _ _ C' C). Qed.

(** What each call does to the packets it is given. *)
Definition payload_effect (h : heap) (R : gmultiset addr) (ev : event) (h' : heap) (acts : list action) : Prop :=
  match ev with
  | ERealloc a n => ownedb h (chain_at h a) = true -> packet h' a = take (Z.to_nat n) (packet h a)
  | EHeader a inc => ownedb h (chain_at h a) = true -> (acts = [Result 1] /\ 0 < inc /\ h' = h) \/ (acts = [Result 0] /\ drop (Z.to_nat inc) (packet h' a) = drop (Z.to_nat (- inc)) (packet h a))
  | ECat a t | EChain a t => packet h' a = packet h a ++ packet h t
  | ETake a data n => if chain_len h (chain_at h a) <? n then acts = [Result ERR_ARG] /\ h' = h else acts = [Result ERR_OK] /\ packet h' a = splice 0 (take (Z.to_nat n) data) (packet h a)
  | ECopy t f => acts = [Result ERR_OK] /\ packet h' t = splice 0 (packet h f) (packet h t) /\ packet h' f = packet h f
  | ECoalesce a _ _ => exists q c, acts = Returned (Some q) :: c /\ packet h' q = packet h a
  | _ => True
  end.

(** The pbufs of [h'] are those of [h] with other links, lengths and counts. *)
Definition same_payloads (h h' : heap) : Prop := h'.(blocks) = h.(blocks) /\ forall b x', h'.(pbufs) !! b = Some x' -> exists x, h.(pbufs) !! b = Some x /\ x'.(payload) = x.(payload) /\ x'.(len) = x.(len).

Lemma same_payloads_contents h h' p l : same_payloads h h' -> chain h' p l -> contents h' l = contents h l.
Proof.
  intros [Hb Hs] C. apply same_contents. intros b Hin. destruct (chain_in _ _ _ _ C Hin) as [x' Hx']. destruct (Hs b x' Hx') as (x & Hx & Hp & Hl). exists x, x'. do 4 (split; [done|]). by rewrite Hb.
Qed.

Lemma cat_effect h R a t : inv h R -> legal (h, R) (ECat a t) = true -> exists h', pbuf_cat h (Some a) (Some t) = Some h' /\ inv h' (R ∖ {[+ t +]}) /\ same_payloads h h' /\
  chain h' (Some a) (chain_at h a ++ chain_at h t) /\ contents h' (chain_at h a ++ chain_at h t) = packet h a ++ packet h t /\ exists y y', h.(pbufs) !! t = Some y /\ h'.(pbufs) !! t = Some y' /\ y'.(ref) = y.(ref).
Proof.
  intros I Hl. destruct (joins_ok h R a t I Hl) as (h' & E & I' & C' & Hb & y & Hy & Hs). exists h'. do 2 (split; [done|]).
  assert (forall z, payload (grown (tot_len y) t z) = payload z /\ len (grown (tot_len y) t z) = len z /\ ref (grown (tot_len y) t z) = ref z) as Hg by (intros z; unfold grown; by destruct (next z)).
  assert (same_payloads h h') as Sp.
  { split; [done|]. intros b x' Hx'. rewrite Hs in Hx'. destruct (decide _); [|by exists x']. destruct (pbufs h !! b) as [x|]; [|done]. injection Hx' as <-. exists x. split; [done|]. by destruct (Hg x) as (-> & -> & _). }
  split; [done|]. split; [done|]. split; [unfold packet; rewrite <- contents_app; by eapply same_payloads_contents|]. exists y. rewrite Hs, Hy. destruct (decide _); eexists; (split; [done|]); (split; [done|]); [by destruct (Hg y) as (_ & _ & ->)|done].
Qed.

Lemma joined_held h R a t : inv h R -> legal (h, R) (ECat a t) = true -> a ∈ R ∖ {[+ t +]}.
Proof.
  intros I Hl. cbn [legal] in Hl. to_prop. repeat match goal with H : bool_decide (_ ∈ _) = true |- _ => apply bool_decide_eq_true in H end. match goal with H : forallb _ _ = true |- _ => rewrite forallb_forall in H; rename H into Hd end.
  assert (a <> t); [|multiset_solver]. intros <-. match goal with H : a ∈ R |- _ => destruct (chain_at_ok _ _ _ (i_counted _ _ I) H) as [C _] end. specialize (Hd a). destruct (chain_at h a) as [|b l] eqn:E; [done|]. destruct C as ([= <-] & _).
  specialize (Hd ltac:(by left)). apply bool_decide_eq_true in Hd. set_solver.
Qed.

Lemma header_effect h R a x inc l : inv h R -> chain h (Some a) l -> owned h l -> h.(pbufs) !! a = Some x -> header_fits x inc = true -> inv (put a (moved_header inc x) h) R ->
  drop (Z.to_nat inc) (contents (put a (moved_header inc x) h) l) = drop (Z.to_nat (- inc)) (contents h l).
Proof.
  intros I C Ho Hx Hf I'. destruct l as [|a' l]; [done|]. pose proof (chain_nodup _ _ _ C) as [Hnl _]%NoDup_cons. destruct C as (E & x0 & Hx0 & C). injection E as <-. rewrite Hx in Hx0. injection Hx0 as <-.
  set (h' := put a (moved_header inc x) h) in *. assert (contents h' l = contents h l) as El.
  { apply same_contents. intros b Hb. destruct (Ho b ltac:(by right)) as (y & Hy & _). exists y, y. split; [done|]. unfold h'. rewrite put_ne by (intros ->; done). done. }
  destruct (Ho a ltac:(left)) as (x0 & Hx0 & Hw). rewrite Hx in Hx0. injection Hx0 as <-. destruct (owned_block _ _ _ _ I Hx Hw) as (o & m & Hp & Hb & ? & ? & ?).
  assert (pbufs h' !! a = Some (moved_header inc x)) as Hx' by apply put_eq. destruct (owned_block _ _ a _ I' Hx' Hw) as (o' & m' & Hp' & Hb' & ? & ? & ?). cbn in Hb'. rewrite Hb in Hb'. injection Hb' as <-.
  cbn in Hp'. rewrite Hp in Hp'. injection Hp' as Eo. change (len (moved_header inc x)) with (len x + inc) in *. unfold header_fits in Hf. to_prop. rewrite !contents_cons, El. unfold chunk. rewrite Hx, Hx'. unfold read. cbn [payload moved_header set_tot_len set_len set_payload len]. rewrite Hp. cbn [h' put blocks]. rewrite Hb, !Z.add_0_r.
  rewrite !(proj2 (Z.leb_le _ _)) by lia. cbn [andb default from_option]. unfold id. rewrite !drop_app_le by (rewrite length_take, length_drop; lia). f_equal.
  rewrite !skipn_firstn_comm, !drop_drop. f_equal; [lia|]. f_equal. lia.
Qed.

Lemma realloc_effect h R a x l n : inv h R -> a ∈ R -> chain h (Some a) l -> unshared h l = true -> owned h l -> h.(pbufs) !! a = Some x -> 0 <= n ->
  exists h' c, pbuf_realloc h (Some a) n = Some (h', c) /\ inv h' R /\ packet h' a = take (Z.to_nat n) (contents h l).
Proof.
  intros I Ha C U Ho Hx Hn. pose proof (owned_readable _ _ _ I Ho) as Hr. pose proof (contents_length _ _ Hr) as Lc. pose proof (tail_len_chain _ _ (i_sized _ _ I) _ C) as Et. cbn [tail_len] in Et. rewrite Hx in Et.
  destruct (realloc_ok h R a x l n I C U Hx Hn) as (h' & c & E & I' & [[Hle ->]|(l1 & b & xb & l2 & rem & h1 & -> & Hxb & Hrem & En & Hlt & Hb1 & Hs & C' & L)]); [exists h, c|exists h', c]; (split; [done|]); (split; [done|]).
  { rewrite (packet_ok h R a l) by done. symmetry. apply take_ge. lia. }
  rewrite (packet_ok h' R a (l1 ++ [b])) by done. apply readable_app in Hr. destruct Hr as [Hr1 Hr2]. pose proof (contents_length _ _ Hr1) as L1. rewrite !contents_app, take_app_ge by lia. pose proof (chain_nodup _ _ _ C) as Hnd. rewrite NoDup_app, NoDup_cons in Hnd. destruct Hnd as (_ & Hdis & _).
  assert (forall d z', d ∈ l1 ++ [b] -> pbufs h' !! d = Some z' -> exists z, pbufs h !! d = Some z /\ payload z' = payload z /\ len z' = (if decide (d = b) then rem else len z) /\ (forall e o, payload z = Some (e, o) -> e = d) /\ blocks h' !! d = blocks h !! d) as Hd.
  { intros d z' Hin Hz'. destruct (Ho d) as (z & Hz & Hw); [set_solver|]. exists z. split; [done|]. destruct (lo_pbuf _ _ L d z' Hz') as (z1 & Hz1 & ->). assert (blocks h' !! d = blocks h !! d) as -> by (destruct (lo_block _ _ L d) as [->|[_ ?]]; [by cbn; rewrite Hb1|congruence]).
    destruct (owned_block _ _ _ _ I Hz Hw) as (o & m & Hp & _). cbn [set_ref payload len]. destruct (decide (d = b)) as [->|Hne].
    - rewrite put_eq in Hz1. injection Hz1 as <-. rewrite Hxb in Hz. injection Hz as <-. cbn. rewrite Hp. do 2 (split; [done|]). split; [|done]. intros e o' [= <- _]. done.
    - rewrite put_ne, Hs in Hz1 by done. rewrite decide_True, Hz in Hz1 by set_solver. injection Hz1 as <-. cbn. rewrite Hp. do 2 (split; [done|]). split; [|done]. intros e o' [= <- _]. done. }
  assert (b ∉ l1) as Hbl by (intros Hin; apply (Hdis b Hin); left). f_equal.
  - apply same_contents. intros d Hin. destruct (chain_in _ _ _ d C' ltac:(set_solver)) as [z' Hz']. destruct (Hd d z' ltac:(set_solver) Hz') as (z & Hz & Hp & Hl & Hown & Hblk). rewrite decide_False in Hl by (intros ->; done).
    exists z, z'. do 4 (split; [done|]). intros e o He. by rewrite (Hown e o He).
  - destruct (chain_in _ _ _ b C' ltac:(set_solver)) as [z' Hz']. destruct (Hd b z' ltac:(set_solver) Hz') as (z & Hz & Hp & Hl & Hown & Hblk). rewrite decide_True in Hl by done. rewrite Hxb in Hz. injection Hz as <-.
    rewrite (contents_cons _ b l2), take_app_le by (pose proof (chunk_length _ _ _ _ Hr2 ltac:(left) Hxb); lia). rewrite contents_cons. cbn [contents map concat]. rewrite app_nil_r. unfold chunk. rewrite Hz', Hxb. unfold read. rewrite Hp, Hl.
    destruct (Ho b ltac:(set_solver)) as (x0 & Hx0 & Hw). rewrite Hxb in Hx0. injection Hx0 as <-. destruct (owned_block _ _ _ _ I Hxb Hw) as (o & m & Ep & Eb & ? & ? & ?). rewrite Ep, Hblk, Eb, Z.add_0_r. rewrite !(proj2 (Z.leb_le _ _)) by lia. cbn [andb default from_option]. unfold id.
    rewrite firstn_firstn. f_equal. lia.
Qed.

(** C25: what the calls do to packets, with the payload of a chain as one
    sequence of bytes.  In every state that is reached and for every call that
    is [legal] there: [pbuf_cat] and [pbuf_chain] join two packets;
    [pbuf_realloc] of a chain with memory of its own takes a prefix;
    [pbuf_header] of such a chain hides or reveals bytes in front, or fails
    without a change; [pbuf_take] overwrites the front, or, if the packet is
    shorter than the data, changes nothing and returns ERR_ARG (the
    documentation says ERR_MEM); [pbuf_copy] overwrites the front and
    [pbuf_coalesce] keeps the packet, both for chains that can be read and have
    no empty pbuf behind the first one ([filled]). *)
Theorem pbuf_payload h R ev : reached h R -> legal (h, R) ev = true -> exists h' R' acts, step (h, R) ev = Some (h', R', acts) /\ payload_effect h R ev h' acts.
Proof.
  intros I%reached_inv Hl. destruct (pbuf_step_ok _ _ _ I Hl) as (h' & R' & acts & E & I'). exists h', R', acts. split; [done|].
  assert (forall a, bool_decide (a ∈ R) = true -> a ∈ R /\ chain h (Some a) (chain_at h a) /\ exists x, h.(pbufs) !! a = Some x) as Hheld.
  { intros a Ha. apply bool_decide_eq_true in Ha. destruct (chain_at_ok _ _ _ (i_counted _ _ I) Ha). done. }
  destruct ev as [layer n ty ms|l n ty p mem m|a b o|b m|a n|a inc|a|a|a t|a t|a|a data n|t f|a layer ms]; try done.
  - cbn [legal step payload_effect] in *. to_prop. destruct (Hheld a ltac:(done)) as (Ha & Ca & x & Hx). intros Ho%ownedb_ok. destruct (realloc_effect h R a x _ n I Ha Ca ltac:(done) Ho Hx ltac:(done)) as (h2 & c & E2 & _ & Ep).
    rewrite E2 in E. injection E as <- <- <-. done.
  - cbn [legal step payload_effect] in *. to_prop. destruct (Hheld a ltac:(done)) as (Ha & Ca & x & Hx). unfold on in *. rewrite Hx in *. intros Ho%ownedb_ok.
    destruct (header_ok h R a x inc I Hx ltac:(done) ltac:(done)) as (h2 & r & E2 & I2 & Hr). rewrite E2 in E. injection E as <- <- <-. destruct Hr as [(-> & -> & ?)|(-> & -> & _)]; [by left|right]. split; [done|].
    rewrite (packet_ok _ R a (chain_at h a) I2 Ha) by (eapply chain_nexts; [|done]; by apply (nexts_same h a x)). by eapply header_effect.
  - destruct (cat_effect h R a t I Hl) as (h2 & E2 & I2 & _ & C2 & Ec & _). cbn [step payload_effect] in *. rewrite E2 in E. injection E as <- <- <-. rewrite (packet_ok _ _ a _ I2 (joined_held _ _ _ _ I Hl) C2). done.
  - cbn [legal] in Hl. apply andb_true_iff in Hl. destruct Hl as [Hl Hr]. destruct (cat_effect h R a t I Hl) as (h2 & E2 & I2 & Sp & C2 & Ec & y & y' & Hy & Hy' & Er). cbn [step payload_effect] in *. unfold pbuf_chain in E. rewrite E2 in E.
    pose proof (joined_held _ _ _ _ I Hl) as Hj. unfold on in Hr. rewrite Hy in Hr. clear Hl. to_prop. destruct (ref_ok h2 _ t y' I2 Hy' ltac:(lia)) as [E3 I3]. rewrite E3 in E. injection E as <- <- <-.
    assert (chain (put t (set_ref (ref y' + 1) y') h2) (Some a) (chain_at h a ++ chain_at h t)) as C3 by (eapply chain_nexts; [|done]; by apply (nexts_same h2 t y')).
    assert (same_payloads h2 (put t (set_ref (ref y' + 1) y') h2)) as Sp3. { split; [done|]. intros b x'. destruct (decide (t = b)) as [<-|Hne]; [rewrite put_eq; intros [= <-]; by exists y'|]. rewrite put_ne by done. intros Hx'. by exists x'. }
    assert (a ∈ R ∖ {[+ t +]} ⊎ {[+ t +]}) as Hj' by (apply gmultiset_elem_of_disj_union; by left).
    rewrite (packet_ok _ _ a _ I3 Hj' C3), (same_payloads_contents _ _ _ _ Sp3 C3). done.
  - cbn [legal step payload_effect] in *. to_prop. destruct (Hheld a ltac:(done)) as (Ha & Ca & x & Hx). match goal with H : ownedb _ _ = true |- _ => apply ownedb_ok in H; rename H into Ho end.
    pose proof (take_ok h R a _ data n I Ca Ho ltac:(lia) ltac:(lia)) as Ht. destruct (_ <? n); [rewrite Ht in E; by injection E as <- <- <-|]. destruct Ht as (h2 & E2 & W & Ec). rewrite E2 in E. injection E as <- <- <-. split; [done|].
    by rewrite (packet_ok h2 R a (chain_at h a) I' Ha (wrote_chain _ _ _ _ _ W Ca)).
  - cbn [legal step payload_effect] in *. to_prop. destruct (Hheld t ltac:(done)) as (Ht & Ct & _). destruct (Hheld f ltac:(done)) as (Hf & Cf & _). match goal with H : apartb _ _ _ = true |- _ => apply apartb_ok in H; rename H into Ap end.
    destruct (copy_ok h R t _ f _ I Ct Cf) as (h2 & E2 & W & Ec); [by apply ownedb_ok|by apply readableb_ok|done|done|done|done|]. rewrite E2 in E. injection E as <- <- <-. split; [done|]. pose proof (wrote_inv _ _ _ _ I W) as I2.
    rewrite (packet_ok _ R t (chain_at h t) I2 Ht), (packet_ok _ R f (chain_at h f) I2 Hf) by by eapply wrote_chain. split; [done|]. by eapply apart_contents.
  - cbn [legal step payload_effect] in *. to_prop. destruct (Hheld a ltac:(done)) as (Ha & Ca & _). rewrite (held_split R a Ha) in I. destruct (coalesce_ok h _ a _ layer ms I Ca) as (h2 & q & c & E2 & I2 & Hq); [by apply readableb_ok|done|done|].
    rewrite E2 in E. injection E as <- <- <-. exists q, (freed_by c). split; [done|]. assert (q ∈ R ∖ {[+ a +]} ⊎ {[+ q +]}) as Hin by multiset_solver. destruct Hq as [(-> & Ep & Ex)|(_ & Cq & Ec)]; [|by rewrite (packet_ok _ _ q [q] I2 Hin Cq)].
    destruct (extends_chain _ _ _ _ Ex Ca) as [C2 _]. rewrite (packet_ok _ _ a _ I2 Hin C2). eapply extends_contents; [done|by apply readableb_ok].
Qed.

(** Two packets: [1; 2; 3] in one pbuf and [4; 5] in another one. *)
Definition two_packets : list event :=
  [EAlloc PBUF_RAW 3 PBUF_RAM [MkAnswer 64 0 []]; EAlloc PBUF_RAW 2 PBUF_POOL [MkAnswer 4096 0 []]; ETake 64 [1; 2; 3] 3; ETake 4096 [4; 5] 2].
Definition two_packets_state : heap * gmultiset addr := match machine_run legal step (empty_heap, ∅) two_packets with Some (s, _) => s | None => (empty_heap, ∅) end.

Definition two_packets_heap : heap := fst two_packets_state.
Definition two_packets_held : gmultiset addr := snd two_packets_state.

Lemma two_packets_reached : reached two_packets_heap two_packets_held.
Proof. exists two_packets, [Returned (Some 64); Returned (Some 4096); Result 0; Result 0]. vm_compute. reflexivity. Qed.

Lemma pbuf_safe_witness : exists h R acts, machine_run allowed step (empty_heap, ∅) (two_packets ++ [ECat 64 4096; EFree 64]) = Some (h, R, acts) /\ in_order h R /\ h.(pbufs) = ∅.
Proof.
  destruct (pbuf_safe (two_packets ++ [ECat 64 4096; EFree 64])) as (ran & rest & h & R & acts & Ee & Er & Ho & Hrest).
  assert (rest = []) as ->.
  { apply (machine_clean_rest allowed step hazard ran (empty_heap, ∅) rest (h, R) acts); [rewrite <- Ee; vm_compute; reflexivity|exact Er|exact Hrest]. }
  rewrite app_nil_r in Ee. subst ran. exists h, R, acts. split; [exact Er|]. split; [exact Ho|]. apply Ho. vm_compute in Er. injection Er as <- <- <-. vm_compute. reflexivity.
Defined.

Lemma pbuf_payload_witness : legal (two_packets_heap, two_packets_held) (ECat 64 4096) = true /\ packet two_packets_heap 64 = [1; 2; 3] /\ packet two_packets_heap 4096 = [4; 5] /\
  exists h' R' acts, step (two_packets_heap, two_packets_held) (ECat 64 4096) = Some (h', R', acts) /\ payload_effect two_packets_heap two_packets_held (ECat 64 4096) h' acts.
Proof. do 3 (split; [vm_compute; reflexivity|]). apply (pbuf_payload two_packets_heap two_packets_held (ECat 64 4096) two_packets_reached). vm_compute. reflexivity. Defined.

(** ** Searching packets *)

(** Looking into packets.  In every state that is reached and for every
    packet somebody holds whose memory can be read, however it is cut into
    pbufs: [pbuf_get_at] is indexing, zero behind the end; [pbuf_memcmp] inside
    of the packet is the comparison with the bytes there, zero when they are
    equal and else the position behind the first difference; [pbuf_memfind]
    returns, and gives 0xFFFF or a place where the bytes are, for a single byte
    the first one if there is one. *)
Theorem pbuf_search h R a s2 n off : reached h R -> a ∈ R -> readableb h (chain_at h a) = true -> 0 < n <= Z.of_nat (length s2) -> 0 <= off < 65536 ->
  let t := packet h a in let s := take (Z.to_nat n) s2 in
  pbuf_get_at h (Some a) off = Some (default 0 (t !! Z.to_nat off)) /\
  (off + n <= Z.of_nat (length t) -> pbuf_memcmp h (Some a) off s2 n = Some (match first_diff (take (Z.to_nat n) (drop (Z.to_nat off) t)) s with Some j => Z.of_nat j + 1 | None => 0 end)) /\
  exists r, pbuf_memfind h a s2 n off = Some r /\
    ((r = 0xFFFF /\ (n = 1 -> forall k, off <= k < Z.of_nat (length t) -> ~ occurs s t k)) \/
     (off <= r <= Z.of_nat (length t) - n /\ occurs s t r /\ (n = 1 -> forall k, off <= k < r -> ~ occurs s t k))).
Proof.
  intros I%reached_inv Ha Hr%readableb_ok Hn Ho t s. destruct (chain_at_ok _ _ _ (i_counted _ _ I) Ha) as [C _]. pose proof (contents_length _ _ Hr) as Lc. fold (packet h a) in Lc. change (packet h a) with t in Lc. split; [by apply (get_at_ok h R)|]. split.
  - intros Hle. apply (memcmp_ok h R); try done; lia.
  - rewrite Lc. apply (memfind_ok h R); try done; lia.
Qed.

Lemma pbuf_search_witness : packet two_packets_heap 64 = [1; 2; 3] /\ pbuf_memfind two_packets_heap 64 [2; 3] 2 0 = Some 1 /\ pbuf_get_at two_packets_heap (Some 64) 1 = Some 2.
Proof.
  pose proof (pbuf_search two_packets_heap two_packets_held 64 [2; 3] 2 1 two_packets_reached) as H. split; [vm_compute; reflexivity|]. split; [vm_compute; reflexivity|].
  destruct H as [-> _]; [apply (bool_decide_eq_true_1 (64 ∈ two_packets_held)); vm_compute; reflexivity|vm_compute; reflexivity|cbn; lia|lia|vm_compute; reflexivity].
Defined.

End PbufRun.
