(* ===== verification/PbufDevice.v ===== *)
(** * Packet buffers and the device

    The pbuf in which [device_read_handler_send] of [tun2socks/tun2socks.c]
    hands a packet to lwIP: [pbuf_alloc] from the pool and [pbuf_take], on the
    heap of [Pbuf].  [Device] describes them by the sizes of the buffers of the
    chain; here is that they behave like that. *)

From stdpp Require Import gmultiset.
From S2P Require Import Prelude LinkedList Pbuf PbufChain PbufData PbufRun Device.
Open Scope Z_scope.
Import Pbuf PbufChain PbufData PbufRun.

Module PbufDevice.

(** The calls that make the pbuf; [None] for the pbuf when there is no memory. *)
Definition device_pbuf (h : heap) (data : bytes) (ms : list answer) : option (heap * option addr) :=
  let data_len := Z.of_nat (length data) in
  LET (h, p, _) <- pbuf_alloc h PBUF_RAW data_len PBUF_POOL ms in
  match p with
  | None => Some (h, None)
  | Some a =>
      LET (h, err) <- pbuf_take h (Some a) (Some data) data_len in
      ASSERT err =? ERR_OK in
      Some (h, Some a)
  end.

(** The sizes of the buffers of the chain that starts with [a]. *)
Definition sizes (h : heap) (a : addr) : list nat := map (fun b => Z.to_nat (len_at h b)) (chain_at h a).

Lemma take_chunks L : Device.pbuf_take (map length L) (concat L) = L.
Proof. induction L as [|d L IH]; [done|]. cbn [map concat Device.pbuf_take]. by rewrite take_app_length, drop_app_length, IH. Qed.

Lemma sum_chunks (L : list bytes) : sum_list (map length L) = length (concat L).
Proof. induction L as [|d L IH]; [done|]. cbn. rewrite length_app. by rewrite <- IH. Qed.

Lemma sizes_chunks h l : readable h l -> map (fun b => Z.to_nat (len_at h b)) l = map length (map (chunk h) l).
Proof.
  intros Hr. rewrite map_map. apply map_ext_in. intros b Hb%list_elem_of_In. destruct (Hr b Hb) as (x & d & Hx & _). pose proof (chunk_length _ _ _ _ Hr Hb Hx). unfold len_at. rewrite Hx. lia.
Qed.

Lemma ownedb_true h l : owned h l -> ownedb h l = true.
Proof. intros Ho. apply forallb_forall. intros a Ha%list_elem_of_In. destruct (Ho a Ha) as (x & -> & ?). done. Qed.

(** A call that is made in a reached state leads to a reached state. *)
Lemma reached_step h R ev h' R' acts : reached h R -> legal (h, R) ev = true -> step (h, R) ev = Some (h', R', acts) -> reached h' R'.
Proof.
  intros (evs & acts0 & E) Hl Es. exists (evs ++ [ev]), (acts0 ++ acts). revert E. generalize (empty_heap, ∅ : gmultiset addr). revert acts0. induction evs as [|e evs IH]; intros acts0 s E; cbn [machine_run app] in *.
  - injection E as -> <-. rewrite Hl, Es. by rewrite app_nil_r.
  - destruct (legal s e); [|by apply IH]. destruct (step s e) as [[s1 a1]|]; [|done]. destruct (machine_run legal step s1 evs) as [[s2 a2]|] eqn:E2; [|done]. injection E as -> <-. rewrite (IH _ _ E2). by rewrite app_assoc.
Qed.

(** What the new chain is before the data is in it. *)
Lemma device_alloc h R n ms : inv h R -> alloc_legal h PBUF_RAW n PBUF_POOL ms = true -> exists h' r c, pbuf_alloc h PBUF_RAW n PBUF_POOL ms = Some (h', r, c) /\ extends h h' /\
  match r with
  | None => inv h' R /\ h'.(pbufs) = h.(pbufs) /\ (length ms < answers_needed PBUF_RAW n PBUF_POOL)%nat
  | Some a => h.(pbufs) !! a = None /\ inv h' (R ⊎ {[+ a +]}) /\ chain h' (Some a) (chain_at h' a) /\ owned h' (chain_at h' a) /\ chain_len h' (chain_at h' a) = n /\ forall b, b ∈ chain_at h' a -> h.(pbufs) !! b = None /\ h.(blocks) !! b = None
  end.
Proof.
  intros I Hl. destruct (alloc_ok h R _ _ _ _ I Hl) as (h' & r & c & -> & Hr). exists h', r, c. split; [done|]. destruct r as [a|]; [|tauto]. destruct Hr as (I' & l & [Ex C _ Hhead _ Hnew]). split; [done|].
  assert (a ∈ R ⊎ {[+ a +]}) as Ha by multiset_solver. destruct (chain_at_ok _ _ _ (i_counted _ _ I') Ha) as (C' & x & Hx). rewrite (chain_unique _ _ _ _ C' C) in *.
  split; [apply (Hnew a); destruct l; [done|]; destruct C as ([= <-] & _); left|]. do 2 (split; [done|]). split; [intros b Hb; destruct (Hnew b Hb) as (_ & _ & y & Hy & Ety & _); exists y; split; [done|]; unfold owns_memory; by rewrite Ety|].
  split; [|intros b Hb; destruct (Hnew b Hb) as (? & ? & _); done]. pose proof (tail_len_chain _ _ (i_sized _ _ I') _ C) as Et. cbn [tail_len] in Et. rewrite Hx, (Hhead x Hx) in Et. done.
Qed.

(** The chain with the data in it. *)
Lemma device_chain h R data ms : inv h R -> Z.of_nat (length data) < 65536 -> alloc_legal h PBUF_RAW (Z.of_nat (length data)) PBUF_POOL ms = true ->
  exists h' p, device_pbuf h data ms = Some (h', p) /\
  match p with
  | None => inv h' R
  | Some a => inv h' (R ⊎ {[+ a +]}) /\ multiplicity a (R ⊎ {[+ a +]}) = 1%nat /\ exists l x, chain h' (Some a) l /\ owned h' l /\ filled h' l = true /\ unshared h' l = true /\ contents h' l = data /\ h'.(pbufs) !! a = Some x /\ x.(payload) = Some (a, 0) /\ x.(len) = Z.min (Z.of_nat (length data)) 1516
  end.
Proof.
  intros I Hn Hl. unfold device_pbuf. destruct (alloc_ok h R _ _ _ _ I Hl) as (h1 & r & c & -> & Hr). destruct r as [a|]; [|destruct Hr as (I1 & _); by exists h1, None].
  destruct Hr as (I1 & l & A). pose proof (alloc_unshared _ _ _ _ _ _ _ _ I A) as U. destruct A as [_ C _ Hhead _ Hnew].
  assert (owned h1 l) as Ho by (intros b Hb; destruct (Hnew b Hb) as (_ & _ & y & Hy & Ety & _); exists y; split; [done|]; unfold owns_memory; by rewrite Ety). pose proof C as C'. destruct l as [|a' l]; [done|]. destruct C' as ([= <-] & x & Hx & _).
  pose proof (Hhead x Hx) as Eh. pose proof (tail_len_chain _ _ (i_sized _ _ I1) _ C) as Et. cbn [tail_len] in Et. rewrite Hx in Et. assert (chain_len h1 (a :: l) = Z.of_nat (length data)) as Hlen by (rewrite <- Et, Eh; done).
  pose proof (take_ok h1 _ a _ data (Z.of_nat (length data)) I1 C Ho ltac:(lia) ltac:(lia)) as Ht. rewrite Hlen, Z.ltb_irrefl in Ht. destruct Ht as (h2 & -> & W & Ec). exists h2, (Some a). split; [done|]. split; [by eapply wrote_inv|]. split; [rewrite multiplicity_disj_union, multiplicity_singleton_eq; destruct (multiplicity a R) eqn:Em; [done|]; destruct (c_held _ _ (i_counted _ _ I) a ltac:(lia)) as [z Hz]; destruct (Hnew a ltac:(left)) as (? & _); congruence|].
  exists (a :: l), x. split; [by eapply wrote_chain|]. split; [by eapply owned_wrote|]. split.
  { rewrite (wrote_filled _ _ _ _ W). apply forallb_forall. cbn [tail]. intros b Hb%list_elem_of_In. destruct (Hnew b ltac:(by right)) as (_ & _ & y & Hy & _ & [->|Hpos]); [|unfold len_at; rewrite Hy; by apply Z.ltb_lt]. pose proof (chain_nodup _ _ _ C) as Hnd. apply NoDup_cons in Hnd. by destruct Hnd. }
  split; [rewrite <- U; unfold unshared, preds, nexts; by rewrite (w_pbufs _ _ _ W)|]. split; [|split; [by rewrite (w_pbufs _ _ _ W)|by rewrite Eh]].
  pose proof (contents_length _ _ (owned_readable _ _ _ I1 Ho)). rewrite Ec. unfold splice. rewrite take_0, Nat2Z.id, take_ge, drop_ge by (rewrite ?Nat.add_0_l, ?length_take; lia). by rewrite app_nil_r.
Qed.

(** Packets from before an allocation and writes to the new pbufs. *)
Lemma packet_kept h R h1 h2 R2 l b : inv h R -> inv h2 R2 -> b ∈ R -> b ∈ R2 -> readable h (chain_at h b) -> extends h h1 -> wrote h1 h2 l -> (forall a, a ∈ l -> h.(blocks) !! a = None) -> packet h2 b = packet h b.
Proof.
  intros I I2 Hb Hb2 Hr Ex W Hl. destruct (chain_at_ok _ _ _ (i_counted _ _ I) Hb) as [C _]. destruct (extends_chain _ _ _ _ Ex C) as [C1 _]. destruct (extends_contents _ _ _ Ex Hr) as [_ Ec].
  rewrite (packet_ok h2 R2 b _ I2 Hb2 (wrote_chain _ _ _ _ _ W C1)), (apart_contents h1 h2 l _ W); [done|]. intros a x m o Ha Hx Hp Hin. destruct (readable_chunk _ _ _ Hr Ha) as (x' & m' & o' & d & Hx' & Hp' & Hd & _).
  rewrite (e_pbuf _ _ Ex a x' Hx') in Hx. injection Hx as <-. rewrite Hp in Hp'. injection Hp' as <- <-. rewrite (Hl m Hin) in Hd. done.
Qed.

(** *** When memory runs out *)

(** Too few answers never give a chain; and if the first pbuf looks like a
    custom one, freeing it calls a function that is not there. *)
Lemma pool_loop_short fuel : forall h p r rem ms, (length ms < pool_pbufs rem)%nat ->
  match pool_loop fuel h p r rem ms with Some (_, Some _, _) => False | _ => True end.
Proof.
  induction fuel as [|fuel IH]; intros h p r rem ms Hs; cbn [pool_loop];
    (destruct (Z.leb_spec rem 0); [unfold pool_pbufs in Hs; assert ((rem + 1515) / 1516 <= 0) by (apply Z.lt_succ_r, Z.div_lt_upper_bound; lia); lia|]).
  - done.
  - destruct ms as [|m ms]; [by repeat case_match|]. destruct (pbufs h !! r) as [y|]; [|done]. set (h1 := put r _ _).
    destruct (rem <? 65535) eqn:Hr; [|done]. apply Z.ltb_lt in Hr. destruct (payload_offset _ _); [|done]. destruct (pbufs h1 !! p) as [x|]; [|done]. destruct (payload x) as [[? ?]|]; [|done]. destruct (_ <=? _); [|done].
    apply IH. rewrite u16_small by lia. rewrite pool_pbufs_step in Hs by lia. cbn [length] in Hs. change PBUF_POOL_BUFSIZE_ALIGNED with 1516. lia.
Qed.

Lemma free_foreign h p x : h.(pbufs) !! p = Some x -> x.(ref) = 1 -> x.(custom) = false -> Z.land x.(flags) PBUF_FLAG_IS_CUSTOM <> 0 -> pbuf_free h (Some p) = None.
Proof.
  intros Hx Hr Hc Hf. unfold pbuf_free, fuel. rewrite Hx. cbn [free_loop]. rewrite Hx, Hr. cbn [Z.ltb Z.compare]. change (u16 (1 - 1)) with 0. cbn [Z.eqb]. unfold release. by rewrite (proj2 (Z.eqb_neq _ _) Hf), Hc.
Qed.

Lemma pool_loop_foreign fuel : forall h p r rem ms x, (length ms < pool_pbufs rem)%nat -> (forall m, m ∈ ms -> m.(at_) <> p) ->
  h.(pbufs) !! p = Some x -> x.(ref) = 1 -> x.(custom) = false -> Z.land x.(flags) PBUF_FLAG_IS_CUSTOM <> 0 -> pool_loop fuel h p r rem ms = None.
Proof.
  induction fuel as [|fuel IH]; intros h p r rem ms x Hs Hm Hx Hr Hc Hf; cbn [pool_loop];
    (destruct (Z.leb_spec rem 0); [unfold pool_pbufs in Hs; assert ((rem + 1515) / 1516 <= 0) by (apply Z.lt_succ_r, Z.div_lt_upper_bound; lia); lia|]).
  - done.
  - destruct ms as [|m ms]; [by rewrite (free_foreign h p x)|]. destruct (pbufs h !! r) as [y|] eqn:Hy; [|done]. set (h1 := put r _ _).
    assert (exists x1, pbufs h1 !! p = Some x1 /\ ref x1 = 1 /\ custom x1 = false /\ Z.land (flags x1) PBUF_FLAG_IS_CUSTOM <> 0) as (x1 & Hx1 & Hr1 & Hc1 & Hf1).
    { unfold h1. destruct (decide (r = p)) as [->|Hne]; [rewrite put_eq; rewrite Hx in Hy; injection Hy as <-; by eexists|rewrite put_ne by done; by exists x]. }
    destruct (rem <? 65535) eqn:Hrem; [|done]. apply Z.ltb_lt in Hrem. destruct (payload_offset _ _); [|done]. rewrite Hx1. destruct (payload x1) as [[? ?]|]; [|done]. destruct (_ <=? _); [|done].
    apply (IH _ _ _ _ _ x1); [|intros m' Hm'; apply Hm; by right| |done..].
    + rewrite u16_small by lia. rewrite pool_pbufs_step in Hs by lia. cbn [length] in Hs. change PBUF_POOL_BUFSIZE_ALIGNED with 1516. lia.
    + rewrite put_ne; [done|]. apply (Hm m). by left.
Qed.

(** The first piece of memory looks like a custom pbuf. *)
Definition looks_custom (ms : list answer) : bool := match ms with m :: _ => negb (Z.land m.(old_flags) PBUF_FLAG_IS_CUSTOM =? 0) | [] => false end.

Lemma device_pbuf_short h data ms : malloc_ok h ms = true -> Z.of_nat (length data) < 65536 -> (length ms < answers_needed PBUF_RAW (Z.of_nat (length data)) PBUF_POOL)%nat ->
  (looks_custom ms = true -> device_pbuf h data ms = None) /\ (forall h' a, device_pbuf h data ms <> Some (h', Some a)).
Proof.
  intros Hm Hn Hs. unfold device_pbuf, pbuf_alloc. destruct ms as [|m ms]; [by split|]. destruct (malloc_ok_head _ _ _ Hm) as (_ & _ & _ & _ & Hne).
  destruct (payload_offset _ _); [|by split]. destruct (_ <=? _); [|by split]. destruct (_ <? _); [|by split]. unfold answers_needed, pool_room in Hs. cbn [length] in Hs.
  rewrite u16_small by (change PBUF_POOL_BUFSIZE_ALIGNED with 1516; change (LWIP_MEM_ALIGN (layer_offset PBUF_RAW)) with 0; lia). set (n := Z.of_nat (length data)) in *. set (k := Z.min n _) in *. set (h1 := put _ _ _). split.
  - intros Hf%negb_true_iff%Z.eqb_neq. erewrite pool_loop_foreign; [done|lia|intros m' Hm'; by apply Hne|apply put_eq|done..].
  - intros h' a. pose proof (pool_loop_short (Z.to_nat n) h1 (at_ m) (at_ m) (n - k) ms ltac:(lia)) as H. destruct (pool_loop _ _ _ _ _ _) as [[[h2 [r|]] c]|]; done.
Qed.

(** When the device gets a pbuf, there was memory for all of it. *)
Lemma device_pbuf_legal h data ms h' a : malloc_ok h ms = true -> Z.of_nat (length data) < 65536 -> device_pbuf h data ms = Some (h', Some a) -> alloc_legal h PBUF_RAW (Z.of_nat (length data)) PBUF_POOL ms = true.
Proof.
  intros Hm Hn E. destruct (Nat.le_gt_cases (answers_needed PBUF_RAW (Z.of_nat (length data)) PBUF_POOL) (length ms)) as [Hen|Hsh]; [|by destruct (device_pbuf_short h data ms Hm Hn Hsh) as [_ []%(fun H => H h' a)]].
  unfold alloc_legal. rewrite Hm, (proj2 (Z.leb_le _ _)), (proj2 (Z.ltb_lt _ _)) by lia. destruct ms as [|m ms]; [done|]. unfold answers_needed in Hen. cbn [length] in Hen. by rewrite (proj2 (Nat.leb_le _ _)) by lia.
Qed.

(** C26: a packet read from the device is in the pbuf that lwIP gets.  In every
    state of the packet buffers that is reached and for all addresses and old
    contents of the memory that [malloc] gives: with memory for the whole chain,
    the assertion on [pbuf_take] holds, the buffers of the new chain hold the
    packet in the pieces that [Device] describes, [pbuf_copy_partial] gives every
    slice of it back, and no packet that somebody holds has changed.  Without
    that memory the pbufs are as before, or, when the old contents of the first
    piece of memory look like a custom pbuf, the program aborts: the flags are
    read before they are set. *)
Theorem packet_in h R data ms : reached h R -> Z.of_nat (length data) < 65536 -> malloc_ok h ms = true ->
  let kept h' := forall b, b ∈ R -> readableb h (chain_at h b) = true -> packet h' b = packet h b in
  if (answers_needed PBUF_RAW (Z.of_nat (length data)) PBUF_POOL <=? length ms)%nat then
    exists h' a, device_pbuf h data ms = Some (h', Some a) /\ kept h' /\ h.(pbufs) !! a = None /\ reached h' (R ⊎ {[+ a +]}) /\
      map (chunk h') (chain_at h' a) = Device.pbuf_take (sizes h' a) data /\ sum_list (sizes h' a) = length data /\ packet h' a = data /\
      forall off n dst, 0 <= off < 65536 -> 0 <= n < 65536 -> let d := take (Z.to_nat n) (drop (Z.to_nat off) data) in (length d <= length dst)%nat ->
        exists dst', pbuf_copy_partial h' (Some a) (Some dst) n off = Some (dst', Z.of_nat (length d)) /\ store 0 d dst = Some dst'
  else if looks_custom ms then device_pbuf h data ms = None
  else exists h', device_pbuf h data ms = Some (h', None) /\ kept h' /\ h'.(pbufs) = h.(pbufs).
Proof.
  intros Hre Hn Hm kept. pose proof (reached_inv _ _ Hre) as I.
  destruct (Nat.leb_spec (answers_needed PBUF_RAW (Z.of_nat (length data)) PBUF_POOL) (length ms)) as [Hen|Hsh].
  - assert (alloc_legal h PBUF_RAW (Z.of_nat (length data)) PBUF_POOL ms = true) as Hl.
    { unfold alloc_legal. rewrite Hm, (proj2 (Z.leb_le _ _)), (proj2 (Z.ltb_lt _ _)) by lia. destruct ms as [|m ms]; [done|]. unfold answers_needed in Hen. cbn [length] in Hen. rewrite (proj2 (Nat.leb_le _ _)) by lia. done. }
    unfold device_pbuf. destruct (device_alloc h R _ ms I Hl) as (h1 & r & c & Ea & Ex & Hr). rewrite Ea. destruct r as [a|]; [|destruct Hr as (_ & _ & Hms); lia].
    destruct Hr as (Ha & I1 & C1 & Ho1 & Hlen & Hnew). set (l := chain_at h1 a) in *. pose proof (take_ok h1 _ a l data (Z.of_nat (length data)) I1 C1 Ho1 ltac:(lia) ltac:(lia)) as Ht. rewrite Hlen, Z.ltb_irrefl in Ht. destruct Ht as (h2 & Et & W & Ec). rewrite Et.
    pose proof (wrote_inv _ _ _ _ I1 W) as I2. assert (a ∈ R ⊎ {[+ a +]}) as Hin by multiset_solver. pose proof (wrote_chain _ _ _ _ _ W C1) as C2. destruct (chain_at_ok _ _ _ (i_counted _ _ I2) Hin) as [C2' _]. pose proof (chain_unique _ _ _ _ C2' C2) as El.
    pose proof (owned_readable _ _ _ I2 (owned_wrote _ _ _ _ W Ho1)) as Hr2. pose proof (contents_length _ _ (owned_readable _ _ _ I1 Ho1)) as Lc.
    assert (contents h2 l = data) as Ed. { rewrite Ec. unfold splice. rewrite take_0, Nat2Z.id, take_ge, drop_ge by (rewrite ?Nat.add_0_l, ?length_take; lia). by rewrite app_nil_r. }
    exists h2, a. split; [done|]. split; [intros b Hb Hrb%readableb_ok; apply (packet_kept h R h1 h2 _ l b I I2 Hb ltac:(multiset_solver) Hrb Ex W); intros d Hd; by apply Hnew|]. split; [done|]. split.
    + apply (reached_step h1 (R ⊎ {[+ a +]}) (ETake a data (Z.of_nat (length data))) h2 _ [Result ERR_OK]).
      * apply (reached_step h R (EAlloc PBUF_RAW (Z.of_nat (length data)) PBUF_POOL ms) h1 _ (Returned (Some a) :: freed_by c)); [done|done|]. cbn [step]. by rewrite Ea.
      * cbn [legal]. fold l. rewrite (bool_decide_eq_true_2 _ Hin), (ownedb_true _ _ Ho1). cbn [andb]. rewrite !andb_true_iff, !Z.leb_le, Z.ltb_lt. lia.
      * cbn [step]. by rewrite Et.
    + unfold packet, sizes. rewrite El, (sizes_chunks h2 l Hr2), sum_chunks. change (concat (map (chunk h2) l)) with (contents h2 l). rewrite Ed. split; [rewrite <- Ed at 1; symmetry; apply take_chunks|]. do 2 (split; [done|]).
      intros off n dst Hoff Hk. rewrite <- Ed. apply (copy_partial_ok h2 _ a l dst n off I2 C2 Hr2 Hk Hoff).
  - destruct (device_pbuf_short h data ms Hm Hn Hsh) as [Hc Hnone]. destruct (looks_custom ms) eqn:Hlc; [by apply Hc|].
    assert (alloc_legal h PBUF_RAW (Z.of_nat (length data)) PBUF_POOL ms = true) as Hl.
    { unfold alloc_legal. rewrite Hm, (proj2 (Z.leb_le _ _)), (proj2 (Z.ltb_lt _ _)) by lia. destruct ms as [|m ms]; [done|]. apply negb_false_iff in Hlc. rewrite Hlc. by rewrite orb_true_r. }
    unfold device_pbuf in *. destruct (device_alloc h R _ ms I Hl) as (h1 & r & c & Ea & Ex & Hr). rewrite Ea in *. destruct r as [a|].
    + exfalso. destruct Hr as (_ & I1 & C1 & Ho1 & Hlen & _). pose proof (take_ok h1 _ a _ data (Z.of_nat (length data)) I1 C1 Ho1 ltac:(lia) ltac:(lia)) as Ht. rewrite Hlen, Z.ltb_irrefl in Ht. destruct Ht as (h2 & Et & _). rewrite Et in Hnone. by eapply Hnone.
    + destruct Hr as (I1 & Ep & _). exists h1. split; [done|]. split; [|done]. intros b Hb Hrb%readableb_ok. apply (packet_kept h R h1 h1 R [] b I I1 Hb Hb Hrb Ex (wrote_none _ _)). intros d Hd. by apply elem_of_nil in Hd.
Qed.

(** Two bytes, with an answer of [malloc] at 8192. *)
Lemma packet_in_witness : exists h' p, device_pbuf two_packets_heap [69; 7] [MkAnswer 8192 0 []] = Some (h', Some p) /\ p = 8192 /\ packet h' 8192 = [69; 7] /\ packet h' 64 = [1; 2; 3].
Proof.
  pose proof (packet_in two_packets_heap two_packets_held [69; 7] [MkAnswer 8192 0 []] two_packets_reached) as H. destruct H as (h' & p & E & Hk & Hp); [cbn; lia|vm_compute; reflexivity|]. exists h', p. split; [exact E|].
  specialize (Hk 64). rewrite Hk by (vm_compute; reflexivity || apply (bool_decide_eq_true_1 (64 ∈ two_packets_held)); vm_compute; reflexivity).
  assert (p = 8192) as -> by (vm_compute in E; congruence). split; [reflexivity|]. split; [apply Hp|vm_compute; reflexivity].
Defined.

End PbufDevice.
