(* ===== verification/PbufIssues.v ===== *)
(** * Where packet buffers do not do what they mean to

    Calls of [lwip/src/core/pbuf.c], evaluated: results that differ from the
    documentation, and the reasons for the conditions in [PbufRun]. *)

From stdpp Require Import gmultiset.
From S2P Require Import Prelude LinkedList Pbuf PbufChain PbufData PbufRun.
Open Scope Z_scope.
Import Pbuf PbufChain PbufData PbufRun.

Module PbufIssues.

(** A heap with one packet. *)
Definition holding (data : bytes) : heap :=
  match machine_run legal step (empty_heap, ∅) [EAlloc PBUF_RAW (Z.of_nat (length data)) PBUF_RAM [MkAnswer 64 0 []]; ETake 64 data (Z.of_nat (length data))] with
  | Some (h, _, _) => h
  | None => empty_heap
  end.

(** After a partial match the search goes on behind the difference, so an
    occurrence that begins inside of the partial match is not found. *)
Lemma memfind_misses : packet (holding [1; 1; 2]) 64 = [1; 1; 2] /\ occurs [1; 2] [1; 1; 2] 1 /\ pbuf_memfind (holding [1; 1; 2]) 64 [1; 2] 2 0 = Some 0xFFFF.
Proof. split; [vm_compute; reflexivity|]. split; vm_compute; reflexivity. Qed.

(** Behind the end of the packet there are zeroes for the comparison. *)
Lemma memcmp_behind_end : packet (holding [1]) 64 = [1] /\ pbuf_memcmp (holding [1]) (Some 64) 0 [1; 0; 0] 3 = Some 0.
Proof. split; vm_compute; reflexivity. Qed.

(** When memory runs out inside of a pool chain, the first pbuf is freed with
    the flags that were in the memory before. *)
Lemma pool_failure_flags : pbuf_alloc empty_heap PBUF_RAW 2000 PBUF_POOL [MkAnswer 64 0 []] <> None /\ pbuf_alloc empty_heap PBUF_RAW 2000 PBUF_POOL [MkAnswer 64 PBUF_FLAG_IS_CUSTOM []] = None.
Proof. split; vm_compute; [intros [=]|reflexivity]. Qed.

(** [n] pbufs without payload, from the address 64 on. *)
Fixpoint row (n : nat) (a : addr) : list event :=
  match n with O => [] | S n => EAlloc PBUF_RAW 0 PBUF_RAM [MkAnswer a 0 []] :: (row n (a + 64) ++ (if (0 <? n)%nat then [ECat a (a + 64)] else [])) end.
Definition long_chain (n : nat) : heap := match machine_run legal step (empty_heap, ∅) (row n 64) with Some (h, _, _) => h | None => empty_heap end.

(** A tail of 256 pbufs is freed, but the number of freed pbufs is zero in
    eight bits, and [pbuf_dechain] returns the tail that is gone. *)
Lemma dechain_dangling : exists h c, pbuf_dechain (long_chain 257) 64 = Some (h, Some 128, c) /\ h.(pbufs) !! 128 = None.
Proof. exists (match pbuf_dechain (long_chain 257) 64 with Some (h, _, _) => h | None => empty_heap end), []. split; vm_compute; reflexivity. Qed.

(** A packet of one byte with an empty pbuf behind it. *)
Definition empty_end : heap :=
  match machine_run legal step (empty_heap, ∅) [EAlloc PBUF_RAW 1 PBUF_RAM [MkAnswer 64 0 [9]]; EAlloc PBUF_RAW 0 PBUF_RAM [MkAnswer 128 0 []]; ECat 64 128; EAlloc PBUF_RAW 1 PBUF_RAM [MkAnswer 192 0 []]] with
  | Some (h, _, _) => h
  | None => empty_heap
  end.

(** The target is big enough and full when the empty pbuf is still to be
    copied: the error check fails, also in [pbuf_coalesce]. *)
Lemma copy_empty_end : chain_len empty_end (chain_at empty_end 64) = 1 /\ chain_len empty_end (chain_at empty_end 192) = 1 /\ pbuf_copy empty_end (Some 192) (Some 64) = None /\ pbuf_coalesce empty_end 64 PBUF_RAW [MkAnswer 256 0 []] = None.
Proof. repeat split; vm_compute; reflexivity. Qed.

End PbufIssues.
