(* ===== verification/Ip4.v ===== *)
(** * IPv4: addresses, routing and output

    Models [lwip/src/core/ipv4/ip4_addr.c] as far as the stack uses it, and
    [ip_route], [ip_output_if] and [ip_output] of [lwip/src/core/ipv4/ip4.c], as
    the configuration of tun2socks compiles them: no forwarding, no options on
    output, no loopback, the header checksum computed on the way.  Addresses
    are 32-bit words as they lie in memory, that is, with the first byte of the
    address in the lowest bits.

    The interfaces are records by address, in a list that stands for the
    [next] pointers.  Statistics counters are left out. *)

From stdpp Require Import gmultiset.
From S2P Require Import Prelude Words Checksum LinkedList Pbuf PbufChain PbufData PbufRun.
Open Scope Z_scope.
Import ByteOrder Pbuf PbufData.

Module Ip4.

(** ** Interfaces and addresses *)

Definition NETIF_FLAG_UP : Z := 0x01.
Definition NETIF_FLAG_BROADCAST : Z := 0x02.
Definition NETIF_FLAG_PRETEND_TCP : Z := 0x100.
Record netif := MkNetif { ip_addr : Z; netmask : Z; mtu : Z; nflags : Z }.
Definition has_flag (n : netif) (f : Z) : bool := negb (Z.land n.(nflags) f =? 0).

Definition IPADDR_ANY : Z := 0.
Definition IPADDR_BROADCAST : Z := 0xffffffff.
(** [~x] on 32 bits. *)
Definition not32 (x : Z) : Z := u32 (Z.lnot x).
Definition ip_addr_netcmp (a b mask : Z) : bool := Z.land a mask =? Z.land b mask.
Definition ip_addr_ismulticast (a : Z) : bool := Z.land a (hton32 0xf0000000) =? hton32 0xe0000000.

Definition ip4_addr_isbroadcast (a : Z) (n : netif) : bool :=
  if (not32 a =? IPADDR_ANY) || (a =? IPADDR_ANY) then true
  else if negb (has_flag n NETIF_FLAG_BROADCAST) then false
  else if a =? n.(ip_addr) then false
  else ip_addr_netcmp a n.(ip_addr) n.(netmask) && (Z.land a (not32 n.(netmask)) =? Z.land IPADDR_BROADCAST (not32 n.(netmask))).

(** The loops of [ip4_addr_netmask_valid]: [k] more bits; [ones] while the
    first zero has not been seen. *)
Fixpoint netmask_loop (k : nat) (nm mask : Z) (ones : bool) : bool :=
  match k with
  | O => true
  | S k =>
      let bit := negb (Z.land nm mask =? 0) in
      if ones then netmask_loop k nm (Z.shiftr mask 1) bit
      else if bit then false else netmask_loop k nm (Z.shiftr mask 1) false
  end.
Definition ip4_addr_netmask_valid (mask : Z) : bool := netmask_loop 32 (hton32 mask) (Z.shiftl 1 31) true.

(** ** The stack *)

Record ip_globals := MkGlobals { current_netif : option addr; current_ip4_header : option (addr * Z); current_ip_header_tot_len : Z; current_iphdr_src : Z; current_iphdr_dest : Z }.
(** [struct ip_reassdata]: a datagram of which fragments have arrived, its
    header and its fragments. *)
Record ip_reassdata := MkReassdata { r_next : option addr; r_p : option addr; r_iphdr : bytes; datagram_len : Z; r_flags : Z; r_timer : Z }.
(** These objects in memory, the head of their list, and the number of pbufs in
    it. *)
Record reassembly := MkReassembly { reassdata : gmap addr ip_reassdata; reassdatagrams : option addr; ip_reass_pbufcount : Z }.
Record stack := MkStack { hp : heap; ip_id : Z; ip_data : ip_globals; netifs : gmap addr netif; netif_list : list addr; netif_default : option addr; reass : reassembly }.
Definition set_hp h s := MkStack h s.(ip_id) s.(ip_data) s.(netifs) s.(netif_list) s.(netif_default) s.(reass).
Definition set_ip_id i s := MkStack s.(hp) i s.(ip_data) s.(netifs) s.(netif_list) s.(netif_default) s.(reass).
Definition set_ip_data g s := MkStack s.(hp) s.(ip_id) g s.(netifs) s.(netif_list) s.(netif_default) s.(reass).
Definition set_reass r s := MkStack s.(hp) s.(ip_id) s.(ip_data) s.(netifs) s.(netif_list) s.(netif_default) r.

(** What leaves the stack: a packet given to [netif->output] or to [tcp_input],
    and custom pbufs given to their functions. *)
Inductive ip_action := Output (n : addr) (p : list bytes) (dest : Z) | TcpInput (p : addr) (g : ip_globals) | CustomFreed (a : addr).

(** [pbuf_free] as others call it. *)
Definition free (s : stack) (p : addr) : option (stack * list ip_action) :=
  LET (h, _, c) <- pbuf_free s.(hp) (Some p) in Some (set_hp h s, map CustomFreed c).

Definition ERR_BUF : Z := -2.
Definition ERR_RTE : Z := -4.

(** ** Memory behind a pointer *)

Definition peek (h : heap) (q : addr * Z) (off n : Z) : option bytes :=
  LET m <- h.(blocks) !! q.1 in
  ASSERT (0 <=? q.2 + off) && (0 <=? n) && (q.2 + off + n <=? Z.of_nat (length m)) in
  Some (take (Z.to_nat n) (drop (Z.to_nat (q.2 + off)) m)).
Definition poke (h : heap) (q : addr * Z) (off : Z) (d : bytes) : option heap :=
  LET m <- h.(blocks) !! q.1 in
  ASSERT 0 <=? q.2 + off in
  LET m <- store (Z.to_nat (q.2 + off)) d m in
  Some (MkHeap h.(pbufs) (<[q.1 := m]> h.(blocks))).
(** A field of [n] bytes. *)
Definition get (h : heap) (q : addr * Z) (off n : Z) : option Z := LET d <- peek h q off n in Some (le_dec d).

(** ** The header *)

Definition IP_HLEN : Z := 20.
Definition IP_PROTO_ICMP : Z := 1.
Definition IP_PROTO_TCP : Z := 6.
Definition IP_MF : Z := 0x2000.
Definition IP_OFFMASK : Z := 0x1fff.
Definition LWIP_MAKE_U16 (a b : Z) : Z := Z.lor (Z.shiftl a 8) b.

(** The payloads of a chain, as [netif->output] sees them. *)
Definition payloads (h : heap) (p : addr) : option (list bytes) :=
  mapM (fun a => LET x <- h.(pbufs) !! a in read h x 0 x.(len)) (PbufRun.chain_at h p).

Fixpoint route_loop (netifs : gmap addr netif) (l : list addr) (dest : Z) : option (option addr) :=
  match l with
  | [] => Some None
  | a :: l =>
      LET n <- netifs !! a in
      if has_flag n NETIF_FLAG_UP && ip_addr_netcmp dest n.(ip_addr) n.(netmask) then Some (Some a) else route_loop netifs l dest
  end.

Definition ip_route (s : stack) (dest : Z) : option (option addr) :=
  LET r <- route_loop s.(netifs) s.(netif_list) dest in
  match r, s.(netif_default) with
  | Some a, _ => Some (Some a)
  | None, None => Some None
  | None, Some d => LET n <- s.(netifs) !! d in Some (if has_flag n NETIF_FLAG_UP then Some d else None)
  end.

(** ** Output *)

Section output.
(** [ip_frag], for packets that are longer than the MTU of the interface, and
    what [netif->output] returns. *)
Variable ip_frag : stack -> addr -> addr -> Z -> option (stack * Z * list ip_action).
Variable output_err : Z.

(** The checksum grows in 32 bits, and is folded in the end. *)
Definition chk_add (chk_sum x : Z) : Z := u32 (chk_sum + x).
Definition chk_finish (chk_sum : Z) : Z :=
  let chk_sum := u32 (Z.shiftr chk_sum 16 + Z.land chk_sum 0xFFFF) in
  let chk_sum := u32 (Z.shiftr chk_sum 16 + chk_sum) in
  u16 (u32 (Z.lnot chk_sum)).

(** The header is made: the fields in the order in which they are set. *)
Definition make_header (h : heap) (iphdr : addr * Z) (tot_len id src dest ttl tos proto : Z) : option heap :=
  LET h <- poke h iphdr 8 [u8 ttl] in
  LET h <- poke h iphdr 9 [u8 proto] in
  let chk_sum := chk_add 0 (LWIP_MAKE_U16 proto ttl) in
  LET h <- poke h iphdr 16 (le_enc 4 dest) in
  LET d <- get h iphdr 16 4 in
  let chk_sum := chk_add (chk_add chk_sum (Z.land d 0xFFFF)) (Z.shiftr d 16) in
  LET h <- poke h iphdr 0 [Z.lor (Z.shiftl 4 4) (IP_HLEN / 4)] in
  LET h <- poke h iphdr 1 [tos] in
  LET v_hl <- get h iphdr 0 1 in
  let chk_sum := chk_add chk_sum (LWIP_MAKE_U16 tos v_hl) in
  LET h <- poke h iphdr 2 (le_enc 2 (hton16 tot_len)) in
  LET l <- get h iphdr 2 2 in
  let chk_sum := chk_add chk_sum l in
  LET h <- poke h iphdr 6 (le_enc 2 0) in
  LET h <- poke h iphdr 4 (le_enc 2 (hton16 id)) in
  LET i <- get h iphdr 4 2 in
  let chk_sum := chk_add chk_sum i in
  LET h <- poke h iphdr 12 (le_enc 4 src) in
  LET a <- get h iphdr 12 4 in
  let chk_sum := chk_add (chk_add chk_sum (Z.land a 0xFFFF)) (Z.shiftr a 16) in
  poke h iphdr 10 (le_enc 2 (chk_finish chk_sum)).

(** [src] is [None] for a null pointer, [dest] for [IP_HDRINCL]. *)
Definition ip_output_if (s : stack) (p : addr) (src dest : option Z) (ttl tos proto : Z) (n : addr) : option (stack * Z * list ip_action) :=
  LET x <- s.(hp).(pbufs) !! p in
  ASSERT x.(ref) =? 1 in
  LET nf <- s.(netifs) !! n in
  LET (s, r) <- (match dest with
    | Some d =>
        LET (h, e) <- pbuf_header s.(hp) (Some p) IP_HLEN in
        let s := set_hp h s in
        if negb (e =? 0) then Some (s, None)
        else
          LET x <- h.(pbufs) !! p in
          LET iphdr <- x.(payload) in
          ASSERT IP_HLEN <=? x.(len) in
          let a := match src with Some a => if a =? IPADDR_ANY then nf.(ip_addr) else a | None => nf.(ip_addr) end in
          LET h <- make_header h iphdr x.(tot_len) s.(ip_id) a d ttl tos proto in
          Some (set_ip_id (u16 (s.(ip_id) + 1)) (set_hp h s), Some d)
    | None =>
        LET iphdr <- x.(payload) in
        LET d <- get s.(hp) iphdr 16 4 in
        Some (s, Some d)
    end) in
  match r with
  | None => Some (s, ERR_BUF, [])
  | Some d =>
      LET x <- s.(hp).(pbufs) !! p in
      if negb (nf.(mtu) =? 0) && (nf.(mtu) <? x.(tot_len)) then ip_frag s p n d
      else LET c <- payloads s.(hp) p in Some (s, output_err, [Output n c d])
  end.

Definition ip_output (s : stack) (p : addr) (src dest : option Z) (ttl tos proto : Z) : option (stack * Z * list ip_action) :=
  LET x <- s.(hp).(pbufs) !! p in
  ASSERT x.(ref) =? 1 in
  LET d <- dest in
  LET r <- ip_route s d in
  match r with
  | None => Some (s, ERR_RTE, [])
  | Some n => ip_output_if s p src dest ttl tos proto n
  end.

End output.

(** ** Memory as seen through a pointer *)

(** At [q] there is [H], between [A] and [B]. *)
Definition view (h : heap) (q : addr * Z) (A H B : bytes) : Prop := h.(blocks) !! q.1 = Some (A ++ H ++ B) /\ Z.of_nat (length A) = q.2.
(** The same with [H] there instead. *)
Definition rehead (h : heap) (q : addr * Z) (A H B : bytes) : heap := MkHeap h.(pbufs) (<[q.1 := A ++ H ++ B]> h.(blocks)).

Lemma view_rehead h q A H B : Z.of_nat (length A) = q.2 -> view (rehead h q A H B) q A H B.
Proof. intros E. split; [|done]. apply lookup_insert_eq. Qed.

Lemma rehead_rehead h q A H B H' : rehead (rehead h q A H B) q A H' B = rehead h q A H' B.
Proof. unfold rehead. cbn. by rewrite insert_insert_eq. Qed.

Lemma rehead_id h q A H B : view h q A H B -> rehead h q A H B = h.
Proof. intros [E _]. unfold rehead. rewrite insert_id by done. by destruct h. Qed.

Lemma peek_view h q A H B off n : view h q A H B -> 0 <= off -> 0 <= n -> off + n <= Z.of_nat (length H) -> peek h q off n = Some (take (Z.to_nat n) (drop (Z.to_nat off) H)).
Proof.
  intros [E L] Ho Hn Hl. unfold peek. rewrite E, <- L, !length_app. rewrite !(proj2 (Z.leb_le _ _)) by lia. cbn [andb]. f_equal. rewrite drop_app_ge by lia.
  replace (Z.to_nat (Z.of_nat (length A) + off) - length A)%nat with (Z.to_nat off) by lia. rewrite drop_app_le, take_app_le by (rewrite ?length_drop; lia). done.
Qed.

Lemma get_view h q A H B off n d : view h q A H B -> 0 <= off -> 0 <= n -> off + n <= Z.of_nat (length H) -> take (Z.to_nat n) (drop (Z.to_nat off) H) = d -> get h q off n = Some (le_dec d).
Proof. intros V Ho Hn Hl <-. unfold get. by rewrite (peek_view h q A H B off n V Ho Hn Hl). Qed.

Lemma poke_view h q A H B off d H' : view h q A H B -> 0 <= off -> store (Z.to_nat off) d H = Some H' -> poke h q off d = Some (rehead h q A H' B).
Proof.
  intros [E L] Ho Es. unfold poke. rewrite E, <- L. rewrite (proj2 (Z.leb_le _ _)) by lia. unfold store in *. destruct (Nat.leb_spec (Z.to_nat off + length d) (length H)) as [Hle|]; [|done]. injection Es as <-.
  rewrite !length_app, (proj2 (Nat.leb_le _ _)) by lia. unfold rehead. do 3 f_equal. rewrite take_app_ge by lia. rewrite <- app_assoc. f_equal.
  replace (Z.to_nat (Z.of_nat (length A) + off) - length A)%nat with (Z.to_nat off) by lia. rewrite take_app_le by lia. rewrite <- !app_assoc. do 2 f_equal.
  rewrite drop_app_ge, drop_app_le by lia. f_equal. f_equal. lia.
Qed.

(** ** The header that is made *)

(** The fields of the header, in network byte order; the addresses are as they
    lie in memory. *)
Definition header_with (chksum : bytes) (tot_len id src dest ttl tos proto : Z) : bytes :=
  [0x45; tos] ++ be_enc 2 tot_len ++ be_enc 2 id ++ [0; 0] ++ [ttl; proto] ++ chksum ++ le_enc 4 src ++ le_enc 4 dest.
Definition ip_header (tot_len id src dest ttl tos proto : Z) : bytes :=
  header_with (be_enc 2 (Checksum.rfc1071 (header_with [0; 0] tot_len id src dest ttl tos proto))) tot_len id src dest ttl tos proto.

Lemma list20 (H : bytes) : length H = 20%nat -> exists a0 a1 a2 a3 a4 a5 a6 a7 a8 a9 a10 a11 a12 a13 a14 a15 a16 a17 a18 a19, H = [a0; a1; a2; a3; a4; a5; a6; a7; a8; a9; a10; a11; a12; a13; a14; a15; a16; a17; a18; a19].
Proof. intros E. do 20 (destruct H as [|? H]; [done|]). destruct H; [|done]. by repeat eexists. Qed.

(** The next access to the memory at a pointer whose contents are known. *)
Ltac access V :=
  match goal with
  | |- context [poke (rehead ?h ?q ?A ?H ?B) ?q ?off ?d] =>
      let k := eval compute in (Z.to_nat off) in
      let r := eval cbv [store le_enc app take drop length Nat.add Nat.leb] in (store k d H) in
      match r with Some ?H' => rewrite (poke_view (rehead h q A H B) q A H B off d H' (view_rehead h q A H B V) ltac:(lia) eq_refl), rehead_rehead end
  | |- context [get (rehead ?h ?q ?A ?H ?B) ?q ?off ?n] =>
      let k := eval compute in (Z.to_nat off) in let m := eval compute in (Z.to_nat n) in
      let d := eval cbv [take drop] in (take m (drop k H)) in
      rewrite (get_view (rehead h q A H B) q A H B off n d (view_rehead h q A H B V) ltac:(lia) ltac:(lia) ltac:(cbn; lia) eq_refl)
  end.

Lemma make_u16 a b : 0 <= b < 256 -> LWIP_MAKE_U16 a b = b + 256 * a.
Proof. intros Hb. unfold LWIP_MAKE_U16. rewrite ReadWriteInt.lor_shift_add by lia. change (2 ^ 8) with 256. lia. Qed.

Lemma chk_add_ok c N x : Checksum.stands c N -> 0 <= x -> c + x < 4294967296 -> Checksum.stands (chk_add c x) (N + x) /\ chk_add c x = c + x.
Proof. intros S Hx Hb. pose proof S as [P _ _]. unfold chk_add. rewrite u32_small by lia. split; [|done]. by apply Checksum.stands_add, Checksum.stands_refl. Qed.

Lemma chk_finish_ok c D : bytes_ok D -> Checksum.stands c (le_dec D) -> c < 4294901760 -> chk_finish c = hton16 (Checksum.rfc1071 D).
Proof.
  intros HD S Hc. pose proof S as [[P _] _ _]. unfold chk_finish. change 0xFFFF with (Z.ones 16). rewrite !Z.land_ones, !Z.shiftr_div_pow2 by lia. change (2 ^ 16) with 65536.
  assert (0 <= c / 65536 < 65535) by (split; [apply Z.div_pos; lia|apply Z.div_lt_upper_bound; lia]). assert (0 <= c mod 65536 < 65536) by (apply Z.mod_pos_bound; lia).
  rewrite (u32_small (c / 65536 + c mod 65536)) by lia. set (d := c / 65536 + c mod 65536). assert (Checksum.stands d (le_dec D)) as Sd. { etrans; [|exact S]. apply Checksum.stands_fold, Checksum.stands_refl. lia. }
  assert (0 <= d < 131070) as Hd by (unfold d; lia). assert (exists r, u16 (u32 (Z.lnot (u32 (d / 65536 + d)))) = 65535 - r /\ 0 <= r < 65536 /\ Checksum.stands r (le_dec D)) as (r & -> & Hr & Sr); [|by apply Checksum.sum_is_rfc1071].
  destruct (Z.lt_ge_cases d 65536) as [Hlt|Hge].
  - exists d. split; [|split; [lia|done]]. rewrite Z.div_small, Z.add_0_l, (u32_small d) by lia. unfold u16, u32, Z.lnot. Z.to_euclidean_division_equations; lia.
  - exists (d - 65535). replace (d / 65536) with 1 by (apply Z.div_unique with (d - 65536); lia). rewrite (u32_small (1 + d)) by lia. split; [unfold u16, u32, Z.lnot; Z.to_euclidean_division_equations; lia|]. split; [lia|].
    etrans; [|exact Sd]. split; [lia| |lia]. replace d with (d - 65535 + 1 * 65535) at 2 by lia. by rewrite Z.mod_add by lia.
Qed.

Lemma stands_words x y N : 0 <= x -> Checksum.stands y N -> Checksum.stands (x + y) (x + 65536 * N).
Proof. intros Hx S. apply Checksum.stands_add; [by apply Checksum.stands_refl|]. etrans; [exact S|]. symmetry. apply Checksum.stands_word. destruct S as [[_ ?] _ _]. done. Qed.

(** The sum of the words of a header. *)
Lemma header_stands tot_len id src dest ttl tos proto : 0 <= tot_len < 65536 -> 0 <= id < 65536 -> 0 <= src < 4294967296 -> 0 <= dest < 4294967296 -> is_byte ttl -> is_byte tos -> is_byte proto ->
  Checksum.stands (ttl + 256 * proto + dest mod 65536 + dest / 65536 + (0x45 + 256 * tos) + hton16 tot_len + hton16 id + src mod 65536 + src / 65536) (le_dec (header_with [0; 0] tot_len id src dest ttl tos proto)).
Proof.
  intros Hl Hi Hs Hd Ht Ho Hp. unfold is_byte in *. pose proof (hton16_range tot_len). pose proof (hton16_range id). unfold header_with. rewrite <- !hton16_image. rewrite !Checksum.le_dec_app, !le_enc_length. rewrite !le_dec_enc by (change (256 ^ Z.of_nat 4) with 4294967296; change (256 ^ Z.of_nat 2) with 65536; lia).
  cbn [le_dec length]. assert (0 <= dest / 65536 < 65536) by (split; [apply Z.div_pos; lia|apply Z.div_lt_upper_bound; lia]). assert (0 <= src / 65536 < 65536) by (split; [apply Z.div_pos; lia|apply Z.div_lt_upper_bound; lia]).
  pose proof (Z.div_mod dest 65536 ltac:(lia)). pose proof (Z.div_mod src 65536 ltac:(lia)). pose proof (Z.mod_pos_bound dest 65536 ltac:(lia)). pose proof (Z.mod_pos_bound src 65536 ltac:(lia)).
  change (256 ^ Z.of_nat 2) with 65536. set (dl := dest mod 65536) in *. set (dh := dest / 65536) in *. set (sl := src mod 65536) in *. set (sh := src / 65536) in *. clearbody dl dh sl sh. subst.
  change (256 ^ Z.of_nat 4) with 4294967296.
  match goal with |- Checksum.stands ?x ?y =>
    replace x with ((69 + 256 * tos) + (hton16 tot_len + (hton16 id + (0 + ((ttl + 256 * proto) + (0 + (sl + (sh + (dl + dh))))))))) by lia;
    replace y with ((69 + 256 * tos) + 65536 * (hton16 tot_len + 65536 * (hton16 id + 65536 * (0 + 65536 * ((ttl + 256 * proto) + 65536 * (0 + 65536 * (sl + 65536 * (sh + 65536 * (dl + 65536 * dh))))))))) by lia end.
  repeat (apply stands_words; [lia|]). apply Checksum.stands_refl. lia.
Qed.

Lemma header_bytes c tot_len id src dest ttl tos proto : bytes_ok c -> is_byte ttl -> is_byte tos -> is_byte proto -> bytes_ok (header_with c tot_len id src dest ttl tos proto).
Proof. intros Hc Ht Ho Hp. unfold header_with, is_byte in *. rewrite !Forall_app, !Forall_cons, !Forall_nil. repeat split; try lia; try done; apply be_enc_bytes || apply le_enc_bytes. Qed.

(** Sums that stay below 2^32, from the inside out. *)
Ltac small32 := repeat match goal with |- context [u32 ?x] => lazymatch x with context [u32 _] => fail | _ => rewrite (u32_small x) by lia end end.

(** [ip_output_if] writes the header with its checksum. *)
Lemma make_header_ok h q A H B tot_len id src dest ttl tos proto : view h q A H B -> length H = 20%nat -> 0 <= tot_len < 65536 -> 0 <= id < 65536 -> 0 <= src < 4294967296 -> 0 <= dest < 4294967296 ->
  is_byte ttl -> is_byte tos -> is_byte proto -> make_header h q tot_len id src dest ttl tos proto = Some (rehead h q A (ip_header tot_len id src dest ttl tos proto) B).
Proof.
  intros V LH Hl Hi Hs Hd Ht Ho Hp. pose proof V as [_ L]. rewrite <- (rehead_id _ _ _ _ _ V) at 1. destruct (list20 H LH) as (a0 & a1 & a2 & a3 & a4 & a5 & a6 & a7 & a8 & a9 & a10 & a11 & a12 & a13 & a14 & a15 & a16 & a17 & a18 & a19 & ->).
  unfold make_header. rewrite !u8_small by done. repeat access L. f_equal. f_equal. unfold ip_header, header_with at 1. rewrite <- !hton16_image. unfold is_byte in *.
  change [dest `mod` 256; (dest `div` 256) `mod` 256; ((dest `div` 256) `div` 256) `mod` 256; (((dest `div` 256) `div` 256) `div` 256) `mod` 256] with (le_enc 4 dest).
  change [src `mod` 256; (src `div` 256) `mod` 256; ((src `div` 256) `div` 256) `mod` 256; (((src `div` 256) `div` 256) `div` 256) `mod` 256] with (le_enc 4 src).
  change (le_dec [hton16 tot_len `mod` 256; (hton16 tot_len `div` 256) `mod` 256]) with (le_dec (le_enc 2 (hton16 tot_len))). change (le_dec [hton16 id `mod` 256; (hton16 id `div` 256) `mod` 256]) with (le_dec (le_enc 2 (hton16 id))).
  pose proof (hton16_range tot_len). pose proof (hton16_range id). rewrite !le_dec_enc by (change (256 ^ Z.of_nat 4) with 4294967296; change (256 ^ Z.of_nat 2) with 65536; lia).
  match goal with |- context [chk_finish ?S] => assert (chk_finish S = hton16 (Checksum.rfc1071 (header_with [0; 0] tot_len id src dest ttl tos proto))) as -> end; [|reflexivity].
  pose proof (header_stands tot_len id src dest ttl tos proto Hl Hi Hs Hd Ht Ho Hp) as S. change (le_dec [Z.lor (4 ≪ 4) (IP_HLEN `div` 4)]) with 69. rewrite !make_u16 by lia. change 65535 with (Z.ones 16). rewrite !Z.land_ones, !Z.shiftr_div_pow2 by lia. change (2 ^ 16) with 65536.
  assert (0 <= dest / 65536 < 65536) by (split; [apply Z.div_pos; lia|apply Z.div_lt_upper_bound; lia]). assert (0 <= src / 65536 < 65536) by (split; [apply Z.div_pos; lia|apply Z.div_lt_upper_bound; lia]).
  pose proof (Z.mod_pos_bound dest 65536 ltac:(lia)). pose proof (Z.mod_pos_bound src 65536 ltac:(lia)).
  apply chk_finish_ok; [apply header_bytes; [exact (le_enc_bytes 2 0)|done|done|done]| |unfold chk_add; small32; lia]. unfold chk_add. small32. by rewrite Z.add_0_l.
Qed.

End Ip4.
