(* ===== verification/Icmp.v ===== *)
(** * ICMP and IPv4 input

    Models [lwip/src/core/ipv4/icmp.c] and [ip_input] of
    [lwip/src/core/ipv4/ip4.c] as configured: echo requests are answered unless
    they are for a multicast or broadcast address, packets with options are
    accepted, TCP packets for any host are taken when the interface pretends to
    be everybody.  TCP is behind [tcp_input], whose call is an action; the state
    is the one it finds, apart from the variables that are cleared after it.

    The reassembly of fragments and the fragmentation of packets are
    parameters. *)

From stdpp Require Import gmultiset.
From S2P Require Import Prelude Words Checksum LinkedList Pbuf PbufChain PbufData PbufRun Ip4.
Open Scope Z_scope.
Import ByteOrder Pbuf PbufData Ip4.

Module Icmp.

Definition ICMP_ER : Z := 0.
Definition ICMP_DUR : Z := 3.
Definition ICMP_ECHO : Z := 8.
Definition ICMP_TE : Z := 11.
Definition ICMP_DUR_PROTO : Z := 2.
Definition ICMP_TTL : Z := 255.
Definition ICMP_DEST_UNREACH_DATASIZE : Z := 8.
Definition sizeof_icmp_echo_hdr : Z := 8.

(** The chain as the checksum functions see it, with the parity of the
    addresses. *)
Definition odd_at (q : addr * Z) : bool := Z.odd (q.1 + q.2).
Definition aligned_payloads (h : heap) (p : addr) : option Checksum.chain :=
  mapM (fun a => LET x <- h.(pbufs) !! a in LET q <- x.(payload) in LET d <- read h x 0 x.(len) in Some (odd_at q, d)) (PbufRun.chain_at h p).
Definition chksum_at (h : heap) (q : addr * Z) (n : Z) : option Z := LET d <- peek h q 0 n in Some (Checksum.inet_chksum (odd_at q) d).

Section icmp.
Variable ip_frag : stack -> addr -> addr -> Z -> option (stack * Z * list ip_action).
Variable output_err : Z.
Abbreviation ip_output_if := (ip_output_if ip_frag output_err).
Abbreviation ip_output := (ip_output ip_frag output_err).

Definition icmp_send_response (s : stack) (p : addr) (type code : Z) (ms : list answer) : option (stack * list ip_action) :=
  LET (h, q, c) <- pbuf_alloc s.(hp) PBUF_IP (sizeof_icmp_echo_hdr + IP_HLEN + ICMP_DEST_UNREACH_DATASIZE) PBUF_RAM ms in
  let c := map CustomFreed c in
  match q with
  | None => Some (set_hp h s, c)
  | Some q =>
      LET y <- h.(pbufs) !! q in
      ASSERT sizeof_icmp_echo_hdr + IP_HLEN + ICMP_DEST_UNREACH_DATASIZE <=? y.(len) in
      LET x <- h.(pbufs) !! p in
      LET iphdr <- x.(payload) in
      LET icmphdr <- y.(payload) in
      LET h <- poke h icmphdr 0 [type] in
      LET h <- poke h icmphdr 1 [code] in
      LET h <- poke h icmphdr 4 (le_enc 2 0) in
      LET h <- poke h icmphdr 6 (le_enc 2 0) in
      LET d <- peek h iphdr 0 (IP_HLEN + ICMP_DEST_UNREACH_DATASIZE) in
      LET h <- poke h icmphdr sizeof_icmp_echo_hdr d in
      LET h <- poke h icmphdr 2 (le_enc 2 0) in
      LET k <- chksum_at h icmphdr y.(len) in
      LET h <- poke h icmphdr 2 (le_enc 2 k) in
      LET iphdr_src <- get h iphdr 12 4 in
      LET (s, _, o) <- ip_output (set_hp h s) q None (Some iphdr_src) ICMP_TTL 0 IP_PROTO_ICMP in
      LET (s, c') <- free s q in
      Some (s, c ++ o ++ c')
  end.

Definition icmp_dest_unreach (s : stack) (p : addr) (t : Z) (ms : list answer) := icmp_send_response s p ICMP_DUR t ms.
Definition icmp_time_exceeded (s : stack) (p : addr) (t : Z) (ms : list answer) := icmp_send_response s p ICMP_TE t ms.

(** The pbuf to answer with and its IP header: [p], when there is room for the
    headers in front of it, or a copy; [None] without memory. *)
Definition echo_pbuf (h : heap) (p : addr) (iphdr : addr * Z) (hlen : Z) (ms : list answer) : option (heap * option (addr * (addr * Z)) * list addr) :=
  LET (h, e) <- pbuf_header h (Some p) (PBUF_IP_HLEN + PBUF_LINK_HLEN) in
  if negb (e =? 0) then
    LET (h, e) <- pbuf_header h (Some p) hlen in
    ASSERT e =? 0 in
    LET x <- h.(pbufs) !! p in
    LET (h, r, c) <- pbuf_alloc h PBUF_LINK x.(tot_len) PBUF_RAM ms in
    match r with
    | None => Some (h, None, c)
    | Some r =>
        LET y <- h.(pbufs) !! r in
        ASSERT hlen + sizeof_icmp_echo_hdr <=? y.(len) in
        LET (h, e) <- pbuf_copy h (Some r) (Some p) in
        ASSERT e =? ERR_OK in
        LET y <- h.(pbufs) !! r in
        LET iphdr <- y.(payload) in
        LET (h, e) <- pbuf_header h (Some r) (- hlen) in
        ASSERT e =? 0 in
        LET (h, _, c') <- pbuf_free h (Some p) in
        Some (h, Some (r, iphdr), c ++ c')
    end
  else
    LET (h, e) <- pbuf_header h (Some p) (- (PBUF_IP_HLEN + PBUF_LINK_HLEN)) in
    ASSERT e =? 0 in
    Some (h, Some (p, iphdr), []).

(** The request becomes the answer. *)
Definition echo_reply (h : heap) (iphdr iecho : addr * Z) (src dest : Z) : option heap :=
  LET h <- poke h iphdr 12 (le_enc 4 dest) in
  LET h <- poke h iphdr 16 (le_enc 4 src) in
  LET h <- poke h iecho 0 [ICMP_ER] in
  LET k <- get h iecho 2 2 in
  LET h <- poke h iecho 2 (le_enc 2 (if hton16 (0xffff - Z.shiftl ICMP_ECHO 8) <=? k then u16 (k + hton16 (Z.shiftl ICMP_ECHO 8) + 1) else u16 (k + hton16 (Z.shiftl ICMP_ECHO 8)))) in
  LET h <- poke h iphdr 8 [u8 ICMP_TTL] in
  LET h <- poke h iphdr 10 (le_enc 2 0) in
  LET k <- chksum_at h iphdr IP_HLEN in
  poke h iphdr 10 (le_enc 2 k).

(** At this point, all checks are OK. *)
Definition icmp_answer (s : stack) (p inp : addr) (iphdr : addr * Z) (hlen src dest : Z) (ms : list answer) : option (stack * list ip_action) :=
  LET (h, r, c) <- echo_pbuf s.(hp) p iphdr hlen ms in
  let c := map CustomFreed c in
  match r with
  | None => LET (s, c') <- free (set_hp h s) p in Some (s, c ++ c')
  | Some (p, iphdr) =>
      LET x <- h.(pbufs) !! p in
      LET iecho <- x.(payload) in
      LET h <- echo_reply h iphdr iecho src dest in
      LET (h, e) <- pbuf_header h (Some p) hlen in
      ASSERT e =? 0 in
      LET (s, _, o) <- ip_output_if (set_hp h s) p (Some dest) None ICMP_TTL 0 IP_PROTO_ICMP inp in
      LET (s, c') <- free s p in
      Some (s, c ++ o ++ c')
  end.

Definition icmp_input (s : stack) (p inp : addr) (ms : list answer) : option (stack * list ip_action) :=
  LET iphdr <- s.(ip_data).(current_ip4_header) in
  LET v_hl <- get s.(hp) iphdr 0 1 in
  let hlen := Z.land v_hl 0x0f * 4 in
  LET x <- s.(hp).(pbufs) !! p in
  if x.(len) <? 4 then free s p
  else
    LET q <- x.(payload) in
    LET type <- get s.(hp) q 0 1 in
    if type =? ICMP_ER then free s p
    else if type =? ICMP_ECHO then
      LET nf <- s.(netifs) !! inp in
      let src := s.(ip_data).(current_iphdr_src) in
      let dest := s.(ip_data).(current_iphdr_dest) in
      if ip_addr_ismulticast dest || ip4_addr_isbroadcast dest nf then free s p
      else if x.(tot_len) <? sizeof_icmp_echo_hdr then free s p
      else
        LET c <- aligned_payloads s.(hp) p in
        if negb (Checksum.inet_chksum_pbuf c =? 0) then free s p
        else
          icmp_answer s p inp iphdr hlen src dest ms
    else free s p.

(** ** IPv4 input *)

Variable ip_reass : stack -> addr -> option (stack * option addr * list ip_action).

Definition accepts (nf : netif) (dest : Z) : bool :=
  has_flag nf NETIF_FLAG_UP && negb (nf.(ip_addr) =? IPADDR_ANY) && ((dest =? nf.(ip_addr)) || ip4_addr_isbroadcast dest nf).

(** The interfaces behind [inp], which has been tried first. *)
Fixpoint accept_loop (netifs : gmap addr netif) (inp : addr) (l : list addr) (dest : Z) : option (option addr) :=
  match l with
  | [] => Some None
  | a :: l =>
      if decide (a = inp) then accept_loop netifs inp l dest
      else LET nf <- netifs !! a in if accepts nf dest then Some (Some a) else accept_loop netifs inp l dest
  end.

Definition find_netif (s : stack) (inp : addr) (dest : Z) : option (option addr) :=
  LET nf <- s.(netifs) !! inp in
  if accepts nf dest then Some (Some inp) else accept_loop s.(netifs) inp s.(netif_list) dest.

Definition no_globals : ip_globals := MkGlobals None None 0 IPADDR_ANY IPADDR_ANY.

(** [send to upper layers]. *)
Definition deliver (s : stack) (p inp : addr) (iphdr : addr * Z) (iphdr_hlen : Z) (ms : list answer) : option (stack * list ip_action) :=
  LET nf <- s.(netifs) !! inp in
  LET v_hl <- get s.(hp) iphdr 0 1 in
  let g := MkGlobals (Some inp) (Some iphdr) (Z.land v_hl 0x0f * 4) s.(ip_data).(current_iphdr_src) s.(ip_data).(current_iphdr_dest) in
  LET (h, _) <- pbuf_header s.(hp) (Some p) (- iphdr_hlen) in
  let s := set_ip_data g (set_hp h s) in
  LET proto <- get h iphdr 9 1 in
  LET (s, o) <-
    (if proto =? IP_PROTO_TCP then Some (s, [TcpInput p g])
     else if proto =? IP_PROTO_ICMP then icmp_input s p inp ms
     else
       LET (s, o) <-
         (if negb (ip4_addr_isbroadcast g.(current_iphdr_dest) nf) && negb (ip_addr_ismulticast g.(current_iphdr_dest)) then
            LET (h, _) <- pbuf_header s.(hp) (Some p) iphdr_hlen in
            LET x <- h.(pbufs) !! p in
            icmp_dest_unreach (set_hp (put p (set_payload (Some iphdr) x) h) s) p ICMP_DUR_PROTO ms
          else Some (s, [])) in
       LET (s, c) <- free s p in
       Some (s, o ++ c)) in
  Some (set_ip_data no_globals s, o).

Definition ip_input (s : stack) (p inp : addr) (ms : list answer) : option (stack * list ip_action) :=
  LET x <- s.(hp).(pbufs) !! p in
  LET iphdr <- x.(payload) in
  LET v_hl <- get s.(hp) iphdr 0 1 in
  if negb (Z.shiftr v_hl 4 =? 4) then free s p
  else
    let iphdr_hlen := u16 (Z.land v_hl 0x0f * 4) in
    LET l <- get s.(hp) iphdr 2 2 in
    let iphdr_len := hton16 l in
    if (x.(len) <? iphdr_hlen) || (x.(tot_len) <? iphdr_len) then free s p
    else
      LET k <- chksum_at s.(hp) iphdr iphdr_hlen in
      if negb (k =? 0) then free s p
      else
        LET (h, c) <- pbuf_realloc s.(hp) (Some p) iphdr_len in
        LET dest <- get h iphdr 16 4 in
        LET src <- get h iphdr 12 4 in
        let g := s.(ip_data) in
        let s := set_ip_data (MkGlobals g.(current_netif) g.(current_ip4_header) g.(current_ip_header_tot_len) src dest) (set_hp h s) in
        LET netif <- find_netif s inp dest in
        LET nf <- s.(netifs) !! inp in
        LET proto <- get h iphdr 9 1 in
        LET (s, o) <-
          (if ip4_addr_isbroadcast src nf || ip_addr_ismulticast src then free s p
           else
             let netif := match netif with None => if has_flag nf NETIF_FLAG_PRETEND_TCP && (proto =? IP_PROTO_TCP) then Some inp else None | n => n end in
             match netif with
             | None => free s p
             | Some _ =>
                 LET off <- get h iphdr 6 2 in
                 if negb (Z.land off (hton16 (Z.lor IP_OFFMASK IP_MF)) =? 0) then
                   LET (s, r, o) <- ip_reass s p in
                   match r with
                   | None => Some (s, o)
                   | Some p =>
                       LET x <- s.(hp).(pbufs) !! p in
                       LET iphdr <- x.(payload) in
                       LET (s, o') <- deliver s p inp iphdr iphdr_hlen ms in
                       Some (s, o ++ o')
                   end
                 else deliver s p inp iphdr iphdr_hlen ms
             end) in
        Some (s, map CustomFreed c ++ o).
End icmp.
End Icmp.
