(* ===== verification/Ip4Run.v ===== *)
(** * Packets through the IPv4 layer

    What [ip_input] of [Icmp] does with a packet, as a function of its bytes:
    [classify] reads the header the way RFC 791 lays it out and says what has to
    happen, [packet_classified] that this happens.  On the way: what the calls
    that [ip_input] makes do to a chain of pbufs that belongs to it alone
    ([own], [arrived], [sendable]). *)

From stdpp Require Import gmultiset.
From S2P Require Import Prelude Words Checksum LinkedList Pbuf PbufChain PbufData PbufRun PbufDevice Ip4 Icmp.
Open Scope Z_scope.
Import ByteOrder Pbuf PbufChain PbufData PbufRun Ip4 Icmp.

Module Ip4Run.

(** ** A pbuf that belongs to nobody else *)

(** [p] is the only pointer to the chain [l], whose pbufs have memory of their
    own. *)
Record own (h : heap) (R : gmultiset addr) (p : addr) (l : list addr) : Prop := {
  o_inv : inv h R;
  o_held : p ∈ R;
  o_chain : chain h (Some p) l;
  o_owned : owned h l;
  o_unshared : unshared h l = true }.

Lemma own_at h R p l : own h R p l -> chain_at h p = l /\ packet h p = contents h l.
Proof. intros [I Ha C _ _]. destruct (chain_at_ok _ _ _ (i_counted _ _ I) Ha) as [C' _]. split; [by apply (chain_unique _ _ _ _ C' C)|by apply (packet_ok h R)]. Qed.

Lemma own_head h R p l : own h R p l -> exists x o m l', l = p :: l' /\ h.(pbufs) !! p = Some x /\ owns_memory x = true /\ x.(payload) = Some (p, o) /\ h.(blocks) !! p = Some m /\ 0 <= o /\ 0 <= x.(len) /\ o + x.(len) <= Z.of_nat (length m) /\
  preds h p = 0%nat /\ x.(tot_len) = Z.of_nat (length (contents h l)) /\ chunk h p = take (Z.to_nat x.(len)) (drop (Z.to_nat o) m) /\ x.(tot_len) < 65536.
Proof.
  intros [I Ha C Ho U]. destruct l as [|p' l]; [done|]. pose proof C as (E & x & Hx & _). injection E as <-. destruct (Ho p ltac:(left)) as (x' & Hx' & Hw). rewrite Hx in Hx'. injection Hx' as <-.
  destruct (owned_block _ _ _ _ I Hx Hw) as (o & m & Hp & Hb & ? & ? & ?). exists x, o, m, l. do 8 (split; [done|]). cbn [unshared] in U. to_prop. split; [done|]. pose proof (owned_readable _ _ _ I Ho) as Hr.
  pose proof (tail_len_chain _ _ (i_sized _ _ I) _ C) as Et. cbn [tail_len] in Et. rewrite Hx in Et. split; [by rewrite (contents_length _ _ Hr)|]. split; [|by apply (i_sized _ _ I p x Hx)].
  destruct (readable_chunk _ _ _ Hr ltac:(left)) as (x' & b & o' & m' & Hx' & Hp' & Hb' & _ & _ & _ & ->). rewrite Hx in Hx'. injection Hx' as <-. rewrite Hp in Hp'. injection Hp' as <- <-. rewrite Hb in Hb'. by injection Hb' as <-.
Qed.

(** What was free is free. *)
Definition fewer (h h' : heap) : Prop := forall a, h.(pbufs) !! a = None -> h.(blocks) !! a = None -> h'.(pbufs) !! a = None /\ h'.(blocks) !! a = None.

Lemma fewer_trans h1 h2 h3 : fewer h1 h2 -> fewer h2 h3 -> fewer h1 h3.
Proof. intros F1 F2 a Hp Hb. destruct (F1 a Hp Hb). by apply F2. Qed.

Lemma fewer_left_over h h' : left_over h h' -> fewer h h'.
Proof.
  intros L a Hp Hb. split; [|destruct (lo_block _ _ L a) as [->|[[? ?] _]]; congruence]. destruct (pbufs h' !! a) as [x'|] eqn:Hx; [|done]. destruct (lo_pbuf _ _ L a x' Hx) as (x & ? & _). congruence.
Qed.

Lemma fewer_put h p x y : h.(pbufs) !! p = Some x -> fewer h (put p y h).
Proof. intros Hx a Hp Hb. split; [|done]. rewrite put_ne; [done|]. intros ->. congruence. Qed.

Lemma fewer_legal h h' layer n ms : fewer h h' -> alloc_legal h layer n PBUF_RAM ms = true -> alloc_legal h' layer n PBUF_RAM ms = true.
Proof.
  intros F. unfold alloc_legal. rewrite !andb_true_r, !andb_true_iff. intros [? Hm]. split; [done|]. unfold malloc_ok in *. rewrite andb_true_iff in Hm |- *. destruct Hm as [? Hm]. split; [done|]. rewrite forallb_forall in Hm |- *. intros a Ha. specialize (Hm a Ha). rewrite !andb_true_iff, !bool_decide_eq_true in Hm |- *. destruct Hm as [[? Hp] Hb]. destruct (F _ Hp Hb). done.
Qed.

(** [pbuf_realloc] leaves the memory and the payload pointer of the first pbuf. *)
Lemma realloc_own h R p l x n : own h R p l -> filled h l = true -> h.(pbufs) !! p = Some x -> 0 <= n -> exists h' c l' x', pbuf_realloc h (Some p) n = Some (h', c) /\ inv h' R /\ chain h' (Some p) l' /\ owned h' l' /\ filled h' l' = true /\ preds h' p = 0%nat /\
  packet h' p = take (Z.to_nat n) (packet h p) /\ h'.(pbufs) !! p = Some x' /\ x'.(payload) = x.(payload) /\ x'.(type) = x.(type) /\ x'.(len) = Z.min x.(len) n /\ h'.(blocks) !! p = h.(blocks) !! p /\ fewer h h'.
Proof.
  intros O Fi Hx Hn. destruct (own_at _ _ _ _ O) as [_ Ep]. destruct (own_head _ _ _ _ O) as (x0 & o & m & l0 & -> & Hx0 & Hw & Hp & Hb & ? & ? & ? & Hpr & Et & _). rewrite Hx in Hx0. injection Hx0 as <-. destruct O as [I Ha C Ho U].
  destruct (realloc_effect h R p x _ n I Ha C U Ho Hx Hn) as (h' & c & E & I' & Epk). rewrite <- Ep in Epk. pose proof (owned_readable _ _ _ I Ho) as Hr. pose proof (contents_length _ _ Hr) as Lc. rewrite contents_cons, length_app in *. pose proof (chunk_length _ _ _ _ Hr ltac:(left) Hx) as Lk.
  destruct (realloc_ok h R p x _ n I C U Hx Hn) as (h2 & c2 & E2 & _ & [[Hle ->]|(l1 & b & xb & l2 & rem & h1 & El & Hxb & [Hrem Hpos] & En & Hlt & Hb1 & Hs & C' & L)]); rewrite E in E2; injection E2 as <- <-.
  - exists h', c, (p :: l0), x. do 10 (split; [done|]). split; [lia|]. split; [done|by intros ? ? ?].
  - assert (forall d z', d ∈ l1 ++ [b] -> pbufs h' !! d = Some z' -> exists z, pbufs h !! d = Some z /\ payload z' = payload z /\ type z' = type z /\ len z' = (if decide (d = b) then rem else len z)) as Hd.
    { intros d z' Hin Hz'. destruct (lo_pbuf _ _ L d z' Hz') as (z1 & Hz1 & ->). cbn [set_ref payload type len]. destruct (decide (d = b)) as [->|Hne]; [rewrite put_eq in Hz1; injection Hz1 as <-; by exists xb|].
      rewrite put_ne, Hs in Hz1 by done. rewrite decide_True in Hz1 by set_solver. destruct (pbufs h !! d) as [z|]; [|done]. injection Hz1 as <-. by exists z. }
    assert (p ∈ l1 ++ [b]) as Hin by (destruct l1; cbn in El |- *; injection El as <- _; left). destruct (chain_in _ _ _ p C' Hin) as [x' Hx']. destruct (Hd p x' Hin Hx') as (z & Hz & Hp' & Hty & Hl). rewrite Hx in Hz. injection Hz as <-.
    exists h', c, (l1 ++ [b]), x'. do 3 (split; [done|]). split; [|split; [|split; [|split; [done|]; do 3 (split; [done|]); split; [|split]]]].
    + intros d Hdl. destruct (chain_in _ _ _ d C' Hdl) as [z' Hz']. destruct (Hd d z' Hdl Hz') as (z & Hz & _ & Ety & _). exists z'. split; [done|]. destruct (Ho d) as (z0 & Hz0 & Hwd); [rewrite El; set_solver|]. rewrite Hz in Hz0. injection Hz0 as <-. unfold owns_memory in *. by rewrite Ety.
    + destruct l1 as [|p' l1]; [done|]. cbn [app] in El. injection El as <- El. apply forallb_forall. cbn [app tail]. intros d Hdl%list_elem_of_In. destruct (chain_in _ _ _ d C' ltac:(right; done)) as [z' Hz']. destruct (Hd d z' ltac:(right; done) Hz') as (z & Hz & _ & _ & El').
      unfold len_at. rewrite Hz', El'. apply Z.ltb_lt. destruct (decide (d = b)); [destruct Hpos; done|]. unfold filled in Fi. cbn [tail] in Fi. rewrite forallb_forall in Fi. specialize (Fi d ltac:(apply list_elem_of_In; rewrite El; set_solver)). unfold len_at in Fi. rewrite Hz in Fi. by apply Z.ltb_lt.
    + destruct (preds h' p) eqn:Epr; [done|]. exfalso. destruct (preds_pos h' p ltac:(lia)) as (d & z' & Hz' & En'). destruct (lo_pbuf _ _ L d z' Hz') as (z1 & Hz1 & Ez). rewrite Ez in En'. cbn in En'.
      destruct (decide (d = b)) as [->|Hne]; [rewrite put_eq in Hz1; injection Hz1 as <-; done|]. rewrite put_ne, Hs in Hz1 by done.
      assert (exists z, pbufs h !! d = Some z /\ next z = Some p) as (z & Hz & Ezn). { destruct (decide (d ∈ l1)); [destruct (pbufs h !! d) as [z|]; [|done]; injection Hz1 as <-; by exists z|by exists z1]. }
      pose proof (pred_counts _ _ _ _ Hz Ezn). lia.
    + rewrite Hl. destruct l1 as [|p' l1]; cbn in El; injection El as <- El.
      * rewrite decide_True by done. rewrite Hx in Hxb. injection Hxb as <-. cbn in En. lia.
      * rewrite decide_False; [|intros ->; pose proof (chain_nodup _ _ _ C) as [Hnd _]%NoDup_cons; apply Hnd; rewrite El; set_solver]. rewrite (chain_len_head h p x l1 Hx) in En. pose proof (contents_length h l1 ltac:(intros d Hdl; apply Hr; rewrite El; set_solver)). lia.
    + destruct (lo_block _ _ L p) as [->|[_ Hnone]]; [|congruence]. cbn. by rewrite Hb1.
    + eapply fewer_trans, fewer_left_over, L. intros a Hpa Hba. cbn [put blocks]. rewrite Hb1, put_ne by (intros ->; congruence). rewrite Hs, Hpa. by destruct (decide (a ∈ l1)).
Qed.

(** ** Fields of a header *)

Definition field (H : bytes) (off n : nat) : bytes := take n (drop off H).
Definition hlen_of (H : bytes) : Z := 4 * (le_dec (field H 0 1) mod 16).
Definition total_of (H : bytes) : Z := be_dec (field H 2 2).
Definition proto_of (H : bytes) : Z := le_dec (field H 9 1).
Definition src_of (H : bytes) : Z := le_dec (field H 12 4).
Definition dest_of (H : bytes) : Z := le_dec (field H 16 4).
Definition is_fragment (H : bytes) : bool := negb (be_dec (field H 6 2) mod 0x4000 =? 0).

Definition for_us (s : stack) (inp : addr) (dest : Z) : bool :=
  existsb (fun a => match s.(netifs) !! a with Some nf => accepts nf dest | None => false end) (inp :: s.(netif_list)).

Definition unicast (nf : netif) (a : Z) : bool := negb (ip4_addr_isbroadcast a nf || ip_addr_ismulticast a).

(** What has to happen to a packet: [H] are the first twenty bytes, [first] is
    the length of the first buffer. *)
Inductive verdict := Dropped | Fragment | Malformed | ToTcp | ToIcmp | Unreachable.

Definition classify (s : stack) (inp : addr) (nf : netif) (H : bytes) (first : Z) (pkt : bytes) : verdict :=
  if negb (le_dec (field H 0 1) / 16 =? 4) || (first <? hlen_of H) || (Z.of_nat (length pkt) <? total_of H) || negb (Checksum.rfc1071 (take (Z.to_nat (hlen_of H)) pkt) =? 0) then Dropped
  else if negb (unicast nf (src_of H)) then Dropped
  else if negb (for_us s inp (dest_of H) || has_flag nf NETIF_FLAG_PRETEND_TCP && (proto_of H =? IP_PROTO_TCP)) then Dropped
  else if is_fragment H then Fragment
  else if total_of H <? hlen_of H then Malformed
  else if proto_of H =? IP_PROTO_TCP then ToTcp
  else if proto_of H =? IP_PROTO_ICMP then ToIcmp
  else if unicast nf (dest_of H) then Unreachable else Dropped.

Lemma high_byte x : 0 <= x < 65536 -> Z.land x (Z.shiftl (Z.ones 8) 8) = Z.shiftl (x / 256) 8.
Proof.
  intros Hx. change 256 with (2 ^ 8). rewrite <- Z.shiftr_div_pow2 by lia. apply Z.bits_inj'. intros n Hn. rewrite Z.land_spec, !Z.shiftl_spec by lia.
  destruct (Z.lt_ge_cases n 8); [by rewrite !(Z.testbit_neg_r _ (n - 8)), andb_false_r by lia|]. rewrite Z.shiftr_spec, Z.testbit_ones_nonneg by lia. replace (n - 8 + 8) with n by lia.
  destruct (Z.ltb_spec (n - 8) 8); [by rewrite andb_true_r|]. rewrite andb_false_r, <- (Z.mod_small x (2 ^ 16)) by lia. by rewrite Z.mod_pow2_bits_high by lia.
Qed.

Lemma fragment_bits x : 0 <= x < 65536 -> (Z.land x (hton16 (Z.lor IP_OFFMASK IP_MF)) =? 0) = (hton16 x mod 0x4000 =? 0).
Proof.
  intros Hx. change (hton16 (Z.lor IP_OFFMASK IP_MF)) with (Z.lor (Z.ones 6) (Z.shiftl (Z.ones 8) 8)). rewrite Z.land_lor_distr_r, Z.land_ones, high_byte by lia.
  apply Bool.eq_true_iff_eq. rewrite !Z.eqb_eq, Z.lor_eq_0_iff, Z.shiftl_eq_0_iff by lia. change (2 ^ 6) with 64. unfold hton16, be_dec, le_enc; cbn.
  Z.to_euclidean_division_equations; lia.
Qed.

Lemma nibbles v : 0 <= v -> Z.shiftr v 4 = v / 16 /\ Z.land v 0x0f = v mod 16.
Proof. intros Hv. split; [by rewrite Z.shiftr_div_pow2|]. change 0x0f with (Z.ones 4). by rewrite Z.land_ones. Qed.

Lemma accept_loop_ok s inp l dest : (forall a, a ∈ l -> is_Some (s.(netifs) !! a)) -> (forall nf, s.(netifs) !! inp = Some nf -> accepts nf dest = false) ->
  exists r, accept_loop s.(netifs) inp l dest = Some r /\ (r = None <-> existsb (fun a => match s.(netifs) !! a with Some nf => accepts nf dest | None => false end) l = false).
Proof.
  intros Hl Hi. induction l as [|a l IH]; [by exists None|]. cbn [accept_loop existsb]. destruct IH as (r & E & Hr); [intros b Hb; apply Hl; by right|]. destruct (decide (a = inp)) as [->|Hne].
  - exists r. split; [done|]. rewrite Hr. destruct (s.(netifs) !! inp) as [nf|]; [by rewrite (Hi nf eq_refl)|done].
  - destruct (Hl a ltac:(left)) as [nf ->]. destruct (accepts nf dest); [by exists (Some a)|]. exists r. done.
Qed.

Lemma find_netif_ok s inp nf dest : s.(netifs) !! inp = Some nf -> (forall a, a ∈ s.(netif_list) -> is_Some (s.(netifs) !! a)) ->
  exists r, find_netif s inp dest = Some r /\ (r = None <-> for_us s inp dest = false).
Proof.
  intros Hi Hl. unfold find_netif, for_us. cbn [existsb]. rewrite Hi. destruct (accepts nf dest) eqn:Ea; [by exists (Some inp)|]. apply accept_loop_ok; [done|]. intros nf' Hn. congruence.
Qed.

Lemma free_own s R p : inv s.(hp) R -> p ∈ R -> exists h c, free s p = Some (set_hp h s, map CustomFreed c) /\ inv h (R ∖ {[+ p +]}).
Proof.
  intros I Hp. rewrite (held_split R p Hp) in I. destruct I as [C F S]. destruct (free_ok _ p _ C F) as (h' & k & c & E & C' & F' & L & _). unfold free. rewrite E. exists h', c. split; [done|]. split; [done|done|by eapply sized_left_over].
Qed.

Lemma header_down h R p x n : inv h R -> h.(pbufs) !! p = Some x -> preds h p = 0%nat -> owns_memory x = true -> 0 <= n < 32768 -> n <= x.(len) ->
  pbuf_header h (Some p) (- n) = Some (put p (moved_header (- n) x) h, 0) /\ inv (put p (moved_header (- n) x) h) R.
Proof.
  intros I Hx Hp Hw Hn Hl. destruct (i_sized _ _ I p x Hx) as [_ ?]. destruct (header_ok h R p x (- n) I Hx Hp) as (h' & r & E & I' & [(_ & _ & ?)|(-> & -> & _)]); [|lia|done].
  unfold header_fits. rewrite Hw. rewrite !(proj2 (Z.leb_le _ _)), !(proj2 (Z.ltb_lt _ _)) by lia. done.
Qed.

Lemma peek_own h p o m off n : h.(blocks) !! p = Some m -> 0 <= o + off -> 0 <= n -> o + off + n <= Z.of_nat (length m) -> peek h (p, o) off n = Some (take (Z.to_nat n) (drop (Z.to_nat (o + off)) m)).
Proof. intros Hb ? ? ?. unfold peek. cbn. rewrite Hb. by rewrite !(proj2 (Z.leb_le _ _)) by lia. Qed.

Lemma get_own h p o m H off n : h.(blocks) !! p = Some m -> 0 <= o -> o + 20 <= Z.of_nat (length m) -> H = take 20 (drop (Z.to_nat o) m) -> 0 <= off -> 0 <= n -> off + n <= 20 -> get h (p, o) off n = Some (le_dec (field H (Z.to_nat off) (Z.to_nat n))).
Proof.
  intros Hb Ho Hl -> Hoff Hn Hs. unfold get. rewrite (peek_own h p o m) by (done || lia). unfold field. rewrite skipn_firstn_comm, drop_drop, firstn_firstn. do 3 f_equal; [lia|]. f_equal. lia.
Qed.

(** ** What may be sent *)

(** Somebody's only pointer to a chain whose first pbuf has memory of its own,
    which the others do not refer to. *)
Record sendable (h : heap) (R : gmultiset addr) (p : addr) (x : pbuf) (o : Z) (m : bytes) (l : list addr) : Prop := {
  s_inv : inv h R;
  s_held : p ∈ R;
  s_chain : chain h (Some p) (p :: l);
  s_pbuf : h.(pbufs) !! p = Some x;
  s_ref : x.(ref) = 1;
  s_owns : owns_memory x = true;
  s_payload : x.(payload) = Some (p, o);
  s_block : h.(blocks) !! p = Some m;
  s_room : 0 <= o /\ 0 <= x.(len) /\ o + x.(len) <= Z.of_nat (length m);
  s_readable : readable h l;
  s_apart : apart h [p] l }.
Arguments s_inv {h R p x o m l}.
Arguments s_held {h R p x o m l}.
Arguments s_chain {h R p x o m l}.
Arguments s_pbuf {h R p x o m l}.
Arguments s_ref {h R p x o m l}.
Arguments s_owns {h R p x o m l}.
Arguments s_payload {h R p x o m l}.
Arguments s_block {h R p x o m l}.
Arguments s_room {h R p x o m l}.
Arguments s_readable {h R p x o m l}.
Arguments s_apart {h R p x o m l}.

Lemma sendable_facts h R p x o m l : sendable h R p x o m l -> preds h p = 0%nat /\ readable h (p :: l) /\ chunk h p = take (Z.to_nat x.(len)) (drop (Z.to_nat o) m) /\ packet h p = chunk h p ++ contents h l /\ x.(tot_len) = Z.of_nat (length (packet h p)) /\ x.(len) <= x.(tot_len) < 65536.
Proof.
  intros S. destruct (s_room S) as (? & ? & ?). pose proof (s_inv S) as I. destruct (c_ref _ _ (i_counted _ _ I) p x (s_pbuf S)) as [Er _]. rewrite (s_ref S) in Er. pose proof (s_held S) as Hh. rewrite elem_of_multiplicity in Hh. split; [lia|].
  assert (read h x 0 x.(len) = Some (take (Z.to_nat x.(len)) (drop (Z.to_nat o) m))) as Hrd. { unfold read. rewrite (s_payload S), (s_block S), Z.add_0_r. by rewrite !(proj2 (Z.leb_le _ _)) by lia. }
  assert (readable h (p :: l)) as Hr. { intros a [->|Ha]%elem_of_cons; [|by apply (s_readable S)]. exists x. eexists. split; [apply (s_pbuf S)|]. exact Hrd. }
  split; [done|]. split; [unfold chunk; rewrite (s_pbuf S), Hrd; done|]. pose proof (packet_ok _ _ _ _ I (s_held S) (s_chain S)) as Ep. split; [by rewrite Ep|]. rewrite Ep, (contents_length _ _ Hr). pose proof (tail_len_chain _ _ (i_sized _ _ I) _ (s_chain S)) as Et. cbn [tail_len] in Et. rewrite (s_pbuf S) in Et. split; [done|].
  destruct (s_chain S) as (_ & y & Hy & C). rewrite (s_pbuf S) in Hy. injection Hy as <-. pose proof (chain_len_nonneg _ _ _ _ I C). rewrite (chain_len_head _ _ _ _ (s_pbuf S)) in Et. split; [lia|]. apply (i_sized _ _ I p x (s_pbuf S)).
Qed.

(** A pbuf that nobody else knows. *)
Lemma sendable_single h R r y o : inv h R -> multiplicity r R = 1%nat -> preds h r = 0%nat -> h.(pbufs) !! r = Some y -> y.(next) = None -> owns_memory y = true -> y.(payload) = Some (r, o) -> exists m, sendable h R r y o m [].
Proof.
  intros I Hm Hp Hy Hn Hw Ep. destruct (owned_block _ _ _ _ I Hy Hw) as (o' & m & Ep' & Hb & ? & ? & ?). rewrite Ep in Ep'. injection Ep' as <-. exists m. destruct (c_ref _ _ (i_counted _ _ I) r y Hy) as [Er _]. split; try done; [rewrite elem_of_multiplicity; lia|by split; [|exists y]|rewrite Er, Hm, Hp; done|by intros a Ha%elem_of_nil|by intros a x b ob Ha%elem_of_nil].
Qed.

(** The payload begins [n] bytes later. *)
Lemma header_dropped h R p x o m l n : sendable h R p x o m l -> 0 <= n <= x.(len) -> n < 32768 -> let h' := put p (moved_header (- n) x) h in
  pbuf_header h (Some p) (- n) = Some (h', 0) /\ sendable h' R p (moved_header (- n) x) (o + n) m l /\ packet h' p = drop (Z.to_nat n) (packet h p) /\ filled h' (p :: l) = filled h (p :: l).
Proof.
  intros S Hn Hb h'. destruct (sendable_facts _ _ _ _ _ _ _ S) as (Hpr & Hr & Ec & Ep & _ & ?). destruct (s_room S) as (? & ? & ?). destruct (header_down _ _ _ x n (s_inv S) (s_pbuf S) Hpr (s_owns S) ltac:(lia) ltac:(lia)) as [E I']. fold h' in E, I'. split; [done|].
  pose proof (chain_nodup _ _ _ (s_chain S)) as Hnd. apply NoDup_cons in Hnd. destruct Hnd as [Hnl _]. assert (forall a, a ∈ l -> pbufs h' !! a = pbufs h !! a) as Hl by (intros a Ha; apply put_ne; by intros ->).
  assert (sendable h' R p (moved_header (- n) x) (o + n) m l) as S'.
  { split; [done|apply (s_held S)| |apply put_eq|apply (s_ref S)|apply (s_owns S)|cbn; rewrite (s_payload S); do 2 f_equal; lia|apply (s_block S)|cbn; lia| |].
    - eapply chain_nexts; [|apply (s_chain S)]. apply (nexts_same _ _ x); [apply (s_pbuf S)|done].
    - intros a Ha. rewrite Hl by done. by apply (s_readable S).
    - intros a y b ob Ha. rewrite Hl by done. by apply (s_apart S). }
  split; [done|]. destruct (sendable_facts _ _ _ _ _ _ _ S') as (_ & _ & Ec' & -> & _). split.
  - rewrite Ep, drop_app_le by (rewrite Ec, length_take, length_drop; lia). f_equal; [|apply same_contents; intros a Ha; destruct (Hr a ltac:(by right)) as (y & d & Hy & _); exists y, y; rewrite Hl by done; done].
    rewrite Ec, Ec', skipn_firstn_comm, drop_drop. cbn. f_equal; [lia|]. f_equal. lia.
  - apply forallb_ext'. cbn [tail]. intros a Ha. unfold len_at. by rewrite Hl.
Qed.

(** ** A packet that has arrived *)

(** The pbuf [x] at [p] begins a chain of its own, of the payload [pkt]; [H] are
    the twenty bytes at its payload pointer. *)
Record arrived (s : stack) (R : gmultiset addr) (p inp : addr) (nf : netif) (x : pbuf) (o : Z) (m H pkt : bytes) : Prop := {
  a_inv : inv s.(hp) R;
  a_held : p ∈ R;
  a_once : multiplicity p R = 1%nat;
  a_chain : exists l, chain s.(hp) (Some p) l /\ owned s.(hp) l /\ filled s.(hp) l = true;
  a_first : preds s.(hp) p = 0%nat;
  a_pbuf : s.(hp).(pbufs) !! p = Some x;
  a_payload : x.(payload) = Some (p, o);
  a_block : s.(hp).(blocks) !! p = Some m;
  a_room : 0 <= o /\ o + 20 <= Z.of_nat (length m);
  a_head : H = take 20 (drop (Z.to_nat o) m);
  a_bytes : bytes_ok H /\ bytes_ok pkt;
  a_packet : packet s.(hp) p = pkt;
  a_netif : s.(netifs) !! inp = Some nf }.
Arguments a_inv {s R p inp nf x o m H pkt}.
Arguments a_held {s R p inp nf x o m H pkt}.
Arguments a_once {s R p inp nf x o m H pkt}.
Arguments a_chain {s R p inp nf x o m H pkt}.
Arguments a_first {s R p inp nf x o m H pkt}.
Arguments a_pbuf {s R p inp nf x o m H pkt}.
Arguments a_payload {s R p inp nf x o m H pkt}.
Arguments a_block {s R p inp nf x o m H pkt}.
Arguments a_room {s R p inp nf x o m H pkt}.
Arguments a_head {s R p inp nf x o m H pkt}.
Arguments a_bytes {s R p inp nf x o m H pkt}.
Arguments a_packet {s R p inp nf x o m H pkt}.
Arguments a_netif {s R p inp nf x o m H pkt}.

Lemma arrived_facts s R p inp nf x o m H pkt : arrived s R p inp nf x o m H pkt -> owns_memory x = true /\ 0 <= x.(len) /\ o + x.(len) <= Z.of_nat (length m) /\ x.(len) <= x.(tot_len) /\ x.(tot_len) = Z.of_nat (length pkt) /\ x.(tot_len) < 65536 /\
  (forall k, (k <= Z.to_nat x.(len))%nat -> take k pkt = take k (drop (Z.to_nat o) m)).
Proof.
  intros [I Ha Hm1 (l & C & Ho & Fi) Hp Hx Ep Hb [? ?] _ _ Epk _]. destruct l as [|p' l]; [done|]. pose proof C as (E & x' & Hx' & _). injection E as <-. destruct (Ho p ltac:(left)) as (x2 & Hx2 & Hw). rewrite Hx in Hx'. injection Hx' as <-. rewrite Hx in Hx2. injection Hx2 as <-.
  destruct (owned_block _ _ _ _ I Hx Hw) as (o' & m' & Ep' & Hb' & ? & ? & ?). rewrite Ep in Ep'. injection Ep' as <-. rewrite Hb in Hb'. injection Hb' as <-. pose proof (owned_readable _ _ _ I Ho) as Hr. pose proof (tail_len_chain _ _ (i_sized _ _ I) _ C) as Et. cbn [tail_len] in Et. rewrite Hx in Et.
  rewrite <- Epk, (packet_ok _ _ _ _ I Ha C). rewrite (contents_length _ _ Hr). pose proof (chain_len_nonneg _ _ _ _ I C). destruct (readable_chunk _ _ _ Hr ltac:(left)) as (x' & b & o' & m' & Hx' & Hp' & Hb' & _ & _ & _ & Ec). rewrite Hx in Hx'. injection Hx' as <-. rewrite Ep in Hp'. injection Hp' as <- <-. rewrite Hb in Hb'. injection Hb' as <-.
  split; [done|]. do 2 (split; [done|]). split; [destruct C as (_ & y & Hy & C); rewrite Hx in Hy; injection Hy as <-; pose proof (chain_len_nonneg _ _ _ _ I C); rewrite (chain_len_head _ _ _ _ Hx) in Et; lia|]. split; [done|]. split; [apply (i_sized _ _ I p x Hx)|].
  intros k Hk. rewrite contents_cons, Ec, take_app_le by (rewrite length_take, length_drop; lia). rewrite firstn_firstn. f_equal. lia.
Qed.

Arguments arrived_facts {s R p inp nf x o m H pkt}.

Lemma arrived_get s R p inp nf x o m H pkt off n : arrived s R p inp nf x o m H pkt -> 0 <= off -> 0 <= n -> off + n <= 20 -> get s.(hp) (p, o) off n = Some (le_dec (field H (Z.to_nat off) (Z.to_nat n))).
Proof. intros A ? ? ?. destruct (a_room A). eapply get_own; [apply (a_block A)|done|done|apply (a_head A)|done|done|done]. Qed.

Lemma arrived_fields s R p inp nf x o m H pkt : arrived s R p inp nf x o m H pkt ->
  get s.(hp) (p, o) 0 1 = Some (le_dec (field H 0 1)) /\ get s.(hp) (p, o) 2 2 = Some (le_dec (field H 2 2)) /\ get s.(hp) (p, o) 6 2 = Some (le_dec (field H 6 2)) /\
  get s.(hp) (p, o) 9 1 = Some (proto_of H) /\ get s.(hp) (p, o) 12 4 = Some (src_of H) /\ get s.(hp) (p, o) 16 4 = Some (dest_of H).
Proof. intros A. rewrite !(arrived_get _ _ _ _ _ _ _ _ _ _ _ _ A) by lia. done. Qed.
Arguments arrived_fields {s R p inp nf x o m H pkt}.

Lemma field_bytes H off n : bytes_ok H -> bytes_ok (field H off n).
Proof. intros HB. by apply Forall_take, Forall_drop. Qed.

Lemma field_range H off n : bytes_ok H -> length H = 20%nat -> (off + n <= 20)%nat -> 0 <= le_dec (field H off n) < 256 ^ Z.of_nat n.
Proof. intros HB L Hn. pose proof (le_dec_bound (field H off n) (field_bytes _ _ _ HB)) as Hr. unfold field in *. rewrite length_take, length_drop, L in Hr. by replace (n `min` (20 - off))%nat with n in Hr by lia. Qed.

Lemma be_field H off n : bytes_ok H -> length H = 20%nat -> (off + 2 <= 20)%nat -> n = 2%nat -> hton16 (le_dec (field H off n)) = be_dec (field H off n) /\ 0 <= be_dec (field H off n) < 65536.
Proof.
  intros HB L Hn ->. assert (length (field H off 2) = 2%nat) as L2 by (unfold field; rewrite length_take, length_drop; lia). rewrite hton16_be. pose proof (le_enc_dec (field H off 2) (field_bytes _ _ _ HB)) as E. rewrite L2 in E. rewrite E. split; [done|].
  pose proof (hton16_range (le_dec (field H off 2))) as Hr. by rewrite hton16_be, E in Hr.
Qed.

Lemma arrived_H s R p inp nf x o m H pkt : arrived s R p inp nf x o m H pkt -> bytes_ok H /\ length H = 20%nat.
Proof. intros A. destruct (a_room A). split; [apply (a_bytes A)|]. rewrite (a_head A), length_take, length_drop. lia. Qed.

Lemma arrived_chksum s R p inp nf x o m H pkt n : arrived s R p inp nf x o m H pkt -> 0 <= n <= x.(len) -> exists k, chksum_at s.(hp) (p, o) n = Some k /\ (k =? 0) = (Checksum.rfc1071 (take (Z.to_nat n) pkt) =? 0).
Proof.
  intros A Hn. destruct (arrived_facts A) as (_ & ? & ? & ? & ? & ? & Ht). destruct (a_room A). unfold chksum_at. rewrite (peek_own _ _ _ m) by (lia || apply (a_block A)). rewrite Z.add_0_r, <- Ht by lia.
  assert (bytes_ok (take (Z.to_nat n) pkt)) as HB by apply Forall_take, (a_bytes A). eexists. split; [done|]. rewrite Checksum.buffer_checksum; [|done|rewrite length_take; lia]. apply Checksum.hton16_zero, Checksum.rfc1071_range, HB.
Qed.

Lemma arrived_realloc s R p inp nf x o m H pkt n : arrived s R p inp nf x o m H pkt -> unshared s.(hp) (chain_at s.(hp) p) = true -> 0 <= n ->
  exists h c x', pbuf_realloc s.(hp) (Some p) n = Some (h, c) /\ x'.(len) = Z.min x.(len) n /\ fewer s.(hp) h /\ forall g, arrived (set_ip_data g (set_hp h s)) R p inp nf x' o m H (take (Z.to_nat n) pkt).
Proof.
  intros [I Ha Hm1 (l & C & Ho & Fi) Hp Hx Ep Hb Hr EH HB Epk Hn] U Hn0. assert (own s.(hp) R p l) as O. { split; [done..|]. destruct (chain_at_ok _ _ _ (i_counted _ _ I) Ha) as [C' _]. by rewrite <- (chain_unique _ _ _ _ C' C). }
  destruct (realloc_own _ _ _ _ x n O Fi Hx Hn0) as (h & c & l' & x' & E & I' & C' & Ho' & Fi' & Hp' & Epk' & Hx' & Ep' & _ & El & Hb' & Fw). exists h, c, x'. do 3 (split; [done|]). intros g. split; try done; cbn; [by exists l'|by rewrite Ep'|by rewrite Hb'|split; [apply HB|apply Forall_take, HB]|by rewrite <- Epk].
Qed.

Lemma arrived_sendable s R p inp nf x o m H pkt : arrived s R p inp nf x o m H pkt -> exists l, sendable s.(hp) R p x o m l /\ filled s.(hp) (p :: l) = true.
Proof.
  intros A. destruct (arrived_facts A) as (Hw & ? & ? & ? & _). destruct A as [I Ha Hm1 (l & C & Ho & Fi) Hp Hx Ep Hbl [? ?] _ _ _ _]. destruct l as [|p' l]; [done|]. pose proof C as ([= <-] & _). exists l. split; [|done]. destruct (c_ref _ _ (i_counted _ _ I) p x Hx) as [Er _].
  split; try done; [rewrite Er, Hm1, Hp; done|apply (owned_readable _ R); [done|by eapply owned_cons]|]. pose proof (chain_nodup _ _ _ C) as Hnd. apply NoDup_cons in Hnd. destruct Hnd as [Hnl _].
  intros a y b ob Hal Hy Epy ->%list_elem_of_singleton. destruct (Ho a ltac:(by right)) as (y' & Hy' & Hwy). rewrite Hy in Hy'. injection Hy' as <-. destruct (owned_block _ _ _ _ I Hy Hwy) as (o' & m' & Epy' & _). rewrite Epy in Epy'. injection Epy' as -> _. done.
Qed.

(** The header is taken off. *)
Lemma arrived_down s R p inp nf x o m H pkt n : arrived s R p inp nf x o m H pkt -> 0 <= n <= x.(len) -> n < 32768 -> let h := put p (moved_header (- n) x) s.(hp) in
  pbuf_header s.(hp) (Some p) (- n) = Some (h, 0) /\ packet h p = drop (Z.to_nat n) pkt /\ exists l, sendable h R p (moved_header (- n) x) (o + n) m l /\ filled h (p :: l) = true.
Proof.
  intros A Hn Hb h. destruct (arrived_sendable _ _ _ _ _ _ _ _ _ _ A) as (l & S & Fi). destruct (header_dropped _ _ _ _ _ _ _ n S Hn Hb) as (E & S' & Ep & Fi'). fold h in S', Ep, Fi'. rewrite (a_packet A) in Ep. split; [done|]. split; [done|]. exists l. by rewrite Fi'.
Qed.

Lemma header_too_long h p x n : h.(pbufs) !! p = Some x -> 0 < n < 65536 -> x.(len) < n -> pbuf_header h (Some p) (- n) = None.
Proof. intros Hx Hn Hl. unfold pbuf_header. rewrite Hx. rewrite Z.opp_involutive, u16_small by lia. by rewrite (proj2 (Z.eqb_neq _ _)), (proj2 (Z.ltb_ge _ _)), (proj2 (Z.leb_gt _ _)) by lia. Qed.

(** The header is put back. *)
Lemma header_back s R p inp nf x o m H pkt n : arrived s R p inp nf x o m H pkt -> 0 <= n <= x.(len) -> n < 32768 -> pbuf_header (put p (moved_header (- n) x) s.(hp)) (Some p) n = Some (s.(hp), 0).
Proof.
  intros A Hn Hb. destruct (arrived_facts A) as (Hw & ? & ? & ? & ? & ? & _). destruct (a_room A). unfold pbuf_header. assert (put p x s.(hp) = s.(hp)) as E by apply put_id, (a_pbuf A).
  assert (forall y, y = x -> put p y (put p (moved_header (- n) x) s.(hp)) = s.(hp)) as E' by (intros y ->; by rewrite put_put).
  assert (moved_header 0 x = x) as E0. { unfold moved_header. rewrite (a_payload A), !Z.add_0_r, Z.sub_0_r, <- (a_payload A). by destruct x. }
  destruct (Z.eqb_spec n 0) as [->|Hn0]; [change (- 0) with 0; by rewrite E0, E|]. rewrite put_eq, (proj2 (Z.ltb_lt _ _)) by lia. cbn [orb moved_header set_tot_len set_len set_payload payload tot_len len type]. rewrite (a_payload A).
  unfold owns_memory in Hw. rewrite Hw, bool_decide_eq_true_2, (proj2 (Z.ltb_ge _ _)) by (done || lia). rewrite E'; [done|]. rewrite !u16_small by lia. rewrite <- !Z.add_assoc, Z.add_opp_diag_l, !Z.add_0_r. replace (o - - n - n) with o by lia. rewrite <- (a_payload A). by destruct x.
Qed.

Lemma hlen_range H : bytes_ok H -> length H = 20%nat -> 0 <= hlen_of H <= 60.
Proof. intros HB L. unfold hlen_of. pose proof (Z.mod_pos_bound (le_dec (field H 0 1)) 16 ltac:(lia)). lia. Qed.

(** A packet from the device is a packet that has arrived. *)
Lemma device_arrived s R data ms h p inp nf : inv s.(hp) R -> bytes_ok data -> 20 <= Z.of_nat (length data) < 65536 -> malloc_ok s.(hp) ms = true -> PbufDevice.device_pbuf s.(hp) data ms = Some (h, Some p) ->
  s.(netifs) !! inp = Some nf -> exists x m, x.(len) = Z.min (Z.of_nat (length data)) 1516 /\ unshared h (chain_at h p) = true /\ arrived (set_hp h s) (R ⊎ {[+ p +]}) p inp nf x 0 m (take 20 data) data.
Proof.
  intros I HB Hl Hm E Hn. pose proof (PbufDevice.device_pbuf_legal _ _ _ _ _ Hm (proj2 Hl) E) as Ha. destruct (PbufDevice.device_chain s.(hp) R data ms I ltac:(lia) Ha) as (h' & p' & E' & Hd). rewrite E in E'. injection E' as <- <-. destruct Hd as (I' & Hm1 & l & x & C & Ho & Fi & U & Ed & Hx & Ep & Elen).
  assert (p ∈ R ⊎ {[+ p +]}) as Hin by multiset_solver. assert (own h (R ⊎ {[+ p +]}) p l) as O by done. destruct (own_at _ _ _ _ O) as [El Epk]. destruct (own_head _ _ _ _ O) as (x' & o & m & l' & El' & Hx' & _ & Ep' & Hb & ? & ? & ? & Hpr & _ & Ec & _).
  rewrite Hx in Hx'. injection Hx' as <-. rewrite Ep in Ep'. injection Ep' as <-. exists x, m. split; [done|]. split; [by rewrite El|]. split; try done; [by exists l|lia| |split; [by apply Forall_take|done]|by rewrite <- Ed, <- Epk].
  rewrite drop_0. rewrite <- Ed, El', contents_cons, Ec, drop_0, take_app_le by (rewrite length_take; lia). rewrite firstn_firstn. f_equal. lia.
Qed.

(** The first buffer is long enough for any header that the packet has. *)
Lemma device_classify s h inp nf data n : bytes_ok data -> 20 <= Z.of_nat (length data) -> n = Z.min (Z.of_nat (length data)) 1516 -> classify (set_hp h s) inp nf (take 20 data) n data = classify s inp nf (take 20 data) (Z.of_nat (length data)) data.
Proof.
  intros HB Hl ->. assert (length (take 20 data) = 20%nat) as LH by (rewrite length_take; lia). pose proof (hlen_range (take 20 data) ltac:(by apply Forall_take) LH) as Hh. unfold classify. replace (Z.min (Z.of_nat (length data)) 1516 <? hlen_of (take 20 data)) with (Z.of_nat (length data) <? hlen_of (take 20 data)); [done|].
  destruct (Z.ltb_spec (Z.of_nat (length data)) (hlen_of (take 20 data))), (Z.ltb_spec (Z.min (Z.of_nat (length data)) 1516) (hlen_of (take 20 data))); done || lia.
Qed.

Section input.
Variable ip_frag : stack -> addr -> addr -> Z -> option (stack * Z * list ip_action).
Variable output_err : Z.
Variable ip_reass : stack -> addr -> option (stack * option addr * list ip_action).
Abbreviation deliver := (deliver ip_frag output_err).
Abbreviation ip_input := (ip_input ip_frag output_err ip_reass).
Abbreviation icmp_input := (icmp_input ip_frag output_err).
Abbreviation icmp_dest_unreach := (icmp_dest_unreach ip_frag output_err).

(** What the upper layers find. *)
Definition upper_globals (inp p : addr) (o : Z) (H : bytes) : ip_globals := MkGlobals (Some inp) (Some (p, o)) (hlen_of H) (src_of H) (dest_of H).
Record upper (s s1 : stack) (R : gmultiset addr) (p inp : addr) (o : Z) (H pkt : bytes) (first : Z) : Prop := {
  u_fewer : fewer s.(hp) s1.(hp);
  u_inv : inv s1.(hp) R;
  u_packet : packet s1.(hp) p = drop (Z.to_nat (hlen_of H)) pkt;
  u_globals : s1.(ip_data) = upper_globals inp p o H;
  u_memory : exists x m l, x.(len) = first - hlen_of H /\ sendable s1.(hp) R p x (o + hlen_of H) m l /\ filled s1.(hp) (p :: l) = true /\ 0 <= o /\ take (Z.to_nat (hlen_of H)) (drop (Z.to_nat o) m) = take (Z.to_nat (hlen_of H)) pkt /\ bytes_ok pkt /\ H = take 20 (drop (Z.to_nat o) m);
  u_rest : s1.(ip_id) = s.(ip_id) /\ s1.(netifs) = s.(netifs) /\ s1.(netif_list) = s.(netif_list) /\ s1.(netif_default) = s.(netif_default) /\ s1.(reass) = s.(reass) }.

Lemma deliver_short s R p inp nf x o m H pkt ms : arrived s R p inp nf x o m H pkt -> x.(len) < hlen_of H -> deliver s p inp (p, o) (hlen_of H) ms = None.
Proof.
  intros A Hl. destruct (arrived_H _ _ _ _ _ _ _ _ _ _ A) as [HB L]. pose proof (hlen_range H HB L). destruct (arrived_facts A) as (_ & ? & _). unfold deliver. rewrite (a_netif A). rewrite (arrived_get _ _ _ _ _ _ _ _ _ _ 0 1 A) by lia.
  by rewrite (header_too_long _ _ x) by (apply (a_pbuf A) || lia).
Qed.

Lemma deliver_packet s R p inp nf x o m H pkt ms : arrived s R p inp nf x o m H pkt -> hlen_of H <= x.(len) -> s.(ip_data).(current_iphdr_src) = src_of H -> s.(ip_data).(current_iphdr_dest) = dest_of H ->
  exists s1, upper s s1 R p inp o H pkt x.(len) /\ s1.(hp) = put p (moved_header (- hlen_of H) x) s.(hp) /\ deliver s p inp (p, o) (hlen_of H) ms =
    (LET (s', acts) <-
       (if proto_of H =? IP_PROTO_TCP then Some (s1, [TcpInput p (upper_globals inp p o H)])
        else if proto_of H =? IP_PROTO_ICMP then icmp_input s1 p inp ms
        else if unicast nf (dest_of H) then
          LET (s', acts) <- icmp_dest_unreach (set_ip_data (upper_globals inp p o H) s) p ICMP_DUR_PROTO ms in
          LET (s', c) <- free s' p in Some (s', acts ++ c)
        else free s1 p) in
     Some (set_ip_data no_globals s', acts)).
Proof.
  intros A Hl Es Ed. destruct (arrived_H _ _ _ _ _ _ _ _ _ _ A) as [HB L]. pose proof (hlen_range H HB L). destruct (arrived_down _ _ _ _ _ _ _ _ _ _ (hlen_of H) A ltac:(lia) ltac:(lia)) as (Eh & Epk & l & S & Fi). destruct (arrived_facts A) as (_ & _ & _ & _ & _ & _ & Htk). destruct (a_room A) as [Hoo _].
  pose proof (field_range H 0 1 HB L ltac:(lia)) as Hf0. destruct (nibbles (le_dec (field H 0 1)) ltac:(lia)) as [_ En].
  set (s1 := set_ip_data (upper_globals inp p o H) (set_hp (put p (moved_header (- hlen_of H) x) s.(hp)) s)). exists s1. split.
  { split; [apply (fewer_put _ _ x), (a_pbuf A)|apply (s_inv S)|done|done| |done]. exists (moved_header (- hlen_of H) x), m, l. split; [cbn; lia|]. do 3 (split; [done|]). split; [by rewrite Htk by lia|]. split; [apply (a_bytes A)|apply (a_head A)]. }
  split; [done|]. unfold deliver. rewrite (a_netif A), (arrived_get _ _ _ _ _ _ _ _ _ _ 0 1 A), Eh by lia.
  change (Z.to_nat 0) with 0%nat. change (Z.to_nat 1) with 1%nat. rewrite En, Es, Ed. replace (le_dec (field H 0 1) mod 16 * 4) with (hlen_of H) by (unfold hlen_of; lia). fold (upper_globals inp p o H). fold s1.
  change (get (put p (moved_header (- hlen_of H) x) s.(hp)) (p, o) 9 1) with (get s.(hp) (p, o) 9 1). rewrite (arrived_get _ _ _ _ _ _ _ _ _ _ 9 1 A) by lia. change (le_dec (field H (Z.to_nat 9) (Z.to_nat 1))) with (proto_of H). cbn [upper_globals current_iphdr_dest].
  destruct (proto_of H =? IP_PROTO_TCP); [done|]. destruct (proto_of H =? IP_PROTO_ICMP); [done|]. rewrite <- negb_orb. fold (unicast nf (dest_of H)). destruct (unicast nf (dest_of H)); [|by destruct (free s1 p) as [[? ?]|]].
  cbn [s1 hp set_ip_data set_hp]. rewrite (header_back _ _ _ _ _ _ _ _ _ _ _ A), (a_pbuf A) by lia. replace (set_payload (Some (p, o)) x) with x by (rewrite <- (a_payload A); by destruct x). rewrite put_id by apply (a_pbuf A). done.
Qed.

(** The packet is dropped: freed, with nothing sent. *)
Definition dropped (R : gmultiset addr) (p : addr) (r : option (stack * list ip_action)) : Prop :=
  exists s c, r = Some (s, map CustomFreed c) /\ inv s.(hp) (R ∖ {[+ p +]}).

Lemma free_dropped s R p : inv s.(hp) R -> p ∈ R -> dropped R p (free s p).
Proof. intros I Hp. destruct (free_own s R p I Hp) as (h & c & E & I'). by exists (set_hp h s), c. Qed.

Lemma dropped_before R p c (f : stack -> stack) r : (forall s, (f s).(hp) = s.(hp)) -> dropped R p r -> dropped R p (LET (s, o) <- r in Some (f s, map CustomFreed c ++ o)).
Proof. intros Hf (s & c' & -> & I). exists (f s), (c ++ c'). split; [by rewrite map_app|by rewrite Hf]. Qed.

(** The outcome for each verdict. *)
Definition result (s : stack) (R : gmultiset addr) (p inp : addr) (o : Z) (H cut : bytes) (first : Z) (ms : list answer) (r : option (stack * list ip_action)) (v : verdict) : Prop :=
  match v with
  | Dropped => dropped R p r
  | Malformed => r = None
  | ToTcp => exists s1 c, upper s s1 R p inp o H cut first /\ r = Some (set_ip_data no_globals s1, map CustomFreed c ++ [TcpInput p (upper_globals inp p o H)])
  | ToIcmp => exists s1 c, upper s s1 R p inp o H cut first /\ r = LET (s', acts) <- icmp_input s1 p inp ms in Some (set_ip_data no_globals s', map CustomFreed c ++ acts)
  | Unreachable => exists s1 c, inv s1.(hp) R /\ packet s1.(hp) p = cut /\ r = LET (s', acts) <- icmp_dest_unreach s1 p ICMP_DUR_PROTO ms in LET (s', c') <- free s' p in Some (set_ip_data no_globals s', map CustomFreed c ++ acts ++ c')
  | Fragment => exists s1 c, inv s1.(hp) R /\ packet s1.(hp) p = cut /\ r = LET (s', q, acts) <- ip_reass s1 p in
      match q with
      | None => Some (s', map CustomFreed c ++ acts)
      | Some q => LET y <- s'.(hp).(pbufs) !! q in LET iphdr <- y.(payload) in LET (s', acts') <- deliver s' q inp iphdr (hlen_of H) ms in Some (s', map CustomFreed c ++ acts ++ acts')
      end
  end.

(** Behind the checks: fragments go to the reassembly, others to their protocol. *)
Lemma accepted_ok s s1 R p inp nf x o m H pkt ms c r : arrived s1 R p inp nf x o m H pkt -> s1.(ip_data).(current_iphdr_src) = src_of H -> s1.(ip_data).(current_iphdr_dest) = dest_of H -> s1.(ip_id) = s.(ip_id) ->
  s1.(netifs) = s.(netifs) -> s1.(netif_list) = s.(netif_list) -> s1.(netif_default) = s.(netif_default) -> s1.(reass) = s.(reass) -> (total_of H <? hlen_of H) = (x.(len) <? hlen_of H) -> fewer s.(hp) s1.(hp) ->
  (LET (s', acts) <- (LET off <- get s1.(hp) (p, o) 6 2 in if negb (Z.land off (hton16 (Z.lor IP_OFFMASK IP_MF)) =? 0) then
      LET (s', q, acts) <- ip_reass s1 p in
      match q with
      | None => Some (s', acts)
      | Some q => LET y <- s'.(hp).(pbufs) !! q in LET iphdr <- y.(payload) in LET (s', acts') <- deliver s' q inp iphdr (hlen_of H) ms in Some (s', acts ++ acts')
      end
    else deliver s1 p inp (p, o) (hlen_of H) ms) in Some (s', map CustomFreed c ++ acts)) = r ->
  result s R p inp o H pkt x.(len) ms r (if is_fragment H then Fragment else if total_of H <? hlen_of H then Malformed else if proto_of H =? IP_PROTO_TCP then ToTcp else if proto_of H =? IP_PROTO_ICMP then ToIcmp else if unicast nf (dest_of H) then Unreachable else Dropped).
Proof.
  intros A Es Ed Ei En El Ef Eq Ehl Fw Er. destruct (arrived_H _ _ _ _ _ _ _ _ _ _ A) as [HB L]. destruct (arrived_fields A) as (_ & _ & G6 & _). rewrite G6 in Er. destruct (be_field H 6 2 HB L ltac:(lia) eq_refl) as [E6 _]. pose proof (field_range H 6 2 HB L ltac:(lia)) as Hr.
  rewrite fragment_bits, E6 in Er by done. fold (is_fragment H) in Er. rewrite Ehl. destruct (is_fragment H).
  - exists s1, c. split; [apply (a_inv A)|]. split; [apply (a_packet A)|]. rewrite <- Er. destruct (ip_reass s1 p) as [[[s' [q|]] acts]|]; [|done..]. destruct (s'.(hp).(pbufs) !! q) as [y|]; [|done]. destruct (payload y) as [q'|]; [|done]. by destruct (deliver _ _ _ _ _ _) as [[? ?]|].
  - destruct (Z.ltb_spec x.(len) (hlen_of H)) as [Hs|Hs]; [rewrite (deliver_short _ _ _ _ _ _ _ _ _ _ _ A Hs) in Er; by rewrite <- Er|].
    destruct (deliver_packet _ _ _ _ _ _ _ _ _ _ ms A Hs Es Ed) as (s2 & [Fw2 I2 P2 G2 M2 (Ei2 & En2 & El2 & Ef2 & Eq2)] & _ & E). rewrite E in Er. assert (upper s s2 R p inp o H pkt x.(len)) as Up by (split; [by eapply fewer_trans|done..|]; repeat split; congruence).
    destruct (proto_of H =? IP_PROTO_TCP); [exists s2, c; by rewrite <- Er|]. destruct (proto_of H =? IP_PROTO_ICMP); [exists s2, c; split; [done|]; rewrite <- Er; by destruct (icmp_input s2 p inp ms) as [[? ?]|]|]. destruct (unicast nf (dest_of H)).
    + exists (set_ip_data (upper_globals inp p o H) s1), c. split; [apply (a_inv A)|]. split; [apply (a_packet A)|]. rewrite <- Er. destruct (icmp_dest_unreach _ _ _ _) as [[s' ?]|]; [|done]. by destruct (free s' p) as [[? ?]|].
    + pose proof (dropped_before R p c (set_ip_data no_globals) _ ltac:(done) (free_dropped s2 R p I2 (a_held A))) as Hd. cbn [result]. rewrite <- Er. by destruct (free s2 p) as [[? ?]|].
Qed.

Lemma ip_input_ok s R p inp nf x o m H pkt ms : arrived s R p inp nf x o m H pkt -> unshared s.(hp) (chain_at s.(hp) p) = true -> (forall a, a ∈ s.(netif_list) -> is_Some (s.(netifs) !! a)) ->
  result s R p inp o H (take (Z.to_nat (total_of H)) pkt) (Z.min x.(len) (total_of H)) ms (ip_input s p inp ms) (classify s inp nf H x.(len) pkt).
Proof.
  intros A U Hn. destruct (arrived_fields A) as (G0 & G2 & _). destruct (arrived_H _ _ _ _ _ _ _ _ _ _ A) as [HB L]. pose proof (hlen_range H HB L). destruct (arrived_facts A) as (_ & ? & ? & ? & Et & ? & _). pose proof (field_range H 0 1 HB L ltac:(lia)) as Hf0. destruct (nibbles (le_dec (field H 0 1)) ltac:(lia)) as [Ev En].
  destruct (be_field H 2 2 HB L ltac:(lia) eq_refl) as [El Hlr]. fold (total_of H) in El, Hlr. pose proof (free_dropped s R p (a_inv A) (a_held A)) as Hdrop.
  assert (exists r, ip_input s p inp ms = r) as [r Er] by by eexists. rewrite Er. unfold ip_input in Er. rewrite (a_pbuf A), (a_payload A), G0, Ev, En, G2, El in Er. replace (le_dec (field H 0 1) mod 16 * 4) with (hlen_of H) in Er by (unfold hlen_of; lia). rewrite u16_small in Er by lia. revert Er.
  unfold classify. rewrite <- Et. destruct (le_dec (field H 0 1) / 16 =? 4); cbn [negb orb]; [|by intros <-]. destruct (Z.ltb_spec x.(len) (hlen_of H)) as [|Hh]; cbn [orb]; [by intros <-|]. destruct (Z.ltb_spec x.(tot_len) (total_of H)) as [|Ht]; cbn [orb]; [by intros <-|].
  destruct (arrived_chksum _ _ _ _ _ _ _ _ _ _ (hlen_of H) A ltac:(lia)) as (k & -> & ->). destruct (Checksum.rfc1071 _ =? 0); cbn [negb]; [|by intros <-].
  destruct (arrived_realloc _ _ _ _ _ _ _ _ _ _ (total_of H) A U ltac:(lia)) as (h & c & x' & -> & Hl' & Fw & A'). set (cut := take _ pkt) in *. specialize (A' (MkGlobals s.(ip_data).(current_netif) s.(ip_data).(current_ip4_header) s.(ip_data).(current_ip_header_tot_len) (src_of H) (dest_of H))).
  destruct (arrived_fields A') as (_ & _ & G6 & G9 & G12 & G16). cbn [hp set_ip_data set_hp] in G6, G9, G12, G16. rewrite G16, G12. set (s1 := set_ip_data _ _) in *.
  destruct (find_netif_ok s1 inp nf (dest_of H) (a_netif A') Hn) as (n & -> & Hn'). rewrite (a_netif A'), G9. change (for_us s1 inp) with (for_us s inp) in Hn'. unfold unicast at 1. rewrite negb_involutive.
  pose proof (free_dropped s1 R p (a_inv A') (a_held A')) as Hdrop'. pose proof (dropped_before R p c (fun s => s) _ ltac:(done) Hdrop') as Hd.
  destruct (ip4_addr_isbroadcast (src_of H) nf || ip_addr_ismulticast (src_of H)); [by intros <-|].
  assert (exists n', match n with Some _ => n | None => if has_flag nf NETIF_FLAG_PRETEND_TCP && (proto_of H =? IP_PROTO_TCP) then Some inp else None end = n' /\ (n' = None <-> for_us s inp (dest_of H) || has_flag nf NETIF_FLAG_PRETEND_TCP && (proto_of H =? IP_PROTO_TCP) = false)) as (n' & -> & Hn2).
  { eexists. split; [done|]. rewrite orb_false_iff, <- Hn'. destruct n; [naive_solver|]. destruct (_ && _); naive_solver. }
  destruct (for_us s inp (dest_of H) || _) eqn:Ef; cbn [negb]; [|rewrite (proj2 Hn2 eq_refl); by intros <-]. destruct n' as [n'|]; [|destruct Hn2 as [Hn2 _]; by specialize (Hn2 eq_refl)].
  intros Er. rewrite <- Hl'. eapply accepted_ok; [exact A'|done..| |done|by rewrite <- Er]. rewrite Hl'. destruct (Z.ltb_spec (total_of H) (hlen_of H)), (Z.ltb_spec (x.(len) `min` total_of H) (hlen_of H)); done || lia.
Qed.

(** What [ip_input] does with a packet from the device. *)
Lemma device_input s R data ms h p inp nf ms' : inv s.(hp) R -> bytes_ok data -> 20 <= Z.of_nat (length data) < 65536 -> malloc_ok s.(hp) ms = true ->
  PbufDevice.device_pbuf s.(hp) data ms = Some (h, Some p) -> s.(netifs) !! inp = Some nf -> (forall a, a ∈ s.(netif_list) -> is_Some (s.(netifs) !! a)) ->
  let H := take 20 data in
  result (set_hp h s) (R ⊎ {[+ p +]}) p inp 0 H (take (Z.to_nat (total_of H)) data) (Z.min (Z.min (Z.of_nat (length data)) 1516) (total_of H)) ms' (ip_input (set_hp h s) p inp ms') (classify s inp nf H (Z.of_nat (length data)) data).
Proof.
  intros I HB Hl Ha E Hn Hnl H. destruct (device_arrived _ _ _ _ _ _ _ _ I HB Hl Ha E Hn) as (x & m & Elen & U & A). pose proof (ip_input_ok _ _ _ _ _ _ _ _ _ _ ms' A U Hnl) as Hr. unfold H. rewrite (device_classify s h inp nf data x.(len) HB ltac:(lia) Elen) in Hr. by rewrite Elen in Hr.
Qed.

(** C27: [ip_input] treats a packet of at least twenty bytes that was read from the
    device as its header asks for, whatever the state of the packet buffers.
    One that is not IPv4, is shorter than it says, has a wrong checksum, comes
    from a broadcast or multicast address, is for somebody else, or has an
    unknown protocol and is not for a single host is freed, with no effect.  One
    for TCP is handed over once, cut to its length and without its header, with
    the addresses in the global variables, also when it is for another host and
    the interface pretends to be everybody.  In these two cases nothing aborts,
    the invariant of the packet buffers holds and nothing else was freed.  A
    packet whose total length is below its header length aborts.  The others are
    passed on, cut to their length: ICMP to [icmp_input] and unknown protocols
    for a single host to [icmp_dest_unreach], before they are freed, fragments
    to the reassembly, whose datagram is delivered; what happens then is what
    these functions do ([ping_answered] and [reassembled] say more). *)
Theorem packet_classified s R data ms h p inp nf ms' : inv s.(hp) R -> bytes_ok data -> 20 <= Z.of_nat (length data) < 65536 -> malloc_ok s.(hp) ms = true ->
  PbufDevice.device_pbuf s.(hp) data ms = Some (h, Some p) -> s.(netifs) !! inp = Some nf -> (forall a, a ∈ s.(netif_list) -> is_Some (s.(netifs) !! a)) ->
  let H := take 20 data in let v := classify s inp nf H (Z.of_nat (length data)) data in let r := ip_input (set_hp h s) p inp ms' in
  result (set_hp h s) (R ⊎ {[+ p +]}) p inp 0 H (take (Z.to_nat (total_of H)) data) (Z.min (Z.min (Z.of_nat (length data)) 1516) (total_of H)) ms' r v /\
  (v = Dropped -> exists s' acts, r = Some (s', acts) /\ inv s'.(hp) R) /\ (v = ToTcp -> exists s' acts, r = Some (s', acts) /\ inv s'.(hp) (R ⊎ {[+ p +]})).
Proof.
  intros I HB Hl Ha E Hn Hnl H v r. pose proof (device_input s R data ms h p inp nf ms' I HB Hl Ha E Hn Hnl) as Hr. cbv zeta in Hr. fold H v r in Hr. split; [done|]. split; intros Ev; rewrite Ev in Hr; cbn [result] in Hr.
  - destruct Hr as (s' & c & -> & I'). exists s', (map CustomFreed c). split; [done|]. by replace R with ((R ⊎ {[+ p +]}) ∖ {[+ p +]}) by multiset_solver.
  - destruct Hr as (s1 & c & Up & ->). eexists _, _. split; [done|]. apply Up.
Qed.

End input.

(** ** Samples *)

(** The interface as tun2socks sets it up, at 10.0.0.2/24 and without an MTU, in
    a stack that has nothing else. *)
Definition tun : netif := MkNetif (le_dec [10; 0; 0; 2]) (le_dec [255; 255; 255; 0]) 0 (Z.lor NETIF_FLAG_UP NETIF_FLAG_PRETEND_TCP).
Definition stack0 : stack := MkStack empty_heap 0 no_globals {[ 1 := tun ]} [1] (Some 1) (MkReassembly ∅ None 0).

(** The parameters are not called for whole packets without an MTU. *)
Definition no_frag (s : stack) (p n : addr) (d : Z) : option (stack * Z * list ip_action) := None.
Definition no_reass (s : stack) (p : addr) : option (stack * option addr * list ip_action) := None.

(** Data with the checksum of it between [x] and [y]. *)
Definition with_sum (x y : bytes) : bytes := x ++ be_enc 2 (Checksum.rfc1071 (x ++ [0; 0] ++ y)) ++ y.
Definition addresses : bytes := [10; 0; 0; 1; 10; 0; 0; 2].
Definition at_4096 : list answer := [MkAnswer 4096 0 []].
Definition at_8192 : list answer := [MkAnswer 8192 0 []].

Definition device_heap (data : bytes) : heap := match PbufDevice.device_pbuf empty_heap data at_4096 with Some (h, _) => h | None => empty_heap end.
Lemma stack0_netifs a : a ∈ stack0.(netif_list) -> is_Some (stack0.(netifs) !! a).
Proof. intros ->%list_elem_of_singleton. by exists tun. Qed.

(** Four bytes for TCP. *)
Definition tcp_packet : bytes := with_sum [0x45; 0; 0; 24; 0; 0; 0; 0; 64; 6] addresses ++ [1; 2; 3; 4].

Lemma packet_classified_witness : let r := ip_input no_frag 0 no_reass (set_hp (device_heap tcp_packet) stack0) 4096 1 at_8192 in
  result no_frag 0 no_reass (set_hp (device_heap tcp_packet) stack0) (∅ ⊎ {[+ 4096 +]}) 4096 1 0 (take 20 tcp_packet) tcp_packet 24 at_8192 r ToTcp /\
  (ToTcp = Dropped -> exists s' acts, r = Some (s', acts) /\ inv s'.(hp) ∅) /\ (ToTcp = ToTcp -> exists s' acts, r = Some (s', acts) /\ inv s'.(hp) (∅ ⊎ {[+ 4096 +]})).
Proof.
  assert (classify stack0 1 tun (take 20 tcp_packet) 24 tcp_packet = ToTcp) as <- by (vm_compute; reflexivity).
  refine (packet_classified no_frag 0 no_reass stack0 ∅ tcp_packet at_4096 (device_heap tcp_packet) 4096 1 tun at_8192 empty_inv _ _ _ _ _ stack0_netifs); [vm_compute; repeat constructor; try (by intros [=]); lia|by compute|vm_compute; reflexivity|vm_compute; reflexivity|reflexivity].
Defined.

End Ip4Run.
