(* ===== verification/Ip4Out.v ===== *)
(** * Packets that leave the IPv4 layer

    What [ip_output_if] of [Ip4] gives to the interface: a header with the
    fields that were asked for and a checksum that verifies, in front of the
    payload ([output_if_ok]); and that a stack that reads this from its device
    finds the payload again ([ip_roundtrip]). *)

From stdpp Require Import gmultiset.
From S2P Require Import Prelude Words Checksum LinkedList Pbuf PbufChain PbufData PbufRun PbufDevice Ip4 Icmp Ip4Run.
Open Scope Z_scope.
Import ByteOrder Pbuf PbufChain PbufData PbufRun Ip4 Icmp Ip4Run.

Module Ip4Out.

(** ** Writing in front of a payload *)

Lemma rehead_wrote h q A H B H' : view h q A H B -> length H' = length H -> wrote h (rehead h q A H' B) [q.1].
Proof.
  intros [E L] LH. split; [done|intros b Hb; cbn; rewrite lookup_insert_ne; [done|set_solver]|]. intros b m Hb. cbn. destruct (decide (b = q.1)) as [->|Hne]; [|exists m; by rewrite lookup_insert_ne].
  rewrite lookup_insert_eq. eexists. split; [done|]. rewrite E in Hb. injection Hb as <-. rewrite !length_app. lia.
Qed.

Lemma rehead_chunk h p o x A H B H' n : h.(pbufs) !! p = Some x -> x.(payload) = Some (p, o) -> view h (p, o) A H B -> length H' = length H -> x.(len) = Z.of_nat (length H + n) -> (n <= length B)%nat ->
  chunk (rehead h (p, o) A H' B) p = H' ++ take n B.
Proof.
  intros Hx Hp [E L] LH Hl Hn. cbn in E, L. unfold chunk, rehead. cbn [pbufs fst]. rewrite Hx. unfold read. rewrite Hp. cbn [blocks]. rewrite lookup_insert_eq, Z.add_0_r, Hl. rewrite !length_app, !(proj2 (Z.leb_le _ _)) by lia. cbn [andb default from_option]. unfold id.
  rewrite drop_app_length' by lia. rewrite take_app_ge by lia. f_equal. f_equal. lia.
Qed.

Lemma payloads_ok h R p l : inv h R -> p ∈ R -> chain h (Some p) l -> readable h l -> payloads h p = Some (map (chunk h) l).
Proof.
  intros I Hp C Hr. unfold payloads. destruct (chain_at_ok _ _ _ (i_counted _ _ I) Hp) as [C' _]. rewrite (chain_unique _ _ _ _ C' C). clear C C'. apply mapM_Some. induction l as [|a l IH]; [constructor|]. cbn [map]. constructor; [|apply IH; intros b Hb; apply Hr; by right].
  destruct (Hr a ltac:(left)) as (x & d & Hx & Hd). unfold chunk. rewrite Hx. by rewrite Hd.
Qed.

(** ** Headers *)

(** Room for a header is taken from in front of the payload. *)
Lemma header_up h R p x o m l n : sendable h R p x o m l -> 0 < n < 32768 -> x.(tot_len) + n < 65536 ->
  pbuf_header h (Some p) n = (if o <? n then Some (h, 1) else Some (put p (moved_header n x) h, 0)) /\ (n <= o -> inv (put p (moved_header n x) h) R).
Proof.
  intros S Hn Ht. destruct (sendable_facts _ _ _ _ _ _ _ S) as (Hpr & _ & _ & _ & _ & ?). destruct (s_room S) as (? & ? & ?). assert (pbuf_header h (Some p) n = (if o <? n then Some (h, 1) else Some (put p (moved_header n x) h, 0))) as E.
  { unfold pbuf_header. rewrite (s_pbuf S), (s_payload S), (proj2 (Z.eqb_neq _ _)), (proj2 (Z.ltb_lt 0 n)) by lia. fold (owns_memory x). rewrite (s_owns S). cbn [orb]. rewrite bool_decide_eq_true_2 by done. destruct (Z.ltb_spec o n); [by rewrite (proj2 (Z.ltb_lt _ _)) by lia|].
    rewrite (proj2 (Z.ltb_ge _ _)), !u16_small by lia. unfold moved_header. by rewrite (s_payload S). }
  split; [done|]. intros Ho. destruct (header_ok h R p x n (s_inv S) (s_pbuf S) Hpr) as (h' & r & E' & I' & Hr).
  { unfold header_fits. rewrite (s_owns S). rewrite !(proj2 (Z.leb_le _ _)), !(proj2 (Z.ltb_lt _ _)) by lia. done. }
  rewrite E, (proj2 (Z.ltb_ge _ _)) in E' by lia. by injection E' as <- <-.
Qed.

(** A packet with a header in front of it, which is written to the memory in
    front of the payload. *)
Lemma with_header h R p x o m l H : sendable h R p x o m l -> x.(tot_len) + Z.of_nat (length H) < 65536 -> 0 < Z.of_nat (length H) <= o -> Z.of_nat (length H) < 32768 -> let n := length H in
  let h1 := put p (moved_header (Z.of_nat n) x) h in let q := (p, o - Z.of_nat n) in exists A G B, view h1 q A G B /\ length G = n /\
  let h2 := rehead h1 q A H B in sendable h2 R p (moved_header (Z.of_nat n) x) (o - Z.of_nat n) (A ++ H ++ B) l /\ packet h2 p = H ++ packet h p.
Proof.
  intros S Ht Ho Hs n h1 q. destruct (sendable_facts _ _ _ _ _ _ _ S) as (Hpr & Hr & Ec & Ep & _ & ?). destruct (s_room S) as (? & ? & ?). destruct (header_up _ _ _ _ _ _ _ (Z.of_nat n) S ltac:(lia) ltac:(lia)) as [_ I1]. specialize (I1 ltac:(lia)). fold h1 in I1.
  set (A := take (Z.to_nat (o - Z.of_nat n)) m). set (G := take n (drop (Z.to_nat (o - Z.of_nat n)) m)). set (B := drop (Z.to_nat o) m). exists A, G, B.
  assert (m = A ++ G ++ B) as Em. { unfold A, G, B. rewrite <- (take_drop (Z.to_nat (o - Z.of_nat n)) m) at 1. f_equal. rewrite <- (take_drop n (drop (Z.to_nat (o - Z.of_nat n)) m)) at 1. f_equal. rewrite drop_drop. f_equal. lia. }
  assert (length A = Z.to_nat (o - Z.of_nat n)) as LA by (unfold A; rewrite length_take; lia). assert (length G = n) as LH by (unfold G; rewrite length_take, length_drop; lia). assert (length B = length m - Z.to_nat o)%nat as LB by (unfold B; by rewrite length_drop).
  assert (view h1 q A G B) as V. { split; [cbn; by rewrite (s_block S), Em|cbn; lia]. } split; [done|]. split; [done|]. intros h2. pose proof (rehead_wrote h1 q A G B H V ltac:(lia)) as W. fold h2 in W. pose proof (wrote_inv _ _ _ _ I1 W) as I2.
  assert (forall a y, a ∈ l -> pbufs h !! a = Some y -> pbufs h2 !! a = Some y) as Hl. { intros a y Ha Hy. cbn. rewrite lookup_insert_ne; [done|]. intros <-. pose proof (chain_nodup _ _ _ (s_chain S)) as Hnd. apply NoDup_cons in Hnd. by destruct Hnd as [? _]. }
  assert (sendable h2 R p (moved_header (Z.of_nat n) x) (o - Z.of_nat n) (A ++ H ++ B) l) as S2.
  { split; [done|apply (s_held S)| |apply lookup_insert_eq|apply (s_ref S)|apply (s_owns S)|cbn; by rewrite (s_payload S)|apply lookup_insert_eq|cbn; rewrite !length_app; lia| |].
    - eapply chain_nexts; [|apply (s_chain S)]. transitivity (nexts h1); [done|]. by apply (nexts_same h p x (moved_header (Z.of_nat n) x) (s_pbuf S)).
    - intros a Ha. destruct (readable_chunk _ _ a (s_readable S) Ha) as (y & b & ob & mb & Hy & Hp & Hb & ? & ? & ? & _). exists y. unfold read. rewrite Hp. cbn [h2 rehead blocks h1 put]. rewrite lookup_insert_ne by (intros E; apply (s_apart S a y b ob Ha Hy Hp); cbn in E; rewrite E; left). rewrite Hb, Z.add_0_r. rewrite !(proj2 (Z.leb_le _ _)) by lia. eexists. split; [by apply Hl|done].
    - intros a y b ob Ha Hy Hp. destruct (Hr a ltac:(by right)) as (y' & _ & Hy' & _). rewrite (Hl _ _ Ha Hy') in Hy. injection Hy as <-. by apply (s_apart S a y' b ob). }
  split; [done|]. destruct (sendable_facts _ _ _ _ _ _ _ S2) as (_ & _ & _ & -> & _). rewrite Ep, app_assoc. f_equal.
  - etrans; [apply (rehead_chunk h1 p (o - Z.of_nat n) (moved_header (Z.of_nat n) x) A G B H (Z.to_nat x.(len))); [apply put_eq|cbn; by rewrite (s_payload S)|done|done|cbn; lia|lia]|]. f_equal. by rewrite Ec.
  - apply same_contents. intros a Ha. destruct (Hr a ltac:(by right)) as (y & d & Hy & Hd). exists y, y. split; [done|]. split; [by apply Hl|]. do 2 (split; [done|]). intros b ob Hp. cbn. rewrite lookup_insert_ne; [done|]. intros E. apply (s_apart S a y b ob Ha Hy Hp). rewrite <- E. left.
Qed.

(** ** Output *)

Lemma header_length tot_len id src dest ttl tos proto : length (ip_header tot_len id src dest ttl tos proto) = 20%nat.
Proof. unfold ip_header, header_with. rewrite !length_app, !be_enc_length, !le_enc_length. done. Qed.

Definition source (nf : netif) (src : option Z) : Z := match src with Some a => if a =? IPADDR_ANY then nf.(ip_addr) else a | None => nf.(ip_addr) end.
Definition is_word (a : Z) : Prop := 0 <= a < 4294967296.

Section output.
Variable ip_frag : stack -> addr -> addr -> Z -> option (stack * Z * list ip_action).
Variable output_err : Z.
Abbreviation ip_output_if := (ip_output_if ip_frag output_err).

(** What [ip_output_if] does: the packet with its header in front is given to the
    interface or to the fragmentation; without room for the header nothing
    happens. *)
Definition sent (s : stack) (R : gmultiset addr) (p n : addr) (nf : netif) (d : Z) (H : bytes) (r : option (stack * Z * list ip_action)) : Prop :=
  exists s1, inv s1.(hp) R /\ packet s1.(hp) p = H ++ packet s.(hp) p /\ s1.(ip_id) = u16 (s.(ip_id) + 1) /\ s1.(netifs) = s.(netifs) /\ s1.(ip_data) = s.(ip_data) /\
  if negb (nf.(mtu) =? 0) && (nf.(mtu) <? Z.of_nat (length (H ++ packet s.(hp) p))) then r = ip_frag s1 p n d
  else exists c, concat c = H ++ packet s.(hp) p /\ r = Some (s1, output_err, [Output n c d]).

Lemma output_if_ok s R p x o m l n nf src d ttl tos proto : sendable s.(hp) R p x o m l -> s.(netifs) !! n = Some nf -> x.(tot_len) + IP_HLEN < 65536 -> 0 <= s.(ip_id) < 65536 -> is_word d -> is_word (source nf src) ->
  is_byte ttl -> is_byte tos -> is_byte proto ->
  if o <? IP_HLEN then ip_output_if s p src (Some d) ttl tos proto n = Some (s, ERR_BUF, [])
  else sent s R p n nf d (ip_header (x.(tot_len) + IP_HLEN) s.(ip_id) (source nf src) d ttl tos proto) (ip_output_if s p src (Some d) ttl tos proto n).
Proof.
  intros S Hn Ht Hid Hd Ha Httl Htos Hpr. unfold IP_HLEN in *. destruct (header_up _ _ _ _ _ _ _ 20 S ltac:(lia) ltac:(lia)) as [E _]. destruct (sendable_facts _ _ _ _ _ _ _ S) as (_ & _ & _ & _ & Etl & ?). destruct (s_room S) as (? & ? & ?). unfold ip_output_if. rewrite (s_pbuf S), (s_ref S), Hn. cbn [Z.eqb Pos.eqb]. unfold IP_HLEN. rewrite E. destruct (Z.ltb_spec o 20) as [Ho|Ho]; [by destruct s|].
  set (D := ip_header (tot_len x + 20) (ip_id s) (source nf src) d ttl tos proto). assert (length D = 20%nat) as LH by apply header_length. destruct (with_header _ _ _ _ _ _ _ D S ltac:(lia) ltac:(lia) ltac:(lia)) as (A & G & B & V & LG & S2 & Ep). rewrite LH in *. change (Z.of_nat 20) with 20 in *.
  cbn [Z.eqb negb]. rewrite put_eq. cbn [payload moved_header set_tot_len set_len set_payload len tot_len]. rewrite (s_payload S), (proj2 (Z.leb_le _ _)) by lia. fold (source nf src). fold (moved_header 20 x).
  rewrite (make_header_ok _ _ A G B) by (done || lia). cbn [hp set_hp set_ip_id]. set (h2 := rehead _ _ _ _ _) in *. rewrite (s_pbuf S2). cbn [moved_header set_tot_len set_len set_payload tot_len]. fold D. destruct (sendable_facts _ _ _ _ _ _ _ S2) as (_ & Hr2 & _ & _ & Et2 & _).
  exists (set_ip_id (u16 (ip_id s + 1)) (set_hp h2 s)). split; [apply (s_inv S2)|]. split; [done|]. do 3 (split; [done|]). rewrite <- Ep, <- Et2. cbn [moved_header set_tot_len tot_len]. destruct (negb (mtu nf =? 0) && (mtu nf <? tot_len x + 20)); [done|].
  cbn [hp set_hp set_ip_id]. rewrite (payloads_ok _ _ _ _ (s_inv S2) (s_held S2) (s_chain S2) Hr2). eexists. split; [|done]. symmetry. apply (packet_ok _ _ _ _ (s_inv S2) (s_held S2) (s_chain S2)).
Qed.

End output.

(** ** The header that was written *)

Section header.
Context (tot_len id src dest ttl tos proto : Z) (Hl : 0 <= tot_len < 65536) (Hi : 0 <= id < 65536) (Hs : is_word src) (Hd : is_word dest) (Ht : is_byte ttl) (Ho : is_byte tos) (Hp : is_byte proto).
Let D := ip_header tot_len id src dest ttl tos proto.

Lemma header_ok_bytes : bytes_ok D.
Proof. apply header_bytes; [apply be_enc_bytes|done..]. Qed.

(** Its checksum is right. *)
Lemma header_checks : Checksum.rfc1071 D = 0.
Proof.
  set (x := [0x45; tos] ++ be_enc 2 tot_len ++ be_enc 2 id ++ [0; 0] ++ [ttl; proto]). set (y := le_enc 4 src ++ le_enc 4 dest). assert (forall k, header_with k tot_len id src dest ttl tos proto = x ++ k ++ y) as E by (intros k; unfold header_with, x, y; by rewrite <- !app_assoc).
  unfold D, ip_header. rewrite !E. assert (bytes_ok (x ++ [0; 0] ++ y)) as HB by (rewrite <- E; apply header_bytes; [exact (le_enc_bytes 2 0)|done..]). apply Forall_app in HB. destruct HB as [Hx HB]. apply Forall_app in HB. destruct HB as [_ Hy].
  apply Checksum.rfc1071_in_place; [by unfold Checksum.odd_length, x; rewrite !length_app, !be_enc_length|done|done|]. unfold x, y. rewrite !length_app, !be_enc_length, !le_enc_length. cbn. lia.
Qed.

(** The receiver finds what was put in. *)
Lemma header_fields : le_dec (field D 0 1) = 0x45 /\ hlen_of D = 20 /\ total_of D = tot_len /\ proto_of D = proto /\ src_of D = src /\ dest_of D = dest /\ is_fragment D = false.
Proof.
  assert (be_dec (be_enc 2 tot_len) = tot_len) as El by (apply be_dec_enc; change (256 ^ Z.of_nat 2) with 65536; lia). assert (le_dec (le_enc 4 src) = src) as Es by (apply le_dec_enc; done). assert (le_dec (le_enc 4 dest) = dest) as Ed by (apply le_dec_enc; done).
  unfold hlen_of, total_of, proto_of, src_of, dest_of, is_fragment, field, D, ip_header, header_with. split; [done|]. split; [done|]. split; [exact El|]. split; [cbn; lia|]. split; [exact Es|]. split; [exact Ed|done].
Qed.

End header.

(** ** From stack to stack *)

Section roundtrip.
Variable ip_frag : stack -> addr -> addr -> Z -> option (stack * Z * list ip_action).
Variable output_err : Z.
Variable ip_reass : stack -> addr -> option (stack * option addr * list ip_action).

Lemma output_classified t inp nf' data tot_len id src dest ttl tos : 0 <= tot_len < 65536 -> 0 <= id < 65536 -> is_word src -> is_word dest -> is_byte ttl -> is_byte tos -> tot_len = 20 + Z.of_nat (length data) -> unicast nf' src = true -> has_flag nf' NETIF_FLAG_PRETEND_TCP = true ->
  let D := ip_header tot_len id src dest ttl tos IP_PROTO_TCP in classify t inp nf' D (Z.of_nat (length (D ++ data))) (D ++ data) = ToTcp.
Proof.
  intros Hl Hi Hs Hd Ht Ho El Hu Hf D. assert (is_byte IP_PROTO_TCP) as Hp by by compute. destruct (header_fields tot_len id src dest ttl tos IP_PROTO_TCP Hl Hs Hd) as (F0 & Fh & Fl & Fp & Fs & Fd & Ff). fold D in F0, Fh, Fl, Fp, Fs, Fd, Ff.
  assert (length D = 20%nat) as LD by apply header_length. unfold classify. rewrite F0, Fh, Fl, Fp, Fs, Fd, Ff, Hu, Hf. change (0x45 / 16 =? 4) with true. change (Z.to_nat 20) with 20%nat. rewrite (take_app_length' D data 20) by done. assert (Checksum.rfc1071 D = 0) as -> by by apply header_checks.
  rewrite length_app, LD, !(proj2 (Z.ltb_ge _ _)) by lia. cbn [negb orb Z.eqb andb]. by rewrite orb_true_r.
Qed.

(** The interface for a destination: the first one that is up and on whose
    network it is, otherwise the default one if that is up. *)
Definition is_up (s : stack) (a : addr) : bool := match s.(netifs) !! a with Some n => has_flag n NETIF_FLAG_UP | None => false end.
Definition on_network (s : stack) (d : Z) (a : addr) : bool := match s.(netifs) !! a with Some n => Z.land d n.(netmask) =? Z.land n.(ip_addr) n.(netmask) | None => false end.
Definition chosen (s : stack) (d : Z) : option addr :=
  match List.find (fun a => is_up s a && on_network s d a) s.(netif_list), s.(netif_default) with
  | Some a, _ => Some a
  | None, Some a => if is_up s a then Some a else None
  | None, None => None
  end.

Lemma ip_route_ok s d : (forall a, a ∈ s.(netif_list) \/ s.(netif_default) = Some a -> is_Some (s.(netifs) !! a)) -> ip_route s d = Some (chosen s d).
Proof.
  intros Hn. unfold ip_route, chosen. assert (route_loop s.(netifs) s.(netif_list) d = Some (List.find (fun a => is_up s a && on_network s d a) s.(netif_list))) as ->.
  { assert (forall a, a ∈ s.(netif_list) -> is_Some (s.(netifs) !! a)) as Hl by auto. revert Hl. clear Hn. induction s.(netif_list) as [|a l IH]; intros Hl; [done|]. cbn [route_loop List.find]. destruct (Hl a ltac:(left)) as [n Ha]. unfold is_up, on_network, ip_addr_netcmp. rewrite Ha.
    destruct (has_flag n NETIF_FLAG_UP && _); [done|]. apply IH. intros b Hb. apply Hl. by right. }
  destruct (List.find _ _); [done|]. destruct (netif_default s) as [a|] eqn:Ed; [|done]. destruct (Hn a ltac:(by right)) as [n Ha]. unfold is_up. by rewrite Ha.
Qed.

(** C28: what the stack sends arrives.  [ip_output] of a TCP segment in a chain of
    pbufs, in any pieces and with room for the header in front, fails with
    ERR_RTE if there is no interface for the destination; otherwise, if the
    packet fits the MTU, it gives the chosen interface one packet: the header
    with the total length, the next identification, the time to live, the type
    of service, the protocol and the addresses that were asked for and a
    checksum that is right, and then the segment.  And whatever stack reads
    this packet from its device, on an interface that pretends to be everybody
    and to which the sender is a single host, hands exactly that segment to TCP,
    with the addresses it was sent from and to. *)
Theorem ip_roundtrip s R p x o m l src d ttl tos : sendable s.(hp) R p x o m l -> (forall a, a ∈ s.(netif_list) \/ s.(netif_default) = Some a -> is_Some (s.(netifs) !! a)) ->
  x.(tot_len) + IP_HLEN < 65536 -> IP_HLEN <= o -> 0 <= s.(ip_id) < 65536 -> is_word d -> is_byte ttl -> is_byte tos -> bytes_ok (packet s.(hp) p) ->
  let out := ip_output ip_frag output_err s p src (Some d) ttl tos IP_PROTO_TCP in
  match chosen s d with
  | None => out = Some (s, ERR_RTE, [])
  | Some n => forall nf, s.(netifs) !! n = Some nf -> is_word (source nf src) -> nf.(mtu) = 0 \/ x.(tot_len) + IP_HLEN <= nf.(mtu) ->
      exists s1 c, out = Some (s1, output_err, [Output n c d]) /\ s1.(ip_id) = u16 (s.(ip_id) + 1) /\
      concat c = ip_header (x.(tot_len) + IP_HLEN) s.(ip_id) (source nf src) d ttl tos IP_PROTO_TCP ++ packet s.(hp) p /\ Checksum.rfc1071 (take 20 (concat c)) = 0 /\
      forall t Q ms h q inp nf' ms', inv t.(hp) Q -> malloc_ok t.(hp) ms = true -> PbufDevice.device_pbuf t.(hp) (concat c) ms = Some (h, Some q) ->
        t.(netifs) !! inp = Some nf' -> (forall a, a ∈ t.(netif_list) -> is_Some (t.(netifs) !! a)) -> has_flag nf' NETIF_FLAG_PRETEND_TCP = true -> unicast nf' (source nf src) = true ->
        exists t1 f, ip_input ip_frag output_err ip_reass (set_hp h t) q inp ms' = Some (set_ip_data no_globals t1, map CustomFreed f ++ [TcpInput q (MkGlobals (Some inp) (Some (q, 0)) 20 (source nf src) d)]) /\ inv t1.(hp) (Q ⊎ {[+ q +]}) /\ packet t1.(hp) q = packet s.(hp) p
  end.
Proof.
  intros S Hns Htl Ho Hid Hd Ht Hto HB out. assert (is_byte IP_PROTO_TCP) as Hp by by compute. unfold out, ip_output. rewrite (s_pbuf S), (s_ref S), (ip_route_ok s d Hns). cbn [Z.eqb Pos.eqb]. destruct (chosen s d) as [n|]; [|done]. intros nf Hn Hs Hm.
  pose proof (output_if_ok ip_frag output_err s R p x o m l n nf src d ttl tos IP_PROTO_TCP S Hn Htl Hid Hd Hs Ht Hto Hp) as Hout. unfold IP_HLEN in *. rewrite (proj2 (Z.ltb_ge _ _)) in Hout by lia.
  destruct Hout as (s1 & _ & _ & Ei & _ & _ & Hr). destruct (sendable_facts _ _ _ _ _ _ _ S) as (_ & _ & _ & _ & Et & ?). set (D := ip_header (tot_len x + 20) (ip_id s) (source nf src) d ttl tos IP_PROTO_TCP) in *. assert (length D = 20%nat) as LD by apply header_length.
  destruct (header_fields (tot_len x + 20) (ip_id s) (source nf src) d ttl tos IP_PROTO_TCP ltac:(lia) Hs Hd) as (_ & Fh & Fl & _ & Fs & Fd & _). fold D in Fh, Fl, Fs, Fd.
  assert (negb (mtu nf =? 0) && (mtu nf <? Z.of_nat (length (D ++ packet (hp s) p))) = false) as Em. { rewrite length_app, LD. destruct Hm as [->|Hm]; [done|]. rewrite (proj2 (Z.ltb_ge _ _)) by lia. apply andb_false_r. }
  rewrite Em in Hr. destruct Hr as (c & Ec & Er). exists s1, c. do 3 (split; [done|]). split; [rewrite Ec, (take_app_length' D _ 20) by done; apply header_checks; done || lia|].
  intros t Q ms h q inp nf' ms' I Ha E Hn' Hnl Hf Hu. rewrite Ec in *. pose proof (device_input ip_frag output_err ip_reass t Q (D ++ packet (hp s) p) ms h q inp nf' ms' I) as Hc.
  rewrite length_app, LD in Hc. specialize (Hc ltac:(apply Forall_app; split; [by apply header_ok_bytes|done]) ltac:(lia)). specialize (Hc Ha E Hn' Hnl). cbv zeta in Hc. rewrite (take_app_length' D _ 20) in Hc by done.
  pose proof (output_classified t inp nf' (packet (hp s) p) (tot_len x + 20) (ip_id s) (source nf src) d ttl tos ltac:(lia) Hid Hs Hd Ht Hto ltac:(lia) Hu Hf) as Hcl. cbv zeta in Hcl. fold D in Hcl. rewrite length_app, LD in Hcl. rewrite Hcl in Hc.
  destruct Hc as (t1 & f & [_ I1 P1 _ _ _] & Eq). exists t1, f. unfold upper_globals in Eq. rewrite Fh, Fs, Fd in Eq. split; [done|]. split; [done|]. rewrite P1, Fh, Fl, take_ge by (rewrite length_app; lia). rewrite drop_app_length' by (rewrite LD; done). done.
Qed.

End roundtrip.

(** Four bytes in a pbuf with room for the headers. *)
Definition send_events : list event := [EAlloc PBUF_IP 4 PBUF_RAM [MkAnswer 64 0 []]; ETake 64 [1; 2; 3; 4] 4].
Definition to_send : heap * gmultiset addr := match machine_run legal step (empty_heap, ∅) send_events with Some (s, _) => s | None => (empty_heap, ∅) end.
Definition send_stack : stack := set_hp to_send.1 stack0.

Lemma to_send_reached : reached to_send.1 (∅ ⊎ {[+ 64 +]}).
Proof. exists send_events. eexists. vm_compute. reflexivity. Qed.

Lemma to_send_sendable : exists m, sendable to_send.1 (∅ ⊎ {[+ 64 +]}) 64 (new_head PBUF_IP 64 4 PBUF_RAM) 56 m [].
Proof. apply sendable_single; [apply reached_inv, to_send_reached|vm_compute; reflexivity..]. Qed.

(** To 10.0.0.9, with the address of the interface as the source. *)
Definition sent_bytes : bytes := ip_header 24 0 (le_dec [10; 0; 0; 2]) (le_dec [10; 0; 0; 9]) 64 0 6 ++ [1; 2; 3; 4].

Lemma send_netifs a : a ∈ send_stack.(netif_list) \/ send_stack.(netif_default) = Some a -> is_Some (send_stack.(netifs) !! a).
Proof. intros [->%list_elem_of_singleton|[= <-]]; by exists tun. Qed.

Lemma ip_roundtrip_witness : exists s1 c, ip_output no_frag 0 send_stack 64 None (Some (le_dec [10; 0; 0; 9])) 64 0 IP_PROTO_TCP = Some (s1, 0, [Output 1 c (le_dec [10; 0; 0; 9])]) /\ concat c = sent_bytes /\
  exists t1 f, ip_input no_frag 0 no_reass (set_hp (device_heap sent_bytes) stack0) 4096 1 at_8192 = Some (set_ip_data no_globals t1, map CustomFreed f ++ [TcpInput 4096 (MkGlobals (Some 1) (Some (4096, 0)) 20 (le_dec [10; 0; 0; 2]) (le_dec [10; 0; 0; 9]))]) /\
  inv t1.(hp) (∅ ⊎ {[+ 4096 +]}) /\ packet t1.(hp) 4096 = [1; 2; 3; 4].
Proof.
  destruct to_send_sendable as [m S]. pose proof (ip_roundtrip no_frag 0 no_reass send_stack _ 64 _ 56 m [] None (le_dec [10; 0; 0; 9]) 64 0 S send_netifs) as H.
  specialize (H ltac:(by compute) ltac:(by compute) ltac:(by compute) ltac:(by compute) ltac:(by compute) ltac:(by compute) ltac:(vm_compute; repeat constructor; try (by intros [=]); lia)). cbv zeta in H.
  assert (chosen send_stack (le_dec [10; 0; 0; 9]) = Some 1) as Ech by (vm_compute; reflexivity). rewrite Ech in H. destruct (H tun eq_refl ltac:(by compute) ltac:(by left)) as (s1 & c & E & _ & Ec & _ & Hrt). exists s1, c. split; [exact E|].
  assert (concat c = sent_bytes) as Ec' by (rewrite Ec; vm_compute; reflexivity). rewrite Ec' in Hrt. split; [exact Ec'|]. exact (Hrt stack0 ∅ at_4096 (device_heap sent_bytes) 4096 1 tun at_8192 empty_inv ltac:(vm_compute; reflexivity) ltac:(vm_compute; reflexivity) eq_refl stack0_netifs eq_refl eq_refl).
Defined.

End Ip4Out.
