(* ===== verification/IcmpRun.v ===== *)
(** * ICMP answers

    What [icmp_input] of [Icmp] does with an echo request: the pbuf it answers
    with ([echo_pbuf_ok]), the bytes of the answer ([echo_reply_packet]), their
    checksums ([reply_header_checks], [reply_message_checks]), and the whole way
    from the device to the interface ([ping_answered]). *)

From stdpp Require Import gmultiset.
From S2P Require Import Prelude Words Checksum LinkedList Pbuf PbufChain PbufData PbufRun PbufDevice Ip4 Icmp Ip4Run Ip4Out.
Open Scope Z_scope.
Import ByteOrder Pbuf PbufChain PbufData PbufRun Ip4 Icmp Ip4Run Ip4Out.

Module IcmpRun.

(** ** The pbuf that is answered with *)

(** The payload begins [n] bytes earlier. *)
Lemma header_restored h R p x o m l n : sendable h R p x (o + n) m l -> 0 <= o -> 0 < n < 32768 -> x.(tot_len) + n < 65536 ->
  pbuf_header h (Some p) n = Some (put p (moved_header n x) h, 0) /\ sendable (put p (moved_header n x) h) R p (moved_header n x) o m l /\
  packet (put p (moved_header n x) h) p = take (Z.to_nat n) (drop (Z.to_nat o) m) ++ packet h p.
Proof.
  intros S Ho Hn Ht. destruct (header_up _ _ _ _ _ _ _ n S Hn Ht) as [E _]. rewrite (proj2 (Z.ltb_ge _ _)) in E by lia. split; [done|]. destruct (s_room S) as (? & ? & ?). set (D := take (Z.to_nat n) (drop (Z.to_nat o) m)). assert (length D = Z.to_nat n) as LD by (unfold D; rewrite length_take, length_drop; lia).
  destruct (with_header _ _ _ _ _ _ _ D S) as (A & G & B & V & LG & S2 & Ep); [lia..|]. rewrite LD, Z2Nat.id in * by lia. replace (o + n - n) with o in * by lia. destruct V as [Vb Vl]. cbn [fst snd put blocks] in Vb, Vl. rewrite (s_block S) in Vb. injection Vb as Em.
  assert (G = D) as EG by (unfold D; rewrite Em, drop_app_length' by lia; by rewrite take_app_length'). rewrite EG in Em. rewrite rehead_id in S2, Ep by (split; [cbn; by rewrite (s_block S), Em|done]). rewrite <- Em in S2. done.
Qed.

(** A pbuf with the message [msg], and with the header [G] in front of it, at
    [q]. *)
Definition answerable (h : heap) (R : gmultiset addr) (r : addr) (q : addr * Z) (G msg : bytes) : Prop :=
  exists y o m l, q = (r, o) /\ 0 <= o /\ sendable h R r y (o + Z.of_nat (length G)) m l /\ take (length G) (drop (Z.to_nat o) m) = G /\ packet h r = msg /\ 4 <= y.(len).

Definition echo_room : Z := PBUF_IP_HLEN + PBUF_LINK_HLEN.

Lemma alloc_legal_put h p x y layer n ty ms : h.(pbufs) !! p = Some x -> alloc_legal (put p y h) layer n ty ms = alloc_legal h layer n ty ms.
Proof.
  intros Hx. unfold alloc_legal. do 2 f_equal. unfold malloc_ok. f_equal. apply forallb_ext'. intros m _. cbn [put pbufs blocks]. f_equal. f_equal. apply bool_decide_ext. destruct (decide (p = at_ m)) as [<-|Hne]; [rewrite lookup_insert_eq, Hx; done|by rewrite lookup_insert_ne].
Qed.

(** In place: the payload pointer goes to and fro. *)
Lemma echo_in_place h R p x o m l hlen ms : sendable h R p x (o + hlen) m l -> echo_room <= o + hlen -> x.(tot_len) + echo_room < 65536 -> echo_pbuf h p (p, o) hlen ms = Some (h, Some (p, (p, o)), []).
Proof.
  intros S Ho Ht. destruct (s_room S) as (? & ? & ?). destruct (sendable_facts _ _ _ _ _ _ _ S) as (_ & _ & _ & _ & _ & ?). unfold echo_pbuf. change (PBUF_IP_HLEN + PBUF_LINK_HLEN) with echo_room. assert (0 < echo_room < 32768) as Hr by by compute.
  destruct (header_restored h R p x (o + hlen - echo_room) m l echo_room) as (-> & S1 & _); [by replace (o + hlen - echo_room + echo_room) with (o + hlen) by lia|lia|done|done|]. cbn [Z.eqb negb].
  destruct (header_dropped _ _ _ _ _ _ _ echo_room S1) as (-> & _); [cbn; lia|lia|]. cbn [Z.eqb]. rewrite put_put, put_id; [done|]. rewrite (s_pbuf S). f_equal. unfold moved_header. cbn. rewrite (s_payload S). replace (o + hlen - echo_room - - echo_room) with (o + hlen) by lia. rewrite <- (s_payload S). replace (len x + echo_room + - echo_room) with (len x) by lia. replace (tot_len x + echo_room + - echo_room) with (tot_len x) by lia. by destruct x.
Qed.

Lemma echo_pbuf_ok h R p x o m l G ms : sendable h R p x (o + Z.of_nat (length G)) m l -> filled h (p :: l) = true -> 0 <= o -> take (length G) (drop (Z.to_nat o) m) = G -> 20 <= Z.of_nat (length G) <= 60 ->
  x.(tot_len) + Z.of_nat (length G) < 65536 -> o + Z.of_nat (length G) < echo_room \/ x.(tot_len) + echo_room < 65536 -> 8 <= x.(tot_len) -> 4 <= x.(len) -> alloc_legal h PBUF_LINK (x.(tot_len) + Z.of_nat (length G)) PBUF_RAM ms = true ->
  exists h' r c, echo_pbuf h p (p, o) (Z.of_nat (length G)) ms = Some (h', r, c) /\ match r with None => inv h' R /\ ms = [] | Some (r, q) => answerable h' (R ∖ {[+ p +]} ⊎ {[+ r +]}) r q G (packet h p) end.
Proof.
  intros S Fi Ho EG HG Ht Hroom H8 H4 Hal. destruct (Z.lt_ge_cases (o + Z.of_nat (length G)) echo_room) as [Hs|Hs].
  2: { exists h, (Some (p, (p, o))), []. split; [apply (echo_in_place h R p x o m l); [done|done|lia]|]. exists x, o, m, l. rewrite <- (held_split R p (s_held S)). do 5 (split; [done|]). done. }
  destruct (s_room S) as (? & ? & ?). destruct (sendable_facts _ _ _ _ _ _ _ S) as (_ & _ & _ & _ & Et & ?). set (n := Z.of_nat (length G)) in *. unfold echo_pbuf. change (PBUF_IP_HLEN + PBUF_LINK_HLEN) with echo_room.
  assert (pbuf_header h (Some p) echo_room = Some (h, 1)) as ->.
  { unfold pbuf_header. rewrite (s_pbuf S), (s_payload S). change (echo_room =? 0) with false. change (0 <? echo_room) with true. fold (owns_memory x). rewrite (s_owns S). cbn [orb]. rewrite bool_decide_eq_true_2 by done. by rewrite (proj2 (Z.ltb_lt _ _)) by lia. }
  cbn [Z.eqb negb]. destruct (header_restored h R p x o m l n S Ho ltac:(lia) Ht) as (-> & S1 & Ep1). cbn [Z.eqb]. replace (Z.to_nat n) with (length G) in Ep1 by lia. rewrite EG in Ep1. set (x1 := moved_header n x) in *. rewrite <- (alloc_legal_put h p x x1) in Hal by apply (s_pbuf S). set (h1 := put p x1 h) in *. rewrite (s_pbuf S1). change (tot_len x1) with (tot_len x + n).
  destruct (sendable_facts _ _ _ _ _ _ _ S1) as (_ & Hr1 & _ & Ec1 & Et1 & _). change (tot_len x1) with (tot_len x + n) in Et1. assert (filled h1 (p :: l) = true) as Fi1. { rewrite <- Fi. apply forallb_ext'. cbn [tail]. intros a Ha. unfold len_at, h1. rewrite put_ne; [done|]. intros <-. pose proof (chain_nodup _ _ _ (s_chain S)) as Hnd. apply NoDup_cons in Hnd. by destruct Hnd. }
  pose proof (tail_len_chain _ _ (i_sized _ _ (s_inv S1)) _ (s_chain S1)) as Etl. cbn [tail_len] in Etl. rewrite (s_pbuf S1) in Etl. change (tot_len x1) with (tot_len x + n) in Etl.
  destruct (alloc_ok h1 R PBUF_LINK (tot_len x + n) PBUF_RAM ms (s_inv S1) Hal) as (h2 & r & c & E2 & Hres). rewrite E2. destruct r as [r|]; [|destruct Hres as (I2 & _ & _ & Hms); exists h2, None, c; split; [done|]; split; [done|]; by destruct ms as [|? [|]]; cbn in Hms; try lia].
  destruct (copy_to_new h1 R p l r h2 _ ms c PBUF_LINK (s_inv S1) (s_chain S1) Hr1 Fi1 (eq_sym Etl) Hal E2) as (h3 & Ecp & I3 & Ex & W & Hr0 & _ & Hxr & Ecr). rewrite Hxr. set (y := new_head PBUF_LINK r (tot_len x + n) PBUF_RAM) in *. change (len y) with (tot_len x + n). change sizeof_icmp_echo_hdr with 8. rewrite (proj2 (Z.leb_le _ _)) by lia. rewrite Ecp. cbn [ERR_OK Z.eqb].
  assert (pbufs h3 !! r = Some y) as Hy3 by by rewrite (w_pbufs _ _ _ W). rewrite Hy3. change (payload y) with (Some (r, LWIP_MEM_ALIGN (layer_offset PBUF_LINK))). set (k := LWIP_MEM_ALIGN (layer_offset PBUF_LINK)) in *.
  assert (multiplicity r R = 0%nat) as Hmr. { destruct (multiplicity r R) eqn:Em; [done|]. destruct (c_held _ _ (i_counted _ _ (s_inv S1)) r ltac:(lia)) as [z Hz]. congruence. }
  assert (preds h3 r = 0%nat) as Hp3. { destruct (c_ref _ _ (i_counted _ _ I3) r y Hy3) as [Er _]. rewrite multiplicity_disj_union, multiplicity_singleton_eq in Er. cbn in Er. lia. }
  assert (multiplicity r (R ⊎ {[+ r +]}) = 1%nat) as Hm3 by (rewrite multiplicity_disj_union, multiplicity_singleton_eq; lia). destruct (sendable_single h3 (R ⊎ {[+ r +]}) r y k I3 Hm3 Hp3 Hy3 eq_refl eq_refl eq_refl) as (mr & S3).
  destruct (sendable_facts _ _ _ _ _ _ _ S3) as (_ & _ & Eck & Epr & _). cbn [contents map concat] in Epr. rewrite app_nil_r in Epr. assert (packet h3 r = G ++ packet h p) as Ep3 by (rewrite Epr, Ecr, contents_cons, <- Ec1; done).
  destruct (header_dropped _ _ _ _ _ _ _ n S3) as (-> & S4 & Ep4 & _); [change (len y) with (tot_len x + n); lia|lia|]. cbn [Z.eqb]. set (h4 := put r (moved_header (- n) y) h3) in *. rewrite Ep3 in Ep4. replace (Z.to_nat n) with (length G) in Ep4 by lia. rewrite drop_app_length in Ep4.
  pose proof (s_inv S4) as I4. assert (r <> p) as Hrp by (intros ->; rewrite (s_pbuf S1) in Hr0; done). replace (R ⊎ {[+ r +]}) with (R ∖ {[+ p +]} ⊎ {[+ r +]} ⊎ {[+ p +]}) in I4 by (rewrite (held_split R p (s_held S)) at 2; multiset_solver).
  destruct (free_keeps h4 p _ r (moved_header (- n) y) I4 (put_eq _ _ _) eq_refl) as (h5 & kk & c' & -> & I5 & (y5 & Hy5 & Ey5) & Ec5 & Eb5 & Hp5); [multiset_solver|]. exists h5, (Some (r, (r, k))), (c ++ c'). split; [done|].
  destruct (sendable_facts _ _ _ _ _ _ _ S4) as (Hp4 & _ & _ & Epr4 & _). assert (multiplicity r (R ∖ {[+ p +]} ⊎ {[+ r +]}) = 1%nat) as Hm5 by (rewrite multiplicity_disj_union, multiplicity_difference, multiplicity_singleton_eq, multiplicity_singleton_ne by done; lia).
  destruct (sendable_single h5 _ r y5 (k + n) I5 Hm5 (Hp5 Hp4) Hy5) as (m5 & S5); [by rewrite Ey5|by rewrite Ey5|transitivity (Some (r, k - - n)); [by rewrite Ey5|do 2 f_equal; lia]|]. exists y5, k, m5, []. split; [done|]. split; [by compute|]. fold n. split; [done|].
  pose proof (s_block S5) as Hb5. rewrite Eb5 in Hb5. change (blocks h4) with (blocks h3) in Hb5. rewrite (s_block S3) in Hb5. injection Hb5 as <-.
  destruct (sendable_facts _ _ _ _ _ _ _ S5) as (_ & _ & _ & Epr5 & _). split; [|split].
  - transitivity (take (length G) (packet h3 r)); [|rewrite Ep3; apply take_app_length]. rewrite Epr, Eck, firstn_firstn. f_equal. change (len y) with (tot_len x + n). lia.
  - rewrite Epr5, Ec5. rewrite <- Ep4, Epr4. done.
  - rewrite Ey5. cbn. lia.
Qed.

(** ** The request becomes the answer *)

(** The memory of the first pbuf is written. *)
Lemma sendable_write h R r y o m l m' : sendable h R r y o m l -> length m' = length m -> let h' := MkHeap h.(pbufs) (<[r := m']> h.(blocks)) in
  sendable h' R r y o m' l /\ packet h' r = take (Z.to_nat y.(len)) (drop (Z.to_nat o) m') ++ drop (Z.to_nat y.(len)) (packet h r) /\ filled h' (r :: l) = filled h (r :: l).
Proof.
  intros S Lm h'. assert (wrote h h' [r]) as W.
  { split; [done|intros b Hb; cbn; rewrite lookup_insert_ne; [done|set_solver]|]. intros b mb Hb. cbn. destruct (decide (b = r)) as [->|Hne]; [|exists mb; by rewrite lookup_insert_ne]. rewrite lookup_insert_eq. exists m'. split; [done|]. rewrite (s_block S) in Hb. injection Hb as <-. lia. }
  pose proof (s_room S). assert (sendable h' R r y o m' l) as S'.
  { split; try apply S; [by eapply wrote_inv, W; apply S|by eapply wrote_chain, S; exact W|apply lookup_insert_eq|lia|by eapply wrote_readable, S; exact W]. }
  split; [done|]. destruct (sendable_facts _ _ _ _ _ _ _ S) as (_ & _ & Ec & Ep & _). destruct (sendable_facts _ _ _ _ _ _ _ S') as (_ & _ & Ec' & Ep' & _). split; [|done]. rewrite Ep', Ec', Ep. f_equal. rewrite drop_app_length' by (rewrite Ec, length_take, length_drop; lia). apply (apart_contents h h' [r]); [done|apply (s_apart S)].
Qed.

Lemma rehead_shift h r o A M O T B n : n = Z.of_nat (length M + length O) -> rehead h (r, o) A M (O ++ T ++ B) = rehead h (r, o + n) (A ++ M ++ O) T B.
Proof. intros _. unfold rehead. cbn [fst]. by rewrite <- !app_assoc. Qed.

Lemma chksum_view h q A M B n : view h q A M B -> n = Z.of_nat (length M) -> bytes_ok M -> n <= 65535 -> chksum_at h q n = Some (hton16 (Checksum.rfc1071 M)).
Proof. intros V -> HM Hn. unfold chksum_at. rewrite (peek_view _ _ _ _ _ _ _ V) by lia. rewrite drop_0, Nat2Z.id, take_ge by done. by rewrite Checksum.buffer_checksum. Qed.

(** The header that goes back: the addresses are exchanged, the checksum is that
    of its first twenty bytes. *)
Definition reply_fields (G chksum : bytes) (src dest : Z) : bytes := take 8 G ++ [ICMP_TTL] ++ take 1 (drop 9 G) ++ chksum ++ le_enc 4 dest ++ le_enc 4 src.
Definition reply_header (G : bytes) (src dest : Z) : bytes := reply_fields G (be_enc 2 (Checksum.rfc1071 (reply_fields G [0; 0] src dest))) src dest ++ drop 20 G.
Definition reply_sum (k : Z) : Z := if 0xfff7 <=? k then k - 0xfff7 else k + 8.
Definition reply_message (msg : bytes) : bytes := [ICMP_ER] ++ take 1 (drop 1 msg) ++ le_enc 2 (reply_sum (le_dec (take 2 (drop 2 msg)))) ++ drop 4 msg.

Lemma reply_sum_code k : 0 <= k < 65536 -> (if hton16 (0xffff - Z.shiftl ICMP_ECHO 8) <=? k then u16 (k + hton16 (Z.shiftl ICMP_ECHO 8) + 1) else u16 (k + hton16 (Z.shiftl ICMP_ECHO 8))) = reply_sum k /\ 0 <= reply_sum k < 65536.
Proof.
  intros Hk. unfold reply_sum. change (hton16 (0xffff - Z.shiftl ICMP_ECHO 8)) with 0xfff7. change (hton16 (Z.shiftl ICMP_ECHO 8)) with 8. destruct (Z.leb_spec 0xfff7 k); [|rewrite u16_small by lia; lia]. unfold u16. replace (k + 8 + 1) with (k - 0xfff7 + 1 * 65536) by lia. rewrite Z.mod_add, Z.mod_small by lia. lia.
Qed.

Lemma echo_reply_ok h r o A M O T B src dest : view h (r, o) A (M ++ O ++ T) B -> length M = 20%nat -> length T = 4%nat -> bytes_ok M -> bytes_ok T -> is_word src -> is_word dest -> 0 <= o ->
  echo_reply h (r, o) (r, o + Z.of_nat (length M + length O)) src dest = Some (rehead h (r, o) A (reply_header (M ++ O) src dest ++ reply_message T) B).
Proof.
  intros V LM LT HM HT Hs Hd Ho. destruct V as [Vb Vl]. cbn [fst snd] in Vb, Vl. assert (h = rehead h (r, o) A M (O ++ T ++ B)) as Eh by (symmetry; apply rehead_id; split; [cbn; by rewrite Vb, <- !app_assoc|done]).
  rewrite LM. set (n := Z.of_nat (20 + length O)). destruct (list20 M LM) as (a0 & a1 & a2 & a3 & a4 & a5 & a6 & a7 & a8 & a9 & a10 & a11 & a12 & a13 & a14 & a15 & a16 & a17 & a18 & a19 & ->).
  destruct T as [|t0 [|t1 [|t2 [|t3 [|]]]]]; try done. rewrite Eh at 1. unfold echo_reply. do 2 access Vl. rewrite (rehead_shift _ _ _ _ _ O [t0; t1; t2; t3] B n) by done.
  match goal with |- context [rehead h (r, o + n) ?A' _ _] => assert (Z.of_nat (length A') = (r, o + n).2) as Vl2 by (rewrite !length_app; cbn [snd]; rewrite <- Vl; unfold n; cbn [length]; lia) end. do 2 access Vl2.
  assert (0 <= le_dec [t2; t3] < 65536) as Hk by (apply (le_dec_bound [t2; t3]); exact (Forall_drop _ 2 _ HT)). destruct (reply_sum_code _ Hk) as [-> Hk']. change (take 2 (drop 2 [t0; t1; t2; t3])) with [t2; t3]. access Vl2. rewrite <- (rehead_shift _ _ _ _ _ O _ B n) by done. change (u8 ICMP_TTL) with ICMP_TTL. do 2 access Vl.
  match goal with |- context [chksum_at (rehead h (r, o) A ?Z0 ?B0) _ _] => rewrite (chksum_view _ _ A Z0 B0 IP_HLEN (view_rehead h (r, o) A Z0 B0 Vl) eq_refl) end; [|unfold is_word in *; rewrite !Forall_cons in HM |- *; unfold is_byte in *; repeat split; try apply HM; try (apply Z.mod_pos_bound; lia); by compute|done].
  access Vl. f_equal. unfold rehead. do 2 f_equal. rewrite <- !app_assoc. f_equal. unfold reply_header. rewrite <- hton16_image. reflexivity.
Qed.

Lemma reply_header_checks G src dest : bytes_ok G -> (20 <= length G)%nat -> is_word src -> is_word dest -> Checksum.rfc1071 (take 20 (reply_header G src dest)) = 0 /\ length (reply_header G src dest) = length G /\ bytes_ok (reply_header G src dest).
Proof.
  intros HG LG Hs Hd. set (x := take 8 G ++ [ICMP_TTL] ++ take 1 (drop 9 G)). set (y := le_enc 4 dest ++ le_enc 4 src). assert (forall k, reply_fields G k src dest = x ++ k ++ y) as E by (intros k; unfold reply_fields, x, y; by rewrite <- !app_assoc).
  assert (length x = 10%nat) as Lx by (unfold x; rewrite !length_app, !length_take, length_drop; change (length [ICMP_TTL]) with 1%nat; lia). assert (bytes_ok x) as Hx by (repeat apply Forall_app_2; [by apply Forall_take|by constructor|by apply Forall_take, Forall_drop]).
  assert (bytes_ok y) as Hy by (apply Forall_app_2; apply le_enc_bytes). assert (length y = 8%nat) as Ly by done. clearbody x y. unfold reply_header. rewrite !E. split; [|split].
  - rewrite take_app_length' by (rewrite !length_app, Lx, Ly, be_enc_length; done). apply Checksum.rfc1071_in_place; [unfold Checksum.odd_length; by rewrite Lx|done|done|]. rewrite !length_app, Lx, Ly. cbn. lia.
  - rewrite !length_app, Lx, Ly, be_enc_length, length_drop. lia.
  - rewrite !Forall_app; split; [split; [done|split; [apply be_enc_bytes|done]]|by apply Forall_drop].
Qed.

(** The answer checks when the request did, unless there is nothing but zeros in
    it. *)
Lemma reply_message_checks msg : bytes_ok msg -> (4 <= length msg)%nat -> take 1 msg = [ICMP_ECHO] -> Checksum.rfc1071 msg = 0 -> le_dec (reply_message msg) <> 0 -> Checksum.rfc1071 (reply_message msg) = 0.
Proof.
  intros HB Hl Ht Hz Hn. destruct msg as [|t [|c [|k0 [|k1 msg]]]]; cbn in Hl; try lia. injection Ht as ->. rewrite !Forall_cons in HB. destruct HB as (_ & Hc & H0 & H1 & HB). unfold is_byte in *. set (k := le_dec [k0; k1]). assert (0 <= k < 65536) as Hk by (unfold k; cbn; lia). destruct (reply_sum_code k Hk) as [_ Hk'].
  assert (le_dec (ICMP_ECHO :: c :: k0 :: k1 :: msg) = 8 + 256 * c + 65536 * (k + 65536 * le_dec msg)) as E1 by (unfold k; cbn; unfold ICMP_ECHO; lia).
  assert (bytes_ok (reply_message (ICMP_ECHO :: c :: k0 :: k1 :: msg))) as HR by (unfold reply_message; cbn [take drop app]; constructor; [by compute|constructor; [done|apply Forall_app_2; [apply le_enc_bytes|done]]]).
  assert (le_dec (reply_message (ICMP_ECHO :: c :: k0 :: k1 :: msg)) = 256 * c + 65536 * (reply_sum k + 65536 * le_dec msg)) as E2.
  { change (le_dec ([ICMP_ER; c] ++ le_enc 2 (reply_sum k) ++ msg) = 256 * c + 65536 * (reply_sum k + 65536 * le_dec msg)). rewrite !Checksum.le_dec_app, le_enc_length, le_dec_enc by (change (256 ^ Z.of_nat 2) with 65536; lia). change (256 ^ Z.of_nat (length [ICMP_ER; c])) with 65536. change (256 ^ Z.of_nat 2) with 65536. cbn [le_dec]. unfold ICMP_ER. lia. }
  apply Checksum.rfc1071_zero; [done|]. apply Checksum.rfc1071_zero in Hz; [|rewrite !Forall_cons; unfold is_byte, ICMP_ECHO; repeat split; try lia; done]. rewrite E1 in Hz. rewrite E2 in Hn |- *. destruct Hz as [[_ _] Hm _]. pose proof (Checksum.bytes_nonneg msg HB). split; [lia| |lia]. rewrite Hm.
  unfold reply_sum in *. destruct (Z.leb_spec 0xfff7 k).
  - replace (8 + 256 * c + 65536 * (k + 65536 * le_dec msg)) with (256 * c + 65536 * (k - 0xfff7 + 65536 * le_dec msg) + 65528 * 65535) by lia. by rewrite Z.mod_add by lia.
  - replace (256 * c + 65536 * (k + 8 + 65536 * le_dec msg)) with (8 + 256 * c + 65536 * (k + 65536 * le_dec msg) + 8 * 65535) by lia. by rewrite Z.mod_add by lia.
Qed.

(** ** The checksum of the message *)

Lemma aligned_payloads_ok h R p l : inv h R -> p ∈ R -> chain h (Some p) l -> readable h l -> bytes_ok (packet h p) ->
  exists c, aligned_payloads h p = Some c /\ Checksum.chain_ok c /\ Checksum.payload c = packet h p.
Proof.
  intros I Hp C Hr. rewrite (packet_ok _ _ _ _ I Hp C). unfold aligned_payloads. destruct (chain_at_ok _ _ _ (i_counted _ _ I) Hp) as [C' _]. rewrite (chain_unique _ _ _ _ C' C). clear C C'. match goal with |- context [mapM ?g l] => set (f := g) end. intros HB.
  assert (exists c, Forall2 (fun a y => f a = Some y) l c /\ Checksum.chain_ok c /\ Checksum.payload c = contents h l) as (c & E & Hc); [|exists c; split; [by apply mapM_Some|done]]. induction l as [|a l IH]; [by exists []; repeat constructor|].
  rewrite contents_cons in HB |- *. apply Forall_app in HB. destruct HB as [Ha HB]. destruct IH as (c & E & Hc & Ec); [intros b Hb; apply Hr; by right|done|]. destruct (readable_chunk _ _ _ Hr ltac:(left)) as (x & b & o & m & Hx & Ep & _). destruct (Hr a ltac:(left)) as (x' & d & Hx' & Hd). rewrite Hx in Hx'. injection Hx' as <-.
  assert (chunk h a = d) as Ek by (unfold chunk; rewrite Hx, Hd; done). exists ((odd_at (b, o), d) :: c). split; [constructor; [unfold f; by rewrite Hx, Ep, Hd|done]|]. split; [|unfold Checksum.payload in *; cbn [map concat snd]; by rewrite Ec, Ek].
  constructor; [|done]. cbn [snd]. split; [by rewrite <- Ek|]. pose proof (chunk_length _ _ _ _ Hr ltac:(left) Hx). destruct (tot_len_range _ _ _ _ I Hx). rewrite <- Ek. lia.
Qed.

(** ** [icmp_input] *)

Section input.
Variable ip_frag : stack -> addr -> addr -> Z -> option (stack * Z * list ip_action).
Variable output_err : Z.
Abbreviation icmp_input := (icmp_input ip_frag output_err).

(** Echo requests for a single host that check are answered. *)
Definition to_answer (nf : netif) (dest : Z) (msg : bytes) (first : Z) : bool :=
  (4 <=? first) && (8 <=? Z.of_nat (length msg)) && bool_decide (take 1 msg = [ICMP_ECHO]) && unicast nf dest && (Checksum.rfc1071 msg =? 0).

(** The answer is given to the interface, or to the fragmentation when it is
    longer than the MTU, and freed. *)
Definition answered (s : stack) (R : gmultiset addr) (p inp : addr) (nf : netif) (src : Z) (reply : bytes) (r : option (stack * list ip_action)) : Prop :=
  exists s1 q c, inv s1.(hp) (R ∖ {[+ p +]} ⊎ {[+ q +]}) /\ packet s1.(hp) q = reply /\ s1.(ip_id) = s.(ip_id) /\
  if negb (nf.(mtu) =? 0) && (nf.(mtu) <? Z.of_nat (length reply)) then r = LET (s', _, acts) <- ip_frag s1 q inp src in LET (s', c') <- free s' q in Some (s', map CustomFreed c ++ acts ++ c')
  else exists d s' c', concat d = reply /\ r = Some (s', map CustomFreed c ++ [Output inp d src] ++ map CustomFreed c') /\ inv s'.(hp) (R ∖ {[+ p +]}) /\ s'.(ip_id) = s.(ip_id).

Lemma icmp_input_checks s R p inp nf x o m l H ms : sendable s.(hp) R p x (o + hlen_of H) m l -> bytes_ok (packet s.(hp) p) -> s.(ip_data) = upper_globals inp p o H -> s.(netifs) !! inp = Some nf ->
  H = take 20 (drop (Z.to_nat o) m) -> bytes_ok H -> 0 <= o -> 20 <= hlen_of H ->
  icmp_input s p inp ms = if to_answer nf (dest_of H) (packet s.(hp) p) x.(len) then icmp_answer ip_frag output_err s p inp (p, o) (hlen_of H) (src_of H) (dest_of H) ms else free s p.
Proof.
  intros S HB Eg Hn EH HH Ho Hh. destruct (sendable_facts _ _ _ _ _ _ _ S) as (_ & Hr & Ec & Ep & Et & ?). destruct (s_room S) as (? & ? & ?). assert (length H = 20%nat) as LH by (rewrite EH, length_take, length_drop; lia). pose proof (field_range H 0 1 HH LH ltac:(lia)) as Hf. destruct (nibbles (le_dec (field H 0 1)) ltac:(lia)) as [_ En].
  unfold icmp_input. rewrite Eg. cbn [upper_globals current_ip4_header current_iphdr_src current_iphdr_dest]. rewrite (get_own _ _ _ m H) by (done || lia || apply (s_block S)). change (Z.to_nat 0) with 0%nat. change (Z.to_nat 1) with 1%nat. rewrite En. replace (le_dec (field H 0 1) mod 16 * 4) with (hlen_of H) by (unfold hlen_of; lia). rewrite (s_pbuf S).
  unfold to_answer. rewrite Z.leb_antisym. destruct (Z.ltb_spec x.(len) 4) as [|Hl]; [done|]. rewrite (s_payload S). unfold get. rewrite (peek_own _ _ _ m) by (lia || apply (s_block S)). rewrite Z.add_0_r.
  assert (take 1 (packet s.(hp) p) = take (Z.to_nat 1) (drop (Z.to_nat (o + hlen_of H)) m)) as Et1. { rewrite Ep, take_app_le by (rewrite Ec, length_take, length_drop; lia). rewrite Ec, firstn_firstn. f_equal. lia. }
  rewrite <- Et1. assert (exists t, take 1 (packet s.(hp) p) = [t]) as [t Et']. { clear -Et Hl H0. destruct (packet s.(hp) p) as [|t d]; [cbn in Et; lia|by exists t]. } rewrite Et'. cbn [le_dec]. rewrite Z.mul_0_r, Z.add_0_r, Hn, Et. change sizeof_icmp_echo_hdr with 8. rewrite (Z.leb_antisym _ 8).
  assert (bool_decide ([t] = [ICMP_ECHO]) = (t =? ICMP_ECHO)) as -> by (destruct (Z.eqb_spec t ICMP_ECHO) as [->|Hne]; [by apply bool_decide_eq_true_2|by apply bool_decide_eq_false_2; intros [= ?]]).
  destruct (Z.eqb_spec t ICMP_ER) as [->|_]; [by rewrite andb_false_r|]. unfold unicast. rewrite (orb_comm (ip_addr_ismulticast (dest_of H))). destruct (t =? ICMP_ECHO); [|by rewrite andb_false_r]. destruct (ip4_addr_isbroadcast (dest_of H) nf || ip_addr_ismulticast (dest_of H)); [by rewrite andb_false_r|].
  destruct (Z.ltb_spec (Z.of_nat (length (packet s.(hp) p))) 8) as [|H8]; [done|]. destruct (aligned_payloads_ok _ _ _ _ (s_inv S) (s_held S) (s_chain S) Hr HB) as (c & -> & Hc & Epc).
  rewrite (Checksum.pbuf_checksum c Hc), Epc, Checksum.hton16_zero by by apply Checksum.rfc1071_range. by destruct (Checksum.rfc1071 (packet s.(hp) p) =? 0).
Qed.

Lemma reply_message_app T U : length T = 4%nat -> reply_message (T ++ U) = reply_message T ++ U.
Proof. intros L. destruct T as [|t0 [|t1 [|t2 [|t3 [|]]]]]; try done. Qed.

Lemma echo_reply_packet h R r y o m l G msg src dest : sendable h R r y (o + Z.of_nat (length G)) m l -> 0 <= o -> take (length G) (drop (Z.to_nat o) m) = G -> packet h r = msg -> 4 <= y.(len) -> (20 <= length G)%nat -> bytes_ok G -> bytes_ok msg -> is_word src -> is_word dest ->
  exists h' m', echo_reply h (r, o) (r, o + Z.of_nat (length G)) src dest = Some h' /\ sendable h' R r y (o + Z.of_nat (length G)) m' l /\ take (length G) (drop (Z.to_nat o) m') = reply_header G src dest /\ packet h' r = reply_message msg.
Proof.
  intros S Ho EG Em H4 LG HG HM Hs Hd. destruct (sendable_facts _ _ _ _ _ _ _ S) as (_ & _ & Ec & Ep & _). destruct (s_room S) as (? & ? & ?). set (n := length G) in *.
  set (A := take (Z.to_nat o) m). set (T := take 4 (drop (Z.to_nat o + n) m)). set (B := drop (Z.to_nat o + n + 4) m). assert (m = A ++ (G ++ T) ++ B) as Emm.
  { unfold A, T, B. etrans; [symmetry; apply (take_drop (Z.to_nat o))|]. f_equal. etrans; [symmetry; apply (take_drop n)|]. rewrite EG, <- app_assoc. f_equal. rewrite drop_drop. etrans; [symmetry; apply (take_drop 4)|]. f_equal. by rewrite drop_drop. }
  assert (length A = Z.to_nat o) as LA by (unfold A; rewrite length_take; lia). assert (length T = 4%nat) as LT by (unfold T; rewrite length_take, length_drop; lia). assert (G = take 20 G ++ drop 20 G) as EGs by (symmetry; apply take_drop).
  destruct (reply_header_checks G src dest HG LG Hs Hd) as (_ & LR & _). assert (msg = T ++ drop 4 msg) as EM. { rewrite <- Em, Ep, Ec. replace (Z.to_nat (o + Z.of_nat n)) with (Z.to_nat o + n)%nat by lia. etrans; [symmetry; apply (take_drop 4)|]. f_equal. rewrite take_app_le by (rewrite length_take, length_drop; lia). rewrite firstn_firstn. unfold T. f_equal. lia. }
  assert (bytes_ok T) as HT by (rewrite EM in HM; by apply Forall_app in HM; destruct HM).
  assert (n = length (take 20 G) + length (drop 20 G))%nat as En by (rewrite <- length_app, take_drop; done).
  pose proof (echo_reply_ok h r o A (take 20 G) (drop 20 G) T B src dest) as Er. rewrite take_drop, <- En in Er. specialize (Er ltac:(split; [cbn; rewrite (s_block S), Emm; do 2 f_equal; by rewrite (app_assoc (take 20 G)), take_drop|cbn; lia]) ltac:(rewrite length_take; lia) LT ltac:(by apply Forall_take) HT Hs Hd Ho).
  set (m' := A ++ (reply_header G src dest ++ reply_message T) ++ B). assert (length (reply_message T) = 4%nat) as LRT by (clearbody T; destruct T as [|t0 [|t1 [|t2 [|t3 [|]]]]]; done).
  destruct (sendable_write _ _ _ _ _ _ _ m' S) as (S' & Ep' & _); [unfold m'; rewrite Emm, !length_app, LR, LRT, LT; done|]. eexists _, m'. split; [exact Er|]. split; [exact S'|]. split.
  - unfold m'. rewrite drop_app_length' by lia. rewrite <- app_assoc. apply take_app_length'. by rewrite LR.
  - etrans; [exact Ep'|]. replace m' with ((A ++ reply_header G src dest) ++ reply_message T ++ B) by (unfold m'; by rewrite <- !app_assoc). rewrite drop_app_length' by (rewrite length_app, LA, LR; lia). rewrite take_app_ge by lia. rewrite <- app_assoc, LRT. rewrite EM, reply_message_app by done. f_equal.
    rewrite <- Em, Ep. rewrite drop_app_length' by (rewrite Ec, length_take, length_drop; lia). rewrite drop_app_le by (rewrite Ec, length_take, length_drop; lia). f_equal. rewrite Ec, skipn_firstn_comm, drop_drop. unfold B. do 2 f_equal. lia.
Qed.

(** Output of a packet that has its header. *)
Lemma output_included s R p x o m l n nf src ttl tos proto d : sendable s.(hp) R p x o m l -> s.(netifs) !! n = Some nf -> get s.(hp) (p, o) 16 4 = Some d ->
  if negb (nf.(mtu) =? 0) && (nf.(mtu) <? Z.of_nat (length (packet s.(hp) p))) then ip_output_if ip_frag output_err s p src None ttl tos proto n = ip_frag s p n d
  else exists c, concat c = packet s.(hp) p /\ ip_output_if ip_frag output_err s p src None ttl tos proto n = Some (s, output_err, [Output n c d]).
Proof.
  intros S Hn Hd. destruct (sendable_facts _ _ _ _ _ _ _ S) as (_ & Hr & _ & _ & Et & _). unfold ip_output_if. rewrite (s_pbuf S), (s_ref S), Hn, (s_payload S), Hd, (s_pbuf S), Et. cbn [Z.eqb Pos.eqb]. destruct (negb _ && _); [done|]. rewrite (payloads_ok _ _ _ _ (s_inv S) (s_held S) (s_chain S) Hr).
  eexists. split; [|done]. symmetry. apply (packet_ok _ _ _ _ (s_inv S) (s_held S) (s_chain S)).
Qed.

Lemma icmp_answer_ok s R p inp nf x o m l G src dest ms : sendable s.(hp) R p x (o + Z.of_nat (length G)) m l -> filled s.(hp) (p :: l) = true -> 0 <= o -> take (length G) (drop (Z.to_nat o) m) = G -> 20 <= Z.of_nat (length G) <= 60 -> bytes_ok G -> bytes_ok (packet s.(hp) p) ->
  x.(tot_len) + Z.of_nat (length G) < 65536 -> o + Z.of_nat (length G) < echo_room \/ x.(tot_len) + echo_room < 65536 -> 8 <= x.(tot_len) -> 4 <= x.(len) -> alloc_legal s.(hp) PBUF_LINK (x.(tot_len) + Z.of_nat (length G)) PBUF_RAM ms = true ->
  s.(netifs) !! inp = Some nf -> is_word src -> is_word dest -> let r := icmp_answer ip_frag output_err s p inp (p, o) (Z.of_nat (length G)) src dest ms in
  (ms = [] /\ dropped R p r) \/ answered s R p inp nf src (reply_header G src dest ++ reply_message (packet s.(hp) p)) r.
Proof.
  intros S Fi Ho EG HG HGb HMb Ht Hroom H8 H4 Hal Hn Hs Hd. destruct (sendable_facts _ _ _ _ _ _ _ S) as (_ & _ & _ & _ & Et & _). destruct (echo_pbuf_ok _ _ _ _ _ _ _ _ ms S Fi Ho EG HG Ht Hroom H8 H4 Hal) as (h1 & q & c & E1 & Hq). unfold icmp_answer. rewrite E1. destruct q as [[q iphdr]|].
  2: { destruct Hq as [I1 Hms]. left. split; [done|]. by apply (dropped_before R p c (fun s => s)), free_dropped; [|apply I1|apply (s_held S)]. }
  right. destruct Hq as (y & o1 & m1 & l1 & -> & Ho1 & S1 & EG1 & Ep1 & Hy4). destruct (sendable_facts _ _ _ _ _ _ _ S1) as (_ & _ & _ & _ & Et1 & _). destruct (reply_header_checks G src dest HGb ltac:(lia) Hs Hd) as (_ & LR & _). rewrite (s_pbuf S1), (s_payload S1).
  destruct (echo_reply_packet _ _ _ _ _ _ _ G _ src dest S1 Ho1 EG1 Ep1 Hy4 ltac:(lia) HGb HMb Hs Hd) as (h2 & m2 & -> & S2 & EG2 & Ep2). destruct (header_restored _ _ _ _ _ _ _ _ S2 Ho1 ltac:(lia)) as (-> & S3 & Ep3); [rewrite Et1, Ep1; lia|]. cbn [Z.eqb]. rewrite Nat2Z.id, EG2, Ep2 in Ep3. set (h3 := put q _ h2) in *.
  destruct (s_room S3) as (? & ? & ?). assert (get h3 (q, o1) 16 4 = Some src) as Hget.
  { assert (Z.of_nat (length G) <= Z.of_nat (length (drop (Z.to_nat o1) m2))) as Hlm by (rewrite <- LR, <- EG2, length_take; lia). rewrite length_drop in Hlm. unfold get. rewrite (peek_own _ _ _ m2); [|apply (s_block S3)|lia..]. f_equal. transitivity (le_dec (le_enc 4 src)); [|apply le_dec_enc; done]. f_equal. replace (Z.to_nat (o1 + 16)) with (Z.to_nat o1 + 16)%nat by lia. rewrite <- drop_drop.
    transitivity (take 4 (drop 16 (reply_header G src dest))); [rewrite <- EG2, skipn_firstn_comm, firstn_firstn; f_equal; lia|]. unfold reply_header, reply_fields. rewrite <- !app_assoc.
    rewrite drop_app_ge by (rewrite length_take; lia). rewrite length_take, (Nat.min_l 8) by lia. change ((16 - 8)%nat) with 8%nat. cbn [app drop]. rewrite drop_app_ge by (rewrite length_take, length_drop; lia). rewrite length_take, length_drop, Nat.min_l by lia. cbn [Nat.sub]. rewrite drop_app_ge by (rewrite be_enc_length; lia). rewrite be_enc_length. cbn [Nat.sub]. done. }
  pose proof (output_included (set_hp h3 s) _ q _ o1 m2 l1 inp nf (Some dest) ICMP_TTL 0 IP_PROTO_ICMP src S3 Hn Hget) as Hout. cbn [hp set_hp] in Hout. rewrite Ep3 in Hout. exists (set_hp h3 s), q, c. split; [apply (s_inv S3)|]. split; [done|]. split; [done|].
  destruct (negb (mtu nf =? 0) && _); [rewrite Hout; destruct (ip_frag _ _ _ _) as [[[? ?] ?]|]; [|done]; by destruct (free _ _) as [[? ?]|]|]. destruct Hout as (d & Ed & ->).
  destruct (free_own (set_hp h3 s) _ q (s_inv S3) (s_held S3)) as (h4 & c' & -> & I4). exists d, (set_hp h4 s), c'. split; [done|]. split; [done|]. split; [|done]. replace (R ∖ {[+ p +]}) with ((R ∖ {[+ p +]} ⊎ {[+ q +]}) ∖ {[+ q +]}) by multiset_solver. done.
Qed.

(** ** From the device to the answer *)

Variable ip_reass : stack -> addr -> option (stack * option addr * list ip_action).

Lemma classify_icmp s inp nf H n pkt : classify s inp nf H n pkt = ToIcmp -> total_of H <= Z.of_nat (length pkt) /\ hlen_of H <= total_of H.
Proof.
  unfold classify. destruct (negb _ || _ || _ || _) eqn:E; [done|]. rewrite !orb_false_iff, !Z.ltb_ge in E. destruct (negb (unicast nf (src_of H))); [done|]. destruct (negb (for_us s inp (dest_of H) || _)); [done|]. destruct (is_fragment H); [done|]. destruct (Z.ltb_spec (total_of H) (hlen_of H)); [done|]. lia.
Qed.

(** C29: echo requests are answered when there is memory.  An ICMP packet from the
    device, with a header of at least twenty bytes, that is an echo request of
    at least eight bytes for a single host and that checks is sent back: the
    same bytes with the addresses exchanged, the type of an answer, the greatest
    time to live and both checksums adjusted; nothing stays allocated.  Other
    ICMP packets are freed without an answer.  The checksum of the answer's
    header is right over its first twenty bytes, that is, if there are no
    options; that of its message unless all of the message is zero.  (In the two
    other cases it is wrong, [echo_options_checksum] and [echo_zeros_checksum].) *)
Theorem ping_answered s R data ms h p inp nf ms' : inv s.(hp) R -> bytes_ok data -> 20 <= Z.of_nat (length data) < 65536 -> malloc_ok s.(hp) ms = true ->
  PbufDevice.device_pbuf s.(hp) data ms = Some (h, Some p) -> s.(netifs) !! inp = Some nf -> (forall a, a ∈ s.(netif_list) -> is_Some (s.(netifs) !! a)) ->
  let H := take 20 data in let cut := take (Z.to_nat (total_of H)) data in let G := take (Z.to_nat (hlen_of H)) cut in let msg := drop (Z.to_nat (hlen_of H)) cut in let reply := reply_header G (src_of H) (dest_of H) ++ reply_message msg in
  classify s inp nf H (Z.of_nat (length data)) data = ToIcmp -> 20 <= hlen_of H -> malloc_ok h ms' = true -> ms' <> [] ->
  let r := ip_input ip_frag output_err ip_reass (set_hp h s) p inp ms' in
  if to_answer nf (dest_of H) msg (Z.of_nat (length msg)) then
    (exists ra c, answered (set_hp h s) (R ⊎ {[+ p +]}) p inp nf (src_of H) reply ra /\ r = LET (s', acts) <- ra in Some (set_ip_data no_globals s', map CustomFreed c ++ acts)) /\
    Checksum.rfc1071 (take 20 reply) = 0 /\ (le_dec (reply_message msg) <> 0 -> Checksum.rfc1071 (reply_message msg) = 0)
  else dropped (R ⊎ {[+ p +]}) p r.
Proof.
  intros I HB Hl Ha E Hn Hnl H cut G msg reply Hc Hh Hal Hms r. pose proof (device_input ip_frag output_err ip_reass s R data ms h p inp nf ms' I HB Hl Ha E Hn Hnl) as Hr. cbv zeta in Hr. fold H in Hr. rewrite Hc in Hr. fold cut in Hr. destruct Hr as (s1 & c & [Fw I1 Ep Eg (x & m & l & Ef & S & Fi & _ & Etk & HBc & EH) (Ei & En & _)] & Er). fold r in Er.
  destruct (classify_icmp _ _ _ _ _ _ Hc) as [Htl Hht]. assert (length cut = Z.to_nat (total_of H)) as Lc by (unfold cut; rewrite length_take; lia). assert (bytes_ok H) as HH by by apply Forall_take. assert (length H = 20%nat) as LH by (unfold H; rewrite length_take; lia). pose proof (hlen_range H HH LH) as Hhr.
  assert (length G = Z.to_nat (hlen_of H)) as LG by (unfold G; rewrite length_take; lia). assert (Z.of_nat (length G) = hlen_of H) as LG' by lia. assert (length msg = Z.to_nat (total_of H) - Z.to_nat (hlen_of H))%nat as Lm by (unfold msg; rewrite length_drop; lia). fold msg in Ep. fold G in Etk.
  assert (bytes_ok msg) as HM by by apply Forall_drop. destruct (be_field H 2 2 HH LH ltac:(lia) eq_refl) as [_ Htr]. fold (total_of H) in Htr. destruct (sendable_facts _ _ _ _ _ _ _ S) as (_ & _ & _ & _ & Et & _). rewrite Ep, Lm in Et.
  assert (is_word (src_of H) /\ is_word (dest_of H)) as [Hs Hd] by (split; apply (field_range H _ 4 HH LH); lia). rewrite (icmp_input_checks s1 _ p inp nf x 0 m l H ms' S ltac:(by rewrite Ep) Eg ltac:(by rewrite En) EH HH ltac:(lia) Hh) in Er. rewrite Ep in Er.
  replace (to_answer nf (dest_of H) msg x.(len)) with (to_answer nf (dest_of H) msg (Z.of_nat (length msg))) in Er.
  2: { unfold to_answer. destruct (Z.leb_spec 8 (Z.of_nat (length msg))); [|by rewrite !andb_false_r]. by rewrite !(proj2 (Z.leb_le 4 _)) by lia. }
  destruct (to_answer nf (dest_of H) msg (Z.of_nat (length msg))) eqn:Ea.
  2: { rewrite Er. by apply (dropped_before _ _ c (set_ip_data no_globals)), free_dropped; [|exact I1|apply (s_held S)]. }
  unfold to_answer in Ea. rewrite !andb_true_iff, bool_decide_eq_true, Z.eqb_eq, !Z.leb_le in Ea. destruct Ea as ((((? & ?) & Ht8) & _) & Hz). assert (bytes_ok G) as HG by by apply Forall_take. split; [|split].
  - destruct (icmp_answer_ok s1 (R ⊎ {[+ p +]}) p inp nf x 0 m l G (src_of H) (dest_of H) ms') as [[? _]|An]; try done; [by rewrite LG'|by rewrite LG|lia|by rewrite Ep|lia|unfold echo_room, PBUF_IP_HLEN, PBUF_LINK_HLEN; lia|lia|lia| |by rewrite En|].
    { eapply fewer_legal; [exact Fw|]. replace (tot_len x + Z.of_nat (length G)) with (total_of H) by lia. unfold alloc_legal. cbn [hp set_hp]. by rewrite (proj2 (Z.leb_le _ _)), (proj2 (Z.ltb_lt _ _)), Hal by lia. }
    rewrite LG', Ep in An. fold reply in An. eexists _, c. split; [|exact Er]. unfold answered in An |- *. by rewrite Ei in An.
  - destruct (reply_header_checks G (src_of H) (dest_of H) HG ltac:(lia) Hs Hd) as (Hck & LR & _). unfold reply. rewrite take_app_le by lia. done.
  - intros Hnz. apply reply_message_checks; [done|lia|done|done|done].
Qed.

End input.

(** An echo request with seven bytes behind its checksum. *)
Definition ping (opts icmp : bytes) : bytes :=
  let n := Z.of_nat (20 + length opts + length icmp) in with_sum [0x45 + Z.of_nat (length opts) / 4; 0; n / 256; n mod 256; 0; 0; 0; 0; 64; 1] (addresses ++ opts) ++ icmp.
Definition echo (rest : bytes) : bytes := with_sum [8; 0] rest.
Definition ping_packet : bytes := ping [] (echo [0; 7; 0; 1; 97; 98; 99]).
Definition pong_packet : bytes := reply_header (take 20 ping_packet) (le_dec [10; 0; 0; 1]) (le_dec [10; 0; 0; 2]) ++ reply_message (drop 20 ping_packet).

Lemma ping_answered_witness : (exists ra c, answered no_frag (set_hp (device_heap ping_packet) stack0) (∅ ⊎ {[+ 4096 +]}) 4096 1 tun (le_dec [10; 0; 0; 1]) pong_packet ra /\
    ip_input no_frag 0 no_reass (set_hp (device_heap ping_packet) stack0) 4096 1 at_8192 = LET (s', acts) <- ra in Some (set_ip_data no_globals s', map CustomFreed c ++ acts)) /\
  Checksum.rfc1071 (take 20 pong_packet) = 0 /\ (le_dec (reply_message (drop 20 ping_packet)) <> 0 -> Checksum.rfc1071 (reply_message (drop 20 ping_packet)) = 0).
Proof.
  assert (total_of (take 20 ping_packet) = 31) as Et by (vm_compute; reflexivity). assert (hlen_of (take 20 ping_packet) = 20) as Eh by (vm_compute; reflexivity). assert (take (Z.to_nat 31) ping_packet = ping_packet) as Ec by (vm_compute; reflexivity).
  assert (src_of (take 20 ping_packet) = le_dec [10; 0; 0; 1]) as Es by (vm_compute; reflexivity). assert (dest_of (take 20 ping_packet) = le_dec [10; 0; 0; 2]) as Ed by (vm_compute; reflexivity).
  assert (length ping_packet = 31%nat) as El by (vm_compute; reflexivity). assert (to_answer tun (le_dec [10; 0; 0; 2]) (drop (Z.to_nat 20) ping_packet) (Z.of_nat (length (drop (Z.to_nat 20) ping_packet))) = true) as Ea by (vm_compute; reflexivity).
  pose proof (ping_answered no_frag 0 no_reass stack0 ∅ ping_packet at_4096 (device_heap ping_packet) 4096 1 tun at_8192 empty_inv) as Hp. cbv zeta in Hp. rewrite Et, Eh, Ec, Es, Ed, Ea in Hp. change (Z.to_nat 20) with 20%nat in Hp. fold pong_packet in Hp.
  specialize (Hp ltac:(vm_compute; repeat constructor; try (by intros [=]); lia) ltac:(rewrite El; lia) ltac:(vm_compute; reflexivity) ltac:(vm_compute; reflexivity) eq_refl stack0_netifs ltac:(vm_compute; reflexivity) ltac:(lia) ltac:(vm_compute; reflexivity) ltac:(done)). exact Hp.
Defined.

End IcmpRun.
