(* ===== verification/IpReass.v ===== *)
(** * Reassembly of IPv4 fragments

    Models the first half of [lwip/src/core/ipv4/ip_frag.c] ([IP_REASSEMBLY]), as
    configured by default: overlapping fragments are looked for, and the oldest
    datagram is removed when there is no room.

    A fragment that waits has its IP header overwritten by a
    [struct ip_reass_helper]: a pointer to the next fragment and the range of
    the fragment in the datagram.  The model writes these into the memory of the
    pbuf as the code does.  The objects of type [struct ip_reassdata] are in the
    state of the stack ([Ip4.reassembly]); [rs] are the answers of [malloc] for
    them, in order, and [mss] those for the ICMP messages, one list for each. *)

From stdpp Require Import gmultiset.
From S2P Require Import Prelude Words Checksum LinkedList Pbuf PbufChain PbufData PbufRun Ip4 Icmp.
Open Scope Z_scope.
Import ByteOrder Pbuf PbufData Ip4 Icmp.

Module IpReass.

Definition IP_REASS_FLAG_LASTFRAG : Z := 0x01.
Definition IP_REASS_MAXAGE : Z := 3.
Definition IP_REASS_MAX_PBUFS : Z := 10.
Definition ICMP_TE_FRAG : Z := 1.

Definition r_set_next n x := MkReassdata n x.(r_p) x.(r_iphdr) x.(datagram_len) x.(r_flags) x.(r_timer).
Definition r_set_p p x := MkReassdata x.(r_next) p x.(r_iphdr) x.(datagram_len) x.(r_flags) x.(r_timer).
Definition r_set_iphdr h x := MkReassdata x.(r_next) x.(r_p) h x.(datagram_len) x.(r_flags) x.(r_timer).
Definition r_set_last len x := MkReassdata x.(r_next) x.(r_p) x.(r_iphdr) len (Z.lor x.(r_flags) IP_REASS_FLAG_LASTFRAG) x.(r_timer).
Definition r_set_len len x := MkReassdata x.(r_next) x.(r_p) x.(r_iphdr) len x.(r_flags) x.(r_timer).
Definition r_set_timer t x := MkReassdata x.(r_next) x.(r_p) x.(r_iphdr) x.(datagram_len) x.(r_flags) t.
Definition put_r (a : addr) (x : ip_reassdata) (r : reassembly) := MkReassembly (<[a := x]> r.(reassdata)) r.(reassdatagrams) r.(ip_reass_pbufcount).
Definition set_head a r := MkReassembly r.(reassdata) a r.(ip_reass_pbufcount).
Definition set_count n r := MkReassembly r.(reassdata) r.(reassdatagrams) n.

(** ** The helper structure in the place of the header *)

Definition sizeof_ip_reass_helper : Z := 12.
Definition of_pointer (p : option addr) : Z := match p with Some a => a | None => 0 end.
Definition to_pointer (x : Z) : option addr := if x =? 0 then None else Some x.
Definition next_pbuf (h : heap) (q : addr * Z) : option (option addr) := LET x <- get h q 0 8 in Some (to_pointer x).
Definition set_next_pbuf (h : heap) (q : addr * Z) (p : option addr) : option heap := poke h q 0 (le_enc 8 (of_pointer p)).
Definition start_of (h : heap) (q : addr * Z) : option Z := get h q 8 2.
Definition end_of (h : heap) (q : addr * Z) : option Z := get h q 10 2.

Definition payload_of (h : heap) (p : addr) : option (addr * Z) := LET x <- h.(pbufs) !! p in x.(payload).

Definition IP_ADDRESSES_AND_ID_MATCH (h : heap) (iphdrA : bytes) (q : addr * Z) : option bool :=
  LET B <- peek h q 0 IP_HLEN in
  let part := (fun off n (X : bytes) => take n (drop off X)) in
  Some (bool_decide (part 12%nat 4%nat iphdrA = part 12%nat 4%nat B) && bool_decide (part 16%nat 4%nat iphdrA = part 16%nat 4%nat B) && bool_decide (part 4%nat 2%nat iphdrA = part 4%nat 2%nat B)).

(** ** Taking datagrams out of the list *)

Definition ip_reass_dequeue_datagram (r : reassembly) (ipr : addr) (prev : option addr) : option reassembly :=
  LET x <- r.(reassdata) !! ipr in
  LET r <- (if bool_decide (r.(reassdatagrams) = Some ipr) then Some (set_head x.(r_next) r)
            else LET q <- prev in LET y <- r.(reassdata) !! q in Some (put_r q (r_set_next x.(r_next) y) r)) in
  Some (MkReassembly (delete ipr r.(reassdata)) r.(reassdatagrams) r.(ip_reass_pbufcount)).

(** The fragments are freed one by one. *)
Fixpoint free_frags (fuel : nat) (s : stack) (p : option addr) (pbufs_freed : Z) : option (stack * Z * list ip_action) :=
  match p with
  | None => Some (s, pbufs_freed, [])
  | Some pcur =>
      match fuel with
      | O => None
      | S fuel =>
          LET iprh <- payload_of s.(hp) pcur in
          LET p <- next_pbuf s.(hp) iprh in
          LET clen <- pbuf_clen s.(hp) (Some pcur) in
          ASSERT pbufs_freed + clen <=? 0xffff in
          LET (s, o) <- free s pcur in
          LET (s, pbufs_freed, o') <- free_frags fuel s p (u16 (pbufs_freed + clen)) in
          Some (s, pbufs_freed, o ++ o')
      end
  end.

Section reassembly.
Variable ip_frag : stack -> addr -> addr -> Z -> option (stack * Z * list ip_action).
Variable output_err : Z.
Abbreviation icmp_time_exceeded := (icmp_time_exceeded ip_frag output_err).

(** The next answers of [malloc]. *)
Definition pop {A} (d : A) (l : list A) : A * list A := match l with [] => (d, []) | x :: l => (x, l) end.

Definition ip_reass_free_complete_datagram (s : stack) (ipr : addr) (prev : option addr) (mss : list (list answer)) : option (stack * Z * list (list answer) * list ip_action) :=
  ASSERT negb (bool_decide (prev = Some ipr)) in
  LET _ <- (match prev with Some q => LET y <- s.(reass).(reassdata) !! q in ASSERT bool_decide (y.(r_next) = Some ipr) in Some tt | None => Some tt end) in
  LET x <- s.(reass).(reassdata) !! ipr in
  LET p <- x.(r_p) in
  LET iprh <- payload_of s.(hp) p in
  LET start <- start_of s.(hp) iprh in
  LET (s, pbufs_freed, mss, o) <-
    (if start =? 0 then
       LET n <- next_pbuf s.(hp) iprh in
       let s := set_reass (put_r ipr (r_set_p n x) s.(reass)) s in
       LET h <- poke s.(hp) iprh 0 x.(r_iphdr) in
       let (ms, mss) := pop [] mss in
       LET (s, o) <- icmp_time_exceeded (set_hp h s) p ICMP_TE_FRAG ms in
       LET clen <- pbuf_clen s.(hp) (Some p) in
       ASSERT clen <=? 0xffff in
       LET (s, c) <- free s p in
       Some (s, clen, mss, o ++ c)
     else Some (s, 0, mss, [])) in
  LET x <- s.(reass).(reassdata) !! ipr in
  LET (s, pbufs_freed, c) <- free_frags (fuel s.(hp)) s x.(r_p) pbufs_freed in
  LET r <- ip_reass_dequeue_datagram s.(reass) ipr prev in
  ASSERT pbufs_freed <=? r.(ip_reass_pbufcount) in
  Some (set_reass (set_count (u16 (r.(ip_reass_pbufcount) - pbufs_freed)) r) s, pbufs_freed, mss, o ++ c).

(** The oldest datagram that is not the one of [fraghdr], and what the loop
    leaves in [prev]. *)
Fixpoint oldest_loop (fuel : nat) (s : stack) (fraghdr : addr * Z) (r oldest prev : option addr) (other_datagrams : Z) : option (option addr * option addr * Z) :=
  match r with
  | None => Some (oldest, prev, other_datagrams)
  | Some a =>
      match fuel with
      | O => None
      | S fuel =>
          LET x <- s.(reass).(reassdata) !! a in
          LET m <- IP_ADDRESSES_AND_ID_MATCH s.(hp) x.(r_iphdr) fraghdr in
          LET (oldest, other_datagrams) <-
            (if negb m then
               LET older <- (match oldest with None => Some true | Some b => LET y <- s.(reass).(reassdata) !! b in Some (x.(r_timer) <=? y.(r_timer)) end) in
               Some (if older : bool then Some a else oldest, other_datagrams + 1)
             else Some (oldest, other_datagrams)) in
          oldest_loop fuel s fraghdr x.(r_next) oldest (match x.(r_next) with Some _ => Some a | None => prev end) other_datagrams
      end
  end.

Fixpoint remove_loop (fuel : nat) (s : stack) (fraghdr : addr * Z) (pbufs_needed pbufs_freed : Z) (mss : list (list answer)) : option (stack * Z * list (list answer) * list ip_action) :=
  match fuel with
  | O => None
  | S fuel =>
      LET (oldest, prev, other_datagrams) <- oldest_loop (S (size s.(reass).(reassdata))) s fraghdr s.(reass).(reassdatagrams) None None 0 in
      LET (s, pbufs_freed, mss, o) <-
        (match oldest with
         | Some a => LET (s, n, mss, o) <- ip_reass_free_complete_datagram s a prev mss in Some (s, pbufs_freed + n, mss, o)
         | None => Some (s, pbufs_freed, mss, [])
         end) in
      if (pbufs_freed <? pbufs_needed) && (1 <? other_datagrams) then
        LET (s, pbufs_freed, mss, o') <- remove_loop fuel s fraghdr pbufs_needed pbufs_freed mss in
        Some (s, pbufs_freed, mss, o ++ o')
      else Some (s, pbufs_freed, mss, o)
  end.

Definition ip_reass_remove_oldest_datagram (s : stack) (fraghdr : addr * Z) (pbufs_needed : Z) (mss : list (list answer)) : option (stack * Z * list (list answer) * list ip_action) :=
  remove_loop (S (size s.(reass).(reassdata))) s fraghdr pbufs_needed 0 mss.

Definition ip_reass_enqueue_new_datagram (s : stack) (fraghdr : addr * Z) (clen : Z) (rs : list (option addr)) (mss : list (list answer)) : option (stack * option addr * list ip_action) :=
  let (ipr, rs) := pop None rs in
  LET (s, ipr, o) <-
    (match ipr with
     | Some a => Some (s, Some a, [])
     | None =>
         LET (s, n, mss, o) <- ip_reass_remove_oldest_datagram s fraghdr clen mss in
         Some (s, if clen <=? n then (pop None rs).1 else None, o)
     end) in
  match ipr with
  | None => Some (s, None, o)
  | Some a =>
      LET H <- peek s.(hp) fraghdr 0 IP_HLEN in
      Some (set_reass (set_head (Some a) (put_r a (MkReassdata s.(reass).(reassdatagrams) None H 0 0 IP_REASS_MAXAGE) s.(reass))) s, Some a, o)
  end.

(** ** Putting a fragment into its datagram *)

(** Where the loop over the fragments stops: before the fragment [q], at one
    that overlaps, or at the end; [prev] is the helper before. *)
Inductive place := Before (q : addr) (prev : option (addr * Z)) (valid : bool) | Overlap | AtEnd (prev : option (addr * Z)) (valid : bool).

Fixpoint place_loop (fuel : nat) (h : heap) (iprh : addr * Z) (q : option addr) (iprh_prev : option (addr * Z)) (valid : bool) : option place :=
  match q with
  | None => Some (AtEnd iprh_prev valid)
  | Some a =>
      match fuel with
      | O => None
      | S fuel =>
          LET iprh_tmp <- payload_of h a in
          LET start <- start_of h iprh in
          LET tmp_start <- start_of h iprh_tmp in
          LET tmp_end <- end_of h iprh_tmp in
          if start <? tmp_start then Some (Before a iprh_prev valid)
          else if start =? tmp_start then Some Overlap
          else if start <? tmp_end then Some Overlap
          else
            LET valid <- (match iprh_prev with Some pr => LET e <- end_of h pr in Some (if negb (e =? tmp_start) then false else valid) | None => Some valid end) in
            LET q <- next_pbuf h iprh_tmp in
            place_loop fuel h iprh q (Some iprh_tmp) valid
      end
  end.

(** No holes behind [iprh]: the answer and the last helper. *)
Fixpoint rest_loop (fuel : nat) (h : heap) (iprh : addr * Z) (q : option addr) : option (bool * (addr * Z)) :=
  match q with
  | None => Some (true, iprh)
  | Some a =>
      match fuel with
      | O => None
      | S fuel =>
          LET n <- payload_of h a in
          LET e <- end_of h iprh in
          LET start <- start_of h n in
          if negb (e =? start) then Some (false, n)
          else LET q <- next_pbuf h n in rest_loop fuel h n q
      end
  end.

(** [freepbuf]. *)
Definition throw_away (s : stack) (new_p : addr) : option (stack * bool * list ip_action) :=
  LET clen <- pbuf_clen s.(hp) (Some new_p) in
  LET (s, o) <- free (set_reass (set_count (u16 (s.(reass).(ip_reass_pbufcount) - clen)) s.(reass)) s) new_p in
  Some (s, false, o).

(** The validation part. *)
Definition validate (s : stack) (ipr : addr) (iprh : addr * Z) (valid : bool) : option bool :=
  LET x <- s.(reass).(reassdata) !! ipr in
  if negb (Z.land x.(r_flags) IP_REASS_FLAG_LASTFRAG =? 0) then
    if valid then
      LET p <- x.(r_p) in
      LET first <- payload_of s.(hp) p in
      LET start <- start_of s.(hp) first in
      if negb (start =? 0) then Some false
      else
        LET q <- next_pbuf s.(hp) iprh in
        LET (valid, iprh) <- rest_loop (fuel s.(hp)) s.(hp) iprh q in
        if valid : bool then
          ASSERT negb (bool_decide (first = iprh)) in
          LET n <- next_pbuf s.(hp) iprh in
          ASSERT bool_decide (n = None) in
          LET e <- end_of s.(hp) iprh in
          ASSERT e =? x.(datagram_len) in
          Some true
        else Some false
    else Some false
  else Some false.

Definition ip_reass_chain_frag_into_datagram_and_validate (s : stack) (ipr : addr) (new_p : addr) : option (stack * bool * list ip_action) :=
  LET iprh <- payload_of s.(hp) new_p in
  LET l <- get s.(hp) iprh 2 2 in
  LET v_hl <- get s.(hp) iprh 0 1 in
  LET off <- get s.(hp) iprh 6 2 in
  let len := u16 (hton16 l - Z.land v_hl 0x0f * 4) in
  let offset := u16 (Z.land (hton16 off) IP_OFFMASK * 8) in
  ASSERT sizeof_ip_reass_helper <=? IP_HLEN in
  LET h <- set_next_pbuf s.(hp) iprh None in
  LET h <- poke h iprh 8 (le_enc 2 offset) in
  LET h <- poke h iprh 10 (le_enc 2 (u16 (offset + len))) in
  let s := set_hp h s in
  LET x <- s.(reass).(reassdata) !! ipr in
  LET pl <- place_loop (fuel h) h iprh x.(r_p) None true in
  match pl with
  | Overlap => throw_away s new_p
  | Before q prev valid =>
      LET h <- set_next_pbuf h iprh (Some q) in
      let s := set_hp h s in
      match prev with
      | Some pr =>
          LET tmp <- payload_of h q in
          LET tmp_start <- start_of h tmp in
          LET start <- start_of h iprh in
          LET e <- end_of h iprh in
          LET pe <- end_of h pr in
          if (start <? pe) || (tmp_start <? e) then throw_away s new_p
          else
            LET h <- set_next_pbuf h pr (Some new_p) in
            let s := set_hp h s in
            LET valid <- validate s ipr iprh valid in Some (s, valid, [])
      | None =>
          let s := set_reass (put_r ipr (r_set_p (Some new_p) x) s.(reass)) s in
          LET valid <- validate s ipr iprh valid in Some (s, valid, [])
      end
  | AtEnd prev valid =>
      match prev with
      | Some pr =>
          LET pe <- end_of h pr in
          LET start <- start_of h iprh in
          ASSERT pe <=? start in
          LET h <- set_next_pbuf h pr (Some new_p) in
          let s := set_hp h s in
          LET valid <- validate s ipr iprh (if negb (pe =? start) then false else valid) in Some (s, valid, [])
      | None =>
          ASSERT bool_decide (x.(r_p) = None) in
          let s := set_reass (put_r ipr (r_set_p (Some new_p) x) s.(reass)) s in
          LET valid <- validate s ipr iprh valid in Some (s, valid, [])
      end
  end.

(** ** A fragment arrives *)

(** The datagram of the fragment, and the one before it in the list. *)
Fixpoint lookup_loop (fuel : nat) (s : stack) (fraghdr : addr * Z) (ipr ipr_prev : option addr) : option (option addr * option addr) :=
  match ipr with
  | None => Some (None, ipr_prev)
  | Some a =>
      match fuel with
      | O => None
      | S fuel =>
          LET x <- s.(reass).(reassdata) !! a in
          LET m <- IP_ADDRESSES_AND_ID_MATCH s.(hp) x.(r_iphdr) fraghdr in
          if m : bool then Some (Some a, ipr_prev) else lookup_loop fuel s fraghdr x.(r_next) (Some a)
      end
  end.

(** The pbufs of the datagram become one chain. *)
Fixpoint join_loop (fuel : nat) (h : heap) (p : addr) (r : option addr) : option heap :=
  match r with
  | None => Some h
  | Some a =>
      match fuel with
      | O => None
      | S fuel =>
          LET iprh <- payload_of h a in
          LET (h, _) <- pbuf_header h (Some a) (- IP_HLEN) in
          LET h <- pbuf_cat h (Some p) (Some a) in
          LET r <- next_pbuf h iprh in
          join_loop fuel h p r
      end
  end.

(** All fragments are there. *)
Definition complete (s : stack) (ipr : addr) (ipr_prev : option addr) : option (stack * option addr) :=
  LET x <- s.(reass).(reassdata) !! ipr in
  let len := u16 (x.(datagram_len) + IP_HLEN) in
  let s := set_reass (put_r ipr (r_set_len len x) s.(reass)) s in
  LET p <- x.(r_p) in
  LET fraghdr <- payload_of s.(hp) p in
  LET r <- next_pbuf s.(hp) fraghdr in
  LET h <- poke s.(hp) fraghdr 0 x.(r_iphdr) in
  LET h <- poke h fraghdr 2 (le_enc 2 (hton16 len)) in
  LET h <- poke h fraghdr 6 (le_enc 2 0) in
  LET h <- poke h fraghdr 10 (le_enc 2 0) in
  LET k <- chksum_at h fraghdr IP_HLEN in
  LET h <- poke h fraghdr 10 (le_enc 2 k) in
  LET h <- join_loop (fuel h) h p r in
  LET q <- ip_reass_dequeue_datagram s.(reass) ipr ipr_prev in
  LET clen <- pbuf_clen h (Some p) in
  Some (set_hp h (set_reass (set_count (u16 (q.(ip_reass_pbufcount) - clen)) q) s), Some p).

(** [nullreturn]. *)
Definition null_return (s : stack) (p : addr) (o : list ip_action) : option (stack * option addr * list ip_action) :=
  LET (s, c) <- free s p in Some (s, None, o ++ c).

Definition ip_reass (s : stack) (p : addr) (rs : list (option addr)) (mss : list (list answer)) : option (stack * option addr * list ip_action) :=
  LET fraghdr <- payload_of s.(hp) p in
  LET v_hl <- get s.(hp) fraghdr 0 1 in
  if negb (Z.land v_hl 0x0f * 4 =? IP_HLEN) then null_return s p []
  else
    LET off <- get s.(hp) fraghdr 6 2 in
    LET l <- get s.(hp) fraghdr 2 2 in
    let offset := u16 (Z.land (hton16 off) IP_OFFMASK * 8) in
    let len := u16 (hton16 l - Z.land v_hl 0x0f * 4) in
    LET clen <- pbuf_clen s.(hp) (Some p) in
    LET (s, room, mss, o) <-
      (if IP_REASS_MAX_PBUFS <? s.(reass).(ip_reass_pbufcount) + clen then
         LET (s, n, mss, o) <- ip_reass_remove_oldest_datagram s fraghdr clen mss in
         Some (s, negb (n =? 0) && (s.(reass).(ip_reass_pbufcount) + clen <=? IP_REASS_MAX_PBUFS), mss, o)
       else Some (s, true, mss, [])) in
    if negb room then null_return s p o
    else
      LET (ipr, ipr_prev) <- lookup_loop (S (size s.(reass).(reassdata))) s fraghdr s.(reass).(reassdatagrams) None in
      LET (s, ipr, o') <-
        (match ipr with
         | None => ip_reass_enqueue_new_datagram s fraghdr clen rs mss
         | Some a =>
             LET x <- s.(reass).(reassdata) !! a in
             if (Z.land (hton16 off) IP_OFFMASK =? 0) && negb (Z.land (be_dec (take 2 (drop 6 x.(r_iphdr)))) IP_OFFMASK =? 0) then
               LET H <- peek s.(hp) fraghdr 0 IP_HLEN in Some (set_reass (put_r a (r_set_iphdr H x) s.(reass)) s, Some a, [])
             else Some (s, Some a, [])
         end) in
      match ipr with
      | None => null_return s p (o ++ o')
      | Some a =>
          let s := set_reass (set_count (u16 (s.(reass).(ip_reass_pbufcount) + clen)) s.(reass)) s in
          LET x <- s.(reass).(reassdata) !! a in
          let s := (if Z.land off (hton16 IP_MF) =? 0 then set_reass (put_r a (r_set_last (u16 (offset + len)) x) s.(reass)) s else s) in
          LET (s, valid, c) <- ip_reass_chain_frag_into_datagram_and_validate s a p in
          LET (s, r) <- (if valid : bool then complete s a ipr_prev else Some (s, None)) in
          Some (s, r, o ++ o' ++ c)
      end.

(** ** Time *)

Fixpoint tmr_loop (fuel : nat) (s : stack) (r prev : option addr) (mss : list (list answer)) : option (stack * list ip_action) :=
  match r with
  | None => Some (s, [])
  | Some a =>
      match fuel with
      | O => None
      | S fuel =>
          LET x <- s.(reass).(reassdata) !! a in
          if 0 <? x.(r_timer) then tmr_loop fuel (set_reass (put_r a (r_set_timer (x.(r_timer) - 1) x) s.(reass)) s) x.(r_next) (Some a) mss
          else
            LET (s, _, mss, o) <- ip_reass_free_complete_datagram s a prev mss in
            LET (s, o') <- tmr_loop fuel s x.(r_next) prev mss in
            Some (s, o ++ o')
      end
  end.

Definition ip_reass_tmr (s : stack) (mss : list (list answer)) : option (stack * list ip_action) :=
  tmr_loop (S (size s.(reass).(reassdata))) s s.(reass).(reassdatagrams) None mss.

End reassembly.
End IpReass.
