(* ===== verification/ReassRun.v ===== *)
(** * Datagrams in fragments

    What [ip_reass] of [IpReass] does with the fragments of a datagram that come
    one by one: [fragment] describes one that waits in memory, [queue] the list
    of them, [waiting] the state of the stack between the packets, [whole] that
    when the last one is there.  [reass_step] is about one call.

    A fragment is in one buffer, which holds 1516 bytes. *)

From stdpp Require Import gmultiset.
From S2P Require Import Prelude Words Checksum LinkedList Pbuf PbufChain PbufData PbufRun PbufDevice Ip4 Icmp Ip4Run Ip4Out IcmpRun IpReass.
Open Scope Z_scope.
Import ByteOrder Pbuf PbufChain PbufData PbufRun Ip4 Icmp Ip4Run Ip4Out IcmpRun IpReass.

Module ReassRun.

(** ** A packet in one buffer *)

Definition one_buffer (a n : Z) : pbuf := MkPbuf None (Some (a, 0)) n n PBUF_POOL 0 1 false.
Definition pool_size : nat := 1516.

(** The heap with a packet in a buffer of its own. *)
Definition with_packet (a : addr) (data rest : bytes) (h : heap) : heap :=
  MkHeap (<[a := one_buffer a (Z.of_nat (length data))]> h.(pbufs)) (<[a := data ++ rest]> h.(blocks)).

Lemma take_loop_end fuel h p d c : take_loop fuel h p d 0 c = Some (h, c).
Proof. by destruct fuel. Qed.

Lemma device_single h data m : 0 < Z.of_nat (length data) <= 1516 -> m.(at_) mod 4 = 0 -> h.(pbufs) !! m.(at_) = None ->
  exists rest, length (data ++ rest) = pool_size /\ PbufDevice.device_pbuf h data [m] = Some (with_packet m.(at_) data rest h, Some m.(at_)).
Proof.
  intros Hn Ha Hf. set (a := at_ m) in *. set (n := Z.of_nat (length data)) in *. set (old := resize (Z.to_nat 1516) 0 (old_data m)). assert (length old = pool_size) as Lo by apply length_resize.
  exists (drop (length data) old). split; [rewrite length_app, length_drop, Lo; unfold pool_size in *; lia|]. unfold PbufDevice.device_pbuf, pbuf_alloc. fold n a. change (layer_offset PBUF_RAW) with 0. rewrite payload_offset_ok by done. change (LWIP_MEM_ALIGN 0) with 0.
  change (PBUF_POOL_BUFSIZE_ALIGNED) with 1516. rewrite Z.sub_0_r, Z.min_l, u16_small by lia. rewrite Z.add_0_l, (proj2 (Z.leb_le n 1516)), Z.sub_diag by lia. change (0 <? 1516) with true. cbn [pool_loop]. replace (pool_loop _ _ _ _ 0 []) with (Some (put a (MkPbuf None (Some (a, 0)) n n PBUF_POOL (old_flags m) 1 false) (fresh_block m 1516 h), Some a, @nil addr)) by by destruct (Z.to_nat n).
  unfold finish_alloc. rewrite put_eq, put_put. change (set_flags 0 (set_ref 1 _)) with (one_buffer a n). unfold pbuf_take. rewrite put_eq. cbn [one_buffer tot_len]. rewrite Z.ltb_irrefl.
  unfold fuel. cbn [take_loop]. rewrite (proj2 (Z.eqb_neq n 0)) by lia. rewrite put_eq. cbn [one_buffer len]. rewrite Z.ltb_irrefl, Z.add_0_l, Z.leb_refl. cbn [Z.to_nat]. rewrite drop_0, take_ge by lia.
  unfold write. cbn [one_buffer payload put fresh_block blocks]. fold a old. rewrite lookup_insert_eq. cbn [Z.add Z.leb Z.compare Z.to_nat]. unfold store. cbn [Nat.add]. rewrite (proj2 (Nat.leb_le _ _)) by (rewrite Lo; unfold pool_size; lia).
  cbn [next]. rewrite Z.sub_diag. change (u16 0) with 0. change (0 <=? 0 + 0) with true. change (Z.to_nat (0 + 0)) with 0%nat. cbn [Nat.add]. rewrite take_loop_end.
  rewrite u16_small, Z.eqb_refl by lia. rewrite take_0, insert_insert_eq. done.
Qed.

(** ** Helpers *)

Definition helper (n : option addr) (start len : Z) : bytes := le_enc 8 (of_pointer n) ++ le_enc 2 start ++ le_enc 2 (start + len).
Definition pointer (p : option addr) : Prop := match p with Some a => 0 < a < 256 ^ 8 | None => True end.

(** The fragment at [a], with the next one and what it holds. *)
Definition fragment (h : heap) (a : addr) (n : option addr) (start : Z) (d : bytes) : Prop :=
  pointer (Some a) /\ pointer n /\ 0 <= start /\ start + Z.of_nat (length d) < 65536 /\ h.(pbufs) !! a = Some (one_buffer a (20 + Z.of_nat (length d))) /\
  exists G B, length G = 8%nat /\ h.(blocks) !! a = Some (helper n start (Z.of_nat (length d)) ++ G ++ d ++ B).

Lemma helper_length n st k : length (helper n st k) = 12%nat.
Proof. unfold helper. rewrite !length_app, !le_enc_length. done. Qed.

Lemma to_of_pointer n : pointer n -> to_pointer (of_pointer n) = n.
Proof. destruct n as [a|]; [|done]. intros [? _]. cbn [of_pointer]. unfold to_pointer. by rewrite (proj2 (Z.eqb_neq a 0)) by lia. Qed.

Lemma pointer_dec n : pointer n -> le_dec (le_enc 8 (of_pointer n)) = of_pointer n.
Proof. intros Hp. apply le_dec_enc. destruct n as [a|]; cbn [of_pointer pointer] in *; change (256 ^ Z.of_nat 8) with (256 ^ 8); lia. Qed.

(** Reading the helper. *)
Lemma fragment_reads h a n st d : fragment h a n st d -> payload_of h a = Some (a, 0) /\ next_pbuf h (a, 0) = Some n /\ start_of h (a, 0) = Some st /\ end_of h (a, 0) = Some (st + Z.of_nat (length d)).
Proof.
  intros (Pa & Pn & Hs & He & Hx & G & B & LG & Hb). split; [unfold payload_of; by rewrite Hx|]. assert (view h (a, 0) [] (helper n st (Z.of_nat (length d))) (G ++ d ++ B)) as V by done. unfold next_pbuf, start_of, end_of.
  rewrite (get_view h (a, 0) _ _ _ 0 8 (le_enc 8 (of_pointer n)) V), (get_view h (a, 0) _ _ _ 8 2 (le_enc 2 st) V), (get_view h (a, 0) _ _ _ 10 2 (le_enc 2 (st + Z.of_nat (length d))) V); try (rewrite helper_length; lia); try lia; try done.
  rewrite pointer_dec, to_of_pointer by done. rewrite !le_dec_enc by (change (256 ^ Z.of_nat 2) with 65536; lia). done.
Qed.

(** Linking another one behind it. *)
Lemma fragment_set_next h a n st d n' : fragment h a n st d -> pointer n' -> exists h', set_next_pbuf h (a, 0) n' = Some h' /\ fragment h' a n' st d /\ wrote h h' [a].
Proof.
  intros (Pa & Pn & Hs & He & Hx & G & B & LG & Hb) Pn'. assert (view h (a, 0) [] (helper n st (Z.of_nat (length d))) (G ++ d ++ B)) as V by done. unfold set_next_pbuf.
  rewrite (poke_view h (a, 0) _ _ _ 0 (le_enc 8 (of_pointer n')) (helper n' st (Z.of_nat (length d))) V); [|lia|].
  2: { unfold store. cbn [Z.to_nat Nat.add]. rewrite helper_length, le_enc_length. cbn [Nat.leb]. rewrite take_0. cbn [app]. unfold helper. rewrite drop_app_length' by by rewrite le_enc_length. done. }
  eexists. split; [done|]. unfold rehead. cbn [fst app]. split.
  - do 4 (split; [done|]). split; [done|]. exists G, B. split; [done|]. apply lookup_insert_eq.
  - split; [done|intros b Hn; cbn [blocks]; rewrite lookup_insert_ne; [done|set_solver]|]. intros b m Hm. cbn [blocks]. destruct (decide (b = a)) as [->|Hne]; [|exists m; by rewrite lookup_insert_ne]. rewrite lookup_insert_eq. eexists. split; [reflexivity|]. replace m with (helper n st (Z.of_nat (length d)) ++ G ++ d ++ B) by congruence. rewrite !length_app, !helper_length. lia.
Qed.

Lemma fragment_same_next h a n st d : fragment h a n st d -> set_next_pbuf h (a, 0) n = Some h.
Proof.
  intros (Pa & Pn & Hs & He & Hx & G & B & LG & Hb). assert (view h (a, 0) [] (helper n st (Z.of_nat (length d))) (G ++ d ++ B)) as V by done. unfold set_next_pbuf. rewrite (poke_view h (a, 0) _ _ _ 0 (le_enc 8 (of_pointer n)) (helper n st (Z.of_nat (length d))) V); [by rewrite rehead_id|lia|].
  unfold store. cbn [Z.to_nat Nat.add]. rewrite helper_length, le_enc_length. cbn [Nat.leb]. rewrite take_0. cbn [app]. unfold helper. rewrite drop_app_length' by by rewrite le_enc_length. done.
Qed.

(** Nothing happened to what is not in [l]. *)
Definition kept (h h' : heap) (l : list addr) : Prop := forall b, b ∉ l -> h'.(pbufs) !! b = h.(pbufs) !! b /\ h'.(blocks) !! b = h.(blocks) !! b.

Lemma wrote_kept h h' l : wrote h h' l -> kept h h' l.
Proof. intros W b Hb. rewrite (w_pbufs _ _ _ W), (w_other _ _ _ W b Hb). done. Qed.

Lemma kept_trans h1 h2 h3 l1 l2 l : kept h1 h2 l1 -> kept h2 h3 l2 -> (forall a, a ∈ l1 \/ a ∈ l2 -> a ∈ l) -> kept h1 h3 l.
Proof. intros K1 K2 Hl b Hb. destruct (K1 b ltac:(intros ?; apply Hb; auto)) as [<- <-]. apply K2. intros ?. apply Hb. auto. Qed.

Lemma fragment_kept h h' l a n st d : fragment h a n st d -> kept h h' l -> a ∉ l -> fragment h' a n st d.
Proof. intros (Pa & Pn & Hs & He & Hx & Hb) K Hl. do 4 (split; [done|]). destruct (K a Hl) as [-> ->]. done. Qed.

(** ** The list of fragments *)

(** What is in the list: the address of the fragment, where it belongs, and its
    data. *)
Abbreviation piece := (addr * Z * bytes)%type.
Definition at_piece (x : piece) : addr := x.1.1.
Definition end_piece (x : piece) : Z := x.1.2 + Z.of_nat (length x.2).

Fixpoint queue (h : heap) (p : option addr) (ps : list piece) : Prop :=
  match ps with
  | [] => p = None
  | (a, st, d) :: ps => p = Some a /\ exists n, fragment h a n st d /\ queue h n ps
  end.

Lemma queue_kept h h' l ps : forall p, queue h p ps -> kept h h' l -> (forall a, a ∈ map at_piece ps -> a ∉ l) -> queue h' p ps.
Proof.
  induction ps as [|[[a st] d] ps IH]; intros p Q K Hl; [done|]. destruct Q as (-> & n & F & Q). split; [done|]. exists n. split; [eapply fragment_kept; [done..|apply Hl; left]|]. apply IH; [done|done|]. intros b Hb. apply Hl. by right.
Qed.

Definition first_of (ps : list piece) : option addr := at_piece <$> head ps.
Lemma queue_first h p ps : queue h p ps -> p = first_of ps.
Proof. destruct ps as [|[[a st] d] ps]; [done|]. by intros (-> & _). Qed.

Lemma queue_app h ps1 ps2 : forall p, queue h p (ps1 ++ ps2) -> queue h (first_of ps2) ps2.
Proof. induction ps1 as [|[[a st] d] ps1 IH]; intros p; cbn [app]; [intros Q; by rewrite <- (queue_first _ _ _ Q)|]. intros (_ & n & _ & Q). by eapply IH. Qed.

Lemma queue_in h ps : forall p a st d, queue h p ps -> (a, st, d) ∈ ps -> exists n, fragment h a n st d.
Proof. induction ps as [|[[b st'] d'] ps IH]; intros p a st d; cbn [queue]; [by intros _ ?%elem_of_nil|]. intros (-> & n & F & Q) [[= -> -> ->]|Hin]%elem_of_cons; [by exists n|by eapply IH]. Qed.

(** ** Where a fragment belongs *)

(** Each fragment begins where the one before it ends. *)
Fixpoint contiguous (e : option Z) (ps : list piece) : bool :=
  match ps with
  | [] => true
  | x :: ps => match e with Some e => e =? x.1.2 | None => true end && contiguous (Some (end_piece x)) ps
  end.

Definition pointer_to (x : option piece) : option (addr * Z) := (fun x => (at_piece x, 0)) <$> x.
Definition last_or (prev : option piece) (ps : list piece) : option piece := match last ps with Some x => Some x | None => prev end.

Lemma last_piece_cons prev x ps : last_or prev (x :: ps) = last_or (Some x) ps.
Proof. unfold last_or. destruct ps as [|y ps]; [done|]. change (last (x :: y :: ps)) with (last (y :: ps)). destruct (last (y :: ps)) eqn:E; [done|]. by apply last_None in E. Qed.

(** The loop passes the fragments before the new one and stops at the first
    behind it. *)
Lemma place_loop_ok h a n0 st d ps2 : fragment h a n0 st d -> match ps2 with [] => True | x :: _ => st < x.1.2 end ->
  forall ps1 fuel q prev valid, queue h q (ps1 ++ ps2) -> (length (ps1 ++ ps2) <= fuel)%nat -> Forall (fun x => x.1.2 < st /\ end_piece x <= st) ps1 -> match prev with Some x => end_of h (at_piece x, 0) = Some (end_piece x) | None => True end ->
  place_loop fuel h (a, 0) q (pointer_to prev) valid = Some (let prev' := pointer_to (last_or prev ps1) in let v := valid && contiguous (end_piece <$> prev) ps1 in match ps2 with [] => AtEnd prev' v | x :: _ => Before (at_piece x) prev' v end).
Proof.
  intros F H2. destruct (fragment_reads _ _ _ _ _ F) as (_ & _ & Hs & _). induction ps1 as [|[[b sb] db] ps1 IH]; intros fuel q prev valid Q Hf H1 Hp; cbn [app] in Q, Hf.
  - cbn [contiguous]. rewrite andb_true_r. unfold last_or. cbn [last]. destruct ps2 as [|[[b sb] db] ps2]; cbn [queue] in Q; [rewrite Q; by destruct fuel|]. destruct Q as (-> & n & Fb & _). destruct fuel as [|fuel]; [cbn in Hf; lia|]. cbn [place_loop]. destruct (fragment_reads _ _ _ _ _ Fb) as (-> & _ & Es & Ee). rewrite Hs, Es, Ee. cbn in H2. by rewrite (proj2 (Z.ltb_lt _ _)).
  - destruct Q as (-> & n & Fb & Q). destruct fuel as [|fuel]; [cbn in Hf; lia|]. apply Forall_cons in H1. destruct H1 as [[Hlt Hle] H1]. unfold end_piece in Hle. cbn [fst snd] in Hlt, Hle. destruct (fragment_reads _ _ _ _ _ Fb) as (Hpb & Hn & Es & Ee). cbn [place_loop]. rewrite Hpb, Hs, Es, Ee.
    rewrite (proj2 (Z.ltb_ge st sb)), (proj2 (Z.eqb_neq st sb)), (proj2 (Z.ltb_ge st (sb + Z.of_nat (length db)))) by lia. rewrite last_piece_cons. change (contiguous (end_piece <$> prev) ((b, sb, db) :: ps1)) with ((match end_piece <$> prev with Some e => e =? sb | None => true end) && contiguous (end_piece <$> Some (b, sb, db)) ps1).
    rewrite andb_assoc. rewrite <- (IH fuel n (Some (b, sb, db)) _ Q ltac:(cbn in Hf; lia) H1 Ee). cbn [pointer_to fmap option_fmap option_map at_piece fst]. rewrite Hn. destruct prev as [x|]; cbn [fmap option_fmap option_map]; [|by rewrite andb_true_r]. change (pointer_to (Some x)) with (Some (at_piece x, 0)). cbn match. rewrite Hp. by destruct (end_piece x =? sb), valid.
Qed.

(** The loop over the rest. *)
Lemma rest_loop_ok h ps : forall fuel a q e, queue h q ps -> (length ps <= fuel)%nat -> end_of h (a, 0) = Some e -> exists b, rest_loop fuel h (a, 0) q = Some (contiguous (Some e) ps, (b, 0)) /\ (contiguous (Some e) ps = true -> b = match last ps with Some x => at_piece x | None => a end).
Proof.
  induction ps as [|[[b sb] db] ps IH]; intros fuel a q e Q Hf He; [rewrite Q; exists a; by destruct fuel|]. destruct Q as (-> & n & F & Q). destruct fuel as [|fuel]; [cbn in Hf; lia|]. cbn [rest_loop contiguous]. destruct (fragment_reads _ _ _ _ _ F) as (-> & Hn & Es & Ee). rewrite He, Es. cbn [fst snd].
  destruct (e =? sb); cbn [negb andb]; [|by exists b]. rewrite Hn. destruct (IH fuel b n (sb + Z.of_nat (length db)) Q ltac:(cbn in Hf; lia) Ee) as (c & -> & Hc). exists c. split; [done|]. intros Ht. rewrite Hc by done. destruct ps as [|y ps]; [done|]. change (last ((b, sb, db) :: y :: ps)) with (last (y :: ps)). destruct (last (y :: ps)) eqn:El; [done|]. by apply last_None in El.
Qed.

(** The new fragment is linked in. *)
Lemma queue_insert h a n0 st d q ps1 ps2 : queue h q (ps1 ++ ps2) -> fragment h a n0 st d -> NoDup (a :: map at_piece (ps1 ++ ps2)) -> exists h1, set_next_pbuf h (a, 0) (first_of ps2) = Some h1 /\ wrote h h1 [a] /\ fragment h1 a (first_of ps2) st d /\ queue h1 q (ps1 ++ ps2) /\
  match last ps1 with
  | None => queue h1 (Some a) (ps1 ++ (a, st, d) :: ps2)
  | Some x => exists h2, set_next_pbuf h1 (at_piece x, 0) (Some a) = Some h2 /\ wrote h1 h2 [at_piece x] /\ queue h2 q (ps1 ++ (a, st, d) :: ps2)
  end.
Proof.
  intros Q F Hnd. apply NoDup_cons in Hnd. destruct Hnd as [Ha Hnd]. pose proof (queue_app _ _ _ _ Q) as Q2. assert (pointer (first_of ps2)) as Pf. { destruct ps2 as [|[[b sb] db] ps2]; [done|]. destruct Q2 as (_ & n & (? & _) & _). done. }
  destruct (fragment_set_next _ _ _ _ _ (first_of ps2) F Pf) as (h1 & E1 & F1 & W1). exists h1. split; [done|]. split; [done|]. split; [done|]. assert (queue h1 q (ps1 ++ ps2)) as Q1 by (eapply queue_kept; [done|by apply wrote_kept|]; intros b Hb ->%list_elem_of_singleton; done). split; [done|].
  destruct (last ps1) as [[[b sb] db]|] eqn:El; cbn [at_piece fst].
  2: { apply last_None in El. subst ps1. split; [done|]. exists (first_of ps2). split; [done|]. eapply queue_kept; [done|by apply wrote_kept|]. intros b Hb ->%list_elem_of_singleton. done. }
  apply last_Some in El. destruct El as (ps0 & ->). rewrite <- app_assoc in Q1, Hnd, Ha. cbn [app] in Q1, Hnd, Ha. destruct (queue_app _ _ _ _ Q1) as (_ & n & Fb & Qn). pose proof (proj1 F) as Pa. destruct (fragment_set_next _ _ _ _ _ (Some a) Fb Pa) as (h2 & E2 & Fb2 & W2).
  exists h2. split; [done|]. split; [done|]. rewrite map_app in Hnd. cbn [map] in Hnd. apply NoDup_app in Hnd. destruct Hnd as (_ & Hd & Hnd). apply NoDup_cons in Hnd. destruct Hnd as [Hb _]. cbn [at_piece fst] in Hb, Hd.
  assert (a <> b) as Hab by (intros ->; apply Ha; rewrite map_app; set_solver). rewrite <- app_assoc. cbn [app]. clear E1 E2 F Fb W1 Q Q2.
  assert (queue h2 n ps2) as Qn2 by (eapply queue_kept; [done|by apply wrote_kept|]; intros c Hc ->%list_elem_of_singleton; done). assert (fragment h2 a (first_of ps2) st d) as Fa2 by (eapply fragment_kept; [done|by apply wrote_kept|]; set_solver). rewrite (queue_first _ _ _ Qn2) in Qn2.
  revert q Q1. induction ps0 as [|[[c sc] dc] ps0 IH]; intros q Q1; cbn [app] in *.
  - destruct Q1 as (-> & _). split; [done|]. exists (Some a). split; [done|]. split; [done|]. by exists (first_of ps2).
  - destruct Q1 as (-> & n' & Fc & Q1). split; [done|]. exists n'. split; [eapply fragment_kept; [done|by apply wrote_kept|]|apply IH; [| |done]].
    + intros ->%list_elem_of_singleton. apply (Hd b); left.
    + intros x Hx. apply Hd. cbn [map]. by right.
    + intros Hin. apply Ha. cbn [map]. by right.
Qed.

(** ** The fragments that are there *)

(** The datagram is cut into [P]; the fragments with an address in [slots] have
    come. *)
Fixpoint pieces (st : Z) (P : list bytes) (slots : list (option addr)) : list piece :=
  match P, slots with
  | d :: P, s :: slots => match s with Some a => [(a, st, d)] | None => [] end ++ pieces (st + Z.of_nat (length d)) P slots
  | _, _ => []
  end.

Definition bytes_in (P : list bytes) : Z := Z.of_nat (length (concat P)).

Lemma bytes_in_cons d P : bytes_in (d :: P) = Z.of_nat (length d) + bytes_in P.
Proof. unfold bytes_in. cbn [concat]. rewrite length_app. lia. Qed.

Lemma pieces_app P1 P2 s2 : forall st s1, length P1 = length s1 -> pieces st (P1 ++ P2) (s1 ++ s2) = pieces st P1 s1 ++ pieces (st + bytes_in P1) P2 s2.
Proof.
  induction P1 as [|d P1 IH]; intros st [|x s1] L; [unfold bytes_in; cbn; by rewrite Z.add_0_r|done..|]. cbn [app pieces]. rewrite <- app_assoc. f_equal. rewrite IH by (cbn in L; lia). f_equal. rewrite bytes_in_cons. f_equal. lia.
Qed.

Definition filled_piece (d : bytes) : Prop := (0 < length d)%nat.

Lemma pieces_range P : Forall filled_piece P -> forall st s x, x ∈ pieces st P s -> st <= x.1.2 /\ x.1.2 < end_piece x /\ end_piece x <= st + bytes_in P.
Proof.
  induction P as [|d P IH]; intros HP st [|y s] x; [by intros ?%elem_of_nil..|]. apply Forall_cons in HP. destruct HP as [Hd HP]. cbn [pieces]. rewrite bytes_in_cons. unfold filled_piece in Hd. intros [Hx|Hx]%elem_of_app.
  - destruct y as [a|]; [|by apply elem_of_nil in Hx]. apply list_elem_of_singleton in Hx. subst x. unfold end_piece. cbn. unfold bytes_in. lia.
  - destruct (IH HP _ _ _ Hx) as (? & ? & ?). lia.
Qed.

(** Where one is missing the next does not begin at the right place. *)
Lemma contiguous_full P : Forall filled_piece P -> forall st s, length s = length P -> contiguous (Some st) (pieces st P s) = true -> match last s with Some None => False | _ => True end -> Forall is_Some s.
Proof.
  induction P as [|d P IH]; intros HP st [|y s] L; [constructor|done..|]. pose proof HP as HP'. apply Forall_cons in HP. destruct HP as [Hd HP]. unfold filled_piece in Hd. cbn [pieces]. destruct y as [a|].
  - cbn [app contiguous end_piece fst snd]. rewrite Z.eqb_refl. cbn [andb]. intros C Hl. constructor; [by eexists|]. apply (IH HP _ s ltac:(cbn in L; lia) C). destruct s; done.
  - cbn [app]. intros C Hl. exfalso. destruct (pieces (st + Z.of_nat (length d)) P s) as [|x ps] eqn:Ep.
    + clear C IH. assert (forall st', pieces st' P s = [] -> Forall (eq None) s) as Hn.
      { clear - L. revert s L. induction P as [|e P IH]; intros [|z s] L st' E; [constructor|done..|]. cbn in E. destruct z; [done|]. constructor; [done|]. eapply IH; [cbn in *; lia|done]. }
      specialize (Hn _ Ep). clear - Hn Hl. induction s as [|z s IH]; [done|]. apply Forall_cons in Hn. destruct Hn as [<- Hn]. by apply IH.
    + destruct (pieces_range P HP (st + Z.of_nat (length d)) s x) as (? & _); [rewrite Ep; left|]. cbn [contiguous] in C. apply andb_true_iff in C. destruct C as [C _]. apply Z.eqb_eq in C. lia.
Qed.

Lemma full_contiguous P : forall st s, Forall is_Some s -> contiguous (Some st) (pieces st P s) = true.
Proof. induction P as [|d P IH]; intros st [|y s] Hs; [done..|]. apply Forall_cons in Hs. destruct Hs as [[a ->] Hs]. cbn [pieces app contiguous end_piece fst snd]. rewrite Z.eqb_refl. by apply IH. Qed.

(** What the code finds when a fragment has been put between [ps1] and [ps2]. *)
Definition found_valid (last_came : bool) (ps1 : list piece) (x : piece) (ps2 : list piece) : bool :=
  last_came && contiguous None ps1 && match ps2, last ps1 with [], Some y => end_piece y =? x.1.2 | _, _ => true end && match ps1 ++ [x] with y :: _ => y.1.2 =? 0 | [] => true end && contiguous (Some (end_piece x)) ps2.

(** The check misses a gap right in front of the new fragment, unless that is the
    last one.  So one of these has to be: *)
Definition in_time (s1 s2 : list (option addr)) : bool :=
  match s1, last s2 with
  | _, None | _, Some None => true
  | _, Some (Some _) => match last s1 with None | Some (Some _) => true | Some None => forallb (fun x : option addr => match x with None => true | Some _ => false end) s1 end
  end.

Definition came (s : option (option addr)) : bool := match s with Some (Some _) => true | _ => false end.

Lemma pieces_none P : forall st s, Forall (eq None) s -> pieces st P s = [].
Proof. induction P as [|d P IH]; intros st [|y s] Hs; [done..|]. apply Forall_cons in Hs. destruct Hs as [<- Hs]. cbn. by apply IH. Qed.

Lemma contiguous_first st ps : match ps with x :: _ => x.1.2 = st | [] => True end -> contiguous None ps = contiguous (Some st) ps.
Proof. destruct ps as [|x ps]; [done|]. cbn. intros ->. by rewrite Z.eqb_refl. Qed.

Lemma last_piece P : Forall filled_piece P -> forall st s y, length s = length P -> last (pieces st P s) = Some y -> end_piece y = st + bytes_in P -> match last s with Some None => False | _ => True end.
Proof.
  intros HP st s y L El Ee. destruct (last s) as [[a|]|] eqn:Es; [done| |done]. apply last_Some in Es. destruct Es as (s' & ->). rewrite length_app in L. cbn in L. destruct (exists_last (l := P)) as (P' & d & ->); [by destruct P; cbn in L; [lia|]|]. rewrite length_app in L. cbn in L.
  rewrite pieces_app in El by lia. cbn in El. rewrite app_nil_r in El. apply Forall_app in HP. destruct HP as [HP Hd]. apply Forall_cons in Hd. destruct Hd as [Hd _]. unfold filled_piece in Hd. apply last_Some in El. destruct El as (ps & El).
  destruct (pieces_range P' HP st s' y) as (_ & _ & Hle); [rewrite El; set_solver|]. unfold bytes_in in *. rewrite concat_app, length_app in Ee. cbn in Ee. rewrite app_nil_r in Ee. lia.
Qed.

Lemma full_last P : forall st s y, Forall is_Some s -> length s = length P -> last (pieces st P s) = Some y -> end_piece y = st + bytes_in P.
Proof.
  induction P as [|d P IH]; intros st [|z s] y Hs L El; [done..|]. apply Forall_cons in Hs. destruct Hs as [[a ->] Hs]. cbn [pieces app] in El. rewrite bytes_in_cons. destruct (pieces (st + Z.of_nat (length d)) P s) as [|x ps] eqn:Ep.
  - injection El as <-. destruct P, s; try done; [unfold bytes_in, end_piece; cbn; lia|]. apply Forall_cons in Hs. destruct Hs as [[b ->] _]. done.
  - change (last ((a, st, d) :: x :: ps)) with (last (x :: ps)) in El. rewrite <- Ep in El. rewrite (IH _ _ _ Hs ltac:(cbn in L; lia) El). lia.
Qed.

Lemma last_cons_came s1 (a : addr) s2 : came (last (s1 ++ Some a :: s2)) = match s2 with [] => true | _ => came (last s2) end.
Proof. rewrite last_app_cons. destruct s2 as [|y s2]; [done|]. by change (last (Some a :: y :: s2)) with (last (y :: s2)). Qed.

Lemma pieces_first P st s : match s with Some _ :: _ | [] => True | _ => False end -> match pieces st P s with x :: _ => x.1.2 = st | [] => True end.
Proof. destruct P, s as [|[a|] s]; done. Qed.

(** The check is right: it succeeds when everything is there. *)
Lemma validity P1 d P2 s1 s2 a : Forall filled_piece (P1 ++ d :: P2) -> length s1 = length P1 -> length s2 = length P2 -> in_time s1 s2 = true ->
  found_valid (came (last (s1 ++ Some a :: s2))) (pieces 0 P1 s1) (a, bytes_in P1, d) (pieces (bytes_in P1 + Z.of_nat (length d)) P2 s2) = true <-> Forall is_Some (s1 ++ s2).
Proof.
  intros HP L1 L2 Ht. apply Forall_app in HP. destruct HP as [HP1 HP2]. apply Forall_cons in HP2. destruct HP2 as [Hd HP2]. unfold found_valid. change (end_piece (a, bytes_in P1, d)) with (bytes_in P1 + Z.of_nat (length d)). cbn [fst snd]. rewrite last_cons_came. set (e := bytes_in P1 + Z.of_nat (length d)). split.
  - rewrite !andb_true_iff. intros ((((Hl & C1) & Hpe) & H0) & C2). assert (Forall is_Some s2) as F2.
    { apply (contiguous_full P2 HP2 e s2 L2 C2). destruct s2 as [|y s2]; [done|]. by destruct (last (y :: s2)) as [[b|]|]. }
    apply Forall_app. split; [|done]. destruct (pieces 0 P1 s1) as [|x ps] eqn:Ep.
    + cbn in H0. apply Z.eqb_eq in H0. destruct P1 as [|d1 P1]; [by destruct s1|]. rewrite bytes_in_cons in H0. apply Forall_cons in HP1. destruct HP1 as [Hd1 _]. unfold filled_piece, bytes_in in *. lia.
    + cbn in H0. apply Z.eqb_eq in H0. rewrite (contiguous_first 0 (x :: ps) H0), <- Ep in C1. apply (contiguous_full P1 HP1 0 s1 L1 C1). destruct s2 as [|y s2].
      * destruct P2; [|done]. cbn in Hpe. destruct (last (x :: ps)) as [z|] eqn:El; [|by apply last_None in El]. apply Z.eqb_eq in Hpe. rewrite <- Ep in El. by apply (last_piece P1 HP1 0 s1 z L1 El).
      * unfold in_time in Ht. destruct (last (y :: s2)) as [[b|]|]; [|done..]. destruct (last s1) as [[c|]|]; [done| |done]. exfalso. rewrite pieces_none in Ep; [done|]. rewrite forallb_forall in Ht. apply Forall_forall. intros z Hz%list_elem_of_In%Ht. by destruct z.
  - intros [F1 F2]%Forall_app. rewrite (full_contiguous P2 e s2 F2), andb_true_r. assert (match s2 with [] => true | _ => came (last s2) end = true) as ->.
    { destruct s2 as [|y s2]; [done|]. destruct (last (y :: s2)) as [z|] eqn:El; [|by apply last_None in El]. apply last_Some in El. destruct El as (s' & E). rewrite E in F2. apply Forall_app in F2. destruct F2 as [_ F2]. apply Forall_cons in F2. by destruct F2 as [[b ->] _]. }
    assert (match s1 with Some _ :: _ | [] => True | _ => False end) as Hs by (destruct s1; [done|]; apply Forall_cons in F1; by destruct F1 as [[b ->] _]).
    rewrite (contiguous_first 0 _ (pieces_first P1 0 s1 Hs)), (full_contiguous P1 0 s1 F1). cbn [andb]. apply andb_true_iff. split.
    + destruct (pieces e P2 s2); [|done]. destruct (last (pieces 0 P1 s1)) as [y|] eqn:El; [|done]. rewrite (full_last P1 0 s1 y F1 L1 El). apply Z.eqb_eq. lia.
    + pose proof (pieces_first P1 0 s1 Hs) as Hf. destruct P1 as [|d1 P1]; [by destruct s1|]. destruct s1 as [|z s1]; [done|]. apply Forall_cons in F1. destruct F1 as [[b ->] _]. done.
Qed.

(** ** Putting a fragment into its datagram *)

Definition last_came (x : ip_reassdata) : bool := negb (Z.land x.(r_flags) IP_REASS_FLAG_LASTFRAG =? 0).

Lemma validate_ok s ipr x ps1 a st d ps2 valid : let ps := ps1 ++ (a, st, d) :: ps2 in
  s.(reass).(reassdata) !! ipr = Some x -> queue s.(hp) x.(r_p) ps -> (length ps <= fuel s.(hp))%nat -> NoDup (map at_piece ps) -> (last_came x = true -> exists y, last ps = Some y /\ end_piece y = x.(datagram_len) /\ y.1.2 <> 0) ->
  validate s ipr (a, 0) valid = Some (last_came x && valid && match ps1 ++ [(a, st, d)] with y :: _ => y.1.2 =? 0 | [] => true end && contiguous (Some (st + Z.of_nat (length d))) ps2).
Proof.
  intros ps Hx Q Hf Hnd Hlast. unfold validate. rewrite Hx. change (negb (Z.land (r_flags x) IP_REASS_FLAG_LASTFRAG =? 0)) with (last_came x). destruct (last_came x) eqn:El; [|done]. specialize (Hlast eq_refl). destruct Hlast as (y & Ey & Eend & Hy0). destruct valid; [|done]. cbn [andb].
  assert (exists b sb db ps', ps = (b, sb, db) :: ps' /\ match ps1 ++ [(a, st, d)] with y :: _ => y.1.2 =? 0 | [] => true end = (sb =? 0)) as (b & sb & db & ps' & Eps & ->). { destruct ps1 as [|[[b sb] db] ps1]; [by exists a, st, d, ps2|]. by eexists b, sb, db, _. }
  pose proof Q as Q0. rewrite Eps in Q0. destruct Q0 as (-> & nb & Fb & Qb). destruct (fragment_reads _ _ _ _ _ Fb) as (-> & _ & -> & _). destruct (sb =? 0) eqn:E0; cbn [negb andb]; [|done].
  pose proof (queue_app _ _ _ _ Q) as Qa. destruct Qa as (_ & n & F & Q2). destruct (fragment_reads _ _ _ _ _ F) as (_ & Hn & _ & He). rewrite Hn. destruct (rest_loop_ok s.(hp) ps2 (fuel s.(hp)) a n _ Q2 ltac:(unfold ps in Hf; rewrite length_app in Hf; cbn in Hf; lia) He) as (c & -> & Hc).
  destruct (contiguous (Some (st + Z.of_nat (length d))) ps2) eqn:Ec; [|done]. specialize (Hc eq_refl). assert (c = at_piece y) as ->. { rewrite Hc. unfold ps in Ey. rewrite last_app_cons in Ey. destruct ps2 as [|z ps2]; [by injection Ey as <-|]. change (last ((a, st, d) :: z :: ps2)) with (last (z :: ps2)) in Ey. by rewrite Ey. }
  apply last_Some in Ey. destruct Ey as (ps0 & Ey). destruct y as [[b' sb'] db']. unfold end_piece in Eend. cbn [fst snd] in Hy0, Eend. cbn [at_piece fst]. rewrite Ey in Q. destruct (queue_app _ _ _ _ Q) as (_ & nl & Fl & El'). cbn in El'. subst nl. destruct (fragment_reads _ _ _ _ _ Fl) as (_ & -> & _ & ->).
  rewrite bool_decide_eq_false_2; [by rewrite Eend, Z.eqb_refl|]. intros [= <-]. destruct ps0 as [|z ps0]; rewrite Ey in Eps; cbn in Eps; [injection Eps as -> -> <-; apply Z.eqb_eq in E0; done|]. injection Eps as -> _. rewrite Ey in Hnd. cbn [map app] in Hnd. apply NoDup_cons in Hnd. destruct Hnd as [Hnd _]. apply Hnd. rewrite map_app. set_solver.
Qed.

(** The header of a fragment. *)
Definition offset_of (H : bytes) : Z := be_dec (field H 6 2) mod 0x2000 * 8.
Definition more_of (H : bytes) : bool := negb ((be_dec (field H 6 2) / 0x2000) mod 2 =? 0).

(** A packet with that header in a buffer of its own. *)
Record packet_at (h : heap) (a : addr) (H d : bytes) : Prop := {
  p_pointer : pointer (Some a);
  p_pbuf : h.(pbufs) !! a = Some (one_buffer a (20 + Z.of_nat (length d)));
  p_block : exists B, h.(blocks) !! a = Some (H ++ d ++ B);
  p_bytes : bytes_ok H;
  p_length : length H = 20%nat }.

Lemma packet_get h a H d off n : packet_at h a H d -> 0 <= off -> 0 <= n -> off + n <= 20 -> get h (a, 0) off n = Some (le_dec (field H (Z.to_nat off) (Z.to_nat n))).
Proof. intros [_ _ [B Hb] _ LH] ? ? ?. eapply (get_view h (a, 0) [] H (d ++ B)); [by split|done|done|lia|done]. Qed.

Lemma lay_helper h a H d st : packet_at h a H d -> 0 <= st -> st + Z.of_nat (length d) < 65536 -> exists h1 h2 h3, set_next_pbuf h (a, 0) None = Some h1 /\ poke h1 (a, 0) 8 (le_enc 2 st) = Some h2 /\ poke h2 (a, 0) 10 (le_enc 2 (st + Z.of_nat (length d))) = Some h3 /\ fragment h3 a None st d /\ wrote h h3 [a].
Proof.
  intros [Pa Hx [B Hb] _ LH] Hs He. assert (view h (a, 0) [] H (d ++ B)) as V by done. set (H1 := le_enc 8 0 ++ drop 8 H). set (H2 := le_enc 8 0 ++ le_enc 2 st ++ drop 10 H). set (H3 := helper None st (Z.of_nat (length d)) ++ drop 12 H).
  assert (store 0 (le_enc 8 0) H = Some H1) as E1 by (unfold store; rewrite le_enc_length, LH; cbn [Nat.add Nat.leb]; by rewrite take_0).
  assert (store 8 (le_enc 2 st) H1 = Some H2) as E2. { unfold store, H1. rewrite le_enc_length, length_app, length_drop, LH, le_enc_length. cbn [Nat.add Nat.sub Nat.leb]. rewrite take_app_length' by by rewrite le_enc_length. rewrite drop_app_ge by (rewrite le_enc_length; lia). rewrite le_enc_length, drop_drop. done. }
  assert (store 10 (le_enc 2 (st + Z.of_nat (length d))) H2 = Some H3) as E3.
  { unfold store, H2. rewrite !length_app, length_drop, LH, !le_enc_length. cbn [Nat.add Nat.sub Nat.leb]. rewrite (app_assoc (le_enc 8 0)). rewrite take_app_length' by by rewrite length_app, !le_enc_length. rewrite drop_app_ge by (rewrite length_app, !le_enc_length; lia). rewrite length_app, !le_enc_length, drop_drop. unfold H3, helper. rewrite <- !app_assoc. done. }
  exists (rehead h (a, 0) [] H1 (d ++ B)), (rehead h (a, 0) [] H2 (d ++ B)), (rehead h (a, 0) [] H3 (d ++ B)). split; [by apply (poke_view h (a, 0) _ _ _ 0 _ H1 V)|]. split; [rewrite <- (rehead_rehead h (a, 0) [] H1 (d ++ B) H2); by apply (poke_view _ (a, 0) _ _ _ 8 _ H2 (view_rehead h (a, 0) [] H1 (d ++ B) eq_refl))|].
  split; [rewrite <- (rehead_rehead h (a, 0) [] H2 (d ++ B) H3); by apply (poke_view _ (a, 0) _ _ _ 10 _ H3 (view_rehead h (a, 0) [] H2 (d ++ B) eq_refl))|]. split.
  - do 4 (split; [done|]). split; [done|]. exists (drop 12 H), B. split; [by rewrite length_drop, LH|]. unfold rehead. cbn [blocks fst]. rewrite lookup_insert_eq. unfold H3. by rewrite <- !app_assoc.
  - split; [done|intros b Hn; unfold rehead; cbn [blocks fst]; rewrite lookup_insert_ne; [done|set_solver]|]. intros b m Hm. unfold rehead. cbn [blocks fst]. destruct (decide (b = a)) as [->|Hne]; [|exists m; by rewrite lookup_insert_ne]. rewrite lookup_insert_eq. eexists. split; [reflexivity|].
    replace m with (H ++ d ++ B) by congruence. unfold H3. rewrite !length_app, helper_length, length_drop, LH. cbn [length]. lia.
Qed.

Lemma wrote_fuel h h' l : wrote h h' l -> fuel h' = fuel h.
Proof. intros W. unfold fuel. by rewrite (w_pbufs _ _ _ W). Qed.

Lemma put_r_id r a x : r.(reassdata) !! a = Some x -> put_r a x r = r.
Proof. intros E. unfold put_r. rewrite insert_id by done. by destruct r. Qed.
Lemma r_set_p_id x p : x.(r_p) = p -> r_set_p p x = x.
Proof. intros <-. by destruct x. Qed.

Lemma offset_range H : bytes_ok H -> length H = 20%nat -> 0 <= offset_of H < 65536.
Proof. intros HB L. unfold offset_of. pose proof (Z.mod_pos_bound (be_dec (field H 6 2)) 0x2000 ltac:(lia)). lia. Qed.

Lemma offset_bits H : bytes_ok H -> length H = 20%nat -> Z.land (hton16 (le_dec (field H 6 2))) IP_OFFMASK = be_dec (field H 6 2) mod 0x2000.
Proof. intros HB L. destruct (be_field H 6 2 HB L ltac:(lia) eq_refl) as [-> ?]. change IP_OFFMASK with (Z.ones 13). by rewrite Z.land_ones. Qed.

(** What the function reads from the header. *)
Lemma packet_at_fields h a H d : packet_at h a H d -> hlen_of H = 20 -> total_of H = 20 + Z.of_nat (length d) -> payload_of h a = Some (a, 0) /\ get h (a, 0) 2 2 = Some (le_dec (field H 2 2)) /\ get h (a, 0) 0 1 = Some (le_dec (field H 0 1)) /\ get h (a, 0) 6 2 = Some (le_dec (field H 6 2)) /\
  Z.land (le_dec (field H 0 1)) 0x0f * 4 = 20 /\ u16 (hton16 (le_dec (field H 2 2)) - 20) = Z.of_nat (length d) /\ u16 (Z.land (hton16 (le_dec (field H 6 2))) IP_OFFMASK * 8) = offset_of H.
Proof.
  intros P Eh Et. pose proof (p_bytes _ _ _ _ P) as HB. pose proof (p_length _ _ _ _ P) as LH. rewrite !(packet_get _ _ _ _ _ _ P) by lia. split; [unfold payload_of; by rewrite (p_pbuf _ _ _ _ P)|]. do 3 (split; [done|]). pose proof (field_range H 0 1 HB LH ltac:(lia)) as Hf0. destruct (nibbles (le_dec (field H 0 1)) ltac:(lia)) as [_ ->].
  split; [unfold hlen_of in Eh; lia|]. destruct (be_field H 2 2 HB LH ltac:(lia) eq_refl) as [-> Hr]. fold (total_of H) in *. split; [rewrite Et, u16_small; lia|]. rewrite offset_bits by done. fold (offset_of H). apply u16_small. by apply offset_range.
Qed.

Lemma chain_frag_ok s ipr x a H d ps1 ps2 : let st := offset_of H in let ps := ps1 ++ (a, st, d) :: ps2 in
  packet_at s.(hp) a H d -> hlen_of H = 20 -> total_of H = 20 + Z.of_nat (length d) -> st + Z.of_nat (length d) < 65536 -> s.(reass).(reassdata) !! ipr = Some x -> queue s.(hp) x.(r_p) (ps1 ++ ps2) -> NoDup (a :: map at_piece (ps1 ++ ps2)) ->
  (length ps <= fuel s.(hp))%nat -> Forall (fun x => x.1.2 < st /\ end_piece x <= st) ps1 -> match ps2 with [] => True | y :: _ => st < y.1.2 /\ st + Z.of_nat (length d) <= y.1.2 end -> (last_came x = true -> exists y, last ps = Some y /\ end_piece y = x.(datagram_len) /\ y.1.2 <> 0) ->
  exists h', ip_reass_chain_frag_into_datagram_and_validate s ipr a = Some (set_reass (put_r ipr (r_set_p (first_of ps) x) s.(reass)) (set_hp h' s), found_valid (last_came x) ps1 (a, st, d) ps2, []) /\ wrote s.(hp) h' (a :: map at_piece ps1) /\ queue h' (first_of ps) ps.
Proof.
  intros st ps P Eh Et He Hx Q Hnd Hf H1 H2 Hlast. unfold ip_reass_chain_frag_into_datagram_and_validate. destruct (packet_at_fields _ _ _ _ P Eh Et) as (-> & -> & -> & -> & -> & -> & ->). fold st. change (sizeof_ip_reass_helper <=? IP_HLEN) with true. cbn match.
  destruct (offset_range H (p_bytes _ _ _ _ P) (p_length _ _ _ _ P)) as [Hs0 _]. fold st in Hs0. destruct (lay_helper _ _ _ _ st P Hs0 He) as (h1 & h2 & h3 & -> & -> & E3 & F & W). rewrite u16_small, E3 by lia. cbn [reass hp set_hp]. rewrite Hx.
  assert (queue h3 x.(r_p) (ps1 ++ ps2)) as Q3. { eapply queue_kept; [done|by apply wrote_kept|]. intros b Hb ->%list_elem_of_singleton. apply NoDup_cons in Hnd. by destruct Hnd. }
  assert (length ps = S (length (ps1 ++ ps2))) as Lps by (unfold ps; rewrite !length_app; cbn; lia). assert (NoDup (map at_piece ps)) as Hnd'. { unfold ps. rewrite map_app. cbn [map]. rewrite <- Permutation_middle. cbn [at_piece fst]. by rewrite <- map_app. }
  pose proof (place_loop_ok h3 a None st d ps2 F ltac:(destruct ps2; [done|by destruct H2]) ps1 (fuel h3) _ None true Q3 ltac:(rewrite (wrote_fuel _ _ _ W); lia) H1 ltac:(done)) as Epl. cbn [pointer_to fmap option_fmap option_map andb] in Epl. change (pointer_to None) with (@None (addr * Z)) in Epl. rewrite Epl. clear Epl.
  destruct (queue_insert _ _ _ _ _ _ _ _ Q3 F Hnd) as (h4 & E4 & W4 & F4 & Q4 & Hins). fold ps in Hins. assert (first_of (ps1 ++ ps2) = x.(r_p)) as Ef by (symmetry; by eapply queue_first).
  assert (forall h' k valid, wrote s.(hp) h' k -> queue h' (first_of ps) ps -> validate (set_reass (put_r ipr (r_set_p (first_of ps) x) s.(reass)) (set_hp h' s)) ipr (a, 0) valid = Some (last_came x && valid && match ps1 ++ [(a, st, d)] with y :: _ => y.1.2 =? 0 | [] => true end && contiguous (Some (st + Z.of_nat (length d))) ps2)) as Hv.
  { intros h' k valid W' Q'. apply (validate_ok _ ipr (r_set_p (first_of ps) x) ps1 a st d ps2 valid); [apply lookup_insert_eq|done|cbn [hp set_reass set_hp]; by rewrite (wrote_fuel _ _ _ W')|done|done]. }
  assert (wrote s.(hp) h4 [a]) as W04 by (eapply wrote_both; [exact W|exact W4|set_solver]). unfold found_valid. change (end_piece (a, st, d)) with (st + Z.of_nat (length d)). cbn [fst snd]. destruct (last ps1) as [[[b sb] db]|] eqn:El; cbn [last_or pointer_to].
  - destruct Hins as (h5 & E5 & W5 & Q5). cbn [at_piece fst] in E5, W5. assert (first_of ps = x.(r_p)) as Efp. { rewrite <- (queue_first _ _ _ Q5). done. } assert (put_r ipr (r_set_p (first_of ps) x) s.(reass) = s.(reass)) as Er by by rewrite (r_set_p_id x (first_of ps)), put_r_id.
    assert (wrote s.(hp) h5 (a :: map at_piece ps1)) as W05. { eapply wrote_both; [exact W04|exact W5|]. apply last_Some in El. destruct El as (ps0 & ->). rewrite map_app. intros c. set_solver. }
    assert ((b, sb, db) ∈ ps1 ++ ps2) as Hin by (apply last_Some in El; destruct El as (ps0 & ->); set_solver). assert (sb + Z.of_nat (length db) <= st) as Hbe. { rewrite Forall_forall in H1. apply last_Some in El. destruct El as (ps0 & ->). destruct (H1 (b, sb, db) ltac:(set_solver)) as [_ ?]. done. }
    exists h5. split; [|split; [done|by rewrite Efp]]. rewrite Efp in Hv. specialize (Hv h5 _ (contiguous None ps1 && match ps2 with [] => sb + Z.of_nat (length db) =? st | _ => true end) W05 Q5). rewrite <- Efp, Er in Hv |- *. change (set_reass s.(reass) (set_hp h5 s)) with (set_hp h5 s) in *.
    unfold last_or. rewrite El. change (pointer_to (Some (b, sb, db))) with (Some (b, 0)). destruct ps2 as [|[[c sc] dc] ps2].
    + destruct (queue_in _ _ _ _ _ _ Q3 Hin) as (nb & Fb). destruct (fragment_reads _ _ _ _ _ Fb) as (_ & _ & _ & ->). destruct (fragment_reads _ _ _ _ _ F) as (_ & _ & -> & _). rewrite (proj2 (Z.leb_le _ _)) by lia. change (first_of []) with (@None addr) in E4. rewrite (fragment_same_next _ _ _ _ _ F) in E4. injection E4 as <-. rewrite E5. 
      replace (if negb (sb + Z.of_nat (length db) =? st) then false else contiguous None ps1) with (contiguous None ps1 && (sb + Z.of_nat (length db) =? st)) by (by destruct (_ =? st), (contiguous None ps1)). change (set_hp h5 (set_hp h3 s)) with (set_hp h5 s). rewrite Hv. by rewrite andb_assoc.
    + cbn [first_of head fmap option_fmap option_map] in E4. change (at_piece (c, sc, dc)) with c in *. rewrite E4. destruct (queue_in _ _ _ _ _ _ Q4 Hin) as (nb & Fb). destruct (fragment_reads _ _ _ _ _ Fb) as (_ & _ & _ & ->). destruct (fragment_reads _ _ _ _ _ F4) as (_ & _ & -> & ->).
      destruct (queue_in _ _ _ c sc dc Q4 ltac:(set_solver)) as (nc & Fc). destruct (fragment_reads _ _ _ _ _ Fc) as (-> & _ & -> & _). cbn [fst snd] in H2. rewrite (proj2 (Z.ltb_ge _ _)), (proj2 (Z.ltb_ge sc _)) by lia. cbn [orb]. rewrite E5. change (set_hp h5 (set_hp h4 (set_hp h3 s))) with (set_hp h5 s). rewrite andb_true_r in Hv. rewrite Hv. by rewrite andb_true_r.
  - apply last_None in El. subst ps1. cbn [app] in *. change (first_of ps) with (Some a) in *. exists h4. split; [|done]. specialize (Hv h4 _ true W04 Hins). cbn [contiguous]. rewrite !andb_true_r in Hv. rewrite !andb_true_r. destruct ps2 as [|[[c sc] dc] ps2]; cbn [last_or last pointer_to].
    + cbn [queue] in Q. change (pointer_to None) with (@None (addr * Z)). cbn match. rewrite bool_decide_eq_true_2 by done. change (first_of []) with (@None addr) in E4. rewrite (fragment_same_next _ _ _ _ _ F) in E4. injection E4 as <-. rewrite Hv. cbn match. by rewrite ?andb_true_r.
    + change (first_of ((c, sc, dc) :: ps2)) with (Some c) in E4. change (at_piece (c, sc, dc)) with c in *. change (pointer_to None) with (@None (addr * Z)). rewrite E4. cbn match. change (set_hp h4 (set_hp h3 s)) with (set_hp h4 s). rewrite Hv. cbn match. by rewrite ?andb_true_r.
Qed.

(** ** The fragments become one packet *)

Abbreviation addresses_of := (map at_piece).
Abbreviation bag := (@list_to_set_disj addr (gmultiset addr) _ _ _).

(** The chain so far: [p] is the only pointer to it. *)
Record joined (h : heap) (R : gmultiset addr) (p : addr) (l : list addr) : Prop := {
  j_chain : chain h (Some p) l;
  j_owned : owned h l;
  j_filled : filled h l = true;
  j_ref a x : a ∈ l -> h.(pbufs) !! a = Some x -> x.(ref) = 1;
  j_once : multiplicity p R = 1%nat;
  j_inner a : a ∈ tail l -> multiplicity a R = 0%nat }.

Lemma joined_head h R p l : joined h R p l -> exists l', l = p :: l'.
Proof. intros [C _ _ _ _ _]. destruct l as [|p' l]; [done|]. destruct C as ([= <-] & _). by exists l. Qed.

Lemma joined_unshared h R p l : inv h R -> joined h R p l -> unshared h l = true.
Proof.
  intros I [C Ho _ Hr H1 H0]. destruct l as [|p' l]; [done|]. pose proof C as ([= <-] & x & Hx & _). cbn [unshared]. apply andb_true_iff. rewrite Nat.eqb_eq, forallb_forall. split.
  - destruct (c_ref _ _ (i_counted _ _ I) p x Hx) as [E _]. rewrite (Hr p x ltac:(left) Hx), H1 in E. lia.
  - intros b Hb%list_elem_of_In. destruct (Ho b ltac:(by right)) as (y & Hy & _). destruct (c_ref _ _ (i_counted _ _ I) b y Hy) as [E _]. rewrite (Hr b y ltac:(by right) Hy), (H0 b Hb) in E. apply Nat.eqb_eq. lia.
Qed.

(** The header of a fragment is taken off. *)
Definition bare (a : addr) (d : bytes) : pbuf := MkPbuf None (Some (a, 20)) (Z.of_nat (length d)) (Z.of_nat (length d)) PBUF_POOL 0 1 false.

Lemma bare_ok h R a n st d : inv h R -> fragment h a n st d -> multiplicity a R = 1%nat -> pbuf_header h (Some a) (- IP_HLEN) = Some (put a (bare a d) h, 0) /\ inv (put a (bare a d) h) R /\ chunk (put a (bare a d) h) a = d.
Proof.
  intros I (_ & _ & _ & Hl & Hx & G & B & LG & Hb) H1. destruct (c_ref _ _ (i_counted _ _ I) a _ Hx) as [E _]. rewrite H1 in E. cbn in E. destruct (header_down h R a _ 20 I Hx ltac:(lia) eq_refl ltac:(lia) ltac:(cbn; lia)) as [Eh I'].
  change (Z.opp 20) with (-20) in Eh, I'. assert (moved_header (-20) (one_buffer a (20 + Z.of_nat (length d))) = bare a d) as Em by (unfold moved_header, bare, one_buffer, set_tot_len, set_len, set_payload; cbn [next payload tot_len len type flags ref custom]; f_equal; [repeat f_equal|..]; lia). change (- IP_HLEN) with (-20). rewrite Em in Eh, I'. split; [done|]. split; [done|].
  unfold chunk. rewrite put_eq. unfold read, bare. cbn [payload len put blocks]. rewrite Hb, Z.add_0_r. assert (Z.of_nat (length (helper n st (Z.of_nat (length d)) ++ G ++ d ++ B)) = 20 + Z.of_nat (length d) + Z.of_nat (length B)) as El by (rewrite !length_app, helper_length; lia).
  rewrite !(proj2 (Z.leb_le _ _)) by lia. cbn [andb default from_option]. unfold id. rewrite Nat2Z.id, app_assoc, drop_app_length' by (rewrite length_app, helper_length, LG; done). by apply take_app_length.
Qed.

(** One fragment is put behind the others. *)
Lemma join_one h R p l a n st d : inv h (R ⊎ {[+ a +]}) -> joined h R p l -> p <> a -> a ∉ l -> multiplicity a R = 0%nat -> fragment h a n st d -> (0 < length d)%nat -> Z.of_nat (length (contents h l)) + Z.of_nat (length d) < 65536 ->
  exists h', pbuf_cat (put a (bare a d) h) (Some p) (Some a) = Some h' /\ inv h' R /\ joined h' R p (l ++ [a]) /\ contents h' (l ++ [a]) = contents h l ++ d /\ h'.(blocks) = h.(blocks) /\ (forall b, b ∉ l ++ [a] -> h'.(pbufs) !! b = h.(pbufs) !! b) /\
  forall x, p ∈ l -> h.(pbufs) !! p = Some x -> exists x', h'.(pbufs) !! p = Some x' /\ x'.(payload) = x.(payload) /\ x'.(len) = x.(len).
Proof.
  intros I J Hpa Hal Ha0 F Hd Hsum. destruct (bare_ok h (R ⊎ {[+ a +]}) a n st d I F) as (_ & I1 & Ec); [rewrite multiplicity_disj_union, multiplicity_singleton_eq; lia|]. set (h1 := put a (bare a d) h) in *.
  assert (h1.(blocks) = h.(blocks)) as Hb1 by done. assert (forall b, b <> a -> h1.(pbufs) !! b = h.(pbufs) !! b) as Hp1 by (intros b Hne; by apply put_ne). assert (h1.(pbufs) !! a = Some (bare a d)) as Hxa by apply put_eq.
  pose proof (proj1 (proj2 (proj2 (proj2 (proj2 F))))) as Hxa0. assert (forall b, b ∈ l -> b <> a) as Hl by (intros b Hb ->; done). assert (chain h1 (Some p) l) as C1 by (eapply chain_put_notin; [apply J|done]).
  assert (joined h1 (R ⊎ {[+ a +]}) p l) as J1.
  { split; [done| | | | |].
    - intros b Hb. destruct (j_owned _ _ _ _ J b Hb) as (y & Hy & Hw). exists y. by rewrite Hp1 by auto.
    - rewrite <- (j_filled _ _ _ _ J). apply forallb_ext'. intros b Hb. unfold len_at. rewrite Hp1; [done|]. apply Hl. destruct l; [done|]. by right.
    - intros b y Hb. rewrite Hp1 by auto. by apply (j_ref _ _ _ _ J).
    - rewrite multiplicity_disj_union, multiplicity_singleton_ne by done. pose proof (j_once _ _ _ _ J). lia.
    - intros b Hb. rewrite multiplicity_disj_union, multiplicity_singleton_ne; [by rewrite (j_inner _ _ _ _ J)|]. apply Hl. destruct l; [done|]. by right. }
  assert (contents h1 l = contents h l) as Ec1. { apply same_contents. intros b Hb. destruct (j_owned _ _ _ _ J b Hb) as (y & Hy & _). exists y, y. rewrite Hp1 by auto. done. }
  assert (exists x, h1.(pbufs) !! p = Some x /\ p ∈ l) as (x & Hx & Hpl). { destruct l as [|p' l]; [done|]. pose proof C1 as ([= <-] & x & Hx & _). exists x. split; [done|left]. }
  pose proof (tail_len_chain _ _ (i_sized _ _ I1) _ C1) as Et. cbn [tail_len] in Et. rewrite Hx, <- (contents_length _ _ (owned_readable _ _ _ I1 (j_owned _ _ _ _ J1))), Ec1 in Et.
  destruct (cat_ok h1 R p l a [a] x (bare a d) I1 C1 (joined_unshared _ _ _ _ I1 J1)) as (h2 & E2 & I2 & C2 & Hb2 & Hs2); [split; [done|]; exists (bare a d); by split|intros b Hb ->%list_elem_of_singleton; done|done|done|cbn; lia|].
  assert (forall z, payload (grown (tot_len (bare a d)) a z) = payload z /\ len (grown (tot_len (bare a d)) a z) = len z /\ ref (grown (tot_len (bare a d)) a z) = ref z /\ type (grown (tot_len (bare a d)) a z) = type z) as Hg by (intros z; unfold grown; by destruct (next z)).
  assert (forall b y, b ∈ l -> h.(pbufs) !! b = Some y -> exists y', h2.(pbufs) !! b = Some y' /\ y'.(payload) = y.(payload) /\ y'.(len) = y.(len) /\ y'.(ref) = y.(ref) /\ y'.(type) = y.(type)) as Hin. { intros b y Hb Hy. rewrite Hs2, decide_True, Hp1, Hy by auto. eexists. split; [done|]. apply Hg. }
  assert (h2.(pbufs) !! a = Some (bare a d)) as Hxa2 by by rewrite Hs2, decide_False.
  exists h2. split; [done|]. split; [done|]. split; [|split; [|split; [by rewrite Hb2|split]]].
  - split; [done| | | |apply (j_once _ _ _ _ J)|].
    + intros b [Hb| ->%list_elem_of_singleton]%elem_of_app; [|by exists (bare a d)]. destruct (j_owned _ _ _ _ J b Hb) as (y & Hy & Hw). destruct (Hin b y Hb Hy) as (y' & Hy' & _ & _ & _ & Ety). exists y'. split; [done|]. unfold owns_memory in *. by rewrite Ety.
    + unfold filled. destruct l as [|p' l]; [done|]. cbn [app tail]. rewrite forallb_app. apply andb_true_iff. split; [|cbn; unfold len_at; rewrite Hxa2; cbn; rewrite andb_true_r; apply Z.ltb_lt; lia]. pose proof (j_filled _ _ _ _ J) as Fi. unfold filled in Fi. cbn [tail] in Fi. rewrite <- Fi. apply forallb_ext'. intros b Hb. unfold len_at. destruct (j_owned _ _ _ _ J b ltac:(by right)) as (y & Hy & _). destruct (Hin b y ltac:(by right) Hy) as (y' & -> & _ & -> & _). by rewrite Hy.
    + intros b y' [Hb| ->%list_elem_of_singleton]%elem_of_app Hy'; [|rewrite Hxa2 in Hy'; by injection Hy' as <-]. destruct (j_owned _ _ _ _ J b Hb) as (y & Hy & _). destruct (Hin b y Hb Hy) as (y2 & Hy2 & _ & _ & Er & _). rewrite Hy2 in Hy'. injection Hy' as <-. rewrite Er. by apply (j_ref _ _ _ _ J b).
    + destruct l as [|p' l]; [done|]. cbn [app tail]. intros b [Hb| ->%list_elem_of_singleton]%elem_of_app; [|done]. by apply (j_inner _ _ _ _ J).
  - rewrite contents_app. f_equal; [rewrite <- Ec1; apply same_contents; intros b Hb; destruct (j_owned _ _ _ _ J b Hb) as (y & Hy & _); destruct (Hin b y Hb Hy) as (y' & Hy' & ? & ? & _); exists y, y'; rewrite Hp1 by auto; do 4 (split; [done|]); intros; by rewrite Hb2|].
    rewrite contents_cons. change (contents h2 []) with (@nil Z). rewrite app_nil_r, <- Ec. unfold chunk. rewrite Hxa2, Hxa. unfold read. by rewrite Hb2.
  - intros b Hb. rewrite Hs2, decide_False by set_solver. apply Hp1. set_solver.
  - intros x0 _ Hx0. destruct (Hin p x0 Hpl Hx0) as (x' & ? & ? & ? & _). by exists x'.
Qed.

Lemma bag_none a l : (a ∉ l) -> multiplicity a (bag l) = 0%nat.
Proof. induction l as [|b l IH]; intros Ha; [apply multiplicity_empty|]. cbn [list_to_set_disj]. rewrite multiplicity_disj_union, multiplicity_singleton_ne by set_solver. apply IH. set_solver. Qed.

Lemma joined_more h R p l as_ : joined h R p l -> (forall a, a ∈ as_ -> a ∉ l) -> joined h (R ⊎ bag as_) p l.
Proof.
  intros [C Ho Fi Hr H1 H0] Ha. assert (p ∈ l) as Hp by (destruct l; [done|]; destruct C as ([= <-] & _); left). split; try done; [rewrite multiplicity_disj_union, H1, bag_none; [done|]; intros ?; by apply (Ha p)|]. intros b Hb. rewrite multiplicity_disj_union, (H0 b Hb), bag_none; [done|]. intros Hin. apply (Ha b Hin). destruct l; [done|]. by right.
Qed.

Definition same_pbufs (h h' : heap) (l : list addr) : Prop := h'.(blocks) = h.(blocks) /\ forall b, b ∉ l -> h'.(pbufs) !! b = h.(pbufs) !! b.
Lemma same_kept h h' l : same_pbufs h h' l -> kept h h' l.
Proof. intros [Eb Ep] b Hb. by rewrite Eb, Ep. Qed.

Definition data_of (ps : list piece) : bytes := concat (map snd ps).

Lemma join_loop_ok ps : forall fuel h R p l q x, inv h (R ⊎ bag (addresses_of ps)) -> joined h R p l -> h.(pbufs) !! p = Some x -> queue h q ps -> NoDup (addresses_of ps) -> (forall a, a ∈ addresses_of ps -> (a ∉ l) /\ multiplicity a R = 0%nat) -> Forall (fun y => (0 < length y.2)%nat) ps ->
  Z.of_nat (length (contents h l)) + Z.of_nat (length (data_of ps)) < 65536 -> (length ps <= fuel)%nat ->
  exists h', join_loop fuel h p q = Some h' /\ inv h' R /\ joined h' R p (l ++ addresses_of ps) /\ contents h' (l ++ addresses_of ps) = contents h l ++ data_of ps /\ same_pbufs h h' (l ++ addresses_of ps) /\ exists x', h'.(pbufs) !! p = Some x' /\ x'.(payload) = x.(payload) /\ x'.(len) = x.(len).
Proof.
  induction ps as [|[[a st] d] ps IH]; intros fuel h R p l q x I J Hx Q Hnd Hfr Hd Hsum Hf.
  - cbn in Q. subst q. exists h. cbn [map app list_to_set_disj] in *. rewrite !app_nil_r. replace (R ⊎ ∅) with R in I by multiset_solver. split; [by destruct fuel|]. do 3 (split; [done|]). split; [done|]. by exists x.
  - destruct Q as (-> & n & F & Q). destruct fuel as [|fuel]; [cbn in Hf; lia|]. cbn [map list_to_set_disj] in *. change (at_piece (a, st, d)) with a in *. apply NoDup_cons in Hnd. destruct Hnd as [Hna Hnd]. apply Forall_cons in Hd. destruct Hd as [Hd1 Hd]. cbn [snd] in Hd1. destruct (Hfr a ltac:(left)) as [Hal Ha0]. set (as_ := map at_piece ps) in *.
    assert (data_of ((a, st, d) :: ps) = d ++ data_of ps) as Ed by done. rewrite Ed, length_app in Hsum. assert (p ∈ l) as Hpl by (destruct (joined_head _ _ _ _ J) as (l' & ->); left). assert (p <> a) as Hpa by (intros ->; done). replace (R ⊎ ({[+ a +]} ⊎ bag as_)) with ((R ⊎ bag as_) ⊎ {[+ a +]}) in I by multiset_solver.
    assert (joined h (R ⊎ bag as_) p l) as J' by (apply joined_more; [done|]; intros b Hb; by apply Hfr; right). assert (multiplicity a (R ⊎ bag as_) = 0%nat) as Ha0' by (rewrite multiplicity_disj_union, Ha0, bag_none by done; done).
    cbn [join_loop]. destruct (fragment_reads _ _ _ _ _ F) as (-> & Hn & _). destruct (bare_ok h (R ⊎ bag as_ ⊎ {[+ a +]}) a n st d I F) as (-> & _); [rewrite multiplicity_disj_union, multiplicity_singleton_eq; lia|].
    destruct (join_one h (R ⊎ bag as_) p l a n st d I J' Hpa Hal Ha0' F Hd1 ltac:(lia)) as (h' & -> & I' & J2 & Ec & Hb & Hs & Hh). assert (next_pbuf h' (a, 0) = Some n) as -> by (rewrite <- Hn; unfold next_pbuf, get, peek; by rewrite Hb). destruct (Hh x Hpl Hx) as (x' & Hx' & Ep & El).
    assert (same_pbufs h h' (l ++ [a])) as S by done. assert (joined h' R p (l ++ [a])) as J3. { destruct J2 as [C2 Ho2 Fi2 Hr2 _ _]. split; [done|done|done|done|apply J|]. destruct (joined_head _ _ _ _ J) as (l' & ->). cbn [app tail]. intros b [Hb'| ->%list_elem_of_singleton]%elem_of_app; [by apply (j_inner _ _ _ _ J)|done]. }
    destruct (IH fuel h' R p (l ++ [a]) n x' I' J3 Hx') as (h2 & -> & I2 & J4 & Ec2 & [Sb Sp] & x2 & Hx2 & Ep2 & El2); [|done| |done|rewrite Ec, length_app; lia|cbn in Hf; lia|].
    + eapply queue_kept; [done|exact (same_kept _ _ _ S)|]. intros b Hb' [Hin| ->%list_elem_of_singleton]%elem_of_app; [by apply (Hfr b); [right|]|done].
    + intros b Hb'. destruct (Hfr b ltac:(by right)) as [? ?]. split; [|done]. intros [Hin| ->%list_elem_of_singleton]%elem_of_app; done.
    + exists h2. rewrite <- app_assoc in J4, Ec2, Sp. cbn [app] in J4, Ec2, Sp. split; [done|]. do 2 (split; [done|]). split; [rewrite Ec2, Ec, Ed; by rewrite <- app_assoc|]. split; [|exists x2; split; [done|]; split; congruence]. split; [by rewrite Sb|]. intros b Hb'. rewrite Sp by done. apply Hs. set_solver.
Qed.

(** ** The header of the whole datagram *)

(** That of the first fragment, with the whole length, no offset and a new
    checksum. *)
Definition whole_fields (H : bytes) (tot_len : Z) (chksum : bytes) : bytes := take 2 H ++ be_enc 2 tot_len ++ take 2 (drop 4 H) ++ [0; 0] ++ take 2 (drop 8 H) ++ chksum ++ drop 12 H.
Definition whole_header (H : bytes) (tot_len : Z) : bytes := whole_fields H tot_len (be_enc 2 (Checksum.rfc1071 (whole_fields H tot_len [0; 0]))).

Lemma whole_fields_bytes H n k : bytes_ok H -> bytes_ok k -> bytes_ok (whole_fields H n k).
Proof.
  intros HB Hk. unfold whole_fields. rewrite !Forall_app. split; [by apply Forall_take|]. split; [apply be_enc_bytes|]. split; [by apply Forall_take, Forall_drop|]. split; [exact (le_enc_bytes 2 0)|]. split; [by apply Forall_take, Forall_drop|]. split; [done|by apply Forall_drop].
Qed.

Lemma whole_fields_length H n k : length H = 20%nat -> length k = 2%nat -> length (whole_fields H n k) = 20%nat.
Proof. intros LH Lk. unfold whole_fields. rewrite !length_app, be_enc_length, !length_take, !length_drop, LH, Lk. done. Qed.

Lemma write_header h p H0 H rest n : view h (p, 0) [] H0 rest -> length H0 = 20%nat -> length H = 20%nat -> bytes_ok H -> 0 <= n < 65536 -> exists h1 h2 h3 h4 k, poke h (p, 0) 0 H = Some h1 /\ poke h1 (p, 0) 2 (le_enc 2 (hton16 n)) = Some h2 /\ poke h2 (p, 0) 6 (le_enc 2 0) = Some h3 /\ poke h3 (p, 0) 10 (le_enc 2 0) = Some h4 /\
  chksum_at h4 (p, 0) IP_HLEN = Some k /\ poke h4 (p, 0) 10 (le_enc 2 k) = Some (rehead h (p, 0) [] (whole_header H n) rest).
Proof.
  intros V L0 LH HB Hn. destruct (list20 H LH) as (a0 & a1 & a2 & a3 & a4 & a5 & a6 & a7 & a8 & a9 & a10 & a11 & a12 & a13 & a14 & a15 & a16 & a17 & a18 & a19 & EH). assert (Z.of_nat (length (@nil Z)) = (p, 0).2) as L by done.
  set (E2 := le_enc 2 (hton16 n)). exists (rehead h (p, 0) [] H rest), (rehead h (p, 0) [] (take 2 H ++ E2 ++ drop 4 H) rest), (rehead h (p, 0) [] (take 2 H ++ E2 ++ take 2 (drop 4 H) ++ le_enc 2 0 ++ drop 8 H) rest), (rehead h (p, 0) [] (whole_fields H n (le_enc 2 0)) rest), (hton16 (Checksum.rfc1071 (whole_fields H n (le_enc 2 0)))).
  assert (E2 = be_enc 2 n) as EE by apply hton16_image. split; [apply (poke_view h (p, 0) [] H0 rest 0 H H V); [lia|]; unfold store; rewrite L0, LH; cbn [Z.to_nat Nat.add Nat.leb]; by rewrite take_0, drop_ge, app_nil_r by lia|].
  assert (forall G G' off d, store (Z.to_nat off) d G = Some G' -> 0 <= off -> poke (rehead h (p, 0) [] G rest) (p, 0) off d = Some (rehead h (p, 0) [] G' rest)) as Hp. { intros G G' off d Es Ho. by rewrite (poke_view _ (p, 0) [] G rest off d G' (view_rehead h (p, 0) [] G rest L) Ho Es), rehead_rehead. }
  split; [apply Hp; [|lia]; by rewrite EH|]. split; [apply Hp; [|lia]; by rewrite EH|]. split; [apply Hp; [|lia]; unfold whole_fields; rewrite <- EE; by rewrite EH|].
  assert (bytes_ok (whole_fields H n (le_enc 2 0))) as HW by (apply whole_fields_bytes; [done|exact (le_enc_bytes 2 0)]). split; [apply (chksum_view _ _ [] _ rest); [by apply view_rehead|by rewrite whole_fields_length|done|done]|].
  apply Hp; [|lia]. rewrite hton16_image. change (le_enc 2 0) with [0; 0]. unfold whole_header. set (k := be_enc 2 (Checksum.rfc1071 (whole_fields H n [0; 0]))). assert (length k = 2%nat) as Lk by apply be_enc_length. destruct k as [|k0 [|k1 [|]]]; try done. unfold whole_fields. rewrite <- EE, EH. done.
Qed.

Lemma clen_ok h l : forall fuel p n, chain h p l -> (length l <= fuel)%nat -> 0 <= n -> n + Z.of_nat (length l) < 256 -> clen_loop fuel h p n = Some (n + Z.of_nat (length l)).
Proof.
  induction l as [|a l IH]; intros fuel p n C Hf Hn Hl; [cbn in C; subst p; rewrite Z.add_0_r; by destruct fuel|]. destruct C as (-> & x & Hx & C). destruct fuel as [|fuel]; [cbn in Hf; lia|]. cbn [clen_loop]. rewrite Hx. cbn [length] in *. rewrite u8_small by lia. rewrite (IH fuel _ (n + 1) C) by lia. f_equal. lia.
Qed.

Lemma queue_size h q ps : queue h q ps -> NoDup (addresses_of ps) -> (length ps <= size h.(pbufs))%nat.
Proof.
  intros Q Hnd. rewrite <- (length_map at_piece), <- (size_dom (D := gset addr)), <- (size_list_to_set (C := gset addr)) by done. apply subseteq_size. intros a Ha%elem_of_list_to_set. apply list_elem_of_fmap in Ha. destruct Ha as ([[b st] d] & -> & Hin). destruct (queue_in _ _ _ _ _ _ Q Hin) as (n & (_ & _ & _ & _ & Hx & _)). by eapply elem_of_dom_2.
Qed.

Lemma complete_ok s ipr prev x p d ps R H : let T := 20 + Z.of_nat (length d) + Z.of_nat (length (data_of ps)) in let n := Z.of_nat (S (length ps)) in
  s.(reass).(reassdata) !! ipr = Some x -> s.(reass).(reassdatagrams) = Some ipr -> x.(r_p) = Some p -> x.(r_iphdr) = H -> length H = 20%nat -> bytes_ok H -> 20 + x.(datagram_len) = T -> T < 65536 -> queue s.(hp) (Some p) ((p, 0, d) :: ps) -> inv s.(hp) (R ⊎ {[+ p +]} ⊎ bag (addresses_of ps)) ->
  NoDup (p :: addresses_of ps) -> multiplicity p R = 0%nat -> (forall a, a ∈ addresses_of ps -> multiplicity a R = 0%nat) -> Forall (fun y => (0 < length y.2)%nat) ps -> n < 256 -> n <= s.(reass).(ip_reass_pbufcount) < 65536 ->
  exists h', complete s ipr prev = Some (set_hp h' (set_reass (MkReassembly (delete ipr s.(reass).(reassdata)) x.(r_next) (s.(reass).(ip_reass_pbufcount) - n)) s), Some p) /\ inv h' (R ⊎ {[+ p +]}) /\ joined h' (R ⊎ {[+ p +]}) p (p :: addresses_of ps) /\
    contents h' (p :: addresses_of ps) = whole_header H T ++ d ++ data_of ps /\ kept s.(hp) h' (p :: addresses_of ps) /\ (exists B, h'.(blocks) !! p = Some (whole_header H T ++ d ++ B)) /\ exists x', h'.(pbufs) !! p = Some x' /\ x'.(payload) = Some (p, 0) /\ x'.(len) = 20 + Z.of_nat (length d).
Proof.
  intros T n Hx Hh Ep EH LH HB Edl HT Q I Hnd Hp0 Hps0 Hd Hn Hc. pose proof Q as Q0. destruct Q0 as (_ & nx & F & Qr). apply NoDup_cons in Hnd. destruct Hnd as [Hpn Hnd]. pose proof (queue_size _ _ _ Qr Hnd) as Hsz. set (as_ := addresses_of ps) in *.
  destruct (fragment_reads _ _ _ _ _ F) as (Epl & En & _). destruct F as (_ & _ & _ & _ & Hxp & G & B & LG & Hb). assert (view s.(hp) (p, 0) [] (helper nx 0 (Z.of_nat (length d)) ++ G) (d ++ B)) as V by (split; [cbn [fst app]; by rewrite Hb, <- app_assoc|done]).
  destruct (write_header _ _ _ H _ T V ltac:(by rewrite length_app, helper_length, LG) LH HB ltac:(lia)) as (h1 & h2 & h3 & h4 & k & E1 & E2 & E3 & E4 & Ek & E5). set (W := whole_header H T) in *. set (h5 := rehead s.(hp) (p, 0) [] W (d ++ B)) in *.
  assert (length W = 20%nat) as LW by (apply whole_fields_length; [done|apply be_enc_length]). assert (wrote s.(hp) h5 [p]) as W5 by (apply (rehead_wrote s.(hp) (p, 0) [] _ (d ++ B) W V); by rewrite LW, length_app, helper_length, LG).
  pose proof (wrote_inv _ _ _ _ I W5) as I5. assert (h5.(pbufs) !! p = Some (one_buffer p (20 + Z.of_nat (length d)))) as Hxp5 by done. assert (h5.(blocks) !! p = Some (W ++ d ++ B)) as Hb5 by apply lookup_insert_eq.
  assert (queue h5 nx ps) as Q5 by (eapply queue_kept; [done|by apply wrote_kept|]; intros b Hb' ->%list_elem_of_singleton; done). assert (multiplicity p (R ⊎ {[+ p +]}) = 1%nat) as Hp1 by (rewrite multiplicity_disj_union, multiplicity_singleton_eq; lia).
  assert (joined h5 (R ⊎ {[+ p +]}) p [p]) as J. { split; [split; [done|]; by eexists|intros b ->%list_elem_of_singleton; by eexists|done|intros b y ->%list_elem_of_singleton Hy; rewrite Hxp5 in Hy; by injection Hy as <-|done|by intros b ?%elem_of_nil]. }
  assert (contents h5 [p] = W ++ d) as Ec5. { unfold contents. cbn [map concat]. rewrite app_nil_r. transitivity (W ++ take (length d) (d ++ B)); [|by rewrite take_app_length]. apply (rehead_chunk s.(hp) p 0 (one_buffer p (20 + Z.of_nat (length d))) [] _ (d ++ B) W (length d)) in V; [exact V|done|done|by rewrite LW, length_app, helper_length, LG|cbn [len one_buffer]; rewrite length_app, helper_length, LG; lia|rewrite length_app; lia]. }
  assert (forall a, a ∈ as_ -> (a ∉ [p]) /\ multiplicity a (R ⊎ {[+ p +]}) = 0%nat) as Hfr. { intros a Ha. assert (a <> p) as Hne by (intros ->; done). split; [set_solver|]. rewrite multiplicity_disj_union, (Hps0 a Ha), multiplicity_singleton_ne by done. done. }
  destruct (join_loop_ok ps (fuel h5) h5 (R ⊎ {[+ p +]}) p [p] nx _ I5 J Hxp5 Q5 Hnd Hfr Hd) as (h' & E6 & I' & J' & Ec' & [Sb Sp] & x' & Hx' & Ep' & El'); [rewrite Ec5, length_app, LW; lia|unfold fuel, h5; cbn; lia|].
  fold as_ in J', Ec', Sp. exists h'. unfold complete. rewrite Hx, Ep, EH. cbn [hp set_reass]. rewrite Epl, En. replace (datagram_len x + IP_HLEN) with T by (unfold IP_HLEN; lia). rewrite u16_small by (unfold T; lia). rewrite E1, E2, E3, E4, Ek, E5, E6. unfold ip_reass_dequeue_datagram. cbn [reass put_r reassdata reassdatagrams set_reass]. rewrite lookup_insert_eq, Hh, bool_decide_eq_true_2 by done.
  cbn [put_r r_set_len r_next set_head reassdata reassdatagrams ip_reass_pbufcount]. rewrite delete_insert_eq. unfold pbuf_clen. pose proof (j_chain _ _ _ _ J') as C'. pose proof (chain_size _ _ _ C') as Hcs. assert (length ([p] ++ as_) = S (length ps)) as Lc by (cbn; unfold as_; by rewrite length_map).
  rewrite (clen_ok h' _ (fuel h') (Some p) 0 C') by (unfold fuel; lia). rewrite Lc, Z.add_0_l. fold n. split; [unfold set_count; cbn [reassdata reassdatagrams ip_reass_pbufcount]; rewrite u16_small by lia; done|].
  do 2 (split; [done|]). split; [change (p :: as_) with ([p] ++ as_); rewrite Ec', Ec5; by rewrite <- app_assoc|]. split; [|split; [exists B; by rewrite Sb|exists x'; split; [done|]; by rewrite Ep', El']].
  intros b Hb'. split; [by rewrite Sp|]. rewrite Sb. apply (w_other _ _ _ W5). set_solver.
Qed.

(** ** The list of datagrams *)

Definition key_of (H : bytes) : bytes * bytes * bytes := (take 4 (drop 12 H), take 4 (drop 16 H), take 2 (drop 4 H)).

Lemma match_ok h a H d A : packet_at h a H d -> IP_ADDRESSES_AND_ID_MATCH h A (a, 0) = Some (bool_decide (key_of A = key_of H)).
Proof.
  intros [_ _ [B Hb] _ LH]. unfold IP_ADDRESSES_AND_ID_MATCH. rewrite (peek_view h (a, 0) [] H (d ++ B)) by (first [by split|unfold IP_HLEN; lia]). change (Z.to_nat IP_HLEN) with 20%nat. change (Z.to_nat 0) with 0%nat. rewrite drop_0, (take_ge H 20) by lia. cbv zeta beta. f_equal. rewrite <- !bool_decide_and. apply bool_decide_ext. unfold key_of. split; [intros [[-> ->] ->]; done|intros [= -> -> ->]; done].
Qed.

Fixpoint datagrams (r : gmap addr ip_reassdata) (p : option addr) (l : list addr) : Prop :=
  match l with
  | [] => p = None
  | a :: l => p = Some a /\ exists x, r !! a = Some x /\ datagrams r x.(r_next) l
  end.

(** The datagrams that are there have another key. *)
Definition others (r : reassembly) (K : bytes * bytes * bytes) : Prop := exists l, datagrams r.(reassdata) r.(reassdatagrams) l /\ NoDup l /\ forall a x, a ∈ l -> r.(reassdata) !! a = Some x -> key_of x.(r_iphdr) <> K.

Lemma lookup_none s a H d l : packet_at s.(hp) a H d -> (forall b x, b ∈ l -> s.(reass).(reassdata) !! b = Some x -> key_of x.(r_iphdr) <> key_of H) -> forall fuel p prev, datagrams s.(reass).(reassdata) p l -> (length l < fuel)%nat -> exists prev', lookup_loop fuel s (a, 0) p prev = Some (None, prev').
Proof.
  intros P. induction l as [|b l IH]; intros Hk fuel p prev D Hf; cbn [datagrams] in D; [subst p; exists prev; by destruct fuel|]. destruct D as (-> & x & Hx & D). destruct fuel as [|fuel]; [cbn in Hf; lia|]. cbn [lookup_loop]. rewrite Hx, (match_ok _ _ _ _ _ P), bool_decide_eq_false_2 by (eapply Hk; [left|done]).
  apply IH; [|done|cbn in Hf; lia]. intros c y Hc. apply Hk. by right.
Qed.

Lemma datagrams_size r l : forall p, datagrams r p l -> NoDup l -> (length l <= size r)%nat.
Proof.
  intros p D Hnd. rewrite <- (size_dom (D := gset addr)), <- (size_list_to_set (C := gset addr)) by done. apply subseteq_size. intros a Ha%elem_of_list_to_set. clear Hnd. revert p D. induction l as [|b l IH]; intros p; [by apply elem_of_nil in Ha|]. intros (-> & x & Hx & D). apply elem_of_cons in Ha. destruct Ha as [->|Ha]; [by eapply elem_of_dom_2|by eapply IH].
Qed.

Lemma more_bits H : bytes_ok H -> length H = 20%nat -> (Z.land (le_dec (field H 6 2)) (hton16 IP_MF) =? 0) = negb (more_of H).
Proof.
  intros HB L. destruct (be_field H 6 2 HB L ltac:(lia) eq_refl) as [E _]. unfold more_of. rewrite <- E, negb_involutive. pose proof (field_range H 6 2 HB L ltac:(lia)) as Hr. change (256 ^ Z.of_nat 2) with 65536 in Hr. set (x := le_dec (field H 6 2)) in *. change (hton16 IP_MF) with (2 ^ 5).
  assert (Z.land x (2 ^ 5) = Z.b2z (Z.testbit x 5) * 2 ^ 5) as ->.
  { apply Z.bits_inj'. intros n Hn. rewrite Z.land_spec, Z.pow2_bits_eqb by lia. destruct (Z.eqb_spec 5 n) as [<-|Hne]; [rewrite andb_true_r; by destruct (Z.testbit x 5)|]. rewrite andb_false_r. destruct (Z.testbit x 5); [|by rewrite Z.testbit_0_l]. change (Z.b2z true * 2 ^ 5) with (2 ^ 5). rewrite Z.pow2_bits_eqb by lia. symmetry. by apply Z.eqb_neq. }
  rewrite Z.testbit_spec' by lia. rewrite Checksum.hton16_bytes by lia. apply Bool.eq_true_iff_eq. rewrite !Z.eqb_eq. change (2 ^ 5) with 32. Z.to_euclidean_division_equations; lia.
Qed.

(** ** A datagram and what has come of it *)

(** A fragment with its header and data: where it belongs, whether others
    follow. *)
Record good_fragment (K : bytes * bytes * bytes) (st : Z) (more : bool) (H d : bytes) : Prop := {
  g_length : length H = 20%nat;
  g_bytes : bytes_ok H /\ bytes_ok d;
  g_data : 0 < Z.of_nat (length d) <= 1496;
  g_hlen : hlen_of H = 20;
  g_total : total_of H = 20 + Z.of_nat (length d);
  g_offset : offset_of H = st;
  g_more : more_of H = more;
  g_key : key_of H = K }.

Record datagram (K : bytes * bytes * bytes) (frs : list (bytes * bytes)) : Prop := {
  d_two : (2 <= length frs)%nat;
  d_total : 20 + bytes_in (map snd frs) < 65536;
  d_each fr1 H d fr2 : frs = fr1 ++ (H, d) :: fr2 -> good_fragment K (bytes_in (map snd fr1)) (match fr2 with [] => false | _ => true end) H d }.

Lemma datagram_filled K frs : datagram K frs -> Forall filled_piece (map snd frs).
Proof. intros [_ _ De]. apply Forall_forall. intros x Hx. apply list_elem_of_fmap in Hx. destruct Hx as ([H d] & -> & Hin). apply list_elem_of_split in Hin. destruct Hin as (fr1 & fr2 & E). destruct (De _ _ _ _ E) as [_ _ ? _ _ _ _ _]. unfold filled_piece. cbn. lia. Qed.

Lemma offset_zero K frs fr1 H d fr2 : datagram K frs -> frs = fr1 ++ (H, d) :: fr2 -> (offset_of H = 0 <-> fr1 = []).
Proof.
  intros D E. rewrite (g_offset _ _ _ _ _ (d_each _ _ D _ _ _ _ E)). split; [|intros ->; done]. destruct fr1 as [|[H1 d1] fr1]; [done|]. pose proof (g_data _ _ _ _ _ (d_each _ _ D [] H1 d1 _ E)). cbn [map snd]. rewrite bytes_in_cons. unfold bytes_in. lia.
Qed.

(** The header that is kept: that of the first fragment when it has come. *)
Definition head_header (frs : list (bytes * bytes)) (slots : list (option addr)) (H : bytes) : Prop :=
  match slots with
  | Some _ :: _ => exists d fr2, frs = (H, d) :: fr2
  | _ => exists fr1 d fr2, frs = fr1 ++ (H, d) :: fr2 /\ fr1 <> []
  end.

Definition entry (s0 : stack) (H : bytes) (P : list bytes) (slots : list (option addr)) (p : option addr) : ip_reassdata :=
  MkReassdata s0.(reass).(reassdatagrams) p H (if came (last slots) then bytes_in P else 0) (if came (last slots) then 1 else 0) IP_REASS_MAXAGE.

Definition pieces_of (frs : list (bytes * bytes)) (slots : list (option addr)) : list piece := pieces 0 (map snd frs) slots.

(** The state since [s0]: the fragments of [slots] wait in the datagram [ipr];
    [extra] are other new pbufs. *)
Record waiting (s0 s : stack) (R0 : gmultiset addr) (ipr : addr) (frs : list (bytes * bytes)) (slots : list (option addr)) (extra : list addr) : Prop := {
  t_length : length slots = length frs;
  t_inv : inv s.(hp) (R0 ⊎ bag (addresses_of (pieces_of frs slots) ++ extra));
  t_nodup : NoDup (addresses_of (pieces_of frs slots) ++ extra);
  t_fresh a : a ∈ addresses_of (pieces_of frs slots) ++ extra -> s0.(hp).(pbufs) !! a = None /\ s0.(hp).(blocks) !! a = None;
  t_kept : kept s0.(hp) s.(hp) (addresses_of (pieces_of frs slots) ++ extra);
  t_queue : queue s.(hp) (first_of (pieces_of frs slots)) (pieces_of frs slots);
  t_netifs : s.(netifs) = s0.(netifs) /\ s.(netif_list) = s0.(netif_list) /\ s.(netif_default) = s0.(netif_default) /\ s.(ip_id) = s0.(ip_id);
  t_reass : match pieces_of frs slots with
            | [] => s.(reass) = s0.(reass)
            | ps => exists H, head_header frs slots H /\ s.(reass) = MkReassembly (<[ipr := entry s0 H (map snd frs) slots (first_of ps)]> s0.(reass).(reassdata)) (Some ipr) (s0.(reass).(ip_reass_pbufcount) + Z.of_nat (length ps))
            end }.

Lemma pieces_nil P : forall st s, length s = length P -> pieces st P s = [] -> Forall (eq None) s.
Proof. induction P as [|e P IH]; intros st [|z s] L E; [constructor|done..|]. cbn in E. destruct z; [done|]. constructor; [done|]. eapply IH; [cbn in *; lia|done]. Qed.

Lemma last_came_none s1 s2 : came (last (s1 ++ (None : option addr) :: s2)) = match s2 with [] => false | _ => came (last s2) end.
Proof. rewrite last_app_cons. destruct s2 as [|y s2]; [done|]. by change (last (None :: y :: s2)) with (last (y :: s2)). Qed.

(** The new entry, with the last fragment noted. *)
Lemma entry_last s0 K frs fr1 H d fr2 s1 s2 a Hx p : datagram K frs -> frs = fr1 ++ (H, d) :: fr2 -> length s2 = length fr2 ->
  (if negb (more_of H) then r_set_last (u16 (offset_of H + Z.of_nat (length d))) (entry s0 Hx (map snd frs) (s1 ++ None :: s2) p) else entry s0 Hx (map snd frs) (s1 ++ None :: s2) p) = entry s0 Hx (map snd frs) (s1 ++ Some a :: s2) p.
Proof.
  intros D E L2. pose proof (d_each _ _ D _ _ _ _ E) as [_ _ ? _ _ Eo Em _]. pose proof (d_total _ _ D) as Ht. rewrite Em. unfold entry. rewrite last_cons_came, last_came_none. destruct fr2 as [|f fr2], s2 as [|y s2]; try done. cbn [negb]. unfold r_set_last. cbn [r_next r_p r_iphdr r_flags r_timer].
  assert (bytes_in (map snd frs) = offset_of H + Z.of_nat (length d)) as Eb. { rewrite E, Eo, map_app. unfold bytes_in. rewrite concat_app, length_app. cbn. rewrite app_nil_r. lia. } rewrite Eb in *. pose proof (offset_range H). unfold bytes_in in *. rewrite u16_small by lia. done.
Qed.

Lemma none_came (s : list (option addr)) : Forall (eq None) s -> came (last s) = false.
Proof. intros Hs. destruct (last s) as [x|] eqn:El; [|done]. apply last_Some in El. destruct El as (l & ->). apply Forall_app in Hs. destruct Hs as [_ Hs]. apply Forall_cons in Hs. by destruct Hs as [<- _]. Qed.

Lemma offset_zero_bits K frs fr1 H d fr2 : datagram K frs -> frs = fr1 ++ (H, d) :: fr2 -> (be_dec (field H 6 2) mod 0x2000 =? 0) = bool_decide (fr1 = []).
Proof. intros D E. pose proof (offset_zero _ _ _ _ _ _ D E) as Hz. unfold offset_of in Hz. apply Bool.eq_true_iff_eq. rewrite Z.eqb_eq, bool_decide_eq_true, <- Hz. lia. Qed.

Lemma present_size {A} (m : gmap addr A) l : NoDup l -> (forall a, a ∈ l -> is_Some (m !! a)) -> (length l <= size m)%nat.
Proof. intros Hnd Hl. rewrite <- (size_dom (D := gset addr)), <- (size_list_to_set (C := gset addr)) by done. apply subseteq_size. intros a Ha%elem_of_list_to_set. destruct (Hl a Ha) as [x Hx]. by eapply elem_of_dom_2. Qed.

Lemma last_is P : forall st s b, length s = length P -> last s = Some (Some b) -> exists P' dl, P = P' ++ [dl] /\ last (pieces st P s) = Some (b, st + bytes_in P', dl).
Proof.
  intros st s b L El. apply last_Some in El. destruct El as (s' & ->). rewrite length_app in L. cbn in L. destruct (exists_last (l := P)) as (P' & dl & ->); [by destruct P; cbn in L; [lia|]|]. exists P', dl. split; [done|]. rewrite length_app in L. cbn in L. rewrite pieces_app by lia. cbn [pieces app]. by rewrite last_snoc.
Qed.

Lemma full_data P : forall st s, Forall is_Some s -> length s = length P -> map snd (pieces st P s) = P.
Proof. induction P as [|d P IH]; intros st [|y s] Hs L; [done..|]. apply Forall_cons in Hs. destruct Hs as [[a ->] Hs]. cbn. f_equal. apply IH; [done|cbn in L; lia]. Qed.

(** The datagram in one chain, with the header of its first fragment; everything
    else is as it was. *)
Record whole (s0 s : stack) (R0 : gmultiset addr) (frs : list (bytes * bytes)) (p : addr) : Prop := {
  v_inv : inv s.(hp) (R0 ⊎ {[+ p +]});
  v_reass : s.(reass) = s0.(reass);
  v_netifs : s.(netifs) = s0.(netifs) /\ s.(netif_list) = s0.(netif_list) /\ s.(netif_default) = s0.(netif_default) /\ s.(ip_id) = s0.(ip_id);
  v_chain : exists l, joined s.(hp) (R0 ⊎ {[+ p +]}) p (p :: l) /\ kept s0.(hp) s.(hp) (p :: l) /\ forall a, a ∈ p :: l -> s0.(hp).(pbufs) !! a = None /\ s0.(hp).(blocks) !! a = None;
  v_packet : exists H d fr2 B x, frs = (H, d) :: fr2 /\ let W := whole_header H (20 + bytes_in (map snd frs)) in packet s.(hp) p = W ++ concat (map snd frs) /\ s.(hp).(blocks) !! p = Some (W ++ d ++ B) /\ s.(hp).(pbufs) !! p = Some x /\ x.(payload) = Some (p, 0) /\ x.(len) = 20 + Z.of_nat (length d) }.

Section step.
Variable ip_frag : stack -> addr -> addr -> Z -> option (stack * Z * list ip_action).
Variable output_err : Z.
Abbreviation ip_reass := (ip_reass ip_frag output_err).

Context (s0 : stack) (R0 : gmultiset addr) (ipr : addr) (K : bytes * bytes * bytes) (frs : list (bytes * bytes)) (D : datagram K frs) (O : others s0.(reass) K)
  (Hroom : 0 <= s0.(reass).(ip_reass_pbufcount) /\ s0.(reass).(ip_reass_pbufcount) + Z.of_nat (length frs) <= IP_REASS_MAX_PBUFS).

Lemma pieces_length P : forall st s, (length (pieces st P s) <= length P)%nat.
Proof. induction P as [|d P IH]; intros st [|y s]; cbn; [lia..|]. rewrite length_app. pose proof (IH (st + Z.of_nat (length d)) s). destruct y; cbn; lia. Qed.

Lemma pieces_hole P1 d P2 s1 s2 st : length P1 = length s1 -> (length (pieces st (P1 ++ d :: P2) (s1 ++ None :: s2)) < length (P1 ++ d :: P2))%nat.
Proof. intros L. rewrite pieces_app by done. cbn [pieces app]. rewrite !length_app. pose proof (pieces_length P1 st s1). pose proof (pieces_length P2 (st + bytes_in P1 + Z.of_nat (length d)) s2). cbn. lia. Qed.

(** The first part of [ip_reass]: the fragment gets an entry. *)
Lemma enlist_ok s fr1 H d fr2 s1 s2 a : waiting s0 s R0 ipr frs (s1 ++ None :: s2) [a] -> frs = fr1 ++ (H, d) :: fr2 -> length s1 = length fr1 -> packet_at s.(hp) a H d -> let ps := pieces_of frs (s1 ++ None :: s2) in
  exists Hx prev, head_header frs (s1 ++ Some a :: s2) Hx /\ ip_reass s a [Some ipr] [] =
    (LET (s, valid, c) <- ip_reass_chain_frag_into_datagram_and_validate (set_reass (MkReassembly (<[ipr := entry s0 Hx (map snd frs) (s1 ++ Some a :: s2) (first_of ps)]> s0.(reass).(reassdata)) (Some ipr) (s0.(reass).(ip_reass_pbufcount) + Z.of_nat (length ps) + 1)) s) ipr a in
     LET (s, r) <- (if valid : bool then complete s ipr prev else Some (s, None)) in Some (s, r, c)).
Proof.
  intros [Lt I Hnd _ _ Q _ Hr] E L1 P ps. rewrite E, !length_app in Lt. cbn [length] in Lt. assert (length s2 = length fr2) as L2 by lia. pose proof (d_each _ _ D _ _ _ _ E) as Gf. destruct Gf as [LH [HB _] Hd Ehl Etl Eo Em Ek]. destruct (packet_at_fields _ _ _ _ P Ehl Etl) as (Epl & G2 & G0 & G6 & Eh & El & Eoff). pose proof (entry_last s0 K frs fr1 H d fr2 s1 s2 a) as Hlast. specialize (fun Hx p => Hlast Hx p D E L2).
  assert (length ps < length frs)%nat as Hps. { unfold ps, pieces_of. rewrite E, map_app. cbn [map snd]. eapply Nat.lt_le_trans; [apply pieces_hole; by rewrite length_map|]. rewrite !length_app. cbn. rewrite !length_map. lia. }
  pose proof (p_pbuf _ _ _ _ P) as Hxa. assert (pbuf_clen s.(hp) (Some a) = Some 1) as Ecl. { unfold pbuf_clen. rewrite (clen_ok s.(hp) [a]); [done|split; [done|]; by eexists|unfold fuel; cbn; lia|lia|cbn; lia]. }
  unfold ip_reass. rewrite Epl, G0, Eh. change (20 =? IP_HLEN) with true. cbn [negb]. rewrite G6, G2, Ecl, Eoff, El. unfold IP_REASS_MAX_PBUFS in *. rewrite (more_bits H HB LH). rewrite (offset_bits H HB LH), (offset_zero_bits _ _ _ _ _ _ D E). fold ps in Hr. destruct ps as [|x0 ps'] eqn:Eps.
  - assert (Forall (eq None) (s1 ++ None :: s2)) as Hnone by (apply (pieces_nil (map snd frs) 0); [rewrite length_map, E, !length_app; cbn; lia|exact Eps]). destruct O as (l & Dl & Ndl & Hk). rewrite <- Hr in Dl, Hk.
    destruct (lookup_none s a H d l P ltac:(intros b x Hb Hx; rewrite Ek; by eapply Hk) (S (size (reassdata (reass s0)))) _ None Dl) as (prev & Elk); [rewrite <- Hr; pose proof (datagrams_size _ _ _ Dl Ndl); lia|]. exists H, prev. split.
    { destruct s1 as [|y s1]; [destruct fr1; [|done]; cbn; by exists d, fr2|]. cbn [app head_header]. apply Forall_cons in Hnone. destruct Hnone as [<- _]. exists fr1, d, fr2. split; [done|]. by intros ->. }
    rewrite Hr, (proj2 (Z.ltb_ge 10 _)) by lia. cbn [negb]. rewrite Hr in Elk. rewrite Hr, Elk. unfold ip_reass_enqueue_new_datagram. cbn [pop]. destruct P as [_ _ [B Hb] _ _]. rewrite (peek_view s.(hp) (a, 0) [] H (d ++ B)) by (first [by split|unfold IP_HLEN; lia]). change (Z.to_nat IP_HLEN) with 20%nat. change (Z.to_nat 0) with 0%nat. rewrite drop_0, (take_ge H 20) by lia. rewrite Hr. cbn [reass set_reass set_count set_head put_r reassdata reassdatagrams ip_reass_pbufcount app first_of head fmap option_fmap option_map length Z.of_nat]. rewrite lookup_insert_eq. rewrite (u16_small (ip_reass_pbufcount _ + 1)) by lia.
    specialize (Hlast H None). unfold entry at 1 2 in Hlast. rewrite (none_came _ Hnone) in Hlast. rewrite Z.add_0_r. rewrite <- Hlast. destruct (more_of H); cbn [negb]; [done|]. unfold set_reass, set_count, set_head, put_r. cbn [reassdata reassdatagrams ip_reass_pbufcount hp ip_id ip_data netifs netif_list netif_default reass]. by rewrite insert_insert_eq.
  - destruct Hr as (Hx & Hh & Er). set (n := Z.of_nat (length (x0 :: ps'))) in *. assert (exists frx dx fry, frs = frx ++ (Hx, dx) :: fry /\ (fr1 = [] -> frx <> [])) as (frx & dx & fry & Ex & Hfx).
    { unfold head_header in Hh. destruct s1 as [|y s1]; cbn [app] in Hh; [destruct Hh as (frx & dx & fry & ? & ?); by exists frx, dx, fry|]. assert (fr1 <> []) by by destruct fr1. destruct y; [destruct Hh as (dx & fr2' & ?); by exists [], dx, fr2'|destruct Hh as (frx & dx & fry & ? & ?); by exists frx, dx, fry]. }
    pose proof (d_each _ _ D _ _ _ _ Ex) as Gx. pose proof (offset_zero_bits _ _ _ _ _ _ D Ex) as Ezx. set (x := entry s0 Hx (map snd frs) (s1 ++ None :: s2) (first_of (x0 :: ps'))) in *. set (H' := if bool_decide (fr1 = []) then H else Hx). exists H', None. split.
    { unfold H'. destruct (decide (fr1 = [])) as [Hf1|Hf1]; [rewrite bool_decide_eq_true_2 by done|rewrite bool_decide_eq_false_2 by done]; [rewrite Hf1 in E, L1; destruct s1 as [|y s1]; [cbn; by exists d, fr2|done]|]. destruct s1 as [|y s1]; [destruct fr1; [done|cbn in L1; lia]|]. exact Hh. }
    rewrite Er, (proj2 (Z.ltb_ge 10 _)) by (cbn [ip_reass_pbufcount]; lia). cbn [negb reassdatagrams lookup_loop]. rewrite Er. cbn [reassdata reassdatagrams]. rewrite lookup_insert_eq. change (r_iphdr x) with Hx. rewrite (match_ok _ _ _ _ _ P), bool_decide_eq_true_2 by (rewrite Ek; apply (g_key _ _ _ _ _ Gx)).
    rewrite lookup_insert_eq. change (take 2 (drop 6 (r_iphdr x))) with (field Hx 6 2). change IP_OFFMASK with (Z.ones 13). rewrite Z.land_ones by lia. change (2 ^ 13) with 0x2000. rewrite Ezx. specialize (Hlast H' (first_of (x0 :: ps'))).
    assert (u16 (ip_reass_pbufcount (reass s0) + n + 1) = ip_reass_pbufcount (reass s0) + n + 1) as Eu by (apply u16_small; lia). unfold H' in *. destruct (bool_decide (fr1 = [])) eqn:Hf1; cbn [andb].
    + apply bool_decide_eq_true in Hf1. rewrite bool_decide_eq_false_2 by auto. cbn [negb]. destruct P as [_ _ [B Hb] _ _]. rewrite (peek_view s.(hp) (a, 0) [] H (d ++ B)) by (first [by split|unfold IP_HLEN; lia]). change (Z.to_nat IP_HLEN) with 20%nat. change (Z.to_nat 0) with 0%nat. rewrite drop_0, (take_ge H 20) by lia.
      cbn [reass set_reass set_count put_r reassdata reassdatagrams ip_reass_pbufcount app]. rewrite Eu, lookup_insert_eq. change (r_set_iphdr H x) with (entry s0 H (map snd frs) (s1 ++ None :: s2) (first_of (x0 :: ps'))). rewrite <- Hlast. destruct (more_of H); cbn [negb]; unfold set_reass, set_count, put_r; cbn [reassdata reassdatagrams ip_reass_pbufcount hp ip_id ip_data netifs netif_list netif_default reass]; by rewrite !insert_insert_eq.
    + rewrite Er. cbn [reass set_reass set_count put_r reassdata reassdatagrams ip_reass_pbufcount app]. rewrite Eu, lookup_insert_eq. change x with (entry s0 Hx (map snd frs) (s1 ++ None :: s2) (first_of (x0 :: ps'))). rewrite <- Hlast. destruct (more_of H); cbn [negb]; unfold set_reass, set_count, put_r; cbn [reassdata reassdatagrams ip_reass_pbufcount hp ip_id ip_data netifs netif_list netif_default reass]; by rewrite ?insert_insert_eq.
Qed.

Definition all_came (slots : list (option addr)) : bool := forallb (fun x => match x with Some _ => true | None => false end) slots.

Lemma all_came_ok slots : all_came slots = true <-> Forall is_Some slots.
Proof. unfold all_came. rewrite forallb_forall, Forall_forall. split; intros Hs x Hx; [apply list_elem_of_In, Hs in Hx; by destruct x|]. apply list_elem_of_In, Hs in Hx. by destruct Hx as [? ->]. Qed.

Lemma last_came_entry Hx P slots p : last_came (entry s0 Hx P slots p) = came (last slots).
Proof. unfold last_came, entry. cbn [r_flags]. by destruct (came (last slots)). Qed.

(** When the last fragment has come it is at the end of the list. *)
Lemma last_at_end Hx slots p : length slots = length frs -> last_came (entry s0 Hx (map snd frs) slots p) = true -> exists y, last (pieces_of frs slots) = Some y /\ end_piece y = (entry s0 Hx (map snd frs) slots p).(datagram_len) /\ y.1.2 <> 0.
Proof.
  rewrite last_came_entry. intros L Hc. unfold entry. cbn [datagram_len]. rewrite Hc. destruct (last slots) as [[b|]|] eqn:El; try done. destruct (last_is (map snd frs) 0 slots b ltac:(by rewrite length_map) El) as (P' & dl & EP & Ep). exists (b, 0 + bytes_in P', dl). split; [done|]. rewrite EP. unfold end_piece. cbn [fst snd]. split; [unfold bytes_in; rewrite concat_app, length_app; cbn; rewrite app_nil_r; lia|].
  pose proof (datagram_filled _ _ D) as HP. rewrite EP in HP. apply Forall_app in HP. destruct HP as [HP _]. pose proof (d_two _ _ D) as H2. rewrite <- (length_map snd), EP, length_app in H2. cbn in H2. destruct P' as [|d1 P']; [cbn in H2; lia|]. apply Forall_cons in HP. destruct HP as [Hd1 _]. unfold filled_piece in Hd1. rewrite bytes_in_cons. unfold bytes_in. lia.
Qed.

Lemma fresh_not_held a : inv s0.(hp) R0 -> s0.(hp).(pbufs) !! a = None -> multiplicity a R0 = 0%nat.
Proof. intros I Ha. destruct (multiplicity a R0) eqn:E; [done|]. destruct (c_held _ _ (i_counted _ _ I) a ltac:(lia)) as [x Hx]. congruence. Qed.

Lemma reass_step s fr1 H d fr2 s1 s2 a : inv s0.(hp) R0 -> s0.(reass).(reassdata) !! ipr = None -> waiting s0 s R0 ipr frs (s1 ++ None :: s2) [a] -> frs = fr1 ++ (H, d) :: fr2 -> length s1 = length fr1 -> packet_at s.(hp) a H d -> in_time s1 s2 = true ->
  exists s' r, ip_reass s a [Some ipr] [] = Some (s', r, []) /\ s'.(ip_data) = s.(ip_data) /\
  if all_came (s1 ++ s2) then exists p, r = Some p /\ whole s0 s' R0 frs p else r = None /\ waiting s0 s' R0 ipr frs (s1 ++ Some a :: s2) [].
Proof.
  intros I0 Hipr Wt E L1 P Ht. destruct (enlist_ok s fr1 H d fr2 s1 s2 a Wt E L1 P) as (Hx & prev & Hh & ->). destruct Wt as [Lt I Hnd Hfr Hk Q Hnf _]. pose proof (d_each _ _ D _ _ _ _ E) as [LH [HB HBd] Hd Ehl Etl Eo Em Ek].
  assert (length s2 = length fr2) as L2 by (rewrite E, !length_app in Lt; cbn in Lt; lia). assert (map snd frs = map snd fr1 ++ d :: map snd fr2) as EP by (rewrite E, map_app; done). set (P1 := map snd fr1) in *. set (P2 := map snd fr2) in *. assert (length P1 = length s1) as LP1 by (unfold P1; rewrite length_map; done). assert (length P2 = length s2) as LP2 by (unfold P2; rewrite length_map; done).
  set (ps1 := pieces 0 P1 s1). set (ps2 := pieces (bytes_in P1 + Z.of_nat (length d)) P2 s2). assert (pieces_of frs (s1 ++ None :: s2) = ps1 ++ ps2) as Eold by (unfold pieces_of; rewrite EP, pieces_app by done; done). assert (pieces_of frs (s1 ++ Some a :: s2) = ps1 ++ (a, offset_of H, d) :: ps2) as Enew by (unfold pieces_of; rewrite EP, Eo, pieces_app by done; done).
  rewrite Eold in *. set (slots := s1 ++ Some a :: s2) in *. set (x := entry s0 Hx (map snd frs) slots (first_of (ps1 ++ ps2))). set (c := ip_reass_pbufcount (reass s0) + Z.of_nat (length (ps1 ++ ps2)) + 1). set (sA := set_reass _ s).
  assert (length slots = length frs) as Ls by (unfold slots; rewrite <- Lt, !length_app; done). pose proof (datagram_filled _ _ D) as HP. pose proof HP as HPP. rewrite EP in HP. apply Forall_app in HP. destruct HP as [HP1 HP2]. apply Forall_cons in HP2. destruct HP2 as [_ HP2].
  assert (NoDup (a :: addresses_of (ps1 ++ ps2))) as Hnd' by by rewrite (Permutation_cons_append _ a). set (ps := ps1 ++ (a, offset_of H, d) :: ps2) in *. assert (addresses_of ps ≡ₚ addresses_of (ps1 ++ ps2) ++ [a]) as Hperm by (unfold ps; rewrite !map_app; cbn [map at_piece fst]; rewrite <- Permutation_middle; apply Permutation_cons_append).
  assert (length ps = S (length (ps1 ++ ps2))) as Lps by (unfold ps; rewrite !length_app; cbn; lia). assert (length ps <= size s.(hp).(pbufs))%nat as Hsz.
  { rewrite <- (length_map at_piece), Hperm. apply present_size; [done|]. intros b [Hb| ->%list_elem_of_singleton]%elem_of_app; [|rewrite (p_pbuf _ _ _ _ P); by eexists]. apply list_elem_of_fmap in Hb. destruct Hb as ([[b' st'] d'] & -> & Hin). destruct (queue_in _ _ _ _ _ _ Q Hin) as (n & (_ & _ & _ & _ & Hxb & _)). by eexists. }
  destruct (chain_frag_ok sA ipr x a H d ps1 ps2) as (h' & Ech & W & Q'); [done|done|done| |apply lookup_insert_eq|done|done|unfold fuel; cbn [hp sA set_reass]; fold ps; lia| | |intros Hl; destruct (last_at_end _ _ _ Ls Hl) as (y & Ey & ?); rewrite Enew in Ey; by exists y|].
  { rewrite Eo. pose proof (d_total _ _ D) as Htot. rewrite EP in Htot. unfold bytes_in in *. rewrite concat_app, length_app in Htot. cbn in Htot. rewrite length_app in Htot. lia. }
  { apply Forall_forall. intros y Hy. destruct (pieces_range P1 HP1 0 s1 y Hy) as (_ & ? & ?). lia. }
  { destruct ps2 as [|y ps2'] eqn:Ep2; [done|]. destruct (pieces_range P2 HP2 (bytes_in P1 + Z.of_nat (length d)) s2 y) as (? & _); [fold ps2; rewrite Ep2; left|]. lia. }
  cbn zeta in Ech, Q'. fold ps in Ech, Q'. rewrite Ech. cbn [sA hp set_reass] in W. pose proof (validity P1 d P2 s1 s2 a ltac:(by rewrite <- EP) ltac:(done) ltac:(done) Ht) as Hv. fold slots ps1 ps2 in Hv. rewrite <- Eo, <- (last_came_entry Hx (map snd frs) slots (first_of (ps1 ++ ps2))) in Hv. fold x in Hv. rewrite <- all_came_ok in Hv.
  set (sB := set_reass _ (set_hp h' sA)). pose proof (wrote_inv _ _ _ _ I W) as IB. rewrite <- Hperm in IB. assert (kept s0.(hp) h' (addresses_of ps)) as HkB. { eapply kept_trans; [exact Hk|exact (wrote_kept _ _ _ W)|]. intros b [Hb|Hb]; rewrite Hperm; [done|]. rewrite map_app. set_solver. }
  assert (forall b, b ∈ addresses_of ps -> pbufs (hp s0) !! b = None /\ blocks (hp s0) !! b = None) as HfrB by (intros b Hb; apply Hfr; by rewrite <- Hperm). assert (NoDup (addresses_of ps)) as HndB by by rewrite Hperm.
  assert (sB.(reass) = MkReassembly (<[ipr := entry s0 Hx (map snd frs) slots (first_of ps)]> s0.(reass).(reassdata)) (Some ipr) (s0.(reass).(ip_reass_pbufcount) + Z.of_nat (length ps))) as ErB. { unfold sB, sA, put_r. cbn [reass set_reass set_hp reassdata reassdatagrams ip_reass_pbufcount]. rewrite insert_insert_eq. f_equal. unfold c. lia. }
  destruct (found_valid (last_came x) ps1 (a, offset_of H, d) ps2) eqn:Ev.
  - assert (all_came (s1 ++ s2) = true) as Eall by by apply Hv. rewrite Eall. pose proof (proj1 (all_came_ok _) Eall) as Hs. assert (Forall is_Some slots) as Hs' by (apply Forall_app in Hs; destruct Hs; apply Forall_app; split; [done|constructor; [by eexists|done]]).
    assert (came (last slots) = true) as Ecame by (rewrite <- (last_came_entry Hx (map snd frs) slots (first_of (ps1 ++ ps2))); fold x; unfold found_valid in Ev; by destruct (last_came x)).
    clearbody slots. clear Hv Ev Ech Hnd Hfr Hk Q Hnd' Hperm. destruct slots as [|[p|] sl]; [rewrite <- Ls in *; pose proof (d_two _ _ D); cbn in *; lia| |apply Forall_cons in Hs'; destruct Hs' as [[? ?] _]; done]. destruct Hh as (d0 & fr' & Efr). apply Forall_cons in Hs'. destruct Hs' as [_ Hs'].
    set (rest := pieces (0 + Z.of_nat (length d0)) (map snd fr') sl). assert (ps = (p, 0, d0) :: rest) as Eps by (rewrite <- Enew; unfold pieces_of; by rewrite Efr). assert (length sl = length (map snd fr')) as Lsl by (rewrite length_map; rewrite Efr in Ls; cbn in Ls; lia). pose proof (full_data (map snd fr') (0 + Z.of_nat (length d0)) sl Hs' Lsl) as Edata. fold rest in Edata.
    pose proof (d_each _ _ D [] Hx d0 fr' Efr) as [LHx [HBx _] _ _ _ _ _ _]. assert (bytes_in (map snd frs) = Z.of_nat (length d0) + Z.of_nat (length (data_of rest))) as Ebi by (rewrite Efr; cbn [map snd]; rewrite bytes_in_cons; unfold data_of; by rewrite Edata).
    rewrite Eps in Q', IB, HkB, HfrB, HndB, ErB. change (first_of ((p, 0, d0) :: rest)) with (Some p) in Q', ErB. cbn [map list_to_set_disj] in IB, HkB, HfrB, HndB. change (at_piece (p, 0, d0)) with p in *. pose proof (d_total _ _ D) as Htot. rewrite Ebi in Htot. pose proof (pieces_length (map snd fr') (0 + Z.of_nat (length d0)) sl) as Hln. fold rest in Hln. rewrite length_map in Hln. assert (length frs = S (length fr')) as Lfr by (rewrite Efr; done). unfold IP_REASS_MAX_PBUFS in Hroom.
    destruct (complete_ok sB ipr prev (entry s0 Hx (map snd frs) (Some p :: sl) (Some p)) p d0 rest R0 Hx) as (h2 & Ec & I2 & J2 & Ect & K2 & (B & Hb2) & x2 & Hx2 & Ep2 & El2); [rewrite ErB; apply lookup_insert_eq|by rewrite ErB|done|done|done|done|unfold entry; cbn [datagram_len]; rewrite Ecame; lia|lia|done| |done| | | |lia|rewrite ErB; cbn [ip_reass_pbufcount length]; lia|].
    + by replace (R0 ⊎ {[+ p +]} ⊎ bag (addresses_of rest)) with (R0 ⊎ ({[+ p +]} ⊎ bag (addresses_of rest))) by multiset_solver.
    + apply fresh_not_held; [done|]. apply HfrB. left.
    + intros b Hb. apply fresh_not_held; [done|]. apply HfrB. by right.
    + apply Forall_forall. intros y Hy. rewrite Efr in HPP. cbn [map] in HPP. apply Forall_cons in HPP. destruct HPP as [_ HPP]. rewrite <- Edata, Forall_forall in HPP. apply HPP. by apply list_elem_of_fmap_2.
    + rewrite Ec. eexists _, _. split; [reflexivity|]. split; [done|]. exists p. split; [done|]. rewrite ErB. cbn [reassdata ip_reass_pbufcount]. rewrite delete_insert_id by done. cbn [entry r_next]. replace (ip_reass_pbufcount (reass s0) + Z.of_nat (length ((p, 0, d0) :: rest)) - Z.of_nat (S (length rest))) with (ip_reass_pbufcount (reass s0)) by (cbn [length]; lia).
      split; [done|cbn; by destruct (reass s0)|done| |].
      * exists (addresses_of rest). split; [done|]. split; [|done]. eapply kept_trans; [exact HkB|exact K2|]. by intros b [?|?].
      * rewrite <- Z.add_assoc in Ect. rewrite <- Z.add_assoc in Hb2. rewrite <- Ebi in Ect, Hb2. exists Hx, d0, fr', B, x2. split; [done|]. cbn zeta. split; [|done]. cbn [hp set_hp]. assert (p ∈ R0 ⊎ {[+ p +]}) as Hpin by multiset_solver. rewrite (packet_ok _ _ _ _ I2 Hpin (j_chain _ _ _ _ J2)), Ect. f_equal. rewrite Efr. unfold data_of. by rewrite Edata.
  - destruct (all_came (s1 ++ s2)) eqn:Eall; [destruct Hv as [_ Hv]; by specialize (Hv eq_refl)|]. exists sB, None. split; [done|]. split; [done|]. split; [done|]. unfold sB. split; rewrite ?Enew; fold ps; rewrite ?app_nil_r; try done. assert (exists y ps', ps = y :: ps') as (y & ps' & Eps) by (unfold ps; destruct ps1; by eexists _, _). fold sB. rewrite Eps in ErB |- *. by exists Hx.
Qed.
End step.

End ReassRun.
