(* ===== verification/ReassInput.v ===== *)
(** * Fragments from the device

    Packets that come from the device as fragments, through [ip_input] and
    [ip_reass]: the datagram reaches TCP in one piece. *)

From stdpp Require Import gmultiset.
From S2P Require Import Prelude Words Checksum LinkedList Pbuf PbufChain PbufData PbufRun PbufDevice Ip4 Icmp Ip4Run Ip4Out IcmpRun IpReass ReassRun.
Open Scope Z_scope.
Import ByteOrder Pbuf PbufChain PbufData PbufRun Ip4 Icmp Ip4Run Ip4Out IcmpRun IpReass ReassRun.

Module ReassInput.

(** ** Packets from the device *)

(** The fragment passes [ip_input] up to [ip_reass]; nothing is cut off. *)
Lemma input_fragment ip_frag output_err reass_fn s R p inp nf x o m H pkt ms : arrived s R p inp nf x o m H pkt -> total_of H = x.(tot_len) -> (forall a, a ∈ s.(netif_list) -> is_Some (s.(netifs) !! a)) -> classify s inp nf H x.(len) pkt = Fragment -> exists g, g.(current_iphdr_src) = src_of H /\ g.(current_iphdr_dest) = dest_of H /\
  ip_input ip_frag output_err reass_fn s p inp ms =
  (LET (s', q, acts) <- reass_fn (set_ip_data g s) p in
   match q with
   | None => Some (s', acts)
   | Some q => LET y <- s'.(hp).(pbufs) !! q in LET iphdr <- y.(payload) in LET (s', acts') <- deliver ip_frag output_err s' q inp iphdr (hlen_of H) ms in Some (s', acts ++ acts')
   end).
Proof.
  intros A Et Hn Hc. destruct (arrived_fields A) as (G0 & G2 & G6 & G9 & G12 & G16). destruct (arrived_H _ _ _ _ _ _ _ _ _ _ A) as [HB L]. pose proof (hlen_range H HB L). destruct (arrived_facts A) as (_ & ? & ? & ? & Etl & ? & _). pose proof (field_range H 0 1 HB L ltac:(lia)) as Hf0. destruct (nibbles (le_dec (field H 0 1)) ltac:(lia)) as [Ev En].
  destruct (be_field H 2 2 HB L ltac:(lia) eq_refl) as [El Hlr]. fold (total_of H) in El, Hlr. destruct (be_field H 6 2 HB L ltac:(lia) eq_refl) as [E6 _]. pose proof (field_range H 6 2 HB L ltac:(lia)) as Hr6. change (256 ^ Z.of_nat 2) with 65536 in Hr6.
  unfold classify in Hc. destruct (negb _ || _ || _ || _) eqn:E1; [done|]. rewrite !orb_false_iff, !Z.ltb_ge, !negb_false_iff in E1. destruct E1 as (((E4 & Ehl) & Elen) & Eck). destruct (unicast nf (src_of H)) eqn:Eu; [cbn [negb] in Hc|done]. destruct (for_us s inp (dest_of H) || _) eqn:Ef; [cbn [negb] in Hc|done]. destruct (is_fragment H) eqn:Efr; [|by repeat destruct (_ <? _) in Hc; destruct (proto_of H =? IP_PROTO_TCP), (proto_of H =? IP_PROTO_ICMP), (unicast nf (dest_of H))].
  exists (MkGlobals s.(ip_data).(current_netif) s.(ip_data).(current_ip4_header) s.(ip_data).(current_ip_header_tot_len) (src_of H) (dest_of H)). split; [done|]. split; [done|]. unfold ip_input. rewrite (a_pbuf A), (a_payload A), G0, Ev, En, G2, El, E4. replace (le_dec (field H 0 1) mod 16 * 4) with (hlen_of H) by (unfold hlen_of; lia). rewrite u16_small by lia. cbn [negb].
  rewrite (proj2 (Z.ltb_ge _ _)), (proj2 (Z.ltb_ge _ _)) by lia. cbn [orb]. destruct (arrived_chksum _ _ _ _ _ _ _ _ _ _ (hlen_of H) A ltac:(lia)) as (k & -> & ->). rewrite Eck. cbn [negb]. assert (pbuf_realloc s.(hp) (Some p) (total_of H) = Some (s.(hp), [])) as -> by (unfold pbuf_realloc; rewrite (a_pbuf A), (proj2 (Z.leb_le _ _)) by lia; done).
  rewrite G16, G12. set (s1 := set_ip_data _ _). destruct (find_netif_ok s1 inp nf (dest_of H) (a_netif A) Hn) as (n & -> & Hn'). change (s1.(netifs)) with s.(netifs). rewrite (a_netif A), G9. change (for_us s1 inp) with (for_us s inp) in Hn'. unfold unicast in Eu. apply negb_true_iff in Eu. rewrite Eu.
  assert (exists n', match n with Some _ => n | None => if has_flag nf NETIF_FLAG_PRETEND_TCP && (proto_of H =? IP_PROTO_TCP) then Some inp else None end = Some n') as (n' & ->). { destruct n as [n|]; [by exists n|]. rewrite (proj1 Hn' eq_refl) in Ef. cbn [orb] in Ef. rewrite Ef. by exists inp. }
  rewrite G6, fragment_bits, E6 by done. fold (is_fragment H). rewrite Efr. assert (forall g, set_ip_data g (set_hp s.(hp) s) = set_ip_data g s) as Hid by done. unfold s1. rewrite Hid. clear s1 Hn' Hid. destruct (reass_fn _ p) as [[[s' [q|]] acts]|]; [|done..]. destruct (s'.(hp).(pbufs) !! q) as [y|]; [|done]. destruct (payload y) as [q'|]; [|done]. by destruct (deliver _ _ _ _ _ _ _) as [[? ?]|].
Qed.


Lemma new_packet s0 s R0 ipr K frs slots fr1 H d fr2 m inp nf : datagram K frs -> waiting s0 s R0 ipr frs slots [] -> frs = fr1 ++ (H, d) :: fr2 -> malloc_ok s0.(hp) [m] = true -> (m.(at_) ∉ addresses_of (pieces_of frs slots)) -> pointer (Some m.(at_)) -> s0.(netifs) !! inp = Some nf ->
  let a := m.(at_) in exists h R b, PbufDevice.device_pbuf s.(hp) (H ++ d) [m] = Some (h, Some a) /\ waiting s0 (set_hp h s) R0 ipr frs slots [a] /\ packet_at h a H d /\ arrived (set_hp h s) R a inp nf (one_buffer a (20 + Z.of_nat (length d))) 0 b H (H ++ d).
Proof.
  intros D [Lt I Hnd Hfr Hk Q Hnf Hr] E (Hal & Hp0 & Hb0 & _)%malloc_ok_head Hna Pa Hn a. fold a in Hal, Hp0, Hb0, Hna, Pa. rewrite app_nil_r in *. destruct (d_each _ _ D _ _ _ _ E) as [LH [HB HBd] Hd _ _ _ _ _]. destruct (Hk a Hna) as [Hp Hb]. rewrite Hp0 in Hp. rewrite Hb0 in Hb.
  assert (length (H ++ d) = (20 + length d)%nat) as Ln by (rewrite length_app; lia). destruct (device_single s.(hp) (H ++ d) m ltac:(lia) Hal Hp) as (rest & Lr & Ed). fold a in Ed. set (h := with_packet a (H ++ d) rest s.(hp)) in *.
  assert (malloc_ok s.(hp) [m] = true) as Hl. { unfold malloc_ok. cbn [map forallb]. fold a. rewrite Hp, Hb, !bool_decide_eq_true_2 by (done || apply NoDup_singleton). by rewrite Hal. }
  assert (netifs s !! inp = Some nf) as Hn' by by rewrite (proj1 Hnf). destruct (device_arrived s _ (H ++ d) [m] h a inp nf I ltac:(by apply Forall_app) ltac:(lia) Hl Ed Hn') as (x & b & _ & _ & A). rewrite take_app_length' in A by done.
  assert (h.(pbufs) !! a = Some (one_buffer a (20 + Z.of_nat (length d)))) as Hx by (unfold h; cbn [with_packet pbufs]; rewrite lookup_insert_eq, Ln; do 2 f_equal; lia). replace x with (one_buffer a (20 + Z.of_nat (length d))) in A by (pose proof (a_pbuf A) as Hx'; cbn [hp set_hp] in Hx'; congruence).
  assert (kept s.(hp) h [a]) as Hkh by (intros c Hc; unfold h; cbn [with_packet pbufs blocks]; rewrite !lookup_insert_ne by set_solver; done). eexists h, _, b. split; [done|]. split; [|split; [|exact A]].
  - split; [done|cbn [hp set_hp]| | |eapply kept_trans; [exact Hk|exact Hkh|set_solver]|eapply queue_kept; [exact Q|exact Hkh|]|done|exact Hr].
    + rewrite list_to_set_disj_app. cbn [list_to_set_disj]. pose proof (a_inv A) as IA. cbn [hp set_hp] in IA. by replace (R0 ⊎ (bag (addresses_of (pieces_of frs slots)) ⊎ ({[+ a +]} ⊎ ∅))) with (R0 ⊎ bag (addresses_of (pieces_of frs slots)) ⊎ {[+ a +]}) by multiset_solver.
    + rewrite <- Permutation_cons_append. by apply NoDup_cons.
    + intros c [Hc| ->%list_elem_of_singleton]%elem_of_app; [by apply Hfr|done].
    + intros c Hc ->%list_elem_of_singleton. done.
  - split; [done|done|exists rest; unfold h; cbn [with_packet blocks]; rewrite lookup_insert_eq; by rewrite <- app_assoc|done|done].
Qed.

(** ** The datagram in one piece *)

Lemma whole_arrived s0 s R0 K frs p inp nf H d fr2 : datagram K frs -> frs = (H, d) :: fr2 -> whole s0 s R0 frs p -> s0.(netifs) !! inp = Some nf -> let W := whole_header H (20 + bytes_in (map snd frs)) in
  exists x b, arrived s (R0 ⊎ {[+ p +]}) p inp nf x 0 b W (W ++ concat (map snd frs)) /\ x.(len) = 20 + Z.of_nat (length d).
Proof.
  intros D E [I Er Hnf (l & J & Hk & Hfr) (H' & d' & fr' & B & x & E' & Epk & Hb & Hx & Ep & El)] Hn W. rewrite E in E'. injection E' as <- <- <-. fold W in Epk, Hb. destruct (d_each _ _ D [] _ _ _ E) as [LH [HB HBd] _ _ _ _ _ _]. exists x, (W ++ d ++ B). split; [|done].
  assert (length W = 20%nat) as LW by (apply whole_fields_length; [done|apply be_enc_length]). assert (bytes_ok W) as HW by (apply whole_fields_bytes; [done|apply be_enc_bytes]). pose proof (joined_unshared _ _ _ _ I J) as U. cbn [unshared] in U. apply andb_true_iff in U. destruct U as [U _]. apply Nat.eqb_eq in U.
  split; try done; [multiset_solver|apply J|exists (p :: l); by destruct J|rewrite length_app, LW; lia| | |by rewrite (proj1 Hnf)].
  - change (Z.to_nat 0) with 0%nat. by rewrite drop_0, take_app_length'.
  - split; [done|]. apply Forall_app. split; [done|]. apply Forall_concat. apply Forall_forall. intros c Hc. apply list_elem_of_fmap in Hc. destruct Hc as ([Hc dc] & -> & Hin). apply list_elem_of_split in Hin. destruct Hin as (f1 & f2 & Ef). destruct (d_each _ _ D _ _ _ _ Ef) as [_ [_ ?] _ _ _ _ _ _]. done.
Qed.

Lemma whole_header_fields H n : length H = 20%nat -> let W := whole_header H n in hlen_of W = hlen_of H /\ proto_of W = proto_of H /\ src_of W = src_of H /\ dest_of W = dest_of H.
Proof.
  intros L W. destruct (list20 H L) as (a0 & a1 & a2 & a3 & a4 & a5 & a6 & a7 & a8 & a9 & a10 & a11 & a12 & a13 & a14 & a15 & a16 & a17 & a18 & a19 & EH). unfold W, whole_header. set (k := be_enc 2 (Checksum.rfc1071 (whole_fields H n [0; 0]))). assert (length k = 2%nat) as Lk by apply be_enc_length. clearbody k. destruct k as [|k0 [|k1 [|]]]; try done. 
  unfold whole_fields. set (e := be_enc 2 n). assert (length e = 2%nat) as Le by apply be_enc_length. clearbody e. destruct e as [|e0 [|e1 [|]]]; try done. by rewrite EH.
Qed.

Lemma key_addresses H H' : key_of H = key_of H' -> src_of H = src_of H' /\ dest_of H = dest_of H'.
Proof. unfold key_of, src_of, dest_of, field. intros [= -> -> _]. done. Qed.

(** ** The order of the packets *)

(** The packet [i] comes when those in [got] are there: the check of [IpReass]
    does not see a gap right in front of it.  So either the last fragment is
    still missing (or this is it), or the one before is there, or none of those
    before is. *)
Definition on_time (got : list bool) (i : nat) : bool :=
  let before := take i got in negb (default false (last (drop (S i) got))) || default true (last before) || negb (existsb id before).

Fixpoint timely (got : list bool) (order : list nat) : bool :=
  match order with
  | [] => true
  | i :: order => on_time got i && timely (<[i := true]> got) order
  end.

Definition there (x : option addr) : bool := match x with Some _ => true | None => false end.

Lemma in_time_on_time s1 s2 : in_time s1 s2 = on_time (map there (s1 ++ None :: s2)) (length s1).
Proof.
  unfold on_time. rewrite map_app. cbn [map]. rewrite take_app_length' by by rewrite length_map. rewrite (cons_middle (there None)), app_assoc, drop_app_length' by (rewrite length_app, length_map; cbn; lia). change (map there) with (fmap (M := list) there). rewrite !fmap_last. unfold in_time. destruct (last s2) as [[b|]|]; cbn; [|done..]. destruct (last s1) as [[c|]|]; cbn; [done| |by rewrite ?orb_true_r].
  rewrite <- negb_involutive at 1. f_equal. induction s1 as [|x s1 IH]; [done|]. cbn. rewrite negb_andb, IH. by destruct x.
Qed.

(** Packets in their order, and in the reverse order, are on time. *)
Lemma in_order_timely n : timely (repeat false n) (seq 0 n) = true.
Proof.
  enough (forall k m, timely (repeat true k ++ repeat false m) (seq k m) = true) as Hg by apply (Hg 0%nat n). intros k m. revert k. induction m as [|m IH]; intros k; [done|]. cbn [seq timely repeat]. rewrite insert_app_r_alt by (rewrite repeat_length; lia). rewrite repeat_length, Nat.sub_diag. cbn [list_insert insert]. rewrite (cons_middle true), app_assoc. rewrite <- repeat_cons. change (true :: repeat true k) with (repeat true (S k)). rewrite (IH (S k)), andb_true_r.
  unfold on_time. rewrite take_app_length' by by rewrite repeat_length. destruct k as [|k]; [cbn; by rewrite orb_true_r|]. cbn [repeat]. by rewrite repeat_cons, last_snoc, orb_true_r.
Qed.

Lemma in_reverse_timely n : timely (repeat false n) (rev (seq 0 n)) = true.
Proof.
  enough (forall k m, timely (repeat false k ++ repeat true m) (rev (seq 0 k)) = true) as Hg by (rewrite <- (app_nil_r (repeat false n)); apply (Hg n 0%nat)). induction k as [|k IH]; intros m; [done|]. rewrite seq_S, rev_app_distr. cbn [rev app timely Nat.add]. rewrite <- Nat.add_1_r, repeat_app, <- app_assoc. cbn [repeat app]. rewrite insert_app_r_alt by (rewrite repeat_length; lia). rewrite repeat_length, Nat.sub_diag. cbn [list_insert insert]. change (true :: repeat true m) with (repeat true (S m)). rewrite (IH (S m)), andb_true_r.
  unfold on_time. rewrite take_app_length' by by rewrite repeat_length. enough (existsb id (repeat false k) = false) as -> by by rewrite orb_true_r. clear. by induction k.
Qed.

Lemma pieces_address b P : forall st slots, b ∈ addresses_of (pieces st P slots) -> Some b ∈ slots.
Proof. induction P as [|d P IH]; intros st [|y s]; [by intros ?%elem_of_nil..|]. cbn [pieces]. rewrite map_app. intros [Hb|Hb]%elem_of_app; [|right; by eapply IH]. destruct y as [a|]; [|by apply elem_of_nil in Hb]. apply list_elem_of_singleton in Hb. cbn in Hb. subst b. left. Qed.

Lemma repeat_replicate {A} (x : A) n : repeat x n = replicate n x.
Proof. induction n as [|n IH]; [done|]. cbn. by rewrite IH. Qed.

Definition packet_of (frs : list (bytes * bytes)) (i : nat) : bytes := match frs !! i with Some (H, d) => H ++ d | None => [] end.

Section receive.
Variable ip_frag : stack -> addr -> addr -> Z -> option (stack * Z * list ip_action).
Variable output_err : Z.
Abbreviation ip_reass := (ip_reass ip_frag output_err).

(** A packet is read from the device: [m] is the memory for its pbuf, [ipr] that
    for an [ip_reassdata]. *)
Definition receive (inp ipr : addr) (s : stack) (data : bytes) (m : answer) : option (stack * list ip_action) :=
  LET (h, p) <- PbufDevice.device_pbuf s.(hp) data [m] in
  match p with
  | None => Some (set_hp h s, [])
  | Some p => ip_input ip_frag output_err (fun s p => ip_reass s p [Some ipr] []) (set_hp h s) p inp []
  end.

Fixpoint receive_all (inp ipr : addr) (s : stack) (l : list (bytes * answer)) : option (stack * list ip_action) :=
  match l with
  | [] => Some (s, [])
  | (data, m) :: l =>
      LET (s, acts) <- receive inp ipr s data m in
      LET (s, acts') <- receive_all inp ipr s l in
      Some (s, acts ++ acts')
  end.

(** TCP has got the datagram; else everything is as it was. *)
Definition handed_over (s0 s : stack) (R0 : gmultiset addr) (inp : addr) (H : bytes) (data : bytes) (acts : list ip_action) : Prop :=
  exists p, acts = [TcpInput p (MkGlobals (Some inp) (Some (p, 0)) 20 (src_of H) (dest_of H))] /\ s0.(hp).(pbufs) !! p = None /\ inv s.(hp) (R0 ⊎ {[+ p +]}) /\ packet s.(hp) p = data /\
    s.(reass) = s0.(reass) /\ s.(netifs) = s0.(netifs) /\ s.(netif_list) = s0.(netif_list) /\ s.(netif_default) = s0.(netif_default) /\ s.(ip_id) = s0.(ip_id) /\
    forall b, (is_Some (s0.(hp).(pbufs) !! b) -> s.(hp).(pbufs) !! b = s0.(hp).(pbufs) !! b) /\ (is_Some (s0.(hp).(blocks) !! b) -> s.(hp).(blocks) !! b = s0.(hp).(blocks) !! b).

Context (s0 : stack) (R0 : gmultiset addr) (ipr : addr) (K : bytes * bytes * bytes) (frs : list (bytes * bytes)) (D : datagram K frs) (O : others s0.(reass) K)
  (Hroom : 0 <= s0.(reass).(ip_reass_pbufcount) /\ s0.(reass).(ip_reass_pbufcount) + Z.of_nat (length frs) <= IP_REASS_MAX_PBUFS)
  (I0 : inv s0.(hp) R0) (Hipr : s0.(reass).(reassdata) !! ipr = None)
  (inp : addr) (nf : netif) (Hn : s0.(netifs) !! inp = Some nf) (Hnl : forall a, a ∈ s0.(netif_list) -> is_Some (s0.(netifs) !! a)).

(** The last part of [ip_input]. *)
Lemma whole_delivered s p H d fr2 : frs = (H, d) :: fr2 -> proto_of H = IP_PROTO_TCP -> whole s0 s R0 frs p -> s.(ip_data).(current_iphdr_src) = src_of H -> s.(ip_data).(current_iphdr_dest) = dest_of H ->
  exists y s' acts, s.(hp).(pbufs) !! p = Some y /\ y.(payload) = Some (p, 0) /\ deliver ip_frag output_err s p inp (p, 0) 20 [] = Some (s', acts) /\ handed_over s0 s' R0 inp H (concat (map snd frs)) acts.
Proof.
  intros E Hp Wh Es Ed. destruct (whole_arrived _ _ _ _ _ _ _ _ _ _ _ D E Wh Hn) as (x & b & A & El). set (W := whole_header H (20 + bytes_in (map snd frs))) in *. destruct (d_each _ _ D [] _ _ _ E) as [LH _ _ Eh _ _ _ _]. destruct (whole_header_fields H (20 + bytes_in (map snd frs)) LH) as (Ehl & Epr & Esrc & Edst). fold W in Ehl, Epr, Esrc, Edst. rewrite Eh in Ehl.
  destruct (deliver_packet ip_frag output_err _ _ _ _ _ _ _ _ _ _ [] A) as (s1 & [_ I1 Ep1 Eg _ (Ei & En & Enl & End & Er)] & Ehp & Edel); [lia|congruence|congruence|]. rewrite Ehl, Epr, Hp in Edel. cbn in Edel. exists x. eexists _, _. split; [apply (a_pbuf A)|]. split; [apply (a_payload A)|]. split; [exact Edel|].
  destruct Wh as [_ Er0 (N1 & N2 & N3 & N4) (l & J & Hk & Hfr) _]. destruct (Hfr p ltac:(left)) as [Hfp Hfb]. exists p. unfold upper_globals. rewrite Ehl, Esrc, Edst. split; [done|]. split; [done|]. split; [done|]. split.
  { cbn [hp set_ip_data]. rewrite Ep1, Ehl. change (Z.to_nat 20) with 20%nat. rewrite drop_app_length'; [done|]. symmetry. apply whole_fields_length; [done|apply be_enc_length]. }
  cbn [set_ip_data reass netifs netif_list netif_default ip_id hp]. rewrite Er, En, Enl, End, Ei, Er0, N1, N2, N3, N4. do 5 (split; [done|]). intros c. rewrite Ehp. cbn [put pbufs blocks]. split; intros [z Hz].
  - destruct (decide (p = c)) as [->|Hne]; [congruence|]. rewrite lookup_insert_ne by done. apply Hk. intros Hin. destruct (Hfr c Hin) as [? ?]. congruence.
  - apply Hk. intros Hin. destruct (Hfr c Hin) as [? ?]. congruence.
Qed.

Lemma waiting_globals s slots extra g : waiting s0 s R0 ipr frs slots extra -> waiting s0 (set_ip_data g s) R0 ipr frs slots extra.
Proof. intros [? ? ? ? ? ? ? ?]. by split. Qed.

Lemma waiting_classify s h slots extra H n pkt : waiting s0 s R0 ipr frs slots extra -> classify (set_hp h s) inp nf H n pkt = classify s0 inp nf H n pkt.
Proof. intros W. destruct (t_netifs _ _ _ _ _ _ _ W) as (N1 & N2 & _). unfold classify, for_us. cbn [netifs netif_list set_hp]. by rewrite N1, N2. Qed.

(** One packet. *)
Lemma receive_step s fr1 H d fr2 s1 s2 m H1 d1 fr' : waiting s0 s R0 ipr frs (s1 ++ None :: s2) [] -> frs = fr1 ++ (H, d) :: fr2 -> length s1 = length fr1 -> malloc_ok s0.(hp) [m] = true -> (m.(at_) ∉ addresses_of (pieces_of frs (s1 ++ None :: s2))) -> pointer (Some m.(at_)) ->
  classify s0 inp nf H (20 + Z.of_nat (length d)) (H ++ d) = Fragment -> in_time s1 s2 = true -> frs = (H1, d1) :: fr' -> proto_of H1 = IP_PROTO_TCP ->
  exists s' acts, receive inp ipr s (H ++ d) m = Some (s', acts) /\ if all_came (s1 ++ s2) then handed_over s0 s' R0 inp H1 (concat (map snd frs)) acts else acts = [] /\ waiting s0 s' R0 ipr frs (s1 ++ Some m.(at_) :: s2) [].
Proof.
  intros Wt E L1 Hm Hna Pa Hc Ht E1 Hp. destruct (new_packet _ _ _ _ _ _ _ _ _ _ _ _ _ _ D Wt E Hm Hna Pa Hn) as (h & R & b & Ed & Wt' & P & A). unfold receive. rewrite Ed. set (a := at_ m) in *. destruct (d_each _ _ D _ _ _ _ E) as [_ _ _ Ehl Etl _ _ Ek]. destruct (d_each _ _ D [] _ _ _ E1) as [_ _ _ _ _ _ _ Ek1]. destruct (key_addresses H H1 ltac:(congruence)) as [Esrc Edst].
  rewrite <- (waiting_classify _ h _ _ _ _ _ Wt) in Hc. assert (forall c, c ∈ netif_list (set_hp h s) -> is_Some (netifs (set_hp h s) !! c)) as Hnl'. { destruct (t_netifs _ _ _ _ _ _ _ Wt) as (N1 & N2 & _). cbn [netif_list netifs set_hp]. by rewrite N1, N2. }
  destruct (input_fragment ip_frag output_err (fun s p => ip_reass s p [Some ipr] []) _ _ _ _ _ _ _ _ _ _ [] A Etl Hnl' Hc) as (g & Eg1 & Eg2 & ->). apply (waiting_globals _ _ _ g) in Wt'.
  destruct (reass_step ip_frag output_err s0 R0 ipr K frs D O Hroom (set_ip_data g (set_hp h s)) fr1 H d fr2 s1 s2 a I0 Hipr Wt' E L1 P Ht) as (s' & r & -> & Eip & Hr). destruct (all_came (s1 ++ s2)); [|destruct Hr as [-> Wt2]; by exists s', []].
  destruct Hr as (p & -> & Wh). destruct (whole_delivered s' p H1 d1 fr' E1 Hp Wh) as (y & s2' & acts & -> & -> & Edel & Hov); [rewrite Eip; cbn; congruence..|]. rewrite Ehl, Edel. by exists s2', acts.
Qed.

(** The rest of the packets. *)
Lemma receive_rest H1 d1 fr' : frs = (H1, d1) :: fr' -> proto_of H1 = IP_PROTO_TCP -> (forall H d, (H, d) ∈ frs -> classify s0 inp nf H (20 + Z.of_nat (length d)) (H ++ d) = Fragment) ->
  forall order ms s slots, waiting s0 s R0 ipr frs slots [] -> order <> [] -> NoDup order -> (forall i, i ∈ order <-> slots !! i = Some None) -> length ms = length order -> malloc_ok s0.(hp) ms = true -> Forall (fun m => pointer (Some m.(at_))) ms -> (forall m, m ∈ ms -> Some m.(at_) ∉ slots) -> timely (map there slots) order = true ->
  exists s' acts, receive_all inp ipr s (zip (map (packet_of frs) order) ms) = Some (s', acts) /\ handed_over s0 s' R0 inp H1 (concat (map snd frs)) acts.
Proof.
  intros E1 Hp Hc. induction order as [|i order IH]; intros ms s slots Wt Hne Hnd Hi Lm Hm HP Hms Ht; [done|]. destruct ms as [|m ms]; [done|]. apply Forall_cons in HP. destruct HP as [Pm HP]. apply NoDup_cons in Hnd. destruct Hnd as [Hio Hnd]. cbn [timely] in Ht. apply andb_true_iff in Ht. destruct Ht as [Ht1 Ht].
  destruct (malloc_ok_head _ _ _ Hm) as (Hal & Hmp & Hmb & Hms' & Hmf). assert (slots !! i = Some None) as Ei by (apply Hi; left). pose proof (t_length _ _ _ _ _ _ _ Wt) as Lt. destruct (lookup_lt_is_Some_2 frs i ltac:(rewrite <- Lt; by eapply lookup_lt_Some)) as [[H d] Ef]. pose proof (lookup_lt_Some _ _ _ Ei) as Hlt.
  pose proof (take_drop_middle _ _ _ Ei) as Es. pose proof (take_drop_middle _ _ _ Ef) as Efr. set (s1 := take i slots) in *. set (s2 := drop (S i) slots) in *. assert (length s1 = i) as L1 by (unfold s1; rewrite length_take; lia).
  assert (map there (s1 ++ Some m.(at_) :: s2) = <[i := true]> (map there slots)) as Egot by (rewrite <- Es, !map_app; cbn [map]; rewrite insert_app_r_alt by (rewrite length_map; lia); rewrite length_map, L1, Nat.sub_diag; done).
  rewrite <- Es, <- L1, <- in_time_on_time in Ht1. assert (malloc_ok s0.(hp) [m] = true) as Hm1 by (unfold malloc_ok; cbn; rewrite Hal, Hmp, Hmb, !bool_decide_eq_true_2 by (done || apply NoDup_singleton); done).
  assert (all_came (s1 ++ s2) = true <-> order = []) as Hall.
  { rewrite all_came_ok. split.
    - intros Hs. destruct order as [|j order]; [done|]. exfalso. assert (slots !! j = Some None) as Ej by (apply Hi; right; left). assert (j <> i) as Hji by (intros ->; apply Hio; left). rewrite Forall_forall in Hs. enough (None ∈ s1 ++ s2) as Hin by (destruct (Hs None Hin); done). apply elem_of_app. rewrite <- Es in Ej. destruct (decide (j < i)%nat) as [?|?]; [left; rewrite lookup_app_l in Ej by lia; by eapply list_elem_of_lookup_2|]. right. rewrite lookup_app_r in Ej by lia. rewrite L1 in Ej. destruct (j - i)%nat as [|k] eqn:Ejk; [lia|]. by eapply (list_elem_of_lookup_2 s2 k).
    - intros ->. apply Forall_forall. intros [x|] Hx; [by eexists|]. exfalso. assert (exists j, j <> i /\ slots !! j = Some None) as (j & Hji & Ej).
      { apply elem_of_app in Hx. destruct Hx as [Hx|Hx]; apply list_elem_of_lookup_1 in Hx; destruct Hx as (k & Hk); pose proof (lookup_lt_Some _ _ _ Hk); [exists k; split; [lia|]; rewrite <- Es; by rewrite lookup_app_l|]. exists (S (i + k)). split; [lia|]. rewrite <- Es, lookup_app_r by lia. rewrite L1. by replace (S (i + k) - i)%nat with (S k) by lia. }
      apply Hi, list_elem_of_singleton in Ej. done. }
  cbn [map zip zip_with receive_all]. unfold packet_of at 1. rewrite Ef. destruct (receive_step s (take i frs) H d (drop (S i) frs) s1 s2 m H1 d1 fr') as (s' & acts & -> & Hr); [by rewrite Es|done|unfold s1; rewrite !length_take; lia|done| |done|apply Hc; by eapply list_elem_of_lookup_2|done|done|done|].
  { rewrite Es. intros Hin%pieces_address. by apply (Hms m); [left|]. }
  destruct (all_came (s1 ++ s2)).
  - assert (order = []) as -> by by apply Hall. cbn [map zip zip_with receive_all]. exists s', (acts ++ []). by rewrite app_nil_r.
  - destruct Hr as [-> Wt']. assert (order <> []) as Hno by (intros Eo; by apply Hall in Eo). destruct (IH ms s' (s1 ++ Some m.(at_) :: s2) Wt' Hno Hnd) as (s'' & acts & -> & Hov); [|cbn in Lm; lia|done|done| |by rewrite Egot|by exists s'', acts].
    + intros j. assert (slots !! j = Some None <-> j = i \/ j ∈ order) as Hj by (rewrite <- Hi, elem_of_cons; done). destruct (decide (j = i)) as [->|Hji].
      * split; [done|]. rewrite lookup_app_r by lia. rewrite L1, Nat.sub_diag. done.
      * replace ((s1 ++ Some (at_ m) :: s2) !! j) with (slots !! j); [rewrite Hj; tauto|]. rewrite <- Es. destruct (decide (j < i)%nat) as [?|?]; [by rewrite !lookup_app_l by lia|]. rewrite !lookup_app_r by lia. rewrite L1. destruct (j - i)%nat eqn:?; [lia|done].
    + intros m' Hm' Hin. destruct (Hmf m' Hm') as [Hne' _]. apply (Hms m' ltac:(by right)). rewrite <- Es. apply elem_of_app in Hin. apply elem_of_app. destruct Hin as [?|[[= Heq]|?]%elem_of_cons]; [by left|done|]. right. by right.
Qed.
End receive.

(** C30: a datagram that comes in fragments, each in a packet from the device,
    reaches TCP in one piece.  The fragments come in any order in which the check
    for gaps is right ([on_time]; in order and in reverse order they are), from
    any state whose other unfinished datagrams have other addresses or another
    identification and leave room for this one: no assertion fails, every packet
    but the last one is kept without any output, then TCP is called once with
    the data of all fragments, with the header taken off and the addresses of the
    datagram in the global variables; the entry of the datagram is gone, the
    count of pbufs is as before, nothing that was in memory has changed, and the
    new pbufs are those of the packet that TCP has. *)
Theorem reassembled ip_frag output_err s0 R0 ipr K frs inp nf order ms H d fr : inv s0.(hp) R0 -> others s0.(reass) K -> s0.(reass).(reassdata) !! ipr = None ->
  0 <= s0.(reass).(ip_reass_pbufcount) /\ s0.(reass).(ip_reass_pbufcount) + Z.of_nat (length frs) <= IP_REASS_MAX_PBUFS ->
  s0.(netifs) !! inp = Some nf -> (forall a, a ∈ s0.(netif_list) -> is_Some (s0.(netifs) !! a)) ->
  datagram K frs -> (forall H d, (H, d) ∈ frs -> classify s0 inp nf H (20 + Z.of_nat (length d)) (H ++ d) = Fragment) -> frs = (H, d) :: fr -> proto_of H = IP_PROTO_TCP ->
  order ≡ₚ seq 0 (length frs) -> timely (repeat false (length frs)) order = true ->
  malloc_ok s0.(hp) ms = true -> length ms = length frs -> Forall (fun m => pointer (Some m.(at_))) ms ->
  exists s' acts, receive_all ip_frag output_err inp ipr s0 (zip (map (packet_of frs) order) ms) = Some (s', acts) /\ handed_over s0 s' R0 inp H (concat (map snd frs)) acts.
Proof.
  intros I0 O Hipr Hroom Hn Hnl D Hc E Hp Hord Ht Hm Lm HP. assert (length order = length frs) as Lo by (rewrite Hord; apply length_seq).
  assert (forall i, (repeat (@None addr) (length frs)) !! i = Some None <-> i ∈ seq 0 (length frs)) as Hi. { intros i. rewrite repeat_replicate, lookup_replicate, elem_of_seq. split; [intros [_ ?]; lia|intros ?; split; [done|lia]]. }
  assert (pieces_of frs (repeat None (length frs)) = []) as Ep by (rewrite repeat_replicate; by apply pieces_none, Forall_replicate).
  apply (receive_rest ip_frag output_err s0 R0 ipr K frs D O Hroom I0 Hipr inp nf Hn Hnl H d fr E Hp Hc order ms s0 (repeat None (length frs))); try done.
  - split; rewrite ?Ep; cbn [map app list_to_set_disj]; try done; [by rewrite repeat_length|by replace (R0 ⊎ ∅) with R0 by multiset_solver|constructor|by intros a ?%elem_of_nil].
  - intros ->. rewrite E in Lo. done.
  - rewrite Hord. apply NoDup_seq.
  - intros i. rewrite Hi, Hord. done.
  - by rewrite Lo.
  - intros m Hmin Hin. rewrite repeat_replicate in Hin. apply elem_of_replicate in Hin. by destruct Hin.
  - rewrite map_repeat. done.
Qed.

(** ** Samples *)

(** Three fragments of a datagram of eighteen bytes. *)
Definition fragment_header (id off : Z) (more : bool) (n : nat) : bytes :=
  with_sum ([0x45; 0] ++ be_enc 2 (20 + Z.of_nat n) ++ be_enc 2 id ++ be_enc 2 ((if more then 0x2000 else 0) + off / 8) ++ [64; 6]) addresses.
Definition three : list (bytes * bytes) := [(fragment_header 7 0 true 8, repeat 1 8); (fragment_header 7 8 true 8, repeat 2 8); (fragment_header 7 16 false 2, [3; 3])].

Lemma no_others K : others (MkReassembly ∅ None 0) K.
Proof. exists []. split; [done|]. split; [constructor|]. by intros a x ?%elem_of_nil. Qed.

(** A decidable form of [datagram]. *)
Definition good_fragmentb (K : bytes * bytes * bytes) (st : Z) (more : bool) (H d : bytes) : bool :=
  (length H =? 20)%nat && bool_decide (bytes_ok H) && bool_decide (bytes_ok d) && (0 <? Z.of_nat (length d)) && (Z.of_nat (length d) <=? 1496) && (hlen_of H =? 20) && (total_of H =? 20 + Z.of_nat (length d)) && (offset_of H =? st) && Bool.eqb (more_of H) more && bool_decide (key_of H = K).
Fixpoint fragmentsb (K : bytes * bytes * bytes) (st : Z) (frs : list (bytes * bytes)) : bool :=
  match frs with
  | [] => true
  | (H, d) :: frs => good_fragmentb K st (match frs with [] => false | _ => true end) H d && fragmentsb K (st + Z.of_nat (length d)) frs
  end.

Lemma good_fragmentb_ok K st more H d : good_fragmentb K st more H d = true -> good_fragment K st more H d.
Proof.
  unfold good_fragmentb. rewrite !andb_true_iff, Nat.eqb_eq, Z.ltb_lt, Z.leb_le, !Z.eqb_eq, Bool.eqb_true_iff, !bool_decide_eq_true. intros (((((((((? & ?) & ?) & ?) & ?) & ?) & ?) & ?) & ?) & ?). by split.
Qed.

Lemma fragmentsb_ok K frs : forall st, fragmentsb K st frs = true -> forall fr1 H d fr2, frs = fr1 ++ (H, d) :: fr2 -> good_fragment K (st + bytes_in (map snd fr1)) (match fr2 with [] => false | _ => true end) H d.
Proof.
  induction frs as [|[H0 d0] frs IH]; intros st Hf fr1 H d fr2 E; [by destruct fr1|]. cbn [fragmentsb] in Hf. apply andb_true_iff in Hf. destruct Hf as [Hg Hf]. destruct fr1 as [|x fr1]; cbn [app] in E.
  - injection E as <- <- <-. cbn. rewrite Z.add_0_r. by apply good_fragmentb_ok.
  - injection E as <- E. cbn [map snd]. rewrite bytes_in_cons, Z.add_assoc. by apply IH.
Qed.

Lemma datagramb_ok K frs : (2 <=? length frs)%nat && (20 + bytes_in (map snd frs) <? 65536) && fragmentsb K 0 frs = true -> datagram K frs.
Proof. rewrite !andb_true_iff, Nat.leb_le, Z.ltb_lt. intros [[H2 H3] Hf]. split; [done|done|]. intros fr1 H d fr2 E. exact (fragmentsb_ok K frs 0 Hf fr1 H d fr2 E). Qed.

Definition three_answers : list answer := [MkAnswer 4096 0 []; MkAnswer 8192 0 []; MkAnswer 12288 0 []].

Lemma reassembled_witness : exists s' acts, receive_all no_frag 0 1 500 stack0 (zip (map (packet_of three) [2; 0; 1]%nat) three_answers) = Some (s', acts) /\ handed_over stack0 s' ∅ 1 (fragment_header 7 0 true 8) (repeat 1 8 ++ repeat 2 8 ++ [3; 3]) acts.
Proof.
  refine (reassembled no_frag 0 stack0 ∅ 500 (key_of (fragment_header 7 0 true 8)) three 1 tun [2; 0; 1]%nat three_answers (fragment_header 7 0 true 8) (repeat 1 8) (tail three) empty_inv (no_others _) _ _ _ stack0_netifs (datagramb_ok _ _ _) _ _ _ _ _ _ _ _).
  - reflexivity.
  - cbn. unfold IP_REASS_MAX_PBUFS. lia.
  - reflexivity.
  - vm_compute. reflexivity.
  - intros H d Hin. repeat (apply elem_of_cons in Hin; destruct Hin as [[= -> ->]|Hin]; [vm_compute; reflexivity|]). by apply elem_of_nil in Hin.
  - reflexivity.
  - vm_compute. reflexivity.
  - apply (Permutation_cons_append [0; 1]%nat 2%nat).
  - reflexivity.
  - vm_compute. reflexivity.
  - reflexivity.
  - repeat constructor; cbn; lia.
Defined.

End ReassInput.
