(* ===== verification/Ip4Issues.v ===== *)
(** * IPv4: packets that are not treated as they should be

    What [ip_input] and the ICMP answers do with packets that an application
    can send into the device: one that stops the program, one whose header is
    too short, answers that do not check or say too much, and fragments that
    stop the program or make a datagram with a hole. *)

From stdpp Require Import gmultiset.
From S2P Require Import Prelude Words Checksum LinkedList Pbuf PbufChain PbufData PbufRun PbufDevice Ip4 Icmp Ip4Run Ip4Out IcmpRun IpReass ReassInput.
Open Scope Z_scope.
Import ByteOrder Pbuf PbufChain PbufData PbufRun Ip4 Icmp Ip4Run Ip4Out IcmpRun IpReass.

Module Ip4Issues.

(** The packet is read from the device and given to [ip_input]. *)
Definition receive (data : bytes) (ms ms' : list answer) : option (stack * list ip_action) :=
  LET (h, p) <- PbufDevice.device_pbuf empty_heap data ms in
  LET p <- p in
  ip_input no_frag 0 no_reass (set_hp h stack0) p 1 ms'.

(** What was given to the interface. *)
Definition outputs (r : option (stack * list ip_action)) : list bytes :=
  match r with Some (_, acts) => omap (fun a => match a with Output _ c _ => Some (concat c) | _ => None end) acts | None => [] end.

(** The total length is below the length of the header: the packet is cut to it,
    and the assertion in [pbuf_header] fails when the header is taken off. *)
Definition short_total : bytes := with_sum [0x45; 0; 0; 10; 0; 0; 0; 0; 64; 6] addresses ++ [1; 2; 3; 4].
Lemma short_total_aborts : receive short_total at_4096 at_8192 = None.
Proof. vm_compute. reflexivity. Qed.

(** Every such packet does that. *)
Lemma malformed_aborts ip_frag output_err ip_reass s R data ms h p inp nf ms' : inv s.(hp) R -> bytes_ok data -> 20 <= Z.of_nat (length data) < 65536 -> malloc_ok s.(hp) ms = true ->
  PbufDevice.device_pbuf s.(hp) data ms = Some (h, Some p) -> s.(netifs) !! inp = Some nf -> (forall a, a ∈ s.(netif_list) -> is_Some (s.(netifs) !! a)) -> classify s inp nf (take 20 data) (Z.of_nat (length data)) data = Malformed ->
  ip_input ip_frag output_err ip_reass (set_hp h s) p inp ms' = None.
Proof.
  intros I HB Hl Ha E Hn Hnl Hc. destruct (device_arrived _ _ _ _ _ _ _ _ I HB Hl Ha E Hn) as (x & m & Elen & U & A). pose proof (ip_input_ok ip_frag output_err ip_reass _ _ _ _ _ _ _ _ _ _ ms' A U Hnl) as Hr. by rewrite (device_classify s h inp nf data x.(len) HB ltac:(lia) Elen), Hc in Hr.
Qed.

(** A header of eight bytes, where RFC 791 asks for at least twenty: the checksum
    is that of eight bytes, and TCP gets a packet that begins in the middle of
    the header. *)
Definition small_header : bytes := [0x42; 0; 0; 20] ++ be_enc 2 (Checksum.rfc1071 [0x42; 0; 0; 20]) ++ [0; 0; 64; 6; 0; 0] ++ addresses.
Lemma small_header_accepted : exists s g, receive small_header at_4096 at_8192 = Some (s, [TcpInput 4096 g]) /\ g.(current_ip_header_tot_len) = 8 /\ packet s.(hp) 4096 = drop 8 small_header.
Proof. eexists _, _. split; [vm_compute; reflexivity|]. split; vm_compute; reflexivity. Qed.

(** An echo request with options: the checksum in the header of the answer is
    that of its first twenty bytes, and the header does not check. *)
Lemma echo_options_checksum : exists d, outputs (receive (ping [1; 1; 1; 0] (echo [0; 7; 0; 1])) at_4096 at_8192) = [d] /\ hlen_of (take 20 d) = 24 /\ Checksum.rfc1071 (take 20 d) = 0 /\ Checksum.rfc1071 (take 24 d) <> 0.
Proof. eexists. split; [vm_compute; reflexivity|]. vm_compute. done. Qed.

(** An echo request of zeros: the checksum of the answer is 0 instead of 0xffff,
    and the stack itself would not accept it. *)
Lemma echo_zeros_checksum : exists d, outputs (receive (ping [] (echo [0; 0; 0; 0; 0; 0])) at_4096 at_8192) = [d] /\ Checksum.rfc1071 (drop 20 d) = 0xffff.
Proof. eexists. split; [vm_compute; reflexivity|]. vm_compute. done. Qed.

(** A packet of an unknown protocol with nothing behind the header: the answer
    quotes eight bytes that are not of the packet but were in the memory before. *)
Lemma unreachable_leaks : exists d, outputs (receive (with_sum [0x45; 0; 0; 20; 0; 0; 0; 0; 64; 17] addresses) [MkAnswer 4096 0 (repeat 83 100)] at_8192) = [d] /\ drop 48 d = repeat 83 8.
Proof. eexists. split; [vm_compute; reflexivity|]. vm_compute. done. Qed.

(** ** Fragments *)

(** Packets that are read one after the other, with memory for each. *)
Fixpoint receive_each (s : stack) (k : Z) (l : list bytes) : option (stack * list ip_action) :=
  match l with
  | [] => Some (s, [])
  | data :: l =>
      LET (s, acts) <- ReassInput.receive no_frag 0 1 (8192 * k + 4096) s data (MkAnswer (8192 * k) 0 []) in
      LET (s, acts') <- receive_each s (k + 1) l in
      Some (s, acts ++ acts')
  end.

Definition fragment_packet (id off : Z) (more : bool) (data : bytes) : bytes := ReassInput.fragment_header id off more (length data) ++ data.

(** The bytes from 8 to 16 are missing: the fragment behind the gap comes last,
    the gap in front of it is not looked for, and TCP gets a packet that has the
    other 24 bytes in a row. *)
Definition with_hole : list bytes := [fragment_packet 7 0 true (repeat 1 8); fragment_packet 7 24 false (repeat 4 8); fragment_packet 7 16 true (repeat 3 8)].
Lemma hole_accepted : exists s p g, receive_each stack0 1 with_hole = Some (s, [TcpInput p g]) /\ packet s.(hp) p = repeat 1 8 ++ repeat 3 8 ++ repeat 4 8.
Proof. eexists _, _, _. split; [vm_compute; reflexivity|]. vm_compute. reflexivity. Qed.

(** A last fragment that overlaps is thrown away, but its end stays the end of the
    datagram: with the next fragment the assertion on it fails. *)
Definition overlapping : list bytes := [fragment_packet 7 0 true (repeat 1 16); fragment_packet 7 8 false (repeat 4 8); fragment_packet 7 16 true (repeat 3 8)].
Lemma overlap_aborts : receive_each stack0 1 (take 2 overlapping) <> None /\ receive_each stack0 1 overlapping = None.
Proof. split; vm_compute; done. Qed.

(** There are fragments of two datagrams, and those of the older one fill the ten
    places: the other one is to be removed, but the loop that looks for it hands
    over itself as the one before it, and the assertion on that fails. *)
Definition eleven : list bytes := [fragment_packet 7 0 true (repeat 1 8); fragment_packet 8 0 true (repeat 2 8)] ++ map (fun k => fragment_packet 7 (8 * Z.of_nat k) true (repeat 1 8)) (seq 1 9).
Lemma remove_oldest_aborts : receive_each stack0 1 (take 10 eleven) <> None /\ receive_each stack0 1 eleven = None.
Proof. split; vm_compute; done. Qed.

End Ip4Issues.
