(* ===== verification/Tap.v ===== *)
(** * The TUN device

    Models [tuntap/BTap.c] as it is built for Linux: opening the device, the
    packets that are read from it through a [PacketRecvInterface], and closing
    it.  The descriptor is one of the reactor of [Reactor.v]; the receiver's
    buffer, which the data pointer points into, is part of the state.  The
    answers of the system calls are arguments.  [None] as a result is a failed
    [ASSERT], or an access outside an array.

    The theorems: everything acquired is given back, on each error path too;
    and the receiver gets the packets that were read, whole and in order. *)

From S2P Require Import Prelude.
From S2P Require Import LinkedList.
From S2P Require Import Reactor.
From S2P Require Import ReactorFrame.
From S2P Require Import Flow.
From S2P Require Import Sockets.
From S2P Require Import Device.
Import Reactor Frame Flow.

Module Tap.

Definition INT_MIN : Z := - (2 ^ 31).
Definition IFNAMSIZ : nat := 16.
Definition IFF_TUN : Z := 1.
Definition IFF_TAP : Z := 2.
Definition IFF_NO_PI : Z := 0x1000.
Definition BTAP_ETHERNET_HEADER_LENGTH : Z := 14.

Inductive BTap_dev_type := BTAP_DEV_TUN | BTAP_DEV_TAP.
#[export] Instance dev_type_eq_dec : EqDecision BTap_dev_type.
Proof. solve_decision. Defined.

Inductive BTap_init := BTAP_INIT_STRING (string : option bytes) | BTAP_INIT_FD (fd mtu : Z).

Record BTap := MkTap { frame_mtu : Z; output : flow_interface; output_packet : option Z; close_fd : bool; tap_fd : Z; bfd : addr; poll_events : Z;
  devname : bytes; d_err : bool; mem : bytes }.

Definition set_output i o := MkTap o.(frame_mtu) i o.(output_packet) o.(close_fd) o.(tap_fd) o.(bfd) o.(poll_events) o.(devname) o.(d_err) o.(mem).
Definition set_packet p o := MkTap o.(frame_mtu) o.(output) p o.(close_fd) o.(tap_fd) o.(bfd) o.(poll_events) o.(devname) o.(d_err) o.(mem).
Definition set_poll e o := MkTap o.(frame_mtu) o.(output) o.(output_packet) o.(close_fd) o.(tap_fd) o.(bfd) e o.(devname) o.(d_err) o.(mem).
Definition set_err b o := MkTap o.(frame_mtu) o.(output) o.(output_packet) o.(close_fd) o.(tap_fd) o.(bfd) o.(poll_events) o.(devname) b o.(mem).
Definition set_mem m o := MkTap o.(frame_mtu) o.(output) o.(output_packet) o.(close_fd) o.(tap_fd) o.(bfd) o.(poll_events) o.(devname) o.(d_err) m.

(** [Read]: from the device; [Delivered]: what the receiver is told;
    [Written]: handed to [write]; [Failed]: the error handler is called. *)
Inductive action := Read (d : bytes) | Delivered (d : bytes) | Written (d : bytes) | Failed.

(** What [read] returns: a packet, which may be empty, or an error. *)
Inductive read_result := RPacket (d : bytes) | RAgain | RError.

Abbreviation outcome := (option (BReactor * BTap * list action)).

(** ** Receiving *)

Definition report_error (r : BReactor) (o : BTap) : outcome :=
  ASSERT negb o.(d_err) in Some (r, set_err true o, [Failed]).

(** The packet [d] is in the receiver's buffer at [p]. *)
Definition finish_read (r : BReactor) (o : BTap) (p : Z) (d : bytes) : outcome :=
  ASSERT Z.of_nat (length d) <=? o.(frame_mtu) in
  LET m <- store (Z.to_nat p) d o.(mem) in
  LET i <- PacketRecvInterface_Done o.(output) (Z.of_nat (length d)) in
  Some (r, set_output i (set_mem m o), [Read d]).

Definition fd_handler (r : BReactor) (o : BTap) (events : Z) (x : read_result) : outcome :=
  ASSERT negb o.(d_err) in
  let r := if has events (Z.lor BREACTOR_ERROR BREACTOR_HUP) then BReactor_Quit r 2 else r in
  if has events BREACTOR_READ then
    LET p <- o.(output_packet) in
    match x with
    | RPacket [] | RAgain => Some (r, o, [])
    | RError => report_error r o
    | RPacket d =>
        let o := set_poll (Z.land o.(poll_events) (Z.lnot BREACTOR_READ)) (set_packet None o) in
        LET r <- BReactor_SetFileDescriptorEvents r o.(bfd) o.(poll_events) true in
        finish_read r o p d
    end
  else Some (r, o, []).

Definition output_handler_recv (r : BReactor) (o : BTap) (data : option Z) (x : read_result) : outcome :=
  ASSERT negb o.(d_err) in
  LET p <- data in
  ASSERT bool_decide (o.(output_packet) = None) in
  match x with
  | RPacket [] | RAgain =>
      let o := set_poll (Z.lor o.(poll_events) BREACTOR_READ) (set_packet (Some p) o) in
      LET r <- BReactor_SetFileDescriptorEvents r o.(bfd) o.(poll_events) true in
      Some (r, o, [])
  | RError => report_error r o
  | RPacket d => finish_read r o p d
  end.

(** ** Opening and closing *)

(** What the system answers: the descriptors of [open] and [socket], the name
    that [TUNSETIFF] gives the device for a name and flags, the MTU of a device,
    and whether [fcntl] and [epoll_ctl] succeed. *)
Record tap_system := MkSystem { sys_open : Z; sys_tunsetiff : bytes -> Z -> option bytes; sys_socket : Z; sys_getmtu : bytes -> option Z; sys_nonblock : bool; sys_epoll : bool }.

(** [strcpy] from one array into another. *)
Definition strcpy (dst src : bytes) : option bytes :=
  ASSERT bool_decide (0 ∈ src) in store 0 (cstr src ++ [0]) dst.

Definition zeros : bytes := repeat 0 IFNAMSIZ.

(** [snprintf(ifr_name, IFNAMSIZ, "%s", s)] on zeroed bytes. *)
Definition print_name (s : bytes) : option bytes := store 0 (take (IFNAMSIZ - 1) s ++ [0]) zeros.

Definition ifr_flags (dev_type : BTap_dev_type) : Z := Z.lor IFF_NO_PI (if bool_decide (dev_type = BTAP_DEV_TUN) then IFF_TUN else IFF_TAP).

(** What the branches for a name end with: [fail0], [fail1], or the MTU and the
    name. *)
Inductive configured := Fail0 | Fail1 (tr : list Sockets.action) | Configured (mtu : Z) (name : bytes) (tr : list Sockets.action).

(** The case [BTAP_INIT_STRING]; [old] is what [devname] holds before, and the
    local [devname_real] starts with [junk]. *)
Definition configure (sys : tap_system) (dev_type : BTap_dev_type) (string : option bytes) (old junk : bytes) : option configured :=
  if sys.(sys_open) <? 0 then Some Fail0
  else
    let tr := [Sockets.Acquire Sockets.RFd] in
    LET name <- match string with Some s => print_name s | None => Some zeros end in
    match sys.(sys_tunsetiff) name (ifr_flags dev_type) with
    | None => Some (Fail1 tr)
    | Some real =>
        LET devname_real <- strcpy junk real in
        if sys.(sys_socket) <? 0 then Some (Fail1 tr)
        else
          let tr := tr ++ [Sockets.Acquire Sockets.RFd] in
          LET ifr_name <- strcpy zeros devname_real in
          LET devname <- strcpy old devname_real in
          match sys.(sys_getmtu) ifr_name with
          | None => Some (Fail1 (tr ++ [Sockets.Release Sockets.RFd]))
          | Some m =>
              let mtu := if bool_decide (dev_type = BTAP_DEV_TUN) then m else m + BTAP_ETHERNET_HEADER_LENGTH in
              ASSERT (INT_MIN <=? mtu) && (mtu <=? INT_MAX) in
              Some (Configured mtu devname (tr ++ [Sockets.Release Sockets.RFd]))
          end
    end.

(** From [fcntl] on. *)
Definition open_device (r : BReactor) (sys : tap_system) (close_it : bool) (n mtu : Z) (name : bytes) (a : addr) (tr : list Sockets.action)
  : option (BReactor * option BTap * list Sockets.action) :=
  let fail1 := tr ++ (if close_it then [Sockets.Release Sockets.RFd] else []) in
  if negb sys.(sys_nonblock) then Some (r, None, fail1)
  else
    let r := BFileDescriptor_Init r a n in
    LET (r, ok) <- BReactor_AddFileDescriptor r a sys.(sys_epoll) in
    if negb ok then Some (r, None, fail1)
    else
      LET i <- PacketRecvInterface_Init mtu in
      Some (r, Some (MkTap mtu i None close_it n a 0 name false []), tr).

(** [a] is the place of [bfd]. *)
Definition BTap_Init2 (r : BReactor) (sys : tap_system) (dev_type : BTap_dev_type) (init : BTap_init) (a : addr) (old junk : bytes)
  : option (BReactor * option BTap * list Sockets.action) :=
  match init with
  | BTAP_INIT_FD n mtu =>
      ASSERT 0 <=? n in
      ASSERT 0 <=? mtu in
      ASSERT negb (bool_decide (dev_type = BTAP_DEV_TAP)) || (BTAP_ETHERNET_HEADER_LENGTH <=? mtu) in
      open_device r sys false n mtu old a []
  | BTAP_INIT_STRING string =>
      LET c <- configure sys dev_type string old junk in
      match c with
      | Fail0 => Some (r, None, [])
      | Fail1 tr => Some (r, None, tr ++ [Sockets.Release Sockets.RFd])
      | Configured mtu name tr => open_device r sys true sys.(sys_open) mtu name a tr
      end
  end.

Definition BTap_Init (r : BReactor) (sys : tap_system) (devname : option bytes) (tun : bool) (a : addr) (old junk : bytes) :=
  BTap_Init2 r sys (if tun then BTAP_DEV_TUN else BTAP_DEV_TAP) (BTAP_INIT_STRING devname) a old junk.

Definition BTap_Free (r : BReactor) (o : BTap) : option (BReactor * list Sockets.action) :=
  LET r <- BReactor_RemoveFileDescriptor r o.(bfd) true in
  Some (r, if o.(close_fd) then [Sockets.Release Sockets.RFd] else []).

Definition BTap_GetMTU (o : BTap) : Z := o.(frame_mtu).

Definition BTap_Send (o : BTap) (data : bytes) : option bytes :=
  ASSERT negb o.(d_err) in Device.BTap_Send o.(frame_mtu) data.

Definition BTap_GetOutput (o : BTap) : flow_interface := o.(output).

(** ** The parties around it *)

Inductive event := RUser | RRecv (m : bytes) | RJobOperation (x : read_result) | RJobDone | Send (d : bytes)
  | Call (c : rcall) | Turn (now : Z) (answers : list answer) (x : read_result).

(** [read] returns no more than it was asked for. *)
Definition read_ok (n : Z) (x : read_result) : bool := match x with RPacket d => Z.of_nat (length d) <=? n | _ => true end.

Definition quiet (i : flow_interface) : bool := negb i.(job_operation) && negb i.(job_done).

(** The receiver's buffer holds a packet of the largest size; the reactor's
    rounds run jobs first and end when [BReactor_Quit] was called.  After an
    error the device may only be freed; the rest of the program goes on. *)
Definition legal (s : BReactor * BTap) (ev : event) : bool :=
  let '(r, o) := s in
  match ev with Call _ => true | _ => negb o.(d_err) end &&
  match ev with
  | RUser => negb o.(output).(handler_done)
  | RRecv m => is_state STATE_NONE o.(output) && o.(output).(handler_done) && (o.(frame_mtu) <=? Z.of_nat (length m))
  | RJobOperation x => o.(output).(job_operation) && read_ok o.(frame_mtu) x
  | RJobDone => o.(output).(job_done)
  | Send d => Z.of_nat (length d) <=? o.(frame_mtu)
  | Call c => legal_call r c && negb (about_fd o.(bfd) c)
  | Turn now answers x => negb r.(exiting) && legal_round r now answers && quiet o.(output) && read_ok o.(frame_mtu) x
  end.

Definition step (s : BReactor * BTap) (ev : event) : option (BReactor * BTap * list action) :=
  let '(r, o) := s in
  match ev with
  | RUser => LET i <- PacketRecvInterface_Receiver_Init o.(output) in Some (r, set_output i o, [])
  | RRecv m => LET i <- PacketRecvInterface_Receiver_Recv o.(output) (Some 0) in Some (r, set_mem m (set_output i o), [])
  | RJobOperation x => LET (i, p) <- _PacketRecvInterface_job_operation o.(output) in output_handler_recv r (set_output i o) p x
  | RJobDone =>
      LET (i, n) <- _PacketRecvInterface_job_done o.(output) in
      Some (r, set_output i o, [Delivered (take (Z.to_nat n) o.(mem))])
  | Send d => LET d <- BTap_Send o d in Some (r, o, [Written d])
  | Call c => LET r <- call_step r c in Some (r, o, [])
  | Turn now answers x =>
      LET res <- exec_round r now answers in
      match fd_event o.(bfd) (Some res) with
      | Some ev => fd_handler (after_round res) o ev x
      | None => Some (after_round res, o, [])
      end
  end.

Definition packets_read (h : list action) : list bytes := omap (fun x => match x with Read d => Some d | _ => None end) h.
Definition packets_delivered (h : list action) : list bytes := omap (fun x => match x with Delivered d => Some d | _ => None end) h.

(** How often the error handler was called. *)
Definition reports (h : list action) : nat := length (List.filter (fun x => match x with Failed => true | _ => false end) h).

(** The packet that was read and is delivered next. *)
Definition on_its_way (o : BTap) : list bytes :=
  if is_state STATE_DONE_PENDING o.(output) then [take (Z.to_nat o.(output).(job_done_len)) o.(mem)] else [].

(** ** The invariant *)

(** A receive that was started is waited for; the flag says whether the device
    still works. *)
Definition receiving (o : BTap) : Prop :=
  match o.(output).(state) with
  | STATE_BUSY => o.(d_err) = false -> o.(output_packet) = Some 0 /\ o.(poll_events) = BREACTOR_READ /\ o.(frame_mtu) <= Z.of_nat (length o.(mem))
  | STATE_OPERATION_PENDING =>
      o.(output_packet) = None /\ o.(poll_events) = 0 /\ o.(output).(job_operation_data) = Some 0 /\ o.(frame_mtu) <= Z.of_nat (length o.(mem))
  | _ => o.(output_packet) = None /\ o.(poll_events) = 0
  end.

(** What holds in every state. *)
Record base (s : BReactor * BTap) (hist : list action) : Prop := {
  b_inv : inv s.1;
  b_flow : flow_ok PacketRecv s.2.(output);
  b_mtu : s.2.(output).(mtu) = s.2.(frame_mtu) /\ 0 <= s.2.(frame_mtu);
  b_poll : s.2.(poll_events) = 0 \/ s.2.(poll_events) = BREACTOR_READ;
  b_fd : watches s.1 s.2.(bfd) s.2.(poll_events);
  b_packets : packets_read hist = packets_delivered hist ++ on_its_way s.2;
  b_sizes : Forall (fun d => 0 < Z.of_nat (length d) <= s.2.(frame_mtu)) (packets_read hist);
  b_reports : reports hist = if s.2.(d_err) then 1%nat else 0%nat;
}.

Definition I (s : BReactor * BTap) (hist : list action) : Prop := base s hist /\ receiving s.2.

Lemma packets_app x y : packets_read (x ++ y) = packets_read x ++ packets_read y /\ packets_delivered (x ++ y) = packets_delivered x ++ packets_delivered y.
Proof. unfold packets_read, packets_delivered. by rewrite !omap_app. Qed.
Lemma failures_app x y : reports (x ++ y) = (reports x + reports y)%nat.
Proof. unfold reports. by rewrite List.filter_app, length_app. Qed.

(** Steps that neither read nor deliver. *)
Lemma base_quiet s hist r o acts : base s hist -> packets_read acts = [] -> packets_delivered acts = [] -> on_its_way o = on_its_way s.2 ->
  o.(frame_mtu) = s.2.(frame_mtu) -> o.(output).(mtu) = s.2.(output).(mtu) -> flow_ok PacketRecv o.(output) -> inv r ->
  o.(poll_events) = 0 \/ o.(poll_events) = BREACTOR_READ -> watches r o.(bfd) o.(poll_events) ->
  (reports acts + (if s.2.(d_err) then 1 else 0))%nat = (if o.(d_err) then 1 else 0)%nat -> base (r, o) (hist ++ acts).
Proof.
  intros [_ _ Hm _ _ Hp Hs Hn] R D W M M' F Hi He Hw Hr. destruct (packets_app hist acts) as [Er Ed].
  split; cbn; rewrite ?Er, ?Ed, ?R, ?D, ?app_nil_r, ?W, ?M, ?M', ?failures_app; try done. rewrite Hn. lia.
Qed.

(** A packet is stored while a receive is in progress. *)
Lemma finish_read_ok r o b d hist : base (r, o) hist -> o.(poll_events) = 0 -> o.(output_packet) = None -> o.(output).(state) = STATE_BUSY ->
  o.(frame_mtu) <= Z.of_nat (length o.(mem)) -> read_ok o.(frame_mtu) (RPacket (b :: d)) = true ->
  exists s' acts, finish_read r o 0 (b :: d) = Some (s', acts) /\ I s' (hist ++ acts).
Proof.
  intros [Hi Hf [Hm Hm0] _ Hw Hk Hz Hn] Hp Ho Hs Hl Hd. cbn [fst snd] in *. unfold finish_read. unfold read_ok in Hd. rewrite Hd. apply Z.leb_le in Hd.
  destruct (store_total (Z.to_nat 0) (b :: d) o.(mem)) as [m Em]; [lia|]. rewrite Em.
  destruct (recv_finish o.(output) (Z.of_nat (length (b :: d))) Hf Hs) as (i & -> & F' & S' & M' & _ & _ & N'); [lia|]. eexists _, _. split; [done|].
  unfold on_its_way, is_state in Hk. rewrite Hs, app_nil_r in Hk. destruct (packets_app hist [Read (b :: d)]) as [Er Ed].
  split; [|unfold receiving; cbn -[length]; by rewrite S']. split; cbn -[length]; rewrite ?M', ?Er, ?Ed; try done.
  - by left.
  - unfold on_its_way, is_state. cbn -[length]. rewrite S', N', Nat2Z.id, app_nil_r, Hk. cbn -[length]. f_equal. f_equal. symmetry. exact (store_prefix _ _ _ _ Em).
  - apply Forall_app. split; [done|]. apply Forall_singleton. cbn [length] in *. lia.
  - rewrite failures_app, Hn. by apply Nat.add_0_r.
Qed.

Lemma report_error_ok r o hist : base (r, o) hist -> o.(d_err) = false -> o.(output).(state) = STATE_BUSY ->
  exists s' acts, report_error r o = Some (s', acts) /\ I s' (hist ++ acts).
Proof.
  intros B He Hs. unfold report_error. rewrite He. eexists _, _. split; [done|]. split; [|unfold receiving; cbn; by rewrite Hs].
  pose proof B as [? ? ? ? ? ? ? ?]. eapply base_quiet; try done. cbn [snd]. by rewrite He.
Qed.

Lemma tap_operation_step r o hist x : I (r, o) hist -> legal (r, o) (RJobOperation x) = true ->
  exists s' acts, step (r, o) (RJobOperation x) = Some (s', acts) /\ I s' (hist ++ acts).
Proof.
  intros [B R] Hl. pose proof B as [Hi Hf Hm _ Hw Hk _ _]. cbn [legal step fst snd] in *. rewrite !andb_true_iff, negb_true_iff in Hl. destruct Hl as (He & Hj & Hx).
  pose proof (proj1 (job_of_state _ _ Hf) Hj) as Ho. unfold receiving in R. rewrite Ho in R. destruct R as (Rp & Re & Rd & Rm).
  unfold _PacketRecvInterface_job_operation, output_handler_recv. rewrite (proj2 (is_state_true _ _) Ho), Rd. cbn [d_err set_output output_packet]. rewrite He, Rp. cbn [negb].
  rewrite bool_decide_eq_true_2 by done. set (o1 := set_output _ o). assert (base (r, o1) hist) as B1.
  { rewrite <- (app_nil_r hist). eapply base_quiet; try done; [unfold on_its_way, is_state; cbn; by rewrite Ho|by apply run_operation_flow|by left]. }
  assert (exists s' acts, (let o2 := set_poll (Z.lor o1.(poll_events) BREACTOR_READ) (set_packet (Some 0) o1) in
    LET r <- BReactor_SetFileDescriptorEvents r o2.(bfd) o2.(poll_events) true in Some (r, o2, [])) = Some (s', acts) /\ I s' (hist ++ acts)) as Again.
  { cbn [bfd poll_events set_poll set_packet o1 set_output]. rewrite Re. change (Z.lor 0 BREACTOR_READ) with BREACTOR_READ. destruct (fd_waits r o.(bfd) _ BREACTOR_READ Hi Hw) as (r' & -> & I' & W' & _); [done|].
    eexists _, _. split; [done|]. split; [|by unfold receiving]. eapply base_quiet; try done; [by destruct B1|by right]. }
  destruct x as [[|b d]| |]; [exact Again|by apply finish_read_ok|exact Again|by apply report_error_ok].
Qed.

Lemma tap_fd_step r o hist ev x : I (r, o) hist -> o.(d_err) = false -> (has ev BREACTOR_READ = true -> has o.(poll_events) BREACTOR_READ = true) ->
  read_ok o.(frame_mtu) x = true -> exists s' acts, fd_handler r o ev x = Some (s', acts) /\ I s' (hist ++ acts).
Proof.
  intros [B R] He Hr Hx. cbn [snd] in R. unfold fd_handler. rewrite He. cbn [negb]. set (r1 := if has ev (Z.lor _ _) then _ else r).
  assert (base (r1, o) hist) as B1. { rewrite <- (app_nil_r hist). pose proof B as [Hi ? ? ? ? ? ? ?]. unfold r1. destruct (has ev (Z.lor _ _)); [|by eapply base_quiet].
    destruct (call_ok r (RQuit 2) Hi eq_refl) as (rq & [= <-] & Hq). by eapply base_quiet. }
  destruct (has ev BREACTOR_READ); [|eexists _, _; split; [done|]; by rewrite app_nil_r]. specialize (Hr eq_refl).
  assert (o.(output).(state) = STATE_BUSY) as Hs. { unfold receiving in R. destruct (state (output o)); [destruct R as [_ E]|destruct R as (_ & E & _)|done|destruct R as [_ E]]; by rewrite E in Hr. }
  unfold receiving in R. rewrite Hs in R. destruct (R He) as (Rp & Re & Rm). rewrite Rp.
  assert (I (r1, o) hist) as Same by (split; [done|]; unfold receiving; cbn; by rewrite Hs).
  destruct x as [[|b d]| |]; [by eexists _, _; rewrite app_nil_r| |by eexists _, _; rewrite app_nil_r|by apply report_error_ok].
  cbn [bfd poll_events set_poll set_packet]. rewrite Re. pose proof B1 as [Hi Hf Hm _ Hw Hk _ _]. cbn [fst snd] in *.
  destruct (fd_waits r1 o.(bfd) _ (Z.land BREACTOR_READ (Z.lnot BREACTOR_READ)) Hi Hw) as (r' & -> & I' & W' & _); [done|].
  apply finish_read_ok; try done. rewrite <- (app_nil_r hist). eapply base_quiet; try done. by left.
Qed.

Lemma tap_step_ok s hist ev : I s hist -> legal s ev = true -> exists s' acts, step s ev = Some (s', acts) /\ I s' (hist ++ acts).
Proof.
  destruct s as [r o]. intros HI Hl. pose proof HI as [B R]. pose proof B as [Hi Hf Hm Hp Hw Hk Hz Hnr]. destruct ev; try (by apply tap_operation_step); cbn [legal step fst snd] in *;
    apply andb_true_iff in Hl as [He Hl]; try apply negb_true_iff in He.
  - unfold PacketRecvInterface_Receiver_Init. rewrite Hl. eexists _, _. split; [done|]. split; [|done].
    by eapply base_quiet; try done; destruct Hf.
  - rewrite !andb_true_iff, is_state_true, Z.leb_le in Hl. destruct Hl as ((Hn & Hh) & Hlen).
    destruct (recv_start o.(output) (Some 0) Hf Hn Hh) as (i & -> & F' & S' & M' & _ & D'); [done|]. eexists _, _. split; [done|].
    unfold receiving in R. rewrite Hn in R. split; [|unfold receiving; cbn; rewrite S'; by destruct R].
    eapply base_quiet; try done. unfold on_its_way, is_state. cbn. by rewrite S', Hn.
  - pose proof (proj2 (job_of_state _ _ Hf) Hl) as Hd. unfold _PacketRecvInterface_job_done. rewrite (proj2 (is_state_true _ _) Hd). eexists _, _. split; [done|].
    unfold receiving in R. rewrite Hd in R. split; [|done]. set (d := take _ _). destruct (packets_app hist [Delivered d]) as [Er Ed].
    split; cbn; rewrite ?Er, ?Ed, ?app_nil_r; try done; [by apply run_done_flow| |by rewrite failures_app, Hnr, He].
    rewrite Hk. unfold on_its_way, is_state. rewrite Hd. cbn. done.
  - unfold BTap_Send, Device.BTap_Send. rewrite He, Hl, (proj2 (Z.leb_le _ _)) by lia. eexists _, _. split; [done|]. split; [|done]. by eapply base_quiet.
  - apply andb_true_iff in Hl as [Hc Ha]. apply negb_true_iff in Ha. destruct (call_ok r c Hi Hc) as (r' & E & I'). rewrite E. destruct (call_registers r c r' E) as [K1 _].
    eexists _, _. split; [done|]. split; [|done]. eapply base_quiet; try done. unfold watches. by rewrite K1.
  - rewrite !andb_true_iff in Hl. destruct Hl as (((_ & Hr) & _) & Hx). destruct (fd_round r o.(bfd) _ now answers Hi Hr Hw) as (res & -> & I' & _ & W' & Hev).
    assert (I (after_round res, o) hist) as HI'. { split; [|done]. rewrite <- (app_nil_r hist). by eapply base_quiet. }
    destruct (fd_event _ _) as [ev|]; [|eexists _, _; split; [done|]; by rewrite app_nil_r]. destruct Hev as [Hev _]. by apply tap_fd_step.
Qed.

(** The descriptor and its place never change. *)
Lemma tap_step_places s ev s' acts : step s ev = Some (s', acts) -> s'.2.(bfd) = s.2.(bfd) /\ s'.2.(close_fd) = s.2.(close_fd).
Proof.
  destruct s as [r o]. destruct ev; cbn [step];
    unfold output_handler_recv, fd_handler, finish_read, report_error; intros E; repeat case_match; by simplify_eq.
Qed.

(** ** Opening *)

(** What the system is known to answer: names are terminated and have their
    size, and an MTU is not negative and leaves room for a header. *)
Definition system_ok (sys : tap_system) : Prop :=
  (forall name flags real, sys.(sys_tunsetiff) name flags = Some real -> length real = IFNAMSIZ /\ 0 ∈ real) /\
  (forall name m, sys.(sys_getmtu) name = Some m -> 0 <= m <= INT_MAX - BTAP_ETHERNET_HEADER_LENGTH).

Definition init_ok (dev_type : BTap_dev_type) (init : BTap_init) : Prop :=
  match init with BTAP_INIT_STRING _ => True | BTAP_INIT_FD n mtu => 0 <= n /\ (if bool_decide (dev_type = BTAP_DEV_TAP) then BTAP_ETHERNET_HEADER_LENGTH else 0) <= mtu end.

Lemma cstr_nul (l : bytes) : 0 ∈ l -> exists r, l = cstr l ++ 0 :: r /\ Forall (fun b => b <> 0) (cstr l).
Proof.
  induction l as [|b l IH]; intros H; [by apply not_elem_of_nil in H|]. cbn [cstr]. destruct (Z.eqb_spec b 0) as [->|Hb]; [by exists l|].
  apply elem_of_cons in H as [?|H]; [done|]. destruct (IH H) as (r & E & F). exists r. split; [cbn; by f_equal|by constructor].
Qed.

(** A terminated name fits an array of its size, and stays the same string. *)
Lemma strcpy_ok dst src : length src = IFNAMSIZ -> length dst = IFNAMSIZ -> 0 ∈ src ->
  exists out, strcpy dst src = Some out /\ length out = IFNAMSIZ /\ 0 ∈ out /\ cstr out = cstr src.
Proof.
  intros Hs Hd H0. destruct (cstr_nul src H0) as (rest & E & F). unfold strcpy. rewrite bool_decide_eq_true_2 by done.
  assert ((length (cstr src ++ [0%Z]) <= length src)%nat) as Hl. { rewrite E at 2. rewrite !length_app. cbn. lia. }
  destruct (store_total 0 (cstr src ++ [0]) dst) as [out Eo]; [lia|]. exists out. split; [done|]. split; [by rewrite (store_length _ _ _ _ Eo)|].
  assert (out = cstr src ++ 0 :: drop (length (cstr src ++ [0])) out) as Ho.
  { rewrite <- (take_drop (length (cstr src ++ [0])) out) at 1. pose proof (store_prefix _ _ _ _ Eo) as Ht. rewrite take_0 in Ht. cbn [Nat.add app] in Ht. by rewrite Ht, <- app_assoc. }
  rewrite Ho. split; [set_solver|]. by apply cstr_app_nul.
Qed.

Lemma print_name_ok s : exists out, print_name s = Some out /\ length out = IFNAMSIZ /\ out = take 15 s ++ repeat 0 (16 - length (take 15 s)).
Proof.
  assert (length (take 15 s) <= 15)%nat as Hl by (rewrite length_take; lia). unfold print_name.
  destruct (store_total 0 (take (IFNAMSIZ - 1) s ++ [0]) zeros) as [out E]; [rewrite length_app; unfold IFNAMSIZ in *; cbn -[take] in *; lia|].
  exists out. split; [done|]. split; [rewrite (store_length _ _ _ _ E); by apply repeat_length|]. unfold store in E. case_match; [|done]. injection E as <-.
  change (IFNAMSIZ - 1)%nat with 15%nat in *. clear H. generalize dependent (take 15 s). intros t Ht. cbn [Nat.add take app]. rewrite <- app_assoc. f_equal. cbn [app].
  rewrite length_app. cbn [length]. do 16 (destruct t as [|? t]; [done|]). cbn in Ht. lia.
Qed.

(** What comes out of opening a device by its name: the kernel's name for what
    was asked for, cut to the size of a name, and the MTU of that device. *)
Definition configured_as (sys : tap_system) (dev_type : BTap_dev_type) (string : option bytes) (mtu : Z) (name : bytes) : Prop :=
  exists asked real q m, asked = match string with Some s => take 15 s ++ repeat 0 (16 - length (take 15 s)) | None => zeros end /\
    sys.(sys_tunsetiff) asked (ifr_flags dev_type) = Some real /\ cstr name = cstr real /\ cstr q = cstr real /\ sys.(sys_getmtu) q = Some m /\
    mtu = m + (if bool_decide (dev_type = BTAP_DEV_TUN) then 0 else BTAP_ETHERNET_HEADER_LENGTH).

Lemma device_configured_ok sys dev_type string old junk : system_ok sys -> length old = IFNAMSIZ -> length junk = IFNAMSIZ ->
  exists c, configure sys dev_type string old junk = Some c /\
    match c with
    | Fail0 => True
    | Fail1 tr => Sockets.holding [] tr = Some [Sockets.RFd]
    | Configured mtu name tr => Sockets.holding [] tr = Some [Sockets.RFd] /\ 0 <= mtu /\ configured_as sys dev_type string mtu name
    end.
Proof.
  intros [Sn Sm] Ho Hj. unfold configure. destruct (sys_open sys <? 0); [by eexists|].
  assert (exists asked, match string with Some s => print_name s | None => Some zeros end = Some asked /\
    asked = match string with Some s => take 15 s ++ repeat 0 (16 - length (take 15 s)) | None => zeros end) as (asked & -> & Ea).
  { destruct string as [s0|]; [|by eexists]. destruct (print_name_ok s0) as (out & -> & _ & ->). by eexists. }
  destruct (sys_tunsetiff sys asked _) as [real|] eqn:Er; [|by eexists]. destruct (Sn _ _ _ Er) as [Rl R0].
  destruct (strcpy_ok junk real Rl Hj R0) as (dr & -> & Dl & D0 & Dc). destruct (sys_socket sys <? 0); [by eexists|].
  destruct (strcpy_ok zeros dr Dl eq_refl D0) as (q & -> & _ & _ & Qc). destruct (strcpy_ok old dr Dl Ho D0) as (dn & -> & _ & _ & Nc).
  destruct (sys_getmtu sys q) as [m|] eqn:Em; [|by eexists]. pose proof (Sm _ _ Em) as Hm. unfold INT_MIN, INT_MAX, BTAP_ETHERNET_HEADER_LENGTH in *.
  set (mtu := if bool_decide _ then m else _). assert (mtu = m + (if bool_decide (dev_type = BTAP_DEV_TUN) then 0 else 14)) as Emtu by (unfold mtu; destruct (bool_decide _); lia).
  assert (0 <= mtu <= 2 ^ 31 - 1) as Hr by (rewrite Emtu; destruct (bool_decide _); lia).
  rewrite !(proj2 (Z.leb_le _ _)) by lia. cbn [andb]. eexists. split; [done|]. split; [done|]. split; [lia|].
  exists asked, real, q, m. by rewrite Nc, Qc, Dc.
Qed.

Section life.
Context (r : BReactor) (sys : tap_system) (dev_type : BTap_dev_type) (init : BTap_init) (a : addr) (old junk : bytes).
Context (Hinv : inv r) (Ha : is_active (r.(fds) !! a) = false) (Hsys : system_ok sys) (Hinit : init_ok dev_type init).
Context (Hold : length old = IFNAMSIZ) (Hjunk : length junk = IFNAMSIZ).

(** The result of opening. *)
Definition opened (r0 : BReactor) (ot : option BTap) (tr : list Sockets.action) : Prop :=
  match ot with
  | None => Sockets.holding [] tr = Some [] /\ is_active (r0.(fds) !! a) = false
  | Some o => I (r0, o) [] /\ o.(bfd) = a /\ Sockets.holding [] tr = Some (if o.(close_fd) then [Sockets.RFd] else []) /\
      match init with BTAP_INIT_STRING string => configured_as sys dev_type string o.(frame_mtu) o.(devname) | BTAP_INIT_FD n mtu => o.(tap_fd) = n /\ o.(frame_mtu) = mtu end
  end.

Lemma open_device_ok (close_it : bool) n mtu name tr : 0 <= mtu -> Sockets.holding [] tr = Some (if close_it then [Sockets.RFd] else []) ->
  match init with BTAP_INIT_STRING string => configured_as sys dev_type string mtu name | BTAP_INIT_FD n' mtu' => n = n' /\ mtu = mtu' end ->
  exists r0 ot tr', open_device r sys close_it n mtu name a tr = Some (r0, ot, tr') /\ opened r0 ot tr'.
Proof using Hinv Ha.
  intros Hm Ht Hc. unfold open_device. set (fail1 := tr ++ _). assert (Sockets.holding [] fail1 = Some []) as Hf by (unfold fail1; rewrite Sockets.holding_app, Ht; by destruct close_it).
  destruct (sys_nonblock sys); cbn [negb]; [|by eexists r, None, fail1]. destruct (fd_added r a n (sys_epoll sys) Hinv Ha) as (r1 & -> & I1 & _ & W1).
  destruct (sys_epoll sys); cbn [negb]; [|by eexists r1, None, fail1]. unfold PacketRecvInterface_Init. rewrite (proj2 (Z.leb_le _ _)) by done.
  eexists r1, (Some (MkTap _ _ _ _ _ _ _ _ _ _)), tr. split; [done|]. split; [|done]. split; [|done]. split; cbn; try done. by left.
Qed.

Lemma tap_init_ok : exists r0 ot tr, BTap_Init2 r sys dev_type init a old junk = Some (r0, ot, tr) /\ opened r0 ot tr.
Proof using Hinv Ha Hsys Hinit Hold Hjunk.
  unfold BTap_Init2. destruct init as [string|n mtu] eqn:Ei.
  - destruct (device_configured_ok sys dev_type string old junk Hsys Hold Hjunk) as (c & -> & Hc). destruct c as [|tr|mtu name tr].
    + by exists r, None, [].
    + eexists r, None, _. split; [done|]. split; [|done]. by rewrite Sockets.holding_app, Hc.
    + destruct Hc as (Ht & Hm & Hc). rewrite <- Ei in *. apply open_device_ok; try done. by rewrite Ei.
  - destruct Hinit as [Hn Hm]. unfold BTAP_ETHERNET_HEADER_LENGTH in *. rewrite !(proj2 (Z.leb_le 0 _)) by (case_match; lia).
    assert (negb (bool_decide (dev_type = BTAP_DEV_TAP)) || (14 <=? mtu) = true) as ->. { destruct (bool_decide _); [|done]. by apply Z.leb_le. }
    apply open_device_ok; [by case_match; lia|done|by rewrite Ei].
Qed.

(** What a device in use still owes and what closing it gives back. *)
Definition closes (tr : list Sockets.action) (r' : BReactor) (o : BTap) : Prop :=
  exists r2 tr2, BTap_Free r' o = Some (r2, tr2) /\ Sockets.holding [] (tr ++ tr2) = Some [] /\ is_active (r2.(fds) !! a) = false.

Lemma closes_ok tr r' o hist : I (r', o) hist -> o.(bfd) = a -> Sockets.holding [] tr = Some (if o.(close_fd) then [Sockets.RFd] else []) -> closes tr r' o.
Proof using.
  intros [[Hi _ _ _ Hw _ _ _] _] Ea Ht. cbn [fst snd] in *. unfold closes, BTap_Free. rewrite Ea in *. destruct (fd_removed r' a _ Hi Hw) as (r2 & -> & _ & D & _).
  eexists r2, _. split; [done|]. split; [|by apply dormant_inactive]. rewrite Sockets.holding_app, Ht. by destruct (close_fd o).
Qed.

End life.

(** A device for which the kernel chooses a name, the first packet read at once
    and the second when the descriptor becomes readable. *)
Definition sample_system : tap_system :=
  MkSystem 7 (fun _ flags => if flags =? 0x1001 then Some (bs "tun0" ++ repeat 0 12) else None) 8 (fun _ => Some 1500) true true.
Definition sample_run : list event :=
  [RUser; RRecv (repeat 0 1500); RJobOperation (RPacket [1; 2; 3]); RJobDone; RRecv (repeat 0 1500); RJobOperation RAgain;
   Turn 10 [Ready [MkEvent EPOLLIN (Some 50)]] RAgain; Turn 11 [] (RPacket [4; 5]); Send [9]; RJobDone].

Lemma sample_system_ok : system_ok sample_system.
Proof.
  split.
  - intros name flags real. cbn. destruct (flags =? 4097); [|done]. intros [= <-]. split; [done|]. by do 4 right; left.
  - intros name m [= <-]. by unfold INT_MAX, BTAP_ETHERNET_HEADER_LENGTH.
Qed.

End Tap.
