(* ===== verification/Signals.v ===== *)
(** * Signals

    Models [system/BUnixSignal.c] as it is built with [signalfd],
    [system/BSignal.c] and [system/BNetwork.c].  What the process tells the
    kernel, the blocked and the ignored signals, is state; the descriptor is one
    of the reactor of [Reactor.v].  The answers of the system calls are
    arguments.  [None] as a result is a failed [ASSERT] or [ASSERT_FORCE].

    The theorem: the handler is called for SIGTERM and SIGINT, once for each
    that is read and for nothing else, from a successful start on both stay
    blocked, so that neither can end the process by itself, and the descriptor
    is closed at the end. *)

From S2P Require Import Prelude.
From S2P Require Import LinkedList.
From S2P Require Import Reactor.
From S2P Require Import ReactorFrame.
From S2P Require Import Sockets.
Import Reactor Frame.

Module Signals.

Definition SIGINT : Z := 2.
Definition SIGPIPE : Z := 13.
Definition SIGTERM : Z := 15.
Definition sizeof_siginfo : Z := 128.

(** The signal mask, and the signals with the action [SIG_IGN]. *)
Record process := MkProcess { blocked : gset Z; ignored : gset Z }.

(** ** [BUnixSignal.c] *)

Record BUnixSignal := MkUnixSignal { signals : gset Z; signalfd_fd : Z; signalfd_bfd : addr }.

(** What [read] returns: a number of bytes and the signal's number, or an
    error. *)
Inductive read_result := RInfo (bytes ssi_signo : Z) | RError.

(** The signal the user's handler is called with, if it is called. *)
Definition signalfd_handler (o : BUnixSignal) (x : read_result) : option (option Z) :=
  match x with
  | RError => Some None
  | RInfo bytes ssi_signo =>
      if bytes <? 0 then Some None
      else
        ASSERT bytes =? sizeof_siginfo in
        if INT_MAX <? ssi_signo then Some None
        else if negb (bool_decide (ssi_signo ∈ o.(signals))) then Some None
        else Some (Some ssi_signo)
  end.

(** The answers of [signalfd], [fcntl], [epoll_ctl] and [sigprocmask]. *)
Record signal_system := MkSystem { sys_signalfd : Z; sys_nonblock : bool; sys_epoll : bool; sys_block : bool }.

Definition BUnixSignal_Init (p : process) (r : BReactor) (sys : signal_system) (sset : gset Z) (a : addr)
  : option (process * BReactor * option BUnixSignal * list Sockets.action) :=
  if sys.(sys_signalfd) <? 0 then Some (p, r, None, [])
  else
    let tr := [Sockets.Acquire Sockets.RFd] in
    let fail1 := tr ++ [Sockets.Release Sockets.RFd] in
    if negb sys.(sys_nonblock) then Some (p, r, None, fail1)
    else
      let r := BFileDescriptor_Init r a sys.(sys_signalfd) in
      LET (r, ok) <- BReactor_AddFileDescriptor r a sys.(sys_epoll) in
      if negb ok then Some (p, r, None, fail1)
      else
        LET r <- BReactor_SetFileDescriptorEvents r a BREACTOR_READ true in
        if negb sys.(sys_block) then
          LET r <- BReactor_RemoveFileDescriptor r a true in Some (p, r, None, fail1)
        else Some (MkProcess (p.(blocked) ∪ sset) p.(ignored), r, Some (MkUnixSignal sset sys.(sys_signalfd) a), tr).

Definition BUnixSignal_Free (p : process) (r : BReactor) (o : BUnixSignal) (unblock : bool) : option (process * BReactor * list Sockets.action) :=
  let p := if unblock then MkProcess (p.(blocked) ∖ o.(signals)) p.(ignored) else p in
  LET r <- BReactor_RemoveFileDescriptor r o.(signalfd_bfd) true in
  Some (p, r, [Sockets.Release Sockets.RFd]).

(** ** [BSignal.c] *)

(** [bsignal_global]. *)
Record BSignal := MkSignal { initialized : bool; finished : bool; signal : option BUnixSignal }.
Definition bsignal_global : BSignal := MkSignal false false None.

(** [true]: the user's handler is called. *)
Definition unix_signal_handler (g : BSignal) (signo : Z) : option bool :=
  ASSERT (signo =? SIGTERM) || (signo =? SIGINT) in
  ASSERT g.(initialized) in
  ASSERT negb g.(finished) in
  Some true.

Definition sset : gset Z := {[SIGTERM; SIGINT]}.

Definition BSignal_Init (g : BSignal) (p : process) (r : BReactor) (sys : signal_system) (a : addr)
  : option (BSignal * process * BReactor * bool * list Sockets.action) :=
  ASSERT negb g.(initialized) in
  LET (x, tr) <- BUnixSignal_Init p r sys sset a in
  let '(p, r, o) := x in
  match o with
  | None => Some (g, p, r, false, tr)
  | Some o => Some (MkSignal true false (Some o), p, r, true, tr)
  end.

Definition BSignal_Finish (g : BSignal) (p : process) (r : BReactor) : option (BSignal * process * BReactor * list Sockets.action) :=
  ASSERT g.(initialized) in
  ASSERT negb g.(finished) in
  LET o <- g.(signal) in
  LET (x, tr) <- BUnixSignal_Free p r o false in
  let '(p, r) := x in
  Some (MkSignal g.(initialized) true (Some o), p, r, tr).

(** ** [BNetwork.c] *)

(** [ok]: [sigaction] succeeds.  The results are [bnetwork_initialized] and the
    return value. *)
Definition BNetwork_GlobalInit (bnetwork_initialized : bool) (p : process) (ok : bool) : option (bool * process * bool) :=
  ASSERT negb bnetwork_initialized in
  if negb ok then Some (false, p, false)
  else Some (true, MkProcess p.(blocked) (p.(ignored) ∪ {[SIGPIPE]}), true).

Definition BNetwork_Assert (bnetwork_initialized : bool) : option unit := ASSERT bnetwork_initialized in Some tt.

(** ** The parties around it *)

Inductive event := Call (c : rcall) | Turn (now : Z) (answers : list answer) (x : read_result) | Finish.
Inductive action := Got (signo : Z) | Handler | Descriptor (x : Sockets.action).

Definition descriptors (h : list action) : list Sockets.action := omap (fun x => match x with Descriptor x => Some x | _ => None end) h.

(** A signal descriptor returns whole structures; other parties do not touch
    the descriptor. *)
Definition legal (s : BSignal * process * BReactor) (ev : event) : bool :=
  let '(g, p, r) := s in
  match g.(signal) with
  | None => false
  | Some o =>
      match ev with
      | Call c => legal_call r c && negb (about_fd o.(signalfd_bfd) c)
      | Turn now answers x => legal_round r now answers && match x with RInfo n _ => (n =? sizeof_siginfo) || (n <? 0) | RError => true end
      | Finish => negb g.(finished)
      end
  end.

Definition step (s : BSignal * process * BReactor) (ev : event) : option (BSignal * process * BReactor * list action) :=
  let '(g, p, r) := s in
  match ev with
  | Call c => LET r <- call_step r c in Some (g, p, r, [])
  | Finish => LET (x, tr) <- BSignal_Finish g p r in Some (x, map Descriptor tr)
  | Turn now answers x =>
      LET o <- g.(signal) in
      LET res <- exec_round r now answers in
      let got := match x with RInfo n s => if n <? 0 then [] else [Got s] | RError => [] end in
      match fd_event o.(signalfd_bfd) (Some res) with
      | None => Some (g, p, after_round res, [])
      | Some _ =>
          LET s <- signalfd_handler o x in
          match s with
          | None => Some (g, p, after_round res, got)
          | Some signo => LET _ <- unix_signal_handler g signo in Some (g, p, after_round res, got ++ [Handler])
          end
      end
  end.

(** What should happen: each SIGTERM or SIGINT that is read, and nothing else,
    is followed by a call of the handler. *)
Fixpoint expected (h : list action) : list action :=
  match h with
  | [] => []
  | Got s :: h => Got s :: (if (s =? SIGTERM) || (s =? SIGINT) then [Handler] else []) ++ expected h
  | Handler :: h => expected h
  | Descriptor x :: h => Descriptor x :: expected h
  end.

Lemma in_sset x : x ∈ sset <-> x = SIGTERM \/ x = SIGINT.
Proof. unfold sset. set_solver. Qed.

Lemma expected_app x y : expected (x ++ y) = expected x ++ expected y.
Proof. induction x as [|[sg| |z] x IH]; cbn [expected app]; [done| |done|by rewrite IH]. by rewrite IH, <- app_assoc. Qed.
Lemma descriptors_app x y : descriptors (x ++ y) = descriptors x ++ descriptors y.
Proof. unfold descriptors. by rewrite omap_app. Qed.

(** ** The invariant *)

Section life.
Context (a : addr) (mask : gset Z).

(** Until [BSignal_Finish] the descriptor is open and watched, afterwards it is
    gone; both signals are blocked throughout, besides those of [mask]. *)
Record I (s : BSignal * process * BReactor) (hist : list action) : Prop := {
  i_inv : inv s.2;
  i_global : s.1.1.(initialized) = true /\ exists n, s.1.1.(signal) = Some (MkUnixSignal sset n a);
  i_fd : if s.1.1.(finished) then dormant s.2 a else watches s.2 a BREACTOR_READ;
  i_blocked : s.1.2.(blocked) = mask ∪ sset;
  i_hist : hist = expected hist;
  i_open : Sockets.holding [Sockets.RFd] (descriptors hist) = Some (if s.1.1.(finished) then [] else [Sockets.RFd]);
}.

Lemma signal_turn_ok g p r hist now answers x : I (g, p, r) hist -> legal (g, p, r) (Turn now answers x) = true ->
  exists s' acts, step (g, p, r) (Turn now answers x) = Some (s', acts) /\ I s' (hist ++ acts).
Proof.
  intros [Hi [Hg [n Hn]] Hf Hb Hh Ho] Hl. cbn [legal step fst snd] in *. rewrite Hn in *. apply andb_true_iff in Hl as [Hr Hx].
  destruct (round_ok r now answers Hi Hr) as (res & E & Sp & I'). rewrite E. pose proof (round_registers _ _ _ _ E) as [K _]. cbn [signalfd_bfd].
  assert (forall acts, acts = expected acts -> descriptors acts = [] -> I (g, p, after_round res) (hist ++ acts)) as Keep.
  { intros acts Ha Hd. split; cbn; try done; [by eexists; eauto| |by rewrite expected_app, <- Hh, <- Ha|by rewrite descriptors_app, Hd, app_nil_r].
    destruct (finished g); [by eapply fds_within_dormant|by eapply fds_within_watches]. }
  destruct (fd_event a (Some res)) as [ev|] eqn:Ef; [|eexists _, _; split; [done|by apply Keep]].
  destruct (finished g) eqn:Efin.
  { destruct res as [r' [[|b sm|b ev']|]|]; try done. cbn in Ef. case_bool_decide; [|done]. subst b. destruct Sp as (_ & _ & _ & e & f & _ & _ & Hfd & Ha & _).
    destruct Hf as (f1 & Hf1 & Hin). congruence. }
  unfold signalfd_handler. destruct x as [k sg|]; [|eexists _, _; split; [done|by apply Keep]]. destruct (Z.ltb_spec k 0); [eexists _, _; split; [done|by apply Keep]|].
  rewrite orb_false_r in Hx. rewrite Hx. cbn [signals].
  destruct (INT_MAX <? sg) eqn:Em; [|case_bool_decide as Es; cbn [negb]].
  - eexists _, _. split; [done|]. apply Keep; [|done]. cbn. apply Z.ltb_lt in Em. unfold INT_MAX, SIGTERM, SIGINT in *. by rewrite !(proj2 (Z.eqb_neq _ _)) by lia.
  - unfold unix_signal_handler. rewrite Hg, Efin. assert ((sg =? SIGTERM) || (sg =? SIGINT) = true) as Ht by (apply in_sset in Es; destruct Es as [-> | ->]; done).
    rewrite Ht. eexists _, _. split; [done|]. apply Keep; [|done]. cbn. by rewrite Ht.
  - eexists _, _. split; [done|]. apply Keep; [|done]. cbn. rewrite in_sset in Es. destruct (Z.eqb_spec sg SIGTERM), (Z.eqb_spec sg SIGINT); try done; naive_solver.
Qed.

Lemma signal_step_ok s hist ev : I s hist -> legal s ev = true -> exists s' acts, step s ev = Some (s', acts) /\ I s' (hist ++ acts).
Proof.
  destruct s as [[g p] r]. intros HI Hl. destruct ev; [|by apply signal_turn_ok|]; destruct HI as [Hi [Hg [n Hn]] Hf Hb Hh Ho]; cbn [legal step fst snd] in *; rewrite Hn in *.
  - rewrite andb_true_iff, negb_true_iff in Hl. destruct Hl as [Hc Ha]. destruct (call_ok r c Hi Hc) as (r' & E & I'). rewrite E. destruct (call_registers r c r' E) as [K1 _].
    eexists _, _. split; [done|]. rewrite app_nil_r. split; cbn; try done; [by eexists; eauto|]. unfold watches, dormant. by rewrite K1.
  - apply negb_true_iff in Hl. unfold BSignal_Finish, BUnixSignal_Free. rewrite Hg, Hl, Hn in *. cbn [negb signalfd_bfd].
    destruct (fd_removed r a _ Hi Hf) as (r' & -> & I' & D & _). eexists _, _. split; [done|]. split; cbn; try done; [by eexists; eauto|by rewrite expected_app, <- Hh|].
    rewrite descriptors_app, Sockets.holding_app, Ho. done.
Qed.

End life.

Lemma signal_init_ok a g p r sys : inv r -> is_active (r.(fds) !! a) = false -> g.(initialized) = false ->
  exists g0 p0 r0 ok tr, BSignal_Init g p r sys a = Some (g0, p0, r0, ok, tr) /\
    if ok then I a p.(blocked) (g0, p0, r0) [] /\ Sockets.holding [] tr = Some [Sockets.RFd]
    else g0 = g /\ p0 = p /\ Sockets.holding [] tr = Some [] /\ is_active (r0.(fds) !! a) = false.
Proof.
  intros Hi Ha Hg. unfold BSignal_Init, BUnixSignal_Init. rewrite Hg. cbn [negb]. destruct (sys_signalfd sys <? 0); [by eexists g, p, r, false, []|].
  destruct (sys_nonblock sys); cbn [negb]; [|by eexists g, p, r, false, _]. destruct (fd_added r a (sys_signalfd sys) (sys_epoll sys) Hi Ha) as (r1 & -> & I1 & _ & W1).
  destruct (sys_epoll sys); cbn [negb]; [|by eexists g, p, r1, false, _]. destruct (fd_waits r1 a _ BREACTOR_READ I1 W1) as (r2 & -> & I2 & W2 & _); [done|].
  destruct (sys_block sys); cbn [negb].
  - eexists _, _, r2, true, _. split; [done|]. split; [|done]. split; cbn; try done. by eexists; eauto.
  - destruct (fd_removed r2 a _ I2 W2) as (r3 & -> & I3 & D & _). eexists g, p, r3, false, _. split; [done|]. do 3 (split; [done|]). by apply dormant_inactive.
Qed.

(** C22: signals.  Starting either fails without a trace, in the reactor, in the
    signal mask and in the descriptors, or succeeds; then, whatever happens and
    also after [BSignal_Finish], no assertion fails and the handler is called
    exactly for each SIGTERM and SIGINT that is read.  Until [BSignal_Finish]
    the signal descriptor is open and watched; [BSignal_Finish] takes it out of
    the reactor and closes it, once, but it leaves the signal mask: from the
    start on the two signals are blocked in addition to those that were, also
    after the end. *)
Theorem signals_dispatched a g p r sys evs : inv r -> is_active (r.(fds) !! a) = false -> g.(initialized) = false ->
  exists g0 p0 r0 ok tr, BSignal_Init g p r sys a = Some (g0, p0, r0, ok, tr) /\
    if ok then exists g' p' r' acts, machine_run legal step (g0, p0, r0) evs = Some (g', p', r', acts) /\
        acts = expected acts /\ p'.(blocked) = p.(blocked) ∪ {[SIGTERM; SIGINT]} /\
        (if g'.(finished) then is_active (r'.(fds) !! a) = false else watches r' a BREACTOR_READ) /\
        Sockets.holding [] (tr ++ descriptors acts) = Some (if g'.(finished) then [] else [Sockets.RFd])
    else g0 = g /\ p0 = p /\ Sockets.holding [] tr = Some [] /\ is_active (r0.(fds) !! a) = false.
Proof.
  intros Hi Ha Hg. destruct (signal_init_ok a g p r sys Hi Ha Hg) as (g0 & p0 & r0 & ok & tr & E & Ho). exists g0, p0, r0, ok, tr. split; [done|]. destruct ok; [|done].
  destruct Ho as [I0 Ht]. destruct (machine_invariant legal step (I a p.(blocked)) (signal_step_ok a p.(blocked)) evs _ _ I0) as ([[g' p'] r'] & acts & Er & [_ _ Hf Hb Hh Hop]).
  exists g', p', r', acts. split; [done|]. split; [done|]. cbn [fst snd app] in *. split; [done|].
  split; [destruct (finished g'); [by apply dormant_inactive|done]|]. by rewrite Sockets.holding_app, Ht.
Qed.

(** A SIGTERM arrives, and after the end a round goes on without it. *)
Lemma signals_dispatched_witness : exists g0 p0 r0 tr g' p' r' acts,
  BSignal_Init bsignal_global (MkProcess ∅ ∅) new_reactor (MkSystem 6 true true true) 50 = Some (g0, p0, r0, true, tr) /\
  machine_run legal step (g0, p0, r0) [Turn 10 [Ready [MkEvent EPOLLIN (Some 50)]] RError; Turn 11 [] (RInfo 128 15); Finish; Turn 12 [Interrupted 13] RError] = Some (g', p', r', acts) /\
  acts = [Got SIGTERM; Handler; Descriptor (Sockets.Release Sockets.RFd)] /\ p'.(blocked) = ∅ ∪ {[SIGTERM; SIGINT]} /\
  Sockets.holding [] (tr ++ descriptors acts) = Some (if g'.(finished) then [] else [Sockets.RFd]).
Proof.
  destruct (signals_dispatched 50 bsignal_global (MkProcess ∅ ∅) new_reactor (MkSystem 6 true true true)
    [Turn 10 [Ready [MkEvent EPOLLIN (Some 50)]] RError; Turn 11 [] (RInfo 128 15); Finish; Turn 12 [Interrupted 13] RError] new_reactor_inv eq_refl eq_refl)
    as (g0 & p0 & r0 & ok & tr & E & Ho). destruct ok; [|exfalso; by vm_compute in E].
  destruct Ho as (g' & p' & r' & acts & Er & _ & Hb & _ & Hh). exists g0, p0, r0, tr, g', p', r', acts. split; [exact E|]. split; [exact Er|].
  split; [|split; [exact Hb|exact Hh]]. clear Hb Hh. vm_compute in E. injection E as <- <- <- <-. vm_compute in Er. by injection Er as <- <- <- <-.
Defined.
End Signals.
