(* ===== verification/Tun2Socks.v ===== *)
(** * The life of tun2socks

    Models start-up, event handling and clean-up of [tun2socks/tun2socks.c]:
    [tun2socks_main], [tun2socks_init], [tun2socks_run], [terminate],
    [signal_handler], [device_error_handler], [tcp_timer_handler],
    [lwip_init_job_hadler] and [baddr_from_lwip], with the dispatching of
    [BReactor_Exec] reduced to its order: the initialisation job first, then one
    event after the other until something asks the reactor to quit.  The calls
    that acquire and release something are recorded in a trace, with the clients
    that are linked and unlinked and what is done with packets read from the
    device.  What lwIP does with such a packet arrives as events of the clients
    and of the listeners. *)

From S2P Require Import Prelude.
From S2P Require Import Words.
From S2P Require Import Addr.
From S2P Require Import SocksClient.
From S2P Require Import TcpClient.
From S2P Require Import Clients.
From S2P Require Import Options.
From S2P Require Import Device.
Import BAddr Clients Options Device.

Inductive resource :=
  | RLog | RPassword | RReactor | RSignal | RTap | RReadInterface | RReadBuffer | RInitJob | RWriteBuf
  | RTimer | RNetif | RListener | RListener6.
#[export] Instance resource_eq_dec : EqDecision resource.
Proof. solve_decision. Defined.

Inductive life_action :=
  | Acquire (r : resource)
  | Release (r : resource)
  | Quit (code : Z)       (* BReactor_Quit *)
  | SetTimer              (* BReactor_SetTimer(&ss, &tcp_timer) by the handler *)
  | TcpTmr                (* tcp_tmr() *)
  | OnClient (a : client_action)
  | OnPacket (ip_err : TcpClient.err_t) (acts : list dev_action).

Module Tun2Socks.

(** ** Global state *)

Record globals := Globals {
  quitting : bool;
  exiting : bool;             (* of the reactor *)
  have_netif : bool;
  listener : bool;
  listener_ip6 : bool;
  ip6_given : bool;           (* options.netif_ip6addr *)
  cfg : config;
  clients : tun;
  life : list life_action;
}.

Definition set_quitting g := Globals true true g.(have_netif) g.(listener) g.(listener_ip6) g.(ip6_given) g.(cfg) g.(clients) g.(life).
Definition set_exiting g := Globals g.(quitting) true g.(have_netif) g.(listener) g.(listener_ip6) g.(ip6_given) g.(cfg) g.(clients) g.(life).
Definition set_netif g := Globals g.(quitting) g.(exiting) true g.(listener) g.(listener_ip6) g.(ip6_given) g.(cfg) g.(clients) g.(life).
Definition set_listener g := Globals g.(quitting) g.(exiting) g.(have_netif) true g.(listener_ip6) g.(ip6_given) g.(cfg) g.(clients) g.(life).
Definition set_listener_ip6 g := Globals g.(quitting) g.(exiting) g.(have_netif) g.(listener) true g.(ip6_given) g.(cfg) g.(clients) g.(life).
Definition set_clients w g := Globals g.(quitting) g.(exiting) g.(have_netif) g.(listener) g.(listener_ip6) g.(ip6_given) g.(cfg) w g.(life).
Definition emit (a : life_action) g :=
  Globals g.(quitting) g.(exiting) g.(have_netif) g.(listener) g.(listener_ip6) g.(ip6_given) g.(cfg) g.(clients) (g.(life) ++ [a]).

Definition emit_all (l : list life_action) g :=
  Globals g.(quitting) g.(exiting) g.(have_netif) g.(listener) g.(listener_ip6) g.(ip6_given) g.(cfg) g.(clients) (g.(life) ++ l).

Definition baddr_from_lwip (is_ipv6 : bool) (ip4 : Z) (ip6 : bytes) (port_hostorder : Z) : BAddr :=
  if is_ipv6 then BAddr_MakeIPv6 ip6 (ByteOrder.hton16 port_hostorder)
  else BAddr_MakeIPv4 ip4 (ByteOrder.hton16 port_hostorder).

(** ** Handlers *)

Definition terminate (g : globals) : option globals :=
  ASSERT negb g.(quitting) in
  Some (emit (Quit 1) (set_quitting g)).

Definition signal_handler (g : globals) : option globals :=
  ASSERT negb g.(quitting) in
  terminate g.

Definition device_error_handler (g : globals) : option globals :=
  ASSERT negb g.(quitting) in
  terminate g.

Definition tcp_timer_handler (g : globals) : option globals :=
  ASSERT negb g.(quitting) in
  Some (emit TcpTmr (emit SetTimer g)).

(** lwIP's answers during initialisation; [dev_error] tells whether the device
    failed meanwhile. *)
Record lwip_answers := LwipAnswers {
  netif_add_ok : bool;
  dev_error : bool;
  tcp_new_ok : bool; bind_ok : bool; listen_ok : bool;
  tcp_new6_ok : bool; bind6_ok : bool; listen6_ok : bool;
}.

Definition init_fail (g : globals) : option globals := if g.(quitting) then Some g else terminate g.

(** The part for IPv6. *)
Definition init_listener_ip6 (g : globals) (a : lwip_answers) : option globals :=
  if negb a.(tcp_new6_ok) then init_fail g
  else
    let g := emit (Acquire RListener6) g in
    if negb a.(bind6_ok) then init_fail (emit (Release RListener6) g)
    else if negb a.(listen6_ok) then init_fail (emit (Release RListener6) g)
    else Some (set_listener_ip6 g).

Definition lwip_init_job_hadler (g : globals) (a : lwip_answers) : option globals :=
  ASSERT negb g.(quitting) in
  ASSERT is_ipv4 g.(cfg).(cfg_netif_ipaddr) in
  ASSERT is_ipv4 g.(cfg).(cfg_netif_netmask) in
  ASSERT negb g.(have_netif) in
  ASSERT negb g.(listener) in
  ASSERT negb g.(listener_ip6) in
  if negb a.(netif_add_ok) then init_fail g
  else
    let g := set_netif (emit (Acquire RNetif) g) in
    LET g <- (if a.(dev_error) then device_error_handler g else Some g) in
    if negb a.(tcp_new_ok) then init_fail g
    else
      let g := emit (Acquire RListener) g in
      if negb a.(bind_ok) then init_fail (emit (Release RListener) g)
      else if negb a.(listen_ok) then init_fail (emit (Release RListener) g)
      else
        let g := set_listener g in
        if g.(ip6_given) then init_listener_ip6 g a else Some g.

(** ** The event loop *)

(** [EHup]: [fd_handler] of the device with an error or hang-up, which asks the
    reactor to quit by itself and may then find the read failing too. *)
Inductive event :=
  | ESignal
  | EDeviceError
  | EHup (read_error : bool)
  | ETimer
  | EPacket (callback : bool) (sizes : option (list nat)) (ip_err : TcpClient.err_t) (data : bytes)
  | EClient (i : tun_input).

Definition handle (g : globals) (e : event) : option globals :=
  match e with
  | ESignal => signal_handler g
  | EDeviceError => device_error_handler g
  | EHup read_error =>
      let g := emit (Quit 2) (set_exiting g) in
      if read_error then device_error_handler g else Some g
  | ETimer => tcp_timer_handler g
  | EPacket callback sizes ip_err data =>
      ASSERT g.(have_netif) in      (* the_netif.input is set *)
      LET acts <- device_read_handler_send g.(quitting) callback g.(ip6_given) sizes ip_err data in
      Some (emit (OnPacket ip_err acts) g)
  | EClient i =>
      if g.(listener) || g.(listener_ip6)
      then LET (w, acts) <- tun_step g.(clients) i in Some (emit_all (map OnClient acts) (set_clients w g))
      else Some g
  end.

Fixpoint dispatch (g : globals) (evs : list event) : option globals :=
  if g.(exiting) then Some g
  else
    match evs with
    | [] => Some g
    | e :: evs => LET g <- handle g e in dispatch g evs
    end.

(** The initialisation job is pending when the loop starts. *)
Definition BReactor_Exec (g : globals) (a : lwip_answers) (evs : list event) : option globals :=
  LET g <- lwip_init_job_hadler g a in
  dispatch g evs.

(** ** Clean-up *)

Definition fail0 (tr : list life_action) := tr.
Definition fail1 (has_password : bool) (tr : list life_action) :=
  fail0 (tr ++ (if has_password then [Release RPassword] else []) ++ [Release RLog]).
Definition fail2 pw tr := fail1 pw (tr ++ [Release RReactor]).
Definition fail3 pw tr := fail2 pw (tr ++ [Release RSignal]).
Definition fail4 pw tr := fail3 pw (tr ++ [Release RReadInterface; Release RTap]).
Definition fail4a pw tr := fail4 pw (tr ++ [Release RReadBuffer]).
Definition fail5 pw tr := fail4a pw (tr ++ [Release RInitJob]).

(** What can fail at start-up. *)
Record init_answers := InitAnswers {
  syslog_ok : bool; network_ok : bool; reactor_ok : bool; signal_ok : bool; tap_ok : bool;
  read_buffer_ok : bool; write_buf_ok : bool;
}.

(** The levels given to [BLog_SetChannelLoglevel], which asserts its range. *)
Fixpoint configure_channels (loglevel : Z) (levels : list Z) : option (list (option Z)) :=
  match levels with
  | [] => Some []
  | l :: levels =>
      let set := if 0 <=? l then Some l else if 0 <=? loglevel then Some loglevel else None in
      ASSERT match set with Some l => (0 <=? l) && (l <=? BLOG_DEBUG) | None => true end in
      LET rest <- configure_channels loglevel levels in
      Some (set :: rest)
  end.

Section Start.
Context (getaddrinfo : bool -> bool -> bytes -> option bytes).
Context (fopen : bytes -> option file) (alloc_ok : Z -> bool).

(** From the logger on: the trace of a failed start, or the running state. *)
Definition startup (o : options) (old_ip6 : bytes) (a : init_answers) : option (list life_action + globals) :=
  ASSERT (o.(logger) =? LOGGER_STDOUT) || (o.(logger) =? LOGGER_SYSLOG) in
  if (o.(logger) =? LOGGER_SYSLOG) && negb a.(syslog_ok) then Some (inl (fail0 []))
  else
    let tr := [Acquire RLog] in
    LET _ <- configure_channels o.(loglevel) o.(loglevels) in
    if negb a.(network_ok) then Some (inl (fail1 false tr))
    else
      LET c <- process_arguments getaddrinfo fopen alloc_ok o old_ip6 None in
      match c with
      | None => Some (inl (fail1 false tr))
      | Some c =>
          let pw := given c.(cfg_password_file_contents) in
          let tr := tr ++ (if pw then [Acquire RPassword] else []) in
          if negb a.(reactor_ok) then Some (inl (fail1 pw tr))
          else
            let tr := tr ++ [Acquire RReactor] in
            if negb a.(signal_ok) then Some (inl (fail2 pw tr))
            else
              let tr := tr ++ [Acquire RSignal] in
              if negb a.(tap_ok) then Some (inl (fail3 pw tr))
              else
                let tr := tr ++ [Acquire RTap; Acquire RReadInterface] in
                if negb a.(read_buffer_ok) then Some (inl (fail4 pw tr))
                else
                  let tr := tr ++ [Acquire RReadBuffer; Acquire RInitJob] in
                  if negb a.(write_buf_ok) then Some (inl (fail5 pw tr))
                  else
                    let tr := tr ++ [Acquire RWriteBuf; Acquire RTimer] in
                    Some (inr (Globals false false false false false (given o.(netif_ip6addr)) c no_clients tr))
      end.

(** [tun2socks_init] keeps the options it does not set. *)
Definition init_options (o : options) (channels : nat) (tundev ipaddr netmask socksaddr : bytes) : options :=
  Opt o.(help) o.(version) LOGGER_STDOUT o.(logger_syslog_facility) o.(logger_syslog_ident) (-1) (repeat (-1) channels)
    (Some tundev) (Some ipaddr) (Some netmask) None (Some socksaddr) None None None false.

Definition tun2socks_init (o : options) (channels : nat) (tundev ipaddr netmask socksaddr old_ip6 : bytes)
    (a : init_answers) : option (list life_action + globals) :=
  startup (init_options o channels tundev ipaddr netmask socksaddr) old_ip6 a.

(** The final trace, or [inr] while the event loop goes on. *)
Definition tun2socks_run (g : globals) (a : lwip_answers) (evs : list event) : option (list life_action + globals) :=
  LET g <- BReactor_Exec g a evs in
  if negb g.(exiting) then Some (inr g)
  else
    LET (_, dead) <- free_clients g.(clients).(tcp_clients) g.(clients).(count) in
    let tr := g.(life) ++ map (fun x => OnClient (Unlink x.1)) dead in
    let tr := tr ++ (if g.(listener_ip6) then [Release RListener6] else []) in
    let tr := tr ++ (if g.(listener) then [Release RListener] else []) in
    let tr := tr ++ (if g.(have_netif) then [Release RNetif] else []) in
    Some (inl (fail5 (given g.(cfg).(cfg_password_file_contents)) (tr ++ [Release RTimer; Release RWriteBuf]))).

(** The exit status and the trace. *)
Definition tun2socks_main (channels : list bytes) (argv : list bytes) (o0 : options) (old_ip6 : bytes) (a : init_answers)
    (la : lwip_answers) (evs : list event) : option (Z * list life_action + globals) :=
  match argv with
  | [] => Some (inl (1, []))
  | _ =>
      let '(o, ok) := parse_arguments channels argv o0 in
      if negb ok then Some (inl (1, fail0 []))
      else if o.(help) then Some (inl (0, []))
      else if o.(version) then Some (inl (0, []))
      else
        LET r <- startup o old_ip6 a in
        match r with
        | inl tr => Some (inl (1, tr))
        | inr g =>
            LET r <- tun2socks_run g la evs in
            match r with inl tr => Some (inl (1, tr)) | inr g => Some (inr g) end
        end
  end.
End Start.

(** ** What is held *)

(** The resources held after a trace, last acquired first, and the clients that
    are linked; [None] when something is released that is not the last one
    acquired, when anything but a client is released while there are clients,
    when a client is linked twice or unlinked without being linked, or when a
    packet buffer is not consumed exactly once. *)
Fixpoint held (st : list resource) (cl : list nat) (tr : list life_action) : option (list resource * list nat) :=
  match tr with
  | [] => Some (st, cl)
  | Acquire r :: tr => held (r :: st) cl tr
  | Release r :: tr =>
      match st, cl with
      | x :: st, [] => if bool_decide (x = r) then held st [] tr else None
      | _, _ => None
      end
  | OnClient a :: tr => LET cl <- linked cl [a] in held st cl tr
  | OnPacket ip_err acts :: tr => if consumed_once ip_err acts then held st cl tr else None
  | _ :: tr => held st cl tr
  end.

Lemma held_app a : forall st cl b, held st cl (a ++ b) = LET (st', cl') <- held st cl a in held st' cl' b.
Proof.
  induction a as [|x a IH]; intros st cl b; [done|]. destruct x as [r|r|c| | |c|ip_err acts]; cbn [app held]; try apply IH.
  - destruct st as [|y st]; [done|]. destruct cl; [|done]. case_bool_decide; [apply IH|done].
  - destruct (linked cl [c]); [apply IH|done].
  - destruct (consumed_once ip_err acts); [apply IH|done].
Qed.

Lemma held_clients acts : forall st cl, held st cl (map OnClient acts) = LET cl' <- linked cl acts in Some (st, cl').
Proof.
  induction acts as [|c acts IH]; intros st cl; [done|]. cbn [map held]. change (c :: acts) with ([c] ++ acts). rewrite linked_app.
  destruct (linked cl [c]); [apply IH|done].
Qed.

(** Unlinking all clients that are linked. *)
Lemma unlink_all l : NoDup l -> linked l (map Unlink l) = Some [].
Proof.
  induction 1 as [|x l Hx _ IH]; [done|]. cbn [map linked]. rewrite bool_decide_eq_true_2 by (by left).
  rewrite filter_cons, decide_False by tauto. by rewrite filter_absent.
Qed.

(** How often [terminate] asked the reactor to quit. *)
Definition terminations (tr : list life_action) : nat :=
  length (List.filter (fun a => match a with Quit c => c =? 1 | _ => false end) tr).

Arguments terminations : simpl never.

Definition base_resources (pw : bool) : list resource :=
  [RTimer; RWriteBuf; RInitJob; RReadBuffer; RReadInterface; RTap; RSignal; RReactor] ++ (if pw then [RPassword] else []) ++ [RLog].

(** The invariant of the running program; [extra] is what a handler holds
    besides what the globals record. *)
Record running (extra : list resource) (g : globals) : Prop := {
  ru_cfg : is_ipv4 g.(cfg).(cfg_netif_ipaddr) = true /\ is_ipv4 g.(cfg).(cfg_netif_netmask) = true;
  ru_quit : g.(quitting) = true -> g.(exiting) = true;
  ru_once : terminations g.(life) = if g.(quitting) then 1%nat else 0%nat;
  ru_order : (g.(listener_ip6) = true -> g.(listener) = true) /\ (g.(listener) = true -> g.(have_netif) = true);
  ru_held : held [] [] g.(life) = Some (extra ++ (if g.(listener_ip6) then [RListener6] else []) ++
      (if g.(listener) then [RListener] else []) ++ (if g.(have_netif) then [RNetif] else []) ++
      base_resources (given g.(cfg).(cfg_password_file_contents)), map fst g.(clients).(tcp_clients));
  ru_clients : tun_ok g.(clients);
}.

Lemma terminations_app a b : terminations (a ++ b) = (terminations a + terminations b)%nat.
Proof. unfold terminations. rewrite List.filter_app. apply length_app. Qed.

Lemma running_acquire r ex g : running ex g -> running (r :: ex) (emit (Acquire r) g).
Proof.
  intros [H1 H2 H3 H4 H5 H6]. constructor; cbn; try done.
  - by rewrite terminations_app, H3, Nat.add_0_r.
  - by rewrite held_app, H5.
Qed.
Lemma running_release r ex g : running (r :: ex) g -> g.(clients).(tcp_clients) = [] -> running ex (emit (Release r) g).
Proof.
  intros [H1 H2 H3 H4 H5 H6] Hc. rewrite Hc in H5. constructor; cbn; try done.
  - by rewrite terminations_app, H3, Nat.add_0_r.
  - rewrite held_app, H5, Hc. cbn. by rewrite bool_decide_true.
Qed.
Lemma running_emit ex a g : running ex g ->
  match a with SetTimer | TcpTmr => True | Quit c => c <> 1 | OnPacket ip_err acts => consumed_once ip_err acts = true | _ => False end -> running ex (emit a g).
Proof.
  intros [H1 H2 H3 H4 H5 H6] Ha. constructor; cbn; try done.
  - rewrite terminations_app, H3. destruct a as [| |code| | |c|ip_err acts]; try done; unfold terminations; cbn; try lia.
    destruct (Z.eqb_spec code 1); [done|]. cbn. lia.
  - rewrite held_app, H5. destruct a as [| |code| | |c|ip_err acts]; try done. cbn. by rewrite Ha.
Qed.
Lemma running_terminate ex g : running ex g -> g.(quitting) = false ->
  exists g', terminate g = Some g' /\ running ex g' /\ g'.(exiting) = true /\ g'.(have_netif) = g.(have_netif) /\
    g'.(listener) = g.(listener) /\ g'.(listener_ip6) = g.(listener_ip6) /\ g'.(ip6_given) = g.(ip6_given) /\ g'.(clients) = g.(clients).
Proof.
  intros [H1 H2 H3 H4 H5 H6] Hq. unfold terminate. rewrite Hq. eexists. split; [done|]. split; [|done].
  rewrite Hq in H3. constructor; cbn; try done.
  - by rewrite terminations_app, H3.
  - by rewrite held_app, H5.
Qed.

(** The state between two events: the loop ends, or the interface is there. *)
Definition ready (g : globals) : Prop := running [] g /\ (g.(exiting) = false -> g.(have_netif) = true).

Lemma running_fail g : running [] g -> exists g', init_fail g = Some g' /\ ready g'.
Proof.
  intros H. unfold init_fail. destruct (quitting g) eqn:Hq.
  - exists g. split; [done|]. split; [done|]. rewrite (ru_quit _ _ H Hq). done.
  - destruct (running_terminate [] g H Hq) as (g' & -> & R & E & _). exists g'. split; [done|]. split; [done|]. by rewrite E.
Qed.

Lemma init_listener_ip6_ok g a : running [] g -> g.(listener) = true -> g.(listener_ip6) = false -> g.(clients).(tcp_clients) = [] ->
  exists g', init_listener_ip6 g a = Some g' /\ ready g'.
Proof.
  intros H Hl H6 Hc. unfold init_listener_ip6. destruct (tcp_new6_ok a); cbn [negb]; [|by apply running_fail].
  pose proof (running_acquire RListener6 [] g H) as Ha.
  destruct (bind6_ok a); cbn [negb]; [|by apply running_fail, running_release].
  destruct (listen6_ok a); cbn [negb]; [|by apply running_fail, running_release].
  eexists. split; [done|]. pose proof (ru_order _ _ H) as [_ On]. split; [|by intros _; apply On].
  destruct Ha as [? ? ? Ho Hh ?]. cbn in Ho, Hh. rewrite H6, Hl in Hh. constructor; cbn; try done.
  by rewrite Hl.
Qed.

Lemma lwip_init_ok g a : running [] g -> g.(quitting) = false -> g.(have_netif) = false -> g.(clients) = no_clients ->
  exists g', lwip_init_job_hadler g a = Some g' /\ ready g'.
Proof.
  intros H Hq Hn Hc. unfold lwip_init_job_hadler.
  pose proof (ru_order _ _ H) as [O6 O4]. pose proof (ru_cfg _ _ H) as [-> ->].
  assert (listener g = false) as Hl by (destruct (listener g); [|done]; specialize (O4 eq_refl); congruence).
  assert (listener_ip6 g = false) as Hl6 by (destruct (listener_ip6 g); [|done]; specialize (O6 eq_refl); congruence).
  rewrite Hq, Hn, Hl, Hl6. cbn [negb]. destruct (netif_add_ok a); cbn [negb]; [|by apply running_fail].
  set (g1 := set_netif _). assert (running [] g1) as H1.
  { pose proof (running_acquire RNetif [] g H) as [? ? ? ? Hh ?]. cbn in Hh. rewrite Hn, Hl, Hl6 in Hh.
    constructor; cbn; try done; rewrite ?Hl, ?Hl6; done. }
  assert (exists g2, (if dev_error a then device_error_handler g1 else Some g1) = Some g2 /\ running [] g2 /\
            have_netif g2 = true /\ listener g2 = false /\ listener_ip6 g2 = false /\ ip6_given g2 = ip6_given g1 /\ clients g2 = no_clients)
    as (g2 & -> & H2 & Hn2 & Hl2 & H62 & Hi2 & Hc2).
  { destruct (dev_error a); [|by exists g1]. unfold device_error_handler. replace (quitting g1) with false by done. cbn [negb].
    destruct (running_terminate [] g1 H1 Hq) as (g2 & -> & R & _ & E1 & E2 & E3 & E4 & E5). exists g2.
    by rewrite E1, E2, E3, E4, E5. }
  destruct (tcp_new_ok a); cbn [negb]; [|by apply running_fail].
  pose proof (running_acquire RListener [] g2 H2) as Ha. assert (tcp_clients (clients g2) = []) as Hno by (by rewrite Hc2).
  destruct (bind_ok a); cbn [negb]; [|by apply running_fail, running_release].
  destruct (listen_ok a); cbn [negb]; [|by apply running_fail, running_release].
  set (g3 := set_listener _). assert (running [] g3) as H3.
  { destruct Ha as [? ? ? Ho Hh ?]. cbn in Ho, Hh. rewrite Hl2, H62 in Hh. constructor; cbn; try done; by rewrite ?H62. }
  destruct (ip6_given g3); [by apply init_listener_ip6_ok|]. by exists g3.
Qed.

(** What an event may bring. *)
Definition event_ok (e : event) : Prop :=
  match e with EClient i => input_ok i | EPacket _ sizes _ data => chain_ok sizes data | _ => True end.

Lemma running_clients g w acts : running [] g -> tun_ok w -> linked (map fst g.(clients).(tcp_clients)) acts = Some (map fst w.(tcp_clients)) ->
  running [] (emit_all (map OnClient acts) (set_clients w g)).
Proof.
  intros [H1 H2 H3 H4 H5 _] Hw Hl. constructor; cbn; try done.
  - rewrite terminations_app, H3. assert (terminations (map OnClient acts) = 0%nat) as -> by (clear; unfold terminations; by induction acts). apply Nat.add_0_r.
  - rewrite held_app, H5, held_clients, Hl. done.
Qed.

Lemma handle_ok g e : ready g -> g.(exiting) = false -> event_ok e ->
  exists g', handle g e = Some g' /\ ready g'.
Proof.
  intros [H Hr] He Hok. specialize (Hr He). assert (quitting g = false) as Hq
    by (destruct (quitting g) eqn:E; [|done]; pose proof (ru_quit _ _ H E); congruence).
  assert (forall g1, running [] g1 -> have_netif g1 = true -> quitting g1 = false -> exists g', terminate g1 = Some g' /\ ready g') as Term.
  { intros g1 H1 Hn1 Hq1. destruct (running_terminate [] g1 H1 Hq1) as (g' & -> & R & _ & E & _). exists g'. split; [done|]. split; [done|]. by rewrite E. }
  destruct e as [| |re| |cb sizes ip_err data|i]; cbn [handle]; unfold signal_handler, device_error_handler, tcp_timer_handler.
  - rewrite Hq. cbn [negb]. by apply Term.
  - rewrite Hq. cbn [negb]. by apply Term.
  - set (g1 := emit (Quit 2) _). assert (running [] g1) as H1.
    { apply running_emit; [|done]. by destruct H. }
    destruct re; [|by exists g1]. replace (quitting g1) with (quitting g) by done. rewrite Hq. cbn [negb]. by apply Term.
  - rewrite Hq. cbn [negb]. eexists. split; [done|]. split; [|done]. by apply running_emit; [apply running_emit|].
  - rewrite Hr, Hq. destruct (device_read_consumed cb (ip6_given g) sizes ip_err data Hok) as (tr & -> & Htr).
    eexists. split; [done|]. split; [|done]. by apply running_emit.
  - destruct (listener g || listener_ip6 g); [|by exists g].
    destruct (step_tun_ok (clients g) i (ru_clients _ _ H) Hok) as (w & acts & -> & Hw & Hl). eexists. split; [done|].
    split; [|done]. by apply running_clients.
Qed.

Lemma dispatch_ok evs : Forall event_ok evs -> forall g, ready g -> exists g', dispatch g evs = Some g' /\ ready g'.
Proof.
  induction 1 as [|e evs He Hevs IH]; intros g H; cbn [dispatch]; destruct (exiting g) eqn:Ex; try by exists g.
  destruct (handle_ok g e H Ex He) as (g1 & -> & H1). by apply IH.
Qed.

(** A signal ends the loop. *)
Lemma dispatch_signal evs : Forall event_ok evs -> In ESignal evs -> forall g g', ready g ->
  dispatch g evs = Some g' -> exiting g' = true.
Proof.
  induction 1 as [|e evs He Hevs IH]; intros Hin g g' H; [done|]. cbn [dispatch]. destruct (exiting g) eqn:Ex; [by intros [= <-]|].
  destruct (handle_ok g e H Ex He) as (g1 & E1 & H1). rewrite E1. destruct Hin as [->|Hin]; [|by apply IH].
  cbn [handle] in E1. unfold signal_handler, terminate in E1. destruct (quitting g); [done|]. injection E1 as <-.
  destruct evs; cbn; by intros [= <-].
Qed.

(** Start-up and clean-up. *)
Lemma configure_ok ll ls : level_ok ll -> Forall level_ok ls -> exists r, configure_channels ll ls = Some r.
Proof.
  unfold level_ok. intros Hl. induction 1 as [|l ls H _ IH]; cbn [configure_channels]; [by eexists|].
  destruct IH as [r ->]. destruct (Z.leb_spec 0 l).
  - rewrite (proj2 (Z.leb_le 0 l)), (proj2 (Z.leb_le l BLOG_DEBUG)) by lia. by eexists.
  - destruct (Z.leb_spec 0 ll); [|by eexists]. rewrite (proj2 (Z.leb_le 0 ll)), (proj2 (Z.leb_le ll BLOG_DEBUG)) by lia. by eexists.
Qed.

Lemma startup_ok g fo al o ip6 a c :
  (logger o = LOGGER_STDOUT \/ logger o = LOGGER_SYSLOG) -> level_ok o.(loglevel) -> Forall level_ok o.(loglevels) ->
  process_arguments g fo al o ip6 None = Some c ->
  (forall c', c = Some c' -> is_ipv4 (cfg_netif_ipaddr c') = true /\ is_ipv4 (cfg_netif_netmask c') = true) ->
  exists r, startup g fo al o ip6 a = Some r /\
    match r with
    | inl tr => held [] [] tr = Some ([], [])
    | inr w => running [] w /\ quitting w = false /\ have_netif w = false /\ clients w = no_clients
    end.
Proof.
  intros Hl Hv Hvs Hp Hc. unfold startup.
  assert ((logger o =? LOGGER_STDOUT) || (logger o =? LOGGER_SYSLOG) = true) as -> by (destruct Hl as [-> | ->]; done).
  destruct (_ && negb (syslog_ok a)); [by eexists|]. destruct (configure_ok _ _ Hv Hvs) as [lv ->].
  destruct (network_ok a); cbn [negb]; [|by eexists]. rewrite Hp. destruct c as [c|]; [|by eexists]. specialize (Hc c eq_refl).
  set (pw := given _). destruct (reactor_ok a); cbn [negb]; [|eexists; split; [done|]; by destruct pw].
  destruct (signal_ok a); cbn [negb]; [|eexists; split; [done|]; by destruct pw].
  destruct (tap_ok a); cbn [negb]; [|eexists; split; [done|]; by destruct pw].
  destruct (read_buffer_ok a); cbn [negb]; [|eexists; split; [done|]; by destruct pw].
  destruct (write_buf_ok a); cbn [negb]; [|eexists; split; [done|]; by destruct pw].
  eexists. split; [done|]. split; [|done]. constructor; cbn [cfg quitting exiting life listener_ip6 listener have_netif clients].
  - done.
  - done.
  - by destruct pw.
  - done.
  - fold pw. by destruct pw.
  - repeat constructor.
Qed.

Lemma life_run_ok g a evs : running [] g -> quitting g = false -> have_netif g = false -> clients g = no_clients -> Forall event_ok evs ->
  exists r, tun2socks_run g a evs = Some r /\
    match r with inl tr => held [] [] tr = Some ([], []) | inr w => exiting w = false /\ ~ In ESignal evs end.
Proof.
  intros H Hq Hn Hc Hevs. unfold tun2socks_run, BReactor_Exec.
  destruct (lwip_init_ok g a H Hq Hn Hc) as (g1 & -> & H1). destruct (dispatch_ok evs Hevs g1 H1) as (g2 & E2 & [H2 _]). rewrite E2.
  destruct (exiting g2) eqn:Ex; cbn [negb];
    [|eexists; split; [done|]; split; [done|]; intros Hs; pose proof (dispatch_signal evs Hevs Hs g1 g2 H1 E2); congruence].
  destruct H2 as [_ _ _ _ Hh [Hcnt Hlive [ND _]]]. destruct (free_clients_ok _ Hlive) as (dead & Ed & Hd & _).
  rewrite Hcnt, Ed. eexists. split; [done|]. unfold fail5, fail4a, fail4, fail3, fail2, fail1, fail0.
  replace (map (fun x => OnClient (Unlink x.1)) dead) with (map OnClient (map Unlink (map fst dead))) by (by rewrite !map_map).
  rewrite <- Hd in Hh, ND. rewrite !held_app, Hh, held_clients, unlink_all by done.
  set (pw := given _). by destruct (listener_ip6 g2), (listener g2), (have_netif g2), pw.
Qed.

(** Options that pass the checks start up without a failed assertion. *)
Lemma startup_complete g fo al o ip6 a :
  (logger o = LOGGER_STDOUT \/ logger o = LOGGER_SYSLOG) -> level_ok o.(loglevel) -> Forall level_ok o.(loglevels) ->
  options_complete (set_help false (set_version false o)) = true -> getaddrinfo_ok g -> length ip6 = 16%nat ->
  exists r, startup g fo al o ip6 a = Some r /\
    match r with
    | inl tr => held [] [] tr = Some ([], [])
    | inr w => running [] w /\ quitting w = false /\ have_netif w = false /\ clients w = no_clients
    end.
Proof.
  intros Hl Hv Hvs Hc Hg H6. destruct (process_ok o g fo al ip6 Hc Hg H6) as (c & Hp & Hr).
  apply (startup_ok g fo al o ip6 a c); try done. intros c' ->.
  destruct (Hr c' eq_refl) as ((ip & mask & -> & ->) & _). done.
Qed.

Lemma init_ok g fo al o channels tundev ipaddr netmask socksaddr ip6 a :
  getaddrinfo_ok g -> length ip6 = 16%nat ->
  exists r, tun2socks_init g fo al o channels tundev ipaddr netmask socksaddr ip6 a = Some r /\
    match r with
    | inl tr => held [] [] tr = Some ([], [])
    | inr w => running [] w /\ quitting w = false /\ have_netif w = false /\ clients w = no_clients
    end.
Proof.
  intros Hg H6. unfold tun2socks_init. apply startup_complete; try done; [by left|].
  apply Forall_forall. intros l Hl. apply list_elem_of_In, repeat_spec in Hl. subst. unfold level_ok, BLOG_DEBUG. lia.
Qed.

End Tun2Socks.
Import Tun2Socks.

Section Lifecycle.
Context (getaddrinfo : bool -> bool -> bytes -> option bytes) (fopen : bytes -> option file) (alloc_ok : Z -> bool).

(** C35: tun2socks releases what it acquires, in reverse order, however it
    starts and ends.  With a [getaddrinfo] that answers in the family it is
    asked for: whichever step of [tun2socks_init] fails, everything acquired
    before is released, last first, and nothing else is; after a successful
    start, which holds the log, the reactor, the signals, the device with its
    interface and buffers, the job, the timer and, if there is one, the
    password, for all answers of lwIP and every sequence of events (signals,
    device errors, hang-ups, timers, packets read from the device, accepted
    connections and whatever happens on them) no assertion fails and every
    packet buffer is consumed once, and when the event loop ends
    [tun2socks_run] first murders the clients that are still linked, each
    once, and then releases everything else, last first; a signal always ends
    the loop. *)
Theorem init_run_releases o channels tundev ipaddr netmask socksaddr old_ip6 a la evs :
  getaddrinfo_ok getaddrinfo -> length old_ip6 = 16%nat -> Forall event_ok evs ->
  exists r, tun2socks_init getaddrinfo fopen alloc_ok o channels tundev ipaddr netmask socksaddr old_ip6 a = Some r /\
    match r with
    | inl tr => held [] [] tr = Some ([], [])
    | inr g =>
        held [] [] g.(life) = Some (base_resources (given g.(cfg).(cfg_password_file_contents)), []) /\
        exists r, tun2socks_run g la evs = Some r /\
          match r with inl tr => held [] [] tr = Some ([], []) | inr g => g.(exiting) = false /\ ~ In ESignal evs end
    end.
Proof.
  intros Hg H6 Hevs.
  destruct (init_ok getaddrinfo fopen alloc_ok o channels tundev ipaddr netmask socksaddr old_ip6 a Hg H6) as (r & E & H).
  exists r. split; [done|]. destruct r as [tr|g]; [done|]. destruct H as (R & Hq & Hn & Hc). split.
  - pose proof (ru_held _ _ R) as Hh. pose proof (ru_order _ _ R) as [O6 O4]. rewrite Hn in *.
    destruct (listener_ip6 g); [by specialize (O4 (O6 eq_refl))|]. destruct (listener g); [by specialize (O4 eq_refl)|]. by rewrite Hh, Hc.
  - destruct (life_run_ok g la evs R Hq Hn Hc Hevs) as (r & -> & Hr). by exists r.
Qed.

(** The program entry ends cleanly on every command line: [tun2socks_main]
    never fails an assertion and never dereferences a missing option, whatever
    the arguments, the answers of the system and the events; the exit status
    is 0 only for --help and --version, which acquire nothing, and when it
    returns nothing is held. *)
Theorem main_releases channels argv o0 old_ip6 a la evs :
  getaddrinfo_ok getaddrinfo -> length old_ip6 = 16%nat -> Forall event_ok evs ->
  exists r, tun2socks_main getaddrinfo fopen alloc_ok channels argv o0 old_ip6 a la evs = Some r /\
    match r with
    | inl (status, tr) => held [] [] tr = Some ([], []) /\ (status = 0 -> tr = [])
    | inr g => g.(exiting) = false
    end.
Proof.
  intros Hg H6 Hevs. unfold tun2socks_main. destruct argv as [|a0 args]; [by eexists|].
  destruct (parse_arguments channels (a0 :: args) o0) as [o ok] eqn:Ep. destruct ok; cbn [negb]; [|by eexists].
  destruct (help o) eqn:Hh; [by eexists|]. destruct (version o) eqn:Hv; [by eexists|].
  apply parse_arguments_range in Ep as [(Hl & Hlv & Hlvs & _) Hc].
  destruct (startup_complete getaddrinfo fopen alloc_ok o old_ip6 a) as (r & -> & H); try done.
  { destruct o. cbn in Hh, Hv. by subst. }
  destruct r as [tr|g]; [by eexists|]. destruct H as (R & Hq & Hn & Hcl).
  destruct (life_run_ok g la evs R Hq Hn Hcl Hevs) as (r & -> & Hr). destruct r; eexists; (split; [done|]); [done|by destruct Hr].
Qed.

(** Tun2socks asks the reactor to stop at most once through [terminate],
    and a handler never runs after that: in every state the event loop reaches,
    [quitting] is set exactly when [terminate] ran, it ran at most once, and
    then the loop is exiting. *)
Theorem terminates_once o channels tundev ipaddr netmask socksaddr old_ip6 a g la evs :
  getaddrinfo_ok getaddrinfo -> length old_ip6 = 16%nat -> Forall event_ok evs ->
  tun2socks_init getaddrinfo fopen alloc_ok o channels tundev ipaddr netmask socksaddr old_ip6 a = Some (inr g) ->
  exists g', BReactor_Exec g la evs = Some g' /\
    terminations g'.(life) = (if g'.(quitting) then 1%nat else 0%nat) /\ (g'.(quitting) = true -> g'.(exiting) = true).
Proof.
  intros Hg H6 Hevs Ei.
  destruct (init_ok getaddrinfo fopen alloc_ok o channels tundev ipaddr netmask socksaddr old_ip6 a Hg H6) as (r & E & H).
  rewrite E in Ei. injection Ei as ->. destruct H as (R & Hq & Hn & Hc). unfold BReactor_Exec.
    destruct (lwip_init_ok g la R Hq Hn Hc) as (g1 & -> & H1). destruct (dispatch_ok evs Hevs g1 H1) as (g2 & -> & [H2 _]).
    exists g2. split; [done|]. split; [apply (ru_once _ _ H2)|apply (ru_quit _ _ H2)].
Qed.
End Lifecycle.

(** A run that accepts a connection and is stopped by a signal. *)
Definition all_ok : init_answers := InitAnswers true true true true true true true.
Definition lwip_ok : lwip_answers := LwipAnswers true false true true true true true true.
Definition a_session : list event :=
  [ETimer; EPacket true (Some [2; 4]%nat) TcpClient.ERR_OK [69; 0; 0; 4]; EClient (nth 0 two_clients (TClient 0 TcpClient.IErr)); ESignal].

Lemma a_session_ok : Forall event_ok a_session.
Proof.
  assert (chain_ok (Some [2; 4]%nat) [69; 0; 0; 4]) as Hc by (intros l [= <-]; split; [cbn; lia|]; do 2 eexists; split; [reflexivity|lia]).
  constructor; [done|]. constructor; [exact Hc|]. repeat constructor; vm_compute; intuition congruence.
Qed.
Lemma sample_getaddrinfo_ok : getaddrinfo_ok sample_getaddrinfo.
Proof. intros v6 num node octets [= <-]. split; [destruct v6; repeat constructor; unfold is_byte; lia|by destruct v6]. Qed.

Definition start : option (list life_action + globals) :=
  tun2socks_init sample_getaddrinfo (fun _ => None) (fun _ => true) sample_options 2 (bs "tun0") (bs "10.0.0.1")
    (bs "255.0.0.0") (bs "127.0.0.1:1080") (repeat 0 16) all_ok.
Definition start_globals : globals :=
  match start with Some (inr g) => g | _ => Globals true true true true true true (Config BIPAddr_None BIPAddr_None [] BAddr_None [] None) no_clients [] end.

Lemma init_run_releases_witness :
  exists r, start = Some r /\
    match r with
    | inl tr => held [] [] tr = Some ([], [])
    | inr g =>
        held [] [] g.(life) = Some (base_resources (given g.(cfg).(cfg_password_file_contents)), []) /\
        exists r, tun2socks_run g lwip_ok a_session = Some r /\
          match r with inl tr => held [] [] tr = Some ([], []) | inr g => g.(exiting) = false /\ ~ In ESignal a_session end
    end.
Proof. apply init_run_releases; [exact sample_getaddrinfo_ok|reflexivity|exact a_session_ok]. Defined.

(** The client of the session is linked, and murdered when the signal has ended
    the loop. *)
Example session_unlinks :
  match tun2socks_run start_globals lwip_ok a_session with
  | Some (inl tr) => List.filter (fun a => match a with OnClient _ => true | _ => false end) tr = [OnClient (Link 0); OnClient (Unlink 0)]
  | _ => False
  end.
Proof. vm_compute. reflexivity. Qed.

Lemma main_releases_witness :
  exists r, tun2socks_main sample_getaddrinfo (fun _ => None) (fun _ => true) [bs "tun2socks"; bs "BTap"]
      (bs "tun2socks" :: render [bs "tun2socks"; bs "BTap"] sample_options) sample_options (repeat 0 16) all_ok lwip_ok a_session = Some r /\
    match r with
    | inl (status, tr) => held [] [] tr = Some ([], []) /\ (status = 0 -> tr = [])
    | inr g => g.(exiting) = false
    end.
Proof. apply main_releases; [exact sample_getaddrinfo_ok|reflexivity|exact a_session_ok]. Defined.

Lemma terminates_once_witness :
  exists g', BReactor_Exec start_globals lwip_ok a_session = Some g' /\
    terminations g'.(life) = (if g'.(quitting) then 1%nat else 0%nat) /\ (g'.(quitting) = true -> g'.(exiting) = true).
Proof.
  apply (terminates_once sample_getaddrinfo (fun _ => None) (fun _ => true) sample_options 2 (bs "tun0") (bs "10.0.0.1")
    (bs "255.0.0.0") (bs "127.0.0.1:1080") (repeat 0 16) all_ok); [exact sample_getaddrinfo_ok|reflexivity|exact a_session_ok|].
  vm_compute. reflexivity.
Defined.
