(* ===== verification/Stun.v ===== *)
(** * STUN client

    Models [measurement_proxy/ministun.c] as it is compiled (without
    [STUN_BINDREQ_PROCESS]): the parsing of a response in the receive buffer,
    which the parser also writes to, and the request with its retries.
    Messages to stderr are left out.  Ports and addresses keep their network
    byte order: a field is the little-endian value of its bytes. *)

From S2P Require Import Prelude.

Record sockaddr_in := SockIn { sin_port : Z; sin_addr : Z }.
Definition sockaddr_zero : sockaddr_in := SockIn 0 0.

Module Stun.

Definition STUN_IGNORE : Z := 0.
Definition STUN_BINDREQ : Z := 1.
Definition STUN_MAPPED_ADDRESS : Z := 1.
Definition STUN_COUNT : nat := 3.
Definition sizeof_stun_header : Z := 20.
Definition sizeof_stun_attr : Z := 4.

(** [ntohs] of the 16-bit field at [off]; [None] outside the buffer. *)
Definition ntohs_at (data : bytes) (off : Z) : option Z :=
  LET hi <- data !! Z.to_nat off in
  LET lo <- data !! Z.to_nat (off + 1) in
  Some (256 * hi + lo).
(** The [n] bytes at [off]. *)
Definition field_at (data : bytes) (off : Z) (n : nat) : option Z :=
  ASSERT (Z.to_nat off + n <=? length data)%nat in
  Some (le_dec (take n (drop (Z.to_nat off) data))).

(** The callback: [attr] is the offset of the attribute. *)
Definition stun_get_mapped (data : bytes) (attr : Z) (sa : sockaddr_in) : option sockaddr_in :=
  LET t <- ntohs_at data attr in
  LET l <- ntohs_at data (attr + 2) in
  if negb (t =? STUN_MAPPED_ADDRESS) || negb (l =? 8) then Some sa
  else
    LET port <- field_at data (attr + 6) 2 in
    LET addr <- field_at data (attr + 8) 4 in
    Some (SockIn port addr).

(** [while (len)]: the buffer, the offset of the unprocessed data and the
    answer at the end of the loop. *)
Fixpoint attr_loop (fuel : nat) (data : bytes) (pos len : Z) (sa : sockaddr_in) : option (bytes * Z * sockaddr_in) :=
  match fuel with
  | O => None
  | S fuel =>
      if len =? 0 then Some (data, pos, sa)
      else if len <? sizeof_stun_attr then Some (data, pos, sa)
      else
        LET l <- ntohs_at data (pos + 2) in
        let x := l + sizeof_stun_attr in
        if len <? x then Some (data, pos, sa)
        else
          LET sa <- stun_get_mapped data pos sa in
          LET data <- store (Z.to_nat pos) [0; 0] data in
          attr_loop fuel data (pos + x) (len - x) sa
  end.

(** [data] is the whole receive buffer, of which [len] bytes were received. *)
Definition stun_handle_packet (data : bytes) (len : Z) (sa : sockaddr_in) : option (Z * bytes * sockaddr_in) :=
  if len <? sizeof_stun_header then Some (-1, data, sa)
  else
    LET x <- ntohs_at data 2 in
    let len := len - sizeof_stun_header in
    let len := if len <? x then len else x in
    LET r <- attr_loop (S (Z.to_nat len)) data sizeof_stun_header len sa in
    let '(data, pos, sa) := r in
    LET data <- store (Z.to_nat pos) [0] data in
    Some (STUN_IGNORE, data, sa).

(** ** Requests *)

(** What one try meets: [sendto] or [select] fails (or times out), [recvfrom]
    fails, or a datagram arrives in a buffer with other contents. *)
Inductive try_result :=
  | SendFailed
  | NoResponse
  | RecvFailed
  | Datagram (d stale : bytes).

(** The request: a header without attributes. *)
Definition stun_req (id : bytes) : bytes := [0; STUN_BINDREQ; 0; 0] ++ id.

(** The retry loop: the datagrams sent, the return value, and the answer.
    [want] is [answer != NULL]. *)
Fixpoint request_loop (retries : nat) (want : bool) (req : bytes) (tries : list try_result) (sent : list bytes)
    (answer : sockaddr_in) : option (list bytes * Z * sockaddr_in) :=
  match retries, tries with
  | O, _ | _, [] => Some (sent, -1, answer)
  | S n, t :: tries =>
      match t with
      | SendFailed => request_loop n want req tries sent answer
      | _ =>
          let sent := sent ++ [req] in
          if negb want then Some (sent, -1, answer)
          else
            match t with
            | Datagram d stale =>
                let buf := take 1024 (d ++ drop (length d) stale) in
                LET r <- stun_handle_packet buf (Z.of_nat (length d)) sockaddr_zero in
                let '(_, _, sa) := r in
                Some (sent, 0, sa)
            | _ => request_loop n want req tries sent answer
            end
      end
  end.

(** [answer0] is what the caller's structure holds before the call. *)
Definition stun_request (want : bool) (id : bytes) (tries : list try_result) (answer0 : sockaddr_in)
  : option (list bytes * Z * sockaddr_in) :=
  request_loop STUN_COUNT want (stun_req id) tries [] answer0.

(** ** Lemmas *)

Lemma ntohs_at_ok data off : bytes_ok data -> 0 <= off -> off + 2 <= Z.of_nat (length data) ->
  exists v, ntohs_at data off = Some v /\ 0 <= v < 65536.
Proof.
  intros Hb H0 H1. unfold ntohs_at.
  destruct (lookup_lt_is_Some_2 data (Z.to_nat off)) as [a Ea]; [lia|].
  destruct (lookup_lt_is_Some_2 data (Z.to_nat (off + 1))) as [b Eb]; [lia|]. rewrite Ea, Eb. eexists. split; [done|].
  pose proof (Forall_lookup_1 _ _ _ _ Hb Ea). pose proof (Forall_lookup_1 _ _ _ _ Hb Eb). unfold is_byte in *. lia.
Qed.
Lemma field_at_ok data off n : 0 <= off -> off + Z.of_nat n <= Z.of_nat (length data) -> exists v, field_at data off n = Some v.
Proof. intros H0 H1. unfold field_at. rewrite (proj2 (Nat.leb_le _ _)) by lia. by eexists. Qed.

Lemma get_mapped_ok data pos l sa :
  bytes_ok data -> 0 <= pos -> pos + 4 <= Z.of_nat (length data) -> ntohs_at data (pos + 2) = Some l ->
  pos + 4 + l <= Z.of_nat (length data) -> exists sa', stun_get_mapped data pos sa = Some sa'.
Proof.
  intros Hb H0 H1 Hl H2. unfold stun_get_mapped. destruct (ntohs_at_ok data pos) as (t & -> & _); [done|lia|lia|].
  rewrite Hl. destruct (_ || _) eqn:E; [by eexists|]. apply orb_false_iff in E as [_ E]. apply negb_false_iff, Z.eqb_eq in E. subst l.
  destruct (field_at_ok data (pos + 6) 2) as [p ->]; [lia|lia|].
  destruct (field_at_ok data (pos + 8) 4) as [a ->]; [lia|lia|]. by eexists.
Qed.

Lemma store_bytes off d l l' : bytes_ok l -> bytes_ok d -> store off d l = Some l' -> bytes_ok l'.
Proof.
  intros Hl Hd. unfold store. destruct (_ <=? _)%nat; [|done]. intros [= <-].
  apply Forall_app. split; [by apply Forall_take|]. apply Forall_app. split; [done|by apply Forall_drop].
Qed.

Lemma attr_loop_safe fuel : forall data pos len sa,
  bytes_ok data -> 0 <= pos -> 0 <= len -> pos + len <= Z.of_nat (length data) -> (Z.to_nat len < fuel)%nat ->
  exists data' pos' sa', attr_loop fuel data pos len sa = Some (data', pos', sa') /\ length data' = length data /\
    bytes_ok data' /\ pos <= pos' <= pos + len.
Proof.
  induction fuel as [|fuel IH]; intros data pos len sa Hb H0 Hl Hpl Hf; [lia|]. cbn [attr_loop]. unfold sizeof_stun_attr.
  destruct (Z.eqb_spec len 0); [do 3 eexists; split; [done|]; split; [done|]; split; [done|lia]|].
  destruct (Z.ltb_spec len 4); [do 3 eexists; split; [done|]; split; [done|]; split; [done|lia]|].
  destruct (ntohs_at_ok data (pos + 2)) as (l & El & Rl); [done|lia|lia|]. rewrite El.
  destruct (Z.ltb_spec len (l + 4)); [do 3 eexists; split; [done|]; split; [done|]; split; [done|lia]|].
  destruct (get_mapped_ok data pos l sa) as [sa1 ->]; [done|lia|lia|done|lia|].
  destruct (store_total (Z.to_nat pos) [0; 0] data) as [d Ed]; [cbn; lia|]. rewrite Ed.
  pose proof (store_length _ _ _ _ Ed) as Ld.
  destruct (IH d (pos + (l + 4)) (len - (l + 4)) sa1) as (d' & p' & s' & -> & L & B & P); [|lia|lia|lia|lia|].
  { eapply store_bytes; [exact Hb| |exact Ed]. repeat constructor; unfold is_byte; lia. }
  do 3 eexists. split; [done|]. split; [lia|]. split; [done|lia].
Qed.

(** An attribute on the wire. *)
Definition attr_bytes (a : Z * bytes) : bytes := be_enc 2 a.1 ++ be_enc 2 (Z.of_nat (length a.2)) ++ a.2.
Definition attrs_bytes (l : list (Z * bytes)) : bytes := concat (map attr_bytes l).
Definition attr_ok (a : Z * bytes) : Prop := 0 <= a.1 < 65536 /\ Z.of_nat (length a.2) < 65536 /\ bytes_ok a.2.

(** The mapped address an attribute carries. *)
Definition mapped (a : Z * bytes) : option sockaddr_in :=
  if (a.1 =? STUN_MAPPED_ADDRESS) && (length a.2 =? 8)%nat
  then Some (SockIn (le_dec (take 2 (drop 2 a.2))) (le_dec (drop 4 a.2))) else None.
Definition last_mapped (l : list (Z * bytes)) (sa : sockaddr_in) : sockaddr_in :=
  fold_left (fun sa a => match mapped a with Some sa => sa | None => sa end) l sa.

Lemma be_enc_2 x : 0 <= x < 65536 -> be_enc 2 x = [x / 256; x mod 256].
Proof.
  intros H. unfold be_enc. cbn [le_enc rev app]. rewrite (Z.mod_small (x / 256)); [done|].
  split; [apply Z.div_pos; lia|apply Z.div_lt_upper_bound; lia].
Qed.
Lemma ntohs_at_enc pre x suf : 0 <= x < 65536 ->
  ntohs_at (pre ++ be_enc 2 x ++ suf) (Z.of_nat (length pre)) = Some x.
Proof.
  intros H. rewrite be_enc_2 by done. unfold ntohs_at. rewrite Nat2Z.id.
  replace (Z.to_nat (Z.of_nat (length pre) + 1)) with (length pre + 1)%nat by lia.
  rewrite lookup_app_r by lia. replace (length pre - length pre)%nat with 0%nat by lia. cbn [lookup list_lookup app].
  rewrite lookup_app_r by lia. replace (length pre + 1 - length pre)%nat with 1%nat by lia. cbn.
  f_equal. pose proof (Z.div_mod x 256). lia.
Qed.
Lemma field_at_mid pre d suf off n : off = Z.of_nat (length pre) -> length d = n ->
  field_at (pre ++ d ++ suf) off n = Some (le_dec d).
Proof.
  intros -> Hn. unfold field_at. rewrite Nat2Z.id, !length_app, (proj2 (Nat.leb_le _ _)) by lia.
  by rewrite drop_app_length, take_app_length' by lia.
Qed.

Lemma attr_bytes_length a : length (attr_bytes a) = (4 + length a.2)%nat.
Proof. unfold attr_bytes. rewrite !length_app, !be_enc_length. lia. Qed.

Lemma get_mapped_enc pre a suf sa : attr_ok a ->
  stun_get_mapped (pre ++ attr_bytes a ++ suf) (Z.of_nat (length pre)) sa =
  Some (match mapped a with Some sa => sa | None => sa end).
Proof.
  intros (Ht & Hl & Hb). destruct a as [t v]. cbn [fst snd] in *. unfold stun_get_mapped, attr_bytes, mapped. cbn [fst snd].
  rewrite <- !app_assoc, ntohs_at_enc by done.
  replace (Z.of_nat (length pre) + 2) with (Z.of_nat (length (pre ++ be_enc 2 t))) by (rewrite length_app, be_enc_length; lia).
  rewrite app_assoc, ntohs_at_enc by lia.
  destruct (Z.eqb_spec t STUN_MAPPED_ADDRESS); cbn [negb orb andb]; [|done].
  destruct (Z.eqb_spec (Z.of_nat (length v)) 8) as [L8|], (Nat.eqb_spec (length v) 8); cbn [negb]; try lia; try done.
  destruct v as [|v0 [|v1 [|v2 [|v3 [|v4 [|v5 [|v6 [|v7 [|]]]]]]]]]; try (cbn in L8; lia).
  set (h := be_enc 2 (Z.of_nat (length [v0; v1; v2; v3; v4; v5; v6; v7]))).
  assert (length ((pre ++ be_enc 2 t) ++ h) = (length pre + 4)%nat) as Lh
    by (rewrite !length_app, be_enc_length; unfold h; rewrite be_enc_length; lia).
  rewrite (app_assoc _ h).
  change ([v0; v1; v2; v3; v4; v5; v6; v7] ++ suf) with ([v0; v1] ++ [v2; v3] ++ [v4; v5; v6; v7] ++ suf).
  set (q := (pre ++ be_enc 2 t) ++ h) in *. rewrite app_assoc.
  rewrite (field_at_mid (q ++ [v0; v1]) [v2; v3]) by (rewrite ?length_app; cbn [length]; lia || done).
  rewrite (app_assoc (q ++ _)). rewrite (field_at_mid ((q ++ [v0; v1]) ++ [v2; v3]) [v4; v5; v6; v7])
    by (rewrite ?length_app; cbn [length]; lia || done). done.
Qed.

Lemma attr_loop_enc l : Forall attr_ok l -> forall fuel pre suf sa,
  (length (attrs_bytes l) < fuel)%nat ->
  exists data, attr_loop fuel (pre ++ attrs_bytes l ++ suf) (Z.of_nat (length pre)) (Z.of_nat (length (attrs_bytes l))) sa =
    Some (data, Z.of_nat (length pre + length (attrs_bytes l)), last_mapped l sa) /\
    length data = length (pre ++ attrs_bytes l ++ suf).
Proof.
  induction 1 as [|a l Ha Hl IH]; intros fuel pre suf sa Hf; (destruct fuel as [|fuel]; [cbn in Hf; lia|]).
  { cbn. rewrite Nat.add_0_r. by eexists. }
  unfold attrs_bytes in *. cbn [map concat] in *. fold (attrs_bytes l) in *. rewrite length_app, attr_bytes_length in *.
  cbn [attr_loop]. unfold sizeof_stun_attr.
  destruct (Z.eqb_spec (Z.of_nat (4 + length a.2 + length (attrs_bytes l))) 0); [lia|].
  destruct (Z.ltb_spec (Z.of_nat (4 + length a.2 + length (attrs_bytes l))) 4); [lia|].
  assert (ntohs_at (pre ++ (attr_bytes a ++ attrs_bytes l) ++ suf) (Z.of_nat (length pre) + 2) = Some (Z.of_nat (length a.2))) as ->.
  { unfold attr_bytes. rewrite <- !app_assoc, (app_assoc pre).
    replace (Z.of_nat (length pre) + 2) with (Z.of_nat (length (pre ++ be_enc 2 a.1))) by (rewrite length_app, be_enc_length; lia).
    apply ntohs_at_enc. destruct Ha as (_ & ? & _). lia. }
  destruct (Z.ltb_spec (Z.of_nat (4 + length a.2 + length (attrs_bytes l))) (Z.of_nat (length a.2) + 4)); [lia|].
  rewrite <- app_assoc, get_mapped_enc by done. rewrite Nat2Z.id.
  assert (exists pre', store (length pre) [0; 0] (pre ++ attr_bytes a ++ attrs_bytes l ++ suf) = Some (pre' ++ attrs_bytes l ++ suf) /\
            length pre' = (length pre + (4 + length a.2))%nat) as (pre' & -> & Lp).
  { unfold attr_bytes. rewrite <- !app_assoc, store_mid by done.
    exists (pre ++ [0; 0] ++ be_enc 2 (Z.of_nat (length a.2)) ++ a.2). split; [by rewrite <- !app_assoc|].
    rewrite !length_app, be_enc_length. cbn [length]. lia. }
  replace (Z.of_nat (length pre) + (Z.of_nat (length a.2) + 4)) with (Z.of_nat (length pre')) by lia.
  replace (Z.of_nat (4 + length a.2 + length (attrs_bytes l)) - (Z.of_nat (length a.2) + 4)) with (Z.of_nat (length (attrs_bytes l))) by lia.
  destruct (IH fuel pre' suf (match mapped a with Some sa => sa | None => sa end)) as (data & -> & Ld); [lia|].
  exists data. split; [do 2 f_equal; f_equal; lia|].
  rewrite Ld, !length_app, attr_bytes_length. lia.
Qed.

(** A datagram in the receive buffer. *)
Definition reply_buf (d stale : bytes) : bytes := take 1024 (d ++ drop (length d) stale).
Definition datagram_ok (d stale : bytes) : Prop :=
  bytes_ok d /\ bytes_ok stale /\ (0 < length d <= 1023)%nat /\ length stale = 1024%nat.
Definition try_ok (t : try_result) : Prop := match t with Datagram d stale => datagram_ok d stale | _ => True end.

Lemma reply_buf_eq d stale : datagram_ok d stale -> reply_buf d stale = d ++ drop (length d) stale.
Proof. intros (_ & _ & Hd & Hs). unfold reply_buf. apply take_ge. rewrite length_app, length_drop. lia. Qed.
Lemma reply_buf_ok d stale : datagram_ok d stale -> bytes_ok (reply_buf d stale) /\ length (reply_buf d stale) = 1024%nat.
Proof.
  intros H. rewrite reply_buf_eq by done. destruct H as (Hd & Hs & Hl & Ls). split.
  - apply Forall_app. split; [done|by apply Forall_drop].
  - rewrite length_app, length_drop. lia.
Qed.

Lemma handle_packet_safe d stale sa : datagram_ok d stale ->
  exists ret data sa', stun_handle_packet (reply_buf d stale) (Z.of_nat (length d)) sa = Some (ret, data, sa') /\
    length data = 1024%nat /\ bytes_ok data.
Proof.
  intros H. destruct (reply_buf_ok d stale H) as [Hb Hl]. destruct H as (_ & _ & Hd & _).
  unfold stun_handle_packet, sizeof_stun_header. destruct (Z.ltb_spec (Z.of_nat (length d)) 20); [by do 3 eexists|].
  destruct (ntohs_at_ok (reply_buf d stale) 2) as (x & -> & Hx); [done|lia|lia|].
  set (len := if _ <? x then _ else x).
  assert (0 <= len <= Z.of_nat (length d) - 20) as Hlen by (unfold len; destruct (Z.ltb_spec (Z.of_nat (length d) - 20) x); lia).
  destruct (attr_loop_safe (S (Z.to_nat len)) (reply_buf d stale) 20 len sa) as (data & pos & sa' & -> & L & B & P); [done|lia|lia|lia|lia|].
  destruct (store_total (Z.to_nat pos) [0] data) as [d' Ed]; [cbn; lia|]. rewrite Ed. do 3 eexists. split; [done|].
  split; [apply store_length in Ed; lia|]. eapply store_bytes; [exact B| |exact Ed]. repeat constructor; unfold is_byte; lia.
Qed.

(** The first datagram among the tries that are made. *)
Fixpoint first_datagram (n : nat) (tries : list try_result) : option (bytes * bytes) :=
  match n, tries with
  | S n, Datagram d stale :: _ => Some (d, stale)
  | S n, _ :: tries => first_datagram n tries
  | _, _ => None
  end.

Lemma request_loop_spec n req tries : forall sent answer, Forall try_ok tries ->
  exists k ret sa, request_loop n true req tries sent answer = Some (sent ++ repeat req k, ret, sa) /\ (k <= n)%nat /\
    match first_datagram n tries with
    | Some (d, stale) => ret = 0 /\ exists r data, stun_handle_packet (reply_buf d stale) (Z.of_nat (length d)) sockaddr_zero = Some (r, data, sa)
    | None => ret = -1 /\ sa = answer
    end.
Proof.
  revert tries. induction n as [|n IH]; intros tries sent answer Hok.
  { cbn. exists 0%nat. do 2 eexists. rewrite app_nil_r. by destruct tries. }
  destruct tries as [|t tries]; [cbn; exists 0%nat; do 2 eexists; rewrite app_nil_r; split; [done|]; split; [lia|done]|].
  inversion_clear Hok as [|? ? Ht Hok'].
  assert (forall sent', exists k ret sa, request_loop n true req tries sent' answer = Some (sent' ++ repeat req k, ret, sa) /\ (k <= n)%nat /\ _) as R
    by (intros sent'; exact (IH tries sent' answer Hok')).
  destruct t as [| | |d stale]; cbn [request_loop first_datagram negb].
  - destruct (R sent) as (k & ret & sa & -> & Hk & Hm). exists k, ret, sa. split; [done|]. split; [lia|done].
  - destruct (R (sent ++ [req])) as (k & ret & sa & -> & Hk & Hm). exists (S k), ret, sa. rewrite <- app_assoc. split; [done|]. split; [lia|done].
  - destruct (R (sent ++ [req])) as (k & ret & sa & -> & Hk & Hm). exists (S k), ret, sa. rewrite <- app_assoc. split; [done|]. split; [lia|done].
  - fold (reply_buf d stale). destruct (handle_packet_safe d stale sockaddr_zero Ht) as (r & data & sa & E & _). rewrite E.
    exists 1%nat, 0, sa. split; [done|]. split; [lia|]. split; [done|]. by do 2 eexists.
Qed.

End Stun.
Import Stun.

(** C38: a STUN response cannot make the parser leave its buffer.  For every
    datagram of up to 1023 bytes, whatever its lengths claim and whatever the
    buffer held before, parsing ends, all reads and the writes (the attribute
    types it clears and the terminating NUL after the last attribute) stay
    within the 1024 bytes of the buffer. *)
Theorem stun_packet_safe d stale sa : datagram_ok d stale ->
  exists ret data sa', stun_handle_packet (reply_buf d stale) (Z.of_nat (length d)) sa = Some (ret, data, sa') /\
    length data = 1024%nat /\ bytes_ok data.
Proof. intros H. by apply handle_packet_safe. Qed.

Lemma stun_packet_safe_witness :
  exists ret data sa', stun_handle_packet (reply_buf (repeat 255 1023) (repeat 0 1024)) (Z.of_nat (length (repeat 255 1023))) sockaddr_zero =
    Some (ret, data, sa') /\ length data = 1024%nat /\ bytes_ok data.
Proof.
  apply stun_packet_safe. split; [apply (bool_decide_unpack _); vm_compute; exact I|].
  split; [apply (bool_decide_unpack _); vm_compute; exact I|]. rewrite !repeat_length. lia.
Defined.

(** The external address is the last mapped-address attribute of the
    response.  For a message of any type and any transaction id whose length
    field is right, with any list of attributes, [stun_handle_packet] leaves
    in the answer the port and address of the last MAPPED-ADDRESS attribute of
    eight bytes, and leaves the answer alone when there is none. *)
Theorem stun_mapped_exact type id attrs stale sa :
  0 <= type < 65536 -> bytes_ok id -> length id = 16%nat -> Forall attr_ok attrs ->
  bytes_ok stale -> length stale = 1024%nat -> (20 + length (attrs_bytes attrs) <= 1023)%nat ->
  let d := be_enc 2 type ++ be_enc 2 (Z.of_nat (length (attrs_bytes attrs))) ++ id ++ attrs_bytes attrs in
  exists data, stun_handle_packet (reply_buf d stale) (Z.of_nat (length d)) sa = Some (STUN_IGNORE, data, last_mapped attrs sa).
Proof.
  intros Ht Hi Li Ha Hs Ls Hlen d.
  assert (length d = (20 + length (attrs_bytes attrs))%nat) as Ld by (unfold d; rewrite !length_app, !be_enc_length; lia).
  assert (reply_buf d stale = d ++ drop (length d) stale) as Er by (unfold reply_buf; apply take_ge; rewrite length_app, length_drop; lia).
  unfold stun_handle_packet, sizeof_stun_header. rewrite Er, Ld.
  destruct (Z.ltb_spec (Z.of_nat (20 + length (attrs_bytes attrs))) 20); [lia|].
  set (tail := drop (20 + length (attrs_bytes attrs)) stale). set (pre := be_enc 2 type ++ be_enc 2 (Z.of_nat (length (attrs_bytes attrs))) ++ id).
  assert (d ++ tail = pre ++ attrs_bytes attrs ++ tail) as Ed by (unfold d, pre; by rewrite <- !app_assoc).
  assert (length pre = 20%nat) as Lp by (unfold pre; rewrite !length_app, !be_enc_length; lia).
  assert (ntohs_at (d ++ tail) 2 = Some (Z.of_nat (length (attrs_bytes attrs)))) as ->.
  { unfold d. rewrite <- !app_assoc. replace 2 with (Z.of_nat (length (be_enc 2 type))) at 2 by (by rewrite be_enc_length).
    apply ntohs_at_enc. lia. }
  destruct (Z.ltb_spec (Z.of_nat (20 + length (attrs_bytes attrs)) - 20) (Z.of_nat (length (attrs_bytes attrs)))); [lia|].
  rewrite Ed. destruct (attr_loop_enc attrs Ha (S (Z.to_nat (Z.of_nat (length (attrs_bytes attrs))))) pre tail sa) as (data & E & Lda); [lia|].
  rewrite Lp in E. change (Z.of_nat 20) with 20 in E. rewrite E, Nat2Z.id.
  destruct (store_total (20 + length (attrs_bytes attrs)) [0] data) as [d' ->]; [|by eexists].
  rewrite Lda, !length_app, Lp. unfold tail. rewrite length_drop. cbn [length]. lia.
Qed.

Definition sample_attrs : list (Z * bytes) :=
  [(STUN_MAPPED_ADDRESS, [0; 1; 0; 80; 10; 0; 0; 1]); (32802, bs "x"); (STUN_MAPPED_ADDRESS, [0; 1; 4; 210; 93; 184; 216; 34])].

Lemma stun_mapped_exact_witness :
  let d := be_enc 2 257 ++ be_enc 2 (Z.of_nat (length (attrs_bytes sample_attrs))) ++ repeat 7 16 ++ attrs_bytes sample_attrs in
  exists data, stun_handle_packet (reply_buf d (repeat 9 1024)) (Z.of_nat (length d)) sockaddr_zero =
    Some (STUN_IGNORE, data, SockIn (le_dec [4; 210]) (le_dec [93; 184; 216; 34])).
Proof.
  apply (stun_mapped_exact 257 (repeat 7 16) sample_attrs (repeat 9 1024) sockaddr_zero); try reflexivity; try lia.
  - apply (bool_decide_unpack _). vm_compute. exact I.
  - unfold sample_attrs, attr_ok. repeat constructor; cbn; unfold STUN_MAPPED_ADDRESS, is_byte; lia.
  - apply (bool_decide_unpack _). vm_compute. exact I.
  - cbn. lia.
Defined.

(** C39: a request for the external address is sent at most three times and
    succeeds exactly when an answer arrives.  Whatever the tries meet,
    [stun_request] ends; every datagram it sends is the same binding request,
    at most [STUN_COUNT] of them; it returns 0 with the address of the first
    datagram received in one of these tries, and when none is received it
    returns -1 and leaves the caller's structure as it was. *)
Theorem stun_request_outcome id tries answer0 : Forall try_ok tries ->
  exists k ret sa, stun_request true id tries answer0 = Some (repeat (stun_req id) k, ret, sa) /\ (k <= STUN_COUNT)%nat /\
    match first_datagram STUN_COUNT tries with
    | Some (d, stale) => ret = 0 /\ exists r data, stun_handle_packet (reply_buf d stale) (Z.of_nat (length d)) sockaddr_zero = Some (r, data, sa)
    | None => ret = -1 /\ sa = answer0
    end.
Proof. intros H. apply (request_loop_spec STUN_COUNT (stun_req id) tries [] answer0 H). Qed.

Lemma stun_request_outcome_witness :
  exists k ret sa, stun_request true (repeat 1 16) [NoResponse; SendFailed; Datagram (repeat 0 20) (repeat 0 1024)] sockaddr_zero =
      Some (repeat (stun_req (repeat 1 16)) k, ret, sa) /\ (k <= STUN_COUNT)%nat /\
    (ret = 0 /\ exists r data, stun_handle_packet (reply_buf (repeat 0 20) (repeat 0 1024)) (Z.of_nat (length (repeat 0 20))) sockaddr_zero = Some (r, data, sa)).
Proof.
  apply (stun_request_outcome (repeat 1 16) [NoResponse; SendFailed; Datagram (repeat 0 20) (repeat 0 1024)] sockaddr_zero).
  repeat constructor; try (apply (bool_decide_unpack _); vm_compute; exact I); rewrite ?repeat_length; lia.
Defined.

(** The documented "return 0 on success" does not hold for a request that does
    not wait for the answer: it is sent, and -1 is returned. *)
Theorem stun_no_wait_fails id answer0 :
  stun_request false id [NoResponse] answer0 = Some ([stun_req id], -1, answer0).
Proof. reflexivity. Qed.
