(* ===== verification/BindPublic.v ===== *)
(** * Binding to the node's public address

    Models [measurement_proxy/bind_public.c]: [bind] on the unspecified address
    is redirected to the address the node's name resolves to.  The resolver and
    [bind] itself are parameters; the messages are left out. *)

From S2P Require Import Prelude.

Inductive sockaddr :=
  | SA_INET (port addr : Z)
  | SA_INET6 (port : Z) (addr : bytes) (scope : Z)
  | SA_OTHER (family : Z) (data : bytes).

Module BindPublic.

Definition INADDR_ANY : Z := 0.
Definition EINVAL : Z := 22.

Section Bind.
(** [getaddrinfo] on the host name, for IPv4 and IPv6: the first address. *)
Context (resolve4 : option Z) (resolve6 : option bytes).
(** The result of [bind] on an address. *)
Context (bind : sockaddr -> Z).

(** 1, 0 or -1; the unspecified IPv6 address is sixteen zero bytes. *)
Definition is_addr_any (addr : sockaddr) : Z :=
  match addr with
  | SA_INET _ a => if a =? INADDR_ANY then 1 else 0
  | SA_INET6 _ a _ => if memcmp a (repeat 0 16) =? 0 then 1 else 0
  | SA_OTHER _ _ => -1
  end.

(** The address written back and the return value. *)
Definition get_public_ip (addr : sockaddr) : sockaddr * Z :=
  match addr with
  | SA_INET port _ =>
      match resolve4 with None => (addr, - EINVAL) | Some ip => (SA_INET port ip, 0) end
  | SA_INET6 port _ scope =>
      match resolve6 with None => (addr, - EINVAL) | Some ip => (SA_INET6 port ip scope, 0) end
  | SA_OTHER _ _ => (addr, -1)
  end.

(** The calls of [bind] and the return value. *)
Definition bind_public (addr : sockaddr) : list sockaddr * Z :=
  if 0 <? is_addr_any addr then
    let '(new_addr, rc) := get_public_ip addr in
    let '(calls, rc, tried_normal_bind) :=
      if rc =? - EINVAL then ([new_addr], bind new_addr, true)
      else if negb (rc =? 0) then ([], -1, false)
      else ([], rc, false) in
    if (rc =? 0) && negb tried_normal_bind then (calls ++ [new_addr], bind new_addr) else (calls, rc)
  else ([addr], bind addr).
End Bind.

(** The address the caller means. *)
Definition unspecified (addr : sockaddr) : Prop :=
  match addr with
  | SA_INET _ a => a = INADDR_ANY
  | SA_INET6 _ a _ => a = repeat 0 16
  | SA_OTHER _ _ => False
  end.
Definition public_addr (resolve4 : option Z) (resolve6 : option bytes) (addr : sockaddr) : sockaddr :=
  match addr, resolve4, resolve6 with
  | SA_INET port _, Some ip, _ => SA_INET port ip
  | SA_INET6 port _ scope, _, Some ip => SA_INET6 port ip scope
  | _, _, _ => addr
  end.

Lemma is_addr_any_spec addr :
  match addr with SA_INET6 _ a _ => length a = 16%nat | _ => True end ->
  (0 <? is_addr_any addr) = true <-> unspecified addr.
Proof.
  intros Hl. destruct addr as [p a|p a sc|f d]; cbn [is_addr_any unspecified].
  - destruct (Z.eqb_spec a INADDR_ANY); split; done.
  - rewrite <- (memcmp_refl_iff a (repeat 0 16)) by done. destruct (Z.eqb_spec (memcmp a (repeat 0 16)) 0); split; done.
  - split; done.
Qed.

End BindPublic.
Import BindPublic.

(** [bind_public] binds exactly once and only rewrites the unspecified
    address.  For every address, [bind] is called exactly once and its result
    is returned; an address other than 0.0.0.0 or :: is passed on as it is
    (addresses of another family too); the unspecified address is replaced by
    the node's public address with the same port, and is kept when the node's
    name does not resolve. *)
Theorem bind_public_once resolve4 resolve6 bind addr :
  match addr with SA_INET6 _ a _ => length a = 16%nat | _ => True end ->
  exists a, bind_public resolve4 resolve6 bind addr = ([a], bind a) /\
    (unspecified addr -> a = public_addr resolve4 resolve6 addr) /\ (~ unspecified addr -> a = addr).
Proof.
  intros Hl. pose proof (is_addr_any_spec addr Hl) as Hany. unfold bind_public.
  destruct (0 <? is_addr_any addr).
  - assert (unspecified addr) as Hu by (by apply Hany).
    exists (public_addr resolve4 resolve6 addr). split; [|split; [done|intros Hn; destruct (Hn Hu)]].
    destruct addr as [p a|p a sc|f d]; [destruct resolve4|destruct resolve4, resolve6|done]; cbn [get_public_ip public_addr]; unfold EINVAL; rewrite ?Z.eqb_refl; cbn; rewrite ?andb_false_r; done.
  - exists addr. split; [done|]. split; [|done]. intros Hu. apply Hany in Hu. done.
Qed.

Lemma bind_public_once_witness :
  exists a, bind_public (Some 16777226) None (fun _ => 0) (SA_INET 24862 0) = ([a], 0) /\
    (unspecified (SA_INET 24862 0) -> a = SA_INET 24862 16777226) /\ (~ unspecified (SA_INET 24862 0) -> a = SA_INET 24862 0).
Proof. apply (bind_public_once (Some 16777226) None (fun _ => 0) (SA_INET 24862 0)). exact I. Defined.
