(* ===== verification/Proxy.v ===== *)
(** * The remote proxy

    Models [measurement_proxy/proxy.c].  [proxy_start] is [main] up to its loop
    (the sockets, the port, the ARP announcement, the STUN request and the
    first datagram of the tunnel), [iteration] is the body of the loop.  The
    receive buffer is shared by all receptions and never cleared, so what an
    earlier packet left in it is part of the state.  The results of system
    calls are inputs; what is sent is recorded.  Debug output is left out. *)

From S2P Require Import Prelude.
From S2P Require Import ParseNumber.
From S2P Require Import CLib.
From S2P Require Import Stun.
From S2P Require Import BindPublic.
Import Stun.

Definition BUFLEN : Z := 65535.
Definition FD_SETSIZE : nat := 1024.
Definition ETH_P_IP : Z := 2048.
Definition ETH_P_ARP : Z := 2054.
Definition IPPROTO_ICMP : Z := 1.
Definition IPPROTO_TCP : Z := 6.
Definition IPPROTO_UDP : Z := 17.
Definition sizeof_ethhdr : Z := 14.
Definition sizeof_iphdr : Z := 20.

Module Proxy.

Inductive proxy_action :=
  | SendArp (frame : bytes)                (* sendto(sock_raw_recv, arp) *)
  | SendStun (d : bytes)                   (* by stun_request *)
  | SendTunnel (d : bytes)                 (* sendto(sock_udp, ..., &udp_client_addr) *)
  | SendTunnelWrapped (len : Z)            (* the same with a length that wrapped around *)
  | SendRaw (d dest : bytes)               (* sendto(sock_raw_send, ..., &dest_addr) *)
  | BindFake (port : Z)                    (* bind_public of a fake socket *)
  | Drain (fd : Z)                         (* recvfrom(sock_fake) *)
  | Output (s : bytes).                    (* printf *)

Record proxy := PX {
  sock_udp : Z; sock_raw_recv : Z; sock_raw_send : Z;
  if_raw_mac : bytes; if_raw_addr : bytes;
  arp : bytes;                             (* the ARP frame *)
  udp_client_ip : bytes;                   (* udp_client_addr.sin_addr *)
  port : Z; rport : Z;
  buffer : bytes;
  maxfd : Z;
  fd_udp_port : list Z;
  rset : gset Z;
  eof_socket : bool;
  out : list proxy_action;
}.

Definition set_buffer b p := PX p.(sock_udp) p.(sock_raw_recv) p.(sock_raw_send) p.(if_raw_mac) p.(if_raw_addr) p.(arp)
  p.(udp_client_ip) p.(port) p.(rport) b p.(maxfd) p.(fd_udp_port) p.(rset) p.(eof_socket) p.(out).
Definition set_arp a p := PX p.(sock_udp) p.(sock_raw_recv) p.(sock_raw_send) p.(if_raw_mac) p.(if_raw_addr) a
  p.(udp_client_ip) p.(port) p.(rport) p.(buffer) p.(maxfd) p.(fd_udp_port) p.(rset) p.(eof_socket) p.(out).
Definition set_fake fd ports p := PX p.(sock_udp) p.(sock_raw_recv) p.(sock_raw_send) p.(if_raw_mac) p.(if_raw_addr) p.(arp)
  p.(udp_client_ip) p.(port) p.(rport) p.(buffer) fd ports p.(rset) p.(eof_socket) p.(out).
Definition set_rset r p := PX p.(sock_udp) p.(sock_raw_recv) p.(sock_raw_send) p.(if_raw_mac) p.(if_raw_addr) p.(arp)
  p.(udp_client_ip) p.(port) p.(rport) p.(buffer) p.(maxfd) p.(fd_udp_port) r p.(eof_socket) p.(out).
Definition set_eof p := PX p.(sock_udp) p.(sock_raw_recv) p.(sock_raw_send) p.(if_raw_mac) p.(if_raw_addr) p.(arp)
  p.(udp_client_ip) p.(port) p.(rport) p.(buffer) p.(maxfd) p.(fd_udp_port) p.(rset) true p.(out).
Definition emit a p := PX p.(sock_udp) p.(sock_raw_recv) p.(sock_raw_send) p.(if_raw_mac) p.(if_raw_addr) p.(arp)
  p.(udp_client_ip) p.(port) p.(rport) p.(buffer) p.(maxfd) p.(fd_udp_port) p.(rset) p.(eof_socket) (p.(out) ++ [a]).

(** ** Packets *)

(** [recvfrom] of a datagram [d] into the buffer. *)
Definition fill (d buf : bytes) : bytes := d ++ drop (length d) buf.
(** The field of [n] bytes at [off] of the buffer. *)
Definition at_ (buf : bytes) (off n : nat) : bytes := take n (drop off buf).
(** [recvfrom] into the buffer and a read of it; [None] outside it. *)
Definition receive (d buf : bytes) : option bytes := ASSERT (length d <=? length buf)%nat in Some (fill d buf).
Definition read (buf : bytes) (off n : nat) : option bytes := ASSERT (off + n <=? length buf)%nat in Some (at_ buf off n).
Arguments fill : simpl never.
Arguments at_ : simpl never.
Arguments receive : simpl never.
Arguments read : simpl never.
(** [ntohs], which is [htons], of a 16-bit field. *)
Definition ntohs (f : bytes) : Z := be_dec f.

(** The gratuitous ARP reply; [dest] is [h_dest]. *)
Definition arp_frame (mac ip dest : bytes) : bytes :=
  dest ++ mac ++ be_enc 2 ETH_P_ARP ++
  be_enc 2 1 ++ be_enc 2 ETH_P_IP ++ [6; 4] ++ be_enc 2 2 ++ mac ++ ip ++ mac ++ ip.

(** [memcpy(arp_ethhdr->h_dest, mac, 6)] *)
Definition arp_to (mac frame : bytes) : bytes := mac ++ drop 6 frame.

(** [skip]: TCP, and the tunnel's own packets, are not forwarded. *)
Definition skip_packet (p : proxy) : option bool :=
  let buf := p.(buffer) in
  LET protocol <- read buf 23 1 in
  if le_dec protocol =? IPPROTO_ICMP then Some false
  else if le_dec protocol =? IPPROTO_TCP then Some true
  else if le_dec protocol =? IPPROTO_UDP then
    LET saddr <- read buf 26 4 in
    if bool_decide (saddr = p.(udp_client_ip)) then
      LET source <- read buf 34 2 in
      if ntohs source =? p.(rport) then LET dest <- read buf 36 2 in Some (ntohs dest =? p.(port))
      else Some false
    else Some false
  else Some false.

(** The branch for a frame from the raw socket that carries IP; [recsize] is
    the length of the frame. *)
Definition handle_ip (p : proxy) (recsize : Z) : option proxy :=
  LET daddr <- read p.(buffer) 30 4 in
  if bool_decide (daddr = p.(if_raw_addr)) then
    LET skip <- skip_packet p in
    if (skip : bool) then Some p
    else
      let len := u64 (recsize - sizeof_ethhdr) in
      if BUFLEN - sizeof_ethhdr <? len then Some (emit (SendTunnelWrapped len) p)
      else LET d <- read p.(buffer) 14 (Z.to_nat len) in Some (emit (SendTunnel d) p)
  else Some p.

(** The branch [FD_ISSET(sock_raw_recv)]; [d = None] is a failed receive, a
    result of [None] an access outside the buffer. *)
Definition handle_raw (p : proxy) (d : option bytes) : option proxy :=
  match d with
  | None | Some [] => Some p
  | Some d =>
      LET buf <- receive d p.(buffer) in
      let p := set_buffer buf p in
      LET h_proto <- read p.(buffer) 12 2 in
      if ntohs h_proto =? ETH_P_ARP then
        LET opcode <- read p.(buffer) 20 2 in
        if ntohs opcode =? 1 then
          LET target_ip <- read p.(buffer) 38 4 in
          if bool_decide (target_ip = p.(if_raw_addr)) then
            LET sender_mac <- read p.(buffer) 22 6 in
            let p := set_arp (arp_to sender_mac p.(arp)) p in
            Some (emit (SendArp p.(arp)) p)
          else Some p
        else Some p
      else if ntohs h_proto =? ETH_P_IP then handle_ip p (Z.of_nat (length d))
      else Some p
  end.

(** [strcmp(buf, s) == 0] for a string [s] of the program. *)
Fixpoint strcmp_equal (buf s : bytes) : option bool :=
  LET c <- head buf in
  match s with
  | [] => Some (c =? 0)
  | x :: s => if c =? x then strcmp_equal (tail buf) s else Some false
  end.
Definition is_exit (buf : bytes) : option bool := strcmp_equal buf (bs "EXIT").

(** The branch [FD_ISSET(sock_udp)].  [fd] is what [socket] returns for a fake
    socket; [None] is an access outside the buffer or outside [fd_udp_port]. *)
Definition handle_udp (p : proxy) (d : option bytes) (fd : Z) : option proxy :=
  match d with
  | None => Some (set_eof p)
  | Some d =>
      LET buf <- receive d p.(buffer) in
      let p := set_buffer buf p in
      LET stop <- (if (length d =? 4)%nat then is_exit buf else Some false) in
      if (stop : bool) then Some (set_eof p)
      else if (0 <? length d)%nat then
        LET dest <- read buf 16 4 in
        LET protocol <- read buf 9 1 in
        if le_dec protocol =? IPPROTO_ICMP then
          LET pkt <- read buf 0 (length d) in Some (emit (SendRaw pkt dest) p)
        else if le_dec protocol =? IPPROTO_TCP then Some p
        else if le_dec protocol =? IPPROTO_UDP then
          LET source <- read buf 20 2 in
          let p := emit (BindFake (le_dec source)) p in
          LET dport <- read buf 22 2 in
          ASSERT (0 <=? fd) && (fd <? Z.of_nat FD_SETSIZE) in
          let p := set_fake fd (<[Z.to_nat fd := ntohs dport]> p.(fd_udp_port)) p in
          LET pkt <- read buf 0 (length d) in Some (emit (SendRaw pkt dest) p)
        else LET pkt <- read buf 0 (length d) in Some (emit (SendRaw pkt dest) p)
      else Some (set_eof p)
  end.

(** The integers from [a] to [b]. *)
Definition range (a b : Z) : list Z := map (fun k => a + Z.of_nat k) (seq 0 (Z.to_nat (b - a + 1))).

(** The loop that empties the fake sockets. *)
Definition drain_fakes (p : proxy) : proxy :=
  fold_left (fun p fd => if bool_decide (fd ∈ p.(rset)) then emit (Drain fd) p else p)
    (range (p.(sock_raw_send) + 1) p.(maxfd)) p.

(** What an iteration meets: the descriptors [select] reports and what is
    received on the two sockets. *)
Record iter_input := Iter {
  ready : list Z;
  raw_data : option bytes;
  udp_data : option bytes;
  fake_fd : Z;
}.

(** The descriptors that are watched. *)
Definition watched (p : proxy) : gset Z :=
  p.(rset) ∪ {[p.(sock_udp); p.(sock_raw_recv); p.(sock_raw_send)]} ∪ list_to_set (range (p.(maxfd) + 1) p.(maxfd)).

(** [select] leaves a subset of what it was given, below [nfds]. *)
Definition select_ok (p : proxy) (r : list Z) : bool :=
  forallb (fun fd => bool_decide (fd ∈ watched p) && (fd <=? p.(maxfd))) r.

(** The first part of the loop's body, up to the test of [sock_udp]. *)
Definition raw_branch (p : proxy) (i : iter_input) : option proxy :=
  let p := set_rset (list_to_set i.(ready)) p in
  if bool_decide (p.(sock_raw_recv) ∈ p.(rset)) then handle_raw p i.(raw_data) else Some p.

Definition iteration (p : proxy) (i : iter_input) : option proxy :=
  LET p <- raw_branch p i in
  LET p <- (if bool_decide (p.(sock_udp) ∈ p.(rset)) then handle_udp p i.(udp_data) i.(fake_fd) else Some p) in
  Some (drain_fakes p).

(** [while(!eof_socket)]; inputs [select] cannot produce are skipped, and a
    failing [select] ends the process. *)
Fixpoint proxy_loop (p : proxy) (ins : list iter_input) : option proxy :=
  if p.(eof_socket) then Some p
  else
    match ins with
    | [] => Some p
    | i :: ins =>
        if select_ok p i.(ready) then LET p <- iteration p i in proxy_loop p ins
        else proxy_loop p ins
    end.

(** ** Start *)

(** The port is tried until [bind_public] succeeds; [rands] are the values of
    [rand()] with the results of [bind_public].  [None] while no try
    succeeded. *)
Fixpoint choose_port (rands : list (Z * Z)) : option Z :=
  match rands with
  | [] => None
  | (r, rc) :: rands =>
      let port := 6001 + r mod 22000 in
      if rc =? -1 then choose_port rands else Some port
  end.

(** What [main] meets before its loop. *)
Record start_input := Start {
  s_fds : Z * Z * Z;                       (* the three sockets *)
  s_rands : list (Z * Z);                  (* for port 0 *)
  s_bind : Z;                              (* bind_public for a given port *)
  s_ifindex : Z;                           (* if_nametoindex *)
  s_mac : option bytes; s_ip : option bytes;  (* the two ioctls *)
  s_stun_host : bool;                      (* gethostbyname(stunserver) *)
  s_id : bytes; s_tries : list try_result; (* stun_request *)
  s_rhost : option bytes;                  (* gethostbyname(rhost) *)
  s_first : option (bytes * bytes);        (* the first datagram and its sender *)
  s_buffer : bytes;                        (* the uninitialised buffer *)
}.

(** [inet_ntoa] *)
Definition inet_ntoa (ip : bytes) : bytes :=
  match ip with
  | [a; b; c; d] => dec_repr a ++ bs "." ++ dec_repr b ++ bs "." ++ dec_repr c ++ bs "." ++ dec_repr d
  | _ => []
  end.

(** What is printed for the other end of the tunnel. *)
Definition tunip_line (ip : bytes) : bytes := bs "TUNIP=" ++ inet_ntoa ip ++ [32; 10].
Definition connect_host (mapped : sockaddr_in) : bytes := bs "CONNECT=" ++ inet_ntoa (le_enc 4 mapped.(sin_addr)) ++ bs ":".
Definition connect_port (mapped : sockaddr_in) : bytes := dec_repr (be_dec (le_enc 2 mapped.(sin_port))) ++ [10].

Inductive started := Exited (status : Z) (out : list proxy_action) | Running (p : proxy).

(** [main] up to its loop.  [arg2] and [arg4] are the two ports of the command
    line; the outer [None] is a port choice that has not ended. *)
Definition proxy_start (argc : Z) (arg2 arg4 : bytes) (i : start_input) : option started :=
  if negb (argc =? 5) then Some (Exited 1 [])
  else
    let port0 := atoi arg2 in
    let rport := atoi arg4 in
    let '(udp, raw_recv, raw_send) := i.(s_fds) in
    LET port <- (if port0 =? 0 then choose_port i.(s_rands) else Some port0) in
    let rc := if port0 =? 0 then 0 else i.(s_bind) in
    if rc =? -1 then Some (Exited 1 [])
    else if i.(s_ifindex) =? 0 then Some (Exited 1 [])
    else
      match i.(s_mac), i.(s_ip) with
      | None, _ => Some (Exited 1 [])
      | Some _, None => Some (Exited 1 [])
      | Some mac, Some ip =>
          let out := [Output (tunip_line ip)] in
          let frame := arp_frame mac ip (repeat 255 6) in
          let out := out ++ [SendArp frame] in
          if negb i.(s_stun_host) then Some (Exited 255 out)
          else
            LET r <- stun_request true i.(s_id) i.(s_tries) (SockIn 0 0) in
            let '(sent, res, mapped) := r in
            let out := out ++ map SendStun sent ++
              (if (res =? 0) && negb (mapped.(sin_addr) =? 0)
               then [Output (connect_host mapped); Output (connect_port mapped)]
               else []) in
            match i.(s_rhost) with
            | None => Some (Exited 255 out)
            | Some rhost =>
                let buf := fill (bs "OPEN!" ++ [0]) i.(s_buffer) in
                let out := out ++ [SendTunnel (at_ buf 0 5)] in
                match i.(s_first) with
                | None => Some (Exited 1 out)
                | Some (d, sender) =>
                    Some (Running (PX udp raw_recv raw_send mac ip frame sender port rport (fill d buf) raw_send
                                     (repeat 0 FD_SETSIZE) ∅ false out))
                end
            end
      end.

(** ** Lemmas *)

Definition datagram_fits (d : option bytes) : Prop := match d with Some d => Z.of_nat (length d) <= BUFLEN | None => True end.

(** The invariant of the loop. *)
Record proxy_ok (p : proxy) : Prop := {
  px_buffer : Z.of_nat (length p.(buffer)) = BUFLEN;
  px_ports : length p.(fd_udp_port) = FD_SETSIZE;
  px_addr : length p.(if_raw_mac) = 6%nat /\ length p.(if_raw_addr) = 4%nat;
  px_arp : exists dest, length dest = 6%nat /\ p.(arp) = arp_frame p.(if_raw_mac) p.(if_raw_addr) dest;
  px_fds : p.(sock_udp) <= p.(sock_raw_send) /\ p.(sock_raw_recv) <= p.(sock_raw_send);
  px_rset : p.(rset) ⊆ {[p.(sock_udp); p.(sock_raw_recv); p.(sock_raw_send)]};
}.

Lemma fill_length d buf : (length d <= length buf)%nat -> length (fill d buf) = length buf.
Proof. intros H. unfold fill. rewrite length_app, length_drop. lia. Qed.

Lemma at_fill d buf off n : (off + n <= length d)%nat -> at_ (fill d buf) off n = at_ d off n.
Proof.
  intros H. unfold at_, fill. rewrite drop_app_le by lia. rewrite take_app_le; [done|]. rewrite length_drop. lia.
Qed.

Lemma at_length buf off n : (off + n <= length buf)%nat -> length (at_ buf off n) = n.
Proof. intros H. unfold at_. rewrite length_take, length_drop. lia. Qed.

Lemma arp_to_frame mac ip dest mac' : length dest = 6%nat -> arp_to mac' (arp_frame mac ip dest) = arp_frame mac ip mac'.
Proof. intros H. unfold arp_to, arp_frame. by rewrite drop_app_length'. Qed.

Lemma receive_ok p d : proxy_ok p -> Z.of_nat (length d) <= BUFLEN ->
  receive d p.(buffer) = Some (fill d p.(buffer)) /\ proxy_ok (set_buffer (fill d p.(buffer)) p).
Proof.
  intros [H1 H2 H3 H4 H5 H6] Hd. unfold receive. rewrite (proj2 (Nat.leb_le _ _)) by lia. split; [done|].
  constructor; cbn; try done. rewrite fill_length; lia.
Qed.
Lemma read_ok p off n : proxy_ok p -> Z.of_nat (off + n) <= BUFLEN -> read p.(buffer) off n = Some (at_ p.(buffer) off n).
Proof. intros [H1 _ _ _ _ _] H. unfold read. by rewrite (proj2 (Nat.leb_le _ _)) by lia. Qed.

(** The state stays in order, and no fake socket is read. *)
Definition continues (p p' : proxy) : Prop :=
  proxy_ok p' /\ p'.(rset) = p.(rset) /\ (forall fd, In (Drain fd) p'.(out) -> In (Drain fd) p.(out)).
Lemma continues_emit p l : proxy_ok p -> match l with Drain _ => False | _ => True end -> continues p (emit l p).
Proof.
  intros Hp Hl. split; [by destruct Hp|]. split; [done|]. intros fd Hin. cbn in Hin.
  apply in_app_or in Hin as [?|[->|[]]]; done.
Qed.

(** The decision to skip a frame, with every read inside the buffer. *)
Lemma skip_packet_ok p : proxy_ok p -> skip_packet p = Some (
  let buf := p.(buffer) in let protocol := le_dec (at_ buf 23 1) in
  (protocol =? IPPROTO_TCP) || (protocol =? IPPROTO_UDP) && (bool_decide (at_ buf 26 4 = p.(udp_client_ip)) &&
    ((ntohs (at_ buf 34 2) =? p.(rport)) && (ntohs (at_ buf 36 2) =? p.(port))))).
Proof.
  intros Hp. unfold skip_packet. cbv zeta. rewrite !(read_ok p) by (done || (unfold BUFLEN; lia)).
  destruct (Z.eqb_spec (le_dec (at_ (buffer p) 23 1)) IPPROTO_ICMP) as [->|]; [done|].
  destruct (_ =? IPPROTO_TCP); [done|]. cbn [orb]. destruct (_ =? IPPROTO_UDP); [|done]. cbn [andb].
  case_bool_decide; [|done]. cbn [andb]. by destruct (_ =? rport p).
Qed.

Lemma handle_ip_ok p n : proxy_ok p -> 0 < n <= BUFLEN -> exists p', handle_ip p n = Some p' /\ continues p p'.
Proof.
  intros Hp Hn. unfold handle_ip. rewrite (read_ok p) by (done || (unfold BUFLEN; lia)).
  case_bool_decide; [|by exists p]. rewrite skip_packet_ok by done. cbv zeta. destruct (_ || _); [by exists p|].
  destruct (Z.ltb_spec (BUFLEN - sizeof_ethhdr) (u64 (n - sizeof_ethhdr))) as [|Hl]; [eexists; split; [done|by apply continues_emit]|].
  rewrite (read_ok p) by (done || (pose proof (u64_range (n - sizeof_ethhdr)); unfold sizeof_ethhdr in *; lia)).
  eexists. split; [done|by apply continues_emit].
Qed.

Lemma continues_buffer p buf p' : continues (set_buffer buf p) p' -> continues p p'.
Proof. intros (H1 & H2 & H3). by split. Qed.

(** A frame of the raw socket never leads outside the buffer. *)
Lemma handle_raw_ok p d : proxy_ok p -> datagram_fits d -> exists p', handle_raw p d = Some p' /\ continues p p'.
Proof.
  intros Hp Hd. destruct d as [[|b d]|]; [by exists p| |by exists p]. cbn [handle_raw datagram_fits] in *. set (d' := b :: d) in *.
  destruct (receive_ok p d' Hp Hd) as [-> Hp1]. cbv zeta. set (p1 := set_buffer _ p) in *.
  assert (forall p', continues p1 p' -> continues p p') as Hc by apply continues_buffer.
  assert (continues p1 p1) as H1 by by split. rewrite (read_ok p1) by (done || (unfold BUFLEN; lia)).
  destruct (_ =? ETH_P_ARP).
  - rewrite !(read_ok p1) by (done || (unfold BUFLEN; lia)). destruct (_ =? 1); [|eexists; split; [done|by apply Hc]].
    case_bool_decide; [|eexists; split; [done|by apply Hc]]. eexists. split; [done|]. apply Hc.
    set (mac := at_ _ 22 6). assert (proxy_ok (set_arp (arp_to mac (arp p1)) p1)) as Hp2; [|by apply (continues_emit _ _ Hp2)].
    destruct Hp1 as [K1 K2 K3 (dest & Ld & Ea) K5 K6]. constructor; try done. exists mac.
    cbn [arp set_arp if_raw_mac if_raw_addr]. rewrite Ea, arp_to_frame by done. split; [|done]. apply at_length. unfold BUFLEN in *. lia.
  - destruct (_ =? ETH_P_IP); [|eexists; split; [done|by apply Hc]].
    destruct (handle_ip_ok p1 (Z.of_nat (length d')) Hp1) as (p' & -> & H'); [unfold d' in *; cbn [length] in *; lia|].
    eexists. split; [done|by apply Hc].
Qed.

(** A datagram for which the proxy opens a fake socket, and the descriptors
    for which the table of the ports has no room: an error of [socket] and those
    that an [fd_set] cannot hold. *)
Definition opens_fake (p : proxy) (d : option bytes) : bool :=
  match d with
  | None => false
  | Some d =>
      let buf := fill d p.(buffer) in
      (0 <? length d)%nat && negb ((length d =? 4)%nat && bool_decide (is_exit buf = Some true)) && (le_dec (at_ buf 9 1) =? IPPROTO_UDP)
  end.
Definition no_room (fd : Z) : bool := negb ((0 <=? fd) && (fd <? Z.of_nat FD_SETSIZE)).

Lemma strcmp_equal_ok s : forall buf, (length s < length buf)%nat -> is_Some (strcmp_equal buf s).
Proof.
  induction s as [|x s IH]; intros [|c buf] H; cbn [length] in H; try lia; cbn [strcmp_equal head tail]; [by eexists|].
  destruct (c =? x); [apply IH; lia|by eexists].
Qed.

(** A datagram of the tunnel leads outside the arrays exactly when its fake
    socket has no room in the table. *)
Lemma handle_udp_ok p d fd : proxy_ok p -> datagram_fits d ->
  if opens_fake p d && no_room fd then handle_udp p d fd = None else exists p', handle_udp p d fd = Some p' /\ continues p p'.
Proof.
  intros Hp Hd. destruct d as [d|]; cbn [handle_udp opens_fake datagram_fits] in *; [|by exists (set_eof p); destruct Hp].
  destruct (receive_ok p d Hp Hd) as [-> Hp1]. cbv zeta. set (p1 := set_buffer (fill d (buffer p)) p) in *.
  change (fill d (buffer p)) with (buffer p1). assert (forall p', continues p1 p' -> continues p p') as Hc by apply continues_buffer.
  assert (continues p1 (set_eof p1)) as He by (split; [by destruct Hp1|done]). rewrite !(read_ok p1) by (done || (unfold BUFLEN in *; lia)).
  destruct (strcmp_equal_ok (bs "EXIT") (buffer p1)) as [ex Ex]; [destruct Hp1 as [H1 _ _ _ _ _]; unfold BUFLEN in H1; change (length (bs "EXIT")) with 4%nat; lia|].
  change (strcmp_equal _ _) with (is_exit (buffer p1)) in Ex. rewrite Ex.
  destruct (length d =? 4)%nat; cbn [andb];
    [destruct ex; cbn [andb negb]; [rewrite andb_false_r; cbn [andb]; eexists; split; [done|by apply Hc]|]|];
    (destruct (_ <? _)%nat; cbn [andb negb]; [|eexists; split; [done|by apply Hc]]);
    (destruct (Z.eqb_spec (le_dec (at_ (buffer p1) 9 1)) IPPROTO_ICMP) as [->|]; [eexists; split; [done|apply Hc; by apply continues_emit]|]);
    (destruct (Z.eqb_spec (le_dec (at_ (buffer p1) 9 1)) IPPROTO_TCP) as [->|]; [eexists; split; [done|by apply Hc]|]);
    (destruct (Z.eqb_spec (le_dec (at_ (buffer p1) 9 1)) IPPROTO_UDP) as [_|]; [cbn [andb]|eexists; split; [done|apply Hc; by apply continues_emit]]);
    unfold no_room; (destruct ((0 <=? fd) && _); [cbn [negb]|done]); (eexists; split; [done|]; apply Hc);
    (split; [destruct Hp1; constructor; try done; cbn; by rewrite length_insert|]; split; [done|]);
    intros f Hin; cbn in Hin; rewrite <- app_assoc in Hin; apply in_app_or in Hin as [?|[?|[?|[]]]]; done.
Qed.

Lemma range_in x a b : In x (range a b) -> a <= x <= b.
Proof. unfold range. intros H. apply in_map_iff in H as (k & <- & Hk). apply in_seq in Hk. lia. Qed.
Lemma range_empty a : range (a + 1) a = [].
Proof. unfold range. replace (Z.to_nat (a - (a + 1) + 1)) with 0%nat by lia. done. Qed.

(** The fake sockets are never among the watched descriptors. *)
Lemma drain_nothing p : proxy_ok p -> drain_fakes p = p.
Proof.
  intros [_ _ _ _ H5 H6]. unfold drain_fakes.
  assert (forall l, (forall x, In x l -> sock_raw_send p < x) ->
    fold_left (fun p fd => if bool_decide (fd ∈ p.(rset)) then emit (Drain fd) p else p) l p = p) as H.
  { induction l as [|x l IH]; intros Hl; [done|]. cbn [fold_left]. rewrite bool_decide_false; [apply IH; intros; apply Hl; by right|].
    intros Hin. apply H6 in Hin. specialize (Hl x (or_introl eq_refl)). set_unfold in Hin. lia. }
  apply H. intros x Hx. apply range_in in Hx. lia.
Qed.

Lemma watched_three p : proxy_ok p -> watched p ⊆ {[p.(sock_udp); p.(sock_raw_recv); p.(sock_raw_send)]}.
Proof. intros [_ _ _ _ _ H6]. unfold watched. rewrite range_empty. set_solver. Qed.

(** [recvfrom] returns at most as many bytes as it was asked for. *)
Definition iter_ok (i : iter_input) : Prop := datagram_fits i.(raw_data) /\ datagram_fits i.(udp_data).

(** The iteration opens a fake socket that has no room in the table. *)
Definition bad_descriptor (p : proxy) (i : iter_input) : bool :=
  match raw_branch p i with
  | Some p => bool_decide (p.(sock_udp) ∈ p.(rset)) && (opens_fake p i.(udp_data) && no_room i.(fake_fd))
  | None => false
  end.

Lemma iteration_ok p i : proxy_ok p -> iter_ok i -> select_ok p i.(ready) = true ->
  if bad_descriptor p i then iteration p i = None
  else exists p', iteration p i = Some p' /\ proxy_ok p' /\ (forall fd, In (Drain fd) p'.(out) -> In (Drain fd) p.(out)).
Proof.
  intros Hp (Hr & Hu) Hs. unfold iteration, bad_descriptor.
  assert (exists p2, raw_branch p i = Some p2 /\ proxy_ok p2 /\ (forall fd, In (Drain fd) p2.(out) -> In (Drain fd) p.(out))) as (p2 & -> & Hp2 & Ho2).
  { unfold raw_branch. set (p1 := set_rset (list_to_set (ready i)) p). assert (proxy_ok p1) as Hp1.
    { pose proof (watched_three p Hp) as Hw. destruct Hp as [K1 K2 K3 K4 K5 K6]. constructor; cbn; try done.
      unfold select_ok in Hs. rewrite forallb_forall in Hs. intros x Hx. apply Hw.
      apply elem_of_list_to_set, list_elem_of_In, Hs, andb_true_iff in Hx as [Hx _]. by apply bool_decide_eq_true in Hx. }
    case_bool_decide; [|by exists p1]. destruct (handle_raw_ok p1 (raw_data i) Hp1 Hr) as (p2 & -> & A & _ & B). by exists p2. }
  pose proof (handle_udp_ok p2 (udp_data i) (fake_fd i) Hp2 Hu) as H. case_bool_decide; cbn [andb]; [|exists p2; by rewrite drain_nothing].
  destruct (opens_fake _ _ && _); [by rewrite H|]. destruct H as (p3 & -> & A & _ & B). exists p3. rewrite drain_nothing by done.
  split; [done|]. split; [done|]. intros fd Hin. by apply Ho2, B.
Qed.

Lemma proxy_loop_ok ins : Forall iter_ok ins -> forall p, proxy_ok p ->
  exists ran rest p', ins = ran ++ rest /\ proxy_loop p ran = Some p' /\ proxy_ok p' /\ (forall fd, In (Drain fd) p'.(out) -> In (Drain fd) p.(out)) /\
    match rest with [] => True | i :: _ => proxy_loop p ins = None /\ select_ok p' i.(ready) = true /\ bad_descriptor p' i = true end.
Proof.
  induction 1 as [|i ins Hi Hins IH]; intros p Hp; [exists [], [], p; cbn; by destruct (eof_socket p)|].
  destruct (eof_socket p) eqn:He; [exists (i :: ins), [], p; rewrite app_nil_r; cbn; by rewrite He|].
  destruct (select_ok p (ready i)) eqn:Es.
  2: { destruct (IH p Hp) as (ran & rest & p' & -> & E & H). exists (i :: ran), rest, p'. cbn [app proxy_loop]. by rewrite He, Es. }
  pose proof (iteration_ok p i Hp Hi Es) as H. destruct (bad_descriptor p i) eqn:Eb.
  { exists [], (i :: ins), p. cbn [app proxy_loop]. rewrite He, Es, H. do 4 (split; [done|]). done. }
  destruct H as (p1 & E1 & Hp1 & Ho1). destruct (IH p1 Hp1) as (ran & rest & p' & -> & E & Hp' & Ho & Hr).
  exists (i :: ran), rest, p'. cbn [app proxy_loop]. rewrite He, Es, E1. do 3 (split; [done|]). split; [|done]. intros fd Hin. by apply Ho1, Ho.
Qed.

Lemma choose_port_range rands port : Forall (fun x => 0 <= x.1) rands -> choose_port rands = Some port -> 6001 <= port <= 28000.
Proof.
  induction 1 as [|[r rc] rands Hr _ IH]; [done|]. cbn. destruct (_ =? -1); [done|]. intros [= <-].
  pose proof (Z.mod_pos_bound r 22000). lia.
Qed.

(** What the system returns at start-up. *)
Definition start_ok (i : start_input) : Prop :=
  i.(s_fds).1.1 <= i.(s_fds).2 /\ i.(s_fds).1.2 <= i.(s_fds).2 /\
  Forall (fun x => 0 <= x.1) i.(s_rands) /\
  match i.(s_mac) with Some m => length m = 6%nat | None => True end /\
  match i.(s_ip) with Some a => length a = 4%nat | None => True end /\
  Forall try_ok i.(s_tries) /\ Z.of_nat (length i.(s_buffer)) = BUFLEN /\
  match i.(s_first) with Some (d, _) => Z.of_nat (length d) <= BUFLEN | None => True end.

Lemma start_running argc a2 a4 i p : proxy_start argc a2 a4 i = Some (Running p) -> start_ok i ->
  proxy_ok p /\ (forall fd, ~ In (Drain fd) p.(out)) /\ (atoi a2 = 0 -> 6001 <= p.(port) <= 28000).
Proof.
  intros E (F1 & F2 & Hr & Hm & Hi & Ht & Hb & Hf). unfold proxy_start in E. destruct (argc =? 5); [|done]. cbn [negb] in E.
  destruct (s_fds i) as [[udp rr] rs]. cbn in F1, F2.
  destruct (if atoi a2 =? 0 then choose_port (s_rands i) else Some (atoi a2)) as [port|] eqn:Ep; [|done].
  destruct (_ =? -1); [done|]. destruct (_ =? 0) in E; [done|]. destruct (s_mac i) as [mac|]; [|done]. destruct (s_ip i) as [ip|]; [|done].
  destruct (s_stun_host i); [|done]. cbn [negb] in E. destruct (stun_request _ _ _ _) as [[[sent res] mapped]|]; [|done].
  destruct (s_rhost i); [|done]. destruct (s_first i) as [[d sender]|]; [|done].
  match type of E with Some (Running ?q) = _ => assert (q = p) as <- by congruence end. clear E.
  split; [|split].
  - constructor; cbn [buffer fd_udp_port if_raw_mac if_raw_addr arp sock_udp sock_raw_send sock_raw_recv rset]; try done.
    + rewrite !fill_length; [done|unfold BUFLEN in *; cbn; lia|]. rewrite fill_length; unfold BUFLEN in *; cbn; lia.
    + by exists (repeat 255 6).
  - intros fd Hin. cbn [out] in Hin. repeat (apply in_app_or in Hin as [Hin|Hin]); try (destruct Hin as [?|[]]; done).
    + apply in_map_iff in Hin as (? & ? & _). done.
    + destruct (_ && _) in Hin; [|done]. by destruct Hin as [?|[?|[]]].
  - intros Hz. rewrite Hz in Ep. cbn in Ep. cbn [Proxy.port]. by eapply choose_port_range.
Qed.

(** Packets as they are on the wire. *)
Definition ip_packet (pre : bytes) (protocol : Z) (check saddr daddr rest : bytes) : bytes :=
  pre ++ [protocol] ++ check ++ saddr ++ daddr ++ rest.
Definition ip_fields (pre : bytes) (protocol : Z) (check saddr daddr : bytes) : Prop :=
  length pre = 9%nat /\ 0 <= protocol < 256 /\ length check = 2%nat /\ length saddr = 4%nat /\ length daddr = 4%nat.
Definition eth_frame (dmac smac : bytes) (type : Z) (payload : bytes) : bytes := dmac ++ smac ++ be_enc 2 type ++ payload.

Ltac explode l H :=
  repeat (let x := fresh "x" in destruct l as [|x l]; [try discriminate H|]; try (cbn [length] in H; injection H as H));
  try discriminate H.

Lemma at_mid pre d suf off n : length pre = off -> length d = n -> at_ (pre ++ d ++ suf) off n = d.
Proof. intros <- <-. unfold at_. by rewrite drop_app_length, take_app_length. Qed.

(** The fields of a frame with an IP packet. *)
Lemma frame_fields dmac smac type pre protocol check saddr daddr rest :
  length dmac = 6%nat -> length smac = 6%nat -> ip_fields pre protocol check saddr daddr -> (4 <= length rest)%nat ->
  0 <= type < 65536 ->
  let d := eth_frame dmac smac type (ip_packet pre protocol check saddr daddr rest) in
  ntohs (at_ d 12 2) = type /\ at_ d 23 1 = [protocol] /\ at_ d 26 4 = saddr /\ at_ d 30 4 = daddr /\
  at_ d 34 2 = take 2 rest /\ at_ d 36 2 = take 2 (drop 2 rest) /\ drop 14 d = ip_packet pre protocol check saddr daddr rest.
Proof.
  intros Hdm Hsm (Hp & Hpr & Hc & Hs & Hda) Hr Ht d. unfold d, eth_frame, ip_packet.
  assert (length (be_enc 2 type) = 2%nat) as Lt by apply be_enc_length.
  assert (rest = take 2 rest ++ take 2 (drop 2 rest) ++ drop 4 rest) as Er
    by (rewrite <- (take_drop 2 rest) at 1; f_equal; rewrite <- (take_drop 2 (drop 2 rest)) at 1; f_equal; by rewrite drop_drop).
  assert (length (take 2 rest) = 2%nat /\ length (take 2 (drop 2 rest)) = 2%nat) as [L1 L2]
    by (rewrite !length_take, length_drop; lia).
  split; [rewrite (app_assoc dmac); unfold ntohs; rewrite at_mid by (rewrite ?length_app; lia);
    apply be_dec_enc; lia|].
  split; [rewrite !app_assoc, <- !app_assoc; rewrite (app_assoc smac), (app_assoc dmac), (app_assoc _ pre); apply at_mid; rewrite ?length_app; cbn; lia|].
  set (q := dmac ++ smac ++ be_enc 2 type ++ pre ++ [protocol] ++ check).
  assert (length q = 26%nat) as Lq by (unfold q; rewrite !length_app; cbn [length]; lia).
  assert (dmac ++ smac ++ be_enc 2 type ++ pre ++ [protocol] ++ check ++ saddr ++ daddr ++ rest = q ++ saddr ++ daddr ++ rest) as ->
    by (unfold q; by rewrite <- !app_assoc).
  split; [by apply at_mid|]. split; [rewrite app_assoc; apply at_mid; rewrite ?length_app; lia|].
  split; [rewrite Er at 1; rewrite (app_assoc q), (app_assoc (q ++ saddr)); apply at_mid; rewrite ?length_app; lia|].
  split; [rewrite Er at 1; rewrite (app_assoc q), (app_assoc (q ++ saddr)), (app_assoc ((q ++ saddr) ++ daddr)); apply at_mid; rewrite ?length_app; lia|].
  unfold q. rewrite <- !app_assoc. rewrite (app_assoc dmac), (app_assoc (dmac ++ smac)). apply drop_app_length'. rewrite !length_app. lia.
Qed.

(** An ARP packet. *)
Definition arp_packet (head : bytes) (opcode : Z) (sha spa tha tpa : bytes) : bytes :=
  head ++ be_enc 2 opcode ++ sha ++ spa ++ tha ++ tpa.
Definition arp_fields (head : bytes) (opcode : Z) (sha spa tha tpa : bytes) : Prop :=
  length head = 6%nat /\ 0 <= opcode < 65536 /\ length sha = 6%nat /\ length spa = 4%nat /\ length tha = 6%nat /\ length tpa = 4%nat.

Lemma arp_frame_fields dmac smac head opcode sha spa tha tpa pad :
  length dmac = 6%nat -> length smac = 6%nat -> arp_fields head opcode sha spa tha tpa ->
  let d := eth_frame dmac smac ETH_P_ARP (arp_packet head opcode sha spa tha tpa ++ pad) in
  ntohs (at_ d 12 2) = ETH_P_ARP /\ ntohs (at_ d 20 2) = opcode /\ at_ d 22 6 = sha /\ at_ d 38 4 = tpa /\
  length d = (42 + length pad)%nat.
Proof.
  intros Hdm Hsm (Hh & Ho & Hs & Hsp & Ht & Htp) d. unfold d, eth_frame, arp_packet, ntohs.
  assert (forall x, length (be_enc 2 x) = 2%nat) as Le by (intros; apply be_enc_length).
  rewrite <- !app_assoc. set (ty := be_enc 2 ETH_P_ARP). set (op := be_enc 2 opcode).
  assert (length ty = 2%nat) as Lt by apply Le. assert (length op = 2%nat) as Lo by apply Le.
  split; [rewrite (app_assoc dmac), at_mid by (rewrite ?length_app; lia); unfold ty; apply be_dec_enc; unfold ETH_P_ARP; lia|].
  set (q := dmac ++ smac ++ ty ++ head). assert (length q = 20%nat) as Lq by (unfold q; rewrite !length_app; lia).
  assert (dmac ++ smac ++ ty ++ head ++ op ++ sha ++ spa ++ tha ++ tpa ++ pad = q ++ op ++ sha ++ spa ++ tha ++ tpa ++ pad) as ->
    by (unfold q; by rewrite <- !app_assoc).
  split; [rewrite at_mid by done; unfold op; apply be_dec_enc; lia|].
  split; [rewrite (app_assoc q); apply at_mid; rewrite ?length_app; lia|].
  split; [|rewrite !length_app; lia].
  rewrite (app_assoc q), (app_assoc (q ++ op)), (app_assoc ((q ++ op) ++ sha)), (app_assoc (((q ++ op) ++ sha) ++ spa)).
  apply at_mid; rewrite ?length_app; lia.
Qed.

(** The fields of a packet from the tunnel. *)
Lemma packet_fields pre protocol check saddr daddr rest :
  ip_fields pre protocol check saddr daddr ->
  let d := ip_packet pre protocol check saddr daddr rest in
  at_ d 9 1 = [protocol] /\ at_ d 16 4 = daddr /\ at_ d 20 2 = take 2 rest /\ at_ d 22 2 = take 2 (drop 2 rest) /\
  length d = (20 + length rest)%nat.
Proof.
  intros (Hp & _ & Hc & Hs & Hda) d. unfold d, ip_packet.
  split; [apply at_mid; done|]. split.
  { rewrite (app_assoc pre), (app_assoc (pre ++ _)), (app_assoc ((pre ++ _) ++ _)). apply at_mid; [|done]. rewrite !length_app. cbn. lia. }
  set (q := pre ++ [protocol] ++ check ++ saddr ++ daddr). assert (length q = 20%nat) as Lq by (unfold q; rewrite !length_app; cbn; lia).
  assert (pre ++ [protocol] ++ check ++ saddr ++ daddr ++ rest = q ++ rest) as -> by (unfold q; by rewrite <- !app_assoc).
  unfold at_. rewrite drop_app_length' by done. split; [done|].
  split; [|rewrite length_app; lia]. replace 22%nat with (20 + 2)%nat by lia.
  rewrite <- drop_drop, drop_app_length' by done. done.
Qed.

(** What the proxy does not relay: TCP, and what comes from the client's
    address and the configured remote port to the listening port. *)
Definition not_relayed (p : proxy) (protocol : Z) (saddr rest : bytes) : bool :=
  (protocol =? IPPROTO_TCP) || (protocol =? IPPROTO_UDP) && (bool_decide (saddr = p.(udp_client_ip)) &&
    ((be_dec (take 2 rest) =? p.(rport)) && (be_dec (take 2 (drop 2 rest)) =? p.(port)))).

Lemma own_relayed p protocol saddr rest : protocol <> IPPROTO_TCP ->
  ~ (protocol = IPPROTO_UDP /\ saddr = p.(udp_client_ip) /\ be_dec (take 2 rest) = p.(rport) /\ be_dec (take 2 (drop 2 rest)) = p.(port)) ->
  not_relayed p protocol saddr rest = false.
Proof.
  intros Ht Hu. unfold not_relayed. rewrite (proj2 (Z.eqb_neq protocol IPPROTO_TCP)) by done. apply not_true_is_false. intros H. apply Hu.
  cbn [orb] in H. rewrite !andb_true_iff, bool_decide_eq_true, !Z.eqb_eq in H. tauto.
Qed.

(** A frame from the raw socket. *)
Lemma relay_frame p dmac smac pre protocol check saddr daddr rest :
  proxy_ok p -> length dmac = 6%nat -> length smac = 6%nat -> ip_fields pre protocol check saddr daddr ->
  (4 <= length rest)%nat -> 34 + Z.of_nat (length rest) <= BUFLEN ->
  let packet := ip_packet pre protocol check saddr daddr rest in
  exists p', handle_raw p (Some (eth_frame dmac smac ETH_P_IP packet)) = Some p' /\
  p'.(out) = p.(out) ++ (if bool_decide (daddr = p.(if_raw_addr)) && negb (not_relayed p protocol saddr rest) then [SendTunnel packet] else []).
Proof.
  intros Hp Hdm Hsm Hf Hr Hlen packet. set (d := eth_frame _ _ _ _).
  destruct (frame_fields dmac smac ETH_P_IP pre protocol check saddr daddr rest Hdm Hsm Hf Hr) as (F1 & F2 & F3 & F4 & F5 & F6 & F7);
    [unfold ETH_P_IP; lia|]. fold packet in F1, F2, F3, F4, F5, F6, F7. fold d in F1, F2, F3, F4, F5, F6, F7.
  assert (length d = (34 + length rest)%nat) as Ld.
  { unfold d, eth_frame, packet, ip_packet. destruct Hf as (? & _ & ? & ? & ?). rewrite !length_app, be_enc_length. cbn [length]. lia. }
  unfold handle_raw. destruct d as [|b0 d0] eqn:Ed; [cbn in Ld; lia|]. rewrite <- Ed in *. clear Ed b0 d0.
  destruct (receive_ok p d Hp) as [-> Hp1]; [lia|]. cbv zeta. set (p1 := set_buffer _ p) in *.
  assert (forall off n, (off + n <= length d)%nat -> at_ p1.(buffer) off n = at_ d off n) as Hat by (intros off n; apply at_fill).
  rewrite (read_ok p1) by (done || (unfold BUFLEN; lia)). rewrite Hat, F1 by lia. cbn [Z.eqb ETH_P_IP ETH_P_ARP Pos.eqb].
  unfold handle_ip. rewrite (read_ok p1) by (done || (unfold BUFLEN; lia)). rewrite Hat, F4 by lia. change (if_raw_addr p1) with (if_raw_addr p).
  case_bool_decide; cbn [andb]; [|exists p1; by rewrite app_nil_r]. rewrite skip_packet_ok by done. cbv zeta. rewrite !Hat, F2, F3, F5, F6 by lia.
  change (le_dec [protocol]) with (protocol + 256 * 0). rewrite Z.mul_0_r, Z.add_0_r. change (_ || _) with (not_relayed p protocol saddr rest).
  destruct (not_relayed p protocol saddr rest); [exists p1; by rewrite app_nil_r|].
  unfold BUFLEN, sizeof_ethhdr in *. rewrite u64_small by lia. rewrite (proj2 (Z.ltb_ge _ _)) by lia.
  rewrite (read_ok p1) by (done || (unfold BUFLEN; lia)). eexists. split; [done|]. cbn [negb out emit p1 set_buffer].
  do 3 f_equal. rewrite Hat by lia. unfold at_. rewrite F7. apply take_ge. rewrite <- F7, length_drop. lia.
Qed.

(** A packet from the tunnel. *)
Lemma relay_packet p pre protocol check saddr daddr rest fd :
  proxy_ok p -> ip_fields pre protocol check saddr daddr -> (4 <= length rest)%nat ->
  20 + Z.of_nat (length rest) <= BUFLEN -> (protocol = IPPROTO_UDP -> 0 <= fd < Z.of_nat FD_SETSIZE) ->
  let packet := ip_packet pre protocol check saddr daddr rest in
  exists p', handle_udp p (Some packet) fd = Some p' /\ p'.(eof_socket) = p.(eof_socket) /\
    p'.(out) = p.(out) ++
      (if protocol =? IPPROTO_TCP then []
       else if protocol =? IPPROTO_UDP then [BindFake (le_dec (take 2 rest)); SendRaw packet daddr]
       else [SendRaw packet daddr]).
Proof.
  intros Hp Hf Hr Hlen Hfd packet. destruct (packet_fields pre protocol check saddr daddr rest Hf) as (F1 & F2 & F3 & F4 & Ld).
  fold packet in F1, F2, F3, F4, Ld. unfold handle_udp. destruct (receive_ok p packet Hp) as [-> Hp1]; [lia|]. cbv zeta.
  change (fill packet (buffer p)) with (buffer (set_buffer (fill packet (buffer p)) p)). set (p1 := set_buffer _ p) in *.
  assert (forall off n, (off + n <= length packet)%nat -> at_ p1.(buffer) off n = at_ packet off n) as Hat by (intros off n; apply at_fill).
  destruct (Nat.eqb_spec (length packet) 4); [lia|]. rewrite (proj2 (Nat.ltb_lt 0 _)) by lia.
  rewrite !(read_ok p1) by (done || (unfold BUFLEN in *; lia)). rewrite !Hat, F1, F2, F3, F4 by lia. change (le_dec [protocol]) with (protocol + 256 * 0).
  rewrite Z.mul_0_r, Z.add_0_r. assert (at_ packet 0 (length packet) = packet) as -> by (unfold at_; by rewrite drop_0, take_ge).
  destruct (Z.eqb_spec protocol IPPROTO_ICMP) as [->|]; [by eexists|].
  destruct (Z.eqb_spec protocol IPPROTO_TCP) as [->|]; [exists p1; by rewrite app_nil_r|].
  destruct (Z.eqb_spec protocol IPPROTO_UDP) as [Eu|]; [|by eexists]. specialize (Hfd Eu).
  rewrite (proj2 (Z.leb_le 0 fd)), (proj2 (Z.ltb_lt fd _)) by lia. eexists. split; [done|]. split; [done|]. cbn. by rewrite <- app_assoc.
Qed.

End Proxy.
Import Proxy.


Definition zero_buffer : bytes := repeat 0 (Z.to_nat BUFLEN).
Definition sample_start (buf : bytes) : start_input :=
  Start (3, 4, 5) [(7, -1); (22003, 0)] 0 2 (Some [2; 0; 0; 0; 0; 1]) (Some [10; 0; 0; 1]) true (repeat 0 16) [NoResponse]
    (Some [192; 0; 2; 9]) (Some (bs "OPEN!", [192; 0; 2; 9])) buf.
Definition sample_proxy (buf : bytes) : proxy :=
  match proxy_start 5 (bs "0") (bs "4000") (sample_start buf) with
  | Some (Running p) => p
  | _ => PX 0 0 0 [] [] [] [] 0 0 [] 0 [] ∅ false []
  end.
Definition sample_packet : bytes := ip_packet (repeat 69 9) IPPROTO_UDP [0; 0] [10; 0; 0; 1] [93; 184; 216; 34] (bs "abcdefgh").

Lemma sample_start_ok : start_ok (sample_start zero_buffer).
Proof.
  unfold start_ok. cbn [s_fds s_rands s_mac s_ip s_tries s_buffer s_first sample_start fst snd].
  split; [lia|]. split; [lia|]. split; [repeat constructor; cbn; lia|]. split; [reflexivity|]. split; [reflexivity|].
  split; [by repeat constructor|]. unfold zero_buffer. rewrite repeat_length. unfold BUFLEN. split; [lia|cbn; lia].
Qed.
Lemma sample_start_runs buf : proxy_start 5 (bs "0") (bs "4000") (sample_start buf) = Some (Running (sample_proxy buf)).
Proof. reflexivity. Qed.

Definition sample_traffic : list iter_input := [Iter [3] None (Some sample_packet) 6; Iter [4; 3] None (Some (bs "EXIT")) 7].
Lemma sample_traffic_ok : Forall iter_ok sample_traffic.
Proof. repeat constructor; cbn; unfold BUFLEN; lia. Qed.


(** The fake sockets are never emptied.  The loop means to discard what
    arrives on the sockets that keep ports open, but the descriptors it adds
    to the set for [select] are those from [maxfd + 1] to [maxfd], of which
    there are none: in every run from [main], with every outcome of [select]
    that respects the set, no fake socket is ever read. *)
Theorem fakes_never_drained argc a2 a4 i p ins p' fd :
  proxy_start argc a2 a4 i = Some (Running p) -> start_ok i -> Forall iter_ok ins ->
  proxy_loop p ins = Some p' -> ~ In (Drain fd) p'.(out).
Proof.
  intros E Hs Hi El Hin. destruct (start_running argc a2 a4 i p E Hs) as (Hp & Hn & _).
  destruct (proxy_loop_ok ins Hi p Hp) as (ran & [|i' rest] & p1 & -> & E1 & _ & Ho & Hr); [|destruct Hr as [Hr _]; congruence].
  rewrite app_nil_r in El. rewrite El in E1. injection E1 as <-. by apply (Hn fd), Ho.
Qed.

Definition sample_end (buf : bytes) : proxy :=
  match proxy_loop (sample_proxy buf) sample_traffic with Some p => p | None => sample_proxy buf end.
Lemma sample_traffic_runs : proxy_loop (sample_proxy zero_buffer) sample_traffic = Some (sample_end zero_buffer).
Proof. unfold sample_end. destruct (proxy_loop _ _) eqn:E; [done|]. exfalso. revert E. apply (bool_decide_unpack _). vm_compute. exact I. Qed.
Lemma fakes_never_drained_witness : ~ In (Drain 6) (sample_end zero_buffer).(out).
Proof.
  apply (fakes_never_drained 5 (bs "0") (bs "4000") (sample_start zero_buffer) (sample_proxy zero_buffer) sample_traffic);
    [exact (sample_start_runs zero_buffer)|exact sample_start_ok|exact sample_traffic_ok|exact sample_traffic_runs].
Defined.

(** C34: which IPv4 frames of the raw socket are relayed.  An IPv4 frame of up
    to 65535 bytes, with at least four bytes behind a header of twenty, is sent
    through the tunnel, without its Ethernet header and otherwise unchanged,
    exactly when it is addressed to the proxy's interface, is not TCP, and is not
    a UDP packet with the client's address, the configured remote port as its
    source and the listening port as its destination; nothing else is sent,
    whatever earlier packets left in the buffer.  (The last condition is how the
    proxy recognises its own tunnel; the port that the client really sends from
    is not looked at.) *)
Theorem raw_frame_relayed p dmac smac pre protocol check saddr daddr rest :
  proxy_ok p -> length dmac = 6%nat -> length smac = 6%nat -> ip_fields pre protocol check saddr daddr ->
  (4 <= length rest)%nat -> 34 + Z.of_nat (length rest) <= BUFLEN ->
  let packet := ip_packet pre protocol check saddr daddr rest in
  exists p', handle_raw p (Some (eth_frame dmac smac ETH_P_IP packet)) = Some p' /\
  p'.(out) = p.(out) ++
    (if bool_decide (daddr = p.(if_raw_addr)) && negb ((protocol =? IPPROTO_TCP) ||
        (protocol =? IPPROTO_UDP) && (bool_decide (saddr = p.(udp_client_ip)) &&
              ((be_dec (take 2 rest) =? p.(rport)) && (be_dec (take 2 (drop 2 rest)) =? p.(port)))))
     then [SendTunnel packet] else []).
Proof. apply relay_frame. Qed.

Lemma sample_proxy_ok : proxy_ok (sample_proxy zero_buffer).
Proof. apply (start_running 5 (bs "0") (bs "4000") (sample_start zero_buffer)); [exact (sample_start_runs zero_buffer)|exact sample_start_ok]. Qed.

Lemma raw_frame_relayed_witness :
  let packet := ip_packet (repeat 69 9) IPPROTO_UDP [0; 0] [93; 184; 216; 34] [10; 0; 0; 1] (bs "answer") in
  exists p', handle_raw (sample_proxy zero_buffer) (Some (eth_frame (repeat 2 6) (repeat 3 6) ETH_P_IP packet)) = Some p' /\
  p'.(out) = (sample_proxy zero_buffer).(out) ++ [SendTunnel packet].
Proof.
  apply (raw_frame_relayed (sample_proxy zero_buffer) (repeat 2 6) (repeat 3 6)); try reflexivity.
  - exact sample_proxy_ok.
  - unfold ip_fields, IPPROTO_UDP. repeat split; lia.
  - cbn. lia.
  - unfold BUFLEN. cbn. lia.
Defined.

(** The proxy answers ARP for its own address and nothing else.  For an ARP
    frame (padded or not), the proxy sends a frame exactly when it is a request
    for the interface's address; the frame is a well-formed ARP reply that maps
    that address to the interface's MAC, addressed to the sender of the
    request. *)
Theorem arp_answered p dmac smac head opcode sha spa tha tpa pad :
  proxy_ok p -> length dmac = 6%nat -> length smac = 6%nat -> arp_fields head opcode sha spa tha tpa ->
  42 + Z.of_nat (length pad) <= BUFLEN ->
  exists p', handle_raw p (Some (eth_frame dmac smac ETH_P_ARP (arp_packet head opcode sha spa tha tpa ++ pad))) = Some p' /\
  p'.(out) = p.(out) ++
    (if (opcode =? 1) && bool_decide (tpa = p.(if_raw_addr))
     then [SendArp (arp_frame p.(if_raw_mac) p.(if_raw_addr) sha)] else []).
Proof.
  intros Hp Hdm Hsm Hf Hlen. set (d := eth_frame _ _ _ _).
  destruct (arp_frame_fields dmac smac head opcode sha spa tha tpa pad Hdm Hsm Hf) as (F1 & F2 & F3 & F4 & Ld).
  fold d in F1, F2, F3, F4, Ld. unfold handle_raw. destruct d as [|b0 d0] eqn:Ed; [cbn in Ld; lia|]. rewrite <- Ed in *. clear Ed b0 d0.
  destruct (receive_ok p d Hp) as [-> Hp1]; [lia|]. cbv zeta. set (p1 := set_buffer _ p) in *.
  assert (forall off n, (off + n <= length d)%nat -> at_ p1.(buffer) off n = at_ d off n) as Hat by (intros off n; apply at_fill).
  rewrite !(read_ok p1) by (done || (unfold BUFLEN; lia)). rewrite !Hat, F1, F2, F3, F4, Z.eqb_refl by lia.
  destruct (opcode =? 1); cbn [andb]; [|exists p1; by rewrite app_nil_r]. change (if_raw_addr p1) with (if_raw_addr p).
  case_bool_decide; [|exists p1; by rewrite app_nil_r]. eexists. split; [done|].
  cbn [out emit set_arp set_buffer arp p1]. destruct Hp as [_ _ _ (dest & Hd & Ha) _ _]. by rewrite Ha, arp_to_frame.
Qed.

Lemma arp_answered_witness :
  exists p', handle_raw (sample_proxy zero_buffer) (Some (eth_frame (repeat 255 6) (repeat 3 6) ETH_P_ARP
     (arp_packet [0; 1; 8; 0; 6; 4] 1 (repeat 3 6) [10; 0; 0; 7] (repeat 0 6) [10; 0; 0; 1] ++ repeat 0 18))) = Some p' /\
  p'.(out) = (sample_proxy zero_buffer).(out) ++
    (if (1 =? 1) && bool_decide ([10; 0; 0; 1] = (sample_proxy zero_buffer).(if_raw_addr))
     then [SendArp (arp_frame (sample_proxy zero_buffer).(if_raw_mac) (sample_proxy zero_buffer).(if_raw_addr) (repeat 3 6))] else []).
Proof.
  apply (arp_answered (sample_proxy zero_buffer)); try reflexivity.
  - exact sample_proxy_ok.
  - unfold arp_fields. repeat split; lia.
  - unfold BUFLEN. cbn. lia.
Defined.

(** The EXIT datagram ends the proxy only when the byte after it in the
    buffer happens to be zero.  The comparison is a [strcmp] on a buffer that
    is never cleared: the four bytes are recognised exactly when the fifth byte
    that an earlier datagram left there is NUL; otherwise they are treated as a
    packet and the proxy keeps running. *)
Theorem exit_needs_zero p fd p' :
  proxy_ok p -> p.(eof_socket) = false -> handle_udp p (Some (bs "EXIT")) fd = Some p' ->
  p'.(eof_socket) = true <-> p.(buffer) !! 4%nat = Some 0.
Proof.
  intros Hp He. destruct (receive_ok p (bs "EXIT") Hp) as [E Hp1]; [by compute|]. unfold handle_udp. rewrite E. cbv zeta.
  change (length (bs "EXIT") =? 4)%nat with true. change (0 <? length (bs "EXIT"))%nat with true.
  change (fill (bs "EXIT") (buffer p)) with (buffer (set_buffer (fill (bs "EXIT") (buffer p)) p)). rewrite !(read_ok _ _ _ Hp1) by by compute. cbn [buffer set_buffer].
  destruct Hp as [Hb _ _ _ _ _]. unfold BUFLEN in Hb. destruct (buffer p) as [|b0 [|b1 [|b2 [|b3 [|b4 rest]]]]] eqn:Eb; try (cbn in Hb; lia).
  change (is_exit (fill (bs "EXIT") (b0 :: b1 :: b2 :: b3 :: b4 :: rest))) with (Some (b4 =? 0)).
  change ((b0 :: b1 :: b2 :: b3 :: b4 :: rest) !! 4%nat) with (Some b4).
  destruct (Z.eqb_spec b4 0) as [->|Hb4]; [intros [= <-]; split; done|].
  intros Eu. split; [|intros [= ->]; done]. intros Hp'. exfalso. apply (f_equal (option_map eof_socket)) in Eu. cbn [option_map] in Eu. rewrite Hp' in Eu.
  repeat match type of Eu with context [if ?c then _ else _] => destruct c end; cbn in Eu; congruence.
Qed.

(** The EXIT of a tunnel that carried an IPv4 packet with a non-zero
    identification does not end the proxy. *)
Definition after_packet : proxy := set_buffer (fill sample_packet zero_buffer) (sample_proxy zero_buffer).
Lemma after_packet_ok : proxy_ok after_packet.
Proof.
  destruct sample_proxy_ok. constructor; [|done|done|done|done|done]. unfold after_packet. cbn [buffer set_buffer].
  rewrite fill_length; unfold zero_buffer; rewrite repeat_length; unfold BUFLEN; [lia|cbn; lia].
Qed.
Definition after_exit : proxy := match handle_udp after_packet (Some (bs "EXIT")) 7 with Some p => p | None => after_packet end.

Lemma exit_needs_zero_witness : after_exit.(eof_socket) = true <-> after_packet.(buffer) !! 4%nat = Some 0.
Proof. apply (exit_needs_zero after_packet 7 after_exit); [exact after_packet_ok|reflexivity|reflexivity]. Defined.

(** [socket] failing for a fake socket writes before the port table. *)
Theorem fake_socket_failure p pre check saddr daddr rest :
  proxy_ok p -> ip_fields pre IPPROTO_UDP check saddr daddr -> 20 + Z.of_nat (length rest) <= BUFLEN ->
  handle_udp p (Some (ip_packet pre IPPROTO_UDP check saddr daddr rest)) (-1) = None.
Proof.
  intros Hp Hf Hr. destruct (packet_fields pre IPPROTO_UDP check saddr daddr rest Hf) as (F1 & _ & _ & _ & Ld). set (packet := ip_packet _ _ _ _ _ _) in *.
  pose proof (handle_udp_ok p (Some packet) (-1) Hp) as H. cbn [datagram_fits opens_fake] in H. rewrite at_fill, F1 in H by lia. destruct (Nat.eqb_spec (length packet) 4); [lia|].
  rewrite (proj2 (Nat.ltb_lt 0 _)) in H by lia. apply H. lia.
Qed.
