(* ===== verification/Tunnel.v ===== *)
(** * The local tunnel endpoint

    Models the parts of [measurement_proxy/tunnel.c] that compute: the command
    line, the choice of the SSH authentication, the parsing of what the remote
    side prints, the commands that are run, the forwarding of packets between
    the TUN device and the UDP tunnel, and the end of the session.  libssh, the
    shell and [getopt] answer through arguments; SCP transfers are pure I/O and
    left out.  A write outside an array is [None]. *)

From S2P Require Import Prelude.
From S2P Require Import ParseNumber.
From S2P Require Import CLib.
From S2P Require Import Addr.
From S2P Require Import Stun.
From S2P Require Import Device.
From S2P Require Import Proxy.
Import Device Proxy.

Module Tunnel.

(** ** Bounded C strings *)

(** The string in a buffer; [None] when no NUL ends it. *)
Definition c_string (buf : bytes) : option bytes :=
  ASSERT existsb (Z.eqb 0) buf in Some (cstr buf).
(** [strcat] and [strncat] into an array of [size] bytes that holds [dst]. *)
Definition strcat (size : Z) (dst src : bytes) : option bytes :=
  ASSERT Z.of_nat (length dst + length src) <? size in Some (dst ++ src).
(** [sprintf] into an array of [size] bytes. *)
Definition sprintf (size : Z) (text : bytes) : option bytes :=
  ASSERT Z.of_nat (length text) <? size in Some text.
Abbreviation dec_int := BAddr.dec_int.

Definition ch_colon : Z := 58.
Definition ch_at : Z := 64.
Definition chr (c : string) : Z := match bs c with [x] => x | _ => 0 end.

(** ** The command line *)

Record tunnel_args := TArgs {
  port : Z; socksport : Z; iface_out : bytes; tundevice : option bytes; nameserver : bytes;
  shost : option bytes; sport : Z; suser : option bytes; spass : option bytes; skeyfile : option bytes;
  stunserver : bytes; stunport : Z; use_sudo_local : bool; use_sudo_remote : bool;
}.

(** The initial values; [sudo] is the result of the check for sudo. *)
Definition default_args (sudo : bool) : tunnel_args :=
  TArgs 0 8880 (bs "eth0") None (bs "8.8.8.8") None 22 None None None (bs "stun.schlund.de") 3478 sudo true.

(** [colon = strchr(s, ':')]: the text before it and the port after it. *)
Definition cut_port (s : bytes) (old : Z) : bytes * Z :=
  match strchr s ch_colon with
  | Some (host, rest) => (host, to_int (fst (strtol10 rest)))
  | None => (s, old)
  end.

Definition su_or_sudo (s : bytes) : option bool :=
  if bool_decide (s = bs "su") then Some false else if bool_decide (s = bs "sudo") then Some true else None.

(** One option that [getopt] returns; [None] prints the usage and ends. *)
Definition apply_opt (a : tunnel_args) (opt : Z) (optarg : bytes) : option tunnel_args :=
  let '(TArgs po so ifa td ns sh sp su pw ke ss st ul ur) := a in
  if opt =? chr "P" then Some (TArgs (atoi optarg) so ifa td ns sh sp su pw ke ss st ul ur)
  else if opt =? chr "D" then Some (TArgs po (atoi optarg) ifa td ns sh sp su pw ke ss st ul ur)
  else if opt =? chr "I" then Some (TArgs po so optarg td ns sh sp su pw ke ss st ul ur)
  else if opt =? chr "T" then Some (TArgs po so ifa (Some optarg) ns sh sp su pw ke ss st ul ur)
  else if opt =? chr "n" then Some (TArgs po so ifa td optarg sh sp su pw ke ss st ul ur)
  else if opt =? chr "s" then
    let '(h, p) := cut_port optarg sp in Some (TArgs po so ifa td ns (Some h) p su pw ke ss st ul ur)
  else if opt =? chr "l" then Some (TArgs po so ifa td ns sh sp (Some optarg) pw ke ss st ul ur)
  else if opt =? chr "p" then Some (TArgs po so ifa td ns sh sp su (Some optarg) ke ss st ul ur)
  else if opt =? chr "i" then Some (TArgs po so ifa td ns sh sp su pw (Some optarg) ss st ul ur)
  else if opt =? chr "S" then
    let '(h, p) := cut_port optarg st in Some (TArgs po so ifa td ns sh sp su pw ke h p ul ur)
  else if opt =? chr "e" then
    match su_or_sudo optarg with Some b => Some (TArgs po so ifa td ns sh sp su pw ke ss st b ur) | None => None end
  else if opt =? chr "E" then
    match su_or_sudo optarg with Some b => Some (TArgs po so ifa td ns sh sp su pw ke ss st ul b) | None => None end
  else None.

Fixpoint apply_opts (a : tunnel_args) (opts : list (Z * bytes)) : option tunnel_args :=
  match opts with
  | [] => Some a
  | (c, v) :: opts => LET a <- apply_opt a c v in apply_opts a opts
  end.

Definition set_suser u a := TArgs a.(port) a.(socksport) a.(iface_out) a.(tundevice) a.(nameserver) a.(shost) a.(sport) u
  a.(spass) a.(skeyfile) a.(stunserver) a.(stunport) a.(use_sudo_local) a.(use_sudo_remote).
Definition set_shost h a := TArgs a.(port) a.(socksport) a.(iface_out) a.(tundevice) a.(nameserver) h a.(sport) a.(suser)
  a.(spass) a.(skeyfile) a.(stunserver) a.(stunport) a.(use_sudo_local) a.(use_sudo_remote).

(** [[user@]host[:port]]: the arguments, the host and the port. *)
Definition parse_remote (a : tunnel_args) (arg : bytes) : tunnel_args * bytes * Z :=
  let '(rest, rport) := cut_port arg 0 in
  let '(a, rhost) :=
    match strchr rest ch_at with
    | Some (user, host) => (set_suser (Some user) a, host)
    | None => (a, rest)
    end in
  let a := match a.(shost) with None => set_shost (Some rhost) a | Some _ => a end in
  (a, rhost, rport).

(** The options and the remote host; [None] ends with the usage. *)
Definition parse_command (sudo : bool) (opts : list (Z * bytes)) (remote : option bytes) : option (tunnel_args * bytes * Z) :=
  LET a <- apply_opts (default_args sudo) opts in
  LET arg <- remote in
  Some (parse_remote a arg).

(** ** SSH authentication *)

Inductive ssh_auth_rc := SSH_AUTH_SUCCESS | SSH_AUTH_DENIED | SSH_AUTH_OTHER.
#[export] Instance ssh_auth_rc_eq_dec : EqDecision ssh_auth_rc.
Proof. solve_decision. Defined.

Record ssh_answers := SshAnswers {
  none_rc : ssh_auth_rc;
  can_password : bool; can_publickey : bool;   (* ssh_userauth_list *)
  password_rc : ssh_auth_rc; keyfile_rc : ssh_auth_rc; autopubkey_rc : ssh_auth_rc;
}.

(** Whether the session is established; otherwise the process exits. *)
Definition ssh_auth (spass skeyfile : option bytes) (s : ssh_answers) : bool :=
  if bool_decide (s.(none_rc) = SSH_AUTH_SUCCESS) then false
  else
    let denied := bool_decide (s.(none_rc) = SSH_AUTH_DENIED) in
    let m_password := if denied then s.(can_password) else true in
    let m_publickey := if denied then s.(can_publickey) else true in
    if bool_decide (spass <> None) && m_password && bool_decide (s.(password_rc) = SSH_AUTH_SUCCESS) then true
    else if bool_decide (skeyfile <> None) && m_publickey then bool_decide (s.(keyfile_rc) = SSH_AUTH_SUCCESS)
    else bool_decide (s.(autopubkey_rc) = SSH_AUTH_SUCCESS).

(** ** What the remote side prints *)

Definition proxy_filename : bytes := bs "proxy".
Definition proxy_filename_with_location : bytes := bs "/home/measurement-proxy/proxy".

(** The loop that looks for "ARCH="; [reads] are the results of
    [ssh_channel_read] until it returns nothing. *)
Fixpoint arch_loop (reads : list bytes) (buffer arch : bytes) : option (bytes * bytes) :=
  match reads with
  | [] => Some (buffer, arch)
  | d :: reads =>
      let buffer := fill d buffer in
      LET s <- c_string buffer in
      match strstr_after s (bs "ARCH=") with
      | Some rest =>
          LET arch <- strcat 16 arch proxy_filename_with_location in
          LET arch <- strcat 16 arch (bs "-") in
          LET arch <- strcat 16 arch (take_cspn rest [13; 10]) in
          Some (buffer, arch)
      | None => arch_loop reads buffer arch
      end
  end.

(** The loop that looks for "TUNIP=" and "CONNECT=". *)
Fixpoint connect_loop (reads : list bytes) (buffer tunip host : bytes) : option (bytes * bytes * bytes) :=
  match reads with
  | [] => Some (buffer, tunip, host)
  | d :: reads =>
      let buffer := fill d buffer in
      LET s <- c_string buffer in
      LET tunip <- (match strstr_after s (bs "TUNIP=") with
                    | Some rest => strcat 128 [] (take_cspn rest [32])
                    | None => Some tunip
                    end) in
      match strstr_after s (bs "CONNECT=") with
      | Some rest => LET host <- strcat 128 host (take_cspn rest [13; 10]) in Some (buffer, tunip, host)
      | None => connect_loop reads buffer tunip host
      end
  end.

(** The tunnel address, the proxy's host and its port; the inner [None] is the
    exit when no "CONNECT=" was read. *)
Definition read_connect (reads : list bytes) (buffer : bytes) : option (option (bytes * bytes * Z)) :=
  LET r <- connect_loop reads buffer [] [] in
  let '(_, tunip, host) := r in
  match host with
  | [] => Some None
  | _ => let '(h, p) := cut_port host 0 in Some (Some (tunip, h, p))
  end.

(** ** Commands *)

Definition quote : Z := 34.
Definition kill_command (sudo : bool) : bytes :=
  (if sudo then bs "sudo killall " ++ proxy_filename
   else bs "su -c " ++ [quote] ++ bs "killall " ++ proxy_filename ++ [quote])
  ++ bs "; echo " ++ [quote] ++ bs "ARCH" ++ [quote] ++ bs "=$(getconf LONG_BIT)".

(** [mapped] is the external address of the local endpoint. *)
Definition start_command (sudo : bool) (rport : Z) (mapped : sockaddr_in) : bytes :=
  let args := bs "./" ++ proxy_filename ++ bs " eth0 " ++ dec_int rport ++ bs " " ++ inet_ntoa (le_enc 4 mapped.(sin_addr))
              ++ bs " " ++ dec_repr (be_dec (le_enc 2 mapped.(sin_port))) ++ bs " &" in
  if sudo then bs "sudo -S " ++ args else bs "su -c " ++ [quote] ++ args ++ [quote].

(** ** Packets *)

(** [tun_packet_received]: the datagram sent to the proxy, if any.  A packet
    too short for the protocol field reads outside it. *)
Definition tun_packet_received (buf : bytes) : option (option bytes) :=
  LET protocol <- buf !! 9%nat in
  if negb (protocol =? IPPROTO_TCP) then Some (Some buf) else Some None.

(** The child process: the first datagram is discarded, every other one that is
    not empty is written to the device. *)
Fixpoint child_loop (mtu : Z) (datagrams : list bytes) : option (list bytes) :=
  match datagrams with
  | [] => Some []
  | [] :: ds => child_loop mtu ds
  | d :: ds => LET w <- tun2socks_write mtu d in LET r <- child_loop mtu ds in Some (w :: r)
  end.
Definition child (mtu : Z) (datagrams : list bytes) : option (list bytes) := child_loop mtu (drop 1 datagrams).

(** ** The session *)

Inductive tunnel_action :=
  | TSystem (cmd : bytes)
  | TRun                        (* tun2socks_run *)
  | TSendProxy (d : bytes)      (* sendto(sock_udp_tun, ...) *)
  | TKill (who : string)
  | TUnlink (file : bytes).

Definition resolv_filename : bytes := bs "/etc/netns/tunnel/resolv.conf".

(** From the configuration of the TUN device to the end of [main]. *)
Definition tunnel_session (tundevice tunip : bytes) : option (list tunnel_action) :=
  LET cmd <- sprintf 128 (bs "/sbin/ip link set " ++ tundevice ++ bs " netns tunnel") in
  LET up <- sprintf BUFLEN (bs "/sbin/ip netns exec tunnel ip link set dev " ++ tundevice ++ bs " up") in
  LET addr <- sprintf BUFLEN (bs "/sbin/ip netns exec tunnel ip addr add " ++ tunip ++ bs "/32 dev " ++ tundevice) in
  LET route <- sprintf BUFLEN (bs "/sbin/ip netns exec tunnel ip route add default  via " ++ tunip) in
  Some [TSystem cmd; TSystem up; TSystem addr; TSystem route; TRun; TSendProxy (bs "EXIT"); TKill "child"; TKill "sshpid";
        TSystem route; TUnlink resolv_filename].

(** The arguments of the SSH client that provides the SOCKS server. *)
Definition ssh_ports (sport socksport : Z) : option (bytes * bytes) :=
  LET s <- sprintf 10 (dec_int sport) in
  LET k <- sprintf 10 (dec_int socksport) in
  Some (s, k).
Definition socks_address (socksport : Z) : option bytes := sprintf 32 (bs "127.0.0.1:" ++ dec_int socksport).

(** ** Lemmas *)

Lemma cut_port_app host p old :
  Forall (fun c => c <> ch_colon) host -> 0 <= p <= 65535 -> cut_port (host ++ ch_colon :: dec_repr p) old = (host, p).
Proof.
  intros Hh Hp. unfold cut_port. rewrite strchr_app by done.
  destruct (BAddr.dec_repr_spec p) as (V & D & N); [unfold UINT64_MAX; lia|].
  rewrite strtol10_digits by (done || (unfold LONG_MAX; lia)). cbn [fst]. rewrite V, to_int_small by lia. done.
Qed.
Lemma cut_port_none host old : Forall (fun c => c <> ch_colon) host -> cut_port host old = (host, old).
Proof. intros Hh. unfold cut_port. apply strchr_None in Hh. by rewrite Hh. Qed.

Lemma after_prefix_app p s : after_prefix p (p ++ s) = Some s.
Proof. induction p as [|x p IH]; [done|]. cbn. by rewrite Z.eqb_refl. Qed.
Lemma strstr_here needle s : strstr_after (needle ++ s) needle = Some s.
Proof. destruct (needle ++ s) eqn:E; cbn; rewrite <- E, after_prefix_app; done. Qed.

Lemma take_cspn_app a c s reject :
  Forall (fun x => existsb (Z.eqb x) reject = false) a -> existsb (Z.eqb c) reject = true -> take_cspn (a ++ c :: s) reject = a.
Proof. induction 1 as [|x a Hx Ha IH]; intros Hc; cbn; [by rewrite Hc|]. rewrite Hx, IH by done. done. Qed.

(** The text of an address: digits and dots. *)
Definition ip_char (c : Z) : Prop := is_digit c \/ c = 46.
Lemma inet_ntoa_chars ip : bytes_ok ip -> length ip = 4%nat -> Forall ip_char (inet_ntoa ip) /\ (length (inet_ntoa ip) <= 15)%nat.
Proof.
  intros Hb Hl. destruct ip as [|a [|b [|c [|d [|]]]]]; try done. unfold inet_ntoa, is_byte in *.
  repeat match goal with H : Forall _ (_ :: _) |- _ => apply Forall_cons in H as [? H] end.
  assert (forall x, is_byte x -> Forall ip_char (dec_repr x) /\ (length (dec_repr x) <= 3)%nat) as Hd.
  { intros x Hx. unfold is_byte in Hx. destruct (BAddr.dec_repr_spec x) as (_ & D & _); [unfold UINT64_MAX; lia|]. split.
    - eapply Forall_impl; [exact D|]. intros y Hy. by left.
    - apply BAddr.dec_repr_length; [lia|]. cbn. lia. }
  assert (Forall ip_char (bs ".")) as Hdot by (repeat constructor).
  destruct (Hd a), (Hd b), (Hd c), (Hd d); try done. split.
  - repeat (apply Forall_app; split); done.
  - rewrite !length_app. cbn [length]. change (length (bs ".")) with 1%nat. lia.
Qed.

Lemma cstr_plain a s : Forall (fun c => c <> 0) a -> cstr (a ++ s) = a ++ cstr s.
Proof. induction 1 as [|x a Hx Ha IH]; [done|]. cbn. destruct (Z.eqb_spec x 0); [done|]. by rewrite IH. Qed.
Lemma c_string_fill a buf : Forall (fun c => c <> 0) a -> In 0 (drop (length a) buf) ->
  c_string (fill a buf) = Some (a ++ cstr (drop (length a) buf)).
Proof.
  intros Ha Hin. unfold c_string, fill. rewrite existsb_app.
  assert (existsb (Z.eqb 0) (drop (length a) buf) = true) as -> by (apply existsb_exists; by exists 0).
  rewrite orb_true_r. by rewrite cstr_plain.
Qed.

Lemma strstr_skip pre c needle s : Forall (fun x => x <> c) pre ->
  strstr_after (pre ++ s) (c :: needle) = strstr_after s (c :: needle).
Proof.
  induction 1 as [|x pre Hx _ IH]; [done|]. cbn [app strstr_after after_prefix].
  destruct (Z.eqb_spec c x); [by subst|]. exact IH.
Qed.

Lemma ip_char_ne c x : ip_char c -> ~ is_digit x -> x <> 46 -> c <> x.
Proof. intros [H| ->] Hx H46; [by intros ->|done]. Qed.

(** The lines the proxy prints, as text. *)
Lemma tunip_line_chars ip : bytes_ok ip -> length ip = 4%nat ->
  exists t, tunip_line ip = bs "TUNIP=" ++ t ++ [32; 10] /\ t = inet_ntoa ip /\ Forall ip_char t /\ (length t <= 15)%nat.
Proof. intros Hb Hl. destruct (inet_ntoa_chars ip Hb Hl). by eexists. Qed.

Lemma no_nul_ip t : Forall ip_char t -> Forall (fun c => c <> 0) t.
Proof. intros H. eapply Forall_impl; [exact H|]. intros x Hx. apply (ip_char_ne x 0 Hx); unfold is_digit, chr_0; lia. Qed.

(** Reading the first line. *)
Lemma connect_loop_tunip t reads buf tunip host :
  Forall ip_char t -> (length t <= 15)%nat ->
  let line := bs "TUNIP=" ++ t ++ [32; 10] in
  In 0 (drop (length line) buf) -> strstr_after (cstr (drop (length line) buf)) (bs "CONNECT=") = None ->
  connect_loop (line :: reads) buf tunip host = connect_loop reads (fill line buf) t host.
Proof.
  intros Ht Hl line Hin Hc. cbn [connect_loop].
  rewrite c_string_fill; [|unfold line; repeat (apply Forall_app; split); [by repeat constructor|by apply no_nul_ip|by repeat constructor]|done].
  set (tail := cstr (drop (length line) buf)) in *.
  assert (strstr_after (line ++ tail) (bs "CONNECT=") = None) as ->.
  { unfold line. change (bs "CONNECT=") with (67 :: bs "ONNECT=") in Hc |- *. rewrite <- !app_assoc.
    rewrite strstr_skip by (by repeat constructor). rewrite strstr_skip.
    2: { eapply Forall_impl; [exact Ht|]. intros x Hx. apply (ip_char_ne x 67 Hx); unfold is_digit, chr_9; lia. }
    rewrite strstr_skip by (by repeat constructor). exact Hc. }
  unfold line at 1. rewrite <- !app_assoc, strstr_here.
  change (t ++ [32; 10] ++ tail) with (t ++ 32 :: 10 :: tail). rewrite take_cspn_app; [| |done].
  - unfold strcat. cbn [length Nat.add app]. by rewrite (proj2 (Z.ltb_lt _ _)) by lia.
  - eapply Forall_impl; [exact Ht|]. intros x Hx. cbn. rewrite orb_false_r. apply Z.eqb_neq.
    apply (ip_char_ne x 32 Hx); unfold is_digit, chr_0; lia.
Qed.

(** Reading the second one. *)
Lemma connect_loop_connect h p reads buf tunip :
  Forall ip_char h -> (length h <= 15)%nat -> 0 <= p <= 65535 ->
  let line := bs "CONNECT=" ++ h ++ bs ":" ++ dec_repr p ++ [10] in
  In 0 (drop (length line) buf) -> strstr_after (cstr (drop (length line) buf)) (bs "TUNIP=") = None ->
  connect_loop (line :: reads) buf tunip [] = Some (fill line buf, tunip, h ++ ch_colon :: dec_repr p).
Proof.
  intros Hh Hl Hp line Hin Ht. destruct (BAddr.dec_repr_spec p) as (_ & D & _); [unfold UINT64_MAX; lia|].
  assert (length (dec_repr p) <= 5)%nat as Lp by (apply BAddr.dec_repr_length; [lia|cbn; lia]).
  assert (Forall ip_char (dec_repr p)) as Dp by (eapply Forall_impl; [exact D|]; intros y Hy; by left).
  cbn [connect_loop].
  rewrite c_string_fill;
    [|unfold line; repeat (apply Forall_app; split);
      first [by apply no_nul_ip|by repeat constructor]|done].
  set (tail := cstr (drop (length line) buf)) in *.
  assert (strstr_after (line ++ tail) (bs "TUNIP=") = None) as ->.
  { unfold line. rewrite <- !app_assoc.
    transitivity (strstr_after (h ++ bs ":" ++ dec_repr p ++ [10] ++ tail) (bs "TUNIP=")); [reflexivity|].
    change (bs "TUNIP=") with (84 :: bs "UNIP=") in Ht |- *.
    assert (forall t, Forall ip_char t -> Forall (fun x => x <> 84) t) as H84
      by (intros t H; eapply Forall_impl; [exact H|]; intros x Hx; apply (ip_char_ne x 84 Hx); unfold is_digit, chr_9; lia).
    rewrite strstr_skip by (by apply H84). rewrite strstr_skip by (by repeat constructor).
    rewrite strstr_skip by (by apply H84). rewrite strstr_skip by (by repeat constructor). exact Ht. }
  unfold line at 1. rewrite <- !app_assoc, strstr_here.
  assert (take_cspn (h ++ bs ":" ++ dec_repr p ++ [10] ++ tail) [13; 10] = h ++ ch_colon :: dec_repr p) as ->.
  { change (h ++ bs ":" ++ dec_repr p ++ [10] ++ tail) with (h ++ [ch_colon] ++ dec_repr p ++ 10 :: tail).
    rewrite !app_assoc. rewrite take_cspn_app; [by rewrite <- app_assoc| |done].
    assert (forall t, Forall ip_char t -> Forall (fun x => existsb (Z.eqb x) [13; 10] = false) t) as Hn.
    { intros t H. eapply Forall_impl; [exact H|]. intros x Hx. cbn. rewrite orb_false_r. apply orb_false_iff.
      split; apply Z.eqb_neq; [apply (ip_char_ne x 13 Hx)|apply (ip_char_ne x 10 Hx)]; unfold is_digit, chr_0; lia. }
    repeat (apply Forall_app; split); [by apply Hn|by repeat constructor|by apply Hn]. }
  unfold strcat. cbn [length Nat.add app]. rewrite length_app. cbn [length]. rewrite (proj2 (Z.ltb_lt _ _)) by lia. done.
Qed.

End Tunnel.
Import Tunnel.

(** The remote host argument is parsed exactly: [user@host:port], where the
    user has no ':' or '@' and the host no ':' or '@', gives back the three
    parts; the SSH host is the remote host unless -s set it. *)
Theorem remote_roundtrip a user host rport :
  Forall (fun c => c <> ch_colon /\ c <> ch_at) user -> Forall (fun c => c <> ch_colon /\ c <> ch_at) host -> 0 <= rport <= 65535 ->
  parse_remote a (user ++ ch_at :: host ++ ch_colon :: dec_repr rport) =
    (match a.(shost) with None => set_shost (Some host) (set_suser (Some user) a) | Some _ => set_suser (Some user) a end, host, rport) /\
  parse_remote a host = (match a.(shost) with None => set_shost (Some host) a | Some _ => a end, host, 0).
Proof.
  intros Hu Hh Hp.
  assert (Forall (fun c => c <> ch_colon) user /\ Forall (fun c => c <> ch_at) user) as [Hu1 Hu2]
    by (split; eapply Forall_impl; try exact Hu; by intros ? []).
  assert (Forall (fun c => c <> ch_colon) host /\ Forall (fun c => c <> ch_at) host) as [Hh1 Hh2]
    by (split; eapply Forall_impl; try exact Hh; by intros ? []).
  unfold parse_remote. split.
  - rewrite app_comm_cons, app_assoc, cut_port_app; [|apply Forall_app; split; [done|]; by constructor|done].
    rewrite strchr_app by done. by destruct (shost a) eqn:E; cbn [shost set_suser]; rewrite E.
  - rewrite cut_port_none by done. apply strchr_None in Hh2. rewrite Hh2. done.
Qed.

Lemma remote_roundtrip_witness :
  parse_remote (default_args true) (bs "alice" ++ ch_at :: bs "example.org" ++ ch_colon :: dec_repr 4000) =
    (set_shost (Some (bs "example.org")) (set_suser (Some (bs "alice")) (default_args true)), bs "example.org", 4000) /\
  parse_remote (default_args true) (bs "example.org") = (set_shost (Some (bs "example.org")) (default_args true), bs "example.org", 0).
Proof.
  apply (remote_roundtrip (default_args true) (bs "alice") (bs "example.org") 4000); [| |lia];
    apply (bool_decide_unpack _); vm_compute; exact I.
Defined.

(** An SSH session counts as established only after an authentication
    method succeeded, and a key file given on the command line is binding: when
    it is tried and fails, no other method is. *)
Theorem ssh_auth_sound spass skeyfile s :
  ssh_auth spass skeyfile s = true ->
  (spass <> None /\ s.(password_rc) = SSH_AUTH_SUCCESS) \/
  (skeyfile <> None /\ s.(keyfile_rc) = SSH_AUTH_SUCCESS) \/
  (s.(autopubkey_rc) = SSH_AUTH_SUCCESS /\
   (skeyfile = None \/ (s.(none_rc) = SSH_AUTH_DENIED /\ s.(can_publickey) = false))).
Proof.
  unfold ssh_auth. destruct s as [nr cp ck pr kr ar]. cbn.
  destruct nr, cp, ck, pr, kr, ar, spass, skeyfile; cbn; intros H; try discriminate H;
    solve [left; split; done|right; left; split; done|right; right; split; [done|by left]|right; right; split; [done|by right]].
Qed.

Lemma ssh_auth_sound_witness :
  (Some (bs "pw") <> None /\ SSH_AUTH_SUCCESS = SSH_AUTH_SUCCESS) \/
  ((None : option bytes) <> None /\ SSH_AUTH_OTHER = SSH_AUTH_SUCCESS) \/
  (SSH_AUTH_DENIED = SSH_AUTH_SUCCESS /\ ((None : option bytes) = None \/ (SSH_AUTH_DENIED = SSH_AUTH_DENIED /\ false = false))).
Proof.
  apply (ssh_auth_sound (Some (bs "pw")) None (SshAnswers SSH_AUTH_DENIED true false SSH_AUTH_SUCCESS SSH_AUTH_OTHER SSH_AUTH_DENIED)).
  reflexivity.
Defined.

(** What the proxy prints is what the tunnel reads.  When the two lines that
    [proxy_start] prints arrive (each in one read, and the rest of the buffer
    does not hold such a line already), the tunnel obtains exactly the
    interface address, the mapped address and the mapped port, within its
    128-byte arrays. *)
Theorem announce_roundtrip ip mapped buf :
  bytes_ok ip -> length ip = 4%nat -> 0 <= mapped.(sin_port) < 65536 ->
  let connect := connect_host mapped ++ connect_port mapped in
  In 0 (drop (length (tunip_line ip)) buf) -> In 0 (drop (length connect) (fill (tunip_line ip) buf)) ->
  strstr_after (cstr (drop (length (tunip_line ip)) buf)) (bs "CONNECT=") = None ->
  strstr_after (cstr (drop (length connect) (fill (tunip_line ip) buf))) (bs "TUNIP=") = None ->
  read_connect [tunip_line ip; connect] buf =
    Some (Some (inet_ntoa ip, inet_ntoa (le_enc 4 mapped.(sin_addr)), be_dec (le_enc 2 mapped.(sin_port)))).
Proof.
  intros Hb Hl Hp connect N1 N2 S1 S2. destruct (inet_ntoa_chars ip Hb Hl) as [C1 L1].
  destruct (inet_ntoa_chars (le_enc 4 (sin_addr mapped)) (le_enc_bytes _ _) (le_enc_length _ _)) as [C2 L2].
  set (h := inet_ntoa (le_enc 4 (sin_addr mapped))) in *. set (p := be_dec (le_enc 2 (sin_port mapped))).
  assert (0 <= p <= 65535) as Rp.
  { pose proof (be_dec_bound (le_enc 2 (sin_port mapped)) (le_enc_bytes _ _)) as H. rewrite le_enc_length in H. fold p in H. change (256 ^ Z.of_nat 2) with 65536 in H. lia. }
  assert (connect = bs "CONNECT=" ++ h ++ bs ":" ++ dec_repr p ++ [10]) as Ec
    by (unfold connect, connect_host, connect_port; by rewrite <- !app_assoc).
  unfold read_connect. unfold tunip_line in *. rewrite (connect_loop_tunip (inet_ntoa ip)) by done. rewrite Ec in *.
  rewrite (connect_loop_connect h p) by done. destruct (h ++ ch_colon :: dec_repr p) eqn:E; [by destruct h|]. rewrite <- E.
  rewrite cut_port_app; [done| |done]. eapply Forall_impl; [exact C2|]. intros x Hx.
  apply (ip_char_ne x ch_colon Hx); unfold is_digit, chr_9, ch_colon; lia.
Qed.

Lemma announce_roundtrip_witness :
  read_connect [tunip_line [10; 0; 0; 1]; connect_host (SockIn 53764 570538077) ++ connect_port (SockIn 53764 570538077)] (repeat 0 64) =
    Some (Some (inet_ntoa [10; 0; 0; 1], inet_ntoa (le_enc 4 570538077), be_dec (le_enc 2 53764))).
Proof.
  apply (announce_roundtrip [10; 0; 0; 1] (SockIn 53764 570538077) (repeat 0 64)); try reflexivity.
  - repeat constructor; unfold is_byte; lia.
  - cbn. lia.
  - vm_compute. by left.
  - vm_compute. by left.
Defined.

(** C32: a packet crosses the tunnel end to end.  An IPv4 packet that is read
    from the TUN device and is not TCP is sent to the proxy as one datagram, and
    the proxy puts exactly that packet on the wire for its destination, for UDP
    after it opened a socket on the packet's source port (whose descriptor has
    to fit the port table); a TCP packet is sent nowhere (lwIP handles it).  In
    the other direction, an IPv4 frame for the proxy's interface, UDP answers
    included, that is not TCP and not a UDP packet from the client's address and
    the configured remote port to the listening port (the tunnel's own) goes
    back through the tunnel and reaches the TUN device as the same packet,
    provided it fits the device's MTU.  Packets have at least four bytes behind
    a header of twenty and their frames fit the buffer. *)
Theorem tunnel_end_to_end p pre protocol check saddr daddr rest fd :
  proxy_ok p -> ip_fields pre protocol check saddr daddr -> (4 <= length rest)%nat ->
  34 + Z.of_nat (length rest) <= BUFLEN -> (protocol = IPPROTO_UDP -> 0 <= fd < Z.of_nat FD_SETSIZE) ->
  let packet := ip_packet pre protocol check saddr daddr rest in
  (protocol = IPPROTO_TCP -> tun_packet_received packet = Some None) /\
  (protocol <> IPPROTO_TCP ->
   tun_packet_received packet = Some (Some packet) /\
   exists p', handle_udp p (Some packet) fd = Some p' /\
     p'.(out) = p.(out) ++ (if protocol =? IPPROTO_UDP then [BindFake (le_dec (take 2 rest))] else []) ++ [SendRaw packet daddr]) /\
  (forall dmac smac mtu first,
   length dmac = 6%nat -> length smac = 6%nat -> Z.of_nat (length packet) <= mtu -> daddr = p.(if_raw_addr) -> protocol <> IPPROTO_TCP ->
   ~ (protocol = IPPROTO_UDP /\ saddr = p.(udp_client_ip) /\ be_dec (take 2 rest) = p.(rport) /\ be_dec (take 2 (drop 2 rest)) = p.(Proxy.port)) ->
   (exists p', handle_raw p (Some (eth_frame dmac smac ETH_P_IP packet)) = Some p' /\ p'.(out) = p.(out) ++ [SendTunnel packet]) /\
   child mtu [first; packet] = Some [packet]).
Proof.
  intros Hp Hf Hr Hlen Hfd packet. destruct (packet_fields pre protocol check saddr daddr rest Hf) as (F1 & _ & _ & _ & Ld).
  assert (packet !! 9%nat = Some protocol) as H9.
  { unfold packet, ip_packet. destruct Hf as (Lp & _). rewrite lookup_app_r by lia. by rewrite Lp. }
  unfold tun_packet_received. rewrite H9. split; [by intros ->|]. split.
  - intros Ht. destruct (Z.eqb_spec protocol IPPROTO_TCP) as [|_]; [done|]. split; [done|].
    destruct (relay_packet p pre protocol check saddr daddr rest fd Hp Hf Hr ltac:(lia) Hfd) as (p' & E & _ & Ho).
    exists p'. split; [exact E|]. rewrite Ho. destruct (Z.eqb_spec protocol IPPROTO_TCP); [done|]. by destruct (protocol =? IPPROTO_UDP).
  - intros dmac smac mtu first Hdm Hsm Hm Hd Ht Hu. split.
    + destruct (relay_frame p dmac smac pre protocol check saddr daddr rest Hp Hdm Hsm Hf Hr Hlen) as (p' & E & Ho). exists p'. split; [exact E|].
      rewrite Ho, bool_decide_true, (own_relayed p protocol saddr rest Ht Hu) by done. done.
    + unfold child. cbn [drop child_loop]. clear -Ld Hm. fold packet in Ld. clearbody packet.
      destruct packet as [|b0 q]; [cbn in Ld; lia|].
      unfold tun2socks_write, BTap_Send. rewrite (proj2 (Z.leb_le 0 _)) by lia. by rewrite (proj2 (Z.leb_le _ mtu)).
Qed.

(** A UDP query and its answer. *)
Definition sample_answer : bytes := ip_packet (repeat 69 9) IPPROTO_UDP [0; 0] [93; 184; 216; 34] [10; 0; 0; 1] (bs "abcdefgh").
Lemma tunnel_end_to_end_witness :
  (exists p', handle_udp (sample_proxy zero_buffer) (Some sample_packet) 6 = Some p' /\
     p'.(out) = (sample_proxy zero_buffer).(out) ++ [BindFake (le_dec (bs "ab")); SendRaw sample_packet [93; 184; 216; 34]]) /\
  (exists p', handle_raw (sample_proxy zero_buffer) (Some (eth_frame (repeat 2 6) (repeat 3 6) ETH_P_IP sample_answer)) = Some p' /\
     p'.(out) = (sample_proxy zero_buffer).(out) ++ [SendTunnel sample_answer]) /\
  child 1500 [bs "OPEN!"; sample_answer] = Some [sample_answer].
Proof.
  assert (34 + Z.of_nat (length (bs "abcdefgh")) <= BUFLEN) as Hl by by compute.
  assert (IPPROTO_UDP = IPPROTO_UDP -> 0 <= 6 < Z.of_nat FD_SETSIZE) as Hfd by (intros _; unfold FD_SETSIZE; lia).
  split; [|].
  - apply (tunnel_end_to_end (sample_proxy zero_buffer) (repeat 69 9) IPPROTO_UDP [0; 0] [10; 0; 0; 1] [93; 184; 216; 34] (bs "abcdefgh") 6);
      [exact sample_proxy_ok|unfold ip_fields, IPPROTO_UDP; repeat split; lia|cbn; lia|exact Hl|exact Hfd|discriminate].
  - apply (tunnel_end_to_end (sample_proxy zero_buffer) (repeat 69 9) IPPROTO_UDP [0; 0] [93; 184; 216; 34] [10; 0; 0; 1] (bs "abcdefgh") 6);
      [exact sample_proxy_ok|unfold ip_fields, IPPROTO_UDP; repeat split; lia|cbn; lia|exact Hl|exact Hfd|reflexivity|reflexivity|by compute|reflexivity|discriminate|].
    intros (_ & H & _). discriminate H.
Defined.

(** The tunnel's file name array overflows as soon as the remote side
    answers.  Whatever follows "ARCH=" in what is read, appending the proxy's
    location (29 characters) writes outside the 16 bytes of
    [proxy_filename_arch]. *)
Theorem arch_overflows d reads buffer arch s rest :
  c_string (fill d buffer) = Some s -> strstr_after s (bs "ARCH=") = Some rest ->
  arch_loop (d :: reads) buffer arch = None.
Proof.
  intros Hs Hr. cbn [arch_loop]. rewrite Hs, Hr. unfold strcat.
  change (length proxy_filename_with_location) with 29%nat. by rewrite (proj2 (Z.ltb_ge _ _)) by lia.
Qed.

Lemma arch_overflows_witness : arch_loop [bs "ARCH=64" ++ [13; 10]] (repeat 0 64) [] = None.
Proof. eapply arch_overflows; vm_compute; reflexivity. Defined.

(** The child that writes tunnel packets to the device survives exactly the
    datagrams that fit the device: it writes every non-empty datagram after the
    first, in order and unchanged, when all of them fit the MTU, and fails an
    assertion of [BTap_Send] when one does not. *)
Theorem child_writes mtu first ds :
  child mtu (first :: ds) =
    if forallb (fun d => Z.of_nat (length d) <=? mtu) (List.filter (fun d => negb (length d =? 0)%nat) ds)
    then Some (List.filter (fun d => negb (length d =? 0)%nat) ds) else None.
Proof.
  unfold child. cbn [drop]. rewrite drop_0. induction ds as [|d ds IH]; [done|].
  destruct d as [|b d]; [exact IH|]. cbn [child_loop]. rewrite IH. unfold tun2socks_write, BTap_Send.
  rewrite (proj2 (Z.leb_le 0 _)) by lia. cbn [List.filter length Nat.eqb negb forallb].
  destruct (_ <=? mtu); cbn [andb]; [|done]. by destruct (forallb _ _).
Qed.

(** The last command of the session is the one that added the default route,
    run a second time, since the buffer still holds it. *)
Theorem session_ends tundevice tunip : (length tundevice <= 15)%nat -> (length tunip <= 127)%nat ->
  exists cmds route, tunnel_session tundevice tunip =
    Some (cmds ++ [TSystem route; TRun; TSendProxy (bs "EXIT"); TKill "child"; TKill "sshpid"; TSystem route; TUnlink resolv_filename]).
Proof.
  intros Ht Hi. unfold tunnel_session, sprintf, BUFLEN.
  repeat (match goal with |- context [(Z.of_nat (length ?x) <? ?n)] =>
    assert ((Z.of_nat (length x) <? n) = true) as ->
      by (apply Z.ltb_lt; rewrite !length_app;
          repeat match goal with |- context [length (bs ?s)] => let n := eval vm_compute in (length (bs s)) in change (length (bs s)) with n end; lia) end; cbn iota).
  by exists (take 3 [TSystem (bs "/sbin/ip link set " ++ tundevice ++ bs " netns tunnel");
    TSystem (bs "/sbin/ip netns exec tunnel ip link set dev " ++ tundevice ++ bs " up");
    TSystem (bs "/sbin/ip netns exec tunnel ip addr add " ++ tunip ++ bs "/32 dev " ++ tundevice)]),
    (bs "/sbin/ip netns exec tunnel ip route add default  via " ++ tunip).
Qed.

(** A port option of ten digits overflows the array its text is written to. *)
Theorem ssh_port_overflows : ssh_ports 22 1234567890 = None /\ ssh_ports 22 8880 = Some (bs "22", bs "8880").
Proof. split; reflexivity. Qed.
